(* ===== verification/_CoqProject ===== *)
-Q . S2P
Prelude.v
RustStr.v
RustText.v
JsonValue.v
WatchPaths.v
StringEnum.v
F64.v
Sql.v
Webhook.v
AlertTypes.v
AlertEngine.v
AlertService.v
DeploymentDb.v
DeploymentInv.v
ApplicationState.v
Operations.v
BuilderQueue.v
QueueProps.v
DeploymentProps.v
RecoveryProps.v
DeploymentService.v
ServiceProps.v
PermissionDb.v
PermissionService.v
PermissionInv.v
PermissionProps.v
PermissionLimits.v
AuthDb.v
AuthService.v
AuthProps.v
AuthHistory.v
AuthSteps.v
AuthFacts.v
NetworkRules.v
NetworkDb.v
NetworkService.v
NetworkInv.v
NetworkLease.v
PreviewNames.v
PreviewDb.v
PreviewService.v
PreviewFacts.v
WebhookDispatch.v
ScheduleDb.v
ScheduleService.v
ScheduleFacts.v
ScheduleRunner.v
ShellQuote.v
ShellRules.v
ShellScript.v
ComposeYaml.v
ComposeTransform.v
ComposeFacts.v
TraefikRules.v
TraefikLabels.v
Domains.v
ComposeLabels.v
AgentFilter.v
AgentLogs.v
AgentDocker.v
AgentStream.v
AgentStore.v
AgentRollup.v
AgentCollector.v
AgentService.v
Monitoring.v
Reconciler.v
WireGuard.v
Projects.v
Rclone.v
Backups.v
BackupService.v
BackupApi.v
Vault.v
Notifications.v
NotificationLog.v
TraefikFiles.v
Certificates.v
Dns.v
Administration.v
