(* ===== verification/Prelude.v ===== *)
(** * OpenOxide: a verification development

    OpenOxide is a self-hosted deployment panel: HTTP handlers call services, services call
    SQLx repositories over one SQLite database, a builder queue runs deployments on servers, and
    background passes evaluate alert rules and watch the tunnels to the servers.  This library
    models the core of the panel as pure functions on explicit state, written after the Rust
    sources under [src/] and the tables of [db/migrations/], and proves what makes them correct.

    ** Shared files

    - [Prelude] (this file): results and the [?] notation, [i64] bounds, tactics, the hint
      database [oxide], list lemmas, and the state and error monad of the services with its laws.
    - [RustStr]: the [str] operations the code uses, on UTF-8 bytes, and [i64] rendering and
      parsing.
    - [RustText]: searching, splitting, joining, hexadecimal, on the same strings, the lossy
      decoding of bytes, and the components of paths.
    - [StringEnum]: the macro [string_enum!] ([crates/os]) as a class with one instance per
      invocation; a law class gives the round trips for all of them.
    - [JsonValue]: JSON values as [serde_json] has them, with the parser and printer as a class.
    - [F64]: the [f64] operations of the alert code, on primitive floats.
    - [Sql]: SQLite statements over tables.  A table is its rows in rowid order with its
      AUTOINCREMENT sequence; a [Schema] instance gives the id, CHECK and UNIQUE constraints; INSERT,
      UPDATE and DELETE run row by row and fail as a whole.  [table_wf] is the invariant, kept by
      every statement.  Text comparison is bytewise; a transaction is a composition of
      statements that returns the old state on an error.  The pool itself does not fail.

    ** Alerts ([src/services/alert], [src/db/repository/alert_rule.rs])

    [AlertTypes] has the enums, rule parsing and sample windows; [AlertEngine] the engine, whose
    state is the map from rule and target to window and last firing; [AlertService] the rules
    table of migration 0015, the rule cache, the readings and one evaluation pass.  Theorems: an
    alert is justified by a covering rule and reading and respects the cooldown; the
    floating-point fire ratio is exact for every window size the code admits; a fired window
    has to refill; retention drops exactly the dead rules; notifications stay in the tenant and
    respect maintenance; the cache equals the parsed table under sequential calls, and the
    interleaving in which it does not.

    ** Deployments ([src/db/repository/deployments.rs], [src/utils/builder], [src/services])

    [DeploymentDb] has every method of the deployment repository over the deployments table (0003,
    0005) and the columns it uses of the resource tables; [DeploymentInv] the invariant [db_wf],
    the operations as data ([DeployOp]) and its preservation by every history.
    [ApplicationState] is the in-memory map with tokens and watch channels (tokio's channel
    behind the class [Watch] with laws and a concrete instance); [Operations] the operation
    names; [BuilderQueue] dispatch, workers, outcome, notification, recovery and retry (the
    semaphore behind the class [Semaphore], likewise).  [DeploymentService] has the calls that
    start, stop, cancel, move, list and clean up, in the monad over database, in-memory
    state and queue.  [DeploymentProps], [QueueProps], [RecoveryProps] and [ServiceProps] show:
    at most one active deployment per resource under all interleavings of statements; a
    deployment is claimed once; the queue's step relation keeps the per-server limit in every
    reachable state, starts the oldest first and leaves no permit idle; finished deployments
    stay finished; recovery settles everything a crash left; each call's effect on every
    branch; and the calls that the CHECK constraints make fail.  The requests that queue a
    deployment are also programs, the list of the statements they have left, which interleave:
    the queue exceeds its maximum by less than the number of requests in progress.  Two
    statements on the table are not among the operations: the global clean-up of the queue
    ([services/global_op]), which cancels like the others, and the flag of previews.

    ** Permissions ([src/services/permission], [src/core/middleware/permission])

    [PermissionDb] has the tables of users, groups, policies, memberships, overrides, resource
    access, invitations and audit events with their repositories; [PermissionService] the check,
    the extractor and the group service; [PermissionInv] the table constraints under the calls;
    [PermissionProps] the meaning of a check as a predicate on the tables, the agreement
    of the two permission queries, and that delegation by non-administrators grants nothing
    beyond their own actions; [PermissionLimits] the life of an invitation and the operations
    the schema rejects.

    ** Authentication ([src/services/auth], [src/utils/jwt], [src/core/middleware])

    [AuthDb] has the tables of tokens, second factors, one-time tokens, personal access tokens and
    organizations beside the permission tables; [AuthService] the JWT service, every call of the
    authentication service and the [Claims] extractor, with concrete instances of its
    parameters.  [AuthProps] and [AuthHistory] state the abstract store of live tokens and prove
    that every history of calls refines it, hence that a refresh token works once; [AuthSteps] is
    the service as a transition system whose steps are its statements, with the invariant of
    the tables and one-time tokens that stay spent in any interleaving; [AuthFacts] what a login
    requires, recovery codes under races, password reset, revoked personal access tokens, and
    that every sign-up becomes an owner.

    ** Webhooks and previews ([src/services/webhook], [src/services/preview],
    [src/utils/watch_paths.rs])

    [WatchPaths] has the watch rules and the glob matcher, equal to a language of tokens;
    [Webhook] signatures, credentials, headers and the payloads of the five providers, and that
    a signature verifies exactly when it is the HMAC of the body; [WebhookDispatch] the handler
    that receives a request, the match of a push with applications and compose projects and
    their redeployment through [DeploymentService], and that only authenticated requests act.
    [PreviewNames] has the names and domains of previews, [PreviewDb] the table of migration 0018
    with its foreign keys to applications and deployments, [PreviewService] the life cycle of a
    pull request; [PreviewFacts] shows that targets without permission are skipped, that the
    limit of an application holds and that every target is accounted for, and what
    closing a pull request does; [WebhookDispatch] has concrete runs and the witnesses.

    ** Private networks ([src/services/server/private_network])

    [NetworkRules] has address allocation, validation and the retry policy (with the socket-address
    parser of the standard library) and their properties; [NetworkDb] the table of migrations 0035
    to 0037 with its operation lease; [NetworkService] every call of the service against the
    backend's trait; [NetworkInv] the invariant, the release of the lease on every path, what is
    done to the host and when; [NetworkLease] the lease as a transition system with heartbeats,
    forced releases and deletions: mutual exclusion as long as no lease is taken away, and a
    count of the operations when some are; and a concrete host.  [WireGuard] has the configuration files of
    [crates/os/src/wireguard]: the checks and the text, and that an accepted configuration is
    read back as exactly its fields.

    ** Schedules ([src/services/schedule])

    [ScheduleDb] has the tables of schedules, policies, executions and locks; [ScheduleService]
    the service: a run is a sequence of statements between which the rest of the panel acts on
    the same tables.  [ScheduleFacts] shows that a lock is given
    back on every path, that a live lock excludes other runs, that the wait of the queueing policy
    ends, that attempts are bounded and recorded, and where the code departs from its documents.
    [ScheduleRunner] has the background runner: refreshes that run one after the other make the
    registered cron jobs equal to the enabled schedules and backups, and the backups take turns.

    ** Shell text ([crates/os/src/exec])

    [ShellQuote] has the ways in which values are written into shell text; [ShellRules] the quoting
    rules of the shell command language as relations, a reader that obeys them, and the round
    trips: remote arguments and file contents arrive as they were.  [ShellScript] has the terms of
    the script builder and their text, and that a rendered condition means what the term says.

    ** Compose files, Traefik and domains ([src/utils/builder/compose], [src/utils/traefik],
    [src/services/domain.rs])

    [ComposeYaml] is the YAML value, [ComposeTransform] the rewriting of compose files; [ComposeFacts]
    treats a file as a graph of names and references and shows that the rewriting renames the
    graph, keeps the rest of the document entry by entry, and keeps files whose references
    resolve so, and has the resources of a file.
    [TraefikRules] has router rules, a reader of Traefik's rule language and the round trip;
    [TraefikLabels] the label builder, and that every domain is routed to its service;
    [ComposeLabels] the labels written into a compose file and those of an
    application with its middlewares.  [TraefikFiles] has the service of Traefik's own files: the
    accepted paths stay inside, a write is all or nothing, the tree shows every file once;
    [Certificates] the certificates, whose files that service refuses, so that none is ever stored.
    [Domains] has the domain service: routes stay distinct for
    the texts whose normal form is what is stored.

    ** Projects ([src/services/project.rs], [environment.rs], [tag.rs])

    [Projects] has the tables of projects, environments and tags, their repositories, services and
    handlers as one request type.  After any requests every project that has environments has
    exactly one default, and a request that fails has changed nothing.

    ** Vault ([src/services/vault])

    [Vault] has the providers and their table, the calls to the six kinds of provider over an
    HTTP client, and the loop that replaces the references of an environment: it is one
    substitution when the references are well formed, the text between them does not open one
    and the values hold no dollar sign.

    ** Notifications ([src/services/notification])

    [Notifications] has messages, triggers, scopes and channels with their tables, the guard of
    webhook addresses (a blocked address is refused by every channel), the twelve senders and the
    loader; [NotificationLog] the dispatcher as a transition system of tasks with five permits and
    three attempts: the delivery table says in every reachable state what the tasks did.

    ** Backups ([src/services/backup], [src/utils/backup], [crates/os/src/rclone])

    [Rclone] has targets, the command builder and the destinations; the shell gives rclone exactly
    the settings and arguments that were built, when the arguments are plain words.  [Backups] has
    the executions, whose attempts are numbered without gaps, the dump commands and the runners of
    databases and volumes: a service that was stopped for a backup is started again.
    [BackupService] has the jobs, runs and restores (a run is accounted for by one execution that
    says how it went), the files at a destination and their retention, and the archives of the
    panel, which are staged only when they are safe to extract; [BackupApi] the requests.

    ** Administration ([src/services/organization.rs], [settings.rs], [ssh_key.rs], [registry.rs])

    [Administration] has the services of organizations, settings, SSH keys and registries with
    their requests: slugs are canonical, the stored settings always pass the checks of an update,
    keys and registries in use are not deleted, new credentials are stored when a login accepts
    them, and what the default group does to the creation and deletion of organizations.

    ** DNS ([src/services/dns])

    [Dns] has the providers of an organization and the zones and records of Cloudflare and
    Route 53: what is shown of credentials does not depend on the secrets, the loop over the pages
    ends with all zones, and the write of a record replaces the one of its type and name.

    ** Monitoring ([agent/], [src/services/monitoring])

    [AgentFilter] has the container patterns (the backtracking loop decides the glob language);
    [AgentLogs] the frames of container logs and the round
    trip; [AgentDocker] the engine's counters and percentages; [AgentStream] the JSON accumulator
    and the reconciliation of streams; [AgentStore] the two queues in memory; [AgentRollup] the
    rollup as a refinement of the samples themselves; [AgentCollector] the cgroup reader and the
    two loops; [AgentService] the configuration, the interceptor and the queries.  On the panel's
    side [Monitoring] has agent tokens and the queries, proved against [AgentService], and
    [Reconciler] the snapshot that decides which resources run.

    ** Fuel and bounds

    Loops are recursions on the rows, bytes or entries they visit; the retry loops make the
    attempts of their policy; the glob matcher recurses on the length of its arguments. Fuel
    appears where the source loops on a text or a reply, with a bound that is enough: repeated
    prefixes are dropped at most as often as the text has bytes
    ([RustText.trim_start_matches_done]), a 64-bit number has at most sixteen hexadecimal
    digits, the wait of a queued schedule ends within its lease, and one turn per reference is
    enough for the references of a vault ([Vault.references_are_substituted]). The loops over
    pages of DNS answers need one turn more than there are full pages
    ([Dns.all_zones_are_listed]). [i64] values are kept as [Z]: ids and timestamps are stored,
    compared and, where the code subtracts, saturated as in the source; [usize] and [u32]
    conversions wrap as written.

    ** Parameters

    Code outside the sources is a parameter: what a build returns, killing a remote process,
    JSON decoding, the maintenance query, SHA-256, HMAC, random bytes, password hashing, TOTP,
    the JWT library, the mail configuration and transport, the HTTP client, the AWS client, SSH
    key pairs, [ipnet], the URL parser, SSH, name resolution, the [wg] command, Docker and
    pipelines of commands (which answer by the history of what was done), the file system and
    its archives, the order of a hash map, and the laws of tokio's channels and semaphore. The
    group service takes the verified claims as a parameter too; the extractor that produces them
    is part of [AuthService].

    ** Not modelled

    Validation of request bodies, and the handlers but for those of webhooks, projects,
    environments, tags, destinations, backups, certificates, organizations, settings, SSH keys
    and registries: they parse a request and call a service that is modelled. The clients of git
    providers, the set-up of servers, the agent's host collector and the Docker commands of the
    builders are sequences of calls to outside programs, whose meaning is not in the sources.
    The macros of routing and of the typed shell, and the dashboard, are not modelled; nor are
    the remaining services (profiles of users, AI, swarm, overview). Deleting an organization is
    modelled in the tables of accounts and permissions only. *)

From stdpp Require Import gmap strings list pretty sorting.
From Stdlib Require Import ZArith Lia.

(** ** Results: [Result<T, E>] of the source *)

Declare Scope rust_scope.
Delimit Scope rust_scope with rust.

Inductive result (A E : Type) : Type :=
| Ok (a : A)
| Err (e : E).

Arguments Ok {A E} a.
Arguments Err {A E} e.

#[export] Instance result_eq_dec {A E} `{EqDecision A, EqDecision E} : EqDecision (result A E).
Proof. solve_decision. Defined.

Definition result_bind {A B E} (r : result A E) (k : A → result B E) : result B E :=
  match r with Ok a => k a | Err e => Err e end.

(** The [?] operator: continue with the value or return the error. *)
Notation "'let?' x ':=' r 'in' k" := (result_bind r (λ x, k))
  (at level 10, x pattern, r at level 100, k at level 200) : rust_scope.

Definition result_ok {A E} (r : result A E) : option A :=
  match r with Ok a => Some a | Err _ => None end.

Definition ok_or {A E} (o : option A) (e : E) : result A E :=
  match o with Some a => Ok a | None => Err e end.

Open Scope rust_scope.

Lemma Ok_inj {A E} (a b : A) : @Ok A E a = Ok b → a = b.
Proof. by intros [= ->]. Qed.

(** A chain of [?]s succeeds through each of its steps. *)
Lemma let_ok {A B E} (r : result A E) (k : A → result B E) (b : B) :
  result_bind r k = Ok b → ∃ a, r = Ok a ∧ k a = Ok b.
Proof. destruct r; simpl; [eauto | done]. Qed.

(** ** Machine integers

    [i64] values are kept as [Z]; the operations that can leave the range say
    what the source does there. *)

Definition i64_min : Z := - 2 ^ 63.
Definition i64_max : Z := 2 ^ 63 - 1.

Definition in_i64 (z : Z) : bool := (i64_min <=? z)%Z && (z <=? i64_max)%Z.

(** [i64::saturating_sub] *)
Definition i64_saturating_sub (a b : Z) : Z := Z.max i64_min (Z.min i64_max (a - b)).

(** ** Generic automation *)

(** Case analysis on the scrutinee of a [match] or [if] in the goal or in a
    hypothesis, keeping the equation. *)
Ltac case_goal :=
  match goal with
  | |- context [match ?x with _ => _ end] => destruct x eqn:?
  end.

Ltac case_hyp H :=
  match type of H with
  | context [match ?x with _ => _ end] => destruct x eqn:?
  end.

(** Turns boolean conjunctions, comparisons and [bool_decide]s of the context
    into propositions. *)
Ltac bsimp :=
  repeat match goal with
  | H : (_ && _)%bool = true |- _ => apply andb_true_iff in H as [? ?]
  | H : negb _ = true |- _ => apply negb_true_iff in H
  | H : bool_decide _ = true |- _ => apply bool_decide_eq_true in H
  | H : bool_decide _ = false |- _ => apply bool_decide_eq_false in H
  | H : (_ =? _)%Z = true |- _ => apply Z.eqb_eq in H
  | H : (_ =? _)%Z = false |- _ => apply Z.eqb_neq in H
  | H : (_ <? _)%Z = true |- _ => apply Z.ltb_lt in H
  | H : (_ <? _)%Z = false |- _ => apply Z.ltb_ge in H
  | H : (_ <=? _)%Z = true |- _ => apply Z.leb_le in H
  | H : (_ <=? _)%Z = false |- _ => apply Z.leb_gt in H
  end.

Create HintDb oxide.
Create Rewrite HintDb oxide.

(** ** List lemmas shared by the components *)

Lemma forallb_app {A} (f : A → bool) (l1 l2 : list A) :
  forallb f (l1 ++ l2) = forallb f l1 && forallb f l2.
Proof. induction l1 as [|x l1 IH]; simpl; [done|]. by rewrite IH, andb_assoc. Qed.

Lemma forallb_elem {A} (f : A → bool) (l : list A) :
  forallb f l = true ↔ ∀ x, x ∈ l → f x = true.
Proof.
  rewrite forallb_forall. split; intros H x Hx; apply H; by apply list_elem_of_In.
Qed.

Lemma existsb_elem {A} (f : A → bool) (l : list A) :
  existsb f l = true ↔ ∃ x, x ∈ l ∧ f x = true.
Proof.
  rewrite existsb_exists. split; intros (x & Hx & ?); exists x; split; auto;
    by apply list_elem_of_In.
Qed.

Lemma existsb_false {A} (f : A → bool) (l : list A) :
  existsb f l = false ↔ ∀ x, x ∈ l → f x = false.
Proof.
  split.
  - intros H x Hx. destruct (f x) eqn:E; [|done].
    assert (existsb f l = true) by (apply existsb_elem; eauto). congruence.
  - intros H. destruct (existsb f l) eqn:E; [|done].
    apply existsb_elem in E as (x & Hx & Hf). by rewrite H in Hf.
Qed.

(** Membership in a filtered list, with a boolean test. *)
Lemma elem_of_filterb {A} (f : A → bool) (l : list A) (x : A) :
  x ∈ List.filter f l ↔ x ∈ l ∧ f x = true.
Proof. rewrite !list_elem_of_In. apply List.filter_In. Qed.

Lemma filterb_sublist {A} (f : A → bool) (l : list A) : List.filter f l `sublist_of` l.
Proof.
  induction l as [|x l IH]; simpl; [done|].
  destruct (f x); [by apply sublist_skip | by apply sublist_cons].
Qed.

Lemma filterb_all_false {A} (f : A → bool) (l : list A) :
  (∀ x, x ∈ l → f x = false) → List.filter f l = [].
Proof.
  intros H. induction l as [|x l IH]; simpl; [done|].
  rewrite H by set_solver. apply IH. set_solver.
Qed.

Lemma filterb_all_true {A} (f : A → bool) l : (∀ x, x ∈ l → f x = true) → List.filter f l = l.
Proof.
  induction l as [|x l IH]; intros Hf; simpl; [done|].
  rewrite (Hf x) by set_solver. f_equal. apply IH. set_solver.
Qed.

Lemma filterb_length_le {A} (f : A → bool) (l : list A) :
  length (List.filter f l) ≤ length l.
Proof. apply sublist_length, filterb_sublist. Qed.

Lemma elem_of_mapb {A B} (f : A → B) (l : list A) (y : B) :
  y ∈ map f l ↔ ∃ x, y = f x ∧ x ∈ l.
Proof. apply list_elem_of_fmap. Qed.

Lemma omap_cons {A B} (f : A → option B) (x : A) (l : list A) :
  omap f (x :: l) = match f x with Some y => y :: omap f l | None => omap f l end.
Proof. done. Qed.

#[export] Hint Rewrite @forallb_elem @existsb_elem @elem_of_filterb : oxide.
#[export] Hint Resolve filterb_sublist : oxide.

(** ** State and error monad

    The services are computations over the state of the process: a failing call ends the
    computation with its error ([?]), while what the earlier statements wrote stays, since
    each runs in a transaction of its own. *)

Definition SE (S E A : Type) : Type := S → S * result A E.

Section monad.
Context {S E : Type}.

Definition ret {A} (a : A) : SE S E A := λ s, (s, Ok a).
Definition fail {A} (e : E) : SE S E A := λ s, (s, Err e).
Definition bind {A B} (m : SE S E A) (k : A → SE S E B) : SE S E B := λ s,
  let '(s', r) := m s in match r with Ok a => k a s' | Err e => (s', Err e) end.
(** [let _ = call.await;] *)
Definition ignore {A} (m : SE S E A) : SE S E unit := λ s, ((m s).1, Ok tt).
Definition of_result {A} (r : result A E) : SE S E A := λ s, (s, r).
(** A guard: [if cond { return Err(e) }] *)
Definition guard (cond : bool) (e : E) : SE S E unit := if cond then fail e else ret tt.
End monad.

Notation "'do!' x ':=' m 'in' k" := (bind m (λ x, k))
  (at level 10, x pattern, m at level 100, k at level 200) : rust_scope.

Section laws.
Context {S E : Type}.

Lemma bind_ret {A B} (a : A) (k : A → SE S E B) s : bind (ret a) k s = k a s.
Proof. done. Qed.

(** A computation that returned went through each of its steps. *)
Lemma bind_ok {A B} (m : SE S E A) (k : A → SE S E B) s s' b :
  bind m k s = (s', Ok b) → ∃ s1 a, m s = (s1, Ok a) ∧ k a s1 = (s', Ok b).
Proof.
  unfold bind. destruct (m s) as [s1 [a|e]] eqn:Hm; [eauto | done].
Qed.

(** A read-only step. *)
Definition reads {A} (m : SE S E A) : Prop := ∀ s, (m s).1 = s.

Lemma bind_reads {A B} (m : SE S E A) (k : A → SE S E B) :
  reads m → (∀ a, reads (k a)) → reads (bind m k).
Proof.
  intros Hm Hk s. unfold bind. specialize (Hm s). destruct (m s) as [s1 [a|e]]; simpl in *;
    subst; [apply Hk | done].
Qed.

Lemma ret_reads {A} (a : A) : reads (@ret S E A a).
Proof. done. Qed.
Lemma fail_reads {A} (e : E) : reads (@fail S E A e).
Proof. done. Qed.
Lemma of_result_reads {A} (r : result A E) : reads (@of_result S E A r).
Proof. done. Qed.
Lemma guard_reads (c : bool) (e : E) : reads (@guard S E c e).
Proof. by destruct c. Qed.

Lemma reads_run {A} (m : SE S E A) s s' r : reads m → m s = (s', r) → s' = s.
Proof. intros Hm Hs. specialize (Hm s). by rewrite Hs in Hm. Qed.

(** A read-only step before a continuation. *)
Lemma bind_reads_run {A B} (m : SE S E A) (k : A → SE S E B) s :
  reads m → bind m k s = match (m s).2 with Ok a => k a s | Err e => (s, Err e) end.
Proof.
  intros Hm. unfold bind. specialize (Hm s). destruct (m s) as [s1 [a|e]]; simpl in *; by subst.
Qed.
End laws.

#[export] Hint Resolve bind_reads ret_reads fail_reads of_result_reads guard_reads : oxide.
