(* ===== verification/RustStr.v ===== *)
(** * Rust strings

    The [str] operations the modelled code calls, on the bytes of the UTF-8
    encoding ([String.string], one [ascii] per byte): [trim] (which removes every
    character with the Unicode property White_Space), [to_ascii_uppercase],
    [to_ascii_lowercase], [contains], [starts_with], the comparison of
    [to_uppercase] with an ASCII literal, and the decimal rendering of an [i64]
    by [to_string]. *)

From stdpp Require Import gmap strings list pretty.
From Stdlib Require Import ZArith Lia Ascii.
From S2P Require Import Prelude.

(** ** Case mapping *)

Definition is_ascii_lower (c : ascii) : bool :=
  let n := N_of_ascii c in ((97 <=? n) && (n <=? 122))%N.
Definition is_ascii_upper (c : ascii) : bool :=
  let n := N_of_ascii c in ((65 <=? n) && (n <=? 90))%N.

Definition ascii_upper (c : ascii) : ascii :=
  if is_ascii_lower c then ascii_of_N (N_of_ascii c - 32) else c.
Definition ascii_lower (c : ascii) : ascii :=
  if is_ascii_upper c then ascii_of_N (N_of_ascii c + 32) else c.

Fixpoint string_map (f : ascii → ascii) (s : string) : string :=
  match s with
  | EmptyString => EmptyString
  | String c s' => String (f c) (string_map f s')
  end.

Definition to_ascii_uppercase : string → string := string_map ascii_upper.
Definition to_ascii_lowercase : string → string := string_map ascii_lower.

Definition eq_ignore_ascii_case (a b : string) : bool :=
  bool_decide (to_ascii_lowercase a = to_ascii_lowercase b).

(** ** White space

    The one-, two- and three-byte encodings of the White_Space characters. *)

Definition ws1 (a : ascii) : bool :=
  let n := N_of_ascii a in (((9 <=? n) && (n <=? 13)) || (n =? 32))%N.
(** U+0085 and U+00A0 *)
Definition ws2 (a b : ascii) : bool :=
  (N_of_ascii a =? 0xC2)%N && ((N_of_ascii b =? 0x85) || (N_of_ascii b =? 0xA0))%N.
(** U+1680, U+2000 to U+200A, U+2028, U+2029, U+202F, U+205F, U+3000 *)
Definition ws3 (a b c : ascii) : bool :=
  let x := N_of_ascii a in let y := N_of_ascii b in let z := N_of_ascii c in
  (((x =? 0xE1) && (y =? 0x9A) && (z =? 0x80))
   || ((x =? 0xE2) && (y =? 0x80)
        && (((0x80 <=? z) && (z <=? 0x8A)) || (z =? 0xA8) || (z =? 0xA9) || (z =? 0xAF)))
   || ((x =? 0xE2) && (y =? 0x81) && (z =? 0x9F))
   || ((x =? 0xE3) && (y =? 0x80) && (z =? 0x80)))%N.

(** Drops white-space characters from the front; [w2] and [w3] read a multi-byte
    character in the order the list presents its bytes. *)
Fixpoint drop_ws (w2 : ascii → ascii → bool) (w3 : ascii → ascii → ascii → bool)
    (s : list ascii) : list ascii :=
  match s with
  | [] => []
  | a :: s1 =>
      if ws1 a then drop_ws w2 w3 s1 else
      match s1 with
      | [] => s
      | b :: s2 =>
          if w2 a b then drop_ws w2 w3 s2 else
          match s2 with
          | [] => s
          | c :: s3 => if w3 a b c then drop_ws w2 w3 s3 else s
          end
      end
  end.

Definition trim_start (s : string) : string :=
  Stdlib.Strings.String.string_of_list_ascii (drop_ws ws2 ws3 (Stdlib.Strings.String.list_ascii_of_string s)).
Definition trim_end (s : string) : string :=
  Stdlib.Strings.String.string_of_list_ascii
    (rev (drop_ws (λ a b, ws2 b a) (λ a b c, ws3 c b a) (rev (Stdlib.Strings.String.list_ascii_of_string s)))).
Definition trim (s : string) : string := trim_end (trim_start s).

Definition str_is_empty (s : string) : bool := bool_decide (s = "").

(** ** Searching *)

Definition starts_with (pat s : string) : bool := Stdlib.Strings.String.prefix pat s.

Fixpoint contains (pat s : string) : bool :=
  starts_with pat s ||
  match s with
  | EmptyString => false
  | String _ s' => contains pat s'
  end.

(** [s.to_uppercase() == lit] for an ASCII literal: a character whose upper-case
    mapping is not ASCII makes the comparison fail, so only the mappings into
    ASCII matter: the ASCII letters, dotless i, long s, sharp s and the Latin
    ligatures. *)
Fixpoint uppercase_to_ascii (s : list ascii) : list ascii :=
  match s with
  | [] => []
  | a :: s1 =>
      match s1 with
      | [] => [ascii_upper a]
      | b :: s2 =>
          let x := N_of_ascii a in let y := N_of_ascii b in
          if ((x =? 0xC4) && (y =? 0xB1))%N then "I"%char :: uppercase_to_ascii s2 else
          if ((x =? 0xC5) && (y =? 0xBF))%N then "S"%char :: uppercase_to_ascii s2 else
          if ((x =? 0xC3) && (y =? 0x9F))%N then "S"%char :: "S"%char :: uppercase_to_ascii s2 else
          match s2 with
          | c :: s3 =>
              let z := N_of_ascii c in
              if ((x =? 0xEF) && (y =? 0xAC))%N then
                let rest := uppercase_to_ascii s3 in
                if (z =? 0x80)%N then "F"%char :: "F"%char :: rest else
                if (z =? 0x81)%N then "F"%char :: "I"%char :: rest else
                if (z =? 0x82)%N then "F"%char :: "L"%char :: rest else
                if (z =? 0x83)%N then "F"%char :: "F"%char :: "I"%char :: rest else
                if (z =? 0x84)%N then "F"%char :: "F"%char :: "L"%char :: rest else
                if (z =? 0x85)%N then "S"%char :: "T"%char :: rest else
                if (z =? 0x86)%N then "S"%char :: "T"%char :: rest else
                a :: b :: c :: rest
              else ascii_upper a :: uppercase_to_ascii s1
          | [] => ascii_upper a :: uppercase_to_ascii s1
          end
      end
  end.

Definition uppercase_eq (s lit : string) : bool :=
  bool_decide (uppercase_to_ascii (Stdlib.Strings.String.list_ascii_of_string s) = Stdlib.Strings.String.list_ascii_of_string lit).

(** ** Decimal rendering *)

Definition i64_to_string (z : Z) : string := pretty z.

(** [str::parse::<i64>]: an optional sign and at least one digit, the value in range. *)
Definition digit_value (c : ascii) : option Z :=
  let n := N_of_ascii c in
  if ((48 <=? n) && (n <=? 57))%N then Some (Z.of_N (n - 48)) else None.

Fixpoint digits_value (s : string) (acc : Z) : option Z :=
  match s with
  | EmptyString => Some acc
  | String c s' => match digit_value c with
                   | Some d => digits_value s' (10 * acc + d)
                   | None => None
                   end
  end.

Definition unsigned_value (s : string) : option Z :=
  match s with EmptyString => None | _ => digits_value s 0 end.

Definition parse_i64 (s : string) : option Z :=
  let value := match s with
               | String "-" s' => Z.opp <$> unsigned_value s'
               | String "+" s' => unsigned_value s'
               | _ => unsigned_value s
               end in
  match value with
  | Some z => if in_i64 z then Some z else None
  | None => None
  end.

(** ** Lemmas *)

Fixpoint string_Forall (P : ascii → Prop) (s : string) : Prop :=
  match s with
  | EmptyString => True
  | String c s' => P c ∧ string_Forall P s'
  end.

Lemma string_Forall_app P (a b : string) :
  string_Forall P (a +:+ b) ↔ string_Forall P a ∧ string_Forall P b.
Proof. induction a as [|c a IH]; simpl; [tauto|]. rewrite IH. tauto. Qed.

Lemma str_app_assoc (a b c : string) : (a +:+ b) +:+ c = a +:+ b +:+ c.
Proof. induction a as [|x a IH]; [done|]. exact (f_equal (String x) IH). Qed.

Lemma string_map_idemp f (s : string) :
  (∀ c, f (f c) = f c) → string_map f (string_map f s) = string_map f s.
Proof. intros H. induction s as [|c s IH]; simpl; [done|]. by rewrite H, IH. Qed.

Lemma ascii_upper_idemp c : ascii_upper (ascii_upper c) = ascii_upper c.
Proof. destruct c as [[][][][][][][][]]; vm_compute; reflexivity. Qed.
Lemma ascii_upper_lower c : ascii_upper (ascii_lower c) = ascii_upper c.
Proof. destruct c as [[][][][][][][][]]; vm_compute; reflexivity. Qed.
Lemma ascii_lower_idemp c : ascii_lower (ascii_lower c) = ascii_lower c.
Proof. destruct c as [[][][][][][][][]]; vm_compute; reflexivity. Qed.

Lemma to_ascii_uppercase_idemp s :
  to_ascii_uppercase (to_ascii_uppercase s) = to_ascii_uppercase s.
Proof. apply string_map_idemp, ascii_upper_idemp. Qed.

Lemma to_ascii_lowercase_idemp s :
  to_ascii_lowercase (to_ascii_lowercase s) = to_ascii_lowercase s.
Proof. apply string_map_idemp, ascii_lower_idemp. Qed.

(** No rendered integer contains a given character other than a digit or the
    minus sign. *)
Definition num_char (c : ascii) : Prop :=
  (c = "-"%char ∨ (48 ≤ N_of_ascii c ≤ 57)%N)%N.

Lemma pretty_N_char_num (x : N) : (x < 10)%N → num_char (pretty_N_char x).
Proof.
  intros H. right. unfold pretty_N_char.
  destruct x as [|p]; [vm_compute; split; discriminate|].
  do 4 (try destruct p as [p|p|]); vm_compute; try (split; discriminate); lia.
Qed.

Lemma pretty_N_go_num (x : N) (s : string) :
  string_Forall num_char s → string_Forall num_char (pretty_N_go x s).
Proof.
  revert s. induction (N.lt_wf_0 x) as [x _ IH]. intros s Hs.
  destruct (decide (0 < x)%N) as [Hx|Hx].
  - rewrite pretty_N_go_step by lia. apply IH.
    + apply N.div_lt; lia.
    + split; [|done]. apply pretty_N_char_num. apply N.mod_lt. lia.
  - by replace x with 0%N by lia.
Qed.

Lemma pretty_N_num (x : N) : string_Forall num_char (pretty x).
Proof.
  unfold pretty, pretty_N. case_decide; [|by apply pretty_N_go_num].
  split; [|done]. right. vm_compute. split; discriminate.
Qed.

Lemma i64_to_string_num (z : Z) : string_Forall num_char (i64_to_string z).
Proof.
  unfold i64_to_string, pretty, pretty_Z. destruct z; simpl.
  - split; [|done]. right. vm_compute. split; discriminate.
  - apply (pretty_N_num (N.pos p)).
  - split; [by left|]. apply (pretty_N_num (N.pos p)).
Qed.

Lemma i64_to_string_inj (a b : Z) : i64_to_string a = i64_to_string b → a = b.
Proof. unfold i64_to_string. apply (inj pretty). Qed.

(** Parsing reads back what [to_string] wrote. *)
Lemma digit_value_char (x : N) : (x < 10)%N → digit_value (pretty_N_char x) = Some (Z.of_N x).
Proof.
  intros H. destruct x as [|p]; [reflexivity|].
  do 4 (try destruct p as [p|p|]); try reflexivity; lia.
Qed.

Lemma digits_value_go (x : N) (s : string) :
  digits_value (pretty_N_go x s) 0 = digits_value s (Z.of_N x).
Proof.
  revert s. induction (N.lt_wf_0 x) as [x _ IH]. intros s.
  destruct (decide (0 < x)%N) as [Hx|Hx]; [|by replace x with 0%N by lia].
  rewrite pretty_N_go_step by lia. rewrite IH by (apply N.div_lt; lia). simpl.
  rewrite digit_value_char by (apply N.mod_lt; lia).
  do 2 f_equal. pose proof (N.div_mod' x 10). lia.
Qed.

Lemma pretty_pos_digits (p : positive) : ∃ c s, pretty (N.pos p) = String c s
  ∧ c ≠ "-"%char ∧ c ≠ "+"%char ∧ digits_value (String c s) 0 = Some (Z.pos p).
Proof.
  pose proof (digits_value_go (N.pos p) "") as Hv. pose proof (pretty_N_num (N.pos p)) as Hn.
  change (pretty_N_go (N.pos p) "") with (pretty (N.pos p)) in Hv.
  destruct (pretty (N.pos p)) as [|c s]; [done|]. exists c, s.
  assert (is_Some (digit_value c)) as Hd.
  { simpl in Hv. destruct (digit_value c); [by eexists | done]. }
  split_and!; [done | intros ->; by destruct Hd .. | done].
Qed.

Lemma parse_i64_to_string (z : Z) : in_i64 z = true → parse_i64 (i64_to_string z) = Some z.
Proof.
  intros Hz. destruct z as [|p|p]; [reflexivity| |].
  - change (i64_to_string (Z.pos p)) with (pretty (N.pos p)).
    destruct (pretty_pos_digits p) as (c & s & -> & H1 & H2 & H3).
    assert (parse_i64 (String c s) = if in_i64 (Z.pos p) then Some (Z.pos p) else None) as ->.
    { unfold parse_i64, unsigned_value. rewrite H3.
      destruct c as [[][][][][][][][]]; done. }
    by rewrite Hz.
  - change (i64_to_string (Z.neg p)) with (String "-" (pretty (N.pos p))).
    destruct (pretty_pos_digits p) as (c & s & Hp & _ & _ & H3). rewrite Hp.
    unfold parse_i64, unsigned_value. rewrite H3. cbn -[in_i64].
    change (- Z.pos p)%Z with (Z.neg p). by rewrite Hz.
Qed.

(** A separator that does not occur in the two prefixes splits uniquely. *)
Lemma app_sep_inj (sep : ascii) (a b s t : string) :
  string_Forall (λ c, c ≠ sep) a → string_Forall (λ c, c ≠ sep) b →
  a +:+ String sep s = b +:+ String sep t → a = b ∧ s = t.
Proof.
  revert b. induction a as [|x a IH]; intros [|y b]; simpl; intros Ha Hb E.
  - by injection E.
  - injection E as -> E. by destruct Hb.
  - injection E as -> E. by destruct Ha.
  - injection E as -> E. destruct Ha, Hb. by destruct (IH b) as [-> ->].
Qed.

Lemma string_Forall_impl (P Q : ascii → Prop) s :
  (∀ c, P c → Q c) → string_Forall P s → string_Forall Q s.
Proof. intros H. induction s as [|c s IH]; simpl; [done|]. intros [? ?]; auto. Qed.

Lemma starts_with_spec pat s :
  starts_with pat s = true ↔ ∃ rest, s = pat +:+ rest.
Proof.
  unfold starts_with. revert s. induction pat as [|c pat IH]; intros s; simpl.
  - split; [intros _; by exists s | by destruct s].
  - destruct s as [|d s]; simpl.
    + split; [done | intros (r & Hr); simpl in *; discriminate].
    + destruct (ascii_dec c d) as [->|Hne].
      * rewrite IH. split; intros (r & Hr); exists r; [by subst | by injection Hr].
      * split; [done | intros (r & Hr); by injection Hr].
Qed.
