(* ===== verification/RustText.v ===== *)
(** * Cutting, joining and encoding text

    The [str] methods that cut a text: [strip_prefix], [trim_start_matches], [trim_end_matches],
    [split], [split_once], [rsplit_once], [ends_with], [join] and [replace] of one character by
    another; and the lower-case hexadecimal rendering of bytes ([{byte:02x}]) with the reader
    that undoes it.  All on UTF-8 bytes: the separators of the modelled code are ASCII, which
    never occur inside a multi-byte character. *)

From stdpp Require Import gmap strings list.
From Stdlib Require Import ZArith Lia Ascii.
From S2P Require Import Prelude RustStr.

(** ** Characters of a text *)

Definition chars (s : string) : list ascii := Stdlib.Strings.String.list_ascii_of_string s.
Definition of_chars (l : list ascii) : string := Stdlib.Strings.String.string_of_list_ascii l.

Definition newline : string := String (ascii_of_N 10) EmptyString.

Definition is_char (c d : ascii) : bool := bool_decide (c = d).

(** ** Cutting *)

Fixpoint strip_prefix (pat s : string) : option string :=
  match pat, s with
  | EmptyString, _ => Some s
  | String c pat', String d s' => if is_char c d then strip_prefix pat' s' else None
  | String _ _, EmptyString => None
  end.

Definition ends_with (pat s : string) : bool :=
  starts_with (of_chars (rev (chars pat))) (of_chars (rev (chars s))).

(** [trim_start_matches] of a text; a removal shortens the text, so its length is fuel enough. *)
Fixpoint trim_matches_fuel (n : nat) (pat s : string) : string :=
  match n with
  | O => s
  | S n' => match strip_prefix pat s with
            | Some s' => trim_matches_fuel n' pat s'
            | None => s
            end
  end.
Definition trim_start_matches (pat s : string) : string :=
  trim_matches_fuel (String.length s) pat s.

(** [trim_start_matches] and [trim_end_matches] of a character *)
Fixpoint drop_char (c : ascii) (l : list ascii) : list ascii :=
  match l with
  | [] => []
  | d :: l' => if is_char c d then drop_char c l' else l
  end.
Definition trim_start_char (c : ascii) (s : string) : string := of_chars (drop_char c (chars s)).
Definition trim_end_char (c : ascii) (s : string) : string :=
  of_chars (rev (drop_char c (rev (chars s)))).

Definition trim_matches_char (c : ascii) (s : string) : string := trim_end_char c (trim_start_char c s).

(** [replace] of a non-empty text; [skip] bytes belong to the occurrence just replaced *)
Fixpoint replace_from (skip : nat) (pat value s : string) : string :=
  match s with
  | EmptyString => EmptyString
  | String c s' =>
      match skip with
      | S k => replace_from k pat value s'
      | O => if starts_with pat s then value +:+ replace_from (String.length pat - 1) pat value s'
             else String c (replace_from 0 pat value s')
      end
  end.
Definition replace (pat value s : string) : string := replace_from 0 pat value s.

Definition replace_char (a b : ascii) : string → string :=
  string_map (λ c, if is_char a c then b else c).

(** [split] at every character that satisfies [p] *)
Fixpoint split_on (p : ascii → bool) (s : string) : list string :=
  match s with
  | EmptyString => [""]
  | String c s' =>
      if p c then "" :: split_on p s'
      else match split_on p s' with
           | [] => [String c ""]
           | w :: ws => String c w :: ws
           end
  end.

Fixpoint split_once (c : ascii) (s : string) : option (string * string) :=
  match s with
  | EmptyString => None
  | String d s' =>
      if is_char c d then Some ("", s')
      else match split_once c s' with
           | Some (a, b) => Some (String d a, b)
           | None => None
           end
  end.

(** [rsplit_once]: at the last occurrence *)
Fixpoint rsplit_once (c : ascii) (s : string) : option (string * string) :=
  match s with
  | EmptyString => None
  | String d s' =>
      match rsplit_once c s' with
      | Some (a, b) => Some (String d a, b)
      | None => if is_char c d then Some ("", s') else None
      end
  end.

Fixpoint join (sep : string) (ws : list string) : string :=
  match ws with
  | [] => ""
  | [w] => w
  | w :: ws' => w +:+ sep +:+ join sep ws'
  end.

(** [str::to_lowercase]: on ASCII texts the ASCII mapping; [unicode] stands for the Unicode
    tables, which are consulted for other texts only. *)
Definition is_ascii_text (s : string) : bool := forallb (λ c, N_of_ascii c <? 128)%N (chars s).
Definition to_lowercase (unicode : string → string) (s : string) : string :=
  if is_ascii_text s then to_ascii_lowercase s else unicode s.

(** [str::split_whitespace] *)
Fixpoint split_ws (s cur : list ascii) : list (list ascii) :=
  match s with
  | [] => [rev cur]
  | a :: s1 =>
      if ws1 a then rev cur :: split_ws s1 [] else
      match s1 with
      | [] => [rev (a :: cur)]
      | b :: s2 =>
          if ws2 a b then rev cur :: split_ws s2 [] else
          match s2 with
          | [] => split_ws s1 (a :: cur)
          | c :: s3 => if ws3 a b c then rev cur :: split_ws s3 [] else split_ws s1 (a :: cur)
          end
      end
  end.
Definition split_whitespace (s : string) : list string :=
  List.filter (λ w, negb (str_is_empty w)) (map of_chars (split_ws (chars s) [])).

Definition is_ascii_alphanumeric (c : ascii) : bool :=
  let n := N_of_ascii c in
  ((48 <=? n) && (n <=? 57) || (65 <=? n) && (n <=? 90) || (97 <=? n) && (n <=? 122))%N.

(** The order of texts is the order of their bytes. *)
Definition str_le (a b : string) : bool := Stdlib.Strings.String.leb a b.

(** ** Hexadecimal *)

Definition hex_digit (n : Z) : ascii :=
  ascii_of_N (Z.to_N (if n <? 10 then 48 + n else 87 + n))%Z.
Definition hex_byte (b : Z) : string :=
  String (hex_digit (b / 16)) (String (hex_digit (b mod 16)) EmptyString).
Fixpoint hex (bytes : list Z) : string :=
  match bytes with [] => "" | b :: rest => hex_byte b +:+ hex rest end.

(** [char::to_digit(16)] *)
Definition to_digit16 (c : ascii) : option Z :=
  let n := Z.of_N (N_of_ascii c) in
  if (48 <=? n)%Z && (n <=? 57)%Z then Some (n - 48)%Z
  else if (97 <=? n)%Z && (n <=? 102)%Z then Some (n - 87)%Z
  else if (65 <=? n)%Z && (n <=? 70)%Z then Some (n - 55)%Z
  else None.

Definition is_byte (b : Z) : bool := (0 <=? b)%Z && (b <=? 255)%Z.

(** ** Lemmas *)

Lemma chars_of_chars l : chars (of_chars l) = l.
Proof. apply Stdlib.Strings.String.list_ascii_of_string_of_list_ascii. Qed.
Lemma of_chars_chars s : of_chars (chars s) = s.
Proof. apply Stdlib.Strings.String.string_of_list_ascii_of_string. Qed.

Lemma chars_app a b : chars (a +:+ b) = chars a ++ chars b.
Proof. induction a as [|c a IH]; [done|]. unfold chars in *. simpl. by rewrite IH. Qed.
Lemma of_chars_app a b : of_chars (a ++ b) = of_chars a +:+ of_chars b.
Proof. induction a as [|c a IH]; [done|]. unfold of_chars in *. simpl. by rewrite IH. Qed.

Lemma chars_string_map f s : chars (string_map f s) = map f (chars s).
Proof. induction s as [|c s IH]; [done|]. unfold chars in *. simpl. by rewrite IH. Qed.
Lemma chars_inj a b : chars a = chars b → a = b.
Proof. intros E. by rewrite <- (of_chars_chars a), E, of_chars_chars. Qed.

Lemma length_chars s : length (chars s) = String.length s.
Proof. induction s as [|c s IH]; [done|]. unfold chars in *. simpl. by rewrite IH. Qed.

Lemma is_char_spec c d : is_char c d = true ↔ c = d.
Proof. apply bool_decide_eq_true. Qed.
Lemma is_char_refl c : is_char c c = true.
Proof. by apply is_char_spec. Qed.
Lemma is_char_false c d : is_char c d = false ↔ c ≠ d.
Proof. apply bool_decide_eq_false. Qed.

Lemma strip_prefix_spec pat s r : strip_prefix pat s = Some r ↔ s = pat +:+ r.
Proof.
  revert s. induction pat as [|c pat IH]; intros s; simpl.
  - split; [by intros [= ->] | by intros ->].
  - destruct s as [|d s]; [split; done|]. unfold is_char. case_bool_decide as E.
    + subst d. rewrite IH. split; [by intros -> | by intros [=]].
    + split; [done | by intros [=]].
Qed.

Lemma strip_prefix_app pat r : strip_prefix pat (pat +:+ r) = Some r.
Proof. by apply strip_prefix_spec. Qed.

Lemma starts_with_app pat r : starts_with pat (pat +:+ r) = true.
Proof. apply starts_with_spec. by exists r. Qed.

Lemma length_str_app (a b : string) : String.length (a +:+ b) = String.length a + String.length b.
Proof. rewrite <- !length_chars, chars_app. apply length_app. Qed.

(** The length of the text is fuel enough: what is left does not begin with the pattern. *)
Lemma trim_matches_fuel_spec n pat s :
  pat ≠ "" → String.length s ≤ n → starts_with pat (trim_matches_fuel n pat s) = false.
Proof.
  intros Hp. revert s. induction n as [|n IH]; intros s Hn; simpl.
  - destruct s; simpl in Hn; [|lia]. by destruct pat.
  - destruct (strip_prefix pat s) as [r|] eqn:E.
    + apply IH. apply strip_prefix_spec in E. subst s. rewrite length_str_app in Hn.
      destruct pat; [done|]. simpl in Hn. lia.
    + destruct (starts_with pat s) eqn:Es; [|done].
      apply starts_with_spec in Es as (r & ->). by rewrite strip_prefix_app in E.
Qed.

Lemma trim_start_matches_done pat s :
  pat ≠ "" → starts_with pat (trim_start_matches pat s) = false.
Proof. intros. by apply trim_matches_fuel_spec. Qed.

Lemma drop_char_suffix c l : ∃ k, l = replicate k c ++ drop_char c l ∧ head (drop_char c l) ≠ Some c.
Proof.
  induction l as [|d l (k & IH & Hh)]; [by exists 0|]. simpl. unfold is_char.
  case_bool_decide as E.
  - subst d. exists (S k). simpl. by rewrite <- IH.
  - exists 0. simpl. split; [done | congruence].
Qed.

Lemma split_once_spec c s a b :
  split_once c s = Some (a, b) ↔ s = a +:+ String c b ∧ c ∉ chars a.
Proof.
  revert a b. induction s as [|d s IH]; intros a b; simpl.
  { split; [done|]. intros [E _]. by destruct a. }
  unfold is_char. case_bool_decide as Ed.
  - subst d. split.
    + intros [= <- <-]. split; [done|]. apply not_elem_of_nil.
    + intros [E Hn]. destruct a as [|e a]; [by injection E as ->|].
      injection E as -> _. exfalso. apply Hn. apply list_elem_of_here.
  - split.
    + destruct (split_once c s) as [[a' b']|]; [|done]. intros [= <- <-].
      destruct (proj1 (IH a' b') eq_refl) as [-> Hn]. split; [done|].
      change (chars (String d a')) with (d :: chars a'). rewrite not_elem_of_cons. by split.
    + intros [E Hn]. destruct a as [|e a]; [by injection E|]. injection E as -> E.
      change (chars (String e a)) with (e :: chars a) in Hn. apply not_elem_of_cons in Hn as [_ Hn].
      by rewrite (proj2 (IH a b)).
Qed.

Lemma rsplit_once_None c s : rsplit_once c s = None ↔ c ∉ chars s.
Proof.
  induction s as [|d s IH]; simpl.
  { split; [intros _; apply not_elem_of_nil | done]. }
  change (chars (String d s)) with (d :: chars s). rewrite not_elem_of_cons.
  destruct (rsplit_once c s) as [[a b]|].
  - split; [done|]. intros [_ H]. by apply IH in H.
  - unfold is_char. case_bool_decide as E; [split; [done|]; by intros [? _] |].
    split; [|done]. intros _. split; [done|]. by apply IH.
Qed.

Lemma rsplit_once_spec c s a b :
  rsplit_once c s = Some (a, b) ↔ s = a +:+ String c b ∧ c ∉ chars b.
Proof.
  revert a b. induction s as [|d s IH]; intros a b; simpl.
  { split; [done|]. intros [E _]. by destruct a. }
  destruct (rsplit_once c s) as [[a' b']|] eqn:E.
  - destruct (proj1 (IH a' b') eq_refl) as [-> Hn]. split; [by intros [= <- <-]|].
    intros [E' Hb]. destruct a as [|e a]; simpl in E'; injection E' as -> E'.
    + exfalso. apply Hb. rewrite <- E', chars_app. apply elem_of_app. right. apply list_elem_of_here.
    + f_equal. assert (Some (a', b') = Some (a, b)) as [= -> ->]; [|done].
      apply IH. done.
  - apply rsplit_once_None in E. unfold is_char. case_bool_decide as Ed.
    + subst d. split; [by intros [= <- <-]|]. intros [E' Hb].
      destruct a as [|e a]; injection E' as E'; [by subst b|]. subst. exfalso. apply E.
      rewrite chars_app. apply elem_of_app. right. apply list_elem_of_here.
    + split; [done|]. intros [E' Hb]. destruct a as [|e a]; injection E' as E'; [done|].
      subst. exfalso. apply E. rewrite chars_app. apply elem_of_app. right. apply list_elem_of_here.
Qed.

(** ** Splitting and joining *)

Lemma split_on_nonempty p s : split_on p s ≠ [].
Proof. destruct s as [|c s]; simpl; [done|]. destruct (p c); [done|]. by destruct (split_on p s). Qed.

Lemma split_on_pieces p s w : w ∈ split_on p s → Forall (λ c, p c = false) (chars w).
Proof.
  revert w. induction s as [|c s IH]; intros w; simpl.
  { intros ->%list_elem_of_singleton. constructor. }
  destruct (p c) eqn:Ec.
  { intros [->|Hw]%elem_of_cons; [constructor | by apply IH]. }
  pose proof (split_on_nonempty p s) as Hne.
  destruct (split_on p s) as [|u us]; [done|]. intros [->|Hw]%elem_of_cons.
  - change (chars (String c u)) with (c :: chars u). constructor; [done|].
    apply IH, list_elem_of_here.
  - apply IH. by apply list_elem_of_further.
Qed.

Lemma split_on_none p s : Forall (λ c, p c = false) (chars s) → split_on p s = [s].
Proof.
  induction s as [|c s IH]; simpl; [done|].
  change (chars (String c s)) with (c :: chars s). intros [Hc Hs]%Forall_cons.
  by rewrite Hc, IH.
Qed.

Lemma split_on_app p w c s :
  Forall (λ d, p d = false) (chars w) → p c = true →
  split_on p (w +:+ String c s) = w :: split_on p s.
Proof.
  intros Hw Hc. induction w as [|d w IH]; simpl; [by rewrite Hc|].
  change (chars (String d w)) with (d :: chars w) in Hw. apply Forall_cons in Hw as [Hd Hw].
  by rewrite Hd, (IH Hw).
Qed.

(** Splitting what was joined gives the pieces back. *)
Lemma split_on_join c ws :
  ws ≠ [] → Forall (λ w, c ∉ chars w) ws → split_on (is_char c) (join (String c "") ws) = ws.
Proof.
  intros Hne Hws. assert (∀ w, c ∉ chars w → Forall (λ d, is_char c d = false) (chars w)) as Hnot.
  { intros w Hw. apply Forall_forall. intros d Hd. apply is_char_false. intros ->. by apply Hw, Hd. }
  induction Hws as [|w ws Hw Hws IH]; [done|]. destruct ws as [|w' ws].
  - apply split_on_none. by apply Hnot.
  - change (join (String c "") (w :: w' :: ws))
      with (w +:+ String c (join (String c "") (w' :: ws))).
    rewrite split_on_app; [|by apply Hnot|by apply is_char_refl]. f_equal. by apply IH.
Qed.

(** ** Hexadecimal round trip *)

Lemma to_digit16_hex n : (0 ≤ n < 16)%Z → to_digit16 (hex_digit n) = Some n.
Proof.
  intros Hn. assert (∀ k : nat, k < 16 → to_digit16 (hex_digit (Z.of_nat k)) = Some (Z.of_nat k)) as H.
  { intros k Hk. do 16 (destruct k as [|k]; [done|]). lia. }
  rewrite <- (Z2Nat.id n) by lia. apply H. lia.
Qed.

Lemma is_byte_spec b : is_byte b = true ↔ (0 ≤ b < 256)%Z.
Proof. unfold is_byte. rewrite andb_true_iff, !Z.leb_le. lia. Qed.

Lemma hex_length bytes : String.length (hex bytes) = 2 * length bytes.
Proof.
  induction bytes as [|b l IH]; [done|]. cbn [hex length]. rewrite length_str_app, IH.
  cbn [hex_byte String.length]. lia.
Qed.

Lemma to_digit16_range c d : to_digit16 c = Some d → (0 ≤ d < 16)%Z.
Proof.
  unfold to_digit16. set (n := Z.of_N (N_of_ascii c)). intros H.
  destruct (_ && _) eqn:E1; [injection H as <-; bsimp; lia|].
  destruct (_ && _) eqn:E2 in H; [injection H as <-; bsimp; lia|].
  destruct (_ && _) eqn:E3 in H; [injection H as <-; bsimp; lia | done].
Qed.

(** *** The order of texts *)

Lemma str_le_total a b : str_le a b = true ∨ str_le b a = true.
Proof. apply Stdlib.Strings.String.leb_total. Qed.
Lemma str_le_compare a b : str_le a b = true ↔ Stdlib.Strings.String.compare a b ≠ Gt.
Proof. unfold str_le, Stdlib.Strings.String.leb. by destruct (Stdlib.Strings.String.compare a b). Qed.
Lemma str_le_trans a b c : str_le a b = true → str_le b c = true → str_le a c = true.
Proof.
  rewrite !str_le_compare. revert b c.
  induction a as [|x a IH]; intros [|y b] [|z c]; simpl; try done.
  unfold Ascii.compare.
  destruct (N.compare_spec (N_of_ascii x) (N_of_ascii y)) as [E1|E1|E1], (N.compare_spec (N_of_ascii y) (N_of_ascii z)) as [E2|E2|E2];
    try done; destruct (N.compare_spec (N_of_ascii x) (N_of_ascii z)) as [E3|E3|E3]; try done; try lia; eauto.
Qed.

(** ** [String::from_utf8_lossy]

    The conversion the agent applies to the bytes it reads from the container engine: well
    formed characters are kept, and every maximal piece that cannot begin a character is
    replaced by U+FFFD.  The result is always well formed, and a well-formed text is kept. *)

Definition in_range (lo hi : N) (c : ascii) : bool :=
  ((lo <=? N_of_ascii c) && (N_of_ascii c <=? hi))%N.

Definition continuation : ascii → bool := in_range 0x80 0xBF.

(** The range of the second byte after a three-byte and a four-byte lead *)
Definition second3 (a : ascii) : ascii → bool :=
  if (N_of_ascii a =? 0xE0)%N then in_range 0xA0 0xBF
  else if (N_of_ascii a =? 0xED)%N then in_range 0x80 0x9F
  else continuation.
Definition second4 (a : ascii) : ascii → bool :=
  if (N_of_ascii a =? 0xF0)%N then in_range 0x90 0xBF
  else if (N_of_ascii a =? 0xF4)%N then in_range 0x80 0x8F
  else continuation.

(** U+FFFD *)
Definition replacement : list ascii := [ascii_of_N 0xEF; ascii_of_N 0xBF; ascii_of_N 0xBD].

Fixpoint from_utf8_lossy (l : list ascii) : list ascii :=
  match l with
  | [] => []
  | a :: l1 =>
      if (N_of_ascii a <? 128)%N then a :: from_utf8_lossy l1
      else if in_range 0xC2 0xDF a then
        match l1 with
        | b :: l2 => if continuation b then a :: b :: from_utf8_lossy l2
                     else replacement ++ from_utf8_lossy l1
        | [] => replacement
        end
      else if in_range 0xE0 0xEF a then
        match l1 with
        | b :: l2 =>
            if second3 a b then
              match l2 with
              | c :: l3 => if continuation c then a :: b :: c :: from_utf8_lossy l3
                           else replacement ++ from_utf8_lossy l2
              | [] => replacement
              end
            else replacement ++ from_utf8_lossy l1
        | [] => replacement
        end
      else if in_range 0xF0 0xF4 a then
        match l1 with
        | b :: l2 =>
            if second4 a b then
              match l2 with
              | c :: l3 =>
                  if continuation c then
                    match l3 with
                    | d :: l4 => if continuation d then a :: b :: c :: d :: from_utf8_lossy l4
                                 else replacement ++ from_utf8_lossy l3
                    | [] => replacement
                    end
                  else replacement ++ from_utf8_lossy l2
              | [] => replacement
              end
            else replacement ++ from_utf8_lossy l1
        | [] => replacement
        end
      else replacement ++ from_utf8_lossy l1
  end.

(** Well-formed UTF-8, by the table of the standard *)
Inductive utf8 : list ascii → Prop :=
| utf8_nil : utf8 []
| utf8_one a l : (N_of_ascii a <? 128)%N = true → utf8 l → utf8 (a :: l)
| utf8_two a b l : in_range 0xC2 0xDF a = true → continuation b = true → utf8 l → utf8 (a :: b :: l)
| utf8_three a b c l : in_range 0xE0 0xEF a = true → second3 a b = true → continuation c = true →
    utf8 l → utf8 (a :: b :: c :: l)
| utf8_four a b c d l : in_range 0xF0 0xF4 a = true → second4 a b = true → continuation c = true →
    continuation d = true → utf8 l → utf8 (a :: b :: c :: d :: l).

Lemma in_range_spec lo hi c : in_range lo hi c = true ↔ (lo ≤ N_of_ascii c ≤ hi)%N.
Proof. unfold in_range. rewrite andb_true_iff, !N.leb_le. done. Qed.

Lemma in_range_apart lo hi lo' hi' c :
  (hi < lo')%N → in_range lo' hi' c = true → in_range lo hi c = false.
Proof.
  intros H H'. apply in_range_spec in H'. apply not_true_iff_false. rewrite in_range_spec. lia.
Qed.

Lemma in_range_not_ascii lo hi c : (128 ≤ lo)%N → in_range lo hi c = true → (N_of_ascii c <? 128)%N = false.
Proof. intros H H'. apply in_range_spec in H'. apply N.ltb_ge. lia. Qed.

Lemma replacement_utf8 l : utf8 l → utf8 (replacement ++ l).
Proof. intros H. apply utf8_three; done. Qed.

Lemma replacement_alone : utf8 replacement.
Proof. apply (replacement_utf8 []), utf8_nil. Qed.

(** Whatever the bytes are, the result is well formed. *)
Lemma lossy_utf8 l : utf8 (from_utf8_lossy l).
Proof.
  induction l as [l IH] using (induction_ltof1 _ (@length ascii)). unfold ltof in IH.
  destruct l as [|a l1]; [apply utf8_nil|]. cbn [from_utf8_lossy]. simpl in IH.
  repeat case_match; subst; simpl in IH;
    eauto 2 using replacement_alone;
    first [apply replacement_utf8 | apply utf8_four | apply utf8_three | apply utf8_two | apply utf8_one];
    try assumption; apply IH; simpl; lia.
Qed.

(** A well-formed text is kept. *)
Lemma lossy_id l : utf8 l → from_utf8_lossy l = l.
Proof.
  induction 1 as [|a l Ha _ IH|a b l Ha Hb _ IH|a b c l Ha Hb Hc _ IH|a b c d l Ha Hb Hc Hd _ IH];
    cbn [from_utf8_lossy]; [done|by rewrite Ha, IH|..];
    (assert ((N_of_ascii a <? 128)%N = false) as -> by (eapply in_range_not_ascii; [|exact Ha]; done)).
  - by rewrite Ha, Hb, IH.
  - rewrite (in_range_apart _ _ 0xE0 0xEF a) by done. by rewrite Ha, Hb, Hc, IH.
  - rewrite !(in_range_apart _ _ 0xF0 0xF4 a) by done. by rewrite Ha, Hb, Hc, Hd, IH.
Qed.

Lemma lossy_idemp l : from_utf8_lossy (from_utf8_lossy l) = from_utf8_lossy l.
Proof. apply lossy_id, lossy_utf8. Qed.

Lemma lossy_fixed l : from_utf8_lossy l = l → utf8 l.
Proof. intros <-. apply lossy_utf8. Qed.

Lemma utf8_ascii l : Forall (λ c, (N_of_ascii c <? 128)%N = true) l → utf8 l.
Proof. induction 1; by constructor. Qed.

Lemma utf8_app l k : utf8 l → utf8 k → utf8 (l ++ k).
Proof. intros H Hk. induction H; simpl; [done|by constructor..]. Qed.

(** Cutting a text inside a character loses it: each half is replaced on its own. *)
Example cut_character :
  let e_acute := [ascii_of_N 0xC3; ascii_of_N 0xA9] in
  from_utf8_lossy e_acute = e_acute ∧
  from_utf8_lossy (take 1 e_acute) ++ from_utf8_lossy (drop 1 e_acute) = replacement ++ replacement.
Proof. split; vm_compute; reflexivity. Qed.

(** ** [std::path::Path] on Unix *)

Inductive Component := RootDir | CurDir | ParentDir | Normal (s : string).
#[export] Instance Component_eq_dec : EqDecision Component.
Proof. solve_decision. Defined.
(** Empty parts and dots are dropped, but for a dot that begins a relative path. *)
Definition component_of (s : string) : option Component :=
  if bool_decide (s = "") || bool_decide (s = ".") then None else if bool_decide (s = "..") then Some ParentDir else Some (Normal s).
Definition is_absolute (p : string) : bool := starts_with "/" p.
Definition components (p : string) : list Component :=
  let parts := split_on (λ c, is_char c "/") p in
  (if is_absolute p then [RootDir] else if bool_decide (head parts = Some ".") then [CurDir] else []) ++ omap component_of parts.
Definition path_starts_with (p base : string) : bool :=
  bool_decide (take (length (components base)) (components p) = components base).
Definition file_name (p : string) : option string := match last (components p) with Some (Normal s) => Some s | _ => None end.

(** ** Texts that [trim] leaves as they are *)

(** An ASCII character that is no white space *)
Definition edge (c : ascii) : bool := negb (ws1 c) && (N_of_ascii c <? 128)%N.
Lemma drop_ws_edge w2 w3 c l :
  edge c = true → (∀ b, w2 c b = false) → (∀ b d, w3 c b d = false) → drop_ws w2 w3 (c :: l) = c :: l.
Proof.
  intros [Hw _]%andb_true_iff H2 H3. apply negb_true_iff in Hw. simpl. rewrite Hw. destruct l as [|b l]; [done|]. rewrite H2.
  destruct l as [|d l]; [done|]. by rewrite H3.
Qed.
Lemma trim_edges s a l b l' : chars s = a :: l → chars s = l' ++ [b] → edge a = true → edge b = true → trim s = s.
Proof.
  intros Ha Hb Hea Heb. pose proof Hea as [_ Ha128]%andb_true_iff. pose proof Heb as [_ Hb128]%andb_true_iff.
  apply N.ltb_lt in Ha128, Hb128. unfold trim.
  assert (Hs : trim_start s = s).
  { unfold trim_start. fold (chars s). rewrite Ha, drop_ws_edge; [rewrite <- Ha; apply of_chars_chars|done| |].
    - intros d. unfold ws2. by rewrite (proj2 (N.eqb_neq _ _)) by lia.
    - intros d e. unfold ws3. rewrite !(proj2 (N.eqb_neq (N_of_ascii a) _)) by lia. done. }
  rewrite Hs. unfold trim_end. fold (chars s). rewrite Hb, rev_unit, drop_ws_edge; [|done| |].
  - rewrite <- rev_unit, rev_involutive, <- Hb. apply of_chars_chars.
  - intros d. unfold ws2. rewrite !(proj2 (N.eqb_neq (N_of_ascii b) _)) by lia. by rewrite andb_false_r.
  - intros d e. unfold ws3. rewrite !(proj2 (N.eqb_neq (N_of_ascii b) _)) by lia.
    rewrite (proj2 (N.leb_gt 0x80 (N_of_ascii b))) by lia. by rewrite !andb_false_r.
Qed.
