(* ===== verification/JsonValue.v ===== *)
(** * JSON values and HTTP requests

    [serde_json::Value] as the panel uses it: an object is a [BTreeMap], so its members are in the
    order of their keys; indexing with a key gives [Null] where there is no such member.  The
    reader and the printer of JSON text are parameters.  A request is what the code gives to
    [reqwest]; a response is its status and its body as JSON. *)

From stdpp Require Import gmap strings list sorting.
From Stdlib Require Import ZArith Lia Ascii.
From S2P Require Import Prelude RustStr RustText.

Inductive JNumber :=
| JInt (n : Z)                 (* from [i64::MIN] to [u64::MAX] *)
| JFloat (digits exponent : Z).

Inductive JValue :=
| VNull
| VBool (b : bool)
| VNumber (n : JNumber)
| VString (s : string)
| VArray (items : list JValue)
| VObject (members : list (string * JValue)).

Class JsonText := {
  json_parse : string → option JValue;      (* [serde_json::from_str(..).ok()] *)
  json_print : JValue → string;             (* [to_string] *)
}.

(** ** Objects *)

Definition Members := list (string * JValue).

Fixpoint member (key : string) (o : Members) : option JValue :=
  match o with
  | [] => None
  | (k, v) :: o' => if bool_decide (k = key) then Some v else member key o'
  end.

(** [BTreeMap::insert] *)
Fixpoint put (key : string) (v : JValue) (o : Members) : Members :=
  match o with
  | [] => [(key, v)]
  | (k, w) :: o' =>
      if bool_decide (k = key) then (key, v) :: o'
      else if str_le key k then (key, v) :: o
      else (k, w) :: put key v o'
  end.

(** [value[key]] *)
Definition at_key (key : string) (v : JValue) : JValue :=
  match v with VObject o => default VNull (member key o) | _ => VNull end.

Definition as_str_value (v : JValue) : option string := match v with VString s => Some s | _ => None end.
Definition as_array (v : JValue) : option (list JValue) := match v with VArray l => Some l | _ => None end.
Definition is_null (v : JValue) : bool := match v with VNull => true | _ => false end.

(** [value[key].as_str().unwrap_or(fallback)] *)
Definition str_at (key fallback : string) (v : JValue) : string :=
  default fallback (as_str_value (at_key key v)).

(** [.as_array().into_iter().flatten()] *)
Definition elements (v : JValue) : list JValue := default [] (as_array v).

Definition as_i64_value (v : JValue) : option Z :=
  match v with VNumber (JInt n) => if in_i64 n then Some n else None | _ => None end.

(** [as_str().map(str::to_string).unwrap_or_else(|| value.to_string())] *)
Definition text_of `{JsonText} (v : JValue) : string := default (json_print v) (as_str_value v).

(** [serde_json::json!] of an object, and [value[key] = v] of one *)
Definition json_object (l : list (string * JValue)) : JValue :=
  VObject (foldl (λ o '(k, v), put k v o) [] l).
Definition set_key (key : string) (v value : JValue) : JValue :=
  match value with VObject o => VObject (put key v o) | _ => value end.
Definition json_int (n : Z) : JValue := VNumber (JInt n).

(** ** HTTP *)

Inductive Method := GET | POST | PUT | DELETE.
Inductive Body := NoBody | JsonBody (v : JValue) | TextBody (s : string).
Record Request := mkRequest {
  rq_method : Method; rq_url : string; rq_query : list (string * string);
  rq_headers : list (string * string); rq_body : Body }.
Record Response := mkResponse { rs_status : Z; rs_json : result JValue string }.

Definition is_success (status : Z) : bool := (200 <=? status)%Z && (status <? 300)%Z.
Definition bearer (token : string) : string * string := ("Authorization", "Bearer " +:+ token).

(** ** Sorted members *)

Lemma member_put key v o k :
  member k (put key v o) = if bool_decide (k = key) then Some v else member k o.
Proof.
  induction o as [|[k' w] o IH]; simpl.
  - by rewrite (bool_decide_ext (key = k) (k = key)) by done.
  - destruct (decide (k' = key)) as [->|Hne].
    + rewrite !bool_decide_true by done. simpl.
      destruct (decide (k = key)) as [->|Hk].
      * by rewrite !bool_decide_true.
      * by rewrite !(bool_decide_false (k = key)), !(bool_decide_false (key = k)) by done.
    + rewrite (bool_decide_false (k' = key)) by done. destruct (str_le key k'); simpl.
      * destruct (decide (k = key)) as [->|Hk].
        -- by rewrite !bool_decide_true.
        -- by rewrite (bool_decide_false (k = key)), (bool_decide_false (key = k)) by done.
      * rewrite IH. destruct (decide (k' = k)) as [->|Hk']; [|by rewrite (bool_decide_false (k' = k))].
        by rewrite (bool_decide_false (k = key)), bool_decide_true by done.
Qed.

Lemma member_put_same key v o : member key (put key v o) = Some v.
Proof. by rewrite member_put, bool_decide_true. Qed.
Lemma member_put_other key v o k : k ≠ key → member k (put key v o) = member k o.
Proof. intros Hne. by rewrite member_put, bool_decide_false. Qed.

Lemma at_key_put key v o k :
  at_key k (VObject (put key v o)) = if bool_decide (k = key) then v else at_key k (VObject o).
Proof. simpl. rewrite member_put. by case_bool_decide. Qed.
