(* ===== verification/WatchPaths.v ===== *)
(** * Watch paths

    [src/utils/watch_paths.rs]: which pushes deploy a resource.  [glob_match] is the source's
    recursion, well founded because each call shortens the pattern or the path.  Its
    specification reads a pattern as a sequence of tokens and a token as a language of byte
    sequences; [should_deploy] is then the meaning of the rules, the last matching rule
    deciding for each path.  The JSON reader is a parameter. *)

From stdpp Require Import gmap strings list.
From Equations Require Import Equations.
From Stdlib Require Import ZArith Lia Ascii.
From S2P Require Import Prelude RustStr RustText.

(** ** Globs *)

Definition is_star (c : ascii) : bool := is_char "*" c.
Definition is_slash (c : ascii) : bool := is_char "/" c.

(** The slice patterns of [glob_match] on a non-empty pattern: [**] with the rest after an
    optional slash, [*], or any other byte. *)
Inductive GlobHead :=
| HeadDouble (rest : list ascii)
| HeadStar
| HeadByte.

Definition strip_slash (l : list ascii) : list ascii :=
  match l with c :: l' => if is_slash c then l' else l | [] => l end.

Definition glob_head (c : ascii) (rest : list ascii) : GlobHead :=
  if is_star c then
    match rest with
    | c2 :: rest2 => if is_star c2 then HeadDouble (strip_slash rest2) else HeadStar
    | [] => HeadStar
    end
  else HeadByte.

Lemma strip_slash_length l : length (strip_slash l) ≤ length l.
Proof. destruct l as [|c l]; simpl; [lia|]. destruct (is_slash c); simpl; lia. Qed.

Lemma glob_head_length c rest rest' :
  glob_head c rest = HeadDouble rest' → length rest' < length rest.
Proof.
  unfold glob_head. destruct (is_star c); [|done]. destruct rest as [|c2 rest2]; [done|].
  destruct (is_star c2); [|done]. intros [= <-]. simpl. pose proof (strip_slash_length rest2). lia.
Qed.

Definition with_eq {A} (x : A) : {y : A | x = y} := exist _ x eq_refl.

Equations? glob_match (pattern path : list ascii) : bool
  by wf (length pattern + length path) lt :=
glob_match [] [] := true;
glob_match [] (_ :: _) := false;
glob_match (c :: rest) [] with with_eq (glob_head c rest) => {
  | exist _ (HeadDouble rest') E := glob_match rest' [];
  | exist _ HeadStar E := glob_match rest [];
  | exist _ HeadByte E := false };
glob_match (c :: rest) (b :: path) with with_eq (glob_head c rest) => {
  | exist _ (HeadDouble rest') E := glob_match rest' (b :: path) || glob_match (c :: rest) path;
  | exist _ HeadStar E :=
      glob_match rest (b :: path) || (negb (is_slash b) && glob_match (c :: rest) path);
  | exist _ HeadByte E := is_char c b && glob_match rest path }.
Proof. all: simpl; try apply glob_head_length in E; lia. Qed.

(** ** Rules *)

(** [serde_json::Value], as far as the rules look at it *)
Inductive Json :=
| JString (s : string)
| JArray (items : list Json)
| JOther.

Record Rule := mkRule { rule_pattern : string; rule_exclude : bool }.

Definition normalize (value : string) : string :=
  replace_char "\" "/" (trim_start_char "/" (trim_start_matches "./" (trim value))).

Definition matches_pattern (pattern path : string) : bool :=
  if negb (contains "*" pattern) then
    bool_decide (path = pattern) || starts_with (pattern +:+ "/") path
  else glob_match (chars pattern) (chars path).

Fixpoint json_strings (items : list Json) : result (list string) string :=
  match items with
  | [] => Ok []
  | JString s :: rest => let? l := json_strings rest in Ok (s :: l)
  | _ :: _ => Err "watch_paths entries must be strings"
  end%rust.

Definition is_separator (c : ascii) : bool := is_char "," c || is_char (ascii_of_N 10) c.

Definition rule_of_value (value : string) : option Rule :=
  let value := trim value in
  let '(exclude, value) := match strip_prefix "!" value with
                           | Some v => (true, v)
                           | None => (false, value)
                           end in
  let pattern := trim_end_char "/" (normalize value) in
  if str_is_empty pattern then None else Some (mkRule pattern exclude).

Section rules.
(* [serde_json::from_str], with the text of its error *)
Context (from_str : string → result Json string).

Definition rule_values (raw : string) : result (list string) string :=
  if starts_with "[" raw then
    match from_str raw with
    | Err error => Err ("watch_paths must be a JSON string array: " +:+ error)
    | Ok (JArray items) => json_strings items
    | Ok _ => Err "watch_paths must be a JSON string array"
    end
  else Ok (List.filter (λ v, negb (str_is_empty v)) (map trim (split_on is_separator raw))).

Definition parse_rules (raw : option string) : result (list Rule) string :=
  match raw with
  | None => Ok []
  | Some raw =>
      let raw := trim raw in
      if str_is_empty raw then Ok []
      else let? values := rule_values raw in Ok (omap rule_of_value values)
  end%rust.

(** The loop over the rules for one changed path *)
Definition included (rules : list Rule) (path : string) : bool :=
  let path := normalize path in
  fold_left (λ included rule,
      if matches_pattern (rule_pattern rule) path then negb (rule_exclude rule) else included)
    rules false.

Definition should_deploy (raw_rules : option string) (changed_paths : list string)
    : result bool string :=
  let? rules := parse_rules raw_rules in
  if bool_decide (rules = []) || bool_decide (changed_paths = []) then Ok true
  else Ok (existsb (included rules) changed_paths).
End rules.

(** ** What a pattern means *)

Inductive Token := AnyBytes | AnyInSegment | Exactly (c : ascii).

Equations? tokens (pattern : list ascii) : list Token by wf (length pattern) lt :=
tokens [] := [];
tokens (c :: rest) with with_eq (glob_head c rest) => {
  | exist _ (HeadDouble rest') E := AnyBytes :: tokens rest';
  | exist _ HeadStar E := AnyInSegment :: tokens rest;
  | exist _ HeadByte E := Exactly c :: tokens rest }.
Proof. all: simpl; try apply glob_head_length in E; lia. Qed.

(** The byte sequences one token stands for. *)
Definition token_language (t : Token) (u : list ascii) : Prop :=
  match t with
  | AnyBytes => True
  | AnyInSegment => "/"%char ∉ u
  | Exactly c => u = [c]
  end.

(** A path is in the language of the tokens when it is a concatenation of one word of each. *)
Inductive in_language : list Token → list ascii → Prop :=
| in_nil : in_language [] []
| in_cons t ts u v : token_language t u → in_language ts v → in_language (t :: ts) (u ++ v).

(** A pattern selects a path: without a star it is the path or a directory above it. *)
Definition pattern_selects (pattern path : string) : Prop :=
  if contains "*" pattern then in_language (tokens (chars pattern)) (chars path)
  else path = pattern ∨ ∃ rest, path = pattern +:+ "/" +:+ rest.

(** The rule that decides for a path: the last one that selects it. *)
Definition decides (rules : list Rule) (path : string) (rule : Rule) : Prop :=
  ∃ before after, rules = before ++ rule :: after
    ∧ pattern_selects (rule_pattern rule) path
    ∧ ∀ r, r ∈ after → ¬ pattern_selects (rule_pattern r) path.

(** ** The matcher recognises the language *)

Lemma in_language_cons t ts p :
  in_language (t :: ts) p ↔ ∃ u v, p = u ++ v ∧ token_language t u ∧ in_language ts v.
Proof.
  split.
  - inversion 1; subst. eauto.
  - intros (u & v & -> & Ht & Hv). by constructor.
Qed.

Lemma in_language_nil_path ts :
  in_language ts [] ↔ Forall (λ t, token_language t []) ts.
Proof.
  induction ts as [|t ts IH]; [split; constructor|].
  rewrite in_language_cons, Forall_cons, <- IH. split.
  - intros (u & v & E & Ht & Hv). symmetry in E. by apply app_nil in E as [-> ->].
  - intros [Ht Hts]. by exists [], [].
Qed.

Lemma in_language_any ts b path :
  in_language (AnyBytes :: ts) (b :: path)
  ↔ in_language ts (b :: path) ∨ in_language (AnyBytes :: ts) path.
Proof.
  rewrite !in_language_cons. split.
  - intros ([|a u] & v & E & _ & Hv); simpl in E; [left; by subst|].
    injection E as -> ->. right. by exists u, v.
  - intros [H|(u & v & -> & _ & Hv)]; [by exists [], (b :: path) | by exists (b :: u), v].
Qed.

Lemma in_language_segment ts b path :
  in_language (AnyInSegment :: ts) (b :: path)
  ↔ in_language ts (b :: path) ∨ (b ≠ "/"%char ∧ in_language (AnyInSegment :: ts) path).
Proof.
  rewrite !in_language_cons. simpl. split.
  - intros ([|a u] & v & E & Hu & Hv); simpl in E; [left; by subst|].
    injection E as -> ->. apply not_elem_of_cons in Hu as [? ?]. right. split; [done|]. by exists u, v.
  - intros [H|(Hb & u & v & -> & Hu & Hv)].
    + exists [], (b :: path). split_and!; [done | apply not_elem_of_nil | done].
    + exists (b :: u), v. split_and!; [done | by apply not_elem_of_cons | done].
Qed.

Lemma in_language_exactly ts c b path :
  in_language (Exactly c :: ts) (b :: path) ↔ c = b ∧ in_language ts path.
Proof.
  rewrite in_language_cons. simpl. split.
  - intros (u & v & E & -> & Hv). injection E as -> ->. done.
  - intros [-> H]. by exists [b], path.
Qed.

Lemma tokens_cons c rest :
  tokens (c :: rest) = match glob_head c rest with
                       | HeadDouble rest' => AnyBytes :: tokens rest'
                       | HeadStar => AnyInSegment :: tokens rest
                       | HeadByte => Exactly c :: tokens rest
                       end.
Proof. simp tokens. destruct (with_eq (glob_head c rest)) as [h E]. destruct h; simpl; by rewrite E. Qed.

(** The arms of the source, without the bookkeeping of the recursion. *)
Lemma glob_match_end c rest :
  glob_match (c :: rest) [] = match glob_head c rest with
                              | HeadDouble rest' => glob_match rest' []
                              | HeadStar => glob_match rest []
                              | HeadByte => false
                              end.
Proof. simp glob_match. destruct (with_eq (glob_head c rest)) as [h E]. destruct h; simpl; by rewrite E. Qed.

Lemma glob_match_step c rest b path :
  glob_match (c :: rest) (b :: path)
  = match glob_head c rest with
    | HeadDouble rest' => glob_match rest' (b :: path) || glob_match (c :: rest) path
    | HeadStar => glob_match rest (b :: path) || (negb (is_slash b) && glob_match (c :: rest) path)
    | HeadByte => is_char c b && glob_match rest path
    end.
Proof. simp glob_match. destruct (with_eq (glob_head c rest)) as [h E]. destruct h; simpl; by rewrite E. Qed.

Lemma glob_match_spec_measure n : ∀ pattern path, length pattern + length path < n →
  glob_match pattern path = true ↔ in_language (tokens pattern) path.
Proof.
  induction n as [|n IH]; [lia|]. intros [|c rest] [|b path] Hn; simpl in Hn.
  - simp glob_match tokens. split; [constructor | done].
  - simp glob_match tokens. split; [done | inversion 1].
  - rewrite glob_match_end, tokens_cons, in_language_nil_path.
    destruct (glob_head c rest) as [rest'| |] eqn:E; rewrite Forall_cons; simpl.
    + apply glob_head_length in E. rewrite IH by (simpl; lia). rewrite in_language_nil_path. naive_solver.
    + rewrite IH by (simpl; lia). rewrite in_language_nil_path. set_solver.
    + naive_solver.
  - rewrite glob_match_step, tokens_cons.
    assert (glob_match (c :: rest) path = true ↔ in_language (tokens (c :: rest)) path) as Hp
      by (apply IH; simpl; lia). rewrite tokens_cons in Hp.
    destruct (glob_head c rest) as [rest'| |] eqn:E.
    + apply glob_head_length in E. rewrite orb_true_iff, Hp, IH by (simpl; lia).
      by rewrite in_language_any.
    + rewrite orb_true_iff, andb_true_iff, negb_true_iff, Hp, IH by (simpl; lia).
      unfold is_slash. rewrite is_char_false, in_language_segment. naive_solver.
    + rewrite andb_true_iff, is_char_spec, in_language_exactly, IH by lia. done.
Qed.

Lemma glob_match_spec pattern path :
  glob_match pattern path = true ↔ in_language (tokens pattern) path.
Proof. apply (glob_match_spec_measure (S (length pattern + length path))). lia. Qed.

Lemma matches_pattern_spec pattern path :
  matches_pattern pattern path = true ↔ pattern_selects pattern path.
Proof.
  unfold matches_pattern, pattern_selects. destruct (contains "*" pattern); simpl.
  - apply glob_match_spec.
  - rewrite orb_true_iff, bool_decide_eq_true, starts_with_spec.
    by setoid_rewrite str_app_assoc.
Qed.

(** ** The last matching rule decides *)

Lemma decides_functional rules path r1 r2 :
  decides rules path r1 → decides rules path r2 → r1 = r2.
Proof.
  induction rules as [|r rules IH] using rev_ind.
  { intros (b & a & E & _). by destruct b. }
  assert (∀ x, decides (rules ++ [r]) path x →
     (x = r ∧ pattern_selects (rule_pattern r) path)
     ∨ (¬ pattern_selects (rule_pattern r) path ∧ decides rules path x)) as Hcase.
  { intros x (b & a & E & Hs & Ha). destruct a as [|y a _] using rev_ind.
    - apply app_inj_tail in E as [_ ->]. by left.
    - right. rewrite app_comm_cons, app_assoc in E. apply app_inj_tail in E as [-> ->].
      split; [apply Ha; set_solver|]. exists b, a. split_and!; try done.
      intros z Hz. apply Ha. set_solver. }
  intros [[-> ?]|[? ?]]%Hcase [[-> ?]|[? ?]]%Hcase; try done. by apply IH.
Qed.

Lemma included_spec rules path :
  included rules path = true
  ↔ ∃ rule, decides rules (normalize path) rule ∧ rule_exclude rule = false.
Proof.
  unfold included. set (p := normalize path). induction rules as [|r rules IH] using rev_ind.
  { simpl. split; [done|]. intros (rule & (b & a & E & _) & _). by destruct b. }
  rewrite fold_left_app. simpl. destruct (matches_pattern (rule_pattern r) p) eqn:Em.
  - apply matches_pattern_spec in Em. assert (decides (rules ++ [r]) p r) as Hr.
    { exists rules, []. split_and!; [done|done|]. by intros x ?%elem_of_nil. }
    rewrite negb_true_iff. split; [by exists r|].
    intros (x & Hx & He). by rewrite (decides_functional _ _ _ _ Hr Hx).
  - rewrite IH. assert (¬ pattern_selects (rule_pattern r) p) as Hn.
    { rewrite <- matches_pattern_spec. by rewrite Em. }
    split; intros (x & Hx & He); exists x; (split; [|done]).
    + destruct Hx as (b & a & -> & Hs & Ha). exists b, (a ++ [r]). split_and!; [|done|].
      * by rewrite <- app_assoc.
      * intros y. rewrite elem_of_app, list_elem_of_singleton. intros [?| ->]; auto.
    + destruct Hx as (b & a & E & Hs & Ha). destruct a as [|y a _] using rev_ind.
      * apply app_inj_tail in E as [_ ->]. done.
      * rewrite app_comm_cons, app_assoc in E. apply app_inj_tail in E as [-> ->].
        exists b, a. split_and!; try done. intros z Hz. apply Ha. set_solver.
Qed.

(** A pattern without stars is read byte by byte. *)
Lemma tokens_plain l rest :
  "*"%char ∉ l → tokens (l ++ rest) = map Exactly l ++ tokens rest.
Proof.
  induction l as [|c l IH]; intros Hn; [done|]. apply not_elem_of_cons in Hn as [Hc Hn]. simpl.
  rewrite tokens_cons. unfold glob_head, is_star. rewrite (proj2 (is_char_false "*" c)) by done.
  by rewrite (IH Hn).
Qed.

Lemma in_language_plain l ts p : in_language ts p → in_language (map Exactly l ++ ts) (l ++ p).
Proof. intros H. induction l as [|c l IH]; [done|]. by apply (in_cons (Exactly c) _ [c]). Qed.

Lemma contains_star s : contains "*" s = true ↔ "*"%char ∈ chars s.
Proof.
  induction s as [|c s IH].
  { split; [done | by intros ?%elem_of_nil]. }
  change (chars (String c s)) with (c :: chars s). rewrite elem_of_cons, <- IH.
  cbn [contains]. rewrite orb_true_iff, starts_with_spec. split; (intros [H|H]; [left|by right]).
  - destruct H as (r & E). by injection E.
  - subst c. by exists s.
Qed.

(** ** The properties *)

(** C13: When the watch rules parse, should_deploy answers, and answers yes exactly when there
    are no rules or no changed paths or some changed path is decided by an including rule: the
    last rule whose pattern selects the normalized path, where a pattern selects a path by the
    language of its wildcards or, without wildcards, as the path itself or a directory above it. *)
Theorem should_deploy_meaning (from_str : string → result Json string) (raw : option string)
    (rules : list Rule) (paths : list string) (Hparse : parse_rules from_str raw = Ok rules) :
  ∃ answer, should_deploy from_str raw paths = Ok answer
  ∧ (answer = true ↔
     rules = [] ∨ paths = []
     ∨ ∃ path rule, path ∈ paths ∧ decides rules (normalize path) rule
                    ∧ rule_exclude rule = false).
Proof.
  unfold should_deploy. rewrite Hparse. simpl. destruct (_ || _) eqn:E.
  - exists true. split; [done|]. apply orb_true_iff in E. rewrite !bool_decide_eq_true in E. tauto.
  - eexists. split; [done|]. apply orb_false_iff in E as [E1 E2].
    apply bool_decide_eq_false in E1, E2. rewrite existsb_elem.
    setoid_rewrite included_spec. naive_solver.
Qed.

(** A reader of flat arrays of strings without escapes, enough for an example. *)
Definition sample_from_str (raw : string) : result Json string :=
  Ok (JArray (map JString (List.filter (λ w, negb (bool_decide (w ∈ ["["; ","; "]"])))
                             (split_on (λ c, is_char (ascii_of_N 34) c) raw)))).

Lemma should_deploy_witness :
  let rules := [mkRule "apps/**" false; mkRule "apps/docs/**" true] in
  parse_rules sample_from_str (Some "apps/**, !apps/docs/**") = Ok rules
  ∧ ∃ answer, should_deploy sample_from_str (Some "apps/**, !apps/docs/**") ["apps/docs/readme.md"]
              = Ok answer
    ∧ (answer = true ↔ rules = [] ∨ ["apps/docs/readme.md"] = []
       ∨ ∃ path rule, path ∈ ["apps/docs/readme.md"] ∧ decides rules (normalize path) rule
                      ∧ rule_exclude rule = false).
Proof.
  intros rules. split; [vm_compute; reflexivity|].
  apply (should_deploy_meaning sample_from_str (Some "apps/**, !apps/docs/**") rules
           ["apps/docs/readme.md"]). vm_compute. reflexivity.
Defined.

(** The examples of the test module. *)
Example watch_examples :
  should_deploy sample_from_str (Some "apps/**,!apps/docs/**") ["apps/docs/readme.md"] = Ok false
  ∧ should_deploy sample_from_str (Some "apps/**,!apps/docs/**") ["apps/api/main.rs"] = Ok true
  ∧ should_deploy sample_from_str None ["README.md"] = Ok true
  ∧ should_deploy (λ _, Ok (JArray [JString "src"; JOther])) (Some "[src, 42]") ["src/main.rs"]
    = Err "watch_paths entries must be strings".
Proof. vm_compute. done. Qed.

(** A [**/] inside a pattern stands for any run of bytes and not for whole directories: what
    follows it may be the tail of a longer file name. *)
Theorem double_star_ignores_segments (dir run file : string)
    (Hdir : "*"%char ∉ chars dir) (Hfile : "*"%char ∉ chars file) :
  matches_pattern (dir +:+ "/**/" +:+ file) (dir +:+ "/" +:+ run +:+ file) = true.
Proof.
  apply matches_pattern_spec. unfold pattern_selects.
  rewrite (proj2 (contains_star _)) by (rewrite !chars_app, !elem_of_app; right; left; set_solver).
  rewrite !chars_app. change (chars "/**/") with (chars "/" ++ chars "**/").
  rewrite tokens_plain by done. apply in_language_plain.
  rewrite <- app_assoc, tokens_plain by set_solver. apply in_language_plain.
  change (chars "**/" ++ chars file) with ("*"%char :: "*"%char :: "/"%char :: chars file).
  rewrite tokens_cons. simpl. constructor; [done|].
  pose proof (tokens_plain (chars file) [] Hfile) as E. rewrite !app_nil_r in E. rewrite E.
  pose proof (in_language_plain (chars file) [] [] in_nil) as Hl. by rewrite !app_nil_r in Hl.
Qed.

Lemma double_star_witness :
  "*"%char ∉ chars "packages" ∧ "*"%char ∉ chars "lib.rs"
  ∧ matches_pattern "packages/**/lib.rs" "packages/mylib.rs" = true.
Proof.
  split_and!; [set_solver..|].
  apply (double_star_ignores_segments "packages" "my" "lib.rs"); set_solver.
Defined.
