(* ===== verification/StringEnum.v ===== *)
(** * The [string_enum!] macro and the enums it generates

    [crates/os/src/macros/string_enum.rs] turns a list of [Variant => "LITERAL"]
    pairs into an enum with [as_str], a trimming and case-insensitive [from_str],
    and [From<&str>] conversions that fall back to a default.  The macro is the
    class [StringEnum]; an instance is one invocation of the macro.  The
    hand-written [DatabaseKind] parser follows. *)

From stdpp Require Import gmap strings list.
From Stdlib Require Import ZArith Lia.
From S2P Require Import Prelude RustStr.

(** ** The macro *)

Class StringEnum (E : Type) := {
  enum_table : list (E * string);
  enum_default : E;
  enum_eq_dec :: EqDecision E;
}.

(** What every invocation satisfies: [as_str] is total (every variant is listed),
    no variant is listed twice, no two arms of [from_str] have the same pattern,
    and the literals are written the way [from_str] normalises its argument. *)
Class StringEnumLaws (E : Type) `{StringEnum E} := {
  enum_total : ∀ e : E, e ∈ enum_table.*1;
  enum_variants_nodup : NoDup (enum_table (E := E)).*1;
  enum_literals_nodup : NoDup (enum_table (E := E)).*2;
  enum_literals_normal :
    Forall (λ '(_, s), to_ascii_uppercase (trim s) = s) (enum_table (E := E));
}.

Section macro.
Context `{StringEnum E}.

(** [match self { Variant => "LITERAL", ... }] *)
Definition as_str (e : E) : string :=
  match list_find (λ p, p.1 = e) enum_table with
  | Some (_, p) => p.2
  | None => ""
  end.

(** [match value.trim().to_ascii_uppercase() { "LITERAL" => Some(..), .. }] *)
Definition from_str (value : string) : option E :=
  let key := to_ascii_uppercase (trim value) in
  match list_find (λ p, p.2 = key) enum_table with
  | Some (_, p) => Some p.1
  | None => None
  end.

(** [impl FromStr] *)
Definition parse (name s : string) : result E string :=
  match from_str s with
  | Some e => Ok e
  | None => Err ("Invalid " +:+ name +:+ ": " +:+ s)
  end.

(** [impl From<&str>] and [impl From<String>] *)
Definition from (value : string) : E := default enum_default (from_str value).
End macro.

(** ** The invocations used by the modelled components *)

Inductive UserRole := Owner | Admin | Member.
#[export] Instance UserRole_eq_dec : EqDecision UserRole.
Proof. solve_decision. Defined.
#[export] Instance UserRole_enum : StringEnum UserRole := {|
  enum_table := [(Owner, "OWNER"); (Admin, "ADMIN"); (Member, "MEMBER")];
  enum_default := Member;
|}.

Inductive PolicyEffect := Grant | Deny.
#[export] Instance PolicyEffect_eq_dec : EqDecision PolicyEffect.
Proof. solve_decision. Defined.
#[export] Instance PolicyEffect_enum : StringEnum PolicyEffect := {|
  enum_table := [(Grant, "GRANT"); (Deny, "DENY")];
  enum_default := Grant;
|}.

Inductive ResourceType := RtProject | RtServer | RtEnvironment | RtService | RtGitProvider.
#[export] Instance ResourceType_eq_dec : EqDecision ResourceType.
Proof. solve_decision. Defined.
#[export] Instance ResourceType_enum : StringEnum ResourceType := {|
  enum_table := [(RtProject, "PROJECT"); (RtServer, "SERVER");
                 (RtEnvironment, "ENVIRONMENT"); (RtService, "SERVICE");
                 (RtGitProvider, "GIT_PROVIDER")];
  enum_default := RtProject;
|}.

Inductive AlertEventState := Firing | Resolved | NoData.
#[export] Instance AlertEventState_eq_dec : EqDecision AlertEventState.
Proof. solve_decision. Defined.
#[export] Instance AlertEventState_enum : StringEnum AlertEventState := {|
  enum_table := [(Firing, "FIRING"); (Resolved, "RESOLVED"); (NoData, "NO_DATA")];
  enum_default := Firing;
|}.

Inductive ComposeStatus :=
  CsIdle | CsQueued | CsStarting | CsRunning | CsStopping | CsStopped
| CsCancelling | CsCancelled | CsDone | CsError.
#[export] Instance ComposeStatus_eq_dec : EqDecision ComposeStatus.
Proof. solve_decision. Defined.
#[export] Instance ComposeStatus_enum : StringEnum ComposeStatus := {|
  enum_table := [(CsIdle, "IDLE"); (CsQueued, "QUEUED"); (CsStarting, "STARTING");
                 (CsRunning, "RUNNING"); (CsStopping, "STOPPING"); (CsStopped, "STOPPED");
                 (CsCancelling, "CANCELLING"); (CsCancelled, "CANCELLED");
                 (CsDone, "DONE"); (CsError, "ERROR")];
  enum_default := CsIdle;
|}.

Definition compose_is_building (s : ComposeStatus) : bool :=
  match s with CsQueued | CsStarting | CsCancelling => true | _ => false end.

Inductive ApplicationStatus :=
  AsIdle | AsQueued | AsBuilding | AsDeploying | AsStarting | AsRunning | AsHealthy
| AsStopping | AsStopped | AsCancelling | AsCancelled | AsDone | AsFailed | AsError.
#[export] Instance ApplicationStatus_eq_dec : EqDecision ApplicationStatus.
Proof. solve_decision. Defined.
#[export] Instance ApplicationStatus_enum : StringEnum ApplicationStatus := {|
  enum_table := [(AsIdle, "IDLE"); (AsQueued, "QUEUED"); (AsBuilding, "BUILDING");
                 (AsDeploying, "DEPLOYING"); (AsStarting, "STARTING");
                 (AsRunning, "RUNNING"); (AsHealthy, "HEALTHY"); (AsStopping, "STOPPING");
                 (AsStopped, "STOPPED"); (AsCancelling, "CANCELLING");
                 (AsCancelled, "CANCELLED"); (AsDone, "DONE"); (AsFailed, "FAILED");
                 (AsError, "ERROR")];
  enum_default := AsIdle;
|}.

Definition application_is_building (s : ApplicationStatus) : bool :=
  match s with
  | AsQueued | AsBuilding | AsDeploying | AsStarting | AsCancelling => true
  | _ => false
  end.

Inductive DatabaseRuntimeStatus :=
  DsIdle | DsQueued | DsBuilding | DsDeploying | DsStarting | DsRunning | DsHealthy
| DsStopping | DsStopped | DsCancelling | DsCancelled | DsDone | DsFailed.
#[export] Instance DatabaseRuntimeStatus_eq_dec : EqDecision DatabaseRuntimeStatus.
Proof. solve_decision. Defined.
#[export] Instance DatabaseRuntimeStatus_enum : StringEnum DatabaseRuntimeStatus := {|
  enum_table := [(DsIdle, "IDLE"); (DsQueued, "QUEUED"); (DsBuilding, "BUILDING");
                 (DsDeploying, "DEPLOYING"); (DsStarting, "STARTING");
                 (DsRunning, "RUNNING"); (DsHealthy, "HEALTHY"); (DsStopping, "STOPPING");
                 (DsStopped, "STOPPED"); (DsCancelling, "CANCELLING");
                 (DsCancelled, "CANCELLED"); (DsDone, "DONE"); (DsFailed, "FAILED")];
  enum_default := DsIdle;
|}.

Definition database_is_building (s : DatabaseRuntimeStatus) : bool :=
  match s with
  | DsQueued | DsBuilding | DsDeploying | DsStarting | DsCancelling => true
  | _ => false
  end.

Inductive GitProviderKind := Github | Gitlab | Gitea | Bitbucket.
#[export] Instance GitProviderKind_eq_dec : EqDecision GitProviderKind.
Proof. solve_decision. Defined.
#[export] Instance GitProviderKind_enum : StringEnum GitProviderKind := {|
  enum_table := [(Github, "GITHUB"); (Gitlab, "GITLAB"); (Gitea, "GITEA");
                 (Bitbucket, "BITBUCKET")];
  enum_default := Github;
|}.

Inductive GitTrigger := TriggerPush | TriggerTag.
#[export] Instance GitTrigger_eq_dec : EqDecision GitTrigger.
Proof. solve_decision. Defined.
#[export] Instance GitTrigger_enum : StringEnum GitTrigger := {|
  enum_table := [(TriggerPush, "PUSH"); (TriggerTag, "TAG")];
  enum_default := TriggerPush;
|}.

(** ** [DatabaseKind], parsed by hand with aliases *)

Inductive DatabaseKind := Postgres | Mysql | Mariadb | Mongo | Redis | Libsql.
#[export] Instance DatabaseKind_eq_dec : EqDecision DatabaseKind.
Proof. solve_decision. Defined.

Definition database_kind_as_str (k : DatabaseKind) : string :=
  match k with
  | Postgres => "postgres" | Mysql => "mysql" | Mariadb => "mariadb"
  | Mongo => "mongo" | Redis => "redis" | Libsql => "libsql"
  end.

Definition database_kind_default_image (k : DatabaseKind) : string :=
  match k with
  | Postgres => "postgres:18" | Mysql => "mysql:9" | Mariadb => "mariadb:13"
  | Mongo => "mongo:8" | Redis => "redis:8"
  | Libsql => "ghcr.io/tursodatabase/libsql-server:v0.24.32"
  end.

Definition database_kind_from_str (value : string) : option DatabaseKind :=
  let v := to_ascii_lowercase value in
  if bool_decide (v = "postgres" ∨ v = "postgresql") then Some Postgres
  else if bool_decide (v = "mysql") then Some Mysql
  else if bool_decide (v = "mariadb") then Some Mariadb
  else if bool_decide (v = "mongo" ∨ v = "mongodb") then Some Mongo
  else if bool_decide (v = "redis") then Some Redis
  else if bool_decide (v = "libsql") then Some Libsql
  else None.

(** ** Laws of the instances *)

Ltac enum_laws :=
  constructor;
  [ intros []; vm_compute; repeat (first [apply list_elem_of_here | apply list_elem_of_further])
  | apply (bool_decide_unpack _); vm_compute; exact I
  | apply (bool_decide_unpack _); vm_compute; exact I
  | apply (bool_decide_unpack _); vm_compute; exact I ].

#[export] Instance UserRole_laws : StringEnumLaws UserRole.
Proof. enum_laws. Qed.
#[export] Instance PolicyEffect_laws : StringEnumLaws PolicyEffect.
Proof. enum_laws. Qed.
#[export] Instance ResourceType_laws : StringEnumLaws ResourceType.
Proof. enum_laws. Qed.
#[export] Instance AlertEventState_laws : StringEnumLaws AlertEventState.
Proof. enum_laws. Qed.
#[export] Instance ComposeStatus_laws : StringEnumLaws ComposeStatus.
Proof. enum_laws. Qed.
#[export] Instance ApplicationStatus_laws : StringEnumLaws ApplicationStatus.
Proof. enum_laws. Qed.
#[export] Instance DatabaseRuntimeStatus_laws : StringEnumLaws DatabaseRuntimeStatus.
Proof. enum_laws. Qed.

#[export] Instance GitProviderKind_laws : StringEnumLaws GitProviderKind.
Proof. enum_laws. Qed.
#[export] Instance GitTrigger_laws : StringEnumLaws GitTrigger.
Proof. enum_laws. Qed.

(** ** Round trips *)

Section laws.
Context `{StringEnumLaws E}.

Lemma as_str_in_table (e : E) : (e, as_str e) ∈ enum_table.
Proof.
  unfold as_str. destruct (list_find _ _) as [[i p]|] eqn:Hf.
  - apply list_find_Some in Hf as (Hi & Hp & _). simpl in *. subst e.
    apply list_elem_of_lookup_2 in Hi. by destruct p.
  - apply list_find_None in Hf. rewrite Forall_forall in Hf.
    pose proof (enum_total e) as Ht. apply list_elem_of_fmap in Ht as (p & -> & Hp).
    by destruct (Hf p Hp).
Qed.

(** A literal of the table identifies its variant, and a variant its literal. *)
Lemma table_functional (e1 e2 : E) s :
  (e1, s) ∈ enum_table → (e2, s) ∈ enum_table → e1 = e2.
Proof.
  rewrite !list_elem_of_lookup. intros (i & Hi) (j & Hj).
  assert (i = j) as ->; [|congruence].
  eapply (NoDup_lookup (enum_table (E := E)).*2); [apply enum_literals_nodup | |];
    rewrite list_lookup_fmap; [by rewrite Hi | by rewrite Hj].
Qed.

Lemma table_injective (e : E) s1 s2 :
  (e, s1) ∈ enum_table → (e, s2) ∈ enum_table → s1 = s2.
Proof.
  rewrite !list_elem_of_lookup. intros (i & Hi) (j & Hj).
  assert (i = j) as ->; [|congruence].
  eapply (NoDup_lookup (enum_table (E := E)).*1); [apply enum_variants_nodup | |];
    rewrite list_lookup_fmap; [by rewrite Hi | by rewrite Hj].
Qed.

(** [from_str] accepts exactly the spellings that normalise to a literal. *)
Lemma from_str_spec (value : string) (e : E) :
  from_str value = Some e ↔ as_str e = to_ascii_uppercase (trim value).
Proof.
  unfold from_str. set (key := to_ascii_uppercase (trim value)).
  destruct (list_find _ _) as [[i [e' s]]|] eqn:Hf.
  - apply list_find_Some in Hf as (Hi & Hp & _). simpl in Hp. subst s.
    apply list_elem_of_lookup_2 in Hi. split.
    + intros [= ->]. eapply table_injective; [apply as_str_in_table | done].
    + intros He. simpl. f_equal. eapply table_functional; [done|].
      rewrite <- He. apply as_str_in_table.
  - split; [done|]. intros He. apply list_find_None in Hf.
    rewrite Forall_forall in Hf. destruct (Hf (e, as_str e)); [apply as_str_in_table | done].
Qed.

Lemma as_str_normal (e : E) : to_ascii_uppercase (trim (as_str e)) = as_str e.
Proof.
  pose proof enum_literals_normal as Hn. rewrite Forall_forall in Hn.
  apply (Hn (e, as_str e)), as_str_in_table.
Qed.

Lemma from_str_as_str (e : E) : from_str (as_str e) = Some e.
Proof. apply from_str_spec. symmetry. apply as_str_normal. Qed.
End laws.

Lemma database_kind_roundtrip k : database_kind_from_str (database_kind_as_str k) = Some k.
Proof. by destruct k. Qed.

(** For every enum the macro defines, parsing the literal of a variant gives it back, a text
    parses to a variant exactly when trimming and upper-casing it gives the literal, and
    conversion falls back to the default exactly on the other texts. *)
Theorem string_enum_roundtrip {E} `{StringEnumLaws E} (e : E) (s : string) (name : string) :
  from_str (as_str e) = Some e
  ∧ (from_str s = Some e ↔ to_ascii_uppercase (trim s) = as_str e)
  ∧ (parse name s = Ok e ↔ from_str s = Some e)
  ∧ (from s = e ↔ from_str s = Some e ∨ (from_str s = None ∧ e = enum_default)).
Proof.
  split; [apply from_str_as_str|]. split; [rewrite from_str_spec; split; congruence|].
  unfold parse, from. destruct (from_str s) as [e'|]; simpl; naive_solver.
Qed.

Lemma string_enum_witness : from_str " admin " = Some Admin.
Proof.
  apply (string_enum_roundtrip Admin " admin " "role"). vm_compute. reflexivity.
Defined.
