(* ===== verification/F64.v ===== *)
(** * Binary64 arithmetic

    [f64] of the source as the kernel's primitive binary64 floats: the operations
    below are the IEEE 754 operations the machine performs, and evaluate.  The file
    proves the one fact about rounding the alert engine depends on. *)

From Stdlib Require Import ZArith Lia Floats Uint63 Bool List.
Import ListNotations.

Definition f64 : Type := float.

Definition f64_sub (a b : f64) : f64 := PrimFloat.sub a b.
Definition f64_mul (a b : f64) : f64 := PrimFloat.mul a b.
Definition f64_div (a b : f64) : f64 := PrimFloat.div a b.
Definition f64_abs (a : f64) : f64 := PrimFloat.abs a.
Definition f64_ltb (a b : f64) : bool := PrimFloat.ltb a b.
Definition f64_leb (a b : f64) : bool := PrimFloat.leb a b.

(** [f64::max]: a NaN argument is ignored. *)
Definition f64_max (a b : f64) : f64 :=
  if PrimFloat.is_nan a then b
  else if PrimFloat.is_nan b then a
  else if f64_ltb a b then b else a.

(** [n as f64] for an unsigned integer below 2^63 *)
Definition f64_of_Z (n : Z) : f64 := PrimFloat.of_uint63 (Uint63.of_Z n).

(** The literals [0.8] and [1e-9], and [f64::EPSILON] = 2^-52, as the mantissa and
    exponent of the nearest double. *)
Definition f64_0_8 : f64 := Z.ldexp (PrimFloat.of_uint63 7205759403792794) (-53).
Definition f64_1e_9 : f64 := Z.ldexp (PrimFloat.of_uint63 4835703278458517) (-82).
Definition f64_epsilon : f64 := Z.ldexp (PrimFloat.of_uint63 1) (-52).

(** [k] consecutive integers from [a] *)
Fixpoint zrange (a : Z) (k : nat) : list Z :=
  match k with O => [] | S k' => a :: zrange (a + 1) k' end.

Lemma zrange_spec (k : nat) (a x : Z) :
  (a <= x < a + Z.of_nat k)%Z -> In x (zrange a k).
Proof.
  revert a. induction k as [|k IH]; intros a H; [lia|]. simpl.
  destruct (Z.eq_dec a x) as [->|]; [now left|]. right. apply IH. lia.
Qed.

(** Every quotient [b / n] with [0 <= b <= n <= 300], compared with [0.8] in
    binary64, agrees with the exact comparison [4 n <= 5 b]. *)
Definition ratio_exact (n b : Z) : bool :=
  Bool.eqb (f64_leb f64_0_8 (f64_div (f64_of_Z b) (f64_of_Z n))) (4 * n <=? 5 * b)%Z.

Lemma ratio_exact_table :
  forallb (fun n => forallb (ratio_exact n) (zrange 0 (Z.to_nat (n + 1)))) (zrange 1 300) = true.
Proof. vm_compute. reflexivity. Qed.

Lemma ratio_exact_upto_300 (n b : Z) :
  (1 <= n <= 300)%Z -> (0 <= b <= n)%Z ->
  f64_leb f64_0_8 (f64_div (f64_of_Z b) (f64_of_Z n)) = (4 * n <=? 5 * b)%Z.
Proof.
  intros Hn Hb. apply eqb_prop. change (ratio_exact n b = true).
  pose proof ratio_exact_table as T. rewrite forallb_forall in T.
  specialize (T n (zrange_spec 300 1 n ltac:(lia))). rewrite forallb_forall in T.
  apply T, zrange_spec. lia.
Qed.
