(* ===== verification/Sql.v ===== *)
(** * SQLite statements

    The repositories of [src/db/repository] are SQL statements over the tables of
    [db/migrations].  A table is its rows in rowid order and its AUTOINCREMENT
    sequence; a schema says which rows satisfy the CHECK constraints and which
    pairs of rows collide in a UNIQUE index.  A statement runs row by row, checks
    every row it writes against the table as it stands, and on a violation fails
    as a whole and leaves the table unchanged (SQLite's default ABORT).  The pool
    is taken to answer: an I/O error of the database is not a statement result
    here. *)

From stdpp Require Import gmap strings list sorting.
From Stdlib Require Import ZArith Lia.
From S2P Require Import Prelude.

(** ** Schemas, tables and errors *)

Inductive SqlError :=
| CheckFailed
| UniqueFailed
| ForeignKeyFailed
| RowNotFound
| ColumnDecode            (* a NULL where the query reads a value *)
| Protocol (msg : string).

#[export] Instance SqlError_eq_dec : EqDecision SqlError.
Proof. solve_decision. Defined.

Class Schema (R : Type) := {
  row_id : R → Z;
  row_check : R → bool;
  row_conflict : R → R → bool;
}.

Class SchemaLaws (R : Type) `{Schema R} := {
  row_conflict_sym : ∀ r1 r2 : R, row_conflict r1 r2 = row_conflict r2 r1;
}.

Record Table (R : Type) := mkTable { rows : list R; seq : Z }.
Arguments mkTable {R}.
Arguments rows {R}.
Arguments seq {R}.

Definition empty_table {R} : Table R := mkTable [] 0.

(** ** Statements *)

Section statements.
Context `{Schema R}.

(** [INSERT ... VALUES ...]; [mk] builds the row from the assigned rowid and [fk]
    is the foreign-key check.  Returns [last_insert_rowid]. *)
Definition sql_insert (fk : R → bool) (mk : Z → R) (t : Table R)
    : result (Table R * Z) SqlError :=
  let id := (seq t + 1)%Z in
  let r := mk id in
  if negb (row_check r) then Err CheckFailed
  else if existsb (row_conflict r) (rows t) then Err UniqueFailed
  else if negb (fk r) then Err ForeignKeyFailed
  else Ok (mkTable (rows t ++ [r]) id, id).

(** [UPDATE ... SET f WHERE p]: the rows of [acc] have been visited. *)
Fixpoint update_rows (fk : R → bool) (p : R → bool) (f : R → R) (acc todo : list R)
    : result (list R * nat) SqlError :=
  match todo with
  | [] => Ok (acc, 0)
  | r :: rest =>
      if p r then
        let r' := f r in
        if negb (row_check r') then Err CheckFailed
        else if existsb (row_conflict r') (acc ++ rest) then Err UniqueFailed
        else if negb (fk r') then Err ForeignKeyFailed
        else
          let? (l, n) := update_rows fk p f (acc ++ [r']) rest in
          Ok (l, S n)
      else update_rows fk p f (acc ++ [r]) rest
  end.

(** Returns [rows_affected]. *)
Definition sql_update (fk : R → bool) (p : R → bool) (f : R → R) (t : Table R)
    : result (Table R * nat) SqlError :=
  let? (l, n) := update_rows fk p f [] (rows t) in
  Ok (mkTable l (seq t), n).

(** [DELETE ... WHERE p] *)
Definition sql_delete (p : R → bool) (t : Table R) : Table R * nat :=
  (mkTable (List.filter (λ r, negb (p r)) (rows t)) (seq t),
   length (List.filter p (rows t))).

(** [SELECT ... WHERE p] without [ORDER BY]: rowid order. *)
Definition sql_select (p : R → bool) (t : Table R) : list R := List.filter p (rows t).
(** [fetch_optional] *)
Definition sql_first (p : R → bool) (t : Table R) : option R := head (sql_select p t).
Definition sql_count (p : R → bool) (t : Table R) : Z := Z.of_nat (length (sql_select p t)).
Definition sql_exists (p : R → bool) (t : Table R) : bool := existsb p (rows t).

(** A statement touching no foreign-key column. *)
Definition no_fk : R → bool := λ _, true.
End statements.

(** [ORDER BY]: a stable sort by a comparison. *)
Definition sql_order_by {R} (le : R → R → bool) (l : list R) : list R :=
  @merge_sort R (λ a b, le a b = true) (λ a b, Bool.bool_dec (le a b) true) l.

(** ** The table invariant *)

Section wf.
Context `{SchemaLaws R}.

Record table_wf (t : Table R) : Prop := {
  wf_ids : NoDup (map row_id (rows t));
  wf_seq : ∀ r, r ∈ rows t → (row_id r ≤ seq t)%Z;
  wf_check : ∀ r, r ∈ rows t → row_check r = true;
  wf_unique : ∀ r1 r2, r1 ∈ rows t → r2 ∈ rows t → row_id r1 ≠ row_id r2 →
              row_conflict r1 r2 = false;
}.

(** The invariant of a concrete table, by evaluation. *)
Definition table_check (t : Table R) : bool :=
  bool_decide (NoDup (map row_id (rows t)))
  && forallb (λ r, row_id r <=? seq t)%Z (rows t)
  && forallb row_check (rows t)
  && forallb (λ r1, forallb (λ r2, (row_id r1 =? row_id r2)%Z || negb (row_conflict r1 r2))
                      (rows t)) (rows t).

Lemma table_check_wf t : table_check t = true → table_wf t.
Proof.
  unfold table_check. rewrite !andb_true_iff, bool_decide_eq_true, !forallb_elem.
  intros (((H1 & H2) & H3) & H4). split; [done| |done|].
  - intros r Hr. by apply Z.leb_le, H2.
  - intros r1 r2 Hr1 Hr2 Hne. specialize (H4 r1 Hr1). rewrite forallb_elem in H4.
    specialize (H4 r2 Hr2). apply orb_true_iff in H4 as [?|?]; bsimp; done.
Qed.

Lemma empty_table_wf : table_wf empty_table.
Proof. split; simpl; [constructor | set_solver..]. Qed.

Lemma wf_lookup_unique t r1 r2 :
  table_wf t → r1 ∈ rows t → r2 ∈ rows t → row_id r1 = row_id r2 → r1 = r2.
Proof.
  intros Hwf. pose proof (wf_ids t Hwf) as Hnd.
  rewrite !list_elem_of_lookup. intros (i & Hi) (j & Hj) E.
  assert (i = j) as ->; [|congruence].
  eapply (NoDup_lookup (map row_id (rows t))); eauto; rewrite list_lookup_fmap;
    [by rewrite Hi | by rewrite Hj, E].
Qed.

Lemma sql_insert_inv fk mk t t' id :
  sql_insert fk mk t = Ok (t', id) →
  id = (seq t + 1)%Z ∧ seq t' = id ∧ rows t' = rows t ++ [mk id]
  ∧ row_check (mk id) = true ∧ existsb (row_conflict (mk id)) (rows t) = false
  ∧ fk (mk id) = true.
Proof.
  unfold sql_insert. destruct (row_check _) eqn:?; simpl; [|done].
  destruct (existsb _ _) eqn:?; simpl; [done|]. destruct (fk _) eqn:?; simpl; [|done].
  intros [= <- <-]. by simpl.
Qed.

Lemma sql_insert_wf fk mk t t' id :
  table_wf t → (∀ i, row_id (mk i) = i) → sql_insert fk mk t = Ok (t', id) → table_wf t'.
Proof.
  intros [H1 H2 H3 H4] Hmk (-> & Hs & Hr & Hc & Hu & _)%sql_insert_inv.
  rewrite existsb_false in Hu. split; rewrite ?Hr, ?Hs.
  - rewrite map_app. apply NoDup_app. split_and!; [done| |apply NoDup_singleton].
    intros i (r & -> & Hin)%elem_of_mapb. simpl. rewrite Hmk, list_elem_of_singleton.
    specialize (H2 r Hin). lia.
  - intros r [Hin|Hin]%elem_of_app; [specialize (H2 r Hin); lia|].
    apply list_elem_of_singleton in Hin. subst r. rewrite Hmk. lia.
  - intros r [Hin|Hin]%elem_of_app; [auto|].
    apply list_elem_of_singleton in Hin. by subst r.
  - intros r1 r2 [Ha|Ha]%elem_of_app [Hb|Hb]%elem_of_app Hne; auto;
      apply list_elem_of_singleton in Ha || apply list_elem_of_singleton in Hb; subst; auto.
    + rewrite row_conflict_sym. auto.
    + apply list_elem_of_singleton in Hb. by subst.
Qed.

Definition updated (p : R → bool) (f : R → R) (r : R) : R := if p r then f r else r.

(** A successful update is the map of its assignment, and wrote only rows that
    pass the checks. *)
Lemma update_rows_inv fk p f todo : ∀ acc l n,
  update_rows fk p f acc todo = Ok (l, n) →
  l = acc ++ map (updated p f) todo ∧ n = length (List.filter p todo)
  ∧ ∀ r, r ∈ todo → p r = true → row_check (f r) = true ∧ fk (f r) = true.
Proof.
  unfold updated. induction todo as [|r todo IH]; intros acc l n; simpl.
  { intros [= <- <-]. rewrite app_nil_r. split_and!; auto. set_solver. }
  destruct (p r) eqn:Hp.
  - destruct (row_check (f r)) eqn:Hc; simpl; [|done].
    destruct (existsb _ _); simpl; [done|]. destruct (fk (f r)) eqn:Hf; simpl; [|done].
    destruct (update_rows _ _ _ _ _) as [[l' n']|] eqn:E; simpl; [|done].
    intros [= <- <-]. apply IH in E as (-> & -> & Hall).
    rewrite <- app_assoc. split_and!; auto. intros x [->|Hx]%elem_of_cons; auto.
  - intros (-> & -> & Hall)%IH. rewrite <- app_assoc. split_and!; auto.
    intros x [->|Hx]%elem_of_cons Hpx; [congruence | auto].
Qed.

Lemma sql_update_inv fk p f t t' n :
  sql_update fk p f t = Ok (t', n) →
  rows t' = map (updated p f) (rows t) ∧ seq t' = seq t
  ∧ n = length (sql_select p t)
  ∧ ∀ r, r ∈ rows t → p r = true → row_check (f r) = true ∧ fk (f r) = true.
Proof.
  unfold sql_update. destruct (update_rows _ _ _ _ _) as [[l m]|] eqn:E; simpl; [|done].
  intros [= <- <-]. apply update_rows_inv in E as (-> & -> & ?). by simpl.
Qed.

(** Pairs of distinct rows that do not collide. *)
Definition pairwise_ok (l : list R) : Prop :=
  ∀ r1 r2, r1 ∈ l → r2 ∈ l → row_id r1 ≠ row_id r2 → row_conflict r1 r2 = false.

Lemma update_rows_pairwise fk p f todo : ∀ acc l n,
  (∀ r, row_id (f r) = row_id r) →
  pairwise_ok (acc ++ todo) →
  update_rows fk p f acc todo = Ok (l, n) → pairwise_ok l.
Proof.
  induction todo as [|r todo IH]; intros acc l n Hf Hok; simpl.
  { intros [= <- <-]. by rewrite app_nil_r in Hok. }
  destruct (p r).
  - destruct (row_check (f r)); simpl; [|done].
    destruct (existsb _ _) eqn:Hu; simpl; [done|]. destruct (fk (f r)); simpl; [|done].
    destruct (update_rows _ _ _ _ _) as [[l' n']|] eqn:E; simpl; [|done].
    intros [= <- <-]. eapply IH; [done| |exact E]. rewrite existsb_false in Hu.
    assert (∀ x, x ∈ (acc ++ [f r]) ++ todo → x = f r ∨ x ∈ acc ++ todo) as Hcase
      by set_solver.
    intros r1 r2 [->|H1]%Hcase [->|H2]%Hcase Hne.
    + done.
    + by apply Hu.
    + rewrite row_conflict_sym. by apply Hu.
    + apply Hok; set_solver.
  - intros E. eapply IH; [done| |exact E]. by rewrite <- app_assoc.
Qed.

Lemma sql_update_wf fk p f t t' n :
  table_wf t → (∀ r, row_id (f r) = row_id r) →
  sql_update fk p f t = Ok (t', n) → table_wf t'.
Proof.
  intros Hwf Hf Hu. pose proof Hu as (Hr & Hs & _ & Hall)%sql_update_inv.
  assert (∀ r, row_id (updated p f r) = row_id r) as Hid
    by (intros r; unfold updated; destruct (p r); auto).
  split; rewrite ?Hr, ?Hs.
  - rewrite map_map. erewrite map_ext; [apply wf_ids, Hwf|]. exact Hid.
  - intros x (r & -> & Hin)%elem_of_mapb. rewrite Hid. by apply wf_seq.
  - intros x (r & -> & Hin)%elem_of_mapb. unfold updated.
    destruct (p r) eqn:Hp; [by apply Hall | by eapply wf_check].
  - unfold sql_update in Hu. destruct (update_rows _ _ _ _ _) as [[l m]|] eqn:E; [|done].
    simpl in Hu. injection Hu as <- <-. simpl in Hr. rewrite <- Hr.
    eapply update_rows_pairwise; [exact Hf| |exact E]. exact (wf_unique t Hwf).
Qed.

Lemma sql_delete_wf p t : table_wf t → table_wf (sql_delete p t).1.
Proof.
  intros [H1 H2 H3 H4]. split; simpl.
  - eapply sublist_NoDup; [exact H1|]. apply fmap_sublist, filterb_sublist.
  - intros r [Hr _]%elem_of_filterb. auto.
  - intros r [Hr _]%elem_of_filterb. auto.
  - intros r1 r2 [? _]%elem_of_filterb [? _]%elem_of_filterb. auto.
Qed.

(** An assignment that writes rows passing the checks and does not enlarge what a
    row collides with always succeeds. *)
Lemma update_rows_success fk p f todo : ∀ acc,
  NoDup (map row_id (acc ++ todo)) →
  pairwise_ok (acc ++ todo) →
  (∀ r, row_id (f r) = row_id r) →
  (∀ r, r ∈ todo → p r = true → row_check (f r) = true ∧ fk (f r) = true) →
  (∀ r x, r ∈ todo → p r = true → row_conflict (f r) x = true → row_conflict r x = true) →
  update_rows fk p f acc todo
  = Ok (acc ++ map (updated p f) todo, length (List.filter p todo)).
Proof.
  unfold updated. induction todo as [|r todo IH]; intros acc Hnd Hok Hf Hc Hg; simpl.
  { by rewrite app_nil_r. }
  assert (r ∈ r :: todo) as Hr by set_solver.
  assert (∀ x, x ∈ acc ++ todo → row_id r ≠ row_id x) as Hdis.
  { intros x Hx E. rewrite map_app in Hnd. simpl in Hnd.
    rewrite NoDup_app, NoDup_cons in Hnd. destruct Hnd as (Ha & Hb & Hd & _).
    apply elem_of_app in Hx as [Hx|Hx].
    - apply (Hb (row_id x)); [apply elem_of_mapb; eauto | rewrite E; set_solver].
    - apply Hd. rewrite E. apply elem_of_mapb. eauto. }
  destruct (p r) eqn:Hp.
  - destruct (Hc r Hr Hp) as [-> ->]. simpl.
    assert (∀ x, x ∈ acc ++ todo → row_conflict (f r) x = false) as Hnc.
    { intros x Hx. destruct (row_conflict (f r) x) eqn:E; [|done].
      apply Hg in E; [|done|done]. rewrite Hok in E; [done| | |by apply Hdis]; set_solver. }
    rewrite (proj2 (existsb_false _ _) Hnc). rewrite IH; simpl.
    + by rewrite <- app_assoc.
    + revert Hnd. rewrite !map_app. simpl. rewrite Hf, <- app_assoc. done.
    + assert (∀ x, x ∈ (acc ++ [f r]) ++ todo → x = f r ∨ x ∈ acc ++ todo) as Hcase
        by set_solver.
      intros r1 r2 [->|H1]%Hcase [->|H2]%Hcase Hne; [done|by apply Hnc| |].
      * rewrite row_conflict_sym. by apply Hnc.
      * apply Hok; set_solver.
    + done.
    + intros x Hx. apply Hc. set_solver.
    + intros x y Hx. apply Hg. set_solver.
  - rewrite IH; [by rewrite <- app_assoc| | |done| |].
    + by rewrite <- app_assoc.
    + by rewrite <- app_assoc.
    + intros x Hx. apply Hc. set_solver.
    + intros x y Hx. apply Hg. set_solver.
Qed.

Lemma sql_update_success fk p f t :
  table_wf t → (∀ r, row_id (f r) = row_id r) →
  (∀ r, r ∈ rows t → p r = true → row_check (f r) = true ∧ fk (f r) = true) →
  (∀ r x, r ∈ rows t → p r = true → row_conflict (f r) x = true → row_conflict r x = true) →
  sql_update fk p f t
  = Ok (mkTable (map (updated p f) (rows t)) (seq t), length (sql_select p t)).
Proof.
  intros Hwf Hf Hc Hg. unfold sql_update.
  rewrite (update_rows_success fk p f (rows t) []); auto; simpl;
    [apply wf_ids, Hwf | exact (wf_unique t Hwf)].
Qed.

(** An assignment whose every written row fails a CHECK fails on its first match. *)
Lemma update_rows_check_error fk p f todo : ∀ acc,
  (∀ r, r ∈ todo → p r = true → row_check (f r) = false) →
  existsb p todo = true → update_rows fk p f acc todo = Err CheckFailed.
Proof.
  induction todo as [|r todo IH]; intros acc Hc Hex; simpl in *; [done|].
  destruct (p r) eqn:Hp; simpl in *.
  - rewrite Hc by set_solver. done.
  - apply IH; [|done]. intros x Hx. apply Hc. set_solver.
Qed.

Lemma sql_update_check_error fk p f t :
  (∀ r, r ∈ rows t → p r = true → row_check (f r) = false) →
  sql_exists p t = true → sql_update fk p f t = Err CheckFailed.
Proof. intros Hc Hex. unfold sql_update. by rewrite update_rows_check_error. Qed.

(** An update that matches nothing changes nothing. *)
Lemma update_rows_none fk p f todo : ∀ acc,
  existsb p todo = false → update_rows fk p f acc todo = Ok (acc ++ todo, 0).
Proof.
  induction todo as [|r todo IH]; intros acc Hex; simpl in *; [by rewrite app_nil_r|].
  apply orb_false_iff in Hex as [-> Hex]. rewrite IH by done. by rewrite <- app_assoc.
Qed.

Lemma sql_update_none fk p f t :
  sql_exists p t = false → sql_update fk p f t = Ok (t, 0).
Proof. intros Hex. unfold sql_update. rewrite update_rows_none by done. by destruct t. Qed.

Lemma sql_first_Some (p : R → bool) (t : Table R) (r : R) :
  sql_first p t = Some r → r ∈ rows t ∧ p r = true.
Proof. intros Hh%head_Some_elem_of. by apply elem_of_filterb. Qed.

Lemma sql_first_None (p : R → bool) (t : Table R) : sql_first p t = None ↔ sql_exists p t = false.
Proof.
  unfold sql_first, sql_exists, sql_select. rewrite head_None. split.
  - intros Hn. apply existsb_false. intros x Hx. destruct (p x) eqn:E; [|done].
    assert (x ∈ List.filter p (rows t)) as Hin by (by apply elem_of_filterb).
    rewrite Hn in Hin. set_solver.
  - intros Hf. apply filterb_all_false. by apply existsb_false.
Qed.

(** A query whose condition an assignment does not change finds the assigned row. *)
Lemma sql_first_map (p : R → bool) (f : R → R) (t t' : Table R) :
  (∀ r, p (f r) = p r) → rows t' = map f (rows t) → sql_first p t' = f <$> sql_first p t.
Proof.
  intros Hp Hr. unfold sql_first, sql_select. rewrite Hr. clear Hr.
  induction (rows t) as [|r l IH]; simpl; [done|]. rewrite Hp. destruct (p r); [done | exact IH].
Qed.

(** Looking a row up by its id finds that row. *)
Lemma sql_first_id (t : Table R) (r : R) :
  table_wf t → r ∈ rows t → sql_first (λ x, row_id x =? row_id r)%Z t = Some r.
Proof.
  intros Hwf Hr. destruct (sql_first _ t) as [x|] eqn:E.
  - apply sql_first_Some in E as [Hx E]. bsimp. f_equal. by eapply wf_lookup_unique.
  - apply sql_first_None, existsb_false with (x := r) in E; [|done].
    by rewrite Z.eqb_refl in E.
Qed.
End wf.

#[export] Hint Resolve empty_table_wf sql_insert_wf sql_update_wf sql_delete_wf : oxide.

(** ** Ordering *)

Lemma sql_order_by_perm {R} le (l : list R) : sql_order_by le l ≡ₚ l.
Proof. apply merge_sort_Permutation. Qed.

Lemma sql_order_by_sorted {R} (le : R → R → bool) (l : list R) :
  (∀ a b, le a b = true ∨ le b a = true) →
  Sorted (λ a b, le a b = true) (sql_order_by le l).
Proof. intros Ht. apply Sorted_merge_sort. intros a b. apply Ht. Qed.

Lemma sql_order_by_elem {R} le (l : list R) x : x ∈ sql_order_by le l ↔ x ∈ l.
Proof. by rewrite (sql_order_by_perm le l). Qed.
