(* ===== verification/Webhook.v ===== *)
(** * Webhook requests

    [src/services/webhook]: the authentication of a request ([auth.rs]), the payloads of the
    four providers and the events they become ([github_like.rs], [gitlab.rs], [bitbucket.rs],
    [tag.rs], [pull_request.rs], [shared.rs], [mod.rs]), and the checks of the public endpoint
    ([src/api/handlers/webhook.rs]).  HMAC-SHA256 and the JSON reader are parameters: the first
    is a function from key and message to bytes, the second decodes a body into the payload
    structs below. *)

From stdpp Require Import gmap strings list sorting.
From Stdlib Require Import ZArith Lia Ascii.
From S2P Require Import Prelude RustStr RustText StringEnum Sql.

Abbreviation bytes := (list Z).

Definition as_bytes (s : string) : bytes := map (λ c, Z.of_N (N_of_ascii c)) (chars s).

(** ** Events ([types.rs]) *)

Record PushEvent := mkPush {
  pe_provider : GitProviderKind;
  pe_trigger : GitTrigger;
  pe_owner : string;
  pe_repository : string;
  pe_branch : string;
  pe_before : option string;
  pe_after : option string;
  pe_changed_paths : list string;
}.

Record PullRequestEvent := mkPullRequest {
  pr_provider : GitProviderKind;
  pr_owner : string;
  pr_repository : string;
  pr_number : string;
  pr_action : string;
  pr_source_branch : string;
  pr_source_owner : option string;
  pr_source_repository : option string;
  pr_target_branch : string;
  pr_commit : option string;
  pr_author : option string;
}.

Inductive WebhookEvent :=
| Ping
| GitRef (e : PushEvent)
| PullRequest (e : PullRequestEvent).

(** ** Authentication ([auth.rs]) *)

(** [chunks_exact(2)], each pair read as two hexadecimal digits *)
Fixpoint decode_pairs (l : list ascii) : option bytes :=
  match l with
  | a :: b :: rest =>
      match to_digit16 a, to_digit16 b, decode_pairs rest with
      | Some high, Some low, Some bs => Some (Z.lor (Z.shiftl high 4) low mod 256 :: bs)%Z
      | _, _, _ => None
      end
  | _ => Some []
  end.

Definition decode_hex (value : string) : option bytes :=
  if negb (Nat.even (String.length value)) then None else decode_pairs (chars value).

Section auth.
Context (hmac : bytes → bytes → bytes).     (* HMAC-SHA256 of a key and a message *)

Definition signature_text (signature : string) : string :=
  default signature (strip_prefix "sha256=" signature).

Definition verify_hmac_sha256 (secret body : bytes) (signature : string) : bool :=
  match decode_hex (signature_text signature) with
  | None => false
  | Some expected => bool_decide (expected = hmac secret body)
  end.

Definition sign_hmac_sha256 (secret body : bytes) : string := hex (hmac secret body).

Definition verify_token (expected : string) (received : option string) : bool :=
  match received with
  | None => false
  | Some received =>
      bool_decide (hmac (as_bytes expected) (as_bytes "openoxide-token-verification")
                   = hmac (as_bytes received) (as_bytes "openoxide-token-verification"))
  end.

(** *** The checks of the endpoint *)

Inductive StatusCode := BadRequest | Unauthorized | NotFoundStatus | Unprocessable | InternalError.
Definition ApiError : Type := StatusCode * string.

Inductive WebhookCredential := Hmac (secret : string) | Token (secret : string).

(** [HeaderMap::get] finds the first value of a name in any case (the names of the code are
    lower case); [to_str] accepts visible ASCII and tabs *)
Definition Headers : Type := list (string * string).
Definition visible_ascii (c : ascii) : bool :=
  let n := N_of_ascii c in ((32 <=? n) && (n <? 127) || (n =? 9))%N.
Definition header (headers : Headers) (name : string) : option string :=
  match list_find (λ h, to_ascii_lowercase h.1 = name) headers with
  | Some (_, (_, value)) => if forallb visible_ascii (chars value) then Some value else None
  | None => None
  end.

Definition parse_provider (value : string) : result GitProviderKind ApiError :=
  match parse "GitProviderType" value with
  | Ok p => Ok p
  | Err e => Err (NotFoundStatus, e)
  end.

Definition event_header_name (provider : GitProviderKind) : string :=
  match provider with
  | Github => "x-github-event" | Gitlab => "x-gitlab-event"
  | Gitea => "x-gitea-event" | Bitbucket => "x-event-key"
  end.

Definition supported_event (provider : GitProviderKind) (normalized : string) : bool :=
  match provider with
  | Github | Gitea => bool_decide (normalized ∈ ["push"; "create"; "pull_request"; "ping"])
  | Gitlab => bool_decide (normalized ∈ ["push hook"; "tag push hook"; "merge request hook"])
  | Bitbucket =>
      bool_decide (normalized ∈ ["repo:push"; "repo:refs_changed"; "diagnostics:repo:ping"])
      || starts_with "pullrequest:" normalized
  end.

Definition event_header (provider : GitProviderKind) (headers : Headers)
    : result string ApiError :=
  let name := event_header_name provider in
  let? value := ok_or (header headers name)
                  (BadRequest, "missing webhook event header: " +:+ name) in
  if supported_event provider (to_ascii_lowercase value) then Ok value
  else Err (Unprocessable, "unsupported webhook event: " +:+ value).

Definition header_signature (headers : Headers) (name secret : string) (body : bytes) : bool :=
  match header headers name with
  | Some signature => verify_hmac_sha256 (as_bytes secret) body signature
  | None => false
  end.

Definition request_is_valid (provider : GitProviderKind) (credential : WebhookCredential)
    (headers : Headers) (body : bytes) : bool :=
  match provider, credential with
  | Github, Hmac secret => header_signature headers "x-hub-signature-256" secret body
  | Gitea, Hmac secret => header_signature headers "x-gitea-signature" secret body
  | Gitlab, Token secret => verify_token secret (header headers "x-gitlab-token")
  | Bitbucket, Hmac secret => header_signature headers "x-hub-signature" secret body
  | _, _ => false
  end.

Definition verify_request (provider : GitProviderKind) (credential : WebhookCredential)
    (headers : Headers) (body : bytes) : result unit ApiError :=
  if request_is_valid provider credential headers body then Ok tt
  else Err (Unauthorized, "invalid webhook signature or token").
End auth.

(** [WebhookCredentialStore::load] of the secret the repository found *)
Definition credential_of (provider : GitProviderKind) (secret : option string)
    : result WebhookCredential string :=
  match secret with
  | Some s => if str_is_empty s then Err "webhook provider secret is not configured"
              else Ok (match provider with Gitlab => Token s | _ => Hmac s end)
  | None => Err "webhook provider secret is not configured"
  end.

(** ** Payloads *)

(** The owner objects of the providers; a field the provider's struct lacks is [None]. *)
Record Owner := mkOwner {
  o_login : option string; o_username : option string; o_name : option string;
  o_nickname : option string; o_display_name : option string;
}.
Record Repository := mkRepository { r_name : string; r_owner : Owner }.
Record ChangedCommit := mkCommit {
  cc_added : list string; cc_modified : list string; cc_removed : list string;
}.

Record GithubPush := mkGithubPush {
  gh_ref : string; gh_before : option string; gh_after : option string;
  gh_repository : Repository; gh_commits : list ChangedCommit;
}.
Record GitlabProject := mkGitlabProject { gp_path : string; gp_path_with_namespace : string }.
Record GitlabPush := mkGitlabPush {
  gl_ref : string; gl_before : option string; gl_after : option string;
  gl_project : GitlabProject; gl_commits : list ChangedCommit;
}.
Record Reference := mkReference {
  rf_name : string; rf_kind : option string; rf_target : option string;
}.
Record Change := mkChange { ch_new : option Reference; ch_old : option Reference }.
Record BitbucketPush := mkBitbucketPush {
  bb_repository : Repository; bb_changes : list Change;
}.
Record CreatePayload := mkCreate {
  ct_ref_type : string; ct_ref : string; ct_repository : Repository; ct_after : option string;
}.

Record GithubRef := mkGithubRef {
  gr_branch : string; gr_sha : option string; gr_repo : option Repository;
}.
Record GithubPull := mkGithubPull {
  ghp_action : option string; ghp_number : Z; ghp_repository : Repository;
  ghp_head : GithubRef; ghp_base : GithubRef; ghp_user : Owner;
}.
Record GitlabPull := mkGitlabPull {
  glp_project : GitlabProject; glp_source : option GitlabProject;
  glp_user : option (option string);            (* [user.username] *)
  glp_iid : Z; glp_action : option string; glp_state : option string;
  glp_source_branch : string; glp_target_branch : string;
  glp_last_commit : option string;              (* [last_commit.id] *)
}.
Record BitbucketRepo := mkBitbucketRepo { br_name : string; br_full_name : option string }.
Record BitbucketSide := mkBitbucketSide {
  bs_branch : string; bs_commit : option string; bs_repository : option BitbucketRepo;
}.
Record BitbucketPull := mkBitbucketPull {
  bbp_repository : Repository; bbp_id : Z;
  bbp_source : BitbucketSide; bbp_destination : BitbucketSide; bbp_author : Owner;
}.

(** [serde_json::from_slice] into each struct, with the text of its error *)
Record Decoders := mkDecoders {
  de_github_push : bytes → result GithubPush string;
  de_gitlab_push : bytes → result GitlabPush string;
  de_bitbucket_push : bytes → result BitbucketPush string;
  de_create : bytes → result CreatePayload string;
  de_github_pull : bytes → result GithubPull string;
  de_gitlab_pull : bytes → result GitlabPull string;
  de_bitbucket_pull : bytes → result BitbucketPull string;
}.

(** [map_err(|error| format!("{prefix}{error}"))] *)
Definition map_err {A} (prefix : string) (r : result A string) : result A string :=
  match r with Ok a => Ok a | Err e => Err (prefix +:+ e) end.

(** ** Shared helpers ([shared.rs]) *)

Definition branch_from_ref (value : string) : result string string :=
  let stripped := match strip_prefix "refs/heads/" value with
                  | Some b => Some b
                  | None => strip_prefix "refs/tags/" value
                  end in
  match stripped with
  | Some branch => if str_is_empty branch then Err ("unsupported Git ref: " +:+ value)
                   else Ok branch
  | None => Err ("unsupported Git ref: " +:+ value)
  end.

(** Through a [BTreeSet]: in order and without duplicates *)
Definition collect_paths (commits : list ChangedCommit) : list string :=
  sql_order_by str_le
    (remove_dups (flat_map (λ c, cc_added c ++ cc_modified c ++ cc_removed c) commits)).

Definition or_else {A} (a b : option A) : option A := match a with Some _ => a | None => b end.

Definition trigger_of_ref (git_ref : string) : GitTrigger :=
  if starts_with "refs/tags/" git_ref then TriggerTag else TriggerPush.

(** ** Parsers *)

Definition github_like_parse (provider : GitProviderKind) (r : result GithubPush string)
    : result PushEvent string :=
  let? p := map_err "invalid GitHub/Gitea push payload: " r in
  let o := r_owner (gh_repository p) in
  let owner := match or_else (or_else (o_login o) (o_username o)) (o_name o) with
               | Some v => if str_is_empty (trim v) then None else Some v
               | None => None
               end in
  let? owner := ok_or owner "push payload has no repository owner" in
  let? branch := branch_from_ref (gh_ref p) in
  Ok (mkPush provider (trigger_of_ref (gh_ref p)) owner (r_name (gh_repository p)) branch
        (gh_before p) (gh_after p) (collect_paths (gh_commits p))).

(** [rsplit_once('/')], the part before the last slash *)
Definition namespace (name : string) : option string := fst <$> rsplit_once "/" name.

Definition gitlab_parse (r : result GitlabPush string) : result PushEvent string :=
  let? p := map_err "invalid GitLab push payload: " r in
  let? owner := ok_or (namespace (gp_path_with_namespace (gl_project p)))
                  "GitLab payload has no project namespace" in
  let? branch := branch_from_ref (gl_ref p) in
  Ok (mkPush Gitlab (trigger_of_ref (gl_ref p)) owner (gp_path (gl_project p)) branch
        (gl_before p) (gl_after p) (collect_paths (gl_commits p))).

Definition bitbucket_parse (r : result BitbucketPush string) : result PushEvent string :=
  let? p := map_err "invalid Bitbucket push payload: " r in
  let? change := ok_or (head (bb_changes p)) "Bitbucket push contains no changes" in
  let reference := or_else (ch_new change) (ch_old change) in
  let? branch := ok_or (rf_name <$> reference) "Bitbucket push contains no branch" in
  let o := r_owner (bb_repository p) in
  let? owner := ok_or (or_else (or_else (o_username o) (o_nickname o)) (o_display_name o))
                  "Bitbucket payload has no repository owner" in
  let trigger := match reference ≫= rf_kind with
                 | Some kind => if bool_decide (kind = "tag") then TriggerTag else TriggerPush
                 | None => TriggerPush
                 end in
  Ok (mkPush Bitbucket trigger owner (r_name (bb_repository p)) branch
        (ch_old change ≫= rf_target) (ch_new change ≫= rf_target) []).

Definition parse_create (provider : GitProviderKind) (r : result CreatePayload string)
    : result PushEvent string :=
  let? p := map_err "invalid tag payload: " r in
  if negb (bool_decide (ct_ref_type p = "tag")) then Err "create event is not a tag" else
  let o := r_owner (ct_repository p) in
  let? owner := ok_or (or_else (or_else (o_login o) (o_username o)) (o_name o))
                  "tag payload has no repository owner" in
  Ok (mkPush provider TriggerTag owner (r_name (ct_repository p)) (ct_ref p) None (ct_after p) []).

Definition owner_name (o : Owner) : option string :=
  or_else (or_else (o_login o) (o_username o)) (o_nickname o).

Definition github_pull (provider : GitProviderKind) (r : result GithubPull string)
    : result PullRequestEvent string :=
  let? p := map_err "invalid pull request payload: " r in
  let? owner := ok_or (owner_name (r_owner (ghp_repository p))) "repository owner is missing" in
  Ok (mkPullRequest provider owner (r_name (ghp_repository p)) (i64_to_string (ghp_number p))
        (default "updated" (ghp_action p)) (gr_branch (ghp_head p))
        (gr_repo (ghp_head p) ≫= λ repo, owner_name (r_owner repo))
        (r_name <$> gr_repo (ghp_head p)) (gr_branch (ghp_base p)) (gr_sha (ghp_head p))
        (owner_name (ghp_user p))).

Definition gitlab_pull (r : result GitlabPull string) : result PullRequestEvent string :=
  let? p := map_err "invalid pull request payload: " r in
  let? owner := ok_or (namespace (gp_path_with_namespace (glp_project p)))
                  "project namespace is missing" in
  Ok (mkPullRequest Gitlab owner (gp_path (glp_project p)) (i64_to_string (glp_iid p))
        (default "update" (or_else (glp_action p) (glp_state p))) (glp_source_branch p)
        (glp_source p ≫= λ source, namespace (gp_path_with_namespace source))
        (gp_path <$> glp_source p) (glp_target_branch p) (glp_last_commit p)
        (glp_user p ≫= λ username, username)).

Definition bitbucket_pull (event_name : string) (r : result BitbucketPull string)
    : result PullRequestEvent string :=
  let? p := map_err "invalid pull request payload: " r in
  let? owner := ok_or (owner_name (r_owner (bbp_repository p))) "repository owner is missing" in
  let source := bbp_source p in
  Ok (mkPullRequest Bitbucket owner (r_name (bbp_repository p)) (i64_to_string (bbp_id p))
        (default "updated" (strip_prefix "pullrequest:" event_name)) (bs_branch source)
        (bs_repository source ≫= λ repo, br_full_name repo ≫= namespace)
        (br_name <$> bs_repository source) (bs_branch (bbp_destination p)) (bs_commit source)
        (owner_name (bbp_author p))).

Section parsers.
Context (de : Decoders).

Definition parse_push (provider : GitProviderKind) (body : bytes) : result PushEvent string :=
  match provider with
  | Github | Gitea => github_like_parse provider (de_github_push de body)
  | Gitlab => gitlab_parse (de_gitlab_push de body)
  | Bitbucket => bitbucket_parse (de_bitbucket_push de body)
  end.

Definition parse_pull (provider : GitProviderKind) (event_name : string) (body : bytes)
    : result PullRequestEvent string :=
  match provider with
  | Github | Gitea => github_pull provider (de_github_pull de body)
  | Gitlab => gitlab_pull (de_gitlab_pull de body)
  | Bitbucket => bitbucket_pull event_name (de_bitbucket_pull de body)
  end.

Definition is_pull_request (provider : GitProviderKind) (event_name : string) : bool :=
  match provider with
  | Github | Gitea => bool_decide (event_name = "pull_request")
  | Gitlab => bool_decide (event_name = "merge request hook")
  | Bitbucket => starts_with "pullrequest:" event_name
  end.

Definition parse_event (provider : GitProviderKind) (event_name : string) (body : bytes)
    : result WebhookEvent string :=
  let event_name := to_ascii_lowercase event_name in
  if bool_decide (event_name ∈ ["ping"; "diagnostics:repo:ping"]) then Ok Ping else
  if is_pull_request provider event_name then
    let? e := parse_pull provider event_name body in Ok (PullRequest e) else
  if bool_decide (provider ∈ [Github; Gitea]) && bool_decide (event_name = "create") then
    let? e := parse_create provider (de_create de body) in Ok (GitRef e) else
  let? e := parse_push provider body in Ok (GitRef e).
End parsers.

(** ** Hexadecimal signatures *)

Lemma nibbles h l : (0 ≤ h < 16)%Z → (0 ≤ l < 16)%Z →
  (Z.lor (Z.shiftl h 4) l mod 256 = 16 * h + l)%Z.
Proof.
  intros Hh Hl. apply Z.eqb_eq.
  assert (forallb (λ h, forallb (λ l, Z.lor (Z.shiftl h 4) l mod 256 =? 16 * h + l)%Z (seqZ 0 16))
            (seqZ 0 16) = true) as H by (vm_compute; reflexivity).
  rewrite forallb_elem in H. specialize (H h). rewrite elem_of_seqZ, forallb_elem in H.
  apply H; [lia|]. apply elem_of_seqZ. lia.
Qed.

(** A digit read from a text is written back as its lower-case form. *)
Lemma to_digit16_inv c d : to_digit16 c = Some d → ascii_lower c = hex_digit d.
Proof.
  intros H. assert (forallb (λ n, let c := ascii_of_N (Z.to_N n) in
      match to_digit16 c with Some d => is_char (ascii_lower c) (hex_digit d) | None => true end)
      (seqZ 0 256) = true) as Hall by (vm_compute; reflexivity).
  rewrite forallb_elem in Hall. specialize (Hall (Z.of_N (N_of_ascii c))).
  cbv zeta in Hall. rewrite N2Z.id, ascii_N_embedding, H, is_char_spec in Hall. apply Hall.
  apply elem_of_seqZ. pose proof (N_ascii_bounded c). lia.
Qed.

Lemma decode_hex_hex bs : Forall (λ b, is_byte b = true) bs → decode_hex (hex bs) = Some bs.
Proof.
  intros Hb. unfold decode_hex. rewrite hex_length, Nat.even_even. simpl.
  induction Hb as [|b bs Hb _ IH]; [done|]. apply is_byte_spec in Hb.
  cbn [hex]. rewrite chars_app. cbn [hex_byte chars Stdlib.Strings.String.list_ascii_of_string app].
  cbn [decode_pairs]. pose proof (Z.mod_pos_bound b 16). pose proof (Z.div_mod b 16).
  rewrite !to_digit16_hex by (split; [|]; try lia; apply Z.div_pos || apply Z.div_lt_upper_bound; lia).
  rewrite IH, nibbles by (split; [|]; try lia; apply Z.div_pos || apply Z.div_lt_upper_bound; lia).
  do 2 f_equal. lia.
Qed.

Lemma decode_pairs_inv n : ∀ l bs, length l < n → Nat.even (length l) = true →
  decode_pairs l = Some bs → map ascii_lower l = chars (hex bs) ∧ Forall (λ b, is_byte b = true) bs.
Proof.
  induction n as [|n IH]; [lia|]. intros l bs Hn He H.
  destruct l as [|a [|b l]]; simpl in *; [by injection H as <-|done|].
  destruct (to_digit16 a) as [h|] eqn:Ea; [|done]. destruct (to_digit16 b) as [d|] eqn:Eb; [|done].
  destruct (decode_pairs l) as [bs'|] eqn:El; [|done]. injection H as <-.
  destruct (IH l bs') as [-> Hbs]; [lia|done|done|].
  pose proof (to_digit16_range _ _ Ea). pose proof (to_digit16_range _ _ Eb).
  rewrite nibbles by lia. split.
  - cbn [hex]. rewrite chars_app. cbn [hex_byte chars Stdlib.Strings.String.list_ascii_of_string app].
    rewrite (to_digit16_inv _ _ Ea), (to_digit16_inv _ _ Eb).
    rewrite <- (Z.div_unique (16 * h + d) 16 h d), <- (Z.mod_unique (16 * h + d) 16 h d) by lia.
    done.
  - constructor; [|done]. apply is_byte_spec. lia.
Qed.

Lemma to_digit16_lower c : to_digit16 (ascii_lower c) = to_digit16 c.
Proof.
  assert (forallb (λ n, let c := ascii_of_N (Z.to_N n) in
      bool_decide (to_digit16 (ascii_lower c) = to_digit16 c)) (seqZ 0 256) = true) as Hall
    by (vm_compute; reflexivity).
  rewrite forallb_elem in Hall. specialize (Hall (Z.of_N (N_of_ascii c))).
  cbv zeta in Hall. rewrite N2Z.id, ascii_N_embedding, bool_decide_eq_true in Hall. apply Hall.
  apply elem_of_seqZ. pose proof (N_ascii_bounded c). lia.
Qed.

Lemma decode_pairs_lower n : ∀ l, length l < n → decode_pairs (map ascii_lower l) = decode_pairs l.
Proof.
  induction n as [|n IH]; [lia|]. intros [|a [|b l]] Hn; [done..|]. simpl in *.
  by rewrite !to_digit16_lower, IH by lia.
Qed.

Lemma decode_hex_lower s : decode_hex (to_ascii_lowercase s) = decode_hex s.
Proof.
  unfold decode_hex, to_ascii_lowercase. rewrite <- !length_chars, chars_string_map, length_map.
  by rewrite (decode_pairs_lower (S (length (chars s)))) by lia.
Qed.

(** A text decodes to some bytes exactly when it is their rendering, up to case. *)
Lemma decode_hex_spec s bs :
  decode_hex s = Some bs ↔ to_ascii_lowercase s = hex bs ∧ Forall (λ b, is_byte b = true) bs.
Proof.
  split.
  - unfold decode_hex. destruct (Nat.even _) eqn:He; [|done]. simpl. intros H.
    rewrite <- length_chars in He.
    destruct (decode_pairs_inv (S (length (chars s))) (chars s) bs (Nat.lt_succ_diag_r _) He H) as [E Hb].
    split; [|done]. apply chars_inj. unfold to_ascii_lowercase. by rewrite chars_string_map.
  - intros [E Hb]. by rewrite <- decode_hex_lower, E, decode_hex_hex.
Qed.

(** A rendering does not begin with the signature prefix. *)
Lemma signature_text_hex bs : Forall (λ b, is_byte b = true) bs → signature_text (hex bs) = hex bs.
Proof.
  intros Hb. unfold signature_text. destruct (strip_prefix _ _) as [r|] eqn:E; [|done].
  apply strip_prefix_spec in E. destruct Hb as [|b bs Hb _]; [done|]. apply is_byte_spec in Hb.
  cbn [hex hex_byte] in E. injection E as E _.
  assert (to_digit16 (hex_digit (b / 16)) = Some (b / 16)%Z) as Hd.
  { apply to_digit16_hex. split; [apply Z.div_pos | apply Z.div_lt_upper_bound]; lia. }
  by rewrite E in Hd.
Qed.

Lemma signature_text_prefix s : signature_text ("sha256=" +:+ s) = s.
Proof. unfold signature_text. by rewrite strip_prefix_app. Qed.

(** ** Paths and branches *)

Lemma collect_paths_elem commits path :
  path ∈ collect_paths commits
  ↔ ∃ c, c ∈ commits ∧ (path ∈ cc_added c ∨ path ∈ cc_modified c ∨ path ∈ cc_removed c).
Proof.
  unfold collect_paths. rewrite sql_order_by_elem, elem_of_remove_dups, list_elem_of_In, in_flat_map.
  setoid_rewrite <- list_elem_of_In. by setoid_rewrite elem_of_app; setoid_rewrite elem_of_app.
Qed.

Lemma collect_paths_sorted commits :
  NoDup (collect_paths commits)
  ∧ Sorted (λ a b, str_le a b = true) (collect_paths commits).
Proof.
  split.
  - unfold collect_paths. rewrite sql_order_by_perm. apply NoDup_remove_dups.
  - apply sql_order_by_sorted. intros a b. apply Stdlib.Strings.String.leb_total.
Qed.

(** ** The properties *)

(** The bytes HMAC returns. *)
Definition returns_bytes (hmac : bytes → bytes → bytes) : Prop :=
  ∀ key message, Forall (λ b, is_byte b = true) (hmac key message).

(** A signature header verifies exactly when, without its sha256= prefix, in lower case, it is
    the hexadecimal HMAC of the body under the secret; what the panel signs verifies with and
    without the prefix. *)
Theorem signature_verification (hmac : bytes → bytes → bytes) (Hmac : returns_bytes hmac)
    (secret body : bytes) :
  (∀ signature, verify_hmac_sha256 hmac secret body signature = true
     ↔ to_ascii_lowercase (signature_text signature) = sign_hmac_sha256 hmac secret body)
  ∧ verify_hmac_sha256 hmac secret body (sign_hmac_sha256 hmac secret body) = true
  ∧ verify_hmac_sha256 hmac secret body ("sha256=" +:+ sign_hmac_sha256 hmac secret body) = true.
Proof.
  pose proof (Hmac secret body) as Hb. unfold sign_hmac_sha256, verify_hmac_sha256. split_and!.
  - intros signature. destruct (decode_hex _) as [bs|] eqn:E.
    + apply decode_hex_spec in E as [-> Hbs]. rewrite bool_decide_eq_true. split; [by intros ->|].
      intros E. apply (f_equal decode_hex) in E. rewrite !decode_hex_hex in E by done.
      by injection E.
    + split; [done|]. intros E'. exfalso. rewrite (proj2 (decode_hex_spec _ (hmac secret body))) in E; [done|].
      by split.
  - by rewrite signature_text_hex, decode_hex_hex, bool_decide_eq_true_2.
  - by rewrite signature_text_prefix, decode_hex_hex, bool_decide_eq_true_2.
Qed.

(** A stand-in for HMAC with its type: the sum of key and message, one byte. *)
Definition sample_hmac (key message : bytes) : bytes :=
  [fold_right Z.add 0%Z (key ++ message) mod 256]%Z.

Lemma sample_hmac_bytes : returns_bytes sample_hmac.
Proof.
  intros key message. constructor; [|constructor]. apply is_byte_spec.
  apply Z.mod_pos_bound. lia.
Qed.

Lemma signature_witness :
  sign_hmac_sha256 sample_hmac [1%Z] [200%Z] = "c9"
  ∧ (verify_hmac_sha256 sample_hmac [1%Z] [200%Z] "sha256=C9" = true
     ↔ to_ascii_lowercase (signature_text "sha256=C9") = sign_hmac_sha256 sample_hmac [1%Z] [200%Z]).
Proof.
  split; [reflexivity|].
  exact (proj1 (signature_verification sample_hmac sample_hmac_bytes [1%Z] [200%Z]) "sha256=C9").
Defined.
