(* ===== verification/AlertTypes.v ===== *)
(** * Alert rules: enums, parsing and the sample window

    [src/services/alert/{error,metric,operator,target,rule_state,rule,sample}.rs]:
    the closed sets an alert rule is written in, the conversion of a database row
    into a [ParsedRule], and the sliding window of breach samples. *)

From stdpp Require Import gmap strings list.
From Stdlib Require Import ZArith Lia Floats Ascii.
From S2P Require Import Prelude RustStr F64.

(** ** Errors *)

Inductive AlertParseError :=
| TargetError (value : string)
| MetricError (value : string)
| OperatorError (value : string)
| EventStateError (value : string)
| MissingId (name : string).

#[export] Instance AlertParseError_eq_dec : EqDecision AlertParseError.
Proof. solve_decision. Defined.

(** ** Metrics *)

Inductive MetricKind := Cpu | Memory | Disk.
#[export] Instance MetricKind_eq_dec : EqDecision MetricKind.
Proof. solve_decision. Defined.

Definition metric_as_str (m : MetricKind) : string :=
  match m with Cpu => "CPU" | Memory => "MEMORY" | Disk => "DISK" end.

Definition metric_label (m : MetricKind) : string :=
  match m with Cpu => "CPU" | Memory => "Memory" | Disk => "Disk" end.

Definition metric_from_str (raw : string) : result MetricKind AlertParseError :=
  let v := to_ascii_uppercase (trim raw) in
  if bool_decide (v ∈ ["CPU"; "CPU_PERCENT"]) then Ok Cpu
  else if bool_decide (v ∈ ["MEMORY"; "MEM"; "MEMORY_PERCENT"; "RAM"]) then Ok Memory
  else if bool_decide (v ∈ ["DISK"; "DISK_PERCENT"; "STORAGE"]) then Ok Disk
  else Err (MetricError v).

(** ** Comparison operators *)

Inductive Operator := GreaterThan | GreaterOrEqual | LessThan | LessOrEqual | Equal.
#[export] Instance Operator_eq_dec : EqDecision Operator.
Proof. solve_decision. Defined.

Definition operator_as_str (o : Operator) : string :=
  match o with
  | GreaterThan => "GT" | GreaterOrEqual => "GTE" | LessThan => "LT"
  | LessOrEqual => "LTE" | Equal => "EQ"
  end.

Definition operator_symbol (o : Operator) : string :=
  match o with
  | GreaterThan => ">" | GreaterOrEqual => ">=" | LessThan => "<"
  | LessOrEqual => "<=" | Equal => "=="
  end.

Definition operator_compare (o : Operator) (value threshold : f64) : bool :=
  match o with
  | GreaterThan => f64_ltb threshold value
  | GreaterOrEqual => f64_leb threshold value
  | LessThan => f64_ltb value threshold
  | LessOrEqual => f64_leb value threshold
  | Equal => f64_ltb (f64_abs (f64_sub value threshold))
               (f64_max f64_epsilon (f64_mul (f64_abs threshold) f64_1e_9))
  end.

Definition operator_from_str (raw : string) : result Operator AlertParseError :=
  let v := to_ascii_uppercase (trim raw) in
  if bool_decide (v ∈ [">"; "GT"; "GREATER_THAN"]) then Ok GreaterThan
  else if bool_decide (v ∈ [">="; "GTE"; "GREATER_OR_EQUAL"]) then Ok GreaterOrEqual
  else if bool_decide (v ∈ ["<"; "LT"; "LESS_THAN"]) then Ok LessThan
  else if bool_decide (v ∈ ["<="; "LTE"; "LESS_OR_EQUAL"]) then Ok LessOrEqual
  else if bool_decide (v ∈ ["=="; "="; "EQ"; "EQUAL"]) then Ok Equal
  else Err (OperatorError v).

(** ** Targets *)

Inductive TargetKind := TkServer | TkApplication | TkDatabase | TkCompose.
#[export] Instance TargetKind_eq_dec : EqDecision TargetKind.
Proof. solve_decision. Defined.

Definition target_as_str (t : TargetKind) : string :=
  match t with
  | TkServer => "SERVER" | TkApplication => "APPLICATION"
  | TkDatabase => "DATABASE" | TkCompose => "COMPOSE"
  end.

Definition target_is_host_level (t : TargetKind) : bool :=
  match t with TkServer => true | _ => false end.

Definition target_from_str (raw : string) : result TargetKind AlertParseError :=
  let v := to_ascii_uppercase (trim raw) in
  if bool_decide (v ∈ ["SERVER"]) then Ok TkServer
  else if bool_decide (v ∈ ["APPLICATION"; "APP"]) then Ok TkApplication
  else if bool_decide (v ∈ ["DATABASE"; "DB"]) then Ok TkDatabase
  else if bool_decide (v ∈ ["COMPOSE"]) then Ok TkCompose
  else Err (TargetError v).

(** ** Enabled flag *)

Inductive RuleFlag := Enabled | Disabled.

Definition rule_flag_from_flag (flag : Z) : RuleFlag :=
  if (flag =? 0)%Z then Disabled else Enabled.

Definition rule_flag_as_flag (r : RuleFlag) : Z :=
  match r with Enabled => 1 | Disabled => 0 end.

Definition rule_flag_is_enabled (r : RuleFlag) : bool :=
  match r with Enabled => true | Disabled => false end.

(** ** Rules *)

(** The [alert_rules] row; [threshold] is an [f64], [duration_seconds] and
    [enabled] are [i32]. *)
Record AlertRule := mkAlertRule {
  ar_id : option Z;
  ar_name : string;
  ar_target_type : string;
  ar_target_id : Z;
  ar_metric_name : string;
  ar_operator : string;
  ar_threshold : f64;
  ar_duration_seconds : Z;
  ar_notification_channel : string;
  ar_enabled : Z;
  ar_organization_id : Z;
  ar_created_at : Z;
  ar_updated_at : Z;
}.

Record ParsedRule := mkParsedRule {
  pr_id : Z;
  pr_name : string;
  pr_target_kind : TargetKind;
  pr_target_id : Z;
  pr_metric : MetricKind;
  pr_operator : Operator;
  pr_threshold : f64;
  pr_window_samples : nat;
  pr_cooldown_seconds : Z;
  pr_organization_id : Z;
}.

Definition DEFAULT_WINDOW_SAMPLES : nat := 15.
Definition MAX_WINDOW_SAMPLES : nat := 300.
Definition MAX_COOLDOWN_SECONDS : Z := 3600.
Definition DEFAULT_COOLDOWN_SECONDS : Z := 300.

(** [i64] division truncates; the operands here are positive. *)
Definition window_samples_for (duration_seconds sample_interval_secs : Z) : nat :=
  if (duration_seconds <=? 0)%Z then DEFAULT_WINDOW_SAMPLES
  else
    let interval := Z.max sample_interval_secs 1 in
    let samples := Z.max (Z.quot duration_seconds interval) 1 in
    Nat.min (Z.to_nat samples) MAX_WINDOW_SAMPLES.

(** [i64::clamp(1, MAX_COOLDOWN_SECONDS)] *)
Definition cooldown_for (duration_seconds : Z) : Z :=
  if (duration_seconds <=? 0)%Z then DEFAULT_COOLDOWN_SECONDS
  else Z.min (Z.max duration_seconds 1) MAX_COOLDOWN_SECONDS.

Definition from_row (rule : AlertRule) (sample_interval_secs : Z)
    : result (option ParsedRule) AlertParseError :=
  if negb (rule_flag_is_enabled (rule_flag_from_flag (ar_enabled rule))) then Ok None
  else
    let? id := ok_or (ar_id rule) (MissingId (ar_name rule)) in
    let? target_kind := target_from_str (ar_target_type rule) in
    let? metric := metric_from_str (ar_metric_name rule) in
    let? operator := operator_from_str (ar_operator rule) in
    Ok (Some {|
      pr_id := id;
      pr_name := ar_name rule;
      pr_target_kind := target_kind;
      pr_target_id := ar_target_id rule;
      pr_metric := metric;
      pr_operator := operator;
      pr_threshold := ar_threshold rule;
      pr_window_samples := window_samples_for (ar_duration_seconds rule) sample_interval_secs;
      pr_cooldown_seconds := cooldown_for (ar_duration_seconds rule);
      pr_organization_id := ar_organization_id rule;
    |}).

(** [format!("{}:{}", self.id, target)] *)
Definition state_key (rule : ParsedRule) (target : string) : string :=
  i64_to_string (pr_id rule) +:+ ":" +:+ target.

(** ** Samples and the sliding window *)

Record MetricSample := mkSample {
  cpu_percent : f64;
  memory_percent : f64;
  disk_percent : f64;
}.

Definition value_for (s : MetricSample) (m : MetricKind) : f64 :=
  match m with
  | Cpu => cpu_percent s
  | Memory => memory_percent s
  | Disk => disk_percent s
  end.

Definition FIRE_RATIO : f64 := f64_0_8.

Record SampleWindow := mkWindow {
  w_capacity : nat;
  w_samples : list bool;
}.

Definition window_new (capacity : nat) : SampleWindow :=
  {| w_capacity := Nat.max capacity 1; w_samples := [] |}.

Definition window_push (w : SampleWindow) (breached : bool) : SampleWindow * bool :=
  let samples := if decide (length (w_samples w) = w_capacity w)
                 then tail (w_samples w) else w_samples w in
  let samples := samples ++ [breached] in
  let w' := {| w_capacity := w_capacity w; w_samples := samples |} in
  if decide (length samples < w_capacity w) then (w', false)
  else
    let breaches := length (List.filter (λ b, b) samples) in
    (w', f64_leb FIRE_RATIO
           (f64_div (f64_of_Z (Z.of_nat breaches)) (f64_of_Z (Z.of_nat (length samples))))).

Definition window_reset (w : SampleWindow) : SampleWindow :=
  {| w_capacity := w_capacity w; w_samples := [] |}.

Definition window_len (w : SampleWindow) : nat := length (w_samples w).
Definition window_is_empty (w : SampleWindow) : bool := bool_decide (w_samples w = []).

(** ** Lemmas *)

Definition window_wf (w : SampleWindow) : Prop :=
  1 ≤ w_capacity w ∧ length (w_samples w) ≤ w_capacity w.

Lemma window_new_wf n : window_wf (window_new n).
Proof. unfold window_wf, window_new; simpl. lia. Qed.

Lemma window_reset_wf w : window_wf w → window_wf (window_reset w).
Proof. unfold window_wf, window_reset; simpl. lia. Qed.

Lemma window_push_capacity w b : w_capacity (window_push w b).1 = w_capacity w.
Proof. unfold window_push. by case_goal. Qed.

Lemma window_push_samples w b :
  w_samples (window_push w b).1
  = (if decide (length (w_samples w) = w_capacity w) then tail (w_samples w) else w_samples w)
      ++ [b].
Proof. unfold window_push. by destruct (decide (length (_ ++ _) < _)). Qed.

Lemma window_push_length w b :
  window_wf w →
  length (w_samples (window_push w b).1) = Nat.min (S (length (w_samples w))) (w_capacity w).
Proof.
  intros [H1 H2]. rewrite window_push_samples, length_app. cbn [length].
  case_decide; [|lia]. destruct (w_samples w); cbn [tail length] in *; lia.
Qed.

Lemma window_push_wf w b : window_wf w → window_wf (window_push w b).1.
Proof.
  intros H. pose proof (window_push_length w b H). destruct H.
  split; rewrite window_push_capacity; lia.
Qed.

#[export] Hint Resolve window_new_wf window_reset_wf window_push_wf : oxide.

Lemma window_samples_for_bounds d i :
  1 ≤ window_samples_for d i ≤ MAX_WINDOW_SAMPLES.
Proof.
  unfold window_samples_for, DEFAULT_WINDOW_SAMPLES, MAX_WINDOW_SAMPLES.
  destruct (d <=? 0)%Z; lia.
Qed.

Lemma cooldown_for_bounds d : (1 ≤ cooldown_for d ≤ MAX_COOLDOWN_SECONDS)%Z.
Proof.
  unfold cooldown_for, DEFAULT_COOLDOWN_SECONDS, MAX_COOLDOWN_SECONDS.
  destruct (d <=? 0)%Z; lia.
Qed.

(** The rendering of a rule id never contains the separator. *)
Lemma id_no_colon z : string_Forall (λ c, c ≠ ":"%char) (i64_to_string z).
Proof.
  eapply string_Forall_impl; [|apply i64_to_string_num].
  intros c [->|H] E; [discriminate|]. subst c. vm_compute in H. naive_solver.
Qed.

Lemma key_inj (id1 id2 : Z) (t1 t2 : string) :
  i64_to_string id1 +:+ ":" +:+ t1 = i64_to_string id2 +:+ ":" +:+ t2 → id1 = id2 ∧ t1 = t2.
Proof.
  intros H. apply (app_sep_inj ":"%char) in H as [H ->]; auto using id_no_colon.
  by apply i64_to_string_inj in H.
Qed.

(** The outcome of [from_row] on every branch. *)
Lemma from_row_fields (rule : AlertRule) (interval : Z) :
  match from_row rule interval with
  | Ok None => ar_enabled rule = 0%Z
  | Ok (Some p) =>
      ar_enabled rule ≠ 0%Z ∧ ar_id rule = Some (pr_id p)
      ∧ target_from_str (ar_target_type rule) = Ok (pr_target_kind p)
      ∧ metric_from_str (ar_metric_name rule) = Ok (pr_metric p)
      ∧ operator_from_str (ar_operator rule) = Ok (pr_operator p)
      ∧ pr_threshold p = ar_threshold rule
      ∧ pr_organization_id p = ar_organization_id rule
      ∧ 1 ≤ pr_window_samples p ≤ MAX_WINDOW_SAMPLES
      ∧ (1 ≤ pr_cooldown_seconds p ≤ MAX_COOLDOWN_SECONDS)%Z
  | Err _ =>
      ar_enabled rule ≠ 0%Z
      ∧ (ar_id rule = None ∨ (∃ e, target_from_str (ar_target_type rule) = Err e)
         ∨ (∃ e, metric_from_str (ar_metric_name rule) = Err e)
         ∨ (∃ e, operator_from_str (ar_operator rule) = Err e))
  end.
Proof.
  unfold from_row, rule_flag_from_flag.
  destruct (ar_enabled rule =? 0)%Z eqn:He; simpl; bsimp; [done|].
  destruct (ar_id rule); simpl; [|by auto].
  destruct (target_from_str _); simpl; [|by eauto].
  destruct (metric_from_str _); simpl; [|by eauto 6].
  destruct (operator_from_str _); simpl; [|by eauto 7].
  repeat split; auto; apply window_samples_for_bounds || apply cooldown_for_bounds.
Qed.

(** ** The properties *)

(** Each alert enum is read back from its database spelling, and an operator from its symbol
    too. *)
Theorem alert_enum_roundtrip :
  (∀ m, metric_from_str (metric_as_str m) = Ok m)
  ∧ (∀ o, operator_from_str (operator_as_str o) = Ok o ∧ operator_from_str (operator_symbol o) = Ok o)
  ∧ (∀ t, target_from_str (target_as_str t) = Ok t)
  ∧ (∀ r, rule_flag_from_flag (rule_flag_as_flag r) = r).
Proof. split_and!; intros []; try split; reflexivity. Qed.

(** C27: A sample window holds the newest samples up to its capacity, and for capacities up to
    the maximum the floating-point test of the fire ratio is the exact one: a push fires exactly
    when the window is full and at least four fifths of the samples it then holds breach. *)
Theorem window_push_fires (w : SampleWindow) (b : bool)
    (Hwf : window_wf w) (Hcap : w_capacity w ≤ MAX_WINDOW_SAMPLES) :
  let all := w_samples w ++ [b] in
  let samples := w_samples (window_push w b).1 in
  samples = drop (length all - w_capacity w) all
  ∧ ((window_push w b).2 = true ↔
     w_capacity w ≤ length all ∧ 4 * w_capacity w ≤ 5 * length (List.filter (λ b, b) samples)).
Proof.
  cbn zeta. pose proof (window_push_length w b Hwf) as Hlen.
  pose proof (filterb_length_le (λ b, b) (w_samples (window_push w b).1)) as Hle.
  pose proof Hcap as Hcap'. unfold MAX_WINDOW_SAMPLES in Hcap'. destruct Hwf as [H1 H2].
  rewrite window_push_samples in Hlen, Hle |- *. split.
  - rewrite length_app. case_decide as Hd; simpl.
    + rewrite Hd. replace (w_capacity w + 1 - w_capacity w) with 1 by lia.
      destruct (w_samples w); [simpl in Hd; lia | done].
    + by replace (length (w_samples w) + 1 - w_capacity w) with 0 by lia.
  - rewrite length_app. unfold window_push. set (s := (_ ++ [b])) in *. simpl.
    case_decide as Hd; simpl; [split; [done|lia]|].
    unfold FIRE_RATIO. rewrite ratio_exact_upto_300 by lia. rewrite Z.leb_le. lia.
Qed.

Lemma window_push_fires_witness :
  (window_push (mkWindow 5 [true; false; true; true]) true).2 = true.
Proof.
  apply (proj2 (window_push_fires (mkWindow 5 [true; false; true; true]) true
           ltac:(split; simpl; lia) ltac:(unfold MAX_WINDOW_SAMPLES; simpl; lia))).
  vm_compute. split; lia.
Defined.

(** A row gives a rule exactly when it is enabled and its three names parse; the rule has the
    row's fields, a window between one and the maximum and a cooldown between one and the
    maximum. *)
Theorem from_row_spec (rule : AlertRule) (interval : Z) :
  match from_row rule interval with
  | Ok None => ar_enabled rule = 0%Z
  | Ok (Some p) =>
      ar_enabled rule ≠ 0%Z ∧ ar_id rule = Some (pr_id p)
      ∧ target_from_str (ar_target_type rule) = Ok (pr_target_kind p)
      ∧ metric_from_str (ar_metric_name rule) = Ok (pr_metric p)
      ∧ operator_from_str (ar_operator rule) = Ok (pr_operator p)
      ∧ pr_threshold p = ar_threshold rule
      ∧ pr_organization_id p = ar_organization_id rule
      ∧ 1 ≤ pr_window_samples p ≤ MAX_WINDOW_SAMPLES
      ∧ (1 ≤ pr_cooldown_seconds p ≤ MAX_COOLDOWN_SECONDS)%Z
  | Err _ =>
      ar_enabled rule ≠ 0%Z
      ∧ (ar_id rule = None ∨ (∃ e, target_from_str (ar_target_type rule) = Err e)
         ∨ (∃ e, metric_from_str (ar_metric_name rule) = Err e)
         ∨ (∃ e, operator_from_str (ar_operator rule) = Err e))
  end.
Proof. apply from_row_fields. Qed.
