(* ===== verification/AlertEngine.v ===== *)
(** * The alert engine

    [src/services/alert/engine.rs] and [reading.rs]: one pass over rules and target
    readings, with a sliding window and a cooldown per (rule, target) key. *)

From stdpp Require Import gmap strings list.
From Stdlib Require Import ZArith Lia.
From S2P Require Import Prelude RustStr F64 AlertTypes.

(** ** Data *)

Record TargetReading := mkReading {
  tr_kind : TargetKind;
  tr_key : string;
  tr_display_name : string;
  tr_sample : MetricSample;
}.

Record FiredAlert := mkFired {
  fa_rule_id : Z;
  fa_rule_name : string;
  fa_target_key : string;
  fa_target_kind : TargetKind;
  fa_target_display : string;
  fa_metric_label : string;
  fa_operator_symbol : string;
  fa_value : f64;
  fa_threshold : f64;
  fa_window_samples : nat;
  fa_organization_id : Z;
}.

Record RuleState := mkRuleState {
  rs_window : SampleWindow;
  rs_last_fired_at : option Z;
}.

(** The engine's [HashMap<String, RuleState>] *)
Abbreviation EngineState := (gmap string RuleState).

(** ** Operations *)

Definition engine_new : EngineState := ∅.

Definition rule_covers (rule : ParsedRule) (reading : TargetReading) : bool :=
  if decide (pr_target_kind rule ≠ tr_kind reading) then false
  else if (pr_target_id rule =? 0)%Z then true
  else bool_decide (tr_key reading = i64_to_string (pr_target_id rule)).

Definition make_alert (rule : ParsedRule) (reading : TargetReading) (value : f64) : FiredAlert :=
  {| fa_rule_id := pr_id rule;
     fa_rule_name := pr_name rule;
     fa_target_key := tr_key reading;
     fa_target_kind := tr_kind reading;
     fa_target_display := tr_display_name reading;
     fa_metric_label := metric_label (pr_metric rule);
     fa_operator_symbol := operator_symbol (pr_operator rule);
     fa_value := value;
     fa_threshold := pr_threshold rule;
     fa_window_samples := pr_window_samples rule;
     fa_organization_id := pr_organization_id rule |}.

(** The entry after [or_insert_with] and the capacity check. *)
Definition entry_for (st : EngineState) (rule : ParsedRule) (key : string) : RuleState :=
  let entry := default {| rs_window := window_new (pr_window_samples rule);
                          rs_last_fired_at := None |} (st !! key) in
  if decide (w_capacity (rs_window entry) ≠ pr_window_samples rule)
  then {| rs_window := window_new (pr_window_samples rule);
          rs_last_fired_at := rs_last_fired_at entry |}
  else entry.

(** [now_secs.saturating_sub(last) < rule.cooldown_seconds] *)
Definition cooling_down (last : option Z) (now cooldown : Z) : bool :=
  match last with
  | Some t => (i64_saturating_sub now t <? cooldown)%Z
  | None => false
  end.

(** The body of the inner loop. *)
Definition eval_one (st : EngineState) (rule : ParsedRule) (reading : TargetReading) (now : Z)
    : EngineState * option FiredAlert :=
  if negb (rule_covers rule reading) then (st, None)
  else
    let value := value_for (tr_sample reading) (pr_metric rule) in
    let breached := operator_compare (pr_operator rule) value (pr_threshold rule) in
    let key := state_key rule (tr_key reading) in
    let entry := entry_for st rule key in
    let '(window, full) := window_push (rs_window entry) breached in
    if negb full then
      (<[key := mkRuleState window (rs_last_fired_at entry)]> st, None)
    else if cooling_down (rs_last_fired_at entry) now (pr_cooldown_seconds rule) then
      (<[key := mkRuleState window (rs_last_fired_at entry)]> st, None)
    else
      (<[key := mkRuleState (window_reset window) (Some now)]> st,
       Some (make_alert rule reading value)).

(** [for rule in rules { for reading in readings { .. } }], as the list of pairs
    the two loops visit. *)
Definition loop_pairs (rules : list ParsedRule) (readings : list TargetReading)
    : list (ParsedRule * TargetReading) :=
  rule ← rules; reading ← readings; [(rule, reading)].

Fixpoint eval_pairs (st : EngineState) (ps : list (ParsedRule * TargetReading)) (now : Z)
    : EngineState * list FiredAlert :=
  match ps with
  | [] => (st, [])
  | (rule, reading) :: ps' =>
      let '(st1, a) := eval_one st rule reading now in
      let '(st2, fired) := eval_pairs st1 ps' now in
      (st2, match a with Some x => x :: fired | None => fired end)
  end.

Definition evaluate (st : EngineState) (rules : list ParsedRule)
    (readings : list TargetReading) (now : Z) : EngineState * list FiredAlert :=
  eval_pairs st (loop_pairs rules readings) now.

Definition retain_rules (st : EngineState) (rules : list ParsedRule) : EngineState :=
  let live := map (λ r, i64_to_string (pr_id r) +:+ ":") rules in
  filter (λ kv, existsb (λ p, starts_with p kv.1) live = true) st.

Definition tracked_targets (st : EngineState) : nat := size st.

(** ** Invariant: every window is well formed *)

Definition engine_wf (st : EngineState) : Prop :=
  map_Forall (λ _ e, window_wf (rs_window e)) st.

Lemma entry_for_wf st rule key :
  engine_wf st → window_wf (rs_window (entry_for st rule key)).
Proof.
  intros Hwf. unfold entry_for. case_decide; [apply window_new_wf|].
  destruct (st !! key) as [e|] eqn:E; simpl; [by apply (Hwf key e) | apply window_new_wf].
Qed.

Lemma entry_for_last st rule key :
  rs_last_fired_at (entry_for st rule key) = st !! key ≫= rs_last_fired_at.
Proof. unfold entry_for. case_decide; by destruct (st !! key). Qed.

Lemma entry_for_capacity st rule key :
  1 ≤ pr_window_samples rule →
  w_capacity (rs_window (entry_for st rule key)) = pr_window_samples rule.
Proof. intros H. unfold entry_for. case_decide; simpl; lia. Qed.

Lemma eval_one_wf st rule reading now :
  engine_wf st → engine_wf (eval_one st rule reading now).1.
Proof.
  intros Hwf. unfold eval_one. destruct (rule_covers _ _); simpl; [|done].
  pose proof (entry_for_wf st rule (state_key rule (tr_key reading)) Hwf) as He.
  pose proof (window_push_wf _ (operator_compare (pr_operator rule)
    (value_for (tr_sample reading) (pr_metric rule)) (pr_threshold rule)) He) as Hp.
  destruct (window_push _ _) as [w full]; simpl in *.
  destruct full; [destruct (cooling_down _ _ _)|]; simpl;
    apply map_Forall_insert_2; simpl; auto with oxide.
Qed.

Lemma eval_pairs_wf ps : ∀ st now, engine_wf st → engine_wf (eval_pairs st ps now).1.
Proof.
  induction ps as [|[rule reading] ps IH]; intros st now Hwf; simpl; [done|].
  pose proof (eval_one_wf st rule reading now Hwf) as H1.
  destruct (eval_one _ _ _ _) as [st1 a]. specialize (IH st1 now H1).
  by destruct (eval_pairs _ _ _).
Qed.

(** ** What one iteration does to the firing times *)

Definition last_fired (st : EngineState) (key : string) : option Z :=
  st !! key ≫= rs_last_fired_at.

(** An iteration either leaves every firing time, or fires, and then only the time
    of its own key moves, to [now]. *)
Lemma eval_one_last st rule reading now :
  match (eval_one st rule reading now).2 with
  | None => ∀ k, last_fired (eval_one st rule reading now).1 k = last_fired st k
  | Some a =>
      a = make_alert rule reading (value_for (tr_sample reading) (pr_metric rule))
      ∧ rule_covers rule reading = true
      ∧ cooling_down (last_fired st (state_key rule (tr_key reading))) now
          (pr_cooldown_seconds rule) = false
      ∧ ∀ k, last_fired (eval_one st rule reading now).1 k
             = if decide (k = state_key rule (tr_key reading)) then Some now else last_fired st k
  end.
Proof.
  unfold eval_one. destruct (rule_covers _ _) eqn:Hc; simpl; [|done].
  set (key := state_key _ _). pose proof (entry_for_last st rule key) as Hl.
  fold (last_fired st key) in Hl.
  assert (∀ w k, last_fired (<[key := mkRuleState w (rs_last_fired_at (entry_for st rule key))]> st) k
                 = last_fired st k) as Hsame.
  { intros w k. unfold last_fired at 1. rewrite lookup_insert.
    case_decide as E; [|done]. subst k. simpl. by rewrite Hl. }
  destruct (window_push _ _) as [w full]; destruct full; simpl; [|by auto].
  destruct (cooling_down _ _ _) eqn:Hcd; simpl; [by auto|].
  split_and!; [done|done|by rewrite <- Hl|].
  intros k. unfold last_fired. rewrite lookup_insert. by repeat case_decide; subst.
Qed.

Lemma cooling_down_self now cooldown :
  (1 ≤ cooldown)%Z → cooling_down (Some now) now cooldown = true.
Proof.
  intros H. unfold cooling_down, i64_saturating_sub. rewrite Z.sub_diag.
  apply Z.ltb_lt. unfold i64_min, i64_max. lia.
Qed.

(** The key an alert was raised under. *)
Definition alert_key (a : FiredAlert) : string :=
  i64_to_string (fa_rule_id a) +:+ ":" +:+ fa_target_key a.

(** What a pass promises of each alert it raises. *)
Definition alert_justified (st : EngineState) (ps : list (ParsedRule * TargetReading)) (now : Z)
    (a : FiredAlert) : Prop :=
  ∃ rule reading, (rule, reading) ∈ ps
    ∧ a = make_alert rule reading (value_for (tr_sample reading) (pr_metric rule))
    ∧ rule_covers rule reading = true
    ∧ cooling_down (last_fired st (alert_key a)) now (pr_cooldown_seconds rule) = false.

Definition cooldowns_positive (ps : list (ParsedRule * TargetReading)) : Prop :=
  ∀ p, p ∈ ps → (1 ≤ pr_cooldown_seconds p.1)%Z.

(** A key fired earlier in the same pass cannot fire again in it. *)
Lemma eval_pairs_fired ps : ∀ st now,
  cooldowns_positive ps →
  (∀ a, a ∈ (eval_pairs st ps now).2 → alert_justified st ps now a)
  ∧ (∀ a, a ∈ (eval_pairs st ps now).2 → last_fired st (alert_key a) ≠ Some now)
  ∧ NoDup (map alert_key (eval_pairs st ps now).2).
Proof.
  induction ps as [|[rule reading] ps IH]; intros st now Hpos; simpl.
  { split_and!; [by intros a ?%elem_of_nil | by intros a ?%elem_of_nil | constructor]. }
  pose proof (eval_one_last st rule reading now) as Hone.
  destruct (eval_one st rule reading now) as [st1 a]; simpl in Hone.
  destruct (IH st1 now) as (IH1 & IH2 & IH3); [intros p Hp; apply Hpos; set_solver|].
  destruct (eval_pairs st1 ps now) as [st2 fired]; simpl in *.
  assert (1 ≤ pr_cooldown_seconds rule)%Z as Hr by (apply (Hpos (rule, reading)); set_solver).
  destruct a as [a|].
  - destruct Hone as (Ha & Hc & Hcd & Hl).
    assert (alert_key a = state_key rule (tr_key reading)) as Hk by (by subst a).
    split_and!.
    + intros b [->|Hb]%elem_of_cons.
      * exists rule, reading. rewrite Hk. split_and!; auto; set_solver.
      * destruct (IH1 b Hb) as (r & rd & Hin & Hb' & Hc' & Hcd').
        exists r, rd. split_and!; auto; [set_solver|].
        rewrite Hl in Hcd'. case_decide as E; [|done].
        rewrite cooling_down_self in Hcd'; [done|]. apply (Hpos (r, rd)). set_solver.
    + intros b [->|Hb]%elem_of_cons.
      * rewrite Hk. intros E. by rewrite E, cooling_down_self in Hcd.
      * specialize (IH2 b Hb). rewrite Hl in IH2. by case_decide.
    + simpl. constructor; [|done]. intros (b & Hb & Hin)%elem_of_mapb.
      apply (IH2 b Hin). rewrite Hl, <- Hb, Hk. by rewrite decide_True.
  - split_and!; [|intros b Hb; rewrite <- Hone; by apply IH2 | done].
    intros b Hb. destruct (IH1 b Hb) as (r & rd & Hin & Hb' & Hc' & Hcd').
    exists r, rd. rewrite Hone in Hcd'. split_and!; auto. set_solver.
Qed.

Lemma loop_pairs_elem rules readings p :
  p ∈ loop_pairs rules readings ↔ p.1 ∈ rules ∧ p.2 ∈ readings.
Proof.
  unfold loop_pairs. rewrite list_elem_of_bind. setoid_rewrite list_elem_of_bind.
  destruct p as [r rd]; simpl. set_solver.
Qed.

(** Keys written by the engine come from rule ids. *)
Definition keys_of_rules (st : EngineState) : Prop :=
  ∀ k, is_Some (st !! k) → ∃ id t, k = i64_to_string id +:+ ":" +:+ t.

Lemma eval_one_keys st rule reading now :
  keys_of_rules st → keys_of_rules (eval_one st rule reading now).1.
Proof.
  intros H. unfold eval_one. destruct (rule_covers _ _); simpl; [|done].
  destruct (window_push _ _) as [w full].
  assert (∀ e, keys_of_rules (<[state_key rule (tr_key reading) := e]> st)) as Hins.
  { intros e k. rewrite lookup_insert. case_decide as E; [|apply H].
    intros _. subst k. by eexists _, _. }
  destruct full; [destruct (cooling_down _ _ _)|]; simpl; auto.
Qed.

Lemma eval_pairs_keys ps : ∀ st now, keys_of_rules st → keys_of_rules (eval_pairs st ps now).1.
Proof.
  induction ps as [|[rule reading] ps IH]; intros st now Hk; simpl; [done|].
  pose proof (eval_one_keys st rule reading now Hk) as H1.
  destruct (eval_one _ _ _ _) as [st1 a]. specialize (IH st1 now H1).
  by destruct (eval_pairs _ _ _).
Qed.

(** The prefix test of [retain_rules] recognises exactly the keys of the rule. *)
Lemma key_prefix id id' t :
  starts_with (i64_to_string id +:+ ":") (i64_to_string id' +:+ ":" +:+ t) = true ↔ id = id'.
Proof.
  rewrite starts_with_spec. split.
  - intros (r & Hr). rewrite str_app_assoc in Hr. by apply key_inj in Hr as [-> _].
  - intros ->. exists t. by rewrite str_app_assoc.
Qed.

(** ** Refilling *)

Lemma eval_one_key_entry st rule reading now :
  rule_covers rule reading = true → 1 ≤ pr_window_samples rule → engine_wf st →
  ∃ e, (eval_one st rule reading now).1 !! state_key rule (tr_key reading) = Some e
    ∧ w_capacity (rs_window e) = pr_window_samples rule
    ∧ match (eval_one st rule reading now).2 with
      | Some _ => w_samples (rs_window e) = []
      | None => length (w_samples (rs_window e))
          = Nat.min (S (length (w_samples (rs_window
              (entry_for st rule (state_key rule (tr_key reading))))))) (pr_window_samples rule)
      end.
Proof.
  intros Hc Hn Hwf. unfold eval_one. rewrite Hc. simpl. set (key := state_key _ _).
  pose proof (entry_for_capacity st rule key Hn) as Hcap.
  pose proof (entry_for_wf st rule key Hwf) as Hew.
  set (b := operator_compare _ _ _).
  pose proof (window_push_length _ b Hew) as Hlen.
  pose proof (window_push_capacity (rs_window (entry_for st rule key)) b) as Hpc.
  destruct (window_push _ _) as [w full]; simpl in *. rewrite Hcap in *.
  destruct full; [destruct (cooling_down _ _ _)|]; simpl; rewrite lookup_insert_eq;
    eexists; split_and!; (reflexivity || done).
Qed.

(** A window with room for one more sample does not fire. *)
Lemma eval_one_room st rule reading now :
  engine_wf st → 1 ≤ pr_window_samples rule →
  S (length (w_samples (rs_window (entry_for st rule (state_key rule (tr_key reading))))))
    < pr_window_samples rule →
  (eval_one st rule reading now).2 = None.
Proof.
  intros Hwf Hn Hlt. unfold eval_one. destruct (rule_covers _ _); simpl; [|done].
  set (key := state_key _ _) in *. pose proof (entry_for_capacity st rule key Hn) as Hcap.
  unfold window_push. destruct (decide (length (w_samples _) = _)) as [E|_]; [lia|].
  rewrite decide_True; [done|]. rewrite length_app, Hcap. cbn [length]. lia.
Qed.

Lemma entry_for_same st rule key e :
  st !! key = Some e → w_capacity (rs_window e) = pr_window_samples rule →
  entry_for st rule key = e.
Proof. intros He Hc. unfold entry_for. rewrite He. simpl. by rewrite decide_False by auto. Qed.

(** Consecutive iterations of one rule on readings of one target. *)
Fixpoint eval_run (st : EngineState) (rule : ParsedRule)
    (obs : list (TargetReading * Z)) : EngineState * list FiredAlert :=
  match obs with
  | [] => (st, [])
  | (reading, now) :: obs' =>
      let '(st1, a) := eval_one st rule reading now in
      let '(st2, fired) := eval_run st1 rule obs' in
      (st2, match a with Some x => x :: fired | None => fired end)
  end.

Lemma eval_run_room obs : ∀ st rule key e,
  engine_wf st → 1 ≤ pr_window_samples rule →
  st !! key = Some e → w_capacity (rs_window e) = pr_window_samples rule →
  (∀ p, p ∈ obs → state_key rule (tr_key p.1) = key) →
  length (w_samples (rs_window e)) + length obs < pr_window_samples rule →
  (eval_run st rule obs).2 = [].
Proof.
  induction obs as [|[reading now] obs IH]; intros st rule key e Hwf Hn He Hcap Hkeys Hlen;
    simpl; [done|]. cbn [length] in Hlen.
  assert (state_key rule (tr_key reading) = key) as Hk by (apply (Hkeys (reading, now)); set_solver).
  assert (entry_for st rule key = e) as Hent by (by apply entry_for_same).
  pose proof (eval_one_room st rule reading now Hwf Hn) as Hroom.
  rewrite Hk, Hent in Hroom. specialize (Hroom ltac:(lia)).
  pose proof (eval_one_wf st rule reading now Hwf) as Hwf1.
  assert (∃ e', (eval_one st rule reading now).1 !! key = Some e'
     ∧ w_capacity (rs_window e') = pr_window_samples rule
     ∧ length (w_samples (rs_window e')) ≤ S (length (w_samples (rs_window e)))) as (e' & He' & Hc' & Hl').
  { destruct (rule_covers rule reading) eqn:Hc.
    - destruct (eval_one_key_entry st rule reading now Hc Hn Hwf) as (e' & H1 & H2 & H3).
      rewrite Hroom, Hk, Hent in *. exists e'. split_and!; auto. lia.
    - exists e. unfold eval_one. rewrite Hc. simpl. split_and!; auto. }
  destruct (eval_one st rule reading now) as [st1 a]; simpl in *. subst a.
  specialize (IH st1 rule key e' Hwf1 Hn He' Hc' ltac:(intros p Hp; apply Hkeys; set_solver) ltac:(lia)).
  by destruct (eval_run st1 rule obs).
Qed.

(** ** The properties *)

(** C9: In one evaluation pass no rule fires twice for the same target, and each alert comes
    from a rule and a reading it covers, carries the reading's value and the rule's
    organization, and respects the rule's cooldown since the last alert for that target. *)
Theorem evaluate_alerts_justified (st : EngineState) (rules : list ParsedRule)
    (readings : list TargetReading) (now : Z)
    (Hcool : ∀ r, r ∈ rules → (1 ≤ pr_cooldown_seconds r)%Z) :
  let fired := (evaluate st rules readings now).2 in
  NoDup (map alert_key fired)
  ∧ ∀ a, a ∈ fired → ∃ rule reading,
      rule ∈ rules ∧ reading ∈ readings ∧ rule_covers rule reading = true
      ∧ a = make_alert rule reading (value_for (tr_sample reading) (pr_metric rule))
      ∧ fa_organization_id a = pr_organization_id rule
      ∧ match last_fired st (alert_key a) with
        | Some t => (pr_cooldown_seconds rule ≤ i64_saturating_sub now t)%Z
        | None => True
        end.
Proof.
  simpl. unfold evaluate.
  destruct (eval_pairs_fired (loop_pairs rules readings) st now) as (H1 & _ & H3).
  { intros p [Hp _]%loop_pairs_elem. by apply Hcool. }
  split; [done|]. intros a Ha. destruct (H1 a Ha) as (r & rd & Hin & Ha' & Hc & Hcd).
  apply loop_pairs_elem in Hin as [? ?]. exists r, rd. split_and!; auto; [by subst a|].
  unfold cooling_down in Hcd. destruct (last_fired _ _); [by bsimp|done].
Qed.

(** Evaluation and retention keep every sample window within its capacity and every key in the
    form of a rule id and a target. *)
Theorem evaluate_preserves_windows (st : EngineState) (rules : list ParsedRule)
    (readings : list TargetReading) (now : Z) (Hwf : engine_wf st) (Hk : keys_of_rules st) :
  engine_wf (evaluate st rules readings now).1 ∧ keys_of_rules (evaluate st rules readings now).1
  ∧ engine_wf (retain_rules st rules) ∧ keys_of_rules (retain_rules st rules).
Proof.
  split_and!; [by apply eval_pairs_wf | by apply eval_pairs_keys | |].
  - intros k e He. apply map_lookup_filter_Some in He as [He _]. by apply (Hwf k e).
  - intros k [e He]. apply map_lookup_filter_Some in He as [He _]. apply Hk. by exists e.
Qed.

(** Retaining the live rules keeps the state of a rule and target exactly when the rule's id is
    live; no id that is a prefix of another is confused with it. *)
Theorem retain_rules_exact (st : EngineState) (rules : list ParsedRule) (id : Z) (t : string) :
  retain_rules st rules !! (i64_to_string id +:+ ":" +:+ t)
  = if bool_decide (id ∈ map pr_id rules) then st !! (i64_to_string id +:+ ":" +:+ t) else None.
Proof.
  unfold retain_rules. rewrite map_lookup_filter.
  destruct (st !! _) as [e|] eqn:E; simpl; [|by case_bool_decide].
  case_bool_decide as Hin.
  - rewrite option_guard_True; [done|]. apply existsb_elem.
    apply elem_of_mapb in Hin as (r & -> & Hr). exists (i64_to_string (pr_id r) +:+ ":").
    split; [by apply elem_of_mapb; exists r | by apply key_prefix].
  - rewrite option_guard_False; [done|]. intros (p & Hp & Hs)%existsb_elem.
    apply elem_of_mapb in Hp as (r & -> & Hr). apply key_prefix in Hs. subst id.
    apply Hin, elem_of_mapb. by exists r.
Qed.

(** After a rule fires for a target, fewer observations of that target than the window holds can
    never fire it again, whatever their values and times. *)
Theorem refill_after_fire (st : EngineState) (rule : ParsedRule) (reading : TargetReading) (now : Z)
    (a : FiredAlert) (obs : list (TargetReading * Z))
    (Hwf : engine_wf st) (Hn : 1 ≤ pr_window_samples rule)
    (Hfire : (eval_one st rule reading now).2 = Some a)
    (Hobs : ∀ p, p ∈ obs → tr_key p.1 = tr_key reading)
    (Hfew : length obs < pr_window_samples rule) :
  (eval_run (eval_one st rule reading now).1 rule obs).2 = [].
Proof.
  pose proof (eval_one_last st rule reading now) as Hl. rewrite Hfire in Hl.
  destruct Hl as (_ & Hc & _).
  destruct (eval_one_key_entry st rule reading now Hc Hn Hwf) as (e & He & Hcap & Hs).
  rewrite Hfire in Hs. eapply eval_run_room; eauto using eval_one_wf.
  - intros p Hp. by rewrite (Hobs p Hp).
  - rewrite Hs. simpl. done.
Qed.

(** ** Witnesses *)

Definition demo_rule : ParsedRule :=
  mkParsedRule 1 "high cpu" TkServer 1 Cpu GreaterThan (f64_of_Z 80) 3 300 42.
Definition demo_reading : TargetReading :=
  mkReading TkServer "1" "target 1" (mkSample (f64_of_Z 95) (f64_of_Z 0) (f64_of_Z 0)).
(** The engine after two breaching samples: the third one fires. *)
Definition demo_state : EngineState :=
  (evaluate (evaluate engine_new [demo_rule] [demo_reading] 0).1 [demo_rule] [demo_reading] 1).1.

Lemma evaluate_alerts_justified_witness :
  NoDup (map alert_key (evaluate demo_state [demo_rule] [demo_reading] 2).2)
  ∧ length (evaluate demo_state [demo_rule] [demo_reading] 2).2 = 1.
Proof.
  split; [|reflexivity].
  apply (evaluate_alerts_justified demo_state [demo_rule] [demo_reading] 2).
  intros r Hr. apply list_elem_of_singleton in Hr. subst r. simpl. lia.
Defined.

Lemma evaluate_preserves_windows_witness :
  engine_wf (evaluate engine_new [demo_rule] [demo_reading] 0).1.
Proof.
  apply (evaluate_preserves_windows engine_new [demo_rule] [demo_reading] 0).
  - apply map_Forall_empty.
  - intros k [e He]. unfold engine_new in He. by rewrite lookup_empty in He.
Defined.

Lemma refill_after_fire_witness :
  (eval_run (eval_one demo_state demo_rule demo_reading 2).1 demo_rule
     [(demo_reading, 400%Z); (demo_reading, 401%Z)]).2 = [].
Proof.
  apply (refill_after_fire demo_state demo_rule demo_reading 2
           (make_alert demo_rule demo_reading (f64_of_Z 95))).
  - unfold demo_state, evaluate. apply eval_pairs_wf, eval_pairs_wf, map_Forall_empty.
  - simpl. lia.
  - vm_compute. reflexivity.
  - intros p Hp. rewrite !elem_of_cons, elem_of_nil in Hp.
    destruct Hp as [->|[->|[]]]; reflexivity.
  - simpl. lia.
Defined.
