(* ===== verification/AlertService.v ===== *)
(** * The alert rules table and the alert service

    [src/db/repository/alert_rule.rs] over the [alert_rules] table of migration
    0015, and [src/services/alert/service.rs]: the cached rule list, the readings collected
    from the monitoring service, and one evaluation pass with maintenance
    suppression.  The notification channel is the list of deliveries the pass asks
    for; JSON decoding ([serde_json]) and the maintenance query are parameters. *)

From stdpp Require Import gmap strings list.
From Stdlib Require Import ZArith Lia Ascii.
From S2P Require Import Prelude RustStr F64 Sql AlertTypes AlertEngine.

Definition EVALUATION_INTERVAL_SECS : Z := 10.

(** ** The table *)

(** SQLite's [trim(X)] removes spaces only; [length(X)] counts characters. *)
Fixpoint drop_spaces (s : list ascii) : list ascii :=
  match s with
  | c :: s' => if bool_decide (c = " "%char) then drop_spaces s' else s
  | [] => []
  end.
Definition sqlite_trim (s : list ascii) : list ascii := rev (drop_spaces (rev (drop_spaces s))).
Definition utf8_length (s : list ascii) : nat :=
  length (List.filter (λ c, negb ((128 <=? N_of_ascii c) && (N_of_ascii c <? 192))%N) s).

Definition alert_rule_check (r : AlertRule) : bool :=
  let n := utf8_length (sqlite_trim (Stdlib.Strings.String.list_ascii_of_string (ar_name r))) in
  bool_decide (1 ≤ n ≤ 255)
  && bool_decide (ar_target_type r ∈ ["SERVER"; "APPLICATION"; "DATABASE"; "COMPOSE"])
  && (0 <=? ar_target_id r)%Z
  && bool_decide (ar_metric_name r ∈ ["CPU"; "MEMORY"; "DISK"])
  && bool_decide (ar_operator r ∈ ["GT"; "GTE"; "LT"; "LTE"; "EQ"])
  && f64_leb (f64_of_Z 0) (ar_threshold r) && f64_leb (ar_threshold r) (f64_of_Z 100)
  && (0 <=? ar_duration_seconds r)%Z && (ar_duration_seconds r <=? 86400)%Z
  && bool_decide (ar_notification_channel r = "SYSTEM")
  && bool_decide (ar_enabled r ∈ [0%Z; 1%Z]).

#[export] Instance AlertRule_schema : Schema AlertRule := {|
  row_id r := default 0%Z (ar_id r);
  row_check := alert_rule_check;
  row_conflict _ _ := false;
|}.

#[export] Instance AlertRule_schema_laws : SchemaLaws AlertRule.
Proof. by split. Qed.

(** [ORDER BY created_at DESC] *)
Definition newest_first (a b : AlertRule) : bool := (ar_created_at b <=? ar_created_at a)%Z.

Definition alert_list (t : Table AlertRule) : list AlertRule :=
  sql_order_by newest_first (rows t).

Definition alert_list_by_organization (t : Table AlertRule) (org : Z) : list AlertRule :=
  sql_order_by newest_first (sql_select (λ r, (ar_organization_id r =? org)%Z) t).

Definition alert_get_by_id (t : Table AlertRule) (id : Z) : option AlertRule :=
  sql_first (λ r, (row_id r =? id)%Z) t.

Definition alert_get_by_id_for_organization (t : Table AlertRule) (id org : Z) : option AlertRule :=
  sql_first (λ r, (row_id r =? id)%Z && (ar_organization_id r =? org)%Z) t.

(** [orgs] holds the ids of the [organization] table, the foreign key. *)
Definition alert_create (orgs : list Z) (now : Z) (rule : AlertRule) (t : Table AlertRule)
    : result (Table AlertRule * Z) SqlError :=
  sql_insert (λ r, bool_decide (ar_organization_id r ∈ orgs))
    (λ id, mkAlertRule (Some id) (ar_name rule) (ar_target_type rule) (ar_target_id rule)
       (ar_metric_name rule) (ar_operator rule) (ar_threshold rule) (ar_duration_seconds rule)
       (ar_notification_channel rule) (ar_enabled rule) (ar_organization_id rule) now now) t.

Definition alert_update (now id : Z) (rule : AlertRule) (t : Table AlertRule)
    : result (Table AlertRule) SqlError :=
  let? (t', _) :=
    sql_update no_fk
      (λ r, (row_id r =? id)%Z && (ar_organization_id r =? ar_organization_id rule)%Z)
      (λ r, mkAlertRule (ar_id r) (ar_name rule) (ar_target_type rule) (ar_target_id rule)
         (ar_metric_name rule) (ar_operator rule) (ar_threshold rule) (ar_duration_seconds rule)
         (ar_notification_channel rule) (ar_enabled rule) (ar_organization_id r)
         (ar_created_at r) now) t in
  Ok t'.

Definition alert_delete (id org : Z) (t : Table AlertRule) : Table AlertRule * bool :=
  let '(t', n) :=
    sql_delete (λ r, (row_id r =? id)%Z && (ar_organization_id r =? org)%Z) t in
  (t', bool_decide (0 < n)).

(** ** The service *)

(** The fields of the service that change. *)
Record AlertServiceState := mkService {
  svc_rules : Table AlertRule;             (* the [alert_rules] table *)
  svc_cache : option (list ParsedRule);    (* [rules_cache] *)
  svc_engine : EngineState;
}.

(** The parsed rules of a list of rows: disabled and malformed rows are skipped. *)
Fixpoint parse_rows (rows : list AlertRule) : list ParsedRule :=
  match rows with
  | [] => []
  | row :: rows' =>
      match from_row row EVALUATION_INTERVAL_SECS with
      | Ok (Some parsed) => parsed :: parse_rows rows'
      | Ok None => parse_rows rows'
      | Err _ => parse_rows rows'
      end
  end.

(** The two halves of filling the cache, between which the lock is not held: the
    query with the parsing of its rows, and the write. *)
Definition load_rules (s : AlertServiceState) : list ParsedRule :=
  parse_rows (alert_list (svc_rules s)).
Definition store_rules (rules : list ParsedRule) (s : AlertServiceState) : AlertServiceState :=
  mkService (svc_rules s) (Some rules) (svc_engine s).

(** [invalidate_rules_cache] *)
Definition invalidate_rules_cache (s : AlertServiceState) : AlertServiceState :=
  mkService (svc_rules s) None (svc_engine s).

Definition create_rule (orgs : list Z) (now : Z) (rule : AlertRule) (s : AlertServiceState)
    : AlertServiceState * result Z SqlError :=
  match alert_create orgs now rule (svc_rules s) with
  | Ok (t, id) => (invalidate_rules_cache (mkService t (svc_cache s) (svc_engine s)), Ok id)
  | Err e => (s, Err e)
  end.

Definition update_rule (now id : Z) (rule : AlertRule) (s : AlertServiceState)
    : AlertServiceState * result unit SqlError :=
  match alert_update now id rule (svc_rules s) with
  | Ok t => (invalidate_rules_cache (mkService t (svc_cache s) (svc_engine s)), Ok tt)
  | Err e => (s, Err e)
  end.

Definition delete_rule (id org : Z) (s : AlertServiceState) : AlertServiceState * bool :=
  let '(t, removed) := alert_delete id org (svc_rules s) in
  let s' := mkService t (svc_cache s) (svc_engine s) in
  (if removed then invalidate_rules_cache s' else s', removed).

(** *** Readings *)

Record HostMetric := mkHostMetric {
  hm_server_id : Z;
  hm_cpu : f64;
  hm_mem_used : f64;
  hm_disk_used : f64;
  hm_distro : string;
  hm_timestamp : option Z;
}.

Record ContainerMetric := mkContainerMetric {
  cm_application_id : option Z;
  cm_compose_id : option Z;
  cm_container_name : string;
  cm_server_id : Z;
  cm_timestamp : Z;
  cm_metrics_json : string;
}.

Definition SAMPLE_TTL_SECS : Z := EVALUATION_INTERVAL_SECS * 3.

Definition host_reading (m : HostMetric) : TargetReading :=
  {| tr_kind := TkServer;
     tr_key := i64_to_string (hm_server_id m);
     tr_display_name :=
       if str_is_empty (hm_distro m) then "server " +:+ i64_to_string (hm_server_id m)
       else hm_distro m;
     tr_sample := mkSample (hm_cpu m) (hm_mem_used m) (hm_disk_used m) |}.

Definition host_is_fresh (now : Z) (m : HostMetric) : bool :=
  match hm_timestamp m with
  | Some t => (i64_saturating_sub now t <=? SAMPLE_TTL_SECS)%Z
  | None => false
  end.

Definition host_readings (now : Z) (metrics : list HostMetric) : list TargetReading :=
  map host_reading
    (List.filter (host_is_fresh now) metrics).

(** What [MonitoringService] answers: the latest host and container metrics, each
    with the time at which the reading function looks at the clock. *)
Record Feed := mkFeed {
  feed_hosts : result (list HostMetric) string;
  feed_hosts_now : Z;
  feed_containers : result (list ContainerMetric) string;
  feed_containers_now : Z;
}.

Section service.
(** [serde_json::from_str] followed by [get(field)] and [as_f64]: [None] when the
    text is not JSON, otherwise the numeric fields. *)
Context (json_f64 : string → option (string → option f64)).
(** [MonitoringLifecycleRepository::is_in_maintenance], an error counting as no *)
Context (is_in_maintenance : Z → Z → bool).
Definition container_reading (m : ContainerMetric) : option TargetReading :=
  match (match cm_application_id m with
         | Some id => Some (TkApplication, id)
         | None => match cm_compose_id m with
                   | Some id => Some (TkCompose, id)
                   | None => None
                   end
         end) with
  | None => None
  | Some (kind, target_id) =>
      match json_f64 (cm_metrics_json m) with
      | None => None
      | Some field => Some
          {| tr_kind := kind;
             tr_key := i64_to_string target_id;
             tr_display_name := cm_container_name m +:+ " (server "
                                  +:+ i64_to_string (cm_server_id m) +:+ ")";
             tr_sample := mkSample (default (f64_of_Z 0) (field "cpu_percent"))
                                   (default (f64_of_Z 0) (field "memory_percent"))
                                   (f64_of_Z 0) |}
      end
  end.

Definition container_readings (now : Z) (metrics : list ContainerMetric) : list TargetReading :=
  omap container_reading
    (List.filter (λ m, (i64_saturating_sub now (cm_timestamp m) <=? SAMPLE_TTL_SECS)%Z) metrics).

Definition collect_readings (f : Feed) : result (list TargetReading) string :=
  let? hosts := feed_hosts f in
  let readings := host_readings (feed_hosts_now f) hosts in
  let? containers := feed_containers f in
  Ok (readings ++ container_readings (feed_containers_now f) containers).

(** A delivery: the tenant and the alert. *)
Definition delivered (a : FiredAlert) : bool :=
  match fa_target_kind a with
  | TkServer =>
      negb (is_in_maintenance (fa_organization_id a) (default 0%Z (parse_i64 (fa_target_key a))))
  | _ => true
  end.

(** One pass: the state after it, the number of alerts, and what is delivered. *)
Definition evaluate_once (s : AlertServiceState) (feed : Feed) (now : Z) : AlertServiceState * result (nat * list (Z * FiredAlert)) string :=
  let '(s1, rules) := match svc_cache s with
                      | Some rules => (s, rules)
                      | None => (store_rules (load_rules s) s, load_rules s)
                      end in
  match rules with
  | [] => (mkService (svc_rules s1) (svc_cache s1) (retain_rules (svc_engine s1) []), Ok (0, []))
  | _ :: _ =>
      match collect_readings feed with
      | Err e => (s1, Err e)
      | Ok [] => (s1, Ok (0, []))
      | Ok rs =>
          let '(engine, fired) := evaluate (retain_rules (svc_engine s1) rules) rules rs now in
          (mkService (svc_rules s1) (svc_cache s1) engine,
           Ok (length fired,
               map (λ a, (fa_organization_id a, a)) (List.filter delivered fired)))
      end
  end.

(** *** Lemmas *)

(** Every rule the engine sees comes from an enabled row of the table. *)
Lemma parse_rows_elem rows r :
  r ∈ parse_rows rows ↔ ∃ row, row ∈ rows ∧ from_row row EVALUATION_INTERVAL_SECS = Ok (Some r).
Proof.
  induction rows as [|row rows IH]; simpl.
  - split; [by intros ?%elem_of_nil | by intros (? & ?%elem_of_nil & _)].
  - assert (r ∈ parse_rows rows → ∃ row', row' ∈ row :: rows
              ∧ from_row row' EVALUATION_INTERVAL_SECS = Ok (Some r)) as Hin.
    { intros (row' & Hr & Hf)%IH. exists row'. split; [by apply elem_of_cons; right | done]. }
    assert (∀ row', row' ∈ rows → from_row row' EVALUATION_INTERVAL_SECS = Ok (Some r) →
              r ∈ parse_rows rows) as Hback by (intros row' ? ?; apply IH; eauto).
    destruct (from_row row _) as [[p|]|e] eqn:E; split;
      try (intros (row' & [->|Hr]%elem_of_cons & Hf); [congruence | by eauto]); auto.
    + intros [->|Hr]%elem_of_cons; [|auto]. exists row. split; [by apply elem_of_cons; left | done].
    + intros (row' & [->|Hr]%elem_of_cons & Hf); apply elem_of_cons; [left; congruence | eauto].
Qed.

(** The cache, when filled, is what parsing the table gives. *)
Definition cache_coherent (s : AlertServiceState) : Prop :=
  ∀ rules, svc_cache s = Some rules → rules = load_rules s.

Lemma from_row_cooldown row r :
  from_row row EVALUATION_INTERVAL_SECS = Ok (Some r) →
  (1 ≤ pr_cooldown_seconds r)%Z ∧ pr_organization_id r = ar_organization_id row
  ∧ ar_enabled row ≠ 0%Z ∧ ar_id row = Some (pr_id r).
Proof.
  intros H. pose proof (from_row_fields row EVALUATION_INTERVAL_SECS) as Hs.
  rewrite H in Hs. destruct Hs as (? & ? & _ & _ & _ & _ & ? & _ & [? _]). auto.
Qed.

(** A server reading is that of a fresh host metric, never of a container. *)
Lemma server_reading_host (f : Feed) rs rd :
  collect_readings f = Ok rs → rd ∈ rs → tr_kind rd = TkServer →
  ∃ hosts m, feed_hosts f = Ok hosts ∧ m ∈ hosts ∧ rd = host_reading m
    ∧ host_is_fresh (feed_hosts_now f) m = true.
Proof.
  unfold collect_readings. destruct (feed_hosts f) as [hosts|]; [simpl|done].
  destruct (feed_containers f) as [cs|]; [simpl|done]. intros [= <-] Hin Hk.
  apply elem_of_app in Hin as [Hin|Hin].
  - apply elem_of_mapb in Hin as (m & -> & Hm). apply elem_of_filterb in Hm as [Hm Hf]. eauto 6.
  - exfalso. apply list_elem_of_omap in Hin as (m & _ & Hm). unfold container_reading in Hm.
    destruct (cm_application_id m), (cm_compose_id m), (json_f64 (cm_metrics_json m));
      simplify_eq.
Qed.

(** The state a pass starts from: the cache is filled with the parsed table. *)
Lemma evaluate_once_filled (s : AlertServiceState) feed now :
  cache_coherent s →
  evaluate_once s feed now = evaluate_once (store_rules (load_rules s) s) feed now.
Proof.
  intros Hcoh. unfold evaluate_once. simpl. destruct (svc_cache s) as [rules|] eqn:E; [|done].
  rewrite <- (Hcoh rules E). unfold store_rules. rewrite <- E. by destruct s.
Qed.

(** What the engine fires in a pass over the parsed rows of the table. *)
Lemma fired_from_rows (t : Table AlertRule) st rs now a :
  a ∈ (evaluate st (parse_rows (alert_list t)) rs now).2 →
  ∃ row rd, row ∈ rows t ∧ rd ∈ rs ∧ ar_enabled row ≠ 0%Z ∧ ar_id row = Some (fa_rule_id a)
    ∧ ar_organization_id row = fa_organization_id a
    ∧ fa_target_key a = tr_key rd ∧ fa_target_kind a = tr_kind rd.
Proof.
  set (rules := parse_rows (alert_list t)). intros Ha.
  assert (∀ r, r ∈ rules → ∃ row, row ∈ rows t
            ∧ from_row row EVALUATION_INTERVAL_SECS = Ok (Some r)) as Hrules.
  { intros r (row & Hrow & Hr)%parse_rows_elem. apply sql_order_by_elem in Hrow. eauto. }
  assert (cooldowns_positive (loop_pairs rules rs)) as Hpos.
  { intros p [(row & _ & Hp%from_row_cooldown)%Hrules _]%loop_pairs_elem. tauto. }
  destruct (eval_pairs_fired (loop_pairs rules rs) st now Hpos) as (Hj & _).
  destruct (Hj a Ha) as (rule & rd & [Hr Hrd]%loop_pairs_elem & -> & _). simpl in *.
  destruct (Hrules rule Hr) as (row & Hrow & (_ & Horg & Hen & Hid)%from_row_cooldown).
  exists row, rd. auto 9.
Qed.

(** ** The property *)

(** Every notification of an alert pass goes to the organization of an enabled rule row, for a
    collected reading; a server alert comes from a fresh host metric of a server that is not
    under maintenance, and the pass leaves the rule cache equal to the parsed table. *)
Theorem evaluate_once_tenant_scoped (s : AlertServiceState) (feed : Feed) (now : Z)
    (s' : AlertServiceState) (n : nat) (out : list (Z * FiredAlert))
    (Hcoh : cache_coherent s)
    (Hrun : evaluate_once s feed now = (s', Ok (n, out))) :
  cache_coherent s' ∧ length out ≤ n
  ∧ ∀ org a, (org, a) ∈ out → ∃ row rd rs,
      row ∈ rows (svc_rules s) ∧ collect_readings feed = Ok rs ∧ rd ∈ rs
      ∧ ar_enabled row ≠ 0%Z ∧ ar_id row = Some (fa_rule_id a)
      ∧ ar_organization_id row = org ∧ fa_organization_id a = org
      ∧ fa_target_key a = tr_key rd ∧ fa_target_kind a = tr_kind rd
      ∧ (tr_kind rd = TkServer → ∃ hosts m,
           feed_hosts feed = Ok hosts ∧ m ∈ hosts ∧ rd = host_reading m
           ∧ host_is_fresh (feed_hosts_now feed) m = true
           ∧ (in_i64 (hm_server_id m) = true → is_in_maintenance org (hm_server_id m) = false)).
Proof.
  rewrite evaluate_once_filled in Hrun by done. unfold evaluate_once in Hrun. simpl in Hrun.
  destruct (load_rules s) as [|r0 rules0] eqn:Er.
  { injection Hrun as <- <- <-. split_and!; [by intros ? [= <-] | simpl; lia | set_solver]. }
  destruct (collect_readings feed) as [[|rd0 rs0]|e] eqn:Efeed; [| |discriminate].
  { injection Hrun as <- <- <-. split_and!; [by intros ? [= <-] | simpl; lia | set_solver]. }
  rewrite <- Er in *. clear Er r0 rules0. set (rs := rd0 :: rs0) in *.
  pose proof (fired_from_rows (svc_rules s) (retain_rules (svc_engine s) (load_rules s)) rs now) as Hf.
  fold (load_rules s) in Hf. destruct (evaluate _ _ _ _) as [engine fired] eqn:Ee.
  simpl in Hf. injection Hrun as <- <- <-.
  split_and!; [by intros ? [= <-] | rewrite length_map; apply filterb_length_le |].
  intros org a (a' & [= -> ->] & [Hin Hdel]%elem_of_filterb)%elem_of_mapb.
  destruct (Hf a' Hin) as (row & rd & ? & ? & ? & ? & ? & Hkey & Hkind).
  exists row, rd, rs. split_and!; auto. intros Hk.
  destruct (server_reading_host feed rs rd) as (hosts & m & ? & ? & -> & ?); [done..|].
  exists hosts, m. split_and!; auto. intros Hm. unfold delivered in Hdel.
  rewrite Hkind, Hk, Hkey in Hdel. simpl in Hdel. rewrite parse_i64_to_string in Hdel by done.
  simpl in Hdel. by bsimp.
Qed.
End service.

(** ** The operations on rules keep the table and the cache right *)

Lemma alert_update_wf now id rule t t' :
  table_wf t → alert_update now id rule t = Ok t' → table_wf t'.
Proof.
  unfold alert_update. intros Hwf. destruct (sql_update _ _ _ _) as [[t1 n]|] eqn:E; [|done].
  intros [= <-]. eapply sql_update_wf; [done| |exact E]. done.
Qed.

(** A delete that removes nothing leaves the table as it was. *)
Lemma alert_delete_none id org t :
  (alert_delete id org t).2 = false → (alert_delete id org t).1 = t.
Proof.
  unfold alert_delete, sql_delete; simpl. intros Hn. bsimp.
  assert (∀ r, r ∈ rows t →
    ((row_id r =? id)%Z && (ar_organization_id r =? org)%Z) = false) as Hf.
  { intros r Hr. destruct (_ && _) eqn:E; [|done]. exfalso.
    assert (r ∈ List.filter (λ r, (row_id r =? id)%Z && (ar_organization_id r =? org)%Z) (rows t))
      as Hin by (by apply elem_of_filterb).
    destruct (List.filter _ _); [by apply elem_of_nil in Hin | simpl in Hn; lia]. }
  destruct t as [l q]; simpl in *. f_equal.
  induction l as [|r l IH]; simpl; [done|].
  rewrite (Hf r) by set_solver. simpl. f_equal. apply IH; [|set_solver].
  intros Hlt. apply Hn. simpl. rewrite (Hf r) by set_solver. done.
Qed.

(** Creating, updating and deleting an alert rule keep the table's constraints and leave the
    cache either empty or equal to the parsed table. *)
Theorem rule_operations_keep_cache (orgs : list Z) (now id org : Z) (rule : AlertRule)
    (s : AlertServiceState) (Hwf : table_wf (svc_rules s)) (Hcoh : cache_coherent s) :
  (table_wf (svc_rules (create_rule orgs now rule s).1) ∧ cache_coherent (create_rule orgs now rule s).1)
  ∧ (table_wf (svc_rules (update_rule now id rule s).1) ∧ cache_coherent (update_rule now id rule s).1)
  ∧ (table_wf (svc_rules (delete_rule id org s).1) ∧ cache_coherent (delete_rule id org s).1).
Proof.
  unfold create_rule, update_rule, delete_rule. split_and!.
  - destruct (alert_create _ _ _ _) as [[t i]|] eqn:E; simpl; [|done].
    eapply sql_insert_wf; [done| |exact E]. done.
  - destruct (alert_create _ _ _ _) as [[t i]|] eqn:E; simpl; [by intros ?|done].
  - destruct (alert_update _ _ _ _) as [t|] eqn:E; simpl; eauto using alert_update_wf.
  - destruct (alert_update _ _ _ _) as [t|] eqn:E; simpl; [by intros ?|done].
  - pose proof (sql_delete_wf (λ r, (row_id r =? id)%Z && (ar_organization_id r =? org)%Z)
      (svc_rules s) Hwf) as Hd.
    unfold alert_delete. destruct (sql_delete _ _) as [t n]. simpl in *.
    by destruct (bool_decide _).
  - pose proof (alert_delete_none id org (svc_rules s)) as Hn.
    destruct (alert_delete id org (svc_rules s)) as [t removed]. simpl in *.
    destruct removed; [by intros ?|]. rewrite Hn by done. by destruct s.
Qed.

(** *** Two tasks: an evaluation pass and a deletion

    The pass reads the rows before it takes the write lock of the cache, so a
    deletion that commits and invalidates in between is overwritten. *)

Lemma alert_delete_removes id org t r :
  r ∈ rows (alert_delete id org t).1 → row_id r = id → ar_organization_id r = org → False.
Proof.
  unfold alert_delete, sql_delete. simpl. intros [_ Hf]%elem_of_filterb <- <-.
  by rewrite !Z.eqb_refl in Hf.
Qed.

(** If a rule is deleted after an evaluation pass has read the rows and before it stores them,
    the cache keeps the deleted rule after the deletion's invalidation, and the following passes
    go on using it. *)
Theorem concurrent_deletion_leaves_a_stale_cache (s : AlertServiceState) (id org : Z)
    (r : AlertRule) (p : ParsedRule)
    (Hr : r ∈ rows (svc_rules s)) (Hid : ar_id r = Some id) (Horg : ar_organization_id r = org)
    (Hp : from_row r EVALUATION_INTERVAL_SECS = Ok (Some p)) :
  let rules := load_rules s in
  let s1 := (delete_rule id org s).1 in
  let s2 := store_rules rules s1 in
  (delete_rule id org s).2 = true ∧ svc_cache s1 = None
  ∧ p ∈ rules ∧ svc_cache s2 = Some rules
  ∧ (∀ x, x ∈ rows (svc_rules s2) → row_id x = id → ar_organization_id x ≠ org)
  ∧ ∀ json maint feed now, svc_cache (evaluate_once json maint s2 feed now).1 = Some rules.
Proof.
  pose proof (alert_delete_removes id org (svc_rules s)) as Hgone.
  pose proof (λ H, alert_delete_none id org (svc_rules s) H) as Hnone.
  unfold delete_rule. destruct (alert_delete id org (svc_rules s)) as [t removed]. simpl in *.
  assert (row_id r = id) as Hrow by (simpl; by rewrite Hid).
  destruct removed; [|exfalso; apply (Hgone r); [by rewrite Hnone | done..]].
  split_and!; try done.
  - apply parse_rows_elem. exists r. split; [by apply sql_order_by_elem | done].
  - intros json maint feed now. unfold evaluate_once. simpl.
    destruct (load_rules s); [done|]. destruct (collect_readings _ _) as [[|]|]; [done| |done].
    by destruct (evaluate _ _ _ _).
Qed.

(** Each literal the CHECK constraints admit is one the parsers accept. *)
Ltac literal_cases H :=
  repeat (apply elem_of_cons in H as [->|H]; [eexists; vm_compute; reflexivity|]);
  by apply elem_of_nil in H.

Lemma target_literals_parse s :
  s ∈ ["SERVER"; "APPLICATION"; "DATABASE"; "COMPOSE"] → ∃ k, target_from_str s = Ok k.
Proof. intros H. literal_cases H. Qed.
Lemma metric_literals_parse s : s ∈ ["CPU"; "MEMORY"; "DISK"] → ∃ k, metric_from_str s = Ok k.
Proof. intros H. literal_cases H. Qed.
Lemma operator_literals_parse s :
  s ∈ ["GT"; "GTE"; "LT"; "LTE"; "EQ"] → ∃ k, operator_from_str s = Ok k.
Proof. intros H. literal_cases H. Qed.

(** Every row that satisfies the table's constraints parses, and gives a rule exactly when it is
    enabled, so the evaluation never skips a stored rule as malformed. *)
Theorem stored_rules_always_parse (t : Table AlertRule) (r : AlertRule) (interval : Z)
    (Hwf : table_wf t) (Hr : r ∈ rows t) (Hid : is_Some (ar_id r)) :
  ∃ o, from_row r interval = Ok o ∧ (o = None ↔ ar_enabled r = 0%Z).
Proof.
  pose proof (wf_check t Hwf r Hr) as Hc. simpl in Hc. unfold alert_rule_check in Hc. bsimp.
  destruct Hid as [id Hid]. unfold from_row, rule_flag_from_flag.
  destruct (ar_enabled r =? 0)%Z eqn:He; simpl; bsimp; [by exists None|].
  rewrite Hid. simpl.
  destruct (target_literals_parse (ar_target_type r)) as [k ->]; [done|].
  destruct (metric_literals_parse (ar_metric_name r)) as [m ->]; [done|].
  destruct (operator_literals_parse (ar_operator r)) as [o ->]; [done|]. simpl.
  eexists. split; [reflexivity | done].
Qed.

(** ** Witnesses *)

Definition demo_row : AlertRule :=
  mkAlertRule (Some 1%Z) "high cpu" "SERVER" 0 "CPU" "GT" (f64_of_Z 80) 10 "SYSTEM" 1 42 0 0.
Definition demo_table : Table AlertRule := mkTable [demo_row] 1.
Definition demo_service : AlertServiceState := mkService demo_table None engine_new.
Definition demo_feed : Feed :=
  mkFeed (Ok [mkHostMetric 7 (f64_of_Z 95) (f64_of_Z 10) (f64_of_Z 10) "debian" (Some 100%Z)]) 110
         (Ok []) 110.
(** Server 8 is under maintenance. *)
Definition demo_maintenance (org server : Z) : bool := (server =? 8)%Z.

Lemma demo_table_wf : table_wf demo_table.
Proof.
  constructor; simpl.
  - repeat constructor. set_solver.
  - intros r ->%list_elem_of_singleton. simpl. lia.
  - intros r ->%list_elem_of_singleton. vm_compute. reflexivity.
  - done.
Qed.

Lemma evaluate_once_witness :
  let '(s', r) := evaluate_once (λ _, None) demo_maintenance demo_service demo_feed 110 in
  cache_coherent s' ∧ ∃ a, r = Ok (1, [(42%Z, a)]).
Proof.
  destruct (evaluate_once _ _ _ _ _) as [s' r] eqn:E.
  assert (r = (evaluate_once (λ _, None) demo_maintenance demo_service demo_feed 110).2) as Hr
    by (by rewrite E).
  vm_compute in Hr. subst r.
  split; [|by eexists].
  eapply (evaluate_once_tenant_scoped (λ _, None) demo_maintenance demo_service demo_feed 110);
    [|exact E].
  intros rules Hc. discriminate Hc.
Defined.

Lemma rule_operations_witness :
  cache_coherent (create_rule [42%Z] 5 demo_row demo_service).1
  ∧ (create_rule [42%Z] 5 demo_row demo_service).2 = Ok 2%Z.
Proof.
  split; [|vm_compute; reflexivity].
  apply (rule_operations_keep_cache [42%Z] 5 1 42 demo_row demo_service);
    [apply demo_table_wf | intros rules Hc; discriminate Hc].
Defined.

Lemma stored_rules_witness : ∃ o, from_row demo_row 10 = Ok o ∧ (o = None ↔ ar_enabled demo_row = 0%Z).
Proof.
  apply (stored_rules_always_parse demo_table demo_row 10);
    [apply demo_table_wf | by apply list_elem_of_singleton | by eexists].
Defined.

Lemma stale_cache_witness :
  ∃ p, from_row demo_row EVALUATION_INTERVAL_SECS = Ok (Some p)
  ∧ svc_rules (delete_rule 1 42 demo_service).1 = mkTable [] 1 ∧ p ∈ load_rules demo_service.
Proof.
  eexists. split; [vm_compute; reflexivity|]. split; [vm_compute; reflexivity|].
  apply (concurrent_deletion_leaves_a_stale_cache demo_service 1 42 demo_row);
    [by apply list_elem_of_singleton | done | done | vm_compute; reflexivity].
Defined.
