(* ===== verification/DeploymentDb.v ===== *)
(** * The deployment repository

    [src/db/repository/deployments.rs] over the tables of the migrations: the
    [deployments] table (0003, 0005), the resources it points at ([applications],
    [compose_projects], the six database tables of 0001), the previews (0018) and
    rollbacks that point at it, and the environments and projects that say which
    organization owns a resource.  Rows carry the columns these statements read or
    write.  Every method of the repository is a definition; a method that writes
    returns the new database, and on an error the caller keeps the old one. *)

From stdpp Require Import gmap strings list sorting.
From Stdlib Require Import ZArith Lia.
From S2P Require Import Prelude RustStr StringEnum Sql.

(** ** Rows *)

Record Deployment := mkDeployment {
  d_id : Z;
  d_title : string;
  d_description : option string;
  d_status : string;
  d_state : string;
  d_log_path : string;
  d_pid : option string;
  d_error_message : option string;
  d_operation : option string;
  d_is_preview : Z;
  d_started_at : option Z;
  d_last_state_at : option Z;
  d_finished_at : option Z;
  d_application_id : option Z;
  d_compose_id : option Z;
  d_server_id : option Z;
  d_created_at : Z;
  d_database_id : option Z;
  d_database_kind : option string;
}.

Record Application := mkApplication {
  a_id : Z; a_name : string; a_app_name : string; a_app_status : string;
  a_environment_id : Z; a_server_id : option Z;
}.

Record ComposeProject := mkCompose {
  c_id : Z; c_name : string; c_app_name : string; c_compose_status : string;
  c_environment_id : Z; c_server_id : option Z;
}.

Record DatabaseRow := mkDatabase {
  b_id : Z; b_name : string; b_app_name : string; b_app_status : string;
  b_environment_id : Z; b_server_id : option Z;
  b_memory_limit : option string; b_cpu_limit : option string;
}.

Record Preview := mkPreview {
  p_id : Z; p_status : string; p_last_deployment_id : option Z; p_updated_at : Z;
}.

Record Rollback := mkRollback { rb_id : Z; rb_deployment_id : Z }.

Record Environment := mkEnvironment { e_id : Z; e_project_id : Z }.
Record Project := mkProject { pj_id : Z; pj_organization_id : Z }.

(** ** Schemas *)

Definition deployment_status_check (s : string) : bool :=
  bool_decide (s ∈ ["QUEUED"; "RUNNING"; "DONE"; "ERROR"; "CANCELLED"]).

(** [status IN ('QUEUED', 'RUNNING')] *)
Definition is_active (d : Deployment) : bool := bool_decide (d_status d ∈ ["QUEUED"; "RUNNING"]).

(** SQL equality with a NULL-able column: NULL is never equal. *)
Definition col_is (c : option Z) (v : Z) : bool :=
  match c with Some x => (x =? v)%Z | None => false end.
Definition same_col (c1 c2 : option Z) : bool :=
  match c1, c2 with Some x, Some y => (x =? y)%Z | _, _ => false end.

(** The two partial unique indexes: one active deployment per application and per
    compose project. *)
Definition deployment_conflict (d1 d2 : Deployment) : bool :=
  is_active d1 && is_active d2
  && (same_col (d_application_id d1) (d_application_id d2)
      || same_col (d_compose_id d1) (d_compose_id d2)).

#[export] Instance Deployment_schema : Schema Deployment := {|
  row_id := d_id;
  row_check d := deployment_status_check (d_status d);
  row_conflict := deployment_conflict;
|}.

Definition resource_status_check (s : string) : bool :=
  bool_decide (s ∈ ["IDLE"; "RUNNING"; "DONE"; "ERROR"]).

Definition database_status_check (s : string) : bool :=
  bool_decide (s ∈ ["IDLE"; "RUNNING"; "DONE"; "ERROR"; "QUEUED"; "STARTING"; "STOPPING";
                    "STOPPED"; "BUILDING"; "DEPLOYING"; "REBUILDING"; "REDEPLOYING";
                    "CANCELLING"; "CANCELLED"; "HEALTHY"; "OK"; "SUCCESS"; "FAILED"]).

#[export] Instance Application_schema : Schema Application := {|
  row_id := a_id;
  row_check a := resource_status_check (a_app_status a);
  row_conflict a1 a2 := bool_decide (a_app_name a1 = a_app_name a2);
|}.

#[export] Instance ComposeProject_schema : Schema ComposeProject := {|
  row_id := c_id;
  row_check c := resource_status_check (c_compose_status c);
  row_conflict c1 c2 := bool_decide (c_app_name c1 = c_app_name c2);
|}.

#[export] Instance DatabaseRow_schema : Schema DatabaseRow := {|
  row_id := b_id;
  row_check b := database_status_check (b_app_status b);
  row_conflict b1 b2 := bool_decide (b_app_name b1 = b_app_name b2);
|}.

#[export] Instance Preview_schema : Schema Preview := {|
  row_id := p_id;
  row_check p := bool_decide (p_status p ∈ ["QUEUED"; "ACTIVE"; "ERROR"; "CLOSED"]);
  row_conflict _ _ := false;
|}.

#[export] Instance Rollback_schema : Schema Rollback := {|
  row_id := rb_id; row_check _ := true; row_conflict _ _ := false;
|}.

Lemma same_col_sym c1 c2 : same_col c1 c2 = same_col c2 c1.
Proof. destruct c1, c2; simpl; [apply Z.eqb_sym | done..]. Qed.

#[export] Instance Deployment_schema_laws : SchemaLaws Deployment.
Proof.
  split. intros d1 d2. simpl. unfold deployment_conflict.
  rewrite (same_col_sym (d_application_id d1)), (same_col_sym (d_compose_id d1)).
  by rewrite (andb_comm (is_active d1)).
Qed.
#[export] Instance Application_schema_laws : SchemaLaws Application.
Proof. split. intros a1 a2. simpl. apply bool_decide_ext. naive_solver. Qed.
#[export] Instance ComposeProject_schema_laws : SchemaLaws ComposeProject.
Proof. split. intros a1 a2. simpl. apply bool_decide_ext. naive_solver. Qed.
#[export] Instance DatabaseRow_schema_laws : SchemaLaws DatabaseRow.
Proof. split. intros a1 a2. simpl. apply bool_decide_ext. naive_solver. Qed.
#[export] Instance Preview_schema_laws : SchemaLaws Preview.
Proof. by split. Qed.
#[export] Instance Rollback_schema_laws : SchemaLaws Rollback.
Proof. by split. Qed.

(** ** The database *)

Record Db := mkDb {
  deployments : Table Deployment;
  applications : Table Application;
  compose_projects : Table ComposeProject;
  databases : DatabaseKind → Table DatabaseRow;   (* one table per kind *)
  previews : Table Preview;
  rollbacks : Table Rollback;
  environments : list Environment;
  projects : list Project;
  servers : list Z;
}.

Definition with_deployments (t : Table Deployment) (db : Db) : Db :=
  mkDb t (applications db) (compose_projects db) (databases db) (previews db) (rollbacks db)
    (environments db) (projects db) (servers db).
Definition with_applications (t : Table Application) (db : Db) : Db :=
  mkDb (deployments db) t (compose_projects db) (databases db) (previews db) (rollbacks db)
    (environments db) (projects db) (servers db).
Definition with_compose (t : Table ComposeProject) (db : Db) : Db :=
  mkDb (deployments db) (applications db) t (databases db) (previews db) (rollbacks db)
    (environments db) (projects db) (servers db).
Definition with_database (k : DatabaseKind) (t : Table DatabaseRow) (db : Db) : Db :=
  mkDb (deployments db) (applications db) (compose_projects db)
    (λ k', if decide (k' = k) then t else databases db k') (previews db) (rollbacks db)
    (environments db) (projects db) (servers db).
Definition with_previews (t : Table Preview) (db : Db) : Db :=
  mkDb (deployments db) (applications db) (compose_projects db) (databases db) t (rollbacks db)
    (environments db) (projects db) (servers db).

(** The REFERENCES clauses of [deployments]; [database_id] has none. *)
Definition references {R} (id : R → Z) (c : option Z) (l : list R) : bool :=
  match c with None => true | Some v => existsb (λ r, id r =? v)%Z l end.

Definition deployment_fk (db : Db) (d : Deployment) : bool :=
  references a_id (d_application_id d) (rows (applications db))
  && references c_id (d_compose_id d) (rows (compose_projects db))
  && references id (d_server_id d) (servers db).

(** ** Assignments *)

Definition set_status_state (status state : string) (d : Deployment) : Deployment :=
  mkDeployment (d_id d) (d_title d) (d_description d) status state (d_log_path d) (d_pid d)
    (d_error_message d) (d_operation d) (d_is_preview d) (d_started_at d) (d_last_state_at d)
    (d_finished_at d) (d_application_id d) (d_compose_id d) (d_server_id d) (d_created_at d)
    (d_database_id d) (d_database_kind d).
Definition set_last_state_at (now : Z) (d : Deployment) : Deployment :=
  mkDeployment (d_id d) (d_title d) (d_description d) (d_status d) (d_state d) (d_log_path d)
    (d_pid d) (d_error_message d) (d_operation d) (d_is_preview d) (d_started_at d) (Some now)
    (d_finished_at d) (d_application_id d) (d_compose_id d) (d_server_id d) (d_created_at d)
    (d_database_id d) (d_database_kind d).
Definition set_finished_at (now : Z) (d : Deployment) : Deployment :=
  mkDeployment (d_id d) (d_title d) (d_description d) (d_status d) (d_state d) (d_log_path d)
    (d_pid d) (d_error_message d) (d_operation d) (d_is_preview d) (d_started_at d)
    (d_last_state_at d) (Some now) (d_application_id d) (d_compose_id d) (d_server_id d)
    (d_created_at d) (d_database_id d) (d_database_kind d).
Definition set_started_at (at_ : option Z) (d : Deployment) : Deployment :=
  mkDeployment (d_id d) (d_title d) (d_description d) (d_status d) (d_state d) (d_log_path d)
    (d_pid d) (d_error_message d) (d_operation d) (d_is_preview d) at_
    (d_last_state_at d) (d_finished_at d) (d_application_id d) (d_compose_id d) (d_server_id d)
    (d_created_at d) (d_database_id d) (d_database_kind d).
Definition set_error_message (e : option string) (d : Deployment) : Deployment :=
  mkDeployment (d_id d) (d_title d) (d_description d) (d_status d) (d_state d) (d_log_path d)
    (d_pid d) e (d_operation d) (d_is_preview d) (d_started_at d)
    (d_last_state_at d) (d_finished_at d) (d_application_id d) (d_compose_id d) (d_server_id d)
    (d_created_at d) (d_database_id d) (d_database_kind d).
Definition set_d_pid (pid : option string) (d : Deployment) : Deployment :=
  mkDeployment (d_id d) (d_title d) (d_description d) (d_status d) (d_state d) (d_log_path d)
    pid (d_error_message d) (d_operation d) (d_is_preview d) (d_started_at d)
    (d_last_state_at d) (d_finished_at d) (d_application_id d) (d_compose_id d) (d_server_id d)
    (d_created_at d) (d_database_id d) (d_database_kind d).
Definition set_d_log_path (p : string) (d : Deployment) : Deployment :=
  mkDeployment (d_id d) (d_title d) (d_description d) (d_status d) (d_state d) p
    (d_pid d) (d_error_message d) (d_operation d) (d_is_preview d) (d_started_at d)
    (d_last_state_at d) (d_finished_at d) (d_application_id d) (d_compose_id d) (d_server_id d)
    (d_created_at d) (d_database_id d) (d_database_kind d).

(** [COALESCE(a, b)] *)
Definition coalesce {A} (a b : option A) : option A :=
  match a with Some _ => a | None => b end.

(** [status = 'CANCELLED', state = 'CANCELLED', finished_at = now, last_state_at = now] *)
Definition cancelled (now : Z) (d : Deployment) : Deployment :=
  set_last_state_at now (set_finished_at now (set_status_state "CANCELLED" "CANCELLED" d)).

Definition has_status (s : string) (d : Deployment) : bool := bool_decide (d_status d = s).
Definition has_id (id : Z) (d : Deployment) : bool := (d_id d =? id)%Z.
Definition for_application (id : Z) (d : Deployment) : bool := col_is (d_application_id d) id.
Definition for_compose (id : Z) (d : Deployment) : bool := col_is (d_compose_id d) id.
Definition for_database (id : Z) (d : Deployment) : bool := col_is (d_database_id d) id.

(** An UPDATE of [deployments] that writes no foreign-key column. *)
Definition update_deployments (p : Deployment → bool) (f : Deployment → Deployment) (db : Db)
    : result (Db * nat) SqlError :=
  let? (t, n) := sql_update no_fk p f (deployments db) in
  Ok (with_deployments t db, n).

(** A DELETE from [deployments], with ON DELETE CASCADE of the rollbacks and ON
    DELETE SET NULL of the previews. *)
Definition delete_deployments (p : Deployment → bool) (db : Db) : Db * nat :=
  let gone (v : Z) := existsb (λ d, p d && has_id v d) (rows (deployments db)) in
  let '(t, n) := sql_delete p (deployments db) in
  let pv := map (λ r, match p_last_deployment_id r with
                      | Some v => if gone v then mkPreview (p_id r) (p_status r) None (p_updated_at r)
                                  else r
                      | None => r
                      end) (rows (previews db)) in
  let rb := (sql_delete (λ r, gone (rb_deployment_id r)) (rollbacks db)).1 in
  (mkDb t (applications db) (compose_projects db) (databases db)
     (mkTable pv (seq (previews db))) rb (environments db) (projects db) (servers db), n).

(** ** Ordering and paging *)

Definition id_asc (a b : Deployment) : bool := (d_id a <=? d_id b)%Z.
Definition id_desc (a b : Deployment) : bool := (d_id b <=? d_id a)%Z.

(** [ORDER BY COALESCE(started_at, created_at) DESC, id DESC] *)
Definition started_or_created (d : Deployment) : Z := default (d_created_at d) (d_started_at d).
Definition newest_started_first (a b : Deployment) : bool :=
  (started_or_created b <? started_or_created a)%Z
  || ((started_or_created b =? started_or_created a)%Z && (d_id b <=? d_id a)%Z).

(** [ORDER BY created_at ASC, id ASC] *)
Definition oldest_created_first (a b : Deployment) : bool :=
  (d_created_at a <? d_created_at b)%Z
  || ((d_created_at a =? d_created_at b)%Z && (d_id a <=? d_id b)%Z).

(** [LIMIT l OFFSET o]: a negative limit is no limit, a negative offset is zero. *)
Definition sql_page {A} (limit offset : Z) (l : list A) : list A :=
  let l' := drop (Z.to_nat offset) l in
  if (limit <? 0)%Z then l' else take (Z.to_nat limit) l'.

(** ** The repository: reads *)

(** [db_kind_to_table]: the table, or the protocol error of [format!("{e:?}")] on [()]. *)
Definition db_kind_to_table (kind : string) : result DatabaseKind SqlError :=
  ok_or (database_kind_from_str kind) (Protocol "()").

Record RunningDeployment := mkRunning {
  run_id : Z; run_server_id : option Z; run_pid : option string;
}.
Definition as_running (d : Deployment) : RunningDeployment :=
  mkRunning (d_id d) (d_server_id d) (d_pid d).

Definition running_for_application (application_id : Z) (db : Db) : option RunningDeployment :=
  as_running <$> head (sql_order_by id_desc
    (sql_select (λ d, for_application application_id d && has_status "RUNNING" d) (deployments db))).

Definition running_for_compose (compose_id : Z) (db : Db) : option RunningDeployment :=
  as_running <$> head (sql_order_by id_desc
    (sql_select (λ d, for_compose compose_id d && has_status "RUNNING" d) (deployments db))).

Definition deployment_get_all (db : Db) : list Deployment := rows (deployments db).

Definition deployment_get_by_id (id : Z) (db : Db) : option Deployment :=
  sql_first (has_id id) (deployments db).

Definition has_running_deployment (application_id : Z) (db : Db) : bool :=
  sql_exists (λ d, for_application application_id d && is_active d) (deployments db).

Definition has_running_compose_deployment (compose_id : Z) (db : Db) : bool :=
  sql_exists (λ d, for_compose compose_id d && is_active d) (deployments db).

Definition has_running_database_deployment (database_id : Z) (db : Db) : bool :=
  sql_exists (λ d, for_database database_id d && is_active d) (deployments db).

Definition has_running_status_deployment (application_id : Z) (db : Db) : bool :=
  sql_exists (λ d, for_application application_id d && has_status "RUNNING" d) (deployments db).

Definition has_running_status_compose_deployment (compose_id : Z) (db : Db) : bool :=
  sql_exists (λ d, for_compose compose_id d && has_status "RUNNING" d) (deployments db).

Definition list_finished_ids_for_application (application_id : Z) (db : Db) : list Z :=
  map d_id (sql_order_by id_asc
    (sql_select (λ d, for_application application_id d && negb (is_active d)) (deployments db))).

Definition list_finished_ids_for_compose (compose_id : Z) (db : Db) : list Z :=
  map d_id (sql_order_by id_asc
    (sql_select (λ d, for_compose compose_id d && negb (is_active d)) (deployments db))).

Definition get_cancel_info (id : Z) (db : Db)
    : option (option Z * option Z * option Z * string) :=
  (λ d, (d_application_id d, d_compose_id d, d_database_id d, d_status d))
    <$> sql_first (has_id id) (deployments db).

Definition get_status (id : Z) (db : Db) : option string :=
  d_status <$> sql_first (has_id id) (deployments db).

Definition latest_id (p : Deployment → bool) (db : Db) : option Z :=
  d_id <$> head (sql_order_by id_desc (sql_select p (deployments db))).

Definition get_latest_application_deployment_id (id : Z) (db : Db) : option Z :=
  latest_id (for_application id) db.
Definition get_latest_compose_deployment_id (id : Z) (db : Db) : option Z :=
  latest_id (for_compose id) db.
Definition get_latest_database_deployment_id (id : Z) (db : Db) : option Z :=
  latest_id (for_database id) db.

Definition get_queued_count (db : Db) : Z := sql_count (has_status "QUEUED") (deployments db).

Definition get_queued_ids_for_application (id : Z) (db : Db) : list Z :=
  map d_id (sql_select (λ d, for_application id d && has_status "QUEUED" d) (deployments db)).
Definition get_queued_ids_for_compose (id : Z) (db : Db) : list Z :=
  map d_id (sql_select (λ d, for_compose id d && has_status "QUEUED" d) (deployments db)).
Definition get_queued_ids_for_database (id : Z) (db : Db) : list Z :=
  map d_id (sql_select (λ d, for_database id d && has_status "QUEUED" d) (deployments db)).

(** Rows with a server and a pid file, as [(id, server_id, pid)]. *)
Definition remote_job (d : Deployment) : option (Z * Z * string) :=
  match d_server_id d, d_pid d with
  | Some s, Some p => Some (d_id d, s, p)
  | _, _ => None
  end.

Definition get_running_remote_jobs (db : Db) : list (Z * Z * string) :=
  omap remote_job (sql_select (has_status "RUNNING") (deployments db)).

Definition get_recovered_remote_jobs (db : Db) : list (Z * Z * string) :=
  omap remote_job (sql_select (λ d, has_status "ERROR" d
    && bool_decide (d_state d = "RECOVERED_AFTER_RESTART")) (deployments db)).

Definition get_queued_deployments_grouped (db : Db) : list (Z * option Z) :=
  map (λ d, (d_id d, d_server_id d))
    (sql_order_by oldest_created_first (sql_select (has_status "QUEUED") (deployments db))).

(** [? IS NULL OR column = ?] *)
Definition filter_text (f : option string) (c : string) : bool :=
  match f with None => true | Some v => bool_decide (c = v) end.
Definition filter_id (f c : option Z) : bool :=
  match f with None => true | Some v => col_is c v end.

Definition list_filtered (status state : option string)
    (application_id compose_id database_id server_id : option Z) (limit offset : Z) (db : Db)
    : list Deployment :=
  sql_page limit offset (sql_order_by newest_started_first
    (sql_select (λ d,
       filter_text status (d_status d) && filter_text state (d_state d)
       && filter_id application_id (d_application_id d) && filter_id compose_id (d_compose_id d)
       && filter_id database_id (d_database_id d) && filter_id server_id (d_server_id d))
     (deployments db))).

(** The joins with [environments] and [projects]: [fetch_one] takes the first
    joined row. *)
Definition find_environment (id : Z) (db : Db) : option Environment :=
  head (List.filter (λ e, e_id e =? id)%Z (environments db)).
Definition find_project (id : Z) (db : Db) : option Project :=
  head (List.filter (λ p, pj_id p =? id)%Z (projects db)).

Definition environment_organization (env : Z) (db : Db) : result Z SqlError :=
  let? e := ok_or (find_environment env db) RowNotFound in
  let? p := ok_or (find_project (e_project_id e) db) RowNotFound in
  Ok (pj_organization_id p).

Definition find_application (id : Z) (db : Db) : option Application :=
  sql_first (λ a, a_id a =? id)%Z (applications db).
Definition find_compose (id : Z) (db : Db) : option ComposeProject :=
  sql_first (λ c, c_id c =? id)%Z (compose_projects db).
Definition find_database (k : DatabaseKind) (id : Z) (db : Db) : option DatabaseRow :=
  sql_first (λ b, b_id b =? id)%Z (databases db k).

Definition application_organization_id (id : Z) (db : Db) : result Z SqlError :=
  let? a := ok_or (find_application id db) RowNotFound in
  environment_organization (a_environment_id a) db.

Definition compose_organization_id (id : Z) (db : Db) : result Z SqlError :=
  let? c := ok_or (find_compose id db) RowNotFound in
  environment_organization (c_environment_id c) db.

Definition database_organization_id (id : Z) (kind : string) (db : Db) : result Z SqlError :=
  let? k := db_kind_to_table kind in
  let? b := ok_or (find_database k id db) RowNotFound in
  environment_organization (b_environment_id b) db.

Definition get_database_app_name (id : Z) (kind : string) (db : Db) : result string SqlError :=
  let? k := db_kind_to_table kind in
  let? b := ok_or (find_database k id db) RowNotFound in
  Ok (b_app_name b).

Definition get_database_deployment_context (id : Z) (kind : string) (db : Db)
    : result (option Z * Z * Z * option string * option string) SqlError :=
  let? k := db_kind_to_table kind in
  let? b := ok_or (find_database k id db) RowNotFound in
  let? e := ok_or (find_environment (b_environment_id b) db) RowNotFound in
  Ok (b_server_id b, b_environment_id b, e_project_id e, b_memory_limit b, b_cpu_limit b).

(** ** The repository: writes *)

Definition insert_deployment (mk : Z → Deployment) (db : Db) : result (Db * Z) SqlError :=
  let? (t, id) := sql_insert (deployment_fk db) mk (deployments db) in
  Ok (with_deployments t db, id).

Definition create_running_deployment (now : Z) (title : string) (description : option string)
    (operation : string) (application_id : Z) (server_id : option Z) (db : Db)
    : result (Db * Z) SqlError :=
  insert_deployment (λ id,
    mkDeployment id title description "RUNNING" "RUNNING" "" None None (Some operation) 0
      (Some now) (Some now) None (Some application_id) None server_id now None None) db.

(** Every column of [item] under the rowid [id] *)
Definition with_columns (item : Deployment) (id : Z) : Deployment :=
  mkDeployment id (d_title item) (d_description item) (d_status item) (d_state item)
    (d_log_path item) (d_pid item) (d_error_message item) (d_operation item)
    (d_is_preview item) (d_started_at item) (d_last_state_at item) (d_finished_at item)
    (d_application_id item) (d_compose_id item) (d_server_id item) (d_created_at item)
    (d_database_id item) (d_database_kind item).

Definition deployment_create (item : Deployment) (db : Db) : result (Db * Z) SqlError :=
  insert_deployment (λ id, with_columns item id) db.

Definition deployment_update (id : Z) (item : Deployment) (db : Db) : result Db SqlError :=
  let? (t, _) := sql_update (deployment_fk db) (has_id id) (λ r, with_columns item (d_id r))
    (deployments db) in
  Ok (with_deployments t db).

Definition deployment_delete (id : Z) (db : Db) : Db := (delete_deployments (has_id id) db).1.

Definition delete_finished_for_application (application_id : Z) (db : Db) : Db * nat :=
  delete_deployments (λ d, for_application application_id d && negb (is_active d)) db.

Definition delete_finished_for_compose (compose_id : Z) (db : Db) : Db * nat :=
  delete_deployments (λ d, for_compose compose_id d && negb (is_active d)) db.

(** The SELECT and the DELETE have the same WHERE clause. *)
Definition finished_filter (application_id compose_id database_id server_id : option Z)
    (d : Deployment) : bool :=
  negb (is_active d)
  && filter_id application_id (d_application_id d) && filter_id compose_id (d_compose_id d)
  && filter_id database_id (d_database_id d) && filter_id server_id (d_server_id d).

Definition delete_filtered_finished (application_id compose_id database_id server_id : option Z)
    (db : Db) : Db * list string :=
  let p := finished_filter application_id compose_id database_id server_id in
  let log_paths := map d_log_path (sql_select p (deployments db)) in
  ((delete_deployments p db).1, log_paths).

Definition create_queued_deployment (now : Z) (title : string) (description : option string)
    (log_path operation : string) (application_id : Z) (server_id : option Z) (db : Db)
    : result (Db * Z) SqlError :=
  insert_deployment (λ id,
    mkDeployment id title description "QUEUED" "QUEUE" log_path None None (Some operation) 0
      None (Some now) None (Some application_id) None server_id now None None) db.

Definition create_queued_compose_deployment (now : Z) (title : string)
    (description : option string) (log_path operation : string) (compose_id : Z)
    (server_id : option Z) (db : Db) : result (Db * Z) SqlError :=
  insert_deployment (λ id,
    mkDeployment id title description "QUEUED" "QUEUE" log_path None None (Some operation) 0
      None (Some now) None None (Some compose_id) server_id now None None) db.

Definition create_queued_database_deployment (now : Z) (title : string)
    (description : option string) (log_path operation : string) (database_id : Z)
    (database_kind : string) (server_id : option Z) (db : Db) : result (Db * Z) SqlError :=
  insert_deployment (λ id,
    mkDeployment id title description "QUEUED" "QUEUE" log_path None None (Some operation) 0
      None (Some now) None None None server_id now (Some database_id) (Some database_kind)) db.

Definition update_log_path (id : Z) (log_path : string) (db : Db) : result Db SqlError :=
  let? (db', _) := update_deployments (has_id id) (set_d_log_path log_path) db in Ok db'.

Definition update_state_if_running (now id : Z) (state : string) (error : option string) (db : Db)
    : result Db SqlError :=
  let? (db', _) := update_deployments (λ d, has_id id d && has_status "RUNNING" d)
    (λ d, set_last_state_at now (set_error_message (coalesce error (d_error_message d))
            (set_status_state (d_status d) state d))) db in
  Ok db'.

Definition update_final_status (now id : Z) (status : string) (error : option string) (db : Db)
    : result Db SqlError :=
  let? (db', _) := update_deployments (has_id id)
    (λ d, set_last_state_at now (set_finished_at now
            (set_error_message (coalesce error (d_error_message d))
               (set_status_state status status d)))) db in
  Ok db'.

(** *** Resource statuses *)

Definition application_with_status (status : string) (a : Application) : Application :=
  mkApplication (a_id a) (a_name a) (a_app_name a) status (a_environment_id a) (a_server_id a).
Definition compose_with_status (status : string) (c : ComposeProject) : ComposeProject :=
  mkCompose (c_id c) (c_name c) (c_app_name c) status (c_environment_id c) (c_server_id c).
Definition database_with_status (status : string) (b : DatabaseRow) : DatabaseRow :=
  mkDatabase (b_id b) (b_name b) (b_app_name b) status (b_environment_id b) (b_server_id b)
    (b_memory_limit b) (b_cpu_limit b).

Definition set_application_status (id : Z) (status : string) (db : Db) : result Db SqlError :=
  let? (t, _) := sql_update no_fk (λ a, a_id a =? id)%Z
    (application_with_status status) (applications db) in
  Ok (with_applications t db).

Definition set_compose_status (id : Z) (status : string) (db : Db) : result Db SqlError :=
  let? (t, _) := sql_update no_fk (λ c, c_id c =? id)%Z
    (compose_with_status status) (compose_projects db) in
  Ok (with_compose t db).

(** [UPDATE {table} SET app_status = ? WHERE p] of one database table *)
Definition set_database_rows (k : DatabaseKind) (p : DatabaseRow → bool) (status : string) (db : Db)
    : result Db SqlError :=
  let? (t, _) := sql_update no_fk p
    (database_with_status status) (databases db k) in
  Ok (with_database k t db).

Definition update_database_status (id : Z) (db_kind status : string) (db : Db)
    : result Db SqlError :=
  match db_kind_to_table db_kind with
  | Err _ => Ok db
  | Ok k => set_database_rows k (λ b, b_id b =? id)%Z status db
  end.

(** The status of whichever resource a deployment targets. *)
Definition set_resource_status (application_id compose_id database_id : option Z)
    (database_kind : option string) (status : string) (db : Db) : result Db SqlError :=
  match application_id with
  | Some id => set_application_status id status db
  | None =>
      match compose_id with
      | Some id => set_compose_status id status db
      | None =>
          match database_id, database_kind with
          | Some id, Some kind =>
              let? k := db_kind_to_table kind in
              set_database_rows k (λ b, b_id b =? id)%Z status db
          | _, _ => Ok db
          end
      end
  end.

(** The preview whose last deployment this is. *)
Definition settle_preview (now id : Z) (deployment_status : string) (db : Db)
    : result Db SqlError :=
  let? (t, _) := sql_update no_fk
    (λ p, col_is (p_last_deployment_id p) id && negb (bool_decide (p_status p = "CLOSED")))
    (λ p, mkPreview (p_id p)
            (if bool_decide (deployment_status = "DONE") then "ACTIVE" else "ERROR")
            (p_last_deployment_id p) now) (previews db) in
  Ok (with_previews t db).

(** [SET status=?, state=?, error_message=COALESCE(?, error_message), finished_at=now,
    last_state_at=now, pid=NULL] *)
Definition finalized (now : Z) (status : string) (error_message : option string) (d : Deployment)
    : Deployment :=
  set_d_pid None (set_last_state_at now (set_finished_at now
    (set_error_message (coalesce error_message (d_error_message d))
       (set_status_state status status d)))).

(** [finalize_with_resource]: one transaction, so an error leaves the database as it
    was.  The statement that appends to the [logs] column is rejected when it is
    prepared (no migration creates that column); its result is ignored, and it
    writes nothing. *)
Definition finalize_with_resource (now id : Z) (deployment_status : string)
    (error_message : option string) (application_id compose_id database_id : option Z)
    (database_kind : option string) (resource_status : string) (db : Db) : result Db SqlError :=
  let? (db1, _) := update_deployments (has_id id)
    (finalized now deployment_status error_message) db in
  let? db2 := set_resource_status application_id compose_id database_id database_kind
                resource_status db1 in
  settle_preview now id deployment_status db2.

(** *** Cancellation *)

(** The four statements that cancel queued rows; two callers want the number of
    rows, the others whether there was one. *)
Definition cancel_queued_where (p : Deployment → bool) (now : Z) (db : Db)
    : result (Db * nat) SqlError :=
  update_deployments (λ d, p d && has_status "QUEUED" d) (cancelled now) db.

Definition cancel_queued_for_application_count (application_id now : Z) (db : Db)
    : result (Db * nat) SqlError := cancel_queued_where (for_application application_id) now db.
Definition cancel_queued_for_compose_count (compose_id now : Z) (db : Db)
    : result (Db * nat) SqlError := cancel_queued_where (for_compose compose_id) now db.

Definition any_affected (r : result (Db * nat) SqlError) : result (Db * bool) SqlError :=
  let? (db, n) := r in Ok (db, bool_decide (0 < n)).

Definition cancel_queued_for_application (application_id now : Z) (db : Db)
    : result (Db * bool) SqlError :=
  any_affected (cancel_queued_where (for_application application_id) now db).
Definition cancel_queued_for_compose (compose_id now : Z) (db : Db)
    : result (Db * bool) SqlError :=
  any_affected (cancel_queued_where (for_compose compose_id) now db).
Definition cancel_queued_for_database (database_id now : Z) (db : Db)
    : result (Db * bool) SqlError :=
  any_affected (cancel_queued_where (for_database database_id) now db).
Definition cancel_queued_deployment (id now : Z) (db : Db) : result (Db * bool) SqlError :=
  any_affected (cancel_queued_where (has_id id) now db).

(** [SET status = 'CANCELLING', state = 'CANCEL_REQUESTED', last_state_at = now] *)
Definition cancelling (now : Z) (d : Deployment) : Deployment :=
  set_last_state_at now (set_status_state "CANCELLING" "CANCEL_REQUESTED" d).

Definition request_cancel_deployment (application_id now : Z) (db : Db) : result Db SqlError :=
  let? (db', _) := update_deployments
    (λ d, for_application application_id d && has_status "RUNNING" d) (cancelling now) db in
  Ok db'.

Definition set_cancel_requested (id now : Z) (db : Db) : result (Db * bool) SqlError :=
  any_affected (update_deployments (λ d, has_id id d && has_status "RUNNING" d)
                  (cancelling now) db).

Definition request_cancel_database_deployment (database_id now : Z) (db : Db)
    : result Db SqlError :=
  let? (db', _) := update_deployments
    (λ d, for_database database_id d
          && bool_decide (d_status d ∈ ["RUNNING"; "BUILDING"; "QUEUED"])) (cancelling now) db in
  Ok db'.

(** The compose variant writes the state only. *)
Definition request_cancel_compose_deployment (compose_id now : Z) (db : Db)
    : result Db SqlError :=
  let? (db', _) := update_deployments
    (λ d, for_compose compose_id d && has_status "RUNNING" d)
    (λ d, set_last_state_at now (set_status_state (d_status d) "CANCEL_REQUESTED" d)) db in
  Ok db'.

(** *** Recovery after a restart *)

Definition interrupted (d : Deployment) : bool :=
  bool_decide (d_status d ∈ ["QUEUED"; "RUNNING"; "CANCELLING"]).

Definition recovered (now : Z) (d : Deployment) : Deployment :=
  set_last_state_at now (set_finished_at now
    (set_error_message (coalesce (d_error_message d)
       (Some "server restarted before deployment completed"))
       (set_status_state "ERROR" "RECOVERED_AFTER_RESTART" d))).

Definition mark_interrupted_as_recovered (now : Z) (db : Db) : result Db SqlError :=
  let? (db', _) := update_deployments
    interrupted
    (recovered now) db in
  Ok db'.

Definition stale_statuses : list string := ["QUEUED"; "STARTING"; "STOPPING"; "CANCELLING"].

(** [MAX(id)] over the rows of a deployment query *)
Definition max_id (l : list Deployment) : option Z :=
  foldr (λ d m, Some (match m with None => d_id d | Some x => Z.max (d_id d) x end)) None l.

(** The newest deployment of a resource was recovered after a restart. *)
Definition latest_recovered (p : Deployment → bool) (db : Db) : bool :=
  sql_exists (λ d, p d && bool_decide (d_state d = "RECOVERED_AFTER_RESTART")
                   && bool_decide (Some (d_id d) = max_id (sql_select p (deployments db))))
    (deployments db).

Definition recover_stale_application_statuses (db : Db) : result Db SqlError :=
  let? (t, _) := sql_update no_fk
    (λ a, bool_decide (a_app_status a ∈ stale_statuses)
          || latest_recovered (for_application (a_id a)) db)
    (application_with_status "ERROR") (applications db) in
  Ok (with_applications t db).

Definition recover_stale_compose_statuses (db : Db) : result Db SqlError :=
  let? (t, _) := sql_update no_fk
    (λ c, bool_decide (c_compose_status c ∈ stale_statuses)
          || latest_recovered (for_compose (c_id c)) db)
    (compose_with_status "ERROR") (compose_projects db) in
  Ok (with_compose t db).

(** [lower(d.database_kind) = '{kind}'] *)
Definition kind_is (kind : string) (d : Deployment) : bool :=
  match d_database_kind d with
  | Some k => bool_decide (to_ascii_lowercase k = kind)
  | None => false
  end.

Definition recover_database_table (k : DatabaseKind) (db : Db) : result Db SqlError :=
  set_database_rows k
    (λ b, bool_decide (b_app_status b ∈ stale_statuses)
          || latest_recovered (λ d, for_database (b_id b) d
               && kind_is (database_kind_as_str k) d) db) "ERROR" db.

Fixpoint recover_database_tables (ks : list DatabaseKind) (db : Db) : result Db SqlError :=
  match ks with
  | [] => Ok db
  | k :: ks' => let? db' := recover_database_table k db in recover_database_tables ks' db'
  end.

Definition recover_stale_database_statuses (db : Db) : result Db SqlError :=
  recover_database_tables [Postgres; Mysql; Mariadb; Mongo; Redis; Libsql] db.

(** *** Process ids and claims *)

Definition set_pid (id : Z) (pid : string) (db : Db) : result Db SqlError :=
  let? (db', _) := update_deployments (has_id id) (set_d_pid (Some pid)) db in Ok db'.
Definition set_pid_null (id : Z) (db : Db) : result Db SqlError :=
  let? (db', _) := update_deployments (has_id id) (set_d_pid None) db in Ok db'.

Record DeploymentClaim := mkClaim {
  cl_id : Z;
  cl_application_id : option Z;
  cl_compose_id : option Z;
  cl_database_id : option Z;
  cl_database_kind : option string;
  cl_operation : option string;
}.

Definition as_claim (d : Deployment) : DeploymentClaim :=
  mkClaim (d_id d) (d_application_id d) (d_compose_id d) (d_database_id d) (d_database_kind d)
    (d_operation d).

Definition started (now : Z) (d : Deployment) : Deployment :=
  set_last_state_at now (set_started_at (coalesce (d_started_at d) (Some now))
    (set_status_state "RUNNING" "QUEUE" d)).

(** [UPDATE ... WHERE id = ? AND status = 'QUEUED' RETURNING ...]; the returned
    columns are not assigned. *)
Definition claim_queued_deployment (id now : Z) (db : Db)
    : result (Db * option DeploymentClaim) SqlError :=
  let claimable := λ d, has_id id d && has_status "QUEUED" d in
  let? (db', _) := update_deployments claimable (started now) db in
  Ok (db', as_claim <$> sql_first claimable (deployments db)).
