(* ===== verification/DeploymentInv.v ===== *)
(** * The deployment database: invariant and life cycle

    Every write of the repository keeps the database well formed: the CHECK
    constraints, the UNIQUE indexes (at most one active deployment per application
    and per compose project) and the foreign keys, previews and rollbacks included.
    The writes are the operations of a step function, so the invariant holds after
    any sequence of calls, and a deployment that has finished stays finished. *)

From stdpp Require Import gmap strings list sorting.
From Stdlib Require Import ZArith Lia.
From S2P Require Import Prelude RustStr StringEnum Sql DeploymentDb.

(** ** The invariant *)

Record db_wf (db : Db) : Prop := {
  wf_deployments : table_wf (deployments db);
  wf_applications : table_wf (applications db);
  wf_compose : table_wf (compose_projects db);
  wf_databases : ∀ k, table_wf (databases db k);
  wf_previews : table_wf (previews db);
  wf_rollbacks : table_wf (rollbacks db);
  wf_deployment_fk : ∀ d, d ∈ rows (deployments db) → deployment_fk db d = true;
  wf_preview_fk : ∀ p, p ∈ rows (previews db) →
    references d_id (p_last_deployment_id p) (rows (deployments db)) = true;
  wf_rollback_fk : ∀ r, r ∈ rows (rollbacks db) →
    references d_id (Some (rb_deployment_id r)) (rows (deployments db)) = true;
}.

#[local] Arguments references : simpl never.
#[local] Arguments delete_deployments : simpl never.

(** ** Foreign keys see only the ids of the table they point at *)

Lemma references_spec {R} (id : R → Z) c (l : list R) :
  references id c l = true ↔ match c with None => True | Some v => v ∈ map id l end.
Proof.
  unfold references. destruct c as [v|]; [|done]. rewrite existsb_elem, elem_of_mapb.
  split; intros (r & H1 & H2); exists r; [bsimp; auto | subst; split; [done|apply Z.eqb_refl]].
Qed.

Lemma references_ids {R} (id : R → Z) c (l l' : list R) :
  map id l = map id l' → references id c l = references id c l'.
Proof.
  intros E. apply eq_bool_prop_intro. rewrite !Is_true_true, !references_spec, E. done.
Qed.

Lemma references_incl {R} (id : R → Z) c (l l' : list R) :
  (∀ v, v ∈ map id l → v ∈ map id l') → references id c l = true → references id c l' = true.
Proof. rewrite !references_spec. destruct c; auto. Qed.

Lemma updated_ids `{Schema R} (p : R → bool) (f : R → R) (l : list R) :
  (∀ r, row_id (f r) = row_id r) → map row_id (map (updated p f) l) = map row_id l.
Proof.
  intros Hf. rewrite map_map. apply map_ext. intros r. unfold updated. destruct (p r); auto.
Qed.

(** ** Writes of deployments *)

(** An assignment that leaves the id and the foreign keys alone. *)
Definition keeps_refs (f : Deployment → Deployment) : Prop := ∀ d,
  d_id (f d) = d_id d ∧ d_application_id (f d) = d_application_id d
  ∧ d_compose_id (f d) = d_compose_id d ∧ d_server_id (f d) = d_server_id d.

Lemma deployment_fk_ext db db' d d' :
  map a_id (rows (applications db)) = map a_id (rows (applications db')) →
  map c_id (rows (compose_projects db)) = map c_id (rows (compose_projects db')) →
  servers db = servers db' →
  d_application_id d = d_application_id d' → d_compose_id d = d_compose_id d' →
  d_server_id d = d_server_id d' →
  deployment_fk db d = deployment_fk db' d'.
Proof.
  intros Ha Hc Hs E1 E2 E3. unfold deployment_fk. rewrite Hs, E1, E2, E3.
  by rewrite (references_ids a_id _ _ _ Ha), (references_ids c_id _ _ _ Hc).
Qed.

Lemma update_deployments_inv p f db db' n :
  update_deployments p f db = Ok (db', n) →
  ∃ t, sql_update no_fk p f (deployments db) = Ok (t, n) ∧ db' = with_deployments t db.
Proof.
  unfold update_deployments. destruct (sql_update _ _ _ _) as [[t m]|]; simpl; [|done].
  intros [= <- <-]. eauto.
Qed.

(** Replacing the deployments by rows with the same ids and valid references. *)
Lemma with_deployments_wf t db :
  db_wf db → table_wf t → map d_id (rows t) = map d_id (rows (deployments db)) →
  (∀ d, d ∈ rows t → deployment_fk db d = true) → db_wf (with_deployments t db).
Proof.
  intros Hwf Ht Hids Hfk. destruct Hwf as [H1 H2 H3 H4 H5 H6 H7 H8 H9].
  split; simpl; try done.
  - intros p Hp. rewrite (references_ids d_id _ _ _ Hids). auto.
  - intros r Hr. rewrite (references_ids d_id (Some _) _ _ Hids). by apply H9.
Qed.

Lemma update_deployments_wf p f db db' n :
  db_wf db → keeps_refs f → update_deployments p f db = Ok (db', n) → db_wf db'.
Proof.
  intros Hwf Hf (t & Hu & ->)%update_deployments_inv.
  assert (∀ r, row_id (f r) = row_id r) as Hid by (intros r; apply (Hf r)).
  pose proof Hu as (Hr & _ & _ & _)%sql_update_inv.
  apply with_deployments_wf; [done | | |].
  - eapply sql_update_wf; [apply wf_deployments, Hwf | exact Hid | exact Hu].
  - rewrite Hr. exact (updated_ids p f _ Hid).
  - intros d Hd. rewrite Hr in Hd. apply elem_of_mapb in Hd as (d0 & -> & Hd0).
    rewrite <- (wf_deployment_fk db Hwf d0 Hd0).
    destruct (Hf d0) as (_ & ? & ? & ?).
    apply deployment_fk_ext; try done; unfold updated; by destruct (p d0).
Qed.

Lemma insert_deployment_wf mk db db' id :
  db_wf db → (∀ i, d_id (mk i) = i) → insert_deployment mk db = Ok (db', id) → db_wf db'.
Proof.
  intros Hwf Hmk. unfold insert_deployment.
  destruct (sql_insert _ _ _) as [[t i]|] eqn:E; simpl; [|done]. intros [= <- <-].
  pose proof E as (-> & _ & Hr & _ & _ & Hfk)%sql_insert_inv.
  assert (table_wf t) as Ht by (eapply sql_insert_wf; [apply wf_deployments, Hwf| |exact E]; done).
  assert (∀ v, v ∈ map d_id (rows (deployments db)) → v ∈ map d_id (rows t)) as Hincl.
  { intros v Hv. rewrite Hr, map_app. apply elem_of_app. by left. }
  destruct Hwf as [H1 H2 H3 H4 H5 H6 H7 H8 H9]. split; simpl; try done.
  - intros d Hd. rewrite Hr in Hd. apply elem_of_app in Hd as [Hd|Hd]; [by apply H7|].
    apply list_elem_of_singleton in Hd. by subst d.
  - intros p Hp. eapply references_incl; eauto.
  - intros r Hrb. eapply references_incl; [exact Hincl | by apply H9].
Qed.

(** The rows that survive a delete are the ones it does not match. *)
Lemma delete_deployments_rows p db :
  rows (deployments (delete_deployments p db).1)
  = List.filter (λ d, negb (p d)) (rows (deployments db)).
Proof. done. Qed.

(** A reference to a surviving deployment stays valid. *)
Lemma surviving_reference p db v :
  table_wf (deployments db) → v ∈ map d_id (rows (deployments db)) →
  existsb (λ d, p d && has_id v d) (rows (deployments db)) = false →
  v ∈ map d_id (List.filter (λ d, negb (p d)) (rows (deployments db))).
Proof.
  intros Hwf (d & -> & Hd)%elem_of_mapb Hgone. apply elem_of_mapb. exists d. split; [done|].
  apply elem_of_filterb. split; [done|]. apply existsb_false with (x := d) in Hgone; [|done].
  unfold has_id in Hgone. rewrite Z.eqb_refl, andb_true_r in Hgone. by rewrite Hgone.
Qed.

(** SET NULL on the previews keeps their table well formed. *)
Lemma previews_set_null_wf (f : Preview → Preview) (t : Table Preview) :
  (∀ p, p_id (f p) = p_id p ∧ p_status (f p) = p_status p) →
  table_wf t → table_wf (mkTable (map f (rows t)) (seq t)).
Proof.
  intros Hf [H1 H2 H3 H4]. split; simpl; [ | | |done].
  - rewrite map_map. erewrite map_ext; [exact H1|]. intros p. apply (Hf p).
  - intros p' (p & -> & Hp)%elem_of_mapb. destruct (Hf p) as [-> _]. by apply H2.
  - intros p' (p & -> & Hp)%elem_of_mapb. destruct (Hf p) as [_ ->]. by apply (H3 p).
Qed.

Lemma delete_deployments_wf p db : db_wf db → db_wf (delete_deployments p db).1.
Proof.
  intros [H1 H2 H3 H4 H5 H6 H7 H8 H9]. unfold delete_deployments.
  set (gone := λ v, existsb (λ d, p d && has_id v d) (rows (deployments db))).
  split; simpl; try done.
  - by apply (sql_delete_wf p).
  - apply previews_set_null_wf; [|done]. intros r.
    by repeat case_match.
  - by apply (sql_delete_wf (λ r, gone (rb_deployment_id r))).
  - intros d [Hd _]%elem_of_filterb. by apply H7.
  - intros q (r & -> & Hr)%elem_of_mapb. specialize (H8 r Hr).
    destruct (p_last_deployment_id r) as [v|] eqn:Ev; [|by rewrite Ev].
    case_match; [done|]. rewrite Ev. apply references_spec.
    rewrite references_spec in H8. by apply surviving_reference.
  - intros r [Hr Hg]%elem_of_filterb. apply negb_true_iff in Hg.
    apply references_spec. specialize (H9 r Hr). rewrite references_spec in H9.
    by apply surviving_reference.
Qed.

(** ** Writes of resources and previews *)

Lemma update_applications_wf p f db t n :
  db_wf db → (∀ a, a_id (f a) = a_id a) →
  sql_update no_fk p f (applications db) = Ok (t, n) → db_wf (with_applications t db).
Proof.
  intros Hwf Hf E. pose proof E as (Hr & _)%sql_update_inv.
  assert (table_wf t) by (eapply sql_update_wf; [apply wf_applications, Hwf| |exact E]; done).
  assert (map a_id (rows (applications db)) = map a_id (rows t)) as Hids.
  { rewrite Hr. symmetry. exact (updated_ids p f _ Hf). }
  destruct Hwf as [H1 H2 H3 H4 H5 H6 H7 H8 H9]. split; simpl; try done.
  intros d Hd. rewrite <- (H7 d Hd). symmetry. by apply deployment_fk_ext.
Qed.

Lemma update_compose_wf p f db t n :
  db_wf db → (∀ c, c_id (f c) = c_id c) →
  sql_update no_fk p f (compose_projects db) = Ok (t, n) → db_wf (with_compose t db).
Proof.
  intros Hwf Hf E. pose proof E as (Hr & _)%sql_update_inv.
  assert (table_wf t) by (eapply sql_update_wf; [apply wf_compose, Hwf| |exact E]; done).
  assert (map c_id (rows (compose_projects db)) = map c_id (rows t)) as Hids.
  { rewrite Hr. symmetry. exact (updated_ids p f _ Hf). }
  destruct Hwf as [H1 H2 H3 H4 H5 H6 H7 H8 H9]. split; simpl; try done.
  intros d Hd. rewrite <- (H7 d Hd). symmetry. by apply deployment_fk_ext.
Qed.

Lemma set_database_rows_wf k p s db db' :
  db_wf db → set_database_rows k p s db = Ok db' → db_wf db'.
Proof.
  intros Hwf. unfold set_database_rows.
  destruct (sql_update _ _ _ _) as [[t n]|] eqn:E; simpl; [|done]. intros [= <-].
  assert (table_wf t) by (eapply sql_update_wf; [apply (wf_databases db Hwf k)| |exact E]; done).
  destruct Hwf as [H1 H2 H3 H4 H5 H6 H7 H8 H9]. split; simpl; try done.
  intros k'. by destruct (decide (k' = k)).
Qed.

Lemma settle_preview_wf now id s db db' :
  db_wf db → settle_preview now id s db = Ok db' → db_wf db'.
Proof.
  intros Hwf. unfold settle_preview.
  destruct (sql_update _ _ _ _) as [[t n]|] eqn:E; simpl; [|done]. intros [= <-].
  pose proof E as (Hr & _)%sql_update_inv.
  assert (table_wf t) by (eapply sql_update_wf; [apply wf_previews, Hwf| |exact E]; done).
  destruct Hwf as [H1 H2 H3 H4 H5 H6 H7 H8 H9]. split; simpl; try done.
  intros p Hp. rewrite Hr in Hp. apply elem_of_mapb in Hp as (q & -> & Hq).
  specialize (H8 q Hq). unfold updated. by destruct (_ && _).
Qed.

Lemma set_application_status_wf id s db db' :
  db_wf db → set_application_status id s db = Ok db' → db_wf db'.
Proof.
  intros Hwf ([t n] & E & [= <-])%let_ok. by eapply update_applications_wf; [| |exact E].
Qed.

Lemma set_compose_status_wf id s db db' :
  db_wf db → set_compose_status id s db = Ok db' → db_wf db'.
Proof. intros Hwf ([t n] & E & [= <-])%let_ok. by eapply update_compose_wf; [| |exact E]. Qed.

Lemma update_database_status_wf id k s db db' :
  db_wf db → update_database_status id k s db = Ok db' → db_wf db'.
Proof.
  unfold update_database_status. destruct (db_kind_to_table k); [|congruence].
  apply set_database_rows_wf.
Qed.

Lemma set_resource_status_wf a c b k s db db' :
  db_wf db → set_resource_status a c b k s db = Ok db' → db_wf db'.
Proof.
  unfold set_resource_status. intros Hwf.
  destruct a; [by apply set_application_status_wf|]. destruct c; [by apply set_compose_status_wf|].
  destruct b, k; try congruence. intros (kd & _ & H)%let_ok. by eapply set_database_rows_wf.
Qed.

Lemma finalize_wf now id s e a c b k rs db db' :
  db_wf db → finalize_with_resource now id s e a c b k rs db = Ok db' → db_wf db'.
Proof.
  intros Hwf ([db1 n] & E1 & (db2 & E2 & E3)%let_ok)%let_ok.
  eapply settle_preview_wf, E3. eapply set_resource_status_wf, E2.
  by eapply update_deployments_wf; [| |exact E1].
Qed.

Lemma recover_database_tables_wf ks : ∀ db db',
  db_wf db → recover_database_tables ks db = Ok db' → db_wf db'.
Proof.
  induction ks as [|k ks IH]; simpl; intros db db' Hwf; [congruence|].
  intros (db1 & E1 & E2)%let_ok. eapply IH, E2. by eapply set_database_rows_wf, E1.
Qed.

(** ** The writes as operations *)

Inductive Target := TApp (id : Z) | TCompose (id : Z) | TDatabase (id : Z) | TDeployment (id : Z).

Definition targets (t : Target) : Deployment → bool :=
  match t with
  | TApp id => for_application id
  | TCompose id => for_compose id
  | TDatabase id => for_database id
  | TDeployment id => has_id id
  end.

Inductive DeployOp :=
| OpCreate (item : Deployment)
| OpCreateRunning (now : Z) (title : string) (desc : option string) (op : string) (app : Z)
    (server : option Z)
| OpCreateQueuedApp (now : Z) (title : string) (desc : option string) (log op : string) (app : Z)
    (server : option Z)
| OpCreateQueuedCompose (now : Z) (title : string) (desc : option string) (log op : string)
    (compose : Z) (server : option Z)
| OpCreateQueuedDatabase (now : Z) (title : string) (desc : option string) (log op : string)
    (database : Z) (kind : string) (server : option Z)
| OpUpdate (id : Z) (item : Deployment)
| OpDelete (id : Z)
| OpDeleteFinishedApp (app : Z)
| OpDeleteFinishedCompose (compose : Z)
| OpDeleteFiltered (app compose database server : option Z)
| OpLogPath (id : Z) (path : string)
| OpStateIfRunning (now id : Z) (state : string) (error : option string)
| OpFinalStatus (now id : Z) (status : string) (error : option string)
| OpFinalize (now id : Z) (status : string) (error : option string)
    (app compose database : option Z) (kind : option string) (resource_status : string)
| OpApplicationStatus (id : Z) (status : string)
| OpComposeStatus (id : Z) (status : string)
| OpDatabaseStatus (id : Z) (kind status : string)
| OpCancelQueued (target : Target) (now : Z)
| OpRequestCancelApp (app now : Z)
| OpRequestCancelCompose (compose now : Z)
| OpRequestCancelDatabase (database now : Z)
| OpSetCancelRequested (id now : Z)
| OpMarkInterrupted (now : Z)
| OpRecoverApplications
| OpRecoverCompose
| OpRecoverDatabases
| OpSetPid (id : Z) (pid : string)
| OpSetPidNull (id : Z)
| OpClaim (id now : Z).

Definition drop_value {A} (r : result (Db * A) SqlError) : result Db SqlError :=
  let? (db, _) := r in Ok db.

Definition apply_op (o : DeployOp) (db : Db) : result Db SqlError :=
  match o with
  | OpCreate item => drop_value (deployment_create item db)
  | OpCreateRunning now ti de op app sv =>
      drop_value (create_running_deployment now ti de op app sv db)
  | OpCreateQueuedApp now ti de lg op app sv =>
      drop_value (create_queued_deployment now ti de lg op app sv db)
  | OpCreateQueuedCompose now ti de lg op c sv =>
      drop_value (create_queued_compose_deployment now ti de lg op c sv db)
  | OpCreateQueuedDatabase now ti de lg op b k sv =>
      drop_value (create_queued_database_deployment now ti de lg op b k sv db)
  | OpUpdate id item => deployment_update id item db
  | OpDelete id => Ok (deployment_delete id db)
  | OpDeleteFinishedApp a => Ok (delete_finished_for_application a db).1
  | OpDeleteFinishedCompose c => Ok (delete_finished_for_compose c db).1
  | OpDeleteFiltered a c b s => Ok (delete_filtered_finished a c b s db).1
  | OpLogPath id p => update_log_path id p db
  | OpStateIfRunning now id st e => update_state_if_running now id st e db
  | OpFinalStatus now id s e => update_final_status now id s e db
  | OpFinalize now id s e a c b k rs => finalize_with_resource now id s e a c b k rs db
  | OpApplicationStatus id s => set_application_status id s db
  | OpComposeStatus id s => set_compose_status id s db
  | OpDatabaseStatus id k s => update_database_status id k s db
  | OpCancelQueued t now => drop_value (cancel_queued_where (targets t) now db)
  | OpRequestCancelApp a now => request_cancel_deployment a now db
  | OpRequestCancelCompose c now => request_cancel_compose_deployment c now db
  | OpRequestCancelDatabase b now => request_cancel_database_deployment b now db
  | OpSetCancelRequested id now => drop_value (set_cancel_requested id now db)
  | OpMarkInterrupted now => mark_interrupted_as_recovered now db
  | OpRecoverApplications => recover_stale_application_statuses db
  | OpRecoverCompose => recover_stale_compose_statuses db
  | OpRecoverDatabases => recover_stale_database_statuses db
  | OpSetPid id pid => set_pid id pid db
  | OpSetPidNull id => set_pid_null id db
  | OpClaim id now => drop_value (claim_queued_deployment id now db)
  end.

(** Interleaved calls, in the order the database serves them; a failed statement
    changes nothing. *)
Fixpoint exec (ops : list DeployOp) (db : Db) : Db :=
  match ops with
  | [] => db
  | o :: ops' => exec ops' (match apply_op o db with Ok db' => db' | Err _ => db end)
  end.

Ltac inv_let :=
  repeat match goal with
  | H : drop_value _ = Ok _ |- _ => unfold drop_value in H
  | H : any_affected _ = Ok _ |- _ => unfold any_affected in H
  | H : result_bind _ _ = Ok _ |- _ =>
      let a := fresh "a" in let E := fresh "E" in
      apply let_ok in H as (a & E & H); try (lazymatch type of a with (_ * _)%type => destruct a as [? ?] end); simpl in H; simplify_eq
  end.

Lemma deployment_update_wf id item db db' :
  db_wf db → deployment_update id item db = Ok db' → db_wf db'.
Proof.
  intros Hwf ([t n] & E & [= <-])%let_ok.
  pose proof E as (Hr & _ & _ & Hall)%sql_update_inv.
  apply with_deployments_wf; [done | | |].
  - eapply sql_update_wf; [apply wf_deployments, Hwf| |exact E]. done.
  - rewrite Hr. exact (updated_ids (has_id id) (λ r, with_columns item (d_id r)) _ (λ _, eq_refl)).
  - intros d Hd. rewrite Hr in Hd. apply elem_of_mapb in Hd as (d0 & -> & Hd0). unfold updated.
    destruct (has_id id d0) eqn:Hp; [by apply (Hall d0) | by apply wf_deployment_fk].
Qed.

(** Finds the lemma of the statement that was run. *)
Ltac solve_wf :=
  match goal with
  | E : insert_deployment _ _ = _ |- _ => by eapply insert_deployment_wf, E
  | E : update_deployments _ _ _ = _ |- _ => by eapply update_deployments_wf, E
  | E : deployment_update _ _ _ = _ |- _ => by eapply deployment_update_wf, E
  | E : sql_update _ _ _ (applications _) = _ |- _ => by eapply update_applications_wf, E
  | E : sql_update _ _ _ (compose_projects _) = _ |- _ => by eapply update_compose_wf, E
  | E : set_application_status _ _ _ = _ |- _ => by eapply set_application_status_wf, E
  | E : set_compose_status _ _ _ = _ |- _ => by eapply set_compose_status_wf, E
  | E : update_database_status _ _ _ _ = _ |- _ => by eapply update_database_status_wf, E
  | E : finalize_with_resource _ _ _ _ _ _ _ _ _ _ = _ |- _ => by eapply finalize_wf, E
  | E : recover_database_tables _ _ = _ |- _ => by eapply recover_database_tables_wf, E
  end.

Lemma apply_op_wf o db db' : db_wf db → apply_op o db = Ok db' → db_wf db'.
Proof.
  intros Hwf. destruct o; cbn [apply_op]; intros H;
    try (apply Ok_inj in H; rewrite <- H; by apply delete_deployments_wf);
    unfold deployment_create, create_running_deployment, create_queued_deployment,
      create_queued_compose_deployment, create_queued_database_deployment, update_log_path,
      update_state_if_running, update_final_status, cancel_queued_where,
      request_cancel_deployment, request_cancel_compose_deployment,
      request_cancel_database_deployment, set_cancel_requested, mark_interrupted_as_recovered,
      recover_stale_application_statuses, recover_stale_compose_statuses,
      recover_stale_database_statuses, set_pid, set_pid_null, claim_queued_deployment in *;
    inv_let; simplify_eq; solve_wf.
Qed.

Lemma exec_wf ops : ∀ db, db_wf db → db_wf (exec ops db).
Proof.
  induction ops as [|o ops IH]; intros db Hwf; simpl; [done|]. apply IH.
  destruct (apply_op o db) eqn:E; [by eapply apply_op_wf | done].
Qed.

(** ** The life cycle *)

(** No row satisfies [Q] after a write unless it did before, or is new. *)
Definition no_new (Q : Deployment → bool) (db db' : Db) : Prop :=
  (seq (deployments db) ≤ seq (deployments db'))%Z
  ∧ ∀ d', d' ∈ rows (deployments db') → Q d' = true →
    (∃ d, d ∈ rows (deployments db) ∧ d_id d = d_id d' ∧ Q d = true)
    ∨ (seq (deployments db) < d_id d')%Z.

Lemma no_new_refl Q db : no_new Q db db.
Proof. split; [lia|]. intros d Hd HQ. left. eauto. Qed.

Lemma no_new_trans Q db1 db2 db3 : no_new Q db1 db2 → no_new Q db2 db3 → no_new Q db1 db3.
Proof.
  intros [Hs1 H1] [Hs2 H2]. split; [lia|]. intros d3 Hd3 HQ.
  destruct (H2 d3 Hd3 HQ) as [(d2 & Hd2 & <- & HQ2)|?]; [auto | right; lia].
Qed.

(** A write that leaves the deployments alone. *)
Lemma no_new_same Q db db' : deployments db' = deployments db → no_new Q db db'.
Proof.
  intros E. unfold no_new. rewrite E. apply no_new_refl.
Qed.

Lemma no_new_insert Q mk db db' id :
  (∀ i, d_id (mk i) = i) → insert_deployment mk db = Ok (db', id) → no_new Q db db'.
Proof.
  intros Hmk ([t i] & E & [= <- <-])%let_ok.
  pose proof E as (-> & Hs & Hr & _)%sql_insert_inv. split; simpl; [lia|].
  intros d. rewrite Hr. intros [Hd|Hd]%elem_of_app HQ; [left; eauto|].
  apply list_elem_of_singleton in Hd. subst d. right. rewrite Hmk. lia.
Qed.

(** An assignment after which [Q] holds only of rows that satisfied it. *)
Lemma no_new_update Q p f db db' n :
  (∀ d, d_id (f d) = d_id d) → (∀ d, p d = true → Q (f d) = true → Q d = true) →
  update_deployments p f db = Ok (db', n) → no_new Q db db'.
Proof.
  intros Hid HQ (t & (Hr & Hs & _)%sql_update_inv & ->)%update_deployments_inv.
  split; simpl; [lia|]. intros d' Hd' HQ'. rewrite Hr in Hd'.
  apply elem_of_mapb in Hd' as (d & -> & Hd). left. exists d. revert HQ'. unfold updated.
  destruct (p d) eqn:Hp; intros HQ'; split_and!; auto.
Qed.

Lemma no_new_delete Q p db : no_new Q db (delete_deployments p db).1.
Proof.
  split; [simpl; lia|]. intros d. rewrite delete_deployments_rows.
  intros [Hd _]%elem_of_filterb HQ. left. eauto.
Qed.

Lemma set_resource_status_deployments a c b k s db db' :
  set_resource_status a c b k s db = Ok db' → deployments db' = deployments db.
Proof.
  unfold set_resource_status, set_application_status, set_compose_status, set_database_rows.
  intros H. repeat case_match; inv_let; by simplify_eq.
Qed.

Lemma recover_database_tables_deployments ks : ∀ db db',
  recover_database_tables ks db = Ok db' → deployments db' = deployments db.
Proof.
  induction ks as [|k ks IH]; simpl; intros db db' H; [congruence|].
  apply let_ok in H as (db1 & E & H). apply IH in H. rewrite H.
  unfold recover_database_table, set_database_rows in E. inv_let. by simplify_eq.
Qed.

(** The calls of the program: the generic [update] has no caller, and a deployment is
    finished with one of the final statuses. *)
Definition final_status (s : string) : bool := bool_decide (s ∈ ["DONE"; "ERROR"; "CANCELLED"]).

Definition lifecycle_op (o : DeployOp) : bool :=
  match o with
  | OpUpdate _ _ => false
  | OpFinalStatus _ _ s _ => final_status s
  | OpFinalize _ _ s _ _ _ _ _ _ => final_status s
  | _ => true
  end.

(** The properties of a row that only an INSERT can give. *)
Class Fading (Q : Deployment → bool) := {
  fading_status : ∀ d d', d_status d = d_status d' → Q d = Q d';
  fading_final : ∀ d, Q d = true → final_status (d_status d) = false;
  fading_cancelling : ∀ d, Q d = true → d_status d ≠ "CANCELLING";
  fading_claim : ∀ d d', d_status d = "QUEUED" → d_status d' = "RUNNING" → Q d' = true → Q d = true;
}.

#[export] Instance active_fading : Fading is_active.
Proof.
  split; unfold is_active, final_status.
  - by intros d d' ->.
  - intros d H. bsimp. repeat (apply elem_of_cons in H as [H|H]; [by rewrite H|]).
    by apply elem_of_nil in H.
  - intros d H E. by rewrite E in H.
  - intros d d' H1 H2 _. by rewrite H1.
Qed.

#[export] Instance queued_fading : Fading (has_status "QUEUED").
Proof.
  split; unfold has_status, final_status.
  - by intros d d' ->.
  - intros d H. bsimp. rewrite H. done.
  - intros d H E. bsimp. congruence.
  - intros d d' H1 H2 _. by rewrite H1.
Qed.

(** Writing a final status makes [Q] false, whatever else is written. *)
Lemma fading_not_final Q `{Fading Q} d : final_status (d_status d) = true → Q d = false.
Proof.
  intros Hf. destruct (Q d) eqn:E; [|done]. apply fading_final in E. congruence.
Qed.

Lemma has_status_spec s d : has_status s d = true ↔ d_status d = s.
Proof. apply bool_decide_eq_true. Qed.

(** Discharges the side condition of [no_new_update] for the assignments of the
    repository. *)
Ltac fade :=
  match goal with
  | H : ?Q ?d' = true |- ?Q ?d = true =>
      first [ by rewrite <- (fading_status (Q := Q) d' d)
            | exfalso; assert (Q d' = false)
                by (apply fading_not_final; first [done | simpl; assumption]); congruence
            | exfalso; by apply fading_cancelling in H
            | bsimp; apply (fading_claim d d'); [by apply has_status_spec | done | done] ]
  end.

Lemma finalize_no_new Q `{Fading Q} now id s e a c b k rs db db' :
  final_status s = true → finalize_with_resource now id s e a c b k rs db = Ok db' →
  no_new Q db db'.
Proof.
  intros Hs ([db1 n] & E1 & (db2 & E2 & ([t m] & E3 & [= <-])%let_ok)%let_ok)%let_ok.
  apply set_resource_status_deployments in E2.
  apply no_new_trans with db1; [|by apply no_new_same].
  eapply no_new_update; [| |exact E1]; [done|]. intros d Hp HQ. fade.
Qed.

Lemma database_status_no_new Q id k s db db' :
  update_database_status id k s db = Ok db' → no_new Q db db'.
Proof.
  unfold update_database_status, set_database_rows. intros HR.
  destruct (db_kind_to_table k); [|simplify_eq; apply no_new_refl].
  inv_let. simplify_eq. by apply no_new_same.
Qed.

Lemma op_no_new Q `{Fading Q} o db db' :
  lifecycle_op o = true → apply_op o db = Ok db' → no_new Q db db'.
Proof.
  destruct o; cbn [apply_op lifecycle_op]; intros Hl HR; try done;
    try (apply Ok_inj in HR; rewrite <- HR; by apply no_new_delete);
    unfold deployment_create, create_running_deployment, create_queued_deployment,
      create_queued_compose_deployment, create_queued_database_deployment, update_log_path,
      update_state_if_running, update_final_status, cancel_queued_where,
      request_cancel_deployment, request_cancel_compose_deployment,
      request_cancel_database_deployment, set_cancel_requested, mark_interrupted_as_recovered,
      recover_stale_application_statuses, recover_stale_compose_statuses,
      set_application_status, set_compose_status, set_pid, set_pid_null,
      claim_queued_deployment in *;
    inv_let; simplify_eq;
    try (match goal with
         | E : insert_deployment _ _ = _ |- _ => by eapply no_new_insert, E
         | E : finalize_with_resource _ _ _ _ _ _ _ _ _ _ = _ |- _ => by eapply finalize_no_new, E
         | E : update_database_status _ _ _ _ = _ |- _ => by eapply database_status_no_new, E
         | |- no_new _ _ (with_applications _ _) => by apply no_new_same
         | |- no_new _ _ (with_compose _ _) => by apply no_new_same
         | E : recover_stale_database_statuses _ = _ |- _ =>
             by eapply no_new_same, recover_database_tables_deployments, E
         | E : update_deployments _ _ ?db = Ok (?db', _) |- no_new _ ?db ?db' =>
             eapply no_new_update; [| |exact E]; [done|]; intros d Hp HQ; simpl in *; fade
         end).
Qed.

Lemma exec_no_new Q `{Fading Q} ops : ∀ db,
  forallb lifecycle_op ops = true → no_new Q db (exec ops db).
Proof.
  induction ops as [|o ops IH]; intros db Hl; simpl in *; [apply no_new_refl|].
  apply andb_true_iff in Hl as [Ho Hl]. eapply no_new_trans; [|by apply IH].
  destruct (apply_op o db) eqn:E; [by eapply op_no_new | apply no_new_refl].
Qed.

(** A row that does not satisfy [Q] never does again under its id. *)
Lemma faded_for_good Q `{Fading Q} ops db d d' :
  db_wf db → forallb lifecycle_op ops = true → d ∈ rows (deployments db) → Q d = false →
  d' ∈ rows (deployments (exec ops db)) → d_id d' = d_id d → Q d' = false.
Proof.
  intros Hwf Hl Hd HQ Hd' Hid. destruct (Q d') eqn:HQ'; [|done]. exfalso.
  destruct (exec_no_new Q ops db Hl) as [_ Hn].
  pose proof (wf_deployments db Hwf) as Ht.
  destruct (Hn d' Hd' HQ') as [(d2 & Hd2 & Hid2 & HQ2)|Hlt].
  - assert (d2 = d) by (apply (wf_lookup_unique (deployments db)); simpl; congruence).
    congruence.
  - pose proof (wf_seq _ Ht d Hd) as Hs. simpl in Hs. lia.
Qed.

(** ** A concrete database, for the witnesses of this component

    Organization 9 owns project 3 with environment 4; in it an application, a compose
    project and one database of each kind, all with id 1, on server 5. *)

Definition sample_application : Application := mkApplication 1 "shop" "shop-x1" "IDLE" 4 (Some 5%Z).
Definition sample_compose : ComposeProject := mkCompose 1 "stack" "stack-x1" "IDLE" 4 (Some 5%Z).
Definition sample_database : DatabaseRow :=
  mkDatabase 1 "data" "data-x1" "IDLE" 4 (Some 5%Z) None None.

Definition sample_db : Db :=
  mkDb (mkTable [] 0) (mkTable [sample_application] 1) (mkTable [sample_compose] 1)
    (λ _, mkTable [sample_database] 1) (mkTable [] 0) (mkTable [] 0)
    [mkEnvironment 4 3] [mkProject 3 9] [5%Z].

Lemma singleton_table_wf `{SchemaLaws R} (r : R) (n : Z) :
  row_check r = true → (row_id r ≤ n)%Z → table_wf (mkTable [r] n).
Proof.
  intros Hc Hn. split; simpl.
  - apply NoDup_singleton.
  - by intros x ->%list_elem_of_singleton.
  - by intros x ->%list_elem_of_singleton.
  - by intros x y ->%list_elem_of_singleton ->%list_elem_of_singleton.
Qed.

Lemma sample_db_wf : db_wf sample_db.
Proof.
  split; simpl; try apply empty_table_wf; try (intros ?; intros []%elem_of_nil);
    intros; by apply singleton_table_wf.
Qed.

(** The same database after a deployment of the application was queued *)
Definition sample_queued_db : Db :=
  exec [OpCreateQueuedApp 1000 "Application deploy" None "pending-app-1" "deploy" 1 (Some 5%Z)]
    sample_db.

Lemma sample_queued_db_wf : db_wf sample_queued_db.
Proof. apply exec_wf, sample_db_wf. Qed.
