(* ===== verification/ApplicationState.v ===== *)
(** * The active deployments of this process

    [src/utils/builder/hash_state.rs] with the types of [custom_type.rs]: a map from a
    component to its running deployment, whose cancellation token is shared with the
    worker that executes it.  A token is an identity, so that cancelling reaches the
    clone a worker holds; the watch channel of tokio is an interface, with the laws its
    documentation states; the events sent to the broadcast channel are the list
    [emitted]. *)

From stdpp Require Import gmap strings list.
From Stdlib Require Import ZArith Lia.
From S2P Require Import Prelude.

(** ** Types of [custom_type.rs] *)

Inductive IdType := AppId (id : Z) | ComposeId (id : Z) | DatabaseId (id : Z).

#[export] Instance IdType_eq_dec : EqDecision IdType.
Proof. solve_decision. Defined.
#[export] Instance IdType_countable : Countable IdType.
Proof.
  refine (inj_countable'
    (λ k, match k with AppId i => (0, i) | ComposeId i => (1, i) | DatabaseId i => (2, i) end)
    (λ p, match p with (0, i) => AppId i | (1, i) => ComposeId i | (_, i) => DatabaseId i end) _).
  by intros [].
Defined.

Inductive DeployState :=
| Queue | Preparing
| GitClone | GitRetry | GitSuccess
| DockerImagePull | DockerImageBuild | DockerBuildRetry | DockerBuildSuccess
| DockerComposePull | DockerComposeDown | DockerComposeUp | DockerComposeRestart
| DockerComposeRetry
| ContainerCreating | ContainerStarting | ContainerRunning | ContainerStopping
| ContainerStopped | ContainerRestarting
| Building | BuildingRetry | BuildSuccess
| Deploying | HealthCheck | WaitingForHealthy
| Deployed | Cancelled | StoppedByUser
| RollingBack | RollbackSuccess | RollbackFailed
| CleaningUp | CleanupComplete | Failed (error : string)
| RecoverAfterRestart.

Inductive DeployEvent :=
| StateChanged (s : DeployState)
| Log (line : string)
| Message (text : string).

(** ** tokio's watch channel *)

(** [watch_new v] is the sender of [watch::channel(v)] whose receiver has been
    dropped, as every construction of this file does. *)
Class Watch := {
  watch : Type;
  watch_new : DeployState → watch;
  watch_send : DeployState → watch → watch;
  watch_subscribe : watch → watch;
  watch_value : watch → DeployState;
  watch_receivers : watch → nat;
}.

(** The documentation of [tokio::sync::watch::Sender]: [send] fails when every
    receiver has been dropped, and the value is then not made available to future
    receivers. *)
Class WatchLaws `{Watch} := {
  watch_new_value : ∀ v, watch_value (watch_new v) = v;
  watch_new_receivers : ∀ v, watch_receivers (watch_new v) = 0;
  watch_send_observed : ∀ v w, 0 < watch_receivers w → watch_value (watch_send v w) = v;
  watch_send_unobserved : ∀ v w, watch_receivers w = 0 → watch_value (watch_send v w) = watch_value w;
  watch_send_receivers : ∀ v w, watch_receivers (watch_send v w) = watch_receivers w;
  watch_subscribe_value : ∀ w, watch_value (watch_subscribe w) = watch_value w;
  watch_subscribe_receivers : ∀ w, watch_receivers (watch_subscribe w) = S (watch_receivers w);
}.

(** A value and a number of receivers implement the interface. *)
Definition counted_watch : Watch := {|
  watch := DeployState * nat;
  watch_new v := (v, 0);
  watch_send v w := if bool_decide (0 < w.2) then (v, w.2) else w;
  watch_subscribe w := (w.1, S w.2);
  watch_value := fst;
  watch_receivers := snd;
|}.

Lemma counted_watch_laws : @WatchLaws counted_watch.
Proof.
  split; simpl; try done.
  - intros v [x n] Hn. simpl in *. by rewrite bool_decide_eq_true_2.
  - intros v [x n] Hn. simpl in *. by rewrite bool_decide_eq_false_2 by lia.
  - intros v [x n]. simpl. by destruct (bool_decide _).
Qed.

(** ** The state *)

Section application_state.
Context `{Watch}.

Record AppDeploy := mkAppDeploy {
  ad_app_id : IdType;
  ad_project_id : Z;
  ad_env_id : Z;
  ad_state : watch;
  ad_token : nat;
}.

Record ApplicationState := mkAppState {
  hashmap : gmap IdType AppDeploy;
  cancelled_tokens : gset nat;    (* the tokens that have been cancelled *)
  next_token : nat;               (* tokens below it exist *)
  emitted : list (IdType * DeployEvent);
}.

Definition state_new : ApplicationState := mkAppState ∅ ∅ 0 [].

Definition set_state (k : IdType) (d : AppDeploy) (s : ApplicationState) : ApplicationState :=
  mkAppState (<[k := d]> (hashmap s)) (cancelled_tokens s) (next_token s) (emitted s).

(** A fresh [AppDeploy] with a fresh [CancellationToken::new()] *)
Definition fresh_deploy (k : IdType) (env_id project_id : Z) (s : ApplicationState) : AppDeploy :=
  mkAppDeploy k project_id env_id (watch_new Queue) (next_token s).

Definition insert_fresh (k : IdType) (env_id project_id : Z) (s : ApplicationState)
    : ApplicationState :=
  mkAppState (<[k := fresh_deploy k env_id project_id s]> (hashmap s)) (cancelled_tokens s)
    (S (next_token s)) (emitted s).

Definition add_default (k : IdType) (env_id project_id : Z) (s : ApplicationState)
    : ApplicationState := insert_fresh k env_id project_id s.

Definition ensure_default (k : IdType) (env_id project_id : Z) (s : ApplicationState)
    : ApplicationState :=
  match hashmap s !! k with
  | Some _ => s
  | None => insert_fresh k env_id project_id s
  end.

Definition reset_default (k : IdType) (env_id project_id : Z) (s : ApplicationState)
    : ApplicationState := insert_fresh k env_id project_id s.

Definition remove_state (k : IdType) (s : ApplicationState) : ApplicationState :=
  mkAppState (delete k (hashmap s)) (cancelled_tokens s) (next_token s) (emitted s).

(** [entry.cancellation_token.cancel()] *)
Definition cancel_token (t : nat) (s : ApplicationState) : ApplicationState :=
  mkAppState (hashmap s) ({[ t ]} ∪ cancelled_tokens s) (next_token s) (emitted s).

Definition state_stop (d : AppDeploy) (s : ApplicationState)
    : result ApplicationState string :=
  match hashmap s !! ad_app_id d with
  | Some entry => Ok (cancel_token (ad_token entry) s)
  | None => Err "AppDeploy not found"
  end.

Definition cancel_by_id (k : IdType) (s : ApplicationState) : ApplicationState * bool :=
  match hashmap s !! k with
  | Some entry => (cancel_token (ad_token entry) s, true)
  | None => (s, false)
  end.

Definition cancellation_token (k : IdType) (s : ApplicationState) : option nat :=
  ad_token <$> hashmap s !! k.

(** [is_cancelled()] of a token a worker holds *)
Definition is_cancelled (t : nat) (s : ApplicationState) : bool :=
  bool_decide (t ∈ cancelled_tokens s).

(** [state_recv] and [subscribe] register a receiver on the entry's watch channel. *)
Definition state_recv (k : IdType) (s : ApplicationState)
    : ApplicationState * option DeployState :=
  match hashmap s !! k with
  | Some d =>
      let w := watch_subscribe (ad_state d) in
      (set_state k (mkAppDeploy (ad_app_id d) (ad_project_id d) (ad_env_id d) w (ad_token d)) s,
       Some (watch_value w))
  | None => (s, None)
  end.

Record ActiveDeploySnapshot := mkSnapshot {
  sn_id : IdType; sn_project_id : Z; sn_env_id : Z; sn_state : DeployState;
}.

(** Each entry is read through a receiver that is dropped at once. *)
Definition active_deployments (s : ApplicationState) : list ActiveDeploySnapshot :=
  map (λ p : IdType * AppDeploy,
         mkSnapshot (ad_app_id p.2) (ad_project_id p.2) (ad_env_id p.2)
           (watch_value (watch_subscribe (ad_state p.2))))
    (map_to_list (hashmap s)).

(** [send_event]: the broadcast of an event to the listeners of a component *)
Definition send_event (k : IdType) (e : DeployEvent) (s : ApplicationState)
    : result ApplicationState string :=
  match hashmap s !! k with
  | None => Err "AppDeploy not found"
  | Some _ => Ok (mkAppState (hashmap s) (cancelled_tokens s) (next_token s)
                    (emitted s ++ [(k, e)]))
  end.

Definition send_state (k : IdType) (v : DeployState) (s : ApplicationState)
    : result ApplicationState string :=
  match hashmap s !! k with
  | None => Err "AppDeploy not found"
  | Some d =>
      let d' := mkAppDeploy (ad_app_id d) (ad_project_id d) (ad_env_id d)
                  (watch_send v (ad_state d)) (ad_token d) in
      Ok (mkAppState (<[k := d']> (hashmap s)) (cancelled_tokens s) (next_token s)
            (emitted s ++ [(k, StateChanged v)]))
  end.

Definition send_log (k : IdType) (line : string) (s : ApplicationState)
    : result ApplicationState string := send_event k (Log line) s.
Definition send_broadcast (k : IdType) (text : string) (s : ApplicationState)
    : result ApplicationState string := send_event k (Message text) s.

(** ** The invariant: every entry has its own token *)

Record state_wf (s : ApplicationState) : Prop := {
  wf_fresh : ∀ k d, hashmap s !! k = Some d → ad_token d < next_token s;
  wf_own : ∀ k1 k2 d1 d2, hashmap s !! k1 = Some d1 → hashmap s !! k2 = Some d2 →
           ad_token d1 = ad_token d2 → k1 = k2;
  wf_key : ∀ k d, hashmap s !! k = Some d → ad_app_id d = k;
  wf_cancelled : ∀ t, t ∈ cancelled_tokens s → t < next_token s;
}.

Lemma state_new_wf : state_wf state_new.
Proof. split; simpl; intros; try set_solver; by rewrite lookup_empty in *. Qed.

Lemma insert_fresh_wf k env pr s : state_wf s → state_wf (insert_fresh k env pr s).
Proof.
  intros [H1 H2 H3 H4]. split; simpl.
  - intros k' d [[<- <-]|[_ Hd]]%lookup_insert_Some; simpl; [lia|]. apply H1 in Hd. lia.
  - intros k1 k2 d1 d2 [[<- <-]|[_ Hd1]]%lookup_insert_Some [[<- <-]|[_ Hd2]]%lookup_insert_Some;
      simpl; intros E; eauto.
    + apply H1 in Hd2. lia.
    + apply H1 in Hd1. lia.
  - intros k' d [[<- <-]|[_ Hd]]%lookup_insert_Some; eauto.
  - intros t Ht. apply H4 in Ht. lia.
Qed.

Lemma remove_state_wf k s : state_wf s → state_wf (remove_state k s).
Proof.
  intros [H1 H2 H3 H4]. split; simpl; eauto.
  - intros k' d [_ Hd]%lookup_delete_Some. eauto.
  - intros k1 k2 d1 d2 [_ Hd1]%lookup_delete_Some [_ Hd2]%lookup_delete_Some. eauto.
  - intros k' d [_ Hd]%lookup_delete_Some. eauto.
Qed.

Lemma cancel_by_id_wf k s : state_wf s → state_wf (cancel_by_id k s).1.
Proof.
  intros [H1 H2 H3 H4]. unfold cancel_by_id. destruct (hashmap s !! k) as [d|] eqn:E; [|done].
  split; simpl; eauto. intros t [->%elem_of_singleton|Ht]%elem_of_union; eauto.
Qed.
End application_state.

Arguments ApplicationState {_}.
Arguments AppDeploy {_}.

(** ** Cancellation reaches the worker that holds the token *)

Section cancellation.
Context `{Watch}.

(** What a snapshot shows for a component *)
Definition shown_state (k : IdType) (s : ApplicationState) : option DeployState :=
  (λ d, watch_value (watch_subscribe (ad_state d))) <$> hashmap s !! k.

Lemma shown_in_snapshot k s v :
  state_wf s → shown_state k s = Some v ↔
  ∃ sn, sn ∈ active_deployments s ∧ sn_id sn = k ∧ sn_state sn = v.
Proof.
  intros Hwf. unfold shown_state, active_deployments. rewrite fmap_Some. split.
  - intros (d & Hd & ->). exists (mkSnapshot (ad_app_id d) (ad_project_id d) (ad_env_id d)
      (watch_value (watch_subscribe (ad_state d)))).
    split_and!; [|by apply (wf_key s Hwf)|done]. apply elem_of_mapb. exists (k, d).
    split; [done|]. by apply elem_of_map_to_list.
  - intros (sn & (p & -> & Hp)%elem_of_mapb & <- & <-). destruct p as [k d].
    apply elem_of_map_to_list in Hp. simpl. exists d. split; [|done].
    by rewrite (wf_key s Hwf k d Hp).
Qed.

(** Cancelling a component cancels the token its worker holds and no other component's; a later
    reset gives a fresh token while the old one stays cancelled. *)
Theorem cancel_reaches_the_worker (s : ApplicationState) (k other : IdType) (env pr : Z)
    (Hwf : state_wf s) (Hother : other ≠ k) :
  let s1 := reset_default k env pr s in
  ∃ t, cancellation_token k s1 = Some t ∧ is_cancelled t s1 = false
  ∧ (cancel_by_id k s1).2 = true ∧ is_cancelled t (cancel_by_id k s1).1 = true
  ∧ is_cancelled t (cancel_by_id other s1).1 = false
  ∧ ∃ t', cancellation_token k (reset_default k env pr (cancel_by_id k s1).1) = Some t'
      ∧ is_cancelled t' (reset_default k env pr (cancel_by_id k s1).1) = false
      ∧ is_cancelled t (reset_default k env pr (cancel_by_id k s1).1) = true.
Proof.
  intros s1. pose proof (insert_fresh_wf k env pr s Hwf) as Hwf1.
  assert (hashmap s1 !! k = Some (fresh_deploy k env pr s)) as Hk
    by (subst s1; simpl; apply lookup_insert_eq).
  assert (∀ n, n ∈ cancelled_tokens s → n < next_token s) as Hc by apply Hwf.
  exists (next_token s).
  unfold cancellation_token, cancel_by_id, is_cancelled. rewrite Hk. simpl.
  split_and!; [done | | done | | | exists (S (next_token s)); split_and! ].
  - apply bool_decide_eq_false. intros Hin. apply Hc in Hin. lia.
  - apply bool_decide_eq_true. set_solver.
  - apply bool_decide_eq_false. case_match eqn:Ho; simpl.
    + intros [Ht%elem_of_singleton|Hin]%elem_of_union; [|apply Hc in Hin; lia].
      apply Hother. apply (wf_own s1 Hwf1 _ _ _ _ Ho Hk). by simpl.
    + intros Hin. apply Hc in Hin. lia.
  - rewrite lookup_insert_eq. done.
  - apply bool_decide_eq_false. intros [Ht%elem_of_singleton|Hin]%elem_of_union;
      [lia | apply Hc in Hin; lia].
  - apply bool_decide_eq_true. set_solver.
Qed.

(** A state sent while nobody holds a receiver is not stored, so the snapshot still shows the
    initial state; with a receiver it is shown. *)
Theorem unobserved_state_is_not_published `{!WatchLaws} (s : ApplicationState) (k : IdType)
    (env pr : Z) (v : DeployState) :
  let s1 := reset_default k env pr s in
  ∃ s2 s3, send_state k v s1 = Ok s2 ∧ shown_state k s2 = Some Queue
  ∧ send_state k v (state_recv k s1).1 = Ok s3 ∧ shown_state k s3 = Some v.
Proof.
  intros s1. assert (hashmap s1 !! k = Some (fresh_deploy k env pr s)) as Hk
    by (subst s1; simpl; apply lookup_insert_eq).
  unfold send_state, state_recv, shown_state. rewrite Hk. simpl.
  rewrite !lookup_insert_eq. do 2 eexists. split_and!; [done| |done|]; simpl;
    rewrite lookup_insert_eq; simpl; rewrite watch_subscribe_value; f_equal.
  - by rewrite watch_send_unobserved, watch_new_value by apply watch_new_receivers.
  - apply watch_send_observed. rewrite watch_subscribe_receivers. lia.
Qed.
End cancellation.

(** Non-vacuity of the two theorems above *)
Lemma cancel_reaches_the_worker_witness :
  let s1 := reset_default (H := counted_watch) (AppId 7) 1 2 state_new in
  is_cancelled 0 (cancel_by_id (AppId 7) s1).1 = true.
Proof.
  destruct (cancel_reaches_the_worker (H := counted_watch) state_new (AppId 7) (ComposeId 7) 1 2
    state_new_wf ltac:(done)) as (t & Ht & _ & _ & Hc & _).
  vm_compute in Ht. injection Ht as <-. exact Hc.
Defined.

Lemma unobserved_state_witness :
  ∃ s2, send_state (H := counted_watch) (AppId 7) Building
          (reset_default (AppId 7) 1 2 state_new) = Ok s2
        ∧ shown_state (H := counted_watch) (AppId 7) s2 = Some Queue.
Proof.
  destruct (unobserved_state_is_not_published (H := counted_watch) (H0 := counted_watch_laws)
    state_new (AppId 7) 1 2 Building) as (s2 & s3 & H1 & H2 & _).
  exists s2. split; [exact H1 | exact H2].
Defined.
