(* ===== verification/Operations.v ===== *)
(** * Operations on applications, compose projects and databases

    The operation enums of [src/services/application/types.rs], [compose/types.rs] and
    [database/types.rs], with the text stored in the [operation] column of a deployment, and
    the parsers by which the builder queue reads it back
    ([src/utils/builder/queue/common.rs]). *)

From stdpp Require Import base strings.
From S2P Require Import Prelude.

Inductive ApplicationOperation := AppDeployOp | AppRedeploy | AppRebuild | AppReload | AppStart.
Inductive ComposeOperation :=
  ComposeDeploy | ComposeRedeploy | ComposeReload | ComposeStart | ComposeStop.
Inductive DatabaseOperation :=
  DatabaseDeploy | DatabaseRedeploy | DatabaseReload | DatabaseStart | DatabaseStop.

Definition application_op_as_str (o : ApplicationOperation) : string :=
  match o with
  | AppDeployOp => "deploy" | AppRedeploy => "redeploy" | AppRebuild => "rebuild"
  | AppReload => "reload" | AppStart => "start"
  end.
Definition application_op_title (o : ApplicationOperation) : string :=
  match o with
  | AppDeployOp => "Application deploy" | AppRedeploy => "Application redeploy"
  | AppRebuild => "Application rebuild" | AppReload => "Application reload"
  | AppStart => "Application start"
  end.

Definition compose_op_as_str (o : ComposeOperation) : string :=
  match o with
  | ComposeDeploy => "deploy" | ComposeRedeploy => "redeploy" | ComposeReload => "reload"
  | ComposeStart => "start" | ComposeStop => "stop"
  end.
Definition compose_op_title (o : ComposeOperation) : string :=
  match o with
  | ComposeDeploy => "Compose deploy" | ComposeRedeploy => "Compose redeploy"
  | ComposeReload => "Compose reload" | ComposeStart => "Compose start"
  | ComposeStop => "Compose stop"
  end.

Definition database_op_as_str (o : DatabaseOperation) : string :=
  match o with
  | DatabaseDeploy => "deploy" | DatabaseRedeploy => "redeploy" | DatabaseReload => "reload"
  | DatabaseStart => "start" | DatabaseStop => "stop"
  end.
Definition database_op_title (o : DatabaseOperation) : string :=
  match o with
  | DatabaseDeploy => "Deploying Database" | DatabaseRedeploy => "Redeploying Database"
  | DatabaseReload => "Reloading Database" | DatabaseStart => "Starting Database"
  | DatabaseStop => "Stopping Database"
  end.

(** The parsers of the queue compare literally; anything else is a deploy. *)
Definition parse_application_operation (value : string) : ApplicationOperation :=
  if bool_decide (value = "redeploy") then AppRedeploy
  else if bool_decide (value = "rebuild") then AppRebuild
  else if bool_decide (value = "reload") then AppReload
  else if bool_decide (value = "start") then AppStart
  else AppDeployOp.

Definition parse_compose_operation (value : string) : ComposeOperation :=
  if bool_decide (value = "redeploy") then ComposeRedeploy
  else if bool_decide (value = "reload") then ComposeReload
  else if bool_decide (value = "start") then ComposeStart
  else if bool_decide (value = "stop") then ComposeStop
  else ComposeDeploy.

Definition parse_database_operation (value : string) : DatabaseOperation :=
  if bool_decide (value = "redeploy") then DatabaseRedeploy
  else if bool_decide (value = "reload") then DatabaseReload
  else if bool_decide (value = "start") then DatabaseStart
  else if bool_decide (value = "stop") then DatabaseStop
  else DatabaseDeploy.

Lemma application_op_roundtrip o : parse_application_operation (application_op_as_str o) = o.
Proof. by destruct o. Qed.
Lemma compose_op_roundtrip o : parse_compose_operation (compose_op_as_str o) = o.
Proof. by destruct o. Qed.
Lemma database_op_roundtrip o : parse_database_operation (database_op_as_str o) = o.
Proof. by destruct o. Qed.
