(* ===== verification/BuilderQueue.v ===== *)
(** * The builder queue

    [src/utils/builder/queue/queue.rs] and [common.rs]: queued deployments are claimed
    in order of creation, each under a permit of its server's semaphore, and run by a
    worker that records the outcome and gives the permit back.  The semaphore of tokio is
    an interface with the laws its documentation states; what a worker executes (the
    builders of [app.rs], [compose.rs] and [database.rs]) is a result it is given.  The state
    cache of [src/core/cache] is a facade that keeps nothing, so its calls have no effect. *)

From stdpp Require Import gmap strings list sorting.
From Stdlib Require Import ZArith Lia.
From S2P Require Import Prelude RustStr StringEnum Sql DeploymentDb DeploymentInv ApplicationState Operations.

(** ** tokio's semaphore *)

Class Semaphore := {
  sem : Type;
  sem_new : nat → sem;
  sem_available : sem → nat;
  try_acquire : sem → option sem;    (* [try_acquire_owned]: the semaphore without a permit *)
  sem_release : sem → sem;           (* dropping a permit *)
}.

Class SemaphoreLaws `{Semaphore} := {
  sem_new_available : ∀ n, sem_available (sem_new n) = n;
  try_acquire_none : ∀ s, try_acquire s = None ↔ sem_available s = 0;
  try_acquire_some : ∀ s s', try_acquire s = Some s' → sem_available s = S (sem_available s');
  sem_release_available : ∀ s, sem_available (sem_release s) = S (sem_available s);
}.

Definition counting_semaphore : Semaphore := {|
  sem := nat;
  sem_new n := n;
  sem_available n := n;
  try_acquire n := match n with 0 => None | S m => Some m end;
  sem_release := S;
|}.

Lemma counting_semaphore_laws : @SemaphoreLaws counting_semaphore.
Proof. split; simpl; try done; intros [|n]; naive_solver. Qed.

(** ** Events of the builders *)

Inductive BuilderEvent :=
| EvRecoverAfterRestart | EvPreparing | EvSourceReady | EvBuilding | EvImageReady
| EvDeploying | EvRouting | EvHealthCheck | EvDeployed | EvCancelled
| EvMessage (text : string) | EvFailed (error : string).

Definition builder_event_state (e : BuilderEvent) : string :=
  match e with
  | EvPreparing => "PREPARING"
  | EvSourceReady => "SOURCE_READY"
  | EvBuilding => "BUILDING"
  | EvImageReady => "IMAGE_READY"
  | EvDeploying => "DEPLOYING"
  | EvRouting => "ROUTING"
  | EvHealthCheck => "HEALTH_CHECK"
  | EvDeployed => "DEPLOYED"
  | EvCancelled => "CANCELLED"
  | EvMessage _ => "MESSAGE"
  | EvFailed _ => "FAILED"
  | EvRecoverAfterRestart => "RECOVER_AFTER_RESTART"
  end.

Definition builder_event_state_opt (e : BuilderEvent) : option DeployState :=
  match e with
  | EvPreparing => Some Preparing
  | EvSourceReady => Some GitSuccess
  | EvBuilding => Some Building
  | EvImageReady => Some BuildSuccess
  | EvDeploying | EvRouting => Some Deploying
  | EvHealthCheck => Some HealthCheck
  | EvDeployed => Some Deployed
  | EvCancelled => Some StoppedByUser
  | EvFailed error => Some (Failed error)
  | EvRecoverAfterRestart => Some RecoverAfterRestart
  | EvMessage _ => None
  end.

(** [record_builder_events] of [deployment_log.rs], the writes to the database: every
    event but a message becomes the state of the running deployment; a failed write is
    logged and skipped. *)
Definition record_builder_event (now deployment_id : Z) (db : Db) (e : BuilderEvent) : Db :=
  match e with
  | EvMessage _ => db
  | _ =>
      let message := match e with EvFailed err => Some err | _ => None end in
      match update_state_if_running now deployment_id (builder_event_state e) message db with
      | Ok db' => db'
      | Err _ => db
      end
  end.

(** [log_path] is the path of the log file when it could be opened. *)
Definition record_builder_events (now deployment_id : Z) (log_path : option string)
    (events : list BuilderEvent) (db : Db) : Db :=
  let db' := match log_path with
             | Some path => match update_log_path deployment_id path db with
                            | Ok db' => db'
                            | Err _ => db
                            end
             | None => db
             end in
  fold_left (record_builder_event now deployment_id) events db'.

Definition is_cancelled_error (error : string) : bool :=
  contains "cancel" (to_ascii_lowercase error).

(** ** Notifications *)

Inductive NotificationTrigger :=
| AppDeploy | AppBuildError | DatabaseBackup | VolumeBackup | PanelRestart | DockerCleanup
| ServerThreshold | PanelBackup | ScheduleSuccess | ScheduleFailure.
Inductive NotificationLevel := LevelInfo | LevelWarning | LevelCritical.

Record NotificationMessage := mkMessage {
  nm_title : string;
  nm_body : string;
  nm_level : NotificationLevel;
  nm_fields : list (string * string);
}.

(** A message for one organization *)
Record Notification := mkNotification {
  nt_organization_id : Z;
  nt_trigger : NotificationTrigger;
  nt_message : NotificationMessage;
}.

Definition deployment_notification_trigger (final_status : string) : option NotificationTrigger :=
  if bool_decide (final_status = "DONE") then Some AppDeploy
  else if bool_decide (final_status = "CANCELLED") then None
  else Some AppBuildError.

Definition deployment_organization_id (application_id compose_id database_id : option Z)
    (database_kind : option string) (db : Db) : option Z :=
  match application_id with
  | Some id => result_ok (application_organization_id id db)
  | None =>
      match compose_id with
      | Some id => result_ok (compose_organization_id id db)
      | None =>
          match database_id, database_kind with
          | Some id, Some kind => result_ok (database_organization_id id kind db)
          | _, _ => None
          end
      end
  end.

Definition describe_deployment_target (application_id compose_id database_id : option Z)
    (database_kind : option string) (db : Db) : string * string :=
  match application_id with
  | Some id => ("Application", default (i64_to_string id) (a_name <$> find_application id db))
  | None =>
      match compose_id with
      | Some id => ("Compose", default (i64_to_string id) (c_name <$> find_compose id db))
      | None =>
          match database_id, database_kind with
          | Some id, Some kind =>
              ("Database", default (i64_to_string id) (result_ok (get_database_app_name id kind db)))
          | _, _ => ("Deployment", "unknown")
          end
      end
  end.

Definition notify_deployment_finished (deployment_id : Z)
    (application_id compose_id database_id : option Z) (database_kind : option string)
    (operation final_status : string) (error_message : option string) (db : Db)
    : option Notification :=
  match deployment_notification_trigger final_status with
  | None => None
  | Some trigger =>
      let succeeded := bool_decide (final_status = "DONE") in
      let '(kind, name) :=
        describe_deployment_target application_id compose_id database_id database_kind db in
      match deployment_organization_id application_id compose_id database_id database_kind db with
      | None => None
      | Some organization_id =>
          let title := kind +:+ " " +:+ operation
                         +:+ (if succeeded then " succeeded: " else " failed: ") +:+ name in
          let body := match error_message with
                      | Some e => e
                      | None => kind +:+ " " +:+ name +:+ " finished " +:+ operation
                                  +:+ " successfully."
                      end in
          Some (mkNotification organization_id trigger
            (mkMessage title body (if succeeded then LevelInfo else LevelCritical)
               ([("Resource", kind +:+ " " +:+ name); ("Operation", operation);
                 ("Status", final_status); ("Deployment", i64_to_string deployment_id)]
                ++ match error_message with Some e => [("Error", e)] | None => [] end)))
      end
  end.

(** ** A worker's job *)

(** What the worker executes *)
Inductive Work :=
| WorkApp (id : Z) (op : ApplicationOperation)
| WorkCompose (id : Z) (op : ComposeOperation)
| WorkDatabase (id : Z) (kind : string) (op : DatabaseOperation).

Definition process_work (deployment_id : Z) (application_id compose_id database_id : option Z)
    (database_kind : option string) (operation : string) : result Work string :=
  match application_id, compose_id, database_id, database_kind with
  | Some app_id, None, None, None => Ok (WorkApp app_id (parse_application_operation operation))
  | None, Some cmp_id, None, None => Ok (WorkCompose cmp_id (parse_compose_operation operation))
  | None, None, Some db_id, db_kind_opt =>
      let db_kind := match db_kind_opt with
                     | Some k => if negb (str_is_empty k) then k else "postgres"
                     | None => "postgres"
                     end in
      Ok (WorkDatabase db_id db_kind (parse_database_operation operation))
  | _, _, _, _ =>
      Err ("Execution failed: deployment " +:+ i64_to_string deployment_id
             +:+ " must have exactly one of application_id, compose_id, or database_id/kind")
  end.

Definition outcome_status (r : result unit string) : string :=
  match r with
  | Ok _ => "DONE"
  | Err e => if is_cancelled_error e then "CANCELLED" else "ERROR"
  end.

Definition outcome_error (r : result unit string) : option string :=
  match r with Ok _ => None | Err e => Some e end.

Definition resource_target_status (final_status operation : string) : string :=
  if bool_decide (final_status = "DONE") then
    if eq_ignore_ascii_case operation "stop" then as_str CsStopped else as_str CsRunning
  else as_str CsError.

(** The writes of the repository whose error is only logged *)
Definition or_unchanged (r : result Db SqlError) (db : Db) : Db :=
  match r with Ok db' => db' | Err _ => db end.

Section queue.
Context `{Watch} `{Semaphore}.

(** The entries of the in-memory state a finished job removes *)
Definition forget_job (application_id compose_id database_id : option Z)
    (database_kind : option string) (s : ApplicationState) : ApplicationState :=
  let s1 := match application_id with Some id => remove_state (AppId id) s | None => s end in
  let s2 := match compose_id with Some id => remove_state (ComposeId id) s1 | None => s1 end in
  match database_id, database_kind with
  | Some id, Some _ => remove_state (DatabaseId id) s2
  | _, _ => s2
  end.

(** [process]: [execute] is what running the work gave. *)
Definition process (now : Z) (execute : Work → result unit string) (deployment_id : Z)
    (application_id compose_id database_id : option Z) (database_kind : option string)
    (operation : string) (db : Db) (s : ApplicationState)
    : Db * ApplicationState * option Notification :=
  let result :=
    let? w := process_work deployment_id application_id compose_id database_id database_kind
                operation in execute w in
  let final_status := outcome_status result in
  let error_message := outcome_error result in
  let db' := or_unchanged
    (finalize_with_resource now deployment_id final_status error_message application_id
       compose_id database_id database_kind (resource_target_status final_status operation) db)
    db in
  (db', forget_job application_id compose_id database_id database_kind s,
   notify_deployment_finished deployment_id application_id compose_id database_id database_kind
     operation final_status error_message db').

(** ** The queue *)

Record Worker := mkWorker { w_claim : DeploymentClaim; w_server : option Z }.

Record QueueState := mkQueue {
  q_limit : nat;                       (* [per_server_limit] *)
  q_slots : gmap (option Z) sem;       (* [slots] *)
  q_workers : list Worker;             (* the spawned tasks, each holding a permit *)
  q_db : Db;
  q_app : ApplicationState;
  q_started : bool;
  q_notified : bool;                   (* a stored permit of [Notify] *)
  q_outbox : list Notification;
}.

(** [DEPLOYMENT_PER_SERVER_CONCURRENCY], parsed, or one; at least one *)
Definition queue_new (env_limit : option nat) (db : Db) (s : ApplicationState) : QueueState :=
  mkQueue (Nat.max (default 1 env_limit) 1) ∅ [] db s false false [].

Definition notify (q : QueueState) : QueueState :=
  mkQueue (q_limit q) (q_slots q) (q_workers q) (q_db q) (q_app q) (q_started q) true (q_outbox q).

Definition with_db (db : Db) (q : QueueState) : QueueState :=
  mkQueue (q_limit q) (q_slots q) (q_workers q) db (q_app q) (q_started q) (q_notified q)
    (q_outbox q).
Definition with_slot (server : option Z) (m : sem) (q : QueueState) : QueueState :=
  mkQueue (q_limit q) (<[server := m]> (q_slots q)) (q_workers q) (q_db q) (q_app q)
    (q_started q) (q_notified q) (q_outbox q).

(** [DEPLOYMENT_QUEUE_MAX_SIZE], parsed, or a hundred; at least one *)
Definition queue_max_size (env : option Z) : Z := Z.max (default 100%Z env) 1.

Definition ensure_capacity (env : option Z) (db : Db) : result unit SqlError :=
  let max_size := queue_max_size env in
  let queued := get_queued_count db in
  if (max_size <=? queued)%Z then
    Err (Protocol ("deployment queue is full (" +:+ i64_to_string queued +:+ "/"
           +:+ i64_to_string max_size +:+ "); try again later"))
  else Ok tt.

(** The ids are read for the log files of the cancelled deployments. *)
Definition cancel_queued_application (application_id now : Z) (db : Db)
    : result (Db * (bool * list Z)) SqlError :=
  let ids := get_queued_ids_for_application application_id db in
  let? (db', cancelled) := cancel_queued_for_application application_id now db in
  Ok (db', (cancelled, if cancelled then ids else [])).
Definition cancel_queued_compose (compose_id now : Z) (db : Db)
    : result (Db * (bool * list Z)) SqlError :=
  let ids := get_queued_ids_for_compose compose_id db in
  let? (db', cancelled) := cancel_queued_for_compose compose_id now db in
  Ok (db', (cancelled, if cancelled then ids else [])).
Definition cancel_queued_database (database_id now : Z) (db : Db)
    : result (Db * (bool * list Z)) SqlError :=
  let ids := get_queued_ids_for_database database_id db in
  let? (db', cancelled) := cancel_queued_for_database database_id now db in
  Ok (db', (cancelled, if cancelled then ids else [])).

(** [semaphore_for] without the insertion: the slot of a server *)
Definition semaphore_for (server : option Z) (q : QueueState) : sem :=
  default (sem_new (q_limit q)) (q_slots q !! server).

(** One turn of the loop of [dispatch_available] *)
Definition dispatch_one (now : Z) (q : QueueState) (item : Z * option Z) : QueueState :=
  let '(deployment_id, server_id) := item in
  let sm := semaphore_for server_id q in
  match try_acquire sm with
  | None => with_slot server_id sm q
  | Some taken =>
      match claim_queued_deployment deployment_id now (q_db q) with
      | Ok (db', Some claim) =>
          mkQueue (q_limit q) (<[server_id := taken]> (q_slots q))
            (q_workers q ++ [mkWorker claim server_id]) db' (q_app q) (q_started q)
            (q_notified q) (q_outbox q)
      | Ok (db', None) => with_slot server_id (sem_release taken) (with_db db' q)
      | Err _ => with_slot server_id (sem_release taken) q
      end
  end.

Definition dispatch_available (now : Z) (q : QueueState) : QueueState :=
  fold_left (dispatch_one now) (get_queued_deployments_grouped (q_db q)) q.

(** One turn of [dispatch_loop]: waits for a notification, then dispatches. *)
Definition dispatch_turn (now : Z) (q : QueueState) : QueueState :=
  if q_notified q then
    dispatch_available now
      (mkQueue (q_limit q) (q_slots q) (q_workers q) (q_db q) (q_app q) (q_started q) false
         (q_outbox q))
  else q.

(** The end of a spawned task: its job, or what is recorded when the job panicked,
    then the permit is dropped and the dispatcher woken. *)
Inductive JobEnd := Finished (execute : Work → result unit string) | Panicked.

Definition worker_operation (c : DeploymentClaim) : string := default "deploy" (cl_operation c).

Definition finish_job (now : Z) (c : DeploymentClaim) (e : JobEnd) (db : Db)
    (s : ApplicationState) : Db * ApplicationState * option Notification :=
  match e with
  | Finished execute =>
      process now execute (cl_id c) (cl_application_id c) (cl_compose_id c)
        (cl_database_id c) (cl_database_kind c) (worker_operation c) db s
  | Panicked =>
      (or_unchanged
         (finalize_with_resource now (cl_id c) "ERROR" (Some "builder worker panicked")
            (cl_application_id c) (cl_compose_id c) (cl_database_id c) (cl_database_kind c)
            "ERROR" db) db, s, None)
  end.

Definition finish_worker (now : Z) (before : list Worker) (w : Worker) (after : list Worker)
    (e : JobEnd) (q : QueueState) : QueueState :=
  let '(db', s', n) := finish_job now (w_claim w) e (q_db q) (q_app q) in
  mkQueue (q_limit q)
    (<[w_server w := sem_release (semaphore_for (w_server w) q)]> (q_slots q))
    (before ++ after) db' s' (q_started q) true
    (q_outbox q ++ match n with Some x => [x] | None => [] end).

(** *** Start-up *)

(** [kill_remote_pid]: [killed] says whether the remote process could be killed;
    when it was, its pid file is forgotten. *)
Definition kill_remote_pid (killed : Z → string → bool) (db : Db) (job : Z * Z * string)
    : Db * bool :=
  let '(deployment_id, server_id, pid_file) := job in
  if killed server_id pid_file then (or_unchanged (set_pid_null deployment_id db) db, true)
  else (db, false).

Definition cleanup_stale_remote_jobs (killed : Z → string → bool) (db : Db) : Db :=
  fold_left (λ d job, (kill_remote_pid killed d job).1) (get_running_remote_jobs db) db.

Definition recover_stale_deployments (killed : Z → string → bool) (now : Z) (db : Db) : Db :=
  let db1 := cleanup_stale_remote_jobs killed db in
  let db2 := or_unchanged (mark_interrupted_as_recovered now db1) db1 in
  let db3 := or_unchanged (recover_stale_application_statuses db2) db2 in
  let db4 := or_unchanged (recover_stale_compose_statuses db3) db3 in
  or_unchanged (recover_stale_database_statuses db4) db4.

(** One attempt of [retry_stale_remote_cleanup] and the number of jobs still pending;
    [killed] may answer differently at each of the twenty attempts. *)
Definition retry_attempt (killed : Z → string → bool) (db : Db) : Db * nat :=
  fold_left (λ acc job,
      let '(d, pending) := acc in
      let '(d', ok) := kill_remote_pid killed d job in
      (d', if ok then pending else S pending))
    (get_recovered_remote_jobs db) (db, 0).

Fixpoint retry_stale_remote_cleanup (attempts : list (Z → string → bool)) (db : Db) : Db :=
  match attempts with
  | [] => db
  | killed :: rest =>
      match get_recovered_remote_jobs db with
      | [] => db
      | _ :: _ =>
          let '(db', pending) := retry_attempt killed db in
          if bool_decide (pending = 0) then db' else retry_stale_remote_cleanup rest db'
      end
  end.

(** [start]: the second call returns at once. *)
Definition start (killed : Z → string → bool) (now : Z) (q : QueueState) : QueueState :=
  if q_started q then q
  else
    mkQueue (q_limit q) (q_slots q) (q_workers q)
      (recover_stale_deployments killed now (q_db q)) (q_app q) true true (q_outbox q).
End queue.
