(* ===== verification/QueueProps.v ===== *)
(** * The builder queue: safety and scheduling

    In every reachable state of the queue a server runs at most its limit of workers,
    no two workers run the same deployment and the database is well formed; a dispatch
    starts, for every server, exactly the oldest queued deployments its free permits
    allow. *)

From stdpp Require Import gmap strings list sorting.
From Stdlib Require Import ZArith Lia.
From S2P Require Import Prelude RustStr StringEnum Sql DeploymentDb DeploymentInv ApplicationState Operations BuilderQueue.

(** ** Claims *)

Lemma has_id_spec id d : has_id id d = true ↔ d_id d = id.
Proof. apply Z.eqb_eq. Qed.

Definition claimable (id : Z) (d : Deployment) : bool := has_id id d && has_status "QUEUED" d.

(** A claim never fails on a well-formed database: a queued row already occupies its
    place in the unique indexes. *)
Lemma claim_spec id now db :
  db_wf db →
  claim_queued_deployment id now db
  = Ok (with_deployments (mkTable (map (updated (claimable id) (started now)) (rows (deployments db)))
          (seq (deployments db))) db,
        as_claim <$> sql_first (claimable id) (deployments db)).
Proof.
  intros Hwf. unfold claim_queued_deployment, update_deployments.
  fold (claimable id). rewrite (sql_update_success _ _ _ _ (wf_deployments db Hwf)).
  - done.
  - done.
  - intros d _ _. done.
  - intros d x _ Hp Hc. apply andb_true_iff in Hp as [_ Hq%has_status_spec].
    revert Hc. simpl. unfold deployment_conflict, is_active. simpl. by rewrite Hq.
Qed.

Lemma claim_row db d :
  db_wf db → d ∈ rows (deployments db) → has_status "QUEUED" d = true →
  sql_first (claimable (d_id d)) (deployments db) = Some d.
Proof.
  intros Hwf Hd Hq. destruct (sql_first _ _) as [x|] eqn:E.
  - apply sql_first_Some in E as [Hx Hp]. unfold claimable in Hp. bsimp. f_equal.
    apply has_id_spec in H. by apply (wf_lookup_unique _ _ _ (wf_deployments db Hwf)).
  - apply sql_first_None, existsb_false with (x := d) in E; [|done].
    unfold claimable in E. rewrite Hq in E. unfold has_id in E. by rewrite Z.eqb_refl in E.
Qed.

(** The claimed row is running afterwards, the others are untouched. *)
Lemma updated_claim_other id now d :
  d_id d ≠ id → updated (claimable id) (started now) d = d.
Proof.
  intros Hne. unfold updated, claimable, has_id. by rewrite (proj2 (Z.eqb_neq _ _) Hne).
Qed.

Lemma updated_claim_not_queued id now d :
  d_id d = id → has_status "QUEUED" (updated (claimable id) (started now) d) = false.
Proof.
  intros <-. unfold updated, claimable, has_id. rewrite Z.eqb_refl. simpl.
  by destruct (has_status "QUEUED" d) eqn:E.
Qed.

Section queue_props.
Context `{Watch} `{SemaphoreLaws}.

(** ** The invariant *)

Definition at_server (s : option Z) (w : Worker) : bool := bool_decide (w_server w = s).
Definition workers_at (s : option Z) (q : QueueState) : list Worker :=
  List.filter (at_server s) (q_workers q).
Definition free_permits (s : option Z) (q : QueueState) : nat := sem_available (semaphore_for s q).
Definition worker_id (w : Worker) : Z := cl_id (w_claim w).

(** [id] names a deployment that exists or existed and is not queued. *)
Definition never_queued (id : Z) (db : Db) : Prop :=
  (id ≤ seq (deployments db))%Z
  ∧ ∀ d, d ∈ rows (deployments db) → d_id d = id → has_status "QUEUED" d = false.

Record queue_wf (q : QueueState) : Prop := {
  wf_db : db_wf (q_db q);
  wf_permits : ∀ s, free_permits s q + length (workers_at s q) = q_limit q;
  wf_limit : 1 ≤ q_limit q;
  wf_distinct : NoDup (map worker_id (q_workers q));
  wf_claimed : ∀ w, w ∈ q_workers q → never_queued (worker_id w) (q_db q);
}.

Lemma never_queued_exec id ops db :
  db_wf db → forallb lifecycle_op ops = true → never_queued id db → never_queued id (exec ops db).
Proof.
  intros Hwf Hl [Hs Hn]. destruct (exec_no_new (has_status "QUEUED") ops db Hl) as [Hseq Hnew].
  split; [lia|]. intros d' Hd' Hid. destruct (has_status "QUEUED" d') eqn:Hq; [|done]. exfalso.
  destruct (Hnew d' Hd' Hq) as [(d & Hd & Hid' & Hq')|]; [|lia].
  rewrite Hn in Hq' by congruence. done.
Qed.

Lemma or_unchanged_exec o db : or_unchanged (apply_op o db) db = exec [o] db.
Proof. done. Qed.

Lemma outcome_status_final r : final_status (outcome_status r) = true.
Proof. destruct r; simpl; [done|]. by destruct (is_cancelled_error e). Qed.

(** Whatever a job does when it ends is a life-cycle write. *)
Lemma finish_job_exec now c e db s :
  ∃ o, lifecycle_op o = true ∧ (finish_job now c e db s).1.1 = exec [o] db.
Proof.
  destruct e as [execute|]; simpl.
  - set (r := result_bind _ _).
    exists (OpFinalize now (cl_id c) (outcome_status r) (outcome_error r) (cl_application_id c)
      (cl_compose_id c) (cl_database_id c) (cl_database_kind c)
      (resource_target_status (outcome_status r) (worker_operation c))).
    split; [apply outcome_status_final | done].
  - exists (OpFinalize now (cl_id c) "ERROR" (Some "builder worker panicked")
      (cl_application_id c) (cl_compose_id c) (cl_database_id c) (cl_database_kind c) "ERROR").
    done.
Qed.

(** ** Steps *)

Inductive queue_step : QueueState → QueueState → Prop :=
| step_dispatch now item q : queue_step q (dispatch_one now q item)
| step_call o q : lifecycle_op o = true → queue_step q (with_db (exec [o] (q_db q)) q)
| step_finish now before w after e q :
    q_workers q = before ++ w :: after →
    queue_step q (finish_worker now before w after e q)
| step_memory s q :
    queue_step q (mkQueue (q_limit q) (q_slots q) (q_workers q) (q_db q) s (q_started q)
                    (q_notified q) (q_outbox q))
| step_notify q : queue_step q (notify q).

Lemma free_with_slot s s' m q :
  free_permits s' (with_slot s m q) = if decide (s' = s) then sem_available m else free_permits s' q.
Proof.
  unfold free_permits, semaphore_for. simpl. destruct (decide (s' = s)) as [->|Hne].
  - by rewrite lookup_insert_eq.
  - by rewrite lookup_insert_ne by done.
Qed.

(** Putting a semaphore with the same number of permits back changes nothing. *)
Lemma with_slot_wf s m q :
  queue_wf q → sem_available m = free_permits s q → queue_wf (with_slot s m q).
Proof.
  intros [H1' H2' H3' H4' H5'] Hm. split; simpl; auto. intros s'.
  rewrite free_with_slot. specialize (H2' s'). destruct (decide (s' = s)) as [->|]; [|done].
  by rewrite Hm.
Qed.

Lemma with_db_wf o q :
  queue_wf q → lifecycle_op o = true → queue_wf (with_db (exec [o] (q_db q)) q).
Proof.
  intros [H1' H2' H3' H4' H5'] Hl. split; simpl; auto.
  - by apply (exec_wf [o]).
  - intros w Hw. apply (never_queued_exec _ [o]); auto. simpl. by rewrite Hl.
Qed.

Lemma workers_at_app s l1 l2 :
  List.filter (at_server s) (l1 ++ l2) = List.filter (at_server s) l1 ++ List.filter (at_server s) l2.
Proof. apply List.filter_app. Qed.

(** A successful claim of a queued row by a worker that holds a permit *)
Lemma dispatch_claim_wf now id s taken db' c q :
  queue_wf q → try_acquire (semaphore_for s q) = Some taken →
  claim_queued_deployment id now (q_db q) = Ok (db', Some c) →
  queue_wf (mkQueue (q_limit q) (<[s := taken]> (q_slots q)) (q_workers q ++ [mkWorker c s]) db'
              (q_app q) (q_started q) (q_notified q) (q_outbox q)).
Proof.
  intros [Hdb Hp Hlim Hnd Hcl] Ht Hc.
  assert (db' = exec [OpClaim id now] (q_db q)) as Hex by (simpl; by rewrite Hc).
  rewrite claim_spec in Hc by done. injection Hc as Hdb' Hf.
  apply fmap_Some in Hf as (d & [Hd Hq]%sql_first_Some & ->).
  unfold claimable in Hq. apply andb_true_iff in Hq as [Hid%has_id_spec Hq].
  split; simpl.
  - rewrite Hex. by apply exec_wf.
  - intros s'. specialize (Hp s'). revert Hp. unfold free_permits, semaphore_for, workers_at. simpl.
    rewrite workers_at_app, length_app. simpl. unfold at_server at 3. simpl.
    destruct (decide (s = s')) as [<-|Hne].
    + rewrite lookup_insert_eq, bool_decide_eq_true_2 by done. simpl.
      apply try_acquire_some in Ht. unfold semaphore_for in Ht. rewrite Ht. lia.
    + rewrite lookup_insert_ne, bool_decide_eq_false_2 by done. simpl. lia.
  - done.
  - rewrite map_app. apply NoDup_app. split_and!; [done| |apply NoDup_singleton].
    intros i (w & -> & Hw)%elem_of_mapb Hi%list_elem_of_singleton.
    destruct (Hcl w Hw) as [_ Hn]. rewrite (Hn d Hd) in Hq; [done|]. by rewrite Hi.
  - intros w [Hw|Hw%list_elem_of_singleton]%elem_of_app; [|subst w].
    + rewrite Hex. by apply never_queued_exec, Hcl.
    + unfold worker_id. simpl. rewrite <- Hdb'. split; simpl.
      * apply (wf_seq _ (wf_deployments _ Hdb) d Hd).
      * intros x (y & -> & Hy)%elem_of_mapb Hx. apply updated_claim_not_queued.
        rewrite <- Hid, <- Hx. unfold updated. by destruct (claimable id y).
Qed.

Lemma dispatch_one_wf now item q : queue_wf q → queue_wf (dispatch_one now q item).
Proof.
  intros Hwf. destruct item as [id s]. unfold dispatch_one.
  destruct (try_acquire (semaphore_for s q)) as [taken|] eqn:Ht.
  2: by apply with_slot_wf.
  pose proof (try_acquire_some _ _ Ht) as Ha.
  destruct (claim_queued_deployment id now (q_db q)) as [[db' [c|]]|e] eqn:Hc.
  - by eapply dispatch_claim_wf.
  - apply with_slot_wf.
    + assert (db' = exec [OpClaim id now] (q_db q)) as -> by (simpl; by rewrite Hc).
      by apply with_db_wf.
    + rewrite sem_release_available. unfold free_permits. simpl. by rewrite <- Ha.
  - apply with_slot_wf; [done|]. by rewrite sem_release_available, <- Ha.
Qed.

Lemma finish_worker_wf now before w after e q :
  q_workers q = before ++ w :: after → queue_wf q → queue_wf (finish_worker now before w after e q).
Proof.
  intros Hw [Hdb Hp Hlim Hnd Hcl]. unfold finish_worker.
  destruct (finish_job_exec now (w_claim w) e (q_db q) (q_app q)) as (o & Hl & Hex).
  destruct (finish_job _ _ _ _ _) as [[db' s'] n]. simpl in Hex. subst db'.
  rewrite Hw in Hnd. split; simpl; [ | | done | | ].
  - by apply (exec_wf [o]).
  - intros s. specialize (Hp s). revert Hp. unfold free_permits, semaphore_for, workers_at. simpl.
    rewrite Hw, !workers_at_app, !length_app. cbn [List.filter]. unfold at_server at 2.
    destruct (decide (w_server w = s)) as [<-|Hne].
    + rewrite lookup_insert_eq, bool_decide_eq_true_2 by done. simpl.
      rewrite sem_release_available. lia.
    + rewrite lookup_insert_ne, bool_decide_eq_false_2 by done. lia.
  - eapply sublist_NoDup; [exact Hnd|]. rewrite !map_app. apply sublist_app; [done|].
    by apply sublist_cons.
  - intros w' Hw'. apply (never_queued_exec _ [o]); [done | simpl; by rewrite Hl|].
    apply Hcl. rewrite Hw. apply elem_of_app in Hw' as [?|?]; apply elem_of_app; [by left|].
    right. by apply elem_of_cons; right.
Qed.

Lemma queue_step_wf q q' : queue_step q q' → queue_wf q → queue_wf q'.
Proof.
  intros [now item q0 | o q0 Hl | now b w a e q0 Hw | s q0 | q0] Hwf.
  - by apply dispatch_one_wf.
  - by apply with_db_wf.
  - by apply finish_worker_wf.
  - destruct Hwf as [? ? ? ? ?]. by split.
  - destruct Hwf as [? ? ? ? ?]. by split.
Qed.

Lemma queue_new_wf env db s : db_wf db → queue_wf (queue_new env db s).
Proof.
  intros Hdb. split; simpl; [done | | lia | constructor | by intros w ?%elem_of_nil].
  intros s'. unfold free_permits, semaphore_for, workers_at. simpl.
  rewrite lookup_empty. simpl. rewrite sem_new_available. lia.
Qed.

Lemma reachable_wf q q' : rtc queue_step q q' → queue_wf q → queue_wf q'.
Proof. induction 1; eauto using queue_step_wf. Qed.

(** C3: In every reachable state of the builder queue no server runs more workers than the per-
    server limit, no deployment has two workers, the database invariant holds, and a deployment
    with a worker cannot be claimed again. *)
Theorem queue_never_exceeds_its_limit (env : option nat) (db : Db) (s : ApplicationState)
    (q : QueueState) (Hdb : db_wf db) (Hreach : rtc queue_step (queue_new env db s) q) :
  (∀ server, length (workers_at server q) ≤ q_limit q)
  ∧ NoDup (map worker_id (q_workers q))
  ∧ db_wf (q_db q)
  ∧ ∀ w, w ∈ q_workers q → ∀ now db' c,
      claim_queued_deployment (worker_id w) now (q_db q) = Ok (db', c) → c = None.
Proof.
  destruct (reachable_wf _ _ Hreach (queue_new_wf env db s Hdb)) as [H1' H2' H3' H4' H5'].
  split_and!; auto.
  - intros server. specialize (H2' server). lia.
  - intros w Hw now db' c Hc. rewrite claim_spec in Hc by done. injection Hc as _ <-.
    destruct (sql_first _ _) as [d|] eqn:E; [|done].
    apply sql_first_Some in E as [Hd Hq]. apply andb_true_iff in Hq as [Hid%has_id_spec Hq].
    destruct (H5' w Hw) as [_ Hn]. by rewrite (Hn d Hd Hid) in Hq.
Qed.

(** ** Scheduling *)

Definition job_of (d : Deployment) : Z * option Z := (d_id d, d_server_id d).
Definition worker_for (d : Deployment) : Worker := mkWorker (as_claim d) (d_server_id d).
Definition bound_for (s : option Z) (d : Deployment) : bool := bool_decide (d_server_id d = s).

(** The rows still waiting in the loop of a dispatch are queued in the database. *)
Definition waiting (l : list Deployment) (db : Db) : Prop :=
  NoDup (map d_id l)
  ∧ ∀ d, d ∈ l → d ∈ rows (deployments db) ∧ has_status "QUEUED" d = true.

Lemma waiting_after_claim now d l db :
  waiting (d :: l) db →
  waiting l (with_deployments (mkTable (map (updated (claimable (d_id d)) (started now))
               (rows (deployments db))) (seq (deployments db))) db).
Proof.
  intros [Hnd Hw]. simpl in Hnd. apply NoDup_cons in Hnd as [Hni Hnd].
  split; [done|]. intros x Hx. destruct (Hw x) as [Hr Hq]; [by apply elem_of_cons; right|].
  split; [|done]. simpl. apply elem_of_mapb. exists x. split; [|done].
  rewrite updated_claim_other; [done|]. intros E. apply Hni. rewrite <- E. apply elem_of_mapb. eauto.
Qed.

(** One turn of the loop on a queued row *)
Lemma dispatch_one_queued now d q :
  queue_wf q → d ∈ rows (deployments (q_db q)) → has_status "QUEUED" d = true →
  let q' := dispatch_one now q (job_of d) in
  if decide (free_permits (d_server_id d) q = 0) then
    q_workers q' = q_workers q ∧ q_db q' = q_db q
    ∧ ∀ s, free_permits s q' = free_permits s q
  else
    q_workers q' = q_workers q ++ [worker_for d]
    ∧ q_db q' = with_deployments (mkTable (map (updated (claimable (d_id d)) (started now))
                  (rows (deployments (q_db q)))) (seq (deployments (q_db q)))) (q_db q)
    ∧ ∀ s, free_permits s q
           = (if decide (s = d_server_id d) then S (free_permits s q') else free_permits s q').
Proof.
  intros Hwf Hd Hq q'. subst q'. unfold dispatch_one, job_of.
  destruct (try_acquire (semaphore_for (d_server_id d) q)) as [taken|] eqn:Ht.
  - pose proof (try_acquire_some _ _ Ht) as Ha. rewrite decide_False by (unfold free_permits; lia).
    rewrite (claim_spec _ _ _ (wf_db q Hwf)), (claim_row _ _ (wf_db q Hwf) Hd Hq). simpl.
    split_and!; [done..|]. intros s. unfold free_permits, semaphore_for in *. simpl.
    destruct (decide (s = d_server_id d)) as [->|Hne].
    + by rewrite lookup_insert_eq.
    + by rewrite lookup_insert_ne by done.
  - rewrite decide_True by (by apply try_acquire_none). split_and!; [done..|].
    intros s. rewrite free_with_slot. by destruct (decide _) as [->|].
Qed.

Lemma dispatch_loop_spec now l : ∀ q, queue_wf q → waiting l (q_db q) → ∀ s,
  List.filter (at_server s) (q_workers (fold_left (dispatch_one now) (map job_of l) q))
  = List.filter (at_server s) (q_workers q)
    ++ map worker_for (take (free_permits s q) (List.filter (bound_for s) l)).
Proof.
  induction l as [|d l IH]; intros q Hwf Hw s; cbn [map fold_left List.filter].
  { by rewrite take_nil, app_nil_r. }
  pose proof (dispatch_one_wf now (job_of d) q Hwf) as Hwf'.
  destruct (proj2 Hw d) as [Hd Hq]; [by apply elem_of_cons; left|].
  pose proof (dispatch_one_queued now d q Hwf Hd Hq) as Hone. cbn zeta in Hone.
  unfold bound_for at 1.
  destruct (decide (free_permits (d_server_id d) q = 0)) as [Hz|Hz].
  - destruct Hone as (Hws & Hdb & Hf). rewrite IH; [|done|].
    + rewrite Hws, Hf. case_bool_decide as Hs; [|done]. subst s. by rewrite Hz, !take_0.
    + rewrite Hdb. destruct Hw as [Hnd Hw]. apply NoDup_cons in Hnd as [_ Hnd].
      split; [done|]. intros x Hx. apply Hw. by apply elem_of_cons; right.
  - destruct Hone as (Hws & Hdb & Hf). rewrite IH; [|done|].
    + rewrite Hws, workers_at_app, (Hf s). cbn [List.filter]. unfold at_server at 2. simpl.
      case_bool_decide as Hs.
      * subst s. rewrite decide_True by done. cbn [take map]. by rewrite <- app_assoc.
      * rewrite decide_False by congruence. by rewrite app_nil_r.
    + rewrite Hdb. by apply waiting_after_claim.
Qed.

Definition queue_order (db : Db) : list Deployment :=
  sql_order_by oldest_created_first (sql_select (has_status "QUEUED") (deployments db)).

Lemma queue_order_waiting db : db_wf db → waiting (queue_order db) db.
Proof.
  intros Hwf. split.
  - unfold queue_order. rewrite sql_order_by_perm. unfold sql_select.
    eapply sublist_NoDup; [exact (wf_ids _ (wf_deployments db Hwf))|].
    apply fmap_sublist, filterb_sublist.
  - intros d Hd. by apply sql_order_by_elem, elem_of_filterb in Hd.
Qed.

Lemma dispatch_loop_wf now items : ∀ q, queue_wf q → queue_wf (fold_left (dispatch_one now) items q).
Proof.
  induction items as [|i l IH]; intros q Hwf; simpl; [done|]. by apply IH, dispatch_one_wf.
Qed.

(** C14: One dispatch pass starts on each server exactly the oldest queued deployments bound for
    it, as many as the server has free permits, in the order of their creation. *)
Theorem dispatch_starts_the_oldest (now : Z) (q : QueueState) (Hwf : queue_wf q) :
  let q' := dispatch_available now q in
  queue_wf q'
  ∧ (∀ s, workers_at s q'
          = workers_at s q
            ++ map worker_for (take (free_permits s q) (List.filter (bound_for s) (queue_order (q_db q)))))
  ∧ Sorted (λ a b, oldest_created_first a b = true) (queue_order (q_db q)).
Proof.
  intros q'. split_and!.
  - by apply dispatch_loop_wf.
  - intros s. apply (dispatch_loop_spec now); [done|]. by apply queue_order_waiting, wf_db.
  - apply sql_order_by_sorted. intros a b. unfold oldest_created_first.
    destruct (Z.lt_trichotomy (d_created_at a) (d_created_at b)) as [?|[->|?]].
    + left. apply orb_true_iff. left. by apply Z.ltb_lt.
    + rewrite Z.ltb_irrefl, Z.eqb_refl. simpl. rewrite !Z.leb_le. lia.
    + right. apply orb_true_iff. left. by apply Z.ltb_lt.
Qed.

(** A dispatch changes only rows it claims. *)
Lemma dispatch_one_keeps_queued now item q d :
  queue_wf q → d ∈ rows (deployments (q_db (dispatch_one now q item))) →
  has_status "QUEUED" d = true → d ∈ rows (deployments (q_db q)).
Proof.
  intros Hwf Hd Hq. destruct item as [id s]. unfold dispatch_one in Hd.
  destruct (try_acquire _); [|done]. rewrite (claim_spec _ _ _ (wf_db q Hwf)) in Hd.
  assert (d ∈ map (updated (claimable id) (started now)) (rows (deployments (q_db q)))) as Hm
    by (by destruct (as_claim <$> _)).
  apply elem_of_mapb in Hm as (x & -> & Hx). revert Hq. unfold updated.
  by destruct (claimable id x).
Qed.

Lemma dispatch_loop_keeps_queued now items d : ∀ q,
  queue_wf q → d ∈ rows (deployments (q_db (fold_left (dispatch_one now) items q))) →
  has_status "QUEUED" d = true → d ∈ rows (deployments (q_db q)).
Proof.
  induction items as [|i items IH]; intros q Hwf Hd Hq; simpl in *; [done|].
  apply (dispatch_one_keeps_queued now i q d Hwf); [|done].
  by apply IH; [apply dispatch_one_wf|..].
Qed.

Lemma dispatch_loop_limit now items : ∀ q, q_limit (fold_left (dispatch_one now) items q) = q_limit q.
Proof.
  induction items as [|[i s] items IH]; intros q; simpl; [done|]. rewrite IH.
  destruct (try_acquire _); [|done]. by destruct (claim_queued_deployment _ _ _) as [[? []]|].
Qed.

(** C15: After a dispatch pass a deployment is still queued only if its server runs as many
    workers as the limit allows. *)
Theorem dispatch_leaves_no_idle_permit (now : Z) (q : QueueState) (d : Deployment)
    (Hwf : queue_wf q)
    (Hd : d ∈ rows (deployments (q_db (dispatch_available now q))))
    (Hq : d_status d = "QUEUED") :
  length (workers_at (d_server_id d) (dispatch_available now q)) = q_limit q.
Proof.
  apply has_status_spec in Hq.
  pose proof (dispatch_loop_wf now (get_queued_deployments_grouped (q_db q)) q Hwf) as Hwf'.
  fold (dispatch_available now q) in Hwf'.
  pose proof (dispatch_loop_keeps_queued now _ d q Hwf Hd Hq) as Hd0.
  pose proof (dispatch_loop_spec now _ q Hwf (queue_order_waiting _ (wf_db q Hwf)) (d_server_id d))
    as Hspec. fold (workers_at (d_server_id d) q) in Hspec.
  change (List.filter _ (q_workers (fold_left _ _ q)))
    with (workers_at (d_server_id d) (dispatch_available now q)) in Hspec.
  assert (d ∈ List.filter (bound_for (d_server_id d)) (queue_order (q_db q))) as Hin.
  { apply elem_of_filterb. split; [|by apply bool_decide_eq_true].
    by apply sql_order_by_elem, elem_of_filterb. }
  pose proof (wf_permits q Hwf (d_server_id d)) as Hp.
  destruct (decide (length (List.filter (bound_for (d_server_id d)) (queue_order (q_db q)))
                    ≤ free_permits (d_server_id d) q)) as [Hle|Hgt].
  - exfalso. rewrite take_ge in Hspec by done.
    assert (worker_for d ∈ q_workers (dispatch_available now q)) as Hw.
    { apply (elem_of_filterb (at_server (d_server_id d))).
      change (worker_for d ∈ workers_at (d_server_id d) (dispatch_available now q)).
      rewrite Hspec. apply elem_of_app. right. apply elem_of_mapb. eauto. }
    destruct (wf_claimed _ Hwf' _ Hw) as [_ Hn]. by rewrite (Hn d Hd eq_refl) in Hq.
  - rewrite Hspec, length_app, length_map, length_take. lia.
Qed.
End queue_props.

(** ** Witnesses *)

Definition sample_two_queued : Db :=
  exec [OpCreateQueuedCompose 1001 "Compose deploy" None "pending-compose-1" "deploy" 1 (Some 5%Z)]
    sample_queued_db.

#[local] Instance sample_watch : Watch := counted_watch.
#[local] Instance sample_semaphore : Semaphore := counting_semaphore.
#[local] Instance sample_semaphore_laws : SemaphoreLaws := counting_semaphore_laws.

Definition sample_queue : QueueState := queue_new None sample_two_queued state_new.

Lemma sample_queue_wf : queue_wf sample_queue.
Proof. apply queue_new_wf, exec_wf, sample_queued_db_wf. Qed.

Lemma queue_limit_witness :
  ∃ q, rtc queue_step sample_queue q ∧ q_workers q ≠ []
  ∧ length (workers_at (Some 5%Z) q) ≤ 1.
Proof.
  exists (dispatch_one 2000 sample_queue (1%Z, Some 5%Z)).
  assert (rtc queue_step sample_queue (dispatch_one 2000 sample_queue (1%Z, Some 5%Z))) as Hr
    by apply rtc_once, step_dispatch.
  split; [exact Hr | split; [by vm_compute|]].
  apply (queue_never_exceeds_its_limit None sample_two_queued state_new _
    (exec_wf _ _ sample_queued_db_wf) Hr).
Defined.

Lemma dispatch_oldest_witness :
  map worker_id (workers_at (Some 5%Z) (dispatch_available 2000 sample_queue)) = [1%Z].
Proof.
  destruct (dispatch_starts_the_oldest 2000 sample_queue sample_queue_wf) as (_ & Hs & _).
  rewrite (Hs (Some 5%Z)). vm_compute. reflexivity.
Defined.

Lemma dispatch_idle_witness :
  ∃ d, d ∈ rows (deployments (q_db (dispatch_available 2000 sample_queue)))
  ∧ d_status d = "QUEUED"
  ∧ length (workers_at (d_server_id d) (dispatch_available 2000 sample_queue)) = 1.
Proof.
  set (d := mkDeployment 2 "Compose deploy" None "QUEUED" "QUEUE" "pending-compose-1" None None
    (Some "deploy") 0 None (Some 1001%Z) None None (Some 1%Z) (Some 5%Z) 1001 None None).
  assert (d ∈ rows (deployments (q_db (dispatch_available 2000 sample_queue)))) as Hd.
  { vm_compute. apply list_elem_of_further, list_elem_of_here. }
  exists d. split; [exact Hd | split; [reflexivity|]].
  exact (dispatch_leaves_no_idle_permit 2000 sample_queue d sample_queue_wf Hd eq_refl).
Defined.
