(* ===== verification/DeploymentProps.v ===== *)
(** * Deployments: what the repository and the queue guarantee

    The properties of the deployment tables over arbitrary sequences of calls, of the
    claim, of cancellation, of the clean-up of finished deployments, of the record of a
    job's outcome and of the recovery after a restart. *)

From stdpp Require Import gmap strings list sorting.
From Stdlib Require Import ZArith Lia.
From S2P Require Import Prelude RustStr StringEnum Sql DeploymentDb DeploymentInv ApplicationState Operations BuilderQueue QueueProps.

(** ** At most one active deployment per resource *)

(** Two active rows of the same application or compose project collide. *)
Lemma active_unique db d1 d2 :
  db_wf db → d1 ∈ rows (deployments db) → d2 ∈ rows (deployments db) →
  is_active d1 = true → is_active d2 = true →
  same_col (d_application_id d1) (d_application_id d2) = true
  ∨ same_col (d_compose_id d1) (d_compose_id d2) = true → d1 = d2.
Proof.
  intros Hwf H1 H2 A1 A2 Hs. pose proof (wf_deployments db Hwf) as Ht.
  destruct (decide (d_id d1 = d_id d2)) as [E|Hne].
  - by apply (wf_lookup_unique (deployments db)).
  - pose proof (wf_unique _ Ht d1 d2 H1 H2 Hne) as Hc. simpl in Hc.
    unfold deployment_conflict in Hc. rewrite A1, A2 in Hc. simpl in Hc.
    apply orb_false_iff in Hc as [Ha Hc]. destruct Hs; congruence.
Qed.

(** C1: Whatever sequence of repository calls runs on the deployments database, in any order and
    with failing statements in between, the constraints of the tables hold afterwards and an
    application or compose project has at most one deployment that is queued or running. *)
Theorem one_active_deployment_per_resource (ops : list DeployOp) (db : Db) (Hwf : db_wf db) :
  let db' := exec ops db in
  db_wf db'
  ∧ ∀ d1 d2 id, d1 ∈ rows (deployments db') → d2 ∈ rows (deployments db') →
      is_active d1 = true → is_active d2 = true →
      (for_application id d1 && for_application id d2)
      || (for_compose id d1 && for_compose id d2) = true → d1 = d2.
Proof.
  intros db'. pose proof (exec_wf ops db Hwf) as Hwf'. split; [done|].
  intros d1 d2 id H1 H2 A1 A2 Hs. eapply (active_unique db'); eauto.
  unfold for_application, for_compose, col_is, same_col in *.
  apply orb_true_iff in Hs as [Hs|Hs]; [left|right];
    repeat case_match; try done; bsimp; subst; first [done | apply Z.eqb_refl].
Qed.

Lemma one_active_witness :
  let db' := exec [OpCreateQueuedApp 1 "again" None "" "deploy" 1 None] sample_queued_db in
  length (rows (deployments db')) = 1 ∧ db_wf db'.
Proof.
  intros db'. split; [by vm_compute|].
  exact (proj1 (one_active_deployment_per_resource
    [OpCreateQueuedApp 1 "again" None "" "deploy" 1 None] sample_queued_db sample_queued_db_wf)).
Defined.

(** ** Life cycle *)

(** C17: A deployment that is neither queued nor running stays so under every sequence of life-
    cycle operations, that is all but the raw row update and final writes with a status that is
    not final. *)
Theorem finished_stays_finished (ops : list DeployOp) (db : Db) (d d' : Deployment)
    (Hwf : db_wf db) (Hops : forallb lifecycle_op ops = true)
    (Hd : d ∈ rows (deployments db)) (Hfin : is_active d = false)
    (Hd' : d' ∈ rows (deployments (exec ops db))) (Hid : d_id d' = d_id d) :
  is_active d' = false.
Proof. exact (faded_for_good is_active ops db d d' Hwf Hops Hd Hfin Hd' Hid). Qed.

Definition sample_cancelled : Deployment :=
  mkDeployment 1 "Application deploy" None "CANCELLED" "CANCELLED" "pending-app-1" None None
    (Some "deploy") 0 None (Some 1500%Z) (Some 1500%Z) (Some 1%Z) None (Some 5%Z) 1000 None None.

(** The events of a build are such operations, so what holds of every history holds of a build
    in progress: its events never reopen a finished deployment or break an index. *)
Definition event_op (now id : Z) (e : BuilderEvent) : list DeployOp :=
  match e with
  | EvMessage _ => []
  | EvFailed err => [OpStateIfRunning now id (builder_event_state e) (Some err)]
  | _ => [OpStateIfRunning now id (builder_event_state e) None]
  end.
Definition event_ops (now id : Z) (log_path : option string) (events : list BuilderEvent)
    : list DeployOp :=
  match log_path with Some path => [OpLogPath id path] | None => [] end
  ++ flat_map (event_op now id) events.

Lemma exec_app ops1 ops2 db : exec (ops1 ++ ops2) db = exec ops2 (exec ops1 db).
Proof. revert db. induction ops1 as [|o ops1 IH]; intros db; simpl; [done | apply IH]. Qed.

Lemma record_builder_events_exec now id log_path events db :
  record_builder_events now id log_path events db = exec (event_ops now id log_path events) db
  ∧ forallb lifecycle_op (event_ops now id log_path events) = true.
Proof.
  unfold record_builder_events, event_ops. split.
  - assert (∀ d, fold_left (record_builder_event now id) events d
              = exec (flat_map (event_op now id) events) d) as Hev.
    { induction events as [|e events IH]; intros d; simpl; [done|]. rewrite exec_app, IH.
      by destruct e. }
    rewrite exec_app, Hev. by destruct log_path.
  - rewrite forallb_app. apply andb_true_iff. split; [by destruct log_path|].
    induction events as [|e events IH]; simpl; [done|]. rewrite forallb_app, IH. by destruct e.
Qed.

Lemma finished_witness :
  let db := exec [OpCancelQueued (TApp 1) 1500] sample_queued_db in
  d_status sample_cancelled = "CANCELLED"
  ∧ ∀ d', d' ∈ rows (deployments (exec [OpClaim 1 1600] db)) → d_id d' = 1%Z → is_active d' = false.
Proof.
  intros db. split; [reflexivity|]. intros d' Hd' Hid.
  apply (finished_stays_finished [OpClaim 1 1600] db sample_cancelled d').
  - apply exec_wf, sample_queued_db_wf.
  - reflexivity.
  - vm_compute. apply list_elem_of_here.
  - reflexivity.
  - exact Hd'.
  - exact Hid.
Defined.

(** C2: A claim succeeds only on a queued deployment, returns its columns, marks exactly that
    row as running, and no later claim of the same deployment succeeds after any sequence of
    life-cycle operations. *)
Theorem claimed_at_most_once (db db' : Db) (id now : Z) (c : DeploymentClaim)
    (ops : list DeployOp) (Hwf : db_wf db)
    (Hclaim : claim_queued_deployment id now db = Ok (db', Some c))
    (Hops : forallb lifecycle_op ops = true) :
  (∃ d, d ∈ rows (deployments db) ∧ d_id d = id ∧ d_status d = "QUEUED" ∧ c = as_claim d
        ∧ started now d ∈ rows (deployments db'))
  ∧ (∀ d, d ∈ rows (deployments db) → d_id d ≠ id → d ∈ rows (deployments db'))
  ∧ ∀ now', ∃ db'', claim_queued_deployment id now' (exec ops db') = Ok (db'', None).
Proof.
  assert (db' = exec [OpClaim id now] db) as Hex by (simpl; by rewrite Hclaim).
  assert (db_wf db') as Hwf' by (rewrite Hex; by apply exec_wf).
  rewrite claim_spec in Hclaim by done. injection Hclaim as Hdb' Hf.
  apply fmap_Some in Hf as (d & [Hd Hq]%sql_first_Some & ->).
  assert (started now d ∈ rows (deployments db')) as Hs.
  { rewrite <- Hdb'. simpl. apply elem_of_mapb. exists d. split; [|done]. unfold updated. by rewrite Hq. }
  apply andb_true_iff in Hq as [Hid%has_id_spec Hq%has_status_spec]. split_and!.
  - exists d. split_and!; auto.
  - intros x Hx Hne. rewrite <- Hdb'. simpl. apply elem_of_mapb. exists x. split; [|done].
    by rewrite updated_claim_other.
  - intros now'. pose proof (exec_wf ops db' Hwf') as Hwf''. rewrite claim_spec by done.
    eexists. do 2 f_equal. destruct (sql_first _ _) as [x|] eqn:E; [|done]. exfalso.
    apply sql_first_Some in E as [Hx Hp]. apply andb_true_iff in Hp as [Hxid%has_id_spec Hxq].
    rewrite (faded_for_good (has_status "QUEUED") ops db' (started now d) x) in Hxq; try done.
    simpl. congruence.
Qed.

Lemma claimed_once_witness :
  ∃ db' c, claim_queued_deployment 1 2000 sample_queued_db = Ok (db', Some c)
  ∧ ∃ db'', claim_queued_deployment 1 2001 (exec [OpSetPid 1 "pid"] db') = Ok (db'', None).
Proof.
  destruct (claim_queued_deployment 1 2000 sample_queued_db) as [[db' [c|]]|] eqn:E;
    [|by vm_compute in E..].
  exists db', c. split; [reflexivity|].
  exact (proj2 (proj2 (claimed_at_most_once sample_queued_db db' 1 2000 c [OpSetPid 1 "pid"]
    sample_queued_db_wf E eq_refl)) 2001%Z).
Defined.

(** ** Cancellation *)

(** No row with the status ['CANCELLING'] passes the CHECK constraint. *)
Lemma cancelling_update p now db :
  update_deployments p (cancelling now) db
  = if sql_exists p (deployments db) then Err CheckFailed else Ok (db, 0).
Proof.
  unfold update_deployments. destruct (sql_exists p (deployments db)) eqn:E.
  - by rewrite (sql_update_check_error _ p) by done.
  - rewrite sql_update_none by done. by destruct db.
Qed.

(** The three statements that write the status CANCELLING fail on the CHECK constraint of the
    table as soon as a row matches, and change nothing otherwise. *)
Theorem cancelling_a_running_deployment_is_rejected (id now : Z) (db : Db) :
  (set_cancel_requested id now db
   = if sql_exists (λ d, has_id id d && has_status "RUNNING" d) (deployments db)
     then Err CheckFailed else Ok (db, false))
  ∧ (request_cancel_deployment id now db
     = if has_running_status_deployment id db then Err CheckFailed else Ok db)
  ∧ (request_cancel_database_deployment id now db
     = if has_running_database_deployment id db then Err CheckFailed else
       if sql_exists (λ d, for_database id d && has_status "BUILDING" d) (deployments db)
       then Err CheckFailed else Ok db).
Proof.
  unfold set_cancel_requested, request_cancel_deployment, request_cancel_database_deployment,
    has_running_status_deployment, has_running_database_deployment, any_affected.
  rewrite !cancelling_update. split_and!.
  - by destruct (sql_exists _ _).
  - by destruct (sql_exists _ _).
  - unfold sql_exists.
    assert (∀ d, bool_decide (d_status d ∈ ["RUNNING"; "BUILDING"; "QUEUED"])
                 = is_active d || has_status "BUILDING" d) as Hst.
    { intros d. unfold is_active, has_status. rewrite <- bool_decide_or. apply bool_decide_ext.
      rewrite !elem_of_cons. set_solver. }
    assert (∀ l, existsb (λ d, for_database id d
                    && bool_decide (d_status d ∈ ["RUNNING"; "BUILDING"; "QUEUED"])) l
      = existsb (λ d, for_database id d && is_active d) l
        || existsb (λ d, for_database id d && has_status "BUILDING" d) l) as Hex.
    { induction l as [|d l IH]; simpl; [done|]. rewrite IH, Hst.
      destruct (for_database id d), (is_active d), (has_status "BUILDING" d),
        (existsb (λ d, for_database id d && is_active d) l); done. }
    rewrite Hex. by destruct (existsb (λ d, for_database id d && is_active d) _), (existsb _ _).
Qed.

(** ** Clean-up *)

(** Filtered clean-up deletes exactly the finished deployments that match the filter together
    with their rollbacks, keeps every queued or running one, and returns the log paths of the
    deleted ones. *)
Theorem cleanup_deletes_exactly_the_finished (a c b s : option Z) (db : Db) :
  let '(db', logs) := delete_filtered_finished a c b s db in
  (∀ d, d ∈ rows (deployments db') ↔
        d ∈ rows (deployments db) ∧ finished_filter a c b s d = false)
  ∧ (∀ d, d ∈ rows (deployments db) → is_active d = true → d ∈ rows (deployments db'))
  ∧ logs = map d_log_path (List.filter (finished_filter a c b s) (rows (deployments db)))
  ∧ (∀ r, r ∈ rows (rollbacks db') ↔ r ∈ rows (rollbacks db)
      ∧ ¬ ∃ d, d ∈ rows (deployments db) ∧ finished_filter a c b s d = true
               ∧ d_id d = rb_deployment_id r).
Proof.
  unfold delete_filtered_finished. set (p := finished_filter a c b s). split_and!.
  - intros d. rewrite delete_deployments_rows, elem_of_filterb, negb_true_iff. done.
  - intros d Hd Ha. rewrite delete_deployments_rows, elem_of_filterb. split; [done|].
    subst p. unfold finished_filter. by rewrite Ha.
  - done.
  - intros r. unfold delete_deployments. simpl. rewrite elem_of_filterb, negb_true_iff, existsb_false.
    apply and_iff_compat_l. split.
    + intros Hn (d & Hd & Hp & Hid). specialize (Hn d Hd). rewrite Hp in Hn. simpl in Hn.
      unfold has_id in Hn. rewrite Hid, Z.eqb_refl in Hn. done.
    + intros Hn d Hd. destruct (p d) eqn:Hp; [|done]. simpl. unfold has_id. apply Z.eqb_neq.
      intros Hid. apply Hn. eauto.
Qed.

(** ** The outcome of a job *)

Lemma finalized_not_active now s e d :
  final_status s = true → is_active (finalized now s e d) = false.
Proof.
  intros Hs. destruct (is_active _) eqn:E; [|done].
  apply (fading_final (Q := is_active)) in E. simpl in E. congruence.
Qed.

Lemma finalized_keeps_refs now s e : keeps_refs (finalized now s e).
Proof. by intros d. Qed.

Lemma final_status_checked s : final_status s = true → deployment_status_check s = true.
Proof. unfold final_status, deployment_status_check. rewrite !bool_decide_eq_true. set_solver. Qed.

(** An assignment of a final status always succeeds. *)
Lemma update_final_success p f db :
  db_wf db → (∀ d, d_id (f d) = d_id d) → (∀ d, final_status (d_status (f d)) = true) →
  update_deployments p f db
  = Ok (with_deployments (mkTable (map (updated p f) (rows (deployments db)))
          (seq (deployments db))) db, length (sql_select p (deployments db))).
Proof.
  intros Hwf Hid Hfin. unfold update_deployments.
  rewrite (sql_update_success _ _ _ _ (wf_deployments db Hwf)); [done| | |].
  - exact Hid.
  - intros d _ _. split; [|done]. by apply final_status_checked.
  - intros d x _ _ Hc. exfalso. simpl in Hc. unfold deployment_conflict in Hc.
    assert (is_active (f d) = false) as Ha by (by apply (fading_not_final is_active)).
    by rewrite Ha in Hc.
Qed.

(** The status of an application or compose project is written exactly when the CHECK
    admits it or there is no such row. *)
Lemma set_application_status_spec id s db :
  db_wf db →
  set_application_status id s db
  = if resource_status_check s
    then Ok (with_applications (mkTable
           (map (updated (λ a, a_id a =? id)%Z (application_with_status s)) (rows (applications db)))
           (seq (applications db))) db)
    else if sql_exists (λ a, a_id a =? id)%Z (applications db) then Err CheckFailed else Ok db.
Proof.
  intros Hwf. unfold set_application_status. destruct (resource_status_check s) eqn:Hs.
  - rewrite (sql_update_success _ _ _ _ (wf_applications db Hwf)); auto.
  - destruct (sql_exists _ _) eqn:Hex.
    + by rewrite (sql_update_check_error _ _ _ _) by done.
    + rewrite sql_update_none by done. by destruct db.
Qed.

Lemma set_compose_status_spec id s db :
  db_wf db →
  set_compose_status id s db
  = if resource_status_check s
    then Ok (with_compose (mkTable
           (map (updated (λ c, c_id c =? id)%Z (compose_with_status s)) (rows (compose_projects db)))
           (seq (compose_projects db))) db)
    else if sql_exists (λ c, c_id c =? id)%Z (compose_projects db) then Err CheckFailed else Ok db.
Proof.
  intros Hwf. unfold set_compose_status. destruct (resource_status_check s) eqn:Hs.
  - rewrite (sql_update_success _ _ _ _ (wf_compose db Hwf)); auto.
  - destruct (sql_exists _ _) eqn:Hex.
    + by rewrite (sql_update_check_error _ _ _ _) by done.
    + rewrite sql_update_none by done. by destruct db.
Qed.

Lemma set_database_rows_success k p s db :
  db_wf db → database_status_check s = true →
  set_database_rows k p s db
  = Ok (with_database k (mkTable (map (updated p (database_with_status s)) (rows (databases db k)))
          (seq (databases db k))) db).
Proof.
  intros Hwf Hs. unfold set_database_rows.
  rewrite (sql_update_success _ _ _ _ (wf_databases db Hwf k)); auto.
Qed.

Lemma settle_preview_success now id s db :
  db_wf db → ∃ t, settle_preview now id s db = Ok (with_previews t db)
  ∧ ∀ p, p ∈ rows (previews db) → p_last_deployment_id p = Some id → p_status p ≠ "CLOSED" →
      mkPreview (p_id p) (if bool_decide (s = "DONE") then "ACTIVE" else "ERROR") (Some id) now
        ∈ rows t.
Proof.
  intros Hwf. unfold settle_preview.
  rewrite (sql_update_success _ _ _ _ (wf_previews db Hwf)).
  - eexists. split; [done|]. intros p Hp Hl Hc. simpl. apply elem_of_mapb. exists p.
    split; [|done]. unfold updated. rewrite Hl. simpl. rewrite Z.eqb_refl.
    rewrite (bool_decide_eq_false_2 (p_status p = "CLOSED")) by done. done.
  - done.
  - intros p _ _. simpl. split; [|done]. by destruct (bool_decide (s = "DONE")).
  - done.
Qed.

(** The job of an application records its outcome in one transaction. *)
Lemma finalize_application now id s e a k rs db :
  db_wf db → final_status s = true → resource_status_check rs = true →
  ∃ db', finalize_with_resource now id s e (Some a) None None k rs db = Ok db'
  ∧ rows (deployments db') = map (updated (has_id id) (finalized now s e)) (rows (deployments db))
  ∧ rows (applications db')
    = map (updated (λ x, a_id x =? a)%Z (application_with_status rs)) (rows (applications db))
  ∧ (∀ p, p ∈ rows (previews db) → p_last_deployment_id p = Some id → p_status p ≠ "CLOSED" →
      mkPreview (p_id p) (if bool_decide (s = "DONE") then "ACTIVE" else "ERROR") (Some id) now
        ∈ rows (previews db')).
Proof.
  intros Hwf Hs Hrs. unfold finalize_with_resource.
  pose proof (update_final_success (has_id id) (finalized now s e) db Hwf (λ _, eq_refl) (λ _, Hs)) as E1.
  pose proof (update_deployments_wf _ _ _ _ _ Hwf (finalized_keeps_refs now s e) E1) as Hwf1.
  rewrite E1. cbn [result_bind set_resource_status].
  pose proof (set_application_status_spec a rs _ Hwf1) as E2. rewrite Hrs in E2.
  pose proof (set_application_status_wf _ _ _ _ Hwf1 E2) as Hwf2. rewrite E2. cbn [result_bind].
  destruct (settle_preview_success now id s _ Hwf2) as (t & E3 & Hp). rewrite E3.
  eexists. split; [done|]. simpl. split_and!; [done..|]. exact Hp.
Qed.

(** A resource status the CHECK rejects undoes the whole transaction. *)
Lemma finalize_rejected now id s e c b k rs db :
  db_wf db → final_status s = true → resource_status_check rs = false →
  sql_exists (λ x, c_id x =? c)%Z (compose_projects db) = true →
  finalize_with_resource now id s e None (Some c) b k rs db = Err CheckFailed.
Proof.
  intros Hwf Hs Hrs Hex. unfold finalize_with_resource.
  pose proof (update_final_success (has_id id) (finalized now s e) db Hwf (λ _, eq_refl) (λ _, Hs)) as E1.
  pose proof (update_deployments_wf _ _ _ _ _ Hwf (finalized_keeps_refs now s e) E1) as Hwf1.
  rewrite E1. cbn [result_bind set_resource_status].
  rewrite (set_compose_status_spec c rs _ Hwf1), Hrs. simpl. by rewrite Hex.
Qed.

Section outcome.
Context `{Watch}.

(** When a worker finishes an application job that is not a stop, the deployment row gets the
    outcome as its status with the error and the time, the application becomes RUNNING or ERROR,
    the in-memory entry is removed, and a notification goes only to the organization of the
    application and never for a cancelled job. *)
Theorem job_outcome_is_recorded (now : Z) (execute : Work → result unit string) (id a : Z)
    (operation : string) (db : Db) (s : ApplicationState) (Hwf : db_wf db)
    (Hop : eq_ignore_ascii_case operation "stop" = false) :
  let r := execute (WorkApp a (parse_application_operation operation)) in
  let '(db', s', n) := process now execute id (Some a) None None None operation db s in
  rows (deployments db')
    = map (updated (has_id id) (finalized now (outcome_status r) (outcome_error r)))
        (rows (deployments db))
  ∧ rows (applications db')
    = map (updated (λ x, a_id x =? a)%Z
             (application_with_status (match r with Ok _ => "RUNNING" | Err _ => "ERROR" end)))
        (rows (applications db))
  ∧ hashmap s' !! AppId a = None
  ∧ (∀ m, n = Some m → result_ok (application_organization_id a db') = Some (nt_organization_id m)
                       ∧ outcome_status r ≠ "CANCELLED").
Proof.
  intros r. unfold process. cbn [process_work result_bind]. fold r.
  set (rs := resource_target_status (outcome_status r) operation).
  assert (rs = match r with Ok _ => "RUNNING" | Err _ => "ERROR" end) as Hrs.
  { subst rs. unfold resource_target_status. rewrite Hop. destruct r as [|e]; [done|]. simpl.
    by destruct (is_cancelled_error e). }
  destruct (finalize_application now id (outcome_status r) (outcome_error r) a None rs db Hwf)
    as (db' & -> & Hd & Ha & _); [apply outcome_status_final | by rewrite Hrs; destruct r|].
  cbn [or_unchanged]. rewrite <- Hrs. split_and!; [done..| |].
  - simpl. apply lookup_delete_eq.
  - unfold notify_deployment_finished, deployment_notification_trigger, deployment_organization_id.
    intros m. destruct (bool_decide (outcome_status r = "DONE")) eqn:Hdone.
    + bsimp. rewrite Hdone. destruct (describe_deployment_target _ _ _ _ _) as [kd nm].
      destruct (result_ok _); [|done]. intros [= <-]. done.
    + destruct (bool_decide (outcome_status r = "CANCELLED")) eqn:Hc; [done|]. bsimp.
      destruct (describe_deployment_target _ _ _ _ _) as [kd nm].
      destruct (result_ok _); [|done]. by intros [= <-].
Qed.

(** When a stop of a compose project succeeds, the transaction that records the outcome fails on
    the status STOPPED and nothing of it remains: the deployment keeps running in the database. *)
Theorem successful_compose_stop_is_not_recorded (now : Z) (execute : Work → result unit string)
    (id c : Z) (db : Db) (s : ApplicationState) (Hwf : db_wf db)
    (Hc : sql_exists (λ x, c_id x =? c)%Z (compose_projects db) = true)
    (Hrun : execute (WorkCompose c ComposeStop) = Ok tt) :
  (process now execute id None (Some c) None None "stop" db s).1.1 = db.
Proof.
  unfold process. cbn [process_work result_bind].
  change (parse_compose_operation "stop") with ComposeStop. rewrite Hrun. simpl.
  by rewrite (finalize_rejected now id "DONE" None c None None _ db Hwf).
Qed.
End outcome.

Lemma job_outcome_witness :
  let execute := λ _ : Work, @Err unit string "build cancelled by user" in
  let '(db', _, n) := process (H := counted_watch) 3000 execute 1 (Some 1%Z) None None None "deploy"
                        sample_queued_db state_new in
  map d_status (rows (deployments db')) = ["CANCELLED"]
  ∧ map a_app_status (rows (applications db')) = ["ERROR"].
Proof.
  intros execute.
  pose proof (job_outcome_is_recorded (H := counted_watch) 3000 execute 1 1 "deploy" sample_queued_db
    state_new sample_queued_db_wf eq_refl) as Hw.
  destruct (process _ _ _ _ _ _ _ _ _ _) as [[db' s'] n]. destruct Hw as (-> & -> & _).
  split; vm_compute; reflexivity.
Defined.

Lemma compose_stop_witness :
  let db := exec [OpCreateQueuedCompose 1 "Compose stop" None "" "stop" 1 None; OpClaim 1 2] sample_db in
  map d_status (rows (deployments
    (process (H := counted_watch) 3000 (λ _, Ok tt) 1 None (Some 1%Z) None None "stop" db state_new).1.1))
  = ["RUNNING"].
Proof.
  intros db. rewrite (successful_compose_stop_is_not_recorded (H := counted_watch) 3000 (λ _, Ok tt)
    1 1 db state_new (exec_wf _ _ sample_db_wf) eq_refl eq_refl). vm_compute. reflexivity.
Defined.
