(* ===== verification/RecoveryProps.v ===== *)
(** * Recovery after a restart

    [recover_stale_deployments] of the builder queue: whatever was running or queued when
    the process stopped is marked as failed, and so is the status of the resources it
    left behind. *)

From stdpp Require Import gmap strings list sorting.
From Stdlib Require Import ZArith Lia.
From S2P Require Import Prelude RustStr StringEnum Sql DeploymentDb DeploymentInv ApplicationState Operations BuilderQueue QueueProps DeploymentProps.

(** ** [MAX(id)] *)

Lemma max_id_bound l m :
  max_id l = Some m → (∃ x, x ∈ l ∧ d_id x = m) ∧ ∀ x, x ∈ l → (d_id x ≤ m)%Z.
Proof.
  revert m. induction l as [|d l IH]; intros m; simpl; [done|]. intros [= <-].
  destruct (max_id l) as [n|] eqn:E.
  - destruct (IH n eq_refl) as [(x & Hx & Hid) Hb]. split.
    + destruct (Z.max_spec (d_id d) n) as [[_ ->]|[_ ->]].
      * exists x. split; [by apply elem_of_cons; right | done].
      * exists d. split; [by apply elem_of_cons; left | done].
    + intros y [->|Hy]%elem_of_cons; [lia|]. specialize (Hb y Hy). lia.
  - assert (l = []) as -> by (by destruct l). split.
    + exists d. split; [by apply elem_of_cons; left | done].
    + intros y [->|Hy]%elem_of_cons; [lia | by apply elem_of_nil in Hy].
Qed.

Lemma max_id_newest l d :
  d ∈ l → (∀ x, x ∈ l → (d_id x ≤ d_id d)%Z) → max_id l = Some (d_id d).
Proof.
  intros Hd Hmax. destruct (max_id l) as [m|] eqn:E.
  - apply max_id_bound in E as [(x & Hx & <-) Hb]. f_equal.
    specialize (Hb d Hd). specialize (Hmax x Hx). lia.
  - destruct l; [by apply elem_of_nil in Hd | done].
Qed.

(** ** Clean-up of the remote jobs *)

Lemma set_pid_null_success id db :
  db_wf db →
  set_pid_null id db
  = Ok (with_deployments (mkTable (map (updated (has_id id) (set_d_pid None)) (rows (deployments db)))
          (seq (deployments db))) db).
Proof.
  intros Hwf. unfold set_pid_null, update_deployments.
  rewrite (sql_update_success _ _ _ _ (wf_deployments db Hwf)); [done..| |done].
  intros d Hd _. split; [|done]. exact (wf_check _ (wf_deployments db Hwf) d Hd).
Qed.

(** The clean-up of start-up only forgets pids, and only those of running rows. *)
Record pids_forgotten (db db' : Db) : Prop := {
  pf_wf : db_wf db';
  pf_apps : applications db' = applications db;
  pf_compose : compose_projects db' = compose_projects db;
  pf_databases : databases db' = databases db;
  pf_rows : ∃ g, rows (deployments db') = map g (rows (deployments db))
    ∧ ∀ d, d ∈ rows (deployments db) →
        g d = d ∨ (has_status "RUNNING" d = true ∧ g d = set_d_pid None d);
}.

Lemma kill_jobs_forget killed jobs : ∀ db,
  db_wf db →
  (∀ id s p d, (id, s, p) ∈ jobs → d ∈ rows (deployments db) → d_id d = id →
     has_status "RUNNING" d = true) →
  pids_forgotten db (fold_left (λ d job, (kill_remote_pid killed d job).1) jobs db).
Proof.
  induction jobs as [|[[id sv] pid] jobs IH]; intros db Hwf Hrun; simpl.
  { split; try done. exists (λ d, d). split; [by rewrite map_id | by left]. }
  assert (∀ id' s p d, (id', s, p) ∈ jobs → d ∈ rows (deployments db) → d_id d = id' →
     has_status "RUNNING" d = true) as Hrest.
  { intros id' s p d Hin. apply (Hrun id' s p d). by apply elem_of_cons; right. }
  destruct (killed sv pid); simpl; [|by apply IH].
  pose proof (set_pid_null_success id db Hwf) as E. rewrite E. simpl.
  assert (db_wf (with_deployments (mkTable
    (map (updated (has_id id) (set_d_pid None)) (rows (deployments db))) (seq (deployments db))) db))
    as Hwf1 by (apply (apply_op_wf (OpSetPidNull id) db); [done | exact E]).
  destruct (IH _ Hwf1) as [H1 H2 H3 H4 (g & Hg & Hgs)].
  { intros id' s p d' Hin (d & -> & Hd)%elem_of_mapb Hid.
    assert (has_status "RUNNING" d = true) as Hst.
    { apply (Hrest id' s p d Hin Hd). rewrite <- Hid. unfold updated. by destruct (has_id id d). }
    unfold updated. by destruct (has_id id d). }
  split; try done. exists (λ d, g (updated (has_id id) (set_d_pid None) d)). split.
  { rewrite Hg. simpl. by rewrite map_map. }
  intros d Hd. destruct (Hgs (updated (has_id id) (set_d_pid None) d)) as [->|[Hst ->]].
  { simpl. apply elem_of_mapb. eauto. }
  - unfold updated. destruct (has_id id d) eqn:Hid; [right|by left]. split; [|done].
    apply (Hrun id sv pid d); [by apply elem_of_cons; left | done | by apply has_id_spec].
  - right. unfold updated in *. by destruct (has_id id d).
Qed.

Lemma cleanup_forgets killed db :
  db_wf db → pids_forgotten db (cleanup_stale_remote_jobs killed db).
Proof.
  intros Hwf. apply kill_jobs_forget; [done|]. intros id s p d Hin Hd Hid.
  unfold get_running_remote_jobs in Hin. apply list_elem_of_omap in Hin as (x & Hx & Hj).
  apply elem_of_filterb in Hx as [Hx Hst]. unfold remote_job in Hj.
  destruct (d_server_id x), (d_pid x); try done. injection Hj as Hxid _ _.
  assert (d = x) as -> by (apply (wf_lookup_unique _ _ _ (wf_deployments db Hwf)); simpl; congruence).
  done.
Qed.

(** ** The statements of the recovery succeed *)

Lemma mark_interrupted_spec now db :
  db_wf db →
  mark_interrupted_as_recovered now db
  = Ok (with_deployments (mkTable (map (updated interrupted (recovered now)) (rows (deployments db)))
          (seq (deployments db))) db).
Proof.
  intros Hwf. unfold mark_interrupted_as_recovered.
  by rewrite (update_final_success interrupted (recovered now) db Hwf).
Qed.

Definition stale_application (db : Db) (a : Application) : bool :=
  bool_decide (a_app_status a ∈ stale_statuses) || latest_recovered (for_application (a_id a)) db.
Definition stale_compose (db : Db) (c : ComposeProject) : bool :=
  bool_decide (c_compose_status c ∈ stale_statuses) || latest_recovered (for_compose (c_id c)) db.

Lemma recover_applications_spec db :
  db_wf db →
  recover_stale_application_statuses db
  = Ok (with_applications (mkTable
      (map (updated (stale_application db) (application_with_status "ERROR")) (rows (applications db)))
      (seq (applications db))) db).
Proof.
  intros Hwf. unfold recover_stale_application_statuses. fold (stale_application db).
  by rewrite (sql_update_success _ _ _ _ (wf_applications db Hwf)).
Qed.

Lemma recover_compose_spec db :
  db_wf db →
  recover_stale_compose_statuses db
  = Ok (with_compose (mkTable
      (map (updated (stale_compose db) (compose_with_status "ERROR")) (rows (compose_projects db)))
      (seq (compose_projects db))) db).
Proof.
  intros Hwf. unfold recover_stale_compose_statuses. fold (stale_compose db).
  by rewrite (sql_update_success _ _ _ _ (wf_compose db Hwf)).
Qed.

Definition stale_database (k : DatabaseKind) (db : Db) (b : DatabaseRow) : bool :=
  bool_decide (b_app_status b ∈ stale_statuses)
  || latest_recovered (λ d, for_database (b_id b) d && kind_is (database_kind_as_str k) d) db.

(** Each database row survives, failed if it was stale; the other tables are not
    touched. *)
Definition same_but_databases (db db' : Db) : Prop :=
  deployments db' = deployments db ∧ applications db' = applications db
  ∧ compose_projects db' = compose_projects db.

Lemma recover_databases_spec ks : ∀ db, db_wf db →
  ∃ db', recover_database_tables ks db = Ok db' ∧ same_but_databases db db'
  ∧ ∀ k b, b ∈ rows (databases db k) →
      database_with_status "ERROR" b ∈ rows (databases db' k)
      ∨ (b ∈ rows (databases db' k)
         ∧ (k ∈ ks → bool_decide (b_app_status b ∈ stale_statuses) = false)).
Proof.
  induction ks as [|k0 ks IH]; intros db Hwf; simpl.
  { exists db. split_and!; [done..|]. intros k b Hb. right. split; [done|]. by intros ?%elem_of_nil. }
  set (P := stale_database k0 db).
  change (recover_database_table k0 db) with (set_database_rows k0 P "ERROR" db).
  pose proof (set_database_rows_success k0 P "ERROR" db Hwf eq_refl) as E.
  pose proof (set_database_rows_wf _ _ _ _ _ Hwf E) as Hwf1. rewrite E. cbn [result_bind].
  destruct (IH _ Hwf1) as (db' & E' & Hsame & Hrows). exists db'. split_and!; [done..|].
  intros k b Hb. specialize (Hrows k). simpl in Hrows.
  destruct (decide (k = k0)) as [->|Hne].
  - destruct (P b) eqn:HP.
    + left. destruct (Hrows (database_with_status "ERROR" b)) as [?|[? _]]; [|done..].
      simpl. apply elem_of_mapb. exists b. unfold updated. by rewrite HP.
    + apply orb_false_iff in HP as HP'. destruct HP' as [Hst _].
      destruct (Hrows b) as [?|[? _]]; [|by left|by right].
      simpl. apply elem_of_mapb. exists b. unfold updated. by rewrite HP.
  - destruct (Hrows b Hb) as [?|[? Hk]]; [by left|]. right. split; [done|].
    intros [->|Hin]%elem_of_cons; [done | auto].
Qed.

(** ** The recovery as a whole *)

(** The state between the two halves of the recovery: every deployment is settled. *)
Lemma recovered_rows killed now db :
  db_wf db →
  ∃ db2, or_unchanged (mark_interrupted_as_recovered now (cleanup_stale_remote_jobs killed db))
           (cleanup_stale_remote_jobs killed db) = db2
  ∧ db_wf db2 ∧ applications db2 = applications db ∧ compose_projects db2 = compose_projects db
  ∧ databases db2 = databases db
  ∧ (∀ d, d ∈ rows (deployments db2) → is_active d = false)
  ∧ (∀ d, d ∈ rows (deployments db) → is_active d = false → d ∈ rows (deployments db2))
  ∧ (∀ d, d ∈ rows (deployments db) → is_active d = true →
       ∃ p, recovered now (set_d_pid p d) ∈ rows (deployments db2))
  ∧ (∀ d2, d2 ∈ rows (deployments db2) → ∃ d, d ∈ rows (deployments db) ∧ d_id d2 = d_id d
       ∧ d_application_id d2 = d_application_id d ∧ d_compose_id d2 = d_compose_id d).
Proof.
  intros Hwf. destruct (cleanup_forgets killed db Hwf) as [Hwf1 Ha Hc Hd (g & Hg & Hgs)].
  set (db1 := cleanup_stale_remote_jobs killed db) in *.
  pose proof (mark_interrupted_spec now db1 Hwf1) as E. rewrite E. simpl. eexists. split; [done|].
  assert (∀ d, d ∈ rows (deployments db1) → interrupted d = is_active d) as Hint.
  { intros d Hin. pose proof (wf_check _ (wf_deployments db1 Hwf1) d Hin) as Hck. simpl in Hck.
    unfold deployment_status_check in Hck. bsimp. unfold interrupted, is_active.
    repeat (apply elem_of_cons in Hck as [Hck|Hck]; [by rewrite Hck|]). by apply elem_of_nil in Hck. }
  split_and!; try done.
  - by apply (apply_op_wf (OpMarkInterrupted now) db1).
  - intros d' (d & -> & Hin)%elem_of_mapb. unfold updated. rewrite Hint by done.
    by destruct (is_active d) eqn:Ea.
  - intros d Hin Ha0. simpl. apply elem_of_mapb. exists d.
    assert (g d = d) as Hgd.
    { destruct (Hgs d Hin) as [?|[Hst _]]; [done|]. apply has_status_spec in Hst.
      unfold is_active in Ha0. by rewrite Hst in Ha0. }
    assert (d ∈ rows (deployments db1)) as Hin1 by (rewrite Hg; apply elem_of_mapb; eauto).
    split; [|done]. unfold updated. by rewrite Hint, Ha0.
  - intros d Hin Ha0. simpl.
    assert (∃ p, g d = set_d_pid p d) as (p & Hp).
    { destruct (Hgs d Hin) as [Heq|[_ Heq]]; [exists (d_pid d) | exists None]; rewrite Heq; by destruct d. }
    exists p. apply elem_of_mapb. exists (g d).
    assert (g d ∈ rows (deployments db1)) as Hin1 by (rewrite Hg; apply elem_of_mapb; eauto).
    split; [|done]. unfold updated. rewrite Hint by done. rewrite Hp.
    by replace (is_active (set_d_pid p d)) with true by (symmetry; exact Ha0).
  - intros d2 (x & -> & Hx)%elem_of_mapb. rewrite Hg in Hx. apply elem_of_mapb in Hx as (d & -> & Hd0).
    exists d. split; [done|]. unfold updated.
    destruct (interrupted (g d)); destruct (Hgs d Hd0) as [->|[_ ->]]; done.
Qed.

(** The newest deployment of a resource, active before, is found by the recovery. *)
Lemma newest_is_recovered now (ref : Deployment → bool) db db2 d p :
  (∀ x y, d_application_id x = d_application_id y → d_compose_id x = d_compose_id y → ref x = ref y) →
  ref d = true → recovered now (set_d_pid p d) ∈ rows (deployments db2) →
  (∀ d2, d2 ∈ rows (deployments db2) → ∃ d0, d0 ∈ rows (deployments db) ∧ d_id d2 = d_id d0
       ∧ d_application_id d2 = d_application_id d0 ∧ d_compose_id d2 = d_compose_id d0) →
  (∀ x, x ∈ rows (deployments db) → ref x = true → (d_id x ≤ d_id d)%Z) →
  latest_recovered ref db2 = true.
Proof.
  intros Hext Hr Hin Hback Hmax. unfold latest_recovered, sql_exists. apply existsb_elem.
  exists (recovered now (set_d_pid p d)). split; [done|].
  assert (ref (recovered now (set_d_pid p d)) = true) as Hr' by (by rewrite (Hext _ d)).
  rewrite Hr'. simpl. apply bool_decide_eq_true. symmetry.
  apply (max_id_newest _ (recovered now (set_d_pid p d))).
  - by apply elem_of_filterb.
  - intros x [Hx Hrx]%elem_of_filterb. destruct (Hback x Hx) as (d0 & Hd0 & Hid & Happ & Hcmp).
    simpl. rewrite Hid. apply Hmax; [done|]. by rewrite <- (Hext x d0).
Qed.

(** C16: Recovery at start-up leaves no deployment queued or running, keeps the finished ones as
    they are, marks every interrupted one as recovered, and sets to ERROR each application and
    compose project whose latest deployment was interrupted and each database left in a
    transitional status. *)
Theorem restart_settles_every_deployment (killed : Z → string → bool) (now : Z) (db : Db)
    (Hwf : db_wf db) :
  let db' := recover_stale_deployments killed now db in
  (∀ d, d ∈ rows (deployments db') → is_active d = false)
  ∧ (∀ d, d ∈ rows (deployments db) → is_active d = false → d ∈ rows (deployments db'))
  ∧ (∀ d, d ∈ rows (deployments db) → is_active d = true →
       ∃ p, recovered now (set_d_pid p d) ∈ rows (deployments db'))
  ∧ (∀ d a, d ∈ rows (deployments db) → is_active d = true → a ∈ rows (applications db) →
       for_application (a_id a) d = true →
       (∀ x, x ∈ rows (deployments db) → for_application (a_id a) x = true → (d_id x ≤ d_id d)%Z) →
       application_with_status "ERROR" a ∈ rows (applications db'))
  ∧ (∀ d c, d ∈ rows (deployments db) → is_active d = true → c ∈ rows (compose_projects db) →
       for_compose (c_id c) d = true →
       (∀ x, x ∈ rows (deployments db) → for_compose (c_id c) x = true → (d_id x ≤ d_id d)%Z) →
       compose_with_status "ERROR" c ∈ rows (compose_projects db'))
  ∧ (∀ k b, b ∈ rows (databases db k) → b_app_status b ∈ stale_statuses →
       database_with_status "ERROR" b ∈ rows (databases db' k)).
Proof.
  intros db'.
  destruct (recovered_rows killed now db Hwf)
    as (db2 & E2 & Hwf2 & Ha2 & Hc2 & Hb2 & Hn & Hk & Hr & Hback).
  pose proof (recover_applications_spec db2 Hwf2) as E3.
  pose proof (apply_op_wf OpRecoverApplications _ _ Hwf2 E3) as Hwf3.
  pose proof (recover_compose_spec _ Hwf3) as E4.
  pose proof (apply_op_wf OpRecoverCompose _ _ Hwf3 E4) as Hwf4.
  destruct (recover_databases_spec [Postgres; Mysql; Mariadb; Mongo; Redis; Libsql] _ Hwf4)
    as (db5 & E5 & (Hd5 & Ha5 & Hc5) & Hb5).
  assert (db' = db5) as ->.
  { subst db'. unfold recover_stale_deployments. rewrite E2, E3. cbn [or_unchanged].
    rewrite E4. cbn [or_unchanged]. unfold recover_stale_database_statuses. by rewrite E5. }
  rewrite Hd5, Ha5, Hc5. simpl. split_and!; try done.
  - intros d a Hd Hact Hain Hfor Hmax. rewrite <- Ha2 in Hain. apply elem_of_mapb. exists a.
    split; [|done]. unfold updated, stale_application. destruct (Hr d Hd Hact) as (p & Hp).
    rewrite (newest_is_recovered now (for_application (a_id a)) db db2 d p), orb_true_r; try done.
    intros x y E _. unfold for_application. by rewrite E.
  - intros d c Hd Hact Hcin Hfor Hmax. rewrite <- Hc2 in Hcin. apply elem_of_mapb. exists c.
    split; [|done]. unfold updated, stale_compose. destruct (Hr d Hd Hact) as (p & Hp).
    rewrite (newest_is_recovered now (for_compose (c_id c)) db _ d p), orb_true_r; try done.
    intros x y _ E. unfold for_compose. by rewrite E.
  - intros k b Hbin Hst. simpl in Hb5. rewrite Hb2 in Hb5.
    destruct (Hb5 k b Hbin) as [?|[_ Hns]]; [done|]. exfalso.
    rewrite bool_decide_eq_true_2 in Hns by done. assert (true = false); [apply Hns|done].
    destruct k; repeat first [apply list_elem_of_here | apply list_elem_of_further].
Qed.

Lemma restart_witness :
  map a_app_status (rows (applications
    (recover_stale_deployments (λ _ _, true) 5000 sample_queued_db))) = ["ERROR"]
  ∧ application_with_status "ERROR" sample_application
    ∈ rows (applications (recover_stale_deployments (λ _ _, true) 5000 sample_queued_db)).
Proof.
  split; [vm_compute; reflexivity|].
  destruct (restart_settles_every_deployment (λ _ _, true) 5000 sample_queued_db sample_queued_db_wf)
    as (_ & _ & _ & Hw & _).
  apply (Hw (mkDeployment 1 "Application deploy" None "QUEUED" "QUEUE" "pending-app-1" None None
    (Some "deploy") 0 None (Some 1000%Z) None (Some 1%Z) None (Some 5%Z) 1000 None None)).
  - vm_compute. apply list_elem_of_here.
  - reflexivity.
  - vm_compute. apply list_elem_of_here.
  - reflexivity.
  - intros x Hx _. vm_compute in Hx. apply list_elem_of_singleton in Hx. subst x. done.
Defined.
