(* ===== verification/DeploymentService.v ===== *)
(** * Deployment service and the operations that queue and stop deployments

    [src/services/deployment/service.rs], [src/services/application/operations.rs] and
    [management.rs], [src/services/compose/operations.rs] and [management/mod.rs], and
    [src/services/database/operations.rs], with [ServerManagementRepository::assert_deployable].
    A call is a computation in a state and error monad: a failing statement ends the call
    with its error, but what the earlier statements wrote stays.  The tasks the stop operations
    spawn are separate definitions; the Docker commands they run are not modelled.  Log files
    to remove are returned as paths.  The calls that queue a deployment are given a second time as
    programs of statements, which concurrent requests interleave; run without interruption they
    are the calls ([application_program_runs] and its like). *)

From stdpp Require Import gmap strings list sorting.
From Stdlib Require Import ZArith Lia.
From S2P Require Import Prelude RustStr StringEnum Sql DeploymentDb DeploymentInv ApplicationState Operations BuilderQueue.

(** ** The system a call runs in *)

Section service.
Context `{Watch}.

Record Sys := mkSys {
  sys_db : Db;
  sys_app : ApplicationState;
  (* [server_management]: maintenance mode and message, by server *)
  sys_management : gmap Z (Z * option string);
  sys_notified : bool;             (* the builder queue has been woken *)
}.

Definition sys_with_db (db : Db) (s : Sys) : Sys :=
  mkSys db (sys_app s) (sys_management s) (sys_notified s).
Definition sys_with_app (a : ApplicationState) (s : Sys) : Sys :=
  mkSys (sys_db s) a (sys_management s) (sys_notified s).

(** ** The monad *)

Definition M (A : Type) : Type := SE Sys SqlError A.

Definition query {A} (f : Db → A) : M A := λ s, (s, Ok (f (sys_db s))).
Definition write (f : Db → result Db SqlError) : M unit := λ s,
  match f (sys_db s) with Ok db => (sys_with_db db s, Ok tt) | Err e => (s, Err e) end.
Definition write_ret {A} (f : Db → result (Db * A) SqlError) : M A := λ s,
  match f (sys_db s) with Ok (db, a) => (sys_with_db db s, Ok a) | Err e => (s, Err e) end.
Definition wake_queue : M unit := λ s,
  (mkSys (sys_db s) (sys_app s) (sys_management s) true, Ok tt).
(** [ApplicationState::cancel_by_id] *)
Definition cancel_component (k : IdType) : M bool := λ s,
  let '(a, found) := cancel_by_id k (sys_app s) in (sys_with_app a s, Ok found).
End service.

Section operations.
Context `{Watch}.

(** ** Shared by the services *)

(** The services read a resource through the state cache, which turns its errors
    into protocol errors. *)
Definition row_not_found_text : string :=
  "no rows returned by a query that expected to return at least one row".

Definition application_get_by_id (id : Z) : M Application :=
  do! o := query (find_application id) in
  of_result (ok_or o (Protocol row_not_found_text)).
Definition compose_get_by_id (id : Z) : M ComposeProject :=
  do! o := query (find_compose id) in
  of_result (ok_or o (Protocol row_not_found_text)).
Definition database_get_by_id (k : DatabaseKind) (id : Z) : M DatabaseRow :=
  do! o := query (find_database k id) in
  of_result (ok_or o (Protocol row_not_found_text)).

(** [ApplicationRepository::update_status], [ComposeProjectRepository::update_status]
    and the [update_status] of the database repositories *)
Definition application_update_status (id : Z) (status : string) : M Application :=
  do! _ := write (set_application_status id status) in
  do! o := query (find_application id) in
  of_result (ok_or o RowNotFound).
Definition compose_update_status (id : Z) (status : string) : M ComposeProject :=
  do! _ := write (set_compose_status id status) in
  do! o := query (find_compose id) in
  of_result (ok_or o RowNotFound).
(** [to_uppercase] is applied to the literals below only, which it leaves as they
    are. *)
Definition database_update_status (k : DatabaseKind) (id : Z) (status : string) : M unit :=
  write (set_database_rows k (λ b, b_id b =? id)%Z status).

(** [get_server_id_and_name] *)
Definition get_server_id_and_name (k : DatabaseKind) (id : Z) : M (option Z * string) :=
  do! o := query (find_database k id) in
  do! b := of_result (ok_or o RowNotFound) in
  ret (b_server_id b, b_name b).

(** [ServerManagementRepository::get_or_create]: [INSERT ... ON CONFLICT DO NOTHING],
    with a foreign key to [servers], then the row *)
Definition management_get_or_create (server : Z) : M (Z * option string) := λ s,
  match sys_management s !! server with
  | Some row => (s, Ok row)
  | None =>
      if bool_decide (server ∈ servers (sys_db s)) then
        (mkSys (sys_db s) (sys_app s) (<[server := (0%Z, None)]> (sys_management s))
           (sys_notified s), Ok (0%Z, None))
      else (s, Err ForeignKeyFailed)
  end.

Definition assert_deployable (server_id : option Z) : M unit :=
  match server_id with
  | None => ret tt
  | Some server =>
      do! row := management_get_or_create server in
      if (row.1 =? 0)%Z then ret tt
      else fail (Protocol (default "server is in maintenance mode" row.2))
  end.

Definition capacity_checked (env : option Z) : M unit := λ s,
  (s, ensure_capacity env (sys_db s)).

(** [OpenOxidePaths::deployment_log_file] *)
Definition deployment_log_file (logs : string) (id : Z) : string :=
  logs +:+ "/" +:+ i64_to_string id +:+ ".log".

(** ** [DeploymentService] *)

Inductive CancelDeploymentResult :=
  CancelRequested | NotRunning | NotCancellable | NotActiveInThisProcess.

Definition service_get_by_id (id : Z) : M Deployment :=
  do! o := query (deployment_get_by_id id) in of_result (ok_or o RowNotFound).

Record DeploymentListFilter := mkFilter {
  f_status : option string; f_state : option string;
  f_application_id : option Z; f_compose_id : option Z;
  f_database_id : option Z; f_server_id : option Z;
  f_limit : Z; f_offset : Z;
}.

Definition normalize_filter_text (value : option string) : option string :=
  match value with
  | Some v =>
      let v' := to_ascii_uppercase (trim v) in
      if str_is_empty v' then None else Some v'
  | None => None
  end.

Definition service_list (f : DeploymentListFilter) (db : Db) : list Deployment :=
  let status := normalize_filter_text (f_status f) in
  let state := normalize_filter_text (f_state f) in
  let limit := Z.min (Z.max (f_limit f) 1) 200 in
  let offset := Z.max (f_offset f) 0 in
  list_filtered status state (f_application_id f) (f_compose_id f) (f_database_id f)
    (f_server_id f) limit offset db.

Definition list_running (limit offset : Z) (db : Db) : list Deployment :=
  service_list (mkFilter (Some "RUNNING") None None None None None limit offset) db.

Definition target_of (application_id compose_id database_id : option Z) : option IdType :=
  match application_id with
  | Some id => Some (AppId id)
  | None => match compose_id with
            | Some id => Some (ComposeId id)
            | None => DatabaseId <$> database_id
            end
  end.

Definition cancel (now deployment_id : Z) : M CancelDeploymentResult :=
  do! o := query (get_cancel_info deployment_id) in
  do! info := of_result (ok_or o RowNotFound) in
  let '(application_id, compose_id, database_id, status) := info in
  if bool_decide (status = "QUEUED") then
    do! _ := write_ret (cancel_queued_deployment deployment_id now) in
    ret CancelRequested
  else if negb (bool_decide (status = "RUNNING")) then ret NotRunning
  else
    match target_of application_id compose_id database_id with
    | None => ret NotCancellable
    | Some target =>
        do! found := cancel_component target in
        if found then
          do! _ := write_ret (set_cancel_requested deployment_id now) in
          ret CancelRequested
        else ret NotActiveInThisProcess
    end.

Definition list_active_components (s : Sys) : list ActiveDeploySnapshot :=
  active_deployments (sys_app s).

(** Whether a row was deleted, and the log file to remove *)
Definition delete (now id : Z) : M (bool * option string) :=
  do! o := query (deployment_get_by_id id) in
  match o with
  | None => ret (false, None)
  | Some d =>
      do! _ := (if bool_decide (d_status d = "QUEUED") || bool_decide (d_status d = "RUNNING")
                then ignore (cancel now id) else ret tt) in
      do! _ := write (λ db, Ok (deployment_delete id db)) in
      ret (true, if str_is_empty (d_log_path d) then None else Some (d_log_path d))
  end.

(** The number of rows deleted, and the log files to remove *)
Definition clear_all (application_id compose_id database_id server_id : option Z)
    : M (nat * list string) :=
  do! log_paths := write_ret (λ db,
    Ok (delete_filtered_finished application_id compose_id database_id server_id db)) in
  ret (length log_paths, List.filter (λ p, negb (str_is_empty p)) log_paths).

(** ** [ApplicationService] *)

Definition application_run_operation (env : option Z) (logs : string) (now id : Z)
    (operation : ApplicationOperation) : M (Application * option Z) :=
  do! running := query (has_running_deployment id) in
  if running then
    fail (Protocol "application deployment already queued or running; cancel it first")
  else
    do! _ := capacity_checked env in
    do! app := application_get_by_id id in
    do! _ := assert_deployable (a_server_id app) in
    do! deployment_id := write_ret (create_queued_deployment now (application_op_title operation)
      (Some (application_op_as_str operation +:+ " requested for " +:+ a_name app))
      ("pending-app-" +:+ i64_to_string id) (application_op_as_str operation) id
      (a_server_id app)) in
    do! _ := application_update_status id "STARTING" in
    do! _ := write (update_log_path deployment_id (deployment_log_file logs deployment_id)) in
    do! _ := wake_queue in
    ret (app, Some deployment_id).

(** The synchronous part, and the status its background task ends with *)
Definition application_stop_or_cancel_smart (now id : Z) : M (bool * string) :=
  do! app := application_get_by_id id in
  let current := default AsIdle (from_str (a_app_status app)) in
  let '(intermediate, final_st) :=
    if application_is_building current then (as_str AsCancelling, as_str AsCancelled)
    else (as_str AsStopping, as_str AsStopped) in
  do! _ := ignore (application_update_status id intermediate) in
  do! _ := ignore (write_ret (cancel_queued_application id now)) in
  do! _ := cancel_component (AppId id) in
  do! _ := ignore (write (request_cancel_deployment id now)) in
  ret (true, final_st).

(** The end of the spawned task, after the Docker commands *)
Definition application_stop_task (id : Z) (final_st : string) : M unit :=
  ignore (application_update_status id final_st).

Definition application_stop_operation (now id : Z) : M (bool * string) :=
  application_stop_or_cancel_smart now id.
Definition application_cancel_operation (now id : Z) : M (bool * string) :=
  application_stop_or_cancel_smart now id.

(** [force_kill_deployment]; [kill] is what building the remote executor and killing
    the pid file gives. *)
Definition force_kill_deployment (kill : Z → string → result unit SqlError) (now id : Z)
    : M (Z * CancelDeploymentResult) :=
  do! _ := application_get_by_id id in
  do! o := query (running_for_application id) in
  do! d := of_result (ok_or o (Protocol "application has no running deployment")) in
  do! r := cancel now (run_id d) in
  match r, run_server_id d, run_pid d with
  | NotActiveInThisProcess, Some server, Some pid =>
      do! _ := of_result (kill server pid) in
      do! _ := write (finalize_with_resource now (run_id d) "CANCELLED"
        (Some "deployment force-killed") (Some id) None None None "ERROR") in
      ret (run_id d, CancelRequested)
  | _, _, _ => ret (run_id d, r)
  end.

Definition same_organization (env1 env2 : Z) (db : Db) : bool :=
  match environment_organization env1 db, environment_organization env2 db with
  | Ok o1, Ok o2 => (o1 =? o2)%Z
  | _, _ => false
  end.

(** [move_to_environment_in_same_organization] of the applications *)
Definition move_in_same_organization (id target : Z) (db : Db) : result (Db * nat) SqlError :=
  let? (t, n) := sql_update
    (λ a, existsb (λ e, e_id e =? a_environment_id a)%Z (environments db))
    (λ a, (a_id a =? id)%Z && same_organization (a_environment_id a) target db)
    (λ a, mkApplication (a_id a) (a_name a) (a_app_name a) (a_app_status a) target
            (a_server_id a)) (applications db) in
  Ok (with_applications t db, n).

Definition application_move_to_environment (id target : Z) : M Application :=
  do! _ := application_get_by_id id in
  do! running := query (has_running_deployment id) in
  if running then
    fail (Protocol "application deployment is already queued or running")
  else
    do! n := write_ret (move_in_same_organization id target) in
    do! o := (if bool_decide (n = 0) then ret None else query (find_application id)) in
    of_result (ok_or o
      (Protocol "target environment not found or belongs to another organization")).

(** The number of rows deleted, and the log files to remove *)
Definition application_clear_deployment_history (logs : string) (id : Z) : M (nat * list string) :=
  do! _ := application_get_by_id id in
  do! ids := query (list_finished_ids_for_application id) in
  do! affected := write_ret (λ db, Ok (delete_finished_for_application id db)) in
  ret (affected, map (deployment_log_file logs) ids).

Definition application_cleanup_deployment_queue (now id : Z) : M nat :=
  do! _ := application_get_by_id id in
  do! _ := ignore (write_ret (cancel_queued_application id now)) in
  write_ret (cancel_queued_for_application_count id now).

(** ** [ComposeService] *)

Definition compose_stop_or_cancel_smart (now id : Z) : M (bool * string) :=
  do! compose := compose_get_by_id id in
  let current := default CsIdle (from_str (c_compose_status compose)) in
  let '(intermediate, final_st) :=
    if compose_is_building current then (as_str CsCancelling, as_str CsCancelled)
    else (as_str CsStopping, as_str CsStopped) in
  do! _ := ignore (compose_update_status id intermediate) in
  do! _ := ignore (write_ret (cancel_queued_compose id now)) in
  do! _ := cancel_component (ComposeId id) in
  do! _ := ignore (write (request_cancel_compose_deployment id now)) in
  ret (true, final_st).

Definition compose_stop_operation (now id : Z) : M (bool * string) :=
  compose_stop_or_cancel_smart now id.
Definition compose_cancel_operation (now id : Z) : M (bool * string) :=
  compose_stop_or_cancel_smart now id.

Definition compose_stop_task (id : Z) (final_st : string) : M unit :=
  ignore (compose_update_status id final_st).

Definition is_compose_stop (o : ComposeOperation) : bool :=
  match o with ComposeStop => true | _ => false end.

Definition compose_run_operation (env : option Z) (logs : string) (now id : Z)
    (operation : ComposeOperation) : M (ComposeProject * option Z) :=
  do! running := query (has_running_compose_deployment id) in
  if running then
    if is_compose_stop operation then
      do! _ := compose_stop_or_cancel_smart now id in
      do! compose := compose_get_by_id id in
      ret (compose, None)
    else fail (Protocol "compose deployment already queued or running")
  else
    do! _ := capacity_checked env in
    do! compose := compose_get_by_id id in
    do! _ := (if is_compose_stop operation then ret tt
              else assert_deployable (c_server_id compose)) in
    do! deployment_id := write_ret (create_queued_compose_deployment now
      (compose_op_title operation)
      (Some (compose_op_as_str operation +:+ " requested for " +:+ c_name compose))
      ("pending-compose-" +:+ i64_to_string id) (compose_op_as_str operation) id
      (c_server_id compose)) in
    do! _ := write (update_log_path deployment_id (deployment_log_file logs deployment_id)) in
    do! _ := wake_queue in
    let status := if is_compose_stop operation then CsStopping else CsStarting in
    do! record := compose_update_status id (as_str status) in
    ret (record, Some deployment_id).

(** [move_to_environment_in_same_organization] of the compose projects *)
Definition compose_move_in_same_organization (id target : Z) (db : Db)
    : result (Db * nat) SqlError :=
  let? (t, n) := sql_update
    (λ c, existsb (λ e, e_id e =? c_environment_id c)%Z (environments db))
    (λ c, (c_id c =? id)%Z && same_organization (c_environment_id c) target db)
    (λ c, mkCompose (c_id c) (c_name c) (c_app_name c) (c_compose_status c) target
            (c_server_id c)) (compose_projects db) in
  Ok (with_compose t db, n).

Definition compose_move_to_environment (id target : Z) : M ComposeProject :=
  do! _ := compose_get_by_id id in
  do! running := query (has_running_compose_deployment id) in
  if running then
    fail (Protocol "compose deployment is already queued or running")
  else
    do! n := write_ret (compose_move_in_same_organization id target) in
    do! o := (if bool_decide (n = 0) then ret None else query (find_compose id)) in
    of_result (ok_or o
      (Protocol "target environment not found or belongs to another organization")).

Definition compose_cleanup_queue (now id : Z) : M nat :=
  do! _ := compose_get_by_id id in
  do! _ := ignore (write_ret (cancel_queued_compose id now)) in
  write_ret (cancel_queued_for_compose_count id now).

Definition compose_clear_history (logs : string) (id : Z) : M (nat * list string) :=
  do! _ := compose_get_by_id id in
  do! ids := query (list_finished_ids_for_compose id) in
  do! affected := write_ret (λ db, Ok (delete_finished_for_compose id db)) in
  ret (affected, map (deployment_log_file logs) ids).

Definition compose_force_kill (now id : Z) : M CancelDeploymentResult :=
  do! _ := compose_get_by_id id in
  do! o := query (running_for_compose id) in
  do! d := of_result (ok_or o (Protocol "compose has no running deployment")) in
  cancel now (run_id d).

(** ** [DatabaseService] *)

(** The statuses its background task ends with is returned with the answer; a
    database that does not exist counts as idle. *)
Definition database_cancel_operation (now : Z) (kind : DatabaseKind) (id : Z)
    : M (bool * string) :=
  do! record := query (find_database kind id) in
  let current_st_str := match record with Some b => b_app_status b | None => "IDLE" end in
  let current := default DsIdle (from_str current_st_str) in
  let '(intermediate, final_st) :=
    if database_is_building current then (as_str DsCancelling, as_str DsCancelled)
    else (as_str DsStopping, as_str DsStopped) in
  do! _ := ignore (database_update_status kind id intermediate) in
  do! _ := ignore (write_ret (cancel_queued_database id now)) in
  do! _ := cancel_component (DatabaseId id) in
  do! _ := ignore (write_ret (cancel_queued_for_database id now)) in
  do! _ := ignore (write (request_cancel_database_deployment id now)) in
  ret (true, final_st).

Definition database_stop_operation (now : Z) (kind : DatabaseKind) (id : Z) : M (bool * string) :=
  database_cancel_operation now kind id.

Definition database_stop_task (kind : DatabaseKind) (id : Z) (final_st : string) : M unit :=
  ignore (database_update_status kind id final_st).

Definition database_run_operation (env : option Z) (logs : string) (now : Z)
    (kind : DatabaseKind) (id : Z) (operation : DatabaseOperation) : M DatabaseRow :=
  match operation with
  | DatabaseStop =>
      do! _ := database_cancel_operation now kind id in
      database_get_by_id kind id
  | _ =>
      do! running := query (has_running_database_deployment id) in
      if running then
        fail (Protocol "database deployment already queued or running; cancel it first")
      else
        do! _ := capacity_checked env in
        do! (server_id, name) := get_server_id_and_name kind id in
        do! _ := assert_deployable server_id in
        do! _ := database_update_status kind id "STARTING" in
        do! deployment_id := write_ret (create_queued_database_deployment now
          (database_op_title operation)
          (Some (database_op_as_str operation +:+ " requested for database " +:+ name))
          ("pending-db-" +:+ i64_to_string id) (database_op_as_str operation) id
          (database_kind_as_str kind) server_id) in
        do! _ := write (update_log_path deployment_id (deployment_log_file logs deployment_id)) in
        do! _ := wake_queue in
        database_get_by_id kind id
  end.
End operations.

(** ** The calls as sequences of statements

    The services run their statements one by one, without a transaction, and those of concurrent
    requests interleave.  A program is the statements that are left; [run] runs them without
    interruption, which is what the definitions above say. *)

Inductive Prog `{Watch} (A : Type) : Type :=
| Done (r : result A SqlError)
| Stmt {B : Type} (m : M B) (k : B → Prog A).
Arguments Done {_ _} _.
Arguments Stmt {_ _ _} _ _.

Notation "'stmt!' x ':=' m 'in' k" := (Stmt m (λ x, k))
  (at level 10, x pattern, m at level 100, k at level 200) : rust_scope.

Section programs.
Context `{Watch}.

Fixpoint run {A} (p : Prog A) : M A :=
  match p with Done r => of_result r | Stmt m k => bind m (λ x, run (k x)) end.

Definition application_run_program (env : option Z) (logs : string) (now id : Z)
    (operation : ApplicationOperation) : Prog (Application * option Z) :=
  stmt! running := query (has_running_deployment id) in
  if running then
    Done (Err (Protocol "application deployment already queued or running; cancel it first"))
  else
    stmt! _ := capacity_checked env in
    stmt! app := application_get_by_id id in
    stmt! _ := assert_deployable (a_server_id app) in
    stmt! deployment_id := write_ret (create_queued_deployment now (application_op_title operation)
      (Some (application_op_as_str operation +:+ " requested for " +:+ a_name app))
      ("pending-app-" +:+ i64_to_string id) (application_op_as_str operation) id
      (a_server_id app)) in
    stmt! _ := write (set_application_status id "STARTING") in
    stmt! o := query (find_application id) in
    stmt! _ := of_result (ok_or o RowNotFound) in
    stmt! _ := write (update_log_path deployment_id (deployment_log_file logs deployment_id)) in
    stmt! _ := wake_queue in
    Done (Ok (app, Some deployment_id)).

Definition compose_stop_program {A} (now id : Z) (k : bool * string → Prog A) : Prog A :=
  stmt! compose := compose_get_by_id id in
  let current := default CsIdle (from_str (c_compose_status compose)) in
  let '(intermediate, final_st) :=
    if compose_is_building current then (as_str CsCancelling, as_str CsCancelled)
    else (as_str CsStopping, as_str CsStopped) in
  stmt! _ := ignore (compose_update_status id intermediate) in
  stmt! _ := ignore (write_ret (cancel_queued_compose id now)) in
  stmt! _ := cancel_component (ComposeId id) in
  stmt! _ := ignore (write (request_cancel_compose_deployment id now)) in
  k (true, final_st).

Definition compose_run_program (env : option Z) (logs : string) (now id : Z)
    (operation : ComposeOperation) : Prog (ComposeProject * option Z) :=
  stmt! running := query (has_running_compose_deployment id) in
  if running then
    if is_compose_stop operation then
      compose_stop_program now id (λ _,
      stmt! compose := compose_get_by_id id in
      Done (Ok (compose, None)))
    else Done (Err (Protocol "compose deployment already queued or running"))
  else
    stmt! _ := capacity_checked env in
    stmt! compose := compose_get_by_id id in
    stmt! _ := (if is_compose_stop operation then ret tt
                else assert_deployable (c_server_id compose)) in
    stmt! deployment_id := write_ret (create_queued_compose_deployment now
      (compose_op_title operation)
      (Some (compose_op_as_str operation +:+ " requested for " +:+ c_name compose))
      ("pending-compose-" +:+ i64_to_string id) (compose_op_as_str operation) id
      (c_server_id compose)) in
    stmt! _ := write (update_log_path deployment_id (deployment_log_file logs deployment_id)) in
    stmt! _ := wake_queue in
    let status := if is_compose_stop operation then CsStopping else CsStarting in
    stmt! _ := write (set_compose_status id (as_str status)) in
    stmt! o := query (find_compose id) in
    stmt! record := of_result (ok_or o RowNotFound) in
    Done (Ok (record, Some deployment_id)).

Definition database_cancel_program {A} (now : Z) (kind : DatabaseKind) (id : Z)
    (k : bool * string → Prog A) : Prog A :=
  stmt! record := query (find_database kind id) in
  let current_st_str := match record with Some b => b_app_status b | None => "IDLE" end in
  let current := default DsIdle (from_str current_st_str) in
  let '(intermediate, final_st) :=
    if database_is_building current then (as_str DsCancelling, as_str DsCancelled)
    else (as_str DsStopping, as_str DsStopped) in
  stmt! _ := ignore (database_update_status kind id intermediate) in
  stmt! _ := ignore (write_ret (cancel_queued_database id now)) in
  stmt! _ := cancel_component (DatabaseId id) in
  stmt! _ := ignore (write_ret (cancel_queued_for_database id now)) in
  stmt! _ := ignore (write (request_cancel_database_deployment id now)) in
  k (true, final_st).

Definition database_run_program (env : option Z) (logs : string) (now : Z)
    (kind : DatabaseKind) (id : Z) (operation : DatabaseOperation) : Prog DatabaseRow :=
  match operation with
  | DatabaseStop =>
      database_cancel_program now kind id (λ _,
      stmt! b := database_get_by_id kind id in Done (Ok b))
  | _ =>
      stmt! running := query (has_running_database_deployment id) in
      if running then
        Done (Err (Protocol "database deployment already queued or running; cancel it first"))
      else
        stmt! _ := capacity_checked env in
        stmt! row := get_server_id_and_name kind id in
        let '(server_id, name) := row in
        stmt! _ := assert_deployable server_id in
        stmt! _ := database_update_status kind id "STARTING" in
        stmt! deployment_id := write_ret (create_queued_database_deployment now
          (database_op_title operation)
          (Some (database_op_as_str operation +:+ " requested for database " +:+ name))
          ("pending-db-" +:+ i64_to_string id) (database_op_as_str operation) id
          (database_kind_as_str kind) server_id) in
        stmt! _ := write (update_log_path deployment_id (deployment_log_file logs deployment_id)) in
        stmt! _ := wake_queue in
        stmt! b := database_get_by_id kind id in
        Done (Ok b)
  end.

(** *** They are the calls *)

Lemma bind_ext {A B} (m : M A) (k k' : A → M B) s :
  (∀ x s', k x s' = k' x s') → bind m k s = bind m k' s.
Proof. intros Hk. unfold bind. destruct (m s) as [s1 [x|e]]; auto. Qed.

Lemma bind_bind {A B C} (m : M A) (k : A → M B) (h : B → M C) s :
  bind (bind m k) h s = bind m (λ x, bind (k x) h) s.
Proof. unfold bind. by destruct (m s) as [s1 [x|e]]. Qed.

Lemma bind_ret_right {A} (m : M A) s : bind m (λ x, of_result (Ok x)) s = m s.
Proof. unfold bind, of_result. by destruct (m s) as [s1 [x|e]]. Qed.

Lemma run_stmt {A B} (m : M B) (k : B → Prog A) s : run (Stmt m k) s = bind m (λ x, run (k x)) s.
Proof. done. Qed.

Ltac same_steps :=
  repeat first
    [ done
    | apply bind_ret_right
    | rewrite bind_bind
    | rewrite run_stmt
    | apply bind_ext; intros
    | match goal with
      | |- context [if ?b then _ else _] => destruct b
      | |- context [let '(_, _) := ?p in _] => destruct p
      end ].

Lemma application_program_runs env logs now id op s :
  run (application_run_program env logs now id op) s = application_run_operation env logs now id op s.
Proof.
  unfold application_run_program, application_run_operation, application_update_status. same_steps.
Qed.

Lemma compose_program_runs env logs now id op s :
  run (compose_run_program env logs now id op) s = compose_run_operation env logs now id op s.
Proof.
  unfold compose_run_program, compose_run_operation, compose_stop_program, compose_stop_or_cancel_smart,
    compose_update_status.
  same_steps.
Qed.

Lemma database_program_runs env logs now kind id op s :
  run (database_run_program env logs now kind id op) s = database_run_operation env logs now kind id op s.
Proof.
  destruct op; unfold database_run_program, database_run_operation, database_cancel_program,
    database_cancel_operation; same_steps.
Qed.
End programs.
