(* ===== verification/ServiceProps.v ===== *)
(** * The deployment services: behaviour of each call

    Cancellation on every branch, what an accepted operation leaves behind, the bound
    of the queue under concurrent requests, listing, moving between environments, and the two counts and kinds on
    which the services do not do what their names say. *)

From stdpp Require Import gmap strings list sorting.
From Stdlib Require Import ZArith Lia.
From S2P Require Import Prelude RustStr StringEnum Sql DeploymentDb DeploymentInv ApplicationState Operations BuilderQueue QueueProps DeploymentProps DeploymentService.

(** ** Statements the services rely on *)

Lemma cancel_queued_where_spec p now db :
  db_wf db →
  cancel_queued_where p now db
  = Ok (with_deployments (mkTable
          (map (updated (λ d, p d && has_status "QUEUED" d) (cancelled now)) (rows (deployments db)))
          (seq (deployments db))) db,
        length (sql_select (λ d, p d && has_status "QUEUED" d) (deployments db))).
Proof. intros Hwf. by apply update_final_success. Qed.

(** After it nothing it matches is queued. *)
Lemma cancel_queued_clears p now db db' n :
  (∀ d d', d_id d = d_id d' → d_application_id d = d_application_id d' →
     d_compose_id d = d_compose_id d' → d_database_id d = d_database_id d' → p d = p d') →
  cancel_queued_where p now db = Ok (db', n) →
  ∀ d, d ∈ rows (deployments db') → (p d && has_status "QUEUED" d) = false.
Proof.
  intros Hext (t & (Hr & _)%sql_update_inv & ->)%update_deployments_inv d Hd.
  simpl in Hd. rewrite Hr in Hd. apply elem_of_mapb in Hd as (d0 & -> & Hd0). unfold updated.
  destruct (p d0 && has_status "QUEUED" d0) eqn:E; [|done]. apply andb_false_r.
Qed.

Section service_props.
Context `{Watch}.

Definition with_rows (l : list Deployment) (s : Sys) : Sys :=
  sys_with_db (with_deployments (mkTable l (seq (deployments (sys_db s)))) (sys_db s)) s.

(** Cancelling a deployment: an unknown id is an error, a queued one is cancelled in place, a
    finished one is refused, a running one without a target or without an entry in this process
    is reported as such, and otherwise the worker's token is cancelled while the status update
    is rejected by the schema, so the call returns an error. *)
Theorem cancel_on_every_branch (now id : Z) (s : Sys) (Hwf : db_wf (sys_db s)) :
  cancel now id s
  = match deployment_get_by_id id (sys_db s) with
    | None => (s, Err RowNotFound)
    | Some d =>
        if bool_decide (d_status d = "QUEUED") then
          (with_rows (map (updated (claimable id) (cancelled now)) (rows (deployments (sys_db s)))) s,
           Ok CancelRequested)
        else if negb (bool_decide (d_status d = "RUNNING")) then (s, Ok NotRunning)
        else match target_of (d_application_id d) (d_compose_id d) (d_database_id d) with
             | None => (s, Ok NotCancellable)
             | Some k =>
                 match hashmap (sys_app s) !! k with
                 | None => (s, Ok NotActiveInThisProcess)
                 | Some e => (sys_with_app (cancel_token (ad_token e) (sys_app s)) s,
                              Err CheckFailed)
                 end
             end
    end.
Proof.
  unfold cancel, bind, query, of_result, get_cancel_info, deployment_get_by_id.
  destruct (sql_first (has_id id) (deployments (sys_db s))) as [d|] eqn:E; simpl; [|done].
  apply sql_first_Some in E as [Hd Hid].
  case_bool_decide as Hq.
  { unfold write_ret, cancel_queued_deployment. rewrite cancel_queued_where_spec by done. done. }
  case_bool_decide as Hr; simpl; [|done].
  destruct (target_of _ _ _) as [k|]; [|done]. unfold cancel_component, cancel_by_id.
  destruct (hashmap (sys_app s) !! k) as [e|]; [|by destruct s].
  unfold write_ret, set_cancel_requested, any_affected.
  rewrite cancelling_update. simpl.
  assert (sql_exists (λ x, has_id id x && has_status "RUNNING" x) (deployments (sys_db s)) = true)
    as ->; [|done].
  apply existsb_elem. exists d. split; [done|]. by rewrite Hid, (proj2 (has_status_spec "RUNNING" d)).
Qed.

(** ** Queueing *)

(** An application on no server, or on one that is not in maintenance *)
Definition deployable (server : option Z) (s : Sys) : Prop :=
  match server with
  | None => True
  | Some sv => match sys_management s !! sv with
               | Some (mode, _) => mode = 0%Z
               | None => sv ∈ servers (sys_db s)
               end
  end.

(** The check succeeds and touches the maintenance table at most. *)
Lemma assert_deployable_ok server s :
  deployable server s →
  ∃ m, assert_deployable server s = (mkSys (sys_db s) (sys_app s) m (sys_notified s), Ok tt).
Proof.
  unfold deployable, assert_deployable. destruct server as [sv|]; [|exists (sys_management s); by destruct s].
  unfold bind, management_get_or_create. destruct (sys_management s !! sv) as [[mode msg]|].
  - intros ->. simpl. exists (sys_management s). by destruct s.
  - intros Hin. rewrite bool_decide_eq_true_2 by done. simpl. eexists. done.
Qed.

Definition queued_application_row (now id : Z) (op : ApplicationOperation) (app : Application)
    (dep : Z) : Deployment :=
  mkDeployment dep (application_op_title op)
    (Some (application_op_as_str op +:+ " requested for " +:+ a_name app)) "QUEUED" "QUEUE"
    ("pending-app-" +:+ i64_to_string id) None None (Some (application_op_as_str op)) 0 None
    (Some now) None (Some id) None (a_server_id app) now None None.

(** The rows a find returns *)
Lemma find_application_in id db app :
  find_application id db = Some app → app ∈ rows (applications db) ∧ a_id app = id.
Proof. intros [Hin Hid]%sql_first_Some. split; [done | by apply Z.eqb_eq]. Qed.

(** Queueing a deployment of an application that has none active *)
Lemma queue_application_succeeds now id op app db :
  db_wf db → find_application id db = Some app → has_running_deployment id db = false →
  references (λ z, z) (a_server_id app) (servers db) = true →
  create_queued_deployment now (application_op_title op)
    (Some (application_op_as_str op +:+ " requested for " +:+ a_name app))
    ("pending-app-" +:+ i64_to_string id) (application_op_as_str op) id (a_server_id app) db
  = Ok (with_deployments (mkTable (rows (deployments db)
          ++ [queued_application_row now id op app (seq (deployments db) + 1)])
          (seq (deployments db) + 1)) db, (seq (deployments db) + 1)%Z).
Proof.
  intros Hwf [Happ Hid]%find_application_in Hrun Hsv.
  unfold create_queued_deployment, insert_deployment, sql_insert. simpl.
  fold (queued_application_row now id op app (seq (deployments db) + 1)).
  set (r := queued_application_row now id op app (seq (deployments db) + 1)).
  assert (existsb (deployment_conflict r) (rows (deployments db)) = false) as ->.
  { apply existsb_false. intros d Hd. unfold deployment_conflict.
    apply existsb_false with (x := d) in Hrun; [|done].
    destruct (is_active d); [|by rewrite andb_false_r]. rewrite andb_true_r in Hrun.
    simpl. unfold for_application, col_is in Hrun. rewrite orb_false_r.
    destruct (d_application_id d) as [a|]; [|done]. by rewrite Z.eqb_sym. }
  assert (deployment_fk db r = true) as ->; [|done].
  unfold deployment_fk. simpl. rewrite andb_true_r. apply andb_true_iff. split; [|exact Hsv].
  apply existsb_elem. exists app. split; [done|]. by apply Z.eqb_eq.
Qed.

Lemma has_room env db :
  (get_queued_count db < queue_max_size env)%Z → ensure_capacity env db = Ok tt.
Proof. intros Hc. unfold ensure_capacity. by rewrite (proj2 (Z.leb_gt _ _) Hc). Qed.

(** Starting an operation on an application whose guards all pass inserts the queued deployment
    and then fails, because the status STARTING violates the CHECK of the applications table:
    the caller gets an error, the application keeps its status and the dispatcher is not woken. *)
Theorem accepted_operation_reports_an_error (env : option Z) (logs : string) (now id : Z)
    (op : ApplicationOperation) (app : Application) (s : Sys)
    (Hwf : db_wf (sys_db s)) (Happ : find_application id (sys_db s) = Some app)
    (Hidle : has_running_deployment id (sys_db s) = false)
    (Hroom : (get_queued_count (sys_db s) < queue_max_size env)%Z)
    (Hsv : references (λ z, z) (a_server_id app) (servers (sys_db s)) = true)
    (Hdep : deployable (a_server_id app) s) :
  let '(s', r) := application_run_operation env logs now id op s in
  r = Err CheckFailed
  ∧ rows (deployments (sys_db s'))
    = rows (deployments (sys_db s))
      ++ [queued_application_row now id op app (seq (deployments (sys_db s)) + 1)]
  ∧ applications (sys_db s') = applications (sys_db s)
  ∧ sys_notified s' = sys_notified s.
Proof.
  unfold application_run_operation, bind at 1, query at 1. rewrite Hidle.
  unfold bind at 1, capacity_checked. rewrite (has_room env _ Hroom).
  unfold bind at 1, application_get_by_id, bind at 1, query at 1, of_result. rewrite Happ. simpl.
  unfold bind at 1. destruct (assert_deployable_ok (a_server_id app) s Hdep) as (m & ->).
  unfold bind at 1, write_ret at 1. simpl.
  rewrite (queue_application_succeeds now id op app (sys_db s)) by done. simpl.
  unfold bind at 1, application_update_status, bind at 1, write at 1. simpl.
  set (db1 := with_deployments _ (sys_db s)).
  assert (db_wf db1) as Hwf1.
  { eapply (apply_op_wf (OpCreateQueuedApp now (application_op_title op) _ _ _ id _) (sys_db s));
      [done|]. simpl. by rewrite (queue_application_succeeds now id op app (sys_db s)). }
  rewrite (set_application_status_spec id "STARTING" db1 Hwf1).
  change (resource_status_check "STARTING") with false. cbn [negb].
  assert (sql_exists (λ a, a_id a =? id)%Z (applications db1) = true) as ->; [|done].
  apply find_application_in in Happ as [Hin Hid]. apply existsb_elem. exists app.
  split; [done|]. by apply Z.eqb_eq.
Qed.

(** ** Databases of different kinds share ids *)

Lemma bind_run {A B} (m : M A) (k : A → M B) s s' a : m s = (s', Ok a) → bind m k s = k a s'.
Proof. intros E. unfold bind. by rewrite E. Qed.

(** Cancelling in memory does not touch the database. *)
Lemma cancel_component_db k s : ∃ s' f, cancel_component k s = (s', Ok f) ∧ sys_db s' = sys_db s.
Proof.
  unfold cancel_component, cancel_by_id.
  destruct (hashmap (sys_app s) !! k); do 2 eexists; split; [reflexivity|done|reflexivity|done].
Qed.

(** A write that fails, or changes nothing, under [let _ =] *)
Lemma rejected_write f s :
  (f (sys_db s) = Err CheckFailed ∨ f (sys_db s) = Ok (sys_db s)) → ignore (write f) s = (s, Ok tt).
Proof. unfold ignore, write. intros [->| ->]; by destruct s. Qed.

(** The statuses of a database stop are admitted by its CHECK. *)
Lemma cancel_statuses (record : option DatabaseRow) :
  ∃ inter fin,
    (if database_is_building (default DsIdle (from_str
          match record with Some b => b_app_status b | None => "IDLE" end))
     then (as_str DsCancelling, as_str DsCancelled) else (as_str DsStopping, as_str DsStopped))
    = (inter, fin) ∧ database_status_check inter = true.
Proof. destruct (database_is_building _); do 2 eexists; split; reflexivity. Qed.

(** Cancelling a database of one kind also cancels the queued deployments of a database of
    another kind with the same id, whose own status is not touched. *)
Theorem cancelling_a_database_cancels_other_kinds (now : Z) (kind other : DatabaseKind) (id : Z)
    (d : Deployment) (s : Sys) (Hwf : db_wf (sys_db s)) (Hne : kind ≠ other)
    (Hd : d ∈ rows (deployments (sys_db s))) (Hq : d_status d = "QUEUED")
    (Hdb : d_database_id d = Some id) (Hk : d_database_kind d = Some (database_kind_as_str other)) :
  let s' := (database_cancel_operation now kind id s).1 in
  (∃ b, (database_cancel_operation now kind id s).2 = Ok (true, b))
  ∧ cancelled now d ∈ rows (deployments (sys_db s'))
  ∧ databases (sys_db s') other = databases (sys_db s) other.
Proof.
  intros s'. subst s'. unfold database_cancel_operation.
  rewrite (bind_run _ _ s s (find_database kind id (sys_db s)) eq_refl). cbn zeta.
  destruct (cancel_statuses (find_database kind id (sys_db s))) as (inter & fin & -> & Hpr).
  pose proof (set_database_rows_success kind (λ b, b_id b =? id)%Z inter (sys_db s) Hwf Hpr) as E1.
  pose proof (set_database_rows_wf _ _ _ _ _ Hwf E1) as Hwf1.
  set (db1 := with_database _ _ (sys_db s)) in *.
  rewrite (bind_run _ _ s (sys_with_db db1 s) tt)
    by (unfold ignore, database_update_status, write; by rewrite E1).
  pose proof (cancel_queued_where_spec (for_database id) now db1 Hwf1) as E2.
  pose proof (apply_op_wf (OpCancelQueued (TDatabase id) now) db1 _ Hwf1
    ltac:(simpl; rewrite E2; reflexivity)) as Hwf2.
  set (db2 := with_deployments _ db1) in *.
  rewrite (bind_run _ _ _ (sys_with_db db2 s) tt)
    by (unfold ignore, write_ret, cancel_queued_database, cancel_queued_for_database;
        simpl; by rewrite E2).
  destruct (cancel_component_db (DatabaseId id) (sys_with_db db2 s)) as (s3 & f & E3 & Hs3).
  rewrite (bind_run _ _ _ _ _ E3).
  pose proof (cancel_queued_where_spec (for_database id) now db2 Hwf2) as E4.
  set (db4 := with_deployments _ db2) in *.
  rewrite (bind_run _ _ _ (sys_with_db db4 s3) tt)
    by (unfold ignore, write_ret, cancel_queued_for_database; rewrite Hs3; simpl; by rewrite E4).
  rewrite (bind_run _ _ _ (sys_with_db db4 s3) tt).
  2: { apply rejected_write. unfold request_cancel_database_deployment. simpl.
       rewrite cancelling_update. destruct (sql_exists _ _); [left|right]; reflexivity. }
  split; [by eexists | split].
  - simpl. assert (cancelled now d ∈ rows (deployments db2)) as Hc.
    { simpl. apply elem_of_mapb. exists d. split; [|done]. unfold updated, for_database.
      rewrite Hdb. simpl. rewrite Z.eqb_refl. by rewrite (proj2 (has_status_spec "QUEUED" d)). }
    apply elem_of_mapb. exists (cancelled now d). split; [|done]. unfold updated.
    by rewrite andb_false_r.
  - simpl. by rewrite decide_False.
Qed.

(** ** The size of the queue *)

Definition queued (s : Sys) : Z := get_queued_count (sys_db s).

(** A call that adds at most [n] queued deployments *)
Definition adds {A} (n : Z) (m : M A) : Prop := ∀ s, (queued (m s).1 ≤ queued s + n)%Z.

Lemma adds_bind {A B} a b (m : M A) (k : A → M B) :
  (0 ≤ b)%Z → adds a m → (∀ x, adds b (k x)) → adds (a + b) (bind m k).
Proof.
  intros Hb Hm Hk s. unfold bind. specialize (Hm s). destruct (m s) as [s1 [x|e]]; simpl in *.
  - specialize (Hk x s1). lia.
  - lia.
Qed.
Lemma adds_ret {A} (x : A) : adds 0 (ret x).
Proof. intros s. simpl. lia. Qed.
Lemma adds_fail {A} e : adds 0 (fail (A := A) e).
Proof. intros s. simpl. lia. Qed.
Lemma adds_query {A} (f : Db → A) : adds 0 (query f).
Proof. intros s. simpl. lia. Qed.
Lemma adds_result {A} (r : result A SqlError) : adds 0 (of_result r).
Proof. intros s. simpl. lia. Qed.
Lemma adds_wake : adds 0 wake_queue.
Proof. intros s. unfold queued. simpl. lia. Qed.
Lemma adds_capacity env : adds 0 (capacity_checked env).
Proof. intros s. simpl. lia. Qed.
Lemma adds_ignore {A} n (m : M A) : adds n m → adds n (ignore m).
Proof. intros Hm s. exact (Hm s). Qed.
Lemma adds_management sv : adds 0 (management_get_or_create sv).
Proof.
  intros s. unfold management_get_or_create, queued. repeat case_match; simpl; lia.
Qed.
Lemma adds_deployable sv : adds 0 (assert_deployable sv).
Proof.
  destruct sv as [sv|]; [|apply adds_ret]. apply (adds_bind 0 0); [lia | apply adds_management|].
  intros [mode msg]. simpl. destruct (mode =? 0)%Z; [apply adds_ret | apply adds_fail].
Qed.

Lemma adds_write n f :
  (0 ≤ n)%Z →
  (∀ db db', f db = Ok db' → (get_queued_count db' ≤ get_queued_count db + n)%Z) → adds n (write f).
Proof.
  intros Hn Hf s. unfold write, queued. destruct (f (sys_db s)) eqn:E; simpl; [by apply Hf | lia].
Qed.
Lemma adds_write_ret {A} n (f : Db → result (Db * A) SqlError) :
  (0 ≤ n)%Z →
  (∀ db db' a, f db = Ok (db', a) → (get_queued_count db' ≤ get_queued_count db + n)%Z) →
  adds n (write_ret f).
Proof.
  intros Hn Hf s. unfold write_ret, queued. destruct (f (sys_db s)) as [[db a]|] eqn:E; simpl;
    [by eapply Hf | lia].
Qed.

(** An update that queues nothing does not lengthen the queue. *)
Lemma count_map (f : Deployment → Deployment) l :
  (∀ d, d ∈ l → has_status "QUEUED" (f d) = true → has_status "QUEUED" d = true) →
  length (List.filter (has_status "QUEUED") (map f l)) ≤ length (List.filter (has_status "QUEUED") l).
Proof.
  induction l as [|d l IH]; intros Hf; simpl; [done|].
  assert (length (List.filter (has_status "QUEUED") (map f l))
          ≤ length (List.filter (has_status "QUEUED") l)) as Hle.
  { apply IH. intros x Hx. apply Hf. by apply elem_of_cons; right. }
  destruct (has_status "QUEUED" (f d)) eqn:E.
  - rewrite Hf; [simpl; lia | by apply elem_of_cons; left | done].
  - destruct (has_status "QUEUED" d); simpl; lia.
Qed.

Lemma update_count p f db db' n :
  (∀ d, p d = true → has_status "QUEUED" (f d) = true → has_status "QUEUED" d = true) →
  update_deployments p f db = Ok (db', n) → (get_queued_count db' ≤ get_queued_count db)%Z.
Proof.
  intros Hf (t & (Hr & _)%sql_update_inv & ->)%update_deployments_inv.
  unfold get_queued_count, sql_count, sql_select. simpl. rewrite Hr.
  apply inj_le, count_map. intros d _. unfold updated. destruct (p d) eqn:E; auto.
Qed.

Lemma insert_count mk db db' id :
  insert_deployment mk db = Ok (db', id) → (get_queued_count db' ≤ get_queued_count db + 1)%Z.
Proof.
  intros ([t i] & E & [= <- <-])%let_ok. apply sql_insert_inv in E as (_ & _ & Hr & _).
  unfold get_queued_count, sql_count, sql_select. simpl. rewrite Hr, List.filter_app, length_app.
  simpl. destruct (has_status _ _); simpl; lia.
Qed.

Lemma same_deployments_count db db' :
  deployments db' = deployments db → (get_queued_count db' ≤ get_queued_count db + 0)%Z.
Proof. unfold get_queued_count. intros ->. lia. Qed.

Lemma adds_log_path id p : adds 0 (write (update_log_path id p)).
Proof.
  apply adds_write; [lia|]. intros db db' ([db1 n] & E & [= <-])%let_ok.
  apply update_count in E; [lia | done].
Qed.
Lemma adds_application_status id st : adds 0 (application_update_status id st).
Proof.
  apply (adds_bind 0 0); [lia| |].
  - apply adds_write; [lia|]. intros db db' E. apply same_deployments_count.
    by apply (set_resource_status_deployments (Some id) None None None st).
  - intros _. apply (adds_bind 0 0); [lia | apply adds_query|]. intros o. apply adds_result.
Qed.
Lemma adds_compose_status id st : adds 0 (compose_update_status id st).
Proof.
  apply (adds_bind 0 0); [lia| |].
  - apply adds_write; [lia|]. intros db db' E. apply same_deployments_count.
    by apply (set_resource_status_deployments None (Some id) None None st).
  - intros _. apply (adds_bind 0 0); [lia | apply adds_query|]. intros o. apply adds_result.
Qed.
Lemma adds_application_write id st : adds 0 (write (set_application_status id st)).
Proof.
  apply adds_write; [lia|]. intros db db' E. apply same_deployments_count.
  by apply (set_resource_status_deployments (Some id) None None None st).
Qed.
Lemma adds_compose_write id st : adds 0 (write (set_compose_status id st)).
Proof.
  apply adds_write; [lia|]. intros db db' E. apply same_deployments_count.
  by apply (set_resource_status_deployments None (Some id) None None st).
Qed.
Lemma adds_database_status k id st : adds 0 (database_update_status k id st).
Proof.
  apply adds_write; [lia|]. intros db db' ([t n] & E & [= <-])%let_ok.
  by apply same_deployments_count.
Qed.
Lemma adds_insert (mk : Db → Z → Deployment) :
  adds 1 (write_ret (λ db, insert_deployment (mk db) db)).
Proof. apply adds_write_ret; [lia|]. intros db db' i. apply insert_count. Qed.

Lemma adds_application_get id : adds 0 (application_get_by_id id).
Proof. apply (adds_bind 0 0); [lia | apply adds_query|]. intros o. apply adds_result. Qed.
Lemma adds_compose_get id : adds 0 (compose_get_by_id id).
Proof. apply (adds_bind 0 0); [lia | apply adds_query|]. intros o. apply adds_result. Qed.
Lemma adds_database_get k id : adds 0 (database_get_by_id k id).
Proof. apply (adds_bind 0 0); [lia | apply adds_query|]. intros o. apply adds_result. Qed.
Lemma adds_server_and_name k id : adds 0 (get_server_id_and_name k id).
Proof.
  apply (adds_bind 0 0); [lia | apply adds_query|]. intros o.
  apply (adds_bind 0 0); [lia | apply adds_result|]. intros b. apply adds_ret.
Qed.
End service_props.

#[export] Hint Resolve adds_ret adds_fail adds_query adds_result adds_wake adds_capacity
  adds_deployable adds_log_path adds_application_status adds_compose_status adds_database_status
  adds_application_get adds_compose_get adds_database_get adds_server_and_name : oxide.

Section capacity.
Context `{Watch}.

Lemma adds_cancel_component k : adds 0 (cancel_component k).
Proof.
  intros s. unfold cancel_component. destruct (cancel_by_id k (sys_app s)). unfold queued. simpl. lia.
Qed.

Lemma cancel_where_count p now db db' n :
  cancel_queued_where p now db = Ok (db', n) → (get_queued_count db' ≤ get_queued_count db)%Z.
Proof. apply update_count. done. Qed.

Lemma any_affected_inv r db b : any_affected r = Ok (db, b) → ∃ n, r = Ok (db, n).
Proof. intros ([db1 n] & -> & [= <- <-])%let_ok. eauto. Qed.

Lemma adds_cancel_queued_compose id now : adds 0 (write_ret (cancel_queued_compose id now)).
Proof.
  apply adds_write_ret; [lia|].
  intros db db' a ([db1 b] & (n & E)%any_affected_inv & [= <- _])%let_ok.
  apply cancel_where_count in E. lia.
Qed.
Lemma adds_cancel_queued_database id now : adds 0 (write_ret (cancel_queued_database id now)).
Proof.
  apply adds_write_ret; [lia|].
  intros db db' a ([db1 b] & (n & E)%any_affected_inv & [= <- _])%let_ok.
  apply cancel_where_count in E. lia.
Qed.
Lemma adds_cancel_for_database id now : adds 0 (write_ret (cancel_queued_for_database id now)).
Proof.
  apply adds_write_ret; [lia|]. intros db db' a (n & E)%any_affected_inv.
  apply cancel_where_count in E. lia.
Qed.
Lemma adds_request_cancel_compose id now :
  adds 0 (write (request_cancel_compose_deployment id now)).
Proof.
  apply adds_write; [lia|]. intros db db' ([db1 n] & E & [= <-])%let_ok.
  apply update_count in E; [lia|]. done.
Qed.
Lemma adds_request_cancel_database id now :
  adds 0 (write (request_cancel_database_deployment id now)).
Proof.
  apply adds_write; [lia|]. intros db db' ([db1 n] & E & [= <-])%let_ok.
  apply update_count in E; [lia|]. done.
Qed.

Lemma query_then {A B} (f : Db → A) (k : A → M B) s : bind (query f) k s = k (f (sys_db s)) s.
Proof. done. Qed.

(** *** Concurrent requests *)

(** A request in progress: what is left of it *)
Inductive Request :=
| Req {A : Type} (p : Prog A).

Inductive queueing_request (env : option Z) : Request → Prop :=
| application_request logs now id op :
    queueing_request env (Req (application_run_program env logs now id op))
| compose_request logs now id op :
    queueing_request env (Req (compose_run_program env logs now id op))
| database_request logs now kind id op :
    queueing_request env (Req (database_run_program env logs now kind id op)).

Record Pool := mkPool { pool_sys : Sys; pool_requests : gmap nat Request }.

(** At most [width] requests are in progress at a time.  A request runs one statement, ends, or
    is dropped with its connection; the rest of the panel does anything but queue. *)
Inductive pool_step (env : option Z) (width : nat) : Pool → Pool → Prop :=
| request_starts pid q s reqs :
    reqs !! pid = None → size reqs < width → queueing_request env q →
    pool_step env width (mkPool s reqs) (mkPool s (<[pid := q]> reqs))
| request_continues pid {A B} (m : M B) (k : B → Prog A) s s' b reqs :
    reqs !! pid = Some (Req (Stmt m k)) → m s = (s', Ok b) →
    pool_step env width (mkPool s reqs) (mkPool s' (<[pid := Req (k b)]> reqs))
| request_fails pid {A B} (m : M B) (k : B → Prog A) s s' e reqs :
    reqs !! pid = Some (Req (Stmt m k)) → m s = (s', Err e) →
    pool_step env width (mkPool s reqs) (mkPool s' (<[pid := Req (A := A) (Done (Err e))]> reqs))
| request_ends pid s reqs :
    pool_step env width (mkPool s reqs) (mkPool s (base.delete pid reqs))
| rest_of_panel s s' reqs :
    (queued s' ≤ queued s)%Z → pool_step env width (mkPool s reqs) (mkPool s' reqs).

(** What a program may still queue: nothing before it has passed the check, one deployment after *)
Definition checks {B} (env : option Z) (m : M B) : Prop :=
  ∀ s, (queued (m s).1 ≤ queued s)%Z
       ∧ match (m s).2 with Ok _ => (queued s < queue_max_size env)%Z | Err _ => True end.

Fixpoint allowed (env : option Z) {A} (b : bool) (p : Prog A) : Prop :=
  match p with
  | Done _ => True
  | Stmt m k =>
      (adds 0 m ∧ ∀ x, allowed env b (k x))
      ∨ (b = true ∧ adds 1 m ∧ ∀ x, allowed env false (k x))
      ∨ (b = false ∧ checks env m ∧ ∀ x, allowed env true (k x))
  end.

Lemma capacity_checks env : checks env (capacity_checked env).
Proof.
  intros s. unfold capacity_checked, ensure_capacity. fold (queued s). simpl. split; [lia|].
  destruct (queue_max_size env <=? queued s)%Z eqn:E; bsimp; done.
Qed.

Definition request_allowed (env : option Z) (b : bool) (q : Request) : Prop :=
  match q with Req p => allowed env b p end.

Lemma allowed_stmt env {A B} b (m : M B) (k : B → Prog A) :
  adds 0 m → (∀ x, allowed env b (k x)) → allowed env b (Stmt m k).
Proof. intros Hm Hk. by left. Qed.
Lemma allowed_insert env {A} (mk : Db → Z → Deployment) (k : Z → Prog A) :
  (∀ x, allowed env false (k x)) → allowed env true (Stmt (write_ret (λ db, insert_deployment (mk db) db)) k).
Proof. intros Hk. right. left. split_and!; [done | apply adds_insert | done]. Qed.
Lemma allowed_check env {A} (k : unit → Prog A) :
  (∀ x, allowed env true (k x)) → allowed env false (Stmt (capacity_checked env) k).
Proof. intros Hk. right. right. split_and!; [done | apply capacity_checks | done]. Qed.

Ltac allowed_steps :=
  repeat first
    [ exact I
    | apply allowed_check; intros ?
    | apply allowed_stmt; [solve [auto using adds_ignore, adds_cancel_component,
        adds_cancel_queued_compose, adds_cancel_queued_database, adds_cancel_for_database,
        adds_request_cancel_compose, adds_request_cancel_database, adds_application_write,
        adds_compose_write with oxide] | intros ?]
    | apply (allowed_insert _ (λ _, _)); intros ?
    | match goal with
      | |- allowed _ _ (let '(_, _) := ?p in _) => destruct p
      | |- allowed _ _ (if ?b then _ else _) => destruct b
      | |- allowed _ _ (Stmt (if ?b then _ else _) _) => destruct b
      end ].

Lemma queueing_request_allowed env q : queueing_request env q → request_allowed env false q.
Proof.
  intros [logs now id op|logs now id op|logs now kind id op]; simpl.
  - unfold application_run_program. allowed_steps.
  - unfold compose_run_program, compose_stop_program. allowed_steps.
  - destruct op; unfold database_run_program, database_cancel_program; allowed_steps.
Qed.

(** [checked] are the requests that have passed the check and may still queue. *)
Definition pool_inv (env : option Z) (width : nat) (p : Pool) : Prop :=
  size (pool_requests p) ≤ width
  ∧ ∃ checked : gset nat,
      checked ⊆ dom (pool_requests p)
      ∧ (∀ pid q, pool_requests p !! pid = Some q →
           request_allowed env (bool_decide (pid ∈ checked)) q)
      ∧ (queued (pool_sys p) + Z.of_nat (size checked) ≤ queue_max_size env + Z.of_nat width - 1)%Z.

Lemma checked_size {V} (checked : gset nat) (reqs : gmap nat V) :
  checked ⊆ dom reqs → size checked ≤ size reqs.
Proof. intros Hc. rewrite <- size_dom. by apply subseteq_size. Qed.

(** One request moves on, perhaps passing the check or using it up. *)
Lemma pool_inv_moves env width s' (reqs : gmap nat Request) (checked checked' : gset nat) pid q q' :
  reqs !! pid = Some q → size reqs ≤ width → checked ⊆ dom reqs →
  (∀ i r, reqs !! i = Some r → request_allowed env (bool_decide (i ∈ checked)) r) →
  (∀ i, i ≠ pid → i ∈ checked' ↔ i ∈ checked) →
  request_allowed env (bool_decide (pid ∈ checked')) q' →
  (queued s' + Z.of_nat (size checked') ≤ queue_max_size env + Z.of_nat width - 1)%Z →
  pool_inv env width (mkPool s' (<[pid := q']> reqs)).
Proof.
  intros Hq Hw Hdom Hall Hsame Hq' Hb. split; simpl; [by rewrite map_size_insert_Some by eauto|].
  exists checked'. split_and!; [| |done].
  - intros i Hi. rewrite dom_insert, elem_of_union. destruct (decide (i = pid)) as [->|Hne]; [left; set_solver|].
    right. apply Hdom, Hsame; auto.
  - intros i r. destruct (decide (i = pid)) as [->|Hne].
    + rewrite lookup_insert_eq. by intros [= <-].
    + rewrite lookup_insert_ne by done. intros Hi. rewrite (bool_decide_ext _ (i ∈ checked)) by auto. auto.
Qed.

Lemma statement_inv env width s s' reqs pid {A B} (m : M B) (k : B → Prog A) r :
  reqs !! pid = Some (Req (Stmt m k)) → m s = (s', r) → pool_inv env width (mkPool s reqs) →
  pool_inv env width (mkPool s' (<[pid := Req match r with Ok b => k b | Err e => Done (Err e) end]> reqs)).
Proof.
  intros Hp Hm (Hw & checked & Hdom & Hall & Hb). simpl in *. pose proof (Hall _ _ Hp) as Hal. simpl in Hal.
  assert (pid ∈ dom reqs) as Hin by (apply elem_of_dom; eauto).
  destruct Hal as [[Hadd Hk]|[(Et & Hadd & Hk)|(Et & Hcheck & Hk)]].
  - eapply pool_inv_moves; [exact Hp|done|exact Hdom|exact Hall|done| |].
    + destruct r; [apply Hk | done].
    + specialize (Hadd s). rewrite Hm in Hadd. simpl in Hadd. lia.
  - apply bool_decide_eq_true in Et.
    eapply (pool_inv_moves _ _ _ _ _ (checked ∖ {[pid]})); [exact Hp|done|exact Hdom|exact Hall|set_solver| |].
    + rewrite bool_decide_eq_false_2 by set_solver. destruct r; [apply Hk | done].
    + specialize (Hadd s). rewrite Hm in Hadd. simpl in Hadd.
      assert (size checked = S (size (checked ∖ {[pid]}))) as Hs; [|lia].
      rewrite (union_difference_L {[pid]} checked) at 1 by set_solver.
      rewrite size_union, size_singleton by set_solver. done.
  - apply bool_decide_eq_false in Et. destruct (Hcheck s) as [Hle Hlt]. rewrite Hm in Hle, Hlt. simpl in *.
    destruct r as [b|e].
    + eapply (pool_inv_moves _ _ _ _ _ ({[pid]} ∪ checked)); [exact Hp|done|exact Hdom|exact Hall|set_solver| |].
      * rewrite bool_decide_eq_true_2 by set_solver. apply Hk.
      * pose proof (checked_size ({[pid]} ∪ checked) reqs ltac:(set_solver)). lia.
    + eapply pool_inv_moves; [exact Hp|done|exact Hdom|exact Hall|done|done|lia].
Qed.

Lemma pool_step_inv env width p p' : pool_step env width p p' → pool_inv env width p → pool_inv env width p'.
Proof.
  intros [pid q s reqs Hn Hlt Hq|pid A B m k s s' b reqs Hp Hm|pid A B m k s s' e reqs Hp Hm|pid s reqs|s s' reqs Hle] Hinv.
  - destruct Hinv as (Hw & checked & Hdom & Hall & Hb). simpl in *.
    assert (pid ∉ checked) as Hni by (intros Hi%Hdom; apply elem_of_dom in Hi as [x Hx]; congruence).
    split; simpl; [rewrite map_size_insert_None by done; lia|]. exists checked. split_and!; [set_solver| |done].
    intros i r. destruct (decide (i = pid)) as [->|Hne].
    + rewrite lookup_insert_eq. intros [= <-]. rewrite bool_decide_eq_false_2 by done.
      by apply queueing_request_allowed.
    + rewrite lookup_insert_ne by done. apply Hall.
  - exact (statement_inv env width s s' reqs pid m k (Ok b) Hp Hm Hinv).
  - exact (statement_inv env width s s' reqs pid m k (Err e) Hp Hm Hinv).
  - destruct Hinv as (Hw & checked & Hdom & Hall & Hb). simpl in *.
    split; simpl; [rewrite map_size_delete; case_match; simpl; lia|]. exists (checked ∖ {[pid]}). split_and!.
    + set_solver.
    + intros i r [Hne Hi]%lookup_delete_Some. rewrite (bool_decide_ext _ (i ∈ checked)) by set_solver. auto.
    + pose proof (subseteq_size (checked ∖ {[pid]}) checked ltac:(set_solver)). lia.
  - destruct Hinv as (Hw & checked & Hdom & Hall & Hb). simpl in *. split; [done|]. exists checked.
    split_and!; [done|done|]. simpl. lia.
Qed.

(** C26: While at most n requests that start operations on applications, compose projects and
    databases are in progress at a time, their statements interleaving with each other and with
    everything else the panel does, which queues nothing, there are never more than n - 1 queued
    deployments above the configured maximum; requests that run one after the other never exceed
    it. The check and the insertion are separate statements, so the bound is reached. *)
Theorem queue_stays_within_capacity (env : option Z) (width : nat) (s : Sys) (p : Pool) :
  1 ≤ width → (queued s ≤ queue_max_size env)%Z → rtc (pool_step env width) (mkPool s ∅) p →
  (queued (pool_sys p) ≤ queue_max_size env + (Z.of_nat width - 1))%Z.
Proof.
  intros Hw Hs Hrun. assert (pool_inv env width p) as (_ & checked & _ & _ & Hb); [|lia].
  assert (pool_inv env width (mkPool s ∅)) as H0.
  { split; [simpl; rewrite map_size_empty; lia|]. exists ∅. cbn [pool_sys pool_requests]. split_and!; [set_solver|done|].
    change (size ∅) with 0. lia. }
  clear Hs. induction Hrun; eauto using pool_step_inv.
Qed.
End capacity.

(** ** Listing, moving, cleaning up *)

(** Paging a list *)
Lemma sql_page_split {A} (n o : Z) (l : list A) :
  (0 ≤ n)%Z → (0 ≤ o)%Z →
  sql_page n o l ++ sql_page n (o + n) l = sql_page (n + n) o l.
Proof.
  intros Hn Ho. unfold sql_page. rewrite !(proj2 (Z.ltb_ge _ _)) by lia.
  rewrite !Z2Nat.inj_add by done. rewrite <- drop_drop.
  rewrite <- (take_take_drop (drop (Z.to_nat o) l) (Z.to_nat n) (Z.to_nat n)). done.
Qed.

Definition filter_matches (f : DeploymentListFilter) (d : Deployment) : bool :=
  filter_text (normalize_filter_text (f_status f)) (d_status d)
  && filter_text (normalize_filter_text (f_state f)) (d_state d)
  && filter_id (f_application_id f) (d_application_id d)
  && filter_id (f_compose_id f) (d_compose_id d)
  && filter_id (f_database_id f) (d_database_id d) && filter_id (f_server_id f) (d_server_id d).

Definition with_page (limit offset : Z) (f : DeploymentListFilter) : DeploymentListFilter :=
  mkFilter (f_status f) (f_state f) (f_application_id f) (f_compose_id f) (f_database_id f)
    (f_server_id f) limit offset.

(** Listing returns a page of the deployments matching the filter, newest first and at most two
    hundred; consecutive pages concatenate to the larger page, and one page of two hundred holds
    everything when there is no more. *)
Theorem listing_pages_the_sorted_matches (f : DeploymentListFilter) (db : Db) :
  let all := sql_order_by newest_started_first (sql_select (filter_matches f) (deployments db)) in
  Sorted (λ a b, newest_started_first a b = true) all
  ∧ (∀ d, d ∈ all ↔ d ∈ rows (deployments db) ∧ filter_matches f d = true)
  ∧ (∀ d, d ∈ service_list f db → d ∈ all) ∧ length (service_list f db) ≤ 200
  ∧ (∀ n o, (1 ≤ n ≤ 100)%Z → (0 ≤ o)%Z →
       service_list (with_page n o f) db ++ service_list (with_page n (o + n) f) db
       = service_list (with_page (n + n) o f) db)
  ∧ (length all ≤ 200 → service_list (with_page 200 0 f) db = all).
Proof.
  intros all. split_and!.
  - apply sql_order_by_sorted. intros a b. unfold newest_started_first.
    destruct (Z.lt_trichotomy (started_or_created a) (started_or_created b)) as [Hl|[->|Hl]].
    + right. apply orb_true_iff. left. by apply Z.ltb_lt.
    + rewrite Z.ltb_irrefl, Z.eqb_refl. simpl. rewrite !Z.leb_le. lia.
    + left. apply orb_true_iff. left. by apply Z.ltb_lt.
  - intros d. unfold all, sql_select. by rewrite sql_order_by_elem, elem_of_filterb.
  - intros d Hd. unfold service_list, list_filtered, sql_page in Hd.
    rewrite (proj2 (Z.ltb_ge _ _)) in Hd by lia.
    apply elem_of_take in Hd as (i & Hi & _). rewrite lookup_drop in Hi.
    by apply list_elem_of_lookup_2 in Hi.
  - unfold service_list, list_filtered, sql_page. rewrite (proj2 (Z.ltb_ge _ _)) by lia.
    rewrite length_take. lia.
  - intros n o Hn Ho. unfold service_list, with_page, list_filtered. cbn [f_limit f_offset].
    replace (Z.min (Z.max n 1) 200) with n by lia. replace (Z.max o 0) with o by lia.
    replace (Z.max (o + n) 0) with (o + n)%Z by lia.
    replace (Z.min (Z.max (n + n) 1) 200) with (n + n)%Z by lia. apply sql_page_split; lia.
  - intros Hl. unfold service_list, with_page, list_filtered, sql_page. cbn [f_limit f_offset].
    change (Z.to_nat (Z.max 0 0)) with 0. rewrite drop_0.
    change (Z.min (Z.max 200 1) 200) with 200%Z. apply take_ge. exact Hl.
Qed.

Section more.
Context `{Watch}.

(** A successful move puts the application into the target environment, returns the stored row,
    keeps the application in its organization, and happens only when no deployment of it is
    queued or running. *)
Theorem moving_keeps_the_organization (id target : Z) (s s' : Sys) (app : Application)
    (Hwf : db_wf (sys_db s))
    (Hrun : application_move_to_environment id target s = (s', Ok app)) :
  a_environment_id app = target
  ∧ find_application id (sys_db s') = Some app
  ∧ application_organization_id id (sys_db s') = application_organization_id id (sys_db s)
  ∧ has_running_deployment id (sys_db s) = false.
Proof.
  unfold application_move_to_environment, application_get_by_id, bind, query, of_result in Hrun.
  destruct (find_application id (sys_db s)) as [a0|] eqn:Ha; simpl in Hrun; [|done].
  destruct (has_running_deployment id (sys_db s)) eqn:Hr; [done|].
  unfold write_ret in Hrun. destruct (move_in_same_organization id target (sys_db s))
    as [[db n]|] eqn:E; [|done]. apply let_ok in E as ([t m] & E & [= <- <-]).
  pose proof (wf_applications _ Hwf) as Ht.
  pose proof E as (Hrows & _ & -> & _)%sql_update_inv.
  assert (table_wf t) as Hwf'.
  { eapply sql_update_wf; [exact Ht| |exact E]. done. }
  case_bool_decide as Hn; simpl in Hrun; [done|].
  assert (a0 ∈ rows (applications (sys_db s)) ∧ a_id a0 = id) as [Hin0 Hid0]
    by (apply sql_first_Some in Ha as [? ?]; bsimp; done).
  set (p := λ a : Application, ((a_id a =? id) && same_organization (a_environment_id a) target
              (sys_db s))%Z) in *.
  assert (p a0 = true) as Hp0.
  { destruct (sql_select p (applications (sys_db s))) as [|x l] eqn:Esel; [done|].
    assert (x ∈ sql_select p (applications (sys_db s))) as Hx
      by (rewrite Esel; by apply elem_of_cons; left).
    apply elem_of_filterb in Hx as [Hx Hpx].
    assert (a_id x = id) as Hxid by (unfold p in Hpx; bsimp; done).
    assert (x = a0) as <- by (apply (wf_lookup_unique _ _ _ Ht); simpl; congruence). done. }
  set (a1 := mkApplication (a_id a0) (a_name a0) (a_app_name a0) (a_app_status a0) target
               (a_server_id a0)).
  assert (find_application id (with_applications t (sys_db s)) = Some a1) as Hfind.
  { unfold find_application. simpl. rewrite <- Hid0. change (a_id a0) with (row_id a1).
    apply (sql_first_id t a1 Hwf'). rewrite Hrows. apply elem_of_mapb. exists a0.
    split; [|done]. unfold updated. by rewrite Hp0. }
  rewrite Hfind in Hrun. simpl in Hrun. injection Hrun as <- <-. split_and!; [done|done| |done].
  unfold application_organization_id. simpl. rewrite Hfind, Ha. simpl.
  change (environment_organization target (with_applications t (sys_db s)))
    with (environment_organization target (sys_db s)).
  unfold p, same_organization in Hp0. apply andb_true_iff in Hp0 as [_ Hp0].
  destruct (environment_organization (a_environment_id a0) (sys_db s)), (environment_organization target _);
    try done. bsimp. by subst.
Qed.

(** Cleaning the queue of an application cancels every queued deployment of it and reports zero
    cancelled ones, since the first cancellation leaves nothing for the counted one. *)
Theorem queue_cleanup_always_reports_zero (now id : Z) (app : Application) (s : Sys)
    (Hwf : db_wf (sys_db s)) (Happ : find_application id (sys_db s) = Some app) :
  let '(s', r) := application_cleanup_deployment_queue now id s in
  r = Ok 0
  ∧ (∀ d, d ∈ rows (deployments (sys_db s')) → for_application id d = true →
       d_status d ≠ "QUEUED")
  ∧ ∀ d, d ∈ rows (deployments (sys_db s)) → for_application id d = true → d_status d = "QUEUED" →
       cancelled now d ∈ rows (deployments (sys_db s')).
Proof.
  unfold application_cleanup_deployment_queue, application_get_by_id.
  rewrite (bind_run _ _ s s app) by (unfold bind, query, of_result; by rewrite Happ).
  pose proof (cancel_queued_where_spec (for_application id) now _ Hwf) as E1.
  pose proof (apply_op_wf (OpCancelQueued (TApp id) now) _ _ Hwf
    ltac:(simpl; rewrite E1; reflexivity)) as Hwf1.
  set (db1 := with_deployments _ (sys_db s)) in *.
  rewrite (bind_run _ _ _ (sys_with_db db1 s) tt)
    by (unfold ignore, write_ret, cancel_queued_application, cancel_queued_for_application;
        simpl; by rewrite E1).
  pose proof (cancel_queued_clears (for_application id) now _ _ _
    ltac:(unfold for_application; congruence) E1) as Hclear.
  assert (sql_exists (λ d, for_application id d && has_status "QUEUED" d) (deployments db1) = false)
    as Hnone by (by apply existsb_false).
  unfold write_ret, cancel_queued_for_application_count. cbn [sys_db sys_with_db].
  unfold cancel_queued_where, update_deployments.
  rewrite sql_update_none by done. split_and!; [done| |].
  - intros d Hd Hf Hq. apply has_status_spec in Hq. specialize (Hclear d Hd).
    by rewrite Hf, Hq in Hclear.
  - intros d Hd Hf Hq. simpl. apply elem_of_mapb. exists d. split; [|done].
    unfold updated. by rewrite Hf, (proj2 (has_status_spec "QUEUED" d)).
Qed.
End more.

(** ** An accepted database operation *)

Section database_run.
Context `{Watch}.

Definition queued_database_row (logs : string) (now : Z) (kind : DatabaseKind) (id : Z)
    (op : DatabaseOperation) (b : DatabaseRow) (dep : Z) : Deployment :=
  mkDeployment dep (database_op_title op)
    (Some (database_op_as_str op +:+ " requested for database " +:+ b_name b)) "QUEUED" "QUEUE"
    (deployment_log_file logs dep) None None (Some (database_op_as_str op)) 0 None
    (Some now) None None None (b_server_id b) now (Some id) (Some (database_kind_as_str kind)).

(** Rewriting the log path of a row that was just inserted *)
Lemma update_log_path_last db d path :
  db_wf (with_deployments (mkTable (rows (deployments db) ++ [d]) (d_id d)) db) →
  update_log_path (d_id d) path
    (with_deployments (mkTable (rows (deployments db) ++ [d]) (d_id d)) db)
  = Ok (with_deployments (mkTable (rows (deployments db) ++ [set_d_log_path path d]) (d_id d)) db).
Proof.
  intros Hwf. pose proof (wf_deployments _ Hwf) as Ht. simpl in Ht.
  unfold update_log_path, update_deployments.
  rewrite (sql_update_success _ _ _ _ Ht); [|done| |done].
  2: { intros x Hx _. split; [|done]. exact (wf_check _ Ht x Hx). }
  simpl. enough (map (updated (has_id (d_id d)) (set_d_log_path path)) (rows (deployments db) ++ [d])
                 = rows (deployments db) ++ [set_d_log_path path d]) as -> by done.
  rewrite map_app. simpl. f_equal.
  - rewrite <- (map_id (rows (deployments db))) at 2. apply map_ext_in. intros x Hx.
    unfold updated. destruct (has_id (d_id d) x) eqn:E; [|done]. exfalso.
    apply has_id_spec in E. pose proof (wf_ids _ Ht) as Hnd. simpl in Hnd. rewrite map_app in Hnd.
    apply NoDup_app in Hnd as (_ & Hnd & _). apply (Hnd (d_id x)).
    + apply elem_of_mapb. exists x. split; [done|]. by apply list_elem_of_In.
    + simpl. rewrite E. by apply list_elem_of_singleton.
  - unfold updated, has_id. by rewrite Z.eqb_refl.
Qed.

(** The row as it is inserted, before its log path is known *)
Definition pending_database_row (logs : string) (now : Z) (kind : DatabaseKind) (id : Z)
    (op : DatabaseOperation) (b : DatabaseRow) (dep : Z) : Deployment :=
  set_d_log_path ("pending-db-" +:+ i64_to_string id)
    (queued_database_row logs now kind id op b dep).

(** No unique index and no foreign key of [deployments] involves a database. *)
Lemma queue_database_succeeds logs now kind id op b db :
  references (λ z, z) (b_server_id b) (servers db) = true →
  let dep := (seq (deployments db) + 1)%Z in
  create_queued_database_deployment now (database_op_title op)
    (Some (database_op_as_str op +:+ " requested for database " +:+ b_name b))
    ("pending-db-" +:+ i64_to_string id) (database_op_as_str op) id
    (database_kind_as_str kind) (b_server_id b) db
  = Ok (with_deployments (mkTable (rows (deployments db)
          ++ [pending_database_row logs now kind id op b dep]) dep) db, dep).
Proof.
  intros Hsv dep. unfold create_queued_database_deployment, insert_deployment, sql_insert. simpl.
  match goal with |- context [existsb ?f ?l] => assert (existsb f l = false) as -> end.
  { apply existsb_false. intros d _. simpl. unfold deployment_conflict. simpl.
    by rewrite !andb_false_r. }
  match goal with |- context [deployment_fk ?x ?y] => assert (deployment_fk x y = true) as -> end;
    [exact Hsv | done].
Qed.

Lemma find_updated_database kind id st b t db :
  table_wf t → find_database kind id db = Some b →
  rows t = map (updated (λ b, b_id b =? id)%Z (database_with_status st)) (rows (databases db kind)) →
  sql_first (λ x, b_id x =? id)%Z t = Some (database_with_status st b).
Proof.
  intros Hwf [Hin Hid]%sql_first_Some Ht. bsimp. rewrite <- Hid.
  apply (sql_first_id t (database_with_status st b) Hwf). rewrite Ht. apply elem_of_mapb.
  exists b. split; [|done]. unfold updated. by rewrite Hid, Z.eqb_refl.
Qed.

(** An operation other than stop on an idle database, with room in the queue and a deployable
    server, inserts one queued deployment, sets the database to STARTING, returns the updated
    row and wakes the dispatcher. *)
Theorem accepted_database_operation_is_queued (env : option Z) (logs : string) (now : Z)
    (kind : DatabaseKind) (id : Z) (op : DatabaseOperation) (b : DatabaseRow) (s : Sys)
    (Hwf : db_wf (sys_db s)) (Hop : op ≠ DatabaseStop)
    (Hb : find_database kind id (sys_db s) = Some b)
    (Hidle : has_running_database_deployment id (sys_db s) = false)
    (Hroom : (get_queued_count (sys_db s) < queue_max_size env)%Z)
    (Hsv : references (λ z, z) (b_server_id b) (servers (sys_db s)) = true)
    (Hdep : deployable (b_server_id b) s) :
  let '(s', r) := database_run_operation env logs now kind id op s in
  r = Ok (database_with_status "STARTING" b)
  ∧ rows (deployments (sys_db s'))
    = rows (deployments (sys_db s))
      ++ [queued_database_row logs now kind id op b (seq (deployments (sys_db s)) + 1)]
  ∧ sys_notified s' = true.
Proof.
  set (dep := (seq (deployments (sys_db s)) + 1)%Z).
  pose proof (set_database_rows_success kind (λ b, b_id b =? id)%Z "STARTING" _ Hwf eq_refl) as E1.
  pose proof (set_database_rows_wf _ _ _ _ _ Hwf E1) as Hwf1.
  set (db1 := with_database _ _ (sys_db s)) in *.
  set (r0 := pending_database_row logs now kind id op b dep).
  pose proof (queue_database_succeeds logs now kind id op b db1 Hsv) as E2.
  cbn zeta in E2. change (seq (deployments db1) + 1)%Z with dep in E2. fold r0 in E2.
  assert (db_wf (with_deployments (mkTable (rows (deployments db1) ++ [r0]) dep) db1)) as Hwf2.
  { apply (apply_op_wf (OpCreateQueuedDatabase now (database_op_title op)
      (Some (database_op_as_str op +:+ " requested for database " +:+ b_name b))
      ("pending-db-" +:+ i64_to_string id) (database_op_as_str op) id
      (database_kind_as_str kind) (b_server_id b)) db1); [done|]. simpl. by rewrite E2. }
  pose proof (update_log_path_last db1 r0 (deployment_log_file logs dep) Hwf2) as E3.
  change (d_id r0) with dep in E3.
  set (db3 := with_deployments (mkTable (rows (deployments db1)
                ++ [set_d_log_path (deployment_log_file logs dep) r0]) dep) db1) in *.
  assert (find_database kind id db3 = Some (database_with_status "STARTING" b)) as Hfind.
  { apply (find_updated_database kind id "STARTING" b _ (sys_db s) (wf_databases db1 Hwf1 kind) Hb).
    simpl. by rewrite decide_True. }
  destruct (assert_deployable_ok (b_server_id b) s Hdep) as (m & Em).
  set (s1 := mkSys (sys_db s) (sys_app s) m (sys_notified s)) in *.
  destruct op; try done; unfold database_run_operation; rewrite query_then, Hidle;
    (rewrite (bind_run _ _ s s tt) by (unfold capacity_checked; by rewrite has_room));
    (rewrite (bind_run _ _ s s (b_server_id b, b_name b))
       by (unfold get_server_id_and_name, bind, query, of_result; by rewrite Hb));
    rewrite (bind_run _ _ _ _ _ Em);
    (rewrite (bind_run _ _ s1 (sys_with_db db1 s1) tt)
       by (unfold database_update_status, write; simpl; by rewrite E1));
    (rewrite (bind_run _ _ _ (sys_with_db (with_deployments (mkTable (rows (deployments db1)
         ++ [r0]) dep) db1) s1) dep)
       by (unfold write_ret; cbn [sys_db sys_with_db]; rewrite E2; reflexivity));
    (rewrite (bind_run _ _ _ (sys_with_db db3 s1) tt)
       by (unfold write; cbn [sys_db sys_with_db]; rewrite E3; reflexivity));
    (rewrite (bind_run _ _ _ (mkSys db3 (sys_app s1) m true) tt) by reflexivity);
    unfold database_get_by_id; rewrite query_then; simpl; rewrite Hfind; done.
Qed.
End database_run.

(** ** Witnesses *)

#[local] Instance service_watch : Watch := counted_watch.

Definition sample_sys : Sys := mkSys sample_db state_new ∅ false.

(** A deployment of the application is running here. *)
Definition sample_running : Sys :=
  mkSys (exec [OpClaim 1 2000] sample_queued_db) (reset_default (AppId 1) 4 3 state_new) ∅ false.

Lemma cancel_witness :
  (cancel 3000 1 sample_running).2 = Err CheckFailed
  ∧ is_cancelled 0 (sys_app (cancel 3000 1 sample_running).1) = true.
Proof.
  rewrite (cancel_on_every_branch 3000 1 sample_running (exec_wf _ _ sample_queued_db_wf)).
  split; vm_compute; reflexivity.
Defined.

Lemma accepted_operation_witness :
  (application_run_operation None "/logs" 1000 1 AppRedeploy sample_sys).2 = Err CheckFailed
  ∧ map d_status (rows (deployments (sys_db
      (application_run_operation None "/logs" 1000 1 AppRedeploy sample_sys).1))) = ["QUEUED"].
Proof.
  pose proof (accepted_operation_reports_an_error None "/logs" 1000 1 AppRedeploy sample_application
    sample_sys sample_db_wf eq_refl eq_refl eq_refl eq_refl
    ltac:(vm_compute; apply list_elem_of_here)) as Hw.
  destruct (application_run_operation _ _ _ _ _ _) as [s' r]. destruct Hw as (-> & Hr & _).
  split; [reflexivity|]. cbn [fst]. rewrite Hr. vm_compute. reflexivity.
Defined.

Definition sample_mysql_queued : Sys :=
  mkSys (exec [OpCreateQueuedDatabase 1000 "Deploying Database" None "pending-db-1" "deploy" 1 "mysql"
                 (Some 5%Z)] sample_db) state_new ∅ false.

Definition sample_mysql_row : Deployment :=
  mkDeployment 1 "Deploying Database" None "QUEUED" "QUEUE" "pending-db-1" None None (Some "deploy") 0
    None (Some 1000%Z) None None None (Some 5%Z) 1000 (Some 1%Z) (Some "mysql").

Lemma other_kind_witness :
  cancelled 3000 sample_mysql_row
    ∈ rows (deployments (sys_db (database_cancel_operation 3000 Postgres 1 sample_mysql_queued).1)).
Proof.
  apply (cancelling_a_database_cancels_other_kinds 3000 Postgres Mysql 1 sample_mysql_row
    sample_mysql_queued (exec_wf _ _ sample_db_wf)).
  - done.
  - vm_compute. apply list_elem_of_here.
  - reflexivity.
  - reflexivity.
  - reflexivity.
Defined.

(** The statements of [req] are run one after the other, beside the other requests. *)
Fixpoint finish (fuel pid : nat) (p : Pool) : Pool :=
  match fuel with
  | 0 => p
  | S n =>
      match pool_requests p !! pid with
      | Some (Req (Stmt m k)) =>
          let '(s', r) := m (pool_sys p) in
          finish n pid (mkPool s' (<[pid := Req match r with Ok b => k b | Err e => Done (Err e) end]>
                                     (pool_requests p)))
      | _ => p
      end
  end.

Lemma finish_steps env width fuel pid p : rtc (pool_step env width) p (finish fuel pid p).
Proof.
  revert p. induction fuel as [|n IH]; intros [s reqs]; [constructor|]. simpl.
  destruct (reqs !! pid) as [[A [r|B m k]]|] eqn:E; [constructor| |constructor].
  destruct (m s) as [s' [b|e]] eqn:Em; (eapply rtc_l; [|apply IH]).
  - by eapply request_continues.
  - by eapply request_fails.
Qed.

(** Two requests, for an application and for a database, with a queue of one *)
Definition redeploy : Request := Req (application_run_program (Some 1%Z) "/logs" 1000 1 AppRedeploy).
Definition deploy_redis : Request := Req (database_run_program (Some 1%Z) "/logs" 1000 Redis 1 DatabaseDeploy).

Definition one_request : Pool := finish 12 1 (mkPool sample_sys {[1 := redeploy]}).

Lemma capacity_witness :
  (queued (pool_sys one_request) ≤ 1)%Z ∧ queued (pool_sys one_request) = 1%Z.
Proof.
  split; [|vm_compute; reflexivity].
  apply (queue_stays_within_capacity (Some 1%Z) 1 sample_sys one_request); [lia | vm_compute; done |].
  eapply rtc_l; [|apply finish_steps].
  apply (request_starts (Some 1%Z) 1 1 redeploy sample_sys ∅); [done | rewrite map_size_empty; lia | constructor].
Defined.

(** Started together, both pass the check before either has queued. *)
Definition two_requests : Pool :=
  finish 12 2 (finish 12 1 (finish 2 2 (finish 2 1
    (mkPool sample_sys {[1 := redeploy; 2 := deploy_redis]})))).

Example two_requests_exceed_the_maximum :
  rtc (pool_step (Some 1%Z) 2) (mkPool sample_sys ∅) two_requests
  ∧ queue_max_size (Some 1%Z) = 1%Z ∧ queued (pool_sys two_requests) = 2%Z.
Proof.
  split; [|split; vm_compute; reflexivity].
  eapply rtc_l.
  { apply (request_starts (Some 1%Z) 2 2 deploy_redis sample_sys ∅); [done | rewrite map_size_empty; lia | constructor]. }
  eapply rtc_l.
  { apply (request_starts (Some 1%Z) 2 1 redeploy); [done | | constructor].
    rewrite insert_empty, map_size_singleton. lia. }
  unfold two_requests. do 3 (etrans; [|apply finish_steps]). apply finish_steps.
Qed.

Lemma move_witness :
  ∃ s' app, application_move_to_environment 1 4 sample_sys = (s', Ok app)
  ∧ application_organization_id 1 (sys_db s') = Ok 9%Z.
Proof.
  destruct (application_move_to_environment 1 4 sample_sys) as [s' [app|e]] eqn:E;
    [|vm_compute in E; discriminate].
  exists s', app. split; [reflexivity|].
  destruct (moving_keeps_the_organization 1 4 sample_sys s' app sample_db_wf E) as (_ & _ & -> & _).
  vm_compute. reflexivity.
Defined.

Lemma cleanup_witness :
  (application_cleanup_deployment_queue 3000 1 (mkSys sample_queued_db state_new ∅ false)).2 = Ok 0.
Proof.
  pose proof (queue_cleanup_always_reports_zero 3000 1 sample_application
    (mkSys sample_queued_db state_new ∅ false) sample_queued_db_wf eq_refl) as Hw.
  destruct (application_cleanup_deployment_queue _ _ _) as [s' r]. destruct Hw as (Hr & _). exact Hr.
Defined.

Lemma database_run_witness :
  (database_run_operation None "/logs" 1000 Redis 1 DatabaseDeploy sample_sys).2
  = Ok (database_with_status "STARTING" sample_database).
Proof.
  pose proof (accepted_database_operation_is_queued None "/logs" 1000 Redis 1 DatabaseDeploy
    sample_database sample_sys sample_db_wf ltac:(done) eq_refl eq_refl eq_refl eq_refl
    ltac:(vm_compute; apply list_elem_of_here)) as Hw.
  destruct (database_run_operation _ _ _ _ _ _ _) as [s' r]. destruct Hw as (Hr & _). exact Hr.
Defined.
