(* ===== verification/PermissionDb.v ===== *)
(** * The tables of organizations, groups and policies, and their repositories

    [src/db/repository/permission_groups.rs], [groups.rs], [organization_members.rs],
    [organization_invites.rs], [user_policy.rs], [resource_access.rs] and the part of
    [users.rs] and [audit_logs.rs] the permission services call, over the tables of
    migrations 0001, 0006, 0042 and 0043.  The [updated_at] triggers are part of the updates
    they follow. *)

From stdpp Require Import gmap strings list sorting.
From Stdlib Require Import ZArith Lia.
From S2P Require Import Prelude RustStr RustText StringEnum Sql.

(** ** Rows *)

Record User := mkUser {
  u_id : Z;
  u_email : option string;
  u_last_name : option string;
  u_first_name : option string;
  u_avatar : string;
  u_role : option string;
  u_about_me : option string;
  u_password : string;
  u_is_email_verify : option Z;
  u_email_verify_at : option Z;
  u_two_factor_enable : option Z;
  u_is_registered : Z;
  u_added_by : option Z;
  u_group_id : Z;
  u_created_at : Z;
  u_updated_at : Z;
}.

Record Group := mkGroup {
  g_id : Z;
  g_name : string;
  g_is_system : Z;
  g_organization_id : option Z;
  g_created_at : Z;
  g_updated_at : Z;
}.

Record Policy := mkPolicy { p_id : Z; p_action : string; p_created_at : Z }.

Record GroupPolicy := mkGroupPolicy {
  gp_id : Z;
  gp_group_id : Z;
  gp_policy_id : Z;
  gp_created_at : Z;
}.

Record OrganizationMember := mkMember {
  om_id : Z;
  om_role : option string;
  om_user_id : Z;
  om_organization_id : Z;
  om_created_at : Z;
  om_updated_at : Z;
  om_group_id : option Z;
}.

Record UserPolicy := mkUserPolicy {
  up_id : Z;
  up_user_id : Z;
  up_org_id : Z;
  up_policy_id : Z;
  up_effect : string;
  up_created_at : Z;
}.

Record ResourceAccess := mkResourceAccess {
  ra_id : Z;
  ra_user_id : option Z;
  ra_org_id : option Z;
  ra_resource_type : option string;
  ra_resource_id : option Z;
  ra_created_at : option Z;
}.

Record OrganizationInvite := mkInvite {
  oi_id : Z;
  oi_email : string;
  oi_role : option string;
  oi_status : option string;
  oi_token : string;
  oi_group_id : Z;
  oi_organization_id : Z;
  oi_invited_by : Z;
  oi_expired_at : Z;
  oi_created_at : Z;
}.

(** The metadata of an audit event before [serde_json] renders it. *)
Inductive AuditMetadata :=
| MetaInvite (email : string) (role : option string)
| MetaRole (role : string)
| MetaGroup (group_id : Z)
| MetaPolicies (policies : list (Z * string)).

Record AuditLog := mkAudit {
  al_id : Z;
  al_user_email : string;
  al_user_role : string;
  al_action : string;
  al_resource_type : string;
  al_resource_id : option string;
  al_resource_name : option string;
  al_metadata : option AuditMetadata;
  al_organization_id : option Z;
  al_user_id : option Z;
  al_created_at : Z;
}.

(** ** Constraints *)

(** A CHECK on a nullable column accepts NULL. *)
Definition check_in (l : list string) (o : option string) : bool :=
  match o with Some s => bool_decide (s ∈ l) | None => true end.

(** NULLs are distinct in a UNIQUE index. *)
Definition both_eq {A} `{EqDecision A} (a b : option A) : bool :=
  match a, b with Some x, Some y => bool_decide (x = y) | _, _ => false end.

(** The column [is_owner] of migration 0006 keeps its default, so its unique index never
    applies. *)
#[export] Instance User_schema : Schema User := {|
  row_id := u_id;
  row_check u := check_in ["OWNER"; "ADMIN"; "MEMBER"] (u_role u);
  row_conflict a b := both_eq (u_email a) (u_email b);
|}.
#[export] Instance Group_schema : Schema Group := {|
  row_id := g_id;
  row_check _ := true;
  row_conflict a b := bool_decide (g_name a = g_name b);
|}.
#[export] Instance Policy_schema : Schema Policy := {|
  row_id := p_id;
  row_check _ := true;
  row_conflict a b := bool_decide (p_action a = p_action b);
|}.
#[export] Instance GroupPolicy_schema : Schema GroupPolicy := {|
  row_id := gp_id;
  row_check _ := true;
  row_conflict a b := (gp_group_id a =? gp_group_id b)%Z && (gp_policy_id a =? gp_policy_id b)%Z;
|}.
#[export] Instance OrganizationMember_schema : Schema OrganizationMember := {|
  row_id := om_id;
  row_check m := check_in ["ADMIN"; "MEMBER"] (om_role m);
  row_conflict a b :=
    (om_user_id a =? om_user_id b)%Z && (om_organization_id a =? om_organization_id b)%Z;
|}.
#[export] Instance UserPolicy_schema : Schema UserPolicy := {|
  row_id := up_id;
  row_check p := bool_decide (up_effect p ∈ ["GRANT"; "DENY"]);
  row_conflict a b :=
    (up_user_id a =? up_user_id b)%Z && (up_org_id a =? up_org_id b)%Z
    && (up_policy_id a =? up_policy_id b)%Z;
|}.
#[export] Instance ResourceAccess_schema : Schema ResourceAccess := {|
  row_id := ra_id;
  row_check r :=
    check_in ["PROJECT"; "SERVER"; "ENVIRONMENT"; "SERVICE"; "GIT_PROVIDER"] (ra_resource_type r);
  row_conflict a b :=
    both_eq (ra_user_id a) (ra_user_id b) && both_eq (ra_org_id a) (ra_org_id b)
    && both_eq (ra_resource_type a) (ra_resource_type b)
    && both_eq (ra_resource_id a) (ra_resource_id b);
|}.
#[export] Instance OrganizationInvite_schema : Schema OrganizationInvite := {|
  row_id := oi_id;
  row_check i :=
    check_in ["ADMIN"; "MEMBER"] (oi_role i)
    && check_in ["PENDING"; "ACCEPTED"; "REJECTED"] (oi_status i);
  row_conflict a b := bool_decide (oi_token a = oi_token b);
|}.
#[export] Instance AuditLog_schema : Schema AuditLog := {|
  row_id := al_id;
  row_check _ := true;
  row_conflict _ _ := false;
|}.

Lemma both_eq_sym {A} `{EqDecision A} (a b : option A) : both_eq a b = both_eq b a.
Proof. destruct a, b; simpl; try done. by apply bool_decide_ext. Qed.

Ltac schema_laws :=
  split; intros; simpl;
  repeat first [reflexivity | apply Z.eqb_sym | apply both_eq_sym
               | apply bool_decide_ext; split; congruence | f_equal].

#[export] Instance User_laws : SchemaLaws User.
Proof. schema_laws. Qed.
#[export] Instance Group_laws : SchemaLaws Group.
Proof. schema_laws. Qed.
#[export] Instance Policy_laws : SchemaLaws Policy.
Proof. schema_laws. Qed.
#[export] Instance GroupPolicy_laws : SchemaLaws GroupPolicy.
Proof. schema_laws. Qed.
#[export] Instance OrganizationMember_laws : SchemaLaws OrganizationMember.
Proof. schema_laws. Qed.
#[export] Instance UserPolicy_laws : SchemaLaws UserPolicy.
Proof. schema_laws. Qed.
#[export] Instance ResourceAccess_laws : SchemaLaws ResourceAccess.
Proof. schema_laws. Qed.
#[export] Instance OrganizationInvite_laws : SchemaLaws OrganizationInvite.
Proof. schema_laws. Qed.
#[export] Instance AuditLog_laws : SchemaLaws AuditLog.
Proof. schema_laws. Qed.

(** ** The database *)

Record PermDb := mkPermDb {
  users : Table User;
  groups : Table Group;
  policy : Table Policy;
  group_policy : Table GroupPolicy;
  organization_members : Table OrganizationMember;
  user_policy : Table UserPolicy;
  resource_access : Table ResourceAccess;
  organization_invites : Table OrganizationInvite;
  audit_logs : Table AuditLog;
  organizations : list Z;      (* the ids of the [organization] table *)
}.

Definition with_users t db := mkPermDb t (groups db) (policy db) (group_policy db)
  (organization_members db) (user_policy db) (resource_access db) (organization_invites db)
  (audit_logs db) (organizations db).
Definition with_groups t db := mkPermDb (users db) t (policy db) (group_policy db)
  (organization_members db) (user_policy db) (resource_access db) (organization_invites db)
  (audit_logs db) (organizations db).
Definition with_group_policy t db := mkPermDb (users db) (groups db) (policy db) t
  (organization_members db) (user_policy db) (resource_access db) (organization_invites db)
  (audit_logs db) (organizations db).
Definition with_members t db := mkPermDb (users db) (groups db) (policy db) (group_policy db)
  t (user_policy db) (resource_access db) (organization_invites db)
  (audit_logs db) (organizations db).
Definition with_user_policy t db := mkPermDb (users db) (groups db) (policy db) (group_policy db)
  (organization_members db) t (resource_access db) (organization_invites db)
  (audit_logs db) (organizations db).
Definition with_resource_access t db := mkPermDb (users db) (groups db) (policy db)
  (group_policy db) (organization_members db) (user_policy db) t (organization_invites db)
  (audit_logs db) (organizations db).
Definition with_invites t db := mkPermDb (users db) (groups db) (policy db) (group_policy db)
  (organization_members db) (user_policy db) (resource_access db) t
  (audit_logs db) (organizations db).
Definition with_audit_logs t db := mkPermDb (users db) (groups db) (policy db) (group_policy db)
  (organization_members db) (user_policy db) (resource_access db) (organization_invites db)
  t (organizations db).

(** Foreign keys *)
Definition user_exists (id : Z) (db : PermDb) : bool := sql_exists (λ u, u_id u =? id)%Z (users db).
Definition group_exists (id : Z) (db : PermDb) : bool := sql_exists (λ g, g_id g =? id)%Z (groups db).
Definition policy_exists (id : Z) (db : PermDb) : bool := sql_exists (λ p, p_id p =? id)%Z (policy db).
Definition organization_exists (id : Z) (db : PermDb) : bool := bool_decide (id ∈ organizations db).
Definition fk_opt (exists_ : Z → bool) (o : option Z) : bool :=
  match o with Some id => exists_ id | None => true end.

(** ** [UserRepository] *)

Definition user_get_by_id (id : Z) (db : PermDb) : option User :=
  sql_first (λ u, u_id u =? id)%Z (users db).

Definition user_get_by_email (email : string) (db : PermDb) : option User :=
  sql_first (λ u, bool_decide (u_email u = Some email)) (users db).

Definition user_create (item : User) (db : PermDb) : result (PermDb * Z) SqlError :=
  let? (t, id) :=
    sql_insert (λ u, fk_opt (λ a, user_exists a db) (u_added_by u) && group_exists (u_group_id u) db)
      (λ id, mkUser id (u_email item) (u_last_name item) (u_first_name item) (u_avatar item)
         (u_role item) (u_about_me item) (u_password item) (u_is_email_verify item)
         (u_email_verify_at item) (u_two_factor_enable item) (u_is_registered item)
         (u_added_by item) (u_group_id item) (u_created_at item) (u_updated_at item)) (users db) in
  Ok (with_users t db, id).

(** ** [OrganizationMemberRepository] *)

Definition is_member (user_id organization_id : Z) (m : OrganizationMember) : bool :=
  (om_user_id m =? user_id)%Z && (om_organization_id m =? organization_id)%Z.

(** [ORDER BY id LIMIT 1]: the rows are in rowid order. *)
Definition first_organization_id (user_id : Z) (db : PermDb) : option Z :=
  om_organization_id <$> sql_first (λ m, om_user_id m =? user_id)%Z (organization_members db).

(** The scalar is read as a [String]: a NULL role is an error. *)
Definition member_role (user_id organization_id : Z) (db : PermDb)
    : result (option string) SqlError :=
  match sql_first (is_member user_id organization_id) (organization_members db) with
  | None => Ok None
  | Some m => match om_role m with
              | Some role => Ok (Some role)
              | None => Err ColumnDecode
              end
  end.

Definition oldest_member_first (a b : OrganizationMember) : bool :=
  (om_created_at a <? om_created_at b)%Z
  || ((om_created_at a =? om_created_at b)%Z && (om_id a <=? om_id b)%Z).

Definition list_for_organization (organization_id : Z) (db : PermDb) : list OrganizationMember :=
  sql_order_by oldest_member_first
    (sql_select (λ m, om_organization_id m =? organization_id)%Z (organization_members db)).

(** With the email and avatar of the joined user; a NULL email is an error. *)
Definition list_with_user_for_organization (organization_id : Z) (db : PermDb)
    : result (list (OrganizationMember * string * string)) SqlError :=
  foldr (λ m acc,
    let? l := acc in
    match user_get_by_id (om_user_id m) db with
    | None => Ok l
    | Some u => match u_email u with
                | Some email => Ok ((m, email, u_avatar u) :: l)
                | None => Err ColumnDecode
                end
    end) (Ok []) (list_for_organization organization_id db).

Definition set_member_role (role : string) (now : Z) (m : OrganizationMember) : OrganizationMember :=
  mkMember (om_id m) (Some role) (om_user_id m) (om_organization_id m) (om_created_at m) now
    (om_group_id m).
Definition set_member_group (group_id now : Z) (m : OrganizationMember) : OrganizationMember :=
  mkMember (om_id m) (om_role m) (om_user_id m) (om_organization_id m) (om_created_at m) now
    (Some group_id).

Definition member_update_role (user_id organization_id : Z) (role : string) (now : Z) (db : PermDb)
    : result (PermDb * bool) SqlError :=
  let? (t, n) := sql_update no_fk (is_member user_id organization_id) (set_member_role role now)
                   (organization_members db) in
  Ok (with_members t db, bool_decide (0 < n)).

Definition member_remove (user_id organization_id : Z) (db : PermDb) : PermDb * bool :=
  let '(t, n) := sql_delete (is_member user_id organization_id) (organization_members db) in
  (with_members t db, bool_decide (0 < n)).

Definition member_get_all (db : PermDb) : list OrganizationMember := rows (organization_members db).
Definition member_get_by_id (id : Z) (db : PermDb) : option OrganizationMember :=
  sql_first (λ m, om_id m =? id)%Z (organization_members db).

Definition member_fk (db : PermDb) (m : OrganizationMember) : bool :=
  user_exists (om_user_id m) db && organization_exists (om_organization_id m) db
  && fk_opt (λ g, group_exists g db) (om_group_id m).

Definition insert_member (mk : Z → OrganizationMember) (db : PermDb)
    : result (PermDb * Z) SqlError :=
  let? (t, id) := sql_insert (member_fk db) mk (organization_members db) in
  Ok (with_members t db, id).

Definition member_create (item : OrganizationMember) (db : PermDb) : result (PermDb * Z) SqlError :=
  insert_member (λ id, mkMember id (om_role item) (om_user_id item) (om_organization_id item)
                         (om_created_at item) (om_updated_at item) None) db.

(** The trigger that follows the update sets [updated_at] to the current time. *)
Definition member_update (id : Z) (item : OrganizationMember) (now : Z) (db : PermDb)
    : result PermDb SqlError :=
  let? (t, _) := sql_update (member_fk db) (λ m, om_id m =? id)%Z
    (λ m, mkMember (om_id m) (om_role item) (om_user_id item) (om_organization_id item)
            (om_created_at item) now (om_group_id m)) (organization_members db) in
  Ok (with_members t db).

Definition member_delete (id : Z) (db : PermDb) : PermDb :=
  with_members (sql_delete (λ m, om_id m =? id)%Z (organization_members db)).1 db.

Definition add_member_in_transaction (role : string) (user_id organization_id now : Z) (db : PermDb)
    : result (PermDb * Z) SqlError :=
  insert_member (λ id, mkMember id (Some role) user_id organization_id now now None) db.

(** [add_member_with_group] and [add_member_with_group_in_transaction] *)
Definition add_member_with_group (role : string) (user_id organization_id group_id now : Z)
    (db : PermDb) : result (PermDb * Z) SqlError :=
  insert_member (λ id, mkMember id (Some role) user_id organization_id now now (Some group_id)) db.

(** ** [OrganizationInviteRepository] *)

Definition has_status (status : string) (i : OrganizationInvite) : bool :=
  bool_decide (oi_status i = Some status).

Definition invite_get_all (db : PermDb) : list OrganizationInvite := rows (organization_invites db).
Definition invite_get_by_id (id : Z) (db : PermDb) : option OrganizationInvite :=
  sql_first (λ i, oi_id i =? id)%Z (organization_invites db).

Definition invite_fk (db : PermDb) (i : OrganizationInvite) : bool :=
  group_exists (oi_group_id i) db && organization_exists (oi_organization_id i) db
  && user_exists (oi_invited_by i) db.

Definition with_invite_id (id : Z) (item : OrganizationInvite) : OrganizationInvite :=
  mkInvite id (oi_email item) (oi_role item) (oi_status item) (oi_token item) (oi_group_id item)
    (oi_organization_id item) (oi_invited_by item) (oi_expired_at item) (oi_created_at item).

Definition invite_create (item : OrganizationInvite) (db : PermDb) : result (PermDb * Z) SqlError :=
  let? (t, id) := sql_insert (invite_fk db) (λ id, with_invite_id id item)
                    (organization_invites db) in
  Ok (with_invites t db, id).

Definition invite_update (id : Z) (item : OrganizationInvite) (db : PermDb) : result PermDb SqlError :=
  let? (t, _) := sql_update (invite_fk db) (λ i, oi_id i =? id)%Z
                   (λ i, with_invite_id (oi_id i) item) (organization_invites db) in
  Ok (with_invites t db).

Definition invite_delete (id : Z) (db : PermDb) : PermDb :=
  with_invites (sql_delete (λ i, oi_id i =? id)%Z (organization_invites db)).1 db.

Definition list_pending_for_organization (organization_id now : Z) (db : PermDb)
    : list OrganizationInvite :=
  sql_order_by (λ a b, oi_created_at b <=? oi_created_at a)%Z
    (sql_select (λ i, (oi_organization_id i =? organization_id)%Z && has_status "PENDING" i
                      && (now <? oi_expired_at i)%Z) (organization_invites db)).

Definition find_pending_by_token (token_hash : string) (now : Z) (db : PermDb)
    : option OrganizationInvite :=
  sql_first (λ i, bool_decide (oi_token i = token_hash) && has_status "PENDING" i
                  && (now <? oi_expired_at i)%Z) (organization_invites db).

Definition set_invite_status (status : string) (i : OrganizationInvite) : OrganizationInvite :=
  mkInvite (oi_id i) (oi_email i) (oi_role i) (Some status) (oi_token i) (oi_group_id i)
    (oi_organization_id i) (oi_invited_by i) (oi_expired_at i) (oi_created_at i).

Definition invite_set_status (id : Z) (status : string) (db : PermDb)
    : result (PermDb * bool) SqlError :=
  let? (t, n) := sql_update no_fk (λ i, (oi_id i =? id)%Z && has_status "PENDING" i)
                   (set_invite_status status) (organization_invites db) in
  Ok (with_invites t db, bool_decide (0 < n)).

Definition purge_expired (now : Z) (db : PermDb) : result (PermDb * nat) SqlError :=
  let? (t, n) := sql_update no_fk (λ i, has_status "PENDING" i && (oi_expired_at i <=? now)%Z)
                   (set_invite_status "REJECTED") (organization_invites db) in
  Ok (with_invites t db, n).

(** ** Joins *)

(** The actions of the policy rows with an id. *)
Definition actions_of (policy_id : Z) (db : PermDb) : list string :=
  map p_action (sql_select (λ p, p_id p =? policy_id)%Z (policy db)).

(** [group_policy gp JOIN policy p ON p.id = gp.policy_id WHERE gp.group_id = ?] *)
Definition group_policy_actions (group_id : Z) (db : PermDb) : list string :=
  flat_map (λ gp, actions_of (gp_policy_id gp) db)
    (sql_select (λ gp, gp_group_id gp =? group_id)%Z (group_policy db)).

(** [user_policy up JOIN policy p ON p.id = up.policy_id WHERE up.user_id = ? AND up.org_id = ?] *)
Definition overrides (user_id organization_id : Z) (db : PermDb) : list (string * string) :=
  flat_map (λ up, map (λ action, (action, up_effect up)) (actions_of (up_policy_id up) db))
    (sql_select (λ up, (up_user_id up =? user_id)%Z && (up_org_id up =? organization_id)%Z)
       (user_policy db)).

(** [SELECT action FROM overrides WHERE effect = ?] *)
Definition with_effect (effect : string) (l : list (string * string)) : list string :=
  map fst (List.filter (λ o, bool_decide (o.2 = effect)) l).

(** [WHERE action NOT IN (SELECT action FROM overrides WHERE effect = 'DENY')] *)
Definition not_denied (l : list (string * string)) (action : string) : bool :=
  bool_decide (action ∉ with_effect "DENY" l).

(** ** [GroupRepository] *)

Definition group_get_all (db : PermDb) : list Group := rows (groups db).
Definition group_get_by_id (id : Z) (db : PermDb) : option Group :=
  sql_first (λ g, g_id g =? id)%Z (groups db).

Definition insert_group (mk : Z → Group) (db : PermDb) : result (PermDb * Z) SqlError :=
  let? (t, id) := sql_insert (λ g, fk_opt (λ o, organization_exists o db) (g_organization_id g))
                    mk (groups db) in
  Ok (with_groups t db, id).

Definition group_create (item : Group) (db : PermDb) : result (PermDb * Z) SqlError :=
  insert_group (λ id, mkGroup id (g_name item) 0 None (g_created_at item) (g_updated_at item)) db.

(** With the trigger that sets [updated_at]. *)
Definition group_update (id : Z) (item : Group) (now : Z) (db : PermDb) : result PermDb SqlError :=
  let? (t, _) := sql_update no_fk (λ g, g_id g =? id)%Z
    (λ g, mkGroup (g_id g) (g_name item) (g_is_system g) (g_organization_id g)
            (g_created_at item) now) (groups db) in
  Ok (with_groups t db).

Definition clear_member_group (now : Z) (m : OrganizationMember) : OrganizationMember :=
  mkMember (om_id m) (om_role m) (om_user_id m) (om_organization_id m) (om_created_at m) now None.

(** [DELETE FROM groups WHERE ...]: the references of [group_policy] and [users] have no
    action and reject it, invites cascade, memberships lose the group. *)
Definition delete_groups (p : Group → bool) (now : Z) (db : PermDb)
    : result (PermDb * nat) SqlError :=
  let gone (id : Z) := sql_exists (λ g, p g && (g_id g =? id)%Z) (groups db) in
  if sql_exists (λ gp, gone (gp_group_id gp)) (group_policy db)
     || sql_exists (λ u, gone (u_group_id u)) (users db) then Err ForeignKeyFailed
  else
    let '(t, n) := sql_delete p (groups db) in
    let invites := (sql_delete (λ i, gone (oi_group_id i)) (organization_invites db)).1 in
    let in_group (m : OrganizationMember) :=
      match om_group_id m with Some g => gone g | None => false end in
    let? (members, _) := sql_update no_fk in_group (clear_member_group now)
                           (organization_members db) in
    Ok (with_groups t (with_invites invites (with_members members db)), n).

Definition group_delete (id now : Z) (db : PermDb) : result PermDb SqlError :=
  let? (db', _) := delete_groups (λ g, g_id g =? id)%Z now db in Ok db'.

(** [INSERT OR IGNORE] then the id by name *)
Definition create_owner_group_if_not_exists (now : Z) (db : PermDb) : result (PermDb * Z) SqlError :=
  let db' := match insert_group (λ id, mkGroup id "owner" 0 None now now) db with
             | Ok (db', _) => db'
             | Err _ => db
             end in
  match sql_first (λ g, bool_decide (g_name g = "owner")) (groups db') with
  | Some g => Ok (db', g_id g)
  | None => Err RowNotFound
  end.

(** The joins in the order of the query: [group_policy], [policy], then the membership. *)
Definition get_user_final_permissions (user_id org_id : Z) (db : PermDb) : list string :=
  let user_permissions := overrides user_id org_id db in
  let in_group (gp : GroupPolicy) (m : OrganizationMember) :=
    is_member user_id org_id m && bool_decide (om_group_id m = Some (gp_group_id gp)) in
  let perms :=
    flat_map (λ gp,
      flat_map (λ action,
        map (λ _, action) (sql_select (in_group gp) (organization_members db)))
        (actions_of (gp_policy_id gp) db))
      (rows (group_policy db))
    ++ with_effect "GRANT" user_permissions in
  remove_dups (List.filter (not_denied user_permissions) perms).

(** ** [PermissionGroupRepository] *)

Record PermissionGroupRow := mkGroupRow {
  gr_id : Z;
  gr_name : string;
  gr_is_system : bool;
  gr_organization_id : option Z;
  gr_created_at : Z;
  gr_updated_at : Z;
}.

Definition as_group_row (g : Group) : PermissionGroupRow :=
  mkGroupRow (g_id g) (g_name g) (negb (g_is_system g =? 0)%Z) (g_organization_id g)
    (g_created_at g) (g_updated_at g).

(** [ORDER BY is_system DESC, name] *)
Definition system_first (a b : PermissionGroupRow) : bool :=
  match gr_is_system a, gr_is_system b with
  | true, false => true
  | false, true => false
  | _, _ => str_le (gr_name a) (gr_name b)
  end.

Definition in_scope (organization_id : Z) (g : Group) : bool :=
  match g_organization_id g with Some o => (o =? organization_id)%Z | None => true end.

Definition list_groups (organization_id : Z) (db : PermDb) : list PermissionGroupRow :=
  sql_order_by system_first (map as_group_row (sql_select (in_scope organization_id) (groups db))).

Definition group_actions (group_id : Z) (db : PermDb) : list string :=
  sql_order_by str_le (group_policy_actions group_id db).

Definition all_policies (db : PermDb) : list Policy :=
  sql_order_by (λ a b, str_le (p_action a) (p_action b)) (rows (policy db)).

Definition effective_actions (user_id organization_id : Z) (db : PermDb) : list string :=
  let os := overrides user_id organization_id db in
  let perms :=
    flat_map (λ m, match om_group_id m with
                   | Some g => group_policy_actions g db
                   | None => []
                   end)
      (sql_select (is_member user_id organization_id) (organization_members db))
    ++ with_effect "GRANT" os in
  sql_order_by str_le (remove_dups (List.filter (not_denied os) perms)).

Definition insert_group_policy (group_id policy_id now : Z) (db : PermDb) : result PermDb SqlError :=
  let? (t, _) := sql_insert (λ gp, group_exists (gp_group_id gp) db && policy_exists (gp_policy_id gp) db)
                   (λ id, mkGroupPolicy id group_id policy_id now) (group_policy db) in
  Ok (with_group_policy t db).

Fixpoint insert_group_policies (group_id : Z) (policy_ids : list Z) (now : Z) (db : PermDb)
    : result PermDb SqlError :=
  match policy_ids with
  | [] => Ok db
  | policy_id :: rest =>
      let? db' := insert_group_policy group_id policy_id now db in
      insert_group_policies group_id rest now db'
  end.

(** [LIKE '%suffix']: SQLite's [LIKE] ignores the case of ASCII letters. *)
Fixpoint ends_with (suffix s : string) : bool :=
  bool_decide (s = suffix)
  || match s with EmptyString => false | String _ s' => ends_with suffix s' end.

Definition seeded_action (action : string) : bool :=
  let a := to_ascii_lowercase action in
  ends_with ":read" a || ends_with ":create" a || ends_with ":update" a || ends_with ":delete" a.

(** [INSERT OR IGNORE INTO group_policy]: a duplicate is skipped, a broken foreign key is not. *)
Fixpoint insert_or_ignore_group_policies (group_id : Z) (policy_ids : list Z) (now : Z) (db : PermDb)
    : result PermDb SqlError :=
  match policy_ids with
  | [] => Ok db
  | policy_id :: rest =>
      match insert_group_policy group_id policy_id now db with
      | Ok db' => insert_or_ignore_group_policies group_id rest now db'
      | Err UniqueFailed => insert_or_ignore_group_policies group_id rest now db
      | Err e => Err e
      end
  end.

(** A transaction: on an error nothing of it remains. *)
Definition seed_organization_defaults (organization_id now : Z) (db : PermDb)
    : result (PermDb * Z) SqlError :=
  match sql_first (λ g, bool_decide (g_organization_id g = Some organization_id)
                        && bool_decide (g_name g = "Organization Admin")) (groups db) with
  | Some g => Ok (db, g_id g)
  | None =>
      let? (db1, admin) := insert_group
        (λ id, mkGroup id "Organization Admin" 1 (Some organization_id) now now) db in
      let policies := map p_id (sql_select (λ p, seeded_action (p_action p)) (policy db1)) in
      let? db2 := insert_or_ignore_group_policies admin policies now db1 in
      Ok (db2, admin)
  end.

Definition create_group (organization_id : Z) (name : string) (policy_ids : list Z) (now : Z)
    (db : PermDb) : result (PermDb * Z) SqlError :=
  let? (db1, group_id) := insert_group
    (λ id, mkGroup id name 0 (Some organization_id) now now) db in
  let? db2 := insert_group_policies group_id policy_ids now db1 in
  Ok (db2, group_id).

(** The groups an organization may change: its own, not the system ones. *)
Definition owned_group (organization_id group_id : Z) (g : Group) : bool :=
  (g_id g =? group_id)%Z && bool_decide (g_organization_id g = Some organization_id)
  && (g_is_system g =? 0)%Z.

Definition rename_group (name : string) (now : Z) (g : Group) : Group :=
  mkGroup (g_id g) name (g_is_system g) (g_organization_id g) (g_created_at g) now.

Definition update_group (organization_id group_id : Z) (name : string) (policy_ids : list Z)
    (now : Z) (db : PermDb) : result (PermDb * bool) SqlError :=
  let? (t, updated) := sql_update no_fk (owned_group organization_id group_id)
                         (rename_group name now) (groups db) in
  if bool_decide (updated = 0) then Ok (db, false) else
  let db1 := with_groups t db in
  let db2 := with_group_policy
    (sql_delete (λ gp, gp_group_id gp =? group_id)%Z (group_policy db1)).1 db1 in
  let? db3 := insert_group_policies group_id policy_ids now db2 in
  Ok (db3, true).

Definition delete_group (organization_id group_id now : Z) (db : PermDb)
    : result (PermDb * bool) SqlError :=
  if sql_exists (λ m, (om_organization_id m =? organization_id)%Z
                      && bool_decide (om_group_id m = Some group_id)) (organization_members db)
  then Ok (db, false)
  else
    let? (db', n) := delete_groups (owned_group organization_id group_id) now db in
    Ok (db', bool_decide (0 < n)).

Definition assign_group (organization_id user_id group_id now : Z) (db : PermDb)
    : result (PermDb * bool) SqlError :=
  if negb (sql_exists (λ g, (g_id g =? group_id)%Z && in_scope organization_id g) (groups db))
  then Ok (db, false)
  else
    let? (t, n) := sql_update (member_fk db) (is_member user_id organization_id)
                     (set_member_group group_id now) (organization_members db) in
    Ok (with_members t db, bool_decide (0 < n)).

Definition user_policy_fk (db : PermDb) (up : UserPolicy) : bool :=
  user_exists (up_user_id up) db && organization_exists (up_org_id up) db
  && policy_exists (up_policy_id up) db.

Fixpoint insert_user_policies (user_id organization_id : Z) (policies : list (Z * string)) (now : Z)
    (db : PermDb) : result PermDb SqlError :=
  match policies with
  | [] => Ok db
  | (policy_id, effect) :: rest =>
      let? (t, _) := sql_insert (user_policy_fk db)
        (λ id, mkUserPolicy id user_id organization_id policy_id effect now) (user_policy db) in
      insert_user_policies user_id organization_id rest now (with_user_policy t db)
  end.

Definition replace_user_policies (organization_id user_id : Z) (policies : list (Z * string))
    (now : Z) (db : PermDb) : result (PermDb * bool) SqlError :=
  if negb (sql_exists (is_member user_id organization_id) (organization_members db))
  then Ok (db, false)
  else
    let t := (sql_delete (λ up, (up_user_id up =? user_id)%Z && (up_org_id up =? organization_id)%Z)
                (user_policy db)).1 in
    let? db' := insert_user_policies user_id organization_id policies now (with_user_policy t db) in
    Ok (db', true).

(** ** [UserPolicyRepository] *)

Definition is_override (user_id org_id policy_id : Z) (up : UserPolicy) : bool :=
  (up_user_id up =? user_id)%Z && (up_org_id up =? org_id)%Z && (up_policy_id up =? policy_id)%Z.

Definition list_by_user_and_org (user_id org_id : Z) (db : PermDb) : list UserPolicy :=
  sql_select (λ up, (up_user_id up =? user_id)%Z && (up_org_id up =? org_id)%Z) (user_policy db).

Definition set_effect (effect : string) (up : UserPolicy) : UserPolicy :=
  mkUserPolicy (up_id up) (up_user_id up) (up_org_id up) (up_policy_id up) effect (up_created_at up).

(** [INSERT ... ON CONFLICT DO UPDATE SET effect ... RETURNING *] *)
Definition user_policy_upsert (user_id org_id policy_id : Z) (effect : string) (now : Z)
    (db : PermDb) : result (PermDb * UserPolicy) SqlError :=
  match sql_first (is_override user_id org_id policy_id) (user_policy db) with
  | Some up =>
      let? (t, _) := sql_update no_fk (is_override user_id org_id policy_id) (set_effect effect)
                       (user_policy db) in
      Ok (with_user_policy t db, set_effect effect up)
  | None =>
      let? (t, id) := sql_insert (user_policy_fk db)
        (λ id, mkUserPolicy id user_id org_id policy_id effect now) (user_policy db) in
      Ok (with_user_policy t db, mkUserPolicy id user_id org_id policy_id effect now)
  end.

Definition user_policy_delete (user_id org_id policy_id : Z) (db : PermDb) : PermDb :=
  with_user_policy (sql_delete (is_override user_id org_id policy_id) (user_policy db)).1 db.

(** ** [ResourceAccessRepository] *)

Definition is_access (user_id org_id : Z) (resource_type : string) (resource_id : Z)
    (r : ResourceAccess) : bool :=
  bool_decide (ra_user_id r = Some user_id) && bool_decide (ra_org_id r = Some org_id)
  && bool_decide (ra_resource_type r = Some resource_type)
  && bool_decide (ra_resource_id r = Some resource_id).

Definition check_access (user_id org_id : Z) (resource_type : string) (resource_id : Z)
    (db : PermDb) : bool :=
  (0 <? sql_count (is_access user_id org_id resource_type resource_id) (resource_access db))%Z.

Definition grant_access (user_id org_id : Z) (resource_type : string) (resource_id now : Z)
    (db : PermDb) : result (PermDb * ResourceAccess) SqlError :=
  let mk id := mkResourceAccess id (Some user_id) (Some org_id) (Some resource_type)
                 (Some resource_id) (Some now) in
  let? (t, id) := sql_insert (λ _, user_exists user_id db && organization_exists org_id db) mk
                    (resource_access db) in
  Ok (with_resource_access t db, mk id).

Definition revoke_access (user_id org_id : Z) (resource_type : string) (resource_id : Z)
    (db : PermDb) : PermDb :=
  with_resource_access
    (sql_delete (is_access user_id org_id resource_type resource_id) (resource_access db)).1 db.

(** ** [AuditLogRepository::create] *)

Definition audit_create (mk : Z → AuditLog) (db : PermDb) : result (PermDb * Z) SqlError :=
  let? (t, id) := sql_insert (λ a, fk_opt (λ o, organization_exists o db) (al_organization_id a)
                                   && fk_opt (λ u, user_exists u db) (al_user_id a))
                    mk (audit_logs db) in
  Ok (with_audit_logs t db, id).
