(* ===== verification/PermissionService.v ===== *)
(** * Permission checks, the request extractor and the group service

    [src/services/permission/types.rs], [permission_service.rs] and [group_service.rs], and the
    extractor and rules of [src/core/middleware/permission].  The group service runs in the
    state and error monad over the tables; what it takes from elsewhere (SHA-256, the random
    bytes of a token, the password hash, the configured mail providers, the verified claims
    of a request) is a parameter.  The mail an invitation sends is part of its result. *)

From stdpp Require Import gmap strings list.
From Stdlib Require Import ZArith Lia Ascii.
From S2P Require Import Prelude RustStr RustText StringEnum Sql PermissionDb.

(** ** Resources and operations *)

Inductive PermissionResource :=
| RProject | RServer | RApplication | RDatabase | REnvironment | ROrganization | RUsers | RGroups
| RMembers | RInvitation | RDeployment | RBackup | RVolumeBackup | RSchedule | RNotification
| RCertificate | RRegistry | RSshKey | RLogs | RMonitoring | RAuditLog | RWorkspace | RTraefik
| RAlert.
#[export] Instance PermissionResource_eq_dec : EqDecision PermissionResource.
Proof. solve_decision. Defined.

Definition resource_name (r : PermissionResource) : string :=
  match r with
  | RProject => "project" | RServer => "server" | RApplication => "app" | RDatabase => "database"
  | REnvironment => "env" | ROrganization => "org" | RUsers => "users" | RGroups => "group"
  | RMembers => "member" | RInvitation => "invitation" | RDeployment => "deployment"
  | RBackup => "backup" | RVolumeBackup => "volume_backup" | RSchedule => "schedule"
  | RNotification => "notification" | RCertificate => "certificate" | RRegistry => "registry"
  | RSshKey => "ssh_key" | RLogs => "logs" | RMonitoring => "monitoring"
  | RAuditLog => "audit_log" | RWorkspace => "workspace" | RTraefik => "traefik"
  | RAlert => "alert"
  end.

Inductive PermissionOperation :=
| CanRead | CanCreate | CanUpdate | CanDelete | CanDeploy | CanMonitor | CanWrite | CanCancel
| CanRestore.
#[export] Instance PermissionOperation_eq_dec : EqDecision PermissionOperation.
Proof. solve_decision. Defined.

Definition operation_name (o : PermissionOperation) : string :=
  match o with
  | CanRead => "read" | CanCreate => "create" | CanUpdate => "update" | CanDelete => "delete"
  | CanDeploy => "deploy" | CanMonitor => "monitor" | CanWrite => "write" | CanCancel => "cancel"
  | CanRestore => "restore"
  end.

(** The implementations of [Allows]: which operations a handler may require of a resource. *)
Definition allowed_operations (r : PermissionResource) : list PermissionOperation :=
  match r with
  | RProject => [CanRead; CanCreate; CanUpdate; CanDelete]
  | RServer => [CanRead; CanCreate; CanUpdate; CanDelete; CanMonitor]
  | RApplication => [CanRead; CanCreate; CanUpdate; CanDelete; CanDeploy; CanMonitor]
  | RDatabase => [CanRead; CanCreate; CanUpdate; CanDelete]
  | REnvironment => [CanRead; CanWrite]
  | ROrganization => [CanRead; CanWrite]
  | RUsers => [CanRead; CanWrite]
  | RGroups => [CanRead; CanCreate; CanUpdate; CanDelete]
  | RMembers => [CanRead; CanCreate; CanUpdate; CanDelete]
  | RInvitation => [CanRead; CanCreate; CanDelete; CanCancel]
  | RDeployment => [CanRead; CanCreate; CanCancel]
  | RBackup => [CanRead; CanCreate; CanUpdate; CanDelete; CanRestore]
  | RVolumeBackup => [CanRead; CanCreate; CanUpdate; CanDelete; CanRestore]
  | RSchedule => [CanRead; CanCreate; CanUpdate; CanDelete]
  | RNotification => [CanRead; CanCreate; CanUpdate; CanDelete]
  | RCertificate => [CanRead; CanCreate; CanUpdate; CanDelete]
  | RRegistry => [CanRead; CanCreate; CanDelete]
  | RSshKey => [CanRead; CanCreate; CanDelete]
  | RLogs => [CanRead]
  | RMonitoring => [CanRead]
  | RAuditLog => [CanRead]
  | RWorkspace => [CanUpdate]
  | RTraefik => [CanRead; CanWrite]
  | RAlert => [CanWrite]
  end.

Record PolicyAction := mkAction { pa_resource : string; pa_operation : string }.

Definition action_as_str (a : PolicyAction) : string := pa_resource a +:+ ":" +:+ pa_operation a.

Definition required_action (r : PermissionResource) (o : PermissionOperation) : PolicyAction :=
  mkAction (resource_name r) (operation_name o).

(** ** [PermissionService] *)

Definition is_platform_owner (user_id : Z) (db : PermDb) : bool :=
  match user_get_by_id user_id db with
  | Some user => match u_role user with
                 | Some role => bool_decide (from role = Owner)
                 | None => false
                 end
  | None => false
  end.

Definition resolve_organization (user_id : Z) (db : PermDb) : option Z :=
  first_organization_id user_id db.

Definition check_permission (user_id org_id : Z) (action : PolicyAction) (db : PermDb)
    : result bool SqlError :=
  if is_platform_owner user_id db then Ok true else
  let? role := member_role user_id org_id db in
  match role with
  | None => Ok false
  | Some role =>
      if uppercase_eq role "ADMIN" || uppercase_eq role "OWNER" then Ok true else
      Ok (existsb (λ p, bool_decide (p = action_as_str action))
            (get_user_final_permissions user_id org_id db))
  end.

Definition check_resource_access (user_id org_id : Z) (resource_type : ResourceType)
    (resource_id : Z) (db : PermDb) : bool :=
  is_platform_owner user_id db
  || check_access user_id org_id (as_str resource_type) resource_id db.

Definition set_user_policy_override (user_id org_id policy_id : Z) (effect : PolicyEffect) (now : Z)
    (db : PermDb) : result (PermDb * UserPolicy) SqlError :=
  user_policy_upsert user_id org_id policy_id (as_str effect) now db.

Definition remove_user_policy_override (user_id org_id policy_id : Z) (db : PermDb) : PermDb :=
  user_policy_delete user_id org_id policy_id db.

(** ** The extractor [RequirePermission<R, O>] *)

Inductive PermissionRejection :=
| ClaimsRejected (status : Z)   (* the rejection of the [Claims] extractor *)
| Internal (message : string)
| NoOrganization
| Denied (required : string).

Definition rejection_status (e : PermissionRejection) : Z :=
  match e with
  | ClaimsRejected status => status
  | Internal _ => 500
  | NoOrganization => 403
  | Denied _ => 403
  end.

(** [claims] is the user of the verified token or the status of its rejection, [available] whether the service resolves, and
    [header] the text of [x-organization-id].  On success the organization of the request. *)
Definition from_request_parts (r : PermissionResource) (o : PermissionOperation)
    (claims : result Z Z) (available : bool) (header : option string) (db : PermDb)
    : result (Z * Z) PermissionRejection :=
  let? user_id := match claims with Ok user => Ok user | Err status => Err (ClaimsRejected status) end in
  if negb available then Err (Internal "permission service unavailable") else
  let? organization_id :=
    match header ≫= parse_i64 with
    | Some id => Ok id
    | None => ok_or (resolve_organization user_id db) NoOrganization
    end in
  let required := required_action r o in
  match check_permission user_id organization_id required db with
  | Err _ => Err (Internal "failed to evaluate permission")
  | Ok false => Err (Denied (action_as_str required))
  | Ok true => Ok (user_id, organization_id)
  end.

(** ** [PermissionGroupService] *)

Inductive PermissionGroupError :=
| Invalid (message : string)
| Escalation (message : string)
| NotFound
| Database (e : SqlError).

Definition P (A : Type) : Type := SE PermDb PermissionGroupError A.

Definition as_db_error {A} (r : result A SqlError) : result A PermissionGroupError :=
  match r with Ok a => Ok a | Err e => Err (Database e) end.

Definition read {A} (f : PermDb → A) : P A := λ db, (db, Ok (f db)).
Definition read_res {A} (f : PermDb → result A SqlError) : P A := λ db, (db, as_db_error (f db)).
Definition write {A} (f : PermDb → result (PermDb * A) SqlError) : P A := λ db,
  match f db with Ok (db', a) => (db', Ok a) | Err e => (db, Err (Database e)) end.

(** An audit event that cannot be written is only logged. *)
Definition audit (now actor_id organization_id : Z) (action resource : string)
    (id : option string) (metadata : option AuditMetadata) : P unit := λ db,
  let user := user_get_by_id actor_id db in
  let mk i := mkAudit i (default "" (user ≫= u_email)) (default "MEMBER" (user ≫= u_role))
                action resource id None metadata (Some organization_id) (Some actor_id) now in
  match audit_create mk db with
  | Ok (db', _) => (db', Ok tt)
  | Err _ => (db, Ok tt)
  end.

Definition actor_is_privileged (actor_id organization_id : Z) (db : PermDb)
    : result bool SqlError :=
  if is_platform_owner actor_id db then Ok true else
  let? role := member_role actor_id organization_id db in
  match role with
  | Some r => Ok (uppercase_eq r "ADMIN" || uppercase_eq r "OWNER")
  | None => Ok false
  end.

Definition missing_delegated_action (actor_permissions : gset string) (requested : list string)
    : option string :=
  snd <$> list_find (λ action, action ∉ actor_permissions) requested.

Definition ensure_subset (actor_id organization_id : Z) (requested : list string) : P unit :=
  do! privileged := read_res (actor_is_privileged actor_id organization_id) in
  if privileged then ret tt else
  do! effective := read (effective_actions actor_id organization_id) in
  match missing_delegated_action (list_to_set effective) requested with
  | Some action => fail (Escalation action)
  | None => ret tt
  end.

Definition ensure_manageable_target (actor_id user_id organization_id : Z) : P unit :=
  do! privileged := read_res (actor_is_privileged actor_id organization_id) in
  if privileged then ret tt else
  do! role := read_res (member_role user_id organization_id) in
  guard (negb (bool_decide (role = Some (as_str Member))))
    (Escalation "cannot manage an admin or non-member").

(** *** Reading *)

Definition list_invites (now organization_id : Z) : P (list OrganizationInvite) :=
  do! _ := write (purge_expired now) in
  read (list_pending_for_organization organization_id now).

Definition service_list_groups (organization_id : Z) : P (list (PermissionGroupRow * list string)) :=
  do! groups := read (list_groups organization_id) in
  read (λ db, map (λ g, (g, group_actions (gr_id g) db)) groups).

Definition list_members (organization_id : Z) : P (list (OrganizationMember * string * string)) :=
  read_res (list_with_user_for_organization organization_id).

Definition list_policies : P (list (Z * string)) :=
  read (λ db, map (λ p, (p_id p, p_action p)) (all_policies db)).

(** *** Members *)

Definition valid_role (role : string) : bool := bool_decide (role = "ADMIN" ∨ role = "MEMBER").

Definition bad_role : PermissionGroupError := Invalid "role must be ADMIN or MEMBER".

Definition update_member_role (now actor_id organization_id user_id : Z) (role : string) : P unit :=
  do! privileged := read_res (actor_is_privileged actor_id organization_id) in
  do! _ := guard (negb privileged) (Escalation "only organization admins can change roles") in
  let role := to_ascii_uppercase role in
  do! _ := guard (negb (valid_role role)) bad_role in
  do! _ := guard ((user_id =? actor_id)%Z && negb (bool_decide (role = "ADMIN")))
             (Invalid "you cannot demote yourself") in
  do! found := write (member_update_role user_id organization_id role now) in
  do! _ := guard (negb found) NotFound in
  audit now actor_id organization_id "MEMBER_ROLE_UPDATED" "organization_member"
    (Some (i64_to_string user_id)) (Some (MetaRole role)).

Definition remove_member (now actor_id organization_id user_id : Z) : P unit :=
  do! privileged := read_res (actor_is_privileged actor_id organization_id) in
  do! _ := guard (negb privileged) (Escalation "only organization admins can remove members") in
  do! _ := guard (user_id =? actor_id)%Z (Invalid "you cannot remove yourself") in
  do! found := write (λ db, Ok (member_remove user_id organization_id db)) in
  do! _ := guard (negb found) NotFound in
  audit now actor_id organization_id "MEMBER_REMOVED" "organization_member"
    (Some (i64_to_string user_id)) None.

(** *** Groups and overrides *)

Definition policy_ids_by_action (policies : list Policy) : gmap string Z :=
  foldl (λ m p, <[p_action p := p_id p]> m) ∅ policies.
Definition actions_by_policy_id (policies : list Policy) : gmap Z string :=
  foldl (λ m p, <[p_id p := p_action p]> m) ∅ policies.

(** [iter().map(..).collect::<Result<Vec<_>, _>>()]: the first unknown action is the error. *)
Fixpoint ids_of_actions (by_action : gmap string Z) (requested : list string)
    : result (list Z) PermissionGroupError :=
  match requested with
  | [] => Ok []
  | action :: rest =>
      let? id := ok_or (by_action !! action) (Invalid ("unknown action: " +:+ action)) in
      let? ids := ids_of_actions by_action rest in
      Ok (id :: ids)
  end.

Definition validated_policy_ids (actor_id organization_id : Z) (requested : list string)
    : P (list Z) :=
  do! _ := ensure_subset actor_id organization_id requested in
  do! policies := read all_policies in
  of_result (ids_of_actions (policy_ids_by_action policies) requested).

Definition service_create_group (now actor_id organization_id : Z) (name : string)
    (actions : list string) : P Z :=
  do! policy_ids := validated_policy_ids actor_id organization_id actions in
  do! id := write (create_group organization_id (trim name) policy_ids now) in
  do! _ := audit now actor_id organization_id "PERMISSION_GROUP_CREATED" "permission_group"
             (Some (i64_to_string id)) None in
  ret id.

Definition service_update_group (now actor_id organization_id group_id : Z) (name : string)
    (actions : list string) : P unit :=
  do! policy_ids := validated_policy_ids actor_id organization_id actions in
  do! found := write (update_group organization_id group_id (trim name) policy_ids now) in
  do! _ := guard (negb found) NotFound in
  audit now actor_id organization_id "PERMISSION_GROUP_UPDATED" "permission_group"
    (Some (i64_to_string group_id)) None.

Definition service_delete_group (now actor_id organization_id group_id : Z) : P unit :=
  do! deleted := write (delete_group organization_id group_id now) in
  do! _ := guard (negb deleted)
             (Invalid "group is protected, missing, or still assigned to members") in
  audit now actor_id organization_id "PERMISSION_GROUP_DELETED" "permission_group"
    (Some (i64_to_string group_id)) None.

Definition service_assign_group (now actor_id organization_id user_id group_id : Z) : P unit :=
  do! _ := ensure_manageable_target actor_id user_id organization_id in
  do! actions := read (group_actions group_id) in
  do! _ := ensure_subset actor_id organization_id actions in
  do! found := write (assign_group organization_id user_id group_id now) in
  do! _ := guard (negb found) NotFound in
  audit now actor_id organization_id "PERMISSION_GROUP_ASSIGNED" "organization_member"
    (Some (i64_to_string user_id)) (Some (MetaGroup group_id)).

(** The loop over the entries of the body: the actions, and the ids with their effects. *)
Fixpoint policy_entries (by_id : gmap Z string) (entries : list (Z * string))
    : result (list string * list (Z * string)) PermissionGroupError :=
  match entries with
  | [] => Ok ([], [])
  | (policy_id, effect_text) :: rest =>
      let effect := to_ascii_uppercase effect_text in
      if negb (bool_decide (effect = "GRANT")) && negb (bool_decide (effect = "DENY")) then
        Err (Invalid ("invalid effect: " +:+ effect_text))
      else
        let? action := ok_or (by_id !! policy_id)
                         (Invalid ("unknown policy id: " +:+ i64_to_string policy_id)) in
        let? (actions, policies) := policy_entries by_id rest in
        Ok (action :: actions, (policy_id, effect) :: policies)
  end.

Definition service_replace_user_policies (now actor_id organization_id user_id : Z)
    (body : list (Z * string)) : P unit :=
  do! _ := ensure_manageable_target actor_id user_id organization_id in
  do! all := read all_policies in
  do! (actions, policies) := of_result (policy_entries (actions_by_policy_id all) body) in
  do! _ := ensure_subset actor_id organization_id actions in
  do! found := write (replace_user_policies organization_id user_id policies now) in
  do! _ := guard (negb found) NotFound in
  audit now actor_id organization_id "USER_POLICIES_REPLACED" "organization_member"
    (Some (i64_to_string user_id)) (Some (MetaPolicies policies)).

(** *** Invitations *)

Inductive MailProvider := Smtp | Resend.

Section invitations.
Context (sha256 : string → list Z).                (* [Sha256::digest], its bytes *)
Context (hash_password : string → option string).  (* [None] when hashing fails *)
Context (email_for resend_for : Z → bool).         (* a provider is configured for the user *)
Context (public_url : option string).              (* [OPENOXIDE_PUBLIC_URL] or its old name *)

Definition hash_token (token : string) : string := hex (sha256 (trim token)).

(** The mail sent, if a provider is configured: provider, address, title and text. *)
Definition send_invite_email (email token : string) (organization_id actor_id : Z)
    : option (MailProvider * string * string * string) :=
  let action := match public_url with
                | Some base => trim_end_char "/" base +:+ "/accept-invite?token=" +:+ token
                | None => "Invite token: " +:+ token
                end in
  let text := "You have been invited to join organization " +:+ i64_to_string organization_id
              +:+ "." +:+ newline +:+ newline +:+ "Accept this invitation within 7 days:"
              +:+ newline +:+ action in
  let title := "You have been invited to OpenOxide" in
  if email_for actor_id then Some (Smtp, email, title, text)
  else if resend_for actor_id then Some (Resend, email, title, text)
  else None.

(** [bytes] are the 32 random bytes, or [None] when the generator fails.  Returns the token
    and the mail. *)
Definition create_invite (now actor_id organization_id : Z) (email role : string) (group_id : Z)
    (bytes : option (list Z)) : P (string * option (MailProvider * string * string * string)) :=
  let email := to_ascii_lowercase (trim email) in
  do! _ := guard (negb (contains "@" email)) (Invalid "invalid email") in
  let role := to_ascii_uppercase role in
  do! _ := guard (negb (valid_role role)) bad_role in
  do! _ := if bool_decide (role = "ADMIN") then
             do! privileged := read_res (actor_is_privileged actor_id organization_id) in
             guard (negb privileged) (Escalation "only admins can invite another admin")
           else ret tt in
  do! privileged := read_res (actor_is_privileged actor_id organization_id) in
  do! _ := if privileged then ret tt else
             do! actions := read (group_actions group_id) in
             ensure_subset actor_id organization_id actions in
  do! bytes := of_result (ok_or bytes (Invalid "could not generate invite token")) in
  let token := hex bytes in
  let item := mkInvite 0 email (Some role) (Some "PENDING") (hash_token token) group_id
                organization_id actor_id (now + 7 * 86400) now in
  do! _ := write (invite_create item) in
  let mail := send_invite_email email token organization_id actor_id in
  do! _ := audit now actor_id organization_id "INVITE_CREATED" "organization_invite" None
             (Some (MetaInvite email (Some role))) in
  ret (token, mail).

Definition cancel_invite (now actor_id organization_id invite_id : Z) : P unit :=
  do! found := read (invite_get_by_id invite_id) in
  do! invite := of_result (ok_or
    (match found with
     | Some i => if (oi_organization_id i =? organization_id)%Z then Some i else None
     | None => None
     end) NotFound) in
  do! _ := if bool_decide (oi_status invite = Some "PENDING") then
             do! changed := write (invite_set_status invite_id "REJECTED") in
             guard (negb changed) NotFound
           else fail NotFound in
  audit now actor_id organization_id "INVITE_CANCELLED" "organization_invite"
    (Some (i64_to_string invite_id)) None.

Definition accept_invite (now user_id : Z) (token : string) : P unit :=
  do! found := read (find_pending_by_token (hash_token token) now) in
  do! invite := of_result (ok_or found NotFound) in
  do! user := read (user_get_by_id user_id) in
  do! user := of_result (ok_or user NotFound) in
  do! _ := guard (negb (bool_decide (to_ascii_lowercase <$> u_email user = Some (oi_email invite))))
             (Escalation "invite email does not match authenticated user") in
  do! role := read_res (member_role user_id (oi_organization_id invite)) in
  do! _ := guard (bool_decide (is_Some role)) (Invalid "user is already an organization member") in
  do! _ := write (add_member_with_group (default "MEMBER" (oi_role invite)) user_id
                    (oi_organization_id invite) (oi_group_id invite) now) in
  do! _ := write (invite_set_status (oi_id invite) "ACCEPTED") in
  audit now user_id (oi_organization_id invite) "INVITE_ACCEPTED" "organization_invite"
    (Some (i64_to_string (oi_id invite))) None.

Definition add_member (now actor_id organization_id : Z) (email role : string)
    (password : option string) : P unit :=
  do! privileged := read_res (actor_is_privileged actor_id organization_id) in
  do! _ := guard (negb privileged) (Escalation "only organization admins can add members") in
  let email := to_ascii_lowercase (trim email) in
  do! _ := guard (negb (contains "@" email)) (Invalid "invalid email") in
  let role := to_ascii_uppercase role in
  do! _ := guard (negb (valid_role role)) bad_role in
  do! existing := read (user_get_by_email email) in
  do! user_id := match existing with
    | Some u => ret (u_id u)
    | None =>
        do! hash := of_result (ok_or (hash_password (default "ChangeMe123!" password))
                                 (Invalid "failed to hash password")) in
        write (user_create (mkUser 0 (Some email) None None "" (Some "member") None hash
                              (Some 1%Z) (Some now) (Some 0%Z) 1 None 1 now now))
    end in
  do! existing_role := read_res (member_role user_id organization_id) in
  do! _ := guard (bool_decide (is_Some existing_role))
             (Invalid "user is already a member of this organization") in
  do! _ := write (add_member_with_group role user_id organization_id 1 now) in
  ret tt.
End invitations.
