(* ===== verification/PermissionInv.v ===== *)
(** * The invariant of the permission tables

    Every table keeps distinct ids below its sequence, its CHECK constraints and its UNIQUE
    indexes under every call of the group service, whatever the order of the calls and whether
    they succeed or fail part way. *)

From stdpp Require Import gmap strings list.
From Stdlib Require Import ZArith Lia.
From S2P Require Import Prelude RustStr StringEnum Sql PermissionDb PermissionService.

(** ** The invariant *)

Record perm_wf (db : PermDb) : Prop := {
  wf_users : table_wf (users db);
  wf_groups : table_wf (groups db);
  wf_policy : table_wf (policy db);
  wf_group_policy : table_wf (group_policy db);
  wf_members : table_wf (organization_members db);
  wf_user_policy : table_wf (user_policy db);
  wf_invites : table_wf (organization_invites db);
}.

(** One membership per user and organization. *)
Lemma is_member_unique db u o m1 m2 :
  table_wf (organization_members db) →
  m1 ∈ rows (organization_members db) → m2 ∈ rows (organization_members db) →
  is_member u o m1 = true → is_member u o m2 = true → m1 = m2.
Proof.
  intros Hwf H1 H2 K1 K2. unfold is_member in *. bsimp.
  eapply wf_lookup_unique; [exact Hwf|done|done|].
  destruct (decide (row_id m1 = row_id m2)) as [|Hne]; [done|].
  pose proof (wf_unique _ Hwf m1 m2 H1 H2 Hne) as Hc. simpl in Hc.
  apply andb_false_iff in Hc as [Hc|Hc]; bsimp; congruence.
Qed.

(** ** Statements *)

Ltac split_wf := intros []; split; simpl; auto.

Lemma with_users_wf t db : table_wf t → perm_wf db → perm_wf (with_users t db).
Proof. intros ?; split_wf. Qed.
Lemma with_groups_wf t db : table_wf t → perm_wf db → perm_wf (with_groups t db).
Proof. intros ?; split_wf. Qed.
Lemma with_group_policy_wf t db : table_wf t → perm_wf db → perm_wf (with_group_policy t db).
Proof. intros ?; split_wf. Qed.
Lemma with_members_wf t db : table_wf t → perm_wf db → perm_wf (with_members t db).
Proof. intros ?; split_wf. Qed.
Lemma with_user_policy_wf t db : table_wf t → perm_wf db → perm_wf (with_user_policy t db).
Proof. intros ?; split_wf. Qed.
Lemma with_invites_wf t db : table_wf t → perm_wf db → perm_wf (with_invites t db).
Proof. intros ?; split_wf. Qed.
Lemma with_audit_logs_wf t db : perm_wf db → perm_wf (with_audit_logs t db).
Proof. split_wf. Qed.

#[export] Hint Resolve with_users_wf with_groups_wf with_group_policy_wf with_members_wf
  with_user_policy_wf with_invites_wf with_audit_logs_wf
  wf_users wf_groups wf_policy wf_group_policy wf_members wf_user_policy wf_invites : oxide.

(** A statement keeps the invariant when every result it returns does. *)
Definition keeps {A} (f : PermDb → result (PermDb * A) SqlError) : Prop :=
  ∀ db db' a, perm_wf db → f db = Ok (db', a) → perm_wf db'.

(** The last step of a statement on one table. *)
Ltac statement :=
  intros db db' a Hwf; cbn zeta;
  match goal with
  | |- context [sql_insert ?fk ?mk ?t] =>
      let E := fresh "E" in destruct (sql_insert fk mk t) as [[? ?]|] eqn:E; simpl; [|done];
      intros [= <- <-]; eapply sql_insert_wf in E
  | |- context [sql_update ?fk ?p ?f ?t] =>
      let E := fresh "E" in destruct (sql_update fk p f t) as [[? ?]|] eqn:E; simpl; [|done];
      intros [= <- <-]; eapply sql_update_wf in E
  end; eauto with oxide; done.

Lemma user_create_keeps item : keeps (user_create item).
Proof. unfold user_create. statement. Qed.
Lemma insert_member_keeps mk : (∀ i, om_id (mk i) = i) → keeps (insert_member mk).
Proof. intros ?. unfold insert_member. statement. Qed.
Lemma member_update_role_keeps u o role now : keeps (member_update_role u o role now).
Proof. unfold member_update_role. statement. Qed.
Lemma invite_create_keeps item : keeps (invite_create item).
Proof. unfold invite_create. statement. Qed.
Lemma invite_set_status_keeps id status : keeps (invite_set_status id status).
Proof. unfold invite_set_status. statement. Qed.
Lemma purge_expired_keeps now : keeps (purge_expired now).
Proof. unfold purge_expired. statement. Qed.
Lemma insert_group_keeps mk : (∀ i, g_id (mk i) = i) → keeps (insert_group mk).
Proof. intros ?. unfold insert_group. statement. Qed.

Lemma member_remove_keeps u o : keeps (λ db, Ok (member_remove u o db)).
Proof.
  intros db db' a Hwf. unfold member_remove. destruct (sql_delete _ _) as [t n] eqn:E.
  intros [= <- <-]. apply with_members_wf; [|done]. change t with (t, n).1. rewrite <- E.
  eauto with oxide.
Qed.

Lemma insert_group_policies_wf g ids now : ∀ db db',
  perm_wf db → insert_group_policies g ids now db = Ok db' → perm_wf db'.
Proof.
  induction ids as [|id ids IH]; intros db db' Hwf; simpl; [by intros [= <-]|].
  unfold insert_group_policy. destruct (sql_insert _ _ _) as [[t i]|] eqn:E; simpl; [|done].
  apply IH. eapply sql_insert_wf in E; eauto with oxide; done.
Qed.

Lemma insert_user_policies_wf u o policies now : ∀ db db',
  perm_wf db → insert_user_policies u o policies now db = Ok db' → perm_wf db'.
Proof.
  induction policies as [|[pid eff] rest IH]; intros db db' Hwf; simpl; [by intros [= <-]|].
  destruct (sql_insert _ _ _) as [[t i]|] eqn:E; simpl; [|done].
  apply IH. eapply sql_insert_wf in E; eauto with oxide; done.
Qed.

Lemma create_group_keeps o name ids now : keeps (create_group o name ids now).
Proof.
  intros db db' a Hwf. unfold create_group.
  destruct (insert_group _ db) as [[db1 g]|] eqn:E; simpl; [|done].
  apply insert_group_keeps in E; [|done..].
  destruct (insert_group_policies _ _ _ _) as [db2|] eqn:E2; simpl; [|done]. intros [= <- <-].
  by eapply insert_group_policies_wf.
Qed.

Lemma update_group_keeps o g name ids now : keeps (update_group o g name ids now).
Proof.
  intros db db' a Hwf. unfold update_group.
  destruct (sql_update _ _ _ _) as [[t n]|] eqn:E; cbn [result_bind]; [|done].
  case_bool_decide; [by intros [= <- <-]|].
  destruct (insert_group_policies _ _ _ _) as [db2|] eqn:E2; cbn [result_bind]; [|done].
  intros [= <- <-]. eapply insert_group_policies_wf; [|exact E2].
  eapply sql_update_wf in E; [|by eauto with oxide|done]. eauto 6 with oxide.
Qed.

Lemma delete_group_keeps o g now : keeps (delete_group o g now).
Proof.
  intros db db' a Hwf. unfold delete_group. destruct (sql_exists _ _); [by intros [= <- <-]|].
  unfold delete_groups. destruct (_ || _); [done|].
  destruct (sql_delete _ (groups db)) as [tg n] eqn:Eg.
  destruct (sql_update _ _ _ _) as [[tm k]|] eqn:E; cbn [result_bind]; [|done].
  intros [= <- <-]. eapply sql_update_wf in E; [|by eauto with oxide|done].
  assert (table_wf tg) by (change tg with (tg, n).1; rewrite <- Eg; eauto with oxide).
  apply with_groups_wf; [done|].
  apply with_invites_wf; [apply sql_delete_wf, wf_invites, Hwf | by apply with_members_wf].
Qed.

Lemma assign_group_keeps o u g now : keeps (assign_group o u g now).
Proof.
  intros db db' a Hwf. unfold assign_group. destruct (negb _); [by intros [= <- <-]|].
  destruct (sql_update _ _ _ _) as [[t n]|] eqn:E; cbn [result_bind]; [|done].
  intros [= <- <-]. eapply sql_update_wf in E; eauto with oxide; done.
Qed.

Lemma replace_user_policies_keeps o u policies now : keeps (replace_user_policies o u policies now).
Proof.
  intros db db' a Hwf. unfold replace_user_policies. destruct (negb _); [by intros [= <- <-]|].
  destruct (insert_user_policies _ _ _ _ _) as [db2|] eqn:E; cbn [result_bind]; [|done].
  intros [= <- <-]. eapply insert_user_policies_wf; [|exact E]. eauto with oxide.
Qed.

(** ** Calls *)

Definition preserves {A} (m : P A) : Prop := ∀ db, perm_wf db → perm_wf (m db).1.

Lemma bind_preserves {A B} (m : P A) (k : A → P B) :
  preserves m → (∀ a, preserves (k a)) → preserves (bind m k).
Proof.
  intros Hm Hk db Hwf. unfold bind. specialize (Hm db Hwf). destruct (m db) as [db1 [a|e]]; [|done].
  by apply Hk.
Qed.
Lemma write_preserves {A} (f : PermDb → result (PermDb * A) SqlError) : keeps f → preserves (write f).
Proof.
  intros Hf db Hwf. unfold write. destruct (f db) as [[db' a]|] eqn:E; [|done]. by eapply Hf.
Qed.
Lemma read_preserves {A} (f : PermDb → A) : preserves (read f).
Proof. intros db Hwf. exact Hwf. Qed.
Lemma read_res_preserves {A} (f : PermDb → result A SqlError) : preserves (read_res f).
Proof. intros db Hwf. exact Hwf. Qed.
Lemma ret_preserves {A} (a : A) : preserves (ret a).
Proof. intros db Hwf. exact Hwf. Qed.
Lemma fail_preserves {A} e : preserves (fail e : P A).
Proof. intros db Hwf. exact Hwf. Qed.
Lemma guard_preserves c e : preserves (guard c e).
Proof. intros db Hwf. by destruct c. Qed.
Lemma of_result_preserves {A} (r : result A PermissionGroupError) : preserves (of_result r).
Proof. intros db Hwf. exact Hwf. Qed.
Lemma audit_preserves now actor org action resource id metadata :
  preserves (audit now actor org action resource id metadata).
Proof.
  intros db Hwf. unfold audit, audit_create. destruct (sql_insert _ _ _) as [[t i]|]; simpl; [|done].
  by apply with_audit_logs_wf.
Qed.

#[export] Hint Resolve write_preserves read_preserves read_res_preserves ret_preserves fail_preserves
  guard_preserves of_result_preserves audit_preserves
  user_create_keeps member_update_role_keeps member_remove_keeps invite_create_keeps
  invite_set_status_keeps purge_expired_keeps create_group_keeps update_group_keeps
  delete_group_keeps assign_group_keeps replace_user_policies_keeps : oxide.

Lemma add_member_with_group_keeps role u o g now : keeps (add_member_with_group role u o g now).
Proof. by apply insert_member_keeps. Qed.
#[export] Hint Resolve add_member_with_group_keeps : oxide.

(** Walks a call down to its statements. *)
Ltac walk :=
  cbn zeta;
  repeat first
    [ apply bind_preserves; [|intros ?]
    | solve [auto with oxide]
    | progress cbn zeta
    | match goal with
      | |- preserves (match ?x with _ => _ end) => destruct x
      end ].

Lemma ensure_subset_preserves actor org requested : preserves (ensure_subset actor org requested).
Proof. unfold ensure_subset. walk. Qed.
Lemma ensure_manageable_target_preserves actor u org : preserves (ensure_manageable_target actor u org).
Proof. unfold ensure_manageable_target. walk. Qed.
#[export] Hint Resolve ensure_subset_preserves ensure_manageable_target_preserves : oxide.
Lemma validated_policy_ids_preserves actor org requested :
  preserves (validated_policy_ids actor org requested).
Proof. unfold validated_policy_ids. walk. Qed.
#[export] Hint Resolve validated_policy_ids_preserves : oxide.

Section calls.
Context (sha256 : string → list Z) (hash_password : string → option string).
Context (email_for resend_for : Z → bool) (public_url : option string).

(** The calls of the group service, with the clock and the random bytes they use. *)
Inductive PermCall :=
| CallListInvites (org : Z)
| CallCreateInvite (actor org : Z) (email role : string) (g : Z) (bytes : option (list Z))
| CallCancelInvite (actor org invite : Z)
| CallAcceptInvite (user : Z) (token : string)
| CallAddMember (actor org : Z) (email role : string) (password : option string)
| CallUpdateMemberRole (actor org user : Z) (role : string)
| CallRemoveMember (actor org user : Z)
| CallCreateGroup (actor org : Z) (name : string) (actions : list string)
| CallUpdateGroup (actor org g : Z) (name : string) (actions : list string)
| CallDeleteGroup (actor org g : Z)
| CallAssignGroup (actor org user g : Z)
| CallReplacePolicies (actor org user : Z) (body : list (Z * string)).

Definition run_call (now : Z) (c : PermCall) (db : PermDb) : PermDb :=
  match c with
  | CallListInvites org => (list_invites now org db).1
  | CallCreateInvite actor org email role g bytes =>
      (create_invite sha256 email_for resend_for public_url now actor org email role g bytes db).1
  | CallCancelInvite actor org invite => (cancel_invite now actor org invite db).1
  | CallAcceptInvite user token => (accept_invite sha256 now user token db).1
  | CallAddMember actor org email role password =>
      (add_member hash_password now actor org email role password db).1
  | CallUpdateMemberRole actor org user role => (update_member_role now actor org user role db).1
  | CallRemoveMember actor org user => (remove_member now actor org user db).1
  | CallCreateGroup actor org name actions => (service_create_group now actor org name actions db).1
  | CallUpdateGroup actor org g name actions =>
      (service_update_group now actor org g name actions db).1
  | CallDeleteGroup actor org g => (service_delete_group now actor org g db).1
  | CallAssignGroup actor org user g => (service_assign_group now actor org user g db).1
  | CallReplacePolicies actor org user body =>
      (service_replace_user_policies now actor org user body db).1
  end.

(** A history: the calls with the time of each. *)
Definition run_calls (calls : list (Z * PermCall)) (db : PermDb) : PermDb :=
  foldl (λ db c, run_call c.1 c.2 db) db calls.

Lemma run_call_wf now c db : perm_wf db → perm_wf (run_call now c db).
Proof.
  assert (∀ A (m : P A), preserves m → perm_wf db → perm_wf (m db).1) as Hp by auto.
  destruct c; simpl; apply Hp;
    unfold list_invites, create_invite, cancel_invite, accept_invite, add_member,
      update_member_role, remove_member, service_create_group, service_update_group,
      service_delete_group, service_assign_group, service_replace_user_policies; walk.
Qed.

Lemma run_calls_wf calls db : perm_wf db → perm_wf (run_calls calls db).
Proof. revert db. induction calls as [|c calls IH]; intros db Hwf; simpl; [done|]. by apply IH, run_call_wf. Qed.
End calls.
