(* ===== verification/PermissionProps.v ===== *)
(** * Permissions: who may do what, and what may be delegated

    The meaning of a permission check as a predicate on the tables, the agreement of the two
    queries that compute the permissions of a member, the extractor, the limits of delegation
    by members who are not administrators, and the life of an invitation; then the operations
    that the schema makes fail. *)

From stdpp Require Import gmap strings list sorting.
From Stdlib Require Import ZArith Lia.
From S2P Require Import Prelude RustStr RustText StringEnum Sql PermissionDb PermissionService PermissionInv.

(** ** What the tables grant *)

Section meaning.
Context (db : PermDb).

Definition policy_action (policy_id : Z) (action : string) : Prop :=
  ∃ p, p ∈ rows (policy db) ∧ p_id p = policy_id ∧ p_action p = action.

(** A group holds a policy with the action. *)
Definition group_holds (group_id : Z) (action : string) : Prop :=
  ∃ gp, gp ∈ rows (group_policy db) ∧ gp_group_id gp = group_id
        ∧ policy_action (gp_policy_id gp) action.

(** The member's group grants the action. *)
Definition grants (user_id org_id : Z) (action : string) : Prop :=
  ∃ m g, m ∈ rows (organization_members db) ∧ is_member user_id org_id m = true
         ∧ om_group_id m = Some g ∧ group_holds g action.

(** The member has an override for the action. *)
Definition overridden (user_id org_id : Z) (effect action : string) : Prop :=
  ∃ up, up ∈ rows (user_policy db) ∧ up_user_id up = user_id ∧ up_org_id up = org_id
        ∧ up_effect up = effect ∧ policy_action (up_policy_id up) action.

Definition delegated (user_id org_id : Z) (action : string) : Prop :=
  (grants user_id org_id action ∨ overridden user_id org_id "GRANT" action)
  ∧ ¬ overridden user_id org_id "DENY" action.

Lemma elem_of_actions_of policy_id action :
  action ∈ actions_of policy_id db ↔ policy_action policy_id action.
Proof.
  unfold actions_of, policy_action, sql_select. rewrite elem_of_mapb. split.
  - intros (p & -> & [Hp Hid]%elem_of_filterb). bsimp. eauto.
  - intros (p & Hp & <- & <-). exists p. split; [done|]. apply elem_of_filterb.
    split; [done | apply Z.eqb_refl].
Qed.

Lemma elem_of_group_policy_actions g action :
  action ∈ group_policy_actions g db ↔ group_holds g action.
Proof.
  unfold group_policy_actions, group_holds, sql_select.
  rewrite list_elem_of_In, in_flat_map. setoid_rewrite <- list_elem_of_In.
  setoid_rewrite elem_of_filterb. setoid_rewrite elem_of_actions_of.
  split; intros (gp & Hgp); exists gp; rewrite Z.eqb_eq in *; tauto.
Qed.

Lemma elem_of_overrides user_id org_id effect action :
  (action, effect) ∈ overrides user_id org_id db ↔ overridden user_id org_id effect action.
Proof.
  unfold overrides, overridden, sql_select.
  rewrite list_elem_of_In, in_flat_map. setoid_rewrite <- list_elem_of_In.
  setoid_rewrite elem_of_filterb. setoid_rewrite elem_of_mapb.
  split.
  - intros (up & [Hup Hk] & a & [= <- ->] & Ha%elem_of_actions_of). bsimp. eauto 8.
  - intros (up & Hup & <- & <- & <- & Ha). exists up. rewrite !Z.eqb_refl.
    split; [done|]. exists action. by rewrite elem_of_actions_of.
Qed.

Lemma elem_of_with_effect effect user_id org_id action :
  action ∈ with_effect effect (overrides user_id org_id db)
  ↔ overridden user_id org_id effect action.
Proof.
  unfold with_effect. rewrite elem_of_mapb, <- elem_of_overrides. split.
  - intros ([a e] & -> & [Hin He]%elem_of_filterb). simpl in *. bsimp. by subst.
  - intros Hin. exists (action, effect). split; [done|]. apply elem_of_filterb.
    split; [done|]. by apply bool_decide_eq_true.
Qed.

Lemma not_denied_spec user_id org_id action :
  not_denied (overrides user_id org_id db) action = true
  ↔ ¬ overridden user_id org_id "DENY" action.
Proof. unfold not_denied. by rewrite bool_decide_eq_true, elem_of_with_effect. Qed.

(** Both queries compute the delegated actions. *)
Lemma elem_of_effective user_id org_id action :
  action ∈ effective_actions user_id org_id db ↔ delegated user_id org_id action.
Proof.
  unfold effective_actions, delegated, grants. rewrite sql_order_by_elem, elem_of_remove_dups.
  rewrite elem_of_filterb, not_denied_spec, elem_of_app, elem_of_with_effect.
  rewrite list_elem_of_In, in_flat_map. setoid_rewrite <- list_elem_of_In.
  setoid_rewrite elem_of_filterb.
  enough ((∃ m, (m ∈ rows (organization_members db) ∧ is_member user_id org_id m = true)
            ∧ action ∈ match om_group_id m with Some g => group_policy_actions g db | None => [] end)
          ↔ grants user_id org_id action) as -> by done.
  split.
  - intros (m & [Hm Hk] & Ha). destruct (om_group_id m) as [g|] eqn:E; [|set_solver].
    rewrite elem_of_group_policy_actions in Ha. exists m, g. auto.
  - intros (m & g & Hm & Hk & E & Ha). exists m. rewrite E, elem_of_group_policy_actions. auto.
Qed.

Lemma elem_of_final user_id org_id action :
  action ∈ get_user_final_permissions user_id org_id db ↔ delegated user_id org_id action.
Proof.
  unfold get_user_final_permissions, delegated. rewrite elem_of_remove_dups, elem_of_filterb,
    not_denied_spec, elem_of_app, elem_of_with_effect, list_elem_of_In, in_flat_map.
  setoid_rewrite <- list_elem_of_In.
  enough (∀ gp, gp ∈ rows (group_policy db) →
    action ∈ flat_map (λ a, map (λ _, a) (sql_select
        (λ m, is_member user_id org_id m && bool_decide (om_group_id m = Some (gp_group_id gp)))
        (organization_members db))) (actions_of (gp_policy_id gp) db)
    ↔ policy_action (gp_policy_id gp) action
      ∧ ∃ m, m ∈ rows (organization_members db) ∧ is_member user_id org_id m = true
             ∧ om_group_id m = Some (gp_group_id gp)) as Hgp.
  { assert ((∃ gp, gp ∈ rows (group_policy db) ∧ action ∈ flat_map (λ a, map (λ _, a) (sql_select
        (λ m, is_member user_id org_id m && bool_decide (om_group_id m = Some (gp_group_id gp)))
        (organization_members db))) (actions_of (gp_policy_id gp) db))
        ↔ grants user_id org_id action) as ->; [|done].
    unfold grants, group_holds. split.
    - intros (gp & Hin & (Ha & m & Hm & Hk & Hg)%Hgp); [|done]. exists m, (gp_group_id gp). eauto 8.
    - intros (m & g & Hm & Hk & Hg & gp & Hin & <- & Ha). exists gp. rewrite Hgp by done. eauto 8. }
  intros gp _. rewrite list_elem_of_In, in_flat_map. setoid_rewrite <- list_elem_of_In.
  setoid_rewrite elem_of_actions_of. setoid_rewrite elem_of_mapb.
  setoid_rewrite elem_of_filterb. split.
  - intros (a & Ha & m & -> & Hm & Hk). split; [done|]. bsimp. eauto.
  - intros (Ha & m & Hm & Hk & Hg). exists action. split; [done|].
    exists m. rewrite Hk. split_and!; [done..|]. by apply bool_decide_eq_true.
Qed.
End meaning.

(** ** Memberships and roles *)

(** A change of the members that keeps users, organizations and roles. *)
Lemma member_role_map (f : OrganizationMember → OrganizationMember) t db u o :
  (∀ m, om_user_id (f m) = om_user_id m ∧ om_organization_id (f m) = om_organization_id m
        ∧ om_role (f m) = om_role m) →
  rows t = map f (rows (organization_members db)) →
  member_role u o (with_members t db) = member_role u o db.
Proof.
  intros Hf Hr. unfold member_role. simpl.
  rewrite (sql_first_map (is_member u o) f (organization_members db) t) by
    (done || (intros m; unfold is_member; by destruct (Hf m) as (-> & -> & _))).
  destruct (sql_first _ _) as [m|]; simpl; [|done]. by destruct (Hf m) as (_ & _ & ->).
Qed.

(** The role query, with the constraint on the column. *)
Lemma member_role_cases db u o :
  table_wf (organization_members db) →
  match member_role u o db with
  | Ok None => ∀ m, m ∈ rows (organization_members db) → is_member u o m = false
  | Ok (Some role) =>
      (role = "ADMIN" ∨ role = "MEMBER")
      ∧ ∃ m, m ∈ rows (organization_members db) ∧ is_member u o m = true ∧ om_role m = Some role
  | Err e => e = ColumnDecode ∧ ∃ m, m ∈ rows (organization_members db)
                                     ∧ is_member u o m = true ∧ om_role m = None
  end.
Proof.
  intros Hwf. unfold member_role. destruct (sql_first _ _) as [m|] eqn:E.
  - apply sql_first_Some in E as [Hm Hk]. pose proof (wf_check _ Hwf m Hm) as Hc. simpl in Hc.
    destruct (om_role m) as [role|] eqn:Er; [|eauto 6]. simpl in Hc. bsimp.
    split; [|eauto]. rewrite !elem_of_cons, elem_of_nil in Hc. tauto.
  - apply sql_first_None in E. intros m Hm. by apply (proj1 (existsb_false _ _) E).
Qed.

Definition is_privileged_role (role : string) : bool :=
  uppercase_eq role "ADMIN" || uppercase_eq role "OWNER".

Lemma privileged_role_cases role :
  role = "ADMIN" ∨ role = "MEMBER" → is_privileged_role role = true ↔ role = "ADMIN".
Proof. intros [-> | ->]; vm_compute; split; done. Qed.

(** C8: A permission check answers yes exactly for platform owners, administrators of the
    organization, and members whose group or a GRANT override gives the action while no DENY
    override names it; it fails only when the membership row has no role. *)
Theorem check_permission_meaning (db : PermDb) (user_id org_id : Z) (action : PolicyAction)
    (Hwf : perm_wf db) :
  match check_permission user_id org_id action db with
  | Ok allowed =>
      allowed = true ↔
      is_platform_owner user_id db = true
      ∨ ∃ m, m ∈ rows (organization_members db) ∧ is_member user_id org_id m = true
             ∧ (om_role m = Some "ADMIN"
                ∨ (om_role m = Some "MEMBER" ∧ delegated db user_id org_id (action_as_str action)))
  | Err e =>
      e = ColumnDecode ∧ is_platform_owner user_id db = false
      ∧ ∃ m, m ∈ rows (organization_members db) ∧ is_member user_id org_id m = true
             ∧ om_role m = None
  end.
Proof.
  destruct Hwf as [_ _ _ _ Hm _ _]. unfold check_permission.
  destruct (is_platform_owner user_id db) eqn:Ho; [split; auto|].
  pose proof (member_role_cases db user_id org_id Hm) as Hr.
  destruct (member_role user_id org_id db) as [[role|]|e]; simpl.
  - destruct Hr as (Hrole & m & Hin & Hk & Em). fold (is_privileged_role role).
    pose proof (privileged_role_cases role Hrole) as Hp.
    assert (∀ m', m' ∈ rows (organization_members db) → is_member user_id org_id m' = true → m' = m)
      as Hu by (intros; by eapply is_member_unique).
    destruct (is_privileged_role role) eqn:Ep.
    + split; [|done]. intros _. right. exists m. rewrite Em. assert (role = "ADMIN") as -> by tauto. auto.
    + assert (role = "MEMBER") as -> by (destruct Hrole; [naive_solver | done]).
      rewrite existsb_elem. setoid_rewrite bool_decide_eq_true. split.
      * intros (x & Hx%elem_of_final & ->). right. exists m. auto.
      * intros [?|(m' & Hin' & Hk' & Hm')]; [done|]. rewrite (Hu m') in Hm' by done.
        destruct Hm' as [?|[_ Hd]]; [congruence|]. eexists. split; [by apply elem_of_final | done].
  - split; [done|]. intros [?|(m & Hin & Hk & _)]; [done|]. by rewrite Hr in Hk.
  - destruct Hr as [-> Hr]. auto.
Qed.

(** The two queries that compute a member's actions, one for checking and one for delegation,
    return the same actions, without duplicates and in order for the latter: those the group or
    a GRANT gives and no DENY withholds. *)
Theorem permission_queries_agree (db : PermDb) (user_id org_id : Z) :
  get_user_final_permissions user_id org_id db ≡ₚ effective_actions user_id org_id db
  ∧ NoDup (effective_actions user_id org_id db)
  ∧ Sorted (λ a b, str_le a b = true) (effective_actions user_id org_id db)
  ∧ ∀ action, action ∈ effective_actions user_id org_id db ↔ delegated db user_id org_id action.
Proof.
  assert (NoDup (effective_actions user_id org_id db)) as Hnd.
  { unfold effective_actions. rewrite sql_order_by_perm. apply NoDup_remove_dups. }
  split_and!; [|done| |apply elem_of_effective].
  - apply NoDup_Permutation; [apply NoDup_remove_dups | done|].
    intros x. by rewrite elem_of_final, elem_of_effective.
  - apply sql_order_by_sorted. intros a b. unfold str_le.
    apply Stdlib.Strings.String.leb_total.
Qed.

(** A request passes the permission extractor only when the user of its claims holds the
    required action in the organization of the header, or of the user's first membership when
    the header is absent or not a number; each rejection has the cause its kind names. *)
Theorem extractor_enforces_the_permission (r : PermissionResource) (o : PermissionOperation)
    (claims : result Z Z) (available : bool) (header : option string) (db : PermDb) :
  match from_request_parts r o claims available header db with
  | Ok (user_id, org_id) =>
      claims = Ok user_id
      ∧ check_permission user_id org_id (required_action r o) db = Ok true
      ∧ match header ≫= parse_i64 with
        | Some id => org_id = id
        | None => first_organization_id user_id db = Some org_id
        end
  | Err (Denied required) =>
      required = resource_name r +:+ ":" +:+ operation_name o
      ∧ ∃ user_id org_id, claims = Ok user_id
          ∧ check_permission user_id org_id (required_action r o) db = Ok false
  | Err NoOrganization => ∃ user_id, claims = Ok user_id ∧ first_organization_id user_id db = None
  | Err (Internal _) =>
      available = false
      ∨ ∃ user_id org_id e, claims = Ok user_id
          ∧ check_permission user_id org_id (required_action r o) db = Err e
  | Err (ClaimsRejected status) => claims = Err status
  end.
Proof.
  unfold from_request_parts. destruct claims as [user_id|status]; simpl; [|done].
  destruct available; simpl; [|auto]. unfold resolve_organization.
  destruct (header ≫= parse_i64) as [id|]; simpl.
  - destruct (check_permission user_id id (required_action r o) db) as [[]|e] eqn:E; eauto 8.
  - destruct (first_organization_id user_id db) as [id|] eqn:Ef; simpl; [|eauto].
    destruct (check_permission user_id id (required_action r o) db) as [[]|e] eqn:E; eauto 8.
Qed.

(** ** Running the group service *)

Lemma run_read_res {A B} (f : PermDb → result A SqlError) (k : A → P B) db :
  bind (read_res f) k db
  = match f db with Ok a => k a db | Err e => (db, Err (Database e)) end.
Proof. unfold bind, read_res. by destruct (f db). Qed.

Lemma run_write {A B} (f : PermDb → result (PermDb * A) SqlError) (k : A → P B) db :
  bind (write f) k db
  = match f db with Ok (db', a) => k a db' | Err e => (db, Err (Database e)) end.
Proof. unfold bind, write. by destruct (f db) as [[]|]. Qed.

Lemma run_guard {B} (c : bool) (e : PermissionGroupError) (k : unit → P B) db :
  bind (guard c e) k db = if c then (db, Err e) else k tt db.
Proof. by destruct c. Qed.

Lemma run_of_result {A B} (r : result A PermissionGroupError) (k : A → P B) db :
  bind (of_result r) k db = match r with Ok a => k a db | Err e => (db, Err e) end.
Proof. by destruct r. Qed.

Lemma run_bind {A B C} (m : P A) (k : A → P B) (k' : B → P C) db :
  bind (bind m k) k' db = bind m (λ a, bind (k a) k') db.
Proof. unfold bind. by destruct (m db) as [s [a|e]]. Qed.

Ltac run_perm :=
  rewrite ?run_read_res, ?run_write, ?run_guard, ?run_of_result;
  change (bind (read ?f) ?k ?db) with (k (f db) db).

(** An audit event changes the audit log only. *)
Lemma audit_run now actor org action resource id metadata db :
  ∃ t, audit now actor org action resource id metadata db = (with_audit_logs t db, Ok tt).
Proof.
  unfold audit, audit_create. destruct (sql_insert _ _ _) as [[t i]|e]; simpl; [by exists t|].
  exists (audit_logs db). by destruct db.
Qed.

Ltac run_audit :=
  rewrite ?run_guard; simpl; rewrite ?bind_ret;
  match goal with |- context [audit ?n ?a ?o ?x ?y ?i ?m ?d] =>
    let t := fresh "ta" in destruct (audit_run n a o x y i m d) as [t ->]
  end; simpl.

(** Delegation by a member without privileges is checked against the member's own actions. *)
Lemma ensure_subset_run actor org requested db :
  actor_is_privileged actor org db = Ok false →
  ensure_subset actor org requested db = (db, Ok tt) ∧ (∀ x, x ∈ requested → x ∈ effective_actions actor org db)
  ∨ ∃ x, x ∈ requested ∧ x ∉ effective_actions actor org db
         ∧ ensure_subset actor org requested db = (db, Err (Escalation x)).
Proof.
  intros Hp. unfold ensure_subset. rewrite run_read_res, Hp.
  change (bind (read ?f) ?k db) with (k (f db) db). cbn beta iota. unfold missing_delegated_action.
  destruct (list_find _ requested) as [[i x]|] eqn:E; simpl.
  - right. apply list_find_Some in E as (Hi & Hx & _). rewrite elem_of_list_to_set in Hx.
    apply list_elem_of_lookup_2 in Hi. eauto.
  - left. split; [done|]. intros x Hx. apply list_find_None in E. rewrite Forall_forall in E.
    specialize (E x Hx). rewrite elem_of_list_to_set in E. by apply dec_stable.
Qed.

Lemma ensure_subset_reads actor org requested : reads (ensure_subset actor org requested).
Proof.
  intros db. unfold ensure_subset. rewrite run_read_res.
  destruct (actor_is_privileged actor org db) as [[]|]; [done| |done].
  change (bind (read ?f) ?k db) with (k (f db) db). cbn beta. by destruct (missing_delegated_action _ _).
Qed.

(** *** The maps built from the policy table *)

Lemma foldl_insert_lookup {K V} `{Countable K} {X} (key : X → K) (val : X → V) (l : list X)
    (m : gmap K V) k v :
  foldl (λ m x, <[key x := val x]> m) m l !! k = Some v →
  m !! k = Some v ∨ ∃ x, x ∈ l ∧ key x = k ∧ val x = v.
Proof.
  revert m. induction l as [|x l IH]; intros m; simpl; [auto|].
  intros [Hm|(y & Hy & ? & ?)]%IH.
  - destruct (decide (key x = k)) as [<-|Hne].
    + rewrite lookup_insert_eq in Hm. injection Hm as <-. right. exists x. set_solver.
    + rewrite lookup_insert_ne in Hm by done. auto.
  - right. exists y. set_solver.
Qed.

Lemma policy_ids_by_action_lookup db action id :
  policy_ids_by_action (all_policies db) !! action = Some id → policy_action db id action.
Proof.
  intros [Hm|(p & Hp & ? & ?)]%foldl_insert_lookup; [by rewrite lookup_empty in Hm|].
  apply sql_order_by_elem in Hp. by exists p.
Qed.

Lemma actions_by_policy_id_lookup db action id :
  actions_by_policy_id (all_policies db) !! id = Some action → policy_action db id action.
Proof.
  intros [Hm|(p & Hp & ? & ?)]%foldl_insert_lookup; [by rewrite lookup_empty in Hm|].
  apply sql_order_by_elem in Hp. by exists p.
Qed.

Lemma policy_action_unique db id a b :
  table_wf (policy db) → policy_action db id a → policy_action db id b → a = b.
Proof.
  intros Hwf (p & Hp & Hid & <-) (q & Hq & Hid' & <-). f_equal.
  eapply wf_lookup_unique; [exact Hwf|done..|]. simpl. congruence.
Qed.

Lemma ids_of_actions_elem db requested ids :
  ids_of_actions (policy_ids_by_action (all_policies db)) requested = Ok ids →
  Forall2 (λ action id, policy_action db id action) requested ids.
Proof.
  revert ids. induction requested as [|action rest IH]; intros ids; simpl.
  { intros [= <-]. constructor. }
  destruct (_ !! action) as [id|] eqn:E; simpl; [|done].
  destruct (ids_of_actions _ rest) as [ids'|]; simpl; [|done]. intros [= <-].
  constructor; [by apply policy_ids_by_action_lookup | auto].
Qed.

Lemma policy_entries_elem db body actions policies :
  policy_entries (actions_by_policy_id (all_policies db)) body = Ok (actions, policies) →
  Forall2 (λ action pe, policy_action db pe.1 action ∧ (pe.2 = "GRANT" ∨ pe.2 = "DENY"))
    actions policies.
Proof.
  revert actions policies. induction body as [|[pid eff] rest IH]; intros actions policies; simpl.
  { intros [= <- <-]. constructor. }
  destruct (negb _ && negb _) eqn:Ee; [done|].
  destruct (_ !! pid) as [action|] eqn:E; simpl; [|done].
  destruct (policy_entries _ rest) as [[as_ ps]|]; simpl; [|done]. intros [= <- <-].
  constructor; [|auto]. split; [by apply actions_by_policy_id_lookup|]. simpl.
  apply andb_false_iff in Ee as [Ee|Ee]; apply negb_false_iff in Ee; bsimp; auto.
Qed.

(** *** The insertions *)

Lemma insert_group_policies_inv g ids now : ∀ db db',
  insert_group_policies g ids now db = Ok db' →
  ∃ t news, db' = with_group_policy t db ∧ rows t = rows (group_policy db) ++ news
    ∧ map gp_policy_id news = ids ∧ ∀ gp, gp ∈ news → gp_group_id gp = g.
Proof.
  induction ids as [|id ids IH]; intros db db'; simpl.
  { intros [= <-]. exists (group_policy db), []. rewrite app_nil_r. split_and!; [by destruct db | done..|].
    set_solver. }
  unfold insert_group_policy. destruct (sql_insert _ _ _) as [[t i]|] eqn:E; simpl; [|done].
  apply sql_insert_inv in E as (_ & _ & Hr & _).
  intros (t' & news & -> & Hr' & Hids & Hg)%IH. simpl in Hr'. rewrite Hr, <- app_assoc in Hr'.
  eexists t', (_ :: news). split_and!; [done | exact Hr' | simpl; by rewrite Hids |].
  intros gp [->|Hgp]%elem_of_cons; [done | auto].
Qed.

Lemma insert_user_policies_inv u o policies now : ∀ db db',
  insert_user_policies u o policies now db = Ok db' →
  ∃ t news, db' = with_user_policy t db ∧ rows t = rows (user_policy db) ++ news
    ∧ map (λ up, (up_policy_id up, up_effect up)) news = policies
    ∧ ∀ up, up ∈ news → up_user_id up = u ∧ up_org_id up = o.
Proof.
  induction policies as [|[pid eff] rest IH]; intros db db'; simpl.
  { intros [= <-]. exists (user_policy db), []. rewrite app_nil_r.
    split_and!; [by destruct db | done..|]. set_solver. }
  destruct (sql_insert _ _ _) as [[t i]|] eqn:E; simpl; [|done].
  apply sql_insert_inv in E as (_ & _ & Hr & _).
  intros (t' & news & -> & Hr' & Hids & Hg)%IH. simpl in Hr'. rewrite Hr, <- app_assoc in Hr'.
  eexists t', (_ :: news). split_and!; [done | exact Hr' | simpl; by rewrite Hids |].
  intros up [->|Hup]%elem_of_cons; [done | auto].
Qed.

(** ** Delegation *)

(** The calls that change what members may do and that any member with the right to manage
    groups or members can make. *)
Inductive Delegation :=
| CreateGroup (name : string) (actions : list string)
| UpdateGroup (group_id : Z) (name : string) (actions : list string)
| DeleteGroup (group_id : Z)
| AssignGroup (user_id group_id : Z)
| ReplacePolicies (user_id : Z) (body : list (Z * string)).

Definition delegate (now actor org : Z) (d : Delegation) (db : PermDb) : PermDb :=
  match d with
  | CreateGroup name actions => (service_create_group now actor org name actions db).1
  | UpdateGroup g name actions => (service_update_group now actor org g name actions db).1
  | DeleteGroup g => (service_delete_group now actor org g db).1
  | AssignGroup u g => (service_assign_group now actor org u g db).1
  | ReplacePolicies u body => (service_replace_user_policies now actor org u body db).1
  end.

(** What a delegation may change: only the groups' actions and the members' groups and overrides;
    every new grant is an action in [E], and denials are lifted only for one member. *)
Record delegation_effect (E : string → Prop) (lifted : Z → Z → Prop) (db db' : PermDb) : Prop := {
  de_users : users db' = users db;
  de_role : ∀ u o, member_role u o db' = member_role u o db;
  de_grants : ∀ u o x, grants db' u o x → grants db u o x ∨ E x;
  de_granted : ∀ u o x, overridden db' u o "GRANT" x → overridden db u o "GRANT" x ∨ E x;
  de_denied : ∀ u o x, overridden db u o "DENY" x → overridden db' u o "DENY" x ∨ lifted u o;
}.

Lemma delegation_effect_refl E lifted db t : delegation_effect E lifted db (with_audit_logs t db).
Proof. split; auto. Qed.

Lemma delegation_effect_same E lifted db : delegation_effect E lifted db db.
Proof. split; auto. Qed.

(** The audit event after a change adds nothing. *)
Lemma delegation_effect_audit E lifted db db' t :
  delegation_effect E lifted db db' → delegation_effect E lifted db (with_audit_logs t db').
Proof. intros [? ? ? ? ?]. by split. Qed.

Lemma newly_allowed E lifted db db' u o a :
  delegation_effect E lifted db db' →
  check_permission u o a db' = Ok true → check_permission u o a db ≠ Ok true →
  E (action_as_str a) ∨ (lifted u o ∧ overridden db u o "DENY" (action_as_str a)).
Proof.
  intros [Hu Hr Hg Ho Hd]. unfold check_permission.
  replace (is_platform_owner u db') with (is_platform_owner u db)
    by (unfold is_platform_owner, user_get_by_id; by rewrite Hu).
  rewrite Hr. destruct (is_platform_owner u db); [done|].
  destruct (member_role u o db) as [[role|]|]; simpl; [|done..].
  destruct (uppercase_eq role "ADMIN" || uppercase_eq role "OWNER"); [done|].
  intros [= (x & [Hgr Hnd]%elem_of_final & Hx)%existsb_elem] Hno. bsimp. subst x.
  destruct (not_denied (overrides u o db) (action_as_str a)) eqn:End.
  - apply not_denied_spec in End. left.
    enough (¬ delegated db u o (action_as_str a)) as Hn.
    { destruct Hgr as [[?|?]%Hg|[?|?]%Ho]; auto; exfalso; apply Hn; split; auto. }
    intros Hdel%elem_of_final. apply Hno. f_equal. apply existsb_elem.
    eexists. split; [exact Hdel|]. by apply bool_decide_eq_true.
  - right. assert (overridden db u o "DENY" (action_as_str a)) as Hden.
    { apply elem_of_with_effect. unfold not_denied in End. bsimp. by apply dec_stable. }
    split; [|done]. destruct (Hd _ _ _ Hden); done.
Qed.

(** Groups that hold only old actions or actions in [E]. *)
Lemma group_change_effect (E : string → Prop) lifted db db' :
  users db' = users db → organization_members db' = organization_members db →
  policy db' = policy db → user_policy db' = user_policy db →
  (∀ gp x, gp ∈ rows (group_policy db') → policy_action db (gp_policy_id gp) x →
           gp ∈ rows (group_policy db) ∨ E x) →
  delegation_effect E lifted db db'.
Proof.
  intros Hu Hm Hp Hup Hgp. split.
  - done.
  - intros u o. unfold member_role. by rewrite Hm.
  - intros u o x (m & g & Hin & Hk & Hg & gp & Hgpin & Hgid & Hx). rewrite Hm in Hin.
    unfold policy_action in Hx. rewrite Hp in Hx. fold (policy_action db (gp_policy_id gp) x) in Hx.
    destruct (Hgp gp x Hgpin Hx) as [?|?]; [|auto]. left. exists m, g. split_and!; auto. by exists gp.
  - intros u o x. unfold overridden, policy_action. rewrite Hp, Hup. auto.
  - intros u o x. unfold overridden, policy_action. rewrite Hp, Hup. auto.
Qed.

(** The actions requested by a member without privileges are the member's own. *)
Lemma validated_policy_ids_run actor org requested db (Hwf : table_wf (policy db))
    (Hp : actor_is_privileged actor org db = Ok false) :
  (∃ e, validated_policy_ids actor org requested db = (db, Err e))
  ∨ ∃ ids, validated_policy_ids actor org requested db = (db, Ok ids)
      ∧ ∀ id x, id ∈ ids → policy_action db id x → x ∈ effective_actions actor org db.
Proof.
  assert (validated_policy_ids actor org requested db
          = match (ensure_subset actor org requested db).2 with
            | Ok _ => (db, ids_of_actions (policy_ids_by_action (all_policies db)) requested)
            | Err e => (db, Err e)
            end) as -> by (apply bind_reads_run, ensure_subset_reads).
  destruct (ensure_subset_run actor org requested db Hp) as [[-> Hsub]|(x & _ & _ & ->)];
    simpl; [|eauto].
  destruct (ids_of_actions _ requested) as [ids|e] eqn:E; [right | left; by exists e].
  exists ids. split; [done|]. intros id x Hid Hx. apply ids_of_actions_elem in E.
  apply list_elem_of_lookup in Hid as [i Hi].
  destruct (Forall2_lookup_r _ _ _ _ _ E Hi) as (action & Ha & Hact).
  rewrite (policy_action_unique db id x action) by done.
  apply Hsub. by eapply list_elem_of_lookup_2.
Qed.

(** Each call, run by a member without privileges. *)
Section delegations.
Context (now actor org : Z) (db : PermDb) (Hwf : perm_wf db).
Context (Hp : actor_is_privileged actor org db = Ok false).
Context (lifted : Z → Z → Prop).

Let E (x : string) : Prop := x ∈ effective_actions actor org db.

Lemma run_validated {B} requested (k : list Z → P B) :
  (∀ ids, (∀ id x, id ∈ ids → policy_action db id x → E x) →
          delegation_effect E lifted db (k ids db).1) →
  delegation_effect E lifted db (bind (validated_policy_ids actor org requested) k db).1.
Proof.
  intros Hk. unfold bind.
  destruct (validated_policy_ids_run actor org requested db (wf_policy db Hwf) Hp)
    as [[e ->]|(ids & -> & Hids)]; [apply delegation_effect_same | by apply Hk].
Qed.

Lemma create_group_effect name actions :
  delegation_effect E lifted db (service_create_group now actor org name actions db).1.
Proof.
  apply run_validated. intros ids Hids. rewrite run_write. unfold create_group, insert_group.
  destruct (sql_insert _ _ _) as [[tg g]|]; simpl; [|apply delegation_effect_same].
  destruct (insert_group_policies g ids now _) as [db2|] eqn:E2; simpl;
    [|apply delegation_effect_same].
  apply insert_group_policies_inv in E2 as (t & news & -> & Hr & Hn & _). unfold bind. run_audit.
  apply delegation_effect_audit, group_change_effect; try done.
  intros gp x Hgp Hx. simpl in Hgp, Hr. rewrite Hr in Hgp.
  apply elem_of_app in Hgp as [?|Hgp]; [by left|]. right. apply (Hids (gp_policy_id gp)); [|done].
  rewrite <- Hn. apply elem_of_mapb. eauto.
Qed.

Lemma update_group_effect g name actions :
  delegation_effect E lifted db (service_update_group now actor org g name actions db).1.
Proof.
  apply run_validated. intros ids Hids. rewrite run_write. unfold update_group.
  destruct (sql_update _ _ _ _) as [[tg n]|]; simpl; [|apply delegation_effect_same].
  case_bool_decide; simpl; [apply delegation_effect_same|].
  destruct (insert_group_policies g ids now _) as [db2|] eqn:E2; simpl;
    [|apply delegation_effect_same].
  apply insert_group_policies_inv in E2 as (t & news & -> & Hr & Hn & _). simpl. run_audit.
  apply delegation_effect_audit, group_change_effect; try done.
  intros gp x Hgp Hx. simpl in Hgp, Hr. rewrite Hr in Hgp.
  apply elem_of_app in Hgp as [[? _]%elem_of_filterb|Hgp]; [by left|]. right.
  apply (Hids (gp_policy_id gp)); [|done]. rewrite <- Hn. apply elem_of_mapb. eauto.
Qed.

Lemma delete_group_effect g :
  delegation_effect E lifted db (service_delete_group now actor org g db).1.
Proof.
  unfold service_delete_group. rewrite run_write. unfold delete_group, delete_groups.
  destruct (sql_exists _ _); [apply delegation_effect_same|].
  destruct (_ || _); [apply delegation_effect_same|]. simpl.
  destruct (sql_update _ _ _ _) as [[tm n]|] eqn:Eu; [simpl | apply delegation_effect_same].
  apply sql_update_inv in Eu as (Hr & _).
  assert (∀ t1 t2, delegation_effect E lifted db (with_groups t1 (with_invites t2 (with_members tm db))))
    as Heff.
  { intros t1 t2. split; try by auto.
    - intros u o. apply (member_role_map _ tm db u o) in Hr; [exact Hr|].
      intros m. unfold updated. by destruct (om_group_id m) as [k|]; [destruct (sql_exists _ _)|].
    - intros u o x (m & k & Hm & Hk & Hg & Hh). left. simpl in Hm. rewrite Hr in Hm.
      apply elem_of_mapb in Hm as (m0 & -> & Hm0). unfold updated in *.
      exists m0, k. destruct (om_group_id m0) as [k0|] eqn:E0; simpl in *;
        [destruct (sql_exists _ _)|]; simpl in *; try done; split_and!; auto; congruence. }
  case_bool_decide; simpl; [run_audit; apply delegation_effect_audit|]; apply Heff.
Qed.

Lemma run_manageable {B} user_id (k : unit → P B) :
  delegation_effect E lifted db (k tt db).1 →
  delegation_effect E lifted db (bind (ensure_manageable_target actor user_id org) k db).1.
Proof.
  intros Hk. unfold ensure_manageable_target. rewrite run_bind, run_read_res, Hp. cbn beta iota.
  rewrite run_bind, run_read_res. destruct (member_role user_id org db) as [role|];
    [|apply delegation_effect_same].
  rewrite run_guard. destruct (negb _); [apply delegation_effect_same | done].
Qed.

Lemma run_subset {B} requested (k : unit → P B) :
  ((∀ x, x ∈ requested → E x) → delegation_effect E lifted db (k tt db).1) →
  delegation_effect E lifted db (bind (ensure_subset actor org requested) k db).1.
Proof.
  intros Hk. unfold bind.
  destruct (ensure_subset_run actor org requested db Hp) as [[-> Hs]|(x & _ & _ & ->)];
    [by apply Hk | apply delegation_effect_same].
Qed.

Lemma assign_group_effect u g :
  delegation_effect E lifted db (service_assign_group now actor org u g db).1.
Proof.
  apply run_manageable. change (bind (read ?f) ?k db) with (k (f db) db). cbn beta.
  apply run_subset. intros Hsub. rewrite run_write. unfold assign_group.
  destruct (negb _); [apply delegation_effect_same|].
  destruct (sql_update _ _ _ _) as [[tm n]|] eqn:Eu; [simpl | apply delegation_effect_same].
  apply sql_update_inv in Eu as (Hr & _).
  assert (delegation_effect E lifted db (with_members tm db)) as Heff.
  { split; try by auto.
    - intros u' o'. apply (member_role_map _ tm db u' o') in Hr; [exact Hr|].
      intros m. unfold updated. by destruct (is_member _ _ m).
    - intros u' o' x (m & k & Hm & Hk & Hg & Hh). simpl in Hm. rewrite Hr in Hm.
      apply elem_of_mapb in Hm as (m0 & -> & Hm0). unfold updated in *.
      destruct (is_member u org m0) eqn:Em; [|left; exists m0, k; auto].
      simpl in Hg. injection Hg as <-. right. apply Hsub. unfold group_actions.
      by rewrite sql_order_by_elem, elem_of_group_policy_actions. }
  case_bool_decide; simpl; [run_audit; by apply delegation_effect_audit | done].
Qed.
End delegations.

Section replace.
Context (now actor org user_id : Z) (db : PermDb) (Hwf : perm_wf db).
Context (Hp : actor_is_privileged actor org db = Ok false).

Let E (x : string) : Prop := x ∈ effective_actions actor org db.
Let lifted (u o : Z) : Prop := u = user_id ∧ o = org.

Lemma replace_policies_effect body :
  delegation_effect E lifted db (service_replace_user_policies now actor org user_id body db).1.
Proof.
  apply run_manageable; [done|]. change (bind (read ?f) ?k db) with (k (f db) db). cbn beta.
  rewrite run_of_result. destruct (policy_entries _ body) as [[actions policies]|] eqn:Ee;
    [|apply delegation_effect_same].
  apply policy_entries_elem in Ee. apply run_subset; [done|]. intros Hsub.
  rewrite run_write. unfold replace_user_policies.
  destruct (negb _); [apply delegation_effect_same|].
  destruct (insert_user_policies _ _ _ _ _) as [db2|] eqn:Ei; simpl; [|apply delegation_effect_same].
  apply insert_user_policies_inv in Ei as (t & news & -> & Hr & Hn & Hk).
  run_audit. apply delegation_effect_audit. simpl in Hr. split; try by auto.
  - intros u o x (up & Hup & <- & <- & He & Hx). simpl in Hup. rewrite Hr in Hup.
    apply elem_of_app in Hup as [[Hup _]%elem_of_filterb|Hup]; [left; exists up; auto|]. right.
    apply list_elem_of_lookup in Hup as [i Hi].
    assert (policies !! i = Some (up_policy_id up, up_effect up)) as Hpi
      by (rewrite <- Hn; apply list_lookup_fmap_Some; eauto).
    destruct (Forall2_lookup_r _ _ _ _ _ Ee Hpi) as (action & Ha & Hact & _). simpl in Hact.
    rewrite (policy_action_unique db _ x action (wf_policy db Hwf) Hx Hact).
    apply Hsub. by eapply list_elem_of_lookup_2.
  - intros u o x (up & Hup & <- & <- & He & Hx).
    destruct ((up_user_id up =? user_id)%Z && (up_org_id up =? org)%Z) eqn:Ek.
    + right. bsimp. by split.
    + left. exists up. split_and!; try done. simpl. rewrite Hr. apply elem_of_app. left.
      apply elem_of_filterb. by rewrite Ek.
Qed.
End replace.

(** C5: When an actor who is neither platform owner nor administrator creates, updates, deletes
    or assigns a group or replaces the overrides of a member, every permission check that starts
    to succeed is for an action the actor holds; the one exception is an action that a denial of
    that very member withheld and that replacing the member's overrides lifted. *)
Theorem delegation_never_escalates (now actor org : Z) (d : Delegation) (db : PermDb)
    (user_id org_id : Z) (action : PolicyAction) (Hwf : perm_wf db)
    (Hp : actor_is_privileged actor org db = Ok false)
    (Hafter : check_permission user_id org_id action (delegate now actor org d db) = Ok true)
    (Hbefore : check_permission user_id org_id action db ≠ Ok true) :
  action_as_str action ∈ effective_actions actor org db
  ∨ org_id = org ∧ overridden db user_id org "DENY" (action_as_str action)
    ∧ ∃ body, d = ReplacePolicies user_id body.
Proof.
  set (lifted u o := o = org ∧ ∃ body, d = ReplacePolicies u body).
  assert (delegation_effect (λ x, x ∈ effective_actions actor org db) lifted db
            (delegate now actor org d db)) as Heff.
  { destruct d as [name acts|g name acts|g|u g|u body]; simpl.
    - by apply create_group_effect.
    - by apply update_group_effect.
    - by apply delete_group_effect.
    - by apply assign_group_effect.
    - pose proof (replace_policies_effect now actor org u db Hwf Hp body) as [? ? ? ? Hd].
      split; try done. intros u' o x [?|[-> ->]]%Hd; [auto | right; split; eauto]. }
  destruct (newly_allowed _ _ _ _ _ _ _ Heff Hafter Hbefore) as [?|[[-> [body Hb]] Hden]]; eauto 6.
Qed.

(** ** Denials *)

(** A plain member can replace the member's own overrides by none: the call succeeds and every
    action the group grants is allowed again, also those a DENY override withheld before. *)
Theorem member_can_clear_own_denials (now actor org : Z) (action : PolicyAction) (db : PermDb)
    (Hown : is_platform_owner actor db = false)
    (Hrole : member_role actor org db = Ok (Some "MEMBER"))
    (Hgrant : grants db actor org (action_as_str action)) :
  let '(db', r) := service_replace_user_policies now actor org actor [] db in
  r = Ok tt ∧ check_permission actor org action db' = Ok true
  ∧ (overridden db actor org "DENY" (action_as_str action) →
     check_permission actor org action db = Ok false).
Proof.
  assert (actor_is_privileged actor org db = Ok false) as Hp
    by (unfold actor_is_privileged; rewrite Hown, Hrole; reflexivity).
  assert (sql_exists (is_member actor org) (organization_members db) = true) as Hm.
  { destruct Hgrant as (m & g & Hin & Hk & _). apply existsb_elem. eauto. }
  unfold service_replace_user_policies, ensure_manageable_target.
  rewrite run_bind, run_read_res, Hp. cbn beta iota. rewrite run_bind, run_read_res, Hrole, run_guard.
  rewrite (bool_decide_eq_true_2 (Some "MEMBER" = Some (as_str Member))) by reflexivity. cbn [negb].
  change (bind (read ?f) ?k db) with (k (f db) db). cbn beta. rewrite run_of_result. cbn [policy_entries].
  unfold ensure_subset. rewrite run_bind, run_read_res, Hp. cbn beta iota. rewrite run_bind.
  change (bind (read ?f) ?k db) with (k (f db) db). cbn beta.
  change (missing_delegated_action _ []) with (@None string). cbn iota. rewrite bind_ret, run_write.
  unfold replace_user_policies. rewrite Hm. simpl. run_audit. split; [done|].
  unfold check_permission.
  match goal with |- context [is_platform_owner actor (with_audit_logs ta ?d)] =>
    change (is_platform_owner actor (with_audit_logs ta d)) with (is_platform_owner actor db);
    change (member_role actor org (with_audit_logs ta d)) with (member_role actor org db);
    set (db' := with_audit_logs ta d) end.
  rewrite Hown, Hrole. simpl. change (uppercase_eq "MEMBER" "ADMIN" || uppercase_eq "MEMBER" "OWNER") with false.
  cbn iota. split.
  - f_equal. apply existsb_elem. exists (action_as_str action).
    split; [|by apply bool_decide_eq_true]. apply elem_of_final. split; [by left|].
    intros (up & Hup & Hu & Ho & _). subst db'. simpl in Hup.
    apply elem_of_filterb in Hup as [_ Hk]. rewrite Hu, Ho, !Z.eqb_refl in Hk. done.
  - intros Hd. f_equal. apply existsb_false. intros x [_ Hn]%elem_of_final.
    apply bool_decide_eq_false. by intros ->.
Qed.

(** ** Administration is reserved to administrators *)

Lemma run_manageable_refused {B} actor user_id org db (k : unit → P B) :
  actor_is_privileged actor org db = Ok false → member_role user_id org db ≠ Ok (Some "MEMBER") →
  ∃ e, bind (ensure_manageable_target actor user_id org) k db = (db, Err e).
Proof.
  intros Hp Hr. unfold ensure_manageable_target. rewrite run_bind, run_read_res, Hp. cbn beta iota.
  rewrite run_bind, run_read_res. destruct (member_role user_id org db) as [role|]; [|eauto].
  rewrite run_guard. rewrite (bool_decide_eq_false_2 (role = Some (as_str Member))).
  - simpl. eauto.
  - intros ->. by apply Hr.
Qed.

Section reserved.
Context (sha256 : string → list Z) (hash_password : string → option string).
Context (email_for resend_for : Z → bool) (public_url : option string).

(** An actor who is neither platform owner nor administrator cannot change roles, remove or add
    members, cannot assign groups or overrides to anyone who is not a plain member, and can
    invite only plain members into groups whose actions the actor holds; each refusal leaves the
    database unchanged. *)
Theorem administration_needs_privilege (now actor org user_id : Z) (db : PermDb)
    (Hp : actor_is_privileged actor org db = Ok false) :
  (∀ role, update_member_role now actor org user_id role db
           = (db, Err (Escalation "only organization admins can change roles")))
  ∧ remove_member now actor org user_id db
    = (db, Err (Escalation "only organization admins can remove members"))
  ∧ (∀ email role password, add_member hash_password now actor org email role password db
       = (db, Err (Escalation "only organization admins can add members")))
  ∧ (member_role user_id org db ≠ Ok (Some "MEMBER") →
     (∀ g, ∃ e, service_assign_group now actor org user_id g db = (db, Err e))
     ∧ ∀ body, ∃ e, service_replace_user_policies now actor org user_id body db = (db, Err e))
  ∧ ∀ email role g bytes db' token mail,
      create_invite sha256 email_for resend_for public_url now actor org email role g bytes db
      = (db', Ok (token, mail)) →
      to_ascii_uppercase role = "MEMBER"
      ∧ ∀ x, x ∈ group_actions g db → x ∈ effective_actions actor org db.
Proof.
  split_and!.
  - intros role. unfold update_member_role. by rewrite run_read_res, Hp.
  - unfold remove_member. by rewrite run_read_res, Hp.
  - intros. unfold add_member. by rewrite run_read_res, Hp.
  - intros Hr. split; intros; by apply run_manageable_refused.
  - intros email role g bytes db' token mail. unfold create_invite.
    rewrite run_guard. destruct (negb (contains _ _)); [done|].
    rewrite run_guard. destruct (valid_role _) eqn:Hv; simpl; [|done].
    case_bool_decide as Hadmin; [rewrite run_bind, run_read_res, Hp, run_guard; done|].
    rewrite bind_ret, run_read_res, Hp, run_bind.
    change (bind (read ?f) ?k db) with (k (f db) db). cbn beta.
    destruct (ensure_subset_run actor org (group_actions g db) db Hp) as [[Hs Hsub]|(x & _ & _ & Hs)];
      unfold bind at 1; rewrite Hs; [|done]. intros _. split; [|done].
    unfold valid_role in Hv. bsimp. by destruct Hv.
Qed.
End reserved.
