(* ===== verification/PermissionLimits.v ===== *)
(** * Invitations, and the permission operations the schema rejects

    An invitation can be accepted by the invited user until it expires, once; then the calls
    whose statements violate a constraint of the tables (deleting a group that holds policies,
    adding a member with a new account, seeding the groups of a second organization), and the
    actions the handlers require that no policy row grants. *)

From stdpp Require Import gmap strings list.
From Stdlib Require Import ZArith Lia.
From S2P Require Import Prelude RustStr StringEnum Sql PermissionDb PermissionService PermissionInv PermissionProps.

Lemma user_get_by_id_elem db u :
  table_wf (users db) → u ∈ rows (users db) → user_get_by_id (u_id u) db = Some u.
Proof. exact (sql_first_id (users db) u). Qed.

(** ** Invitations *)

Section invitations.
Context (sha256 : string → list Z).
Context (email_for resend_for : Z → bool) (public_url : option string).

Notation create := (create_invite sha256 email_for resend_for public_url).
Notation accept := (accept_invite sha256).

(** The row an invitation inserts. *)
Definition invite_row (now actor org : Z) (email role : string) (g : Z) (token : string) (id : Z)
    : OrganizationInvite :=
  mkInvite id (to_ascii_lowercase (trim email)) (Some (to_ascii_uppercase role)) (Some "PENDING")
    (hash_token sha256 token) g org actor (now + 7 * 86400) now.

Lemma create_invite_inv now actor org email role g bytes db db1 token mail :
  create now actor org email role g bytes db = (db1, Ok (token, mail)) →
  valid_role (to_ascii_uppercase role) = true
  ∧ ∃ t ta id,
      sql_insert (invite_fk db) (invite_row now actor org email role g token)
        (organization_invites db) = Ok (t, id)
      ∧ db1 = with_audit_logs ta (with_invites t db).
Proof.
  unfold create_invite. rewrite run_guard. destruct (negb (contains _ _)); [done|].
  rewrite run_guard. destruct (valid_role _) eqn:Hv; simpl; [|done]. intros Hrun. split; [done|].
  apply bind_ok in Hrun as (s1 & [] & H1 & Hrun).
  assert (s1 = db) as ->.
  { case_bool_decide; [|by injection H1]. rewrite run_read_res in H1.
    destruct (actor_is_privileged _ _ _) as [[]|]; by inversion H1. }
  rewrite run_read_res in Hrun. destruct (actor_is_privileged _ _ _) as [priv|]; [|done].
  apply bind_ok in Hrun as (s1 & [] & H2 & Hrun).
  assert (s1 = db) as ->.
  { destruct priv; [by injection H2|]. eapply reads_run; [|exact H2].
    intros s. change (bind (read ?f) ?k s) with (k (f s) s). cbn beta. apply ensure_subset_reads. }
  rewrite run_of_result in Hrun. destruct bytes as [bs|]; [|done]. cbn [ok_or] in Hrun.
  rewrite run_write in Hrun. unfold invite_create in Hrun.
  destruct (sql_insert _ _ _) as [[t id]|] eqn:E; [|done]. cbn [result_bind] in Hrun.
  apply bind_ok in Hrun as (s1 & [] & H3 & Hrun).
  match type of H3 with audit ?n ?a ?o ?x ?y ?i ?m ?d = _ =>
    destruct (audit_run n a o x y i m d) as [ta Hta] end.
  rewrite Hta in H3. injection H3 as <-. injection Hrun as <- <- _.
  exists t, ta, id. split; [exact E | done].
Qed.

(** After the insertion the token finds the new row and no other. *)
Lemma find_pending_inserted now actor org email role g token db t id now' :
  sql_insert (invite_fk db) (invite_row now actor org email role g token)
    (organization_invites db) = Ok (t, id) →
  (now' < now + 7 * 86400)%Z →
  find_pending_by_token (hash_token sha256 token) now' (with_invites t db)
  = Some (invite_row now actor org email role g token id).
Proof.
  intros (_ & _ & Hr & _ & Hu & _)%sql_insert_inv Ht. unfold find_pending_by_token, sql_first, sql_select.
  simpl. rewrite Hr, List.filter_app, filterb_all_false; simpl.
  - rewrite bool_decide_eq_true_2 by done. simpl.
    by rewrite (proj2 (Z.ltb_lt _ _) Ht).
  - intros x Hx. apply (proj1 (existsb_false _ _) Hu) in Hx. simpl in Hx. bsimp.
    rewrite bool_decide_eq_false_2 by congruence. done.
Qed.

(** A user who is not a member can be added with a valid role. *)
Lemma add_member_success role u org g now db :
  valid_role role = true → user_exists u db = true → organization_exists org db = true →
  group_exists g db = true → member_role u org db = Ok None →
  ∃ t, add_member_with_group role u org g now db
       = Ok (with_members t db, (seq (organization_members db) + 1)%Z)
     ∧ ∃ m, m ∈ rows t ∧ is_member u org m = true ∧ om_role m = Some role ∧ om_group_id m = Some g.
Proof.
  intros Hv Hu Ho Hg Hr. unfold add_member_with_group, insert_member, sql_insert. simpl.
  assert (bool_decide (role ∈ ["ADMIN"; "MEMBER"]) = true) as ->.
  { unfold valid_role in Hv. bsimp. apply bool_decide_eq_true. set_solver. }
  simpl. assert (existsb (λ m, (u =? om_user_id m)%Z && (org =? om_organization_id m)%Z)
            (rows (organization_members db)) = false) as ->.
  { apply existsb_false. intros m Hm. unfold member_role in Hr.
    destruct (sql_first _ _) as [m'|] eqn:E; [by destruct (om_role m')|].
    apply sql_first_None in E. apply (proj1 (existsb_false _ _) E) in Hm.
    unfold is_member in Hm. by rewrite !(Z.eqb_sym _ (om_user_id m)), (Z.eqb_sym org). }
  unfold member_fk. simpl. rewrite Hu, Ho, Hg. simpl. eexists. split; [reflexivity|].
  eexists. simpl. split; [apply elem_of_app; right; by apply list_elem_of_singleton|].
  unfold is_member. simpl. by rewrite !Z.eqb_refl.
Qed.

(** Settling a pending invitation. *)
Lemma set_status_success db id status :
  table_wf (organization_invites db) → status ∈ ["ACCEPTED"; "REJECTED"] →
  ∃ t, invite_set_status id status db
       = Ok (with_invites t db,
             sql_exists (λ i, (oi_id i =? id)%Z && has_status "PENDING" i) (organization_invites db))
     ∧ rows t = map (updated (λ i, (oi_id i =? id)%Z && has_status "PENDING" i)
                       (set_invite_status status)) (rows (organization_invites db)).
Proof.
  intros Hwf Hs. unfold invite_set_status. rewrite sql_update_success; [|done|done| |done].
  - eexists (mkTable _ _). split; [|reflexivity]. simpl. do 2 f_equal. unfold sql_exists, sql_select.
    induction (rows (organization_invites db)) as [|r l IH]; simpl; [done|].
    destruct (_ && _); simpl; [done | exact IH].
  - intros i Hi _. pose proof (wf_check _ Hwf i Hi) as Hc. simpl in Hc |- *.
    apply andb_true_iff in Hc as [-> _]. simpl. split; [|done].
    apply bool_decide_eq_true. set_solver.
Qed.

(** Once the row of a token is accepted, no row of the table matches the token any more. *)
Lemma accepted_token_is_settled hash (i : OrganizationInvite) l now :
  oi_token i = hash → existsb (row_conflict i) l = false →
  ∀ x, x ∈ map (updated (λ r, (oi_id r =? oi_id i)%Z && has_status "PENDING" r)
                  (set_invite_status "ACCEPTED")) (l ++ [i]) →
  bool_decide (oi_token x = hash) && has_status "PENDING" x && (now <? oi_expired_at x)%Z = false.
Proof.
  intros Hhash Huniq x Hx. rewrite map_app in Hx. apply elem_of_app in Hx as [Hx|Hx].
  - apply elem_of_mapb in Hx as (y & -> & Hy). apply (proj1 (existsb_false _ _) Huniq) in Hy.
    simpl in Hy. bsimp. rewrite bool_decide_eq_false_2; [done|].
    unfold updated. destruct (_ && _); simpl; congruence.
  - simpl in Hx. apply list_elem_of_singleton in Hx. subst x. unfold updated.
    rewrite Z.eqb_refl. simpl. destruct (has_status "PENDING" i) eqn:E; simpl.
    + by rewrite andb_false_r.
    + by rewrite E, andb_false_r.
Qed.

(** The user whose address an invitation names can accept it with the returned token until seven
    days have passed, becomes a member with the invited role and group, and afterwards the token
    is accepted from nobody. *)
Theorem invitation_is_accepted_once (now now' actor org g : Z) (email role : string)
    (bytes : option (list Z)) (db db1 : PermDb) (token : string)
    (mail : option (MailProvider * string * string * string)) (u : User)
    (Hwf : perm_wf db)
    (Hcreate : create now actor org email role g bytes db = (db1, Ok (token, mail)))
    (Hu : u ∈ rows (users db))
    (Hemail : to_ascii_lowercase <$> u_email u = Some (to_ascii_lowercase (trim email)))
    (Hnew : member_role (u_id u) org db = Ok None)
    (Htime : (now' < now + 7 * 86400)%Z) :
  ∃ db2, accept now' (u_id u) token db1 = (db2, Ok tt)
  ∧ (∃ m, m ∈ rows (organization_members db2) ∧ is_member (u_id u) org m = true
          ∧ om_role m = Some (to_ascii_uppercase role) ∧ om_group_id m = Some g)
  ∧ ∀ v now'', accept now'' v token db2 = (db2, Err NotFound).
Proof.
  apply create_invite_inv in Hcreate as (Hv & t & ta & id & Hins & ->).
  pose proof (find_pending_inserted _ _ _ _ _ _ _ _ _ _ now' Hins Htime) as Hfind.
  assert (table_wf t) as Hwt by (eapply sql_insert_wf; [apply wf_invites, Hwf| |exact Hins]; done).
  pose proof Hins as (_ & _ & Hrows & _ & Huniq & Hfk)%sql_insert_inv.
  unfold invite_fk in Hfk. simpl in Hfk. bsimp.
  set (i := invite_row now actor org email role g token id) in *.
  set (dba := with_audit_logs ta (with_invites t db)).
  unfold accept_invite at 1. change (bind (read ?f) ?k dba) with (k (f dba) dba). cbn beta.
  change (find_pending_by_token _ now' dba)
    with (find_pending_by_token (hash_token sha256 token) now' (with_invites t db)).
  rewrite Hfind, run_of_result. cbn [ok_or].
  change (bind (read ?f) ?k dba) with (k (f dba) dba). cbn beta.
  change (user_get_by_id (u_id u) dba) with (user_get_by_id (u_id u) db).
  rewrite (user_get_by_id_elem db u (wf_users db Hwf) Hu).
  rewrite run_of_result. cbn [ok_or]. rewrite run_guard, bool_decide_eq_true_2 by exact Hemail.
  cbn [negb]. rewrite run_read_res.
  change (member_role (u_id u) (oi_organization_id i) dba) with (member_role (u_id u) org db).
  rewrite Hnew, run_guard. rewrite bool_decide_eq_false_2 by (intros [? [=]]).
  rewrite run_write. change (default "MEMBER" (oi_role i)) with (to_ascii_uppercase role).
  assert (user_exists (u_id u) db = true) as Hue
    by (apply existsb_elem; exists u; split; [done | apply Z.eqb_refl]).
  destruct (add_member_success (to_ascii_uppercase role) (u_id u) org g now' dba)
    as (tm & Hadd & m & Hm); [done..|].
  change (oi_organization_id i) with org. change (oi_group_id i) with g. rewrite Hadd.
  rewrite run_write. set (dbm := with_members tm dba).
  destruct (set_status_success dbm (oi_id i) "ACCEPTED") as (ti & -> & Hti); [done | set_solver|].
  destruct (audit_run now' (u_id u) org "INVITE_ACCEPTED" "organization_invite"
    (Some (i64_to_string (oi_id i))) None (with_invites ti dbm)) as [tb ->].
  eexists. split; [reflexivity|]. split; [by exists m|].
  intros v now''. unfold accept_invite. change (bind (read ?f) ?k ?d) with (k (f d) d). cbn beta.
  rewrite run_of_result. unfold find_pending_by_token. simpl.
  rewrite (proj2 (sql_first_None _ _)); [done|].
  apply existsb_false. intros x Hx. rewrite Hti in Hx. simpl in Hx. rewrite Hrows in Hx.
  by apply (accepted_token_is_settled _ i (rows (organization_invites db))).
Qed.
End invitations.

(** ** Operations the schema rejects *)

(** A group of the organization that holds at least one policy is never deleted: the call is
    refused when a member has it and otherwise fails on the foreign key of group_policy, and
    nothing changes. *)
Theorem group_with_policies_cannot_be_deleted (now actor org g : Z) (db : PermDb) (grp : Group)
    (gp : GroupPolicy) (Hg : grp ∈ rows (groups db)) (Hown : owned_group org g grp = true)
    (Hgp : gp ∈ rows (group_policy db)) (Hin : gp_group_id gp = g) :
  service_delete_group now actor org g db
  = (db, Err (if sql_exists (λ m, (om_organization_id m =? org)%Z
                                  && bool_decide (om_group_id m = Some g)) (organization_members db)
              then Invalid "group is protected, missing, or still assigned to members"
              else Database ForeignKeyFailed)).
Proof.
  unfold service_delete_group. rewrite run_write. unfold delete_group.
  destruct (sql_exists _ (organization_members db)); [done|]. unfold delete_groups.
  assert (sql_exists (λ gp, sql_exists (λ x, owned_group org g x && (g_id x =? gp_group_id gp)%Z)
            (groups db)) (group_policy db) = true) as ->; [|done].
  apply existsb_elem. exists gp. split; [done|]. apply existsb_elem. exists grp. split; [done|].
  rewrite Hown, Hin. unfold owned_group in Hown. bsimp. simpl. by apply Z.eqb_eq.
Qed.

(** Adding a member whose address has no account always fails and changes nothing; when
    everything the caller can influence is right it fails on the CHECK of users.role, since the
    account is created with the role in lower case. *)
Theorem new_accounts_cannot_be_added (hash_password : string → option string)
    (now actor org : Z) (email role : string) (password : option string) (db : PermDb)
    (Hnew : user_get_by_email (to_ascii_lowercase (trim email)) db = None) :
  (∃ e, add_member hash_password now actor org email role password db = (db, Err e))
  ∧ (actor_is_privileged actor org db = Ok true →
     contains "@" (to_ascii_lowercase (trim email)) = true →
     valid_role (to_ascii_uppercase role) = true →
     is_Some (hash_password (default "ChangeMe123!" password)) →
     add_member hash_password now actor org email role password db
     = (db, Err (Database CheckFailed))).
Proof.
  unfold add_member. rewrite !run_read_res. destruct (actor_is_privileged actor org db) as [[]|];
    [|split; [eauto|done]..]. rewrite !run_guard. cbn [negb].
  destruct (contains _ _); [cbn [negb]|split; [eauto|done]].
  rewrite ?run_guard. destruct (valid_role _); [cbn [negb]|split; [eauto|done]].
  change (bind (read ?f) ?k db) with (k (f db) db). cbn beta. rewrite Hnew, !run_bind, !run_of_result.
  destruct (hash_password _) as [h|]; cbn [ok_or]; [|split; [eauto | by intros _ _ _ [? ?]]].
  rewrite !run_write. split; [eauto | done].
Qed.

Lemma seeding_conflicts (org now : Z) (db : PermDb) (grp : Group)
    (Hg : grp ∈ rows (groups db)) (Hname : g_name grp = "Organization Admin")
    (Horg : g_organization_id grp ≠ Some org) (Hwf : table_wf (groups db)) :
  seed_organization_defaults org now db = Err UniqueFailed.
Proof.
  unfold seed_organization_defaults. destruct (sql_first _ (groups db)) as [other|] eqn:E.
  - exfalso. apply sql_first_Some in E as [Ho Hk]. bsimp.
    destruct (decide (row_id other = row_id grp)) as [Heq|Hne].
    + apply Horg. by rewrite <- (wf_lookup_unique _ other grp Hwf Ho Hg Heq).
    + pose proof (wf_unique _ Hwf other grp Ho Hg Hne) as Hc. simpl in Hc.
      bsimp. congruence.
  - unfold insert_group, sql_insert. simpl.
    assert (existsb (λ x, bool_decide ("Organization Admin" = g_name x)) (rows (groups db)) = true)
      as ->; [|done].
    apply existsb_elem. exists grp. split; [done|]. by apply bool_decide_eq_true.
Qed.

(** Once an organization has its default group, seeding another organization fails on the unique
    name of the group. *)
Theorem second_organization_cannot_be_seeded (org now : Z) (db : PermDb) (grp : Group)
    (Hg : grp ∈ rows (groups db)) (Hname : g_name grp = "Organization Admin")
    (Horg : g_organization_id grp ≠ Some org) (Hwf : perm_wf db) :
  seed_organization_defaults org now db = Err UniqueFailed.
Proof. exact (seeding_conflicts org now db grp Hg Hname Horg (wf_groups db Hwf)). Qed.

(** ** Actions without a policy *)

(** The rows migrations 0043 and 0045 insert; no other statement of the program inserts one. *)
Definition seeded_policies : list string :=
  ["group:read"; "group:create"; "group:update"; "group:delete";
   "member:read"; "member:update"; "member:create"; "member:delete";
   "invitation:read"; "invitation:create"; "invitation:delete"; "invitation:cancel";
   "deployment:read"; "deployment:create"; "deployment:cancel"; "backup:read"; "backup:create";
   "backup:update"; "backup:delete"; "backup:restore"; "volume_backup:read";
   "volume_backup:create"; "volume_backup:update"; "volume_backup:delete";
   "volume_backup:restore"; "schedule:read"; "schedule:create"; "schedule:update";
   "schedule:delete"; "notification:read"; "notification:create";
   "notification:update"; "notification:delete"; "certificate:read";
   "certificate:create"; "certificate:update"; "certificate:delete";
   "registry:read"; "registry:create"; "registry:delete"; "ssh_key:read";
   "ssh_key:create"; "ssh_key:delete"; "logs:read"; "monitoring:read";
   "audit_log:read"; "workspace:update";
   "vault:read"; "vault:create"; "vault:update"; "vault:delete"].

(** The resources whose actions no policy row names. *)
Definition unseeded_resources : list PermissionResource :=
  [RProject; RServer; RApplication; RDatabase; REnvironment; ROrganization; RUsers; RTraefik; RAlert].

Definition all_resources : list PermissionResource :=
  [RProject; RServer; RApplication; RDatabase; REnvironment; ROrganization; RUsers; RGroups;
   RMembers; RInvitation; RDeployment; RBackup; RVolumeBackup; RSchedule; RNotification;
   RCertificate; RRegistry; RSshKey; RLogs; RMonitoring; RAuditLog; RWorkspace; RTraefik; RAlert].

(** Whether a handler's requirement is named by a policy row. *)
Definition is_seeded (r : PermissionResource) (o : PermissionOperation) : bool :=
  bool_decide (action_as_str (required_action r o) ∈ seeded_policies).

Lemma seeded_by_resource r o :
  o ∈ allowed_operations r →
  is_seeded r o = negb (bool_decide (r ∈ unseeded_resources)).
Proof.
  intros Ho. destruct r; simpl in Ho;
    repeat (apply elem_of_cons in Ho as [->|Ho]; [vm_compute; reflexivity|]);
    by apply elem_of_nil in Ho.
Qed.

(** With the policy rows the migrations insert, the requirements on projects, servers,
    applications, databases, environments, organizations, users, Traefik and alerts can be met
    only by platform owners and administrators: no group or override can grant them. *)
Theorem unseeded_actions_need_an_administrator (db : PermDb) (r : PermissionResource)
    (o : PermissionOperation) (user_id org_id : Z) (Hwf : perm_wf db)
    (Hpol : ∀ p, p ∈ rows (policy db) → p_action p ∈ seeded_policies)
    (Ho : o ∈ allowed_operations r)
    (Hallowed : check_permission user_id org_id (required_action r o) db = Ok true) :
  is_platform_owner user_id db = true
  ∨ member_role user_id org_id db = Ok (Some "ADMIN")
  ∨ r ∉ unseeded_resources.
Proof.
  pose proof (seeded_by_resource r o Ho) as Hs. unfold check_permission in Hallowed.
  destruct (is_platform_owner user_id db); [by left|].
  pose proof (member_role_cases db user_id org_id (wf_members db Hwf)) as Hr.
  destruct (member_role user_id org_id db) as [[role|]|]; [|done..].
  destruct Hr as [[-> | ->] _]; [by right; left|]. right; right. intros Hin.
  rewrite bool_decide_eq_true_2 in Hs by done. unfold is_seeded in Hs. simpl in Hs. bsimp.
  change (Ok (existsb (λ p, bool_decide (p = action_as_str (required_action r o)))
     (get_user_final_permissions user_id org_id db)) = @Ok bool SqlError true) in Hallowed.
  apply Ok_inj, existsb_elem in Hallowed as (x & [Hx _]%elem_of_final & Hxe). bsimp. subst x.
  enough (∃ i, policy_action db i (action_as_str (required_action r o))) as (i & p & Hp & _ & Hpa)
    by (apply Hs; rewrite <- Hpa; auto).
  destruct Hx as [(m & k & _ & _ & _ & gp & _ & _ & Hx)|(up & _ & _ & _ & _ & Hx)]; eauto.
Qed.

(** ** A concrete organization

    User 1 owns the platform and administers organization 1; users 2 and 5 are members, 2 through
    the group Developers with a denial of [deployment:create]; user 3 is not a member. *)

Definition sample_user (id : Z) (email role : string) : User :=
  mkUser id (Some email) None None "" (Some role) None "hash" (Some 1%Z) None (Some 0%Z) 1 None 1 0 0.

Definition sample_perm : PermDb :=
  mkPermDb
    (mkTable [sample_user 1 "root@x.io" "OWNER"; sample_user 2 "ann@x.io" "MEMBER";
              sample_user 3 "bob@x.io" "MEMBER"; sample_user 5 "eve@x.io" "MEMBER"] 5)
    (mkTable [mkGroup 1 "owner" 0 None 0 0; mkGroup 2 "Organization Admin" 1 (Some 1%Z) 0 0;
              mkGroup 3 "Developers" 0 (Some 1%Z) 0 0; mkGroup 4 "Readers" 0 (Some 1%Z) 0 0] 4)
    (mkTable [mkPolicy 1 "deployment:read" 0; mkPolicy 2 "deployment:create" 0;
              mkPolicy 3 "member:update" 0] 3)
    (mkTable [mkGroupPolicy 1 3 1 0; mkGroupPolicy 2 3 2 0; mkGroupPolicy 3 3 3 0;
              mkGroupPolicy 4 4 1 0] 4)
    (mkTable [mkMember 1 (Some "ADMIN") 1 1 0 0 None; mkMember 2 (Some "MEMBER") 2 1 0 0 (Some 3%Z);
              mkMember 3 (Some "MEMBER") 5 1 0 0 None] 3)
    (mkTable [mkUserPolicy 1 2 1 2 "DENY" 0] 1)
    empty_table empty_table empty_table [1%Z; 2%Z].

Lemma sample_perm_wf : perm_wf sample_perm.
Proof. split; apply table_check_wf; vm_compute; reflexivity. Qed.

Definition deployment_read : PolicyAction := required_action RDeployment CanRead.
Definition deployment_create : PolicyAction := required_action RDeployment CanCreate.

Lemma check_permission_witness :
  is_platform_owner 2 sample_perm = true
  ∨ ∃ m, m ∈ rows (organization_members sample_perm) ∧ is_member 2 1 m = true
         ∧ (om_role m = Some "ADMIN"
            ∨ (om_role m = Some "MEMBER" ∧ delegated sample_perm 2 1 "deployment:read")).
Proof.
  pose proof (check_permission_meaning sample_perm 2 1 deployment_read sample_perm_wf) as H.
  assert (check_permission 2 1 deployment_read sample_perm = Ok true) as E
    by (vm_compute; reflexivity).
  rewrite E in H. by apply H.
Defined.

(** User 2 gives user 5 the group Readers. *)
Lemma escalation_witness :
  check_permission 5 1 deployment_read (delegate 9 2 1 (AssignGroup 5 4) sample_perm) = Ok true
  ∧ ("deployment:read" ∈ effective_actions 2 1 sample_perm
     ∨ (1%Z = 1%Z ∧ overridden sample_perm 5 1 "DENY" "deployment:read"
        ∧ ∃ body, AssignGroup 5 4 = ReplacePolicies 5 body)).
Proof.
  split; [vm_compute; reflexivity|].
  apply (delegation_never_escalates 9 2 1 (AssignGroup 5 4) sample_perm 5 1 deployment_read);
    [apply sample_perm_wf | vm_compute; reflexivity.. | by vm_compute].
Defined.

Lemma clear_denials_witness :
  let '(db', r) := service_replace_user_policies 9 2 1 2 [] sample_perm in
  r = Ok tt ∧ check_permission 2 1 deployment_create db' = Ok true
  ∧ (overridden sample_perm 2 1 "DENY" "deployment:create" →
     check_permission 2 1 deployment_create sample_perm = Ok false).
Proof.
  apply (member_can_clear_own_denials 9 2 1 deployment_create sample_perm);
    [vm_compute; reflexivity..|].
  exists (mkMember 2 (Some "MEMBER") 2 1 0 0 (Some 3%Z)), 3%Z. split_and!; [|done..|].
  - simpl. apply list_elem_of_further, list_elem_of_here.
  - exists (mkGroupPolicy 2 3 2 0). split_and!; [|done|].
    + simpl. apply list_elem_of_further, list_elem_of_here.
    + exists (mkPolicy 2 "deployment:create" 0). split_and!; [|done..].
      simpl. apply list_elem_of_further, list_elem_of_here.
Defined.

Lemma administration_witness :
  remove_member 9 2 1 5 sample_perm
  = (sample_perm, Err (Escalation "only organization admins can remove members")).
Proof.
  apply (administration_needs_privilege (λ _, []) (λ _, None) (λ _, false) (λ _, false) None
           9 2 1 5 sample_perm).
  vm_compute. reflexivity.
Defined.

(** User 1 invites user 3, who accepts on the next day. *)
Lemma invitation_witness :
  let '(db1, r) := create_invite (λ _, [171%Z]) (λ _, false) (λ _, false) None
                     9 1 1 " Bob@x.io" "member" 3 (Some [10%Z; 255%Z]) sample_perm in
  r = Ok ("0aff", None)
  ∧ ∃ db2, accept_invite (λ _, [171%Z]) 86409 3 "0aff" db1 = (db2, Ok tt).
Proof.
  destruct (create_invite _ _ _ _ _ _ _ _ _ _ _ _) as [db1 r] eqn:E.
  assert (r = Ok ("0aff", None)) as ->.
  { change r with (db1, r).2. rewrite <- E. vm_compute. reflexivity. }
  split; [done|].
  destruct (invitation_is_accepted_once (λ _, [171%Z]) (λ _, false) (λ _, false) None
    9 86409 1 1 3 " Bob@x.io" "member" (Some [10%Z; 255%Z]) sample_perm db1 "0aff" None
    (sample_user 3 "bob@x.io" "MEMBER") sample_perm_wf E) as (db2 & Ha & _).
  - simpl. apply list_elem_of_further, list_elem_of_further, list_elem_of_here.
  - vm_compute. reflexivity.
  - vm_compute. reflexivity.
  - lia.
  - by exists db2.
Defined.

Lemma delete_group_witness :
  service_delete_group 9 1 1 4 sample_perm = (sample_perm, Err (Database ForeignKeyFailed)).
Proof.
  apply (group_with_policies_cannot_be_deleted 9 1 1 4 sample_perm
    (mkGroup 4 "Readers" 0 (Some 1%Z) 0 0) (mkGroupPolicy 4 4 1 0)); [|done| |done];
    simpl; repeat first [apply list_elem_of_here | apply list_elem_of_further].
Defined.

Lemma add_member_witness :
  add_member (λ p, Some p) 9 1 1 "new@x.io" "MEMBER" None sample_perm
  = (sample_perm, Err (Database CheckFailed)).
Proof.
  apply (new_accounts_cannot_be_added (λ p, Some p) 9 1 1 "new@x.io" "MEMBER" None sample_perm);
    [vm_compute; reflexivity..|]. by eexists.
Defined.

Lemma seed_witness : seed_organization_defaults 2 9 sample_perm = Err UniqueFailed.
Proof.
  apply (second_organization_cannot_be_seeded 2 9 sample_perm
    (mkGroup 2 "Organization Admin" 1 (Some 1%Z) 0 0)); [|done|done|apply sample_perm_wf].
  simpl. apply list_elem_of_further, list_elem_of_here.
Defined.

Lemma unseeded_witness :
  is_platform_owner 1 sample_perm = true
  ∨ member_role 1 1 sample_perm = Ok (Some "ADMIN") ∨ RProject ∉ unseeded_resources.
Proof.
  apply (unseeded_actions_need_an_administrator sample_perm RProject CanRead 1 1).
  - apply sample_perm_wf.
  - intros p Hp. simpl in Hp. rewrite !elem_of_cons, elem_of_nil in Hp.
    destruct Hp as [->|[->|[->|[]]]]; simpl;
      repeat first [apply list_elem_of_here | apply list_elem_of_further].
  - apply list_elem_of_here.
  - vm_compute. reflexivity.
Defined.
