(* ===== verification/AuthDb.v ===== *)
(** * The tables of authentication

    [src/db/repository/jwt_tokens.rs], [two_factor.rs], [password_reset_tokens.rs],
    [personal_access_tokens.rs], [email_verification_tokens.rs] and the methods of [users.rs],
    [organization.rs] and [groups.rs] that authentication uses, over the tables of migrations
    0001 and 0020 to 0023.  The users, groups and memberships are those of [PermissionDb].
    [now] is [strftime('%s', 'now')]; a transaction returns the old state on an error. *)

From stdpp Require Import gmap strings list.
From Stdlib Require Import ZArith Lia.
From S2P Require Import Prelude RustStr RustText StringEnum Sql PermissionDb.

(** ** Rows *)

Record JwtToken := mkJwt {
  jt_id : Z;
  jt_jti : string;
  jt_role : string;
  jt_user_id : Z;
  jt_is_blacklist : option Z;
  jt_blacklist_at : option Z;
  jt_expired_at : option Z;
  jt_created_at : Z;
  jt_updated_at : Z;
  jt_session_id : option string;
  jt_token_kind : option string;
}.

Record TwoFactor := mkTwoFactor {
  tf_id : Z; tf_secret : string; tf_backup_codes : string; tf_user_id : Z;
}.

(** [password_reset_tokens] and [email_verification_tokens] have the same columns. *)
Record OneTimeToken := mkOneTime {
  ot_id : Z; ot_user_id : Z; ot_token_hash : string; ot_expires_at : Z;
  ot_used_at : option Z; ot_created_at : Z;
}.

Record PersonalAccessToken := mkPat {
  pt_id : Z; pt_user_id : Z; pt_name : string; pt_token_prefix : string; pt_token_hash : string;
  pt_expires_at : option Z; pt_last_used_at : option Z; pt_revoked_at : option Z;
  pt_created_at : Z;
}.

Record Organization := mkOrganization {
  or_id : Z; or_name : string; or_logo : option string; or_slug : string; or_owner_id : Z;
  or_created_at : Z; or_updated_at : Z;
}.

#[export] Instance JwtToken_schema : Schema JwtToken := {|
  row_id := jt_id;
  row_check t := bool_decide (jt_role t ∈ ["OWNER"; "ADMIN"; "MEMBER"]);
  row_conflict _ _ := false;
|}.
#[export] Instance TwoFactor_schema : Schema TwoFactor := {|
  row_id := tf_id;
  row_check _ := true;
  row_conflict a b := (tf_user_id a =? tf_user_id b)%Z;
|}.
#[export] Instance OneTimeToken_schema : Schema OneTimeToken := {|
  row_id := ot_id;
  row_check _ := true;
  row_conflict a b := bool_decide (ot_token_hash a = ot_token_hash b);
|}.
#[export] Instance PersonalAccessToken_schema : Schema PersonalAccessToken := {|
  row_id := pt_id;
  row_check _ := true;
  row_conflict a b := bool_decide (pt_token_hash a = pt_token_hash b);
|}.
#[export] Instance Organization_schema : Schema Organization := {|
  row_id := or_id;
  row_check _ := true;
  row_conflict a b := bool_decide (or_name a = or_name b) || bool_decide (or_slug a = or_slug b);
|}.

#[export] Instance JwtToken_laws : SchemaLaws JwtToken.
Proof. schema_laws. Qed.
#[export] Instance TwoFactor_laws : SchemaLaws TwoFactor.
Proof. schema_laws. Qed.
#[export] Instance OneTimeToken_laws : SchemaLaws OneTimeToken.
Proof. schema_laws. Qed.
#[export] Instance PersonalAccessToken_laws : SchemaLaws PersonalAccessToken.
Proof. schema_laws. Qed.
#[export] Instance Organization_laws : SchemaLaws Organization.
Proof. schema_laws. Qed.

(** ** The database *)

Record AuthDb := mkAuthDb {
  perm : PermDb;
  jwt_tokens : Table JwtToken;
  two_factor : Table TwoFactor;
  password_reset_tokens : Table OneTimeToken;
  email_verification_tokens : Table OneTimeToken;
  personal_access_tokens : Table PersonalAccessToken;
  organization : Table Organization;
}.

Definition with_perm p db := mkAuthDb p (jwt_tokens db) (two_factor db)
  (password_reset_tokens db) (email_verification_tokens db) (personal_access_tokens db)
  (organization db).
Definition with_jwt t db := mkAuthDb (perm db) t (two_factor db)
  (password_reset_tokens db) (email_verification_tokens db) (personal_access_tokens db)
  (organization db).
Definition with_two_factor t db := mkAuthDb (perm db) (jwt_tokens db) t
  (password_reset_tokens db) (email_verification_tokens db) (personal_access_tokens db)
  (organization db).
Definition with_resets t db := mkAuthDb (perm db) (jwt_tokens db) (two_factor db)
  t (email_verification_tokens db) (personal_access_tokens db) (organization db).
Definition with_verifications t db := mkAuthDb (perm db) (jwt_tokens db) (two_factor db)
  (password_reset_tokens db) t (personal_access_tokens db) (organization db).
Definition with_pats t db := mkAuthDb (perm db) (jwt_tokens db) (two_factor db)
  (password_reset_tokens db) (email_verification_tokens db) t (organization db).
Definition with_organization t db := mkAuthDb (perm db) (jwt_tokens db) (two_factor db)
  (password_reset_tokens db) (email_verification_tokens db) (personal_access_tokens db) t.

Definition of_user (id : Z) (u : User) : bool := (u_id u =? id)%Z.

(** ** [JwtTokenRepository] *)

Definition blacklisted (now : Z) (t : JwtToken) : JwtToken :=
  mkJwt (jt_id t) (jt_jti t) (jt_role t) (jt_user_id t) (Some 1%Z) (Some now) (jt_expired_at t)
    (jt_created_at t) now (jt_session_id t) (jt_token_kind t).

(** [is_blacklist = 0] *)
Definition not_blacklisted (t : JwtToken) : bool := bool_decide (jt_is_blacklist t = Some 0%Z).

Definition blacklist_where (p : JwtToken → bool) (now : Z) (db : AuthDb)
    : result (AuthDb * nat) SqlError :=
  let? (t, n) := sql_update no_fk p (blacklisted now) (jwt_tokens db) in Ok (with_jwt t db, n).

Definition blacklist_by_jti (jti : string) (now : Z) (db : AuthDb) : result (AuthDb * unit) SqlError :=
  let? (db', _) := blacklist_where (λ t, bool_decide (jt_jti t = jti)) now db in Ok (db', tt).

Definition blacklist_all_by_user (user_id now : Z) (db : AuthDb)
    : result (AuthDb * unit) SqlError :=
  let? (db', _) := blacklist_where (λ t, (jt_user_id t =? user_id)%Z && not_blacklisted t) now db in
  Ok (db', tt).

Definition revoke_session (user_id : Z) (session_id : string) (now : Z) (db : AuthDb)
    : result (AuthDb * bool) SqlError :=
  let? (db', n) := blacklist_where (λ t, (jt_user_id t =? user_id)%Z
      && bool_decide (jt_session_id t = Some session_id) && not_blacklisted t) now db in
  Ok (db', bool_decide (0 < n)).

Definition insert_token (jti role : string) (user_id expired_at : Z) (session_id kind : string)
    (now : Z) (db : AuthDb) : result (AuthDb * unit) SqlError :=
  let? (t, _) := sql_insert (λ r, user_exists (jt_user_id r) (perm db))
    (λ id, mkJwt id jti role user_id (Some 0%Z) None (Some expired_at) now now (Some session_id)
             (Some kind)) (jwt_tokens db) in
  Ok (with_jwt t db, tt).

Definition session_id_for_jti (jti : string) (db : AuthDb) : option string :=
  sql_first (λ t, bool_decide (jt_jti t = jti)) (jwt_tokens db) ≫= jt_session_id.

(** [expired_at > now]; a NULL is not greater *)
Definition expires_after (now : Z) (e : option Z) : bool :=
  match e with Some e => (now <? e)%Z | None => false end.

Definition token_is_active (now : Z) (t : JwtToken) : bool :=
  not_blacklisted t && expires_after now (jt_expired_at t).

Definition is_token_active (jti : string) (now : Z) (db : AuthDb) : bool :=
  sql_exists (λ t, bool_decide (jt_jti t = jti) && token_is_active now t) (jwt_tokens db).

Record AuthSessionRow := mkSessionRow {
  sr_session_id : string; sr_created_at : Z; sr_expires_at : option Z; sr_active : bool;
}.

(** [GROUP BY session_id] with the aggregates of the query; [MAX] ignores NULLs *)
Definition max_opt (a b : option Z) : option Z :=
  match a, b with Some x, Some y => Some (Z.max x y) | Some _, None => a | None, _ => b end.

Definition session_row (now : Z) (tokens : list JwtToken) (session : string) : AuthSessionRow :=
  let ts := List.filter (λ t, bool_decide (jt_session_id t = Some session)) tokens in
  mkSessionRow session
    (match ts with t :: ts' => fold_left Z.min (map jt_created_at ts') (jt_created_at t) | [] => 0 end)
    (fold_left max_opt (map jt_expired_at ts) None)
    (existsb (token_is_active now) ts).

Definition newest_session_first (a b : AuthSessionRow) : bool :=
  (sr_created_at b <=? sr_created_at a)%Z.

Definition list_sessions (user_id now : Z) (db : AuthDb) : list AuthSessionRow :=
  let tokens := sql_select (λ t, (jt_user_id t =? user_id)%Z) (jwt_tokens db) in
  take 100 (sql_order_by newest_session_first
    (map (session_row now tokens) (remove_dups (omap jt_session_id tokens)))).

(** ** [TwoFactorRepository] *)

Definition for_user (user_id : Z) (t : TwoFactor) : bool := (tf_user_id t =? user_id)%Z.

Definition two_factor_by_user (user_id : Z) (db : AuthDb) : option TwoFactor :=
  sql_first (for_user user_id) (two_factor db).

Definition set_tf_codes (codes : string) (t : TwoFactor) : TwoFactor :=
  mkTwoFactor (tf_id t) (tf_secret t) codes (tf_user_id t).

(** [INSERT ... ON CONFLICT(user_id) DO UPDATE] *)
Definition two_factor_upsert (secret codes : string) (user_id : Z) (db : AuthDb)
    : result (AuthDb * unit) SqlError :=
  if sql_exists (for_user user_id) (two_factor db) then
    let? (t, _) := sql_update no_fk (for_user user_id)
      (λ r, mkTwoFactor (tf_id r) secret codes (tf_user_id r)) (two_factor db) in
    Ok (with_two_factor t db, tt)
  else
    let? (t, _) := sql_insert (λ r, user_exists (tf_user_id r) (perm db))
      (λ id, mkTwoFactor id secret codes user_id) (two_factor db) in
    Ok (with_two_factor t db, tt).

Definition replace_recovery_codes (user_id : Z) (codes : string) (db : AuthDb)
    : result (AuthDb * unit) SqlError :=
  let? (t, _) := sql_update no_fk (for_user user_id) (set_tf_codes codes) (two_factor db) in
  Ok (with_two_factor t db, tt).

Definition two_factor_delete (user_id : Z) (db : AuthDb) : result (AuthDb * unit) SqlError :=
  Ok (with_two_factor (sql_delete (for_user user_id) (two_factor db)).1 db, tt).

(** [codes.remove(index)] of the first position where [p] holds *)
Fixpoint remove_first (x : string) (l : list string) : list string :=
  match l with
  | [] => []
  | y :: l' => if bool_decide (y = x) then l' else y :: remove_first x l'
  end.

(** The recovery codes are stored as a JSON array of their hashes; [of_json] answers [None]
    for a text that is not one. *)
Class CodesJson := {
  codes_to_json : list string → string;
  codes_of_json : string → option (list string);
}.
Class CodesJsonLaws `{CodesJson} := {
  codes_json_roundtrip : ∀ l, codes_of_json (codes_to_json l) = Some l;
}.

(** The update is conditional on the column still holding the text that was read. *)
Definition consume_recovery_code `{CodesJson} (user_id : Z) (backup_codes code_hash : string)
    (db : AuthDb) : result (AuthDb * bool) SqlError :=
  let codes := default [] (codes_of_json backup_codes) in
  if negb (bool_decide (code_hash ∈ codes)) then Ok (db, false) else
  let? (t, n) := sql_update no_fk
    (λ r, for_user user_id r && bool_decide (tf_backup_codes r = backup_codes))
    (set_tf_codes (codes_to_json (remove_first code_hash codes))) (two_factor db) in
  Ok (with_two_factor t db, bool_decide (n = 1)).

(** ** [UserRepository] *)

Definition update_users (p : User → bool) (f : User → User) (db : AuthDb)
    : result (AuthDb * unit) SqlError :=
  let? (t, _) := sql_update no_fk p f (users (perm db)) in
  Ok (with_perm (with_users t (perm db)) db, tt).

Definition set_two_factor_enable (v now : Z) (u : User) : User :=
  mkUser (u_id u) (u_email u) (u_last_name u) (u_first_name u) (u_avatar u) (u_role u)
    (u_about_me u) (u_password u) (u_is_email_verify u) (u_email_verify_at u) (Some v)
    (u_is_registered u) (u_added_by u) (u_group_id u) (u_created_at u) now.
Definition set_password (hash : string) (now : Z) (u : User) : User :=
  mkUser (u_id u) (u_email u) (u_last_name u) (u_first_name u) (u_avatar u) (u_role u)
    (u_about_me u) hash (u_is_email_verify u) (u_email_verify_at u) (u_two_factor_enable u)
    (u_is_registered u) (u_added_by u) (u_group_id u) (u_created_at u) now.
Definition set_email_verified (now : Z) (u : User) : User :=
  mkUser (u_id u) (u_email u) (u_last_name u) (u_first_name u) (u_avatar u) (u_role u)
    (u_about_me u) (u_password u) (Some 1%Z) (Some now) (u_two_factor_enable u)
    (u_is_registered u) (u_added_by u) (u_group_id u) (u_created_at u) now.

Definition set_two_factor_enabled (id : Z) (enabled : bool) (now : Z) (db : AuthDb)
    : result (AuthDb * unit) SqlError :=
  update_users (of_user id) (set_two_factor_enable (if enabled then 1 else 0) now) db.

(** Every column from [item]; the trigger sets [updated_at]. *)
Definition user_update (id : Z) (item : User) (now : Z) (db : AuthDb)
    : result (AuthDb * unit) SqlError :=
  let? (t, _) := sql_update
    (λ u, fk_opt (λ a, user_exists a (perm db)) (u_added_by u) && group_exists (u_group_id u) (perm db))
    (of_user id)
    (λ u, mkUser (u_id u) (u_email item) (u_last_name item) (u_first_name item) (u_avatar item)
            (u_role item) (u_about_me item) (u_password item) (u_is_email_verify item)
            (u_email_verify_at item) (u_two_factor_enable item) (u_is_registered item)
            (u_added_by item) (u_group_id item) (u_created_at item) now) (users (perm db)) in
  Ok (with_perm (with_users t (perm db)) db, tt).

(** The columns the statement leaves out have the defaults of the table. *)
Definition owner_row (email : string) (first_name last_name : option string)
    (avatar password : string) (group_id now id : Z) : User :=
  mkUser id (Some email) last_name first_name avatar (Some "OWNER") None password (Some 0%Z) None
    (Some 0%Z) 1 None group_id now now.

Definition create_owner_and_return (email : string) (first_name last_name : option string)
    (avatar password : string) (group_id now : Z) (db : AuthDb)
    : result (AuthDb * User) SqlError :=
  let? (t, id) := sql_insert (λ u, group_exists (u_group_id u) (perm db))
    (owner_row email first_name last_name avatar password group_id now) (users (perm db)) in
  Ok (with_perm (with_users t (perm db)) db,
      owner_row email first_name last_name avatar password group_id now id).

(** ** [OrganizationRepository::create_in_transaction] *)

Definition add_organization_id (id : Z) (p : PermDb) : PermDb :=
  mkPermDb (users p) (groups p) (policy p) (group_policy p) (organization_members p)
    (user_policy p) (resource_access p) (organization_invites p) (audit_logs p)
    (organizations p ++ [id]).

Definition organization_create (name : string) (logo : option string) (slug : string)
    (owner_id now : Z) (db : AuthDb) : result (AuthDb * Z) SqlError :=
  let? (t, id) := sql_insert (λ o, user_exists (or_owner_id o) (perm db))
    (λ id, mkOrganization id name logo slug owner_id now now) (organization db) in
  Ok (with_perm (add_organization_id id (perm db)) (with_organization t db), id).

(** ** One-time tokens *)

Definition set_used (now : Z) (t : OneTimeToken) : OneTimeToken :=
  mkOneTime (ot_id t) (ot_user_id t) (ot_token_hash t) (ot_expires_at t) (Some now) (ot_created_at t).

Definition unused (t : OneTimeToken) : bool := bool_decide (ot_used_at t = None).

Definition usable (hash : string) (now : Z) (t : OneTimeToken) : bool :=
  bool_decide (ot_token_hash t = hash) && unused t && (now <? ot_expires_at t)%Z.

(** The two statements of [issue], on either table *)
Definition issue_token (db : AuthDb) (user_id : Z) (hash : string) (expires_at now : Z)
    (t : Table OneTimeToken) : result (Table OneTimeToken) SqlError :=
  let? (t1, _) := sql_update no_fk (λ r, (ot_user_id r =? user_id)%Z && unused r) (set_used now) t in
  let? (t2, _) := sql_insert (λ r, user_exists (ot_user_id r) (perm db))
    (λ id, mkOneTime id user_id hash expires_at None now) t1 in
  Ok t2.

Definition reset_issue (user_id : Z) (hash : string) (expires_at now : Z) (db : AuthDb)
    : result (AuthDb * unit) SqlError :=
  let? t := issue_token db user_id hash expires_at now (password_reset_tokens db) in
  Ok (with_resets t db, tt).

Definition verification_issue (user_id : Z) (hash : string) (expires_at now : Z) (db : AuthDb)
    : result (AuthDb * unit) SqlError :=
  let? t := issue_token db user_id hash expires_at now (email_verification_tokens db) in
  Ok (with_verifications t db, tt).

(** [UPDATE ... WHERE usable RETURNING user_id] *)
Definition take_token (hash : string) (now : Z) (t : Table OneTimeToken)
    : result (Table OneTimeToken * option Z) SqlError :=
  let? (t', _) := sql_update no_fk (usable hash now) (set_used now) t in
  Ok (t', ot_user_id <$> sql_first (usable hash now) t).

Definition reset_complete (hash password_hash : string) (now : Z) (db : AuthDb)
    : result (AuthDb * bool) SqlError :=
  let? (t, owner) := take_token hash now (password_reset_tokens db) in
  match owner with
  | None => Ok (db, false)
  | Some user_id =>
      let? (db1, _) := update_users (of_user user_id) (set_password password_hash now)
                         (with_resets t db) in
      let? (db2, _) := blacklist_all_by_user user_id now db1 in
      Ok (db2, true)
  end.

Definition verification_complete (hash : string) (now : Z) (db : AuthDb)
    : result (AuthDb * bool) SqlError :=
  let? (t, owner) := take_token hash now (email_verification_tokens db) in
  match owner with
  | None => Ok (db, false)
  | Some user_id =>
      let? (db1, _) := update_users (of_user user_id) (set_email_verified now)
                         (with_verifications t db) in
      Ok (db1, true)
  end.

(** ** [PersonalAccessTokenRepository] *)

Definition pat_row (user_id : Z) (name prefix hash : string) (expires_at : option Z) (now id : Z)
    : PersonalAccessToken := mkPat id user_id name prefix hash expires_at None None now.

Definition pat_create (user_id : Z) (name prefix hash : string) (expires_at : option Z) (now : Z)
    (db : AuthDb) : result (AuthDb * PersonalAccessToken) SqlError :=
  let? (t, id) := sql_insert (λ r, user_exists (pt_user_id r) (perm db))
    (pat_row user_id name prefix hash expires_at now) (personal_access_tokens db) in
  Ok (with_pats t db, pat_row user_id name prefix hash expires_at now id).

Definition newest_pat_first (a b : PersonalAccessToken) : bool :=
  (pt_created_at b <=? pt_created_at a)%Z.

Definition pat_list (user_id : Z) (db : AuthDb) : list PersonalAccessToken :=
  sql_order_by newest_pat_first
    (sql_select (λ t, (pt_user_id t =? user_id)%Z) (personal_access_tokens db)).

Definition pat_valid (hash : string) (now : Z) (t : PersonalAccessToken) : bool :=
  bool_decide (pt_token_hash t = hash) && bool_decide (pt_revoked_at t = None)
  && match pt_expires_at t with None => true | Some e => (now <? e)%Z end.

Definition set_last_used (now : Z) (t : PersonalAccessToken) : PersonalAccessToken :=
  mkPat (pt_id t) (pt_user_id t) (pt_name t) (pt_token_prefix t) (pt_token_hash t)
    (pt_expires_at t) (Some now) (pt_revoked_at t) (pt_created_at t).
Definition set_revoked (now : Z) (t : PersonalAccessToken) : PersonalAccessToken :=
  mkPat (pt_id t) (pt_user_id t) (pt_name t) (pt_token_prefix t) (pt_token_hash t)
    (pt_expires_at t) (pt_last_used_at t) (Some now) (pt_created_at t).

Definition pat_authenticate (hash : string) (now : Z) (db : AuthDb)
    : result (AuthDb * option PersonalAccessToken) SqlError :=
  match sql_first (pat_valid hash now) (personal_access_tokens db) with
  | None => Ok (db, None)
  | Some token =>
      let? (t, _) := sql_update no_fk (λ r, (pt_id r =? pt_id token)%Z) (set_last_used now)
                       (personal_access_tokens db) in
      Ok (with_pats t db, Some token)
  end.

Definition pat_revoke (user_id id now : Z) (db : AuthDb) : result (AuthDb * bool) SqlError :=
  let? (t, n) := sql_update no_fk
    (λ r, (pt_id r =? id)%Z && (pt_user_id r =? user_id)%Z && bool_decide (pt_revoked_at r = None))
    (set_revoked now) (personal_access_tokens db) in
  Ok (with_pats t db, bool_decide (n = 1)).
