(* ===== verification/AuthService.v ===== *)
(** * Authentication

    [src/utils/jwt/service.rs] and [src/services/auth]: tokens, sign-up, login with a second
    factor, refresh, sessions, personal access tokens, password reset and email verification;
    and the [Claims] extractor of [src/core/middleware/authorization.rs].  The JSON Web Token
    library, TOTP, Argon2, SHA-256, the random generator and the mail configuration are
    parameters.  [refresh] is the composition of its reads and of its transaction, so that
    other calls can run between them. *)

From stdpp Require Import gmap strings list.
From Stdlib Require Import ZArith Lia Ascii.
From S2P Require Import Prelude RustStr RustText StringEnum Sql PermissionDb PermissionService AuthDb.

(** ** Claims and tokens ([utils/jwt]) *)

Record JwtSubject := mkSubject {
  js_user_id : Z;
  js_email : option string;
  js_first_name : option string;
  js_last_name : option string;
  js_avatar : string;
  js_role : option string;
  js_group_id : Z;
}.

Inductive TokenType := Access | Refresh.
#[export] Instance TokenType_eq_dec : EqDecision TokenType.
Proof. solve_decision. Defined.

Record Claims := mkClaims {
  c_sub : string;
  c_user : JwtSubject;
  c_jti : string;
  c_token_type : TokenType;
  c_iat : Z;
  c_exp : Z;
}.

Inductive TokenError := Expired | InvalidJwt | WrongType | EncodingFailed.

Record JwtConfig := mkJwtConfig {
  access_secret : string;
  refresh_secret : string;
  access_expiry_mins : Z;
  refresh_expiry_days : Z;
  debug_skip_time_check : bool;
}.

Record TokenPair := mkPair { access_token : string; refresh_token : string }.

(** [jsonwebtoken]: [decode] with the expiry checked or not.  It accepts what [encode] made
    with the same key until a minute of leeway has passed, and reports the expiry after. *)
Class JwtLib := {
  jwt_encode : string → Claims → option string;
  jwt_decode : string → bool → Z → string → result Claims TokenError;
}.
Definition in_time (now exp : Z) : bool := (now - 60 <=? exp)%Z.
Class JwtLaws `{JwtLib} := {
  jwt_decode_encode : ∀ key check now claims token,
    jwt_encode key claims = Some token →
    jwt_decode key check now token
    = if negb check || in_time now (c_exp claims) then Ok claims else Err Expired;
}.

(** [as usize] of an [i64] and back, on a 64-bit target *)
Definition as_usize (z : Z) : Z := z mod 2 ^ 64.
Definition as_i64 (z : Z) : Z := (z + 2 ^ 63) mod 2 ^ 64 - 2 ^ 63.

Section jwt.
Context `{JwtLib} (config : JwtConfig).

Definition secret_of (k : TokenType) : string :=
  match k with Access => access_secret config | Refresh => refresh_secret config end.

Definition expiry_of (k : TokenType) (now : Z) : Z :=
  match k with
  | Access => now + 60 * access_expiry_mins config
  | Refresh => now + 86400 * refresh_expiry_days config
  end.

Definition token_claims (now : Z) (jti : string) (subject : JwtSubject) (k : TokenType) : Claims :=
  mkClaims (i64_to_string (js_user_id subject)) subject jti k (as_usize now)
    (as_usize (expiry_of k now)).

(** [jti] is the version 4 UUID of the call. *)
Definition generate_token (now : Z) (jti : string) (subject : JwtSubject) (k : TokenType)
    : result string TokenError :=
  ok_or (jwt_encode (secret_of k) (token_claims now jti subject k)) EncodingFailed.

Definition generate_token_pair (now : Z) (jti1 jti2 : string) (subject : JwtSubject)
    : result TokenPair TokenError :=
  let? a := generate_token now jti1 subject Access in
  let? r := generate_token now jti2 subject Refresh in
  Ok (mkPair a r).

Definition validate (now : Z) (token : string) (expected : TokenType) : result Claims TokenError :=
  let? claims := match jwt_decode (secret_of expected) (negb (debug_skip_time_check config)) now token with
                 | Ok c => Ok c
                 | Err Expired => Err Expired
                 | Err _ => Err InvalidJwt
                 end in
  if decide (c_token_type claims = expected) then Ok claims else Err WrongType.

Definition jwt_validate_access (now : Z) (token : string) := validate now token Access.
Definition jwt_validate_refresh (now : Z) (token : string) := validate now token Refresh.
End jwt.

(** ** Errors and computations *)

Inductive AuthError :=
| InvalidCredentials
| InvalidToken
| TwoFactorRequired
| InvalidSecondFactor
| InvalidResetToken
| InvalidVerificationToken
| InvalidOperation (message : string)
| DatabaseError (e : SqlError)
| InternalAuth.

Definition A (X : Type) : Type := SE AuthDb AuthError X.

Definition db_err {X} (r : result X SqlError) : result X AuthError :=
  match r with Ok x => Ok x | Err e => Err (DatabaseError e) end.
Definition token_err {X} (r : result X TokenError) : result X AuthError :=
  match r with Ok x => Ok x | Err _ => Err InvalidToken end.

Definition get {X} (f : AuthDb → X) : A X := λ db, (db, Ok (f db)).
(** One statement, or a transaction: on an error nothing is written. *)
Definition run {X} (f : AuthDb → result (AuthDb * X) AuthError) : A X := λ db,
  match f db with Ok (db', x) => (db', Ok x) | Err e => (db, Err e) end.
Definition put {X} (f : AuthDb → result (AuthDb * X) SqlError) : A X := run (λ db, db_err (f db)).

Record Uuids := mkUuids { access_jti : string; refresh_jti : string; session_uuid : string }.

Record AuthResponse := mkResponse { ar_user : JwtSubject; ar_tokens : TokenPair }.

Definition subject_from_user (user : User) : JwtSubject :=
  mkSubject (u_id user) (u_email user) (u_first_name user) (u_last_name user)
    (if starts_with "data:" (u_avatar user) then "custom" else u_avatar user)
    (u_role user) (u_group_id user).

(** The code the service calls and the configuration of the process *)
Class AuthEnv := {
  jwt_config : JwtConfig;
  sha256 : string → list Z;
  hash_password : string → option string;         (* Argon2; [None] on a failure *)
  password_matches : string → string → bool;      (* password and encoded hash *)
  totp_accepts : string → string → Z → string → option bool; (* secret, account, time, code *)
  totp_url : string → string → option string;
  unicode_lowercase : string → string;
  email_for : Z → bool;                           (* a mail provider of the user *)
  resend_for : Z → bool;
  public_url : option string;
}.

Section service.
Context `{JwtLib} `{CodesJson} `{AuthEnv}.

Definition normalize_email (email : string) : string :=
  to_lowercase unicode_lowercase (trim email).

Definition hash_token (token : string) : string := hex (sha256 (trim token)).

Definition verify_password (password encoded : string) : A unit :=
  guard (negb (password_matches password encoded)) InvalidCredentials.

Definition get_user_by_id (id : Z) : A User :=
  do! o := get (λ db, user_get_by_id id (perm db)) in
  of_result (ok_or o (DatabaseError RowNotFound)).

Definition ensure_token_active (jti : string) (now : Z) : A unit :=
  do! active := get (is_token_active jti now) in guard (negb active) InvalidToken.

(** *** Issuing tokens *)

Definition store_claims (now : Z) (session_id kind : string) (claims : Claims) (db : AuthDb)
    : result (AuthDb * unit) AuthError :=
  db_err (insert_token (c_jti claims) (default "MEMBER" (js_role (c_user claims)))
            (js_user_id (c_user claims)) (as_i64 (c_exp claims)) session_id kind now db).

Definition store_token_pair (now : Z) (tokens : TokenPair) (session_id : string) (db : AuthDb)
    : result (AuthDb * unit) AuthError :=
  let? access := token_err (jwt_validate_access jwt_config now (access_token tokens)) in
  let? refresh := token_err (jwt_validate_refresh jwt_config now (refresh_token tokens)) in
  let? (db1, _) := store_claims now session_id "ACCESS" access db in
  store_claims now session_id "REFRESH" refresh db1.

Definition make_pair (now : Z) (ids : Uuids) (subject : JwtSubject) : result TokenPair AuthError :=
  token_err (generate_token_pair jwt_config now (access_jti ids) (refresh_jti ids) subject).

Definition issue_token_pair (now : Z) (ids : Uuids) (subject : JwtSubject) : A TokenPair :=
  do! tokens := of_result (make_pair now ids subject) in
  do! _ := run (store_token_pair now tokens (session_uuid ids)) in
  ret tokens.

(** *** Sign-up: one transaction after the password is hashed *)

Record SignupDto := mkSignup {
  su_email : string; su_password : string; su_first_name : option string;
  su_last_name : option string; su_avatar : option string;
}.

Definition signup_transaction (now : Z) (ids : Uuids) (input : SignupDto) (password : string)
    (db : AuthDb) : result (AuthDb * AuthResponse) AuthError :=
  let email := normalize_email (su_email input) in
  let? (p1, group_id) := db_err (create_owner_group_if_not_exists now (perm db)) in
  let? (db2, user) := db_err (create_owner_and_return email (su_first_name input)
      (su_last_name input) (default "" (su_avatar input)) password group_id now (with_perm p1 db)) in
  let first_name := default "Default" (u_first_name user) in
  let? (db3, org_id) := db_err (organization_create (first_name +:+ "'s Organization") None
      (to_lowercase unicode_lowercase first_name +:+ "-organization") (u_id user) now db2) in
  let? (p4, _) := db_err (insert_member
      (λ id, mkMember id (Some "ADMIN") (u_id user) org_id now now None) (perm db3)) in
  let subject := subject_from_user user in
  let? tokens := make_pair now ids subject in
  let? (db5, _) := store_token_pair now tokens (session_uuid ids) (with_perm p4 db3) in
  Ok (db5, mkResponse subject tokens).

Definition signup (now : Z) (ids : Uuids) (input : SignupDto) : A AuthResponse :=
  do! password := of_result (ok_or (hash_password (su_password input)) InternalAuth) in
  run (signup_transaction now ids input password).

Definition is_owner_present : A bool :=
  get (λ db, bool_decide (0 < length (rows (users (perm db))))).

(** *** The second factor *)

Definition RECOVERY_CODE_COUNT : nat := 10.

Definition ascii_uppercase_hex (bytes : list Z) : string := to_ascii_uppercase (hex bytes).

Definition slice (s : string) (a b : nat) : string := of_chars (take (b - a) (drop a (chars s))).

Definition recovery_code (bytes : list Z) : string :=
  let raw := ascii_uppercase_hex bytes in
  slice raw 0 5 +:+ "-" +:+ slice raw 5 10 +:+ "-" +:+ slice raw 10 15 +:+ "-" +:+ slice raw 15 20.

(** [draws] are the ten reads of the random generator. *)
Definition generate_recovery_codes (draws : nat → option (list Z)) : result (list string) AuthError :=
  foldr (λ i acc,
      let? bytes := ok_or (draws i) InternalAuth in
      let? rest := acc in
      Ok (recovery_code bytes :: rest)) (Ok []) (List.seq 0 RECOVERY_CODE_COUNT).

Definition hash_recovery_code (code : string) : string :=
  hex (sha256 (to_ascii_uppercase (of_chars (List.filter is_ascii_alphanumeric (chars code))))).

Definition encode_recovery_codes (codes : list string) : string :=
  codes_to_json (map hash_recovery_code codes).

Definition two_factor_on (user : User) : bool :=
  negb (default 0 (u_two_factor_enable user) =? 0)%Z.

Definition account_of (user : User) : string := default "user" (u_email user).

Definition check_totp (now : Z) (secret account code : string) : result bool AuthError :=
  ok_or (totp_accepts secret account now (trim code)) InternalAuth.

Definition verify_stored_second_factor (now : Z) (user : User) (setting : TwoFactor)
    (code recovery_code : string) : A unit :=
  do! by_code := (if str_is_empty (trim code) then ret false
                  else of_result (check_totp now (tf_secret setting) (account_of user) code)) in
  if by_code then ret tt else
  do! by_recovery := (if str_is_empty (trim recovery_code) then ret false
                      else put (consume_recovery_code (u_id user) (tf_backup_codes setting)
                                  (hash_recovery_code recovery_code))) in
  if by_recovery then ret tt else fail InvalidSecondFactor.

Definition verify_login_second_factor (now : Z) (user : User) (code recovery_code : option string)
    : A unit :=
  if negb (two_factor_on user) then ret tt else
  if negb (bool_decide (is_Some code)) && negb (bool_decide (is_Some recovery_code)) then
    fail TwoFactorRequired else
  do! o := get (two_factor_by_user (u_id user)) in
  do! setting := of_result (ok_or o InvalidSecondFactor) in
  verify_stored_second_factor now user setting (default "" code) (default "" recovery_code).

Definition two_factor_status (user_id : Z) : A (bool * bool) :=
  do! user := get_user_by_id user_id in
  do! o := get (two_factor_by_user user_id) in
  ret (two_factor_on user, bool_decide (is_Some o)).

(** [secret] is the generated one. *)
Definition setup_two_factor (user_id : Z) (password secret : string)
    (draws : nat → option (list Z)) : A (string * string * list string) :=
  do! user := get_user_by_id user_id in
  do! _ := verify_password password (u_password user) in
  do! _ := guard (two_factor_on user)
             (InvalidOperation "two-factor authentication is already enabled") in
  do! codes := of_result (generate_recovery_codes draws) in
  do! _ := put (two_factor_upsert secret (encode_recovery_codes codes) user_id) in
  do! url := of_result (ok_or (totp_url secret (account_of user)) InternalAuth) in
  ret (secret, url, codes).

Definition enable_two_factor (now user_id : Z) (code : string) : A unit :=
  do! user := get_user_by_id user_id in
  do! o := get (two_factor_by_user user_id) in
  do! setting := of_result (ok_or o (InvalidOperation "two-factor setup is not started")) in
  do! valid := of_result (check_totp now (tf_secret setting) (account_of user) code) in
  do! _ := guard (negb valid) InvalidSecondFactor in
  do! _ := put (set_two_factor_enabled user_id true now) in
  put (blacklist_all_by_user user_id now).

Definition disable_two_factor (now user_id : Z) (password code : string) : A unit :=
  do! user := get_user_by_id user_id in
  do! _ := verify_password password (u_password user) in
  do! o := get (two_factor_by_user user_id) in
  do! setting := of_result (ok_or o InvalidSecondFactor) in
  do! _ := verify_stored_second_factor now user setting code code in
  do! _ := put (two_factor_delete user_id) in
  do! _ := put (set_two_factor_enabled user_id false now) in
  put (blacklist_all_by_user user_id now).

Definition regenerate_recovery_codes (now user_id : Z) (password code : string)
    (draws : nat → option (list Z)) : A (list string) :=
  do! user := get_user_by_id user_id in
  do! _ := verify_password password (u_password user) in
  do! o := get (two_factor_by_user user_id) in
  do! setting := of_result (ok_or o InvalidSecondFactor) in
  do! _ := verify_stored_second_factor now user setting code code in
  do! codes := of_result (generate_recovery_codes draws) in
  do! _ := put (replace_recovery_codes user_id (encode_recovery_codes codes)) in
  ret codes.

(** *** Login and sessions *)

Record LoginDto := mkLogin {
  li_email : string; li_password : string;
  li_two_factor_code : option string; li_recovery_code : option string;
}.

Definition login (now : Z) (ids : Uuids) (input : LoginDto) : A AuthResponse :=
  do! o := get (λ db, user_get_by_email (normalize_email (li_email input)) (perm db)) in
  do! user := of_result (ok_or o InvalidCredentials) in
  do! _ := verify_password (li_password input) (u_password user) in
  do! _ := verify_login_second_factor now user (li_two_factor_code input) (li_recovery_code input) in
  let subject := subject_from_user user in
  do! tokens := issue_token_pair now ids subject in
  ret (mkResponse subject tokens).

(** What [refresh] has read and made before its transaction *)
Record RefreshPlan := mkPlan {
  rp_jti : string; rp_session : string; rp_subject : JwtSubject; rp_tokens : TokenPair;
}.

Definition refresh_plan (now : Z) (ids : Uuids) (token : string) : A RefreshPlan :=
  do! old := of_result (token_err (jwt_validate_refresh jwt_config now token)) in
  do! _ := ensure_token_active (c_jti old) now in
  do! session := get (session_id_for_jti (c_jti old)) in
  do! user := get_user_by_id (js_user_id (c_user old)) in
  let subject := subject_from_user user in
  do! tokens := of_result (make_pair now ids subject) in
  ret (mkPlan (c_jti old) (default (session_uuid ids) session) subject tokens).

Definition refresh_transaction (now : Z) (plan : RefreshPlan) (db : AuthDb)
    : result (AuthDb * unit) AuthError :=
  let? (db1, _) := db_err (blacklist_by_jti (rp_jti plan) now db) in
  store_token_pair now (rp_tokens plan) (rp_session plan) db1.

Definition refresh_commit (now : Z) (plan : RefreshPlan) : A AuthResponse :=
  do! _ := run (refresh_transaction now plan) in
  ret (mkResponse (rp_subject plan) (rp_tokens plan)).

Definition refresh (now : Z) (ids : Uuids) (token : string) : A AuthResponse :=
  do! plan := refresh_plan now ids token in refresh_commit now plan.

Definition logout_all (now user_id : Z) : A unit := put (blacklist_all_by_user user_id now).

Definition auth_list_sessions (now user_id : Z) (current_jti : string)
    : A (list (AuthSessionRow * bool)) :=
  do! current := get (session_id_for_jti current_jti) in
  do! sessions := get (list_sessions user_id now) in
  ret (map (λ r, (r, bool_decide (current = Some (sr_session_id r)))) sessions).

Definition auth_revoke_session (now user_id : Z) (session_id : string) : A bool :=
  put (revoke_session user_id session_id now).

Definition get_whoami (user_id : Z) : A JwtSubject :=
  do! o := get (λ db, user_get_by_id user_id (perm db)) in
  do! user := of_result (ok_or o InvalidToken) in
  ret (mkSubject (u_id user) (u_email user) (u_first_name user) (u_last_name user)
         (u_avatar user) (u_role user) (u_group_id user)).

(** *** Personal access tokens *)

(** [None] when the random generator fails *)
Definition generate_pat (bytes : option (list Z)) : result string AuthError :=
  let? bytes := ok_or bytes InternalAuth in Ok ("rp_" +:+ hex bytes).

Definition create_personal_access_token (now user_id : Z) (name password : string)
    (expires_at : option Z) (bytes : option (list Z)) : A (string * PersonalAccessToken) :=
  do! user := get_user_by_id user_id in
  do! _ := verify_password password (u_password user) in
  do! _ := guard (match expires_at with Some e => (e <=? now)%Z | None => false end)
             (InvalidOperation "personal access token expiry must be in the future") in
  do! token := of_result (generate_pat bytes) in
  do! row := put (pat_create user_id (trim name) (slice token 0 15) (hash_token token)
                    expires_at now) in
  ret (token, row).

Definition list_personal_access_tokens (user_id : Z) : A (list PersonalAccessToken) :=
  get (pat_list user_id).

Definition revoke_personal_access_token (now user_id id : Z) : A bool := put (pat_revoke user_id id now).

Definition validate_personal_access_token (now : Z) (token : string) : A Claims :=
  do! o := put (pat_authenticate (hash_token token) now) in
  do! row := of_result (ok_or o InvalidToken) in
  do! user := get_user_by_id (pt_user_id row) in
  ret (mkClaims (i64_to_string (pt_user_id row)) (subject_from_user user)
         ("pat:" +:+ i64_to_string (pt_id row)) Access
         (Z.max 0 (pt_created_at row)) (Z.max 0 (default i64_max (pt_expires_at row)))).

Definition validate_access_token (now : Z) (token : string) : A Claims :=
  if starts_with "rp_" token then validate_personal_access_token now token else
  do! claims := of_result (token_err (jwt_validate_access jwt_config now token)) in
  do! _ := ensure_token_active (c_jti claims) now in
  ret claims.

(** *** The [Claims] extractor *)

Fixpoint query_token (pairs : list string) : option string :=
  match pairs with
  | [] => None
  | kv :: rest =>
      match split_once "=" kv with
      | Some (key, value) => if bool_decide (key = "token") then Some value else query_token rest
      | None => query_token rest
      end
  end.

(** The status of the rejection, or the claims *)
Definition claims_from_request (now : Z) (bearer : option string) (query : option string)
    (db : AuthDb) : AuthDb * result Claims Z :=
  let token := match bearer with
               | Some t => Some t
               | None => query_token (split_on (is_char "&") (default "" query))
               end in
  match token with
  | None => (db, Err 401%Z)
  | Some token => match validate_access_token now token db with
                  | (db', Ok claims) => (db', Ok claims)
                  | (db', Err _) => (db', Err 401%Z)
                  end
  end.

(** *** Password reset and email verification *)

Definition send_link (path fallback subject : string) (body : string → string) (token : string)
    (user_id : Z) (email : string) : option (MailProvider * string * string * string) :=
  let action := match public_url with
                | Some base => trim_end_char "/" base +:+ path +:+ token
                | None => fallback +:+ token
                end in
  if email_for user_id then Some (Smtp, email, subject, body action)
  else if resend_for user_id then Some (Resend, email, subject, body action)
  else None.

Definition reset_body (action : string) : string :=
  "A password reset was requested for your account. Use this within 30 minutes:" +:+ newline
  +:+ newline +:+ action +:+ newline +:+ newline
  +:+ "If you did not request this, ignore this message.".

(** The mail that is sent, if any *)
Definition request_password_reset (now : Z) (email : string) (bytes : option (list Z))
    : A (option (MailProvider * string * string * string)) :=
  let email := normalize_email email in
  do! o := get (λ db, user_get_by_email email (perm db)) in
  match o with
  | None => ret None
  | Some user =>
      do! bytes := of_result (ok_or bytes InternalAuth) in
      let token := hex bytes in
      do! _ := put (reset_issue (u_id user) (hash_token token) (now + 30 * 60) now) in
      ret (send_link "/reset-password?token=" "Password reset token: "
             "Reset your OpenOxide password" reset_body token (u_id user) email)
  end.

Definition reset_password (now : Z) (token password : string) : A unit :=
  do! password_hash := of_result (ok_or (hash_password password) InternalAuth) in
  do! done := put (reset_complete (hash_token token) password_hash now) in
  guard (negb done) InvalidResetToken.

Definition verification_body (action : string) : string :=
  "Verify this email address within 24 hours:" +:+ newline +:+ newline +:+ action.

Definition email_verification_status (user_id : Z) : A (bool * option Z) :=
  do! user := get_user_by_id user_id in
  ret (negb (default 0 (u_is_email_verify user) =? 0)%Z, u_email_verify_at user).

Definition request_email_verification (now user_id : Z) (bytes : option (list Z))
    : A (option (MailProvider * string * string * string)) :=
  do! user := get_user_by_id user_id in
  if negb (default 0 (u_is_email_verify user) =? 0)%Z then ret None else
  do! email := of_result (ok_or (u_email user)
                 (InvalidOperation "account does not have an email address")) in
  do! bytes := of_result (ok_or bytes InternalAuth) in
  let token := hex bytes in
  do! _ := put (verification_issue user_id (hash_token token) (now + 24 * 60 * 60) now) in
  ret (send_link "/verify-email?token=" "Email verification token: "
         "Verify your OpenOxide email" verification_body token user_id email).

Definition verify_email (now : Z) (token : string) : A unit :=
  do! done := put (verification_complete (hash_token token) now) in
  guard (negb done) InvalidVerificationToken.

(** *** The profile *)

Record UpdateUserDto := mkUpdateUser {
  uu_email : option string; uu_password : option string; uu_first_name : option string;
  uu_last_name : option string; uu_avatar : option string;
}.

Definition nonblank (o : option string) : option string :=
  match o with Some s => if str_is_empty (trim s) then None else Some s | None => None end.

Definition update_user (now user_id : Z) (input : UpdateUserDto) : A JwtSubject :=
  do! o := get (λ db, user_get_by_id user_id (perm db)) in
  do! user := of_result (ok_or o InvalidCredentials) in
  do! password := match nonblank (uu_password input) with
                  | Some p => of_result (ok_or (hash_password p) InternalAuth)
                  | None => ret (u_password user)
                  end in
  let email := match nonblank (uu_email input) with
               | Some e => Some (normalize_email e)
               | None => u_email user
               end in
  let item := mkUser (u_id user) email
    (match uu_last_name input with Some v => Some v | None => u_last_name user end)
    (match uu_first_name input with Some v => Some v | None => u_first_name user end)
    (default (u_avatar user) (uu_avatar input)) (u_role user) (u_about_me user) password
    (u_is_email_verify user) (u_email_verify_at user) (u_two_factor_enable user)
    (u_is_registered user) (u_added_by user) (u_group_id user) (u_created_at user) now in
  do! _ := put (user_update user_id item now) in
  ret (subject_from_user item).
End service.

(** * A concrete environment

    Instances of the parameters of the authentication service that can be evaluated: a token is
    the key, the id and the time of issue, for the claims of two known users; a list of codes is
    written with each character marked; the digest of a text is its bytes.  They satisfy the
    laws the service relies on. *)

(** ** Tokens *)

#[export] Instance JwtSubject_eq_dec : EqDecision JwtSubject.
Proof. solve_decision. Defined.
#[export] Instance Claims_eq_dec : EqDecision Claims.
Proof. solve_decision. Defined.

Definition sample_config : JwtConfig := mkJwtConfig "access key" "refresh key" 15 7 false.

(** Ids that end in 7 are Mallory's; refresh tokens have ids that begin with r. *)
Definition known_subject (jti : string) : JwtSubject :=
  if ends_with "7" jti then mkSubject 2 (Some "mallory@example.com") (Some "Mallory") None "" (Some "OWNER") 1
  else mkSubject 1 (Some "ann@example.com") (Some "Ann") None "" (Some "OWNER") 1.

Definition plain_token (key : string) (claims : Claims) : string :=
  key +:+ "." +:+ c_jti claims +:+ "." +:+ i64_to_string (c_iat claims).

Definition read_token (token : string) : option (string * Claims) :=
  match split_once "." token with
  | Some (key, rest) =>
      match split_once "." rest with
      | Some (jti, time) =>
          match parse_i64 time with
          | Some iat => Some (key, token_claims sample_config iat jti (known_subject jti)
                                     (if starts_with "r" jti then Refresh else Access))
          | None => None
          end
      | None => None
      end
  | None => None
  end.

Definition plain_decode (key : string) (check : bool) (now : Z) (token : string) : result Claims TokenError :=
  match read_token token with
  | Some (k, claims) =>
      if bool_decide (k = key) then
        if negb check || in_time now (c_exp claims) then Ok claims else Err Expired
      else Err InvalidJwt
  | None => Err InvalidJwt
  end.

(** Encoding fails for other claims. *)
#[export] Instance plain_jwt : JwtLib := {|
  jwt_encode key claims :=
    let token := plain_token key claims in
    if bool_decide (read_token token = Some (key, claims)) then Some token else None;
  jwt_decode := plain_decode;
|}.
#[export] Instance plain_jwt_laws : JwtLaws.
Proof.
  split. intros key check now claims token. simpl. case_bool_decide as E; [|done].
  intros [= <-]. unfold plain_decode. by rewrite E, bool_decide_eq_true_2.
Qed.

(** ** Code lists *)

Definition write_code (s : string) : list ascii := concat (map (λ c, ["c"%char; c]) (chars s)) ++ ["e"%char].
Definition write_codes (l : list string) : string := of_chars (concat (map write_code l)).

Fixpoint read_marked (l cur : list ascii) : list string :=
  match l with
  | [] => []
  | m :: l' =>
      if is_char "e" m then of_chars (rev cur) :: read_marked l' []
      else match l' with c :: l'' => read_marked l'' (c :: cur) | [] => [] end
  end.

Lemma read_code s rest : ∀ cur,
  read_marked (concat (map (λ c, ["c"%char; c]) s) ++ "e"%char :: rest) cur
  = of_chars (rev cur ++ s) :: read_marked rest [].
Proof.
  induction s as [|c s IH]; intros cur; simpl; [by rewrite app_nil_r|].
  rewrite IH. simpl. by rewrite <- app_assoc.
Qed.

#[export] Instance plain_codes : CodesJson := {|
  codes_to_json := write_codes;
  codes_of_json s := Some (read_marked (chars s) []);
|}.
#[export] Instance plain_codes_laws : CodesJsonLaws.
Proof.
  split. intros l. simpl. f_equal. unfold write_codes. rewrite chars_of_chars.
  induction l as [|s l IH]; [done|]. simpl. unfold write_code at 1. rewrite <- app_assoc. simpl.
  rewrite read_code. simpl. by rewrite IH, of_chars_chars.
Qed.

#[export] Instance plain_env : AuthEnv := {|
  jwt_config := sample_config;
  sha256 s := map (λ c, Z.of_N (N_of_ascii c)) (chars s);
  hash_password p := Some ("hash of " +:+ p);
  password_matches p h := bool_decide (h = "hash of " +:+ p);
  totp_accepts secret _ _ code := Some (bool_decide (code = secret));
  totp_url secret account := Some ("otpauth://totp/" +:+ account +:+ "?secret=" +:+ secret);
  unicode_lowercase s := s;
  email_for _ := true;
  resend_for _ := false;
  public_url := Some "https://panel.example";
|}.

(** ** A new installation, and one where Ann has signed up *)

Definition empty_perm : PermDb :=
  mkPermDb empty_table empty_table empty_table empty_table empty_table empty_table empty_table empty_table
    empty_table [].
Definition empty_auth : AuthDb :=
  mkAuthDb empty_perm empty_table empty_table empty_table empty_table empty_table empty_table.

Definition uuids (n : string) : Uuids := mkUuids ("a" +:+ n) ("r" +:+ n) ("s" +:+ n).
Definition ann : SignupDto := mkSignup "Ann@Example.com " "secret" (Some "Ann") None None.
Definition start : Z := 1700000000.
Definition with_ann : AuthDb * result AuthResponse AuthError := signup start (uuids "1") ann empty_auth.
Definition ann_db : AuthDb := with_ann.1.
Definition pair_of (r : result AuthResponse AuthError) : TokenPair :=
  match r with Ok r => ar_tokens r | Err _ => mkPair "" "" end.
Definition ann_tokens : TokenPair := pair_of with_ann.2.
Definition subject_of (r : result AuthResponse AuthError) : JwtSubject :=
  match r with Ok r => ar_user r | Err _ => mkSubject 0 None None None "" None 0 end.

(** Evaluating a call: whether it returned, without writing out the state. *)
Definition returned {X} (r : result X AuthError) : bool := match r with Ok _ => true | Err _ => false end.
Definition value_of {X} (d : X) (r : result X AuthError) : X := match r with Ok x => x | Err _ => d end.
Lemma returned_ok {X} (m : A X) (d : X) db :
  returned (m db).2 = true → m db = ((m db).1, Ok (value_of d (m db).2)).
Proof. by destruct (m db) as [db' [x|e]]. Qed.
Lemma token_is {E} (r : result string E) (t : string) :
  match r with Ok x => bool_decide (x = t) | Err _ => false end = true → r = Ok t.
Proof. destruct r; [|done]. by intros ->%bool_decide_eq_true. Qed.
Lemma some_default {X} (o : option X) (d : X) : bool_decide (is_Some o) = true → o = Some (default d o).
Proof. intros [x ->]%bool_decide_eq_true. done. Qed.
Lemma said_true (r : result (AuthDb * bool) SqlError) (d : AuthDb) :
  match r with Ok (_, b) => b | Err _ => false end = true →
  r = Ok (match r with Ok (db, _) => db | Err _ => d end, true).
Proof. destruct r as [[db b]|]; [|done]. by intros ->. Qed.
