(* ===== verification/AuthProps.v ===== *)
(** * Sessions

    The abstract view of the token table is the list of live tokens.  Every call of the
    service refines an operation on that list: it issues a pair, revokes one token, one
    session or all the tokens of a user, or leaves the list alone; and a token is accepted
    exactly when it decodes and is live and unexpired.  From the refinement: revoked tokens
    stay revoked and a refresh token works once.  Then the second factor, the one-time tokens
    and the personal access tokens. *)

From stdpp Require Import gmap strings list.
From Stdlib Require Import ZArith Lia.
From S2P Require Import Prelude RustStr RustText StringEnum Sql PermissionDb PermissionService PermissionInv AuthDb AuthService.

(** ** The abstract store *)

Record Live := mkLive {
  lv_jti : string; lv_user : Z; lv_session : option string; lv_kind : option string;
  lv_expires : option Z;
}.

Inductive SessionEvent :=
| Issue (pair_ : list Live)
| RevokeJti (jti : string)
| RevokeUser (user_id : Z)
| RevokeSession (user_id : Z) (session : string).

Definition revokes (e : SessionEvent) (l : Live) : bool :=
  match e with
  | Issue _ => false
  | RevokeJti jti => bool_decide (lv_jti l = jti)
  | RevokeUser u => (lv_user l =? u)%Z
  | RevokeSession u s => (lv_user l =? u)%Z && bool_decide (lv_session l = Some s)
  end.

Definition spec_step (e : SessionEvent) (ls : list Live) : list Live :=
  List.filter (λ l, negb (revokes e l)) ls ++ match e with Issue new => new | _ => [] end.

Definition replay (es : list SessionEvent) (ls : list Live) : list Live :=
  fold_left (λ ls e, spec_step e ls) es ls.
Arguments replay : simpl never.

(** ** The abstraction function *)

Definition live_of (t : JwtToken) : option Live :=
  if not_blacklisted t then
    Some (mkLive (jt_jti t) (jt_user_id t) (jt_session_id t) (jt_token_kind t) (jt_expired_at t))
  else None.

Definition live (db : AuthDb) : list Live := omap live_of (rows (jwt_tokens db)).

Lemma live_elem db l : l ∈ live db ↔ ∃ t, t ∈ rows (jwt_tokens db) ∧ live_of t = Some l.
Proof. apply list_elem_of_omap. Qed.

(** Blacklisting the rows where [p] holds removes the live tokens where [q] does. *)
Lemma blacklist_live p q now db db' n :
  (∀ t l, live_of t = Some l → p t = q l) →
  blacklist_where p now db = Ok (db', n) → live db' = List.filter (λ l, negb (q l)) (live db).
Proof.
  intros Hpq. unfold blacklist_where. destruct (sql_update _ _ _ _) as [[t m]|] eqn:E; [|done].
  intros [= <- _]. apply sql_update_inv in E as (Hr & _ & _ & _). unfold live. simpl. rewrite Hr.
  clear Hr. induction (rows (jwt_tokens db)) as [|r l IH]; [done|].
  cbn [map]. rewrite !omap_cons, IH. unfold updated. destruct (live_of r) as [x|] eqn:Er.
  - rewrite (Hpq r x Er). destruct (q x) eqn:Eq; simpl; rewrite ?Er, Eq; done.
  - destruct (p r); simpl; by rewrite ?Er.
Qed.

Lemma spec_revoke e ls :
  match e with Issue _ => False | _ => True end →
  spec_step e ls = List.filter (λ l, negb (revokes e l)) ls.
Proof. unfold spec_step. destruct e; [done|..]; intros _; apply app_nil_r. Qed.

Lemma blacklist_by_jti_live jti now db db' x :
  blacklist_by_jti jti now db = Ok (db', x) → live db' = spec_step (RevokeJti jti) (live db).
Proof.
  unfold blacklist_by_jti. intros ([d n] & E & [= <- _])%let_ok. rewrite spec_revoke by done.
  eapply blacklist_live; [|exact E]. intros t l. unfold live_of. destruct (not_blacklisted t); [|done].
  by intros [= <-].
Qed.

Lemma blacklist_all_live u now db db' x :
  blacklist_all_by_user u now db = Ok (db', x) → live db' = spec_step (RevokeUser u) (live db).
Proof.
  unfold blacklist_all_by_user. intros ([d n] & E & [= <- _])%let_ok. rewrite spec_revoke by done.
  eapply blacklist_live; [|exact E]. intros t l. unfold live_of. destruct (not_blacklisted t) eqn:En; [|done].
  intros [= <-]. by rewrite andb_true_r.
Qed.

Lemma revoke_session_live u s now db db' x :
  revoke_session u s now db = Ok (db', x) → live db' = spec_step (RevokeSession u s) (live db).
Proof.
  unfold revoke_session. intros ([d n] & E & [= <- _])%let_ok. rewrite spec_revoke by done.
  eapply blacklist_live; [|exact E]. intros t l. unfold live_of. destruct (not_blacklisted t) eqn:En; [|done].
  intros [= <-]. by rewrite andb_true_r.
Qed.

Lemma insert_token_live jti role u e s k now db db' x :
  insert_token jti role u e s k now db = Ok (db', x) →
  live db' = live db ++ [mkLive jti u (Some s) (Some k) (Some e)].
Proof.
  unfold insert_token. intros ([t id] & E & [= <- _])%let_ok.
  apply sql_insert_inv in E as (_ & _ & Hr & _). unfold live. simpl. rewrite Hr, omap_app. done.
Qed.

(** ** Calls that leave the store alone *)

Section sessions.
Context `{JwtLaws} `{CodesJson} `{AuthEnv}.

Definition keeps_live {X} (m : A X) : Prop := ∀ db, live (m db).1 = live db.

Lemma bind_keeps {X Y} (m : A X) (k : X → A Y) :
  keeps_live m → (∀ x, keeps_live (k x)) → keeps_live (bind m k).
Proof.
  intros Hm Hk db. unfold bind. specialize (Hm db). destruct (m db) as [db1 [x|e]]; simpl in *; [|done].
  by rewrite Hk.
Qed.
Lemma ret_keeps {X} (x : X) : keeps_live (ret x).
Proof. done. Qed.
Lemma fail_keeps {X} e : keeps_live (@fail AuthDb AuthError X e).
Proof. done. Qed.
Lemma of_result_keeps {X} (r : result X AuthError) : keeps_live (of_result r).
Proof. done. Qed.
Lemma get_keeps {X} (f : AuthDb → X) : keeps_live (get f).
Proof. done. Qed.
Lemma guard_keeps c e : keeps_live (guard c e).
Proof. by destruct c. Qed.
Lemma if_keeps {X} (c : bool) (m1 m2 : A X) :
  keeps_live m1 → keeps_live m2 → keeps_live (if c then m1 else m2).
Proof. by destruct c. Qed.

(** A statement on another table. *)
Lemma put_keeps {X} (f : AuthDb → result (AuthDb * X) SqlError) :
  (∀ db db' x, f db = Ok (db', x) → jwt_tokens db' = jwt_tokens db) → keeps_live (put f).
Proof.
  intros Hf db. unfold put, run. destruct (f db) as [[db' x]|e] eqn:E; simpl; [|done].
  unfold live. by rewrite (Hf db db' x E).
Qed.

Ltac other_table :=
  apply put_keeps; intros ? ? ?;
  unfold consume_recovery_code, two_factor_upsert, replace_recovery_codes, two_factor_delete,
    set_two_factor_enabled, update_users, user_update, reset_issue, verification_issue,
    verification_complete, pat_create, pat_authenticate, pat_revoke;
  repeat case_match; intros HR; simplify_eq; try done;
  repeat (apply let_ok in HR as ([? ?] & ? & HR) || apply let_ok in HR as (? & ? & HR);
          repeat case_match; simplify_eq; try done).

Lemma second_factor_keeps now user setting code rc :
  keeps_live (verify_stored_second_factor now user setting code rc).
Proof.
  unfold verify_stored_second_factor.
  apply bind_keeps; [by destruct (str_is_empty _); [apply ret_keeps | apply of_result_keeps]|].
  intros []; [apply ret_keeps|]. apply bind_keeps.
  - destruct (str_is_empty _); [apply ret_keeps|]. other_table.
  - intros []; [apply ret_keeps | apply fail_keeps].
Qed.

Lemma verify_password_keeps p e : keeps_live (verify_password p e).
Proof. apply guard_keeps. Qed.
Lemma get_user_keeps id : keeps_live (get_user_by_id id).
Proof. apply bind_keeps; [apply get_keeps | intros; apply of_result_keeps]. Qed.

Lemma set_enabled_keeps u b now : keeps_live (put (set_two_factor_enabled u b now)).
Proof. other_table. Qed.
Lemma two_factor_delete_keeps u : keeps_live (put (two_factor_delete u)).
Proof. other_table. Qed.
Lemma two_factor_upsert_keeps s c u : keeps_live (put (two_factor_upsert s c u)).
Proof. other_table. Qed.
Lemma replace_codes_keeps u c : keeps_live (put (replace_recovery_codes u c)).
Proof. other_table. Qed.
Lemma user_update_keeps u i now : keeps_live (put (user_update u i now)).
Proof. other_table. Qed.
Lemma pat_create_keeps u n p h e now : keeps_live (put (pat_create u n p h e now)).
Proof. other_table. Qed.
Lemma pat_authenticate_keeps h now : keeps_live (put (pat_authenticate h now)).
Proof. other_table. Qed.
Lemma pat_revoke_keeps u i now : keeps_live (put (pat_revoke u i now)).
Proof. other_table. Qed.
Lemma reset_issue_keeps u h e now : keeps_live (put (reset_issue u h e now)).
Proof. other_table. Qed.
Lemma verification_issue_keeps u h e now : keeps_live (put (verification_issue u h e now)).
Proof. other_table. Qed.
Lemma verification_complete_keeps h now : keeps_live (put (verification_complete h now)).
Proof.
  apply put_keeps. intros db db' x. unfold verification_complete, update_users.
  intros ([t [u|]] & _ & K)%let_ok; [|by injection K as <- _].
  apply let_ok in K as ([db1 []] & K1 & K). injection K as <- _.
  by apply let_ok in K1 as ([t1 n] & _ & [= <-]).
Qed.

End sessions.

Ltac no_tokens :=
  repeat first
    [ apply get_user_keeps | apply verify_password_keeps | apply second_factor_keeps
    | apply set_enabled_keeps | apply two_factor_delete_keeps | apply two_factor_upsert_keeps
    | apply replace_codes_keeps | apply user_update_keeps | apply pat_create_keeps
    | apply pat_authenticate_keeps | apply pat_revoke_keeps | apply reset_issue_keeps
    | apply verification_issue_keeps | apply verification_complete_keeps
    | apply guard_keeps | apply of_result_keeps | apply get_keeps | apply ret_keeps
    | apply fail_keeps | apply if_keeps | apply bind_keeps; [|intros ?] | case_match ].

(** ** Calls that issue or revoke *)

Section performing.
Context `{JwtLaws} `{CodesJson} `{AuthEnv}.


(** [m] leaves the store alone when it fails, and performs [es x] when it returns [x]. *)
Definition performs {X} (m : A X) (es : X → list SessionEvent) : Prop :=
  ∀ db, match m db with
        | (db', Ok x) => live db' = replay (es x) (live db)
        | (db', Err _) => live db' = live db
        end.

Lemma keeps_performs {X} (m : A X) : keeps_live m → performs m (λ _, []).
Proof. intros Hm db. specialize (Hm db). by destruct (m db) as [db' [x|e]]. Qed.

Lemma bind_performs {X Y} (m : A X) (k : X → A Y) es :
  keeps_live m → (∀ x, performs (k x) es) → performs (bind m k) es.
Proof.
  intros Hm Hk db. unfold bind. specialize (Hm db). destruct (m db) as [db1 [x|e]]; simpl in *; [|done].
  specialize (Hk x db1). destruct (k x db1) as [db2 [y|e]]; by rewrite Hk, Hm.
Qed.

Lemma performs_ret {X Y} (m : A X) (g : X → Y) es es' :
  performs m es → (∀ x, es' (g x) = es x) → performs (do! x := m in ret (g x)) es'.
Proof.
  intros Hm He db. unfold bind. specialize (Hm db). destruct (m db) as [db1 [x|e]]; simpl; [|done].
  by rewrite He.
Qed.

Lemma if_performs {X} (c : bool) (m1 m2 : A X) es :
  performs m1 es → performs m2 es → performs (if c then m1 else m2) es.
Proof. by destruct c. Qed.

Lemma fail_performs {X} e (es : X → list SessionEvent) : performs (fail e) es.
Proof. done. Qed.

Lemma run_performs {X} (f : AuthDb → result (AuthDb * X) AuthError) es :
  (∀ db db' x, f db = Ok (db', x) → live db' = replay (es x) (live db)) → performs (run f) es.
Proof. intros Hf db. unfold run. destruct (f db) as [[db' x]|e] eqn:E; [eauto | done]. Qed.

Lemma put_performs {X} (f : AuthDb → result (AuthDb * X) SqlError) e :
  (∀ db db' x, f db = Ok (db', x) → live db' = spec_step e (live db)) → performs (put f) (λ _, [e]).
Proof.
  intros Hf. apply run_performs. intros db db' x. destruct (f db) as [[d y]|] eqn:E; [|done].
  intros [= -> ->]. simpl. eauto.
Qed.

(** *** The pair of a call *)

Definition token_expiry (k : TokenType) (now : Z) : Z := as_i64 (as_usize (expiry_of jwt_config k now)).

Definition issued_pair (now : Z) (ids : Uuids) (session : string) (user_id : Z) : list Live :=
  [mkLive (access_jti ids) user_id (Some session) (Some "ACCESS") (Some (token_expiry Access now));
   mkLive (refresh_jti ids) user_id (Some session) (Some "REFRESH") (Some (token_expiry Refresh now))].

(** What was generated is validated to the claims it was generated from. *)
Lemma validate_generated now now' jti subject k token :
  generate_token jwt_config now jti subject k = Ok token →
  validate jwt_config now' token k
  = if debug_skip_time_check jwt_config || in_time now' (as_usize (expiry_of jwt_config k now))
    then Ok (token_claims jwt_config now jti subject k) else Err Expired.
Proof.
  unfold generate_token, validate. destruct (jwt_encode _ _) as [t|] eqn:E; simpl; [|done].
  intros [= ->]. rewrite (jwt_decode_encode _ _ _ _ _ E), negb_involutive. simpl.
  destruct (_ || _); [|done]. cbn. by rewrite decide_True.
Qed.

Lemma make_pair_ok now ids subject pair_ :
  make_pair now ids subject = Ok pair_ →
  generate_token jwt_config now (access_jti ids) subject Access = Ok (access_token pair_)
  ∧ generate_token jwt_config now (refresh_jti ids) subject Refresh = Ok (refresh_token pair_).
Proof.
  unfold make_pair, generate_token_pair.
  destruct (generate_token _ _ _ _ Access) as [a|]; simpl; [|done].
  destruct (generate_token _ _ _ _ Refresh) as [r|]; simpl; [|done]. by intros [= <-].
Qed.

Lemma token_err_ok {X} (r : result X TokenError) x : token_err r = Ok x → r = Ok x.
Proof. by destruct r; intros [= ->]. Qed.
Lemma db_err_ok {X} (r : result X SqlError) x : db_err r = Ok x → r = Ok x.
Proof. by destruct r; intros [= ->]. Qed.

Lemma validate_generated_ok now now' jti subject k token claims :
  generate_token jwt_config now jti subject k = Ok token →
  token_err (validate jwt_config now' token k) = Ok claims →
  claims = token_claims jwt_config now jti subject k.
Proof.
  intros Hg Hv%token_err_ok. erewrite validate_generated in Hv by exact Hg.
  destruct (_ || _); [by injection Hv | done].
Qed.

Lemma store_token_pair_live now now' ids subject tokens session db db' x :
  make_pair now ids subject = Ok tokens → store_token_pair now' tokens session db = Ok (db', x) →
  live db' = live db ++ issued_pair now ids session (js_user_id subject).
Proof.
  intros (Ha & Hr)%make_pair_ok. unfold store_token_pair, jwt_validate_access, jwt_validate_refresh.
  intros (ca & Hca & (cr & Hcr & ([db1 []] & Hi1%db_err_ok & Hi2%db_err_ok)%let_ok)%let_ok)%let_ok.
  apply (validate_generated_ok _ _ _ _ _ _ _ Ha) in Hca as ->.
  apply (validate_generated_ok _ _ _ _ _ _ _ Hr) in Hcr as ->.
  apply insert_token_live in Hi1, Hi2. rewrite Hi2, Hi1, <- app_assoc. done.
Qed.

Lemma replay_issue new ls : replay [Issue new] ls = ls ++ new.
Proof.
  unfold replay, spec_step. simpl. f_equal. induction ls as [|l ls IH]; [done|]. simpl. by rewrite IH.
Qed.

Lemma issue_performs now ids subject :
  performs (issue_token_pair now ids subject)
    (λ _, [Issue (issued_pair now ids (session_uuid ids) (js_user_id subject))]).
Proof.
  intros db. unfold issue_token_pair, bind, of_result.
  destruct (make_pair _ _ _) as [tokens|] eqn:Em; [|done]. unfold run.
  destruct (store_token_pair _ _ _ _) as [[db1 []]|] eqn:Es; simpl; [|done].
  rewrite replay_issue. eapply store_token_pair_live; [exact Em | exact Es].
Qed.

Lemma login_second_factor_keeps now user code rc :
  keeps_live (verify_login_second_factor now user code rc).
Proof. unfold verify_login_second_factor. no_tokens. Qed.

Lemma login_performs now ids input :
  performs (login now ids input)
    (λ r, [Issue (issued_pair now ids (session_uuid ids) (js_user_id (ar_user r)))]).
Proof.
  unfold login. do 2 (apply bind_performs; [by no_tokens | intros ?]).
  apply bind_performs; [by no_tokens | intros []].
  apply bind_performs; [apply login_second_factor_keeps | intros []].
  eapply performs_ret; [apply issue_performs | done].
Qed.

Lemma insert_member_perm mk p p' x : insert_member mk p = Ok (p', x) → users p' = users p.
Proof. unfold insert_member. by intros ([t id] & _ & [= <- _])%let_ok. Qed.

Lemma signup_transaction_live now ids input password db db' r :
  signup_transaction now ids input password db = Ok (db', r) →
  live db' = replay [Issue (issued_pair now ids (session_uuid ids) (js_user_id (ar_user r)))] (live db).
Proof.
  unfold signup_transaction, create_owner_and_return, organization_create.
  intros ([p1 g] & _ & K)%let_ok.
  apply let_ok in K as ([db2 user] & K2%db_err_ok & K).
  apply let_ok in K2 as ([t2 id2] & _ & K2). injection K2 as <- <-.
  apply let_ok in K as ([db3 org] & K3%db_err_ok & K).
  apply let_ok in K3 as ([t3 id3] & _ & K3). injection K3 as <- <-.
  apply let_ok in K as ([p4 m] & _ & K). apply let_ok in K as (tokens & Ht & K).
  apply let_ok in K as ([db5 []] & Hs & K). injection K as <- <-.
  rewrite replay_issue. by apply (store_token_pair_live _ _ _ _ _ _ _ _ _ Ht) in Hs.
Qed.

Lemma signup_performs now ids input :
  performs (signup now ids input)
    (λ r, [Issue (issued_pair now ids (session_uuid ids) (js_user_id (ar_user r)))]).
Proof.
  apply bind_performs; [apply of_result_keeps|]. intros password. apply run_performs.
  intros db db' r. apply signup_transaction_live.
Qed.

Lemma logout_performs now u : performs (logout_all now u) (λ _, [RevokeUser u]).
Proof. apply put_performs. intros db db' x. apply blacklist_all_live. Qed.

Lemma revoke_session_performs now u s : performs (auth_revoke_session now u s) (λ _, [RevokeSession u s]).
Proof. apply put_performs. intros db db' x. apply revoke_session_live. Qed.

End performing.
