(* ===== verification/AuthHistory.v ===== *)
(** * Histories of the authentication service

    The calls of the service as data, what each does to the abstract store of live tokens, and
    the refinement over any sequence of calls.  From it: a refresh token works once, and a
    token that was revoked is refused for ever. *)

From stdpp Require Import gmap strings list.
From Stdlib Require Import ZArith Lia.
From S2P Require Import Prelude RustStr RustText StringEnum Sql PermissionDb PermissionService PermissionInv AuthDb AuthService AuthProps.

Inductive AuthCall :=
| Signup (ids : Uuids) (input : SignupDto)
| Login (ids : Uuids) (input : LoginDto)
| RefreshTokens (ids : Uuids) (token : string)
| LogoutAll (user_id : Z)
| RevokeOneSession (user_id : Z) (session_id : string)
| SetupTwoFactor (user_id : Z) (password secret : string) (draws : nat → option (list Z))
| EnableTwoFactor (user_id : Z) (code : string)
| DisableTwoFactor (user_id : Z) (password code : string)
| RegenerateCodes (user_id : Z) (password code : string) (draws : nat → option (list Z))
| CreatePat (user_id : Z) (name password : string) (expires_at : option Z) (bytes : option (list Z))
| RevokePat (user_id id : Z)
| Authenticate (token : string)
| RequestReset (email : string) (bytes : option (list Z))
| ResetPassword (token password : string)
| RequestVerification (user_id : Z) (bytes : option (list Z))
| VerifyEmail (token : string)
| UpdateUser (user_id : Z) (input : UpdateUserDto).

(** The version 4 UUIDs a call draws for token ids *)
Definition call_jtis (c : AuthCall) : list string :=
  match c with
  | Signup ids _ | Login ids _ | RefreshTokens ids _ => [access_jti ids; refresh_jti ids]
  | _ => []
  end.

Section history.
Context `{JwtLaws} `{CodesJson} `{AuthEnv}.

Definition tokens_of (m : A AuthResponse) : A (option AuthResponse) := do! r := m in ret (Some r).
Definition void {X} (m : A X) : A (option AuthResponse) := do! _ := m in ret None.

Definition run_call (now : Z) (c : AuthCall) : A (option AuthResponse) :=
  match c with
  | Signup ids input => tokens_of (signup now ids input)
  | Login ids input => tokens_of (login now ids input)
  | RefreshTokens ids token => tokens_of (refresh now ids token)
  | LogoutAll u => void (logout_all now u)
  | RevokeOneSession u s => void (auth_revoke_session now u s)
  | SetupTwoFactor u p s d => void (setup_two_factor u p s d)
  | EnableTwoFactor u code => void (enable_two_factor now u code)
  | DisableTwoFactor u p code => void (disable_two_factor now u p code)
  | RegenerateCodes u p code d => void (regenerate_recovery_codes now u p code d)
  | CreatePat u name p e b => void (create_personal_access_token now u name p e b)
  | RevokePat u id => void (revoke_personal_access_token now u id)
  | Authenticate token => void (validate_access_token now token)
  | RequestReset email b => void (request_password_reset now email b)
  | ResetPassword token p => void (reset_password now token p)
  | RequestVerification u b => void (request_email_verification now u b)
  | VerifyEmail token => void (verify_email now token)
  | UpdateUser u input => void (update_user now u input)
  end.

(** The user a reset token belongs to *)
Definition reset_owner (now : Z) (token : string) (db : AuthDb) : option Z :=
  ot_user_id <$> sql_first (usable (hash_token token) now) (password_reset_tokens db).

(** What a call that returned [r] in [db] means for the live tokens *)
Definition call_events (now : Z) (c : AuthCall) (db : AuthDb) (r : option AuthResponse)
    : list SessionEvent :=
  match c, r with
  | Signup ids _, Some r | Login ids _, Some r =>
      [Issue (issued_pair now ids (session_uuid ids) (js_user_id (ar_user r)))]
  | RefreshTokens ids token, Some r =>
      match jwt_validate_refresh jwt_config now token with
      | Ok old => [RevokeJti (c_jti old);
                   Issue (issued_pair now ids
                            (default (session_uuid ids) (session_id_for_jti (c_jti old) db))
                            (js_user_id (c_user old)))]
      | Err _ => []
      end
  | LogoutAll u, _ | EnableTwoFactor u _, _ | DisableTwoFactor u _ _, _ => [RevokeUser u]
  | RevokeOneSession u s, _ => [RevokeSession u s]
  | ResetPassword token _, _ =>
      match reset_owner now token db with Some u => [RevokeUser u] | None => [] end
  | _, _ => []
  end.

(** A history: the calls with their times, and what they meant. *)
Fixpoint run_history (h : list (Z * AuthCall)) (db : AuthDb) : AuthDb * list SessionEvent :=
  match h with
  | [] => (db, [])
  | (now, c) :: h' =>
      let '(db1, r) := run_call now c db in
      let es := match r with Ok r => call_events now c db r | Err _ => [] end in
      let '(db2, es') := run_history h' db1 in
      (db2, es ++ es')
  end.

(** ** Each call refines its events *)

Definition refines_at (db : AuthDb) (c : AuthCall) (now : Z) : Prop :=
  match run_call now c db with
  | (db', Ok r) => live db' = replay (call_events now c db r) (live db)
  | (db', Err _) => live db' = live db
  end.

Lemma void_performs {X} (m : A X) es : performs m (λ _, es) → performs (void m) (λ _, es).
Proof. intros Hm. by eapply performs_ret. Qed.

Lemma user_by_id_id u p user : user_get_by_id u p = Some user → u_id user = u.
Proof. intros [_ Hu]%sql_first_Some. by bsimp. Qed.

Lemma refresh_plan_ok now ids token db db' plan :
  refresh_plan now ids token db = (db', Ok plan) →
  ∃ old, jwt_validate_refresh jwt_config now token = Ok old ∧ db' = db
    ∧ is_token_active (c_jti old) now db = true ∧ rp_jti plan = c_jti old
    ∧ rp_session plan = default (session_uuid ids) (session_id_for_jti (c_jti old) db)
    ∧ js_user_id (rp_subject plan) = js_user_id (c_user old)
    ∧ make_pair now ids (rp_subject plan) = Ok (rp_tokens plan).
Proof.
  unfold refresh_plan. intros (d & old & [= <- K%token_err_ok] & R)%bind_ok.
  apply bind_ok in R as (d & [] & K2 & R). unfold ensure_token_active, bind, get in K2.
  destruct (is_token_active _ _ _) eqn:Ea; [|done]. injection K2 as <-.
  apply bind_ok in R as (d & s & [= <- <-] & R).
  apply bind_ok in R as (d & user & K3 & R). unfold get_user_by_id, bind, get in K3.
  destruct (user_get_by_id _ _) as [u|] eqn:Eu; [|done]. injection K3 as <- <-.
  apply bind_ok in R as (d & tokens & [= <- K4] & R). injection R as <- <-.
  exists old. simpl. apply user_by_id_id in Eu. by rewrite Eu.
Qed.

Lemma refresh_commit_live now plan ids db db' r :
  make_pair now ids (rp_subject plan) = Ok (rp_tokens plan) →
  refresh_commit now plan db = (db', Ok r) →
  live db' = replay [RevokeJti (rp_jti plan);
                     Issue (issued_pair now ids (rp_session plan) (js_user_id (rp_subject plan)))]
               (live db)
  ∧ r = mkResponse (rp_subject plan) (rp_tokens plan).
Proof.
  intros Hm. unfold refresh_commit. intros (d & [] & K & [= <- <-])%bind_ok. split; [|done].
  unfold run in K. destruct (refresh_transaction _ _ _) as [[d1 []]|] eqn:E; [|done].
  injection K as <-. unfold refresh_transaction in E.
  apply let_ok in E as ([d2 []] & E1%db_err_ok & E2).
  apply (store_token_pair_live _ _ _ _ _ _ _ _ _ Hm) in E2. apply blacklist_by_jti_live in E1.
  rewrite E2, E1. unfold replay. simpl. symmetry. apply (replay_issue _ _).
Qed.

Lemma refresh_commit_err now plan db db' e :
  refresh_commit now plan db = (db', Err e) → db' = db.
Proof.
  unfold refresh_commit, bind, run. destruct (refresh_transaction _ _ _) as [[d []]|]; [done|].
  by intros [= <- _].
Qed.

Lemma refresh_plan_reads now ids token : reads (refresh_plan now ids token).
Proof.
  unfold refresh_plan, ensure_token_active, get_user_by_id. repeat (apply bind_reads; [|intros ?]);
    auto with oxide; done.
Qed.

Lemma refresh_refines db ids token now : refines_at db (RefreshTokens ids token) now.
Proof.
  unfold refines_at, run_call, tokens_of, refresh, bind.
  pose proof (refresh_plan_reads now ids token db) as Hr.
  destruct (refresh_plan now ids token db) as [d [plan|e]] eqn:Ep; simpl in Hr; subst d; [|done].
  pose proof (refresh_plan_ok _ _ _ _ _ _ Ep) as (old & Hv & _ & _ & Hj & Hs & Hu & Hm).
  destruct (refresh_commit now plan db) as [d [r|e]] eqn:Ec.
  - apply (refresh_commit_live _ _ _ _ _ _ Hm) in Ec as (El & ->). simpl.
    by rewrite El, Hv, Hj, Hs, Hu.
  - by apply refresh_commit_err in Ec as ->.
Qed.

Lemma reset_complete_live hash p now db db' b :
  reset_complete hash p now db = Ok (db', b) →
  live db' = match sql_first (usable hash now) (password_reset_tokens db) with
             | Some t => replay [RevokeUser (ot_user_id t)] (live db)
             | None => live db
             end ∧ b = bool_decide (is_Some (sql_first (usable hash now) (password_reset_tokens db))).
Proof.
  unfold reset_complete, take_token. intros ([t o] & K1 & K)%let_ok.
  apply let_ok in K1 as ([t' n] & _ & K1). injection K1 as <- <-.
  destruct (sql_first _ _) as [tok|]; simpl in K; [|by injection K as <- <-].
  apply let_ok in K as ([d1 []] & K1 & K). apply let_ok in K as ([d2 []] & K2 & [= <- <-]).
  apply blacklist_all_live in K2. rewrite K2. split; [|done]. unfold update_users in K1.
  by apply let_ok in K1 as ([t1 m] & _ & [= <-]).
Qed.

Lemma reset_refines db token p now : refines_at db (ResetPassword token p) now.
Proof.
  unfold refines_at, run_call, void, reset_password, bind, of_result.
  destruct (ok_or _ _) as [hash|]; [|done]. unfold put, run.
  destruct (reset_complete _ _ _ _) as [[d b]|] eqn:E; [|done]. simpl.
  apply reset_complete_live in E as (El & ->). unfold reset_owner.
  destruct (sql_first _ _); simpl in *; by rewrite El.
Qed.

Lemma enable_performs now u code : performs (enable_two_factor now u code) (λ _, [RevokeUser u]).
Proof.
  unfold enable_two_factor. do 6 (apply bind_performs; [by no_tokens | intros ?]).
  apply logout_performs.
Qed.

Lemma disable_performs now u p code : performs (disable_two_factor now u p code) (λ _, [RevokeUser u]).
Proof.
  unfold disable_two_factor. do 7 (apply bind_performs; [by no_tokens | intros ?]).
  apply logout_performs.
Qed.

Lemma tokens_performs m es : performs m (λ r, es (Some r)) → performs (tokens_of m) es.
Proof. intros Hm. by eapply performs_ret. Qed.

Ltac leaves_tokens :=
  apply (void_performs _ []), keeps_performs;
  unfold setup_two_factor, regenerate_recovery_codes, create_personal_access_token,
    revoke_personal_access_token, validate_access_token, validate_personal_access_token,
    ensure_token_active, request_password_reset, request_email_verification, verify_email, update_user;
  cbn zeta; no_tokens.

Lemma call_performs now c db :
  match c with RefreshTokens _ _ | ResetPassword _ _ => True | _ =>
    performs (run_call now c) (call_events now c db) end.
Proof.
  destruct c; try done; simpl run_call.
  - apply tokens_performs, signup_performs.
  - apply tokens_performs, login_performs.
  - apply void_performs, logout_performs.
  - apply void_performs, revoke_session_performs.
  - leaves_tokens.
  - apply void_performs, enable_performs.
  - apply void_performs, disable_performs.
  - leaves_tokens.
  - leaves_tokens.
  - leaves_tokens.
  - leaves_tokens.
  - leaves_tokens.
  - leaves_tokens.
  - leaves_tokens.
  - leaves_tokens.
Qed.

Lemma call_refines db now c : refines_at db c now.
Proof.
  pose proof (call_performs now c db) as K.
  destruct c; try (exact (K db)); [apply refresh_refines | apply reset_refines].
Qed.

Lemma replay_app es es' ls : replay (es ++ es') ls = replay es' (replay es ls).
Proof. apply fold_left_app. Qed.

Lemma history_live h : ∀ db, live (run_history h db).1 = replay (run_history h db).2 (live db).
Proof.
  induction h as [|[now c] h IH]; intros db; [done|]. simpl.
  pose proof (call_refines db now c) as K. unfold refines_at in K.
  destruct (run_call now c db) as [db1 r]. specialize (IH db1).
  destruct (run_history h db1) as [db2 es]. simpl in *.
  rewrite replay_app, IH. destruct r; by rewrite K.
Qed.

(** ** Acceptance *)

(** The store's view of a request: a live token of that id that has not expired. *)
Definition accepted_by (now : Z) (jti : string) (ls : list Live) : bool :=
  existsb (λ l, bool_decide (lv_jti l = jti) && expires_after now (lv_expires l)) ls.

Lemma is_token_active_live jti now db : is_token_active jti now db = accepted_by now jti (live db).
Proof.
  unfold is_token_active, sql_exists, accepted_by, live, live_of, token_is_active.
  induction (rows (jwt_tokens db)) as [|t l IH]; [done|]. simpl. rewrite IH.
  destruct (not_blacklisted t); simpl; [done|]. by rewrite andb_false_r.
Qed.

Definition spec_access (now : Z) (token : string) (ls : list Live) : result Claims AuthError :=
  let? claims := token_err (jwt_validate_access jwt_config now token) in
  if accepted_by now (c_jti claims) ls then Ok claims else Err InvalidToken.

Lemma validate_access_live now token db :
  starts_with "rp_" token = false →
  validate_access_token now token db = (db, spec_access now token (live db)).
Proof.
  intros Hp. unfold validate_access_token, spec_access. rewrite Hp.
  unfold bind, of_result, ensure_token_active, get, bind. destruct (token_err _) as [c|]; [|done].
  simpl. rewrite is_token_active_live. by destruct (accepted_by _ _ _).
Qed.

(** C4: Over every history of calls of the authentication service, failing ones included, the
    token table refines the abstract list of live tokens: after the history the live tokens are
    those of replaying what each call issued and revoked, and an access token is accepted
    exactly when it decodes and its id is live and unexpired in that list. *)
Theorem sessions_refine h db now token :
  starts_with "rp_" token = false →
  let '(db', es) := run_history h db in
  live db' = replay es (live db)
  ∧ validate_access_token now token db' = (db', spec_access now token (replay es (live db))).
Proof.
  intros Hp. pose proof (history_live h db) as Hl. destruct (run_history h db) as [db' es].
  simpl in Hl. split; [done|]. rewrite <- Hl. by apply validate_access_live.
Qed.

(** ** Revocation is final *)

Definition absent (jti : string) (ls : list Live) : Prop := ∀ l, l ∈ ls → lv_jti l ≠ jti.

Definition issues_none (jti : string) (es : list SessionEvent) : Prop :=
  ∀ new, Issue new ∈ es → absent jti new.

Lemma spec_step_absent jti e ls :
  absent jti ls → issues_none jti [e] → absent jti (spec_step e ls).
Proof.
  intros Ha He l [[Hl _]%elem_of_filterb|Hl]%elem_of_app; [by apply Ha|].
  destruct e as [new|?|?|?]; [|by apply elem_of_nil in Hl..].
  apply (He new); [constructor | done].
Qed.

Lemma replay_absent jti es : ∀ ls, absent jti ls → issues_none jti es → absent jti (replay es ls).
Proof.
  induction es as [|e es IH]; intros ls Ha He; [done|].
  apply IH; [apply spec_step_absent; [done|]|].
  - intros new Hn. apply He. apply list_elem_of_singleton in Hn as <-. constructor.
  - intros new Hn. apply He. by constructor.
Qed.

Lemma issued_absent jti now ids s u :
  jti ∉ [access_jti ids; refresh_jti ids] → absent jti (issued_pair now ids s u).
Proof.
  intros Hn l Hl <-. apply Hn. unfold issued_pair in Hl.
  apply elem_of_cons in Hl as [->|Hl]; [constructor|].
  apply list_elem_of_singleton in Hl as ->. constructor. constructor.
Qed.

(** A call issues tokens under the UUIDs it draws only. *)
Lemma call_events_issue jti now c db r :
  jti ∉ call_jtis c → issues_none jti (call_events now c db r).
Proof.
  intros Hj new Hn.
  assert (∃ s u ids, new = issued_pair now ids s u ∧ call_jtis c = [access_jti ids; refresh_jti ids])
    as (s & u & ids & -> & Hc).
  { destruct c; simpl in Hn; repeat case_match; rewrite ?elem_of_cons in Hn;
      destruct_or?; try (by apply elem_of_nil in Hn); simplify_eq; eauto. }
  apply issued_absent. by rewrite <- Hc.
Qed.

Definition history_jtis (h : list (Z * AuthCall)) : list string := concat (map (λ c, call_jtis c.2) h).

Lemma history_issues jti h : ∀ db,
  jti ∉ history_jtis h → issues_none jti (run_history h db).2.
Proof.
  induction h as [|[now c] h IH]; intros db Hj new; simpl; [by intros ?%elem_of_nil|].
  unfold history_jtis in Hj. simpl in Hj. rewrite elem_of_app in Hj.
  destruct (run_call now c db) as [db1 r]. specialize (IH db1).
  destruct (run_history h db1) as [db2 es]. simpl in *. intros [Hn|Hn]%elem_of_app.
  - destruct r as [r|]; [|by apply elem_of_nil in Hn]. eapply call_events_issue; [|exact Hn]. auto.
  - apply IH; [|done]. auto.
Qed.

Lemma absent_forever jti h db :
  absent jti (live db) → jti ∉ history_jtis h → absent jti (live (run_history h db).1).
Proof. intros Ha Hj. rewrite history_live. apply replay_absent; [done|]. by apply history_issues. Qed.

Lemma absent_refused jti now ls : absent jti ls → accepted_by now jti ls = false.
Proof.
  intros Ha. apply existsb_false. intros l Hl. rewrite bool_decide_eq_false_2; [done|]. by apply Ha.
Qed.

Lemma refresh_inactive now ids token old db :
  (∀ c, jwt_validate_refresh jwt_config now token = Ok c → c_jti c = old) →
  absent old (live db) → refresh now ids token db = (db, Err InvalidToken).
Proof.
  intros Hv Ha. unfold refresh, refresh_plan, bind, of_result.
  destruct (jwt_validate_refresh _ _ _) as [c|]; simpl; [|done].
  unfold ensure_token_active, bind, get. rewrite (Hv c eq_refl), is_token_active_live.
  by rewrite absent_refused.
Qed.

Lemma refresh_revokes now ids token db db1 r old :
  jwt_validate_refresh jwt_config now token = Ok old →
  refresh now ids token db = (db1, Ok r) →
  c_jti old ∉ [access_jti ids; refresh_jti ids] → absent (c_jti old) (live db1).
Proof.
  intros Hv Hr Hn. pose proof (refresh_refines db ids token now) as K.
  unfold refines_at in K. simpl run_call in K. unfold tokens_of, bind in K. rewrite Hr in K.
  simpl in K. rewrite Hv in K. rewrite K. unfold replay. simpl.
  apply spec_step_absent.
  - intros l. unfold spec_step. rewrite app_nil_r, elem_of_filterb. simpl. intros [_ Hl] E.
    by rewrite bool_decide_eq_true_2 in Hl.
  - intros new Hin. apply list_elem_of_singleton in Hin as [= ->]. by apply issued_absent.
Qed.

Lemma generated_claims t0 jti subject k token now c :
  generate_token jwt_config t0 jti subject k = Ok token →
  validate jwt_config now token k = Ok c → c_jti c = jti.
Proof.
  intros Hg Hv. erewrite validate_generated in Hv by exact Hg.
  destruct (_ || _); [by injection Hv as <- | done].
Qed.

(** C7: Once a refresh token has been exchanged, the same token is refused as invalid after any
    further history of calls, provided no later call draws its id again. *)
Theorem refresh_single_use t0 jti subject token now ids db db1 r h later ids' :
  generate_token jwt_config t0 jti subject Refresh = Ok token →
  refresh now ids token db = (db1, Ok r) →
  jti ∉ access_jti ids :: refresh_jti ids :: history_jtis h →
  let db2 := (run_history h db1).1 in
  refresh later ids' token db2 = (db2, Err InvalidToken).
Proof.
  intros Hg Hr Hj. cbn zeta. rewrite !elem_of_cons in Hj.
  apply refresh_inactive with (old := jti).
  { intros c Hc. by eapply generated_claims. }
  apply absent_forever; [|tauto].
  pose proof Hr as Hok. unfold refresh in Hok. apply bind_ok in Hok as (d & plan & Hp & _).
  apply refresh_plan_ok in Hp as (old & Hv & _).
  pose proof (generated_claims _ _ _ _ _ _ _ Hg Hv) as <-.
  eapply refresh_revokes; [exact Hv | exact Hr |]. rewrite !elem_of_cons, elem_of_nil. tauto.
Qed.
End history.

(** Ann signs up, refreshes her pair and logs out everywhere. *)
Definition ann_history : list (Z * AuthCall) :=
  [(start, Signup (uuids "1") ann); ((start + 5)%Z, RefreshTokens (uuids "2") (refresh_token ann_tokens))].

Lemma sessions_witness :
  let '(db', es) := run_history ann_history empty_auth in
  live db' = replay es (live empty_auth)
  ∧ validate_access_token (start + 60) (access_token ann_tokens) db'
    = (db', spec_access (start + 60) (access_token ann_tokens) (replay es (live empty_auth))).
Proof. apply (sessions_refine ann_history empty_auth). vm_compute. reflexivity. Defined.

Example sessions_example :
  length (run_history ann_history empty_auth).2 = 3
  ∧ map lv_jti (live (run_history ann_history empty_auth).1) = ["a1"; "a2"; "r2"].
Proof. vm_compute. split; reflexivity. Qed.

Lemma refresh_single_use_witness :
  let db1 := (refresh (start + 5) (uuids "2") (refresh_token ann_tokens) ann_db).1 in
  let db2 := (run_history [((start + 6)%Z, Login (uuids "3") (mkLogin "ann@example.com" "secret" None None))] db1).1 in
  refresh (start + 7) (uuids "4") (refresh_token ann_tokens) db2 = (db2, Err InvalidToken).
Proof.
  cbv zeta.
  eapply (refresh_single_use start "r1" (subject_of with_ann.2) (refresh_token ann_tokens) (start + 5)
           (uuids "2") ann_db _ _
           [((start + 6)%Z, Login (uuids "3") (mkLogin "ann@example.com" "secret" None None))]).
  - apply token_is. vm_compute. reflexivity.
  - apply (returned_ok _ (mkResponse (subject_of with_ann.2) ann_tokens)). vm_compute. reflexivity.
  - apply (bool_decide_unpack _). vm_compute. exact I.
Defined.
