(* ===== verification/AuthSteps.v ===== *)
(** * Authentication as a transition system

    Each statement that writes is a step; the calls are runs of steps, so a property that every
    step keeps holds in every state the service passes through, whatever calls run together and
    however their statements interleave.  The steps take any arguments, those computed from
    rows that have changed since they were read among them. *)

From stdpp Require Import gmap strings list relations.
From Stdlib Require Import ZArith Lia.
From S2P Require Import Prelude RustStr RustText StringEnum Sql PermissionDb PermissionService PermissionInv AuthDb AuthService AuthProps AuthHistory.

Section steps.
Context `{JwtLib} `{CodesJson} `{AuthEnv}.

Inductive auth_step : AuthDb → AuthDb → Prop :=
| st_owner_group now p g db :
    create_owner_group_if_not_exists now (perm db) = Ok (p, g) → auth_step db (with_perm p db)
| st_owner email first last avatar password g now user db db' :
    create_owner_and_return email first last avatar password g now db = Ok (db', user) →
    auth_step db db'
| st_organization name logo slug owner now id db db' :
    organization_create name logo slug owner now db = Ok (db', id) → auth_step db db'
| st_member role u org now p x db :
    insert_member (λ id, mkMember id role u org now now None) (perm db) = Ok (p, x) →
    auth_step db (with_perm p db)
| st_token jti role u e s k now x db db' :
    insert_token jti role u e s k now db = Ok (db', x) → auth_step db db'
| st_blacklist p now n db db' : blacklist_where p now db = Ok (db', n) → auth_step db db'
| st_consume u codes hash b db db' :
    consume_recovery_code u codes hash db = Ok (db', b) → auth_step db db'
| st_upsert secret codes u x db db' :
    two_factor_upsert secret codes u db = Ok (db', x) → auth_step db db'
| st_replace u codes x db db' :
    replace_recovery_codes u codes db = Ok (db', x) → auth_step db db'
| st_delete u x db db' : two_factor_delete u db = Ok (db', x) → auth_step db db'
| st_enabled u b now x db db' :
    set_two_factor_enabled u b now db = Ok (db', x) → auth_step db db'
| st_user_update u item now x db db' : user_update u item now db = Ok (db', x) → auth_step db db'
| st_reset_issue u hash e now x db db' :
    reset_issue u hash e now db = Ok (db', x) → auth_step db db'
| st_reset_complete hash password now b db db' :
    reset_complete hash password now db = Ok (db', b) → auth_step db db'
| st_verification_issue u hash e now x db db' :
    verification_issue u hash e now db = Ok (db', x) → auth_step db db'
| st_verification_complete hash now b db db' :
    verification_complete hash now db = Ok (db', b) → auth_step db db'
| st_pat_create u name prefix hash e now t db db' :
    pat_create u name prefix hash e now db = Ok (db', t) → auth_step db db'
| st_pat_authenticate hash now t db db' :
    pat_authenticate hash now db = Ok (db', t) → auth_step db db'
| st_pat_revoke u id now b db db' : pat_revoke u id now db = Ok (db', b) → auth_step db db'.

Definition runs {X} (m : A X) : Prop := ∀ db, rtc auth_step db (m db).1.

Lemma bind_runs {X Y} (m : A X) (k : X → A Y) : runs m → (∀ x, runs (k x)) → runs (bind m k).
Proof.
  intros Hm Hk db. unfold bind. specialize (Hm db). destruct (m db) as [db1 [x|e]]; simpl in *; [|done].
  etrans; [exact Hm | apply Hk].
Qed.
Lemma reads_runs {X} (m : A X) : reads m → runs m.
Proof. intros Hm db. by rewrite Hm. Qed.
Lemma run_runs {X} (f : AuthDb → result (AuthDb * X) AuthError) :
  (∀ db db' x, f db = Ok (db', x) → rtc auth_step db db') → runs (run f).
Proof. intros Hf db. unfold run. destruct (f db) as [[db' x]|] eqn:E; [eauto | done]. Qed.
Lemma put_runs {X} (f : AuthDb → result (AuthDb * X) SqlError) :
  (∀ db db' x, f db = Ok (db', x) → auth_step db db') → runs (put f).
Proof.
  intros Hf. apply run_runs. intros db db' x Hx%db_err_ok. apply rtc_once. eauto.
Qed.

Lemma blacklist_all_step u now db db' x :
  blacklist_all_by_user u now db = Ok (db', x) → auth_step db db'.
Proof. intros ([d n] & E & [= <- _])%let_ok. by econstructor. Qed.
Lemma blacklist_jti_step jti now db db' x :
  blacklist_by_jti jti now db = Ok (db', x) → auth_step db db'.
Proof. intros ([d n] & E & [= <- _])%let_ok. by eapply st_blacklist. Qed.
Lemma revoke_session_step u s now db db' x :
  revoke_session u s now db = Ok (db', x) → auth_step db db'.
Proof. intros ([d n] & E & [= <- _])%let_ok. by eapply st_blacklist. Qed.

Lemma store_runs now tokens s db db' x :
  store_token_pair now tokens s db = Ok (db', x) → rtc auth_step db db'.
Proof.
  intros (ca & _ & (cr & _ & ([d []] & Ha%db_err_ok & Hb%db_err_ok)%let_ok)%let_ok)%let_ok.
  eapply rtc_l; [by eapply st_token|]. apply rtc_once. by eapply st_token.
Qed.

Lemma signup_transaction_runs now ids input password db db' r :
  signup_transaction now ids input password db = Ok (db', r) → rtc auth_step db db'.
Proof.
  unfold signup_transaction. intros ([p1 g] & K1%db_err_ok & K)%let_ok.
  apply let_ok in K as ([db2 user] & K2%db_err_ok & K).
  apply let_ok in K as ([db3 org] & K3%db_err_ok & K).
  apply let_ok in K as ([p4 m] & K4%db_err_ok & K). apply let_ok in K as (tokens & Ht & K).
  apply let_ok in K as ([db5 []] & Hs & K). injection K as <- <-.
  eapply rtc_l; [by eapply st_owner_group|]. eapply rtc_l; [by eapply st_owner|].
  eapply rtc_l; [by eapply st_organization|]. eapply rtc_l; [by eapply st_member|].
  by eapply store_runs.
Qed.

Lemma refresh_transaction_runs now plan db db' x :
  refresh_transaction now plan db = Ok (db', x) → rtc auth_step db db'.
Proof.
  intros ([d []] & K1%db_err_ok & K2)%let_ok. eapply rtc_l; [by eapply blacklist_jti_step|].
  by eapply store_runs.
Qed.

Lemma get_reads {X} (f : AuthDb → X) : reads (get f).
Proof. done. Qed.
End steps.

#[export] Hint Resolve get_reads : oxide.
#[export] Hint Constructors auth_step : oxide.

Ltac to_steps :=
  cbn zeta;
  repeat first
    [ apply bind_runs; [|intros ?]
    | solve [apply reads_runs; auto with oxide]
    | solve [apply put_runs; intros ? ? ?;
             (apply blacklist_all_step || apply revoke_session_step || (intros ?; by econstructor))]
    | solve [apply run_runs; intros ? ? ?;
             (apply store_runs || apply signup_transaction_runs || apply refresh_transaction_runs)]
    | case_match ].

(** ** The constraints of the tables *)

Record auth_wf (db : AuthDb) : Prop := {
  wf_perm : perm_wf (perm db);
  wf_jwt : table_wf (jwt_tokens db);
  wf_two_factor : table_wf (two_factor db);
  wf_resets : table_wf (password_reset_tokens db);
  wf_verifications : table_wf (email_verification_tokens db);
  wf_pats : table_wf (personal_access_tokens db);
  wf_organization : table_wf (organization db);
}.

#[export] Hint Resolve wf_perm wf_jwt wf_two_factor wf_resets wf_verifications wf_pats
  wf_organization : oxide.

Lemma owner_group_wf now p p' g :
  perm_wf p → create_owner_group_if_not_exists now p = Ok (p', g) → perm_wf p'.
Proof.
  unfold create_owner_group_if_not_exists. intros Hwf.
  destruct (insert_group _ p) as [[p1 x]|] eqn:E; case_match; intros [= <- _]; [|done].
  eapply insert_group_keeps; [|exact Hwf|exact E]; done.
Qed.

Lemma users_updated_wf p f t n (fk : User → bool) (q : PermDb) :
  perm_wf q → (∀ u, u_id (f u) = u_id u) →
  sql_update fk p f (users q) = Ok (t, n) → perm_wf (with_users t q).
Proof.
  intros Hwf Hf E. apply with_users_wf; [|done]. eapply sql_update_wf; [by apply wf_users|exact Hf|exact E].
Qed.

Lemma organization_id_wf id p : perm_wf p → perm_wf (add_organization_id id p).
Proof. intros []; by split. Qed.

Lemma issue_token_wf db u h e now t t' :
  table_wf t → issue_token db u h e now t = Ok t' → table_wf t'.
Proof.
  intros Hwf ([t1 n] & E1 & ([t2 id] & E2 & [= <-])%let_ok)%let_ok.
  eapply sql_insert_wf; [| |exact E2]; [|done]. by eapply sql_update_wf; [| |exact E1].
Qed.

Lemma take_token_wf h now t t' o : table_wf t → take_token h now t = Ok (t', o) → table_wf t'.
Proof. intros Hwf ([t1 n] & E1 & [= <- _])%let_ok. by eapply sql_update_wf; [| |exact E1]. Qed.

Lemma blacklist_where_wf p now db db' n :
  auth_wf db → blacklist_where p now db = Ok (db', n) → auth_wf db'.
Proof.
  intros [] ([t m] & E & [= <- _])%let_ok. split; simpl; try done. by eapply sql_update_wf; [| |exact E].
Qed.

Lemma update_users_wf p f db db' x :
  auth_wf db → (∀ u, u_id (f u) = u_id u) → update_users p f db = Ok (db', x) → auth_wf db'.
Proof.
  intros [] Hf ([t m] & E & [= <- _])%let_ok. split; simpl; try done. by eapply users_updated_wf; [| |exact E].
Qed.

(** Undoes one [let?] of the statement and leaves its table to show well formed. *)
Ltac one_table :=
  match goal with
  | K : result_bind _ _ = Ok _ |- _ =>
      let t := fresh "t" in let n := fresh "n" in let E := fresh "E" in
      apply let_ok in K as ([t n] & E & K); injection K as <- _; split; simpl; try done;
      first [ by eapply sql_insert_wf; [| |exact E] | by eapply sql_update_wf; [| |exact E] ]
  end.

Lemma auth_step_wf `{JwtLib} `{CodesJson} `{AuthEnv} db db' : auth_step db db' → auth_wf db → auth_wf db'.
Proof.
  intros Hs Hwf. pose proof Hwf as []. destruct Hs as
    [now p g db K|e f l a pw g now user db db' K|name logo slug o now id db db' K
    |role u org now p x db K|jti role u e s k now x db db' K|p now n db db' K|u codes h b db db' K
    |secret codes u x db db' K|u codes x db db' K|u x db db' K|u b now x db db' K|u item now x db db' K
    |u h e now x db db' K|h pw now b db db' K|u h e now x db db' K|h now b db db' K
    |u name prefix h e now t db db' K|h now t db db' K|u id now b db db' K].
  - split; simpl; try done. by eapply owner_group_wf.
  - apply let_ok in K as ([t id] & E & [= <- _]). split; simpl; try done.
    apply with_users_wf; [|done]. eapply sql_insert_wf; [| |exact E]; [|done]. by apply wf_users.
  - apply let_ok in K as ([t id'] & E & [= <- _]). split; simpl; try done.
    + by apply organization_id_wf.
    + by eapply sql_insert_wf; [| |exact E].
  - split; simpl; try done. by eapply insert_member_keeps; [| |exact K].
  - unfold insert_token in K. one_table.
  - by eapply blacklist_where_wf.
  - unfold consume_recovery_code in K. destruct (negb _); [by injection K as <- _|]. one_table.
  - unfold two_factor_upsert in K. destruct (sql_exists _ _); one_table.
  - unfold replace_recovery_codes in K. one_table.
  - injection K as <- _. split; simpl; try done. by apply sql_delete_wf.
  - by eapply update_users_wf; [| |exact K].
  - apply let_ok in K as ([t n] & E & [= <- _]). split; simpl; try done. by eapply users_updated_wf; [| |exact E].
  - apply let_ok in K as (t & E & [= <- _]). split; simpl; try done. by eapply issue_token_wf; [|exact E].
  - apply let_ok in K as ([t [u|]] & E & K); [|by injection K as <- _].
    apply let_ok in K as ([d1 []] & K1 & K). apply let_ok in K as ([d2 []] & K2 & [= <- _]).
    apply let_ok in K2 as ([d3 n] & K2 & [= <-]). eapply blacklist_where_wf; [|exact K2].
    eapply update_users_wf; [| |exact K1]; [|done]. split; simpl; try done. by eapply take_token_wf; [|exact E].
  - apply let_ok in K as (t & E & [= <- _]). split; simpl; try done. by eapply issue_token_wf; [|exact E].
  - apply let_ok in K as ([t [u|]] & E & K); [|by injection K as <- _].
    apply let_ok in K as ([d1 []] & K1 & [= <- _]).
    eapply update_users_wf; [| |exact K1]; [|done]. split; simpl; try done. by eapply take_token_wf; [|exact E].
  - unfold pat_create in K. one_table.
  - unfold pat_authenticate in K. destruct (sql_first _ _); [one_table | by injection K as <- _].
  - unfold pat_revoke in K. one_table.
Qed.

Section invariants.
Context `{JwtLib} `{CodesJson} `{AuthEnv}.

Lemma run_call_runs now c : runs (run_call now c).
Proof.
  destruct c; simpl; unfold tokens_of, void, signup, login, verify_login_second_factor,
    verify_stored_second_factor, issue_token_pair, refresh, refresh_plan, refresh_commit, logout_all,
    auth_revoke_session, setup_two_factor, enable_two_factor, disable_two_factor,
    regenerate_recovery_codes, create_personal_access_token, revoke_personal_access_token,
    validate_access_token, validate_personal_access_token, ensure_token_active,
    request_password_reset, reset_password, request_email_verification, verify_email, update_user,
    get_user_by_id, verify_password; to_steps.
Qed.

Lemma history_runs h : ∀ db, rtc auth_step db (run_history h db).1.
Proof.
  induction h as [|[now c] h IH]; intros db; simpl; [done|].
  pose proof (run_call_runs now c db) as K. destruct (run_call now c db) as [db1 r].
  specialize (IH db1). destruct (run_history h db1) as [db2 es]. simpl in *. by etrans.
Qed.

Lemma runs_invariant (P : AuthDb → Prop) db db' :
  (∀ d d', auth_step d d' → P d → P d') → rtc auth_step db db' → P db → P db'.
Proof. intros Hp. induction 1; eauto. Qed.

Lemma runs_wf db db' : rtc auth_step db db' → auth_wf db → auth_wf db'.
Proof. apply runs_invariant. intros d d'. apply auth_step_wf. Qed.
End invariants.

(** ** One-time tokens are used once *)

Definition spent (hash : string) (t : Table OneTimeToken) : Prop :=
  ∃ r, r ∈ rows t ∧ ot_token_hash r = hash ∧ unused r = false.

(** Another token of that hash would collide in the UNIQUE index. *)
Lemma spent_unusable hash now t :
  table_wf t → spent hash t → sql_exists (usable hash now) t = false.
Proof.
  intros Hwf (r & Hr & Hh & Hu). apply existsb_false. intros x Hx.
  destruct (usable hash now x) eqn:E; [|done]. unfold usable in E. bsimp.
  destruct (decide (ot_id x = ot_id r)) as [Hid|Hne].
  - assert (x = r) as -> by (by eapply wf_lookup_unique). congruence.
  - pose proof (wf_unique _ Hwf x r Hx Hr Hne) as Hc. simpl in Hc. bsimp. congruence.
Qed.

Lemma update_spent hash p now t t' n :
  sql_update no_fk p (set_used now) t = Ok (t', n) → spent hash t → spent hash t'.
Proof.
  intros (Hr & _ & _ & _)%sql_update_inv (r & Hin & Hh & Hu). exists (updated p (set_used now) r).
  rewrite Hr. split; [apply elem_of_mapb; eauto|]. unfold updated. by destruct (p r).
Qed.

Lemma issue_spent db u h e now hash t t' :
  issue_token db u h e now t = Ok t' → spent hash t → spent hash t'.
Proof.
  intros ([t1 n] & E1 & ([t2 id] & E2 & [= <-])%let_ok)%let_ok Hs.
  apply (update_spent hash) in E1; [|done]. apply sql_insert_inv in E2 as (_ & _ & Hr & _).
  destruct E1 as (r & Hin & Hh). exists r. rewrite Hr. split; [apply elem_of_app; by left | done].
Qed.

Lemma take_spent h now hash t t' o :
  take_token h now t = Ok (t', o) → spent hash t → spent hash t'.
Proof. intros ([t1 n] & E1 & [= <- _])%let_ok. by eapply update_spent. Qed.

Lemma take_spends hash now t t' u :
  take_token hash now t = Ok (t', Some u) → spent hash t'.
Proof.
  intros ([t1 n] & E1 & K)%let_ok. injection K as <- K.
  destruct (sql_first (usable hash now) t) as [r|] eqn:Ef; [|done]. apply sql_first_Some in Ef as [Hin Hu].
  apply sql_update_inv in E1 as (Hr & _ & _ & _).
  exists (set_used now r). rewrite Hr. split; [|split; [|done]].
  - apply elem_of_mapb. exists r. split; [|done]. unfold updated. by rewrite Hu.
  - unfold usable in Hu. by bsimp.
Qed.

(** Inverts a statement down to what it wrote. *)
Ltac open_statement K :=
  repeat match type of K with
  | result_bind _ _ = Ok _ => apply let_ok in K as ([? ?] & ? & K) || apply let_ok in K as (? & ? & K)
  | match ?x with _ => _ end = Ok _ => destruct x eqn:?
  | (if ?x then _ else _) = Ok _ => destruct x eqn:?
  | Ok _ = Ok _ => injection K as <- _
  | Err _ = Ok _ => discriminate K
  end.

Ltac open_step Hs :=
  destruct Hs as
    [now p g db K|e f l a pw g now user db db' K|name logo slug o now id db db' K
    |role u org now p x db K|jti role u e s k now x db db' K|p now n db db' K|u codes h b db db' K
    |secret codes u x db db' K|u codes x db db' K|u x db db' K|u b now x db db' K|u item now x db db' K
    |u h e now x db db' K|h pw now b db db' K|u h e now x db db' K|h now b db db' K
    |u name prefix h e now t db db' K|h now t db db' K|u id now b db db' K];
  unfold create_owner_and_return, organization_create, insert_token, blacklist_where,
    consume_recovery_code, two_factor_upsert, replace_recovery_codes, two_factor_delete,
    set_two_factor_enabled, update_users, user_update, reset_issue, reset_complete,
    verification_issue, verification_complete, pat_create, pat_authenticate, pat_revoke in K;
  open_statement K;
  repeat match goal with
  | K1 : update_users _ _ _ = Ok _ |- _ => unfold update_users in K1; open_statement K1
  | K1 : blacklist_all_by_user _ _ _ = Ok _ |- _ =>
      unfold blacklist_all_by_user, blacklist_where in K1; open_statement K1
  | K1 : result_bind _ _ = Ok _ |- _ => open_statement K1
  end.

Lemma step_spent `{JwtLib} `{CodesJson} `{AuthEnv} hash db db' :
  auth_step db db' → spent hash (password_reset_tokens db) → spent hash (password_reset_tokens db').
Proof.
  intros Hs Hd. open_step Hs; try exact Hd; simpl.
  all: first [by eapply issue_spent | by eapply take_spent ].
Qed.

Lemma step_verification_spent `{JwtLib} `{CodesJson} `{AuthEnv} hash db db' :
  auth_step db db' → spent hash (email_verification_tokens db) →
  spent hash (email_verification_tokens db').
Proof.
  intros Hs Hd. open_step Hs; try exact Hd; simpl.
  all: first [by eapply issue_spent | by eapply take_spent ].
Qed.

(** ** Revoked personal access tokens *)

Definition pat_dead (hash : string) (t : Table PersonalAccessToken) : Prop :=
  ∃ r, r ∈ rows t ∧ pt_token_hash r = hash ∧ pt_revoked_at r ≠ None.

Lemma dead_invalid hash now t : table_wf t → pat_dead hash t → sql_first (pat_valid hash now) t = None.
Proof.
  intros Hwf (r & Hr & Hh & Hu). apply sql_first_None, existsb_false. intros x Hx.
  destruct (pat_valid hash now x) eqn:E; [|done]. unfold pat_valid in E. bsimp.
  destruct (decide (pt_id x = pt_id r)) as [Hid|Hne].
  - assert (x = r) as -> by (by eapply wf_lookup_unique). congruence.
  - pose proof (wf_unique _ Hwf x r Hx Hr Hne) as Hc. simpl in Hc. bsimp. congruence.
Qed.

Lemma update_dead hash p f t t' n :
  (∀ r, pt_token_hash (f r) = pt_token_hash r ∧ (pt_revoked_at r ≠ None → pt_revoked_at (f r) ≠ None)) →
  sql_update no_fk p f t = Ok (t', n) → pat_dead hash t → pat_dead hash t'.
Proof.
  intros Hf (Hr & _ & _ & _)%sql_update_inv (r & Hin & Hh & Hu). exists (updated p f r).
  rewrite Hr. split; [apply elem_of_mapb; eauto|]. unfold updated. destruct (Hf r) as [E1 E2].
  destruct (p r); [|done]. rewrite E1. auto.
Qed.

Lemma insert_dead hash fk mk t t' id :
  sql_insert fk mk t = Ok (t', id) → pat_dead hash t → pat_dead hash t'.
Proof.
  intros (_ & _ & Hr & _)%sql_insert_inv (r & Hin & Hd). exists r. rewrite Hr.
  split; [apply elem_of_app; by left | done].
Qed.

Lemma step_dead `{JwtLib} `{CodesJson} `{AuthEnv} hash db db' :
  auth_step db db' → pat_dead hash (personal_access_tokens db) → pat_dead hash (personal_access_tokens db').
Proof.
  intros Hs Hd. open_step Hs; try exact Hd; simpl.
  all: match goal with
  | E : sql_insert _ _ _ = Ok _ |- _ => by eapply insert_dead; [exact E|]
  | E : sql_update _ _ _ _ = Ok _ |- _ => by eapply update_dead; [|exact E|]
  end.
Qed.

Lemma revoke_kills u id now db db' :
  pat_revoke u id now db = Ok (db', true) →
  ∃ r, r ∈ rows (personal_access_tokens db) ∧ pt_id r = id ∧ pt_user_id r = u
       ∧ pat_dead (pt_token_hash r) (personal_access_tokens db').
Proof.
  intros ([t n] & E & K)%let_ok. injection K as <- K%bool_decide_eq_true.
  apply sql_update_inv in E as (Hr & _ & Hn & _). subst n. simpl.
  set (p := λ r, _) in *. destruct (sql_select p (personal_access_tokens db)) as [|r l] eqn:Es; [done|].
  assert (r ∈ sql_select p (personal_access_tokens db)) as [Hin Hp]%elem_of_filterb
    by (rewrite Es; constructor).
  pose proof Hp as Hr'. unfold p in Hr'. bsimp. exists r. split_and!; try done.
  exists (set_revoked now r). rewrite Hr. split_and!; [|done|done].
  apply elem_of_mapb. exists r. split; [|done]. unfold updated. by rewrite Hp.
Qed.
