(* ===== verification/AuthFacts.v ===== *)
(** * Logins, one-time tokens and personal access tokens

    What a login proves about the caller, and that recovery codes, password-reset tokens and
    revoked personal access tokens cannot be used again, whatever runs in between. *)

From stdpp Require Import gmap strings list relations.
From Stdlib Require Import ZArith Lia.
From S2P Require Import Prelude RustStr RustText StringEnum Sql PermissionDb PermissionService PermissionInv AuthDb AuthService AuthProps AuthHistory AuthSteps.

(** ** The second factor *)

Section facts.
Context `{JwtLaws} `{CodesJsonLaws} `{AuthEnv}.

Definition codes_of (setting : TwoFactor) : list string :=
  default [] (codes_of_json (tf_backup_codes setting)).

Lemma remove_first_length h l : h ∈ l → S (length (remove_first h l)) = length l.
Proof.
  induction l as [|y l IH]; simpl; [by intros ?%elem_of_nil|]. rewrite elem_of_cons.
  case_bool_decide; [done|]. intros [->|?]; [done|]. simpl. by rewrite IH.
Qed.

Lemma remove_first_NoDup h l : NoDup l → h ∉ remove_first h l.
Proof.
  induction l as [|y l IH]; simpl; [by intros _ ?%elem_of_nil|]. intros [Hy Hl]%NoDup_cons.
  case_bool_decide; subst; [done|]. rewrite elem_of_cons. intros [->|?]; [done|]. by apply IH.
Qed.

(** Consuming a code replaces the row that was read, and fails when it has changed. *)
Lemma consume_effect u setting h db db' :
  two_factor_by_user u db = Some setting →
  consume_recovery_code u (tf_backup_codes setting) h db = Ok (db', true) →
  h ∈ codes_of setting
  ∧ two_factor_by_user u db' = Some (set_tf_codes (codes_to_json (remove_first h (codes_of setting))) setting).
Proof.
  intros Hs. unfold consume_recovery_code. fold (codes_of setting).
  case_bool_decide as Hin; simpl; [|done]. intros ([t n] & E & [= <- _])%let_ok.
  split; [done|]. apply sql_update_inv in E as (Hr & _ & _ & _).
  unfold two_factor_by_user in *. simpl. erewrite sql_first_map; [| |exact Hr].
  - rewrite Hs. simpl. unfold updated. apply sql_first_Some in Hs as [_ ->].
    by rewrite bool_decide_eq_true_2.
  - intros r. unfold updated, for_user. by destruct (_ && _).
Qed.

Lemma second_factor_ok now user setting code rc db db' :
  two_factor_by_user (u_id user) db = Some setting →
  verify_stored_second_factor now user setting code rc db = (db', Ok tt) →
  (totp_accepts (tf_secret setting) (account_of user) now (trim code) = Some true ∧ db' = db)
  ∨ (hash_recovery_code rc ∈ codes_of setting
     ∧ two_factor_by_user (u_id user) db'
       = Some (set_tf_codes (codes_to_json (remove_first (hash_recovery_code rc) (codes_of setting))) setting)).
Proof.
  intros Hs. unfold verify_stored_second_factor. intros (d & by_code & K1 & K)%bind_ok.
  assert (d = db ∧ (by_code = true →
    totp_accepts (tf_secret setting) (account_of user) now (trim code) = Some true)) as [-> Hc].
  { destruct (str_is_empty _); [by injection K1 as <- <-|]. injection K1 as <- K1. split; [done|].
    intros ->. unfold check_totp in K1. destruct (totp_accepts _ _ _ _); [by injection K1 as -> | done]. }
  destruct by_code; [injection K as <-; auto|]. right.
  apply bind_ok in K as (d & by_rc & K1' & K). destruct by_rc; [|done]. injection K as <-.
  destruct (str_is_empty _); [done|]. unfold put, run in K1'.
  destruct (consume_recovery_code _ _ _ _) as [[d1 b]|] eqn:Ec; [|done]. injection K1' as <- ->.
  eapply consume_effect; [exact Hs | exact Ec].
Qed.

Lemma issue_two_factor now ids subject db db' tokens :
  issue_token_pair now ids subject db = (db', Ok tokens) → two_factor db' = two_factor db.
Proof.
  intros (d & t & [= <- _] & (d2 & [] & K & [= <- _])%bind_ok)%bind_ok. unfold run in K.
  destruct (store_token_pair _ _ _ _) as [[d3 []]|] eqn:E; [|done]. injection K as <-.
  unfold store_token_pair, store_claims, insert_token in E.
  apply let_ok in E as (ca & _ & E). apply let_ok in E as (cr & _ & E).
  apply let_ok in E as ([d4 []] & E1%db_err_ok & E2%db_err_ok).
  apply let_ok in E1 as ([t1 i1] & _ & [= <-]). by apply let_ok in E2 as ([t2 i2] & _ & [= <-]).
Qed.

(** C10: A login returns only for a user of the given address whose stored hash the password
    matches; when the user has the second factor on, the code was accepted for the stored
    secret, or the recovery code was among the stored ones and has been removed from them. *)
Theorem login_requires now ids input db db' r :
  login now ids input db = (db', Ok r) →
  ∃ user, user_get_by_email (normalize_email (li_email input)) (perm db) = Some user
    ∧ password_matches (li_password input) (u_password user) = true
    ∧ ar_user r = subject_from_user user
    ∧ (two_factor_on user = true →
       ∃ setting, two_factor_by_user (u_id user) db = Some setting
         ∧ ((∃ code, totp_accepts (tf_secret setting) (account_of user) now (trim code) = Some true
                     ∧ code = default "" (li_two_factor_code input))
            ∨ (∃ h, h = hash_recovery_code (default "" (li_recovery_code input))
                    ∧ h ∈ codes_of setting
                    ∧ two_factor_by_user (u_id user) db'
                      = Some (set_tf_codes (codes_to_json (remove_first h (codes_of setting))) setting)))).
Proof.
  intros (d & o & [= <- <-] & K)%bind_ok. apply bind_ok in K as (d & user & [= <- Ku] & K).
  destruct (user_get_by_email _ _) as [u|] eqn:Eu; [|done]. injection Ku as <-.
  apply bind_ok in K as (d & [] & Kp & K). unfold verify_password, guard in Kp.
  destruct (password_matches _ _) eqn:Ep; [|done]. injection Kp as <-.
  apply bind_ok in K as (d2 & [] & Kf & K). apply bind_ok in K as (d3 & tokens & Ki & [= <- <-]).
  exists u. split_and!; [done..|]. intros Hon. unfold verify_login_second_factor in Kf.
  rewrite Hon in Kf. simpl in Kf. destruct (_ && _); [done|].
  apply bind_ok in Kf as (d & o & [= <- <-] & Kf). apply bind_ok in Kf as (d & setting & [= <- Ks] & Kf).
  destruct (two_factor_by_user _ _) as [st|] eqn:Et; [|done]. injection Ks as ->.
  exists setting. split; [done|]. apply (second_factor_ok _ _ _ _ _ _ _ Et) in Kf as [[Ha _]|[Hin Hc]].
  - left. eauto.
  - right. eexists. split; [done|]. split; [done|]. rewrite <- Hc.
    unfold two_factor_by_user. by erewrite issue_two_factor.
Qed.

(** ** Recovery codes under races *)

(** C11: When a recovery code has been consumed, every attempt that still works with the list
    read before it fails, whatever code it presents, and an attempt with the new list fails for
    the consumed code if the codes were distinct. *)
Theorem recovery_code_once u setting h h' db db1 :
  two_factor_by_user u db = Some setting →
  consume_recovery_code u (tf_backup_codes setting) h db = Ok (db1, true) →
  consume_recovery_code u (tf_backup_codes setting) h' db1 = Ok (db1, false)
  ∧ (NoDup (codes_of setting) →
     ∃ setting1, two_factor_by_user u db1 = Some setting1
       ∧ consume_recovery_code u (tf_backup_codes setting1) h db1 = Ok (db1, false)).
Proof.
  intros Hs Hc. pose proof (consume_effect _ _ _ _ _ Hs Hc) as [Hin Hs1]. split.
  - unfold consume_recovery_code. fold (codes_of setting). case_bool_decide; simpl; [|done].
    rewrite sql_update_none; [by destruct db1|]. apply existsb_false. intros r Hr.
    apply andb_false_iff. destruct (for_user u r) eqn:Hu; [right|by left].
    apply bool_decide_eq_false. intros Heq.
    unfold consume_recovery_code in Hc. fold (codes_of setting) in Hc.
    rewrite bool_decide_eq_true_2 in Hc by done. simpl in Hc.
    apply let_ok in Hc as ([t n] & E & [= <- _]). apply sql_update_inv in E as (Hrows & _ & _ & _).
    simpl in Hr. rewrite Hrows in Hr. apply elem_of_mapb in Hr as (x & -> & Hx). unfold updated in *.
    assert (codes_to_json (remove_first h (codes_of setting)) ≠ tf_backup_codes setting) as Hne.
    { intros E%(f_equal (default [] ∘ codes_of_json)). simpl in E.
      rewrite codes_json_roundtrip in E. simpl in E. fold (codes_of setting) in E.
      pose proof (remove_first_length _ _ Hin). rewrite E in *. lia. }
    destruct (for_user u x && bool_decide _) eqn:Ex; [done|].
    rewrite Hu in Ex. simpl in Ex. by apply bool_decide_eq_false in Ex.
  - intros Hnd. eexists. split; [exact Hs1|]. unfold consume_recovery_code. simpl.
    rewrite codes_json_roundtrip. simpl. rewrite bool_decide_eq_false_2; [done|].
    by apply remove_first_NoDup.
Qed.

(** ** Password reset *)

Lemma reset_unusable now token p db :
  sql_exists (usable (hash_token token) now) (password_reset_tokens db) = false →
  reset_password now token p db
  = (db, Err (if hash_password p then InvalidResetToken else InternalAuth)).
Proof.
  intros Hn. unfold reset_password, bind, of_result. destruct (hash_password p) as [hash|]; simpl; [|done].
  unfold put, run, reset_complete, take_token. rewrite sql_update_none by done. simpl.
  by rewrite (proj2 (sql_first_None _ _) Hn).
Qed.

(** A password reset that succeeds belongs to a user, sets the user's stored hash to that of the
    new password and revokes every session of the user; afterwards the same token is refused in
    every state the service can reach, under any interleaving of its statements. *)
Theorem reset_once now token p db db1 :
  auth_wf db →
  reset_password now token p db = (db1, Ok tt) →
  ∃ u hash, reset_owner now token db = Some u ∧ hash_password p = Some hash
    ∧ (∀ user, user ∈ rows (users (perm db1)) → u_id user = u → u_password user = hash)
    ∧ (∀ l, l ∈ live db1 → lv_user l ≠ u)
    ∧ ∀ db2 later p', rtc auth_step db1 db2 →
        reset_password later token p' db2
        = (db2, Err (if hash_password p' then InvalidResetToken else InternalAuth)).
Proof.
  intros Hwf. unfold reset_password at 1. intros (d & hash & [= <- Kh] & K)%bind_ok.
  destruct (hash_password p) as [hp|] eqn:Ehp; [injection Kh as ->|done].
  apply bind_ok in K as (d & ok & Kc & K). destruct ok; [injection K as <-|done].
  unfold put, run in Kc. destruct (reset_complete _ _ _ _) as [[d1 b]|] eqn:Ec; [|done].
  injection Kc as <- ->. pose proof (reset_complete_live _ _ _ _ _ _ Ec) as [Hl _].
  assert (auth_wf d1) as Hwf1 by (eapply auth_step_wf; [by eapply st_reset_complete | done]).
  unfold reset_owner. unfold reset_complete in Ec.
  apply let_ok in Ec as ([t [u|]] & Et & Ec); [|done]. pose proof (take_spends _ _ _ _ _ Et) as Hsp.
  unfold take_token in Et. apply let_ok in Et as ([t' n] & _ & Et). injection Et as -> Ho.
  apply let_ok in Ec as ([d2 []] & Eu & Ec). apply let_ok in Ec as ([d3 []] & Eb & [= <-]).
  exists u, hash. split; [done|]. split; [done|].
  unfold update_users in Eu. apply let_ok in Eu as ([tu k] & Eu & [= <-]).
  unfold blacklist_all_by_user, blacklist_where in Eb.
  apply let_ok in Eb as ([d4 m] & Eb & [= <-]). apply let_ok in Eb as ([tj j] & _ & [= <- _]).
  split_and!.
  - intros user. simpl. apply sql_update_inv in Eu as (-> & _). intros (x & -> & _)%elem_of_mapb.
    unfold updated, of_user. destruct (u_id x =? u)%Z eqn:Ex; [done|]. apply Z.eqb_neq in Ex. done.
  - intros l. rewrite Hl. destruct (sql_first _ _) as [tok|]; [|done]. injection Ho as <-.
    unfold replay. simpl. rewrite spec_revoke by done. intros [_ Hr]%elem_of_filterb. simpl in Hr.
    intros E. by rewrite E, Z.eqb_refl in Hr.
  - intros db2 later p' Hrun. apply reset_unusable, spent_unusable.
    + apply wf_resets. by eapply runs_wf.
    + eapply (runs_invariant (λ d, spent (hash_token token) (password_reset_tokens d)));
        [|exact Hrun|exact Hsp]. intros d d'. apply step_spent.
Qed.

(** ** Personal access tokens *)

(** Revoking a personal access token reports success only for a token of that id and user, and
    from then on a bearer token with its hash is refused in every state the service can reach. *)
Theorem revoked_pat_refused now u id db db1 :
  auth_wf db →
  revoke_personal_access_token now u id db = (db1, Ok true) →
  ∃ row, row ∈ rows (personal_access_tokens db) ∧ pt_id row = id ∧ pt_user_id row = u
    ∧ ∀ db2 later token, rtc auth_step db1 db2 → starts_with "rp_" token = true →
        hash_token token = pt_token_hash row →
        validate_access_token later token db2 = (db2, Err InvalidToken).
Proof.
  intros Hwf. unfold revoke_personal_access_token, put, run.
  destruct (pat_revoke u id now db) as [[d b]|] eqn:E; [|done]. intros [= <- ->].
  assert (auth_wf d) as Hwf1 by (eapply auth_step_wf; [by eapply st_pat_revoke | done]).
  apply revoke_kills in E as (r & Hin & Hid & Hu & Hd). exists r. split_and!; [done..|].
  intros db2 later token Hrun Hp Hh. unfold validate_access_token. rewrite Hp.
  unfold validate_personal_access_token, bind, put, run, pat_authenticate. rewrite Hh.
  rewrite dead_invalid; [done| |].
  - apply wf_pats. by eapply runs_wf.
  - eapply (runs_invariant (λ d, pat_dead (pt_token_hash r) (personal_access_tokens d)));
      [|exact Hrun|exact Hd]. intros ? ?. apply step_dead.
Qed.

(** ** Who owns the platform *)

(** Every sign-up that succeeds, the first one or a later one, makes its caller a platform
    owner: every permission check of the new user answers yes. *)
Theorem signup_makes_owner now ids input db db' r org action :
  auth_wf db →
  signup now ids input db = (db', Ok r) →
  check_permission (js_user_id (ar_user r)) org action (perm db') = Ok true.
Proof.
  intros Hwf (d & password & [= <- _] & K)%bind_ok. unfold run in K.
  destruct (signup_transaction _ _ _ _ _) as [[d' r']|] eqn:E; [|done]. injection K as <- ->.
  assert (auth_wf d') as Hwf' by (eapply runs_wf; [by eapply signup_transaction_runs | done]).
  unfold signup_transaction in E. apply let_ok in E as ([p1 g] & _ & E).
  apply let_ok in E as ([db2 user] & E2%db_err_ok & E). unfold create_owner_and_return in E2.
  apply let_ok in E2 as ([t id] & Ei & E2). injection E2 as <- <-.
  apply sql_insert_inv in Ei as (_ & _ & Hr & _).
  apply let_ok in E as ([db3 o] & E3%db_err_ok & E). unfold organization_create in E3.
  apply let_ok in E3 as ([t3 id3] & _ & E3). injection E3 as <- <-.
  apply let_ok in E as ([p4 m] & E4%db_err_ok & E). apply insert_member_perm in E4.
  apply let_ok in E as (tokens & _ & E). apply let_ok in E as ([d5 []] & E5 & E). injection E as <- <-.
  set (user := owner_row _ _ _ _ _ _ _ _) in *. simpl in E4.
  assert (users (perm d5) = t) as Hu.
  { unfold store_token_pair, store_claims, insert_token in E5.
    apply let_ok in E5 as (ca & _ & E5). apply let_ok in E5 as (cr & _ & E5).
    apply let_ok in E5 as ([d6 []] & F1%db_err_ok & F2%db_err_ok).
    apply let_ok in F1 as ([t1 i1] & _ & [= <-]). by apply let_ok in F2 as ([t2 i2] & _ & [= <-]). }
  assert (user_get_by_id (u_id user) (perm d5) = Some user) as Hf.
  { change (sql_first (λ x, row_id x =? row_id user)%Z (users (perm d5)) = Some user).
    apply sql_first_id; [apply wf_users, wf_perm, Hwf'|].
    rewrite Hu, Hr. apply elem_of_app. right. constructor. }
  change (check_permission (u_id user) org action (perm d5) = Ok true).
  unfold check_permission, is_platform_owner. by rewrite Hf.
Qed.
End facts.

(** ** Evaluated *)

Lemma empty_auth_wf : auth_wf empty_auth.
Proof. split; [split|..]; apply empty_table_wf. Qed.

Lemma history_wf h : auth_wf (run_history h empty_auth).1.
Proof. eapply runs_wf; [apply history_runs | apply empty_auth_wf]. Qed.

(** Ann turns the second factor on and asks for a password reset. *)
Definition secure_history : list (Z * AuthCall) :=
  [(start, Signup (uuids "1") ann);
   ((start + 1)%Z, SetupTwoFactor 1 "secret" "TOTP" (λ i, Some (repeat (Z.of_nat i) 10)));
   ((start + 2)%Z, EnableTwoFactor 1 "TOTP");
   ((start + 3)%Z, CreatePat 1 "ci" "secret" None (Some [1; 2; 3; 4; 5; 6; 7; 8]%Z));
   ((start + 4)%Z, RequestReset "ann@example.com" (Some [10; 11]%Z))].
Definition secure_db : AuthDb := (run_history secure_history empty_auth).1.
Definition by_recovery : LoginDto :=
  mkLogin "ann@example.com" "secret" None (Some "00000-00000-00000-00000").
Definition no_response : AuthResponse := mkResponse (subject_of (Err InternalAuth)) (mkPair "" "").

Example second_factor_example :
  returned (login (start + 9) (uuids "2") by_recovery secure_db).2 = true
  ∧ (login (start + 9) (uuids "2") (mkLogin "ann@example.com" "secret" None None) secure_db).2
    = Err TwoFactorRequired
  ∧ (login (start + 9) (uuids "2") (mkLogin "ann@example.com" "wrong" (Some "TOTP") None) secure_db).2
    = Err InvalidCredentials.
Proof. vm_compute. done. Qed.

Lemma login_witness :
  ∃ user, user_get_by_email "ann@example.com" (perm secure_db) = Some user
    ∧ two_factor_on user = true ∧ password_matches "secret" (u_password user) = true.
Proof.
  assert (returned (login (start + 9) (uuids "2") by_recovery secure_db).2 = true) as Hr
    by (vm_compute; reflexivity).
  apply (returned_ok _ no_response) in Hr. apply login_requires in Hr as (user & Hu & Hp & _ & _).
  assert (option_map two_factor_on
            (user_get_by_email (normalize_email (li_email by_recovery)) (perm secure_db)) = Some true) as Ht
    by (vm_compute; reflexivity).
  exists user. rewrite Hu in Ht. injection Ht as Ht. by split_and!.
Defined.

Definition ann_setting : TwoFactor := default (mkTwoFactor 0 "" "" 0) (two_factor_by_user 1 secure_db).
Definition first_code : string := hash_recovery_code "00000-00000-00000-00000".
Definition after_code : AuthDb :=
  match consume_recovery_code 1 (tf_backup_codes ann_setting) first_code secure_db with
  | Ok (db, _) => db | Err _ => secure_db end.

Lemma recovery_code_witness :
  consume_recovery_code 1 (tf_backup_codes ann_setting) first_code after_code = Ok (after_code, false)
  ∧ ∃ setting1, two_factor_by_user 1 after_code = Some setting1
      ∧ consume_recovery_code 1 (tf_backup_codes setting1) first_code after_code = Ok (after_code, false).
Proof.
  assert (two_factor_by_user 1 secure_db = Some ann_setting) as Hs
    by (apply some_default; vm_compute; reflexivity).
  assert (consume_recovery_code 1 (tf_backup_codes ann_setting) first_code secure_db
          = Ok (after_code, true)) as Hc by (apply said_true; vm_compute; reflexivity).
  destruct (recovery_code_once 1 ann_setting first_code first_code secure_db after_code Hs Hc) as [H1 H2].
  split; [exact H1|]. apply H2. apply (bool_decide_unpack _). vm_compute. exact I.
Defined.

Lemma reset_witness :
  ∃ u hash, reset_owner (start + 5) "0a0b" secure_db = Some u ∧ hash_password "fresh" = Some hash.
Proof.
  assert (returned (reset_password (start + 5) "0a0b" "fresh" secure_db).2 = true) as Hr
    by (vm_compute; reflexivity).
  apply (returned_ok _ tt) in Hr. destruct (value_of _ _) in Hr.
  apply reset_once in Hr as (u & h & Ho & Hh & _); [|apply history_wf].
  exists u, h. by split.
Defined.

Lemma revoked_pat_witness :
  ∃ row, row ∈ rows (personal_access_tokens secure_db) ∧ pt_id row = 1%Z.
Proof.
  assert (match (revoke_personal_access_token (start + 5) 1 1 secure_db).2 with
          | Ok b => b | Err _ => false end = true) as Hr by (vm_compute; reflexivity).
  destruct (revoke_personal_access_token (start + 5) 1 1 secure_db) as [db1 [[]|]] eqn:E; [|done..].
  apply revoked_pat_refused in E as (row & Hin & Hid & _); [|apply history_wf].
  exists row. by split.
Defined.

(** Mallory signs up on Ann's panel. *)
Definition mallory : SignupDto := mkSignup "mallory@example.com" "evil" (Some "Mallory") None None.
Lemma signup_witness :
  check_permission (js_user_id (ar_user (value_of no_response (signup (start + 8) (uuids "7") mallory secure_db).2)))
    1 (required_action RDeployment CanDelete) (perm (signup (start + 8) (uuids "7") mallory secure_db).1) = Ok true.
Proof.
  apply (signup_makes_owner (start + 8) (uuids "7") mallory secure_db); [apply history_wf|].
  apply returned_ok. vm_compute. reflexivity.
Defined.

(** Two requests that refresh with the same token and both read before either writes *)
Example refresh_race :
  match refresh_plan (start + 5) (uuids "2") (refresh_token ann_tokens) ann_db,
        refresh_plan (start + 5) (uuids "3") (refresh_token ann_tokens) ann_db with
  | (_, Ok plan1), (_, Ok plan2) =>
      let '(db1, r1) := refresh_commit (start + 5) plan1 ann_db in
      let '(db2, r2) := refresh_commit (start + 5) plan2 db1 in
      returned r1 && returned r2 && bool_decide (map lv_jti (live db2) = ["a1"; "a2"; "r2"; "a3"; "r3"])
  | _, _ => false
  end = true.
Proof. vm_compute. reflexivity. Qed.
