(* ===== verification/NetworkRules.v ===== *)
(** * Private networks: addresses, validation and retries

    [src/services/server/private_network/addressing.rs], [validation.rs] and [retry.rs].  The
    [ipnet] crate is a parameter with the laws its documentation gives; the parser of socket
    addresses is the one of the standard library. *)

From stdpp Require Import strings list pretty.
From Stdlib Require Import ZArith Lia Ascii.
From S2P Require Import Prelude RustStr RustText Sql.

(** ** [std::net]: printing IPv4, parsing socket addresses *)

Definition ipv4_to_string (a : Z) : string :=
  join "." (map i64_to_string [(a / 2 ^ 24) mod 256; (a / 2 ^ 16) mod 256; (a / 2 ^ 8) mod 256; a mod 256]%Z).

(** The digits at the front and what follows them *)
Fixpoint digit_span (digit : ascii → option Z) (l : list ascii) : list Z * list ascii :=
  match l with
  | [] => ([], [])
  | c :: l' => match digit c with
               | Some d => let '(ds, rest) := digit_span digit l' in (d :: ds, rest)
               | None => ([], l)
               end
  end.

Definition number_of (radix : Z) (ds : list Z) : Z := fold_left (λ acc d, acc * radix + d)%Z ds 0%Z.

Definition digit_in (radix : Z) : ascii → option Z :=
  if (radix =? 16)%Z then to_digit16 else digit_value.

(** [read_number]; [max] is the largest value of the result's type *)
Definition read_number (radix : Z) (max_digits : option nat) (allow_zero_prefix : bool) (max : Z)
    (l : list ascii) : option (Z * list ascii) :=
  let '(ds, rest) := digit_span (digit_in radix) l in
  let n := length ds in
  let too_long := match max_digits with Some m => bool_decide (m < n) | None => false end in
  if bool_decide (n = 0) || too_long
     || (negb allow_zero_prefix && bool_decide (head ds = Some 0%Z) && bool_decide (1 < n))
     || (max <? number_of radix ds)%Z
  then None else Some (number_of radix ds, rest).

Definition read_char (c : ascii) (l : list ascii) : option (list ascii) :=
  match l with d :: l' => if is_char c d then Some l' else None | [] => None end.

(** [read_separator]: the character before every item but the first *)
Definition read_separator {A} (c : ascii) (i : nat) (item : list ascii → option A) (l : list ascii)
    : option A :=
  match i with 0 => item l | _ => match read_char c l with Some l' => item l' | None => None end end.

Fixpoint read_octets (n i : nat) (l : list ascii) : option (list ascii) :=
  match n with
  | 0 => Some l
  | S n' => match read_separator "." i (read_number 10 (Some 3) false 255) l with
            | Some (_, rest) => read_octets n' (S i) rest
            | None => None
            end
  end.
Definition read_ipv4 : list ascii → option (list ascii) := read_octets 4 0.

(** The groups read from position [i], [n] at most, and whether an IPv4 address ended them *)
Fixpoint read_groups (n i : nat) (l : list ascii) : nat * bool * list ascii :=
  match n with
  | 0 => (i, false, l)
  | S n' =>
      match (if bool_decide (0 < n') then read_separator ":" i read_ipv4 l else None) with
      | Some rest => (i + 2, true, rest)
      | None => match read_separator ":" i (read_number 16 (Some 4) true 65535) l with
                | Some (_, rest) => read_groups n' (S i) rest
                | None => (i, false, l)
                end
      end
  end.

Definition read_ipv6 (l : list ascii) : option (list ascii) :=
  let '(n, v4, rest) := read_groups 8 0 l in
  if bool_decide (n = 8) then Some rest else if v4 then None else
  match read_char ":" rest with
  | Some r1 => match read_char ":" r1 with
               | Some r2 => Some (read_groups (8 - (n + 1)) 0 r2).2
               | None => None
               end
  | None => None
  end.

Definition read_port (l : list ascii) : option Z :=
  match read_char ":" l with
  | Some r => match read_number 10 None true 65535 r with
              | Some (p, []) => Some p
              | _ => None
              end
  | None => None
  end.

Definition read_scope_id (l : list ascii) : list ascii :=
  match read_char "%" l with
  | Some r => match read_number 10 None true (2 ^ 32 - 1) r with Some (_, r') => r' | None => l end
  | None => l
  end.

(** The port of [endpoint.parse::<SocketAddr>()] *)
Definition socket_addr_port (s : string) : option Z :=
  let l := chars s in
  match (match read_ipv4 l with Some r => read_port r | None => None end) with
  | Some p => Some p
  | None => match read_char "[" l with
            | Some r => match read_ipv6 r with
                        | Some r' => match read_char "]" (read_scope_id r') with
                                     | Some r'' => read_port r''
                                     | None => None
                                     end
                        | None => None
                        end
            | None => None
            end
  end.

(** [str::parse::<u16>] *)
Definition parse_u16 (s : string) : option Z :=
  match unsigned_value (match s with String "+" s' => s' | _ => s end) with
  | Some z => if (z <=? 65535)%Z then Some z else None
  | None => None
  end.

Fixpoint has_whitespace (l : list ascii) : bool :=
  match l with
  | [] => false
  | a :: r =>
      ws1 a
      || match r with
         | b :: r' => ws2 a b || match r' with c :: _ => ws3 a b c | [] => false end
         | [] => false
         end
      || has_whitespace r
  end.

(** ** [ipnet] *)

Record Ipv4Net := mkIpv4Net { v4_addr : Z; v4_prefix_len : Z }.
Record IpNet := mkIpNet { net_is_v6 : bool; net_addr : Z; net_prefix_len : Z }.
#[export] Instance IpNet_eq_dec : EqDecision IpNet.
Proof. solve_decision. Defined.

(** An error is its text. *)
Class IpnetLib := {
  parse_ipv4net : string → result Ipv4Net string;
  parse_ipnet : string → result IpNet string;
  v4_network : Ipv4Net → Z;
}.
(** The network address is an address whose host bits are zero. *)
Class IpnetLaws `{IpnetLib} := {
  ipv4net_prefix : ∀ s n, parse_ipv4net s = Ok n → (0 ≤ v4_prefix_len n ≤ 32)%Z;
  ipv4net_network : ∀ s n, parse_ipv4net s = Ok n →
    (0 ≤ v4_network n < 2 ^ 32)%Z ∧ (v4_network n mod 2 ^ (32 - v4_prefix_len n) = 0)%Z;
}.

(** ** [addressing.rs] *)

(** [format!("{id:x}")]: sixteen digits are enough for 64 bits *)
Fixpoint hex_go (fuel : nat) (n : Z) (acc : list ascii) : list ascii :=
  match fuel with
  | 0 => acc
  | S fuel' => if (n <? 16)%Z then hex_digit n :: acc
               else hex_go fuel' (n / 16) (hex_digit (n mod 16) :: acc)
  end.
Definition lower_hex (n : Z) : list ascii := hex_go 16 n [].

Definition interface_name (server_id : Z) : string :=
  let id := Z.abs server_id in
  let suffix := if (id <? 1000000)%Z then i64_to_string id else
                let h := lower_hex id in
                of_chars (if bool_decide (6 < length h) then drop (length h - 6) h else h) in
  "openoxide" +:+ suffix.

Definition u32_add (a b : Z) : Z := (a + b) mod 2 ^ 32.

Section rules.
Context `{IpnetLib}.

Definition tunnel_addresses (cidr : string) : result (string * string * string) SqlError :=
  let? network := match parse_ipv4net cidr with
                  | Ok n => Ok n
                  | Err e => Err (Protocol ("invalid IPv4 tunnel network: " +:+ e))
                  end in
  if (30 <? v4_prefix_len network)%Z then
    Err (Protocol "WireGuard tunnel network must contain at least two host addresses") else
  let base := v4_network network in
  let panel := ipv4_to_string (u32_add base 1) in
  let remote := ipv4_to_string (u32_add base 2) in
  let prefix := "/" +:+ i64_to_string (v4_prefix_len network) in
  Ok (panel +:+ prefix, remote +:+ prefix, remote).

Definition panel_host (cidr : string) : result string SqlError :=
  let? (panel, _, _) := tunnel_addresses cidr in
  Ok (default "" (head (split_on (is_char "/") panel)) +:+ "/32").

(** ** [validation.rs] *)

Definition valid_label (label : string) : bool :=
  negb (str_is_empty label) && bool_decide (String.length label ≤ 63)
  && negb (starts_with "-" label) && negb (ends_with "-" label)
  && forallb (λ c, is_ascii_alphanumeric c || is_char "-" c) (chars label).

Definition validate_dns_name (value : option string) : result unit SqlError :=
  match value with
  | None => Ok tt
  | Some value =>
      if bool_decide (253 < String.length value)
         || negb (ends_with ".openoxide.internal" (to_ascii_lowercase value)) then
        Err (Protocol "private DNS name must end with .openoxide.internal") else
      if negb (forallb valid_label (split_on (is_char ".") value)) then
        Err (Protocol "invalid private DNS name") else Ok tt
  end.

(** [parsed] is the set of the routes seen so far. *)
Fixpoint check_routes (tunnel : option IpNet) (parsed : list IpNet) (routes : list string)
    : result unit SqlError :=
  match routes with
  | [] => Ok tt
  | route :: rest =>
      let? route := match parse_ipnet route with
                    | Ok n => Ok n
                    | Err e => Err (Protocol ("invalid private route: " +:+ e))
                    end in
      if (net_prefix_len route =? 0)%Z then
        Err (Protocol "default routes are not allowed for a management tunnel") else
      if bool_decide (Some route = tunnel) || bool_decide (route ∈ parsed) then
        Err (Protocol "duplicate private route") else
      check_routes tunnel (route :: parsed) rest
  end.

Definition validate_routes (routes : list string) (tunnel : option string) : result unit SqlError :=
  let? tunnel := match tunnel with
                 | None => Ok None
                 | Some t => match parse_ipnet t with
                             | Ok n => Ok (Some n)
                             | Err e => Err (Protocol ("invalid tunnel route: " +:+ e))
                             end
                 end in
  check_routes tunnel [] routes.

Definition endpoint_port (endpoint : string) : result Z SqlError :=
  match socket_addr_port endpoint with
  | Some p => Ok p
  | None =>
      let? (host, port) := ok_or (rsplit_once ":" endpoint)
        (Protocol "Remote WireGuard endpoint must include a UDP port, for example 203.0.113.10:51820") in
      if str_is_empty host || has_whitespace (chars host)
         || negb (forallb (λ c, is_ascii_alphanumeric c || is_char "." c || is_char "-" c) (chars host))
      then Err (Protocol "Remote WireGuard endpoint contains an invalid hostname or address") else
      ok_or (parse_u16 port) (Protocol "Remote WireGuard endpoint port must be between 1 and 65535")
  end.
End rules.

(** The enums of the request *)
Inductive ConnectionMode := DirectSsh | ManagedWireguard | ExternalPrivateNetwork.
#[export] Instance ConnectionMode_eq_dec : EqDecision ConnectionMode.
Proof. solve_decision. Defined.
Inductive NetworkProvider := Wireguard | Tailscale | Zerotier | Netbird | Custom.
#[export] Instance NetworkProvider_eq_dec : EqDecision NetworkProvider.
Proof. solve_decision. Defined.

Record UpdatePrivateNetworkDto := mkUpdateNetwork {
  un_connection_mode : ConnectionMode;
  un_provider : option NetworkProvider;
  un_private_host : option string;
  un_tunnel_address : option string;
  un_public_key : option string;
  un_endpoint : option string;
  un_listen_port : option Z;
  un_persistent_keepalive : option Z;
  un_dns_name : option string;
  un_routes : list string;
}.

Section validate.
Context `{IpnetLib}.

Definition nonempty_trimmed (o : option string) : option string :=
  match o with Some s => if str_is_empty (trim s) then None else Some (trim s) | None => None end.

(** Endpoints a form is pre-filled with are not checked. *)
Definition placeholder_endpoint (endpoint : string) : bool :=
  let lower := to_ascii_lowercase endpoint in
  contains "example.com" lower || contains "exmaple" lower || contains "pannel.example" lower.

Definition validate_managed (input : UpdatePrivateNetworkDto) (provider : NetworkProvider)
    : result unit SqlError :=
  if negb (bool_decide (provider = Wireguard)) then
    Err (Protocol "managed private networks require the WIREGUARD provider") else
  let? cidr := ok_or (un_tunnel_address input) (Protocol "managed WireGuard requires tunnel_address") in
  let? (_, _, expected_host) := tunnel_addresses cidr in
  if negb (bool_decide (un_private_host input = Some expected_host)) then
    Err (Protocol ("private_host must be " +:+ expected_host +:+ " for tunnel " +:+ cidr)) else
  let? listen_port := ok_or (un_listen_port input)
    (Protocol "Remote WireGuard UDP listen port is required and must be between 1 and 65535") in
  match nonempty_trimmed (un_endpoint input) with
  | None => Ok tt
  | Some endpoint =>
      if placeholder_endpoint endpoint then Ok tt else
      let? port := endpoint_port endpoint in
      if negb (port =? listen_port)%Z then
        Err (Protocol ("Remote endpoint port " +:+ i64_to_string port
          +:+ " must match the remote WireGuard UDP listen port " +:+ i64_to_string listen_port))
      else Ok tt
  end.

Definition validate (input : UpdatePrivateNetworkDto) : result unit SqlError :=
  if bool_decide (un_connection_mode input = DirectSsh) then Ok tt else
  let? host := ok_or (match un_private_host input with
                      | Some v => if str_is_empty (trim v) || has_whitespace (chars v) then None else Some v
                      | None => None
                      end)
                 (Protocol "private_host is required and must not contain whitespace") in
  if bool_decide (253 < String.length host) then Err (Protocol "private_host is too long") else
  let? provider := ok_or (un_provider input) (Protocol "private network provider is required") in
  let? _ := validate_dns_name (un_dns_name input) in
  let? _ := validate_routes (un_routes input) (un_tunnel_address input) in
  match un_connection_mode input with
  | ManagedWireguard => validate_managed input provider
  | ExternalPrivateNetwork =>
      if bool_decide (provider = Wireguard) then
        Err (Protocol "use MANAGED_WIREGUARD for the WireGuard provider") else Ok tt
  | DirectSsh => Ok tt
  end.
End validate.

(** ** [retry.rs] *)

(** Durations in nanoseconds *)
Definition duration_max : Z := (2 ^ 64 - 1) * 1000000000 + 999999999.

Record RetryPolicy := mkRetry { attempts : nat; initial_delay : Z; max_delay : Z }.

Definition fast_network : RetryPolicy := mkRetry 2 500000000 1000000000.

Definition next_delay (p : RetryPolicy) (delay : Z) : Z :=
  Z.min (Z.min duration_max (delay * 2)) (max_delay p).

Section retry.
Context {S T E : Type} (p : RetryPolicy) (operation : nat → S → S * result T E).

(** [n] attempts are left, the next is number [attempt]; the delays slept are returned, and
    [None] for the [unreachable!] after the loop. *)
Fixpoint retry_loop (n attempt : nat) (delay : Z) (s : S) : S * list Z * option (result T E) :=
  match n with
  | 0 => (s, [], None)
  | Datatypes.S n' =>
      let '(s', r) := operation attempt s in
      match r with
      | Ok value => (s', [], Some (Ok value))
      | Err error =>
          if bool_decide (attempt = attempts p) then (s', [], Some (Err error)) else
          let '(s'', slept, out) := retry_loop n' (Datatypes.S attempt) (next_delay p delay) s' in
          (s'', delay :: slept, out)
      end
  end.

Definition retry_run (s : S) : S * list Z * option (result T E) :=
  retry_loop (attempts p) 1 (initial_delay p) s.
End retry.

(** * Facts on addresses, validation and retries *)

(** ** The retry loop *)

(** The first [k] attempts failed, one after the other. *)
Inductive failed_attempts {S T E} (operation : nat → S → S * result T E) : nat → S → S → Prop :=
| no_failure s : failed_attempts operation 0 s s
| one_more k s s1 s2 e :
    failed_attempts operation k s s1 → operation (Datatypes.S k) s1 = (s2, Err e) →
    failed_attempts operation (Datatypes.S k) s s2.

Section retry.
Context {S T E : Type} (p : RetryPolicy) (operation : nat → S → S * result T E).

Ltac finish :=
  split_and!; simpl; try done; try lia; try (left; by eexists); try (right; lia).

Lemma retry_loop_spec s0 n : ∀ k delay s,
  k + Datatypes.S n = attempts p → failed_attempts operation k s0 s →
  ∃ m s' s'' r slept,
    retry_loop p operation (Datatypes.S n) (Datatypes.S k) delay s = (s'', slept, Some r)
    ∧ k ≤ m < attempts p ∧ failed_attempts operation m s0 s'
    ∧ operation (Datatypes.S m) s' = (s'', r)
    ∧ (is_Some (result_ok r) ∨ Datatypes.S m = attempts p) ∧ k + length slept = m
    ∧ (delay ≤ Z.max (initial_delay p) (max_delay p) →
       Forall (λ d, d ≤ Z.max (initial_delay p) (max_delay p)) slept)%Z.
Proof.
  induction n as [|n IH]; intros k delay s Hk Hf; simpl; destruct (operation _ s) as [s1 [v|e]] eqn:Eo.
  - exists k, s, s1, (Ok v), []. finish.
  - rewrite bool_decide_eq_true_2 by lia.
    exists k, s, s1, (Err e), []. finish.
  - exists k, s, s1, (Ok v), []. finish.
  - rewrite bool_decide_eq_false_2 by lia.
    destruct (IH (Datatypes.S k) (next_delay p delay) s1) as (m & s' & s'' & r & slept & Er & H1 & H2 & H3 & H4 & H5 & H6);
      [lia | by econstructor|]. simpl in Er. rewrite Er.
    exists m, s', s'', r, (delay :: slept). finish.
    intros Hd. constructor; [done|]. apply H6. unfold next_delay. lia.
Qed.

(** A retry policy with at least one attempt always returns: with the result of the first
    attempt that succeeds or of the last one, after one sleep per earlier failure, none longer
    than the larger of its initial and its maximal delay. *)
Theorem retry_terminates s :
  0 < attempts p →
  ∃ m s' s'' r slept,
    retry_run p operation s = (s'', slept, Some r)
    ∧ m < attempts p ∧ failed_attempts operation m s s' ∧ operation (Datatypes.S m) s' = (s'', r)
    ∧ (is_Some (result_ok r) ∨ Datatypes.S m = attempts p)
    ∧ length slept = m
    ∧ Forall (λ d, d ≤ Z.max (initial_delay p) (max_delay p))%Z slept.
Proof.
  intros Hp. unfold retry_run. destruct (attempts p) as [|n] eqn:En; [lia|]. rewrite <- En.
  destruct (retry_loop_spec s n 0 (initial_delay p) s) as (m & s' & s'' & r & slept & Er & H1 & H2 & H3 & H4 & H5 & H6);
    [lia | constructor|].
  exists m, s', s'', r, slept. rewrite En. rewrite En in H1, H4. finish. apply H6. lia.
Qed.
End retry.

Lemma retry_witness :
  ∃ m s' s'' r slept,
    retry_run fast_network (λ n s, (s + n, if bool_decide (n = 2) then Ok "ready" else Err "down")) 0
      = (s'', slept, Some r)
    ∧ m < 2 ∧ length slept = m ∧ s' + 2 = s''.
Proof.
  destruct (retry_terminates (T := string) (E := string) fast_network
    (λ n s, (s + n, if bool_decide (n = 2) then Ok "ready" else Err "down")) 0)
    as (m & s' & s'' & r & slept & Er & H1 & H2 & H3 & H4 & H5 & _); [simpl; lia|].
  exists 1, 1, 3, (Ok "ready"), [500000000%Z]. by split_and!; [vm_compute|lia|..].
Defined.

(** ** Addresses *)

Section addresses.
Context `{IpnetLaws}.

(** The addresses allocated for a tunnel are the first two hosts of its network: the 32-bit
    additions do not overflow, both hosts lie below the broadcast address, and a network of
    prefix 31 or 32 is refused. *)
Theorem tunnel_bounds cidr panel remote host :
  tunnel_addresses cidr = Ok (panel, remote, host) →
  ∃ n base, parse_ipv4net cidr = Ok n ∧ base = v4_network n
    ∧ (0 ≤ v4_prefix_len n ≤ 30)%Z
    ∧ (base + 2 < base + 2 ^ (32 - v4_prefix_len n) - 1 < 2 ^ 32)%Z
    ∧ host = ipv4_to_string (base + 2)
    ∧ remote = host +:+ "/" +:+ i64_to_string (v4_prefix_len n)
    ∧ panel = ipv4_to_string (base + 1) +:+ "/" +:+ i64_to_string (v4_prefix_len n).
Proof.
  unfold tunnel_addresses. destruct (parse_ipv4net cidr) as [n|] eqn:E; cbn [result_bind]; [|done].
  destruct (30 <? v4_prefix_len n)%Z eqn:Hp; [done|]. apply Z.ltb_ge in Hp.
  pose proof (ipv4net_prefix _ _ E) as Hr. pose proof (ipv4net_network _ _ E) as [Hb Hm].
  set (k := (32 - v4_prefix_len n)%Z) in *. set (base := v4_network n) in *.
  assert (2 ≤ k ≤ 32)%Z as Hk by lia.
  assert (4 ≤ 2 ^ k)%Z as H4 by (change 4%Z with (2 ^ 2)%Z; apply Z.pow_le_mono_r; lia).
  assert (base + 2 ^ k ≤ 2 ^ 32)%Z as Htop.
  { assert (2 ^ 32 = 2 ^ k * 2 ^ (32 - k))%Z as E32 by (rewrite <- Z.pow_add_r by lia; f_equal; lia).
    apply Z.mod_divide in Hm as [q Hq]; [|lia]. rewrite Hq, E32 in Hb |- *.
    assert (q < 2 ^ (32 - k))%Z as Hq' by (apply (Z.mul_lt_mono_pos_r (2 ^ k)); lia).
    assert ((q + 1) * 2 ^ k ≤ 2 ^ (32 - k) * 2 ^ k)%Z by (apply Z.mul_le_mono_nonneg_r; lia). lia. }
  assert (∀ d, 0 ≤ d ≤ 2 → u32_add base d = base + d)%Z as Hadd
    by (intros d Hd; unfold u32_add; apply Z.mod_small; lia).
  cbn zeta. rewrite !Hadd by lia. intros [= <- <- <-].
  exists n, base. fold k. split_and!; try done; try lia.
Qed.
End addresses.

(** A reader of dotted quads, for the witness *)
#[export] Instance sample_ipnet : IpnetLib := {|
  parse_ipv4net s := if bool_decide (s = "10.77.8.9/24") then Ok (mkIpv4Net 172820489 24) else Err "invalid";
  parse_ipnet s := if bool_decide (s = "10.77.8.9/24") then Ok (mkIpNet false 172820489 24)
                   else if bool_decide (s = "10.80.0.0/16") then Ok (mkIpNet false 173015040 16)
                   else Err "invalid";
  v4_network n := (v4_addr n - v4_addr n mod 256)%Z;
|}.
#[export] Instance sample_ipnet_laws : IpnetLaws.
Proof. split; intros s n; simpl; case_bool_decide; try done; intros [= <-]; vm_compute; by split_and!. Qed.

Lemma tunnel_witness :
  tunnel_addresses "10.77.8.9/24" = Ok ("10.77.8.1/24", "10.77.8.2/24", "10.77.8.2")
  ∧ ∃ n base, parse_ipv4net "10.77.8.9/24" = Ok n ∧ base = v4_network n.
Proof.
  assert (tunnel_addresses "10.77.8.9/24" = Ok ("10.77.8.1/24", "10.77.8.2/24", "10.77.8.2")) as E
    by (vm_compute; reflexivity).
  split; [exact E|]. destruct (tunnel_bounds _ _ _ _ E) as (n & base & H1 & H2 & _). eauto.
Defined.

(** ** Interface names *)

Lemma pretty_go_length (k : nat) : ∀ (x : N) s,
  (x < 10 ^ N.of_nat k)%N → String.length (pretty_N_go x s) ≤ k + String.length s.
Proof.
  induction k as [|k IH]; intros x s Hx.
  { change (10 ^ N.of_nat 0)%N with 1%N in Hx. replace x with 0%N by lia. by rewrite pretty_N_go_0. }
  destruct (decide (x = 0%N)) as [->|Hne]; [rewrite pretty_N_go_0; lia|].
  rewrite pretty_N_go_step by lia. etrans; [apply IH|simpl; lia].
  rewrite Nat2N.inj_succ, N.pow_succ_r' in Hx. apply N.Div0.div_lt_upper_bound. lia.
Qed.

Lemma hex_go_length fuel : ∀ n acc, length (hex_go fuel n acc) ≤ fuel + length acc.
Proof.
  induction fuel as [|f IH]; intros n acc; simpl; [lia|]. destruct (n <? 16)%Z; simpl; [lia|].
  etrans; [apply IH|]. simpl. lia.
Qed.

Theorem interface_name_fits server_id :
  String.length (interface_name server_id) ≤ 15
  ∧ starts_with "openoxide" (interface_name server_id) = true
  ∧ ∀ other, (Z.abs server_id < 1000000)%Z → (Z.abs other < 1000000)%Z →
      interface_name other = interface_name server_id → Z.abs other = Z.abs server_id.
Proof.
  unfold interface_name. split_and!.
  - rewrite length_str_app. change (String.length "openoxide") with 9.
    destruct (Z.abs server_id <? 1000000)%Z eqn:E.
    + apply Z.ltb_lt in E. unfold i64_to_string, pretty, pretty_Z.
      destruct (Z.abs server_id) as [|p|p] eqn:Ep; [simpl; lia| |lia].
      change (9 + String.length (pretty_N_go (N.pos p) "") ≤ 15).
      pose proof (pretty_go_length 6 (N.pos p) "") as K. simpl (String.length "") in K.
      assert (N.pos p < 10 ^ N.of_nat 6)%N as Hp by (change (10 ^ N.of_nat 6)%N with 1000000%N; lia).
      specialize (K Hp). lia.
    + rewrite <- length_chars, chars_of_chars. case_bool_decide as Hl; [rewrite length_drop|]; lia.
  - apply starts_with_app.
  - intros other Hs%Z.ltb_lt Ho%Z.ltb_lt. rewrite Hs, Ho. intros Heq%(f_equal chars).
    rewrite !chars_app in Heq. apply app_inv_head, chars_inj, i64_to_string_inj in Heq. done.
Qed.

(** Two servers with one interface name *)
Example interface_name_collision : interface_name 123456 = interface_name 1193046.
Proof. vm_compute. reflexivity. Qed.

(** ** Validation *)

Section validation.
Context `{IpnetLib}.

Lemma check_routes_ok tunnel routes : ∀ parsed,
  check_routes tunnel parsed routes = Ok tt →
  ∃ nets, length nets = length routes ∧ map parse_ipnet routes = map Ok nets
    ∧ NoDup nets ∧ (∀ n, n ∈ nets → net_prefix_len n ≠ 0%Z ∧ Some n ≠ tunnel ∧ n ∉ parsed).
Proof.
  induction routes as [|r routes IH]; intros parsed; simpl.
  { intros _. exists []. split_and!; try done; [constructor | by intros n ?%elem_of_nil]. }
  destruct (parse_ipnet r) as [n|]; simpl; [|done].
  destruct (net_prefix_len n =? 0)%Z eqn:E0; [done|]. case_bool_decide as Ht; [done|].
  case_bool_decide as Hp; [done|]. simpl. intros (nets & Hlen & Hm & Hnd & Hall)%IH.
  exists (n :: nets). split_and!; simpl; [lia | by rewrite Hm | |].
  - constructor; [|done]. intros Hn. apply Hall in Hn as (_ & _ & Hn). apply Hn. constructor.
  - intros x [->|Hx]%elem_of_cons; [apply Z.eqb_neq in E0; done|].
    apply Hall in Hx as (? & ? & Hx). split_and!; try done. intros ?. apply Hx. by constructor.
Qed.

(** A managed network that passes validation names the WireGuard provider, the private host that
    its tunnel derives, a listen port that equals the endpoint's unless the endpoint is missing
    or a placeholder, and distinct routes other than the tunnel and the default route. *)
Theorem validate_managed_meaning input :
  un_connection_mode input = ManagedWireguard → validate input = Ok tt →
  ∃ cidr panel remote host port,
    un_provider input = Some Wireguard ∧ un_tunnel_address input = Some cidr
    ∧ tunnel_addresses cidr = Ok (panel, remote, host) ∧ un_private_host input = Some host
    ∧ un_listen_port input = Some port
    ∧ (∀ endpoint, nonempty_trimmed (un_endpoint input) = Some endpoint →
         placeholder_endpoint endpoint = true ∨ endpoint_port endpoint = Ok port)
    ∧ ∃ tunnel nets, parse_ipnet cidr = Ok tunnel ∧ map parse_ipnet (un_routes input) = map Ok nets
        ∧ NoDup (tunnel :: nets) ∧ ∀ n, n ∈ nets → net_prefix_len n ≠ 0%Z.
Proof.
  intros Hm. unfold validate. rewrite Hm. simpl. intros (h & _ & K)%let_ok.
  case_bool_decide; [done|]. apply let_ok in K as (pr & Hpr & K).
  apply let_ok in K as ([] & _ & K). apply let_ok in K as ([] & Hroutes & K).
  destruct (un_provider input) as [p|]; [|done]. injection Hpr as ->.
  unfold validate_managed in K. case_bool_decide as Hw; simpl in K; [subst pr|done].
  apply let_ok in K as (cidr & Hc & K). destruct (un_tunnel_address input) as [c|]; [|done].
  injection Hc as ->. apply let_ok in K as ([[panel remote] host] & Ht & K).
  case_bool_decide as Hh; simpl in K; [|done]. apply let_ok in K as (port & Hp & K).
  destruct (un_listen_port input) as [lp|]; [|done]. injection Hp as ->.
  exists cidr, panel, remote, host, port. split_and!; try done.
  - intros endpoint He. rewrite He in K. destruct (placeholder_endpoint endpoint); [by left|right].
    apply let_ok in K as (ep & -> & K). destruct (ep =? port)%Z eqn:Ep; [|done].
    apply Z.eqb_eq in Ep. by subst.
  - unfold validate_routes in Hroutes. apply let_ok in Hroutes as (tn & Htn & Hr).
    destruct (parse_ipnet cidr) as [t|]; [|done]. injection Htn as <-.
    apply check_routes_ok in Hr as (nets & _ & Hmap & Hnd & Hall). exists t, nets. split_and!; try done.
    + constructor; [|done]. intros Hin. by apply Hall in Hin as (_ & ? & _).
    + intros n Hn. by apply Hall in Hn as [? _].
Qed.
End validation.

Definition managed_input (endpoint : option string) : UpdatePrivateNetworkDto :=
  mkUpdateNetwork ManagedWireguard (Some Wireguard) (Some "10.77.8.2") (Some "10.77.8.9/24") None
    endpoint (Some 51820%Z) (Some 25%Z) None ["10.80.0.0/16"].

Lemma validate_managed_witness :
  validate (managed_input (Some " vpn.acme.test:51820")) = Ok tt
  ∧ endpoint_port "vpn.acme.test:51820" = Ok 51820%Z.
Proof.
  assert (validate (managed_input (Some " vpn.acme.test:51820")) = Ok tt) as E by (vm_compute; reflexivity).
  split; [exact E|].
  destruct (validate_managed_meaning (managed_input (Some " vpn.acme.test:51820")) eq_refl E) as (c & pa & r & h & p & _ & _ & _ & _ & Hp & He & _).
  injection Hp as <-. by destruct (He "vpn.acme.test:51820").
Defined.

(** The test [rejects_missing_and_placeholder_managed_endpoints] expects both to be refused. *)
Example placeholder_endpoints_pass :
  validate (managed_input None) = Ok tt
  ∧ validate (managed_input (Some "panel.example.com:51820")) = Ok tt.
Proof. vm_compute. split; reflexivity. Qed.

(** The other tests of [validation.rs] *)
Example endpoint_tests :
  endpoint_port "vpn.acme.test:51820" = Ok 51820%Z ∧ endpoint_port "[2001:db8::1]:51820" = Ok 51820%Z
  ∧ endpoint_port "203.0.113.10:51820" = Ok 51820%Z
  ∧ result_ok (endpoint_port ("host:1" +:+ newline +:+ "PostUp=evil")) = None.
Proof. vm_compute. split_and!; reflexivity. Qed.
