(* ===== verification/NetworkDb.v ===== *)
(** * The private-network table

    [src/db/models/server_private_networks.rs] and [src/db/repository/server_private_networks.rs]
    over the table of migrations 0035 to 0037.  [server_id] is the primary key; [now] is the
    clock of the process and of the database. *)

From stdpp Require Import gmap strings list.
From Stdlib Require Import ZArith Lia.
From S2P Require Import Prelude RustStr RustText StringEnum Sql NetworkRules.

(** ** The enums of the model: [as_str] and an exact [try_from] *)

Class ModelEnum (E : Type) := {
  model_name : string;
  model_table : list (E * string);
  model_eq_dec :: EqDecision E;
}.
Class ModelEnumLaws (E : Type) `{ModelEnum E} := {
  model_total : ∀ e : E, e ∈ model_table.*1;
  model_variants : NoDup (model_table (E := E)).*1;
  model_literals : NoDup (model_table (E := E)).*2;
}.

Section model_enum.
Context `{ModelEnum E}.
Definition model_str (e : E) : string :=
  match list_find (λ p, p.1 = e) model_table with Some (_, p) => p.2 | None => "" end.
Definition try_from (value : string) : result E SqlError :=
  match list_find (λ p, p.2 = value) model_table with
  | Some (_, p) => Ok p.1
  | None => Err (Protocol ("invalid " +:+ model_name +:+ " value: " +:+ value))
  end.

Lemma model_str_lookup `{!ModelEnumLaws E} e : ∃ i, model_table !! i = Some (e, model_str e).
Proof.
  unfold model_str. destruct (list_find _ _) as [[i p]|] eqn:E1.
  - apply list_find_Some in E1 as (H1 & <- & _). exists i. by destruct p.
  - apply list_find_None in E1. pose proof (model_total e) as (p & -> & Hp)%list_elem_of_fmap.
    rewrite Forall_forall in E1. by destruct (E1 p Hp).
Qed.

Lemma model_str_inj `{!ModelEnumLaws E} (a b : E) : model_str a = model_str b → a = b.
Proof.
  destruct (model_str_lookup a) as [i Hi], (model_str_lookup b) as [j Hj]. intros Heq.
  assert (i = j) as ->; [|congruence].
  eapply (NoDup_lookup (model_table.*2)); [apply model_literals| |]; rewrite list_lookup_fmap;
    [by rewrite Hi | rewrite Hj; simpl; by rewrite Heq].
Qed.

Lemma try_from_str `{!ModelEnumLaws E} e : try_from (model_str e) = Ok e.
Proof.
  destruct (model_str_lookup e) as [i Hi]. unfold try_from.
  destruct (list_find _ _) as [[j q]|] eqn:E2.
  - apply list_find_Some in E2 as (H2 & H3 & _). do 2 f_equal.
    assert (i = j) as ->; [|by rewrite Hi in H2; injection H2 as <-].
    eapply (NoDup_lookup (model_table.*2)); [apply model_literals| |]; rewrite list_lookup_fmap;
      [by rewrite Hi | rewrite H2; simpl; by rewrite H3].
  - apply list_find_None in E2. rewrite Forall_forall in E2. exfalso.
    apply (E2 (e, model_str e)); [by eapply list_elem_of_lookup_2 | done].
Qed.
End model_enum.

Inductive NetStatus := NetDisabled | NetConfiguring | NetActive | NetFailed.
Inductive NetHealth := HealthUnknown | Healthy | Degraded | Unreachable | ConfigDrift.
Inductive RotationState := RotIdle | RotRotating | RotRollingBack | RotFailed.
Inductive NetOperation := OpSetup | OpRepair | OpRotate | OpTeardown.
#[export] Instance NetStatus_eq_dec : EqDecision NetStatus.
Proof. solve_decision. Defined.
#[export] Instance NetHealth_eq_dec : EqDecision NetHealth.
Proof. solve_decision. Defined.
#[export] Instance RotationState_eq_dec : EqDecision RotationState.
Proof. solve_decision. Defined.
#[export] Instance NetOperation_eq_dec : EqDecision NetOperation.
Proof. solve_decision. Defined.

#[export] Instance ConnectionMode_enum : ModelEnum ConnectionMode := {|
  model_name := "PrivateNetworkConnectionMode";
  model_table := [(DirectSsh, "DIRECT_SSH"); (ManagedWireguard, "MANAGED_WIREGUARD");
                  (ExternalPrivateNetwork, "EXTERNAL_PRIVATE_NETWORK")];
|}.
#[export] Instance NetworkProvider_enum : ModelEnum NetworkProvider := {|
  model_name := "PrivateNetworkProvider";
  model_table := [(Wireguard, "WIREGUARD"); (Tailscale, "TAILSCALE"); (Zerotier, "ZEROTIER");
                  (Netbird, "NETBIRD"); (Custom, "CUSTOM")];
|}.
#[export] Instance NetStatus_enum : ModelEnum NetStatus := {|
  model_name := "PrivateNetworkStatus";
  model_table := [(NetDisabled, "DISABLED"); (NetConfiguring, "CONFIGURING"); (NetActive, "ACTIVE");
                  (NetFailed, "FAILED")];
|}.
#[export] Instance NetHealth_enum : ModelEnum NetHealth := {|
  model_name := "PrivateNetworkHealthStatus";
  model_table := [(HealthUnknown, "UNKNOWN"); (Healthy, "HEALTHY"); (Degraded, "DEGRADED");
                  (Unreachable, "UNREACHABLE"); (ConfigDrift, "CONFIG_DRIFT")];
|}.
#[export] Instance RotationState_enum : ModelEnum RotationState := {|
  model_name := "PrivateNetworkRotationState";
  model_table := [(RotIdle, "IDLE"); (RotRotating, "ROTATING"); (RotRollingBack, "ROLLING_BACK");
                  (RotFailed, "FAILED")];
|}.
#[export] Instance NetOperation_enum : ModelEnum NetOperation := {|
  model_name := "PrivateNetworkOperation";
  model_table := [(OpSetup, "SETUP"); (OpRepair, "REPAIR"); (OpRotate, "ROTATE");
                  (OpTeardown, "TEARDOWN")];
|}.

Ltac model_laws :=
  split; [intros []; repeat constructor | apply (bool_decide_unpack _); vm_compute; exact I ..].
#[export] Instance ConnectionMode_model_laws : ModelEnumLaws ConnectionMode.
Proof. model_laws. Qed.
#[export] Instance NetworkProvider_model_laws : ModelEnumLaws NetworkProvider.
Proof. model_laws. Qed.
#[export] Instance NetStatus_model_laws : ModelEnumLaws NetStatus.
Proof. model_laws. Qed.
#[export] Instance NetHealth_model_laws : ModelEnumLaws NetHealth.
Proof. model_laws. Qed.
#[export] Instance RotationState_model_laws : ModelEnumLaws RotationState.
Proof. model_laws. Qed.
#[export] Instance NetOperation_model_laws : ModelEnumLaws NetOperation.
Proof. model_laws. Qed.

(** ** Rows *)

Record Network := mkNetwork {
  sn_server_id : Z;
  sn_connection_mode : string;
  sn_provider : option string;
  sn_private_host : option string;
  sn_tunnel_address : option string;
  sn_public_key : option string;
  sn_endpoint : option string;
  sn_listen_port : option Z;
  sn_persistent_keepalive : option Z;
  sn_status : string;
  sn_last_handshake_at : option Z;
  sn_config_version : Z;
  sn_dns_name : option string;
  sn_routes : string;
  sn_health_status : string;
  sn_health_error : option string;
  sn_last_health_check_at : option Z;
  sn_consecutive_failures : Z;
  sn_operation : option string;
  sn_operation_lease_until : option Z;
  sn_config_hash : option string;
  sn_rotation_state : string;
  sn_created_at : Z;
  sn_updated_at : Z;
}.

Definition literals (E : Type) `{ModelEnum E} : list string := (model_table (E := E)).*2.

Definition opt_between (lo hi : Z) (o : option Z) : bool :=
  match o with Some z => (lo <=? z)%Z && (z <=? hi)%Z | None => true end.

Definition both_some_eq (f : string → string) (a b : option string) : bool :=
  match a, b with Some x, Some y => bool_decide (f x = f y) | _, _ => false end.

(** The CHECK constraints of 0035 and 0036, and the UNIQUE indexes on the tunnel and on the DNS
    name without case *)
#[export] Instance Network_schema : Schema Network := {|
  row_id := sn_server_id;
  row_check n :=
    bool_decide (sn_connection_mode n ∈ literals ConnectionMode)
    && match sn_provider n with Some p => bool_decide (p ∈ literals NetworkProvider) | None => true end
    && bool_decide (sn_status n ∈ literals NetStatus)
    && (bool_decide (sn_connection_mode n = "DIRECT_SSH") || bool_decide (is_Some (sn_private_host n)))
    && opt_between 1 65535 (sn_listen_port n)
    && opt_between 0 65535 (sn_persistent_keepalive n)
    && bool_decide (sn_health_status n ∈ literals NetHealth)
    && bool_decide (sn_rotation_state n ∈ literals RotationState);
  row_conflict a b :=
    both_some_eq id (sn_tunnel_address a) (sn_tunnel_address b)
    || both_some_eq to_ascii_lowercase (sn_dns_name a) (sn_dns_name b);
|}.

#[export] Instance Network_laws : SchemaLaws Network.
Proof.
  split. intros a b. simpl. f_equal; unfold both_some_eq; repeat case_match; try done;
    apply bool_decide_ext; split; congruence.
Qed.

(** The columns of [servers] and its SSH key that the service reads *)
Record ServerRow := mkServerRow {
  sv_id : Z; sv_ip_address : string; sv_port : Z; sv_username : string; sv_has_key : bool;
}.

Record NetDb := mkNetDb { net_servers : list ServerRow; networks : Table Network }.
Definition with_networks t db := mkNetDb (net_servers db) t.

Definition server_by_id (id : Z) (db : NetDb) : option ServerRow :=
  head (List.filter (λ s, sv_id s =? id)%Z (net_servers db)).
Definition server_exists (id : Z) (db : NetDb) : bool := bool_decide (is_Some (server_by_id id db)).

(** ** [ServerPrivateNetworkRepository] *)

Definition of_server (id : Z) (n : Network) : bool := (sn_server_id n =? id)%Z.

Definition net_get (server_id : Z) (db : NetDb) : option Network :=
  sql_first (of_server server_id) (networks db).

Definition list_managed (db : NetDb) : list Network :=
  sql_select (λ n, bool_decide (sn_connection_mode n = model_str ManagedWireguard)
                   && negb (bool_decide (sn_status n = model_str NetDisabled))) (networks db).

Definition dns_name_le (a b : Network) : bool :=
  match sn_dns_name a, sn_dns_name b with Some x, Some y => str_le x y | _, _ => true end.
Definition list_dns_enabled (db : NetDb) : list Network :=
  sql_order_by dns_name_le
    (sql_select (λ n, bool_decide (is_Some (sn_dns_name n)) && bool_decide (sn_status n = model_str NetActive))
       (networks db)).

Definition net_update (p : Network → bool) (f : Network → Network) (db : NetDb)
    : result (NetDb * nat) SqlError :=
  let? (t, n) := sql_update no_fk p f (networks db) in Ok (with_networks t db, n).

(** An [INSERT] that names its rowid; the rows stay in rowid order. *)
Definition insert_keyed (r : Network) (db : NetDb) : result NetDb SqlError :=
  let t := networks db in
  if negb (row_check r) then Err CheckFailed
  else if existsb (row_conflict r) (rows t) then Err UniqueFailed
  else if negb (server_exists (sn_server_id r) db) then Err ForeignKeyFailed
  else Ok (with_networks
             (mkTable (List.filter (λ x, sn_server_id x <? sn_server_id r)%Z (rows t) ++ [r]
                       ++ List.filter (λ x, sn_server_id r <? sn_server_id x)%Z (rows t))
                (Z.max (seq t) (sn_server_id r))) db).

(** The columns of the statement *)
Record NetworkConfig := mkConfig {
  nc_mode : ConnectionMode; nc_provider : option NetworkProvider; nc_private_host : option string;
  nc_tunnel_address : option string; nc_public_key : option string; nc_endpoint : option string;
  nc_listen_port : option Z; nc_persistent_keepalive : option Z; nc_dns_name : option string;
  nc_routes : string; nc_status : NetStatus;
}.

Definition inserted_network (server_id : Z) (c : NetworkConfig) (now : Z) : Network :=
  mkNetwork server_id (model_str (nc_mode c)) (model_str <$> nc_provider c) (nc_private_host c)
    (nc_tunnel_address c) (nc_public_key c) (nc_endpoint c) (nc_listen_port c)
    (nc_persistent_keepalive c) (model_str (nc_status c)) None 1 (nc_dns_name c) (nc_routes c)
    "UNKNOWN" None None 0 None None None "IDLE" now now.

Definition overwritten_network (c : NetworkConfig) (now : Z) (n : Network) : Network :=
  mkNetwork (sn_server_id n) (model_str (nc_mode c)) (model_str <$> nc_provider c) (nc_private_host c)
    (nc_tunnel_address c) (nc_public_key c) (nc_endpoint c) (nc_listen_port c)
    (nc_persistent_keepalive c) (model_str (nc_status c)) (sn_last_handshake_at n)
    (sn_config_version n + 1) (nc_dns_name c) (nc_routes c) (sn_health_status n) (sn_health_error n)
    (sn_last_health_check_at n) (sn_consecutive_failures n) (sn_operation n)
    (sn_operation_lease_until n) (sn_config_hash n) (sn_rotation_state n) (sn_created_at n) now.

(** [INSERT ... ON CONFLICT(server_id) DO UPDATE], then the row that is there.  The CHECK
    constraints hold of the row that would be inserted before the conflict is looked at. *)
Definition net_upsert (server_id : Z) (c : NetworkConfig) (now : Z) (db : NetDb)
    : result (NetDb * Network) SqlError :=
  let? db' := (if negb (row_check (inserted_network server_id c now)) then Err CheckFailed
               else if sql_exists (of_server server_id) (networks db) then
                 let? (d, _) := net_update (of_server server_id) (overwritten_network c now) db in Ok d
               else insert_keyed (inserted_network server_id c now) db) in
  let? n := ok_or (net_get server_id db') RowNotFound in
  Ok (db', n).

Definition net_disable (server_id : Z) (db : NetDb) : NetDb :=
  with_networks (sql_delete (of_server server_id) (networks db)).1 db.

Definition set_state (status : string) (public_key : option string) (handshake : option Z) (now : Z)
    (n : Network) : Network :=
  mkNetwork (sn_server_id n) (sn_connection_mode n) (sn_provider n) (sn_private_host n)
    (sn_tunnel_address n) (match public_key with Some k => Some k | None => sn_public_key n end)
    (sn_endpoint n) (sn_listen_port n) (sn_persistent_keepalive n) status handshake
    (sn_config_version n) (sn_dns_name n) (sn_routes n) (sn_health_status n) (sn_health_error n)
    (sn_last_health_check_at n) (sn_consecutive_failures n) (sn_operation n)
    (sn_operation_lease_until n) (sn_config_hash n) (sn_rotation_state n) (sn_created_at n) now.

Definition set_runtime_state (server_id : Z) (status : NetStatus) (public_key : option string)
    (handshake : option Z) (now : Z) (db : NetDb) : result (NetDb * nat) SqlError :=
  net_update (of_server server_id) (set_state (model_str status) public_key handshake now) db.

Definition set_lease (operation : option string) (until : option Z) (updated : Z) (n : Network) : Network :=
  mkNetwork (sn_server_id n) (sn_connection_mode n) (sn_provider n) (sn_private_host n)
    (sn_tunnel_address n) (sn_public_key n) (sn_endpoint n) (sn_listen_port n)
    (sn_persistent_keepalive n) (sn_status n) (sn_last_handshake_at n) (sn_config_version n)
    (sn_dns_name n) (sn_routes n) (sn_health_status n) (sn_health_error n) (sn_last_health_check_at n)
    (sn_consecutive_failures n) operation until (sn_config_hash n) (sn_rotation_state n)
    (sn_created_at n) updated.

(** [operation IS NULL OR operation_lease_until < now]; a NULL is not less *)
Definition lease_free (now : Z) (n : Network) : bool :=
  bool_decide (sn_operation n = None)
  || match sn_operation_lease_until n with Some u => (u <? now)%Z | None => false end.

Definition acquire_operation (server_id : Z) (op : NetOperation) (lease_seconds now : Z) (db : NetDb)
    : result (NetDb * bool) SqlError :=
  let? (db', n) := net_update (λ r, of_server server_id r && lease_free now r)
    (λ r, set_lease (Some (model_str op)) (Some (now + lease_seconds)%Z) now r) db in
  Ok (db', bool_decide (n = 1)).

Definition held_by (op : NetOperation) (n : Network) : bool :=
  bool_decide (sn_operation n = Some (model_str op)).

Definition release_operation (server_id : Z) (op : NetOperation) (db : NetDb)
    : result (NetDb * nat) SqlError :=
  net_update (λ r, of_server server_id r && held_by op r)
    (λ r, set_lease None None (sn_updated_at r) r) db.

Definition force_release_operation (server_id : Z) (db : NetDb) : result (NetDb * nat) SqlError :=
  net_update (of_server server_id) (λ r, set_lease None None (sn_updated_at r) r) db.

Definition renew_operation (server_id : Z) (op : NetOperation) (lease_seconds now : Z) (db : NetDb)
    : result (NetDb * bool) SqlError :=
  let? (db', n) := net_update (λ r, of_server server_id r && held_by op r)
    (λ r, set_lease (sn_operation r) (Some (now + lease_seconds)%Z) now r) db in
  Ok (db', bool_decide (n = 1)).

Definition set_health_columns (status : string) (error : option string) (handshake : option Z) (now : Z)
    (n : Network) : Network :=
  mkNetwork (sn_server_id n) (sn_connection_mode n) (sn_provider n) (sn_private_host n)
    (sn_tunnel_address n) (sn_public_key n) (sn_endpoint n) (sn_listen_port n)
    (sn_persistent_keepalive n) (sn_status n)
    (match handshake with Some h => Some h | None => sn_last_handshake_at n end)
    (sn_config_version n) (sn_dns_name n) (sn_routes n) status error (Some now)
    (if bool_decide (status = model_str Healthy) then 0 else sn_consecutive_failures n + 1)
    (sn_operation n) (sn_operation_lease_until n) (sn_config_hash n) (sn_rotation_state n)
    (sn_created_at n) now.

Definition set_health (server_id : Z) (status : NetHealth) (error : option string)
    (handshake : option Z) (now : Z) (db : NetDb) : result (NetDb * nat) SqlError :=
  net_update (of_server server_id) (set_health_columns (model_str status) error handshake now) db.

Definition set_rotation (key : option string) (state : string) (version_step updated : Z) (n : Network) : Network :=
  mkNetwork (sn_server_id n) (sn_connection_mode n) (sn_provider n) (sn_private_host n)
    (sn_tunnel_address n) (match key with Some k => Some k | None => sn_public_key n end)
    (sn_endpoint n) (sn_listen_port n) (sn_persistent_keepalive n) (sn_status n)
    (sn_last_handshake_at n) (sn_config_version n + version_step) (sn_dns_name n) (sn_routes n)
    (sn_health_status n) (sn_health_error n) (sn_last_health_check_at n) (sn_consecutive_failures n)
    (sn_operation n) (sn_operation_lease_until n) (sn_config_hash n) state (sn_created_at n) updated.

Definition begin_rotation (server_id : Z) (db : NetDb) : result (NetDb * nat) SqlError :=
  net_update (of_server server_id)
    (λ n, set_rotation None (model_str RotRotating) 0 (sn_updated_at n) n) db.

Definition finish_rotation (server_id : Z) (public_key : string) (now : Z) (db : NetDb)
    : result (NetDb * nat) SqlError :=
  net_update (of_server server_id) (set_rotation (Some public_key) (model_str RotIdle) 1 now) db.

Definition fail_rotation (server_id : Z) (db : NetDb) : result (NetDb * nat) SqlError :=
  net_update (of_server server_id)
    (λ n, set_rotation None (model_str RotFailed) 0 (sn_updated_at n) n) db.
