(* ===== verification/NetworkService.v ===== *)
(** * The private-network service

    [src/services/server/private_network/service.rs] and [mapping.rs].  The WireGuard backend is
    the trait [ManagedWireGuardBackend], a class here; with it the outside world: SSH, DNS, the
    [wg] command, the JSON codec and the texts of [sqlx] errors.  The interfaces that are
    installed and removed are recorded in the state.  [with_operation] runs its body between
    [acquire_operation] and [release_operation]; the heartbeat that renews the lease meanwhile
    and concurrent operations are the subject of [NetworkLease]. *)

From stdpp Require Import gmap strings list.
From Stdlib Require Import ZArith Lia Ascii.
From S2P Require Import Prelude RustStr RustText StringEnum Sql NetworkRules NetworkDb.

(** ** The backend and the outside world *)

Record WireGuardInstallPlan := mkInstallPlan {
  ip_interface : string; ip_panel_address : string; ip_remote_address : string;
  ip_panel_host : string; ip_remote_host : string; ip_endpoint : string; ip_port : Z;
  ip_keepalive : Z; ip_routes : list string;
}.

Record KernelHealth := mkKernel {
  kh_interface_exists : bool; kh_latest_handshake : option Z;
  kh_peer_public_keys : list string; kh_allowed_ips : list string;
}.

Class NetWorld := {
  backend_install : WireGuardInstallPlan → result string SqlError;
  backend_rotate : WireGuardInstallPlan → result string SqlError;
  backend_teardown : string → result unit SqlError;
  backend_health : string → result KernelHealth SqlError;
  ssh_attempt : Z → string → nat → result unit string; (* server, host, attempt; the error's text *)
  lookup_host : string → result bool string;           (* whether there is an address *)
  wg_interfaces : option string;                       (* the output of [wg show interfaces] *)
  routes_to_json : list string → string;
  routes_of_json : string → result (list string) string;
  sql_error_text : SqlError → string;
}.

Inductive OsAction :=
| OsInstall (interface : string)
| OsRotate (interface : string)
| OsTeardown (interface : string)
| OsRemove (interface : string)
| OsDown (interface : string) (remote : option string). (* the host it is sent to *)

Record NetState := mkNetState { net_db : NetDb; os_actions : list OsAction }.

Definition N (X : Type) : Type := SE NetState SqlError X.

Definition nget {X} (f : NetDb → X) : N X := λ s, (s, Ok (f (net_db s))).
Definition nput {X} (f : NetDb → result (NetDb * X) SqlError) : N X := λ s,
  match f (net_db s) with
  | Ok (db, x) => (mkNetState db (os_actions s), Ok x)
  | Err e => (s, Err e)
  end.
Definition os (a : OsAction) : N unit := λ s, (mkNetState (net_db s) (os_actions s ++ [a]), Ok tt).
(** The result of a computation as a value *)
Definition attempt {X} (m : N X) : N (result X SqlError) := λ s, ((m s).1, Ok (m s).2).

Definition protocol {X} (msg : string) : N X := fail (Protocol msg).

(** ** [mapping.rs] *)

Record ServerPrivateNetworkDto := mkNetworkDto {
  nd_server_id : Z; nd_connection_mode : ConnectionMode; nd_provider : option NetworkProvider;
  nd_private_host : option string; nd_tunnel_address : option string; nd_public_key : option string;
  nd_endpoint : option string; nd_listen_port : option Z; nd_persistent_keepalive : option Z;
  nd_status : NetStatus; nd_last_handshake_at : option Z; nd_config_version : Z;
  nd_dns_name : option string; nd_routes : list string; nd_health_status : NetHealth;
  nd_health_error : option string; nd_last_health_check_at : option Z;
  nd_consecutive_failures : Z; nd_rotation_state : RotationState; nd_updated_at : Z;
}.

Definition conversion_error : string := "out of range integral type conversion attempted".

Definition to_u16 (z : Z) : result Z SqlError :=
  if (0 <=? z)%Z && (z <=? 65535)%Z then Ok z else Err (Protocol conversion_error).

(** [Option::map(..).transpose()?] *)
Definition transpose {X Y} (f : X → result Y SqlError) (o : option X) : result (option Y) SqlError :=
  match o with None => Ok None | Some x => let? y := f x in Ok (Some y) end.

Section service.
Context `{IpnetLib} `{NetWorld}.

Definition json_routes (text : string) : result (list string) SqlError :=
  match routes_of_json text with Ok l => Ok l | Err e => Err (Protocol e) end.

Definition map_network (v : Network) : result ServerPrivateNetworkDto SqlError :=
  let? mode := try_from (sn_connection_mode v) in
  let? provider := transpose try_from (sn_provider v) in
  let? port := transpose to_u16 (sn_listen_port v) in
  let? keepalive := transpose to_u16 (sn_persistent_keepalive v) in
  let? status := try_from (sn_status v) in
  let? routes := json_routes (sn_routes v) in
  let? health := try_from (sn_health_status v) in
  let? rotation := try_from (sn_rotation_state v) in
  Ok (mkNetworkDto (sn_server_id v) mode provider (sn_private_host v) (sn_tunnel_address v)
        (sn_public_key v) (sn_endpoint v) port keepalive status (sn_last_handshake_at v)
        (sn_config_version v) (sn_dns_name v) routes health (sn_health_error v)
        (sn_last_health_check_at v) (sn_consecutive_failures v) rotation (sn_updated_at v)).

(** ** Constants and helpers of [service.rs] *)

Definition OPERATION_LEASE_SECONDS : Z := 30.
Definition OPERATION_HEARTBEAT_SECONDS : Z := 10.
Definition STALE_HANDSHAKE_SECONDS : Z := 180.
Definition AUTO_REPAIR_FAILURE_THRESHOLD : Z := 3.

Definition should_auto_repair (status : NetHealth) (consecutive_failures : Z) : bool :=
  bool_decide (status = ConfigDrift) && (AUTO_REPAIR_FAILURE_THRESHOLD <=? consecutive_failures)%Z.

Definition required (value : option string) (field : string) : result string SqlError :=
  ok_or value (Protocol (field +:+ " is required")).

Definition direct_network (server_id now : Z) : ServerPrivateNetworkDto :=
  mkNetworkDto server_id DirectSsh None None None None None None None NetDisabled None 0 None []
    HealthUnknown None None 0 RotIdle now.

Definition orphaned_managed_interfaces (interfaces : string) (active : list string) : list string :=
  List.filter (λ i, (starts_with "openoxide" i || starts_with "rpwg" i) && negb (bool_decide (i ∈ active)))
    (split_whitespace interfaces).

Definition resolve_wireguard_endpoint (endpoint : string) : result unit SqlError :=
  let target := if contains ":" endpoint then endpoint else endpoint +:+ ":51820" in
  match lookup_host target with
  | Err error => Err (Protocol ("Remote WireGuard endpoint '" +:+ endpoint +:+ "' could not be resolved: "
      +:+ error +:+ ". Enter the remote server's reachable public IP or DNS name with its UDP port, for example 163.44.122.248:51820"))
  | Ok false => Err (Protocol ("Remote WireGuard endpoint '" +:+ endpoint
      +:+ "' resolved to no addresses. Check the hostname and DNS configuration"))
  | Ok true => Ok tt
  end.

Definition assert_server (server_id : Z) : N unit :=
  do! o := nget (server_by_id server_id) in
  do! _ := of_result (ok_or o RowNotFound) in ret tt.

(** The join of [servers] and [ssh_keys] *)
Definition ssh_credentials (server_id : Z) (db : NetDb) : option ServerRow :=
  match server_by_id server_id db with
  | Some s => if sv_has_key s then Some s else None
  | None => None
  end.

Definition verify_private_ssh (server_id : Z) (host : string) : N unit :=
  do! o := nget (ssh_credentials server_id) in
  do! s := of_result (ok_or o RowNotFound) in
  do! _ := of_result (to_u16 (sv_port s)) in
  match (retry_run fast_network (λ n (u : unit), (u, ssh_attempt server_id host n)) tt).2 with
  | Some (Ok _) => ret tt
  | Some (Err e) => protocol ("private network SSH verification failed: " +:+ e)
  | None => protocol "unreachable"
  end.

(** [ServerRepository::get_ssh_credentials]: the address an active managed network selects *)
Definition selected_host (s : ServerRow) (network : option Network) : string :=
  match network with
  | Some n => match sn_private_host n with
              | Some host => if negb (str_is_empty (trim host))
                                && eq_ignore_ascii_case (sn_connection_mode n) "MANAGED_WIREGUARD"
                                && eq_ignore_ascii_case (sn_status n) "ACTIVE"
                             then trim host else sv_ip_address s
              | None => sv_ip_address s
              end
  | None => sv_ip_address s
  end.

(** [compose::remote::remote_executor]: the host it connects to *)
Definition remote_executor (server_id : Z) : N string :=
  do! o := nget (ssh_credentials server_id) in
  do! s := of_result (ok_or o RowNotFound) in
  do! _ := of_result (to_u16 (sv_port s)) in
  nget (λ db, selected_host s (net_get server_id db)).

Definition executors (server_id : Z) : N unit :=
  do! o := nget (ssh_credentials server_id) in
  do! s := of_result (ok_or o RowNotFound) in
  do! _ := of_result (to_u16 (sv_port s)) in ret tt.

Definition default_config (server_id : Z) : NetworkConfig :=
  mkConfig ManagedWireguard (Some Wireguard) None
    (Some ("10.77." +:+ i64_to_string server_id +:+ ".1/24")) None None (Some 51820%Z) (Some 20%Z) None
    "[]" NetConfiguring.

Definition get_model (now server_id : Z) : N Network :=
  do! o := nget (net_get server_id) in
  match o with
  | Some existing => ret existing
  | None => do! _ := assert_server server_id in nput (net_upsert server_id (default_config server_id) now)
  end.

Definition get_required (now server_id : Z) : N ServerPrivateNetworkDto :=
  do! n := get_model now server_id in of_result (map_network n).

(** ** The calls *)

Definition service_get (server_id : Z) : N (option ServerPrivateNetworkDto) :=
  do! _ := assert_server server_id in
  do! o := nget (net_get server_id) in
  of_result (transpose map_network o).

Fixpoint conflicting_network (server_id : Z) (tunnel : option string) (l : list Network) : option Network :=
  match l with
  | [] => None
  | n :: l' =>
      if (sn_server_id n =? server_id)%Z then conflicting_network server_id tunnel l'
      else if bool_decide (sn_tunnel_address n = tunnel) then Some n
      else conflicting_network server_id tunnel l'
  end.

Definition assert_unique_managed_network (server_id : Z) (input : UpdatePrivateNetworkDto) : N unit :=
  let tunnel := un_tunnel_address input in
  do! l := nget list_managed in
  match conflicting_network server_id tunnel l with
  | Some n => protocol ("WireGuard tunnel network " +:+ default "" tunnel +:+ " is already assigned to server "
                          +:+ i64_to_string (sn_server_id n))
  | None => ret tt
  end.

Definition config_of (input : UpdatePrivateNetworkDto) (status : NetStatus) : NetworkConfig :=
  mkConfig (un_connection_mode input) (un_provider input) (un_private_host input)
    (un_tunnel_address input) (un_public_key input) (un_endpoint input) (un_listen_port input)
    (un_persistent_keepalive input) (to_ascii_lowercase <$> un_dns_name input)
    (routes_to_json (un_routes input)) status.

Definition service_update (now server_id : Z) (input : UpdatePrivateNetworkDto)
    : N ServerPrivateNetworkDto :=
  do! _ := assert_server server_id in
  do! _ := of_result (validate input) in
  do! _ := (if bool_decide (un_connection_mode input = ManagedWireguard)
            then assert_unique_managed_network server_id input else ret tt) in
  if bool_decide (un_connection_mode input = DirectSsh) then
    do! _ := nput (λ db, Ok (net_disable server_id db, tt)) in
    ret (direct_network server_id now)
  else
    do! status := (if bool_decide (un_connection_mode input = ExternalPrivateNetwork) then
                     do! _ := verify_private_ssh server_id (default "" (un_private_host input)) in
                     ret NetActive
                   else ret NetConfiguring) in
    do! n := nput (net_upsert server_id (config_of input status) now) in
    of_result (map_network n).

(** [wg-quick down] here and, when the server has a key, there; their errors are ignored. *)
Definition service_disable (server_id : Z) : N unit :=
  do! _ := assert_server server_id in
  do! _ := os (OsDown (interface_name server_id) None) in
  do! r := attempt (remote_executor server_id) in
  do! _ := match r with Ok host => os (OsDown (interface_name server_id) (Some host)) | Err _ => ret tt end in
  nput (λ db, Ok (net_disable server_id db, tt)).

(** The body between the lease's acquisition and its release *)
Definition with_operation {X} (now server_id : Z) (op : NetOperation) (body : N X) : N X :=
  do! acquired := nput (acquire_operation server_id op OPERATION_LEASE_SECONDS now) in
  do! _ := guard (negb acquired) (Protocol "another private-network operation is running") in
  do! result := attempt body in
  do! release := attempt (nput (release_operation server_id op)) in
  of_result (match result, release with
             | Err e, _ => Err e
             | Ok _, Err e => Err e
             | Ok v, Ok _ => Ok v
             end).

Definition verify_external_transport (now : Z) (network : Network) : N unit :=
  do! host := of_result (required (sn_private_host network) "private_host") in
  do! _ := verify_private_ssh (sn_server_id network) host in
  do! _ := nput (set_health (sn_server_id network) Healthy None None now) in ret tt.

Record HealthDto := mkHealthDto {
  hd_status : NetHealth; hd_interface_exists : bool; hd_private_ssh_reachable : bool;
  hd_latest_handshake_at : option Z; hd_checked_at : Z; hd_error : option string;
}.

Definition reach (server_id : Z) (host : option string) : N unit :=
  match host with
  | Some host => verify_private_ssh server_id host
  | None => protocol "private_host is missing"
  end.

Definition is_ok {X} (r : result X SqlError) : bool := match r with Ok _ => true | Err _ => false end.

Definition external_health (now : Z) (network : Network) : N HealthDto :=
  do! reachable := attempt (reach (sn_server_id network) (sn_private_host network)) in
  let '(status, error) := match reachable with
                          | Ok _ => (Healthy, None)
                          | Err e => (Unreachable, Some (sql_error_text e))
                          end in
  do! _ := nput (set_health (sn_server_id network) status error None now) in
  ret (mkHealthDto status true (is_ok reachable) None now error).

Definition is_stale (now : Z) (handshake : option Z) : bool :=
  match handshake with
  | Some t => (STALE_HANDSHAKE_SECONDS <? i64_saturating_sub now t)%Z
  | None => true
  end.

Definition routes_match (network : Network) (desired : list string) (kernel : KernelHealth) : bool :=
  forallb (λ r, bool_decide (r ∈ kh_allowed_ips kernel)) desired
  && match sn_private_host network with
     | Some host => bool_decide (host +:+ "/32" ∈ kh_allowed_ips kernel)
     | None => true
     end.

Definition peer_matches (network : Network) (kernel : KernelHealth) : bool :=
  match sn_public_key network with
  | Some key => bool_decide (key ∈ kh_peer_public_keys kernel)
  | None => true
  end.

Definition classify (now : Z) (network : Network) (desired : list string) (kernel : KernelHealth)
    (ssh : result unit SqlError) : NetHealth * option string :=
  if negb (kh_interface_exists kernel) then (ConfigDrift, Some "WireGuard interface is missing")
  else if negb (routes_match network desired kernel) then
    (ConfigDrift, Some "WireGuard routes differ from desired configuration")
  else if negb (peer_matches network kernel) then
    (ConfigDrift, Some "WireGuard peer key differs from desired configuration")
  else match ssh with
       | Err e => (Unreachable, Some (sql_error_text e))
       | Ok _ => if is_stale now (kh_latest_handshake kernel)
                 then (Degraded, Some "WireGuard handshake is stale") else (Healthy, None)
       end.

Definition service_health (now server_id : Z) : N HealthDto :=
  do! network := get_model now server_id in
  do! mode := of_result (try_from (sn_connection_mode network)) in
  if bool_decide (mode = ExternalPrivateNetwork) then external_health now network else
  do! _ := executors server_id in
  do! kernel := of_result (backend_health (interface_name server_id)) in
  do! ssh := attempt (reach server_id (sn_private_host network)) in
  do! desired := of_result (json_routes (sn_routes network)) in
  let '(status, error) := classify now network desired kernel ssh in
  do! _ := nput (set_health server_id status error (kh_latest_handshake kernel) now) in
  ret (mkHealthDto status (kh_interface_exists kernel) (is_ok ssh) (kh_latest_handshake kernel) now error).

Definition record_setup_failure (now server_id : Z) (public_key : option string) (message : string)
    : N unit :=
  do! _ := nput (set_runtime_state server_id NetFailed public_key None now) in
  do! _ := nput (set_health server_id Unreachable (Some message) None now) in ret tt.

Fixpoint remove_all (l : list string) : N unit :=
  match l with [] => ret tt | i :: l' => do! _ := os (OsRemove i) in remove_all l' end.

Definition remove_orphaned_local_interfaces : N unit :=
  do! l := nget list_managed in
  match wg_interfaces with
  | None => ret tt
  | Some output =>
      remove_all (orphaned_managed_interfaces output (map (λ n, interface_name (sn_server_id n)) l))
  end.

(** [and_then(|v| v.try_into().ok()).unwrap_or(d)] *)
Definition u16_or (o : option Z) (d : Z) : Z :=
  match o with Some z => default d (result_ok (to_u16 z)) | None => d end.

Definition install_plan (server_id : Z) (network : Network) (cidr endpoint : string)
    : result WireGuardInstallPlan SqlError :=
  let? (panel, remote, host) := tunnel_addresses cidr in
  let? ph := panel_host cidr in
  let? routes := json_routes (sn_routes network) in
  Ok (mkInstallPlan (interface_name server_id) panel remote ph host endpoint
        (u16_or (sn_listen_port network) 51820) (u16_or (sn_persistent_keepalive network) 20) routes).

Definition setup_endpoint (network : Network) (remote_ip : string) : string :=
  let raw := trim (default "" (sn_endpoint network)) in
  if str_is_empty raw || contains "example.com" raw || contains "pannel.example" raw
     || contains "example" raw || contains "exmaple" raw
  then remote_ip +:+ ":" +:+ i64_to_string (u16_or (sn_listen_port network) 51820)
  else raw.

(** Records the failure and returns the error. *)
Definition fail_setup {X} (now server_id : Z) (key : option string) (message : string) (e : SqlError)
    : N X :=
  do! _ := record_setup_failure now server_id key message in fail e.

Definition finish_setup (now server_id : Z) (plan : WireGuardInstallPlan) (key : string)
    : N ServerPrivateNetworkDto :=
  do! ssh := attempt (verify_private_ssh server_id (ip_remote_host plan)) in
  match ssh with
  | Err e =>
      let message := "WireGuard was installed, but SSH over the tunnel (" +:+ ip_remote_host plan
        +:+ ") is not reachable: " +:+ sql_error_text e +:+ ". Verify that UDP port "
        +:+ i64_to_string (ip_port plan)
        +:+ " reaches the remote server and that its firewall allows the port" in
      fail_setup now server_id (Some key) message (Protocol message)
  | Ok _ =>
      match backend_health (ip_interface plan) with
      | Err e =>
          let message := "WireGuard was installed, but its health check failed: " +:+ sql_error_text e in
          fail_setup now server_id (Some key) message (Protocol message)
      | Ok kernel =>
          do! _ := nput (set_runtime_state server_id NetActive (Some key) (kh_latest_handshake kernel) now) in
          do! _ := nput (set_health server_id Healthy None (kh_latest_handshake kernel) now) in
          get_required now server_id
      end
  end.

Definition setup_locked (now server_id : Z) : N ServerPrivateNetworkDto :=
  do! network := get_model now server_id in
  do! mode := of_result (try_from (sn_connection_mode network)) in
  do! _ := guard (negb (bool_decide (mode = ManagedWireguard)))
             (Protocol "server is not configured for managed WireGuard") in
  do! status := of_result (try_from (sn_status network)) in
  if bool_decide (status = NetActive) then
    do! _ := service_health now server_id in get_required now server_id
  else
    do! cidr := of_result (required (sn_tunnel_address network) "tunnel_address") in
    do! o := nget (server_by_id server_id) in
    let endpoint := setup_endpoint network (match o with Some s => sv_ip_address s | None => "" end) in
    match resolve_wireguard_endpoint endpoint with
    | Err e => fail_setup now server_id None (sql_error_text e) e
    | Ok _ =>
        do! _ := of_result (tunnel_addresses cidr) in
        do! _ := executors server_id in
        do! _ := remove_orphaned_local_interfaces in
        do! plan := of_result (install_plan server_id network cidr endpoint) in
        do! _ := os (OsInstall (ip_interface plan)) in
        match backend_install plan with
        | Ok key => finish_setup now server_id plan key
        | Err e =>
            let message := "Managed WireGuard setup failed: " +:+ sql_error_text e in
            fail_setup now server_id None message (Protocol message)
        end
    end.

(** An external network is only verified. *)
Definition or_external (now server_id : Z) (managed : N ServerPrivateNetworkDto)
    : N ServerPrivateNetworkDto :=
  do! network := get_model now server_id in
  do! mode := of_result (try_from (sn_connection_mode network)) in
  if bool_decide (mode = ExternalPrivateNetwork) then
    do! _ := verify_external_transport now network in get_required now server_id
  else managed.

Definition setup_transport (now server_id : Z) : N ServerPrivateNetworkDto :=
  or_external now server_id (with_operation now server_id OpSetup (setup_locked now server_id)).

Definition rebuild (now server_id : Z) : N ServerPrivateNetworkDto :=
  do! _ := executors server_id in
  do! _ := os (OsTeardown (interface_name server_id)) in
  do! _ := nput (set_runtime_state server_id NetConfiguring None None now) in
  setup_locked now server_id.

Definition repair_transport (now server_id : Z) : N ServerPrivateNetworkDto :=
  or_external now server_id (with_operation now server_id OpRepair (rebuild now server_id)).

Definition require_managed_wireguard (now server_id : Z) : N unit :=
  do! network := get_model now server_id in
  do! mode := of_result (try_from (sn_connection_mode network)) in
  guard (negb (bool_decide (mode = ManagedWireguard)))
    (Protocol "key rotation is only available for OpenOxide-managed WireGuard").

Definition re_setup_transport (now server_id : Z) : N ServerPrivateNetworkDto :=
  do! _ := require_managed_wireguard now server_id in
  do! _ := ignore (nput (force_release_operation server_id)) in
  with_operation now server_id OpSetup (rebuild now server_id).

Definition rotate_keys (now server_id : Z) : N ServerPrivateNetworkDto :=
  do! network := get_model now server_id in
  do! cidr := of_result (required (sn_tunnel_address network) "tunnel_address") in
  do! endpoint := of_result (required (sn_endpoint network) "endpoint") in
  do! _ := of_result (tunnel_addresses cidr) in
  do! _ := executors server_id in
  do! plan := of_result (install_plan server_id network cidr endpoint) in
  do! _ := os (OsRotate (ip_interface plan)) in
  do! key := of_result (backend_rotate plan) in
  do! _ := verify_private_ssh server_id (ip_remote_host plan) in
  do! _ := nput (set_runtime_state server_id NetActive (Some key) None now) in
  get_required now server_id.

Definition rotate_locked (now server_id : Z) : N ServerPrivateNetworkDto :=
  do! _ := nput (begin_rotation server_id) in
  do! result := attempt (rotate_keys now server_id) in
  match result with
  | Ok network =>
      do! key := of_result (ok_or (nd_public_key network) (Protocol "rotation produced no public key")) in
      do! _ := nput (finish_rotation server_id key now) in
      get_required now server_id
  | Err e => do! _ := nput (fail_rotation server_id) in fail e
  end.

Definition rotate_wireguard (now server_id : Z) : N ServerPrivateNetworkDto :=
  do! _ := require_managed_wireguard now server_id in
  with_operation now server_id OpRotate (rotate_locked now server_id).

Definition teardown_transport (now server_id : Z) : N unit :=
  do! network := get_model now server_id in
  do! mode := of_result (try_from (sn_connection_mode network)) in
  if bool_decide (mode = ExternalPrivateNetwork) then
    nput (λ db, Ok (net_disable server_id db, tt))
  else
    with_operation now server_id OpTeardown
      (do! _ := executors server_id in
       do! _ := os (OsTeardown (interface_name server_id)) in
       do! _ := of_result (backend_teardown (interface_name server_id)) in
       nput (λ db, Ok (net_disable server_id db, tt))).

(** One network of [check_all_health]: every error is logged and dropped. *)
Definition check_network (now server_id : Z) : N unit :=
  do! h := attempt (service_health now server_id) in
  match h with
  | Err _ => ret tt
  | Ok health =>
      do! r := attempt (get_model now server_id) in
      match r with
      | Err _ => ret tt
      | Ok refreshed =>
          if should_auto_repair (hd_status health) (sn_consecutive_failures refreshed) then
            ignore (repair_transport now server_id)
          else if bool_decide (hd_status health = Healthy)
                  && match try_from (sn_status refreshed) with Ok NetFailed => true | _ => false end then
            ignore (nput (set_runtime_state server_id NetActive (sn_public_key refreshed)
                            (sn_last_handshake_at refreshed) now))
          else ret tt
      end
  end.

Fixpoint check_networks (now : Z) (l : list Network) : N unit :=
  match l with [] => ret tt | n :: l' => do! _ := check_network now (sn_server_id n) in check_networks now l' end.

Definition check_all_health (now : Z) : N unit :=
  do! l := nget list_managed in check_networks now l.
End service.
