(* ===== verification/NetworkInv.v ===== *)
(** * The private-network table under the service

    Every call keeps the constraints of the table, and an operation that got the lease has
    given it back when it returns, whatever its body did. *)

From stdpp Require Import gmap strings list.
From Stdlib Require Import ZArith Lia Ascii.
From S2P Require Import Prelude RustStr RustText StringEnum Sql NetworkRules NetworkDb NetworkService.

Definition net_wf (s : NetState) : Prop := table_wf (networks (net_db s)).

Lemma net_update_wf p f db db' n :
  (∀ r, sn_server_id (f r) = sn_server_id r) →
  net_update p f db = Ok (db', n) → table_wf (networks db) → table_wf (networks db').
Proof.
  intros Hf ([t m] & E & [= <- _])%let_ok Hwf. simpl. eapply sql_update_wf; [exact Hwf|exact Hf|exact E].
Qed.

Lemma net_disable_wf id db : table_wf (networks db) → table_wf (networks (net_disable id db)).
Proof. intros ?. simpl. by apply sql_delete_wf. Qed.

Lemma filter_ids_NoDup (q : Network → bool) l :
  NoDup (map sn_server_id l) → NoDup (map sn_server_id (List.filter q l)).
Proof. intros Hnd. eapply sublist_NoDup; [exact Hnd|]. apply fmap_sublist, filterb_sublist. Qed.

Lemma insert_keyed_wf r db db' :
  insert_keyed r db = Ok db' → table_wf (networks db) → table_wf (networks db').
Proof.
  unfold insert_keyed. destruct (row_check r) eqn:Hc; [|done]. cbn [negb].
  destruct (existsb _ _) eqn:Hu; [done|]. destruct (server_exists _ _); cbn [negb]; [|done].
  intros [= <-] [H1 H2 H3 H4]. rewrite existsb_false in Hu.
  set (lo := λ x, (sn_server_id x <? sn_server_id r)%Z). set (hi := λ x, (sn_server_id r <? sn_server_id x)%Z).
  assert (∀ x, x ∈ List.filter lo (rows (networks db)) ++ [r] ++ List.filter hi (rows (networks db)) →
               x = r ∨ x ∈ rows (networks db)) as Hcase.
  { intros x. rewrite !elem_of_app, list_elem_of_singleton, !elem_of_filterb. tauto. }
  split; cbn [rows seq networks with_networks].
  - rewrite !map_app. apply NoDup_app. split_and!; [by apply filter_ids_NoDup| |].
    + intros i (x & -> & Hx)%elem_of_mapb. apply elem_of_filterb in Hx as [_ Hx]. unfold lo in Hx.
      apply Z.ltb_lt in Hx. cbn [map row_id Network_schema]. rewrite elem_of_cons.
      intros [Heq|(y & Heq & [_ Hy]%elem_of_filterb)%elem_of_mapb].
      * lia.
      * unfold hi in Hy. apply Z.ltb_lt in Hy. simpl in Heq. lia.
    + simpl. apply NoDup_cons. split; [|by apply filter_ids_NoDup].
      intros (y & Heq & [_ Hy]%elem_of_filterb)%elem_of_mapb. unfold hi in Hy. apply Z.ltb_lt in Hy. lia.
  - intros x [->|Hx]%Hcase; [simpl; lia|]. specialize (H2 x Hx). lia.
  - intros x [->|Hx]%Hcase; auto.
  - intros x y [->|Hx]%Hcase [->|Hy]%Hcase Hne; auto; [done|].
    rewrite row_conflict_sym. auto.
Qed.

Lemma net_upsert_wf id c now db db' n :
  net_upsert id c now db = Ok (db', n) → table_wf (networks db) → table_wf (networks db').
Proof.
  unfold net_upsert. intros (d & E & K)%let_ok. apply let_ok in K as (x & _ & [= <- _]).
  destruct (row_check _); [|done]. cbn [negb] in E. destruct (sql_exists _ _).
  - apply let_ok in E as ([d' m] & E & [= <-]). by eapply net_update_wf; [|exact E].
  - by eapply insert_keyed_wf.
Qed.

(** ** Calls *)

Definition keeps_net {X} (m : N X) : Prop := ∀ s, net_wf s → net_wf (m s).1.

Lemma bind_net {X Y} (m : N X) (k : X → N Y) :
  keeps_net m → (∀ x, keeps_net (k x)) → keeps_net (bind m k).
Proof.
  intros Hm Hk s Hwf. unfold bind. specialize (Hm s Hwf). destruct (m s) as [s1 [x|e]]; [|done]. by apply Hk.
Qed.
Lemma reads_net {X} (m : N X) : reads m → keeps_net m.
Proof. intros Hm s Hwf. by rewrite Hm. Qed.
Lemma nput_net {X} (f : NetDb → result (NetDb * X) SqlError) :
  (∀ db db' x, f db = Ok (db', x) → table_wf (networks db) → table_wf (networks db')) → keeps_net (nput f).
Proof.
  intros Hf s Hwf. unfold nput. destruct (f (net_db s)) as [[db x]|] eqn:E; [|done]. by eapply Hf.
Qed.
Lemma os_net a : keeps_net (os a).
Proof. by intros s Hwf. Qed.
Lemma attempt_net {X} (m : N X) : keeps_net m → keeps_net (attempt m).
Proof. intros Hm s Hwf. by apply Hm. Qed.
Lemma ignore_net {X} (m : N X) : keeps_net m → keeps_net (ignore m).
Proof. intros Hm s Hwf. by apply Hm. Qed.
Lemma nget_reads {X} (f : NetDb → X) : reads (nget f).
Proof. done. Qed.
Lemma remove_all_net l : keeps_net (remove_all l).
Proof. induction l as [|i l IH]; [by intros s|]. apply bind_net; [apply os_net | done]. Qed.

#[export] Hint Resolve nget_reads : oxide.

Ltac lease_statement :=
  apply nput_net; intros ? ? ?;
  first
    [ apply net_upsert_wf
    | (intros [= <- _]; apply net_disable_wf)
    | (unfold set_runtime_state, set_health, begin_rotation, finish_rotation, fail_rotation,
         release_operation, force_release_operation; apply net_update_wf; done)
    | (unfold acquire_operation, renew_operation;
       intros ([? ?] & E & [= <- _])%let_ok; revert E; apply net_update_wf; done) ].

Create HintDb nets.

Ltac walk_net :=
  cbn zeta;
  repeat first
    [ solve [auto 1 with nets nocore]
    | match goal with
      | |- keeps_net (attempt _) => apply attempt_net
      | |- keeps_net (ignore _) => apply ignore_net
      end
    | apply bind_net; [|intros ?]
    | solve [apply reads_net; auto with oxide]
    | solve [lease_statement]
    | apply os_net | apply remove_all_net
    | progress cbn zeta
    | case_match ].

Section calls.
Context `{IpnetLib} `{NetWorld}.

Lemma verify_net id host : keeps_net (verify_private_ssh id host).
Proof. unfold verify_private_ssh, protocol. walk_net. Qed.
Lemma get_model_net now id : keeps_net (get_model now id).
Proof. unfold get_model, assert_server. walk_net. Qed.
Lemma executors_net id : keeps_net (executors id).
Proof. unfold executors. walk_net. Qed.
Hint Resolve verify_net get_model_net executors_net : nets.

Lemma get_required_net now id : keeps_net (get_required now id).
Proof. unfold get_required. walk_net. Qed.
Lemma with_operation_net {X} now id op (body : N X) : keeps_net body → keeps_net (with_operation now id op body).
Proof. intros Hb. unfold with_operation. walk_net. Qed.
Hint Resolve get_required_net : nets.

Lemma health_net now id : keeps_net (service_health now id).
Proof. unfold service_health, external_health, reach, protocol. walk_net. Qed.
Hint Resolve health_net : nets.

Lemma setup_net now id : keeps_net (setup_locked now id).
Proof.
  unfold setup_locked, fail_setup, record_setup_failure, finish_setup, remove_orphaned_local_interfaces.
  walk_net.
Qed.
Hint Resolve setup_net : nets.

Lemma rebuild_net now id : keeps_net (rebuild now id).
Proof. unfold rebuild. walk_net. Qed.
Lemma rotate_locked_net now id : keeps_net (rotate_locked now id).
Proof. unfold rotate_locked, rotate_keys. walk_net. Qed.
Lemma or_external_net now id m : keeps_net m → keeps_net (or_external now id m).
Proof. intros Hm. unfold or_external, verify_external_transport. walk_net. Qed.
Hint Resolve rebuild_net rotate_locked_net : nets.

(** The calls of the service *)
Inductive NetCall :=
| NetGet (server_id : Z)
| NetUpdate (server_id : Z) (input : UpdatePrivateNetworkDto)
| NetDisable (server_id : Z)
| NetSetup (server_id : Z)
| NetRepair (server_id : Z)
| NetReSetup (server_id : Z)
| NetRotate (server_id : Z)
| NetCheckHealth (server_id : Z)
| NetTeardown (server_id : Z)
| NetCheckAll.

Definition net_call (now : Z) (c : NetCall) (s : NetState) : NetState :=
  match c with
  | NetGet id => (service_get id s).1
  | NetUpdate id input => (service_update now id input s).1
  | NetDisable id => (service_disable id s).1
  | NetSetup id => (setup_transport now id s).1
  | NetRepair id => (repair_transport now id s).1
  | NetReSetup id => (re_setup_transport now id s).1
  | NetRotate id => (rotate_wireguard now id s).1
  | NetCheckHealth id => (service_health now id s).1
  | NetTeardown id => (teardown_transport now id s).1
  | NetCheckAll => (check_all_health now s).1
  end.

Lemma repair_net now id : keeps_net (repair_transport now id).
Proof. apply or_external_net, with_operation_net, rebuild_net. Qed.
Hint Resolve repair_net : nets.

Lemma check_networks_net now l : keeps_net (check_networks now l).
Proof.
  induction l as [|n l IH]; [by intros s|]. apply bind_net; [|done].
  unfold check_network. walk_net.
Qed.
Hint Resolve check_networks_net : nets.

Lemma net_call_wf now c s : net_wf s → net_wf (net_call now c s).
Proof.
  assert (∀ X (m : N X), keeps_net m → net_wf s → net_wf (m s).1) as Hk by auto.
  destruct c; simpl; apply Hk.
  - unfold service_get, assert_server. walk_net.
  - unfold service_update, assert_server, assert_unique_managed_network, protocol. walk_net.
  - unfold service_disable, assert_server, remote_executor. walk_net.
  - apply or_external_net, with_operation_net, setup_net.
  - apply repair_net.
  - unfold re_setup_transport, require_managed_wireguard. walk_net.
  - unfold rotate_wireguard, require_managed_wireguard. walk_net.
  - apply health_net.
  - unfold teardown_transport. walk_net.
  - unfold check_all_health. walk_net.
Qed.

Lemma net_calls_wf cs : ∀ s, net_wf s → net_wf (foldl (λ s c, net_call c.1 c.2 s) s cs).
Proof. induction cs as [|c cs IH]; intros s Hwf; [done|]. by apply IH, net_call_wf. Qed.

(** A statement on one server touches at most one row. *)
Lemma select_server_le p id t :
  table_wf t → (∀ x, p x = true → of_server id x = true) → length (sql_select p t) ≤ 1.
Proof.
  intros Hwf Hp. pose proof (filter_ids_NoDup p _ (wf_ids _ Hwf)) as Hnd. unfold sql_select.
  assert (∀ x, x ∈ List.filter p (rows t) → sn_server_id x = id) as Hall.
  { intros x [_ Hx]%elem_of_filterb. apply Hp in Hx. by apply Z.eqb_eq in Hx. }
  destruct (List.filter p (rows t)) as [|a [|b l]]; simpl; [lia..|]. exfalso.
  simpl in Hnd. apply NoDup_cons in Hnd as [Hnd _]. apply Hnd.
  rewrite (Hall a), (Hall b) by set_solver. constructor.
Qed.

Lemma select_server_one p id t r :
  table_wf t → (∀ x, p x = true → of_server id x = true) → r ∈ rows t → p r = true →
  length (sql_select p t) = 1.
Proof.
  intros Hwf Hp Hr Hpr. pose proof (select_server_le p id t Hwf Hp).
  assert (r ∈ sql_select p t) as Hin by (by apply elem_of_filterb).
  destruct (sql_select p t); simpl in *; [by apply elem_of_nil in Hin | lia].
Qed.

Lemma refused_unchanged id op secs now db db' :
  table_wf (networks db) → acquire_operation id op secs now db = Ok (db', false) → db' = db.
Proof.
  intros Hwf ([d k] & Ea & Eb)%let_ok. injection Eb as <- Eb. apply bool_decide_eq_false in Eb.
  unfold net_update in Ea. set (p := λ r, of_server id r && lease_free now r) in *.
  assert (length (sql_select p (networks db)) ≤ 1) as Hle.
  { apply (select_server_le p id); [done|]. unfold p. intros x Hx. by apply andb_true_iff in Hx as [? _]. }
  apply let_ok in Ea as ([t n] & Ea & Ek). injection Ek as <- <-.
  pose proof Ea as (_ & _ & Hn & _)%sql_update_inv. rewrite sql_update_none in Ea.
  - injection Ea as <- _. by destruct db.
  - apply existsb_false. intros x Hx. destruct (p x) eqn:Epx; [|done]. exfalso. apply Eb.
    rewrite Hn. assert (x ∈ sql_select p (networks db)) as Hin by (by apply elem_of_filterb).
    destruct (sql_select p (networks db)); simpl in *; [by apply elem_of_nil in Hin | lia].
Qed.

(** ** The lease is given back *)

Definition not_held (server_id : Z) (op : NetOperation) (db : NetDb) : Prop :=
  ∀ n, n ∈ rows (networks db) → of_server server_id n = true → sn_operation n ≠ Some (model_str op).

Lemma release_frees id op db :
  table_wf (networks db) →
  ∃ db' n, release_operation id op db = Ok (db', n) ∧ not_held id op db'.
Proof.
  intros Hwf. unfold release_operation, net_update. rewrite sql_update_success; [|done|done|..].
  - simpl. do 2 eexists. split; [reflexivity|]. intros n. simpl.
    intros (r & -> & Hr)%elem_of_mapb. unfold updated. destruct (of_server id r && held_by op r) eqn:E.
    + intros _. by simpl.
    + intros Hs. rewrite Hs in E. simpl in E. unfold held_by in E. by apply bool_decide_eq_false in E.
  - intros r Hr _. split; [|done]. exact (wf_check _ Hwf r Hr).
  - done.
Qed.

(** C20: Whatever its body does and returns, an operation under the lease keeps the constraints
    of the table and has given its lease back when it returns, unless it did not get the lease,
    and then nothing has changed. *)
Theorem operation_released {X} now server_id op (body : N X) s :
  keeps_net body → net_wf s →
  let '(s', r) := with_operation now server_id op body s in
  net_wf s'
  ∧ (not_held server_id op (net_db s')
     ∨ (s' = s ∧ r = Err (Protocol "another private-network operation is running"))
     ∨ ∃ e, acquire_operation server_id op OPERATION_LEASE_SECONDS now (net_db s) = Err e ∧ s' = s).
Proof.
  intros Hb Hwf. pose proof (with_operation_net now server_id op body Hb s Hwf) as Hwf'.
  destruct (with_operation now server_id op body s) as [s' r] eqn:E. split; [done|].
  unfold with_operation, bind, nput at 1 in E.
  destruct (acquire_operation _ _ _ _ _) as [[db1 b]|e] eqn:Ea; [|injection E as <- _; eauto].
  destruct b; cbn [guard negb] in E.
  - left. unfold ret, attempt in E. simpl in E.
    assert (net_wf (body (mkNetState db1 (os_actions s))).1) as Hwf2.
    { apply Hb. unfold net_wf. simpl. unfold acquire_operation in Ea.
      apply let_ok in Ea as ([d k] & Ea & [= <- _]). by eapply net_update_wf; [|exact Ea|]. }
    destruct (body _) as [s2 r2]. simpl in *.
    destruct (release_frees server_id op (net_db s2) Hwf2) as (db3 & k & Er & Hn).
    unfold nput in E. rewrite Er in E. simpl in E. injection E as <- _. exact Hn.
  - right. left. injection E as <- <-. split; [|done]. apply refused_unchanged in Ea; [|done].
    subst db1. by destruct s.
Qed.

(** ** A server that has no network yet *)

(** For a server without a private-network row the default configuration is never stored: it
    violates a CHECK constraint, so setup, repair, rotation and health of such a server fail and
    change nothing. *)
Theorem missing_network_refused now server_id s :
  net_get server_id (net_db s) = None →
  get_model now server_id s
  = (s, Err (if server_exists server_id (net_db s) then CheckFailed else RowNotFound)).
Proof.
  intros Hn. unfold get_model, bind, nget. rewrite Hn. unfold assert_server, server_exists, bind, nget.
  destruct (server_by_id _ _); [|done]. simpl. unfold nput, net_upsert.
  assert (row_check (inserted_network server_id (default_config server_id) now) = false) as ->; [reflexivity|done].
Qed.

(** ** What is done to the host *)

Lemma remove_all_run l : ∀ s,
  remove_all l s = (mkNetState (net_db s) (os_actions s ++ map OsRemove l), Ok tt).
Proof.
  induction l as [|i l IH]; intros s; simpl; [rewrite app_nil_r; by destruct s|].
  unfold bind, os. rewrite IH. simpl. by rewrite <- app_assoc.
Qed.

Theorem orphan_removal_safe s :
  ∃ removed, remove_orphaned_local_interfaces s
             = (mkNetState (net_db s) (os_actions s ++ map OsRemove removed), Ok tt)
    ∧ ∀ i, i ∈ removed →
        (starts_with "openoxide" i = true ∨ starts_with "rpwg" i = true)
        ∧ ∀ n, n ∈ list_managed (net_db s) → interface_name (sn_server_id n) ≠ i.
Proof.
  unfold remove_orphaned_local_interfaces, bind, nget. destruct wg_interfaces as [output|].
  - eexists. split; [apply remove_all_run|]. intros i [_ Hi]%elem_of_filterb.
    apply andb_true_iff in Hi as [Hp Ha]. apply negb_true_iff, bool_decide_eq_false in Ha.
    split; [by apply orb_true_iff|]. intros n Hn <-. apply Ha, elem_of_mapb. eauto.
  - exists []. simpl. rewrite app_nil_r. split; [by destruct s | by intros i ?%elem_of_nil].
Qed.

(** Calls that leave the host alone *)
Definition no_os {X} (m : N X) : Prop := ∀ s, os_actions (m s).1 = os_actions s.

Lemma bind_no_os {X Y} (m : N X) (k : X → N Y) : no_os m → (∀ x, no_os (k x)) → no_os (bind m k).
Proof.
  intros Hm Hk s. unfold bind. specialize (Hm s). destruct (m s) as [s1 [x|e]]; simpl in *; [|done].
  by rewrite Hk.
Qed.
Lemma reads_no_os {X} (m : N X) : reads m → no_os m.
Proof. intros Hm s. by rewrite Hm. Qed.
Lemma nput_no_os {X} (f : NetDb → result (NetDb * X) SqlError) : no_os (nput f).
Proof. intros s. unfold nput. by destruct (f _) as [[]|]. Qed.
Lemma attempt_no_os {X} (m : N X) : no_os m → no_os (attempt m).
Proof. intros Hm s. apply Hm. Qed.

Ltac quiet :=
  cbn zeta;
  repeat first
    [ match goal with |- no_os (attempt _) => apply attempt_no_os end
    | apply bind_no_os; [|intros ?]
    | apply nput_no_os
    | solve [apply reads_no_os; auto with oxide]
    | progress cbn zeta
    | case_match ].

Lemma get_model_no_os now id : no_os (get_model now id).
Proof. unfold get_model, assert_server. quiet. Qed.
Lemma health_no_os now id : no_os (service_health now id).
Proof.
  unfold service_health, external_health, reach, protocol, get_model, assert_server, executors,
    verify_private_ssh, protocol. quiet.
Qed.

Theorem auto_repair_guarded now server_id s :
  os_actions (check_network now server_id s).1 ≠ os_actions s →
  ∃ s1 h n, service_health now server_id s = (s1, Ok h) ∧ hd_status h = ConfigDrift
    ∧ (get_model now server_id s1).2 = Ok n ∧ (3 ≤ sn_consecutive_failures n)%Z.
Proof.
  unfold check_network, bind, attempt. pose proof (health_no_os now server_id s) as Hh.
  destruct (service_health now server_id s) as [s1 [h|e]] eqn:E1; simpl in *; [|by intros []].
  pose proof (get_model_no_os now server_id s1) as Hg.
  destruct (get_model now server_id s1) as [s2 [n|e]] eqn:E2; simpl in *; [|intros []; congruence].
  destruct (should_auto_repair _ _) eqn:Er.
  - intros _. unfold should_auto_repair in Er. bsimp. exists s1, h, n. rewrite E2.
    split_and!; try done.
  - intros Hne. exfalso. apply Hne. destruct (_ && _); [|simpl; congruence].
    unfold ignore. simpl. rewrite nput_no_os. congruence.
Qed.
End calls.
