(* ===== verification/NetworkLease.v ===== *)
(** * The operation lease

    [with_operation] of the private-network service as a transition system: several operations
    on one server, each acquiring the lease, renewing it from its heartbeat, working on the
    table and releasing it, in any interleaving with each other and with the calls that need no
    lease.  Time passes between statements; the lease protects an operation as long as its
    heartbeats come before the lease runs out, which [tick] asks for.  The forced release of
    [re_setup_transport] and the deletion of the row, by [disable], by [teardown_transport] or
    with its server, take the lease from whoever holds it: the system counts them. *)

From stdpp Require Import gmap strings list relations.
From Stdlib Require Import ZArith Lia Ascii.
From S2P Require Import Prelude RustStr RustText StringEnum Sql NetworkRules NetworkDb NetworkService NetworkInv.

(** ** Operations and the system *)

Inductive Task :=
| Running (op : NetOperation)      (* in the loop of [with_operation] *)
| LeaseLost (op : NetOperation)    (* a renewal found the lease gone *)
| Releasing (op : NetOperation).   (* after the loop *)

(** [sys_cuts] counts the statements that took the lease away since an operation was last
    running on the server when none had been. *)
Record System := mkSystem { sys_db : NetDb; sys_now : Z; sys_tasks : gmap nat Task; sys_cuts : nat }.

Definition cuts_of (tasks : gmap nat Task) (k : nat) : nat := if decide (tasks = ∅) then 0 else k.

(** The writes that keep the lease columns *)
Inductive plain_write (now : Z) : NetDb → NetDb → Prop :=
| pw_state id status key handshake n db db' :
    set_runtime_state id status key handshake now db = Ok (db', n) → plain_write now db db'
| pw_health id status error handshake n db db' :
    set_health id status error handshake now db = Ok (db', n) → plain_write now db db'
| pw_begin id n db db' : begin_rotation id db = Ok (db', n) → plain_write now db db'
| pw_finish id key n db db' : finish_rotation id key now db = Ok (db', n) → plain_write now db db'
| pw_fail id n db db' : fail_rotation id db = Ok (db', n) → plain_write now db db'
| pw_upsert id c n db db' : net_upsert id c now db = Ok (db', n) → plain_write now db db'.

Definition lease_of (server_id : Z) (db : NetDb) : option (option string * option Z) :=
  (λ n, (sn_operation n, sn_operation_lease_until n)) <$> net_get server_id db.

(** The lease of the server has not run out at [now]. *)
Definition lease_valid (server_id now : Z) (db : NetDb) : Prop :=
  match lease_of server_id db with Some (Some _, Some u) => (now ≤ u)%Z | _ => True end.

(** [DELETE FROM servers]; the row of the network goes with it (ON DELETE CASCADE). *)
Definition delete_server (id : Z) (db : NetDb) : NetDb :=
  mkNetDb (List.filter (λ s, negb (sv_id s =? id)%Z) (net_servers db))
    (sql_delete (of_server id) (networks db)).1.

Section lease.
Context (server_id : Z).

(** The statements of [re_setup_transport], [disable], [teardown_transport] and the deletion of
    the server that end a lease without asking who holds it *)
Inductive cut : NetDb → NetDb → Prop :=
| cut_forced n db db' : force_release_operation server_id db = Ok (db', n) → cut db db'
| cut_disabled db : cut db (net_disable server_id db)
| cut_deleted db : cut db (delete_server server_id db).

(** The same statements, and those of the lease, for another server *)
Inductive elsewhere (now : Z) : NetDb → NetDb → Prop :=
| else_acquire id op b db db' : id ≠ server_id →
    acquire_operation id op OPERATION_LEASE_SECONDS now db = Ok (db', b) → elsewhere now db db'
| else_renew id op b db db' : id ≠ server_id →
    renew_operation id op OPERATION_LEASE_SECONDS now db = Ok (db', b) → elsewhere now db db'
| else_release id op n db db' : id ≠ server_id →
    release_operation id op db = Ok (db', n) → elsewhere now db db'
| else_forced id n db db' : id ≠ server_id →
    force_release_operation id db = Ok (db', n) → elsewhere now db db'
| else_disabled id db : id ≠ server_id → elsewhere now db (net_disable id db)
| else_deleted id db : id ≠ server_id → elsewhere now db (delete_server id db).

Inductive lease_step : System → System → Prop :=
| acquired pid op db' s :
    sys_tasks s !! pid = None →
    acquire_operation server_id op OPERATION_LEASE_SECONDS (sys_now s) (sys_db s) = Ok (db', true) →
    lease_step s (mkSystem db' (sys_now s) (<[pid := Running op]> (sys_tasks s)) (sys_cuts s))
| refused op db' s :
    acquire_operation server_id op OPERATION_LEASE_SECONDS (sys_now s) (sys_db s) = Ok (db', false) →
    lease_step s (mkSystem db' (sys_now s) (sys_tasks s) (sys_cuts s))
| renewed pid op db' s :
    sys_tasks s !! pid = Some (Running op) →
    renew_operation server_id op OPERATION_LEASE_SECONDS (sys_now s) (sys_db s) = Ok (db', true) →
    lease_step s (mkSystem db' (sys_now s) (sys_tasks s) (sys_cuts s))
| lost pid op db' s :
    sys_tasks s !! pid = Some (Running op) →
    renew_operation server_id op OPERATION_LEASE_SECONDS (sys_now s) (sys_db s) = Ok (db', false) →
    lease_step s (mkSystem db' (sys_now s) (<[pid := LeaseLost op]> (sys_tasks s)) (sys_cuts s))
| write db' s :
    plain_write (sys_now s) (sys_db s) db' →
    lease_step s (mkSystem db' (sys_now s) (sys_tasks s) (sys_cuts s))
| other_server db' s :
    elsewhere (sys_now s) (sys_db s) db' →
    lease_step s (mkSystem db' (sys_now s) (sys_tasks s) (sys_cuts s))
| finished pid op s :
    sys_tasks s !! pid = Some (Running op) →
    lease_step s (mkSystem (sys_db s) (sys_now s) (<[pid := Releasing op]> (sys_tasks s)) (sys_cuts s))
| gave_up pid op s :
    sys_tasks s !! pid = Some (LeaseLost op) →
    lease_step s (mkSystem (sys_db s) (sys_now s) (<[pid := Releasing op]> (sys_tasks s)) (sys_cuts s))
| released pid op n db' s :
    sys_tasks s !! pid = Some (Releasing op) →
    release_operation server_id op (sys_db s) = Ok (db', n) →
    lease_step s (mkSystem db' (sys_now s) (delete pid (sys_tasks s))
                    (cuts_of (delete pid (sys_tasks s)) (sys_cuts s)))
| abandoned pid s :   (* the request is cancelled, or its release fails *)
    lease_step s (mkSystem (sys_db s) (sys_now s) (delete pid (sys_tasks s))
                    (cuts_of (delete pid (sys_tasks s)) (sys_cuts s)))
| lease_cut db' s :
    cut (sys_db s) db' →
    lease_step s (mkSystem db' (sys_now s) (sys_tasks s) (cuts_of (sys_tasks s) (S (sys_cuts s))))
| tick now' s :
    (sys_now s ≤ now')%Z →
    (sys_tasks s ≠ ∅ → lease_valid server_id now' (sys_db s)) →
    lease_step s (mkSystem (sys_db s) now' (sys_tasks s) (sys_cuts s)).

(** ** The invariant: the only task holds the lease *)

Definition task_op (t : Task) : NetOperation :=
  match t with Running op | LeaseLost op | Releasing op => op end.
Definition not_lost (t : Task) : Prop := match t with LeaseLost _ => False | _ => True end.

Record holds (db : NetDb) (now : Z) (op : NetOperation) : Prop := {
  holds_row : ∃ n u, net_get server_id db = Some n ∧ sn_operation n = Some (model_str op)
                     ∧ sn_operation_lease_until n = Some u ∧ (now ≤ u)%Z;
}.

Definition alone (s : System) : Prop :=
  sys_tasks s = ∅ ∨ ∃ pid t, sys_tasks s = {[pid := t]} ∧ not_lost t ∧ holds (sys_db s) (sys_now s) (task_op t).

(** The row names an operation. *)
Definition occupied (db : NetDb) : nat :=
  match lease_of server_id db with Some (Some _, _) => 1 | _ => 0 end.
Definition crowd_inv (s : System) : Prop :=
  (sys_tasks s ≠ ∅ → lease_valid server_id (sys_now s) (sys_db s))
  ∧ size (sys_tasks s) ≤ sys_cuts s + occupied (sys_db s).

(** A statement on the lease columns, seen through the row of the server *)
Lemma update_lease p f db db' n :
  net_update p f db = Ok (db', n) →
  (∀ r, sn_server_id (f r) = sn_server_id r) →
  net_get server_id db' = (λ r, updated p f r) <$> net_get server_id db.
Proof.
  intros ([t m] & E & [= <- _])%let_ok Hf. apply sql_update_inv in E as (Hr & _ & _ & _).
  unfold net_get. simpl. apply sql_first_map; [|done]. intros r. unfold updated, of_server.
  destruct (p r); by rewrite ?Hf.
Qed.

Lemma net_get_elem db n :
  table_wf (networks db) →
  net_get server_id db = Some n ↔ n ∈ rows (networks db) ∧ sn_server_id n = server_id.
Proof.
  intros Hwf. split.
  - intros [Hn Hs]%sql_first_Some. by apply Z.eqb_eq in Hs.
  - intros [Hn <-]. apply (sql_first_id (networks db) n Hwf Hn).
Qed.

(** [net_get] after an insertion under another key *)
Lemma insert_keyed_get r db db' n :
  table_wf (networks db) → insert_keyed r db = Ok db' →
  sn_server_id r ≠ server_id → net_get server_id db = Some n → net_get server_id db' = Some n.
Proof.
  intros Hwf E Hne [Hn Hs]%net_get_elem; [|done]. apply net_get_elem; [by eapply insert_keyed_wf|].
  split; [|done]. unfold insert_keyed in E. destruct (row_check r); [|done]. cbn [negb] in E.
  destruct (existsb _ _); [done|]. destruct (server_exists _ _); cbn [negb] in E; [|done].
  injection E as <-. cbn [rows networks with_networks]. simpl app. rewrite elem_of_app, elem_of_cons, !elem_of_filterb.
  rewrite Hs, !Z.ltb_lt. destruct (Z.lt_trichotomy server_id (sn_server_id r)) as [?|[?|?]];
    [by left | congruence | by right; right].
Qed.

Lemma plain_write_lease now db db' n :
  table_wf (networks db) → plain_write now db db' → net_get server_id db = Some n →
  table_wf (networks db')
  ∧ ∃ n', net_get server_id db' = Some n' ∧ sn_operation n' = sn_operation n
          ∧ sn_operation_lease_until n' = sn_operation_lease_until n.
Proof.
  intros Hwf Hw Hn.
  assert (∀ p f m, net_update p f db = Ok (db', m) → (∀ r, sn_server_id (f r) = sn_server_id r) →
    (∀ r, sn_operation (f r) = sn_operation r ∧ sn_operation_lease_until (f r) = sn_operation_lease_until r) →
    table_wf (networks db')
    ∧ ∃ n', net_get server_id db' = Some n' ∧ sn_operation n' = sn_operation n
            ∧ sn_operation_lease_until n' = sn_operation_lease_until n) as Hup.
  { intros p f m E Hf Hl. split; [by eapply net_update_wf|].
    rewrite (update_lease _ _ _ _ _ E) by done. rewrite Hn. simpl. eexists. split; [done|]. unfold updated.
    destruct (p n); [apply Hl | done]. }
  destruct Hw; try (by eapply Hup). unfold net_upsert in H.
  apply let_ok in H as (d & E & K). apply let_ok in K as (x & _ & [= <- _]).
  destruct (row_check _); [|done]. cbn [negb] in E. destruct (sql_exists _ _) eqn:Ex.
  - apply let_ok in E as ([d' m] & E & [= <-]). by eapply Hup.
  - split; [by eapply insert_keyed_wf|]. exists n. split; [|done].
    eapply insert_keyed_get; [done|exact E| |done]. simpl. intros ->.
    unfold net_get in Hn. rewrite (proj2 (sql_first_None _ _)) in Hn by exact Ex. done.
Qed.

Lemma plain_write_wf now db db' : table_wf (networks db) → plain_write now db db' → table_wf (networks db').
Proof.
  intros Hwf Hw. destruct Hw as [? ? ? ? ? ? ? E|? ? ? ? ? ? ? E|? ? ? ? E|? ? ? ? ? E|? ? ? ? E|? ? ? ? ? E];
    [by eapply net_update_wf; [|exact E|]..|by eapply net_upsert_wf].
Qed.

(** While the lease is held and valid, nobody acquires it and its holder renews it. *)
Lemma held_not_free db now op : holds db now op → ∀ r, net_get server_id db = Some r → lease_free now r = false.
Proof.
  intros [(n & u & Hn & Ho & Hu & Hle)] r Hr. simplify_eq. unfold lease_free. rewrite Ho, Hu.
  rewrite bool_decide_eq_false_2 by done. simpl. apply Z.ltb_ge. lia.
Qed.

Lemma lease_acquire_free op db db' now :
  table_wf (networks db) →
  acquire_operation server_id op OPERATION_LEASE_SECONDS now db = Ok (db', true) →
  ∃ r, net_get server_id db = Some r ∧ lease_free now r = true
       ∧ net_get server_id db'
         = Some (set_lease (Some (model_str op)) (Some (now + OPERATION_LEASE_SECONDS)%Z) now r).
Proof.
  intros Hwf ([d k] & E & Eb)%let_ok. injection Eb as <- Eb. apply bool_decide_eq_true in Eb. subst k.
  pose proof E as ([t m] & Eu & [= _ ->])%let_ok. apply sql_update_inv in Eu as (_ & _ & Hm & _).
  set (p := λ r, of_server server_id r && lease_free now r) in *.
  destruct (sql_select p (networks db)) as [|r l] eqn:Es; [done|].
  assert (r ∈ sql_select p (networks db)) as [Hr Hp]%elem_of_filterb by (rewrite Es; constructor).
  pose proof Hp as [Hs Hfree]%andb_true_iff. apply Z.eqb_eq in Hs.
  assert (net_get server_id db = Some r) as Hget by (by apply net_get_elem).
  exists r. split_and!; [done..|]. rewrite (update_lease _ _ _ _ _ E) by done. rewrite Hget. simpl.
  unfold updated. by rewrite Hp.
Qed.

Lemma acquire_result op db db' now b :
  table_wf (networks db) →
  acquire_operation server_id op OPERATION_LEASE_SECONDS now db = Ok (db', b) →
  table_wf (networks db')
  ∧ if b then holds db' now op ∧ ∀ op', ¬ holds db now op' else db' = db.
Proof.
  intros Hwf Ha. pose proof Ha as ([d k] & E & Eb)%let_ok. injection Eb as <- Eb.
  split; [by eapply net_update_wf; [|exact E|]|]. destruct b; [|by eapply refused_unchanged].
  destruct (lease_acquire_free _ _ _ _ Hwf Ha) as (r & Hget & Hfree & Hget'). split.
  - split. do 2 eexists. split; [exact Hget'|]. simpl. split_and!; [done|done|].
    unfold OPERATION_LEASE_SECONDS. lia.
  - intros op' Hh. by rewrite (held_not_free _ _ _ Hh r Hget) in Hfree.
Qed.

Lemma renew_result op db db' now b :
  table_wf (networks db) → holds db now op →
  renew_operation server_id op OPERATION_LEASE_SECONDS now db = Ok (db', b) →
  table_wf (networks db') ∧ b = true ∧ holds db' now op.
Proof.
  intros Hwf [(n & u & Hn & Ho & Hu & Hle)] Ha. pose proof Ha as ([d k] & E & Eb)%let_ok.
  injection Eb as <- <-. set (p := λ r, of_server server_id r && held_by op r) in *.
  pose proof Hn as [Hin Hs]%net_get_elem; [|done].
  assert (p n = true) as Hp.
  { unfold p, of_server, held_by. rewrite Hs, Z.eqb_refl, Ho. simpl. by rewrite bool_decide_eq_true_2. }
  split; [by eapply net_update_wf; [|exact E|]|]. split.
  - pose proof E as ([t m] & Eu & [= _ ->])%let_ok. apply sql_update_inv in Eu as (_ & _ & -> & _).
    apply bool_decide_eq_true. eapply (select_server_one p server_id); [done| |done|done].
    intros x Hx. by apply andb_true_iff in Hx as [? _].
  - split. rewrite (update_lease _ _ _ _ _ E) by done. rewrite Hn. simpl. unfold updated. rewrite Hp.
    do 2 eexists. split; [done|]. simpl. split_and!; [done|done|].
    unfold OPERATION_LEASE_SECONDS. lia.
Qed.

Lemma only_task (tasks : gmap nat Task) pid t pid' t' :
  tasks = {[pid := t]} → tasks !! pid' = Some t' → pid' = pid ∧ t' = t.
Proof. intros -> [-> ->]%lookup_singleton_Some. done. Qed.

(** *** Deletions, and the statements on other servers *)

Lemma delete_get id t :
  sql_first (of_server server_id) (sql_delete (of_server id) t).1
  = if (id =? server_id)%Z then None else sql_first (of_server server_id) t.
Proof.
  unfold sql_first, sql_select, sql_delete. cbn [rows fst]. induction (rows t) as [|r l IH]; simpl.
  { by case_match. }
  unfold of_server in *. destruct (sn_server_id r =? id)%Z eqn:E1; simpl.
  - rewrite IH. apply Z.eqb_eq in E1. rewrite E1. by destruct (id =? server_id)%Z.
  - destruct (sn_server_id r =? server_id)%Z eqn:E2; [|exact IH]. simpl.
    destruct (id =? server_id)%Z eqn:E3; [|done]. apply Z.eqb_eq in E2, E3. apply Z.eqb_neq in E1. congruence.
Qed.

Lemma other_get p f db db' id n :
  id ≠ server_id → net_update p f db = Ok (db', n) →
  (∀ r, p r = true → of_server id r = true) → (∀ r, sn_server_id (f r) = sn_server_id r) →
  net_get server_id db' = net_get server_id db.
Proof.
  intros Hne E Hp Hf. rewrite (update_lease _ _ _ _ _ E Hf).
  destruct (net_get server_id db) as [r|] eqn:Hr; [|done]. simpl. unfold updated.
  apply sql_first_Some in Hr as [_ Hr]. destruct (p r) eqn:Hpr; [|done]. apply Hp in Hpr.
  unfold of_server in *. apply Z.eqb_eq in Hr, Hpr. congruence.
Qed.

Lemma elsewhere_get now db db' :
  elsewhere now db db' →
  net_get server_id db' = net_get server_id db ∧ (table_wf (networks db) → table_wf (networks db')).
Proof.
  assert (∀ p f id n db db', id ≠ server_id → net_update p f db = Ok (db', n) →
    (∀ r, p r = true → of_server id r = true) → (∀ r, sn_server_id (f r) = sn_server_id r) →
    net_get server_id db' = net_get server_id db ∧ (table_wf (networks db) → table_wf (networks db'))) as Hup.
  { intros p f id n d d' Hne E Hp Hf. split; [by eapply other_get | by eapply net_update_wf]. }
  assert (∀ id q r, of_server id r && q r = true → of_server id r = true) as Hand
    by (intros ??? [? _]%andb_true_iff; done).
  intros [id op b d d' Hne E|id op b d d' Hne E|id op n d d' Hne E|id n d d' Hne E|id d Hne|id d Hne].
  - apply let_ok in E as ([? ?] & E & [= <- _]). eapply Hup; [exact Hne|exact E| |done]. intros r. apply (Hand id).
  - apply let_ok in E as ([? ?] & E & [= <- _]). eapply Hup; [exact Hne|exact E| |done]. intros r. apply (Hand id).
  - eapply Hup; [exact Hne|exact E| |done]. intros r. apply (Hand id).
  - by eapply Hup; [exact Hne|exact E| |].
  - split; [|apply net_disable_wf]. unfold net_get, net_disable. cbn [networks with_networks].
    rewrite delete_get. by destruct (Z.eqb_spec id server_id).
  - split; [|intros ?; by apply sql_delete_wf]. unfold net_get, delete_server. cbn [networks].
    rewrite delete_get. by destruct (Z.eqb_spec id server_id).
Qed.

Lemma cut_frees db db' :
  cut db db' → occupied db' = 0 ∧ (table_wf (networks db) → table_wf (networks db')).
Proof.
  intros [n d d' E|d|d]; unfold occupied, lease_of.
  - split; [|by eapply net_update_wf; [|exact E]]. rewrite (update_lease _ _ _ _ _ E) by done.
    destruct (net_get server_id d) as [r|] eqn:Hr; [|done]. simpl. unfold updated.
    apply sql_first_Some in Hr as [_ Hr]. by rewrite Hr.
  - split; [|apply net_disable_wf]. unfold net_get, net_disable. cbn [networks with_networks].
    by rewrite delete_get, Z.eqb_refl.
  - split; [|intros ?; by apply sql_delete_wf]. unfold net_get, delete_server. cbn [networks].
    by rewrite delete_get, Z.eqb_refl.
Qed.

(** *** What a step leaves of the columns of the lease *)

Definition keeps (now : Z) (db db' : NetDb) : Prop :=
  occupied db' = occupied db ∧ (lease_valid server_id now db → lease_valid server_id now db').

Lemma free_valid now db : occupied db = 0 → lease_valid server_id now db.
Proof. unfold occupied, lease_valid. by repeat case_match. Qed.

Lemma renew_keeps op db db' now b :
  renew_operation server_id op OPERATION_LEASE_SECONDS now db = Ok (db', b) → keeps now db db'.
Proof.
  intros ([d k] & E & [= <- _])%let_ok. unfold keeps, occupied, lease_valid, lease_of.
  rewrite (update_lease _ _ _ _ _ E) by done. destruct (net_get server_id db) as [r|]; [|done].
  simpl. unfold updated. destruct (of_server _ _ && held_by _ _); [|done]. simpl. split; [done|]. intros _.
  destruct (sn_operation r); [|done]. unfold OPERATION_LEASE_SECONDS. lia.
Qed.

Lemma lease_release_frees op db db' n :
  release_operation server_id op db = Ok (db', n) →
  occupied db ≤ S (occupied db') ∧ ∀ now, lease_valid server_id now db → lease_valid server_id now db'.
Proof.
  intros E. unfold occupied, lease_valid, lease_of.
  rewrite (update_lease _ _ _ _ _ E) by done. destruct (net_get server_id db) as [r|]; [|simpl; split; [lia|done]].
  simpl. unfold updated. destruct (of_server _ _ && held_by _ _); simpl; split; try done; repeat case_match; lia.
Qed.

Lemma plain_write_get_None now db db' :
  plain_write now db db' → net_get server_id db = None → occupied db' = 0.
Proof.
  intros Hw Hn. unfold occupied, lease_of.
  assert (∀ p f m, net_update p f db = Ok (db', m) → (∀ r, sn_server_id (f r) = sn_server_id r) →
    net_get server_id db' = None) as Hup by (intros p f m E Hf; by rewrite (update_lease _ _ _ _ _ E Hf), Hn).
  destruct Hw; try (erewrite Hup; [done|exact H|done]). unfold net_upsert in H.
  apply let_ok in H as (d & E & K). apply let_ok in K as (x & _ & [= <- _]).
  destruct (row_check _); [|done]. cbn [negb] in E. destruct (sql_exists _ _) eqn:Ex.
  { apply let_ok in E as ([d' m] & E & [= <-]). by rewrite (Hup _ _ _ E). }
  destruct (net_get server_id d) as [r|] eqn:Hr; [|done]. simpl.
  apply sql_first_Some in Hr as [Hr Hs]. unfold insert_keyed in E.
  destruct (negb _); [done|]. destruct (existsb _ _); [done|]. destruct (negb _); [done|].
  injection E as <-. cbn [rows networks with_networks] in Hr. apply elem_of_app in Hr as [Hr|Hr].
  - apply elem_of_filterb in Hr as [Hr _].
    assert (sql_exists (of_server server_id) (networks db) = true) as Hx by (apply existsb_elem; eauto).
    apply sql_first_None in Hn. by rewrite Hn in Hx.
  - simpl app in Hr. apply elem_of_cons in Hr as [->|[Hr _]%elem_of_filterb]; [done|].
    assert (sql_exists (of_server server_id) (networks db) = true) as Hx by (apply existsb_elem; eauto).
    apply sql_first_None in Hn. by rewrite Hn in Hx.
Qed.

Lemma plain_write_keeps now db db' :
  table_wf (networks db) → plain_write now db db' → keeps now db db'.
Proof.
  intros Hwf Hw. destruct (net_get server_id db) as [n|] eqn:Hn.
  - destruct (plain_write_lease _ _ _ _ Hwf Hw Hn) as (_ & n' & Hn' & E1 & E2).
    unfold keeps, occupied, lease_valid, lease_of. rewrite Hn, Hn'. simpl. by rewrite E1, E2.
  - pose proof (plain_write_get_None _ _ _ Hw Hn) as H0. split; [|intros _; by apply free_valid].
    rewrite H0. unfold occupied, lease_of. by rewrite Hn.
Qed.

Lemma elsewhere_keeps now db db' : elsewhere now db db' → keeps now db db'.
Proof. intros [Hg _]%elsewhere_get. unfold keeps, occupied, lease_valid, lease_of. by rewrite Hg. Qed.

Lemma keeps_crowd s db' :
  keeps (sys_now s) (sys_db s) db' → crowd_inv s → crowd_inv (mkSystem db' (sys_now s) (sys_tasks s) (sys_cuts s)).
Proof. intros [Ho Hv] [H1 H2]. split; simpl; [auto | by rewrite Ho]. Qed.

Lemma moved_crowd s db' pid t t' :
  sys_tasks s !! pid = Some t → keeps (sys_now s) (sys_db s) db' → crowd_inv s →
  crowd_inv (mkSystem db' (sys_now s) (<[pid := t']> (sys_tasks s)) (sys_cuts s)).
Proof.
  intros Hp [Ho Hv] [H1 H2]. split; simpl.
  - intros _. apply Hv, H1. intros He. by rewrite He, lookup_empty in Hp.
  - by rewrite Ho, map_size_insert_Some by eauto.
Qed.

Lemma gone_crowd s db' pid :
  (occupied db' = occupied (sys_db s) ∨ is_Some (sys_tasks s !! pid) ∧ occupied (sys_db s) ≤ S (occupied db')) →
  (lease_valid server_id (sys_now s) (sys_db s) → lease_valid server_id (sys_now s) db') → crowd_inv s →
  crowd_inv (mkSystem db' (sys_now s) (delete pid (sys_tasks s))
               (cuts_of (delete pid (sys_tasks s)) (sys_cuts s))).
Proof.
  intros Ho Hv [H1 H2]. split; simpl.
  - intros Hne. apply Hv, H1. intros He. by rewrite He, delete_empty in Hne.
  - unfold cuts_of. case_decide as He; [rewrite He, map_size_empty; lia|]. rewrite map_size_delete.
    destruct Ho as [->|[[t ->] Ho]]; [case_match; simpl; lia | simpl; lia].
Qed.

Lemma lease_step_crowd s s' : table_wf (networks (sys_db s)) → lease_step s s' → crowd_inv s → crowd_inv s'.
Proof.
  intros Hwf Hs Hinv. assert (∀ now db, keeps now db db) as Hrefl by done. destruct Hs as
    [pid op db' s Hpid Ha|op db' s Ha|pid op db' s Hpid Ha|pid op db' s Hpid Ha|db' s Hw|db' s He
    |pid op s Hpid|pid op s Hpid|pid op n db' s Hpid Hr|pid s|db' s Hc|now' s Hle Hv].
  - destruct Hinv as [H1 H2]. destruct (lease_acquire_free _ _ _ _ Hwf Ha) as (r & Hget & Hfree & Hget').
    assert (occupied db' = 1) as Ho by (unfold occupied, lease_of; by rewrite Hget').
    split; simpl.
    + intros _. unfold lease_valid, lease_of. rewrite Hget'. simpl. unfold OPERATION_LEASE_SECONDS. lia.
    + rewrite map_size_insert_None, Ho by done. destruct (decide (sys_tasks s = ∅)) as [->|Hne];
        [rewrite map_size_empty; lia|]. specialize (H1 Hne). revert H1 H2.
      unfold lease_valid, occupied, lease_of. rewrite Hget. simpl. unfold lease_free in Hfree.
      destruct (sn_operation r); [|lia]. simpl in Hfree. destruct (sn_operation_lease_until r); [|done].
      apply Z.ltb_lt in Hfree. lia.
  - apply acquire_result in Ha as (_ & ->); [|done]. by apply keeps_crowd.
  - apply keeps_crowd; [by eapply renew_keeps | done].
  - eapply moved_crowd; [done | by eapply renew_keeps | done].
  - apply keeps_crowd; [by apply plain_write_keeps | done].
  - apply keeps_crowd; [by apply elsewhere_keeps | done].
  - by eapply moved_crowd.
  - by eapply moved_crowd.
  - apply lease_release_frees in Hr as [Ho Hv]. apply gone_crowd; [right; eauto | auto | done].
  - apply gone_crowd; [by left | done | done].
  - apply cut_frees in Hc as [Ho _]. destruct Hinv as [_ H2]. split; simpl; [intros _; by apply free_valid|].
    unfold cuts_of. case_decide as Hd; [rewrite Hd, map_size_empty; lia|]. unfold occupied in H2.
    repeat case_match; lia.
  - destruct Hinv as [_ H2]. by split.
Qed.

Lemma lease_step_wf s s' : lease_step s s' → table_wf (networks (sys_db s)) → table_wf (networks (sys_db s')).
Proof.
  intros Hs Hwf. destruct Hs; simpl; try done;
    try (by destruct (acquire_result _ _ _ _ _ Hwf H0)); try (by destruct (acquire_result _ _ _ _ _ Hwf H)).
  - apply let_ok in H0 as ([d k] & E & [= <- _]). by eapply net_update_wf; [|exact E|].
  - apply let_ok in H0 as ([d k] & E & [= <- _]). by eapply net_update_wf; [|exact E|].
  - by eapply plain_write_wf.
  - apply elsewhere_get in H as [_ Hw]. auto.
  - by eapply net_update_wf; [|exact H0|].
  - apply cut_frees in H as [_ Hw]. auto.
Qed.

Lemma lease_step_alone s s' : table_wf (networks (sys_db s)) → lease_step s s' →
  (sys_cuts s = 0 → alone s) → sys_cuts s' = 0 → alone s'.
Proof.
  intros Hwf Hs. destruct Hs as
    [pid op db' s Hpid Ha|op db' s Ha|pid op db' s Hpid Ha|pid op db' s Hpid Ha|db' s Hw|db' s He
    |pid op s Hpid|pid op s Hpid|pid op n db' s Hpid Hr|pid s|db' s Hc|now' s Hle Hv]; simpl; intros Ht Hk.
  all: unfold alone; simpl.
  9,10: unfold cuts_of in Hk; case_decide as Hd; [by left|]; destruct (Ht Hk) as [Hz|(p & t & Et & Hl & Hold)];
    [by rewrite Hz, delete_empty in Hd|].
  9: { destruct (only_task _ _ _ _ _ Et Hpid) as [-> _]. by rewrite Et, delete_singleton_eq in Hd. }
  9: { destruct (decide (pid = p)) as [->|Hne]; [by rewrite Et, delete_singleton_eq in Hd|].
       right. exists p, t. split_and!; [rewrite Et; by apply delete_singleton_ne|done|done]. }
  9: { unfold cuts_of in Hk. case_decide; [by left | done]. }
  all: destruct (Ht Hk) as [Hz|(p & t & Et & Hl & Hold)]; clear Ht.
  all: try (by rewrite Hz, lookup_empty in Hpid); try (by left).
  all: try (destruct (only_task _ _ _ _ _ Et Hpid) as [-> <-]; simpl in Hold).
  - apply acquire_result in Ha as (Hwf' & Hh & Hno); [|done]. right.
    exists pid, (Running op). split; [rewrite Hz; apply insert_empty | done].
  - apply acquire_result in Ha as (_ & _ & Hno); [|done]. by destruct (Hno (task_op t)).
  - apply acquire_result in Ha as (_ & ->); [|done]. right. eauto.
  - destruct (renew_result _ _ _ _ _ Hwf Hold Ha) as (_ & _ & Hh). right. by exists p, (Running op).
  - by destruct (renew_result _ _ _ _ _ Hwf Hold Ha) as (_ & ? & _).
  - right. exists p, t. split_and!; [done|done|]. destruct Hold as [(n & u & Hn & Ho & Hu & Hle)]. split.
    destruct (plain_write_lease _ _ _ _ Hwf Hw Hn) as (_ & n' & Hn' & E1 & E2).
    exists n', u. by rewrite E1, E2.
  - right. exists p, t. split_and!; [done|done|]. apply elsewhere_get in He as [Hg _].
    destruct Hold as [Hold]. split. by rewrite Hg.
  - right. exists p, (Releasing op). split_and!; [rewrite Et; apply insert_singleton_eq | done | done].
  - done.
  - right. exists p, t. destruct Hold as [(n & u & Hn & Ho & Hu & _)].
    split_and!; [done|done|]. split. exists n, u. split_and!; [done..|].
    assert (sys_tasks s ≠ ∅) as Hne by (rewrite Et; apply map_non_empty_singleton).
    specialize (Hv Hne). unfold lease_valid, lease_of in Hv. by rewrite Hn in Hv; simpl in Hv; rewrite Ho, Hu in Hv.
Qed.

(** C6: Private-network operations of all servers run in any interleaving with each other, with
    the calls that need no lease, with cancelled requests, with forced releases and with
    deletions of the row or of the server; the heartbeats of whoever holds the lease of the
    server come before it runs out. Then at most one operation more is between acquiring and
    releasing the lease of the server than leases were taken away by a forced release or a
    deletion since it was last idle. As long as none was taken away there is thus at most one,
    it never finds the lease lost, and the row names it with a lease that has not run out. *)
Theorem lease_exclusive s s' :
  table_wf (networks (sys_db s)) → sys_tasks s = ∅ → sys_cuts s = 0 → rtc lease_step s s' →
  size (sys_tasks s') ≤ 1 + sys_cuts s'
  ∧ (sys_cuts s' = 0 →
     (∀ pid op, sys_tasks s' !! pid ≠ Some (LeaseLost op))
     ∧ ∀ pid t, sys_tasks s' !! pid = Some t →
         ∃ n u, net_get server_id (sys_db s') = Some n ∧ sn_operation n = Some (model_str (task_op t))
                ∧ sn_operation_lease_until n = Some u ∧ (sys_now s' ≤ u)%Z).
Proof.
  intros Hwf Ht Hk Hrun.
  assert (crowd_inv s' ∧ (sys_cuts s' = 0 → alone s')) as [[_ Hsize] Halone].
  { assert (crowd_inv s) as Hc by (split; [done | rewrite Ht, map_size_empty; lia]).
    assert (sys_cuts s = 0 → alone s) as Ha by (intros _; by left). clear Ht Hk.
    induction Hrun as [|s1 s2 s3 H1 _ IH]; [done|].
    apply IH; [by eapply lease_step_wf | by eapply lease_step_crowd | by eapply lease_step_alone]. }
  split.
  { assert (occupied (sys_db s') ≤ 1) by (unfold occupied; repeat case_match; lia). lia. }
  intros [->|(p & t & Et & Hl & [Hh])]%Halone.
  - split; [intros ?? H1|intros ?? H1]; by rewrite lookup_empty in H1.
  - split.
    + intros p1 op H1. destruct (only_task _ _ _ _ _ Et H1) as [_ <-]. done.
    + intros p1 t1 H1. destruct (only_task _ _ _ _ _ Et H1) as [_ ->]. exact Hh.
Qed.
End lease.

(** ** Evaluated *)

Definition sample_network : Network :=
  inserted_network 14 (mkConfig ManagedWireguard (Some Wireguard) (Some "10.77.8.2") (Some "10.77.8.9/24")
    None None (Some 51820%Z) (Some 25%Z) None "[]" NetConfiguring) 0.
Definition sample_net : NetDb :=
  mkNetDb [mkServerRow 14 "203.0.113.10" 22 "root" true] (mkTable [sample_network] 14).
Definition step_db {X} (d : NetDb) (r : result (NetDb * X) SqlError) : NetDb :=
  match r with Ok (db, _) => db | Err _ => d end.
Definition after_setup : NetDb := step_db sample_net (acquire_operation 14 OpSetup 30 100 sample_net).
Definition after_renewal : NetDb := step_db after_setup (renew_operation 14 OpSetup 30 110 after_setup).

Lemma sample_net_wf : table_wf (networks sample_net).
Proof. apply table_check_wf. vm_compute. reflexivity. Qed.

Definition setup_runs : System := mkSystem after_renewal 130 {[1 := Running OpSetup]} 0.

Lemma lease_witness :
  size (sys_tasks setup_runs) ≤ 1 + sys_cuts setup_runs
  ∧ ∃ n u, net_get 14 after_renewal = Some n ∧ sn_operation n = Some "SETUP"
           ∧ sn_operation_lease_until n = Some u ∧ (130 ≤ u)%Z.
Proof.
  assert (rtc (lease_step 14) (mkSystem sample_net 100 ∅ 0) setup_runs) as Hrun.
  { eapply rtc_l; [apply (acquired 14 1 OpSetup after_setup); [done | vm_compute; reflexivity]|]. simpl.
    eapply rtc_l; [apply (tick 14 110); [simpl; lia | intros _; vm_compute; congruence]|]. simpl.
    eapply rtc_l; [apply (renewed 14 1 OpSetup after_renewal); [done | vm_compute; reflexivity]|]. simpl.
    apply rtc_once. apply (tick 14 130); [simpl; lia | intros _; vm_compute; congruence]. }
  destruct (lease_exclusive 14 (mkSystem sample_net 100 ∅ 0) setup_runs sample_net_wf eq_refl eq_refl Hrun) as [Hsize Hheld].
  split; [exact Hsize|]. exact (proj2 (Hheld eq_refl) 1 (Running OpSetup) eq_refl).
Defined.

(** [re_setup_transport] while a setup is running: it takes the lease from the setup, which has
    not noticed, and both run. *)
Definition after_force : NetDb := step_db after_renewal (force_release_operation 14 after_renewal).
Definition after_second : NetDb := step_db after_force (acquire_operation 14 OpSetup 30 130 after_force).
Example forced_release_lets_two_run :
  rtc (lease_step 14) setup_runs
    (mkSystem after_second 130 {[1 := Running OpSetup; 2 := Running OpSetup]} 1).
Proof.
  eapply rtc_l; [apply (lease_cut 14 after_force), (cut_forced 14 1); vm_compute; reflexivity|].
  apply rtc_once. apply (acquired 14 2 OpSetup after_second); [done | vm_compute; reflexivity].
Qed.

(** Late heartbeats: the lease names the kind of operation and not its owner.  A second SETUP
    takes the lease that ran out, the first renews it all the same and, when it ends, gives
    the second's lease away: a third operation starts while the second is running. *)
Definition second_setup := acquire_operation 14 OpSetup 30 131 after_setup.
Definition late_renewal := renew_operation 14 OpSetup 30 132 (step_db after_setup second_setup).
Definition first_releases := release_operation 14 OpSetup (step_db after_setup late_renewal).
Definition third := acquire_operation 14 OpTeardown 30 133 (step_db after_setup first_releases).
Definition said {X} (r : result (NetDb * X) SqlError) : option X := snd <$> result_ok r.

Example late_heartbeat_breaks_the_lease :
  said second_setup = Some true ∧ said late_renewal = Some true ∧ said first_releases = Some 1
  ∧ said third = Some true.
Proof. vm_compute. split_and!; reflexivity. Qed.

(** * The private-network service, evaluated

    A host whose interface is missing, a tunnel that answers on the second SSH attempt, and the
    calls of the service on server 14. *)

#[export] Instance sample_world : NetWorld := {|
  backend_install _ := Ok "panel key";
  backend_rotate _ := Ok "new key";
  backend_teardown _ := Ok tt;
  backend_health _ := Ok (mkKernel false None [] []);
  ssh_attempt _ _ n := if bool_decide (n = 2) then Ok tt else Err "connection refused";
  lookup_host _ := Ok true;
  wg_interfaces := Some "wg0 openoxide15 openoxide14 tailscale0";
  routes_to_json l := join "," l;
  routes_of_json s := if bool_decide (s = "[]") then Ok [] else Ok [s];
  sql_error_text e := match e with Protocol m => m | _ => "error" end;
|}.

Definition sample_state (db : NetDb) : NetState := mkNetState db [].

Definition failing_network (failures : Z) : Network :=
  set_health_columns "CONFIG_DRIFT" None None 0
    (mkNetwork 14 "MANAGED_WIREGUARD" (Some "WIREGUARD") (Some "10.77.8.2") (Some "10.77.8.9/24")
       (Some "panel key") None (Some 51820%Z) (Some 25%Z) "ACTIVE" None 1 None "[]" "UNKNOWN" None None
       (failures - 1) None None None "IDLE" 0 0).
Definition failing_net (failures : Z) : NetDb :=
  mkNetDb (net_servers sample_net) (mkTable [failing_network failures] 14).

(** The first setup installs the interface, after removing the one no network owns. *)
Example setup_example :
  let '(s, r) := setup_transport 100 14 (sample_state sample_net) in
  (nd_status <$> result_ok r) = Some NetActive ∧ (nd_health_status <$> result_ok r) = Some Healthy
  ∧ os_actions s = [OsRemove "openoxide15"; OsInstall "openoxide14"]
  ∧ (sn_operation <$> net_get 14 (net_db s)) = Some None.
Proof. vm_compute. split_and!; reflexivity. Qed.

Lemma operation_released_witness :
  let '(s', r) := with_operation 100 14 OpSetup (setup_locked 100 14) (sample_state sample_net) in
  net_wf s'
  ∧ (not_held 14 OpSetup (net_db s')
     ∨ (s' = sample_state sample_net ∧ r = Err (Protocol "another private-network operation is running"))
     ∨ ∃ e, acquire_operation 14 OpSetup OPERATION_LEASE_SECONDS 100 sample_net = Err e
            ∧ s' = sample_state sample_net).
Proof.
  apply (operation_released 100 14 OpSetup (setup_locked 100 14) (sample_state sample_net)).
  - apply setup_net.
  - exact sample_net_wf.
Defined.

Definition bare_net : NetDb := mkNetDb (net_servers sample_net) empty_table.

Lemma missing_network_witness :
  get_model 100 14 (sample_state bare_net) = (sample_state bare_net, Err CheckFailed).
Proof. apply (missing_network_refused 100 14 (sample_state bare_net)). reflexivity. Defined.

Lemma auto_repair_witness :
  ∃ s1 h n, service_health 100 14 (sample_state (failing_net 2)) = (s1, Ok h) ∧ hd_status h = ConfigDrift
    ∧ (get_model 100 14 s1).2 = Ok n ∧ (3 ≤ sn_consecutive_failures n)%Z.
Proof. apply (auto_repair_guarded 100 14 (sample_state (failing_net 2))). vm_compute. discriminate. Defined.

(** With one failure fewer nothing is done. *)
Example no_repair_yet :
  os_actions (check_network 100 14 (sample_state (failing_net 1))).1 = [].
Proof. vm_compute. reflexivity. Qed.

(** Disabling an active managed network takes the local end of the tunnel down first and sends
    the remote command to the address behind it. *)
Example disable_through_the_tunnel :
  os_actions (service_disable 14 (sample_state (failing_net 1))).1
  = [OsDown "openoxide14" None; OsDown "openoxide14" (Some "10.77.8.2")].
Proof. vm_compute. reflexivity. Qed.

Lemma network_invariant_witness :
  net_wf (foldl (λ s c, net_call c.1 c.2 s) (sample_state sample_net)
            [(100%Z, NetSetup 14); (160%Z, NetCheckAll); (170%Z, NetRotate 14); (180%Z, NetTeardown 14)]).
Proof. apply net_calls_wf, sample_net_wf. Defined.
