(* ===== verification/PreviewNames.v ===== *)
(** * Names of preview deployments

    The helpers at the end of [src/services/preview/factory.rs]: the labels made of an application
    name and a pull request number, the name and the domain of a preview, and its environment.
    Texts are UTF-8 bytes; [chars()] is counted in leading bytes. *)

From stdpp Require Import gmap strings list.
From Stdlib Require Import ZArith Lia Ascii.
From S2P Require Import Prelude RustStr RustText.

(** ** Characters *)

(** A byte inside a multi-byte character *)
Definition is_continuation (c : ascii) : bool :=
  let n := N_of_ascii c in ((128 <=? n) && (n <? 192))%N.

(** [chars().take(n)] *)
Fixpoint take_chars (n : nat) (l : list ascii) : list ascii :=
  match l with
  | [] => []
  | c :: l' =>
      if is_continuation c then c :: take_chars n l'
      else match n with O => [] | S n' => c :: take_chars n' l' end
  end.

(** ** Labels *)

Definition label_char (c : ascii) : ascii :=
  if is_ascii_alphanumeric c then ascii_lower c else "-"%char.

(** One character of the label for each character of the value *)
Definition sanitize_label (value : string) : string :=
  trim_matches_char "-" (of_chars (map label_char (List.filter (λ c, negb (is_continuation c)) (chars value)))).

Definition short_label (value : string) (limit : nat) : string :=
  let value := of_chars (take_chars limit (chars (sanitize_label value))) in
  if str_is_empty value then "preview" else value.

(** ** Names, domains and environments *)

Definition preview_app_name (base number : string) : string :=
  let suffix := short_label number 16 in
  trim_matches_char "-" (of_chars (take_chars 40 (chars base)) +:+ "-pr-" +:+ suffix).

Definition bad_label (label : string) : bool := str_is_empty label || (63 <? String.length label)%nat.

Definition preview_domain (app_name : string) (preview_wildcard : option string) (number : string)
    : result string string :=
  let? wildcard :=
    ok_or (match preview_wildcard with
           | Some v => let v := trim v in if str_is_empty v then None else Some v
           | None => None
           end) "Preview wildcard domain is required" in
  let wildcard := trim_start_matches "*." wildcard in
  let app := sanitize_label app_name in
  let pr := short_label number 20 in
  let host := if contains "{app}" wildcard || contains "{pr}" wildcard
              then replace "{pr}" pr (replace "{app}" app wildcard)
              else app +:+ "-pr-" +:+ pr +:+ "." +:+ wildcard in
  if (253 <? String.length host)%nat || existsb bad_label (split_on (is_char ".") host)
  then Err "Generated preview domain is invalid"
  else Ok host.

Definition not_blank (v : option string) : option string :=
  match v with Some s => if str_is_empty (trim s) then None else Some s | None => None end.

Definition merge_environment (base preview : option string) : option string :=
  match not_blank base, not_blank preview with
  | Some b, Some p => Some (b +:+ newline +:+ p)
  | Some b, None => Some b
  | None, Some p => Some p
  | None, None => None
  end.

(** The tests of the source *)
Example preview_name_test : preview_app_name "api_service" "42/test" = "api_service-pr-42-test".
Proof. vm_compute. reflexivity. Qed.
Example merge_test :
  merge_environment (Some "A=1") (Some ("A=2" +:+ newline +:+ "B=3"))
  = Some ("A=1" +:+ newline +:+ "A=2" +:+ newline +:+ "B=3").
Proof. vm_compute. reflexivity. Qed.
Example domain_test :
  preview_domain "My_App" (Some " *.dev.example.org ") "7" = Ok "my-app-pr-7.dev.example.org".
Proof. vm_compute. reflexivity. Qed.
Example placeholder_test :
  preview_domain "shop" (Some "pr{pr}.{app}.dev") "7" = Ok "pr7.shop.dev".
Proof. vm_compute. reflexivity. Qed.

(** ** What labels look like *)

Definition is_label_char (c : ascii) : bool :=
  is_char "-" c || is_ascii_alphanumeric c && negb (is_ascii_upper c).

Lemma label_char_ok c : is_label_char (label_char c) = true.
Proof.
  assert (forallb (λ n, is_label_char (label_char (ascii_of_N (Z.to_N n)))) (seqZ 0 256) = true) as H
    by (vm_compute; reflexivity).
  rewrite forallb_elem in H. specialize (H (Z.of_N (N_of_ascii c))). cbv beta in H.
  rewrite N2Z.id, ascii_N_embedding in H. apply H, elem_of_seqZ.
  pose proof (N_ascii_bounded c). lia.
Qed.

Lemma is_label_char_one_byte c : is_label_char c = true → is_continuation c = false.
Proof.
  unfold is_label_char, is_continuation, is_ascii_alphanumeric, is_ascii_upper, is_char.
  rewrite !orb_true_iff, bool_decide_eq_true. intros [<-|H]; [done|].
  destruct ((_ <=? _) && (_ <? _))%N eqn:E; [|done]. exfalso.
  repeat first [rewrite andb_true_iff in * | rewrite orb_true_iff in * | rewrite N.leb_le in * | rewrite N.ltb_lt in *].
  lia.
Qed.

Lemma drop_char_sub c l : drop_char c l `suffix_of` l.
Proof.
  induction l as [|d l IH]; simpl; [done|]. destruct (is_char c d); [|done].
  by apply suffix_cons_r.
Qed.

Lemma trim_matches_part c s : ∃ a b, chars s = a ++ chars (trim_matches_char c s) ++ b.
Proof.
  unfold trim_matches_char, trim_end_char, trim_start_char. rewrite !chars_of_chars.
  destruct (drop_char_sub c (chars s)) as [a Ha].
  destruct (drop_char_sub c (rev (drop_char c (chars s)))) as [b Hb].
  exists a, (rev b). rewrite Ha at 1. f_equal.
  rewrite <- (rev_involutive (drop_char c (chars s))) at 1. by rewrite Hb at 1; rewrite rev_app_distr.
Qed.

Lemma trim_matches_Forall (P : ascii → Prop) c s :
  Forall P (chars s) → Forall P (chars (trim_matches_char c s)).
Proof. destruct (trim_matches_part c s) as (a & b & ->). rewrite !Forall_app. naive_solver. Qed.

Lemma trim_matches_length c s : String.length (trim_matches_char c s) ≤ String.length s.
Proof.
  rewrite <- !length_chars. destruct (trim_matches_part c s) as (a & b & ->). rewrite !length_app. lia.
Qed.

Lemma take_chars_prefix n l : take_chars n l `prefix_of` l.
Proof.
  revert n. induction l as [|c l IH]; intros n; simpl; [done|].
  destruct (is_continuation c); [by apply prefix_cons|]. destruct n; [apply prefix_nil | by apply prefix_cons].
Qed.

(** On one-byte characters it is the prefix of that length. *)
Lemma take_chars_take n l : Forall (λ c, is_continuation c = false) l → take_chars n l = take n l.
Proof.
  revert n. induction l as [|c l IH]; intros n Hl; [by destruct n|]. apply Forall_cons in Hl as [Hc Hl].
  simpl. rewrite Hc. destruct n; [done|]. simpl. by rewrite IH.
Qed.

Lemma sanitize_label_chars value : Forall (λ c, is_label_char c = true) (chars (sanitize_label value)).
Proof.
  apply trim_matches_Forall. rewrite chars_of_chars. apply Forall_map, Forall_true.
  intros c. apply label_char_ok.
Qed.

Lemma sanitize_label_one_byte value : Forall (λ c, is_continuation c = false) (chars (sanitize_label value)).
Proof. eapply Forall_impl; [apply sanitize_label_chars | apply is_label_char_one_byte]. Qed.

Lemma short_label_spec value limit :
  0 < limit →
  short_label value limit ≠ ""
  ∧ Forall (λ c, is_label_char c = true) (chars (short_label value limit))
  ∧ String.length (short_label value limit) ≤ limit `max` 7.
Proof.
  intros Hl. unfold short_label, str_is_empty.
  rewrite take_chars_take by apply sanitize_label_one_byte.
  case_bool_decide as E; [split_and!; [done| |simpl; lia]|].
  - repeat constructor.
  - split_and!; [done| |].
    + rewrite chars_of_chars. apply Forall_take, sanitize_label_chars.
    + rewrite <- length_chars, chars_of_chars, length_take. lia.
Qed.

(** ** Names are short and separate pull requests *)

Definition is_digit (c : ascii) : bool := let n := N_of_ascii c in ((48 <=? n) && (n <=? 57))%N.

Lemma digit_label c : is_digit c = true →
  label_char c = c ∧ is_continuation c = false ∧ is_char "-" c = false.
Proof.
  intros H. assert (forallb (λ n, let c := ascii_of_N (Z.to_N n) in
      is_char (label_char c) c && negb (is_continuation c) && negb (is_char "-" c)) (seqZ 48 10) = true) as Hall
    by (vm_compute; reflexivity).
  rewrite forallb_elem in Hall. specialize (Hall (Z.of_N (N_of_ascii c))). cbv zeta in Hall.
  rewrite N2Z.id, ascii_N_embedding, !andb_true_iff, !negb_true_iff, is_char_spec in Hall.
  destruct Hall as [[? ?] ?]; [|done]. apply elem_of_seqZ. revert H. unfold is_digit.
  rewrite andb_true_iff, !N.leb_le. lia.
Qed.

Lemma drop_char_stop c d l r : is_char c d = false →
  drop_char c (l ++ d :: r) = drop_char c (l ++ [d]) ++ r.
Proof.
  intros Hd. induction l as [|e l IH]; simpl; [by rewrite Hd|]. destruct (is_char c e); [done|].
  simpl. by rewrite <- app_assoc.
Qed.

Lemma drop_char_head c d l : is_char c d = false → drop_char c (d :: l) = d :: l.
Proof. intros Hd. simpl. by rewrite Hd. Qed.

(** Only the front is trimmed from a text that ends with another character. *)
Lemma trim_matches_front c d e l m :
  is_char c d = false → is_char c e = false →
  trim_matches_char c (of_chars (l ++ d :: m ++ [e])) = of_chars (drop_char c (l ++ [d]) ++ m ++ [e]).
Proof.
  intros Hd He. unfold trim_matches_char, trim_end_char, trim_start_char.
  rewrite !chars_of_chars, (drop_char_stop c d l) by done.
  rewrite app_assoc, rev_app_distr. simpl. rewrite He. simpl. by rewrite rev_involutive.
Qed.

Lemma sanitize_digits s : Forall (λ c, is_digit c = true) (chars s) → sanitize_label s = s.
Proof.
  intros Hs. unfold sanitize_label. apply chars_inj.
  assert (List.filter (λ c, negb (is_continuation c)) (chars s) = chars s) as ->.
  { induction Hs as [|c l Hc Hl IH]; [done|]. simpl.
    destruct (digit_label c Hc) as (_ & -> & _). simpl. by rewrite IH. }
  assert (map label_char (chars s) = chars s) as ->.
  { induction Hs as [|c l Hc Hl IH]; [done|]. simpl. by rewrite IH, (proj1 (digit_label c Hc)). }
  rewrite of_chars_chars. f_equal. unfold trim_matches_char, trim_end_char, trim_start_char.
  rewrite !chars_of_chars. destruct (chars s) as [|c l] eqn:E; [by apply chars_inj|].
  rewrite drop_char_head by (apply digit_label; by inversion Hs).
  destruct (rev (c :: l)) as [|d m] eqn:Er; [by apply (f_equal length) in Er; rewrite length_rev in Er|].
  rewrite drop_char_head.
  - by rewrite <- Er, rev_involutive, <- E, of_chars_chars.
  - apply digit_label. rewrite Forall_forall in Hs. apply Hs.
    rewrite <- (rev_involutive (c :: l)), Er. apply list_elem_of_In, in_rev. rewrite rev_involutive. by left.
Qed.

Definition plain_number (s : string) : Prop :=
  s ≠ "" ∧ Forall (λ c, is_digit c = true) (chars s) ∧ String.length s ≤ 16.

Lemma short_label_number s limit : plain_number s → 16 ≤ limit → short_label s limit = s.
Proof.
  intros (Hne & Hd & Hl) Hlim. unfold short_label.
  rewrite take_chars_take by apply sanitize_label_one_byte. rewrite sanitize_digits by done.
  rewrite take_ge by (rewrite length_chars; lia). rewrite of_chars_chars.
  unfold str_is_empty. by rewrite bool_decide_eq_false_2.
Qed.

(** The part of the name before the number *)
Definition name_front (base : string) : list ascii :=
  drop_char "-" (take_chars 40 (chars base) ++ ["-"; "p"]%char).

Lemma preview_app_name_number base s : plain_number s →
  chars (preview_app_name base s) = name_front base ++ ["r"; "-"]%char ++ chars s.
Proof.
  intros Hs. unfold preview_app_name. rewrite short_label_number by (done || lia).
  destruct Hs as (Hne & Hd & _).
  destruct (decide (chars s = [])) as [E|E]; [destruct Hne; by apply chars_inj|].
  apply exists_last in E as (l & c & E).
  assert (is_char "-" c = false) as Hc.
  { rewrite E in Hd. apply Forall_app in Hd as [_ Hd]. apply digit_label. by inversion Hd. }
  transitivity (chars (trim_matches_char "-" (of_chars
    ((take_chars 40 (chars base) ++ ["-"%char]) ++ "p"%char :: (["r"; "-"]%char ++ l) ++ [c])))).
  - do 2 f_equal. apply chars_inj. rewrite !chars_app, !chars_of_chars, E. simpl. by rewrite <- !app_assoc.
  - rewrite trim_matches_front by done. rewrite chars_of_chars, E. unfold name_front. by rewrite <- !app_assoc.
Qed.

Lemma preview_app_name_length base number :
  is_ascii_text base = true → String.length (preview_app_name base number) ≤ 60.
Proof.
  intros Hb. unfold preview_app_name. etransitivity; [apply trim_matches_length|].
  rewrite !length_str_app, <- (length_chars (of_chars _)), chars_of_chars, take_chars_take.
  - rewrite length_take. destruct (short_label_spec number 16) as (_ & _ & Hl); [lia|].
    change (String.length "-pr-") with 4. lia.
  - unfold is_ascii_text in Hb. rewrite forallb_forall in Hb.
    apply Forall_forall. intros c Hc. apply list_elem_of_In in Hc. specialize (Hb c Hc).
    unfold is_continuation. apply N.ltb_lt in Hb. apply andb_false_iff. left. apply N.leb_gt. lia.
Qed.

(** The name of a preview fits a Docker name, and two pull requests of an application with
    numbers of up to sixteen digits have different names. *)
Theorem preview_names base n1 n2 :
  is_ascii_text base = true → plain_number n1 → plain_number n2 →
  String.length (preview_app_name base n1) ≤ 60
  ∧ (preview_app_name base n1 = preview_app_name base n2 → n1 = n2).
Proof.
  intros Hb H1 H2. split; [by apply preview_app_name_length|]. intros E.
  apply (f_equal chars) in E. rewrite !preview_app_name_number in E by done.
  by apply chars_inj, (app_inv_head ["r"; "-"]%char), (app_inv_head (name_front base)).
Qed.

Lemma preview_names_witness :
  preview_app_name "shop" "12" ≠ preview_app_name "shop" "21".
Proof.
  assert (plain_number "12") as H1 by (split_and!; [done | repeat constructor | simpl; lia]).
  assert (plain_number "21") as H2 by (split_and!; [done | repeat constructor | simpl; lia]).
  intros E. pose proof (proj2 (preview_names "shop" "12" "21" eq_refl H1 H2) E) as Hn. discriminate Hn.
Defined.

(** Beyond sixteen characters names coincide. *)
Example long_numbers_collide :
  preview_app_name "shop" "12345678901234567" = preview_app_name "shop" "12345678901234568".
Proof. vm_compute. reflexivity. Qed.

(** ** Domains *)

(** A domain made without placeholders is one label in front of the wildcard. *)
Lemma preview_domain_split app_name wildcard number host :
  preview_domain app_name (Some wildcard) number = Ok host →
  contains "{app}" (trim_start_matches "*." (trim wildcard)) = false →
  contains "{pr}" (trim_start_matches "*." (trim wildcard)) = false →
  split_on (is_char ".") host
  = (sanitize_label app_name +:+ "-pr-" +:+ short_label number 20)
    :: split_on (is_char ".") (trim_start_matches "*." (trim wildcard)).
Proof.
  unfold preview_domain. intros Hd Ha Hp.
  destruct (str_is_empty (trim wildcard)); [done|]. simpl in Hd. rewrite Ha, Hp in Hd. simpl in Hd.
  destruct (_ || _); [done|]. injection Hd as <-.
  assert (∀ a b c d : string, a +:+ b +:+ c +:+ "." +:+ d = (a +:+ b +:+ c) +:+ String "." d) as ->.
  { intros a b c d. by rewrite !str_app_assoc. }
  apply split_on_app; [|done]. rewrite !chars_app, !Forall_app.
  assert (∀ c, is_label_char c = true → is_char "." c = false) as Hdot.
  { intros c Hc. apply is_char_false. by intros <-. }
  split_and!; [|by repeat constructor|].
  - eapply Forall_impl; [apply sanitize_label_chars | exact Hdot].
  - eapply Forall_impl; [|exact Hdot]. destruct (short_label_spec number 20) as (_ & ? & _); [lia|done].
Qed.
