(* ===== verification/PreviewDb.v ===== *)
(** * The tables of preview deployments

    [src/db/repository/preview_deployments.rs] over the table of migrations 0018 and 0019, and the
    statements of [applications.rs] and [domains.rs] the preview service calls.  The columns of an
    application that the deployment services do not read are kept beside the system of
    [DeploymentService], under the id of the application; deleting an application follows the
    foreign keys of the tables that are modelled.  The columns of [preview_deployments] that the
    end of a deployment updates are also the [previews] table of [DeploymentDb]; here the whole
    row is kept. *)

From stdpp Require Import gmap strings list.
From Stdlib Require Import ZArith Lia.
From S2P Require Import Prelude RustStr StringEnum Sql DeploymentDb DeploymentInv ApplicationState BuilderQueue DeploymentService.

(** ** Rows *)

Record GitColumns := mkGitColumns {
  gc_repository : option string; gc_owner : option string; gc_branch : option string;
}.

(** The other columns of an application *)
Record AppColumns := mkColumns {
  ac_source_type : string;
  ac_trigger_type : string;
  ac_build_args : option string;
  ac_build_secrets : option string;
  ac_env_var : option string;
  ac_watch_paths : option string;
  ac_labels_swarm : option string;
  ac_auto_deploy : option Z;
  ac_git : GitProviderKind → GitColumns;
  ac_provider_id : GitProviderKind → option Z;   (* [github_provider_id] and the like *)
  ac_preview_env : option string;
  ac_preview_build_args : option string;
  ac_preview_build_secrets : option string;
  ac_preview_labels : option string;
  ac_preview_wildcard : option string;
  ac_preview_port : option Z;
  ac_preview_https : Z;
  ac_preview_path : option string;
  ac_preview_certificate_type : string;
  ac_preview_custom_cert_resolver : option string;
  ac_preview_limit : option Z;
  ac_is_preview_deployments_active : Z;
  ac_preview_require_collaborator_permissions : Z;
  ac_created_at : Z;
  ac_updated_at : Z;
}.

(** A row of [applications] *)
Record FullApp := mkFullApp { fa_row : Application; fa_columns : AppColumns }.

Definition columns_check (c : AppColumns) : bool :=
  bool_decide (ac_source_type c ∈ ["DOCKER"; "GIT"; "GITHUB"; "GITLAB"; "BITBUCKET"; "GITEA"; "DROP"])
  && bool_decide (ac_trigger_type c ∈ ["PUSH"; "TAG"])
  && bool_decide (ac_preview_certificate_type c ∈ ["LETSENCRYPT"; "NONE"; "CUSTOM"]).

Record Domain := mkDomain {
  dm_id : Z; dm_host : string; dm_https : Z; dm_port : option Z; dm_path : option string;
  dm_internal_path : option string; dm_custom_cert_resolver : option string; dm_strip_path : Z;
  dm_middlewares : string; dm_domain_type : string; dm_certificate_type : string;
  dm_application_id : option Z; dm_compose_id : option Z;
}.

#[export] Instance Domain_schema : Schema Domain := {|
  row_id := dm_id;
  row_check d := bool_decide (dm_certificate_type d ∈ ["LETSENCRYPT"; "NONE"; "CUSTOM"])
                 && bool_decide (dm_domain_type d ∈ ["APPLICATION"; "COMPOSE"; "PREVIEW"]);
  row_conflict _ _ := false;
|}.

Record PreviewDeployment := mkPreviewRow {
  pv_id : Z;
  pv_base_application_id : Z;
  pv_preview_application_id : option Z;
  pv_provider_type : string;
  pv_provider_id : Z;
  pv_owner : string;
  pv_repository : string;
  pv_pull_request_number : string;
  pv_source_branch : string;
  pv_source_owner : option string;
  pv_source_repository : option string;
  pv_target_branch : string;
  pv_commit_sha : option string;
  pv_author : option string;
  pv_status : string;
  pv_domain : string;
  pv_last_deployment_id : option Z;
  pv_created_at : Z;
  pv_updated_at : Z;
}.

Definition same_pull_request (p1 p2 : PreviewDeployment) : bool :=
  (pv_base_application_id p1 =? pv_base_application_id p2)%Z
  && bool_decide (pv_provider_type p1 = pv_provider_type p2)
  && bool_decide (pv_pull_request_number p1 = pv_pull_request_number p2).

#[export] Instance PreviewDeployment_schema : Schema PreviewDeployment := {|
  row_id := pv_id;
  row_check p := bool_decide (pv_status p ∈ ["QUEUED"; "ACTIVE"; "ERROR"; "CLOSED"]);
  row_conflict p1 p2 := same_pull_request p1 p2
                        || same_col (pv_preview_application_id p1) (pv_preview_application_id p2);
|}.

#[export] Instance PreviewDeployment_schema_laws : SchemaLaws PreviewDeployment.
Proof.
  split. intros p1 p2. simpl. unfold same_pull_request. rewrite same_col_sym, Z.eqb_sym.
  f_equal. f_equal; [f_equal|]; apply bool_decide_ext; naive_solver.
Qed.

Record PreviewTarget := mkTarget {
  pt_base_application_id : Z; pt_provider_id : Z; pt_preview_limit : Z;
  pt_require_collaborator_permissions : bool;
}.

(** [github_providers] and the like, joined with [git_providers] *)
Record GitProviderRow := mkGitProvider {
  gv_kind : GitProviderKind; gv_id : Z; gv_git_provider_id : Z; gv_webhook_secret : option string;
}.

Section world.
Context `{Watch}.

Record PreviewWorld := mkPreviewWorld {
  pw_sys : Sys;
  pw_columns : gmap Z AppColumns;
  pw_domains : Table Domain;
  pw_previews : Table PreviewDeployment;
  pw_git : list GitProviderRow;
}.

Definition pw_db (w : PreviewWorld) : Db := sys_db (pw_sys w).
Definition with_sys (s : Sys) (w : PreviewWorld) : PreviewWorld :=
  mkPreviewWorld s (pw_columns w) (pw_domains w) (pw_previews w) (pw_git w).
Definition with_pv (t : Table PreviewDeployment) (w : PreviewWorld) : PreviewWorld :=
  mkPreviewWorld (pw_sys w) (pw_columns w) (pw_domains w) t (pw_git w).
Definition with_domains (t : Table Domain) (w : PreviewWorld) : PreviewWorld :=
  mkPreviewWorld (pw_sys w) (pw_columns w) t (pw_previews w) (pw_git w).

(** ** Applications *)

Definition app_get (id : Z) (w : PreviewWorld) : option FullApp :=
  match find_application id (pw_db w), pw_columns w !! id with
  | Some row, Some columns => Some (mkFullApp row columns)
  | _, _ => None
  end.

Definition app_fk (columns : AppColumns) (w : PreviewWorld) (a : Application) : bool :=
  existsb (λ e, e_id e =? a_environment_id a)%Z (environments (pw_db w))
  && match a_server_id a with None => true | Some s => bool_decide (s ∈ servers (pw_db w)) end
  && forallb (λ k, match ac_provider_id columns k with
                   | None => true
                   | Some v => existsb (λ g, bool_decide (gv_kind g = k) && (gv_id g =? v)%Z) (pw_git w)
                   end) [Github; Gitlab; Gitea; Bitbucket].

Definition with_row_id (id : Z) (a : Application) : Application :=
  mkApplication id (a_name a) (a_app_name a) (a_app_status a) (a_environment_id a) (a_server_id a).

Definition app_create (item : FullApp) (w : PreviewWorld) : result (PreviewWorld * Z) SqlError :=
  if negb (columns_check (fa_columns item)) then Err CheckFailed else
  let? (t, id) := sql_insert (app_fk (fa_columns item) w) (λ id, with_row_id id (fa_row item))
                    (applications (pw_db w)) in
  Ok (mkPreviewWorld (sys_with_db (with_applications t (pw_db w)) (pw_sys w))
        (<[id := fa_columns item]> (pw_columns w)) (pw_domains w) (pw_previews w) (pw_git w), id).

Definition app_update (id : Z) (item : FullApp) (w : PreviewWorld) : result PreviewWorld SqlError :=
  if bool_decide (is_Some (find_application id (pw_db w))) && negb (columns_check (fa_columns item))
  then Err CheckFailed else
  let? (t, n) := sql_update (app_fk (fa_columns item) w) (λ a, a_id a =? id)%Z
                   (λ a, with_row_id (a_id a) (fa_row item)) (applications (pw_db w)) in
  Ok (mkPreviewWorld (sys_with_db (with_applications t (pw_db w)) (pw_sys w))
        (if bool_decide (n = 0) then pw_columns w else <[id := fa_columns item]> (pw_columns w))
        (pw_domains w) (pw_previews w) (pw_git w)).

(** The foreign keys of a preview whose application [id] is deleted, with its deployments *)
Definition unlink (id : Z) (gone : Z → bool) (p : PreviewDeployment) : PreviewDeployment :=
  mkPreviewRow (pv_id p) (pv_base_application_id p)
    (if col_is (pv_preview_application_id p) id then None else pv_preview_application_id p)
    (pv_provider_type p) (pv_provider_id p) (pv_owner p) (pv_repository p) (pv_pull_request_number p)
    (pv_source_branch p) (pv_source_owner p) (pv_source_repository p) (pv_target_branch p)
    (pv_commit_sha p) (pv_author p) (pv_status p) (pv_domain p)
    (match pv_last_deployment_id p with
     | Some v => if gone v then None else Some v
     | None => None
     end) (pv_created_at p) (pv_updated_at p).

(** [DELETE FROM applications WHERE id = ?]: deployments (with their rollbacks), domains and the
    previews of the application are deleted, references to it are set to NULL. *)
Definition app_delete (id : Z) (w : PreviewWorld) : PreviewWorld :=
  let db := pw_db w in
  if negb (existsb (λ a, a_id a =? id)%Z (rows (applications db))) then w else
  let gone (v : Z) := existsb (λ d, for_application id d && has_id v d) (rows (deployments db)) in
  let db1 := (delete_deployments (for_application id) db).1 in
  let db2 := with_applications (sql_delete (λ a, a_id a =? id)%Z (applications db1)).1 db1 in
  mkPreviewWorld (sys_with_db db2 (pw_sys w)) (base.delete id (pw_columns w))
    (sql_delete (λ d, col_is (dm_application_id d) id) (pw_domains w)).1
    (mkTable (map (unlink id gone)
                (List.filter (λ p, negb (pv_base_application_id p =? id)%Z) (rows (pw_previews w))))
             (seq (pw_previews w)))
    (pw_git w).

(** ** Domains *)

(** [lower(column) = lower(?)] and [column = ?]: a NULL equals nothing. *)
Definition lower_is (column : option string) (value : string) : bool :=
  match column with Some c => bool_decide (to_ascii_lowercase c = to_ascii_lowercase value) | None => false end.
Definition column_is (column : option string) (value : string) : bool := bool_decide (column = Some value).

Definition host_in_use (host : string) (w : PreviewWorld) : bool :=
  sql_exists (λ d, lower_is (Some (dm_host d)) host) (pw_domains w).

Definition domain_create (mk : Z → Domain) (w : PreviewWorld) : result PreviewWorld SqlError :=
  let? (t, _) := sql_insert
    (λ d, match dm_application_id d with
          | None => true
          | Some v => existsb (λ a, a_id a =? v)%Z (rows (applications (pw_db w)))
          end && match dm_compose_id d with
                 | None => true
                 | Some v => existsb (λ c, c_id c =? v)%Z (rows (compose_projects (pw_db w)))
                 end) mk (pw_domains w) in
  Ok (with_domains t w).

(** ** [PreviewDeploymentRepository] *)

Definition is_open (p : PreviewDeployment) : bool := negb (bool_decide (pv_status p = "CLOSED")).

Definition preview_list (active_only : bool) (w : PreviewWorld) : list PreviewDeployment :=
  sql_order_by (λ a b, pv_created_at b <=? pv_created_at a)%Z
    (sql_select (λ p, if active_only then is_open p else true) (pw_previews w)).

Definition preview_get_by_id (id : Z) (w : PreviewWorld) : option PreviewDeployment :=
  sql_first (λ p, pv_id p =? id)%Z (pw_previews w).

Definition list_open_for_base_application (base : Z) (w : PreviewWorld) : list PreviewDeployment :=
  sql_order_by (λ a b, pv_created_at a <=? pv_created_at b)%Z
    (sql_select (λ p, (pv_base_application_id p =? base)%Z && is_open p) (pw_previews w)).

Definition find_by_preview_application (id : Z) (w : PreviewWorld) : option PreviewDeployment :=
  sql_first (λ p, col_is (pv_preview_application_id p) id) (pw_previews w).

Definition find_for_pull_request (base : Z) (provider number : string) (w : PreviewWorld)
    : option PreviewDeployment :=
  sql_first (λ p, (pv_base_application_id p =? base)%Z
                  && bool_decide (pv_provider_type p = provider)
                  && bool_decide (pv_pull_request_number p = number)) (pw_previews w).

Definition of_event (provider owner repository number : string) (p : PreviewDeployment) : bool :=
  bool_decide (pv_provider_type p = provider)
  && lower_is (Some (pv_owner p)) owner && lower_is (Some (pv_repository p)) repository
  && bool_decide (pv_pull_request_number p = number) && is_open p.

Definition find_open_for_event (provider owner repository number : string) (w : PreviewWorld)
    : list PreviewDeployment :=
  sql_select (of_event provider owner repository number) (pw_previews w).

(** The joins find the provider of the application. *)
Definition target_of_app (provider : GitProviderKind) (owner repository branch : string) (w : PreviewWorld)
    (a : Application) : option PreviewTarget :=
  match pw_columns w !! a_id a with
  | None => None
  | Some c =>
      let git := ac_git c provider in
      if column_is (Some (ac_source_type c)) (as_str provider)
         && (ac_is_preview_deployments_active c =? 1)%Z
         && lower_is (gc_repository git) repository && lower_is (gc_owner git) owner
         && column_is (gc_branch git) branch
      then match ac_provider_id c provider with
           | None => None
           | Some v =>
               g ← head (List.filter (λ g, bool_decide (gv_kind g = provider) && (gv_id g =? v)%Z) (pw_git w));
               Some (mkTarget (a_id a) (gv_git_provider_id g) (default 3%Z (ac_preview_limit c))
                       (negb (ac_preview_require_collaborator_permissions c =? 0)%Z))
           end
      else None
  end.

Definition matching_targets (provider : GitProviderKind) (owner repository branch : string)
    (w : PreviewWorld) : list PreviewTarget :=
  omap (target_of_app provider owner repository branch w) (rows (applications (pw_db w))).

Definition active_count (base : Z) (w : PreviewWorld) : Z :=
  sql_count (λ p, (pv_base_application_id p =? base)%Z && is_open p) (pw_previews w).

(** The foreign keys of a row *)
Definition preview_fk (w : PreviewWorld) (p : PreviewDeployment) : bool :=
  let app v := existsb (λ a, a_id a =? v)%Z (rows (applications (pw_db w))) in
  app (pv_base_application_id p)
  && match pv_preview_application_id p with None => true | Some v => app v end
  && match pv_last_deployment_id p with
     | None => true
     | Some v => existsb (has_id v) (rows (deployments (pw_db w)))
     end.

Definition preview_create (mk : Z → PreviewDeployment) (w : PreviewWorld)
    : result (PreviewWorld * Z) SqlError :=
  let? (t, id) := sql_insert (preview_fk w) mk (pw_previews w) in Ok (with_pv t w, id).

(** [UPDATE preview_deployments SET f WHERE id = ?]; the foreign keys are checked when their
    columns are written. *)
Definition preview_update (fk : PreviewDeployment → bool) (id : Z)
    (f : PreviewDeployment → PreviewDeployment) (w : PreviewWorld)
    : result (PreviewWorld * nat) SqlError :=
  let? (t, n) := sql_update fk (λ p, pv_id p =? id)%Z f (pw_previews w) in
  Ok (with_pv t w, n).

Definition set_source (now : Z) (preview_app last : option Z) (source_branch : string)
    (source_owner source_repository : option string) (target_branch : string)
    (commit author : option string) (domain : string) (p : PreviewDeployment) : PreviewDeployment :=
  mkPreviewRow (pv_id p) (pv_base_application_id p) preview_app (pv_provider_type p) (pv_provider_id p)
    (pv_owner p) (pv_repository p) (pv_pull_request_number p) source_branch source_owner source_repository
    target_branch commit author "QUEUED" domain last (pv_created_at p) now.

Definition update_source (now id : Z) (source_branch : string)
    (source_owner source_repository commit author : option string) (w : PreviewWorld)
    : result (PreviewWorld * nat) SqlError :=
  preview_update no_fk id (λ p, set_source now (pv_preview_application_id p) (pv_last_deployment_id p)
    source_branch source_owner source_repository (pv_target_branch p) commit author (pv_domain p) p) w.

Definition reopen (now id preview_app : Z) (source_branch : string)
    (source_owner source_repository : option string) (target_branch : string)
    (commit author : option string) (domain : string) (w : PreviewWorld)
    : result (PreviewWorld * nat) SqlError :=
  preview_update (preview_fk w) id (set_source now (Some preview_app) None source_branch source_owner source_repository
    target_branch commit author domain) w.

Definition set_state (now : Z) (preview_app last : option Z) (status : string) (p : PreviewDeployment)
    : PreviewDeployment :=
  mkPreviewRow (pv_id p) (pv_base_application_id p) preview_app (pv_provider_type p) (pv_provider_id p)
    (pv_owner p) (pv_repository p) (pv_pull_request_number p) (pv_source_branch p) (pv_source_owner p)
    (pv_source_repository p) (pv_target_branch p) (pv_commit_sha p) (pv_author p) status (pv_domain p)
    last (pv_created_at p) now.

(** [is_preview_deployment = 1] *)
Definition marked_preview (d : Deployment) : Deployment :=
  mkDeployment (d_id d) (d_title d) (d_description d) (d_status d) (d_state d) (d_log_path d) (d_pid d)
    (d_error_message d) (d_operation d) 1 (d_started_at d) (d_last_state_at d) (d_finished_at d)
    (d_application_id d) (d_compose_id d) (d_server_id d) (d_created_at d) (d_database_id d)
    (d_database_kind d).

(** One transaction *)
Definition link_deployment (now id deployment : Z) (w : PreviewWorld) : result PreviewWorld SqlError :=
  let? (db, n) := update_deployments (has_id deployment) marked_preview (pw_db w) in
  if negb (bool_decide (n = 1)) then Err RowNotFound else
  let w1 := with_sys (sys_with_db db (pw_sys w)) w in
  let? (w2, m) := preview_update (preview_fk w1) id
    (λ p, set_state now (pv_preview_application_id p) (Some deployment) "QUEUED" p) w1 in
  if negb (bool_decide (m = 1)) then Err RowNotFound else Ok w2.

Definition set_status (now id : Z) (status : string) (w : PreviewWorld)
    : result (PreviewWorld * nat) SqlError :=
  preview_update no_fk id (λ p, set_state now (pv_preview_application_id p) (pv_last_deployment_id p) status p) w.

Definition close (now id : Z) (w : PreviewWorld) : result (PreviewWorld * nat) SqlError :=
  preview_update no_fk id (λ p, set_state now None (pv_last_deployment_id p) "CLOSED" p) w.

Definition preview_delete (id : Z) (w : PreviewWorld) : PreviewWorld :=
  with_pv (sql_delete (λ p, pv_id p =? id)%Z (pw_previews w)).1 w.
End world.
