(* ===== verification/PreviewService.v ===== *)
(** * Preview deployments

    [src/services/preview]: [lifecycle.rs], [factory.rs], [cleanup.rs] and [queries.rs].  Calls run
    under the lifecycle lock and end with the text of their first error; what they wrote before
    stays.  The remote permission check of the git provider, the texts of [sqlx] errors and the
    clock are parameters; the Docker stack a removed preview leaves is not part of the world. *)

From stdpp Require Import gmap strings list.
From Stdlib Require Import ZArith Lia.
From S2P Require Import Prelude RustStr RustText StringEnum Sql Webhook DeploymentDb DeploymentInv ApplicationState Operations BuilderQueue DeploymentService PreviewNames PreviewDb.

Section preview.
Context `{Watch}.
Context (sql_error_text : SqlError → string).
Context (env : option Z) (logs : string).
(** [GitProviderService::collaborator_permission]: whether the user can write *)
Context (collaborator_permission : Z → string → string → string → result bool string).

Definition P (X : Type) : Type := SE PreviewWorld string X.

Definition text_err {X} (r : result X SqlError) : result X string :=
  match r with Ok x => Ok x | Err e => Err (sql_error_text e) end.

Definition reading {X} (f : PreviewWorld → X) : P X := λ w, (w, Ok (f w)).
Definition statement (f : PreviewWorld → result PreviewWorld SqlError) : P unit := λ w,
  match f w with Ok w' => (w', Ok tt) | Err e => (w, Err (sql_error_text e)) end.
Definition statement_ret {X} (f : PreviewWorld → result (PreviewWorld * X) SqlError) : P X := λ w,
  match f w with Ok (w', x) => (w', Ok x) | Err e => (w, Err (sql_error_text e)) end.

(** A call of the deployment services *)
Definition on_sys {X} (m : M X) : P X := λ w,
  let '(s', r) := m (pw_sys w) in (with_sys s' w, text_err r).

(** [match m { Ok(x) => x, Err(error) => { handler; return Err(error) } }] *)
Definition or_cleanup {X Y} (m : P X) (cleanup : string → P Y) : P X := λ w,
  match m w with
  | (w', Ok x) => (w', Ok x)
  | (w', Err e) => ((cleanup e w').1, Err e)
  end.

(** ** The clone of the application *)

(** [source_owner.unwrap_or(owner)] and the like *)
Definition source_columns (event : PullRequestEvent) : GitColumns :=
  mkGitColumns (Some (default (pr_repository event) (pr_source_repository event)))
    (Some (default (pr_owner event) (pr_source_owner event)))
    (Some (pr_source_branch event)).

Definition middle_dot : string := String (Ascii.ascii_of_N 0xC2) (String (Ascii.ascii_of_N 0xB7) "").

Definition preview_application (now : Z) (base : FullApp) (event : PullRequestEvent) (app_name : string)
    (created_at : Z) : FullApp :=
  let row := fa_row base in
  let c := fa_columns base in
  mkFullApp
    (mkApplication 0 (a_name row +:+ " " +:+ middle_dot +:+ " PR #" +:+ pr_number event) app_name "IDLE"
       (a_environment_id row) (a_server_id row))
    (mkColumns (ac_source_type c) (ac_trigger_type c)
       (or_else (ac_preview_build_args c) (ac_build_args c))
       (or_else (ac_preview_build_secrets c) (ac_build_secrets c))
       (merge_environment (ac_env_var c) (ac_preview_env c))
       (ac_watch_paths c)
       (or_else (ac_preview_labels c) (ac_labels_swarm c))
       (Some 0%Z)
       (λ k, if bool_decide (k = pr_provider event) then source_columns event else ac_git c k)
       (ac_provider_id c) (ac_preview_env c) (ac_preview_build_args c) (ac_preview_build_secrets c)
       (ac_preview_labels c) (ac_preview_wildcard c) (ac_preview_port c) (ac_preview_https c)
       (ac_preview_path c) (ac_preview_certificate_type c) (ac_preview_custom_cert_resolver c)
       (ac_preview_limit c) 0 0 created_at now).

Definition create_preview_resources (now : Z) (base : FullApp) (event : PullRequestEvent)
    : P (Z * string) :=
  let row := fa_row base in
  let c := fa_columns base in
  let app_name := preview_app_name (a_app_name row) (pr_number event) in
  let clone := preview_application now base event app_name now in
  do! domain := of_result (preview_domain (a_app_name row) (ac_preview_wildcard c) (pr_number event)) in
  do! used := reading (host_in_use domain) in
  do! _ := guard used ("Preview domain is already in use: " +:+ domain) in
  do! id := statement_ret (app_create clone) in
  do! _ := or_cleanup
    (statement (domain_create (λ did,
       mkDomain did domain (ac_preview_https c) (or_else (ac_preview_port c) (Some 3000%Z))
         (or_else (ac_preview_path c) (Some "/")) (Some "/") (ac_preview_custom_cert_resolver c) 0 "[]"
         "APPLICATION" (ac_preview_certificate_type c) (Some id) None)))
    (λ _, statement (λ w, Ok (app_delete id w))) in
  ret (id, domain).

(** ** Queueing *)

Record PreviewDeploymentOutcome := mkPreviewOutcome {
  po_preview : PreviewDeployment; po_deployment_id : option Z;
}.

(** [queries.rs]: the view has the columns of the row. *)
Definition preview_get (id : Z) : P PreviewDeployment :=
  do! o := reading (preview_get_by_id id) in
  of_result (ok_or o (sql_error_text RowNotFound)).

Definition queue_preview (now preview_id preview_application_id : Z) (created : bool)
    : P (PreviewDeploymentOutcome * bool) :=
  do! deployment := or_cleanup
    (on_sys (application_run_operation env logs now preview_application_id
               (if created then AppDeployOp else AppRedeploy)))
    (λ error, if contains "already queued or running" error then ret tt
              else ignore (statement_ret (set_status now preview_id "ERROR"))) in
  do! deployment_id := of_result (ok_or deployment.2 "Preview deployment was not queued") in
  do! _ := statement (link_deployment now preview_id deployment_id) in
  do! preview := preview_get preview_id in
  ret (mkPreviewOutcome preview (Some deployment_id), created).

(** [NewPreviewDeployment] *)
Definition new_preview (now : Z) (target : PreviewTarget) (event : PullRequestEvent)
    (preview_application_id : Z) (domain : string) (id : Z) : PreviewDeployment :=
  mkPreviewRow id (pt_base_application_id target) (Some preview_application_id)
    (as_str (pr_provider event)) (pt_provider_id target) (pr_owner event) (pr_repository event)
    (pr_number event) (pr_source_branch event) (pr_source_owner event) (pr_source_repository event)
    (pr_target_branch event) (pr_commit event) (pr_author event) "QUEUED" domain None now now.

(** A pull request with a row: a closed one is reopened with a new application. *)
Definition deploy_existing (now : Z) (event : PullRequestEvent) (base : FullApp)
    (existing : PreviewDeployment) : P (PreviewDeploymentOutcome * bool) :=
  match pv_preview_application_id existing with
  | None =>
      do! (app, domain) := create_preview_resources now base event in
      do! _ := or_cleanup
        (statement_ret (reopen now (pv_id existing) app (pr_source_branch event) (pr_source_owner event)
           (pr_source_repository event) (pr_target_branch event) (pr_commit event) (pr_author event)
           domain))
        (λ _, statement (λ w, Ok (app_delete app w))) in
      queue_preview now (pv_id existing) app true
  | Some app =>
      do! o := reading (app_get app) in
      do! current := of_result (ok_or o "Preview application not found") in
      let clone := preview_application now base event (a_app_name (fa_row current))
                     (ac_created_at (fa_columns current)) in
      do! _ := statement (app_update app clone) in
      do! _ := statement_ret (update_source now (pv_id existing) (pr_source_branch event)
                 (pr_source_owner event) (pr_source_repository event) (pr_commit event)
                 (pr_author event)) in
      queue_preview now (pv_id existing) app false
  end.

Definition deploy_new (now : Z) (target : PreviewTarget) (event : PullRequestEvent) (base : FullApp)
    : P (PreviewDeploymentOutcome * bool) :=
  do! (app, domain) := create_preview_resources now base event in
  do! id := or_cleanup (statement_ret (preview_create (new_preview now target event app domain)))
              (λ _, statement (λ w, Ok (app_delete app w))) in
  queue_preview now id app true.

Definition deploy_target (now : Z) (target : PreviewTarget) (event : PullRequestEvent)
    : P (PreviewDeploymentOutcome * bool) :=
  do! existing := reading (find_for_pull_request (pt_base_application_id target)
                             (as_str (pr_provider event)) (pr_number event)) in
  do! o := reading (app_get (pt_base_application_id target)) in
  do! base := of_result (ok_or o "Base application not found") in
  match existing with
  | Some existing => deploy_existing now event base existing
  | None => deploy_new now target event base
  end.

(** ** Removal *)

Definition ensure_application_can_be_deleted (application_id : Z) : P unit :=
  do! o := reading (find_by_preview_application application_id) in
  guard (bool_decide (is_Some o))
    "Preview applications must be deleted through the preview deployment API".

(** The application of the removed preview, if it has one *)
Definition remove_application (now : Z) (row : PreviewDeployment) : P unit :=
  match pv_preview_application_id row with
  | None => ret tt
  | Some app =>
      do! a := reading (app_get app) in
      match a with
      | None => ret tt
      | Some _ =>
          do! _ := ignore (on_sys (application_cancel_operation now app)) in
          statement (λ w, Ok (app_delete app w))
      end
  end.

Definition remove_unlocked (now id : Z) (hard_delete : bool) : P unit :=
  do! o := reading (preview_get_by_id id) in
  do! row := of_result (ok_or o "Preview deployment not found") in
  do! _ := remove_application now row in
  if hard_delete then statement (λ w, Ok (preview_delete id w))
  else do! _ := statement_ret (close now id) in ret tt.

Fixpoint remove_all (now : Z) (hard_delete : bool) (l : list PreviewDeployment) : P unit :=
  match l with
  | [] => ret tt
  | row :: l' => do! _ := remove_unlocked now (pv_id row) hard_delete in remove_all now hard_delete l'
  end.

Definition remove_for_base_application (now base : Z) : P unit :=
  do! l := reading (list_open_for_base_application base) in remove_all now true l.

Definition remove (now id : Z) (hard_delete : bool) : P unit := remove_unlocked now id hard_delete.

(** ** The life cycle of a pull request *)

Record PreviewLifecycleOutcome := mkLifecycle {
  lo_created : nat; lo_redeployed : nat; lo_removed : nat; lo_skipped_permission : nat;
  lo_skipped_limit : nat; lo_already_running : nat;
}.
Definition no_lifecycle : PreviewLifecycleOutcome := mkLifecycle 0 0 0 0 0 0.

Definition add_skipped_permission (o : PreviewLifecycleOutcome) : PreviewLifecycleOutcome :=
  mkLifecycle (lo_created o) (lo_redeployed o) (lo_removed o) (S (lo_skipped_permission o))
    (lo_skipped_limit o) (lo_already_running o).
Definition add_skipped_limit (o : PreviewLifecycleOutcome) : PreviewLifecycleOutcome :=
  mkLifecycle (lo_created o) (lo_redeployed o) (lo_removed o) (lo_skipped_permission o)
    (S (lo_skipped_limit o)) (lo_already_running o).
Definition add_deployed (created : bool) (o : PreviewLifecycleOutcome) : PreviewLifecycleOutcome :=
  mkLifecycle ((if created then 1 else 0) + lo_created o) ((if created then 0 else 1) + lo_redeployed o)
    (lo_removed o) (lo_skipped_permission o) (lo_skipped_limit o) (lo_already_running o).
Definition add_running (o : PreviewLifecycleOutcome) : PreviewLifecycleOutcome :=
  mkLifecycle (lo_created o) (lo_redeployed o) (lo_removed o) (lo_skipped_permission o)
    (lo_skipped_limit o) (S (lo_already_running o)).

Definition is_close_action (action : string) : bool :=
  bool_decide (to_ascii_lowercase action
    ∈ ["close"; "closed"; "merge"; "merged"; "fulfilled"; "rejected"; "declined"]).

(** The first check of the loop *)
Definition permitted (target : PreviewTarget) (event : PullRequestEvent) : result bool string :=
  if pt_require_collaborator_permissions target then
    match pr_author event with
    | None => Ok false
    | Some author => collaborator_permission (pt_provider_id target) (pr_owner event)
                       (pr_repository event) author
    end
  else Ok true.

Definition at_limit (target : PreviewTarget) (w : PreviewWorld) : bool :=
  (Z.max (pt_preview_limit target) 1 <=? active_count (pt_base_application_id target) w)%Z.

Definition handle_target (now : Z) (event : PullRequestEvent) (outcome : PreviewLifecycleOutcome)
    (target : PreviewTarget) : P PreviewLifecycleOutcome :=
  do! ok := of_result (permitted target event) in
  if negb ok then ret (add_skipped_permission outcome) else
  do! existing := reading (find_for_pull_request (pt_base_application_id target)
                             (as_str (pr_provider event)) (pr_number event)) in
  do! full := reading (at_limit target) in
  if bool_decide (existing = None) && full then ret (add_skipped_limit outcome) else
  λ w, match deploy_target now target event w with
       | (w', Ok (_, created)) => (w', Ok (add_deployed created outcome))
       | (w', Err error) =>
           if contains "already queued or running" error then (w', Ok (add_running outcome))
           else (w', Err error)
       end.

Fixpoint handle_targets (now : Z) (event : PullRequestEvent) (targets : list PreviewTarget)
    (outcome : PreviewLifecycleOutcome) : P PreviewLifecycleOutcome :=
  match targets with
  | [] => ret outcome
  | t :: ts => do! o := handle_target now event outcome t in handle_targets now event ts o
  end.

Definition handle_pull_request (now : Z) (event : PullRequestEvent) : P PreviewLifecycleOutcome :=
  if is_close_action (pr_action event) then
    do! l := reading (find_open_for_event (as_str (pr_provider event)) (pr_owner event)
                        (pr_repository event) (pr_number event)) in
    do! _ := remove_all now false l in
    ret (mkLifecycle 0 0 (length l) 0 0 0)
  else
    do! targets := reading (matching_targets (pr_provider event) (pr_owner event) (pr_repository event)
                              (pr_target_branch event)) in
    handle_targets now event targets no_lifecycle.

Definition deploy_application (now base : Z) (event : PullRequestEvent) : P PreviewDeploymentOutcome :=
  do! targets := reading (matching_targets (pr_provider event) (pr_owner event) (pr_repository event)
                            (pr_target_branch event)) in
  do! target := of_result (ok_or (head (List.filter (λ t, pt_base_application_id t =? base)%Z targets))
                  "Application is not configured for this pull request preview") in
  do! existing := reading (find_for_pull_request base (as_str (pr_provider event)) (pr_number event)) in
  do! full := reading (at_limit target) in
  do! _ := guard (match existing with Some row => negb (is_open row) | None => true end && full)
             "Preview deployment limit reached" in
  do! r := deploy_target now target event in
  ret r.1.

Definition provider_kind (value : string) : result GitProviderKind string :=
  let v := to_ascii_lowercase value in
  if bool_decide (v = "github") then Ok Github else
  if bool_decide (v = "gitlab") then Ok Gitlab else
  if bool_decide (v = "gitea") then Ok Gitea else
  if bool_decide (v = "bitbucket") then Ok Bitbucket else Err "Unsupported preview provider".

Definition redeploy (now id : Z) : P PreviewDeploymentOutcome :=
  do! o := reading (preview_get_by_id id) in
  do! row := of_result (ok_or o "Preview deployment not found") in
  do! _ := guard (negb (is_open row)) "Closed preview deployment cannot be redeployed" in
  do! provider := of_result (provider_kind (pv_provider_type row)) in
  deploy_application now (pv_base_application_id row)
    (mkPullRequest provider (pv_owner row) (pv_repository row) (pv_pull_request_number row) "update"
       (pv_source_branch row) (pv_source_owner row) (pv_source_repository row) (pv_target_branch row)
       (pv_commit_sha row) (pv_author row)).
End preview.
