(* ===== verification/PreviewFacts.v ===== *)
(** * Properties of preview deployments

    How a pull request event changes the table of previews: every matching application is
    accounted for, those without permission are skipped, the limit of an application holds, and
    closing a pull request closes its previews. *)

From stdpp Require Import gmap strings list.
From Stdlib Require Import ZArith Lia.
From S2P Require Import Prelude RustStr StringEnum Sql Webhook DeploymentDb DeploymentInv ApplicationState Operations BuilderQueue DeploymentService PreviewNames PreviewDb PreviewService.

(** ** Rows, their keys and whether they are open *)

Section relation.
Context `{Watch}.

Definition Key : Type := Z * string * string.
Definition key_of (p : PreviewDeployment) : Key :=
  (pv_base_application_id p, pv_provider_type p, pv_pull_request_number p).

Definition row_at (w : PreviewWorld) (i : Z) (k : Key) : Prop :=
  ∃ p, p ∈ rows (pw_previews w) ∧ pv_id p = i ∧ key_of p = k.
Definition open_at (w : PreviewWorld) (i : Z) (k : Key) : Prop :=
  ∃ p, p ∈ rows (pw_previews w) ∧ pv_id p = i ∧ key_of p = k ∧ is_open p = true.

Definition previews_wf (w : PreviewWorld) : Prop := table_wf (pw_previews w).

(** Only the row [e] of key [k] may be added or opened, and no row is closed. *)
Record touches (e : Z) (k : Key) (w w' : PreviewWorld) : Prop := {
  t_wf : previews_wf w';
  t_row : ∀ i k', row_at w' i k' → row_at w i k' ∨ (i = e ∧ k' = k);
  t_open : ∀ i k', open_at w' i k' → open_at w i k' ∨ (i = e ∧ k' = k);
  t_closed : ∀ i k', row_at w' i k' → open_at w' i k' ∨ (row_at w i k' ∧ ¬ open_at w i k');
}.

Definition reserved (e : Z) (k : Key) (w : PreviewWorld) : Prop := ∀ k', row_at w e k' → k' = k.

Lemma open_row w i k : open_at w i k → row_at w i k.
Proof. intros (p & ? & ? & ? & _). by exists p. Qed.

(** A row is open or not. *)
Lemma row_cases w i k : previews_wf w → row_at w i k → open_at w i k ∨ ¬ open_at w i k.
Proof.
  intros Hwf (p & Hp & Hi & Hk). destruct (is_open p) eqn:E; [left; by exists p|].
  right. intros (q & Hq & Hqi & _ & Hqo). assert (p = q) as <-; [|congruence].
  eapply wf_lookup_unique; [exact Hwf|done..|]. simpl. congruence.
Qed.

Lemma touches_refl e k w : previews_wf w → touches e k w w.
Proof. intros Hwf. split; try tauto. intros i k' Hr. destruct (row_cases w i k' Hwf Hr); tauto. Qed.

Lemma touches_trans e k w1 w2 w3 : touches e k w1 w2 → touches e k w2 w3 → touches e k w1 w3.
Proof.
  intros [? R1 O1 C1] [? R2 O2 C2]. split; [done| | |].
  - intros i k' [?|?]%R2; [by apply R1 | by right].
  - intros i k' [?|?]%O2; [by apply O1 | by right].
  - intros i k' [?|[Hr Hn]]%C2; [by left|]. apply C1 in Hr as [?|?]; [done | by right].
Qed.

Lemma touches_reserved e k w w' : touches e k w w' → reserved e k w → reserved e k w'.
Proof. intros [_ R _ _] Hw k' [?|[_ ->]]%R; [by apply Hw | done]. Qed.

(** ** Computations *)

Definition steps {X} (e : Z) (k : Key) (m : P X) : Prop := ∀ w,
  previews_wf w → reserved e k w →
  touches e k w (m w).1 ∧ seq (pw_previews (m w).1) = seq (pw_previews w).

Lemma steps_bind {X Y} e k (m : P X) (f : X → P Y) :
  steps e k m → (∀ x, steps e k (f x)) → steps e k (bind m f).
Proof.
  intros Hm Hf w Hwf Hr. unfold bind. destruct (Hm w Hwf Hr) as [Ht Hs].
  destruct (m w) as [w1 [x|err]]; simpl in *; [|done].
  destruct (Hf x w1) as [Ht' Hs']; [by eapply t_wf | by eapply touches_reserved|].
  split; [by eapply touches_trans | congruence].
Qed.

Lemma steps_ret {X} e k (x : X) : steps e k (ret x).
Proof. intros w Hwf _. split; [by apply touches_refl | done]. Qed.
Lemma steps_result {X} e k (r : result X string) : steps e k (of_result r).
Proof. intros w Hwf _. split; [by apply touches_refl | done]. Qed.
Lemma steps_reading {X} e k (f : PreviewWorld → X) : steps e k (reading f).
Proof. intros w Hwf _. split; [by apply touches_refl | done]. Qed.
Lemma steps_guard e k b err : steps e k (guard b err).
Proof. intros w Hwf _. destruct b; (split; [by apply touches_refl | done]). Qed.
Lemma steps_ignore {X} e k (m : P X) : steps e k m → steps e k (ignore m).
Proof. intros Hm w Hwf Hr. exact (Hm w Hwf Hr). Qed.

Lemma steps_cleanup {X Y} e k (m : P X) (f : string → P Y) :
  steps e k m → (∀ err, steps e k (f err)) → steps e k (or_cleanup m f).
Proof.
  intros Hm Hf w Hwf Hr. unfold or_cleanup. destruct (Hm w Hwf Hr) as [Ht Hs].
  destruct (m w) as [w1 [x|err]]; simpl in *; [done|].
  destruct (Hf err w1) as [Ht' Hs']; [by eapply t_wf | by eapply touches_reserved|].
  split; [by eapply touches_trans | congruence].
Qed.

(** A change outside the table of previews *)
Lemma touches_same e k w w' : previews_wf w → pw_previews w' = pw_previews w → touches e k w w'.
Proof.
  intros Hwf E. destruct w as [s1 c1 d1 t g1], w' as [s2 c2 d2 t' g2]. simpl in E. subst t'.
  destruct (touches_refl e k (mkPreviewWorld s1 c1 d1 t g1) Hwf) as [Hw R O C]. by split.
Qed.

Section statements.
Context (sql_error_text : SqlError → string).

Lemma steps_on_sys {X} e k (m : M X) : steps e k (on_sys sql_error_text m).
Proof.
  intros w Hwf _. unfold on_sys. destruct (m (pw_sys w)) as [s r]. simpl.
  split; [by apply touches_same | done].
Qed.

Lemma steps_statement e k f :
  (∀ w w', previews_wf w → reserved e k w → f w = Ok w' →
     touches e k w w' ∧ seq (pw_previews w') = seq (pw_previews w)) →
  steps e k (statement sql_error_text f).
Proof.
  intros Hf w Hwf Hr. unfold statement. destruct (f w) as [w'|err] eqn:E; [by apply Hf|].
  split; [by apply touches_refl | done].
Qed.

Lemma steps_statement_ret {X} e k (f : PreviewWorld → result (PreviewWorld * X) SqlError) :
  (∀ w w' x, previews_wf w → reserved e k w → f w = Ok (w', x) →
     touches e k w w' ∧ seq (pw_previews w') = seq (pw_previews w)) →
  steps e k (statement_ret sql_error_text f).
Proof.
  intros Hf w Hwf Hr. unfold statement_ret. destruct (f w) as [[w' x]|err] eqn:E; [by eapply Hf|].
  split; [by apply touches_refl | done].
Qed.
End statements.

(** ** The statements of the service *)

(** [f] leaves a row in its place, and open. *)
Definition opens (f : PreviewDeployment → PreviewDeployment) : Prop := ∀ p,
  pv_id (f p) = pv_id p ∧ key_of (f p) = key_of p ∧ is_open (f p) = true.

Lemma update_touches fk e k f w w' n :
  opens f → previews_wf w → reserved e k w → preview_update fk e f w = Ok (w', n) →
  touches e k w w' ∧ seq (pw_previews w') = seq (pw_previews w).
Proof.
  intros Hf Hwf Hr Hu. unfold preview_update in Hu.
  apply let_ok in Hu as ([t m] & Hu & [= <- <-]). simpl.
  pose proof (sql_update_wf fk _ f _ _ _ Hwf (λ r, proj1 (Hf r)) Hu) as Hwf'.
  apply sql_update_inv in Hu as (Hrows & Hseq & _). split; [|done].
  assert (∀ p', p' ∈ rows t → (∃ p, p ∈ rows (pw_previews w) ∧ pv_id p = pv_id p' ∧ key_of p = key_of p'
            ∧ (pv_id p' = e ∧ is_open p' = true ∨ is_open p' = is_open p))) as Hback.
  { intros p'. rewrite Hrows. intros (p & -> & Hp)%elem_of_mapb. exists p. unfold updated.
    destruct (pv_id p =? e)%Z eqn:E; [|naive_solver]. apply Z.eqb_eq in E.
    destruct (Hf p) as (-> & -> & ->). naive_solver. }
  split; [done| | |]; unfold row_at, open_at in *; simpl.
  - intros i k' (p' & Hp' & <- & <-). left. destruct (Hback p' Hp') as (p & ? & ? & ? & _). by exists p.
  - intros i k' (p' & Hp' & <- & <- & Ho). destruct (Hback p' Hp') as (p & Hp & E1 & E2 & [[E3 _]|E3]).
    + right. split; [done|]. apply Hr. exists p. split_and!; congruence.
    + left. exists p. split_and!; congruence.
  - intros i k' (p' & Hp' & <- & <-). destruct (is_open p') eqn:Ho; [left; by exists p'|].
    destruct (Hback p' Hp') as (p & Hp & E1 & E2 & [[_ E3]|E3]); [congruence|].
    right. split; [by exists p|]. intros (q & Hq & Hqi & _ & Hqo).
    assert (p = q) as <- by (eapply wf_lookup_unique; [exact Hwf|done..|simpl; congruence]). congruence.
Qed.

(** The rows an application leaves behind *)
Lemma delete_rows id w p' :
  p' ∈ rows (pw_previews (app_delete id w)) →
  ∃ p, p ∈ rows (pw_previews w) ∧ pv_id p = pv_id p' ∧ key_of p = key_of p' ∧ pv_status p = pv_status p'.
Proof.
  unfold app_delete. destruct (negb _); simpl; [intros Hp; by exists p'|].
  intros (p & -> & [Hp _]%elem_of_filterb)%elem_of_mapb. by exists p.
Qed.

Lemma unlink_conflict id gone p q :
  row_conflict (unlink id gone p) (unlink id gone q) = true → row_conflict p q = true.
Proof.
  simpl. rewrite !orb_true_iff. intros [Hs|Hs]; [by left|]. right. revert Hs. unfold unlink. simpl.
  destruct (pv_preview_application_id p) as [x|], (pv_preview_application_id q) as [y|]; simpl; try done;
    repeat case_match; done.
Qed.

Lemma delete_wf id w : previews_wf w → previews_wf (app_delete id w).
Proof.
  intros Hwf. unfold app_delete, previews_wf. destruct (negb _); [done|].
  pose proof (sql_delete_wf (λ p, pv_base_application_id p =? id)%Z _ Hwf) as [H1 H2 H3 H4].
  simpl in *. split; simpl.
  - rewrite map_map. exact H1.
  - intros r (p & -> & Hp)%elem_of_mapb. exact (H2 p Hp).
  - intros r (p & -> & Hp)%elem_of_mapb. exact (H3 p Hp).
  - intros r1 r2 (p & -> & Hp)%elem_of_mapb (q & -> & Hq)%elem_of_mapb Hne.
    apply not_true_is_false. intros E%unlink_conflict. simpl in E. by rewrite (H4 p q Hp Hq Hne) in E.
Qed.

Lemma delete_touches e k id w : previews_wf w →
  touches e k w (app_delete id w) ∧ seq (pw_previews (app_delete id w)) = seq (pw_previews w).
Proof.
  intros Hwf. split; [|by unfold app_delete; destruct (negb _)].
  assert (∀ i k', row_at (app_delete id w) i k' → row_at w i k') as Hrow.
  { intros i k' (p' & (p & ? & ? & ? & _)%delete_rows & <- & <-). by exists p. }
  assert (∀ i k', open_at (app_delete id w) i k' → open_at w i k') as Hopen.
  { intros i k' (p' & (p & ? & ? & ? & Es)%delete_rows & <- & <- & Ho). exists p.
    split_and!; [done..|]. unfold is_open. by rewrite Es. }
  split; [by apply delete_wf|auto..].
  intros i k' Hr. destruct (row_cases _ i k' (delete_wf id w Hwf) Hr) as [?|Hn]; [by left|]. right.
  split; [by apply Hrow|]. intros (p & Hp & Hi & Hk & Ho). apply Hn.
  destruct Hr as (p' & Hp' & Hi' & Hk'). exists p'. split_and!; [done..|].
  destruct (delete_rows id w p' Hp') as (q & Hq & Hqi & _ & Hqs).
  assert (p = q) as -> by (eapply wf_lookup_unique; [exact Hwf|done..|simpl; congruence]).
  unfold is_open in *. by rewrite <- Hqs.
Qed.
End relation.

Create HintDb previews.
#[export] Hint Resolve steps_bind steps_ret steps_result steps_reading steps_guard steps_ignore
  steps_cleanup steps_on_sys : previews.

Section service.
Context `{Watch}.
Context (sql_error_text : SqlError → string).
Context (env : option Z) (logs : string).

Notation create_preview_resources := (create_preview_resources sql_error_text).
Notation queue_preview := (queue_preview sql_error_text env logs).
Notation deploy_target := (deploy_target sql_error_text env logs).
Notation deploy_application := (deploy_application sql_error_text env logs).

Lemma steps_app_delete e k id : steps e k (statement sql_error_text (λ w, Ok (app_delete id w))).
Proof. apply steps_statement. intros w w' Hwf _ [= <-]. by apply delete_touches. Qed.

Lemma steps_update e k fk f :
  opens f → steps e k (statement_ret sql_error_text (λ w, preview_update (fk w) e f w)).
Proof. intros Hf. apply steps_statement_ret. intros w w' n Hwf Hr Hu. by eapply update_touches. Qed.

Lemma steps_link e k now d : steps e k (statement sql_error_text (link_deployment now e d)).
Proof.
  apply steps_statement. intros w w' Hwf Hr Hl. unfold link_deployment in Hl.
  apply let_ok in Hl as ([db n] & _ & Hl). destruct (negb _); [done|].
  apply let_ok in Hl as ([w2 m] & Hu & Hl). destruct (negb _); [done|]. injection Hl as <-.
  apply (update_touches _ e k) in Hu as [[A B C D] Hs]; [|by intros p|exact Hwf|exact Hr].
  split; [|exact Hs]. by split.
Qed.

Lemma steps_app_create e k item : steps e k (statement_ret sql_error_text (app_create item)).
Proof.
  apply steps_statement_ret. intros w w' id Hwf _ Hc. unfold app_create in Hc.
  destruct (negb _); [done|]. apply let_ok in Hc as ([t i] & _ & [= <- <-]).
  split; [by apply touches_same | done].
Qed.
Lemma steps_app_update e k id item : steps e k (statement sql_error_text (app_update id item)).
Proof.
  apply steps_statement. intros w w' Hwf _ Hc. unfold app_update in Hc.
  destruct (_ && _); [done|]. apply let_ok in Hc as ([t i] & _ & [= <-]).
  split; [by apply touches_same | done].
Qed.
Lemma steps_domain e k mk : steps e k (statement sql_error_text (domain_create mk)).
Proof.
  apply steps_statement. intros w w' Hwf _ Hc. unfold domain_create in Hc.
  apply let_ok in Hc as ([t i] & _ & [= <-]). split; [by apply touches_same | done].
Qed.
Hint Resolve steps_app_delete steps_link steps_app_create steps_app_update steps_domain : previews.

Ltac walk :=
  repeat match goal with
  | |- ∀ _, _ => intros ?
  | |- steps _ _ (let '(_, _) := ?x in _) => destruct x
  | |- steps _ _ (if ?b then _ else _) => destruct b
  | |- steps _ _ (match ?x with _ => _ end) => destruct x
  | |- steps _ _ _ => solve [eauto 2 with previews nocore] || (apply steps_bind || apply steps_cleanup || apply steps_ignore)
  end.

Lemma create_steps e k now base event : steps e k (create_preview_resources now base event).
Proof. unfold create_preview_resources, PreviewService.create_preview_resources. walk. Qed.
Hint Resolve create_steps : previews.

Lemma queue_steps e k now app created : steps e k (queue_preview now e app created).
Proof.
  unfold queue_preview, PreviewService.queue_preview, preview_get. walk.
  by apply (steps_update e k (λ _, no_fk)).
Qed.
Hint Resolve queue_steps : previews.

(** ** Deploying a target *)

Definition target_key (target : PreviewTarget) (event : PullRequestEvent) : Key :=
  (pt_base_application_id target, as_str (pr_provider event), pr_number event).

Lemma insert_touches mk k w w' id :
  (∀ i, pv_id (mk i) = i ∧ key_of (mk i) = k ∧ is_open (mk i) = true) →
  previews_wf w → preview_create mk w = Ok (w', id) →
  id = (seq (pw_previews w) + 1)%Z ∧ touches id k w w'.
Proof.
  intros Hmk Hwf Hc. unfold preview_create in Hc. apply let_ok in Hc as ([t i] & Hi & [= <- <-]).
  pose proof (sql_insert_wf _ _ _ _ _ Hwf (λ j, proj1 (Hmk j)) Hi) as Hwf'.
  apply sql_insert_inv in Hi as (Ei & _ & Hrows & _). split; [done|]. destruct (Hmk i) as (M1 & M2 & M3).
  assert (∀ p, p ∈ rows t → p ∈ rows (pw_previews w) ∨ p = mk i) as Hback.
  { intros p. rewrite Hrows, elem_of_app, list_elem_of_singleton. tauto. }
  split; [done| | |]; unfold row_at, open_at; simpl.
  - intros j k' (p & [Hp| ->]%Hback & <- & <-); [left; by exists p | by right].
  - intros j k' (p & [Hp| ->]%Hback & <- & <- & Ho); [left; by exists p | by right].
  - intros j k' (p & Hp & <- & <-). destruct (is_open p) eqn:Ho; [left; by exists p|].
    apply Hback in Hp as [Hp| ->]; [|congruence]. right. split; [by exists p|].
    intros (q & Hq & Hqi & _ & Hqo). assert (p = q) as <-; [|congruence].
    eapply wf_lookup_unique; [exact Hwf|done..].
Qed.

Lemma fresh_reserved k w : previews_wf w → reserved (seq (pw_previews w) + 1) k w.
Proof. intros Hwf k' (p & Hp & Hi & _). pose proof (wf_seq _ Hwf p Hp) as Hs. simpl in Hs. lia. Qed.

Lemma row_reserved p w : previews_wf w → p ∈ rows (pw_previews w) → reserved (pv_id p) (key_of p) w.
Proof.
  intros Hwf Hp k' (q & Hq & Hi & <-). f_equal. by eapply wf_lookup_unique; [exact Hwf|..].
Qed.

Lemma find_pull_request target event w p :
  find_for_pull_request (pt_base_application_id target) (as_str (pr_provider event)) (pr_number event) w
    = Some p → p ∈ rows (pw_previews w) ∧ key_of p = target_key target event.
Proof.
  intros [Hp E]%sql_first_Some. split; [done|]. bsimp. unfold key_of, target_key. congruence.
Qed.

Lemma no_pull_request target event w i :
  find_for_pull_request (pt_base_application_id target) (as_str (pr_provider event)) (pr_number event) w
    = None → ¬ row_at w i (target_key target event).
Proof.
  intros Hn (p & Hp & _ & E). apply sql_first_None in Hn. unfold sql_exists in Hn.
  apply (existsb_false _ _) with (x := p) in Hn; [|done]. injection E as E1 E2 E3.
  by rewrite E1, E2, E3, Z.eqb_refl, !bool_decide_eq_true_2 in Hn.
Qed.

Lemma existing_steps k now event base p :
  steps (pv_id p) k (deploy_existing sql_error_text env logs now event base p).
Proof.
  unfold deploy_existing.
  walk; [by apply (steps_update (pv_id p) k (λ _, no_fk)) | by apply (steps_update (pv_id p) k preview_fk)].
Qed.

Lemma new_touches now target event base w : previews_wf w →
  touches (seq (pw_previews w) + 1) (target_key target event) w
    (deploy_new sql_error_text env logs now target event base w).1.
Proof.
  intros Hwf. set (k := target_key target event). set (e := (seq (pw_previews w) + 1)%Z).
  pose proof (fresh_reserved k w Hwf) as Hr. unfold deploy_new, bind at 1.
  destruct (create_steps e k now base event w Hwf Hr) as [Ht Hs].
  destruct (PreviewService.create_preview_resources _ _ _ _ w) as [w1 [[app domain]|]]; simpl in *; [|done].
  unfold bind, or_cleanup, statement_ret. pose proof (t_wf _ _ _ _ Ht) as Hwf1.
  destruct (preview_create _ w1) as [[w2 id]|err] eqn:Ec.
  - apply (insert_touches _ k) in Ec as [Ei Ht2]; [|by intros i|done].
    replace id with e in * by (unfold e; congruence).
    eapply touches_trans; [exact Ht|]. eapply touches_trans; [exact Ht2|].
    apply queue_steps; [by eapply t_wf|]. eapply touches_reserved; [exact Ht2|].
    eapply touches_reserved; [exact Ht | exact Hr].
  - eapply touches_trans; [exact Ht|]. simpl. by apply delete_touches.
Qed.

(** Deploying touches the row of the pull request, or a new one. *)
Lemma deploy_touches now target event w :
  previews_wf w → ∃ e, reserved e (target_key target event) w
  ∧ touches e (target_key target event) w (deploy_target now target event w).1
  ∧ ∀ p, find_for_pull_request (pt_base_application_id target) (as_str (pr_provider event))
           (pr_number event) w = Some p → pv_id p = e.
Proof.
  intros Hwf. unfold deploy_target, PreviewService.deploy_target, bind, reading, of_result.
  destruct (find_for_pull_request _ _ _ w) as [p|] eqn:Ef.
  - apply find_pull_request in Ef as [Hp <-]. exists (pv_id p). pose proof (row_reserved p w Hwf Hp).
    split_and!; [done| |by intros ? [= ->]].
    destruct (ok_or _ _); [by apply existing_steps | by apply touches_refl].
  - exists (seq (pw_previews w) + 1)%Z. split_and!; [by apply fresh_reserved| |done].
    destruct (ok_or _ _); [by apply new_touches | by apply touches_refl].
Qed.

(** ** The limit *)

Definition open_ids (b : Z) (w : PreviewWorld) : list Z :=
  map pv_id (sql_select (λ p, (pv_base_application_id p =? b)%Z && is_open p) (pw_previews w)).

Lemma open_ids_spec b w i : i ∈ open_ids b w ↔ ∃ k, k.1.1 = b ∧ open_at w i k.
Proof.
  unfold open_ids. rewrite elem_of_mapb. setoid_rewrite elem_of_filterb. split.
  - intros (p & -> & Hp & E). bsimp. exists (key_of p). split; [done|]. by exists p.
  - intros (k & <- & p & Hp & <- & <- & Ho). exists p. split_and!; [done..|].
    simpl. by rewrite Z.eqb_refl.
Qed.

Lemma active_count_le b w w' X : previews_wf w' →
  (∀ i k, k.1.1 = b → open_at w' i k → open_at w i k ∨ i ∈ X) →
  (active_count b w' ≤ active_count b w + Z.of_nat (length X))%Z.
Proof.
  intros Hwf Hsub. unfold active_count, sql_count. rewrite <- !(length_map pv_id).
  fold (open_ids b w) (open_ids b w'). rewrite <- Nat2Z.inj_add, <- Nat2Z.inj_le, <- length_app.
  apply NoDup_incl_length.
  - apply NoDup_ListNoDup. eapply sublist_NoDup; [exact (wf_ids _ Hwf)|].
    apply fmap_sublist, filterb_sublist.
  - intros i. rewrite <- !list_elem_of_In, elem_of_app, !open_ids_spec.
    intros (k & Hk & Ho). destruct (Hsub i k Hk Ho) as [?|?]; [left; by exists k | by right].
Qed.

(** The previews of the pull request for application [b] are open. *)
Definition pull_request_open (b : Z) (event : PullRequestEvent) (w : PreviewWorld) : Prop :=
  ∀ i, row_at w i (b, as_str (pr_provider event), pr_number event) →
       open_at w i (b, as_str (pr_provider event), pr_number event).

Lemma touches_pull_request_open e k b event w w' :
  touches e k w w' → pull_request_open b event w → pull_request_open b event w'.
Proof. intros [_ _ _ C] Ho i [?|[Hr Hn]]%C; [done|]. by apply Ho in Hr. Qed.

(** The unique constraint of the table *)
Lemma key_unique w p q :
  previews_wf w → p ∈ rows (pw_previews w) → q ∈ rows (pw_previews w) → key_of p = key_of q →
  pv_id p = pv_id q.
Proof.
  intros Hwf Hp Hq [= E1 E2 E3]. destruct (decide (pv_id p = pv_id q)) as [|Hne]; [done|]. exfalso.
  pose proof (wf_unique _ Hwf p q Hp Hq Hne) as Hc. simpl in Hc. unfold same_pull_request in Hc.
  by rewrite E1, E2, E3, Z.eqb_refl, !bool_decide_eq_true_2 in Hc.
Qed.

(** Deploying keeps an application within a limit that admits its target: either the row of the
    pull request is open already or there is room for one more. *)
Lemma deploy_within now target event w b n :
  previews_wf w → (active_count b w ≤ n)%Z →
  (pt_base_application_id target = b →
     (∃ i, open_at w i (target_key target event)) ∨ active_count b w < n)%Z →
  (active_count b (deploy_target now target event w).1 ≤ n)%Z.
Proof.
  intros Hwf Hn Hcase. destruct (deploy_touches now target event w Hwf) as (e & Hr & Ht & Hf).
  destruct (decide (pt_base_application_id target = b)) as [Hb|Hb].
  - destruct (Hcase Hb) as [(i & Hi)|Hlt].
    + assert (i = e) as ->.
      { pose proof Hi as (p & Hp & <- & Hk & _).
        destruct (find_for_pull_request _ _ _ w) as [q|] eqn:Eq.
        - rewrite <- (Hf q eq_refl). apply find_pull_request in Eq as [Hq Hqk].
          eapply key_unique; [exact Hwf|done..|congruence].
        - exfalso. by eapply (no_pull_request _ _ _ _ Eq), open_row. }
      etransitivity; [apply (active_count_le b w _ [])|simpl; lia].
      * by eapply t_wf.
      * intros j k _ [?|[-> ->]]%(t_open _ _ _ _ Ht); by left.
    + etransitivity; [apply (active_count_le b w _ [e])|simpl; lia].
      * by eapply t_wf.
      * intros j k _ [?|[-> _]]%(t_open _ _ _ _ Ht); [by left | right; apply list_elem_of_here].
  - etransitivity; [apply (active_count_le b w _ [])|simpl; lia].
    + by eapply t_wf.
    + intros j k Hk [?|[-> ->]]%(t_open _ _ _ _ Ht); [by left | done].
Qed.

(** A deployment from the panel counts a closed preview as a new one, so it keeps the
    application within its limit whatever the table holds. *)
Theorem panel_preview_within_limit now base event w target :
  previews_wf w →
  head (List.filter (λ t, pt_base_application_id t =? base)%Z
    (matching_targets (pr_provider event) (pr_owner event) (pr_repository event)
       (pr_target_branch event) w)) = Some target →
  (active_count base (deploy_application now base event w).1
   ≤ Z.max (active_count base w) (Z.max (pt_preview_limit target) 1))%Z.
Proof.
  intros Hwf Ht. unfold deploy_application, PreviewService.deploy_application, bind, reading, of_result.
  rewrite Ht. simpl. apply head_Some_elem_of, elem_of_filterb in Ht as [_ Hb]. bsimp. subst base.
  destruct (_ && at_limit target w) eqn:Eg; simpl; [lia|].
  assert (active_count (pt_base_application_id target) (deploy_target now target event w).1
    ≤ Z.max (active_count (pt_base_application_id target) w) (Z.max (pt_preview_limit target) 1))%Z as Hd.
  { apply deploy_within; [done|lia|]. intros _.
    destruct (find_for_pull_request _ _ _ w) as [p|] eqn:Ef.
    - destruct (is_open p) eqn:Eo.
      + left. apply find_pull_request in Ef as [Hp Hk]. exists (pv_id p). by exists p.
      + right. simpl in Eg. unfold at_limit in Eg. bsimp. lia.
    - right. simpl in Eg. unfold at_limit in Eg. bsimp. lia. }
  by destruct (PreviewService.deploy_target _ _ _ _ _ _ w) as [w' [[x []]|err]].
Qed.

(** *** Events *)

Context (collaborator_permission : Z → string → string → string → result bool string).

Notation handle_target := (handle_target sql_error_text env logs collaborator_permission).
Notation handle_targets := (handle_targets sql_error_text env logs collaborator_permission).
Notation handle_pull_request := (handle_pull_request sql_error_text env logs collaborator_permission).
Notation permitted := (permitted collaborator_permission).

Lemma handle_target_touches now event o target w :
  previews_wf w → ∃ e k, touches e k w (handle_target now event o target w).1.
Proof.
  intros Hwf. unfold handle_target, PreviewService.handle_target, bind, of_result, reading.
  pose proof (λ e k, touches_refl e k w Hwf) as Hrefl.
  destruct (PreviewService.permitted _ _ _) as [[]|]; simpl; [|by exists 0%Z, (0%Z, "", "")..].
  destruct (_ && _); [by exists 0%Z, (0%Z, "", "")|].
  destruct (deploy_touches now target event w Hwf) as (e & _ & Ht & _).
  destruct (PreviewService.deploy_target _ _ _ _ _ _ w) as [w' [[x []]|err]]; [by eauto..|].
  destruct (contains _ err); by eauto.
Qed.

Lemma handle_target_within now event o target w b n :
  previews_wf w → (active_count b w ≤ n)%Z → pull_request_open b event w →
  (pt_base_application_id target = b → Z.max (pt_preview_limit target) 1 ≤ n)%Z →
  (active_count b (handle_target now event o target w).1 ≤ n)%Z.
Proof.
  intros Hwf Hn Ho Hl. unfold handle_target, PreviewService.handle_target, bind, of_result, reading.
  destruct (PreviewService.permitted _ _ _) as [[]|]; simpl; [|done..].
  destruct (bool_decide _ && _) eqn:Eg; [done|].
  assert (active_count b (deploy_target now target event w).1 ≤ n)%Z as Hd.
  { apply deploy_within; [done..|]. intros Hb. specialize (Hl Hb).
    destruct (find_for_pull_request _ _ _ w) as [p|] eqn:Ef.
    - left. apply find_pull_request in Ef as [Hp Hk]. exists (pv_id p). unfold target_key. rewrite Hb.
      apply Ho. exists p. unfold target_key in Hk. by rewrite Hb in Hk.
    - right. rewrite bool_decide_eq_true_2 in Eg by done. simpl in Eg. unfold at_limit in Eg.
      rewrite Hb in Eg. bsimp. lia. }
  destruct (PreviewService.deploy_target _ _ _ _ _ _ w) as [w' [[x []]|err]]; [done..|].
  destruct (contains _ err); done.
Qed.

Lemma handle_targets_within now event ts b n :
  (∀ t, t ∈ ts → pt_base_application_id t = b → Z.max (pt_preview_limit t) 1 ≤ n)%Z → ∀ o w,
  previews_wf w → pull_request_open b event w → (active_count b w ≤ n)%Z →
  (active_count b (handle_targets now event ts o w).1 ≤ n)%Z.
Proof.
  intros Hl. induction ts as [|t ts IH]; intros o w Hwf Ho Hn; [done|]. cbn [PreviewService.handle_targets].
  destruct (handle_target_touches now event o t w Hwf) as (e & k & Ht).
  assert (active_count b (handle_target now event o t w).1 ≤ n)%Z as Hn'.
  { apply handle_target_within; [done..|]. apply Hl, list_elem_of_here. }
  unfold bind. destruct (PreviewService.handle_target _ _ _ _ _ _ _ _ w) as [w1 [o1|err]]; [|done].
  simpl in *. apply IH; [set_solver|by eapply t_wf|by eapply touches_pull_request_open|done].
Qed.

(** Handling a pull request that is not being closed never takes the open previews of an
    application beyond its limit, provided the application keeps no closed preview of the same
    pull request. *)
Theorem previews_within_limit now event w b n :
  previews_wf w → is_close_action (pr_action event) = false → pull_request_open b event w →
  (∀ t, t ∈ matching_targets (pr_provider event) (pr_owner event) (pr_repository event)
              (pr_target_branch event) w →
        pt_base_application_id t = b → Z.max (pt_preview_limit t) 1 ≤ n)%Z →
  (active_count b (handle_pull_request now event w).1 ≤ Z.max (active_count b w) n)%Z.
Proof.
  intros Hwf Hc Ho Hl. unfold handle_pull_request, PreviewService.handle_pull_request. rewrite Hc.
  unfold bind at 1, reading. apply handle_targets_within; [|done..|lia].
  intros t Ht Hb. specialize (Hl t Ht Hb). lia.
Qed.

(** ** Every target is accounted for, and permission comes first *)

Definition lifecycle_total (o : PreviewLifecycleOutcome) : nat :=
  lo_created o + lo_redeployed o + lo_skipped_permission o + lo_skipped_limit o + lo_already_running o.

Lemma handle_target_total now event o target w w' o' :
  handle_target now event o target w = (w', Ok o') → lifecycle_total o' = S (lifecycle_total o).
Proof.
  unfold handle_target, PreviewService.handle_target, bind, of_result, reading, lifecycle_total.
  destruct (PreviewService.permitted _ _ _) as [[]|]; simpl; [|intros [= <- <-]; simpl; lia|done].
  destruct (_ && _); [intros [= <- <-]; simpl; lia|].
  destruct (PreviewService.deploy_target _ _ _ _ _ _ w) as [w1 [[x []]|err]];
    [intros [= <- <-]; simpl; lia..|].
  destruct (contains _ err); [intros [= <- <-]; simpl; lia | done].
Qed.

(** A counter more in the outcome so far is a counter more in the outcome. *)
Definition skipping (n : nat) (o : PreviewLifecycleOutcome) : PreviewLifecycleOutcome :=
  mkLifecycle (lo_created o) (lo_redeployed o) (lo_removed o) (n + lo_skipped_permission o)
    (lo_skipped_limit o) (lo_already_running o).
Definition with_skipped (n : nat) (r : PreviewWorld * result PreviewLifecycleOutcome string)
    : PreviewWorld * result PreviewLifecycleOutcome string :=
  match r with (w, Ok o) => (w, Ok (skipping n o)) | (w, Err e) => (w, Err e) end.

Lemma handle_target_skipping now event n o target w :
  handle_target now event (skipping n o) target w
  = with_skipped n (handle_target now event o target w).
Proof.
  unfold handle_target, PreviewService.handle_target, bind, of_result, reading, with_skipped.
  destruct (PreviewService.permitted _ _ _) as [[]|]; simpl.
  - destruct (_ && _); [done|].
    destruct (PreviewService.deploy_target _ _ _ _ _ _ w) as [w1 [[x []]|err]]; [done..|].
    by destruct (contains _ err).
  - unfold add_skipped_permission, skipping. simpl. by rewrite Nat.add_succ_r.
  - done.
Qed.

Lemma handle_targets_skipping now event n ts : ∀ o w,
  handle_targets now event ts (skipping n o) w = with_skipped n (handle_targets now event ts o w).
Proof.
  induction ts as [|t ts IH]; intros o w; [done|]. cbn [PreviewService.handle_targets]. unfold bind.
  rewrite handle_target_skipping. unfold with_skipped at 1.
  destruct (PreviewService.handle_target _ _ _ _ _ _ _ _ w) as [w1 [o1|err]]; [apply IH | done].
Qed.

(** Applications that require a collaborator are skipped when the author of the pull request is
    unknown or may not write: handling a list of targets is handling the permitted ones alone,
    with the others only counted. *)
Theorem previews_need_permission now event (may : PreviewTarget → bool) ts o w :
  (∀ t, t ∈ ts → permitted t event = Ok (may t)) →
  handle_targets now event ts o w
  = with_skipped (length (List.filter (λ t, negb (may t)) ts))
      (handle_targets now event (List.filter may ts) o w).
Proof.
  revert o w. induction ts as [|t ts IH]; intros o w Hp.
  { simpl. unfold ret. do 2 f_equal. by destruct o. }
  assert (∀ o w, handle_targets now event ts o w
    = with_skipped (length (List.filter (λ t, negb (may t)) ts))
        (handle_targets now event (List.filter may ts) o w)) as IH' by (intros; apply IH; set_solver).
  pose proof (Hp t (list_elem_of_here _ _)) as Ht. cbn [PreviewService.handle_targets List.filter].
  destruct (may t); simpl.
  - unfold bind. destruct (PreviewService.handle_target _ _ _ _ _ _ _ _ w) as [w1 [o1|err]]; [apply IH' | done].
  - unfold bind. unfold PreviewService.handle_target, bind, of_result. rewrite Ht. simpl.
    rewrite (IH' (add_skipped_permission o)).
    change (add_skipped_permission o) with (skipping 1 o). rewrite handle_targets_skipping.
    destruct (PreviewService.handle_targets _ _ _ _ _ _ _ _ w) as [w1 [o1|err]]; [|done].
    simpl. unfold skipping. simpl. by rewrite Nat.add_succ_r.
Qed.

(** When a pull request has been handled, the targets that were created, redeployed, skipped or
    already running are together the matching applications. *)
Theorem every_target_is_accounted_for now event w w' o :
  is_close_action (pr_action event) = false →
  handle_pull_request now event w = (w', Ok o) →
  lifecycle_total o = length (matching_targets (pr_provider event) (pr_owner event)
                                (pr_repository event) (pr_target_branch event) w).
Proof.
  intros Hc. unfold handle_pull_request, PreviewService.handle_pull_request. rewrite Hc.
  unfold bind at 1, reading.
  generalize (matching_targets (pr_provider event) (pr_owner event) (pr_repository event)
                (pr_target_branch event) w) as ts.
  assert (∀ ts o0 w, handle_targets now event ts o0 w = (w', Ok o) →
            lifecycle_total o = length ts + lifecycle_total o0) as Hloop.
  { clear. induction ts as [|t ts IH]; intros o0 w; [by intros [= <- <-]|].
    intros (w1 & o1 & H1%handle_target_total & H2%IH)%bind_ok. simpl. lia. }
  intros ts E%Hloop. unfold lifecycle_total, no_lifecycle in *. simpl in *. lia.
Qed.
End service.

(** * Closing a pull request

    A closing event always succeeds, closes the open previews of the pull request, deletes their
    applications, and leaves every other preview as it is. *)

(** ** Applications that stay gone *)

Section gone.
Context `{Watch}.

Definition app_ids (s : Sys) : list Z := map a_id (rows (applications (sys_db s))).
Definition keeps_ids {X} (m : M X) : Prop := ∀ s, app_ids (m s).1 = app_ids s.

Lemma keeps_bind {X Y} (m : M X) (f : X → M Y) : keeps_ids m → (∀ x, keeps_ids (f x)) → keeps_ids (bind m f).
Proof.
  intros Hm Hf s. unfold bind. specialize (Hm s). destruct (m s) as [s1 [x|e]]; simpl in *; [|done].
  by rewrite Hf.
Qed.
Lemma keeps_reads {X} (m : M X) : reads m → keeps_ids m.
Proof. intros Hm s. by rewrite Hm. Qed.
Lemma keeps_ignore {X} (m : M X) : keeps_ids m → keeps_ids (ignore m).
Proof. done. Qed.

Lemma keeps_write f :
  (∀ db db', f db = Ok db' → map a_id (rows (applications db')) = map a_id (rows (applications db))) →
  keeps_ids (write f).
Proof. intros Hf s. unfold write. destruct (f (sys_db s)) eqn:E; [by apply Hf|done]. Qed.
Lemma keeps_write_ret {X} (f : Db → result (Db * X) SqlError) :
  (∀ db db' x, f db = Ok (db', x) → map a_id (rows (applications db')) = map a_id (rows (applications db))) →
  keeps_ids (write_ret f).
Proof. intros Hf s. unfold write_ret. destruct (f (sys_db s)) as [[db x]|] eqn:E; [by eapply Hf|done]. Qed.

Lemma update_deployments_apps p f db db' n :
  update_deployments p f db = Ok (db', n) → applications db' = applications db.
Proof. unfold update_deployments. by intros ([t m] & _ & [= <- <-])%let_ok. Qed.

Lemma update_status_keeps id status : keeps_ids (application_update_status id status).
Proof.
  apply keeps_bind; [|intros _; apply keeps_reads, bind_reads; [done | auto with oxide]].
  apply keeps_write. intros db db' Hs. unfold set_application_status in Hs.
  apply let_ok in Hs as ([t n] & (Hr & _)%sql_update_inv & [= <-]). simpl. rewrite Hr, map_map.
  apply map_ext. intros a. unfold updated. by destruct (_ =? _)%Z.
Qed.

Lemma cancel_keeps now id : keeps_ids (application_cancel_operation now id).
Proof.
  unfold application_cancel_operation, application_stop_or_cancel_smart.
  apply keeps_bind; [apply keeps_reads, bind_reads; [done | auto with oxide]|]. intros app.
  destruct (if application_is_building _ then _ else _) as [i f].
  apply keeps_bind; [apply keeps_ignore, update_status_keeps|intros _].
  apply keeps_bind; [apply keeps_ignore, keeps_write_ret|intros _].
  { intros db db' x Hc. unfold cancel_queued_application, cancel_queued_for_application, any_affected in Hc.
    apply let_ok in Hc as ([db1 c] & Hc & [= <- <-]). apply let_ok in Hc as ([db2 n] & Hc & [= <- <-]).
    by rewrite (update_deployments_apps _ _ _ _ _ Hc). }
  apply keeps_bind; [|intros _].
  { intros s. unfold cancel_component. by destruct (cancel_by_id _ _). }
  apply keeps_bind; [apply keeps_ignore, keeps_write|by intros _].
  intros db db' Hc. unfold request_cancel_deployment in Hc. apply let_ok in Hc as ([db1 c] & Hc & [= <-]).
  by rewrite (update_deployments_apps _ _ _ _ _ Hc).
Qed.

Lemma find_application_ids id db : find_application id db = None ↔ id ∉ map a_id (rows (applications db)).
Proof.
  unfold find_application. rewrite sql_first_None. unfold sql_exists. rewrite existsb_false, elem_of_mapb.
  split.
  - intros Hn (a & -> & Ha). specialize (Hn a Ha). by rewrite Z.eqb_refl in Hn.
  - intros Hn a Ha. apply Z.eqb_neq. intros <-. apply Hn. by exists a.
Qed.

(** No application appears. *)
Definition no_new_app (w w' : PreviewWorld) : Prop := ∀ a, app_get a w = None → app_get a w' = None.

Lemma no_new_app_refl w : no_new_app w w.
Proof. by intros a. Qed.
Lemma no_new_app_trans w1 w2 w3 : no_new_app w1 w2 → no_new_app w2 w3 → no_new_app w1 w3.
Proof. intros H1 H2 a Ha. auto. Qed.

Lemma app_get_None a w :
  app_get a w = None ↔ a ∉ app_ids (pw_sys w) ∨ pw_columns w !! a = None.
Proof.
  unfold app_get, app_ids, pw_db. rewrite <- find_application_ids.
  destruct (find_application _ _), (pw_columns w !! a); naive_solver.
Qed.

Lemma cancel_no_new sql_error_text now id w :
  no_new_app w (on_sys sql_error_text (application_cancel_operation now id) w).1.
Proof.
  intros a. rewrite !app_get_None. unfold on_sys. pose proof (cancel_keeps now id (pw_sys w)) as Hk.
  destruct (application_cancel_operation now id (pw_sys w)) as [s r]. simpl in *. by rewrite Hk.
Qed.

Lemma delete_app_ids id w a :
  a ∈ app_ids (pw_sys (app_delete id w)) → a ∈ app_ids (pw_sys w) ∧ a ≠ id.
Proof.
  unfold app_delete, app_ids, pw_db. destruct (existsb _ _) eqn:E; simpl.
  - rewrite !elem_of_mapb.
    intros (x & -> & [Hx Hn]%elem_of_filterb). bsimp. split; [by exists x | done].
  - intros Ha. split; [done|]. intros ->. apply elem_of_mapb in Ha as (x & -> & Hx).
    rewrite existsb_false in E. specialize (E x Hx). by rewrite Z.eqb_refl in E.
Qed.

Lemma delete_no_new id w : no_new_app w (app_delete id w).
Proof.
  intros a. rewrite !app_get_None. intros [Ha|Hc].
  - left. by intros [? _]%delete_app_ids.
  - right. unfold app_delete. destruct (negb _); [done|]. simpl. rewrite lookup_delete. by case_decide.
Qed.

Lemma deleted_app id w : app_get id (app_delete id w) = None.
Proof. apply app_get_None. left. by intros [_ ?]%delete_app_ids. Qed.
End gone.

(** ** Rows *)

(** Everything but the last deployment *)
Definition drop_last (p : PreviewDeployment) : PreviewDeployment :=
  set_state (pv_updated_at p) (pv_preview_application_id p) None (pv_status p) p.
Definition kept (p p' : PreviewDeployment) : Prop := drop_last p = drop_last p'.
Definition closed_of (p p' : PreviewDeployment) : Prop :=
  pv_id p' = pv_id p ∧ key_of p' = key_of p ∧ pv_status p' = "CLOSED" ∧ pv_preview_application_id p' = None.

Lemma kept_fields p p' : kept p p' →
  pv_id p' = pv_id p ∧ key_of p' = key_of p ∧ pv_status p' = pv_status p
  ∧ pv_preview_application_id p' = pv_preview_application_id p ∧ pv_owner p' = pv_owner p
  ∧ pv_repository p' = pv_repository p.
Proof. unfold kept, drop_last, set_state, key_of. intros [=]. split_and!; congruence. Qed.

Lemma closed_kept p q r : closed_of p q → kept q r → closed_of p r.
Proof. intros (?&?&?&?) (?&?&?&?&?&?)%kept_fields. unfold closed_of. split_and!; congruence. Qed.
Lemma kept_closed p q r : kept p q → closed_of q r → closed_of p r.
Proof. intros (?&?&?&?&?&?)%kept_fields (?&?&?&?). unfold closed_of. split_and!; congruence. Qed.
Lemma closed_closed p q r : closed_of p q → closed_of q r → closed_of p r.
Proof. unfold closed_of. intuition congruence. Qed.
Lemma kept_refl p : kept p p.
Proof. done. Qed.
Lemma kept_trans p q r : kept p q → kept q r → kept p r.
Proof. unfold kept. congruence. Qed.

(** The rows of [w'] are those of [w], the ones of [ids] closed. *)
Definition closes {H : Watch} (ids : list Z) (w w' : PreviewWorld) : Prop :=
  ∃ g, rows (pw_previews w') = map g (rows (pw_previews w))
  ∧ ∀ q, q ∈ rows (pw_previews w) →
      (pv_id q ∈ ids → closed_of q (g q)) ∧ (pv_id q ∉ ids → kept q (g q)).

(** The application of a preview is no base application. *)
Definition separated {H : Watch} (w : PreviewWorld) : Prop := ∀ p q,
  p ∈ rows (pw_previews w) → q ∈ rows (pw_previews w) →
  pv_preview_application_id p ≠ Some (pv_base_application_id q).

Section closing.
Context `{Watch}.
Context (sql_error_text : SqlError → string).

Lemma closes_fields ids w w' q' : closes ids w w' → q' ∈ rows (pw_previews w') →
  ∃ q, q ∈ rows (pw_previews w) ∧ key_of q' = key_of q ∧ pv_id q' = pv_id q
  ∧ (pv_preview_application_id q' = None
     ∨ pv_preview_application_id q' = pv_preview_application_id q).
Proof.
  intros (g & Hr & Hg). rewrite Hr. intros (q & -> & Hq)%elem_of_mapb. exists q. split; [done|].
  destruct (Hg q Hq) as [Hc Hk]. destruct (decide (pv_id q ∈ ids)) as [Hi|Hi].
  - destruct (Hc Hi) as (?&?&?&?). auto.
  - destruct (kept_fields _ _ (Hk Hi)) as (?&?&?&?&?&?). auto.
Qed.

Lemma closes_separated ids w w' : closes ids w w' → separated w → separated w'.
Proof.
  intros Hc Hs p' q' Hp Hq E. destruct (closes_fields _ _ _ _ Hc Hp) as (p & Hp' & _ & _ & Ha).
  destruct (closes_fields _ _ _ _ Hc Hq) as (q & Hq' & Hk & _). apply (Hs p q Hp' Hq').
  injection Hk as Hk _ _. destruct Ha as [Ha|Ha]; congruence.
Qed.

Lemma closes_trans ids1 ids2 w1 w2 w3 :
  closes ids1 w1 w2 → closes ids2 w2 w3 → closes (ids1 ++ ids2) w1 w3.
Proof.
  intros (g1 & R1 & G1) (g2 & R2 & G2). exists (λ q, g2 (g1 q)). rewrite R2, R1, map_map. split; [done|].
  intros q Hq. destruct (G1 q Hq) as [C1 K1].
  assert (g1 q ∈ rows (pw_previews w2)) as Hq2 by (rewrite R1; apply elem_of_mapb; eauto).
  destruct (G2 _ Hq2) as [C2 K2].
  assert (pv_id (g1 q) = pv_id q) as Hid.
  { destruct (decide (pv_id q ∈ ids1)) as [Hi|Hi]; [by apply C1 | by apply K1, kept_fields in Hi as (?&_)]. }
  rewrite Hid in *. rewrite not_elem_of_app, elem_of_app. split.
  - destruct (decide (pv_id q ∈ ids1)) as [H1|H1], (decide (pv_id q ∈ ids2)) as [H2|H2]; intros [?|?]; try done;
      eauto using closed_closed, closed_kept, kept_closed.
  - intros [H1 H2]. eauto using kept_trans.
Qed.

(** The last statement of a removal, after a change [h] of the rows *)
Lemma close_after h now id w w1 :
  rows (pw_previews w1) = map h (rows (pw_previews w)) → previews_wf w1 →
  (∀ q, pv_id (h q) = pv_id q ∧ key_of (h q) = key_of q) →
  (∀ q, q ∈ rows (pw_previews w) → pv_id q ≠ id → kept q (h q)) →
  ∃ t n, close now id w1 = Ok (with_pv t w1, n) ∧ previews_wf (with_pv t w1) ∧ closes [id] w (with_pv t w1).
Proof.
  intros Hr Hwf Hh Hk. set (f := λ p, set_state now None (pv_last_deployment_id p) "CLOSED" p).
  assert (sql_update no_fk (λ p, pv_id p =? id)%Z f (pw_previews w1)
    = Ok (mkTable (map (updated (λ p, pv_id p =? id)%Z f) (rows (pw_previews w1))) (seq (pw_previews w1)),
          length (sql_select (λ p, pv_id p =? id)%Z (pw_previews w1)))) as Hu.
  { apply sql_update_success; [done|done|by intros|]. intros r x _ _. simpl. rewrite !orb_true_iff.
    intros [?|?]; [by left | done]. }
  eexists _, _. unfold close, preview_update. fold f. rewrite Hu. split_and!; [reflexivity| |].
  - eapply sql_update_wf; [exact Hwf| |exact Hu]. done.
  - exists (λ q, updated (λ p, pv_id p =? id)%Z f (h q)). simpl. rewrite Hr, map_map. split; [done|].
    intros q Hq. destruct (Hh q) as [Hi Hkey]. unfold updated. rewrite Hi, list_elem_of_singleton.
    destruct (Z.eqb_spec (pv_id q) id) as [E|E]; (split; [intros HE | intros HE]); try done; by apply Hk.
Qed.

(** Deleting the application of a preview unlinks that preview only. *)
Lemma delete_links w p app :
  previews_wf w → separated w → p ∈ rows (pw_previews w) → pv_preview_application_id p = Some app →
  ∃ h, rows (pw_previews (app_delete app w)) = map h (rows (pw_previews w))
  ∧ (∀ q, pv_id (h q) = pv_id q ∧ key_of (h q) = key_of q)
  ∧ ∀ q, q ∈ rows (pw_previews w) → pv_id q ≠ pv_id p → kept q (h q).
Proof.
  intros Hwf Hs Hp Ha. unfold app_delete. destruct (negb _) eqn:En.
  { exists id. simpl. split_and!; [by rewrite map_id | done | done]. }
  set (gone := λ v : Z, existsb _ _). exists (unlink app gone). simpl. split_and!; [|done|].
  - f_equal. apply filterb_all_true. intros q Hq. apply negb_true_iff, Z.eqb_neq. intros <-.
    by apply (Hs p q).
  - intros q Hq Hne. unfold kept, drop_last, unlink, set_state. simpl.
    destruct (pv_preview_application_id q) as [x|] eqn:Eq; simpl; [|done].
    destruct (Z.eqb_spec x app) as [->|]; [|done]. exfalso.
    pose proof (wf_unique _ Hwf q p Hq Hp Hne) as Hc. simpl in Hc.
    rewrite Eq, Ha in Hc. simpl in Hc. by rewrite Z.eqb_refl, orb_true_r in Hc.
Qed.

Lemma remove_application_spec now w p :
  previews_wf w → separated w → p ∈ rows (pw_previews w) →
  ∃ w1 h, remove_application sql_error_text now p w = (w1, Ok tt)
  ∧ rows (pw_previews w1) = map h (rows (pw_previews w)) ∧ previews_wf w1 ∧ no_new_app w w1
  ∧ (∀ q, pv_id (h q) = pv_id q ∧ key_of (h q) = key_of q)
  ∧ (∀ q, q ∈ rows (pw_previews w) → pv_id q ≠ pv_id p → kept q (h q))
  ∧ (∀ app, pv_preview_application_id p = Some app → app_get app w1 = None).
Proof.
  intros Hwf Hs Hp. unfold remove_application.
  assert (rows (pw_previews w) = map id (rows (pw_previews w))) as Hid by (by rewrite map_id).
  destruct (pv_preview_application_id p) as [app|] eqn:Ea; [|exists w, id; split_and!; auto using kept_refl, no_new_app_refl; done].
  unfold bind, reading, ignore. destruct (app_get app w) as [a|] eqn:Eg; [|exists w, id; split_and!; auto using kept_refl, no_new_app_refl; by intros x [= <-]].
  pose proof (cancel_no_new sql_error_text now app w) as Hn. revert Hn.
  set (w0 := (on_sys _ _ w).1). intros Hn.
  assert (pw_previews w0 = pw_previews w) as E0.
  { unfold w0, on_sys. by destruct (application_cancel_operation _ _ _). }
  assert (previews_wf w0) as Hwf0 by (unfold previews_wf; by rewrite E0).
  destruct (delete_links w0 p app) as (h & Hr & Hh & Hk); [done| |by rewrite E0|done|].
  { unfold separated. by rewrite E0. }
  exists (app_delete app w0), h. rewrite E0 in *. split_and!; try done.
  - by apply delete_wf.
  - eapply no_new_app_trans; [exact Hn | apply delete_no_new].
  - intros x [= <-]. apply deleted_app.
Qed.

Lemma remove_closes now w p :
  previews_wf w → separated w → p ∈ rows (pw_previews w) →
  ∃ w', remove_unlocked sql_error_text now (pv_id p) false w = (w', Ok tt)
  ∧ previews_wf w' ∧ closes [pv_id p] w w' ∧ no_new_app w w'
  ∧ (∀ app, pv_preview_application_id p = Some app → app_get app w' = None).
Proof.
  intros Hwf Hs Hp.
  destruct (remove_application_spec now w p Hwf Hs Hp) as (w1 & h & Hr & Hrows & Hwf1 & Hn & Hh & Hk & Ha).
  destruct (close_after h now (pv_id p) w w1 Hrows Hwf1 Hh Hk) as (t & n & Hc & Hwf2 & Hcl).
  exists (with_pv t w1). split_and!; [|done|done|exact Hn|exact Ha].
  unfold remove_unlocked. unfold bind at 1, reading at 1. unfold preview_get_by_id.
  rewrite (sql_first_id _ p Hwf Hp : sql_first (λ x, pv_id x =? pv_id p)%Z _ = _).
  unfold bind at 1, of_result. simpl. unfold bind at 1. rewrite Hr. unfold bind, statement_ret. by rewrite Hc.
Qed.

Lemma remove_all_closes now l : ∀ w,
  previews_wf w → separated w → (∀ p, p ∈ l → ∃ q, q ∈ rows (pw_previews w) ∧ pv_id q = pv_id p) →
  ∃ w', remove_all sql_error_text now false l w = (w', Ok tt)
  ∧ previews_wf w' ∧ closes (map pv_id l) w w' ∧ no_new_app w w'
  ∧ (∀ q app, q ∈ rows (pw_previews w) → pv_id q ∈ map pv_id l →
       pv_preview_application_id q = Some app → app_get app w' = None).
Proof.
  induction l as [|p l IH]; intros w Hwf Hs Hl; simpl.
  { exists w. split_and!; [done|done| |apply no_new_app_refl|set_solver]. exists id. rewrite map_id. split; [done|].
    intros q Hq. split; [set_solver | done]. }
  destruct (Hl p (list_elem_of_here _ _)) as (p0 & Hp0 & Hid). rewrite <- Hid.
  destruct (remove_closes now w p0 Hwf Hs Hp0) as (w1 & Hr & Hwf1 & Hc1 & Hn1 & Ha1).
  destruct (IH w1 Hwf1 (closes_separated _ _ _ Hc1 Hs)) as (w2 & Hr2 & Hwf2 & Hc2 & Hn2 & Ha2).
  { intros q Hq. destruct (Hl q) as (q0 & Hq0 & Hq0i); [set_solver|]. destruct Hc1 as (g & R & G).
    exists (g q0). rewrite R. split; [apply elem_of_mapb; eauto|]. rewrite <- Hq0i.
    destruct (decide (pv_id q0 ∈ [pv_id p0])) as [Hi|Hi]; [by apply (G q0 Hq0)|].
    by apply (G q0 Hq0), kept_fields in Hi as (? & _). }
  exists w2. unfold bind. rewrite Hr. split_and!; [done|done| |by eapply no_new_app_trans|].
  { apply (closes_trans [pv_id p0] (map pv_id l) w w1 w2 Hc1 Hc2). }
  intros q app Hq Hin Happ. destruct (decide (pv_id q = pv_id p0)) as [E|E].
  - assert (q = p0) as -> by (eapply wf_lookup_unique; [exact Hwf|done..]). by apply Hn2, Ha1.
  - apply elem_of_cons in Hin as [?|Hin]; [done|]. destruct Hc1 as (g & R & G).
    assert (kept q (g q)) as (E1 & _ & _ & E4 & _)%kept_fields by (apply (G q Hq); set_solver).
    apply (Ha2 (g q) app); [rewrite R; apply elem_of_mapb; eauto|by rewrite E1|congruence].
Qed.
End closing.

(** ** The event *)

(** The open previews of the pull request of an event *)
Definition open_rows `{Watch} (event : PullRequestEvent) (w : PreviewWorld) : list PreviewDeployment :=
  find_open_for_event (as_str (pr_provider event)) (pr_owner event) (pr_repository event)
    (pr_number event) w.

(** A closing event of a pull request always succeeds when the constraints of the table hold and
    no preview is made from a preview: it counts and closes every open preview of the pull
    request, deletes their applications, and changes of every other preview at most the link to
    its last deployment. *)
Theorem closing_a_pull_request `{Watch} sql_error_text env logs permission now event w :
  previews_wf w → separated w → is_close_action (pr_action event) = true →
  ∃ w', handle_pull_request sql_error_text env logs permission now event w
        = (w', Ok (mkLifecycle 0 0 (length (open_rows event w)) 0 0 0))
  ∧ open_rows event w' = []
  ∧ (∀ p app, p ∈ open_rows event w → pv_preview_application_id p = Some app → app_get app w' = None)
  ∧ (∀ p, p ∈ rows (pw_previews w) → p ∉ open_rows event w → ∃ p', p' ∈ rows (pw_previews w') ∧ kept p p').
Proof.
  intros Hwf Hs Hc.
  assert (∀ p, p ∈ open_rows event w ↔ p ∈ rows (pw_previews w)
            ∧ of_event (as_str (pr_provider event)) (pr_owner event) (pr_repository event)
                (pr_number event) p = true) as Hin by (intros p; apply elem_of_filterb).
  assert (∀ p, p ∈ rows (pw_previews w) → (pv_id p ∈ map pv_id (open_rows event w) ↔ p ∈ open_rows event w)) as Hids.
  { intros p Hp. rewrite elem_of_mapb. split; [|by eauto]. intros (q & E & Hq).
    assert (p = q) as -> by (eapply wf_lookup_unique; [exact Hwf|done|by apply Hin|done]). done. }
  destruct (remove_all_closes sql_error_text now (open_rows event w) w Hwf Hs) as (w' & Hr & _ & (g & R & G) & _ & Ha).
  { intros p Hp. exists p. split; [by apply Hin | done]. }
  exists w'. split_and!.
  - unfold handle_pull_request. rewrite Hc. unfold bind, reading. fold (open_rows event w). by rewrite Hr.
  - apply filterb_all_false. intros p'. rewrite R. intros (p & -> & Hp)%elem_of_mapb.
    destruct (G p Hp) as [Gc Gk]. destruct (decide (pv_id p ∈ map pv_id (open_rows event w))) as [Hp'|Hp'].
    + apply Gc in Hp' as (_ & _ & Es & _). unfold of_event, is_open.
      rewrite Es. simpl. by rewrite andb_false_r.
    + assert (kept p (g p)) as (_ & [= _ E1 E2] & E3 & _ & E4 & E5)%kept_fields by (by apply Gk).
      apply not_true_is_false. intros E. apply Hp', Hids, Hin; [done|]. split; [done|]. unfold of_event, is_open in *. by rewrite E1, E2, E3, E4, E5 in E.
  - intros p app Hp Happ. apply (Ha p app); [by apply Hin|by apply Hids; [apply Hin|]|done].
  - intros p Hp Hn. exists (g p). split; [rewrite R; apply elem_of_mapb; eauto|]. apply G; [done|]. by rewrite Hids.
Qed.
