(* ===== verification/WebhookDispatch.v ===== *)
(** * Receiving and dispatching webhooks

    [src/api/handlers/webhook.rs] (the handler), [src/services/webhook/dispatcher.rs] and
    [src/db/repository/webhooks.rs].  A push queues a redeployment of the matching applications
    and compose projects through the operations of [DeploymentService]; a pull request goes to
    [PreviewService].  The columns that say where a compose project comes from are an argument.
    The texts of [sqlx] errors, HMAC and the decoders are parameters. *)

From stdpp Require Import gmap strings list.
From Stdlib Require Import ZArith Lia Ascii.
From S2P Require Import Prelude RustStr RustText WatchPaths StringEnum Sql Webhook DeploymentDb DeploymentInv ApplicationState Operations BuilderQueue DeploymentService ServiceProps PreviewDb PreviewService PreviewFacts.

(** ** Where resources come from *)

(** The columns of an application or compose project the queries read *)
Record SourceRow := mkSource {
  so_id : Z;
  so_source_type : string;
  so_auto_deploy : option Z;
  so_trigger_type : string;
  so_git : GitProviderKind → GitColumns;
  so_watch_paths : option string;
}.

Record WebhookResource := mkResource { wr_id : Z; wr_watch_paths : option string }.

Definition source_matches (event : PushEvent) (r : SourceRow) : bool :=
  let git := so_git r (pe_provider event) in
  bool_decide (so_source_type r = as_str (pe_provider event))
  && bool_decide (so_auto_deploy r = Some 1%Z)
  && bool_decide (so_trigger_type r = as_str (pe_trigger event))
  && lower_is (gc_repository git) (pe_repository event)
  && lower_is (gc_owner git) (pe_owner event)
  && column_is (gc_branch git) (pe_branch event).

Definition matching_resources (event : PushEvent) (l : list SourceRow) : list WebhookResource :=
  map (λ r, mkResource (so_id r) (so_watch_paths r)) (List.filter (source_matches event) l).

Section queries.
Context `{Watch}.

Definition credential_secret (provider : GitProviderKind) (provider_id : Z) (w : PreviewWorld)
    : option string :=
  head (List.filter (λ p, bool_decide (gv_kind p = provider) && (gv_id p =? provider_id)%Z) (pw_git w))
  ≫= gv_webhook_secret.

Definition application_sources (w : PreviewWorld) : list SourceRow :=
  omap (λ a, match pw_columns w !! a_id a with
             | Some c => Some (mkSource (a_id a) (ac_source_type c) (ac_auto_deploy c) (ac_trigger_type c)
                                 (ac_git c) (ac_watch_paths c))
             | None => None
             end) (rows (applications (pw_db w))).

Definition matching_applications (event : PushEvent) (w : PreviewWorld) : list WebhookResource :=
  matching_resources event (application_sources w).
Definition matching_compose_projects (event : PushEvent) (sources : list SourceRow) : list WebhookResource :=
  matching_resources event sources.
End queries.

(** ** Outcomes *)

Record DispatchOutcome := mkOutcome {
  do_event_type : string; do_provider : option string; do_owner : option string;
  do_repository : option string; do_applications_queued : nat; do_compose_projects_queued : nat;
  do_skipped_by_watch_paths : nat; do_already_running : nat; do_pull_request_number : option string;
  do_pull_request_action : option string; do_source_branch : option string;
  do_source_owner : option string; do_source_repository : option string;
  do_target_branch : option string; do_commit : option string; do_author : option string;
  do_previews_created : nat; do_previews_redeployed : nat; do_previews_removed : nat;
  do_previews_skipped_permission : nat; do_previews_skipped_limit : nat;
}.

(** The counters of the loops *)
Record Tally := mkTally { ty_queued : nat; ty_skipped : nat; ty_running : nat }.

Section dispatch.
Context `{Watch}.
Context (sql_error_text : SqlError → string).
Context (from_str_json : string → result Json string).
Context (env : option Z) (logs : string).
Context (collaborator_permission : Z → string → string → string → result bool string).
Context (compose_sources : list SourceRow).
Context (hmac : bytes → bytes → bytes) (de : Decoders).

(** The body of a loop: [run] is [run_operation(id, Redeploy)]. *)
Definition dispatch_resource {X} (event : PushEvent) (run : Z → M X) (t : Tally) (r : WebhookResource)
    : P Tally := λ s,
  let skip := if bool_decide (pe_trigger event = TriggerPush)
              then let? b := should_deploy from_str_json (wr_watch_paths r) (pe_changed_paths event) in
                   Ok (negb b)
              else Ok false in
  match skip with
  | Err e => (s, Err e)
  | Ok true => (s, Ok (mkTally (ty_queued t) (S (ty_skipped t)) (ty_running t)))
  | Ok false =>
      match on_sys sql_error_text (run (wr_id r)) s with
      | (s', Ok _) => (s', Ok (mkTally (S (ty_queued t)) (ty_skipped t) (ty_running t)))
      | (s', Err error) =>
          if contains "already queued or running" error
          then (s', Ok (mkTally (ty_queued t) (ty_skipped t) (S (ty_running t))))
          else (s', Err error)
      end
  end.

Fixpoint dispatch_loop {X} (event : PushEvent) (run : Z → M X) (l : list WebhookResource) (t : Tally)
    : P Tally :=
  match l with
  | [] => ret t
  | r :: l' => do! t' := dispatch_resource event run t r in dispatch_loop event run l' t'
  end.

Definition dispatch (now : Z) (event : PushEvent) : P DispatchOutcome :=
  do! applications := reading (matching_applications event) in
  let compose_projects := matching_compose_projects event compose_sources in
  do! apps := dispatch_loop event (λ id, application_run_operation env logs now id AppRedeploy)
                applications (mkTally 0 0 0) in
  do! all := dispatch_loop event (λ id, compose_run_operation env logs now id ComposeRedeploy)
               compose_projects (mkTally 0 (ty_skipped apps) (ty_running apps)) in
  ret (mkOutcome (to_ascii_lowercase (as_str (pe_trigger event))) (Some (as_str (pe_provider event)))
         (Some (pe_owner event)) (Some (pe_repository event)) (ty_queued apps) (ty_queued all)
         (ty_skipped all) (ty_running all) None None None None None None None None 0 0 0 0 0).

Definition dispatch_pull_request (now : Z) (event : PullRequestEvent) : P DispatchOutcome :=
  do! c := handle_pull_request sql_error_text env logs collaborator_permission now event in
  ret (mkOutcome "pull_request" (Some (as_str (pr_provider event))) (Some (pr_owner event))
         (Some (pr_repository event)) 0 0 0 (lo_already_running c) (Some (pr_number event))
         (Some (pr_action event)) (Some (pr_source_branch event)) (pr_source_owner event)
         (pr_source_repository event) (Some (pr_target_branch event)) (pr_commit event)
         (pr_author event) (lo_created c) (lo_redeployed c) (lo_removed c)
         (lo_skipped_permission c) (lo_skipped_limit c)).

(** ** The handler *)

Definition R (X : Type) : Type := SE PreviewWorld ApiError X.

Definition with_status {X} (code : StatusCode) (m : P X) : R X := λ s,
  match m s with (s', Ok x) => (s', Ok x) | (s', Err e) => (s', Err (code, e)) end.

Definition receive (now : Z) (provider_name : string) (provider_id : Z) (headers : Headers)
    (body : bytes) : R DispatchOutcome :=
  do! provider := of_result (parse_provider provider_name) in
  do! event_name := of_result (event_header provider headers) in
  do! secret := (λ w, (w, Ok (credential_secret provider provider_id w))) in
  do! credential := with_status Unauthorized (of_result (credential_of provider secret)) in
  do! _ := of_result (verify_request hmac provider credential headers body) in
  do! event := with_status BadRequest (of_result (parse_event de provider event_name body)) in
  match event with
  | Ping => ret (mkOutcome "ping" (Some (as_str provider)) None None 0 0 0 0 None None None None
                   None None None None 0 0 0 0 0)
  | GitRef e => with_status InternalError (dispatch now e)
  | PullRequest e => with_status InternalError (dispatch_pull_request now e)
  end.

(** ** Only authenticated requests act *)

(** C24: A webhook request that changes anything or is answered with success names a provider
    that has a non-empty secret, and carries the signature or token made with that secret. *)
Theorem webhook_authenticated now provider_name provider_id headers body s s' r :
  receive now provider_name provider_id headers body s = (s', r) →
  (s' ≠ s ∨ (∃ outcome, r = Ok outcome)) →
  ∃ provider secret,
    parse_provider provider_name = Ok provider
    ∧ credential_secret provider provider_id s = Some secret ∧ secret ≠ ""
    ∧ request_is_valid hmac provider
        (match provider with Gitlab => Token secret | _ => Hmac secret end) headers body = true.
Proof.
  intros Hr Hact. unfold receive, bind, of_result in Hr.
  destruct (parse_provider provider_name) as [provider|]; [|simplify_eq; naive_solver].
  destruct (event_header provider headers) as [name|]; [|simplify_eq; naive_solver].
  unfold with_status at 1 in Hr. unfold credential_of in Hr.
  destruct (credential_secret provider provider_id s) as [secret|] eqn:Ec; [|simplify_eq; naive_solver].
  destruct (str_is_empty secret) eqn:Es; [simplify_eq; naive_solver|].
  apply bool_decide_eq_false in Es. unfold verify_request in Hr.
  destruct (request_is_valid _ _ _ _ _) eqn:Ev; [|simplify_eq; naive_solver].
  exists provider, secret. split_and!; try done.
Qed.

(** ** Every matching resource is accounted for *)

Definition tally_total (t : Tally) : nat := ty_queued t + ty_skipped t + ty_running t.

Lemma dispatch_resource_total {X} event (run : Z → M X) t r s s' t' :
  dispatch_resource event run t r s = (s', Ok t') → tally_total t' = S (tally_total t).
Proof.
  unfold dispatch_resource, tally_total.
  destruct (if bool_decide _ then _ else _) as [[]|]; [intros [= <- <-]; simpl; lia| |done].
  destruct (on_sys _ _ s) as [s1 [x|e]]; [intros [= <- <-]; simpl; lia|].
  destruct (contains _ _); [intros [= <- <-]; simpl; lia | done].
Qed.

Lemma dispatch_loop_total {X} event (run : Z → M X) l : ∀ t s s' t',
  dispatch_loop event run l t s = (s', Ok t') → tally_total t' = length l + tally_total t.
Proof.
  induction l as [|r l IH]; intros t s s' t'; simpl; [by intros [= <- <-]|].
  intros (s1 & t1 & H1 & H2)%bind_ok. apply dispatch_resource_total in H1. apply IH in H2. lia.
Qed.

(** The loop stops at the first failure, so what it leaves is the run on a prefix. *)
Lemma dispatch_loop_app {X} event (run : Z → M X) l1 l2 t s :
  dispatch_loop event run (l1 ++ l2) t s
  = (do! t' := dispatch_loop event run l1 t in dispatch_loop event run l2 t') s.
Proof.
  revert t s. induction l1 as [|r l1 IH]; intros t s; [done|]. simpl. unfold bind.
  destruct (dispatch_resource event run t r s) as [s1 [t1|e]]; [|done]. by rewrite IH.
Qed.

(** When a push has been dispatched, the applications and compose projects that were queued,
    skipped by their watch paths or already running are together the matching ones. *)
Theorem dispatch_accounts now event s s' outcome :
  dispatch now event s = (s', Ok outcome) →
  do_applications_queued outcome + do_compose_projects_queued outcome
  + do_skipped_by_watch_paths outcome + do_already_running outcome
  = length (matching_applications event s) + length (matching_compose_projects event compose_sources).
Proof.
  intros (s0 & l & [= <- <-] & (s1 & apps & H1 & (s2 & all & H2 & [= <- <-])%bind_ok)%bind_ok)%bind_ok.
  apply dispatch_loop_total in H1, H2. unfold tally_total in *. simpl in *. lia.
Qed.
End dispatch.

(** * Webhooks and previews on concrete tables

    The theorems of [WebhookDispatch], [PreviewFacts] and [PreviewFacts] on a system with one
    application, and runs that show how far a push reaches and what becomes of a preview. *)

#[local] Instance webhook_watch : Watch := counted_watch.

Definition error_text (e : SqlError) : string :=
  match e with
  | CheckFailed => "CHECK constraint failed"
  | UniqueFailed => "UNIQUE constraint failed"
  | ForeignKeyFailed => "FOREIGN KEY constraint failed"
  | RowNotFound => "no rows returned by a query that expected to return at least one row"
  | ColumnDecode => "error occurred while decoding column"
  | Protocol msg => "encountered unexpected or invalid data: " +:+ msg
  end.

(** The application of [sample_db] follows main of acme/shop on GitLab; one preview at a time, for
    authors who may write. *)
Definition shop_git (p : GitProviderKind) : GitColumns :=
  match p with
  | Gitlab => mkGitColumns (Some "Shop") (Some "acme") (Some "main")
  | _ => mkGitColumns None None None
  end.
Definition shop_columns : AppColumns :=
  mkColumns "GITLAB" "PUSH" None None (Some "A=1") None None (Some 1%Z) shop_git
    (λ p, match p with Gitlab => Some 7%Z | _ => None end) (Some "B=2") None None None
    (Some "*.dev.org") None 0 None "NONE" None (Some 1%Z) 1 1 0 0.

(** Two GitLab providers *)
Definition shop_providers : list GitProviderRow :=
  [mkGitProvider Gitlab 7 70 (Some "s3cret"); mkGitProvider Gitlab 8 80 (Some "other")].

Definition shop_world (previews : list PreviewDeployment) : PreviewWorld :=
  mkPreviewWorld sample_sys {[ 1%Z := shop_columns ]} empty_table
    (mkTable previews (Z.of_nat (length previews))) shop_providers.

Definition shop_compose : list SourceRow := [mkSource 1 "GITLAB" (Some 1%Z) "PUSH" shop_git None].

Definition no_json (_ : string) : result Json string := Err "not used".
Definition ann_may_write (_ : Z) (_ _ user : string) : result bool string := Ok (bool_decide (user = "ann")).

(** Decoders that read a push to main of acme/shop from any body *)
Definition shop_push (body : bytes) : result GitlabPush string :=
  Ok (mkGitlabPush "refs/heads/main" None None (mkGitlabProject "shop" "acme/shop") []).
Definition shop_decoders : Decoders :=
  mkDecoders (λ _, Err "") shop_push (λ _, Err "") (λ _, Err "") (λ _, Err "") (λ _, Err "") (λ _, Err "").

Definition deliver (provider_id : Z) (token : string) : R DispatchOutcome :=
  receive error_text no_json None "/logs" ann_may_write shop_compose sample_hmac shop_decoders 1000
    "gitlab" provider_id [("X-Gitlab-Event", "Push Hook"); ("X-Gitlab-Token", token)] [].

(** ** Pushes *)

(** A request without the token of the provider changes nothing. *)
Example wrong_token : deliver 7 "guess" (shop_world [])
  = (shop_world [], Err (Unauthorized, "invalid webhook signature or token")).
Proof. vm_compute. reflexivity. Qed.

Definition queued_for (w : PreviewWorld) : list (option Z * option Z) :=
  map (λ d, (d_application_id d, d_compose_id d)) (rows (deployments (pw_db w))).

Lemma webhook_authenticated_witness :
  queued_for (deliver 7 "s3cret" (shop_world [])).1 = [(Some 1%Z, None)]
  ∧ ∃ provider secret, parse_provider "gitlab" = Ok provider
      ∧ credential_secret provider 7 (shop_world []) = Some secret.
Proof.
  assert (Hq : queued_for (deliver 7 "s3cret" (shop_world [])).1 = [(Some 1%Z, None)])
    by (vm_compute; reflexivity).
  assert (Hne : (deliver 7 "s3cret" (shop_world [])).1 ≠ shop_world [])
    by (intros E; rewrite E in Hq; vm_compute in Hq; discriminate Hq).
  split; [exact Hq|].
  destruct (webhook_authenticated error_text no_json None "/logs" ann_may_write shop_compose sample_hmac
    shop_decoders 1000 "gitlab" 7 [("X-Gitlab-Event", "Push Hook"); ("X-Gitlab-Token", "s3cret")] []
    (shop_world []) _ _ (surjective_pairing _) (or_introl Hne)) as (provider & secret & Hp & Hs & _).
  exists provider, secret. exact (conj Hp Hs).
Defined.

(** The first accepted application ends the loop: its redeployment is queued, the request reports
    an error, and the compose project of the same repository is not considered. *)
Example push_stops_at_the_first_application :
  let '(w, r) := deliver 7 "s3cret" (shop_world []) in
  r = Err (InternalError, "CHECK constraint failed") ∧ queued_for w = [(Some 1%Z, None)].
Proof. vm_compute. split; reflexivity. Qed.

(** Resources are matched by repository, so the secret of provider 8 reaches the application of
    provider 7. *)
Example any_provider_reaches_the_application :
  queued_for (deliver 8 "other" (shop_world [])).1 = [(Some 1%Z, None)].
Proof. vm_compute. reflexivity. Qed.

Definition shop_event : PushEvent := mkPush Gitlab TriggerPush "acme" "shop" "main" None None [].
Definition busy_world : PreviewWorld :=
  mkPreviewWorld (mkSys sample_queued_db state_new ∅ false) {[ 1%Z := shop_columns ]} empty_table
    empty_table shop_providers.

(** A second push while the first is queued is counted, not refused. *)
Lemma dispatch_accounts_witness :
  ∃ w outcome,
    dispatch error_text no_json None "/logs" [] 2000 shop_event busy_world = (w, Ok outcome)
    ∧ do_already_running outcome = 1
    ∧ do_applications_queued outcome + do_compose_projects_queued outcome
      + do_skipped_by_watch_paths outcome + do_already_running outcome = 1.
Proof.
  destruct (dispatch error_text no_json None "/logs" [] 2000 shop_event busy_world) as [w [outcome|e]] eqn:E;
    [|vm_compute in E; discriminate].
  exists w, outcome. split; [reflexivity|]. split.
  - vm_compute in E. injection E as _ <-. reflexivity.
  - exact (dispatch_accounts error_text no_json None "/logs" [] 2000 shop_event busy_world _ _ E).
Defined.

(** ** Pull requests *)

Definition pull (number action author : string) : PullRequestEvent :=
  mkPullRequest Gitlab "acme" "shop" number action "feature" None None "main" (Some "c0ffee") (Some author).

Definition handle (event : PullRequestEvent) : P PreviewLifecycleOutcome :=
  handle_pull_request error_text None "/logs" ann_may_write 1000 event.

Definition shop_preview (id : Z) (number : string) (app : option Z) (status : string) : PreviewDeployment :=
  mkPreviewRow id 1 app "GITLAB" 70 "acme" "shop" number "feature" None None "main" None (Some "ann")
    status "shop-pr-1.dev.org" None 0 0.

Definition states (w : PreviewWorld) : list (string * string * option Z) :=
  map (λ p, (pv_pull_request_number p, pv_status p, pv_last_deployment_id p)) (rows (pw_previews w)).

(** A new preview is queued, but reported as an error and never linked to its deployment. *)
Example first_preview_reports_an_error :
  let '(w, r) := handle (pull "5" "open" "ann") (shop_world []) in
  r = Err "CHECK constraint failed"
  ∧ states w = [("5", "ERROR", None)]
  ∧ queued_for w = [(Some 2%Z, None)]
  ∧ map dm_host (rows (pw_domains w)) = ["shop-x1-pr-5.dev.org"].
Proof. vm_compute. repeat split. Qed.

(** A closed pull request that is opened again does not count against the limit, although the
    panel refuses the same deployment. *)
Definition one_closed : PreviewWorld :=
  shop_world [shop_preview 1 "1" None "CLOSED"; shop_preview 2 "2" None "ACTIVE"].

Example reopening_exceeds_the_limit :
  active_count 1 one_closed = 1%Z
  ∧ active_count 1 (handle (pull "1" "reopen" "ann") one_closed).1 = 2%Z
  ∧ (deploy_application error_text None "/logs" 1000 1 (pull "1" "reopen" "ann") one_closed).2
    = Err "Preview deployment limit reached".
Proof. vm_compute. repeat split. Qed.

Definition one_open : PreviewWorld := shop_world [shop_preview 1 "1" None "ACTIVE"].

Lemma one_open_wf : previews_wf one_open.
Proof. apply table_check_wf. vm_compute. reflexivity. Qed.

Lemma previews_within_limit_witness :
  (active_count 1 (handle (pull "2" "open" "ann") one_open).1 ≤ Z.max (active_count 1 one_open) 1)%Z.
Proof.
  apply (previews_within_limit error_text None "/logs" ann_may_write 1000 (pull "2" "open" "ann") one_open 1 1
    one_open_wf eq_refl).
  - intros i (p & Hp & _ & Hk). apply list_elem_of_singleton in Hp. subst p. discriminate Hk.
  - intros t Ht _. change (t ∈ [mkTarget 1 70 1 true]) in Ht. apply list_elem_of_singleton in Ht. subst t.
    reflexivity.
Defined.

Lemma panel_limit_witness :
  (active_count 1 (deploy_application error_text None "/logs" 1000 1 (pull "1" "reopen" "ann") one_open).1
   ≤ 1)%Z.
Proof.
  exact (panel_preview_within_limit error_text None "/logs" 1000 1 (pull "1" "reopen" "ann") one_open
    (mkTarget 1 70 1 true) one_open_wf eq_refl).
Defined.

Lemma permission_witness :
  handle (pull "2" "open" "mallory") (shop_world []) = (shop_world [], Ok (mkLifecycle 0 0 0 1 0 0)).
Proof.
  exact (previews_need_permission error_text None "/logs" ann_may_write 1000 (pull "2" "open" "mallory")
    (λ _, false) [mkTarget 1 70 1 true] no_lifecycle (shop_world [])
    ltac:(intros t Ht; apply list_elem_of_singleton in Ht; subst t; reflexivity)).
Defined.

Lemma accounted_witness :
  ∃ w o, handle (pull "2" "open" "ann") one_open = (w, Ok o) ∧ lifecycle_total o = 1.
Proof.
  destruct (handle (pull "2" "open" "ann") one_open) as [w [o|e]] eqn:E; [|vm_compute in E; discriminate].
  exists w, o. split; [reflexivity|].
  exact (every_target_is_accounted_for error_text None "/logs" ann_may_write 1000 (pull "2" "open" "ann")
    one_open w o eq_refl E).
Defined.

(** The preview of pull request 5 after the example above, and its closing *)
Definition deployed_world : PreviewWorld := (handle (pull "5" "open" "ann") (shop_world [])).1.

Lemma closing_witness :
  ∃ w, handle (pull "5" "merge" "ann") deployed_world = (w, Ok (mkLifecycle 0 0 1 0 0 0))
  ∧ open_rows (pull "5" "merge" "ann") w = [].
Proof.
  assert (Hs : separated deployed_world).
  { intros p q Hp Hq. vm_compute in Hp, Hq. apply list_elem_of_singleton in Hp, Hq. by subst. }
  destruct (closing_a_pull_request error_text None "/logs" ann_may_write 1000 (pull "5" "merge" "ann")
    deployed_world ltac:(apply table_check_wf; vm_compute; reflexivity) Hs eq_refl) as (w & Hw & Ho & _).
  exists w. exact (conj Hw Ho).
Defined.
