(* ===== verification/ScheduleDb.v ===== *)
(** * The tables of schedules

    [src/db/repository/schedules.rs] and [schedule_runtime.rs] over the tables of migrations 0001,
    0002 and 0031, and the enums of [src/services/schedule/types.rs].  Policies and locks are keyed
    by the schedule; deleting a schedule deletes its policy, executions and lock. *)

From stdpp Require Import gmap strings list.
From Stdlib Require Import ZArith Lia.
From S2P Require Import Prelude RustStr StringEnum Sql DeploymentDb.

(** ** Enums *)

(** [strict_runtime_enum!]: [as_str] and a trimming, case-insensitive [try_from] that rejects *)
Class RuntimeEnum (E : Type) := {
  runtime_name : string;
  runtime_table : list (E * string);
  runtime_eq_dec :: EqDecision E;
}.

Section runtime_enum.
Context `{RuntimeEnum E}.
Definition runtime_str (e : E) : string :=
  match list_find (λ p, p.1 = e) runtime_table with Some (_, p) => p.2 | None => "" end.
Definition runtime_try_from (value : string) : result E string :=
  let other := to_ascii_uppercase (trim value) in
  match list_find (λ p, p.2 = other) runtime_table with
  | Some (_, p) => Ok p.1
  | None => Err ("invalid " +:+ runtime_name +:+ ": " +:+ other)
  end.
End runtime_enum.

Inductive MissedRunPolicy := MissedSkip | RunOnce.
Inductive ConcurrencyPolicy := ConcurrencySkip | ConcurrencyQueue | ConcurrencyAllow.
Inductive ScheduleTriggerKind := TriggeredByCron | TriggeredManually | TriggeredMissed | TriggeredRetry.
Inductive ScheduleExecutionStatus := ExecRunning | ExecSucceeded | ExecFailed | ExecSkipped.

#[export] Instance MissedRunPolicy_eq_dec : EqDecision MissedRunPolicy.
Proof. solve_decision. Defined.
#[export] Instance ConcurrencyPolicy_eq_dec : EqDecision ConcurrencyPolicy.
Proof. solve_decision. Defined.
#[export] Instance ScheduleTriggerKind_eq_dec : EqDecision ScheduleTriggerKind.
Proof. solve_decision. Defined.
#[export] Instance ScheduleExecutionStatus_eq_dec : EqDecision ScheduleExecutionStatus.
Proof. solve_decision. Defined.

#[export] Instance MissedRunPolicy_enum : RuntimeEnum MissedRunPolicy := {|
  runtime_name := "MissedRunPolicy";
  runtime_table := [(MissedSkip, "SKIP"); (RunOnce, "RUN_ONCE")];
|}.
#[export] Instance ConcurrencyPolicy_enum : RuntimeEnum ConcurrencyPolicy := {|
  runtime_name := "ConcurrencyPolicy";
  runtime_table := [(ConcurrencySkip, "SKIP"); (ConcurrencyQueue, "QUEUE"); (ConcurrencyAllow, "ALLOW")];
|}.
#[export] Instance ScheduleTriggerKind_enum : RuntimeEnum ScheduleTriggerKind := {|
  runtime_name := "ScheduleTriggerKind";
  runtime_table := [(TriggeredByCron, "CRON"); (TriggeredManually, "MANUAL");
                    (TriggeredMissed, "MISSED"); (TriggeredRetry, "RETRY")];
|}.
#[export] Instance ScheduleExecutionStatus_enum : RuntimeEnum ScheduleExecutionStatus := {|
  runtime_name := "ScheduleExecutionStatus";
  runtime_table := [(ExecRunning, "RUNNING"); (ExecSucceeded, "SUCCEEDED");
                    (ExecFailed, "FAILED"); (ExecSkipped, "SKIPPED")];
|}.

(** ** Rows *)

Record Schedule := mkSchedule {
  sc_id : Z;
  sc_name : string;
  sc_description : option string;
  sc_cron_expression : string;
  sc_app_name : string;
  sc_service_name : option string;
  sc_shell_type : string;
  sc_schedule_type : string;
  sc_schedule_action : string;
  sc_command : string;
  sc_script : option string;
  sc_timezone : option string;
  sc_enabled : Z;
  sc_application_id : option Z;
  sc_compose_id : option Z;
  sc_server_id : option Z;
  sc_organization_id : option Z;
  sc_created_at : Z;
  sc_updated_at : Z;
}.

Definition shell_types : list string := ["BASH"; "SH"].
Definition schedule_types : list string := ["APPLICATION"; "COMPOSE"; "SERVER"; "DOKPANEL-SERVER"].
Definition schedule_actions : list string :=
  ["EXEC"; "DEPLOY"; "REDEPLOY"; "REBUILD"; "RELOAD"; "START"; "STOP"].

#[export] Instance Schedule_schema : Schema Schedule := {|
  row_id := sc_id;
  row_check s := bool_decide (sc_shell_type s ∈ shell_types)
                 && bool_decide (sc_schedule_type s ∈ schedule_types)
                 && bool_decide (sc_schedule_action s ∈ schedule_actions);
  row_conflict s1 s2 := bool_decide (sc_app_name s1 = sc_app_name s2);
|}.

#[export] Instance Schedule_schema_laws : SchemaLaws Schedule.
Proof. split. intros a b. simpl. apply bool_decide_ext. naive_solver. Qed.

Record RuntimePolicy := mkPolicy {
  rp_retry_count : Z;
  rp_retry_delay_seconds : Z;
  rp_missed_run_policy : string;
  rp_concurrency_policy : string;
  rp_lease_seconds : Z;
  rp_notify_on_success : Z;
  rp_notify_on_failure : Z;
  rp_last_scheduled_at : option Z;
  rp_updated_at : Z;
}.

Definition policy_check (p : RuntimePolicy) : bool :=
  ((0 <=? rp_retry_count p) && (rp_retry_count p <=? 10)
   && (1 <=? rp_retry_delay_seconds p) && (rp_retry_delay_seconds p <=? 86400)
   && bool_decide (rp_missed_run_policy p ∈ ["SKIP"; "RUN_ONCE"])
   && bool_decide (rp_concurrency_policy p ∈ ["SKIP"; "QUEUE"; "ALLOW"])
   && (30 <=? rp_lease_seconds p) && (rp_lease_seconds p <=? 86400)
   && bool_decide (rp_notify_on_success p ∈ [0; 1]) && bool_decide (rp_notify_on_failure p ∈ [0; 1]))%Z.

(** The defaults of the columns *)
Definition default_policy (now : Z) : RuntimePolicy := mkPolicy 0 30 "SKIP" "SKIP" 3600 0 1 None now.

Record ScheduleExecution := mkExecution {
  ex_id : Z;
  ex_schedule_id : Z;
  ex_organization_id : option Z;
  ex_trigger_kind : string;
  ex_status : string;
  ex_attempt : Z;
  ex_scheduled_at : Z;
  ex_started_at : Z;
  ex_finished_at : option Z;
  ex_message : option string;
  ex_stdout : option string;
  ex_stderr : option string;
}.

#[export] Instance ScheduleExecution_schema : Schema ScheduleExecution := {|
  row_id := ex_id;
  row_check e := bool_decide (ex_trigger_kind e ∈ ["CRON"; "MANUAL"; "MISSED"; "RETRY"])
                 && bool_decide (ex_status e ∈ ["RUNNING"; "SUCCEEDED"; "FAILED"; "SKIPPED"]);
  row_conflict _ _ := false;
|}.

#[export] Instance ScheduleExecution_schema_laws : SchemaLaws ScheduleExecution.
Proof. by split. Qed.

Record ExecutionLock := mkLock { lk_owner_id : string; lk_acquired_at : Z; lk_expires_at : Z }.

Record SchedDb := mkSchedDb {
  schedules : Table Schedule;
  policies : gmap Z RuntimePolicy;
  executions : Table ScheduleExecution;
  locks : gmap Z ExecutionLock;
}.

Definition with_schedules (t : Table Schedule) (db : SchedDb) : SchedDb :=
  mkSchedDb t (policies db) (executions db) (locks db).
Definition with_policies (m : gmap Z RuntimePolicy) (db : SchedDb) : SchedDb :=
  mkSchedDb (schedules db) m (executions db) (locks db).
Definition with_executions (t : Table ScheduleExecution) (db : SchedDb) : SchedDb :=
  mkSchedDb (schedules db) (policies db) t (locks db).
Definition with_locks (m : gmap Z ExecutionLock) (db : SchedDb) : SchedDb :=
  mkSchedDb (schedules db) (policies db) (executions db) m.

Definition schedule_exists (id : Z) (db : SchedDb) : bool := sql_exists (λ s, sc_id s =? id)%Z (schedules db).

(** ** [ScheduleRepository] *)

Definition schedule_get_by_id (id : Z) (db : SchedDb) : option Schedule :=
  sql_first (λ s, sc_id s =? id)%Z (schedules db).

(** [ORDER BY created_at DESC, id DESC] *)
Definition newest_schedule_first (a b : Schedule) : bool :=
  ((sc_created_at b <? sc_created_at a) || (sc_created_at a =? sc_created_at b) && (sc_id b <=? sc_id a))%Z.
Definition list_schedules (p : Schedule → bool) (db : SchedDb) : list Schedule :=
  sql_order_by newest_schedule_first (sql_select p (schedules db)).

Definition schedules_by_application (id : Z) : SchedDb → list Schedule :=
  list_schedules (λ s, col_is (sc_application_id s) id).
Definition schedules_by_compose (id : Z) : SchedDb → list Schedule :=
  list_schedules (λ s, col_is (sc_compose_id s) id).
Definition schedules_by_server (id : Z) : SchedDb → list Schedule :=
  list_schedules (λ s, col_is (sc_server_id s) id).
Definition schedules_by_organization (id : Z) : SchedDb → list Schedule :=
  list_schedules (λ s, col_is (sc_organization_id s) id).
Definition list_enabled : SchedDb → list Schedule := list_schedules (λ s, sc_enabled s =? 1)%Z.

(** [create_and_return] and [update_and_return]; [fk] is the check of the foreign keys *)
Definition schedule_create (fk : Schedule → bool) (mk : Z → Schedule) (db : SchedDb)
    : result (SchedDb * Schedule) SqlError :=
  let? (t, id) := sql_insert fk mk (schedules db) in Ok (with_schedules t db, mk id).

Definition schedule_update (fk : Schedule → bool) (id : Z) (f : Schedule → Schedule) (db : SchedDb)
    : result (SchedDb * Schedule) SqlError :=
  let? (t, _) := sql_update fk (λ s, sc_id s =? id)%Z f (schedules db) in
  let? s := ok_or (sql_first (λ s, sc_id s =? id)%Z t) RowNotFound in
  Ok (with_schedules t db, s).

Definition set_schedule_enabled (now enabled : Z) (s : Schedule) : Schedule :=
  mkSchedule (sc_id s) (sc_name s) (sc_description s) (sc_cron_expression s) (sc_app_name s)
    (sc_service_name s) (sc_shell_type s) (sc_schedule_type s) (sc_schedule_action s) (sc_command s)
    (sc_script s) (sc_timezone s) enabled (sc_application_id s) (sc_compose_id s) (sc_server_id s)
    (sc_organization_id s) (sc_created_at s) now.

(** The trigger of the table sets [updated_at]. *)
Definition schedule_set_enabled (now id : Z) (enabled : bool) (db : SchedDb)
    : result (SchedDb * Schedule) SqlError :=
  schedule_update no_fk id (set_schedule_enabled now (if enabled then 1 else 0)%Z) db.

Definition schedule_delete (id : Z) (db : SchedDb) : SchedDb :=
  if schedule_exists id db then
    mkSchedDb (sql_delete (λ s, sc_id s =? id)%Z (schedules db)).1 (base.delete id (policies db))
      (sql_delete (λ e, ex_schedule_id e =? id)%Z (executions db)).1 (base.delete id (locks db))
  else db.

(** ** [ScheduleRuntimeRepository] *)

Definition policy (now id : Z) (db : SchedDb) : result (SchedDb * RuntimePolicy) SqlError :=
  match policies db !! id with
  | Some p => Ok (db, p)
  | None => if schedule_exists id db
            then Ok (with_policies (<[id := default_policy now]> (policies db)) db, default_policy now)
            else Err ForeignKeyFailed
  end.

Definition update_policy (now id retry_count retry_delay_seconds : Z) (missed_run_policy concurrency_policy : string)
    (lease_seconds : Z) (notify_on_success notify_on_failure : bool) (db : SchedDb)
    : result (SchedDb * RuntimePolicy) SqlError :=
  let flag (b : bool) := (if b then 1 else 0)%Z in
  let p := mkPolicy retry_count retry_delay_seconds missed_run_policy concurrency_policy lease_seconds
             (flag notify_on_success) (flag notify_on_failure)
             (policies db !! id ≫= rp_last_scheduled_at) now in
  if negb (policy_check p) then Err CheckFailed
  else if negb (schedule_exists id db) then Err ForeignKeyFailed
  else policy now id (with_policies (<[id := p]> (policies db)) db).

(** Whether the lock was taken: a free one is inserted, an expired one taken over *)
Definition acquire (now id : Z) (owner : string) (lease_seconds : Z) (db : SchedDb)
    : result (SchedDb * bool) SqlError :=
  let mine := with_locks (<[id := mkLock owner now (now + lease_seconds)]> (locks db)) db in
  match locks db !! id with
  | None => if schedule_exists id db then Ok (mine, true) else Err ForeignKeyFailed
  | Some l => if (lk_expires_at l <=? now)%Z then Ok (mine, true) else Ok (db, false)
  end.

Definition release (id : Z) (owner : string) (db : SchedDb) : SchedDb :=
  match locks db !! id with
  | Some l => if bool_decide (lk_owner_id l = owner) then with_locks (base.delete id (locks db)) db else db
  | None => db
  end.

Definition mark_scheduled (now id timestamp : Z) (db : SchedDb) : SchedDb :=
  match policies db !! id with
  | Some p => with_policies (<[id := mkPolicy (rp_retry_count p) (rp_retry_delay_seconds p)
                (rp_missed_run_policy p) (rp_concurrency_policy p) (rp_lease_seconds p)
                (rp_notify_on_success p) (rp_notify_on_failure p) (Some timestamp) now]> (policies db)) db
  | None => db
  end.

Definition begin (now id : Z) (organization : option Z) (trigger : ScheduleTriggerKind)
    (attempt scheduled_at : Z) (db : SchedDb) : result (SchedDb * Z) SqlError :=
  let? (t, x) := sql_insert (λ e, schedule_exists (ex_schedule_id e) db)
    (λ x, mkExecution x id organization (runtime_str trigger) "RUNNING" attempt scheduled_at now None
            None None None) (executions db) in
  Ok (with_executions t db, x).

Definition finished_as (now : Z) (status : ScheduleExecutionStatus) (message stdout stderr : option string)
    (e : ScheduleExecution) : ScheduleExecution :=
  mkExecution (ex_id e) (ex_schedule_id e) (ex_organization_id e) (ex_trigger_kind e) (runtime_str status)
    (ex_attempt e) (ex_scheduled_at e) (ex_started_at e) (Some now) message stdout stderr.

Definition finish (now x : Z) (status : ScheduleExecutionStatus) (message stdout stderr : option string)
    (db : SchedDb) : result SchedDb SqlError :=
  if negb (sql_exists (λ e, ex_id e =? x)%Z (executions db)) then Err RowNotFound else
  let? (t, _) := sql_update no_fk (λ e, ex_id e =? x)%Z (finished_as now status message stdout stderr)
                   (executions db) in
  Ok (with_executions t db).

(** [limit.clamp(1, 500)] *)
Definition execution_list (id limit : Z) (db : SchedDb) : list ScheduleExecution :=
  take (Z.to_nat (Z.max 1 (Z.min 500 limit)))
    (sql_order_by (λ a b, ex_started_at b <=? ex_started_at a)%Z
       (sql_select (λ e, ex_schedule_id e =? id)%Z (executions db))).

Definition execution_exists (id x : Z) (db : SchedDb) : bool :=
  sql_exists (λ e, (ex_id e =? x) && (ex_schedule_id e =? id))%Z (executions db).
