(* ===== verification/ScheduleService.v ===== *)
(** * Schedules and their runs

    [src/services/schedule/schedule.rs] but for the backups, which are outside this component.
    A run is a sequence of statements between which the rest of the panel acts: [others] says what
    it does to the tables, and how many seconds pass, before the n-th statement of the run.  The
    commands that run in containers or shells, the cron library, identifiers and the text of
    errors are parameters; a queued operation of [DeploymentService] is one step. *)

From stdpp Require Import gmap strings list.
From Stdlib Require Import ZArith Lia Ascii.
From S2P Require Import Prelude RustStr RustText StringEnum Sql DeploymentDb DeploymentInv ApplicationState Operations BuilderQueue DeploymentService ScheduleDb.

(** ** Enums; [try_from] of a [string_enum!] is its [From], which falls back to the default *)

Inductive ShellType := Bash | Sh.
#[export] Instance ShellType_eq_dec : EqDecision ShellType.
Proof. solve_decision. Defined.
#[export] Instance ShellType_enum : StringEnum ShellType := {|
  enum_table := [(Bash, "BASH"); (Sh, "SH")]; enum_default := Bash;
|}.
Definition executable (s : ShellType) : string := match s with Bash => "bash" | Sh => "sh" end.

Inductive ScheduleType := ForApplication | ForCompose | ForServer | ForPanel.
#[export] Instance ScheduleType_eq_dec : EqDecision ScheduleType.
Proof. solve_decision. Defined.
#[export] Instance ScheduleType_enum : StringEnum ScheduleType := {|
  enum_table := [(ForApplication, "APPLICATION"); (ForCompose, "COMPOSE"); (ForServer, "SERVER");
                 (ForPanel, "DOKPANEL-SERVER")];
  enum_default := ForApplication;
|}.

Inductive ScheduleAction := ActExec | ActDeploy | ActRedeploy | ActRebuild | ActReload | ActStart | ActStop.
#[export] Instance ScheduleAction_eq_dec : EqDecision ScheduleAction.
Proof. solve_decision. Defined.
#[export] Instance ScheduleAction_enum : StringEnum ScheduleAction := {|
  enum_table := [(ActExec, "EXEC"); (ActDeploy, "DEPLOY"); (ActRedeploy, "REDEPLOY");
                 (ActRebuild, "REBUILD"); (ActReload, "RELOAD"); (ActStart, "START"); (ActStop, "STOP")];
  enum_default := ActExec;
|}.

Definition normalize_shell_type (value : option string) : string :=
  to_ascii_uppercase (trim (default "BASH" value)).
Definition normalize_schedule_type (value : option string) : string :=
  to_ascii_uppercase (trim (default "APPLICATION" value)).

Definition infer_schedule_action (schedule_type command : string) : string :=
  let command := to_ascii_lowercase (trim command) in
  let is_operation := match from schedule_type with
                      | ForApplication => bool_decide (command ∈ ["deploy"; "redeploy"; "rebuild"; "reload"; "start"])
                      | ForCompose => bool_decide (command ∈ ["deploy"; "redeploy"; "reload"; "start"; "stop"])
                      | _ => false
                      end in
  if is_operation then to_ascii_uppercase command else "EXEC".

Definition normalize_schedule_action (value : option string) (schedule_type command : string) : string :=
  match value with
  | Some v => let v := to_ascii_uppercase (trim v) in
              if str_is_empty v then infer_schedule_action schedule_type command else v
  | None => infer_schedule_action schedule_type command
  end.

Definition normalize_enabled (value : Z) : result Z SqlError :=
  if bool_decide (value ∈ [0; 1]%Z) then Ok value else Err (Protocol "enabled must be 0 or 1").

Definition is_blank (v : option string) : bool :=
  match v with Some s => str_is_empty (trim s) | None => true end.

Definition validate_target (schedule_type schedule_action : string)
    (application_id compose_id server_id : option Z) (service_name : option string)
    : result unit SqlError :=
  match from schedule_type with
  | ForApplication =>
      match application_id with
      | None => Err (Protocol "APPLICATION schedule requires application_id")
      | Some _ => Ok tt
      end
  | ForCompose =>
      match compose_id with
      | None => Err (Protocol "COMPOSE schedule requires compose_id")
      | Some _ => if bool_decide (schedule_action = "EXEC") && is_blank service_name
                  then Err (Protocol "COMPOSE EXEC schedule requires service_name") else Ok tt
      end
  | ForServer =>
      match server_id with
      | None => Err (Protocol "SERVER schedule requires server_id")
      | Some _ => if bool_decide (schedule_action = "EXEC") then Ok tt
                  else Err (Protocol "SERVER schedule only supports EXEC action")
      end
  | ForPanel => if bool_decide (schedule_action = "EXEC") then Ok tt
                else Err (Protocol "DOKPANEL-SERVER schedule only supports EXEC action")
  end.

Definition parse_schedule_application_operation (value : string) : result ApplicationOperation SqlError :=
  match from (to_ascii_uppercase (trim value)) with
  | ActDeploy => Ok AppDeployOp
  | ActRedeploy => Ok AppRedeploy
  | ActRebuild => Ok AppRebuild
  | ActReload => Ok AppReload
  | ActStart => Ok AppStart
  | _ => Err (Protocol "application schedule command must be deploy, redeploy, rebuild, reload or start")
  end.

Definition parse_schedule_compose_operation (value : string) : result ComposeOperation SqlError :=
  match from (to_ascii_uppercase (trim value)) with
  | ActDeploy => Ok ComposeDeploy
  | ActRedeploy => Ok ComposeRedeploy
  | ActReload => Ok ComposeReload
  | ActStart => Ok ComposeStart
  | ActStop => Ok ComposeStop
  | _ => Err (Protocol "compose schedule command must be deploy, redeploy, reload, start or stop")
  end.

(** The script if there is one, else the command *)
Definition schedule_command (s : Schedule) : result string SqlError :=
  let script := match sc_script s with
                | Some v => let v := trim v in if str_is_empty v then None else Some v
                | None => None
                end in
  let command := default (trim (sc_command s)) script in
  if str_is_empty command then Err (Protocol "schedule command is empty") else Ok command.

(** Parts of letters and digits, joined by dashes *)
Definition generate_schedule_app_name (name uuid : string) : string :=
  let slug := join "-" (List.filter (λ w, negb (str_is_empty w))
                (split_on (λ c, negb (is_ascii_alphanumeric c)) (to_ascii_lowercase (trim name)))) in
  (if str_is_empty slug then "schedule" else slug) +:+ "-" +:+ uuid.

Record CreateScheduleDto := mkCreateSchedule {
  cs_name : string; cs_description : option string; cs_cron_expression : string;
  cs_app_name : option string; cs_service_name : option string; cs_shell_type : option string;
  cs_schedule_type : option string; cs_schedule_action : option string; cs_command : string;
  cs_script : option string; cs_timezone : option string; cs_enabled : option Z;
  cs_application_id : option Z; cs_compose_id : option Z; cs_server_id : option Z;
  cs_organization_id : option Z;
}.

Record PatchScheduleDto := mkPatchSchedule {
  ps_name : option string; ps_description : option string; ps_cron_expression : option string;
  ps_app_name : option string; ps_service_name : option string; ps_shell_type : option string;
  ps_schedule_type : option string; ps_schedule_action : option string; ps_command : option string;
  ps_script : option string; ps_timezone : option string; ps_enabled : option Z;
  ps_application_id : option Z; ps_compose_id : option Z; ps_server_id : option Z;
  ps_organization_id : option Z;
}.

Record ScheduleRunResult := mkRunResult {
  rr_schedule : Schedule; rr_action : string; rr_deployment_id : option Z; rr_message : string;
  rr_stdout : option string; rr_stderr : option string;
}.

(** A message to the notification channels of an organization *)
Record ScheduleNotice := mkNotice {
  sn_organization : Z; sn_success : bool; sn_schedule : string; sn_detail : string;
}.

Section service.
Context `{Watch}.

Record SchedWorld := mkSchedWorld {
  sw_sys : Sys; sw_db : SchedDb; sw_now : Z; sw_step : nat; sw_sent : list ScheduleNotice;
}.

(** The rest of the panel, before the n-th statement: the tables it leaves and the seconds that pass *)
Context (others : nat → Sys → SchedDb → Sys * SchedDb * nat).
Context (sql_error_text : SqlError → string).
Context (env : option Z) (logs : string).
Context (organization_exists : Z → bool).
(** The timestamps [chrono] represents; [croner]: the error of an expression, and the next
    occurrence after a time, in UTC *)
Context (valid_timestamp : Z → bool).
Context (cron_error : string → option string) (next_occurrence : string → Z → result Z string).
(** [docker exec] in the first container of a swarm service or compose service, and a shell on a
    server or, when it cannot be reached, on this host: the outputs, or the text of the error *)
Context (swarm_exec : option Z → string → string → string → result (option (string * string)) string).
Context (compose_exec : option Z → string → string → string → string → result (option (string * string)) string).
Context (shell_run : option Z → string → string → result (string * string) string).
(** The column [compose_type] *)
Context (is_stack : Z → bool).

Definition Run (X : Type) : Type := SE SchedWorld SqlError X.

Definition enter (w : SchedWorld) : SchedWorld :=
  let '(s, db, elapsed) := others (sw_step w) (sw_sys w) (sw_db w) in
  mkSchedWorld s db (sw_now w + Z.of_nat elapsed) (S (sw_step w)) (sw_sent w).
Definition with_sched (db : SchedDb) (w : SchedWorld) : SchedWorld :=
  mkSchedWorld (sw_sys w) db (sw_now w) (sw_step w) (sw_sent w).

Definition select {X} (f : SchedDb → X) : Run X := λ w, let w := enter w in (w, Ok (f (sw_db w))).
(** A statement *)
Definition perform {X} (f : SchedWorld → result (SchedDb * X) SqlError) : Run X := λ w,
  let w := enter w in
  match f w with Ok (db, x) => (with_sched db w, Ok x) | Err e => (w, Err e) end.
(** ... on these tables; its first argument is the clock of the database *)
Definition execute {X} (f : Z → SchedDb → result (SchedDb * X) SqlError) : Run X :=
  perform (λ w, f (sw_now w) (sw_db w)).
Definition execute_ (f : Z → SchedDb → result SchedDb SqlError) : Run unit :=
  execute (λ now db, let? db' := f now db in Ok (db', tt)).
(** [chrono::Utc::now().timestamp()] *)
Definition clock : Run Z := λ w, (w, Ok (sw_now w)).
Definition sleep (seconds : Z) : Run unit := λ w,
  (mkSchedWorld (sw_sys w) (sw_db w) (sw_now w + seconds) (sw_step w) (sw_sent w), Ok tt).
Definition call {X} (m : Z → M X) : Run X := λ w,
  let w := enter w in
  let '(s, r) := m (sw_now w) (sw_sys w) in
  (mkSchedWorld s (sw_db w) (sw_now w) (sw_step w) (sw_sent w), r).
(** The result of a call as a value *)
Definition capture {X} (m : Run X) : Run (result X SqlError) := λ w, let '(w', r) := m w in (w', Ok r).

(** ** Managing schedules *)

Definition get_schedule (id : Z) : Run Schedule :=
  do! o := select (schedule_get_by_id id) in of_result (ok_or o RowNotFound).

Definition validate_cron_expression (value : string) : result unit SqlError :=
  let expression := trim value in
  if str_is_empty expression then Err (Protocol "cron expression cannot be empty") else
  let fields := length (split_whitespace expression) in
  if negb (bool_decide (fields = 5)) && negb (bool_decide (fields = 6)) then
    Err (Protocol "cron expression must contain 5 fields (e.g., '0 * * * *') or 6 fields") else
  match cron_error expression with
  | None => Ok tt
  | Some error =>
      if bool_decide (fields = 5) && bool_decide (cron_error ("0 " +:+ expression) = None) then Ok tt
      else Err (Protocol ("invalid cron expression: " +:+ error))
  end.

(** The foreign keys of a schedule *)
Definition schedule_fk (db : Db) (s : Schedule) : bool :=
  references a_id (sc_application_id s) (rows (applications db))
  && references c_id (sc_compose_id s) (rows (compose_projects db))
  && match sc_server_id s with None => true | Some v => bool_decide (v ∈ servers db) end
  && match sc_organization_id s with None => true | Some v => organization_exists v end.

Definition create (uuid : string) (input : CreateScheduleDto) : Run Schedule :=
  do! _ := of_result (validate_cron_expression (cs_cron_expression input)) in
  let shell_type := normalize_shell_type (cs_shell_type input) in
  let schedule_type :=
    if negb (is_blank (cs_schedule_type input)) then normalize_schedule_type (cs_schedule_type input)
    else if bool_decide (is_Some (cs_compose_id input)) then "COMPOSE"
    else if bool_decide (is_Some (cs_server_id input)) then "SERVER"
    else "APPLICATION" in
  let schedule_action := normalize_schedule_action (cs_schedule_action input) schedule_type (cs_command input) in
  do! enabled := of_result (normalize_enabled (default 1%Z (cs_enabled input))) in
  do! _ := of_result (validate_target schedule_type schedule_action (cs_application_id input)
             (cs_compose_id input) (cs_server_id input) (cs_service_name input)) in
  let app_name := if is_blank (cs_app_name input) then generate_schedule_app_name (cs_name input) uuid
                  else default "" (cs_app_name input) +:+ "-sched-" +:+ uuid in
  perform (λ w, schedule_create (schedule_fk (sys_db (sw_sys w)))
    (λ id, mkSchedule id (cs_name input) (cs_description input) (cs_cron_expression input) app_name
             (cs_service_name input) shell_type schedule_type schedule_action (cs_command input)
             (cs_script input) (cs_timezone input) enabled (cs_application_id input) (cs_compose_id input)
             (cs_server_id input) (cs_organization_id input) (sw_now w) (sw_now w)) (sw_db w)).

Definition or_current {A} (a b : option A) : option A := match a with Some _ => a | None => b end.

(** The values of a patch: those of the input, else the current ones.  The action is kept when the
    type changes. *)
Definition patched (input : PatchScheduleDto) (current : Schedule) (created_at now id : Z) : Schedule :=
  let schedule_type := match ps_schedule_type input with
                       | Some v => normalize_schedule_type (Some v)
                       | None => sc_schedule_type current
                       end in
  let command := default (sc_command current) (ps_command input) in
  mkSchedule id (default (sc_name current) (ps_name input))
    (or_current (ps_description input) (sc_description current))
    (default (sc_cron_expression current) (ps_cron_expression input))
    (default (sc_app_name current) (ps_app_name input))
    (or_current (ps_service_name input) (sc_service_name current))
    (match ps_shell_type input with
     | Some v => normalize_shell_type (Some v)
     | None => sc_shell_type current
     end)
    schedule_type
    (match ps_schedule_action input with
     | Some v => normalize_schedule_action (Some v) schedule_type command
     | None => sc_schedule_action current
     end)
    command
    (or_current (ps_script input) (sc_script current))
    (or_current (ps_timezone input) (sc_timezone current))
    (default (sc_enabled current) (ps_enabled input))
    (or_current (ps_application_id input) (sc_application_id current))
    (or_current (ps_compose_id input) (sc_compose_id current))
    (or_current (ps_server_id input) (sc_server_id current))
    (or_current (ps_organization_id input) (sc_organization_id current))
    created_at now.

Definition patch (id : Z) (input : PatchScheduleDto) : Run Schedule :=
  do! current := get_schedule id in
  let s := patched input current 0 0 id in
  do! _ := of_result (validate_cron_expression (sc_cron_expression s)) in
  do! _ := of_result (normalize_enabled (sc_enabled s)) in
  do! _ := of_result (validate_target (sc_schedule_type s) (sc_schedule_action s) (sc_application_id s)
             (sc_compose_id s) (sc_server_id s) (sc_service_name s)) in
  perform (λ w, schedule_update (schedule_fk (sys_db (sw_sys w))) id
    (λ row, patched input current (sc_created_at row) (sw_now w) (sc_id row)) (sw_db w)).

Definition set_enabled (id : Z) (enabled : bool) : Run Schedule :=
  execute (λ now, schedule_set_enabled now id enabled).

Definition delete_schedule (id : Z) : Run unit :=
  do! _ := get_schedule id in execute_ (λ _ db, Ok (schedule_delete id db)).

(** ** One attempt *)

Definition exec_result (s : Schedule) (missing message : string)
    (r : result (option (string * string)) string) : result ScheduleRunResult SqlError :=
  match r with
  | Err e => Err (Protocol e)
  | Ok None => Err (Protocol missing)
  | Ok (Some (stdout, stderr)) => Ok (mkRunResult s "exec" None message (Some stdout) (Some stderr))
  end.

Definition run_swarm_container_command (s : Schedule) (server_id : option Z) (service : string)
    : Run ScheduleRunResult :=
  do! command := of_result (schedule_command s) in
  of_result (exec_result s ("running container not found for swarm service " +:+ service)
    ("container command executed on swarm service " +:+ service)
    (swarm_exec server_id service (executable (from (sc_shell_type s))) command)).

Definition run_compose_project_container_command (s : Schedule) (server_id : option Z)
    (project service : string) : Run ScheduleRunResult :=
  do! command := of_result (schedule_command s) in
  of_result (exec_result s
    ("running container not found for compose project=" +:+ project +:+ " service=" +:+ service)
    ("container command executed on compose " +:+ project +:+ "/" +:+ service)
    (compose_exec server_id project service (executable (from (sc_shell_type s))) command)).

Definition run_application_container_command (s : Schedule) (id : Z) : Run ScheduleRunResult :=
  do! o := call (λ _, query (find_application id)) in
  do! app := of_result (ok_or o RowNotFound) in
  run_swarm_container_command s (a_server_id app) (a_app_name app +:+ "_" +:+ a_app_name app).

Definition run_compose_container_command (s : Schedule) (id : Z) : Run ScheduleRunResult :=
  do! o := call (λ _, query (find_compose id)) in
  do! compose := of_result (ok_or o RowNotFound) in
  do! service := of_result (ok_or (sc_service_name s)
                   (Protocol "compose EXEC schedule requires service_name")) in
  let app_name := c_app_name compose in
  if is_stack id then
    run_swarm_container_command s (c_server_id compose)
      (if starts_with (app_name +:+ "_") service then service else app_name +:+ "_" +:+ service)
  else run_compose_project_container_command s (c_server_id compose) app_name service.

Definition run_application_schedule (s : Schedule) : Run ScheduleRunResult :=
  do! id := of_result (ok_or (sc_application_id s)
              (Protocol "application schedule requires application_id")) in
  if bool_decide (sc_schedule_action s = "EXEC") then run_application_container_command s id else
  do! operation := of_result (parse_schedule_application_operation (sc_schedule_action s)) in
  do! r := call (λ now, application_run_operation env logs now id operation) in
  ret (mkRunResult s (application_op_as_str operation) r.2 "application operation queued" None None).

Definition run_compose_schedule (s : Schedule) : Run ScheduleRunResult :=
  do! id := of_result (ok_or (sc_compose_id s) (Protocol "compose schedule requires compose_id")) in
  if bool_decide (sc_schedule_action s = "EXEC") then run_compose_container_command s id else
  do! operation := of_result (parse_schedule_compose_operation (sc_schedule_action s)) in
  do! r := call (λ now, compose_run_operation env logs now id operation) in
  ret (mkRunResult s (compose_op_as_str operation) r.2 "compose operation queued" None None).

Definition run_shell_schedule (s : Schedule) : Run ScheduleRunResult :=
  do! command := of_result (schedule_command s) in
  match shell_run (sc_server_id s) (executable (from (sc_shell_type s))) command with
  | Ok (stdout, stderr) =>
      ret (mkRunResult s "shell" None "schedule command executed" (Some stdout) (Some stderr))
  | Err e => fail (Protocol e)
  end.

Definition run_once (s : Schedule) : Run ScheduleRunResult :=
  match from (sc_schedule_type s) with
  | ForApplication => run_application_schedule s
  | ForCompose => run_compose_schedule s
  | ForServer | ForPanel => run_shell_schedule s
  end.

(** ** Runs *)

Definition notify_schedule (s : Schedule) (success : bool) (detail : string) : Run unit := λ w,
  match sc_organization_id s with
  | None => (w, Ok tt)
  | Some organization =>
      (mkSchedWorld (sw_sys w) (sw_db w) (sw_now w) (sw_step w)
         (sw_sent w ++ [mkNotice organization success (sc_name s) detail]), Ok tt)
  end.

Definition acquire_lock (id : Z) (owner : string) (lease : Z) : Run bool :=
  do! now := clock in execute (λ _, acquire now id owner lease).

(** The loop of the queueing policy; [None] when the fuel runs out *)
Fixpoint wait_for_lock (fuel : nat) (id : Z) (owner : string) (lease deadline : Z) : Run (option bool) :=
  match fuel with
  | O => ret None
  | S fuel' =>
      do! taken := acquire_lock id owner lease in
      if taken then ret (Some true) else
      do! now := clock in
      if (deadline <=? now)%Z then ret (Some false) else
      do! _ := sleep 1 in wait_for_lock fuel' id owner lease deadline
  end.

(** A sleep is at least one second, so the deadline passes within the lease. *)
Definition queue_lock (id : Z) (owner : string) (lease : Z) : Run bool :=
  do! now := clock in
  do! r := wait_for_lock (S (S (Z.to_nat lease))) id owner lease (now + lease) in
  ret (default false r).

(** [for attempt in 1..=retry_count + 1]: the first success, or the last error *)
Fixpoint attempts (n : nat) (id : Z) (s : Schedule) (p : RuntimePolicy) (trigger : ScheduleTriggerKind)
    (attempt scheduled_at : Z) (last : option SqlError) : Run (result ScheduleRunResult (option SqlError)) :=
  match n with
  | O => ret (Err last)
  | S n' =>
      let attempt_trigger := if (attempt =? 1)%Z then trigger else TriggeredRetry in
      do! x := execute (λ now, begin now id (sc_organization_id s) attempt_trigger attempt scheduled_at) in
      do! r := capture (run_once s) in
      match r with
      | Ok result =>
          do! _ := execute_ (λ now, finish now x ExecSucceeded (Some (rr_message result)) (rr_stdout result)
                               (rr_stderr result)) in
          ret (Ok result)
      | Err error =>
          let message := sql_error_text error in
          do! _ := execute_ (λ now, finish now x ExecFailed (Some message) None (Some message)) in
          do! _ := (if (attempt <=? rp_retry_count p)%Z then sleep (rp_retry_delay_seconds p) else ret tt) in
          attempts n' id s p trigger (attempt + 1) scheduled_at (Some error)
      end
  end.

Definition release_unless_allow (c : ConcurrencyPolicy) (id : Z) (owner : string) : Run unit :=
  if bool_decide (c = ConcurrencyAllow) then ret tt
  else ignore (execute_ (λ _ db, Ok (release id owner db))).

(** After the lock has been taken *)
Definition run_locked (id : Z) (owner : string) (c : ConcurrencyPolicy) (p : RuntimePolicy)
    (trigger : ScheduleTriggerKind) (scheduled_at : Z) : Run ScheduleRunResult :=
  do! r := capture (get_schedule id) in
  match r with
  | Ok s =>
      if (sc_enabled s =? 0)%Z then
        do! _ := release_unless_allow c id owner in fail (Protocol "schedule was deleted or disabled")
      else
        do! _ := execute_ (λ now db, Ok (mark_scheduled now id scheduled_at db)) in
        do! r := attempts (Z.to_nat (rp_retry_count p + 1)) id s p trigger 1 scheduled_at None in
        do! _ := release_unless_allow c id owner in
        match r with
        | Ok result =>
            do! _ := (if (rp_notify_on_success p =? 0)%Z then ret tt
                      else notify_schedule s true (rr_message result)) in
            ret result
        | Err error =>
            let error := default (Protocol "schedule execution failed") error in
            do! _ := (if (rp_notify_on_failure p =? 0)%Z then ret tt
                      else notify_schedule s false (sql_error_text error)) in
            fail error
        end
  | Err RowNotFound =>
      do! _ := release_unless_allow c id owner in fail (Protocol "schedule was deleted or disabled")
  | Err error => do! _ := release_unless_allow c id owner in fail error
  end.

Definition protocol {X} (r : result X string) : result X SqlError :=
  match r with Ok x => Ok x | Err e => Err (Protocol e) end.

Definition run_with_policy (owner : string) (id : Z) (trigger : ScheduleTriggerKind) (scheduled_at : Z)
    : Run ScheduleRunResult :=
  do! s := get_schedule id in
  do! _ := guard (sc_enabled s =? 0)%Z (Protocol "schedule is disabled") in
  do! p := execute (λ now, policy now id) in
  do! c := of_result (protocol (runtime_try_from (rp_concurrency_policy p))) in
  do! locked := match c with
                | ConcurrencyAllow => ret true
                | ConcurrencyQueue => queue_lock id owner (rp_lease_seconds p)
                | ConcurrencySkip => acquire_lock id owner (rp_lease_seconds p)
                end in
  if negb locked then
    do! x := execute (λ now, begin now id (sc_organization_id s) trigger 1 scheduled_at) in
    do! _ := execute_ (λ now, finish now x ExecSkipped (Some "previous execution is still active") None None) in
    fail (Protocol "schedule skipped by concurrency policy")
  else run_locked id owner c p trigger scheduled_at.

Definition run_now (owner : string) (id : Z) : Run ScheduleRunResult :=
  do! now := clock in run_with_policy owner id TriggeredManually now.

(** Whether a missed run was made up for *)
Definition recover_missed (owner : string) (id : Z) (cron_expression : string) : Run bool :=
  do! p := execute (λ now, policy now id) in
  do! now := clock in
  match rp_last_scheduled_at p with
  | None => do! _ := execute_ (λ now' db, Ok (mark_scheduled now' id now db)) in ret false
  | Some last =>
      do! m := of_result (protocol (runtime_try_from (rp_missed_run_policy p))) in
      if negb (bool_decide (m = RunOnce)) then ret false else
      do! _ := guard (negb (valid_timestamp last)) (Protocol "invalid last schedule timestamp") in
      match cron_error cron_expression with
      | Some error => fail (Protocol ("invalid cron expression: " +:+ error))
      | None =>
          match next_occurrence cron_expression last with
          | Err error => fail (Protocol ("could not calculate missed run: " +:+ error))
          | Ok next =>
              if (next <=? now)%Z then
                do! _ := run_with_policy owner id TriggeredMissed next in ret true
              else ret false
          end
      end
  end.
End service.
