(* ===== verification/ScheduleFacts.v ===== *)
(** * Properties of scheduled runs

    The wait for a lock ends within the lease, a run gives its lock back whatever the rest of the
    panel does meanwhile, a held lock cannot be taken, and the attempts of a run are bounded and
    recorded. *)

From stdpp Require Import gmap strings list.
From Stdlib Require Import ZArith Lia.
From S2P Require Import Prelude RustStr StringEnum Sql DeploymentDb DeploymentInv ApplicationState Operations BuilderQueue DeploymentService ServiceProps ScheduleDb ScheduleService.

(** ** The tables *)

Record sched_wf (db : SchedDb) : Prop := {
  sw_schedules : table_wf (schedules db);
  sw_executions : table_wf (executions db);
  (* the foreign keys *)
  sw_locks : ∀ id l, locks db !! id = Some l → schedule_exists id db = true;
  sw_runs : ∀ e, e ∈ rows (executions db) → schedule_exists (ex_schedule_id e) db = true;
}.

Lemma begin_spec now id org trigger attempt at_ db :
  schedule_exists id db = true →
  begin now id org trigger attempt at_ db
  = Ok (with_executions (mkTable (rows (executions db) ++
          [mkExecution (seq (executions db) + 1) id org (runtime_str trigger) "RUNNING" attempt at_ now None
             None None None]) (seq (executions db) + 1)) db, (seq (executions db) + 1)%Z).
Proof.
  intros He. unfold begin, sql_insert. simpl.
  assert (existsb (λ _ : ScheduleExecution, false) (rows (executions db)) = false) as ->.
  { by apply existsb_false. }
  rewrite He. by destruct trigger.
Qed.

Lemma begin_fails now id org trigger attempt at_ db e :
  begin now id org trigger attempt at_ db = Err e → schedule_exists id db = false.
Proof. destruct (schedule_exists id db) eqn:E; [|done]. by rewrite begin_spec. Qed.

Lemma finish_spec now x status message stdout stderr db :
  table_wf (executions db) → sql_exists (λ e, ex_id e =? x)%Z (executions db) = true →
  finish now x status message stdout stderr db
  = Ok (with_executions (mkTable (map (updated (λ e, ex_id e =? x)%Z
          (finished_as now status message stdout stderr)) (rows (executions db))) (seq (executions db))) db).
Proof.
  intros Hwf Hx. unfold finish. rewrite Hx. simpl.
  rewrite (sql_update_success no_fk); [done|done|done| |done].
  intros r Hr _. pose proof (wf_check _ Hwf r Hr) as Hc. simpl in *. bsimp. split; [|done].
  rewrite bool_decide_eq_true_2 by done. by destruct status.
Qed.

Lemma finish_fails now x status message stdout stderr db e :
  table_wf (executions db) → finish now x status message stdout stderr db = Err e →
  sql_exists (λ e, ex_id e =? x)%Z (executions db) = false.
Proof.
  intros Hwf. destruct (sql_exists _ _) eqn:Ex; [|done]. by rewrite finish_spec.
Qed.

Lemma wf_with_lock id l db :
  sched_wf db → schedule_exists id db = true → sched_wf (with_locks (<[id := l]> (locks db)) db).
Proof.
  intros [H1 H2 H3 H4] He. split; try done. simpl. intros i l'.
  destruct (decide (i = id)) as [->|]; [done|]. rewrite lookup_insert_ne by done. apply H3.
Qed.

(** ** The lock is given back *)

Section release.
Context `{Watch}.
Context (others : nat → Sys → SchedDb → Sys * SchedDb * nat).
Context (sql_error_text : SqlError → string).
Context (env : option Z) (logs : string).
Context (swarm_exec : option Z → string → string → string → result (option (string * string)) string).
Context (compose_exec : option Z → string → string → string → string → result (option (string * string)) string).
Context (shell_run : option Z → string → string → result (string * string) string).
Context (is_stack : Z → bool).
Context (owner : string).

(** The rest of the panel keeps the constraints, never locks in the name of this run, loses an
    execution only with its schedule, and, as ids are not used again, never brings one back. *)
Definition polite : Prop := ∀ n s db s' db' k,
  others n s db = (s', db', k) → sched_wf db →
  sched_wf db'
  ∧ (∀ i l, locks db' !! i = Some l → lk_owner_id l = owner → locks db !! i = Some l)
  ∧ (∀ e, e ∈ rows (executions db) → schedule_exists (ex_schedule_id e) db' = true →
       ∃ e', e' ∈ rows (executions db') ∧ ex_id e' = ex_id e ∧ ex_schedule_id e' = ex_schedule_id e)
  ∧ (∀ i, schedule_exists i db' = true → (i ≤ seq (schedules db))%Z → schedule_exists i db = true)
  ∧ (seq (schedules db) ≤ seq (schedules db'))%Z.

Hypothesis Hpolite : polite.

(** No lock is in the name of this run. *)
Definition free (w : SchedWorld) : Prop :=
  sched_wf (sw_db w) ∧ ∀ i l, locks (sw_db w) !! i = Some l → lk_owner_id l ≠ owner.
(** The run holds at most the lock of schedule [id], and none under [ConcurrencyAllow]. *)
Definition held (c : ConcurrencyPolicy) (id : Z) (w : SchedWorld) : Prop :=
  sched_wf (sw_db w) ∧ (id ≤ seq (schedules (sw_db w)))%Z
  ∧ ∀ i l, locks (sw_db w) !! i = Some l → lk_owner_id l = owner → c ≠ ConcurrencyAllow ∧ i = id.
(** Execution [x] is there as long as the schedule is. *)
Definition started_as (c : ConcurrencyPolicy) (id x : Z) (w : SchedWorld) : Prop :=
  held c id w ∧ (schedule_exists id (sw_db w) = true →
    ∃ e, e ∈ rows (executions (sw_db w)) ∧ ex_id e = x ∧ ex_schedule_id e = id).

Lemma allow_free id w : held ConcurrencyAllow id w ↔ free w ∧ (id ≤ seq (schedules (sw_db w)))%Z.
Proof.
  split.
  - intros (? & ? & Hh). split_and!; [split|]; [done| |done]. intros i l Hl Ho. by destruct (Hh i l Hl Ho).
  - intros ((? & Hf) & ?). split_and!; [done..|]. intros i l Hl Ho. by destruct (Hf i l Hl).
Qed.
Lemma held_weaken c c' id w : c' ≠ ConcurrencyAllow → held c id w → held c' id w.
Proof. intros Hc (? & ? & Hh). split_and!; [done..|]. intros i l Hl Ho. by destruct (Hh i l Hl Ho). Qed.
(** Without the schedule there is no lock of it. *)
Lemma orphan_free c id w : held c id w → schedule_exists id (sw_db w) = false → free w.
Proof.
  intros (Hwf & _ & Hh) Hne. split; [done|]. intros i l Hl Ho. destruct (Hh i l Hl Ho) as [_ ->].
  apply sw_locks in Hl; [congruence | done].
Qed.

(** *** Assertions that the rest of the panel leaves true *)

Definition stable (A : SchedWorld → Prop) : Prop :=
  (∀ w, A w → A (enter others w))
  ∧ (∀ w s now sent, A w → A (mkSchedWorld s (sw_db w) now (sw_step w) sent)).

Lemma enter_spec w (db := sw_db w) (db' := sw_db (enter others w)) : sched_wf db →
  sched_wf db'
  ∧ (∀ i l, locks db' !! i = Some l → lk_owner_id l = owner → locks db !! i = Some l)
  ∧ (∀ e, e ∈ rows (executions db) → schedule_exists (ex_schedule_id e) db' = true →
       ∃ e', e' ∈ rows (executions db') ∧ ex_id e' = ex_id e ∧ ex_schedule_id e' = ex_schedule_id e)
  ∧ (∀ i, schedule_exists i db' = true → (i ≤ seq (schedules db))%Z → schedule_exists i db = true)
  ∧ (seq (schedules db) ≤ seq (schedules db'))%Z.
Proof.
  intros Hwf. unfold db', enter. fold db. destruct (others _ _ _) as [[s' db1] k] eqn:E. by eapply Hpolite.
Qed.

Lemma free_stable : stable free.
Proof.
  split; [|done]. intros w [Hwf Hf]. destruct (enter_spec w Hwf) as (Hwf' & Hl & _).
  split; [done|]. intros i l Hi Ho. by apply (Hf i l); [apply Hl|].
Qed.
Lemma held_stable c id : stable (held c id).
Proof.
  split; [|done]. intros w (Hwf & Hid & Hh). destruct (enter_spec w Hwf) as (Hwf' & Hl & _ & _ & Hs).
  split_and!; [done|lia|]. intros i l Hi Ho. by apply (Hh i l); [apply Hl|].
Qed.
Lemma started_stable c id x : stable (started_as c id x).
Proof.
  split; [|done]. intros w [Hh He]. pose proof Hh as (Hwf & Hid & _).
  split; [by apply held_stable|]. intros Hex.
  destruct (enter_spec w Hwf) as (_ & _ & Hr & Hback & _).
  destruct (He (Hback id Hex Hid)) as (e & Hin & <- & <-). by apply Hr.
Qed.

(** *** Computations: a run that fails leaves no lock *)

Definition triple {X} (A : SchedWorld → Prop) (m : Run X) (B : X → SchedWorld → Prop) : Prop :=
  ∀ w, A w → match m w with (w', Ok x) => B x w' | (w', Err _) => free w' end.

Lemma triple_bind {X Y} A (m : Run X) B (f : X → Run Y) C :
  triple A m B → (∀ x, triple (B x) (f x) C) → triple A (bind m f) C.
Proof.
  intros Hm Hf w Hw. unfold bind. specialize (Hm w Hw). destruct (m w) as [w1 [x|e]]; [|done].
  by apply Hf.
Qed.
Lemma triple_ret {X} A (x : X) (B : X → SchedWorld → Prop) : (∀ w, A w → B x w) → triple A (ret x) B.
Proof. intros HB w Hw. by apply HB. Qed.
Lemma triple_fail {X} A e (B : X → SchedWorld → Prop) : (∀ w, A w → free w) → triple A (fail e) B.
Proof. intros HB w Hw. by apply HB. Qed.
Lemma triple_result {X} A (r : result X SqlError) : (∀ w, A w → free w) → triple A (of_result r) (λ _, A).
Proof. intros HA w Hw. unfold of_result. destruct r; [done | by apply HA]. Qed.
Lemma triple_mono {X} (A A' : SchedWorld → Prop) (m : Run X) (B B' : X → SchedWorld → Prop) :
  triple A' m B' → (∀ w, A w → A' w) → (∀ x w, B' x w → B x w) → triple A m B.
Proof.
  intros Hm HA HB w Hw. specialize (Hm w (HA w Hw)). destruct (m w) as [w1 [x|e]]; [by apply HB | done].
Qed.
Lemma triple_clock A : triple A clock (λ _, A).
Proof. by intros w Hw. Qed.
Lemma triple_sleep A d : stable A → triple A (sleep d) (λ _, A).
Proof. intros [_ HA] w Hw. by apply HA. Qed.
Lemma triple_select {X} A (f : SchedDb → X) :
  stable A → triple A (select others f) (λ x w, A w ∧ x = f (sw_db w)).
Proof. intros [HA _] w Hw. split; [by apply HA | done]. Qed.

(** A statement, at the tables as the rest of the panel left them *)
Lemma triple_perform {X} A (f : SchedWorld → result (SchedDb * X) SqlError) B :
  stable A →
  (∀ w, A w → match f w with Ok (db, x) => B x (with_sched db w) | Err _ => free w end) →
  triple A (perform others f) B.
Proof.
  intros [HA _] Hf w Hw. unfold perform. specialize (Hf _ (HA w Hw)).
  destruct (f (enter others w)) as [[db x]|e]; done.
Qed.

(** A call whose error is handled *)
Definition keeps {X} (A : SchedWorld → Prop) (m : Run X) : Prop := ∀ w, A w → A (m w).1.

Lemma sched_keeps_bind {X Y} A (m : Run X) (f : X → Run Y) :
  keeps A m → (∀ x, keeps A (f x)) → keeps A (bind m f).
Proof.
  intros Hm Hf w Hw. unfold bind. specialize (Hm w Hw). destruct (m w) as [w1 [x|e]]; [|done].
  by apply Hf.
Qed.
Lemma keeps_of_result {X} A (r : result X SqlError) : keeps A (of_result r).
Proof. by intros w. Qed.
Lemma keeps_ret {X} A (x : X) : keeps A (ret x).
Proof. by intros w. Qed.
Lemma keeps_fail {X} A e : keeps A (fail e : Run X).
Proof. by intros w. Qed.
Lemma keeps_select {X} A (f : SchedDb → X) : stable A → keeps A (select others f).
Proof. intros [HA _] w Hw. by apply HA. Qed.
Lemma keeps_call {X} A (m : Z → M X) : stable A → keeps A (call others m).
Proof.
  intros [HA HS] w Hw. unfold call. destruct (m _ _) as [s r]. simpl. by apply HS, HA.
Qed.
Lemma triple_capture {X} A (m : Run X) : keeps A m → triple A (capture m) (λ _, A).
Proof. intros Hm w Hw. unfold capture. specialize (Hm w Hw). by destruct (m w). Qed.

Ltac keep :=
  repeat first [ apply keeps_of_result | apply keeps_ret | apply keeps_fail
               | apply keeps_select; assumption | apply keeps_call; assumption
               | apply sched_keeps_bind; [|intros ?]
               | match goal with |- keeps _ (match ?x with _ => _ end) => destruct x end
               | match goal with |- keeps _ (if ?x then _ else _) => destruct x end ].

Lemma get_schedule_keeps A id : stable A → keeps A (get_schedule others id).
Proof. intros HA. unfold get_schedule. keep. Qed.

(** The command of a run leaves the tables of schedules alone. *)
Lemma run_once_keeps A s :
  stable A → keeps A (run_once others env logs swarm_exec compose_exec shell_run is_stack s).
Proof.
  intros HA. unfold run_once, run_application_schedule, run_compose_schedule, run_shell_schedule,
    run_application_container_command, run_compose_container_command, run_swarm_container_command,
    run_compose_project_container_command.
  keep.
Qed.

(** *** The statements of a run *)

Lemma held_same_locks c id w w' :
  held c id w → sched_wf (sw_db w') → seq (schedules (sw_db w')) = seq (schedules (sw_db w)) →
  locks (sw_db w') = locks (sw_db w) → held c id w'.
Proof. intros (? & ? & ?) ? Hs Hl. unfold held. by rewrite Hs, Hl. Qed.

Lemma wf_with_policies m db : sched_wf db → sched_wf (with_policies m db).
Proof. by intros []. Qed.

Lemma triple_policy c id :
  (∀ w, held c id w → free w) →
  triple (held c id) (execute others (λ now, policy now id)) (λ _, held c id).
Proof.
  intros Hf. apply triple_perform; [apply held_stable|]. intros w Hw. unfold policy.
  destruct (policies _ !! id); [done|]. destruct (schedule_exists _ _); [|by apply Hf].
  pose proof Hw as (Hwf & _). apply (held_same_locks c id w); simpl; [done| |done..].
  by apply wf_with_policies.
Qed.

Lemma triple_mark c id now' :
  triple (held c id) (execute_ others (λ now db, Ok (mark_scheduled now id now' db))) (λ _, held c id).
Proof.
  apply triple_perform; [apply held_stable|]. intros w Hw. simpl.
  pose proof Hw as (Hwf & _). apply (held_same_locks c id w); [done|..]; simpl; unfold mark_scheduled;
    destruct (policies _ !! id); try done. by apply wf_with_policies.
Qed.

Lemma triple_acquire id lease :
  triple (held ConcurrencyAllow id) (acquire_lock others id owner lease)
    (λ taken, held (if taken then ConcurrencySkip else ConcurrencyAllow) id).
Proof.
  unfold acquire_lock. eapply triple_bind; [apply triple_clock|]. intros now. simpl.
  apply triple_perform; [apply held_stable|]. intros w Hw. unfold acquire.
  pose proof Hw as (Hwf & Hid & Hh). pose proof (proj1 (allow_free id w) Hw) as [Hfree _].
  assert (schedule_exists id (sw_db w) = true →
    held ConcurrencySkip id (with_sched (with_locks
      (<[id := mkLock owner now (now + lease)]> (locks (sw_db w))) (sw_db w)) w)) as Hmine.
  { intros He. split_and!; [|done|].
    - by apply wf_with_lock.
    - intros i l. simpl. destruct (decide (i = id)) as [->|]; [by intros _ _; split|].
      rewrite lookup_insert_ne by done. intros Hl Ho. by destruct (Hh i l Hl Ho). }
  destruct (locks _ !! id) as [l|] eqn:El.
  - destruct (_ <=? _)%Z; [|done]. refine (Hmine _). by eapply sw_locks.
  - destruct (schedule_exists _ _); [exact (Hmine eq_refl) | done].
Qed.

Lemma begin_wf now id org trigger attempt at_ db db' x :
  begin now id org trigger attempt at_ db = Ok (db', x) → sched_wf db →
  sched_wf db' ∧ schedules db' = schedules db ∧ locks db' = locks db
  ∧ ∃ e, e ∈ rows (executions db') ∧ ex_id e = x ∧ ex_schedule_id e = id.
Proof.
  intros ([t y] & Ei & [= <- <-])%let_ok [H1 H2 H3 H4].
  pose proof Ei as Hwf. apply sql_insert_wf in Hwf; [|done..].
  apply sql_insert_inv in Ei as (-> & _ & Hr & _ & _ & Hfk). split_and!; [|done..|].
  - split; try done. simpl. rewrite Hr. intros e [He| ->%list_elem_of_singleton]%elem_of_app; [by apply H4 | done].
  - simpl. rewrite Hr. eexists. split; [apply elem_of_app; right; by apply list_elem_of_singleton | done].
Qed.

Lemma finish_wf now x status message stdout stderr db db' :
  finish now x status message stdout stderr db = Ok db' → sched_wf db →
  sched_wf db' ∧ schedules db' = schedules db ∧ locks db' = locks db.
Proof.
  unfold finish. destruct (sql_exists _ _); [|done]. simpl.
  intros ([t n] & Eu & [= <-])%let_ok [H1 H2 H3 H4].
  pose proof Eu as Hwf. apply sql_update_wf in Hwf; [|done..].
  apply sql_update_inv in Eu as (Hr & _). split_and!; [|done..].
  split; try done. simpl. rewrite Hr. intros e (e0 & -> & He)%elem_of_mapb.
  unfold updated. specialize (H4 e0 He). by destruct (_ =? _)%Z.
Qed.

Lemma triple_begin c id org trigger attempt at_ :
  triple (held c id) (execute others (λ now, begin now id org trigger attempt at_)) (started_as c id).
Proof.
  apply triple_perform; [apply held_stable|]. intros w Hw.
  destruct (begin _ _ _ _ _ _ _) as [[db x]|e] eqn:Eb;
    [|apply begin_fails in Eb; by eapply orphan_free].
  pose proof Hw as (Hwf & _). apply begin_wf in Eb as (Hwf' & Hs & Hl & He); [|done].
  split; [|done]. apply (held_same_locks c id w); [done..|by simpl; rewrite Hs|done].
Qed.

Lemma triple_finish c id x status message stdout stderr :
  triple (started_as c id x) (execute_ others (λ now, finish now x status message stdout stderr))
    (λ _, held c id).
Proof.
  apply triple_perform; [apply started_stable|]. intros w [Hw He]. pose proof Hw as (Hwf & _).
  destruct (finish _ _ _ _ _ _ _) as [db|e] eqn:Ef; simpl.
  - apply finish_wf in Ef as (Hwf' & Hs & Hl); [|done].
    apply (held_same_locks c id w); [done..|by simpl; rewrite Hs|done].
  - apply finish_fails in Ef; [|apply Hwf]. eapply orphan_free; [done|].
    destruct (schedule_exists id (sw_db w)); [|done]. destruct (He eq_refl) as (e' & Hin & Hx & _).
    exfalso. unfold sql_exists in Ef. rewrite existsb_false in Ef. specialize (Ef e' Hin). lia.
Qed.

Lemma triple_release c id :
  triple (held c id) (release_unless_allow others c id owner) (λ _, free).
Proof.
  unfold release_unless_allow. case_bool_decide as Hc.
  { subst. apply triple_ret. intros w Hw. by apply allow_free in Hw as []. }
  intros w Hw. apply (held_stable c id) in Hw as (Hwf & _ & Hh). simpl.
  unfold ignore, execute_, execute, perform. simpl. unfold release.
  destruct (locks _ !! id) as [l|] eqn:El; [case_bool_decide|]; simpl.
  - split; [destruct Hwf as [H1 H2 H3 H4]; split; try done; simpl|].
    + intros i l' (_ & Hl)%lookup_delete_Some. by eapply H3.
    + intros i l'. simpl. intros (Hne & Hl)%lookup_delete_Some Ho. by destruct (Hh i l' Hl Ho).
  - split; [done|]. intros i l' Hl Ho. destruct (Hh i l' Hl Ho) as [_ ->]. simpl in *. congruence.
  - split; [done|]. intros i l' Hl Ho. destruct (Hh i l' Hl Ho) as [_ ->]. simpl in *. congruence.
Qed.

(** *** Runs *)

#[local] Notation attempts' := (attempts others sql_error_text env logs swarm_exec compose_exec shell_run is_stack).
#[local] Notation run_locked' := (run_locked others sql_error_text env logs swarm_exec compose_exec shell_run is_stack).
#[local] Notation run_with_policy' := (run_with_policy others sql_error_text env logs swarm_exec compose_exec shell_run is_stack).

Lemma triple_wait fuel id lease deadline :
  triple (held ConcurrencyAllow id) (wait_for_lock others fuel id owner lease deadline)
    (λ r, held (match r with Some true => ConcurrencyQueue | _ => ConcurrencyAllow end) id).
Proof.
  induction fuel as [|fuel IH]; simpl; [by apply triple_ret|].
  eapply triple_bind; [apply triple_acquire|]. intros [|].
  { apply triple_ret. intros w. by apply held_weaken. }
  eapply triple_bind; [apply triple_clock|]. intros now. simpl.
  destruct (_ <=? _)%Z; [by apply triple_ret|].
  eapply triple_bind; [apply triple_sleep, held_stable | intros ?; apply IH].
Qed.

Lemma triple_attempts c id s p trigger at_ n : ∀ attempt last,
  triple (held c id) (attempts' n id s p trigger attempt at_ last) (λ _, held c id).
Proof.
  induction n as [|n IH]; intros attempt last; simpl; [by apply triple_ret|].
  eapply triple_bind; [apply triple_begin|]. intros x.
  eapply triple_bind; [apply triple_capture, run_once_keeps, started_stable|]. intros [r|e]; simpl.
  - eapply triple_bind; [apply triple_finish|]. intros ?. by apply triple_ret.
  - eapply triple_bind; [apply triple_finish|]. intros ?.
    eapply triple_bind; [|intros ?; apply IH].
    destruct (_ <=? _)%Z; [apply triple_sleep, held_stable | by apply triple_ret].
Qed.

Lemma triple_notify A s success detail : stable A → triple A (notify_schedule s success detail) (λ _, A).
Proof. intros [_ HA] w Hw. unfold notify_schedule. destruct (sc_organization_id s); [by apply HA | done]. Qed.

Lemma triple_release_fail {X} c id e :
  triple (held c id) (do! _ := release_unless_allow others c id owner in fail e) (λ _ : X, free).
Proof. eapply triple_bind; [apply triple_release|]. intros ?. by apply triple_fail. Qed.

Lemma triple_locked c id p trigger at_ :
  triple (held c id) (run_locked' id owner c p trigger at_) (λ _, free).
Proof.
  unfold run_locked. eapply triple_bind; [apply triple_capture, get_schedule_keeps, held_stable|].
  intros [s|e]; simpl; [|destruct e; apply triple_release_fail].
  destruct (_ =? 0)%Z; [apply triple_release_fail|].
  eapply triple_bind; [apply triple_mark|]. intros ?.
  eapply triple_bind; [apply triple_attempts|]. intros r.
  eapply triple_bind; [apply triple_release|]. intros ?. simpl.
  destruct r as [r|e]; (apply (triple_bind _ _ (λ _, free)); [|intros ?; by (apply triple_ret || apply triple_fail)]);
    (destruct (_ =? 0)%Z; [by apply triple_ret | apply triple_notify, free_stable]).
Qed.

Lemma triple_run id trigger at_ :
  triple free (run_with_policy' owner id trigger at_) (λ _, free).
Proof.
  unfold run_with_policy.
  apply (triple_bind _ _ (λ _, held ConcurrencyAllow id)).
  { unfold get_schedule. eapply triple_bind; [apply triple_select, free_stable|]. intros o w [Hf ->].
    unfold of_result, ok_or. destruct (schedule_get_by_id id (sw_db w)) as [s|] eqn:Es; [|done].
    apply sql_first_Some in Es as [Hin He]. apply allow_free. split; [done|].
    destruct Hf as [[Hwf _ _ _] _]. pose proof (wf_seq _ Hwf s Hin) as Hs. simpl in Hs. lia. }
  assert (∀ w, held ConcurrencyAllow id w → free w) as Hfree by (intros w Hw; by apply allow_free in Hw as []).
  intros s. eapply triple_bind.
  { unfold guard. destruct (_ =? 0)%Z; [by apply triple_fail | by apply (triple_ret _ _ (λ _, held ConcurrencyAllow id))]. }
  intros ?. eapply triple_bind; [by apply triple_policy|]. intros p. simpl.
  eapply triple_bind; [by apply triple_result|]. intros c. simpl.
  apply (triple_bind _ _ (λ locked : bool, held (if locked then c else ConcurrencyAllow) id)).
  { destruct c.
    - eapply triple_mono; [apply triple_acquire|done|done].
    - unfold queue_lock. eapply triple_bind; [apply triple_clock|]. intros now.
      eapply triple_bind; [apply triple_wait|]. intros r. apply triple_ret. by destruct r as [[|]|].
    - by apply triple_ret. }
  intros [|]; simpl; [apply triple_locked|].
  eapply triple_bind; [apply triple_begin|]. intros y.
  eapply triple_bind; [apply triple_finish|]. intros ?. by apply triple_fail.
Qed.
End release.

(** ** What a run of a schedule waits for and records

    The wait of the queueing policy ends, whatever the rest of the panel does to the tables and
    however long the statements take.  Between runs, a lock excludes the others until it expires.
    When nobody else touches the tables of schedules, a run records each of its attempts. *)

(** ** Waiting for a lock *)

Section waiting.
Context `{Watch}.
Context (others : nat → Sys → SchedDb → Sys * SchedDb * nat).

Lemma enter_later w : (sw_now w ≤ sw_now (enter others w))%Z.
Proof. unfold enter. destruct (others _ _ _) as [[s db] k]. simpl. lia. Qed.

(** The three ways a wait started at [start] can end *)
Definition wait_outcome (id : Z) (owner : string) (lease start deadline : Z) (w' : SchedWorld)
    (r : result (option bool) SqlError) : Prop :=
  match r with
  | Ok None => False
  | Ok (Some true) => ∃ t, (start ≤ t ≤ sw_now w')%Z
                         ∧ locks (sw_db w') !! id = Some (mkLock owner t (t + lease))
  | Ok (Some false) => (deadline ≤ sw_now w')%Z
  | Err e => e = ForeignKeyFailed ∧ schedule_exists id (sw_db w') = false
  end.

Lemma acquire_lock_outcome id owner lease w :
  let '(w', r) := acquire_lock others id owner lease w in
  (sw_now w ≤ sw_now w')%Z
  ∧ match r with
    | Ok true => locks (sw_db w') !! id = Some (mkLock owner (sw_now w) (sw_now w + lease))
    | Ok false => True
    | Err e => e = ForeignKeyFailed ∧ schedule_exists id (sw_db w') = false
    end.
Proof.
  unfold acquire_lock, bind, clock, execute, perform, acquire. pose proof (enter_later w).
  destruct (locks _ !! id); [destruct (_ <=? _)%Z | destruct (schedule_exists _ _) eqn:?]; simpl;
    rewrite ?lookup_insert_eq; done.
Qed.

Lemma wait_ends fuel id owner lease deadline start : ∀ w,
  (start ≤ sw_now w)%Z → (Z.to_nat (deadline - sw_now w) < fuel)%nat →
  let '(w', r) := wait_for_lock others fuel id owner lease deadline w in
  wait_outcome id owner lease start deadline w' r.
Proof.
  induction fuel as [|fuel IH]; intros w Hs Hf; [lia|]. simpl. unfold bind at 1.
  pose proof (acquire_lock_outcome id owner lease w) as Ha.
  destruct (acquire_lock others id owner lease w) as [w1 [[|]|e]]; destruct Ha as [Hle Ha]; simpl.
  - exists (sw_now w). split; [lia | done].
  - unfold bind, clock. destruct (deadline <=? sw_now w1)%Z eqn:Hd; simpl; [lia|]. apply IH; simpl; lia.
  - done.
Qed.
End waiting.

(** ** Locks between runs *)

(** What the runs do to the locks, in any order *)
Inductive LockOp :=
  | Acquire (now id : Z) (owner : string) (lease : Z)
  | Release (id : Z) (owner : string).

Definition lock_step (o : LockOp) (db : SchedDb) : SchedDb * bool :=
  match o with
  | Acquire now id owner lease => match acquire now id owner lease db with
                                  | Ok (db', taken) => (db', taken)
                                  | Err _ => (db, false)
                                  end
  | Release id owner => (release id owner db, false)
  end.
(** The tables after the operations, and which of them took a lock *)
Fixpoint lock_steps (ops : list LockOp) (db : SchedDb) : SchedDb * list (LockOp * bool) :=
  match ops with
  | [] => (db, [])
  | o :: ops => let '(db1, b) := lock_step o db in
                let '(db2, bs) := lock_steps ops db1 in (db2, (o, b) :: bs)
  end.

Definition op_schedule (o : LockOp) : Z := match o with Acquire _ id _ _ | Release id _ => id end.
(** Operations of runs other than [owner], before the time [t] *)
Definition op_of_another (owner : string) (t : Z) (o : LockOp) : Prop :=
  match o with
  | Acquire now _ owner' _ => owner' ≠ owner ∧ (now < t)%Z
  | Release _ owner' => owner' ≠ owner
  end.

Lemma lock_step_other o db owner id l :
  locks db !! id = Some l → lk_owner_id l = owner → op_of_another owner (lk_expires_at l) o →
  locks (lock_step o db).1 !! id = Some l ∧ (op_schedule o = id → (lock_step o db).2 = false).
Proof.
  intros Hl Ho Hop. destruct o as [now i o' lease|i o']; simpl in *.
  - unfold acquire. destruct (decide (i = id)) as [->|Hne].
    + rewrite Hl. destruct Hop. by rewrite (proj2 (Z.leb_gt _ _)).
    + destruct (locks db !! i); [destruct (_ <=? _)%Z | destruct (schedule_exists _ _)]; simpl;
        rewrite ?lookup_insert_ne by done; done.
  - split; [|done]. unfold release. destruct (decide (i = id)) as [->|Hne].
    + rewrite Hl. rewrite bool_decide_eq_false_2; [done | congruence].
    + destruct (locks db !! i); [case_bool_decide|]; simpl; rewrite ?lookup_delete_ne by done; done.
Qed.

Lemma lock_steps_other ops : ∀ db owner id l,
  locks db !! id = Some l → lk_owner_id l = owner → Forall (op_of_another owner (lk_expires_at l)) ops →
  locks (lock_steps ops db).1 !! id = Some l
  ∧ ∀ o, (o, true) ∈ (lock_steps ops db).2 → op_schedule o ≠ id.
Proof.
  induction ops as [|o ops IH]; intros db owner id l Hl Ho Hops; simpl.
  { split; [done|]. by intros o ?%elem_of_nil. }
  apply Forall_cons in Hops as [Hop Hops].
  destruct (lock_step_other o db owner id l Hl Ho Hop) as [Hl1 Hb].
  destruct (lock_step o db) as [db1 b]. simpl in *.
  destruct (IH db1 owner id l Hl1 Ho Hops) as [Hl2 Hbs].
  destruct (lock_steps ops db1) as [db2 bs]. simpl in *. split; [done|].
  intros o' [[= -> <-]|Hin]%elem_of_cons; [|by apply Hbs]. intros He. by specialize (Hb He).
Qed.

(** ** The record of a run *)

Section record.
Context `{Watch}.
Context (others : nat → Sys → SchedDb → Sys * SchedDb * nat).
Context (sql_error_text : SqlError → string).
Context (env : option Z) (logs : string).
Context (swarm_exec : option Z → string → string → string → result (option (string * string)) string).
Context (compose_exec : option Z → string → string → string → string → result (option (string * string)) string).
Context (shell_run : option Z → string → string → result (string * string) string).
Context (is_stack : Z → bool).

(** Nobody else touches the tables of schedules meanwhile. *)
Definition quiet : Prop := ∀ n s db, (others n s db).1.2 = db.
Hypothesis Hquiet : quiet.

#[local] Notation run_once' := (run_once others env logs swarm_exec compose_exec shell_run is_stack).
#[local] Notation attempts' := (attempts others sql_error_text env logs swarm_exec compose_exec shell_run is_stack).

Lemma enter_quiet w : sw_db (enter others w) = sw_db w.
Proof. unfold enter. pose proof (Hquiet (sw_step w) (sw_sys w) (sw_db w)) as Hq. by destruct (others _ _ _) as [[]]. Qed.

Lemma quiet_stable db : stable others (λ w, sw_db w = db).
Proof. split; [|done]. intros w Hw. by rewrite enter_quiet. Qed.

Lemma run_once_quiet s w : sw_db (run_once' s w).1 = sw_db w.
Proof. by apply (run_once_keeps others env logs swarm_exec compose_exec shell_run is_stack _ s (quiet_stable (sw_db w))). Qed.

(** The tables with [l] added to the executions *)
Definition with_log (l : list ScheduleExecution) (db : SchedDb) : SchedDb :=
  with_executions (mkTable (rows (executions db) ++ l) (seq (executions db) + Z.of_nat (length l))) db.

Lemma with_log_app l1 l2 db : with_log l2 (with_log l1 db) = with_log (l1 ++ l2) db.
Proof. unfold with_log, with_executions. simpl. rewrite <-app_assoc, length_app. do 2 f_equal. lia. Qed.
Lemma with_log_nil db : with_log [] db = db.
Proof. destruct db as [? ? []]. unfold with_log, with_executions. simpl. by rewrite app_nil_r, Z.add_0_r. Qed.

Lemma begin_quiet now id org trigger attempt at_ db :
  schedule_exists id db = true →
  let x := (seq (executions db) + 1)%Z in
  begin now id org trigger attempt at_ db
  = Ok (with_log [mkExecution x id org (runtime_str trigger) "RUNNING" attempt at_ now None None None None] db, x).
Proof. intros He x. rewrite begin_spec by done. by unfold with_log. Qed.

(** The execution that was begun last is the one that is finished. *)
Lemma finish_quiet now status message stdout stderr db e :
  sched_wf db → sched_wf (with_log [e] db) → ex_id e = (seq (executions db) + 1)%Z →
  finish now (ex_id e) status message stdout stderr (with_log [e] db)
  = Ok (with_log [finished_as now status message stdout stderr e] db).
Proof.
  intros Hwf Hwf' He. rewrite finish_spec; [|apply Hwf'|].
  - unfold with_log, with_executions. simpl. do 3 f_equal. rewrite map_app. simpl. f_equal.
    + rewrite <-(map_id (rows (executions db))) at 2. apply map_ext_in.
      intros r Hr%list_elem_of_In. unfold updated.
      pose proof (wf_seq _ (sw_executions _ Hwf) r Hr) as Hs. simpl in Hs.
      destruct (Z.eqb_spec (ex_id r) (ex_id e)); [lia | done].
    + unfold updated. by rewrite Z.eqb_refl.
  - unfold sql_exists, with_log. simpl. rewrite existsb_app. simpl. by rewrite Z.eqb_refl, orb_true_r.
Qed.

(** What the attempts of a run add to the executions: numbered from [attempt], all but the last
    failed, and the last as the run ended *)
Definition attempt_kind (trigger : ScheduleTriggerKind) (attempt : Z) : ScheduleTriggerKind :=
  if (attempt =? 1)%Z then trigger else TriggeredRetry.
Inductive attempt_log (id : Z) (trigger : ScheduleTriggerKind) (at_ : Z)
    : nat → Z → option SqlError → list ScheduleExecution → result ScheduleRunResult (option SqlError) → Prop :=
  | log_end attempt last : attempt_log id trigger at_ 0 attempt last [] (Err last)
  | log_success n attempt last e r :
      ex_schedule_id e = id → ex_attempt e = attempt → ex_scheduled_at e = at_ →
      ex_trigger_kind e = runtime_str (attempt_kind trigger attempt) →
      ex_status e = "SUCCEEDED" → ex_message e = Some (rr_message r) → is_Some (ex_finished_at e) →
      attempt_log id trigger at_ (S n) attempt last [e] (Ok r)
  | log_failure n attempt last error e l r :
      ex_schedule_id e = id → ex_attempt e = attempt → ex_scheduled_at e = at_ →
      ex_trigger_kind e = runtime_str (attempt_kind trigger attempt) →
      ex_status e = "FAILED" → ex_message e = Some (sql_error_text error) → is_Some (ex_finished_at e) →
      attempt_log id trigger at_ n (attempt + 1) (Some error) l r →
      attempt_log id trigger at_ (S n) attempt last (e :: l) r.

Lemma with_log_exists l id db : schedule_exists id (with_log l db) = schedule_exists id db.
Proof. done. Qed.

(** One attempt: begun, run and finished *)
Lemma attempt_spec id org kind attempt at_ db (w : SchedWorld) :
  sched_wf db → schedule_exists id db = true → sw_db w = db →
  ∃ e w1, execute others (λ now, begin now id org kind attempt at_) w = (w1, Ok (ex_id e))
    ∧ sw_db w1 = with_log [e] db ∧ ex_schedule_id e = id ∧ ex_attempt e = attempt ∧ ex_scheduled_at e = at_
    ∧ ex_trigger_kind e = runtime_str kind
    ∧ ∀ status message stdout stderr w2, sw_db w2 = with_log [e] db →
        ∃ w3 now, execute_ others (λ now, finish now (ex_id e) status message stdout stderr) w2 = (w3, Ok tt)
          ∧ sw_db w3 = with_log [finished_as now status message stdout stderr e] db
          ∧ sched_wf (sw_db w3).
Proof.
  intros Hwf Hex <-. unfold execute at 1, perform at 1. rewrite enter_quiet, begin_quiet by done.
  eexists (mkExecution _ _ _ _ _ _ _ _ _ _ _ _), _. split_and!; [done..|].
  intros status message stdout stderr w2 Hw2. unfold execute_, execute, perform. rewrite enter_quiet, Hw2.
  pose proof (begin_quiet (sw_now (enter others w)) id org kind attempt at_ (sw_db w) Hex) as Hb.
  apply begin_wf in Hb as (Hwf1 & _); [|done].
  rewrite finish_quiet; [|done..]. simpl. eexists _, _. split_and!; [done..|]. simpl.
  eapply finish_wf; [by apply finish_quiet | done].
Qed.

Lemma attempts_spec id s p trigger at_ n : ∀ attempt last w,
  sched_wf (sw_db w) → schedule_exists id (sw_db w) = true →
  ∃ w' r l, attempts' n id s p trigger attempt at_ last w = (w', Ok r)
    ∧ sw_db w' = with_log l (sw_db w) ∧ sched_wf (sw_db w')
    ∧ attempt_log id trigger at_ n attempt last l r.
Proof.
  induction n as [|n IH]; intros attempt last w Hwf Hex.
  { eexists w, _, []. rewrite with_log_nil. split_and!; [done..|constructor]. }
  destruct (attempt_spec id (sc_organization_id s) (attempt_kind trigger attempt) attempt at_ _ w Hwf Hex eq_refl)
    as (e & w1 & Hb & Hdb & Hid & Ha & Hat & Hk & Hfin).
  simpl. unfold bind at 1. unfold attempt_kind in Hb. rewrite Hb. unfold bind at 1, capture.
  pose proof (run_once_quiet s w1) as Hq. destruct (run_once' s w1) as [w2 r]. simpl in Hq.
  rewrite Hdb in Hq. destruct r as [r|error].
  - destruct (Hfin ExecSucceeded (Some (rr_message r)) (rr_stdout r) (rr_stderr r) w2 Hq)
      as (w3 & now & Hf & Hdb3 & Hwf3).
    unfold bind at 1. rewrite Hf. eexists w3, _, [_]. split_and!; [done..|]. by apply log_success.
  - destruct (Hfin ExecFailed (Some (sql_error_text error)) None (Some (sql_error_text error)) w2 Hq)
      as (w3 & now & Hf & Hdb3 & Hwf3).
    unfold bind at 1. rewrite Hf. unfold bind at 1.
    set (m := if (attempt <=? rp_retry_count p)%Z then _ else _).
    assert (∃ w4, m w3 = (w4, Ok tt) ∧ sw_db w4 = sw_db w3) as (w4 & Hm & Hdb4)
      by (subst m; destruct (_ <=? _)%Z; eexists; by split).
    rewrite Hm. destruct (IH (attempt + 1)%Z (Some error) w4) as (w' & r & l & Hr & Hdb' & Hwf' & Hl).
    { by rewrite Hdb4. }
    { by rewrite Hdb4, Hdb3. }
    rewrite Hr, Hdb4, Hdb3, with_log_app in *. eexists w', r, _. split_and!; [done..|].
    by eapply log_failure.
Qed.

Lemma attempt_log_facts id trigger at_ n attempt last l r :
  attempt_log id trigger at_ n attempt last l r →
  length l ≤ n
  ∧ map ex_attempt l = seqZ attempt (Z.of_nat (length l))
  ∧ map ex_status l = match r with
                      | Ok _ => replicate (length l - 1) "FAILED" ++ ["SUCCEEDED"]
                      | Err _ => replicate n "FAILED"
                      end
  ∧ map ex_trigger_kind l = map (λ a, runtime_str (attempt_kind trigger a)) (seqZ attempt (Z.of_nat (length l)))
  ∧ Forall (λ e, ex_schedule_id e = id ∧ ex_scheduled_at e = at_ ∧ is_Some (ex_finished_at e)) l.
Proof.
  induction 1 as [|n attempt last e r|n attempt last error e l r Hid Ha Hat Hk Hst Hm Hf Hlog IH].
  - split_and!; [simpl; lia|done..].
  - cbn [length map]. change (Z.of_nat 1) with 1%Z.
    replace (seqZ attempt 1) with [attempt] by (rewrite seqZ_cons by lia; done).
    subst. split_and!; [lia|done|by simpl; f_equal|by simpl; f_equal|by apply Forall_singleton].
  - destruct IH as (Hlen & Hatt & Hs & Hks & Hall). cbn [length map].
    rewrite seqZ_cons by lia. replace (Z.pred (Z.of_nat (S (length l)))) with (Z.of_nat (length l)) by lia.
    rewrite Hatt, Hks, Hs, Ha, Hst, Hk. simpl. split_and!; [lia|done| |done|by constructor].
    destruct r as [r|o]; [|done]. rewrite Nat.sub_0_r.
    assert (length l ≠ 0)%nat. { inversion Hlog; simpl; lia. }
    destruct (length l) as [|k]; [done|]. simpl. by rewrite Nat.sub_0_r.
Qed.

(** *** The whole run *)

#[local] Notation run_locked' := (run_locked others sql_error_text env logs swarm_exec compose_exec shell_run is_stack).
#[local] Notation run_with_policy' := (run_with_policy others sql_error_text env logs swarm_exec compose_exec shell_run is_stack).

Lemma with_sched_same w : with_sched (sw_db w) w = w.
Proof. by destruct w. Qed.

Lemma get_schedule_quiet id s w :
  schedule_get_by_id id (sw_db w) = Some s → get_schedule others id w = (enter others w, Ok s).
Proof. intros Hs. unfold get_schedule, bind, select. by rewrite enter_quiet, Hs. Qed.

(** When the run asks for its lock: after the schedule and its policy have been read *)
Definition asking (w : SchedWorld) : SchedWorld := enter others (enter others w).

Lemma asking_db w : sw_db (asking w) = sw_db w.
Proof. unfold asking. by rewrite !enter_quiet. Qed.

Lemma run_prefix owner id trigger at_ s p c w :
  schedule_get_by_id id (sw_db w) = Some s → sc_enabled s ≠ 0%Z →
  policies (sw_db w) !! id = Some p → runtime_try_from (rp_concurrency_policy p) = Ok c →
  run_with_policy' owner id trigger at_ w
  = bind (match c with
          | ConcurrencyAllow => ret true
          | ConcurrencyQueue => queue_lock others id owner (rp_lease_seconds p)
          | ConcurrencySkip => acquire_lock others id owner (rp_lease_seconds p)
          end)
      (λ locked, if negb locked then
         do! x := execute others (λ now, begin now id (sc_organization_id s) trigger 1 at_) in
         do! _ := execute_ others (λ now, finish now x ExecSkipped
                    (Some "previous execution is still active") None None) in
         fail (Protocol "schedule skipped by concurrency policy")
       else run_locked' id owner c p trigger at_) (asking w).
Proof.
  intros Hs He Hp Hc. unfold run_with_policy. unfold bind at 1. rewrite (get_schedule_quiet id s) by done.
  rewrite (proj2 (Z.eqb_neq _ _) He). unfold bind at 1. simpl. unfold bind at 1.
  unfold execute at 1, perform at 1. fold (asking w).
  unfold policy. rewrite asking_db, Hp. rewrite <-(asking_db w), with_sched_same.
  unfold bind at 1, of_result at 1. by rewrite Hc.
Qed.

Lemma release_quiet c id owner w :
  ∃ w', release_unless_allow others c id owner w = (w', Ok tt)
    ∧ sw_db w' = if bool_decide (c = ConcurrencyAllow) then sw_db w else release id owner (sw_db w).
Proof.
  unfold release_unless_allow. case_bool_decide; [by exists w|].
  unfold ignore, execute_, execute, perform. simpl. rewrite enter_quiet. by eexists.
Qed.

Lemma mark_wf now id at_ db : sched_wf db → sched_wf (mark_scheduled now id at_ db).
Proof. intros Hwf. unfold mark_scheduled. destruct (policies db !! id); [by apply wf_with_policies | done]. Qed.
Lemma mark_exists now id at_ i db : schedule_exists i (mark_scheduled now id at_ db) = schedule_exists i db.
Proof. unfold mark_scheduled. by destruct (policies db !! id). Qed.

Lemma notify_quiet s (b : bool) success detail w :
  ∃ w', (if b then ret tt else notify_schedule s success detail) w = (w', Ok tt) ∧ sw_db w' = sw_db w.
Proof. destruct b; [by eexists|]. unfold notify_schedule. destruct (sc_organization_id s); by eexists. Qed.

(** The result of the run is that of its attempts. *)
Definition run_result (r : result ScheduleRunResult (option SqlError)) : result ScheduleRunResult SqlError :=
  match r with Ok x => Ok x | Err e => Err (default (Protocol "schedule execution failed") e) end.

Lemma run_locked_spec owner id c p trigger at_ s w :
  sched_wf (sw_db w) → schedule_get_by_id id (sw_db w) = Some s → sc_enabled s ≠ 0%Z →
  ∃ w' r l now, run_locked' id owner c p trigger at_ w = (w', run_result r)
    ∧ attempt_log id trigger at_ (Z.to_nat (rp_retry_count p + 1)) 1 None l r
    ∧ let db := with_log l (mark_scheduled now id at_ (sw_db w)) in
      sw_db w' = if bool_decide (c = ConcurrencyAllow) then db else release id owner db.
Proof.
  intros Hwf Hs He. unfold run_locked. unfold bind at 1, capture. rewrite (get_schedule_quiet id s) by done.
  rewrite (proj2 (Z.eqb_neq _ _) He). unfold bind at 1.
  unfold execute_ at 1, execute at 1, perform at 1. simpl. rewrite !enter_quiet.
  set (now := sw_now _). set (w1 := with_sched _ _).
  assert (schedule_exists id (sw_db w) = true) as Hex.
  { destruct (schedule_exists id (sw_db w)) eqn:E; [done|]. apply sql_first_None in E.
    unfold schedule_get_by_id in Hs. congruence. }
  destruct (attempts_spec id s p trigger at_ (Z.to_nat (rp_retry_count p + 1)) 1 None w1)
    as (w2 & r & l & Ha & Hdb & _ & Hlog); [by apply mark_wf | by simpl; rewrite mark_exists|].
  unfold bind at 1. rewrite Ha. destruct (release_quiet c id owner w2) as (w3 & Hr & Hdb3).
  unfold bind at 1. rewrite Hr. rewrite Hdb in Hdb3. change (sw_db w1) with (mark_scheduled now id at_ (sw_db w)) in Hdb3.
  destruct r as [x|e].
  - destruct (notify_quiet s (rp_notify_on_success p =? 0)%Z true (rr_message x) w3) as (w4 & Hn & Hdb4).
    unfold bind at 1. rewrite Hn. exists w4, (Ok x), l, now. by rewrite Hdb4.
  - destruct (notify_quiet s (rp_notify_on_failure p =? 0)%Z false
      (sql_error_text (default (Protocol "schedule execution failed") e)) w3) as (w4 & Hn & Hdb4).
    unfold bind at 1. rewrite Hn. exists w4, (Err e), l, now. by rewrite Hdb4.
Qed.

(** A lock that nobody holds, or that has expired, is taken at once. *)
Definition lockable (id : Z) (w : SchedWorld) : Prop :=
  ∀ l, locks (sw_db w) !! id = Some l → (lk_expires_at l ≤ sw_now w)%Z.

Lemma acquire_free id owner lease w :
  lockable id w → schedule_exists id (sw_db w) = true →
  ∃ w1, acquire_lock others id owner lease w = (w1, Ok true)
    ∧ sw_db w1 = with_locks (<[id := mkLock owner (sw_now w) (sw_now w + lease)]> (locks (sw_db w))) (sw_db w).
Proof.
  intros Hl He. unfold acquire_lock, bind, clock, execute, perform. unfold acquire. rewrite enter_quiet.
  unfold lockable in Hl. destruct (locks (sw_db w) !! id) as [l|].
  - specialize (Hl l eq_refl). rewrite (proj2 (Z.leb_le _ _) Hl). by eexists.
  - rewrite He. by eexists.
Qed.

(** Whatever the concurrency policy, the run goes on and, at the end, nobody has the lock it took. *)
Definition run_recorded (id : Z) (c : ConcurrencyPolicy) (p : RuntimePolicy)
    (trigger : ScheduleTriggerKind) (at_ : Z) (w w' : SchedWorld) (r : result ScheduleRunResult SqlError) : Prop :=
  ∃ l, rows (executions (sw_db w')) = rows (executions (sw_db w)) ++ l
    ∧ (Z.of_nat (length l) ≤ rp_retry_count p + 1)%Z
    ∧ map ex_attempt l = seqZ 1 (Z.of_nat (length l))
    ∧ map ex_status l = match r with
                        | Ok _ => replicate (length l - 1) "FAILED" ++ ["SUCCEEDED"]
                        | Err _ => replicate (Z.to_nat (rp_retry_count p + 1)) "FAILED"
                        end
    ∧ map ex_trigger_kind l = map (λ a, runtime_str (attempt_kind trigger a)) (seqZ 1 (Z.of_nat (length l)))
    ∧ Forall (λ e, ex_schedule_id e = id ∧ ex_scheduled_at e = at_ ∧ is_Some (ex_finished_at e)) l
    ∧ locks (sw_db w') = (if bool_decide (c = ConcurrencyAllow) then locks (sw_db w)
                          else base.delete id (locks (sw_db w)))
    ∧ (policies (sw_db w') !! id ≫= rp_last_scheduled_at) = Some at_
    ∧ schedules (sw_db w') = schedules (sw_db w).

Lemma run_locked_recorded owner id c p trigger at_ s w w0 lk :
  sched_wf (sw_db w) → schedule_get_by_id id (sw_db w) = Some s → sc_enabled s ≠ 0%Z →
  policies (sw_db w0) !! id = Some p → (0 ≤ rp_retry_count p)%Z →
  sw_db w = (if bool_decide (c = ConcurrencyAllow) then sw_db w0
             else with_locks (<[id := lk]> (locks (sw_db w0))) (sw_db w0)) →
  lk_owner_id lk = owner →
  let '(w', r) := run_locked' id owner c p trigger at_ w in run_recorded id c p trigger at_ w0 w' r.
Proof.
  intros Hwf Hs He Hp Hrc Hdb Ho.
  destruct (run_locked_spec owner id c p trigger at_ s w Hwf Hs He) as (w' & r & l & now & -> & Hlog & Hdb').
  apply attempt_log_facts in Hlog as (Hlen & Hatt & Hst & Hk & Hall). exists l.
  rewrite Hdb'. clear Hdb'. rewrite Hdb. clear Hdb.
  unfold mark_scheduled, release. case_bool_decide; simpl; rewrite Hp; simpl;
    [|rewrite lookup_insert_eq; simpl; rewrite (bool_decide_eq_true_2 _ Ho); simpl];
    (split_and!; [done|lia|done| by destruct r |done..|try done| |done]);
    rewrite ?lookup_insert_eq; try done. by rewrite delete_insert_eq.
Qed.

Lemma policy_known p : policy_check p = true → ∃ c : ConcurrencyPolicy,
  runtime_try_from (rp_concurrency_policy p) = Ok c.
Proof.
  unfold policy_check. intros Hp. bsimp. repeat match goal with H : _ ∧ _ |- _ => destruct H end.
  match goal with H : rp_concurrency_policy p ∈ _ |- _ =>
    rewrite !elem_of_cons, elem_of_nil in H; destruct H as [Hc|[Hc|[Hc|[]]]]; rewrite Hc end; by eexists.
Qed.

Lemma run_recorded_spec owner id trigger at_ s p w :
  sched_wf (sw_db w) → schedule_get_by_id id (sw_db w) = Some s → sc_enabled s ≠ 0%Z →
  policies (sw_db w) !! id = Some p → policy_check p = true → lockable id (asking w) →
  ∃ c, runtime_try_from (rp_concurrency_policy p) = Ok c
    ∧ let '(w', r) := run_with_policy' owner id trigger at_ w in run_recorded id c p trigger at_ w w' r.
Proof.
  intros Hwf Hs He Hp Hck Hl. destruct (policy_known p Hck) as [c Hc]. exists c. split; [done|].
  assert (0 ≤ rp_retry_count p)%Z as Hrc by (unfold policy_check in Hck; bsimp; lia).
  rewrite (run_prefix owner id trigger at_ s p c w) by done.
  assert (schedule_exists id (sw_db (asking w)) = true) as Hex.
  { rewrite asking_db. apply sql_first_Some in Hs as [Hin Hi]. by apply existsb_exists; exists s; split; [apply list_elem_of_In|]. }
  destruct (acquire_free id owner (rp_lease_seconds p) (asking w) Hl Hex) as (w1 & Ha & Hdb1).
  rewrite asking_db in *.
  assert (∀ w2, sw_db w2 = sw_db w1 → c ≠ ConcurrencyAllow →
    let '(w', r) := run_locked' id owner c p trigger at_ w2 in run_recorded id c p trigger at_ w w' r) as Hlocked.
  { intros w2 Hdb2 Hne. eapply (run_locked_recorded _ _ _ _ _ _ s); rewrite ?Hdb2, ?Hdb1; try done.
    - by apply wf_with_lock.
    - by rewrite bool_decide_eq_false_2.
    - done. }
  destruct c; unfold bind at 1.
  - rewrite Ha. by apply Hlocked.
  - unfold queue_lock. unfold bind at 1, clock. unfold bind at 1. cbn [wait_for_lock].
    unfold bind at 1. rewrite Ha. by apply Hlocked.
  - cbn -[run_locked]. eapply (run_locked_recorded _ _ _ _ _ _ s _ w (mkLock owner 0 0)); rewrite ?asking_db; done.
Qed.

(** A lock that is held makes a run of the skipping policy give up, and say so. *)
Lemma run_skipped_spec owner id trigger at_ s p l w :
  sched_wf (sw_db w) → schedule_get_by_id id (sw_db w) = Some s → sc_enabled s ≠ 0%Z →
  policies (sw_db w) !! id = Some p → rp_concurrency_policy p = "SKIP" →
  locks (sw_db w) !! id = Some l → (sw_now (asking w) < lk_expires_at l)%Z →
  ∃ w' e, run_with_policy' owner id trigger at_ w
          = (w', Err (Protocol "schedule skipped by concurrency policy"))
    ∧ sw_db w' = with_log [e] (sw_db w) ∧ ex_status e = "SKIPPED" ∧ ex_schedule_id e = id
    ∧ ex_scheduled_at e = at_ ∧ ex_trigger_kind e = runtime_str trigger ∧ is_Some (ex_finished_at e).
Proof.
  intros Hwf Hs He Hp Hc Hl Ht.
  rewrite (run_prefix owner id trigger at_ s p ConcurrencySkip w) by (try done; by rewrite Hc).
  unfold bind at 1. unfold acquire_lock, clock, execute at 1, perform at 1. unfold bind at 1.
  unfold acquire. rewrite enter_quiet, asking_db, Hl. rewrite (proj2 (Z.leb_gt _ _) Ht).
  set (w1 := enter others (asking w)).
  assert (sw_db w1 = sw_db w) as Hdb1 by (unfold w1; by rewrite enter_quiet, asking_db).
  assert (with_sched (sw_db w) w1 = w1) as -> by (rewrite <-Hdb1; apply with_sched_same). cbn [negb].
  assert (schedule_exists id (sw_db w) = true) as Hex by (by eapply sw_locks).
  destruct (attempt_spec id (sc_organization_id s) trigger 1 at_ (sw_db w) w1)
    as (e & w2 & Hb & Hdb2 & Hid & _ & Hat & Hk & Hfin); [done..|].
  unfold bind at 1. rewrite Hb.
  destruct (Hfin ExecSkipped (Some "previous execution is still active") None None w2 Hdb2)
    as (w3 & now & Hf & Hdb3 & _).
  unfold bind at 1. rewrite Hf. eexists w3, _. split_and!; [done|..]; try done.
Qed.
End record.

(** ** Theorems on scheduled runs

    The statements, with a run at a sample state for each, and the runs that show where the code
    departs from its comments and documents. *)

(** C28: Whatever the rest of the panel does between the statements of a run, as long as it
    keeps the constraints, never locks in the name of this run and does not bring deleted
    schedules back, a run of a schedule leaves no lock in its own name behind: with every
    concurrency policy, when it is skipped, fails, is disabled or deleted meanwhile, or
    succeeds. *)
Theorem lock_released `{Watch} others sql_error_text env logs swarm_exec compose_exec shell_run is_stack
    owner id trigger at_ w :
  polite others owner → free owner w →
  let '(w', _) := run_with_policy others sql_error_text env logs swarm_exec compose_exec shell_run is_stack
                    owner id trigger at_ w in
  sched_wf (sw_db w') ∧ ∀ i l, locks (sw_db w') !! i = Some l → lk_owner_id l ≠ owner.
Proof.
  intros Hp Hf. pose proof (triple_run others sql_error_text env logs swarm_exec compose_exec shell_run
    is_stack owner Hp id trigger at_ w Hf) as Hrun.
  destruct (run_with_policy _ _ _ _ _ _ _ _ _ _ _ _ _) as [w' [r|e]]; exact Hrun.
Qed.

(** C30: The loop in which a queued run waits for the lock ends, whatever the others do and
    however long the statements take: it never runs out of its fuel of the lease and two rounds,
    it ends with the lock in hand, or after the deadline, or because the schedule is gone. *)
Theorem queue_wait_ends `{Watch} others id owner lease w :
  (0 ≤ lease)%Z →
  let deadline := (sw_now w + lease)%Z in
  let '(w', r) := wait_for_lock others (S (S (Z.to_nat lease))) id owner lease deadline w in
  match r with
  | Ok None => False
  | Ok (Some true) => ∃ t, (sw_now w ≤ t ≤ sw_now w')%Z
                         ∧ locks (sw_db w') !! id = Some (mkLock owner t (t + lease))
  | Ok (Some false) => (deadline ≤ sw_now w')%Z
  | Err e => e = ForeignKeyFailed ∧ schedule_exists id (sw_db w') = false
  end.
Proof. intros Hl deadline. apply wait_ends; subst deadline; lia. Qed.

(** A lock that was free or has expired is taken, and until it expires no other run takes the
    lock of the schedule or removes it, in whatever order the others ask and release; its owner
    then gives it back. *)
Theorem lock_excludes ops db owner id now lease :
  (locks db !! id = None ∧ schedule_exists id db = true
   ∨ ∃ l, locks db !! id = Some l ∧ (lk_expires_at l ≤ now)%Z) →
  Forall (op_of_another owner (now + lease)) ops →
  let '(db1, taken) := lock_step (Acquire now id owner lease) db in
  let '(db2, log) := lock_steps ops db1 in
  taken = true
  ∧ locks db2 !! id = Some (mkLock owner now (now + lease))
  ∧ (∀ o, (o, true) ∈ log → op_schedule o ≠ id)
  ∧ locks (lock_step (Release id owner) db2).1 !! id = None.
Proof.
  intros Hfree Hops.
  set (l := mkLock owner now (now + lease)). set (db1 := with_locks (<[id := l]> (locks db)) db).
  assert (lock_step (Acquire now id owner lease) db = (db1, true)) as ->.
  { simpl. unfold acquire. destruct Hfree as [[-> ->]|(l' & -> & Hl)]; [done|].
    by rewrite (proj2 (Z.leb_le _ _) Hl). }
  assert (locks db1 !! id = Some l) as Hl by apply lookup_insert_eq.
  pose proof (lock_steps_other ops db1 owner id l Hl eq_refl Hops) as [Hl2 Hlog].
  destruct (lock_steps ops db1) as [db2 log]. simpl in Hl2, Hlog. split_and!; [done..|].
  simpl. unfold release. rewrite Hl2, bool_decide_eq_true_2 by done. simpl. apply lookup_delete_eq.
Qed.

(** When nobody else touches the tables of schedules and the lock is free, a run of an enabled
    schedule records its attempts numbered from one, at most one more than the retries, the
    first with its trigger and the others as retries, all but a successful last one failed and
    each of them finished; a failing run makes every attempt; afterwards the lock is gone and
    the time of the occurrence is stored. *)
Theorem run_is_recorded `{Watch} others sql_error_text env logs swarm_exec compose_exec shell_run is_stack
    owner id trigger at_ s p w :
  quiet others → sched_wf (sw_db w) →
  schedule_get_by_id id (sw_db w) = Some s → sc_enabled s ≠ 0%Z →
  policies (sw_db w) !! id = Some p → policy_check p = true →
  lockable id (asking others w) →
  ∃ c, runtime_try_from (rp_concurrency_policy p) = Ok c
    ∧ let '(w', r) := run_with_policy others sql_error_text env logs swarm_exec compose_exec shell_run
                        is_stack owner id trigger at_ w in
      run_recorded id c p trigger at_ w w' r.
Proof. intros Hq. by apply run_recorded_spec. Qed.

(** With the skipping policy a run that finds the lock held fails without running the command;
    it records one execution as skipped and changes nothing else in the tables of schedules. *)
Theorem busy_schedule_is_skipped `{Watch} others sql_error_text env logs swarm_exec compose_exec shell_run
    is_stack owner id trigger at_ s p l w :
  quiet others → sched_wf (sw_db w) →
  schedule_get_by_id id (sw_db w) = Some s → sc_enabled s ≠ 0%Z →
  policies (sw_db w) !! id = Some p → rp_concurrency_policy p = "SKIP" →
  locks (sw_db w) !! id = Some l → (sw_now (asking others w) < lk_expires_at l)%Z →
  ∃ w' e, run_with_policy others sql_error_text env logs swarm_exec compose_exec shell_run is_stack
            owner id trigger at_ w
          = (w', Err (Protocol "schedule skipped by concurrency policy"))
    ∧ sw_db w' = with_log [e] (sw_db w) ∧ ex_status e = "SKIPPED" ∧ ex_schedule_id e = id
    ∧ ex_scheduled_at e = at_ ∧ ex_trigger_kind e = runtime_str trigger ∧ is_Some (ex_finished_at e).
Proof. intros Hq. by apply run_skipped_spec. Qed.

(** ** A sample schedule *)

#[local] Instance schedule_watch : Watch := counted_watch.

Definition sample_schedule (enabled : Z) (command : string) : Schedule :=
  mkSchedule 1 "nightly" None "0 * * * *" "nightly-1" None "BASH" "DOKPANEL-SERVER" "EXEC" command None None
    enabled None None None None 0 0.
Definition sample_sched_db (command : string) (p : RuntimePolicy) (m : gmap Z ExecutionLock) : SchedDb :=
  mkSchedDb (mkTable [sample_schedule 1 command] 1) {[ 1%Z := p ]} empty_table m.
Definition sample_world (now : Z) (db : SchedDb) : SchedWorld := mkSchedWorld sample_sys db now 0 [].
Definition retrying (retries : Z) (missed concurrency : string) : RuntimePolicy :=
  mkPolicy retries 30 missed concurrency 60 0 0 (Some 0%Z) 0.
Definition sample_shell (_ : option Z) (_ command : string) : result (string * string) string :=
  if bool_decide (command = "backup.sh") then Ok ("done", "") else Err "exit status 1".
Definition idle (n : nat) (s : Sys) (db : SchedDb) : Sys * SchedDb * nat := (s, db, 0%nat).
(** Another run keeps asking for the lock; every statement takes a second. *)
Definition contended (n : nat) (s : Sys) (db : SchedDb) : Sys * SchedDb * nat :=
  (s, (lock_step (Acquire (Z.of_nat n) 1 "b" 60) db).1, 1%nat).
Definition error_text (e : SqlError) : string := match e with Protocol m => m | _ => "database error" end.

Notation sample_run others := (run_with_policy others error_text None "/logs" (λ _ _ _ _, Ok None)
  (λ _ _ _ _ _, Ok None) sample_shell (λ _, false)).

Lemma sample_sched_wf command p : sched_wf (sample_sched_db command p ∅).
Proof.
  split; simpl; [by apply table_check_wf|by apply table_check_wf|done|]. by intros e ?%elem_of_nil.
Qed.

Lemma contended_polite : polite contended "a".
Proof.
  intros n s db s' db' k [= <- <- <-] Hwf. simpl. unfold acquire.
  assert (∀ m, sched_wf (with_locks m db) →
    (∀ i l, m !! i = Some l → lk_owner_id l = "a" → locks db !! i = Some l) →
    sched_wf (with_locks m db)
    ∧ (∀ i l, locks (with_locks m db) !! i = Some l → lk_owner_id l = "a" → locks db !! i = Some l)
    ∧ (∀ e, e ∈ rows (executions db) → schedule_exists (ex_schedule_id e) (with_locks m db) = true →
        ∃ e', e' ∈ rows (executions db) ∧ ex_id e' = ex_id e ∧ ex_schedule_id e' = ex_schedule_id e)
    ∧ (∀ i, schedule_exists i (with_locks m db) = true → (i ≤ seq (schedules db))%Z → schedule_exists i db = true)
    ∧ (seq (schedules db) ≤ seq (schedules db))%Z) as Hm by (intros m ? ?; split_and!; eauto; lia).
  assert (∀ t, schedule_exists 1 db = true → ∀ i l,
    <[1%Z := mkLock "b" t (t + 60)]> (locks db) !! i = Some l → lk_owner_id l = "a" → locks db !! i = Some l) as Hb.
  { intros t _ i l. destruct (decide (i = 1%Z)) as [->|]; [|by rewrite lookup_insert_ne].
    rewrite lookup_insert_eq. by intros [= <-]. }
  destruct (locks db !! 1%Z) as [l|] eqn:El.
  - pose proof (sw_locks _ Hwf 1%Z l El) as He. destruct (_ <=? _)%Z; simpl.
    + apply Hm; [by apply wf_with_lock | by apply Hb].
    + split_and!; eauto; lia.
  - destruct (schedule_exists 1 db) eqn:He; simpl.
    + apply Hm; [by apply wf_with_lock | by apply Hb].
    + split_and!; eauto; lia.
Qed.

Lemma lock_released_witness :
  let '(w', _) := sample_run contended "a" 1 TriggeredByCron 0
                    (sample_world 0 (sample_sched_db "backup.sh" (retrying 1 "SKIP" "QUEUE") ∅)) in
  sched_wf (sw_db w') ∧ ∀ i l, locks (sw_db w') !! i = Some l → lk_owner_id l ≠ "a".
Proof.
  apply (lock_released contended); [apply contended_polite|].
  split; [apply sample_sched_wf|]. intros i l Hl. simpl in Hl. by rewrite lookup_empty in Hl.
Defined.

Lemma queue_wait_witness :
  let w := sample_world 0 (sample_sched_db "backup.sh" (retrying 1 "SKIP" "QUEUE") ∅) in
  let '(w', r) := wait_for_lock contended (S (S (Z.to_nat 3))) 1 "a" 3 (sw_now w + 3) w in
  match r with
  | Ok None => False
  | Ok (Some true) => ∃ t, (sw_now w ≤ t ≤ sw_now w')%Z
                         ∧ locks (sw_db w') !! 1%Z = Some (mkLock "a" t (t + 3))
  | Ok (Some false) => (sw_now w + 3 ≤ sw_now w')%Z
  | Err e => e = ForeignKeyFailed ∧ schedule_exists 1 (sw_db w') = false
  end.
Proof. intros w. apply (queue_wait_ends contended 1 "a" 3 w). lia. Defined.

Lemma lock_excludes_witness :
  let db := sample_sched_db "backup.sh" (retrying 0 "SKIP" "SKIP") {[ 1%Z := mkLock "old" 0 60 ]} in
  let db1 := (lock_step (Acquire 100 1 "a" 60) db).1 in
  let '(db2, log) := lock_steps [Acquire 101 1 "b" 60; Release 1 "b"; Acquire 159 1 "c" 60] db1 in
  locks db2 !! 1%Z = Some (mkLock "a" 100 160) ∧ log.*2 = [false; false; false].
Proof.
  intros db db1.
  destruct (lock_excludes [Acquire 101 1 "b" 60; Release 1 "b"; Acquire 159 1 "c" 60] db "a" 1 100 60)
    as (_ & Hl & _).
  - right. exists (mkLock "old" 0 60). split; [by vm_compute | simpl; lia].
  - repeat constructor; simpl; (done || lia).
  - split; [exact Hl | vm_compute; reflexivity].
Defined.

Lemma run_is_recorded_witness :
  let w := sample_world 100 (sample_sched_db "broken.sh" (retrying 2 "SKIP" "SKIP") ∅) in
  let '(w', r) := sample_run idle "a" 1 TriggeredByCron 100 w in
  run_recorded 1 ConcurrencySkip (retrying 2 "SKIP" "SKIP") TriggeredByCron 100 w w' r
  ∧ map (λ e, (ex_trigger_kind e, ex_attempt e, ex_status e)) (rows (executions (sw_db w')))
    = [("CRON", 1%Z, "FAILED"); ("RETRY", 2%Z, "FAILED"); ("RETRY", 3%Z, "FAILED")].
Proof.
  intros w.
  destruct (run_is_recorded idle error_text None "/logs" (λ _ _ _ _, Ok None) (λ _ _ _ _ _, Ok None)
    sample_shell (λ _, false) "a" 1 TriggeredByCron 100 (sample_schedule 1 "broken.sh")
    (retrying 2 "SKIP" "SKIP") w) as (c & Hc & Hrun).
  - done.
  - apply sample_sched_wf.
  - by vm_compute.
  - done.
  - by vm_compute.
  - by vm_compute.
  - intros l Hl. by vm_compute in Hl.
  - assert (c = ConcurrencySkip) as -> by (clear -Hc; vm_compute in Hc; congruence).
    destruct (sample_run idle "a" 1 TriggeredByCron 100 w) as [w' r] eqn:E. split; [exact Hrun|].
    vm_compute in E. injection E as <- _. vm_compute. reflexivity.
Defined.

Lemma busy_schedule_witness :
  ∃ w' e, sample_run idle "a" 1 TriggeredByCron 100
            (sample_world 100 (sample_sched_db "backup.sh" (retrying 2 "SKIP" "SKIP")
               {[ 1%Z := mkLock "b" 90 150 ]}))
          = (w', Err (Protocol "schedule skipped by concurrency policy"))
    ∧ rows (executions (sw_db w')) = [e] ∧ ex_status e = "SKIPPED".
Proof.
  destruct (busy_schedule_is_skipped idle error_text None "/logs" (λ _ _ _ _, Ok None)
    (λ _ _ _ _ _, Ok None) sample_shell (λ _, false) "a" 1 TriggeredByCron 100
    (sample_schedule 1 "backup.sh") (retrying 2 "SKIP" "SKIP") (mkLock "b" 90 150)
    (sample_world 100 (sample_sched_db "backup.sh" (retrying 2 "SKIP" "SKIP") {[ 1%Z := mkLock "b" 90 150 ]})))
    as (w' & e & Hr & Hdb & Hs & _).
  - done.
  - destruct (sample_sched_wf "backup.sh" (retrying 2 "SKIP" "SKIP")) as [H1 H2 _ H4]. split; try done.
    simpl. intros i l [<- _]%lookup_singleton_Some. by vm_compute.
  - by vm_compute.
  - done.
  - by vm_compute.
  - done.
  - by vm_compute.
  - simpl. lia.
  - exists w', e. split; [exact Hr|]. rewrite Hdb. by split.
Defined.

(** ** Where runs depart from the documents *)

Definition hourly (_ : string) (t : Z) : result Z string := Ok ((t / 3600 + 1) * 3600)%Z.
Definition daily_at_nine (_ : string) (t : Z) : result Z string := Ok ((t - 32400) / 86400 * 86400 + 32400 + 86400)%Z.
Notation sample_recover next := (recover_missed idle error_text None "/logs" (λ _, true) (λ _, None) next
  (λ _ _ _ _, Ok None) (λ _ _ _ _ _, Ok None) sample_shell (λ _, false)).

(** The policy [RUN_ONCE] makes up for every occurrence that was missed, one at each refresh: the
    timestamp kept is that of the occurrence, and not of the run. *)
Example run_once_runs_thrice :
  let w := sample_world 36000 (sample_sched_db "backup.sh" (retrying 0 "RUN_ONCE" "SKIP") ∅) in
  let '(w3, _) := (do! a := sample_recover hourly "a" 1 "0 0 * * * *" in
                   do! b := sample_recover hourly "b" 1 "0 0 * * * *" in
                   do! c := sample_recover hourly "c" 1 "0 0 * * * *" in ret [a; b; c]) w in
  map (λ e, (ex_trigger_kind e, ex_scheduled_at e, ex_status e)) (rows (executions (sw_db w3)))
  = [("MISSED", 3600%Z, "SUCCEEDED"); ("MISSED", 7200%Z, "SUCCEEDED"); ("MISSED", 10800%Z, "SUCCEEDED")].
Proof. by vm_compute. Qed.

(** Missed runs are looked for in UTC: a schedule of nine o'clock in Kolkata that ran on time, at half
    past three, is taken for missed at nine. *)
Example run_on_time_is_repeated :
  let p := mkPolicy 0 30 "RUN_ONCE" "SKIP" 60 0 0 (Some 12600%Z) 0 in
  let w := sample_world 32430 (sample_sched_db "backup.sh" p ∅) in
  (sample_recover daily_at_nine "a" 1 "0 0 9 * * *" w).2 = Ok true.
Proof. by vm_compute. Qed.

(** A schedule that stops an application can be created, and every run of it fails. *)
Example unsupported_action_is_accepted :
  validate_target "APPLICATION" "STOP" (Some 1%Z) None None None = Ok tt
  ∧ parse_schedule_application_operation "STOP"
    = Err (Protocol "application schedule command must be deploy, redeploy, rebuild, reload or start").
Proof. by vm_compute. Qed.

(** The policy that skips overlapping runs does not keep a lock through the retries: the lease of a
    minute runs out, another run starts, and the attempts of the first go on beside it. *)
Definition rival (n : nat) (s : Sys) (db : SchedDb) : Sys * SchedDb * nat :=
  (s, if bool_decide (n = 9) then (lock_step (Acquire 60 1 "b" 60) db).1 else db, 0%nat).
Example retries_outlive_the_lease :
  let w := sample_world 0 (sample_sched_db "broken.sh" (retrying 3 "SKIP" "SKIP") ∅) in
  let '(w', _) := sample_run rival "a" 1 TriggeredByCron 0 w in
  (locks (sw_db w') !! 1%Z = Some (mkLock "b" 60 120))
  ∧ map ex_started_at (rows (executions (sw_db w'))) = [0; 30; 60; 90]%Z.
Proof. by vm_compute. Qed.

(** The retries of a schedule go on after it has been disabled. *)
Definition disabling (n : nat) (s : Sys) (db : SchedDb) : Sys * SchedDb * nat :=
  (s, if bool_decide (n = 7) then match schedule_set_enabled 1 1 false db with Ok (db', _) => db' | Err _ => db end
      else db, 0%nat).
Example disabled_schedule_is_retried :
  let w := sample_world 0 (sample_sched_db "broken.sh" (retrying 1 "SKIP" "SKIP") ∅) in
  let '(w', _) := sample_run disabling "a" 1 TriggeredByCron 0 w in
  map (λ s, (sc_enabled s, sc_updated_at s)) (rows (schedules (sw_db w'))) = [(0, 1)]%Z
  ∧ map (λ e, (ex_started_at e, ex_status e)) (rows (executions (sw_db w')))
    = [(0%Z, "FAILED"); (30%Z, "FAILED")].
Proof. by vm_compute. Qed.
