(* ===== verification/ScheduleRunner.v ===== *)
(** * The runner of schedules and backups

    [src/services/schedule/runner.rs].  [refresh_jobs] compares the enabled schedules and backups with
    the jobs it registered in the cron scheduler, which is a map from job ids to what they run; the
    cron library's parser, the names of time zones and the outcome of its [add] and [remove] are
    parameters.  The callback of a backup guards its run with the set of runs in flight and the
    slots of a semaphore, here as a machine whose events come in any order. *)

From stdpp Require Import gmap strings list.
From Stdlib Require Import ZArith Lia Ascii.
From S2P Require Import Prelude RustStr RustText StringEnum Sql DeploymentDb ApplicationState BuilderQueue DeploymentService ServiceProps ScheduleDb ScheduleService ScheduleFacts.

Definition normalize_cron_expression (value : string) : string :=
  let trimmed := trim value in
  if bool_decide (length (split_whitespace trimmed) = 5) then "0 " +:+ trimmed else trimmed.

Definition backup_is_enabled (enabled : option Z) : bool := bool_decide (enabled = Some 1%Z).

(** The columns of [backups] and [volume_backups] that the runner reads *)
Record BackupRow := mkBackupRow { bk_id : Z; bk_schedule : string; bk_enabled : Z }.
Record VolumeBackupRow := mkVolumeBackupRow {
  vb_id : Z; vb_cron_expression : string; vb_enabled : Z; vb_service_type : string;
  vb_application_id : option Z; vb_compose_id : option Z; vb_postgres_id : option Z; vb_mysql_id : option Z;
  vb_mariadb_id : option Z; vb_mongo_id : option Z; vb_redis_id : option Z; vb_libsql_id : option Z;
}.

Inductive VolumeService :=
  | VolApplication | VolCompose | VolPostgres | VolMysql | VolMariadb | VolMongo | VolMongodb | VolRedis | VolLibsql.
#[export] Instance VolumeService_eq_dec : EqDecision VolumeService.
Proof. solve_decision. Defined.
#[export] Instance VolumeService_enum : StringEnum VolumeService := {|
  enum_table := [(VolApplication, "APPLICATION"); (VolCompose, "COMPOSE"); (VolPostgres, "POSTGRES");
                 (VolMysql, "MYSQL"); (VolMariadb, "MARIADB"); (VolMongo, "MONGO"); (VolMongodb, "MONGODB");
                 (VolRedis, "REDIS"); (VolLibsql, "LIBSQL")];
  enum_default := VolApplication;
|}.

Definition volume_backup_has_valid_resource (b : VolumeBackupRow) : bool :=
  match from_str (vb_service_type b) with
  | Some VolApplication => bool_decide (is_Some (vb_application_id b))
  | Some VolCompose => bool_decide (is_Some (vb_compose_id b))
  | Some VolPostgres => bool_decide (is_Some (vb_postgres_id b))
  | Some VolMysql => bool_decide (is_Some (vb_mysql_id b))
  | Some VolMariadb => bool_decide (is_Some (vb_mariadb_id b))
  | Some VolMongo | Some VolMongodb => bool_decide (is_Some (vb_mongo_id b))
  | Some VolRedis => bool_decide (is_Some (vb_redis_id b))
  | Some VolLibsql => bool_decide (is_Some (vb_libsql_id b))
  | None => false
  end.

(** ** The jobs *)

Record RegisteredScheduleJob := mkRegistered {
  rj_job_id : nat; rj_cron_expression : string; rj_enabled : Z; rj_timezone : string;
}.
(** A job of the cron scheduler: the key its callback runs, and when *)
Record CronJob := mkCronJob { cj_key : string; cj_cron : string; cj_timezone : string }.

Record Runner := mkRunner {
  ru_jobs : gmap string RegisteredScheduleJob;
  ru_scheduler : gmap nat CronJob;
  ru_in_flight : gset string;
  (* job ids are fresh *)
  ru_next : nat;
}.

Section refresh.
Context `{Watch}.
Context (cron_ok tz_ok : string → bool) (add_ok remove_ok : nat → bool).

Definition remove_job (key : string) (job : nat) (st : Runner) : Runner :=
  mkRunner (base.delete key (ru_jobs st))
    (if remove_ok job then base.delete job (ru_scheduler st) else ru_scheduler st)
    (ru_in_flight st ∖ {[ key ]}) (ru_next st).

Definition register_job (key cron : string) (enabled : Z) (timezone : string) (st : Runner) : Runner :=
  if negb (cron_ok cron) then st else
  let job := ru_next st in
  if negb (add_ok job) then mkRunner (ru_jobs st) (ru_scheduler st) (ru_in_flight st) (S job)
  else mkRunner (<[key := mkRegistered job cron enabled timezone]> (ru_jobs st))
         (<[job := mkCronJob key cron timezone]> (ru_scheduler st)) (ru_in_flight st) (S job).

(** [by_timezone]: whether another time zone replaces the job *)
Definition sync_job (by_timezone : bool) (current : gmap string RegisteredScheduleJob) (key cron : string)
    (enabled : Z) (timezone : string) (st : Runner) : Runner :=
  match current !! key with
  | Some r =>
      if negb (bool_decide (rj_cron_expression r = cron)) || negb (rj_enabled r =? enabled)%Z
         || by_timezone && negb (bool_decide (rj_timezone r = timezone))
      then register_job key cron enabled timezone (remove_job key (rj_job_id r) st)
      else st
  | None => register_job key cron enabled timezone st
  end.

Definition schedule_key (id : Z) : string := "schedule:" +:+ i64_to_string id.
Definition db_backup_key (id : Z) : string := "db_backup:" +:+ i64_to_string id.
Definition vol_backup_key (id : Z) : string := "vol_backup:" +:+ i64_to_string id.

Definition schedule_timezone (s : Schedule) : string := default "UTC" (sc_timezone s).

Definition remove_stale (enabled_keys : list string) (st : Runner) : Runner :=
  foldl (λ st p, if bool_decide (p.1 ∈ enabled_keys) then st else remove_job p.1 (rj_job_id p.2) st)
    st (map_to_list (ru_jobs st)).

(** [recover] is [recover_missed] with a new owner, its error logged *)
Definition refresh_schedule (recover : Z → string → SchedWorld → SchedWorld)
    (current : gmap string RegisteredScheduleJob) (st : Runner * SchedWorld) (s : Schedule) : Runner * SchedWorld :=
  let cron := normalize_cron_expression (sc_cron_expression s) in
  let timezone := schedule_timezone s in
  if negb (tz_ok timezone) then st else
  (sync_job true current (schedule_key (sc_id s)) cron (sc_enabled s) timezone st.1, recover (sc_id s) cron st.2).

Definition refresh_db_backup (current : gmap string RegisteredScheduleJob) (st : Runner) (b : BackupRow) : Runner :=
  sync_job false current (db_backup_key (bk_id b)) (normalize_cron_expression (bk_schedule b)) (bk_enabled b) "UTC" st.
Definition refresh_vol_backup (current : gmap string RegisteredScheduleJob) (st : Runner) (b : VolumeBackupRow) : Runner :=
  sync_job false current (vol_backup_key (vb_id b)) (normalize_cron_expression (vb_cron_expression b))
    (vb_enabled b) "UTC" st.

Definition enabled_db_backups (backups : list BackupRow) : list BackupRow :=
  List.filter (λ b, bk_enabled b =? 1)%Z backups.
Definition enabled_vol_backups (backups : list VolumeBackupRow) : list VolumeBackupRow :=
  List.filter (λ b, (vb_enabled b =? 1)%Z && volume_backup_has_valid_resource b) backups.

Definition refresh_jobs (recover : Z → string → SchedWorld → SchedWorld) (all_backups : list BackupRow)
    (all_volumes : list VolumeBackupRow) (st : Runner * SchedWorld) : Runner * SchedWorld :=
  let schedules := list_enabled (sw_db st.2) in
  let db_backups := enabled_db_backups all_backups in
  let vol_backups := enabled_vol_backups all_volumes in
  let enabled_keys := map (λ s, schedule_key (sc_id s)) schedules
                      ++ map (λ b, db_backup_key (bk_id b)) db_backups
                      ++ map (λ b, vol_backup_key (vb_id b)) vol_backups in
  let st0 := remove_stale enabled_keys st.1 in
  let current := ru_jobs st0 in
  let '(st1, w) := foldl (refresh_schedule recover current) (st0, st.2) schedules in
  let st2 := foldl (refresh_db_backup current) st1 db_backups in
  (foldl (refresh_vol_backup current) st2 vol_backups, w).

(** [recover_missed] as the runner calls it: each call has an owner of its own, and an error is logged *)
Definition recovering others sql_error_text env logs valid_timestamp cron_error next_occurrence swarm_exec
    compose_exec shell_run is_stack (owners : nat → string) (id : Z) (cron : string) (w : SchedWorld) : SchedWorld :=
  (recover_missed others sql_error_text env logs valid_timestamp cron_error next_occurrence swarm_exec
     compose_exec shell_run is_stack (owners (sw_step w)) id cron w).1.
End refresh.

(** ** The callback of a backup *)

(** [BACKGROUND_BACKUP_CONCURRENCY], two when it is not a number, at least one *)
Definition backup_capacity (env : option nat) : nat := Nat.max (default 2 env) 1.

(** The runs that wait for a slot and the ones that have it, by their keys *)
Record BackupRuns := mkBackupRuns { br_in_flight : gset string; br_waiting : list string; br_running : list string }.

Inductive BackupEvent :=
  | Tick (key : string) (enabled : option Z)     (* the cron callback *)
  | Granted (key : string)                       (* the semaphore lets a run go on *)
  | Finished (key : string)                      (* the backup returned *)
  | JobRemoved (key : string).                   (* [remove_job] *)

Definition remove_one (key : string) (l : list string) : list string :=
  match list_find (λ k, k = key) l with Some (i, _) => base.delete i l | None => l end.

Definition backup_step (capacity : nat) (e : BackupEvent) (st : BackupRuns) : BackupRuns :=
  match e with
  | Tick key enabled =>
      if negb (backup_is_enabled enabled) || bool_decide (key ∈ br_in_flight st) then st
      else mkBackupRuns ({[ key ]} ∪ br_in_flight st) (br_waiting st ++ [key]) (br_running st)
  | Granted key =>
      if bool_decide (key ∈ br_waiting st) && bool_decide (length (br_running st) < capacity)
      then mkBackupRuns (br_in_flight st) (remove_one key (br_waiting st)) (br_running st ++ [key])
      else st
  | Finished key =>
      if bool_decide (key ∈ br_running st)
      then mkBackupRuns (br_in_flight st ∖ {[ key ]}) (br_waiting st) (remove_one key (br_running st))
      else st
  | JobRemoved key => mkBackupRuns (br_in_flight st ∖ {[ key ]}) (br_waiting st) (br_running st)
  end.
Definition backup_steps (capacity : nat) (l : list BackupEvent) (st : BackupRuns) : BackupRuns :=
  foldl (λ st e, backup_step capacity e st) st l.

(** * Properties of the runner

    A refresh leaves exactly the jobs of the enabled schedules and backups registered, each once and
    as it is configured now, and the cron scheduler with those jobs and no other.  Backups run
    within the slots, and one at a time for each key as long as its job is not replaced. *)

Section facts.
Context `{Watch}.
Context (cron_ok tz_ok : string → bool) (add_ok remove_ok : nat → bool).

(** The jobs that are registered are those of the cron scheduler. *)
Record synced (st : Runner) : Prop := {
  sy_job : ∀ key r, ru_jobs st !! key = Some r →
    ru_scheduler st !! rj_job_id r = Some (mkCronJob key (rj_cron_expression r) (rj_timezone r))
    ∧ cron_ok (rj_cron_expression r) = true;
  sy_only : ∀ job c, ru_scheduler st !! job = Some c →
    job < ru_next st ∧ ∃ r, ru_jobs st !! cj_key c = Some r ∧ rj_job_id r = job;
}.

(** The cron scheduler takes and gives back jobs without errors. *)
Definition scheduler_works : Prop := (∀ j, add_ok j = true) ∧ (∀ j, remove_ok j = true).
Hypothesis Hworks : scheduler_works.

Lemma remove_synced key r st :
  synced st → ru_jobs st !! key = Some r → synced (remove_job remove_ok key (rj_job_id r) st).
Proof.
  intros [Hj Ho] Hr. unfold remove_job. rewrite (proj2 Hworks). split; simpl.
  - intros k r' (Hne & Hr')%lookup_delete_Some. destruct (Hj k r' Hr') as [Hs Hc]. split; [|done].
    rewrite lookup_delete_ne; [done|]. intros He.
    destruct (Hj key r Hr) as [Hs' _]. rewrite He in Hs'. congruence.
  - intros job c (Hne & Hc)%lookup_delete_Some. destruct (Ho job c Hc) as (Hlt & r' & Hr' & Hid).
    split; [done|]. exists r'. split; [|done]. rewrite lookup_delete_ne; [done|]. intros He.
    rewrite <-He, Hr in Hr'. simplify_eq.
Qed.

Lemma register_synced key cron enabled timezone st :
  synced st → ru_jobs st !! key = None → synced (register_job cron_ok add_ok key cron enabled timezone st).
Proof.
  intros [Hj Ho] Hk. unfold register_job. destruct (cron_ok cron) eqn:Hc; simpl; [|done].
  rewrite (proj1 Hworks). simpl. split; simpl.
  - intros k r. destruct (decide (k = key)) as [->|Hne].
    + rewrite lookup_insert_eq. intros [= <-]. simpl. by rewrite lookup_insert_eq.
    + rewrite lookup_insert_ne by done. intros Hr. destruct (Hj k r Hr) as [Hs Hc']. split; [|done].
      rewrite lookup_insert_ne; [done|]. intros He. apply Ho in Hs as [? _]. lia.
  - intros job c. destruct (decide (job = ru_next st)) as [->|Hne].
    + rewrite lookup_insert_eq. intros [= <-]. split; [lia|]. simpl. rewrite lookup_insert_eq. by eexists.
    + rewrite lookup_insert_ne by done. intros Hs. destruct (Ho job c Hs) as (? & r & Hr & Hid).
      split; [lia|]. exists r. split; [|done]. rewrite lookup_insert_ne; [done|]. congruence.
Qed.

Lemma register_other key cron enabled timezone st k :
  k ≠ key → ru_jobs (register_job cron_ok add_ok key cron enabled timezone st) !! k = ru_jobs st !! k.
Proof.
  intros Hne. unfold register_job. destruct (cron_ok cron); [|done]. simpl.
  destruct (add_ok _); [|done]. simpl. by rewrite lookup_insert_ne.
Qed.

(** What a key should be registered as, when its expression can be read *)
Definition registered_as (by_timezone : bool) (cron : string) (enabled : Z) (timezone : string)
    (o : option RegisteredScheduleJob) : Prop :=
  if cron_ok cron then
    ∃ r, o = Some r ∧ rj_cron_expression r = cron ∧ rj_enabled r = enabled
         ∧ (by_timezone = true → rj_timezone r = timezone)
  else o = None.

Lemma register_self by_timezone key cron enabled timezone st :
  ru_jobs st !! key = None →
  registered_as by_timezone cron enabled timezone
    (ru_jobs (register_job cron_ok add_ok key cron enabled timezone st) !! key).
Proof.
  intros Hk. unfold registered_as, register_job. destruct (cron_ok cron); simpl; [|done].
  rewrite (proj1 Hworks). simpl. rewrite lookup_insert_eq. by eexists.
Qed.

(** A step of the refresh: its own key as configured, the other keys as they were *)
Lemma sync_spec by_timezone current key cron enabled timezone st
    (st' := sync_job cron_ok add_ok remove_ok by_timezone current key cron enabled timezone st) :
  synced st → ru_jobs st !! key = current !! key →
  synced st' ∧ registered_as by_timezone cron enabled timezone (ru_jobs st' !! key)
  ∧ ∀ k, k ≠ key → ru_jobs st' !! k = ru_jobs st !! k.
Proof.
  intros Hsy Hk. subst st'. unfold sync_job. rewrite <-Hk.
  destruct (ru_jobs st !! key) as [r|] eqn:Er.
  - destruct (_ || _) eqn:Hrep.
    + assert (ru_jobs (remove_job remove_ok key (rj_job_id r) st) !! key = None) as Hnone by apply lookup_delete_eq.
      split_and!; [by apply register_synced, Hnone; apply remove_synced | by apply register_self|].
      intros k Hne. rewrite register_other by done. by apply lookup_delete_ne.
    + split_and!; [done| |done]. destruct (sy_job _ Hsy key r Er) as [_ Hc].
      apply orb_false_iff in Hrep as [[Hcr%negb_false_iff Hen%negb_false_iff]%orb_false_iff Htz]. bsimp.
      unfold registered_as. rewrite Hcr in Hc. rewrite Hc, Er. exists r. split_and!; [done..|]. intros ->.
      simpl in Htz. apply negb_false_iff in Htz. by bsimp.
  - split_and!; [by apply register_synced | by apply register_self |]. intros k Hne. by apply register_other.
Qed.

(** A sequence of such steps, on different keys *)
Record Wanted := mkWanted { wa_by_timezone : bool; wa_key : string; wa_cron : string; wa_enabled : Z; wa_timezone : string }.
Definition sync_wanted (current : gmap string RegisteredScheduleJob) (st : Runner) (e : Wanted) : Runner :=
  sync_job cron_ok add_ok remove_ok (wa_by_timezone e) current (wa_key e) (wa_cron e) (wa_enabled e) (wa_timezone e) st.

Lemma sync_all current l : ∀ st,
  NoDup (map wa_key l) → synced st → (∀ e, e ∈ l → ru_jobs st !! wa_key e = current !! wa_key e) →
  let st' := foldl (sync_wanted current) st l in
  synced st'
  ∧ (∀ e, e ∈ l → registered_as (wa_by_timezone e) (wa_cron e) (wa_enabled e) (wa_timezone e)
                    (ru_jobs st' !! wa_key e))
  ∧ ∀ k, k ∉ map wa_key l → ru_jobs st' !! k = ru_jobs st !! k.
Proof.
  induction l as [|e l IH]; intros st Hnd Hsy Hcur; simpl.
  { split_and!; [done| |done]. by intros e ?%elem_of_nil. }
  apply NoDup_cons in Hnd as [Hnin Hnd].
  destruct (sync_spec (wa_by_timezone e) current (wa_key e) (wa_cron e) (wa_enabled e) (wa_timezone e) st Hsy)
    as (Hsy1 & Hself & Hother); [apply Hcur, elem_of_cons; by left|].
  fold (sync_wanted current st e) in *.
  destruct (IH (sync_wanted current st e) Hnd Hsy1) as (Hsy2 & Hall & Hrest).
  { intros e' He'. rewrite Hother; [apply Hcur, elem_of_cons; by right|].
    intros Heq. apply Hnin. rewrite <-Heq. apply elem_of_mapb. by exists e'. }
  split_and!; [done| |].
  - intros e' [->|He']%elem_of_cons; [|by apply Hall]. by rewrite Hrest.
  - intros k [? ?]%not_elem_of_cons. rewrite Hrest by done. by apply Hother.
Qed.

Lemma remove_stale_fold (enabled_keys : list string) l : ∀ st,
  NoDup l.*1 → synced st → (∀ p, p ∈ l → ru_jobs st !! p.1 = Some p.2) →
  let st' := foldl (λ st p, if bool_decide (p.1 ∈ enabled_keys) then st
                            else remove_job remove_ok p.1 (rj_job_id p.2) st) st l in
  synced st' ∧ ∀ k, ru_jobs st' !! k = if bool_decide (k ∈ enabled_keys) then ru_jobs st !! k
                                       else if bool_decide (k ∈ l.*1) then None else ru_jobs st !! k.
Proof.
  induction l as [|[key r] l IH]; intros st Hnd Hsy Hl; simpl.
  { split; [done|]. intros k. by case_bool_decide. }
  apply NoDup_cons in Hnd as [Hnin Hnd]. assert (ru_jobs st !! key = Some r) as Hr by (apply (Hl (key, r)), elem_of_cons; by left).
  set (st1 := if bool_decide (key ∈ enabled_keys) then st else _).
  assert (synced st1) as Hsy1 by (unfold st1; case_bool_decide; [done | by apply remove_synced]).
  assert (∀ k, k ≠ key → ru_jobs st1 !! k = ru_jobs st !! k) as Hst1.
  { intros k Hne. unfold st1. case_bool_decide; [done|]. simpl. by rewrite lookup_delete_ne. }
  destruct (IH st1 Hnd Hsy1) as [Hsy2 Hk].
  { intros p Hp. rewrite Hst1; [apply Hl, elem_of_cons; by right|]. intros Heq. apply Hnin.
    rewrite <-Heq. apply list_elem_of_fmap. by exists p. }
  split; [done|]. intros k. rewrite Hk. destruct (decide (k = key)) as [->|Hne].
  - unfold st1. case_bool_decide as He; [done|]. simpl. rewrite lookup_delete_eq.
    by rewrite (bool_decide_eq_true_2 (key ∈ _ :: _)) by (apply elem_of_cons; by left); case_bool_decide.
  - rewrite Hst1 by done. case_bool_decide; [done|]. f_equal.
    do 2 case_bool_decide; rewrite ?elem_of_cons in *; naive_solver.
Qed.

Lemma remove_stale_spec (enabled_keys : list string) st :
  synced st →
  synced (remove_stale remove_ok enabled_keys st)
  ∧ ∀ k, ru_jobs (remove_stale remove_ok enabled_keys st) !! k
         = if bool_decide (k ∈ enabled_keys) then ru_jobs st !! k else None.
Proof.
  intros Hsy. destruct (remove_stale_fold enabled_keys (map_to_list (ru_jobs st)) st) as [Hsy' Hk].
  - apply NoDup_fst_map_to_list.
  - done.
  - by intros [k r] ?%elem_of_map_to_list.
  - split; [done|]. intros k. unfold remove_stale. rewrite Hk. case_bool_decide; [done|].
    case_bool_decide as Hin; [done|]. destruct (ru_jobs st !! k) as [r|] eqn:Er; [|done].
    exfalso. apply Hin. apply list_elem_of_fmap. exists (k, r). split; [done|]. by apply elem_of_map_to_list.
Qed.

(** *** The jobs that are wanted *)

Definition wanted_schedule (s : Schedule) : Wanted :=
  mkWanted true (schedule_key (sc_id s)) (normalize_cron_expression (sc_cron_expression s)) (sc_enabled s)
    (schedule_timezone s).
Definition wanted_db_backup (b : BackupRow) : Wanted :=
  mkWanted false (db_backup_key (bk_id b)) (normalize_cron_expression (bk_schedule b)) (bk_enabled b) "UTC".
Definition wanted_vol_backup (b : VolumeBackupRow) : Wanted :=
  mkWanted false (vol_backup_key (vb_id b)) (normalize_cron_expression (vb_cron_expression b)) (vb_enabled b) "UTC".
Definition wanted (l : list Schedule) (backups : list BackupRow) (volumes : list VolumeBackupRow) : list Wanted :=
  map wanted_schedule l ++ map wanted_db_backup (enabled_db_backups backups)
  ++ map wanted_vol_backup (enabled_vol_backups volumes).

(** The schedules whose time zone is known *)
Definition known (l : list Schedule) : list Schedule := List.filter (λ s, tz_ok (schedule_timezone s)) l.

Lemma refresh_schedules_fold recover current l : ∀ st w,
  (foldl (refresh_schedule cron_ok tz_ok add_ok remove_ok recover current) (st, w) l).1
  = foldl (sync_wanted current) st (map wanted_schedule (known l)).
Proof.
  induction l as [|s l IH]; intros st w; simpl; [done|].
  unfold refresh_schedule at 2. destruct (tz_ok (schedule_timezone s)); simpl; by rewrite IH.
Qed.

Lemma foldl_map {A B C} (f : A → B → A) (g : C → B) (l : list C) : ∀ a,
  foldl (λ a c, f a (g c)) a l = foldl f a (map g l).
Proof. induction l as [|c l IH]; intros a; simpl; [done | apply IH]. Qed.

Lemma refresh_is_sync recover backups volumes st w (l := list_enabled (sw_db w)) :
  let st0 := remove_stale remove_ok (map wa_key (wanted l backups volumes)) st in
  (refresh_jobs cron_ok tz_ok add_ok remove_ok recover backups volumes (st, w)).1
  = foldl (sync_wanted (ru_jobs st0)) st0 (wanted (known l) backups volumes).
Proof.
  intros st0. unfold refresh_jobs. cbn [fst snd]. fold l.
  assert (map (λ s, schedule_key (sc_id s)) l ++ map (λ b, db_backup_key (bk_id b)) (enabled_db_backups backups)
    ++ map (λ b, vol_backup_key (vb_id b)) (enabled_vol_backups volumes) = map wa_key (wanted l backups volumes)) as ->.
  { unfold wanted. rewrite !map_app, !map_map. done. }
  fold st0. pose proof (refresh_schedules_fold recover (ru_jobs st0) l st0 w) as Hs.
  destruct (foldl _ (st0, w) l) as [st1 w1]. simpl in *. unfold wanted. rewrite !foldl_app, <-Hs.
  unfold refresh_db_backup, refresh_vol_backup.
  rewrite <-(foldl_map (sync_wanted (ru_jobs st0)) wanted_db_backup).
  by rewrite <-(foldl_map (sync_wanted (ru_jobs st0)) wanted_vol_backup).
Qed.

Lemma NoDup_keys {A} (key : Z → string) (id : A → Z) (l : list A) :
  (∀ a b, key a = key b → a = b) → NoDup (map id l) → NoDup (map (λ a, key (id a)) l).
Proof.
  intros Hinj. rewrite <-(map_map id key). generalize (map id l). clear l. intros l Hl.
  induction Hl as [|z l Hnin _ IH]; simpl; constructor; [|done].
  by intros (z' & ->%Hinj & Hz)%elem_of_mapb.
Qed.

Lemma NoDup_filter_ids {A} (id : A → Z) p (l : list A) :
  NoDup (map id l) → NoDup (map id (List.filter p l)).
Proof. intros Hl. eapply sublist_NoDup; [exact Hl|]. apply fmap_sublist, filterb_sublist. Qed.

Lemma wanted_keys l backups volumes :
  NoDup (map sc_id l) → NoDup (map bk_id backups) → NoDup (map vb_id volumes) →
  NoDup (map wa_key (wanted l backups volumes)).
Proof.
  intros Hl Hb Hv. unfold wanted. rewrite !map_app, !map_map. cbn [wa_key wanted_schedule wanted_db_backup wanted_vol_backup].
  apply NoDup_app. split_and!; [|intros k (s & -> & _)%elem_of_mapb [(b & He & _)%elem_of_mapb|(b & He & _)%elem_of_mapb]%elem_of_app; done|].
  { apply NoDup_keys; [|done]. intros a b [= He]. by apply i64_to_string_inj. }
  apply NoDup_app. split_and!; [|intros k (s & -> & _)%elem_of_mapb (b & He & _)%elem_of_mapb; done|].
  - apply NoDup_keys; [|by apply NoDup_filter_ids]. intros a b [= He]. by apply i64_to_string_inj.
  - apply NoDup_keys; [|by apply NoDup_filter_ids]. intros a b [= He]. by apply i64_to_string_inj.
Qed.

(** A schedule whose time zone is not known shares its key with nothing that is synchronised. *)
Lemma unknown_key l backups volumes s :
  NoDup (map sc_id l) → s ∈ l → tz_ok (schedule_timezone s) = false →
  schedule_key (sc_id s) ∉ map wa_key (wanted (known l) backups volumes).
Proof.
  intros Hnd Hs Htz (e & He & Hin)%elem_of_mapb. revert He. unfold wanted in Hin. rewrite !elem_of_app in Hin.
  destruct Hin as [(s' & -> & Hs')%elem_of_mapb|[(b & -> & _)%elem_of_mapb|(b & -> & _)%elem_of_mapb]];
    [simpl|done|done].
  intros [= Hid%i64_to_string_inj]. apply elem_of_filterb in Hs' as [Hs' Htz'].
  assert (s = s') as <-; [|congruence]. apply list_elem_of_lookup in Hs as [i Hi], Hs' as [j Hj].
  assert (i = j) as ->; [|congruence].
  eapply (NoDup_lookup (map sc_id l)); [done| |]; rewrite list_lookup_fmap; [by rewrite Hi | by rewrite Hj, Hid].
Qed.

Lemma refresh_spec recover backups volumes st w (l := list_enabled (sw_db w)) :
  synced st → NoDup (map sc_id l) → NoDup (map bk_id backups) → NoDup (map vb_id volumes) →
  let st' := (refresh_jobs cron_ok tz_ok add_ok remove_ok recover backups volumes (st, w)).1 in
  synced st'
  ∧ (∀ e, e ∈ wanted (known l) backups volumes →
       registered_as (wa_by_timezone e) (wa_cron e) (wa_enabled e) (wa_timezone e) (ru_jobs st' !! wa_key e))
  ∧ (∀ s, s ∈ l → tz_ok (schedule_timezone s) = false →
       ru_jobs st' !! schedule_key (sc_id s) = ru_jobs st !! schedule_key (sc_id s))
  ∧ ∀ key, is_Some (ru_jobs st' !! key) → key ∈ map wa_key (wanted l backups volumes).
Proof.
  intros Hsy Hl Hb Hv. rewrite refresh_is_sync. fold l.
  destruct (remove_stale_spec (map wa_key (wanted l backups volumes)) st Hsy) as [Hsy0 Hk0].
  set (st0 := remove_stale _ _ st) in *.
  destruct (sync_all (ru_jobs st0) (wanted (known l) backups volumes) st0) as (Hsy1 & Hall & Hrest);
    [by apply wanted_keys; [apply NoDup_filter_ids|..]|done..|].
  assert (∀ s, s ∈ l → schedule_key (sc_id s) ∈ map wa_key (wanted l backups volumes)) as Hkey.
  { intros s Hs. apply elem_of_mapb. exists (wanted_schedule s). split; [done|]. apply elem_of_app. left.
    apply elem_of_mapb. eauto. }
  split_and!; [done..| |].
  - intros s Hs Htz. rewrite Hrest, Hk0 by (by apply unknown_key). by rewrite bool_decide_eq_true_2 by auto.
  - intros key Hsome. destruct (decide (key ∈ map wa_key (wanted l backups volumes))) as [|Hn]; [done|].
    rewrite Hrest, Hk0, bool_decide_eq_false_2 in Hsome; [by destruct Hsome|done|].
    intros Hin. apply Hn. revert Hin. unfold wanted. rewrite !map_app, !elem_of_app. intros [Hin|Hin]; [left|by right].
    apply elem_of_mapb in Hin as (e & -> & (s & -> & [Hs _]%elem_of_filterb)%elem_of_mapb).
    apply elem_of_mapb. exists (wanted_schedule s). split; [done|]. apply elem_of_mapb. eauto.
Qed.

(** ** Refreshes one after the other *)

(** What a refresh finds: the rows it reads, what the callbacks have in flight, and what the
    recovery of missed runs does *)
Record Refresh := mkRefresh {
  rf_recover : Z → string → SchedWorld → SchedWorld;
  rf_backups : list BackupRow;
  rf_volumes : list VolumeBackupRow;
  rf_world : SchedWorld;
  rf_in_flight : gset string;
}.
Definition refresh_ok (r : Refresh) : Prop :=
  NoDup (map sc_id (list_enabled (sw_db (rf_world r))))
  ∧ NoDup (map bk_id (rf_backups r)) ∧ NoDup (map vb_id (rf_volumes r)).

Definition refresh_once (st : Runner) (r : Refresh) : Runner :=
  (refresh_jobs cron_ok tz_ok add_ok remove_ok (rf_recover r) (rf_backups r) (rf_volumes r)
     (mkRunner (ru_jobs st) (ru_scheduler st) (rf_in_flight r) (ru_next st), rf_world r)).1.
Definition refreshes (l : list Refresh) : Runner := foldl refresh_once (mkRunner ∅ ∅ ∅ 0) l.

Lemma in_flight_synced st fl :
  synced st → synced (mkRunner (ru_jobs st) (ru_scheduler st) fl (ru_next st)).
Proof. intros [Hj Ho]. by split. Qed.

Lemma refreshes_synced l : Forall refresh_ok l → synced (refreshes l).
Proof.
  unfold refreshes. assert (synced (mkRunner ∅ ∅ ∅ 0)) as H0
    by (split; intros ?? Hx; simpl in Hx; by rewrite lookup_empty in Hx).
  revert H0. generalize (mkRunner ∅ ∅ ∅ 0). induction l as [|r l IH]; intros st Hsy; [done|].
  intros [(H1 & H2 & H3) Hl]%Forall_cons. simpl. apply IH; [|done].
  by apply refresh_spec; [apply in_flight_synced|..].
Qed.
End facts.


(** ** Backups in flight *)

Lemma remove_one_perm key l : key ∈ l → l ≡ₚ key :: remove_one key l.
Proof.
  intros Hin. unfold remove_one. destruct (list_find (λ k, k = key) l) as [[i k]|] eqn:E.
  - apply list_find_Some in E as (Hi & -> & _). by apply delete_Permutation.
  - apply list_find_None in E. rewrite Forall_forall in E. by destruct (E key Hin).
Qed.

(** Runs, waiting or not *)
Definition br_runs (st : BackupRuns) : list string := br_waiting st ++ br_running st.
Record exclusive (st : BackupRuns) : Prop := {
  xc_nodup : NoDup (br_runs st);
  xc_in_flight : ∀ key, key ∈ br_in_flight st ↔ key ∈ br_runs st;
}.
Definition keeps_job (e : BackupEvent) : Prop := match e with JobRemoved _ => False | _ => True end.

Lemma backup_step_capacity capacity e st :
  length (br_running st) ≤ capacity → length (br_running (backup_step capacity e st)) ≤ capacity.
Proof.
  intros Hl. destruct e as [key en|key|key|key]; simpl; [| | |done].
  - by destruct (_ || _).
  - destruct (_ && _) eqn:E; [|done]. simpl. bsimp. rewrite length_app. simpl. lia.
  - case_bool_decide as Hin; [|done]. simpl. apply remove_one_perm, Permutation_length in Hin. simpl in *. lia.
Qed.

Lemma backup_step_exclusive capacity e st :
  keeps_job e → exclusive st → exclusive (backup_step capacity e st).
Proof.
  intros He [Hnd Hfl]. destruct e as [key en|key|key|key]; simpl; [| | |done].
  - destruct (_ || _) eqn:E; [done|]. apply orb_false_iff in E as [_ E]. bsimp.
    assert (br_runs (mkBackupRuns ({[ key ]} ∪ br_in_flight st) (br_waiting st ++ [key]) (br_running st))
      ≡ₚ key :: br_runs st) as Hp.
    { unfold br_runs. simpl. rewrite <-app_assoc. simpl. by rewrite <-Permutation_middle. }
    split; [rewrite Hp; constructor; [by rewrite <-Hfl | done]|].
    intros k. rewrite Hp. simpl. rewrite elem_of_union, elem_of_singleton, elem_of_cons, Hfl. done.
  - destruct (_ && _) eqn:E; [|done]. bsimp.
    assert (br_runs (mkBackupRuns (br_in_flight st) (remove_one key (br_waiting st)) (br_running st ++ [key]))
      ≡ₚ br_runs st) as Hp.
    { unfold br_runs. simpl. match goal with Hw : key ∈ br_waiting st |- _ => rewrite (remove_one_perm key (br_waiting st) Hw) at 2 end.
      rewrite (Permutation_app_comm _ [key]). simpl. by rewrite <-Permutation_middle. }
    split; [by rewrite Hp|]. intros k. by rewrite Hp, <-Hfl.
  - case_bool_decide as Hin; [|done].
    assert (br_runs st ≡ₚ key :: br_runs (mkBackupRuns (br_in_flight st ∖ {[ key ]}) (br_waiting st)
      (remove_one key (br_running st)))) as Hp.
    { unfold br_runs. simpl. rewrite (remove_one_perm key _ Hin) at 1. by rewrite <-Permutation_middle. }
    rewrite Hp in Hnd. apply NoDup_cons in Hnd as [Hnin Hnd]. split; [done|]. intros k. simpl.
    rewrite elem_of_difference, elem_of_singleton, Hfl, Hp, elem_of_cons. naive_solver.
Qed.

Definition no_backups : BackupRuns := mkBackupRuns ∅ [] [].

(** Whatever the order of the events, no more backups run than there are slots; as long as no
    job is replaced, a backup neither waits nor runs twice at a time. *)
Theorem backups_take_turns env events :
  let st := backup_steps (backup_capacity env) events no_backups in
  length (br_running st) ≤ backup_capacity env
  ∧ (Forall keeps_job events → NoDup (br_waiting st ++ br_running st)).
Proof.
  intros st. split.
  - subst st. unfold backup_steps. assert (length (br_running no_backups) ≤ backup_capacity env) as Hl by (simpl; lia).
    revert Hl. generalize no_backups. induction events as [|e l IH]; intros st Hl; [done|].
    simpl. by apply IH, backup_step_capacity.
  - intros Hev. apply (xc_nodup st). revert Hev. subst st. unfold backup_steps.
    assert (exclusive no_backups) as Hex.
    { split; [constructor|]. intros k. simpl. split; [by intros ?%elem_of_empty | by intros ?%elem_of_nil]. }
    revert Hex. generalize no_backups. induction events as [|e l IH]; intros st Hex; [done|].
    intros [He Hl]%Forall_cons. simpl. apply IH; [by apply backup_step_exclusive | done].
Qed.

(** ** Samples *)

#[local] Instance runner_watch : Watch := counted_watch.

Definition hourly_schedule (id : Z) (cron : string) (timezone : option string) : Schedule :=
  mkSchedule id "hourly" None cron ("hourly-" +:+ i64_to_string id) None "BASH" "DOKPANEL-SERVER" "EXEC" "backup.sh"
    None timezone 1 None None None None 0 0.
Definition runner_db (l : list Schedule) : SchedDb := mkSchedDb (mkTable l 9) ∅ empty_table ∅.
Definition runner_world (l : list Schedule) : SchedWorld := mkSchedWorld sample_sys (runner_db l) 0 0 [].
(** Schedule 1 with an old expression, and schedule 7, which is no longer there *)
Definition stale_runner : Runner :=
  mkRunner {[ "schedule:1" := mkRegistered 0 "0 0 * * * *" 1 "UTC"; "schedule:7" := mkRegistered 1 "0 0 * * * *" 1 "UTC" ]}
    {[ 0 := mkCronJob "schedule:1" "0 0 * * * *" "UTC"; 1 := mkCronJob "schedule:7" "0 0 * * * *" "UTC" ]} ∅ 2.
Definition cron_readable (s : string) : bool := negb (bool_decide (s = "0 broken * * * *")).
Definition tz_known (s : string) : bool := bool_decide (s ∈ ["UTC"; "Asia/Kolkata"]).
Notation sample_refresh := (refresh_jobs cron_readable tz_known (λ _, true) (λ _, true) (λ _ _ w, w)).

Definition sample_refreshes := refreshes cron_readable tz_known (λ _, true) (λ _, true).
Definition first_refresh : Refresh :=
  mkRefresh (λ _ _ w, w) [mkBackupRow 1 "0 3 * * *" 1; mkBackupRow 2 "0 4 * * *" 1] []
    (runner_world [hourly_schedule 1 "0 * * * *" None; hourly_schedule 7 "0 * * * *" None]) ∅.
(** Schedule 1 has another expression and time zone, 2 is new and cannot be read, 7 is gone; backup
    1 is running and backup 2 has been disabled. *)
Definition second_refresh : Refresh :=
  mkRefresh (λ _ _ w, w) [mkBackupRow 1 "0 3 * * *" 1; mkBackupRow 2 "0 4 * * *" 0] []
    (runner_world [hourly_schedule 1 "5 * * * *" (Some "Asia/Kolkata"); hourly_schedule 2 "broken * * * *" None])
    {[ "db_backup:1" ]}.


(** Two refreshes at a time, as requests start them, both register a schedule that is new: the job
    of the first is forgotten and stays in the cron scheduler. *)
Example concurrent_refreshes_register_twice :
  let register := sync_job cron_readable (λ _, true) (λ _, true) true ∅ "schedule:1" "0 5 * * * *" 1 "UTC" in
  let st := register (register (mkRunner ∅ ∅ ∅ 0)) in
  size (ru_jobs st) = 1 ∧ size (ru_scheduler st) = 2.
Proof. by vm_compute. Qed.

(** A schedule whose time zone is not known keeps the job of its old settings. *)
Example unknown_timezone_keeps_the_old_job :
  let w := runner_world [hourly_schedule 1 "5 * * * *" (Some "Kolkata")] in
  rj_cron_expression <$> ru_jobs (sample_refresh [] [] (stale_runner, w)).1 !! "schedule:1" = Some "0 0 * * * *".
Proof. by vm_compute. Qed.

(** A backup whose job is replaced while it runs is started a second time beside itself. *)
Example replaced_backup_overlaps :
  br_running (backup_steps (backup_capacity None)
    [Tick "db_backup:1" (Some 1%Z); Granted "db_backup:1"; JobRemoved "db_backup:1";
     Tick "db_backup:1" (Some 1%Z); Granted "db_backup:1"] no_backups)
  = ["db_backup:1"; "db_backup:1"].
Proof. by vm_compute. Qed.
