(* ===== verification/ShellQuote.v ===== *)
(** * Shell text: quoting

    How [crates/os/src/exec/script] and the remote executor write values into shell text, and the
    rules of the shell it relies on.  [reads_as] says when a piece of text is one word and what
    its value is: the quoting rules of the shell command language (single quotes, double quotes,
    backslash, parameters in double quotes).  A shell is a parameter that splits text into words
    by these rules; [sh_words] is one. *)

From stdpp Require Import gmap strings list.
From Stdlib Require Import ZArith Lia Ascii.
From S2P Require Import Prelude RustStr RustText.

(** ** Characters *)

Definition dquote : ascii := ascii_of_N 34.
Definition squote : ascii := ascii_of_N 39.
Definition backslash : ascii := ascii_of_N 92.
Definition backquote : ascii := ascii_of_N 96.
Definition dollar : ascii := ascii_of_N 36.
Definition nl : ascii := ascii_of_N 10.
Definition cr : ascii := ascii_of_N 13.
Definition tab : ascii := ascii_of_N 9.
Definition space : ascii := ascii_of_N 32.
Definition chr (c : ascii) : string := String c EmptyString.

(** [str::replace] of a character by a string *)
Fixpoint replace_with (c : ascii) (by_ s : string) : string :=
  match s with
  | EmptyString => EmptyString
  | String d s' => (if is_char d c then by_ else chr d) +:+ replace_with c by_ s'
  end.

(** ** Rendering *)

Definition shell_single_quote (s : string) : string :=
  chr squote +:+ replace_with squote (chr squote +:+ chr backslash +:+ chr squote +:+ chr squote) s +:+ chr squote.

(** [quote] of [exec_remote.rs] and of [ssh/builder.rs] *)
Definition quote (value : string) : string :=
  if str_is_empty value then chr squote +:+ chr squote else shell_single_quote value.

Definition in_dquotes (s : string) : string := chr dquote +:+ s +:+ chr dquote.

(** [escape_arg]: text that starts with a dollar sign is left to the shell *)
Definition escape_arg (s : string) : string :=
  if starts_with (chr dollar) s then in_dquotes s else shell_single_quote s.

(** [IntoCommand] of a list of strings *)
Definition build_words (args : list string) : string := join " " (map shell_single_quote args).

Inductive ArgToken :=
  | ArgLiteral (lit : string)
  | NullDevice
  | ArgVariable (var : string)
  | ArgEnvVar (env : string)
  | ArgGlob (glob : string)
  | Rendered (value : string).

Definition is_name_start (c : ascii) : bool := is_char c "_" || is_ascii_lower c || is_ascii_upper c.
Definition is_name_char (c : ascii) : bool := is_char c "_" || is_ascii_alphanumeric c.
Definition is_name (s : string) : bool :=
  match s with
  | EmptyString => false
  | String c s' => is_name_start c && forallb is_name_char (chars s')
  end.

(** [ArgToken::dynamic]: a dollar sign and a name is a variable, the rest is literal *)
Definition dynamic (value : string) : ArgToken :=
  match strip_prefix (chr dollar) value with
  | Some name => if is_name name then ArgVariable name else ArgLiteral value
  | None => ArgLiteral value
  end.

(** [shell_arg] of [lib.rs], which takes every text after a dollar sign for a name *)
Definition shell_arg (value : string) : ArgToken :=
  match strip_prefix (chr dollar) value with
  | Some name => if str_is_empty name then ArgLiteral value else ArgVariable name
  | None => ArgLiteral value
  end.

Definition arg_to_bash (a : ArgToken) : string :=
  match a with
  | ArgLiteral lit => shell_single_quote lit
  | NullDevice => "/dev/null"
  | ArgVariable v | ArgEnvVar v => in_dquotes (chr dollar +:+ v)
  | ArgGlob g => g
  | Rendered v => v
  end.

Record Command := mkCommand { cmd_name : string; cmd_args : list ArgToken }.
Definition command_to_bash (c : Command) : string := join " " (cmd_name c :: map arg_to_bash (cmd_args c)).

Inductive Expr :=
  | ExLiteral (lit : string)
  | ExVariable (var : string)
  | ExEnvVar (env : string)
  | ExGlob (glob : string)
  | ExArray (arr : list Expr)
  | ExWord (parts : list Expr).

(** A literal between double quotes *)
Definition escape_in_dquotes (value : string) : string :=
  replace_with backquote (chr backslash +:+ chr backquote)
    (replace_with dollar (chr backslash +:+ chr dollar)
       (replace_with dquote (chr backslash +:+ chr dquote)
          (replace_with backslash (chr backslash +:+ chr backslash) value))).

Definition braced (name : string) : string := chr dollar +:+ "{" +:+ name +:+ "}".

Fixpoint expr_to_bash (e : Expr) : string :=
  match e with
  | ExLiteral lit => shell_single_quote lit
  | ExVariable v | ExEnvVar v => in_dquotes (chr dollar +:+ v)
  | ExGlob g => g
  | ExArray arr => "(" +:+ join " " (map expr_to_bash arr) +:+ ")"
  | ExWord parts =>
      in_dquotes (String.concat "" (map (λ part,
        match part with
        | ExLiteral v => escape_in_dquotes v
        | ExVariable v | ExEnvVar v => braced v
        | ExGlob v => v
        | ExArray _ | ExWord _ => expr_to_bash part
        end) parts))
  end.

(** ** Remote commands *)

Definition remote_prefix (program : string) (sudo has_password : bool) : list string :=
  if sudo then
    if has_password then ["sudo"; "-S"; "-p"; ""; "--"; program] else ["sudo"; "-n"; "--"; program]
  else [program].
Definition remote_command (program : string) (args : list string) (sudo has_password : bool) : string :=
  join " " (map quote (remote_prefix program sudo has_password ++ args)).

(** The command in a session of its own, its process id in a file while it runs *)
Definition cancellable_script (command pid_file : string) : string :=
  let var v := in_dquotes (chr dollar +:+ v) in
  join newline
    ["rm -f " +:+ quote pid_file;
     "setsid sh -c " +:+ quote command +:+ " &";
     "child=" +:+ var "!";
     "printf " +:+ chr squote +:+ "%s" +:+ chr backslash +:+ "n" +:+ chr squote +:+ " " +:+ var "child" +:+ " > " +:+ quote pid_file;
     "wait " +:+ var "child";
     "status=" +:+ var "?";
     "rm -f " +:+ quote pid_file;
     "exit " +:+ var "status"].
Definition cancellable_remote_command (command pid_file : string) : string :=
  remote_command "sh" ["-c"; cancellable_script command pid_file] false false.

(** What [execute] sends to the server *)
Definition full_command (program : string) (args : list string) (sudo_password : option string)
    (pid_file : option string) (stdin_empty : bool) : string :=
  let has_pwd := match sudo_password with Some p => negb (str_is_empty p) | None => false end in
  let base := remote_command program args (bool_decide (is_Some sudo_password)) has_pwd in
  let command := match pid_file with
                 | Some f => if stdin_empty then cancellable_remote_command base f else base
                 | None => base
                 end in
  "sh -c " +:+ quote command.

(** ** Writing files *)

Fixpoint printf_b_escape (content : string) : string :=
  match content with
  | EmptyString => EmptyString
  | String c s => (if is_char c backslash then chr backslash +:+ chr backslash
                   else if is_char c nl then chr backslash +:+ "n"
                   else if is_char c cr then chr backslash +:+ "r"
                   else if is_char c tab then chr backslash +:+ "t"
                   else chr c) +:+ printf_b_escape s
  end.

Definition printf_word (format content : string) : string :=
  "printf " +:+ chr squote +:+ format +:+ chr squote +:+ " " +:+ content.
Definition file_write_command (content : string) : string :=
  if starts_with (chr dollar) content then printf_word "%s" (escape_arg content)
  else printf_word "%b" (shell_single_quote (printf_b_escape content)).
Definition file_write_build_str (path content : string) (append : bool) : string :=
  file_write_command content +:+ " " +:+ (if append then ">>" else ">") +:+ " " +:+ escape_arg path.

Definition validate_file_path (path : string) : bool :=
  negb (str_is_empty path || (4096 <? Z.of_nat (String.length path))%Z
        || bool_decide (ascii_of_N 0 ∈ chars path)
        || bool_decide (".." ∈ split_on (λ c, is_char c "/") path)).
