(* ===== verification/ShellRules.v ===== *)
(** * Shell text: what the shell reads

    The quoting rules of the shell command language as relations between text and value, a shell
    as a parameter that obeys them, and a reader that does.  Every way in which the code writes a
    value is one word with that value; a list of values is read back as it was. *)

From stdpp Require Import gmap strings list.
From Stdlib Require Import ZArith Lia Ascii.
From S2P Require Import Prelude RustStr RustText ShellQuote.

Definition dq_special (c : ascii) : bool :=
  is_char c dollar || is_char c backquote || is_char c dquote || is_char c backslash.

(** Characters that stand for themselves outside quotes *)
Definition is_plain (c : ascii) : bool :=
  is_ascii_alphanumeric c || bool_decide (c ∈ ["-"; "_"; "."; "/"; ":"; ","; "+"; "%"; "@"]%char).
Definition is_blank_char (c : ascii) : bool := is_char c space || is_char c tab.

Definition starts_name (s : string) : bool := match s with EmptyString => false | String c _ => is_name_char c end.

Section reading.
(** The parameters of the shell *)
Context (env : string → string).

(** Text between double quotes *)
Inductive in_quotes : string → string → Prop :=
  | iq_nil : in_quotes "" ""
  | iq_char c t v : dq_special c = false → in_quotes t v → in_quotes (String c t) (String c v)
  | iq_escape c t v : dq_special c = true → in_quotes t v →
      in_quotes (String backslash (String c t)) (String c v)
  | iq_backslash c t v : dq_special c = false → c ≠ nl → in_quotes t v →
      in_quotes (String backslash (String c t)) (String backslash (String c v))
  | iq_braced name t v : is_name name = true → in_quotes t v → in_quotes (braced name +:+ t) (env name +:+ v)
  | iq_name name t v : is_name name = true → starts_name t = false → in_quotes t v →
      in_quotes (chr dollar +:+ name +:+ t) (env name +:+ v).

(** A word, and its value after expansion and quote removal *)
Inductive reads_as : string → string → Prop :=
  | ra_plain c : is_plain c = true → reads_as (chr c) (chr c)
  | ra_single s : squote ∉ chars s → reads_as (chr squote +:+ s +:+ chr squote) s
  | ra_escape c : c ≠ nl → reads_as (chr backslash +:+ chr c) (chr c)
  | ra_double t v : in_quotes t v → reads_as (in_dquotes t) v
  | ra_app t v t' v' : reads_as t v → reads_as t' v' → reads_as (t +:+ t') (v +:+ v').
End reading.

(** A shell splits the text of a simple command into its words. *)
Class Shell := sh : (string → string) → string → option (list string).

Class ShellLaws `{Shell} : Prop := {
  sh_empty env : sh env "" = Some [];
  sh_last env t v : reads_as env t v → sh env t = Some [v];
  sh_next env t v rest : reads_as env t v → sh env (t +:+ " " +:+ rest) = cons v <$> sh env rest;
}.

(** ** A reader *)

Inductive Mode :=
  | Between                                  (* no word has begun *)
  | Bare (v : string)                        (* in a word, outside quotes *)
  | BareEscape (v : string)
  | Single (v : string)
  | Double (v : string)
  | DoubleEscape (v : string)
  | DoubleDollar (v : string)                (* after a dollar sign *)
  | DoubleName (v name : string)             (* after a dollar sign and part of a name *)
  | DoubleBrace (v name : string).           (* after a dollar sign, a brace and part of a name *)

(** [extra] are further characters that stand for themselves outside quotes. *)
Section reader.
Context (env : string → string) (extra : ascii → bool).

Definition bare_step (v : string) (c : ascii) : option Mode :=
  if is_char c squote then Some (Single v)
  else if is_char c dquote then Some (Double v)
  else if is_char c backslash then Some (BareEscape v)
  else if is_plain c || extra c then Some (Bare (v +:+ chr c))
  else None.
Definition double_step (v : string) (c : ascii) : option Mode :=
  if is_char c dquote then Some (Bare v)
  else if is_char c backslash then Some (DoubleEscape v)
  else if is_char c dollar then Some (DoubleDollar v)
  else if is_char c backquote then None
  else Some (Double (v +:+ chr c)).

(** The next mode, and the word that ended *)
Definition mode_step (m : Mode) (c : ascii) : option (Mode * list string) :=
  let go o := (λ m', (m', [])) <$> o in
  match m with
  | Between => if is_blank_char c then Some (Between, []) else go (bare_step "" c)
  | Bare v => if is_blank_char c then Some (Between, [v]) else go (bare_step v c)
  | BareEscape v => if is_char c nl then None else go (Some (Bare (v +:+ chr c)))
  | Single v => go (Some (if is_char c squote then Bare v else Single (v +:+ chr c)))
  | Double v => go (double_step v c)
  | DoubleEscape v =>
      if is_char c nl then go (Some (Double v))
      else go (Some (Double (v +:+ (if dq_special c then chr c else chr backslash +:+ chr c))))
  | DoubleDollar v =>
      if is_char c "{" then go (Some (DoubleBrace v ""))
      else if is_name_start c then go (Some (DoubleName v (chr c))) else None
  | DoubleName v name =>
      if is_name_char c then go (Some (DoubleName v (name +:+ chr c))) else go (double_step (v +:+ env name) c)
  | DoubleBrace v name =>
      if is_char c "}" then (if is_name name then go (Some (Double (v +:+ env name))) else None)
      else if is_name_char c then go (Some (DoubleBrace v (name +:+ chr c))) else None
  end.

Fixpoint read_from (m : Mode) (s : string) : option (list string) :=
  match s with
  | EmptyString => match m with Between => Some [] | Bare v => Some [v] | _ => None end
  | String c s' =>
      match mode_step m c with
      | Some (m', out) => app out <$> read_from m' s'
      | None => None
      end
  end.
End reader.
Definition sh_words (env : string → string) (s : string) : option (list string) := read_from env (λ _, false) Between s.

Lemma str_app_nil_r (s : string) : s +:+ "" = s.
Proof. induction s as [|c s IH]; [done|]. change (String c (s +:+ "") = String c s). by rewrite IH. Qed.
Lemma str_snoc (a : string) c b : a +:+ String c b = (a +:+ chr c) +:+ b.
Proof. by rewrite str_app_assoc. Qed.

Lemma fmap_app_nil {A} (o : option (list A)) : app [] <$> o = o.
Proof. by destruct o. Qed.

Section reader_facts.
Context (env : string → string) (extra : ascii → bool).
Notation read := (read_from env extra).

Lemma read_single s : ∀ acc rest,
  squote ∉ chars s → read (Single acc) (s +:+ String squote rest) = read (Bare (acc +:+ s)) rest.
Proof.
  induction s as [|c s IH]; intros acc rest Hs; simpl.
  - by rewrite fmap_app_nil, str_app_nil_r.
  - apply not_elem_of_cons in Hs as [Hc Hs]. rewrite (proj2 (is_char_false c squote)) by done.
    rewrite fmap_app_nil, IH by done. by rewrite (str_snoc acc c s).
Qed.

Lemma read_name_chars name : ∀ acc n rest, forallb is_name_char (chars name) = true →
  read (DoubleName acc n) (name +:+ rest) = read (DoubleName acc (n +:+ name)) rest.
Proof.
  induction name as [|c name IH]; intros acc n rest Hn; simpl in *; [by rewrite str_app_nil_r|].
  apply andb_true_iff in Hn as [Hc Hn]. rewrite Hc, fmap_app_nil, IH by done. by rewrite (str_snoc n c name).
Qed.
Lemma read_brace_chars name : ∀ acc n rest, forallb is_name_char (chars name) = true →
  read (DoubleBrace acc n) (name +:+ rest) = read (DoubleBrace acc (n +:+ name)) rest.
Proof.
  induction name as [|c name IH]; intros acc n rest Hn; simpl in *; [by rewrite str_app_nil_r|].
  apply andb_true_iff in Hn as [Hc Hn].
  rewrite (proj2 (is_char_false c "}")); [|intros ->; by vm_compute in Hc].
  rewrite Hc, fmap_app_nil, IH by done. by rewrite (str_snoc n c name).
Qed.

Lemma name_start_char c : is_name_start c = true → is_name_char c = true.
Proof. by destruct c as [[] [] [] [] [] [] [] []]. Qed.
Lemma is_name_chars name : is_name name = true → forallb is_name_char (chars name) = true.
Proof.
  destruct name as [|c s]; simpl; [done|]. intros [Hc Hs]%andb_true_iff.
  by rewrite (name_start_char c Hc), Hs.
Qed.

Lemma read_name acc name rest :
  is_name name = true → starts_name rest = false → rest ≠ "" →
  read (Double acc) (chr dollar +:+ name +:+ rest) = read (Double (acc +:+ env name)) rest.
Proof.
  intros Hn Hr Hne. destruct name as [|c s]; [done|]. simpl in Hn. apply andb_true_iff in Hn as [Hc Hs].
  simpl. rewrite fmap_app_nil. rewrite (proj2 (is_char_false c "{")); [|intros ->; by vm_compute in Hc].
  rewrite Hc. simpl. rewrite fmap_app_nil, read_name_chars by done.
  destruct rest as [|d rest]; [done|]. simpl in *. by rewrite Hr.
Qed.

Lemma read_braced acc name rest :
  is_name name = true → read (Double acc) (braced name +:+ rest) = read (Double (acc +:+ env name)) rest.
Proof.
  intros Hn. unfold braced. rewrite !str_app_assoc. simpl. rewrite !fmap_app_nil.
  change ("" +:+ name +:+ "}" +:+ rest) with (name +:+ String "}" rest).
  rewrite read_brace_chars by (by apply is_name_chars). change ("" +:+ name) with name. simpl. rewrite Hn. simpl.
  by rewrite fmap_app_nil.
Qed.

Lemma double_plain v c : dq_special c = false → double_step v c = Some (Double (v +:+ chr c)).
Proof.
  unfold dq_special, double_step. intros H. repeat (apply orb_false_iff in H as [H ?]).
  by repeat match goal with H : is_char c _ = false |- _ => rewrite H; clear H end.
Qed.

Lemma read_in_quotes t v : in_quotes env t v → ∀ acc rest,
  read (Double acc) (t +:+ String dquote rest) = read (Bare (acc +:+ v)) rest.
Proof.
  induction 1 as [|c t v Hc _ IH|c t v Hc _ IH|c t v Hc Hnl _ IH|name t v Hn _ IH|name t v Hn Ht _ IH]; intros acc rest.
  - simpl. by rewrite fmap_app_nil, str_app_nil_r.
  - change (String c t +:+ String dquote rest) with (String c (t +:+ String dquote rest)). cbn [read_from mode_step]. simpl. rewrite double_plain by done. simpl.
    rewrite fmap_app_nil, IH. by rewrite (str_snoc acc c v).
  - simpl. rewrite fmap_app_nil. assert (is_char c nl = false) as ->.
    { apply is_char_false. intros ->. by vm_compute in Hc. }
    simpl. rewrite Hc, fmap_app_nil, IH. by rewrite (str_snoc acc c v).
  - simpl. rewrite fmap_app_nil. rewrite (proj2 (is_char_false c nl)) by done.
    simpl. rewrite Hc, fmap_app_nil, IH. f_equal. by rewrite str_app_assoc.
  - rewrite str_app_assoc, read_braced, IH by done. by rewrite str_app_assoc.
  - rewrite !str_app_assoc, read_name; [|done|by destruct t|by destruct t]. rewrite IH. by rewrite str_app_assoc.
Qed.

Lemma plain_not_special c : is_plain c = true →
  is_char c squote = false ∧ is_char c dquote = false ∧ is_char c backslash = false ∧ is_blank_char c = false.
Proof. by destruct c as [[] [] [] [] [] [] [] []]; vm_compute. Qed.

Lemma read_word t v : reads_as env t v → ∀ acc rest, read (Bare acc) (t +:+ rest) = read (Bare (acc +:+ v)) rest.
Proof.
  induction 1 as [c Hc|s Hs|c Hc|t v Hq|t v t' v' _ IH _ IH']; intros acc rest.
  - destruct (plain_not_special c Hc) as (H1 & H2 & H3 & H4).
    change (chr c +:+ rest) with (String c rest). cbn [read_from mode_step]. rewrite H4. unfold bare_step.
    rewrite H1, H2, H3, Hc. simpl. by rewrite fmap_app_nil.
  - rewrite !str_app_assoc. change (chr squote +:+ ?x) with (String squote x). cbn [read_from]. simpl.
    rewrite fmap_app_nil. by apply read_single.
  - change ((chr backslash +:+ chr c) +:+ rest) with (String backslash (String c rest)). simpl.
    rewrite fmap_app_nil. rewrite (proj2 (is_char_false c nl)) by done. simpl. by rewrite fmap_app_nil.
  - unfold in_dquotes. rewrite !str_app_assoc. change (chr dquote +:+ ?x) with (String dquote x). cbn [read_from]. simpl.
    rewrite fmap_app_nil. by apply read_in_quotes.
  - rewrite str_app_assoc, IH, IH'. by rewrite str_app_assoc.
Qed.

(** A word begins with a character that is not blank. *)
Lemma reads_first t v : reads_as env t v → ∃ c t', t = String c t' ∧ is_blank_char c = false.
Proof.
  induction 1 as [c Hc|s Hs|c Hc|t v Hq|t v t' v' _ (c & u & -> & Hc) _ _]; try (by eexists _, _).
  by eexists c, _; split; [done | apply plain_not_special].
Qed.

Lemma read_first t v rest : reads_as env t v → read Between (t +:+ rest) = read (Bare v) rest.
Proof.
  intros Ht. destruct (reads_first t v Ht) as (c & t' & -> & Hc).
  pose proof (read_word _ _ Ht "" rest) as Hw. change ("" +:+ v) with v in Hw. rewrite <-Hw. change (String c t' +:+ rest) with (String c (t' +:+ rest)).
  cbn [read_from mode_step]. by rewrite Hc.
Qed.
End reader_facts.

#[export] Instance reference_shell : Shell := sh_words.
#[export] Instance reference_shell_laws : @ShellLaws reference_shell.
Proof.
  split; unfold sh, reference_shell, sh_words.
  - done.
  - intros env t v Ht. rewrite <-(str_app_nil_r t), (read_first env _ t v) by done. done.
  - intros env t v rest Ht. by rewrite (read_first env _ t v).
Qed.

(** ** What the renderers write *)

Section rendering.
Context (env : string → string).

Lemma chars_append a b : chars (a +:+ b) = chars a ++ chars b.
Proof. apply chars_app. Qed.

(** The text up to the first quote, and the rest *)
Lemma quoted_body s : ∀ pre, squote ∉ chars pre →
  reads_as env (chr squote +:+ pre +:+ replace_with squote (chr squote +:+ chr backslash +:+ chr squote +:+ chr squote) s
                +:+ chr squote) (pre +:+ s).
Proof.
  induction s as [|c s IH]; intros pre Hpre; simpl.
  { change ("" +:+ chr squote) with (chr squote). rewrite str_app_nil_r. by apply ra_single. }
  destruct (is_char c squote) eqn:Hc.
  - apply is_char_spec in Hc as ->.
    pose proof (ra_app env _ _ _ _ (ra_single env pre Hpre) (ra_app env _ _ _ _ (ra_escape env squote ltac:(done)) (IH "" ltac:(by intros ?%elem_of_nil)))) as H.
    rewrite !str_app_assoc in *. by change (chr squote +:+ "" +:+ s) with (String squote s) in H.
  - rewrite (str_snoc pre c s). rewrite !str_app_assoc.
    specialize (IH (pre +:+ chr c)). rewrite !str_app_assoc in IH. apply IH.
    rewrite chars_append. intros [Hin|Hin]%elem_of_app; [done|].
    apply is_char_false in Hc. by apply list_elem_of_singleton in Hin.
Qed.

Lemma single_quote_reads s : reads_as env (shell_single_quote s) s.
Proof. apply (quoted_body s ""). by intros ?%elem_of_nil. Qed.

Lemma quote_reads s : reads_as env (quote s) s.
Proof.
  unfold quote, str_is_empty. case_bool_decide; [subst; apply (single_quote_reads "") | apply single_quote_reads].
Qed.

Lemma replace_with_app c b s t : replace_with c b (s +:+ t) = replace_with c b s +:+ replace_with c b t.
Proof.
  induction s as [|d s IH]; [done|]. change (String d s +:+ t) with (String d (s +:+ t)). simpl.
  by rewrite IH, str_app_assoc.
Qed.

Lemma escape_in_dquotes_cons c s :
  escape_in_dquotes (String c s) = (if dq_special c then chr backslash +:+ chr c else chr c) +:+ escape_in_dquotes s.
Proof.
  unfold escape_in_dquotes. change (String c s) with (chr c +:+ s). rewrite !replace_with_app. f_equal.
  unfold dq_special. simpl.
  destruct (is_char c backslash) eqn:E1; [by apply is_char_spec in E1 as ->|].
  simpl. destruct (is_char c dquote) eqn:E2; [by apply is_char_spec in E2 as ->|].
  simpl. destruct (is_char c dollar) eqn:E3; [by apply is_char_spec in E3 as ->|].
  simpl. by destruct (is_char c backquote) eqn:E4; [apply is_char_spec in E4 as ->|].
Qed.

Lemma escape_reads s : ∀ t v, in_quotes env t v → in_quotes env (escape_in_dquotes s +:+ t) (s +:+ v).
Proof.
  induction s as [|c s IH]; intros t v Ht; [done|]. rewrite escape_in_dquotes_cons, str_app_assoc.
  destruct (dq_special c) eqn:Hc; rewrite ?str_app_assoc.
  - apply (iq_escape env c); [done | by apply IH].
  - apply (iq_char env c); [done | by apply IH].
Qed.
End rendering.

(** * Shell text: what reaches the program

    Arguments written by the renderers reach the program unchanged, through two shells when it
    runs on a server; the content of a file survives its escaping for [printf]. *)

(** The value of an argument: what the program receives, when the text is one word *)
Definition arg_value (env : string → string) (a : ArgToken) : option string :=
  match a with
  | ArgLiteral lit => Some lit
  | NullDevice => Some "/dev/null"
  | ArgVariable v | ArgEnvVar v => if is_name v then Some (env v) else None
  | ArgGlob _ | Rendered _ => None
  end.

(** The value of a word between double quotes *)
Definition part_value (env : string → string) (e : Expr) : option string :=
  match e with
  | ExLiteral lit => Some lit
  | ExVariable v | ExEnvVar v => if is_name v then Some (env v) else None
  | _ => None
  end.
Fixpoint parts_value (env : string → string) (l : list Expr) : option string :=
  match l with
  | [] => Some ""
  | e :: l => v ← part_value env e; w ← parts_value env l; Some (v +:+ w)
  end.

Definition plain_word (s : string) : bool := negb (str_is_empty s) && forallb is_plain (chars s).

Section facts.
Context (env : string → string).

Lemma plain_reads s : plain_word s = true → reads_as env s s.
Proof.
  unfold plain_word, str_is_empty. intros [Hne Hs]%andb_true_iff. apply negb_true_iff in Hne. bsimp.
  destruct s as [|c s]; [done|]. clear Hne. revert c Hs. induction s as [|d s IH]; intros c Hs; simpl in Hs.
  - apply andb_true_iff in Hs as [Hc _]. by apply ra_plain.
  - apply andb_true_iff in Hs as [Hc Hs]. change (String c (String d s)) with (chr c +:+ String d s).
    apply ra_app; [by apply ra_plain | by apply IH].
Qed.

Lemma variable_reads v : is_name v = true → reads_as env (in_dquotes (chr dollar +:+ v)) (env v).
Proof.
  intros Hv. apply ra_double. pose proof (iq_name env v "" "" Hv eq_refl (iq_nil env)) as H.
  by rewrite !str_app_nil_r in H.
Qed.

Lemma arg_reads a v : arg_value env a = Some v → reads_as env (arg_to_bash a) v.
Proof.
  destruct a as [lit| |var|var|g|r]; simpl; intros Hv; try done.
  - simplify_eq. apply single_quote_reads.
  - simplify_eq. by apply plain_reads.
  - destruct (is_name var) eqn:Hn; simplify_eq. by apply variable_reads.
  - destruct (is_name var) eqn:Hn; simplify_eq. by apply variable_reads.
Qed.

Lemma dynamic_value v : arg_value env (dynamic v)
  = Some (match strip_prefix (chr dollar) v with
          | Some name => if is_name name then env name else v
          | None => v
          end).
Proof. unfold dynamic. destruct (strip_prefix _ v) as [n|]; [destruct (is_name n) eqn:Hn|]; simpl; by rewrite ?Hn. Qed.

Definition part_to_bash (part : Expr) : string :=
  match part with
  | ExLiteral v => escape_in_dquotes v
  | ExVariable v | ExEnvVar v => braced v
  | ExGlob v => v
  | ExArray _ | ExWord _ => expr_to_bash part
  end.

Lemma parts_read l v : parts_value env l = Some v → in_quotes env (String.concat "" (map part_to_bash l)) v.
Proof.
  revert v. induction l as [|e l IH]; intros v; simpl.
  { intros [= <-]. constructor. }
  destruct (part_value env e) as [x|] eqn:Hx; simpl; [|done].
  destruct (parts_value env l) as [y|] eqn:Hy; simpl; [|done]. intros [= <-].
  assert (∀ t, in_quotes env t y → in_quotes env (part_to_bash e +:+ t) (x +:+ y)) as Hpart.
  { intros t Ht. destruct e as [lit|var|var| | |]; simpl in *; simplify_eq.
    - by apply escape_reads.
    - destruct (is_name var) eqn:Hn; simplify_eq. by apply iq_braced.
    - destruct (is_name var) eqn:Hn; simplify_eq. by apply iq_braced. }
  specialize (IH y eq_refl). destruct (map part_to_bash l) as [|b l'] eqn:El.
  - specialize (Hpart "" IH). by rewrite str_app_nil_r in Hpart.
  - by apply Hpart.
Qed.

Lemma word_reads l v : parts_value env l = Some v → reads_as env (expr_to_bash (ExWord l)) v.
Proof. intros Hv. apply ra_double. by apply parts_read. Qed.

(** Words with a blank between them *)
Lemma sh_join `{ShellLaws} ts vs : Forall2 (reads_as env) ts vs → sh env (join " " ts) = Some vs.
Proof.
  induction 1 as [|t v ts vs Ht Hts IH]; [apply sh_empty|]. destruct ts as [|t' ts'].
  - apply Forall2_nil_inv_l in Hts as ->. by apply sh_last.
  - change (join " " (t :: t' :: ts')) with (t +:+ " " +:+ join " " (t' :: ts')).
    by rewrite (sh_next _ t v), IH.
Qed.

Lemma Forall2_map_self {A B} (R : B → A → Prop) (f : A → B) (l : list A) : (∀ a, R (f a) a) → Forall2 R (map f l) l.
Proof. intros Hf. induction l; simpl; by constructor. Qed.
End facts.

Section delivery.
Context `{ShellLaws}.

Lemma sh_words_survive env args : sh env (build_words args) = Some args.
Proof. apply (sh_join env), Forall2_map_self; intros a; apply single_quote_reads. Qed.

Lemma remote_words env program args sudo has_password :
  sh env (remote_command program args sudo has_password) = Some (remote_prefix program sudo has_password ++ args).
Proof. apply (sh_join env), Forall2_map_self; intros a; apply quote_reads. Qed.

Lemma plain_list_words env l s : Forall (λ w, plain_word w = true) l →
  sh env (join " " (l ++ [quote s])) = Some (l ++ [s]).
Proof.
  intros Hl. apply (sh_join env). apply Forall2_app.
  - induction Hl; constructor; [by apply plain_reads | done].
  - repeat constructor. apply quote_reads.
Qed.

Lemma sh_c_words env s : sh env ("sh -c " +:+ quote s) = Some ["sh"; "-c"; s].
Proof. apply (plain_list_words env ["sh"; "-c"] s). by repeat constructor. Qed.

(** A list of words is read back as the same words. *)
Theorem arguments_survive env args : sh env (build_words args) = Some args.
Proof. apply sh_words_survive. Qed.

(** C12: Whatever the program name, the arguments, the sudo password and the process-id file
    are, the text sent to a server is read by every shell that obeys the quoting rules of POSIX
    as sh -c with one script, and what the script runs, directly or in a session of its own when
    there is a process-id file, is read as exactly the program and its arguments: no argument is
    split, expanded or run. *)
Theorem remote_arguments_survive env env' program args sudo_password pid_file stdin_empty :
  let sudo := bool_decide (is_Some sudo_password) in
  let has_pwd := match sudo_password with Some p => negb (str_is_empty p) | None => false end in
  let argv := remote_prefix program sudo has_pwd ++ args in
  ∃ command, sh env (full_command program args sudo_password pid_file stdin_empty) = Some ["sh"; "-c"; command]
    ∧ match pid_file, stdin_empty with
      | Some f, true =>
          ∃ before line after script,
            sh env' command = Some ["sh"; "-c"; script]
            ∧ script = before +:+ newline +:+ line +:+ " &" +:+ newline +:+ after
            ∧ ∃ inner, sh env' line = Some ["setsid"; "sh"; "-c"; inner] ∧ sh env' inner = Some argv
      | _, _ => sh env' command = Some argv
      end.
Proof.
  intros sudo has_pwd argv. unfold full_command. fold sudo has_pwd. eexists. split; [apply sh_c_words|].
  destruct pid_file as [f|]; [destruct stdin_empty|]; [|apply remote_words..].
  unfold cancellable_remote_command.
  eexists ("rm -f " +:+ quote f), ("setsid sh -c " +:+ quote (remote_command program args sudo has_pwd)), _,
    (cancellable_script (remote_command program args sudo has_pwd) f).
  split_and!; [exact (remote_words env' "sh" ["-c"; _] false false) | |].
  - unfold cancellable_script. cbn [join]. rewrite !str_app_assoc. do 6 f_equal.
  - eexists. split; [|apply remote_words]. apply (plain_list_words env' ["setsid"; "sh"; "-c"]). by repeat constructor.
Qed.

(** The words of a rendered command are its name and the values of its arguments. *)
Theorem command_arguments_survive env c vs :
  plain_word (cmd_name c) = true → map (arg_value env) (cmd_args c) = map Some vs →
  sh env (command_to_bash c) = Some (cmd_name c :: vs).
Proof.
  intros Hn Ha. apply (sh_join env). constructor; [by apply plain_reads|].
  revert vs Ha. induction (cmd_args c) as [|a l IH]; intros [|v vs] Ha; simplify_eq/=; constructor; [by apply arg_reads | by apply IH].
Qed.
End delivery.

(** ** [printf] *)

(** What a [%b] argument prints, for the escapes the code writes *)
Class PrintfB := printf_b : string → string.
Class PrintfLaws `{PrintfB} : Prop := {
  pb_nil : printf_b "" = "";
  pb_char c s : c ≠ backslash → printf_b (String c s) = String c (printf_b s);
  pb_backslash s : printf_b (String backslash (String backslash s)) = String backslash (printf_b s);
  pb_newline s : printf_b (String backslash (String "n" s)) = String nl (printf_b s);
  pb_return s : printf_b (String backslash (String "r" s)) = String cr (printf_b s);
  pb_tab s : printf_b (String backslash (String "t" s)) = String tab (printf_b s);
}.

Lemma printf_escape `{PrintfLaws} content : printf_b (printf_b_escape content) = content.
Proof.
  induction content as [|c s IH]; simpl; [apply pb_nil|].
  destruct (is_char c backslash) eqn:E1; [apply is_char_spec in E1 as ->|].
  { change (printf_b (String backslash (String backslash (printf_b_escape s))) = String backslash s). by rewrite pb_backslash, IH. }
  destruct (is_char c nl) eqn:E2; [apply is_char_spec in E2 as ->|].
  { change (printf_b (String backslash (String "n" (printf_b_escape s))) = String nl s). by rewrite pb_newline, IH. }
  destruct (is_char c cr) eqn:E3; [apply is_char_spec in E3 as ->|].
  { change (printf_b (String backslash (String "r" (printf_b_escape s))) = String cr s). by rewrite pb_return, IH. }
  destruct (is_char c tab) eqn:E4; [apply is_char_spec in E4 as ->|].
  { change (printf_b (String backslash (String "t" (printf_b_escape s))) = String tab s). by rewrite pb_tab, IH. }
  change (printf_b (String c (printf_b_escape s)) = String c s). apply is_char_false in E1. by rewrite pb_char, IH.
Qed.

(** A file whose content does not begin with a dollar sign is written byte by byte: the command
    is read as printf with one argument, and printf turns the argument back into the content. *)
Theorem file_content_survives `{ShellLaws, PrintfLaws} env content :
  starts_with (chr dollar) content = false →
  ∃ arg, sh env (file_write_command content) = Some ["printf"; "%b"; arg] ∧ printf_b arg = content.
Proof.
  intros Hc. unfold file_write_command. rewrite Hc. exists (printf_b_escape content). split; [|apply printf_escape].
  unfold printf_word. apply (sh_join env ["printf"; chr squote +:+ "%b" +:+ chr squote; shell_single_quote (printf_b_escape content)]).
  constructor; [by apply plain_reads|]. constructor; [apply (single_quote_reads env "%b")|].
  constructor; [apply single_quote_reads | constructor].
Qed.

(** ** Samples *)

Fixpoint decode_b (s : string) : string :=
  match s with
  | EmptyString => EmptyString
  | String c s' =>
      if is_char c backslash then
        match s' with
        | String d t =>
            if is_char d backslash then String backslash (decode_b t)
            else if is_char d "n" then String nl (decode_b t)
            else if is_char d "r" then String cr (decode_b t)
            else if is_char d "t" then String tab (decode_b t)
            else String c (decode_b s')
        | EmptyString => chr c
        end
      else String c (decode_b s')
  end.
#[local] Instance decode_printf : PrintfB := decode_b.
#[local] Instance decode_printf_laws : PrintfLaws.
Proof.
  split; try done. intros c s Hc. unfold printf_b, decode_printf. simpl. by rewrite (proj2 (is_char_false c backslash)).
Qed.

Definition no_env (name : string) : string := "".
Definition hostile : string := "it" +:+ chr squote +:+ "s; " +:+ chr dollar +:+ "(reboot)" +:+ newline +:+ "x".

Lemma arguments_survive_witness : sh no_env (build_words ["echo"; ""; hostile]) = Some ["echo"; ""; hostile].
Proof. apply (arguments_survive (H := reference_shell)). Defined.

Lemma remote_arguments_witness :
  ∃ command, sh no_env (full_command "docker" ["run"; hostile] (Some "secret") None true) = Some ["sh"; "-c"; command]
    ∧ sh no_env command = Some ["sudo"; "-S"; "-p"; ""; "--"; "docker"; "run"; hostile].
Proof. exact (remote_arguments_survive (H := reference_shell) no_env no_env "docker" ["run"; hostile] (Some "secret") None true). Defined.

Lemma command_arguments_witness :
  sh (λ _, "a b") (command_to_bash (mkCommand "rm" [ArgLiteral "-rf"; dynamic hostile; dynamic (chr dollar +:+ "dir")]))
  = Some ["rm"; "-rf"; hostile; "a b"].
Proof.
  apply (command_arguments_survive (H := reference_shell) (λ _, "a b")
    (mkCommand "rm" [ArgLiteral "-rf"; dynamic hostile; dynamic (chr dollar +:+ "dir")]) ["-rf"; hostile; "a b"]).
  - by vm_compute.
  - by vm_compute.
Defined.

Lemma file_content_witness :
  ∃ arg, sh no_env (file_write_command hostile) = Some ["printf"; "%b"; arg] ∧ printf_b arg = hostile.
Proof. apply (file_content_survives (H := reference_shell) (H1 := decode_printf)). by vm_compute. Defined.

(** Where the text is not checked, a value that begins with a dollar sign is shell code: a name of [shell_arg] may be
    anything, while [dynamic] asks for a name. *)
Definition crafted : string := chr dollar +:+ "x" +:+ chr dquote +:+ " /etc/passwd " +:+ chr dquote.
Example shell_arg_splits :
  sh no_env (command_to_bash (mkCommand "grep" [shell_arg crafted])) = Some ["grep"; ""; "/etc/passwd"; ""]
  ∧ sh no_env (command_to_bash (mkCommand "grep" [dynamic crafted])) = Some ["grep"; crafted].
Proof. by vm_compute. Qed.

Example escape_arg_splits : sh no_env ("sed -i " +:+ escape_arg crafted) = Some ["sed"; "-i"; ""; "/etc/passwd"; ""].
Proof. by vm_compute. Qed.

(** Content that begins with a dollar sign is expanded, where [execute] would write it as it is. *)
Example dollar_content_is_expanded :
  sh (λ _, "42") (file_write_command (chr dollar +:+ "PORT is the port"))
  = Some ["printf"; "%s"; "42 is the port"].
Proof. by vm_compute. Qed.
