(* ===== verification/ShellScript.v ===== *)
(** * Shell text: scripts

    [dsl/mod.rs], [condition.rs] and [pipeline.rs] of [crates/os/src/exec/script]: the terms the
    code builds and the text it renders them to. *)

From stdpp Require Import gmap strings list.
From Stdlib Require Import ZArith Lia Ascii.
From S2P Require Import Prelude RustStr RustText ShellQuote ShellRules.

(** ** Lines *)

(** A trailing carriage return goes with the line break. *)
Definition strip_cr (s : string) : string :=
  match rev (chars s) with
  | c :: l => if is_char c cr then of_chars (rev l) else s
  | [] => s
  end.
(** [str::lines]: the part after the last line break is a line unless it is empty *)
Definition lines (s : string) : list string :=
  let parts := split_on (λ c, is_char c nl) s in
  let kept := match rev parts with
              | last :: l => if str_is_empty last then rev l else parts
              | [] => []
              end in
  match rev kept, rev parts with
  | last :: l, last' :: _ =>
      if str_is_empty last' then map strip_cr kept else map strip_cr (rev l) ++ [last]
  | _, _ => []
  end.
Definition indent (s : string) : string :=
  join newline (map (λ line, if str_is_empty line then "" else "    " +:+ line) (lines s)).

Definition strip_suffix (pat s : string) : option string :=
  (λ r, of_chars (rev (chars r))) <$> strip_prefix (of_chars (rev (chars pat))) (of_chars (rev (chars s))).

(** ** Conditions *)

Inductive Condition :=
  | DirExists (p : string)
  | FileExists (p : string)
  | CmdSucceeds (c : string)
  | EnvSet (k : string)
  | CNot (c : Condition)
  | CAnd (a b : Condition)
  | COr (a b : Condition).

Inductive Parent := InNot | InAnd | InOr.

Fixpoint cond_to_bash_inner (c : Condition) (parent : option Parent) : string :=
  match c with
  | DirExists p => "[ -d " +:+ shell_single_quote p +:+ " ]"
  | FileExists p => "[ -f " +:+ shell_single_quote p +:+ " ]"
  | CmdSucceeds c => c
  | EnvSet k => "[ -n " +:+ in_dquotes (braced k) +:+ " ]"
  | CNot c => "! " +:+ cond_to_bash_inner c (Some InNot)
  | CAnd a b =>
      let s := cond_to_bash_inner a (Some InAnd) +:+ " && " +:+ cond_to_bash_inner b (Some InAnd) in
      match parent with Some InNot | Some InOr => "(" +:+ s +:+ ")" | _ => s end
  | COr a b =>
      let s := cond_to_bash_inner a (Some InOr) +:+ " || " +:+ cond_to_bash_inner b (Some InOr) in
      match parent with Some InAnd | Some InNot => "(" +:+ s +:+ ")" | _ => s end
  end.
Definition cond_to_bash (c : Condition) : string := cond_to_bash_inner c None.

(** ** The intermediate representation *)

Inductive RedirectionFd := FdStdout | FdStderr | FdBoth.
Inductive OutputTarget := TargetNull | TargetStandardError | TargetFile (path : string).
Inductive CaptureSource := CapStdout | CapStderr | CapBoth | CapStatus.

Definition target_render (t : OutputTarget) : string :=
  match t with
  | TargetNull => "/dev/null"
  | TargetStandardError => "/dev/stderr"
  | TargetFile path => shell_single_quote path
  end.

Inductive ShellIR :=
  | Raw (s : string)
  | IRExpr (e : Expr)
  | IRStatement (s : Statement)
  | Pipeline (cmds : list Command)
  | Sequence (l : list ShellIR)
  | Redirect (cmd : ShellIR) (target : string) (append : bool) (fd : RedirectionFd)
  | Capture (cmd : ShellIR) (source : CaptureSource)
  | IRCommand (c : Command)
  | If (cond : ShellIR) (then_branch : list ShellIR) (else_branch : option (list ShellIR))
  | Loop (var : string) (iterator : ShellIR) (body : list ShellIR)
  | While (cond : ShellIR) (body : list ShellIR)
  | Function_ (name : string) (params : list string) (body : list ShellIR)
  | Defer (body : list ShellIR)
  | Parallel (body : list ShellIR)
  | Retry (count : ShellIR) (body : list ShellIR)
  | CaptureBlock (body : list ShellIR)
with Statement :=
  | VarAssign (name : string) (val : ShellIR) (default : option string)
  | Echo (val : ShellIR).

Definition dq : string := chr dquote.
Definition fd_prefix (fd : RedirectionFd) : string :=
  match fd with FdStdout => "" | FdStderr => "2" | FdBoth => "&" end.
Definition is_if (s : ShellIR) : bool := match s with If _ _ _ => true | _ => false end.

(** The captured block of an assignment *)
Definition capture_assignment (name body : string) : string :=
  let file k := dq +:+ chr dollar +:+ name +:+ k +:+ dq in
  join newline
    [name +:+ "_stdout_file=" +:+ chr dollar +:+ "(mktemp)";
     name +:+ "_stderr_file=" +:+ chr dollar +:+ "(mktemp)";
     "if (";
     indent body;
     ") > " +:+ file "_stdout_file" +:+ " 2> " +:+ file "_stderr_file" +:+ "; then";
     name +:+ "_status=true";
     "else";
     name +:+ "_status=false";
     "fi";
     name +:+ "_stdout=" +:+ chr dollar +:+ "(cat " +:+ file "_stdout_file" +:+ ")";
     name +:+ "_stderr=" +:+ chr dollar +:+ "(cat " +:+ file "_stderr_file" +:+ ")";
     "rm -f " +:+ file "_stdout_file" +:+ " " +:+ file "_stderr_file"].

(** The text of an [if] after [else]: an [elif] chain *)
Definition else_if_text (rendered : string) : string :=
  let s := default rendered (strip_prefix "if " rendered) in
  default s (strip_suffix (newline +:+ "fi") s).

Definition local_params (params : list string) : string :=
  String.concat "" (imap (λ i p, "local " +:+ p +:+ "=" +:+ dq +:+ chr dollar +:+ i64_to_string (Z.of_nat i + 1)
                                 +:+ dq +:+ newline) params).

Fixpoint to_bash (s : ShellIR) : string :=
  match s with
  | Raw s => s
  | IRCommand c => command_to_bash c
  | Pipeline cmds => join " | " (map command_to_bash cmds)
  | Sequence l => join newline (map to_bash l)
  | Redirect cmd target append fd =>
      to_bash cmd +:+ " " +:+ fd_prefix fd +:+ (if append then ">>" else ">") +:+ " " +:+ target
  | Capture cmd CapStatus => chr dollar +:+ "(if " +:+ to_bash cmd +:+ "; then echo true; else echo false; fi)"
  | Capture cmd _ => chr dollar +:+ "(" +:+ to_bash cmd +:+ ")"
  | If cond then_branch else_branch =>
      "if " +:+ to_bash cond +:+ "; then" +:+ newline +:+ indent (join newline (map to_bash then_branch))
      +:+ match else_branch with
          | None => ""
          | Some [eb] =>
              if is_if eb then newline +:+ "elif " +:+ else_if_text (to_bash eb)
              else newline +:+ "else" +:+ newline +:+ indent (to_bash eb)
          | Some l => newline +:+ "else" +:+ newline +:+ indent (join newline (map to_bash l))
          end
      +:+ newline +:+ "fi"
  | Loop var iterator body =>
      let iter := match iterator with
                  | IRExpr (ExVariable v) => dq +:+ chr dollar +:+ "{" +:+ v +:+ "[@]}" +:+ dq
                  | _ => to_bash iterator
                  end in
      "for " +:+ var +:+ " in " +:+ iter +:+ "; do" +:+ newline +:+ indent (join newline (map to_bash body))
      +:+ newline +:+ "done"
  | While cond body =>
      "while " +:+ to_bash cond +:+ "; do" +:+ newline +:+ indent (join newline (map to_bash body))
      +:+ newline +:+ "done"
  | Function_ name params body =>
      name +:+ "() {" +:+ newline +:+ indent (local_params params +:+ join newline (map to_bash body))
      +:+ newline +:+ "}"
  | Defer body =>
      "_cleanup() {" +:+ newline +:+ indent (join newline (map to_bash body)) +:+ newline +:+ "}" +:+ newline
      +:+ "trap _cleanup EXIT"
  | Parallel body => join newline (map (λ s, to_bash s +:+ " &") body) +:+ newline +:+ "wait"
  | Retry count body =>
      "for i in " +:+ chr dollar +:+ "(seq 1 " +:+ to_bash count +:+ "); do" +:+ newline
      +:+ indent (join newline (map to_bash body)) +:+ newline +:+ "    && break || sleep 1" +:+ newline +:+ "done"
  | CaptureBlock body => "(" +:+ newline +:+ indent (join newline (map to_bash body)) +:+ newline +:+ ")"
  | IRExpr e => expr_to_bash e
  | IRStatement st => statement_to_bash st
  end
with statement_to_bash (st : Statement) : string :=
  match st with
  | VarAssign name (CaptureBlock body) _ => capture_assignment name (join newline (map to_bash body))
  | VarAssign name val def =>
      name +:+ "=" +:+ to_bash val
      +:+ match def with
          | Some d => newline +:+ "[ -z " +:+ dq +:+ chr dollar +:+ name +:+ dq +:+ " ] && " +:+ name +:+ "="
                      +:+ shell_single_quote d
          | None => ""
          end
  | Echo val => "echo " +:+ to_bash val
  end.

Definition script_build_str (l : list ShellIR) : string := join newline (map to_bash l).

(** *** Builders *)

Definition ir_stdout (s : ShellIR) (t : OutputTarget) : ShellIR := Redirect s (target_render t) false FdStdout.
Definition ir_stderr (s : ShellIR) (t : OutputTarget) : ShellIR := Redirect s (target_render t) false FdStderr.
(** The file of [append] is written as it is, unlike the one of [stdout]. *)
Definition ir_append (s : ShellIR) (file : string) : ShellIR := Redirect s file true FdStdout.
Definition redirect_to (s : ShellIR) (t : ArgToken) : ShellIR := Redirect s (arg_to_bash t) false FdStdout.
Definition append_to (s : ShellIR) (t : ArgToken) : ShellIR := Redirect s (arg_to_bash t) true FdStdout.

Definition ir_sudo (s : ShellIR) : ShellIR :=
  match s with
  | Raw s => Raw ("sudo " +:+ s)
  | IRCommand c => IRCommand (mkCommand "sudo" (ArgLiteral (cmd_name c) :: cmd_args c))
  | other => other
  end.

Definition trim_chars (c : ascii) (s : string) : string := trim_end_char c (trim_start_char c s).
Definition status_test (names : list string) (value : string) : string :=
  join " || " (map (λ n, "[ " +:+ dq +:+ n +:+ dq +:+ " = " +:+ dq +:+ value +:+ dq +:+ " ]") names).
Definition var_or_empty (v : string) : string := chr dollar +:+ "{" +:+ v +:+ ":-}".
Definition variable_status (v value : string) : string :=
  "[ " +:+ dq +:+ var_or_empty "_status" +:+ dq +:+ " = " +:+ dq +:+ value +:+ dq +:+ " ] 2>/dev/null || "
  +:+ status_test [var_or_empty (v +:+ "_status"); var_or_empty v] value.
Definition raw_status (s value : string) : string :=
  let clean := trim_chars "}" (trim_chars "{" (trim_chars dquote (trim_start_char dollar s))) in
  status_test [var_or_empty (clean +:+ "_status"); s] value.

Definition ir_success (s : ShellIR) : ShellIR :=
  match s with
  | IRExpr (ExVariable v) => Raw (variable_status v "true")
  | Raw s => Raw (if starts_with (chr dollar) s then raw_status s "true" else s)
  | other => other
  end.
Definition ir_failure (s : ShellIR) : ShellIR :=
  match s with
  | IRExpr (ExVariable v) => Raw (variable_status v "false")
  | Raw s => Raw (if starts_with (chr dollar) s then raw_status s "false" else "! " +:+ s)
  | other => Raw ("! " +:+ to_bash other)
  end.
Definition ir_test (op : string) (s : ShellIR) : ShellIR :=
  Raw ("[ " +:+ op +:+ " " +:+ dq +:+ match s with
                                       | IRExpr (ExVariable v) => var_or_empty v
                                       | Raw s => s
                                       | other => to_bash other
                                       end +:+ dq +:+ " ]").
Definition ir_empty : ShellIR → ShellIR := ir_test "-z".
Definition ir_non_empty : ShellIR → ShellIR := ir_test "-n".

(** ** Pipelines *)

Inductive PipelineStep :=
  | StepSequential (cmd : string)
  | StepAnd (cmd : string)
  | StepOr (cmd : string)
  | StepPipe (cmd : string)
  | StepIfElse (condition : string) (then_branch : ScriptPipeline) (else_branch : option ScriptPipeline)
with ScriptPipeline :=
  | mkPipeline (working_dir : option string) (env_vars : list (string * string)) (steps : list PipelineStep)
      (trace verbose_headers : bool).

(** The lines of a branch *)
Definition branch_text (compiled : string) : string :=
  if str_is_empty (trim compiled) then "    :" +:+ newline
  else String.concat "" (map (λ line, "    " +:+ line +:+ newline) (lines compiled)).

Fixpoint compile_inner (p : ScriptPipeline) : string :=
  match p with
  | mkPipeline dir env steps _ headers =>
      String.concat "" (map (λ kv, "export " +:+ kv.1 +:+ "=" +:+ shell_single_quote kv.2 +:+ newline) env)
      +:+ match dir with Some d => "cd " +:+ shell_single_quote d +:+ newline | None => "" end
      +:+ String.concat "" (imap (λ i f, f i) (map (compile_step headers) steps))
  end
with compile_step (headers : bool) (s : PipelineStep) (i : nat) : string :=
  match s with
  | StepSequential cmd =>
      (if bool_decide (i = 0) then "" else newline)
      +:+ (if headers then "echo " +:+ chr squote +:+ "=== [Step " +:+ i64_to_string (Z.of_nat i + 1) +:+ "] ===" +:+ chr squote +:+ newline
           else "")
      +:+ cmd
  | StepAnd cmd => " && " +:+ cmd
  | StepOr cmd => " || " +:+ cmd
  | StepPipe cmd => " | " +:+ cmd
  | StepIfElse condition then_branch else_branch =>
      (if bool_decide (i = 0) then "" else newline)
      +:+ "if " +:+ condition +:+ "; then" +:+ newline +:+ branch_text (compile_inner then_branch)
      +:+ match else_branch with
          | Some eb => "else" +:+ newline +:+ branch_text (compile_inner eb)
          | None => ""
          end
      +:+ "fi"
  end.

Definition compile (p : ScriptPipeline) : string :=
  match p with
  | mkPipeline _ _ _ trace _ =>
      "set -e" +:+ newline +:+ (if trace then "set -x" +:+ newline else "") +:+ compile_inner p +:+ newline
  end.

(** * Shell text: what scripts mean

    A rendered condition is an and-or list of the shell grammar, whose status is that of the
    condition; the blocks of scripts are indented line by line, which reaches into quoted text. *)

(** ** And-or lists *)

Inductive CondTok := TAtom (text : string) | TBang | TAndIf | TOrIf | TOpen | TClose.
Definition tok_text (t : CondTok) : string :=
  match t with
  | TAtom s => s
  | TBang => "! "
  | TAndIf => " && "
  | TOrIf => " || "
  | TOpen => "("
  | TClose => ")"
  end.
Definition toks_text (l : list CondTok) : string := foldr (λ t s, tok_text t +:+ s) "" l.

Definition parens (l : list CondTok) : list CondTok := TOpen :: l ++ [TClose].
Fixpoint cond_toks (c : Condition) (parent : option Parent) : list CondTok :=
  match c with
  | DirExists _ | FileExists _ | CmdSucceeds _ | EnvSet _ => [TAtom (cond_to_bash_inner c None)]
  | CNot c => TBang :: cond_toks c (Some InNot)
  | CAnd a b =>
      let s := cond_toks a (Some InAnd) ++ TAndIf :: cond_toks b (Some InAnd) in
      match parent with Some InNot | Some InOr => parens s | _ => s end
  | COr a b =>
      let s := cond_toks a (Some InOr) ++ TOrIf :: cond_toks b (Some InOr) in
      match parent with Some InAnd | Some InNot => parens s | _ => s end
  end.

Lemma toks_text_app l l' : toks_text (l ++ l') = toks_text l +:+ toks_text l'.
Proof. induction l as [|t l IH]; simpl; [done|]. by rewrite IH, str_app_assoc. Qed.

(** The tokens spell the text. *)
Lemma cond_toks_text c : ∀ parent, toks_text (cond_toks c parent) = cond_to_bash_inner c parent.
Proof.
  induction c as [p|p|s|k|c IH|a IHa b IHb|a IHa b IHb]; intros parent; simpl; rewrite ?str_app_nil_r; try done.
  - by rewrite IH.
  - destruct parent as [[]|]; simpl; rewrite ?toks_text_app; simpl; rewrite ?toks_text_app; simpl;
      rewrite IHa, IHb, ?str_app_assoc; done.
  - destruct parent as [[]|]; simpl; rewrite ?toks_text_app; simpl; rewrite ?toks_text_app; simpl;
      rewrite IHa, IHb, ?str_app_assoc; done.
Qed.

Section meaning.
(** Whether a simple command succeeds *)
Context (succeeds : string → bool).

Definition joins (l : list CondTok) : bool := match l with TAndIf :: _ | TOrIf :: _ => true | _ => false end.

(** The grammar of lists: both operators associate to the left and bind alike, [!] comes at most once
    before a command.  The last two arguments are the status and the rest of the input. *)
Inductive list_ev : list CondTok → bool → list CondTok → Prop :=
  | ev_list l b r b' r' : pipe_ev l b r → tail_ev b r b' r' → list_ev l b' r'
with tail_ev : bool → list CondTok → bool → list CondTok → Prop :=
  | ev_stop acc r : joins r = false → tail_ev acc r acc r
  | ev_and acc l b r b' r' : pipe_ev l b r → tail_ev (acc && b) r b' r' → tail_ev acc (TAndIf :: l) b' r'
  | ev_or acc l b r b' r' : pipe_ev l b r → tail_ev (acc || b) r b' r' → tail_ev acc (TOrIf :: l) b' r'
with pipe_ev : list CondTok → bool → list CondTok → Prop :=
  | ev_bang l b r : cmd_ev l b r → pipe_ev (TBang :: l) (negb b) r
  | ev_pipe l b r : cmd_ev l b r → pipe_ev l b r
with cmd_ev : list CondTok → bool → list CondTok → Prop :=
  | ev_atom s r : cmd_ev (TAtom s :: r) (succeeds s) r
  | ev_parens l b r : list_ev l b (TClose :: r) → cmd_ev (TOpen :: l) b r.

Scheme list_ev_ind' := Minimality for list_ev Sort Prop
  with tail_ev_ind' := Minimality for tail_ev Sort Prop
  with pipe_ev_ind' := Minimality for pipe_ev Sort Prop
  with cmd_ev_ind' := Minimality for cmd_ev Sort Prop.
Combined Scheme ev_ind from list_ev_ind', tail_ev_ind', pipe_ev_ind', cmd_ev_ind'.

(** The grammar reads a text in one way. *)
Lemma ev_det :
  (∀ l b r, list_ev l b r → ∀ b' r', list_ev l b' r' → b = b' ∧ r = r')
  ∧ (∀ acc l b r, tail_ev acc l b r → ∀ b' r', tail_ev acc l b' r' → b = b' ∧ r = r')
  ∧ (∀ l b r, pipe_ev l b r → ∀ b' r', pipe_ev l b' r' → b = b' ∧ r = r')
  ∧ (∀ l b r, cmd_ev l b r → ∀ b' r', cmd_ev l b' r' → b = b' ∧ r = r').
Proof.
  apply ev_ind.
  - intros l b r b' r' _ IHp _ IHt b2 r2 H. inversion H; subst.
    match goal with H : pipe_ev l _ _ |- _ => destruct (IHp _ _ H) as [-> ->] end. eauto.
  - intros acc r Hr b2 r2 H. inversion H; subst; simpl in Hr; done.
  - intros acc l b r b' r' _ IHp _ IHt b2 r2 H. inversion H; subst; [done|].
    match goal with H : pipe_ev l _ _ |- _ => destruct (IHp _ _ H) as [-> ->] end. eauto.
  - intros acc l b r b' r' _ IHp _ IHt b2 r2 H. inversion H; subst; [done|].
    match goal with H : pipe_ev l _ _ |- _ => destruct (IHp _ _ H) as [-> ->] end. eauto.
  - intros l b r _ IH b2 r2 H. inversion H; subst.
    + match goal with H : cmd_ev l _ _ |- _ => destruct (IH _ _ H) as [-> ->] end. done.
    + match goal with H : cmd_ev (TBang :: _) _ _ |- _ => inversion H end.
  - intros l b r Hc IH b2 r2 H. inversion H; subst; [inversion Hc | eauto].
  - intros s r b2 r2 H. by inversion H.
  - intros l b r _ IH b2 r2 H. inversion H; subst.
    match goal with H : list_ev l _ _ |- _ => destruct (IH _ _ H) end. by simplify_eq.
Qed.

(** The meaning of a condition *)
Fixpoint holds (c : Condition) : bool :=
  match c with
  | CNot c => negb (holds c)
  | CAnd a b => holds a && holds b
  | COr a b => holds a || holds b
  | c => succeeds (cond_to_bash_inner c None)
  end.

Definition is_not (c : Condition) : bool := match c with CNot _ => true | _ => false end.
Fixpoint single_negations (c : Condition) : bool :=
  match c with
  | CNot c => negb (is_not c) && single_negations c
  | CAnd a b | COr a b => single_negations a && single_negations b
  | _ => true
  end.

(** A condition among the operands of a list of [&&] or of [||]: it can start the list or go on with it. *)
Record operand (op : bool → bool → bool) (tok : CondTok) (l : list CondTok) (b : bool) : Prop := {
  op_start : ∀ rest b' r', tail_ev b rest b' r' → list_ev (l ++ rest) b' r';
  op_next : ∀ acc rest b' r', tail_ev (op acc b) rest b' r' → tail_ev acc (tok :: l ++ rest) b' r';
}.

Definition and_operand := operand andb TAndIf.
Definition or_operand := operand orb TOrIf.

Lemma pipe_operands l b : (∀ rest, pipe_ev (l ++ rest) b rest) → and_operand l b ∧ or_operand l b.
Proof. intros Hp. split; (split; intros; [by eapply ev_list | by econstructor]). Qed.

Lemma and_chain la a lb b : and_operand la a → and_operand lb b → and_operand (la ++ TAndIf :: lb) (a && b).
Proof.
  intros Ha Hb. split; intros; rewrite <-app_assoc; simpl.
  - by eapply op_start, op_next.
  - eapply op_next, op_next; [done..|]. by rewrite <-andb_assoc.
Qed.
Lemma or_chain la a lb b : or_operand la a → or_operand lb b → or_operand (la ++ TOrIf :: lb) (a || b).
Proof.
  intros Ha Hb. split; intros; rewrite <-app_assoc; simpl.
  - by eapply op_start, op_next.
  - eapply op_next, op_next; [done..|]. by rewrite <-orb_assoc.
Qed.

Lemma operand_parens op tok l b : operand op tok l b → ∀ rest, pipe_ev (parens l ++ rest) b rest.
Proof.
  intros Hl rest. unfold parens. simpl. apply ev_pipe, ev_parens. rewrite <-app_assoc.
  eapply op_start; [done|]. by apply ev_stop.
Qed.

Lemma cond_operands c : single_negations c = true →
  and_operand (cond_toks c (Some InAnd)) (holds c)
  ∧ or_operand (cond_toks c (Some InOr)) (holds c)
  ∧ (is_not c = false → ∀ rest, cmd_ev (cond_toks c (Some InNot) ++ rest) (holds c) rest).
Proof.
  induction c as [p|p|s|k|c IH|a IHa b IHb|a IHa b IHb]; intros Hs;
    try (split_and!; [eapply pipe_operands; intros; by apply ev_pipe, ev_atom..|intros; by apply ev_atom]).
  - simpl in Hs. apply andb_true_iff in Hs as [Hn Hs]. apply negb_true_iff in Hn.
    destruct (IH Hs) as (_ & _ & Hc). split_and!; [eapply pipe_operands; intros; by apply ev_bang, Hc..|done].
  - simpl in Hs. apply andb_true_iff in Hs as [Ha Hb].
    destruct (IHa Ha) as (Ha1 & _ & _), (IHb Hb) as (Hb1 & _ & _).
    pose proof (and_chain _ _ _ _ Ha1 Hb1) as Hand. pose proof (operand_parens _ _ _ _ Hand) as Hp.
    split_and!; [done|by apply pipe_operands|]. intros _ rest. specialize (Hp rest). by inversion Hp.
  - simpl in Hs. apply andb_true_iff in Hs as [Ha Hb].
    destruct (IHa Ha) as (_ & Ha1 & _), (IHb Hb) as (_ & Hb1 & _).
    pose proof (or_chain _ _ _ _ Ha1 Hb1) as Hor. pose proof (operand_parens _ _ _ _ Hor) as Hp.
    split_and!; [by apply pipe_operands|done|]. intros _ rest. specialize (Hp rest). by inversion Hp.
Qed.

Lemma cond_list c : single_negations c = true → list_ev (cond_toks c None) (holds c) [].
Proof.
  intros Hs. destruct (cond_operands c Hs) as (Ha & Ho & _).
  assert (list_ev (cond_toks c (Some InAnd) ++ []) (holds c) []) as H1 by (eapply op_start; [done | by apply ev_stop]).
  assert (list_ev (cond_toks c (Some InOr) ++ []) (holds c) []) as H2 by (eapply op_start; [done | by apply ev_stop]).
  rewrite app_nil_r in *. by destruct c.
Qed.

(** The text of a condition without doubled negations is a sequence of words that the grammar of
    shell lists evaluates to exactly the value of the condition: conjunctions, alternatives and
    negations are parenthesised where the left-to-right reading of the shell would differ. *)
Theorem condition_meaning c :
  single_negations c = true →
  toks_text (cond_toks c None) = cond_to_bash c
  ∧ ∀ b, list_ev (cond_toks c None) b [] ↔ b = holds c.
Proof.
  intros Hs. split; [apply cond_toks_text|]. intros b. pose proof (cond_list c Hs) as Hc. split.
  - intros Hb. by destruct (proj1 ev_det _ _ _ Hb _ _ Hc).
  - by intros ->.
Qed.
End meaning.

Lemma condition_meaning_witness :
  let c := COr (CAnd (DirExists "/a") (CNot (COr (FileExists "/b") (EnvSet "X")))) (CmdSucceeds "git status") in
  let up (s : string) := bool_decide (s = "[ -d '/a' ]") in
  toks_text (cond_toks c None) = cond_to_bash c ∧ (list_ev up (cond_toks c None) true [] ↔ true = holds up c).
Proof.
  intros c up. destruct (condition_meaning up c) as [Ht Hm]; [reflexivity|]. split; [exact Ht | exact (Hm true)].
Defined.

(** As the tests of [condition.rs] expect *)
Example condition_text :
  cond_to_bash (COr (CAnd (DirExists "/a") (FileExists "/b")) (CmdSucceeds "x")) = "([ -d '/a' ] && [ -f '/b' ]) || x"
  ∧ cond_to_bash (CNot (CAnd (DirExists "/a") (FileExists "/b"))) = "! ([ -d '/a' ] && [ -f '/b' ])".
Proof. by vm_compute. Qed.

(** A command that is a list itself is not put in parentheses: its negation reads as that of its first part. *)
Example negated_list_is_ambiguous :
  cond_to_bash (CNot (CmdSucceeds "a && b")) = cond_to_bash (CAnd (CNot (CmdSucceeds "a")) (CmdSucceeds "b"))
  ∧ holds (λ s, bool_decide (s = "c")) (CNot (CmdSucceeds "a && b"))
    ≠ holds (λ s, bool_decide (s = "c")) (CAnd (CNot (CmdSucceeds "a")) (CmdSucceeds "b")).
Proof. by vm_compute. Qed.

(** A double negation is not a command of the grammar. *)
Lemma double_negation_is_no_command succeeds c b r :
  list_ev succeeds (cond_toks (CNot (CNot c)) None) b r → False.
Proof.
  simpl. intros H. inversion H; subst. match goal with H : pipe_ev _ _ _ _ |- _ => inversion H; subst end;
    match goal with H : cmd_ev _ (TBang :: _) _ _ |- _ => inversion H end.
Qed.

(** ** Blocks *)

Lemma split_on_nl_none s : nl ∉ chars s → split_on (λ c, is_char c nl) s = [s].
Proof.
  intros Hs. apply split_on_none. apply Forall_forall. intros c Hc. apply is_char_false. by intros ->.
Qed.

Lemma lines_one s : nl ∉ chars s → s ≠ "" → lines s = [s].
Proof.
  intros Hs Hne. unfold lines. rewrite split_on_nl_none by done. simpl. unfold str_is_empty.
  by rewrite bool_decide_eq_false_2.
Qed.

(** A command on one line is only moved to the right. *)
Lemma indent_one s : nl ∉ chars s → s ≠ "" → indent s = "    " +:+ s.
Proof.
  intros Hs Hne. unfold indent. rewrite lines_one by done. simpl. unfold str_is_empty.
  by rewrite bool_decide_eq_false_2.
Qed.

(** A literal with a line break inside a block is changed by the indentation of the block. *)
Definition two_lines : string := "first" +:+ newline +:+ "second".
Example indentation_changes_literals :
  let c := mkCommand "printf" [ArgLiteral two_lines] in
  sh no_env (command_to_bash c) = Some ["printf"; two_lines]
  ∧ to_bash (If (Raw "true") [IRCommand c] None)
    = join newline ["if true; then"; indent (command_to_bash c); "fi"]
  ∧ sh no_env (trim (indent (command_to_bash c))) = Some ["printf"; "first" +:+ newline +:+ "    second"].
Proof. by vm_compute. Qed.

Example indentation_changes_pipelines :
  let cmd := build_words ["printf"; two_lines] in
  lines (compile (mkPipeline None [] [StepIfElse "true" (mkPipeline None [] [StepSequential cmd] false false) None] false false))
  = ["set -e"; "if true; then"; "    'printf' 'first"; "    second'"; "fi"].
Proof. by vm_compute. Qed.

(** The text of a retry has a line that begins with an operator. *)
Example retry_breaks_the_line :
  lines (to_bash (Retry (Raw "5") [IRCommand (mkCommand "curl" [ArgLiteral "http://x"])]))
  = ["for i in $(seq 1 5); do"; "    curl 'http://x'"; "    && break || sleep 1"; "done"].
Proof. by vm_compute. Qed.

(** The file of an appending redirection is not quoted. *)
Example append_target_is_not_quoted :
  to_bash (ir_append (Raw "echo x") "a; reboot") = "echo x >> a; reboot"
  ∧ to_bash (ir_stdout (Raw "echo x") (TargetFile "a; reboot")) = "echo x > 'a; reboot'".
Proof. by vm_compute. Qed.

Example elif_chain :
  to_bash (If (Raw "a") [Raw "x"] (Some [If (Raw "b") [Raw "y"] (Some [Raw "z"])]))
  = join newline ["if a; then"; "    x"; "elif b; then"; "    y"; "else"; "    z"; "fi"].
Proof. by vm_compute. Qed.
