(* ===== verification/ComposeYaml.v ===== *)
(** * YAML documents

    [serde_yaml::Value] as the builder of compose projects uses it: a mapping keeps its entries in
    the order in which their keys came, [insert] replaces the value of a key that is there. *)

From stdpp Require Import gmap strings list.
From Stdlib Require Import ZArith Lia Ascii.
From S2P Require Import Prelude RustStr RustText.

Inductive Value :=
  | VNull
  | VBool (b : bool)
  | VNumber (text : string)
  | VString (s : string)
  | VSequence (l : list Value)
  | VMapping (m : list (Value * Value))
  | VTagged (tag : string) (v : Value).

Notation Mapping := (list (Value * Value)).

(** Equality of values; two mappings are equal when they hold the same entries, in any order. *)
Fixpoint value_eqb (a b : Value) : bool :=
  match a, b with
  | VNull, VNull => true
  | VBool x, VBool y => Bool.eqb x y
  | VNumber x, VNumber y => bool_decide (x = y)
  | VString x, VString y => bool_decide (x = y)
  | VSequence l, VSequence l' =>
      (fix go l l' := match l, l' with
                      | [], [] => true
                      | x :: l, y :: l' => value_eqb x y && go l l'
                      | _, _ => false
                      end) l l'
  | VMapping m, VMapping m' =>
      (length m =? length m')%nat &&
      (fix go m := match m with
                   | [] => true
                   | (k, v) :: m => existsb (λ p, value_eqb k p.1 && value_eqb v p.2) m' && go m
                   end) m
  | VTagged t v, VTagged t' v' => bool_decide (t = t') && value_eqb v v'
  | _, _ => false
  end.

(** [as_str], [as_mapping] and [as_sequence] look through tags; a pattern on the constructor does not. *)
Fixpoint as_str (v : Value) : option string :=
  match v with VString s => Some s | VTagged _ v => as_str v | _ => None end.
Fixpoint as_mapping (v : Value) : option Mapping :=
  match v with VMapping m => Some m | VTagged _ v => as_mapping v | _ => None end.
Fixpoint as_sequence (v : Value) : option (list Value) :=
  match v with VSequence l => Some l | VTagged _ v => as_sequence v | _ => None end.
(** An update through [as_mapping_mut] and through [as_sequence_mut] *)
Fixpoint on_mapping (f : Mapping → Mapping) (v : Value) : Value :=
  match v with VMapping m => VMapping (f m) | VTagged t v => VTagged t (on_mapping f v) | v => v end.
Fixpoint on_sequence (f : list Value → list Value) (v : Value) : Value :=
  match v with VSequence l => VSequence (f l) | VTagged t v => VTagged t (on_sequence f v) | v => v end.

(** A key is the text [name]. *)
Definition is_str (name : string) (v : Value) : bool :=
  match v with VString s => bool_decide (s = name) | _ => false end.

(** [get], [insert], [remove], and [get_mut] with an update, by a string key *)
Definition mget (name : string) (m : Mapping) : option Value := snd <$> head (List.filter (λ p, is_str name p.1) m).
Fixpoint minsert (k v : Value) (m : Mapping) : Mapping :=
  match m with
  | [] => [(k, v)]
  | (k', v') :: m => if value_eqb k k' then (k', v) :: m else (k', v') :: minsert k v m
  end.
(** [remove] puts the last entry into the place of the one it removes. *)
Fixpoint mremove (name : string) (m : Mapping) : Mapping :=
  match m with
  | [] => []
  | (k, v) :: m' =>
      if is_str name k then match last m' with Some p => p :: removelast m' | None => [] end
      else (k, v) :: mremove name m'
  end.
Fixpoint mupdate (name : string) (f : Value → Value) (m : Mapping) : Mapping :=
  match m with
  | [] => []
  | (k, v) :: m => if is_str name k then (k, f v) :: m else (k, v) :: mupdate name f m
  end.
(** [entry(key).or_insert(v)] *)
Definition mentry (name : string) (v : Value) (m : Mapping) : Mapping :=
  match mget name m with Some _ => m | None => m ++ [(VString name, v)] end.
(** [values_mut] with an update *)
Definition mmap_values (f : Value → Value) (m : Mapping) : Mapping := map (λ p, (p.1, f p.2)) m.

(** The texts among the keys *)
Definition names (m : Mapping) : list string := omap (λ p, as_str p.1) m.
Definition mapping_at (m : Mapping) (name : string) : option Mapping := mget name m ≫= as_mapping.
(** The keys are different texts, as in every compose file. *)
Definition key_is_text (k : Value) : bool := match k with VString _ => true | _ => false end.
Definition text_keys (m : Mapping) : bool := forallb (λ p, key_is_text p.1) m && bool_decide (NoDup (names m)).

(** ** Facts *)

Lemma is_str_spec name v : is_str name v = true ↔ v = VString name.
Proof.
  destruct v; simpl; rewrite ?bool_decide_eq_true; split; congruence.
Qed.
Lemma is_str_false name v : is_str name v = false ↔ v ≠ VString name.
Proof. rewrite <-is_str_spec. by destruct (is_str name v). Qed.

Lemma value_eqb_string s v : value_eqb (VString s) v = is_str s v.
Proof. destruct v; try done. simpl. apply bool_decide_ext. naive_solver. Qed.
Lemma value_eqb_as_str a b : value_eqb a b = true → as_str a = as_str b.
Proof.
  revert b. induction a as [| | |x| | |t x IH]; intros v; destruct v; simpl; try done.
  - by intros ->%bool_decide_eq_true.
  - intros [_ H]%andb_true_iff. by apply IH.
Qed.
Lemma value_eqb_is_str a b name : value_eqb a b = true → is_str name a = is_str name b.
Proof. destruct a, b; simpl; try done. by intros ->%bool_decide_eq_true. Qed.

Lemma is_str_refl n : is_str n (VString n) = true.
Proof. by apply is_str_spec. Qed.
Lemma is_str_ne n n' : n ≠ n' → is_str n (VString n') = false.
Proof. intros H. apply is_str_false. congruence. Qed.
#[local] Opaque is_str.
#[global] Arguments names : simpl never.
#[global] Arguments mget : simpl never.

Lemma mget_cons name k v m : mget name ((k, v) :: m) = if is_str name k then Some v else mget name m.
Proof. unfold mget. simpl. by destruct (is_str name k). Qed.
Lemma mget_app name m m' : mget name (m ++ m') = match mget name m with Some v => Some v | None => mget name m' end.
Proof.
  induction m as [|[k v] m IH]; [done|]. simpl. rewrite !mget_cons. by destruct (is_str name k).
Qed.
Lemma mget_Some name m v : mget name m = Some v → (VString name, v) ∈ m.
Proof.
  induction m as [|[k w] m IH]; [done|]. rewrite mget_cons. destruct (is_str name k) eqn:E.
  - intros [= ->]. apply is_str_spec in E as ->. apply elem_of_cons. by left.
  - intros H. apply elem_of_cons. right. by apply IH.
Qed.

Lemma mget_insert name k v m :
  mget name (minsert k v m) = if is_str name k then Some v else mget name m.
Proof.
  induction m as [|[k' v'] m IH]; simpl.
  { rewrite mget_cons. by destruct (is_str name k). }
  destruct (value_eqb k k') eqn:E; rewrite !mget_cons.
  - rewrite (value_eqb_is_str _ _ name E).
    by destruct (is_str name k').
  - rewrite IH. destruct (is_str name k') eqn:E'; [|done]. destruct (is_str name k) eqn:Ek; [|done].
    apply is_str_spec in E', Ek. subst. rewrite value_eqb_string in E.
    by rewrite is_str_refl in E.
Qed.

Lemma mget_update name name' f m :
  mget name (mupdate name' f m) = if bool_decide (name = name') then f <$> mget name m else mget name m.
Proof.
  induction m as [|[k v] m IH]; simpl; [by case_bool_decide|].
  destruct (is_str name' k) eqn:E; rewrite !mget_cons.
  - apply is_str_spec in E as ->. case_bool_decide as Hn; [subst|].
    + by rewrite is_str_refl.
    + by rewrite is_str_ne by done.
  - rewrite IH. case_bool_decide as Hn; [subst; by rewrite E | done].
Qed.

Lemma mget_entry name name' v m :
  mget name (mentry name' v m)
  = if bool_decide (name = name') then Some (default v (mget name m)) else mget name m.
Proof.
  unfold mentry. destruct (mget name' m) eqn:E; case_bool_decide as Hn; subst; rewrite ?E; try done;
    rewrite mget_app, mget_cons; unfold mget at 2; simpl.
  - by rewrite E, is_str_refl.
  - rewrite is_str_ne by done. by destruct (mget name m).
Qed.

Lemma names_cons k v m : names ((k, v) :: m) = match as_str k with Some n => n :: names m | None => names m end.
Proof. done. Qed.
Lemma names_elem n m : n ∈ names m ↔ ∃ k v, (k, v) ∈ m ∧ as_str k = Some n.
Proof.
  unfold names. rewrite list_elem_of_omap. split.
  - intros ([k v] & Hin & Hk). by exists k, v.
  - intros (k & v & Hin & Hk). by exists (k, v).
Qed.
Lemma mget_names n m v : mget n m = Some v → n ∈ names m.
Proof. intros H%mget_Some. apply names_elem. by exists (VString n), v. Qed.

Lemma names_insert n k v m : n ∈ names (minsert k v m) ↔ as_str k = Some n ∨ n ∈ names m.
Proof.
  induction m as [|[k' v'] m IH]; simpl.
  { rewrite names_cons. destruct (as_str k) as [x|]; rewrite ?elem_of_cons; [naive_solver|]. naive_solver. }
  destruct (value_eqb k k') eqn:E; rewrite !names_cons.
  - rewrite (value_eqb_as_str _ _ E). destruct (as_str k') as [x|]; rewrite ?elem_of_cons; naive_solver.
  - destruct (as_str k') as [x|]; rewrite ?elem_of_cons, IH; naive_solver.
Qed.
Lemma elem_of_insert p k v m : p ∈ minsert k v m → p.2 = v ∨ p ∈ m.
Proof.
  induction m as [|[k' v'] m IH]; simpl.
  - intros ->%list_elem_of_singleton. by left.
  - destruct (value_eqb k k') eqn:E; rewrite !elem_of_cons; naive_solver.
Qed.
Lemma elem_of_insert_all (f : Value → Value) l m p :
  p ∈ foldl (λ m q, minsert (f q.1) q.2 m) m l → (∃ k, (k, p.2) ∈ l) ∨ p ∈ m.
Proof.
  revert m. induction l as [|[k v] l IH]; intros m; simpl; [by right|].
  intros [[k' Hk]|H]%IH; [left; exists k'; set_solver|].
  apply elem_of_insert in H as [H|H]; [left; exists k; rewrite H; set_solver | by right].
Qed.
Lemma names_insert_all (f : Value → Value) l m n :
  n ∈ names (foldl (λ m q, minsert (f q.1) q.2 m) m l)
  ↔ (∃ k v, (k, v) ∈ l ∧ as_str (f k) = Some n) ∨ n ∈ names m.
Proof.
  revert m. induction l as [|[k v] l IH]; intros m; simpl; [set_solver|].
  rewrite IH, names_insert. simpl. setoid_rewrite elem_of_cons. naive_solver.
Qed.

Lemma names_map_values f m : names (mmap_values f m) = names m.
Proof.
  induction m as [|[k v] m IH]; [done|]. change (mmap_values f ((k, v) :: m)) with ((k, f v) :: mmap_values f m).
  rewrite !names_cons. by rewrite IH.
Qed.
Lemma names_update name f m : names (mupdate name f m) = names m.
Proof.
  induction m as [|[k v] m IH]; [done|]. simpl. destruct (is_str name k); rewrite !names_cons; [done|]. by rewrite IH.
Qed.
Lemma elem_of_map_values p f m : p ∈ mmap_values f m ↔ ∃ v, p.2 = f v ∧ (p.1, v) ∈ m.
Proof.
  unfold mmap_values. rewrite elem_of_mapb. split.
  - intros ([k v] & -> & Hin). by exists v.
  - intros (v & Hf & Hin). exists (p.1, v). split; [|done]. simpl. rewrite <-Hf. by destruct p.
Qed.

(** Removing a key keeps the other entries, in another order. *)
Lemma elem_of_remove p name m : p ∈ mremove name m → p ∈ m.
Proof.
  induction m as [|[k v] m IH]; simpl; [done|]. destruct (is_str name k).
  - destruct (last m) as [x|] eqn:El; [|by intros ?%elem_of_nil]. apply last_Some in El as [m' ->].
    rewrite removelast_last. set_solver.
  - rewrite !elem_of_cons. naive_solver.
Qed.
Lemma mremove_perm name m :
  text_keys m = true → mremove name m ≡ₚ List.filter (λ p, negb (is_str name p.1)) m.
Proof.
  unfold text_keys. rewrite andb_true_iff, bool_decide_eq_true. intros [Ht Hnd].
  induction m as [|[k v] m IH]; simpl in *; [done|].
  apply andb_true_iff in Ht as [Hk Ht]. destruct k as [| | |s| | |]; try done. rewrite names_cons in Hnd. simpl in Hnd.
  apply NoDup_cons in Hnd as [Hnin Hnd]. destruct (is_str name (VString s)) eqn:E; simpl.
  - apply is_str_spec in E. simplify_eq.
    assert (List.filter (λ p, negb (is_str name p.1)) m = m) as ->.
    { apply filterb_all_true. intros [k' v'] Hin. apply negb_true_iff, is_str_false. intros He. simpl in He. subst.
      apply Hnin, names_elem. by exists (VString name), v'. }
    destruct (last m) as [p|] eqn:El.
    + apply last_Some in El as [m' ->]. rewrite removelast_last. apply Permutation_cons_append.
    + by apply last_None in El as ->.
  - constructor. by apply IH.
Qed.
Lemma names_remove n name m :
  text_keys m = true → n ∈ names (mremove name m) ↔ n ≠ name ∧ n ∈ names m.
Proof.
  intros Ht. pose proof Ht as [Hk _]%andb_true_iff. pose proof (proj1 (forallb_elem _ _) Hk) as Hk'. clear Hk. rename Hk' into Hk. rewrite !names_elem.
  setoid_rewrite (mremove_perm name m Ht). setoid_rewrite elem_of_filterb. simpl. split.
  - intros (k & v & [Hin Hn%negb_true_iff] & Hs). specialize (Hk _ Hin). destruct k; simplify_eq/=.
    apply is_str_false in Hn. split; [congruence|]. by eexists _, v.
  - intros (Hn & k & v & Hin & Hs). specialize (Hk _ Hin). destruct k; simplify_eq/=. exists (VString n), v.
    split; [|done]. split; [done|]. by rewrite is_str_ne by congruence.
Qed.
