(* ===== verification/ComposeTransform.v ===== *)
(** * Rewriting compose files

    [utils/builder/compose/transform.rs]: what the builder and the compose management service do
    to the text of a compose file.  [transform_compose] gives every name a suffix and attaches the
    services to a network of their own; [remove_service], [upsert_resource] and [remove_resource]
    edit a stored file.  The reader and the printer of YAML are [serde_yaml]'s: parameters. *)

From stdpp Require Import gmap strings list.
From Stdlib Require Import ZArith Lia Ascii.
From S2P Require Import Prelude RustStr RustText ComposeYaml.

(** The errors of [ExecResult] these functions return, and a panic *)
Inductive ExecError := CommandFailed (stderr : string) | YamlError | Panicked (message : string).
Definition command_error {A} (message : string) : result A ExecError := Err (CommandFailed message).

Definition colon : ascii := ":".
(** [format!("{name}-{suffix}")] *)
Definition suffixed (suffix name : string) : string := name +:+ "-" +:+ suffix.

(** ** Renaming *)

Definition renamed_key (suffix : string) (preserve : option string) (key : Value) : Value :=
  match as_str key with
  | Some name => if bool_decide (preserve = Some name) then key else VString (suffixed suffix name)
  | None => key
  end.
Definition rename_mapping (suffix : string) (preserve : option string) (original : Mapping) : Mapping :=
  foldl (λ mapping p, minsert (renamed_key suffix preserve p.1) p.2 mapping) [] original.
Definition rename_services (suffix : string) (original : Mapping) : Mapping :=
  foldl (λ services p,
           minsert (match as_str p.1 with Some name => VString (suffixed suffix name) | None => p.1 end) p.2 services)
    [] original.
Definition rename_root_mapping (field suffix : string) (preserve : option string) : Mapping → Mapping :=
  mupdate field (on_mapping (rename_mapping suffix preserve)).

Definition suffix_reference (suffix value : string) : string :=
  let '(name, remainder) := default (value, "") (split_once colon value) in
  if str_is_empty remainder then suffixed suffix name
  else suffixed suffix name +:+ ":" +:+ remainder.

Definition suffix_field_value (suffix : string) (value : Value) : Value :=
  match value with
  | VSequence items =>
      VSequence (map (λ item, match item with VString v => VString (suffix_reference suffix v) | item => item end) items)
  | VMapping mapping => VMapping (rename_mapping suffix None mapping)
  | value => value
  end.
Definition suffix_reference_field (field suffix : string) : Mapping → Mapping :=
  mupdate field (suffix_field_value suffix).

(** [push('-')] and [push_str(suffix)] on a text *)
Definition suffix_string (suffix : string) (v : Value) : Value :=
  match v with VString name => VString (suffixed suffix name) | v => v end.

Definition suffix_extends (suffix : string) (extends : Value) : Value :=
  match extends with
  | VString name => VString (suffix_reference suffix name)
  | VMapping map =>
      VMapping (mupdate "service"
                  (λ v, match v with VString name => VString (suffix_reference suffix name) | v => v end) map)
  | extends => extends
  end.

Definition suffix_service_refs (suffix : string) (service : Mapping) : Mapping :=
  let service := suffix_reference_field "depends_on" suffix service in
  let service := suffix_reference_field "links" suffix service in
  let service := suffix_reference_field "volumes_from" suffix service in
  let service := mupdate "container_name" (suffix_string suffix) service in
  mupdate "extends" (suffix_extends suffix) service.

Definition is_path_source (source : string) : bool :=
  starts_with "." source || starts_with "/" source || starts_with "$" source.

Definition suffix_volume (suffix : string) (volume : Value) : Value :=
  match volume with
  | VString value =>
      match split_once colon value with
      | None => volume
      | Some (source, remainder) =>
          if is_path_source source then volume else VString (suffixed suffix source +:+ ":" +:+ remainder)
      end
  | VMapping map =>
      if bool_decide (mget "type" map ≫= as_str = Some "volume")
      then VMapping (mupdate "source" (suffix_string suffix) map) else volume
  | volume => volume
  end.
Definition suffix_volumes_value (suffix : string) (value : Value) : Value :=
  match value with VSequence volumes => VSequence (map (suffix_volume suffix) volumes) | value => value end.
Definition suffix_named_volumes (suffix : string) : Mapping → Mapping :=
  mupdate "volumes" (suffix_volumes_value suffix).

(** A name that is not the one to preserve gets the suffix. *)
Definition suffix_unless (suffix : string) (preserve : option string) (v : Value) : Value :=
  match v with
  | VString name => if bool_decide (preserve = Some name) then v else VString (suffixed suffix name)
  | v => v
  end.
Definition suffix_resource_item (suffix : string) (preserve : option string) (item : Value) : Value :=
  match item with
  | VString _ => suffix_unless suffix preserve item
  | VMapping map => VMapping (mupdate "source" (suffix_unless suffix preserve) map)
  | item => item
  end.
Definition suffix_resource_value (suffix : string) (preserve : option string) (value : Value) : Value :=
  match value with
  | VSequence items => VSequence (map (suffix_resource_item suffix preserve) items)
  | VMapping mapping => VMapping (rename_mapping suffix preserve mapping)
  | value => value
  end.
Definition suffix_resource_refs (field suffix : string) (preserve : option string) : Mapping → Mapping :=
  mupdate field (suffix_resource_value suffix preserve).

Definition NETWORK : string := "openoxide-network".

(** What the loop over the services does to one of them *)
Definition randomize_service (suffix : string) (service : Mapping) : Mapping :=
  let service := suffix_service_refs suffix service in
  let service := suffix_named_volumes suffix service in
  let service := suffix_resource_refs "networks" suffix (Some NETWORK) service in
  let service := suffix_resource_refs "configs" suffix None service in
  suffix_resource_refs "secrets" suffix None service.

Definition randomize_root (suffix : string) (root : Mapping) : Mapping :=
  let root := mupdate "services"
                (on_mapping (λ services, mmap_values (on_mapping (randomize_service suffix)) (rename_services suffix services)))
                root in
  let root := rename_root_mapping "volumes" suffix None root in
  let root := rename_root_mapping "networks" suffix (Some NETWORK) root in
  let root := rename_root_mapping "configs" suffix None root in
  rename_root_mapping "secrets" suffix None root.

(** ** Isolation *)

Definition attach_network (network : string) (service : Mapping) : Mapping :=
  match mget "networks" service with
  | None => minsert (VString "networks") (VSequence [VString network]) service
  | Some _ =>
      mupdate "networks" (λ value,
        match value with
        | VSequence items =>
            if existsb (λ item, bool_decide (as_str item = Some network)) items then VSequence items
            else VSequence (items ++ [VString network])
        | VMapping mapping => VMapping (mentry network (VMapping []) mapping)
        | value => value
        end) service
  end.

(** [ensure_mapping(root, key)] with an update of the mapping *)
Definition ensure_mapping (key : string) (f : Mapping → Mapping) (root : Mapping) : result Mapping ExecError :=
  let root := mentry key (VMapping []) root in
  match mapping_at root key with
  | Some _ => Ok (mupdate key (on_mapping f) root)
  | None => Err (Panicked "compose mapping field must be an object")
  end.

Definition external_network (network : string) : Value :=
  VMapping [(VString "name", VString network); (VString "external", VBool true)].

Definition attach_isolated_network (network : string) (isolate_volumes : bool) (root : Mapping)
    : result Mapping ExecError :=
  let? root := ensure_mapping "networks" (minsert (VString network) (external_network network)) root in
  let root := mupdate "services"
                (on_mapping (mmap_values (on_mapping (λ service,
                   let service := attach_network network service in
                   if isolate_volumes then suffix_named_volumes network service else service)))) root in
  Ok (if isolate_volumes then rename_root_mapping "volumes" network None root else root).

(** ** Editing *)

Definition remove_from_value (name : string) (value : Value) : Value :=
  match value with
  | VSequence items =>
      VSequence (List.filter (λ item, negb (bool_decide
        ((as_str item ≫= λ v, head (split_on (is_char colon) v)) = Some name))) items)
  | VMapping mapping => VMapping (mremove name mapping)
  | value => value
  end.
Definition remove_service_reference (field name : string) : Mapping → Mapping :=
  mupdate field (remove_from_value name).

Definition remove_extends (name : string) (extends : Value) : Value :=
  match extends with
  | VString value => if bool_decide (value = name) then VNull else extends
  | VMapping map => if bool_decide (mget "service" map ≫= as_str = Some name) then VNull else extends
  | extends => extends
  end.

Definition remove_references (name : string) (service : Mapping) : Mapping :=
  let service := remove_service_reference "depends_on" name service in
  let service := remove_service_reference "links" name service in
  let service := remove_service_reference "volumes_from" name service in
  mupdate "extends" (remove_extends name) service.

Definition resource_field (kind : string) : result string ExecError :=
  let kind := to_ascii_uppercase (trim kind) in
  if bool_decide (kind = "CONFIG") then Ok "configs"
  else if bool_decide (kind = "SECRET") then Ok "secrets"
  else command_error "resource kind must be CONFIG or SECRET".

(** One turn of the loop of [upsert_resource] *)
Definition use_resource (field name service_name : string) (services : Mapping) : result Mapping ExecError :=
  match mget service_name services ≫= as_mapping with
  | None => command_error ("compose service " +:+ service_name +:+ " not found")
  | Some service =>
      let service := mentry field (VSequence []) service in
      match mget field service ≫= as_sequence with
      | None => command_error ("service " +:+ service_name +:+ " " +:+ field +:+ " must be a list")
      | Some values =>
          if existsb (λ v, bool_decide (as_str v = Some name)) values
          then Ok (mupdate service_name (on_mapping (λ _, service)) services)
          else Ok (mupdate service_name
                     (on_mapping (λ _, mupdate field (on_sequence (λ l, l ++ [VString name])) service)) services)
      end
  end.
Fixpoint use_resource_all (field name : string) (services : list string) (m : Mapping) : result Mapping ExecError :=
  match services with
  | [] => Ok m
  | s :: services => let? m := use_resource field name s m in use_resource_all field name services m
  end.

Definition resource_definition (file : option string) (external : bool) : Mapping :=
  let definition := match file with Some file => minsert (VString "file") (VString file) [] | None => [] end in
  if external then minsert (VString "external") (VBool true) definition else definition.

(** The value of a [configs] or [secrets] entry that [remove_resource] keeps *)
Definition keeps_value (name : string) (value : Value) : bool :=
  match value with
  | VString value => negb (bool_decide (value = name))
  | VMapping value => negb (bool_decide (mget "source" value ≫= as_str = Some name))
  | _ => true
  end.

Definition drop_uses (name : string) (v : Value) : Value :=
  match v with VSequence values => VSequence (List.filter (keeps_value name) values) | v => v end.

(** ** The functions on texts *)

Section Yaml.
Context (from_str : string → option Value) (to_string : Value → option string).

Definition print (document : Value) : result string ExecError :=
  match to_string document with Some text => Ok text | None => Err YamlError end.
(** [serde_yaml::from_str], an update of the root mapping, [serde_yaml::to_string] *)
Definition edit (source : string) (f : Mapping → result Mapping ExecError) : result string ExecError :=
  match from_str source with
  | None => Err YamlError
  | Some document =>
      match as_mapping document with
      | None => command_error "compose root must be an object"
      | Some root => let? root := f root in print (on_mapping (λ _, root) document)
      end
  end.

Definition transform_root (random_suffix isolated_network : option string) (isolate_volumes : bool) (root : Mapping)
    : result Mapping ExecError :=
  let? root := match random_suffix with
               | None => Ok root
               | Some suffix =>
                   if str_is_empty (trim suffix)
                   then command_error "randomized compose requires a non-empty suffix"
                   else Ok (randomize_root suffix root)
               end in
  match isolated_network with
  | None => Ok root
  | Some network =>
      if str_is_empty (trim network) then command_error "isolated compose requires a network name"
      else attach_isolated_network network isolate_volumes root
  end.
Definition transform_compose (source : string) (random_suffix isolated_network : option string)
    (isolate_volumes : bool) : result string ExecError :=
  edit source (transform_root random_suffix isolated_network isolate_volumes).

Definition remove_service_root (service_name : string) (root : Mapping) : result Mapping ExecError :=
  match mapping_at root "services" with
  | None => command_error "compose file has no services"
  | Some services =>
      match mget service_name services with
      | None => command_error ("compose service " +:+ service_name +:+ " not found")
      | Some _ =>
          Ok (mupdate "services"
                (on_mapping (λ services,
                   mmap_values (on_mapping (remove_references service_name)) (mremove service_name services))) root)
      end
  end.
Definition remove_service (source service_name : string) : result string ExecError :=
  edit source (remove_service_root service_name).

Definition list_services (source : string) : result (list string) ExecError :=
  match from_str source with
  | None => Err YamlError
  | Some document =>
      match (as_mapping document ≫= mget "services") ≫= as_mapping with
      | None => command_error "compose file has no services"
      | Some services => Ok (omap (λ p, as_str p.1) services)
      end
  end.

Definition upsert_root (field name : string) (file : option string) (external : bool) (services : list string)
    (root : Mapping) : result Mapping ExecError :=
  let? root := ensure_mapping field
                 (minsert (VString name) (VMapping (resource_definition file external))) root in
  match mapping_at root "services" with
  | None => command_error "compose file has no services"
  | Some compose_services =>
      let? compose_services := use_resource_all field name services compose_services in
      Ok (mupdate "services" (on_mapping (λ _, compose_services)) root)
  end.
Definition upsert_resource (source kind name : string) (file : option string) (external : bool)
    (services : list string) : result string ExecError :=
  let? field := resource_field kind in
  edit source (upsert_root field name file external services).

Definition remove_resource_root (field name : string) (root : Mapping) : Mapping :=
  let root := mupdate field (on_mapping (mremove name)) root in
  mupdate "services"
    (on_mapping (mmap_values (on_mapping (mupdate field (drop_uses name))))) root.
Definition remove_resource (source kind name : string) : result string ExecError :=
  let? field := resource_field kind in
  edit source (λ root, Ok (remove_resource_root field name root)).
End Yaml.
