(* ===== verification/ComposeFacts.v ===== *)
(** * What rewriting does to the references of a compose file

    A compose file as a graph: its nodes are the names that its sections define, its edges the
    references of its services to them.  [randomize_is_renaming] says that giving every name a
    suffix renames the graph and keeps the rest of the document, entry by entry;
    [transform_keeps_closed] that a file whose references resolve is rewritten, on texts, into one
    whose references resolve. *)

From stdpp Require Import gmap strings list.
From Stdlib Require Import ZArith Lia Ascii.
From S2P Require Import Prelude RustStr RustText ComposeYaml ComposeTransform.

(** ** The graph of a document *)

Definition before_colon (v : string) : string := default v (fst <$> split_once colon v).

(** [depends_on], [links] and [volumes_from]: a list of references, or a mapping from names *)
Definition field_refs (v : Value) : list string :=
  match v with
  | VSequence items => omap (λ i, match i with VString s => Some (before_colon s) | _ => None end) items
  | VMapping m => names m
  | _ => []
  end.
(** [extends] refers to a service of this document unless it names another file. *)
Definition extends_refs (v : Value) : list string :=
  match v with
  | VString s => [before_colon s]
  | VMapping m =>
      match mget "file" m, mget "service" m with
      | None, Some (VString s) => [before_colon s]
      | _, _ => []
      end
  | _ => []
  end.
(** A volume is named by the part of a short form before the colon, unless it is a path, or by the
    [source] of a long form. *)
Definition volume_ref (v : Value) : option string :=
  match v with
  | VString s =>
      match split_once colon s with
      | Some (source, _) => if is_path_source source then None else Some source
      | None => None
      end
  | VMapping m =>
      if bool_decide (mget "type" m ≫= as_str = Some "volume")
      then match mget "source" m with Some (VString s) => Some s | _ => None end
      else None
  | _ => None
  end.
Definition volume_refs (v : Value) : list string :=
  match v with VSequence items => omap volume_ref items | _ => [] end.
Definition resource_ref (v : Value) : option string :=
  match v with
  | VString s => Some s
  | VMapping m => match mget "source" m with Some (VString s) => Some s | _ => None end
  | _ => None
  end.
Definition resource_refs (v : Value) : list string :=
  match v with VSequence items => omap resource_ref items | VMapping m => names m | _ => [] end.

Definition at_field (field : string) (read : Value → list string) (service : Mapping) : list string :=
  match mget field service with Some v => read v | None => [] end.

(** The names of section [sect] that a service refers to *)
Definition references (sect : string) (s : Mapping) : list string :=
  if bool_decide (sect = "services")
  then at_field "depends_on" field_refs s ++ at_field "links" field_refs s
       ++ at_field "volumes_from" field_refs s ++ at_field "extends" extends_refs s
  else if bool_decide (sect = "volumes") then at_field "volumes" volume_refs s
  else at_field sect resource_refs s.

Definition sections : list string := ["services"; "volumes"; "networks"; "configs"; "secrets"].
Definition node (root : Mapping) (sect n : string) : Prop := ∃ m, mapping_at root sect = Some m ∧ n ∈ names m.
Definition edge (root : Mapping) (svc sect n : string) : Prop :=
  ∃ services k v s, mapping_at root "services" = Some services ∧ (k, v) ∈ services ∧ as_str k = Some svc
    ∧ as_mapping v = Some s ∧ n ∈ references sect s.
(** These references of a service resolve. *)
Definition closed (root : Mapping) : Prop :=
  ∀ sect svc n, sect ∈ sections → edge root svc sect n → node root sect n.

(** [network_mode], [pid] and [ipc] may name a service whose namespace is shared. *)
Definition namespace_ref (v : Value) : list string :=
  match v with VString s => match strip_prefix "service:" s with Some n => [n] | None => [] end | _ => [] end.
Definition namespace_refs (s : Mapping) : list string :=
  at_field "network_mode" namespace_ref s ++ at_field "pid" namespace_ref s ++ at_field "ipc" namespace_ref s.
Definition namespace_edge (root : Mapping) (n : string) : Prop :=
  ∃ services k v s, mapping_at root "services" = Some services ∧ (k, v) ∈ services
    ∧ as_mapping v = Some s ∧ n ∈ namespace_refs s.
(** Every reference resolves. *)
Definition resolves (root : Mapping) : Prop :=
  closed root ∧ ∀ n, namespace_edge root n → node root "services" n.

(** The renaming *)
Definition preserved (sect : string) : option string := if bool_decide (sect = "networks") then Some NETWORK else None.
Definition ren_unless (suffix : string) (preserve : option string) (n : string) : string :=
  if bool_decide (preserve = Some n) then n else suffixed suffix n.
Definition ren (suffix sect : string) : string → string := ren_unless suffix (preserved sect).

(** ** Texts *)

Lemma split_once_None_iff c s : split_once c s = None ↔ c ∉ chars s.
Proof.
  split.
  - intros E Hin. apply list_elem_of_split in Hin as (l1 & l2 & Hs).
    revert s E Hs. induction l1 as [|x l1 IH]; intros [|y s] E Hs; simplify_eq/=.
    + unfold is_char in E. by rewrite bool_decide_true in E.
    + destruct (is_char c x); [done|]. destruct (split_once c s) as [[]|] eqn:Es; [done|]. by eapply IH.
  - intros H. destruct (split_once c s) as [[a b]|] eqn:E; [|done]. exfalso.
    apply split_once_spec in E as [-> _]. apply H. rewrite chars_app. set_solver.
Qed.
Lemma starts_with_char d s :
  starts_with (String d "") s = match s with EmptyString => false | String c _ => is_char d c end.
Proof.
  unfold starts_with, is_char. destruct s as [|c s]; [done|]. simpl.
  destruct (Ascii.ascii_dec d c) as [->|Hne]; [by destruct s; rewrite bool_decide_true | by rewrite bool_decide_false].
Qed.
Lemma before_colon_no_colon v : colon ∉ chars (before_colon v).
Proof.
  unfold before_colon. destruct (split_once colon v) as [[a b]|] eqn:E; simpl.
  - by apply split_once_spec in E as [_ ?].
  - by apply split_once_None_iff.
Qed.
Lemma suffixed_no_colon suffix n : colon ∉ chars suffix → colon ∉ chars n → colon ∉ chars (suffixed suffix n).
Proof. intros Hs Hn. unfold suffixed. rewrite !chars_app, !elem_of_app. intros [?|[H|?]]; try done. by apply list_elem_of_singleton in H. Qed.
Lemma split_once_suffixed suffix a b :
  colon ∉ chars suffix → colon ∉ chars a → split_once colon (suffixed suffix a +:+ ":" +:+ b) = Some (suffixed suffix a, b).
Proof. intros Hs Ha. apply split_once_spec. split; [done | by apply suffixed_no_colon]. Qed.
Lemma before_colon_self v : colon ∉ chars v → before_colon v = v.
Proof. unfold before_colon. by intros ->%split_once_None_iff. Qed.
Lemma before_colon_suffix suffix v :
  colon ∉ chars suffix → before_colon (suffix_reference suffix v) = suffixed suffix (before_colon v).
Proof.
  intros Hs. unfold suffix_reference. destruct (split_once colon v) as [[a b]|] eqn:E; simpl.
  - assert (before_colon v = a) as -> by (unfold before_colon; by rewrite E).
    apply split_once_spec in E as [_ Ha]. destruct (str_is_empty b).
    + apply before_colon_self. by apply suffixed_no_colon.
    + unfold before_colon. by rewrite split_once_suffixed.
  - apply split_once_None_iff in E. rewrite (before_colon_self v) by done.
    apply before_colon_self. by apply suffixed_no_colon.
Qed.
#[export] Instance suffixed_inj suffix : Inj (=) (=) (suffixed suffix).
Proof.
  intros a b H%(f_equal chars). apply chars_inj. unfold suffixed in H. rewrite !chars_app in H.
  by apply app_inv_tail in H.
Qed.

(** ** Lists with the same elements *)

Definition same_elements (l k : list string) : Prop := ∀ x, x ∈ l ↔ x ∈ k.
#[export] Instance same_elements_equiv : Equivalence same_elements.
Proof. unfold same_elements. split; [done | intros ???; naive_solver | intros ?????; naive_solver]. Qed.
#[export] Instance same_elements_app : Proper (same_elements ==> same_elements ==> same_elements) (@app string).
Proof. intros a b Hab c d Hcd x. by rewrite !elem_of_app, (Hab x), (Hcd x). Qed.

Lemma omap_map {A B} (f : A → A) (g : B → B) (r : A → option B) (l : list A) :
  (∀ x, r (f x) = g <$> r x) → omap r (map f l) = map g (omap r l).
Proof. intros H. induction l as [|x l IH]; [done|]. cbn. rewrite H. destruct (r x); cbn; [f_equal|]; apply IH. Qed.

(** ** Renaming a mapping *)

Lemma as_str_renamed suffix p k : as_str (renamed_key suffix p k) = ren_unless suffix p <$> as_str k.
Proof.
  unfold renamed_key, ren_unless. destruct (as_str k) as [n|] eqn:E; simpl; [|by rewrite E]. by case_bool_decide.
Qed.
Lemma rename_services_mapping suffix m : rename_services suffix m = rename_mapping suffix None m.
Proof. done. Qed.
Lemma names_rename suffix p m : same_elements (names (rename_mapping suffix p m)) (map (ren_unless suffix p) (names m)).
Proof.
  intros n. unfold rename_mapping. rewrite (names_insert_all (renamed_key suffix p) m []), elem_of_mapb.
  setoid_rewrite as_str_renamed. setoid_rewrite fmap_Some. setoid_rewrite names_elem. split.
  - intros [(k & v & Hin & n0 & Hn & ->)|H]; [|destruct H as (? & ? & H & _); by apply elem_of_nil in H]. exists n0. split; [done|]. by exists k, v.
  - intros (n0 & -> & k & v & Hin & Hk). left. exists k, v. split; [done|]. by exists n0.
Qed.

(** With different texts as keys, and a new name that is none of the kept ones, no two entries meet. *)
Lemma insert_all_app (f : Value → Value) l m :
  (∀ k v, (k, v) ∈ l → ∃ n, f k = VString n) → NoDup (names m ++ omap (λ p, as_str (f p.1)) l) →
  foldl (λ m q, minsert (f q.1) q.2 m) m l = m ++ map (λ p, (f p.1, p.2)) l.
Proof.
  revert m. induction l as [|[k v] l IH]; intros m Hk Hnd; simpl; [by rewrite app_nil_r|].
  destruct (Hk k v) as [n Hn]; [set_solver|]. cbn in Hnd. rewrite Hn in Hnd. simpl in Hnd.
  assert (minsert (f k) v m = m ++ [(f k, v)]) as ->.
  { rewrite Hn. apply NoDup_app in Hnd as (_ & Hd & _). clear -Hd. induction m as [|[k' v'] m IHm]; [done|]. cbn [minsert app].
    rewrite value_eqb_string. destruct (is_str n k') eqn:E.
    - apply is_str_spec in E as ->. exfalso. apply (Hd n); [|set_solver]. rewrite names_cons. simpl. set_solver.
    - f_equal. apply IHm. intros x Hx. apply Hd. rewrite names_cons. destruct (as_str k'); set_solver. }
  rewrite IH.
  - by rewrite <-app_assoc.
  - intros k' v' Hin. apply (Hk k' v'). set_solver.
  - assert (names (m ++ [(f k, v)]) = names m ++ [n]) as ->.
    { unfold names. rewrite omap_app. cbn. by rewrite Hn. }
    by rewrite <-app_assoc.
Qed.
Lemma rename_mapping_exact suffix m :
  text_keys m = true →
  rename_mapping suffix None m = map (λ p, (renamed_key suffix None p.1, p.2)) m.
Proof.
  intros [Hk Hnd]%andb_true_iff. apply bool_decide_eq_true in Hnd. pose proof (proj1 (forallb_elem _ _) Hk) as Hk'.
  unfold rename_mapping. rewrite (insert_all_app (renamed_key suffix None)); [done|..].
  - intros k v Hin. specialize (Hk' _ Hin). destruct k; try done. by eexists.
  - simpl. clear Hk. assert (omap (λ p, as_str (renamed_key suffix None p.1)) m = map (suffixed suffix) (names m)) as ->.
    { clear. unfold names. induction m as [|[k v] m IH]; [done|]. cbn. rewrite as_str_renamed.
      destruct (as_str k); cbn; [f_equal|]; apply IH. }
    by apply (NoDup_fmap_2 (suffixed suffix)).
Qed.

(** ** References after the renaming *)

Lemma at_field_update field read (h : Value → Value) s :
  at_field field read (mupdate field h s) = at_field field (λ v, read (h v)) s.
Proof. unfold at_field. rewrite mget_update, bool_decide_true by done. by destruct (mget field s). Qed.
Lemma at_field_other field read g (h : Value → Value) s :
  field ≠ g → at_field field read (mupdate g h s) = at_field field read s.
Proof. intros H. unfold at_field. by rewrite mget_update, bool_decide_false. Qed.

Lemma at_field_same field read read' s (f : string → string) :
  (∀ v, same_elements (read' v) (map f (read v))) →
  same_elements (at_field field read' s) (map f (at_field field read s)).
Proof. intros H. unfold at_field. by destruct (mget field s). Qed.

Lemma references_services s :
  references "services" s
  = at_field "depends_on" field_refs s ++ at_field "links" field_refs s
    ++ at_field "volumes_from" field_refs s ++ at_field "extends" extends_refs s.
Proof. reflexivity. Qed.
Lemma references_volumes s : references "volumes" s = at_field "volumes" volume_refs s.
Proof. reflexivity. Qed.
Lemma references_networks s : references "networks" s = at_field "networks" resource_refs s.
Proof. reflexivity. Qed.
Lemma references_configs s : references "configs" s = at_field "configs" resource_refs s.
Proof. reflexivity. Qed.
Lemma references_secrets s : references "secrets" s = at_field "secrets" resource_refs s.
Proof. reflexivity. Qed.

(** Reads a field through the updates of other fields, down to its own. *)
Ltac look_field :=
  repeat (first [rewrite at_field_update | rewrite at_field_other by discriminate]);
  apply at_field_same; intros ?.

Section Renamed.
Context (suffix : string) (Hsuffix : colon ∉ chars suffix).

Lemma field_refs_suffixed v :
  same_elements (field_refs (suffix_field_value suffix v)) (map (suffixed suffix) (field_refs v)).
Proof.
  destruct v as [| | | |items|m|]; try done; simpl.
  - rewrite (omap_map _ (suffixed suffix)); [done|]. intros []; try done. simpl. by rewrite before_colon_suffix.
  - apply names_rename.
Qed.
Lemma extends_refs_suffixed v :
  same_elements (extends_refs (suffix_extends suffix v)) (map (suffixed suffix) (extends_refs v)).
Proof.
  destruct v as [| | |n| |m|]; try done; simpl.
  - by rewrite before_colon_suffix.
  - rewrite !mget_update. simpl. destruct (mget "file" m); [done|]. destruct (mget "service" m) as [[]|]; try done.
    simpl. by rewrite before_colon_suffix.
Qed.
Lemma volume_ref_suffixed v : volume_ref (suffix_volume suffix v) = suffixed suffix <$> volume_ref v.
Proof.
  destruct v as [| | |n| |m|]; try done; simpl.
  - destruct (split_once colon n) as [[a b]|] eqn:E; simpl; [|by rewrite E].
    destruct (is_path_source a) eqn:Ep; simpl; [by rewrite E, Ep|].
    apply split_once_spec in E as [_ Ha]. rewrite split_once_suffixed by done.
    assert (is_path_source (suffixed suffix a) = false) as ->; [|done].
    revert Ep. unfold is_path_source. rewrite !starts_with_char. destruct a as [|c a]; [reflexivity | exact (λ H, H)].
  - destruct (bool_decide _) eqn:E; simpl; rewrite ?E; [|done].
    rewrite !mget_update. simpl. rewrite E. by destruct (mget "source" m) as [[]|].
Qed.
Lemma volume_refs_suffixed v :
  same_elements (volume_refs (suffix_volumes_value suffix v)) (map (suffixed suffix) (volume_refs v)).
Proof. destruct v; try done. simpl. by rewrite (omap_map _ (suffixed suffix)) by apply volume_ref_suffixed. Qed.
Lemma resource_ref_suffixed p v : resource_ref (suffix_resource_item suffix p v) = ren_unless suffix p <$> resource_ref v.
Proof.
  unfold ren_unless. destruct v as [| | |n| |m|]; try done; simpl.
  - by case_bool_decide.
  - rewrite mget_update. simpl. destruct (mget "source" m) as [[]|]; try done. simpl. by case_bool_decide.
Qed.
Lemma resource_refs_suffixed p v :
  same_elements (resource_refs (suffix_resource_value suffix p v)) (map (ren_unless suffix p) (resource_refs v)).
Proof.
  destruct v; try done; simpl.
  - by rewrite (omap_map _ (ren_unless suffix p)) by apply resource_ref_suffixed.
  - apply names_rename.
Qed.

Lemma references_randomized sect s :
  sect ∈ sections →
  same_elements (references sect (randomize_service suffix s)) (map (ren suffix sect) (references sect s)).
Proof.
  intros Hs. unfold randomize_service, suffix_service_refs, suffix_reference_field, suffix_named_volumes,
    suffix_resource_refs, ren.
  repeat (apply elem_of_cons in Hs as [->|Hs]); [..|by apply elem_of_nil in Hs].
  - rewrite !references_services, !map_app. change (ren_unless suffix (preserved "services")) with (suffixed suffix).
    repeat apply same_elements_app; look_field; first [apply field_refs_suffixed | apply extends_refs_suffixed].
  - rewrite !references_volumes. look_field. apply volume_refs_suffixed.
  - rewrite !references_networks. look_field. apply (resource_refs_suffixed (Some NETWORK)).
  - rewrite !references_configs. look_field. apply (resource_refs_suffixed None).
  - rewrite !references_secrets. look_field. apply (resource_refs_suffixed None).
Qed.
End Renamed.

(** ** The sections *)

Lemma as_mapping_on f v : as_mapping (on_mapping f v) = f <$> as_mapping v.
Proof. induction v; try done. Qed.
Lemma mapping_at_update root key f : mapping_at (mupdate key (on_mapping f) root) key = f <$> mapping_at root key.
Proof.
  unfold mapping_at. rewrite mget_update, bool_decide_true by done.
  destruct (mget key root); [apply as_mapping_on | done].
Qed.
Lemma mapping_at_other root key key' f : key ≠ key' → mapping_at (mupdate key' f root) key = mapping_at root key.
Proof. intros H. unfold mapping_at. by rewrite mget_update, bool_decide_false. Qed.

Ltac look_section :=
  repeat (first [rewrite mapping_at_update | rewrite mapping_at_other by discriminate]).

Lemma services_randomized suffix root :
  mapping_at (randomize_root suffix root) "services"
  = (λ m, mmap_values (on_mapping (randomize_service suffix)) (rename_mapping suffix None m)) <$> mapping_at root "services".
Proof. unfold randomize_root, rename_root_mapping. by look_section. Qed.
Lemma section_randomized suffix root sect :
  sect ∈ sections → sect ≠ "services" →
  mapping_at (randomize_root suffix root) sect = rename_mapping suffix (preserved sect) <$> mapping_at root sect.
Proof.
  intros Hs Hne. unfold randomize_root, rename_root_mapping.
  repeat (apply elem_of_cons in Hs as [->|Hs]); [..|by apply elem_of_nil in Hs]; try done; by look_section.
Qed.

Lemma node_randomized suffix root sect n' :
  sect ∈ sections →
  node (randomize_root suffix root) sect n' ↔ ∃ n, node root sect n ∧ n' = ren suffix sect n.
Proof.
  intros Hs. unfold node.
  assert (∀ m, same_elements (names m) (names m)) as _ by done.
  assert (mapping_at (randomize_root suffix root) sect = None ↔ mapping_at root sect = None) as HN.
  { destruct (decide (sect = "services")) as [->|Hne].
    - rewrite services_randomized. apply fmap_None.
    - rewrite section_randomized by done. apply fmap_None. }
  destruct (mapping_at root sect) as [m|] eqn:E.
  2: { rewrite (proj2 HN eq_refl). naive_solver. }
  assert (∃ m', mapping_at (randomize_root suffix root) sect = Some m' ∧ same_elements (names m') (map (ren suffix sect) (names m)))
    as (m' & -> & Hm).
  { destruct (decide (sect = "services")) as [->|Hne].
    - rewrite services_randomized, E. eexists. split; [done|]. rewrite names_map_values. apply names_rename.
    - rewrite section_randomized, E by done. eexists. split; [done|]. apply names_rename. }
  specialize (Hm n'). rewrite elem_of_mapb in Hm. naive_solver.
Qed.

Lemma edge_randomized suffix root services svc' sect n' :
  colon ∉ chars suffix → mapping_at root "services" = Some services → text_keys services = true → sect ∈ sections →
  edge (randomize_root suffix root) svc' sect n'
  ↔ ∃ svc n, edge root svc sect n ∧ svc' = suffixed suffix svc ∧ n' = ren suffix sect n.
Proof.
  intros Hc Hserv Ht Hs. unfold edge. rewrite services_randomized, Hserv. simpl.
  rewrite rename_mapping_exact by done. split.
  - intros (? & k' & v' & s' & [= <-] & Hin & Hk & Hv & Hn).
    apply elem_of_map_values in Hin as (v & Hv' & Hin). simpl in Hv', Hin. subst v'.
    apply elem_of_mapb in Hin as ([k v0] & Heq & Hin). simpl in Heq. simplify_eq.
    rewrite as_mapping_on in Hv. destruct (as_mapping v0) as [s|] eqn:Es; [|done]. simplify_eq/=.
    rewrite as_str_renamed in Hk. destruct (as_str k) as [svc|] eqn:Ek; [|done]. simplify_eq/=.
    apply (references_randomized suffix Hc sect s Hs) in Hn. apply elem_of_mapb in Hn as (n & -> & Hn).
    exists svc, n. split; [|done]. by exists services, k, v0, s.
  - intros (svc & n & (? & k & v & s & [= <-] & Hin & Hk & Hv & Hn) & -> & ->).
    eexists _, (renamed_key suffix None k), _, (randomize_service suffix s). split; [done|]. split_and!.
    + apply elem_of_map_values. exists v. split; [reflexivity|]. apply elem_of_mapb. by exists (k, v).
    + by rewrite as_str_renamed, Hk.
    + by rewrite as_mapping_on, Hv.
    + apply (references_randomized suffix Hc sect s Hs). apply elem_of_mapb. by exists n.
Qed.

(** Different names get different names, unless the suffix is [network]. *)
Lemma network_not_suffixed suffix n : suffix ≠ "network" → NETWORK ≠ suffixed suffix n.
Proof.
  intros Hn Heq. assert (split_once "-" NETWORK = Some ("openoxide", "network")) as H by reflexivity.
  rewrite Heq in H. unfold suffixed in H. destruct (split_once "-" n) as [[a b]|] eqn:E.
  - apply split_once_spec in E as [-> Ha].
    assert (split_once "-" ((a +:+ String "-" b) +:+ "-" +:+ suffix) = Some (a, b +:+ "-" +:+ suffix)) as E'.
    { apply split_once_spec. split; [by rewrite str_app_assoc | done]. }
    rewrite E' in H. injection H as _ Hb. assert ("-"%char ∈ chars "network") as Hin.
    { rewrite <-Hb, !chars_app, !elem_of_app. right. left. apply list_elem_of_singleton. reflexivity. }
    revert Hin. by apply (bool_decide_eq_false _).
  - apply split_once_None_iff in E.
    assert (split_once "-" (n +:+ "-" +:+ suffix) = Some (n, suffix)) as E' by (apply split_once_spec; done).
    rewrite E' in H. by injection H as _ Hb.
Qed.
#[export] Instance ren_inj suffix sect : TCEq (bool_decide (suffix = "network")) false → Inj (=) (=) (ren suffix sect).
Proof.
  intros Hn a b. apply TCEq_eq, bool_decide_eq_false in Hn. unfold ren, ren_unless, preserved.
  pose proof (network_not_suffixed suffix a Hn). pose proof (network_not_suffixed suffix b Hn).
  repeat case_bool_decide; intros; simplify_eq; try done.
Qed.

(** ** The rest of the document

    What a renaming may change, entry by entry.  [f] renames; [ref] finds the name in an item. *)

Definition rename_key (f : string → string) (k : Value) : Value :=
  match k with VString n => VString (f n) | k => k end.
Definition service_ref (v : Value) : option string :=
  match v with VString s => Some (before_colon s) | _ => None end.

(** The name in a text is replaced and what follows it is kept, but for a colon at the end; of a
    mapping, only the entry [key] changes. *)
Definition replaced (key n n' : string) (v v' : Value) : Prop :=
  (∃ rest rest', v = VString (n +:+ rest) ∧ v' = VString (n' +:+ rest')
     ∧ (rest' = rest ∨ rest = ":" ∧ rest' = ""))
  ∨ ∃ m, v = VMapping m ∧ v' = VMapping (mupdate key (λ _, VString n') m).
Definition item_renamed (f : string → string) (ref : Value → option string) (v v' : Value) : Prop :=
  match ref v with Some n => replaced "source" n (f n) v v' | None => v' = v end.
Definition items_renamed (f : string → string) (ref : Value → option string) (v v' : Value) : Prop :=
  match v with
  | VSequence items => ∃ items', v' = VSequence items' ∧ Forall2 (item_renamed f ref) items items'
  | v => v' = v
  end.
Definition names_renamed (f : string → string) (ref : Value → option string) (v v' : Value) : Prop :=
  match v with
  | VMapping m => v' = VMapping (map (λ p, (rename_key f p.1, p.2)) m)
  | v => items_renamed f ref v v'
  end.
Definition extends_renamed (f : string → string) (v v' : Value) : Prop :=
  match v with
  | VString s => replaced "service" (before_colon s) (f (before_colon s)) v v'
  | VMapping m =>
      match mget "service" m with
      | Some w => ∃ w', item_renamed f service_ref w w' ∧ v' = VMapping (mupdate "service" (λ _, w') m)
      | None => v' = v
      end
  | v => v' = v
  end.

Definition service_fields : list string := ["depends_on"; "links"; "volumes_from"].
Definition field_renamed (suffix field : string) (v v' : Value) : Prop :=
  if bool_decide (field ∈ service_fields) then names_renamed (ren suffix "services") service_ref v v'
  else if bool_decide (field = "extends") then extends_renamed (ren suffix "services") v v'
  else if bool_decide (field = "container_name") then v' = rename_key (suffixed suffix) v
  else if bool_decide (field = "volumes") then items_renamed (ren suffix "volumes") volume_ref v v'
  else if bool_decide (field ∈ ["networks"; "configs"; "secrets"])
  then names_renamed (ren suffix field) resource_ref v v'
  else v' = v.

(** Two values that are the same, or mappings under the same tags whose entries are related in order *)
Definition entrywise (f : string → string) (R : string → Value → Value → Prop) (v v' : Value) : Prop :=
  match as_mapping v with
  | None => v' = v
  | Some m =>
      ∃ m', v' = on_mapping (λ _, m') v
            ∧ Forall2 (λ p p', p'.1 = rename_key f p.1 ∧ ∀ n, p.1 = VString n → R n p.2 p'.2) m m'
  end.
Definition section_renamed (suffix sect : string) (v v' : Value) : Prop :=
  if bool_decide (sect = "services")
  then entrywise (ren suffix sect) (λ _, entrywise id (field_renamed suffix)) v v'
  else if bool_decide (sect ∈ sections) then entrywise (ren suffix sect) (λ _ w w', w' = w) v v'
  else v' = v.

(** The document, its sections, services and the mappings of references have distinct texts as keys. *)
Definition refs_tidy (v : Value) : bool := match v with VMapping m => text_keys m | _ => true end.
Definition fields_tidy (s : Mapping) : bool :=
  text_keys s && forallb (λ field, match mget field s with Some v => refs_tidy v | None => true end)
                   (service_fields ++ ["networks"; "configs"; "secrets"]).
Definition document_tidy (root : Mapping) : bool :=
  text_keys root
  && forallb (λ sect, match mapping_at root sect with Some m => text_keys m | None => true end) sections
  && match mapping_at root "services" with
     | Some m => forallb (λ p, match as_mapping p.2 with Some s => fields_tidy s | None => true end) m
     | None => true
     end.

Lemma text_keys_key m p : text_keys m = true → p ∈ m → ∃ n, p.1 = VString n.
Proof.
  intros [Hk _]%andb_true_iff Hp. pose proof (proj1 (forallb_elem _ _) Hk _ Hp) as H. destruct p as [[] ?]; try done. eauto.
Qed.
Lemma text_keys_get m n v : text_keys m = true → (VString n, v) ∈ m → mget n m = Some v.
Proof.
  intros [_ Hnd]%andb_true_iff. apply bool_decide_eq_true in Hnd. induction m as [|[k w] m IH]; [by intros ?%elem_of_nil|].
  rewrite names_cons in Hnd. rewrite mget_cons, elem_of_cons. intros [[= <- <-]|Hin].
  - by rewrite is_str_refl.
  - destruct (is_str n k) eqn:E.
    + apply is_str_spec in E as ->. apply NoDup_cons in Hnd as [Hn _]. exfalso. apply Hn, names_elem. by exists (VString n), v.
    + apply IH; [|done]. destruct (as_str k); [by apply NoDup_cons in Hnd as [_ ?] | done].
Qed.

Lemma mupdate_same key m v : mget key m = Some v → mupdate key (λ _, v) m = m.
Proof.
  induction m as [|[k w] m IH]; [done|]. rewrite mget_cons. cbn [mupdate]. destruct (is_str key k).
  - by intros [= ->].
  - intros H. by rewrite IH.
Qed.

(** An update as a function of the entries *)
Definition on_key (name : string) (f : Value → Value) (p : Value * Value) : Value * Value :=
  (p.1, if is_str name p.1 then f p.2 else p.2).
Lemma mupdate_map name f m : text_keys m = true → mupdate name f m = map (on_key name f) m.
Proof.
  intros [_ Hnd]%andb_true_iff. apply bool_decide_eq_true in Hnd. induction m as [|[k v] m IH]; [done|].
  rewrite names_cons in Hnd. cbn [mupdate map]. unfold on_key at 1. cbn [fst snd]. destruct (is_str name k) eqn:E.
  - f_equal. apply is_str_spec in E as ->. apply NoDup_cons in Hnd as [Hn _].
    rewrite <-(map_id m) at 1. apply map_ext_in. intros [k w] Hin%list_elem_of_In. unfold on_key. simpl.
    destruct (is_str name k) eqn:E; [|done]. apply is_str_spec in E as ->. exfalso. apply Hn, names_elem. by exists (VString name), w.
  - f_equal. apply IH. destruct (as_str k); [by apply NoDup_cons in Hnd as [_ ?] | done].
Qed.
Lemma text_keys_update name f m : text_keys (mupdate name f m) = text_keys m.
Proof.
  unfold text_keys. rewrite names_update. f_equal. induction m as [|[k v] m IH]; [done|]. cbn [mupdate].
  destruct (is_str name k); [done|]. simpl. by rewrite IH.
Qed.

Lemma rename_mapping_keys suffix p m :
  Inj (=) (=) (ren_unless suffix p) → text_keys m = true →
  rename_mapping suffix p m = map (λ q, (rename_key (ren_unless suffix p) q.1, q.2)) m.
Proof.
  intros Hinj Ht. pose proof Ht as [_ Hnd]%andb_true_iff. apply bool_decide_eq_true in Hnd.
  assert (∀ q, q ∈ m → renamed_key suffix p q.1 = rename_key (ren_unless suffix p) q.1) as Hkey.
  { intros q [n Hn]%(text_keys_key _ _ Ht). rewrite Hn. unfold renamed_key, ren_unless. simpl. by case_bool_decide. }
  unfold rename_mapping. rewrite (insert_all_app (renamed_key suffix p)); simpl.
  - apply map_ext_in. intros q Hq%list_elem_of_In. by rewrite Hkey.
  - intros k v Hin. destruct (text_keys_key _ _ Ht Hin) as [n Hn]. simpl in Hn. subst k.
    exists (ren_unless suffix p n). exact (Hkey _ Hin).
  - assert (omap (λ q, as_str (renamed_key suffix p q.1)) m = map (ren_unless suffix p) (names m)) as ->.
    { clear. unfold names. induction m as [|[k v] m IH]; [done|]. cbn. rewrite as_str_renamed.
      destruct (as_str k); cbn; [f_equal|]; apply IH. }
    by apply (NoDup_fmap_2 (ren_unless suffix p)).
Qed.

Section Kept.
Context (suffix : string) (Hsuffix : suffix ≠ "network").

Lemma ren_unless_inj sect : Inj (=) (=) (ren suffix sect).
Proof. apply ren_inj. by rewrite bool_decide_eq_false_2. Qed.

Lemma append_nothing (s : string) : s +:+ "" = s.
Proof. apply chars_inj. by rewrite chars_app, app_nil_r. Qed.

Lemma reference_replaced key v v' :
  v' = VString (suffix_reference suffix v) →
  replaced key (before_colon v) (suffixed suffix (before_colon v)) (VString v) v'.
Proof.
  intros ->. left. unfold suffix_reference, before_colon. destruct (split_once colon v) as [[a b]|] eqn:E; simpl.
  - apply split_once_spec in E as [-> _]. exists (":" +:+ b). destruct b as [|c b]; simpl.
    + exists "". split_and!; [done|by rewrite append_nothing|]. by right.
    + exists (":" +:+ String c b). split_and!; [done|done|]. by left.
  - exists "", "". rewrite !append_nothing. split_and!; [done|done|by left].
Qed.
Lemma mupdate_mget key f m : mupdate key f m = match mget key m with Some v => mupdate key (λ _, f v) m | None => m end.
Proof.
  induction m as [|[k v] m IH]; [done|]. cbn [mupdate]. rewrite mget_cons. destruct (is_str key k) eqn:E; [done|].
  rewrite IH at 1. by destruct (mget key m).
Qed.

Lemma service_item_renamed v :
  item_renamed (ren suffix "services") service_ref v
    (match v with VString n => VString (suffix_reference suffix n) | v => v end).
Proof. destruct v; try done. by apply reference_replaced. Qed.
Lemma volume_item_renamed v : item_renamed (ren suffix "volumes") volume_ref v (suffix_volume suffix v).
Proof.
  unfold item_renamed, volume_ref, suffix_volume. destruct v as [| | |n| |m|]; try done.
  - destruct (split_once colon n) as [[a b]|] eqn:E; [|done]. destruct (is_path_source a); [done|].
    apply split_once_spec in E as [-> _]. left. exists (":" +:+ b), (":" +:+ b). split_and!; [done|done|]. by left.
  - destruct (bool_decide _); [|done]. rewrite mupdate_mget. destruct (mget "source" m) as [[]|] eqn:E; try done;
      try (f_equal; rewrite <-(mupdate_same "source" m _ E) at 2; done).
    right. by eexists.
Qed.
Lemma resource_item_renamed p v :
  item_renamed (ren_unless suffix p) resource_ref v (suffix_resource_item suffix p v).
Proof.
  unfold item_renamed, resource_ref, suffix_resource_item, suffix_unless, ren_unless. destruct v as [| | |n| |m|]; try done.
  - left. exists "", "". rewrite !append_nothing. split_and!; [done|by case_bool_decide|by left].
  - rewrite mupdate_mget. destruct (mget "source" m) as [[]|] eqn:E; try done;
      try (f_equal; rewrite <-(mupdate_same "source" m _ E) at 2; done).
    right. eexists. split; [done|]. by case_bool_decide.
Qed.

Lemma Forall2_mapped {A B} (R : A → B → Prop) (f : A → B) (l : list A) :
  (∀ x, x ∈ l → R x (f x)) → Forall2 R l (map f l).
Proof.
  induction l as [|x l IH]; intros H; simpl; constructor; [apply H; by left|].
  apply IH. intros y Hy. apply H. by right.
Qed.

Lemma service_field_renamed v :
  refs_tidy v = true → names_renamed (ren suffix "services") service_ref v (suffix_field_value suffix v).
Proof.
  destruct v as [| | | |items|m|]; try done; simpl; intros Ht.
  - eexists. split; [done|]. apply Forall2_mapped. intros x _. apply service_item_renamed.
  - f_equal. by apply (rename_mapping_keys suffix None m (ren_unless_inj "services")).
Qed.
Lemma volumes_renamed v : items_renamed (ren suffix "volumes") volume_ref v (suffix_volumes_value suffix v).
Proof.
  destruct v; try done. simpl. eexists. split; [done|]. apply Forall2_mapped. intros x _. apply volume_item_renamed.
Qed.
Lemma resource_field_renamed sect v :
  refs_tidy v = true →
  names_renamed (ren suffix sect) resource_ref v (suffix_resource_value suffix (preserved sect) v).
Proof.
  destruct v as [| | | |items|m|]; try done; simpl; intros Ht.
  - eexists. split; [done|]. apply Forall2_mapped. intros x _. apply resource_item_renamed.
  - f_equal. by apply (rename_mapping_keys suffix (preserved sect) m (ren_unless_inj sect)).
Qed.
Lemma extends_field_renamed v : extends_renamed (ren suffix "services") v (suffix_extends suffix v).
Proof.
  destruct v as [| | |n| |m|]; try done; simpl; [by apply reference_replaced|].
  rewrite mupdate_mget. destruct (mget "service" m) as [w|] eqn:E; [|done].
  eexists. split; [apply service_item_renamed | done].
Qed.
End Kept.

Definition touched : list string :=
  service_fields ++ ["extends"; "container_name"; "volumes"; "networks"; "configs"; "secrets"].

Lemma service_entries suffix s :
  suffix ≠ "network" → fields_tidy s = true →
  Forall2 (λ p p', p'.1 = rename_key id p.1 ∧ ∀ n, p.1 = VString n → field_renamed suffix n p.2 p'.2)
    s (randomize_service suffix s).
Proof.
  intros Hs [Ht Hf]%andb_true_iff. pose proof (proj1 (forallb_elem _ _) Hf) as Hrefs. clear Hf.
  unfold randomize_service, suffix_service_refs, suffix_reference_field, suffix_named_volumes, suffix_resource_refs.
  rewrite !mupdate_map by (rewrite ?text_keys_update; done). rewrite !map_map.
  apply Forall2_mapped. intros [k v] Hin. cbn [fst snd on_key]. split; [by destruct k|].
  intros n ->. pose proof (text_keys_get s n v Ht Hin) as Hget. cbn [fst snd] in *.
  destruct (decide (n ∈ touched)) as [Hn|Hn].
  - assert (n ∈ service_fields ++ ["networks"; "configs"; "secrets"] → refs_tidy v = true) as Hv.
    { intros Hin'. specialize (Hrefs n Hin'). simpl in Hrefs. by rewrite Hget in Hrefs. }
    unfold touched in Hn. repeat (apply elem_of_cons in Hn as [->|Hn]); [..|by apply elem_of_nil in Hn].
    1,2,3: exact (service_field_renamed suffix Hs v (Hv ltac:(by apply (bool_decide_eq_true _)))).
    + exact (extends_field_renamed suffix v).
    + by destruct v.
    + exact (volumes_renamed suffix v).
    + exact (resource_field_renamed suffix Hs "networks" v (Hv ltac:(by apply (bool_decide_eq_true _)))).
    + exact (resource_field_renamed suffix Hs "configs" v (Hv ltac:(by apply (bool_decide_eq_true _)))).
    + exact (resource_field_renamed suffix Hs "secrets" v (Hv ltac:(by apply (bool_decide_eq_true _)))).
  - assert (∀ name, name ∈ touched → is_str name (VString n) = false) as Hno.
    { intros name Hin'. apply is_str_false. intros [= ->]. done. }
    rewrite !Hno by (by apply (bool_decide_eq_true _)).
    unfold field_renamed. repeat (rewrite bool_decide_eq_false_2; [|set_solver]). done.
Qed.

Lemma entrywise_on (f : string → string) (R : string → Value → Value → Prop) (h : Mapping → Mapping) v :
  (∀ m, as_mapping v = Some m →
     Forall2 (λ p p', p'.1 = rename_key f p.1 ∧ ∀ n, p.1 = VString n → R n p.2 p'.2) m (h m)) →
  entrywise f R v (on_mapping h v).
Proof.
  unfold entrywise. intros H. destruct (as_mapping v) as [m|] eqn:E.
  - exists (h m). split; [|auto]. clear H. revert E. induction v as [| | | | | |t v IH]; try done; simpl; intros E.
    + by injection E as ->.
    + f_equal. by apply IH.
  - clear H. induction v as [| | | | | |t v IH]; try done. simpl in *. f_equal. by apply IH.
Qed.

Lemma mapping_at_key root sect v : mget sect root = Some v → mapping_at root sect = as_mapping v.
Proof. unfold mapping_at. by intros ->. Qed.

Lemma document_entries suffix root :
  suffix ≠ "network" → document_tidy root = true →
  Forall2 (λ p p', p'.1 = p.1 ∧ ∀ n, p.1 = VString n → section_renamed suffix n p.2 p'.2) root (randomize_root suffix root).
Proof.
  intros Hs [[Ht Hsect]%andb_true_iff Hserv]%andb_true_iff.
  pose proof (proj1 (forallb_elem _ _) Hsect) as Hkeys. clear Hsect.
  unfold randomize_root, rename_root_mapping.
  rewrite !mupdate_map by (rewrite ?text_keys_update; done). rewrite !map_map.
  apply Forall2_mapped. intros [k v] Hin. cbn [fst snd on_key]. split; [done|].
  intros n ->. pose proof (mapping_at_key root n v (text_keys_get root n v Ht Hin)) as Hget. cbn [fst snd] in *.
  destruct (decide (n ∈ sections)) as [Hn|Hn].
  - specialize (Hkeys n Hn). simpl in Hkeys. rewrite Hget in Hkeys.
    assert (∀ p, p = preserved n →
      entrywise (ren suffix n) (λ _ w w', w' = w) v (on_mapping (rename_mapping suffix p) v)) as Hother.
    { intros p ->. apply entrywise_on. intros m Hm. rewrite Hm in Hkeys.
      rewrite (rename_mapping_keys suffix _ m (ren_unless_inj suffix Hs n)) by done.
      apply Forall2_mapped. intros q _. by split. }
    unfold sections in Hn. repeat (apply elem_of_cons in Hn as [->|Hn]); [..|by apply elem_of_nil in Hn].
    2-5: exact (Hother _ eq_refl).
    rewrite Hget in Hserv.
    change (entrywise (ren suffix "services") (λ _, entrywise id (field_renamed suffix)) v
      (on_mapping (λ services, mmap_values (on_mapping (randomize_service suffix)) (rename_services suffix services)) v)).
    apply entrywise_on. intros m Hm. rewrite Hm in Hkeys, Hserv.
    rewrite rename_services_mapping, (rename_mapping_keys suffix None m (ren_unless_inj suffix Hs "services")) by done.
    unfold mmap_values. rewrite map_map. apply Forall2_mapped. intros q Hq. cbn [fst snd]. split; [done|].
    intros _ _. apply entrywise_on. intros s Hq'. apply service_entries; [done|].
    pose proof (proj1 (forallb_elem _ _) Hserv q Hq) as H. simpl in H. by rewrite Hq' in H.
  - assert (∀ name, name ∈ sections → is_str name (VString n) = false) as Hno.
    { intros name Hin'. apply is_str_false. intros [= ->]. done. }
    rewrite !Hno by (by apply (bool_decide_eq_true _)).
    unfold section_renamed. rewrite !bool_decide_eq_false_2; [done|done|set_solver].
Qed.

(** C18: Giving the names of a compose file a suffix renames its graph and keeps the rest. Entry
    by entry and in the same order: what is not in the services, volumes, networks, configs and
    secrets of the file stays; volumes, networks, configs and secrets are defined under their
    new names with their content as it was; a service has its new name and keeps every field but
    depends_on, links, volumes_from, extends, container_name, volumes, networks, configs and
    secrets (so image, and also network_mode, pid and ipc, whose references of the form
    service:name are left as they are); in these fields only the name of a reference is
    replaced, and what follows its colon, but for a colon at the end, and the other entries of a
    long form stay. Every section defines exactly the renamed names, and a service refers by
    these fields to a service, volume, network, config or secret exactly if the service it comes
    from referred to the one it comes from; openoxide-network keeps its name. The suffix has no
    colon and is not network, and the file, its sections, its services and the fields that hold
    references have distinct texts as keys. *)
Theorem randomize_is_renaming suffix root :
  colon ∉ chars suffix → suffix ≠ "network" → document_tidy root = true →
  Forall2 (λ p p', p'.1 = p.1 ∧ ∀ n, p.1 = VString n → section_renamed suffix n p.2 p'.2) root (randomize_root suffix root)
  ∧ ∀ sect, sect ∈ sections →
    (∀ n', node (randomize_root suffix root) sect n' ↔ ∃ n, node root sect n ∧ n' = ren suffix sect n)
    ∧ (∀ svc' n', edge (randomize_root suffix root) svc' sect n'
                  ↔ ∃ svc n, edge root svc sect n ∧ svc' = suffixed suffix svc ∧ n' = ren suffix sect n).
Proof.
  intros Hc Hn Ht. split; [by apply document_entries|]. intros sect Hs. split.
  - intros n'. by apply node_randomized.
  - intros svc' n'. apply andb_true_iff in Ht as [[_ Ht]%andb_true_iff _].
    pose proof (proj1 (forallb_elem _ _) Ht "services" ltac:(by apply (bool_decide_eq_true _))) as Hserv. simpl in Hserv.
    destruct (mapping_at root "services") as [services|] eqn:E; [by eapply edge_randomized|].
    split; [intros (m & k & v & s & Hm & _) | intros (svc & n & (m & k & v & s & Hm & _) & _)]; [|congruence].
    by rewrite services_randomized, E in Hm.
Qed.

(** A document whose references resolve is renamed into one whose references resolve. *)
Lemma randomize_closed suffix root services :
  colon ∉ chars suffix → mapping_at root "services" = Some services → text_keys services = true →
  closed root → closed (randomize_root suffix root).
Proof.
  intros Hc Hserv Ht H sect svc' n' Hs He. eapply edge_randomized in He as (svc & n & He & -> & ->); [|done..].
  apply node_randomized; [done|]. exists n. split; [|done]. by eapply H.
Qed.

(** ** The isolated network *)

Lemma mget_attach_other net s field : field ≠ "networks" → mget field (attach_network net s) = mget field s.
Proof.
  intros H. unfold attach_network. destruct (mget "networks" s).
  - by rewrite mget_update, bool_decide_false.
  - by rewrite mget_insert, is_str_ne.
Qed.
Lemma references_other sect s s' :
  sect ∈ sections → sect ≠ "networks" → (∀ field, field ≠ "networks" → mget field s' = mget field s) →
  references sect s' = references sect s.
Proof.
  intros Hs Hne H. assert (∀ field read, field ≠ "networks" → at_field field read s' = at_field field read s) as Ha.
  { intros field read Hf. unfold at_field. by rewrite H. }
  repeat (apply elem_of_cons in Hs as [->|Hs]); [..|by apply elem_of_nil in Hs]; try done;
    rewrite ?references_services, ?references_volumes, ?references_configs, ?references_secrets; by rewrite !Ha by done.
Qed.
Lemma references_attached net sect s n :
  sect ∈ sections → n ∈ references sect (attach_network net s) → n ∈ references sect s ∨ sect = "networks" ∧ n = net.
Proof.
  intros Hs. destruct (decide (sect = "networks")) as [->|Hne].
  2: { rewrite (references_other sect s) by (first [done | intros; by apply mget_attach_other]). by left. }
  rewrite !references_networks. unfold attach_network, at_field. destruct (mget "networks" s) as [v|] eqn:E.
  - rewrite mget_update, E, bool_decide_true by done. simpl. destruct v as [| | | |items|m|]; try (by left).
    + destruct (existsb _ items); [by left|]. simpl. rewrite omap_app, elem_of_app. intros [H|H]; [by left|].
      apply list_elem_of_singleton in H. by right.
    + simpl. unfold mentry. destruct (mget net m); [by left|]. unfold names at 1. rewrite omap_app, elem_of_app.
      intros [H|H]; [by left|]. apply list_elem_of_singleton in H. by right.
  - rewrite mget_insert, is_str_refl. simpl. intros H%list_elem_of_singleton. by right.
Qed.

(** The service is on the network. *)
Definition on_network (net : string) (s : Mapping) : Prop :=
  match mget "networks" s with
  | Some (VSequence items) => ∃ i, i ∈ items ∧ as_str i = Some net
  | Some (VMapping m) => net ∈ names m
  | _ => False
  end.
(** [networks] is absent, a list or a mapping. *)
Definition networks_readable (s : Mapping) : bool :=
  match mget "networks" s with None | Some (VSequence _) | Some (VMapping _) => true | _ => false end.

Lemma attach_network_on net s : networks_readable s = true → on_network net (attach_network net s).
Proof.
  unfold networks_readable, on_network, attach_network. destruct (mget "networks" s) as [v|] eqn:E; intros Hr.
  - rewrite mget_update, E, bool_decide_true by done. simpl. destruct v as [| | | |items|m|]; try done.
    + destruct (existsb _ items) eqn:Ex.
      * apply existsb_elem in Ex as (i & Hi & Hn%bool_decide_eq_true). by exists i.
      * exists (VString net). split; [set_solver | done].
    + unfold mentry. destruct (mget net m) eqn:En; [by eapply mget_names|].
      apply names_elem. exists (VString net), (VMapping []). set_solver.
  - rewrite mget_insert, is_str_refl. exists (VString net). split; [set_solver | done].
Qed.
Lemma on_network_volumes net suffix s : on_network net s → on_network net (suffix_named_volumes suffix s).
Proof. unfold on_network, suffix_named_volumes. by rewrite mget_update, bool_decide_false. Qed.

Definition isolate_service (net : string) (isolate_volumes : bool) (s : Mapping) : Mapping :=
  let s := attach_network net s in if isolate_volumes then suffix_named_volumes net s else s.
(** What isolation does to the names of a section *)
Definition isolated_name (net : string) (isolate_volumes : bool) (sect n : string) : string :=
  if isolate_volumes && bool_decide (sect = "volumes") then suffixed net n else n.

Lemma references_isolated net iso sect s n :
  (iso = true → colon ∉ chars net) → sect ∈ sections → n ∈ references sect (isolate_service net iso s) →
  (∃ n0, n0 ∈ references sect s ∧ n = isolated_name net iso sect n0) ∨ sect = "networks" ∧ n = net.
Proof.
  intros Hc Hs. unfold isolate_service, isolated_name. destruct iso; simpl.
  2: { intros [H|H]%references_attached; [|by right|done]. left. by exists n. }
  specialize (Hc eq_refl). case_bool_decide as Hv.
  - subst sect. rewrite references_volumes. unfold suffix_named_volumes. rewrite at_field_update. intros H.
    pose proof (at_field_same "volumes" volume_refs _ (attach_network net s) (suffixed net) (volume_refs_suffixed net Hc) n) as HH.
    apply HH, elem_of_mapb in H as (n0 & -> & H). left. exists n0. split; [|done].
    rewrite <-references_volumes in H. apply references_attached in H as [H|[? _]]; done.
  - assert (references sect (suffix_named_volumes net (attach_network net s)) = references sect (attach_network net s)) as ->.
    { unfold suffix_named_volumes. repeat (apply elem_of_cons in Hs as [->|Hs]); [..|by apply elem_of_nil in Hs]; try done;
        rewrite ?references_services, ?references_networks, ?references_configs, ?references_secrets;
        by rewrite !at_field_other by discriminate. }
    intros [H|H]%references_attached; [|by right|done]. left. by exists n.
Qed.

(** The root section [networks] is absent or a mapping. *)
Definition root_networks_ok (root : Mapping) : bool :=
  match mget "networks" root with None => true | Some v => bool_decide (is_Some (as_mapping v)) end.

Lemma mapping_at_entry key key' v root : key ≠ key' → mapping_at (mentry key' v root) key = mapping_at root key.
Proof. intros H. unfold mapping_at. by rewrite mget_entry, bool_decide_false. Qed.

Record isolated (net : string) (iso : bool) (root root' : Mapping) : Prop := {
  iso_services : mapping_at root' "services" = mmap_values (on_mapping (isolate_service net iso)) <$> mapping_at root "services";
  iso_networks : mapping_at root' "networks"
                 = Some (minsert (VString net) (external_network net) (default [] (mapping_at root "networks")));
  iso_volumes : mapping_at root' "volumes" = (if iso then rename_mapping net None else id) <$> mapping_at root "volumes";
  iso_others : ∀ sect, sect ∈ ["configs"; "secrets"] → mapping_at root' sect = mapping_at root sect }.

Lemma ensure_networks f root :
  root_networks_ok root = true →
  ensure_mapping "networks" f root = Ok (mupdate "networks" (on_mapping f) (mentry "networks" (VMapping []) root))
  ∧ mapping_at (mentry "networks" (VMapping []) root) "networks" = Some (default [] (mapping_at root "networks")).
Proof.
  intros Hok. assert (mapping_at (mentry "networks" (VMapping []) root) "networks" = Some (default [] (mapping_at root "networks"))) as Hm.
  { unfold mapping_at, root_networks_ok in *. rewrite mget_entry, bool_decide_true by done. simpl.
    destruct (mget "networks" root) as [v|]; [|done]. simpl. by apply bool_decide_eq_true in Hok as [m ->]. }
  split; [|done]. unfold ensure_mapping. by rewrite Hm.
Qed.
Lemma attach_isolated_spec net iso root :
  root_networks_ok root = true → ∃ root', attach_isolated_network net iso root = Ok root' ∧ isolated net iso root root'.
Proof.
  intros Hok. unfold attach_isolated_network.
  destruct (ensure_networks (minsert (VString net) (external_network net)) root Hok) as [-> Hm]. simpl.
  eexists. split; [reflexivity|]. unfold rename_root_mapping. destruct iso; split.
  all: try (look_section; rewrite ?mapping_at_entry by discriminate; by rewrite ?Hm).
  - intros sect Hs. repeat (apply elem_of_cons in Hs as [->|Hs]); [..|by apply elem_of_nil in Hs]; look_section;
      by rewrite mapping_at_entry by discriminate.
  - look_section. rewrite mapping_at_entry by discriminate. by destruct (mapping_at root "volumes").
  - intros sect Hs. repeat (apply elem_of_cons in Hs as [->|Hs]); [..|by apply elem_of_nil in Hs]; look_section;
      by rewrite mapping_at_entry by discriminate.
Qed.
(** [networks:] that is not a mapping at the root stops the thread. *)
Lemma attach_isolated_panics net iso root :
  root_networks_ok root = false → attach_isolated_network net iso root = Err (Panicked "compose mapping field must be an object").
Proof.
  unfold root_networks_ok, attach_isolated_network, ensure_mapping, mapping_at. rewrite mget_entry, bool_decide_true by done.
  destruct (mget "networks" root) as [v|]; [|done]. simpl. intros Hv%bool_decide_eq_false.
  destruct (as_mapping v); [exfalso; apply Hv; by eexists | done].
Qed.

Lemma node_isolated net iso root root' sect n :
  isolated net iso root root' → sect ∈ sections → node root sect n → node root' sect (isolated_name net iso sect n).
Proof.
  intros [Hsv Hnw Hvol Hoth] Hs (m & Hm & Hn). unfold node, isolated_name. rewrite andb_comm.
  repeat (apply elem_of_cons in Hs as [->|Hs]); [..|by apply elem_of_nil in Hs]; simpl.
  - rewrite Hsv, Hm. eexists. split; [reflexivity|]. by rewrite names_map_values.
  - rewrite Hvol, Hm. destruct iso; eexists; (split; [reflexivity|]); [|done].
    apply names_rename, elem_of_mapb. by exists n.
  - rewrite Hnw, Hm. eexists. split; [reflexivity|]. apply names_insert. by right.
  - rewrite Hoth, Hm by set_solver. by eexists.
  - rewrite Hoth, Hm by set_solver. by eexists.
Qed.
Lemma isolated_closed net iso root root' :
  (iso = true → colon ∉ chars net) → isolated net iso root root' → closed root → closed root'.
Proof.
  intros Hc Hi Hcl sect svc n Hs (services' & k & v' & s' & Hsv & Hin & Hk & Hv & Hn).
  rewrite (iso_services _ _ _ _ Hi) in Hsv. destruct (mapping_at root "services") as [services|] eqn:Es; [|done].
  simplify_eq/=. apply elem_of_map_values in Hin as (v & Hv' & Hin). simpl in Hv', Hin. subst v'.
  rewrite as_mapping_on in Hv. destruct (as_mapping v) as [s|] eqn:Ev; [|done]. simplify_eq/=.
  apply references_isolated in Hn as [(n0 & Hn0 & ->)|[-> ->]]; [..|done|done].
  - eapply node_isolated; [done..|]. apply (Hcl sect svc); [done|]. by exists services, k, v, s.
  - eexists. split; [apply (iso_networks _ _ _ _ Hi)|]. apply names_insert. by left.
Qed.

(** ** Texts *)

(** What a document must have for a rewriting to succeed *)
Definition services_ok (root : Mapping) : bool :=
  match mapping_at root "services" with Some m => text_keys m | None => true end.
Definition name_ok (n : string) : bool := negb (str_is_empty (trim n)) && bool_decide (colon ∉ chars n).
Definition option_ok (o : option string) : bool := match o with Some n => name_ok n | None => true end.

Lemma randomize_closed_all suffix root :
  colon ∉ chars suffix → services_ok root = true → closed root → closed (randomize_root suffix root).
Proof.
  unfold services_ok. intros Hc Ht. destruct (mapping_at root "services") as [m|] eqn:E; [by eapply randomize_closed|].
  intros _ sect svc n _ (sv & _ & _ & _ & H & _). by rewrite services_randomized, E in H.
Qed.
Lemma root_networks_randomized suffix root :
  root_networks_ok root = true → root_networks_ok (randomize_root suffix root) = true.
Proof.
  unfold root_networks_ok, randomize_root, rename_root_mapping. rewrite !mget_update.
  rewrite !(bool_decide_false ("networks" = _)), (bool_decide_true ("networks" = "networks")) by discriminate || done.
  destruct (mget "networks" root) as [v|]; [|done]. simpl. rewrite !bool_decide_eq_true, as_mapping_on.
  by rewrite fmap_is_Some.
Qed.
Lemma networks_readable_isolated net iso s :
  networks_readable (isolate_service net iso s) = true → networks_readable s = true.
Proof.
  assert (networks_readable (attach_network net s) = true → networks_readable s = true) as Ha.
  { unfold networks_readable, attach_network. destruct (mget "networks" s) as [v|] eqn:E; [|done].
    rewrite mget_update, E, bool_decide_true by done. by destruct v. }
  unfold isolate_service. destruct iso; [|done]. intros H. apply Ha. revert H.
  unfold networks_readable, suffix_named_volumes. by rewrite mget_update, bool_decide_false.
Qed.
Lemma isolated_on_network net iso root root' services k v s :
  isolated net iso root root' → mapping_at root' "services" = Some services → (k, v) ∈ services →
  as_mapping v = Some s → networks_readable s = true → on_network net s.
Proof.
  intros Hi Hs Hin Hv Hr. rewrite (iso_services _ _ _ _ Hi) in Hs. destruct (mapping_at root "services") as [m|]; [|done].
  simplify_eq/=. apply elem_of_map_values in Hin as (v0 & Hv0 & Hin). simpl in Hv0. subst v.
  rewrite as_mapping_on in Hv. destruct (as_mapping v0) as [s0|]; [|done]. simplify_eq/=.
  apply networks_readable_isolated in Hr. unfold isolate_service. destruct iso; [apply on_network_volumes|]; by apply attach_network_on.
Qed.

Lemma transform_root_spec sfx net iso root :
  option_ok sfx = true → option_ok net = true → services_ok root = true →
  (net = None ∨ root_networks_ok root = true) →
  let root1 := match sfx with Some s => randomize_root s root | None => root end in
  ∃ root', transform_root sfx net iso root = Ok root'
    ∧ match net with Some n => isolated n iso root1 root' | None => root' = root1 end.
Proof.
  intros Hs Hn Ht Hroot root1. unfold transform_root.
  assert (match sfx with
          | None => Ok root
          | Some suffix => if str_is_empty (trim suffix) then command_error "randomized compose requires a non-empty suffix"
                           else Ok (randomize_root suffix root)
          end = Ok root1) as ->.
  { unfold root1. destruct sfx as [suffix|]; [|done]. simpl in Hs. unfold name_ok in Hs. bsimp. by case_match. }
  simpl. destruct net as [n|]; [|by eexists]. simpl in Hn. unfold name_ok in Hn. bsimp.
  assert (str_is_empty (trim n) = false) as -> by done. apply attach_isolated_spec.
  destruct Hroot as [?|Hroot]; [done|]. unfold root1. destruct sfx; [by apply root_networks_randomized | done].
Qed.

(** *** Shared namespaces *)

Lemma namespace_refs_fields s s' :
  (∀ field, field ∈ ["network_mode"; "pid"; "ipc"] → mget field s' = mget field s) →
  namespace_refs s' = namespace_refs s.
Proof.
  intros H. unfold namespace_refs, at_field. by rewrite !H by (by apply (bool_decide_eq_true _)).
Qed.
Lemma namespace_randomized suffix root n :
  namespace_edge (randomize_root suffix root) n → namespace_edge root n.
Proof.
  intros (m' & k & v' & s' & Hm & Hin & Hv & Hn). rewrite services_randomized in Hm.
  destruct (mapping_at root "services") as [m|] eqn:E; [|done]. injection Hm as <-.
  apply elem_of_map_values in Hin as (v & Hv' & Hin). simpl in Hv', Hin. subst v'.
  apply elem_of_insert_all in Hin as [[k0 Hin]|Hin]; [|by apply elem_of_nil in Hin].
  rewrite as_mapping_on in Hv. destruct (as_mapping v) as [s|] eqn:Es; [|done]. injection Hv as <-.
  exists m, k0, v, s. split_and!; [done..|]. revert Hn. rewrite (namespace_refs_fields s); [done|].
  intros field Hf. unfold randomize_service, suffix_service_refs, suffix_reference_field, suffix_named_volumes, suffix_resource_refs.
  rewrite !mget_update.
  repeat (apply elem_of_cons in Hf as [->|Hf]); [..|by apply elem_of_nil in Hf]; reflexivity.
Qed.
Lemma namespace_isolated net iso root root' n :
  isolated net iso root root' → namespace_edge root' n → namespace_edge root n.
Proof.
  intros Hi (m' & k & v' & s' & Hm & Hin & Hv & Hn). rewrite (iso_services _ _ _ _ Hi) in Hm.
  destruct (mapping_at root "services") as [m|] eqn:E; [|done]. injection Hm as <-.
  apply elem_of_map_values in Hin as (v & Hv' & Hin). simpl in Hv', Hin. subst v'.
  rewrite as_mapping_on in Hv. destruct (as_mapping v) as [s|] eqn:Es; [|done]. injection Hv as <-.
  exists m, k, v, s. split_and!; [done..|]. revert Hn. rewrite (namespace_refs_fields s); [done|].
  intros field Hf. assert (field ≠ "networks" ∧ field ≠ "volumes") as [H1 H2] by set_solver.
  unfold isolate_service. destruct iso; [unfold suffix_named_volumes; rewrite mget_update, bool_decide_false by done|];
    by apply mget_attach_other.
Qed.

Section Text.
Context (from_str : string → option Value) (to_string : Value → option string).

(** C21: The rewriting of a compose file whose references all resolve does not fail or panic:
    what is returned is the text that the printer of YAML gives for the new document, or the
    error of the printer. In the new document all references resolve, and every service of an
    isolated project is on the network of the project unless its networks are neither a list nor
    a mapping. The references are those of depends_on, links, volumes_from, extends without a
    file, volumes other than paths, networks, configs and secrets to what the file defines, and
    those of the form service:name in network_mode, pid and ipc, which a file that gets a suffix
    must not have. Suffix and network have no colon and are not blank, services have distinct
    names, and the networks of the file, if there, are a mapping. *)
Theorem transform_keeps_closed source sfx net iso document root :
  from_str source = Some document → as_mapping document = Some root →
  option_ok sfx = true → option_ok net = true → services_ok root = true →
  (net = None ∨ root_networks_ok root = true) →
  resolves root → (sfx = None ∨ ∀ n, ¬ namespace_edge root n) →
  ∃ root', transform_compose from_str to_string source sfx net iso
           = match to_string (on_mapping (λ _, root') document) with Some text => Ok text | None => Err YamlError end
    ∧ resolves root'
    ∧ ∀ n services k v s, net = Some n → mapping_at root' "services" = Some services → (k, v) ∈ services →
        as_mapping v = Some s → networks_readable s = true → on_network n s.
Proof.
  intros Hp Hm Hs Hn Ht Hroot [Hcl Hns] Hnone.
  destruct (transform_root_spec sfx net iso root Hs Hn Ht Hroot) as (root' & Ht' & Hroot').
  set (root1 := match sfx with Some s => randomize_root s root | None => root end) in *.
  assert (resolves root1) as [Hcl1 Hns1].
  { unfold root1. destruct sfx as [suffix|]; [|done]. destruct Hnone as [?|Hnone]; [done|]. split.
    - simpl in Hs. unfold name_ok in Hs. bsimp. by apply randomize_closed_all.
    - intros n [? ?]%namespace_randomized. exfalso. eapply Hnone. by eexists. }
  exists root'. split_and!.
  - unfold transform_compose, edit. by rewrite Hp, Hm, Ht'.
  - destruct net as [n|]; [|by subst]. simpl in Hn. unfold name_ok in Hn. bsimp. split; [by eapply isolated_closed|].
    intros x Hx. pose proof (namespace_isolated _ _ _ _ _ Hroot' Hx) as Hx1.
    pose proof (node_isolated n iso root1 root' "services" x Hroot' ltac:(by apply (bool_decide_eq_true _)) (Hns1 x Hx1)) as Hnode.
    unfold isolated_name in Hnode. by rewrite andb_false_r in Hnode.
  - intros n services k v s -> Hsv Hin Hv Hr. by eapply isolated_on_network.
Qed.
End Text.

(** ** Removing a service *)

Definition field_tidy (v : Value) : bool := match v with VMapping m => text_keys m | _ => true end.
Definition extends_tidy (v : Value) : bool :=
  let plain n := bool_decide (colon ∉ chars n) in
  match v with
  | VString n => plain n
  | VMapping m => match mget "service" m with Some (VString n) => plain n | _ => true end
  | _ => true
  end.
(** The references of a service are written with different texts as keys, and without a colon in [extends]. *)
Definition service_tidy (s : Mapping) : bool :=
  let check field p := match mget field s with Some v => p v | None => true end in
  check "depends_on" field_tidy && check "links" field_tidy && check "volumes_from" field_tidy && check "extends" extends_tidy.
Definition services_tidy (root : Mapping) : bool :=
  match mapping_at root "services" with
  | Some m => text_keys m && forallb (λ p, match as_mapping p.2 with Some s => service_tidy s | None => true end) m
  | None => true
  end.

Lemma split_on_head c s : head (split_on (is_char c) s) = Some (default s (fst <$> split_once c s)).
Proof.
  induction s as [|d s IH]; [done|]. simpl. destruct (is_char c d); [done|].
  destruct (split_on (is_char c) s) as [|w ws]; [done|]. simpl in *. injection IH as ->.
  by destruct (split_once c s) as [[]|].
Qed.
Lemma field_refs_removed name v n :
  field_tidy v = true →
  n ∈ field_refs (remove_from_value name v) ↔ n ∈ field_refs v ∧ n ≠ name.
Proof.
  destruct v as [| | | |items|m|]; simpl; intros Ht; try (by rewrite elem_of_nil; naive_solver).
  - rewrite !list_elem_of_omap. setoid_rewrite elem_of_filterb. setoid_rewrite negb_true_iff.
    setoid_rewrite bool_decide_eq_false. split.
    + intros ([] & [Hin Hne] & Hn); simplify_eq/=. split; [by eexists; split; [done|]|]. intros <-.
      apply Hne. by rewrite split_on_head.
    + intros [([| | |x| | |] & Hin & Hn) Hne]; simplify_eq/=. exists (VString x). split; [|reflexivity]. split; [done|]. simpl.
      rewrite split_on_head. intros [=]. by apply Hne.
  - rewrite names_remove by done. naive_solver.
Qed.
Lemma extends_refs_removed name v n :
  extends_tidy v = true → n ∈ extends_refs (remove_extends name v) ↔ n ∈ extends_refs v ∧ n ≠ name.
Proof.
  destruct v as [| | |x| |m|]; simpl; intros Ht; try (by rewrite elem_of_nil; naive_solver).
  - apply bool_decide_eq_true in Ht. case_bool_decide; simpl; rewrite before_colon_self by done; set_solver.
  - destruct (mget "service" m) as [v|] eqn:E; simpl.
    + destruct (bool_decide _) eqn:Hb; simpl; rewrite ?E; destruct (mget "file" m), v as [| | |x| | |]; try set_solver;
        apply bool_decide_eq_true in Ht; rewrite ?before_colon_self by done; bsimp; set_solver.
    + rewrite E. destruct (mget "file" m); set_solver.
Qed.
Lemma mget_update_same field h s : mget field (mupdate field h s) = h <$> mget field s.
Proof. by rewrite mget_update, bool_decide_true. Qed.
Lemma mget_update_other field g h s : field ≠ g → mget field (mupdate g h s) = mget field s.
Proof. intros H. by rewrite mget_update, bool_decide_false. Qed.
Lemma at_field_removed field read h s s' (p : Value → bool) name n :
  (∀ v, p v = true → n ∈ read (h v) ↔ n ∈ read v ∧ n ≠ name) → mget field s' = h <$> mget field s →
  (match mget field s with Some v => p v | None => true end) = true →
  n ∈ at_field field read s' ↔ n ∈ at_field field read s ∧ n ≠ name.
Proof.
  intros H Hs Hp. unfold at_field. rewrite Hs. destruct (mget field s) as [v|]; [by apply H | set_solver].
Qed.
Ltac look_get := repeat first [rewrite mget_update_same | rewrite mget_update_other by discriminate]; reflexivity.
Lemma references_removed name sect s n :
  service_tidy s = true → sect ∈ sections →
  n ∈ references sect (remove_references name s) ↔ n ∈ references sect s ∧ ¬ (sect = "services" ∧ n = name).
Proof.
  intros Ht Hs. unfold service_tidy in Ht. cbv beta zeta in Ht. bsimp. unfold remove_references, remove_service_reference.
  repeat (apply elem_of_cons in Hs as [->|Hs]); [..|by apply elem_of_nil in Hs];
    rewrite ?references_volumes, ?references_networks, ?references_configs, ?references_secrets, ?references_services.
  2-5: rewrite !at_field_other by discriminate; naive_solver.
  rewrite !elem_of_app.
  rewrite (at_field_removed "depends_on" field_refs (remove_from_value name) s _ field_tidy name n);
    [|intros v; apply field_refs_removed | look_get | done].
  rewrite (at_field_removed "links" field_refs (remove_from_value name) s _ field_tidy name n);
    [|intros v; apply field_refs_removed | look_get | done].
  rewrite (at_field_removed "volumes_from" field_refs (remove_from_value name) s _ field_tidy name n);
    [|intros v; apply field_refs_removed | look_get | done].
  rewrite (at_field_removed "extends" extends_refs (remove_extends name) s _ extends_tidy name n);
    [|intros v; apply extends_refs_removed | look_get | done].
  naive_solver.
Qed.

(** Removing a service removes its name and every reference to it, and keeps every other name
    and every other reference: what resolved before resolves after. *)
Theorem remove_service_spec name root root' :
  services_tidy root = true → remove_service_root name root = Ok root' →
  (∀ sect n, sect ∈ sections → node root' sect n ↔ node root sect n ∧ ¬ (sect = "services" ∧ n = name))
  ∧ (∀ svc sect n, sect ∈ sections →
       edge root' svc sect n ↔ edge root svc sect n ∧ svc ≠ name ∧ ¬ (sect = "services" ∧ n = name))
  ∧ (closed root → closed root').
Proof.
  unfold services_tidy, remove_service_root. destruct (mapping_at root "services") as [services|] eqn:Es; [|done].
  intros [Ht Htidy]%andb_true_iff. destruct (mget name services) as [v0|] eqn:Eg; [|done].
  set (f := λ services, mmap_values (on_mapping (remove_references name)) (mremove name services)).
  intros [= <-].
  assert (∀ sect n, sect ∈ sections → node (mupdate "services" (on_mapping f) root) sect n ↔ node root sect n ∧ ¬ (sect = "services" ∧ n = name)) as Hnode.
  { intros sect n Hs. unfold node. destruct (decide (sect = "services")) as [->|Hne].
    - look_section. rewrite Es. unfold f. simpl. pose proof (names_remove n name services Ht) as Hr.
      rewrite <-(names_map_values (on_mapping (remove_references name))) in Hr. naive_solver.
    - rewrite mapping_at_other by done. naive_solver. }
  assert (∀ svc sect n, sect ∈ sections →
       edge (mupdate "services" (on_mapping f) root) svc sect n ↔ edge root svc sect n ∧ svc ≠ name ∧ ¬ (sect = "services" ∧ n = name)) as Hedge.
  { intros svc sect n Hs. unfold edge. look_section. rewrite Es. unfold f. simpl. split.
    - intros (? & k & v' & s' & [= <-] & Hin & Hk & Hv & Hn). apply elem_of_map_values in Hin as (v & Hv' & Hin).
      simpl in Hv', Hin. subst v'. rewrite as_mapping_on in Hv. destruct (as_mapping v) as [s|] eqn:Ev; [|done]. simplify_eq/=.
      assert (svc ∈ names (mremove name services)) as [Hne _]%(names_remove _ _ _ Ht) by (apply names_elem; by exists k, v).
      apply elem_of_remove in Hin. pose proof (proj1 (forallb_elem _ _) Htidy _ Hin) as Hts. simpl in Hts. rewrite Ev in Hts.
      apply references_removed in Hn as [Hn ?]; [|done..]. split; [|done]. by exists services, k, v, s.
    - intros ((? & k & v & s & [= <-] & Hin & Hk & Hv & Hn) & Hne & Hnn).
      pose proof (proj1 (forallb_elem _ _) Htidy _ Hin) as Hts. simpl in Hts. rewrite Hv in Hts.
      eexists _, k, (on_mapping (remove_references name) v), (remove_references name s). split; [reflexivity|]. split_and!.
      + apply elem_of_map_values. exists v. split; [done|]. rewrite (mremove_perm name services Ht).
        apply elem_of_filterb. split; [done|]. simpl. apply negb_true_iff, is_str_false. intros ->. simplify_eq/=.
      + done.
      + by rewrite as_mapping_on, Hv.
      + by apply references_removed. }
  split_and!; [done | done |]. intros Hcl sect svc n Hs [He [_ Hn]]%Hedge; [|done]. apply Hnode; [done|].
  split; [by eapply Hcl | done].
Qed.

(** * Editing the configs and secrets of a compose file, and examples

    [upsert_resource] defines a config or a secret and makes the named services use it;
    [remove_resource] removes it with every use.  The examples at the end are what the rewriting
    does outside the conditions of its theorems. *)

(** The list [field] of the service holds [name]. *)
Definition uses (field name : string) (s : Mapping) : Prop :=
  ∃ l i, mget field s ≫= as_sequence = Some l ∧ i ∈ l ∧ as_str i = Some name.
Definition service_uses (field name : string) (services : Mapping) (svc : string) : Prop :=
  ∃ s, mget svc services ≫= as_mapping = Some s ∧ uses field name s.

(** ** One more use *)

Lemma as_sequence_on f v : as_sequence (on_sequence f v) = f <$> as_sequence v.
Proof. induction v; try done. Qed.
Lemma elem_of_update p name f m :
  p ∈ mupdate name f m → p ∈ m ∨ p.1 = VString name ∧ ∃ v, p.2 = f v ∧ (VString name, v) ∈ m ∧ mget name m = Some v.
Proof.
  induction m as [|[k v] m IH]; simpl; [by left|]. rewrite mget_cons. destruct (is_str name k) eqn:E.
  - apply is_str_spec in E as ->. intros [->|H]%elem_of_cons; [right | left; set_solver]. split; [done|].
    exists v. set_solver.
  - intros [->|H]%elem_of_cons; [left; set_solver|]. apply IH in H as [H|(H & v' & Hv & Hin & Hg)]; [left; set_solver|].
    right. split; [done|]. exists v'. set_solver.
Qed.

Section Upsert.
Context (field name : string) (Hfield : field ∈ ["configs"; "secrets"]).

(** The references of a service are those it had, and [name] *)
Definition refs_grow (s s' : Mapping) : Prop :=
  ∀ sect n, sect ∈ sections → n ∈ references sect s' → n ∈ references sect s ∨ sect = field ∧ n = name.
Definition services_grow (m m' : Mapping) : Prop :=
  names m' = names m ∧
  ∀ k v' s', (k, v') ∈ m' → as_mapping v' = Some s' → ∃ v s, (k, v) ∈ m ∧ as_mapping v = Some s ∧ refs_grow s s'.
#[local] Instance services_grow_pre : PreOrder services_grow.
Proof.
  split.
  - intros m. split; [done|]. intros k v s Hin Hv. exists v, s. split_and!; [done..|]. intros sect n _ Hn. by left.
  - intros a b c [Hn1 H1] [Hn2 H2]. split; [congruence|]. intros k v'' s'' Hin Hv.
    destruct (H2 k v'' s'' Hin Hv) as (v' & s' & Hin' & Hv' & Hg2). destruct (H1 k v' s' Hin' Hv') as (v & s & Hi & Hvv & Hg1).
    exists v, s. split_and!; [done..|]. intros sect n Hs Hn. destruct (Hg2 sect n Hs Hn) as [Hn'|?]; [by apply Hg1 | by right].
Qed.

Lemma references_field_only s s' sect :
  sect ∈ sections → sect ≠ field → (∀ g, g ≠ field → mget g s' = mget g s) → references sect s' = references sect s.
Proof.
  intros Hs Hne H. assert (∀ g read, g ≠ field → at_field g read s' = at_field g read s) as Ha.
  { intros g read Hg. unfold at_field. by rewrite H. }
  repeat (apply elem_of_cons in Hfield as [->|Hfield]); [..|by apply elem_of_nil in Hfield];
    repeat (apply elem_of_cons in Hs as [->|Hs]); try (by apply elem_of_nil in Hs); try done;
    rewrite ?references_services, ?references_volumes, ?references_networks, ?references_configs, ?references_secrets;
    by rewrite !Ha by discriminate.
Qed.
Lemma references_field s : references field s = at_field field resource_refs s.
Proof. by repeat (apply elem_of_cons in Hfield as [->|Hfield]); [..|by apply elem_of_nil in Hfield]. Qed.

Lemma use_resource_refs s s1 :
  s1 = mentry field (VSequence []) s →
  refs_grow s s1 ∧ refs_grow s (mupdate field (on_sequence (λ l, l ++ [VString name])) s1).
Proof.
  intros ->. split; intros sect n Hs; (destruct (decide (sect = field)) as [->|Hne];
    [|rewrite (references_field_only s) by (first [done | intros g Hg; by rewrite ?mget_update, ?mget_entry, ?bool_decide_false]);
      by left]); rewrite !references_field; unfold at_field.
  - rewrite mget_entry, bool_decide_true by done. simpl. left. by destruct (mget field s).
  - rewrite mget_update, mget_entry, bool_decide_true by done. simpl.
    destruct (mget field s) as [v|]; simpl.
    + destruct v; simpl; try (by left). rewrite omap_app, elem_of_app. intros [?|H]; [by left|].
      apply list_elem_of_singleton in H. by right.
    + intros H%list_elem_of_singleton. by right.
Qed.
Lemma services_grow_update svc m s s' :
  mget svc m ≫= as_mapping = Some s → refs_grow s s' → services_grow m (mupdate svc (on_mapping (λ _, s')) m).
Proof.
  intros Hs Hg. split; [apply names_update|]. intros k v' t' Hin Ht.
  apply elem_of_update in Hin as [Hin|(Hk & v & Hv & Hin & Hget)].
  - exists v', t'. split_and!; [done..|]. intros sect n _ Hn. by left.
  - simpl in Hk, Hv. subst k v'. rewrite Hget in Hs. simpl in Hs. rewrite as_mapping_on, Hs in Ht. simplify_eq/=.
    by exists v, s.
Qed.
Lemma use_resource_spec svc m m' :
  use_resource field name svc m = Ok m' →
  services_grow m m' ∧ service_uses field name m' svc
  ∧ ∀ svc', service_uses field name m svc' → service_uses field name m' svc'.
Proof.
  unfold use_resource. destruct (mget svc m ≫= as_mapping) as [s|] eqn:Es; [|done].
  set (s1 := mentry field (VSequence []) s).
  destruct (mget field s1 ≫= as_sequence) as [l|] eqn:El; [|done].
  destruct (use_resource_refs s s1 eq_refl) as [Hg1 Hg2].
  assert (∀ s', uses field name s' → refs_grow s s' →
    let m' := mupdate svc (on_mapping (λ _, s')) m in
    services_grow m m' ∧ service_uses field name m' svc ∧ ∀ svc', service_uses field name m svc' → service_uses field name m' svc')
    as Hall.
  { intros s' Hu Hg m'0. assert (mget svc m'0 ≫= as_mapping = Some s') as Hget.
    { unfold m'0. rewrite mget_update_same. destruct (mget svc m) as [v|]; [|done]. simpl in *.
      by rewrite as_mapping_on, Es. }
    split_and!; [by eapply services_grow_update | by exists s' |]. intros svc' (t & Ht & Hut).
    destruct (decide (svc' = svc)) as [->|Hne]; [by exists s'|]. exists t. split; [|done].
    unfold m'0. by rewrite mget_update_other. }
  destruct (existsb _ l) eqn:Ex; intros [= <-]; apply Hall; try done.
  - apply existsb_elem in Ex as (i & Hi & Hn%bool_decide_eq_true). by exists l, i.
  - exists (l ++ [VString name]), (VString name). split; [|split; [set_solver | done]].
    rewrite mget_update_same. destruct (mget field s1) as [v|]; [|done]. simpl in *. by rewrite as_sequence_on, El.
Qed.
Lemma use_resource_all_spec svcs m m' :
  use_resource_all field name svcs m = Ok m' →
  services_grow m m' ∧ (∀ svc, svc ∈ svcs → service_uses field name m' svc)
  ∧ ∀ svc', service_uses field name m svc' → service_uses field name m' svc'.
Proof.
  revert m. induction svcs as [|svc svcs IH]; simpl; intros m.
  - intros [= <-]. split_and!; [done | set_solver | done].
  - intros (m1 & H1 & H2)%let_ok. apply use_resource_spec in H1 as (Hg1 & Hu1 & Hk1).
    apply IH in H2 as (Hg2 & Hu2 & Hk2). split_and!; [by etrans | | naive_solver].
    intros s [->|Hs]%elem_of_cons; eauto.
Qed.
End Upsert.

(** A success of upsert_resource defines the config or the secret, makes every service that was
    named use it, adds no other reference, and so keeps the file closed. *)
Theorem upsert_resource_spec field name file external svcs root root' :
  field ∈ ["configs"; "secrets"] → upsert_root field name file external svcs root = Ok root' →
  (∃ m, mapping_at root' field = Some m ∧ mget name m = Some (VMapping (resource_definition file external)))
  ∧ (∃ services, mapping_at root' "services" = Some services ∧ ∀ svc, svc ∈ svcs → service_uses field name services svc)
  ∧ (closed root → closed root').
Proof.
  intros Hf. unfold upsert_root, ensure_mapping.
  set (root0 := mentry field (VMapping []) root). destruct (mapping_at root0 field) as [m0|] eqn:Em; [|done].
  set (ins := minsert (VString name) (VMapping (resource_definition file external))).
  set (root1 := mupdate field (on_mapping ins) root0). simpl.
  destruct (mapping_at root1 "services") as [services|] eqn:Es; [|done].
  intros (services' & Hall & [= <-])%let_ok. apply (use_resource_all_spec field name Hf) in Hall as ([Hnames Hgrow] & Huse & _).
  assert (field ≠ "services") as Hne by set_solver.
  set (root' := mupdate "services" (on_mapping (λ _, services')) root1).
  assert (mapping_at root' "services" = Some services') as Es' by (unfold root'; by rewrite mapping_at_update, Es).
  assert (mapping_at root "services" = Some services) as Es0.
  { rewrite <-Es. unfold root1, root0. by rewrite mapping_at_other, mapping_at_entry by done. }
  assert (mapping_at root' field = Some (ins m0)) as Ef.
  { unfold root', root1. by rewrite mapping_at_other, mapping_at_update, Em by done. }
  split_and!.
  - exists (ins m0). split; [done|]. unfold ins. by rewrite mget_insert, is_str_refl.
  - by exists services'.
  - intros Hcl sect svc n Hs (? & k & v' & s' & Hsv & Hin & Hk & Hv & Hn). rewrite Es' in Hsv. simplify_eq.
    assert (∀ n0, node root sect n0 → node root' sect n0) as Hnode.
    { intros n0 (m & Hm & Hn0). unfold node. destruct (decide (sect = "services")) as [->|Hns].
      { rewrite Es'. eexists. split; [done|]. rewrite Hnames. by simplify_eq. }
      destruct (decide (sect = field)) as [->|Hnf].
      - rewrite Ef. eexists. split; [done|]. apply names_insert. right. revert Em Hm. unfold root0, mapping_at.
        rewrite mget_entry, bool_decide_true by done. destruct (mget field root) as [v|]; [|done]. simpl. congruence.
      - exists m. split; [|done]. unfold root', root1, root0. by rewrite !mapping_at_other, mapping_at_entry by done. }
    destruct (Hgrow k v' s' Hin Hv) as (v & s & Hin0 & Hv0 & Hg).
    destruct (Hg sect n Hs Hn) as [Hn0|[-> ->]].
    + apply Hnode, (Hcl sect svc n Hs). by exists services, k, v, s.
    + exists (ins m0). split; [done|]. apply names_insert. by left.
Qed.

(** ** Removing a config or a secret *)

(** The section has different texts as names, and no service writes its uses as a mapping. *)
Definition resources_tidy (field : string) (root : Mapping) : bool :=
  match mapping_at root field with Some m => text_keys m | None => true end
  && match mapping_at root "services" with
     | Some services =>
         forallb (λ p, match as_mapping p.2 ≫= mget field with Some (VMapping _) => false | _ => true end) services
     | None => true
     end.

Lemma resource_refs_dropped name v n :
  (match v with VMapping _ => false | _ => true end) = true →
  n ∈ resource_refs (drop_uses name v) ↔ n ∈ resource_refs v ∧ n ≠ name.
Proof.
  destruct v as [| | | |items|m|]; simpl; intros Ht; try (by rewrite elem_of_nil; naive_solver); try done.
  rewrite !list_elem_of_omap. setoid_rewrite elem_of_filterb. split.
  - intros (x & [Hin Hk] & Hn). destruct x as [| | |y| |m|]; simplify_eq/=.
    + split; [by exists (VString n)|]. by apply negb_true_iff, bool_decide_eq_false in Hk.
    + split; [by exists (VMapping m)|]. destruct (mget "source" m) as [[]|]; simplify_eq/=.
      apply negb_true_iff, bool_decide_eq_false in Hk. congruence.
  - intros [(x & Hin & Hn) Hne]. exists x. split; [|done]. split; [done|]. destruct x as [| | |y| |m|]; simplify_eq/=.
    + by rewrite bool_decide_false.
    + destruct (mget "source" m) as [[]|]; simplify_eq/=. rewrite bool_decide_false; [done | congruence].
Qed.

(** Removing a config or a secret removes its definition and every use of it, and keeps the
    rest. *)
Theorem remove_resource_spec field name root :
  field ∈ ["configs"; "secrets"] → resources_tidy field root = true →
  (∀ sect n, sect ∈ sections →
     node (remove_resource_root field name root) sect n ↔ node root sect n ∧ ¬ (sect = field ∧ n = name))
  ∧ (∀ svc sect n, sect ∈ sections →
       edge (remove_resource_root field name root) svc sect n ↔ edge root svc sect n ∧ ¬ (sect = field ∧ n = name)).
Proof.
  intros Hf [Ht Hs]%andb_true_iff. assert (field ≠ "services") as Hne by set_solver.
  unfold remove_resource_root.
  set (g := mupdate field (drop_uses name)). set (root1 := mupdate field (on_mapping (mremove name)) root).
  assert (mapping_at root1 "services" = mapping_at root "services") as E1 by (unfold root1; by rewrite mapping_at_other).
  split.
  - intros sect n Hin. unfold node. destruct (decide (sect = "services")) as [->|Hns].
    + rewrite mapping_at_update, E1. destruct (mapping_at root "services") as [m|]; simpl; [|naive_solver].
      split; [intros (? & [= <-] & Hn) | intros [(? & [= <-] & Hn) _]; eexists; split; [reflexivity|]];
        rewrite names_map_values in *; naive_solver.
    + rewrite mapping_at_other by done. unfold root1. destruct (decide (sect = field)) as [->|Hnf].
      * rewrite mapping_at_update. destruct (mapping_at root field) as [m|]; simpl; [|naive_solver].
        pose proof (names_remove n name m Ht). naive_solver.
      * rewrite mapping_at_other by done. naive_solver.
  - intros svc sect n Hin. unfold edge. rewrite mapping_at_update, E1.
    destruct (mapping_at root "services") as [m|]; simpl; [|naive_solver].
    assert (∀ k v s, (k, v) ∈ m → as_mapping v = Some s →
              n ∈ references sect (g s) ↔ n ∈ references sect s ∧ ¬ (sect = field ∧ n = name)) as Href.
    { intros k v s Hk Hv. destruct (decide (sect = field)) as [->|Hnf].
      - rewrite !(references_field field Hf). unfold at_field, g. rewrite mget_update_same.
        pose proof (proj1 (forallb_elem _ _) Hs _ Hk) as Hm. simpl in Hm. rewrite Hv in Hm. simpl in Hm.
        destruct (mget field s) as [w|]; simpl; [|set_solver]. rewrite resource_refs_dropped by (by destruct w). naive_solver.
      - rewrite (references_field_only field Hf s (g s)); [naive_solver | done..|].
        intros h Hh. unfold g. by rewrite mget_update_other. }
    split.
    + intros (? & k & v' & s' & [= <-] & Hk & Hks & Hv & Hn). apply elem_of_map_values in Hk as (v & Hv' & Hk).
      simpl in Hv', Hk. subst v'. rewrite as_mapping_on in Hv. destruct (as_mapping v) as [s|] eqn:Ev; [|done].
      simplify_eq/=. apply (Href k v s Hk Ev) in Hn as [Hn ?]. split; [|done]. by exists m, k, v, s.
    + intros [(? & k & v & s & [= <-] & Hk & Hks & Hv & Hn) Hnn].
      eexists _, k, (on_mapping g v), (g s). split; [reflexivity|]. split_and!.
      * apply elem_of_map_values. by exists v.
      * done.
      * by rewrite as_mapping_on, Hv.
      * by apply (Href k v s Hk Hv).
Qed.

(** ** Deciding whether a document is closed *)

Definition closedb (root : Mapping) : bool :=
  match mapping_at root "services" with
  | None => true
  | Some services =>
      forallb (λ p, match as_mapping p.2 with
                    | Some s => forallb (λ sect, forallb (λ n,
                        match mapping_at root sect with
                        | Some m => existsb (λ x, bool_decide (x = n)) (names m)
                        | None => false
                        end) (references sect s)) sections
                    | None => true
                    end) services
  end.
Lemma closedb_closed root : closedb root = true → closed root.
Proof.
  unfold closedb. intros H sect svc n Hs (services & k & v & s & Hsv & Hin & _ & Hv & Hn). rewrite Hsv in H.
  pose proof (proj1 (forallb_elem _ _) H _ Hin) as H1. cbn [snd] in H1. rewrite Hv in H1.
  pose proof (proj1 (forallb_elem _ _) H1 _ Hs) as H2. pose proof (proj1 (forallb_elem _ _) H2 _ Hn) as H3. simpl in H3.
  destruct (mapping_at root sect) as [m|] eqn:E; [|done]. apply existsb_elem in H3 as (x & Hx & Heq%bool_decide_eq_true).
  subst. by exists m.
Qed.

Definition namespaceb (p : string → bool) (root : Mapping) : bool :=
  match mapping_at root "services" with
  | None => true
  | Some services =>
      forallb (λ q, match as_mapping q.2 with Some s => forallb p (namespace_refs s) | None => true end) services
  end.
Lemma namespaceb_spec p root n : namespaceb p root = true → namespace_edge root n → p n = true.
Proof.
  unfold namespaceb. intros H (services & k & v & s & Hsv & Hin & Hv & Hn). rewrite Hsv in H.
  pose proof (proj1 (forallb_elem _ _) H _ Hin) as H1. cbn [snd] in H1. rewrite Hv in H1.
  exact (proj1 (forallb_elem _ _) H1 _ Hn).
Qed.

(** ** A document *)

Definition obj (l : list (string * Value)) : Value := VMapping (map (λ p, (VString p.1, p.2)) l).
Definition strs (l : list string) : Value := VSequence (map VString l).
Definition root_of (v : Value) : Mapping := default [] (as_mapping v).

Definition sample : Value :=
  obj [("services", obj [("api", obj [("image", VString "api:1"); ("depends_on", strs ["db"]); ("volumes", strs ["data:/data"]);
                                      ("networks", strs ["backend"; "openoxide-network"]);
                                      ("configs", strs ["app-config"]); ("secrets", strs ["db-password"])]);
                         ("db", obj [("volumes", strs ["data:/var/lib/data"])])]);
       ("volumes", obj [("data", obj [])]);
       ("networks", obj [("backend", obj []); ("openoxide-network", obj [("external", VBool true)])]);
       ("configs", obj [("app-config", obj [("file", VString "./app.conf")])]);
       ("secrets", obj [("db-password", obj [("file", VString "./password")])])].

Definition sample_services : Mapping := default [] (mapping_at (root_of sample) "services").
Lemma randomize_is_renaming_witness :
  edge (randomize_root "abc123" (root_of sample)) "api-abc123" "services" "db-abc123".
Proof.
  apply (proj2 (proj2 (randomize_is_renaming "abc123" (root_of sample)
                  ltac:(by apply (bool_decide_eq_true _)) ltac:(discriminate) ltac:(vm_compute; reflexivity))
                  "services" ltac:(by apply (bool_decide_eq_true _)))).
  exists "api", "db". split; [|split; reflexivity].
  eexists sample_services, (VString "api"), _, _. split; [reflexivity|]. split; [by apply list_elem_of_here|].
  split; [reflexivity|]. split; [reflexivity|]. vm_compute. by apply list_elem_of_here.
Defined.

Lemma no_namespaces root n : namespaceb (λ _, false) root = true → ¬ namespace_edge root n.
Proof. intros H He. by pose proof (namespaceb_spec _ _ _ H He). Qed.
Lemma sample_resolves : resolves (root_of sample).
Proof.
  split; [apply closedb_closed; vm_compute; reflexivity|]. intros n He. exfalso. revert He.
  apply no_namespaces. vm_compute. reflexivity.
Qed.

Lemma transform_keeps_closed_witness :
  ∃ root', transform_compose (λ _, Some sample) (λ _, Some "out") "in" (Some "abc123") (Some "project-one") true = Ok "out"
           ∧ resolves root'.
Proof.
  destruct (transform_keeps_closed (λ _, Some sample) (λ _, Some "out") "in" (Some "abc123") (Some "project-one") true
              sample (root_of sample) eq_refl eq_refl ltac:(vm_compute; reflexivity) ltac:(vm_compute; reflexivity)
              ltac:(vm_compute; reflexivity) ltac:(right; vm_compute; reflexivity)
              sample_resolves ltac:(right; intros n; apply no_namespaces; vm_compute; reflexivity))
    as (root' & Heq & Hc & _).
  exists root'. split; [exact Heq | exact Hc].
Defined.

(** The root of a success *)
Definition ok_root (r : result Mapping ExecError) : Mapping := match r with Ok m => m | Err _ => [] end.
Lemma remove_service_witness :
  let root' := ok_root (remove_service_root "db" (root_of sample)) in
  remove_service_root "db" (root_of sample) = Ok root' ∧ ¬ node root' "services" "db" ∧ closed root'.
Proof.
  intros root'. split; [vm_compute; reflexivity|].
  destruct (remove_service_spec "db" (root_of sample) root' ltac:(vm_compute; reflexivity) ltac:(vm_compute; reflexivity)) as (Hn & _ & Hc).
  split.
  - intros H%Hn; [|by apply (bool_decide_eq_true _)]. by destruct H as [_ H]; apply H.
  - apply Hc, closedb_closed. vm_compute. reflexivity.
Defined.

Lemma upsert_resource_witness :
  let root' := ok_root (upsert_root "configs" "extra" (Some "./x") false ["db"] (root_of sample)) in
  upsert_root "configs" "extra" (Some "./x") false ["db"] (root_of sample) = Ok root' ∧ closed root'.
Proof.
  intros root'. split; [vm_compute; reflexivity|].
  destruct (upsert_resource_spec "configs" "extra" (Some "./x") false ["db"] (root_of sample) root'
              ltac:(by apply (bool_decide_eq_true _)) ltac:(vm_compute; reflexivity)) as (_ & _ & Hc).
  apply Hc, closedb_closed. vm_compute. reflexivity.
Defined.

Lemma remove_resource_witness : ¬ edge (remove_resource_root "configs" "app-config" (root_of sample)) "api" "configs" "app-config".
Proof.
  destruct (remove_resource_spec "configs" "app-config" (root_of sample)
              ltac:(by apply (bool_decide_eq_true _)) ltac:(vm_compute; reflexivity)) as (_ & He).
  intros H%He; [|by apply (bool_decide_eq_true _)]. by destruct H as [_ H]; apply H.
Defined.

(** ** Outside the conditions *)

Definition service_after (suffix svc : string) (doc : Value) : option Value :=
  mapping_at (randomize_root suffix (root_of doc)) "services" ≫= mget svc.

(** The network [default] need not be defined; a reference to it is renamed, and then resolves nowhere. *)
Example default_network_is_lost :
  let doc := obj [("services", obj [("web", obj [("networks", strs ["default"])])])] in
  service_after "abc" "web-abc" doc = Some (obj [("networks", strs ["default-abc"])])
  ∧ mapping_at (randomize_root "abc" (root_of doc)) "networks" = None.
Proof. vm_compute. done. Qed.
(** A reference through [network_mode] is not renamed, though the service is. *)
Example network_mode_is_not_renamed :
  let doc := obj [("services", obj [("db", obj []); ("web", obj [("network_mode", VString "service:db")])])] in
  names <$> mapping_at (randomize_root "abc" (root_of doc)) "services" = Some ["db-abc"; "web-abc"]
  ∧ service_after "abc" "web-abc" doc = Some (obj [("network_mode", VString "service:db")]).
Proof. vm_compute. done. Qed.
(** The service of another file is renamed, though the file is not. *)
Example extends_of_another_file_is_renamed :
  let doc := obj [("services", obj [("web", obj [("extends", obj [("file", VString "common.yml"); ("service", VString "base")])])])] in
  service_after "abc" "web-abc" doc
  = Some (obj [("extends", obj [("file", VString "common.yml"); ("service", VString "base-abc")])]).
Proof. vm_compute. done. Qed.
(** A path under the home directory is taken for the name of a volume. *)
Example home_path_is_renamed :
  let doc := obj [("services", obj [("web", obj [("volumes", strs ["~/data:/data"; "./data:/data"])])])] in
  service_after "abc" "web-abc" doc = Some (obj [("volumes", strs ["~/data-abc:/data"; "./data:/data"])]).
Proof. vm_compute. done. Qed.
(** A container named in [volumes_from] is taken for a service called [container]. *)
Example container_is_renamed :
  let doc := obj [("services", obj [("web", obj [("volumes_from", strs ["container:old:ro"])])])] in
  service_after "abc" "web-abc" doc = Some (obj [("volumes_from", strs ["container-abc:old:ro"])]).
Proof. vm_compute. done. Qed.
(** An external volume without [name] is another volume after the renaming. *)
Example external_volume_is_renamed :
  let doc := obj [("volumes", obj [("data", obj [("external", VBool true)])])] in
  mapping_at (randomize_root "abc" (root_of doc)) "volumes"
  = Some [(VString "data-abc", obj [("external", VBool true)])].
Proof. vm_compute. done. Qed.
(** With the suffix [network], two networks become one. *)
Example networks_meet :
  let doc := obj [("networks", obj [("openoxide", VString "a"); ("openoxide-network", VString "b")])] in
  mapping_at (randomize_root "network" (root_of doc)) "networks" = Some [(VString "openoxide-network", VString "b")].
Proof. vm_compute. done. Qed.
(** Rewriting what was rewritten gives a second suffix: the file of a project whose source is
    uploaded is rewritten in place by every deployment. *)
Example second_deployment_renames_again :
  let doc := obj [("services", obj [("web", obj [])])] in
  names <$> mapping_at (randomize_root "abc" (randomize_root "abc" (root_of doc))) "services" = Some ["web-abc-abc"].
Proof. vm_compute. done. Qed.
(** [networks:] without a value at the root of an isolated project *)
Example empty_networks_panics :
  transform_compose (λ _, Some (obj [("networks", VNull)])) (λ _, Some "") "" None (Some "p") false
  = Err (Panicked "compose mapping field must be an object").
Proof. vm_compute. done. Qed.
(** A service whose [networks] has no value is not attached. *)
Example service_without_networks_is_left :
  let doc := obj [("services", obj [("web", obj [("networks", VNull)])])] in
  (λ m, mget "web" m) <$> (mapping_at (ok_root (attach_isolated_network "p" false (root_of doc))) "services")
  = Some (Some (obj [("networks", VNull)])).
Proof. vm_compute. done. Qed.
(** Removing a service empties the [extends] of a service that extends one of that name in another file. *)
Example extends_of_another_file_is_removed :
  let doc := obj [("services", obj [("db", obj []); ("web", obj [("extends", obj [("file", VString "x.yml"); ("service", VString "db")])])])] in
  mapping_at (ok_root (remove_service_root "db" (root_of doc))) "services"
  = Some [(VString "web", obj [("extends", VNull)])].
Proof. vm_compute. done. Qed.
