(* ===== verification/TraefikRules.v ===== *)
(** * Router rules

    [utils/traefik/rule.rs]: the rules of a router and their text.  The text is what Traefik
    reads: [parse_rule] is a reader of its rule language (a call of a matcher with values between
    back quotes, [!] before [&&] before [||], parentheses), and [rule_reads_back] says that the
    text of a rule is read as a rule that matches the same requests. *)

From stdpp Require Import gmap strings list.
From Stdlib Require Import ZArith Lia Ascii.
From S2P Require Import Prelude RustStr RustText.

Inductive Rule :=
  | Host (v : string)
  | HostRegexp (v : string)
  | Path (v : string)
  | PathPrefix (v : string)
  | Method (v : string)
  | Header (k v : string)
  | Query (k v : string)
  | ClientIP (v : string)
  | And (l r : Rule)
  | Or (l r : Rule)
  | Not (r : Rule).

Definition tick : ascii := ascii_of_N 96.
Definition ticked (v : string) : string := String tick v +:+ String tick "".
Definition call1 (name v : string) : string := name +:+ "(" +:+ ticked v +:+ ")".
Definition call2 (name k v : string) : string := name +:+ "(" +:+ ticked k +:+ ", " +:+ ticked v +:+ ")".

Definition needs_parens_within (r : Rule) (parent_is_and : bool) : bool :=
  match r with Or _ _ => true | And _ _ => negb parent_is_and | _ => false end.
Definition parens_if (b : bool) (s : string) : string := if b then "(" +:+ s +:+ ")" else s.

(** [Display] *)
Fixpoint rule_text (r : Rule) : string :=
  match r with
  | Host v => call1 "Host" v
  | HostRegexp v => call1 "HostRegexp" v
  | Path v => call1 "Path" v
  | PathPrefix v => call1 "PathPrefix" v
  | Method v => call1 "Method" v
  | Header k v => call2 "Header" k v
  | Query k v => call2 "Query" k v
  | ClientIP v => call1 "ClientIP" v
  | Not inner => "!" +:+ parens_if (match inner with And _ _ | Or _ _ => true | _ => false end) (rule_text inner)
  | And l r =>
      parens_if (needs_parens_within l true) (rule_text l) +:+ " && "
      +:+ parens_if (needs_parens_within r true) (rule_text r)
  | Or l r =>
      parens_if (needs_parens_within l false) (rule_text l) +:+ " || "
      +:+ parens_if (needs_parens_within r false) (rule_text r)
  end.

(** ** The language *)

Inductive Token := TCall (name : string) (args : list string) | TNot | TAnd | TOr | TOpen | TClose.

(** The values of a call, up to the closing parenthesis *)
Fixpoint read_args (n : nat) (s : string) : option (list string * string) :=
  match n with
  | O => None
  | S n =>
      match strip_prefix (String tick "") s ≫= split_once tick with
      | None => None
      | Some (v, s) =>
          match strip_prefix ")" s with
          | Some s => Some ([v], s)
          | None => match strip_prefix ", " s ≫= read_args n with
                    | Some (vs, s) => Some (v :: vs, s)
                    | None => None
                    end
          end
      end
  end.

Definition paren : ascii := "(".
(** The words of a text; the length of the text is fuel enough. *)
Fixpoint lex (n : nat) (s : string) : option (list Token) :=
  match n with
  | O => None
  | S n =>
      match s with
      | EmptyString => Some []
      | String c s' =>
          if is_char c " " then lex n s'
          else if is_char c "!" then cons TNot <$> lex n s'
          else if is_char c "(" then cons TOpen <$> lex n s'
          else if is_char c ")" then cons TClose <$> lex n s'
          else if is_char c "&" then match strip_prefix "&" s' with Some s' => cons TAnd <$> lex n s' | None => None end
          else if is_char c "|" then match strip_prefix "|" s' with Some s' => cons TOr <$> lex n s' | None => None end
          else match split_once paren s with
               | None => None
               | Some (name, s') =>
                   match read_args n s' with
                   | Some (args, s') => cons (TCall name args) <$> lex n s'
                   | None => None
                   end
               end
      end
  end.

Definition matcher (name : string) (args : list string) : option Rule :=
  match args with
  | [v] =>
      if bool_decide (name = "Host") then Some (Host v)
      else if bool_decide (name = "HostRegexp") then Some (HostRegexp v)
      else if bool_decide (name = "Path") then Some (Path v)
      else if bool_decide (name = "PathPrefix") then Some (PathPrefix v)
      else if bool_decide (name = "Method") then Some (Method v)
      else if bool_decide (name = "ClientIP") then Some (ClientIP v)
      else None
  | [k; v] =>
      if bool_decide (name = "Header") then Some (Header k v)
      else if bool_decide (name = "Query") then Some (Query k v)
      else None
  | _ => None
  end.

(** Recursive descent: alternatives of conjunctions of negated, parenthesised or single matchers. *)
Fixpoint p_unary (n : nat) (ts : list Token) : option (Rule * list Token) :=
  match n with
  | O => None
  | S n =>
      match ts with
      | TNot :: ts => match p_unary n ts with Some (r, ts) => Some (Not r, ts) | None => None end
      | TOpen :: ts => match p_or n ts with Some (r, TClose :: ts) => Some (r, ts) | _ => None end
      | TCall name args :: ts => match matcher name args with Some r => Some (r, ts) | None => None end
      | _ => None
      end
  end
with p_and_rest (n : nat) (acc : Rule) (ts : list Token) : option (Rule * list Token) :=
  match n with
  | O => None
  | S n =>
      match ts with
      | TAnd :: ts => match p_unary n ts with Some (r, ts) => p_and_rest n (And acc r) ts | None => None end
      | ts => Some (acc, ts)
      end
  end
with p_or_rest (n : nat) (acc : Rule) (ts : list Token) : option (Rule * list Token) :=
  match n with
  | O => None
  | S n =>
      match ts with
      | TOr :: ts =>
          match p_unary n ts with
          | Some (r, ts) => match p_and_rest n r ts with Some (r, ts) => p_or_rest n (Or acc r) ts | None => None end
          | None => None
          end
      | ts => Some (acc, ts)
      end
  end
with p_or (n : nat) (ts : list Token) : option (Rule * list Token) :=
  match n with
  | O => None
  | S n =>
      match p_unary n ts with
      | Some (r, ts) => match p_and_rest n r ts with Some (r, ts) => p_or_rest n r ts | None => None end
      | None => None
      end
  end.

Definition parse_tokens (ts : list Token) : option Rule :=
  match p_or (4 * length ts + 4) ts with Some (r, []) => Some r | _ => None end.
Definition parse_rule (text : string) : option Rule := lex (S (String.length text)) text ≫= parse_tokens.

(** What a rule matches, given what its matchers do *)
Fixpoint rule_matches (holds : Rule → bool) (r : Rule) : bool :=
  match r with
  | And l r => rule_matches holds l && rule_matches holds r
  | Or l r => rule_matches holds l || rule_matches holds r
  | Not r => negb (rule_matches holds r)
  | r => holds r
  end.
Definition same_rule (r r' : Rule) : Prop := ∀ holds, rule_matches holds r = rule_matches holds r'.
#[export] Instance same_rule_equiv : Equivalence same_rule.
Proof. split; [by intros ?? | intros ??? h; by rewrite H | intros ?????? ; by rewrite H, H0]. Qed.

Example rule_texts :
  rule_text (And (Or (Host "a.com") (Host "b.com")) (PathPrefix "/api"))
  = of_chars (map (λ c, if is_char c "'" then tick else c) (chars "(Host('a.com') || Host('b.com')) && PathPrefix('/api')"))
  ∧ parse_rule (rule_text (And (Host "a.com") (And (PathPrefix "/api") (Not (Header "k" "v")))))
    = Some (And (And (Host "a.com") (PathPrefix "/api")) (Not (Header "k" "v"))).
Proof. split; vm_compute; reflexivity. Qed.

(** ** The words of a rule *)

Definition wrap_if (b : bool) (ts : list Token) : list Token := if b then TOpen :: ts ++ [TClose] else ts.
Definition binary (r : Rule) : bool := match r with And _ _ | Or _ _ => true | _ => false end.
Fixpoint toks (r : Rule) : list Token :=
  match r with
  | Host v => [TCall "Host" [v]]
  | HostRegexp v => [TCall "HostRegexp" [v]]
  | Path v => [TCall "Path" [v]]
  | PathPrefix v => [TCall "PathPrefix" [v]]
  | Method v => [TCall "Method" [v]]
  | Header k v => [TCall "Header" [k; v]]
  | Query k v => [TCall "Query" [k; v]]
  | ClientIP v => [TCall "ClientIP" [v]]
  | Not r => TNot :: wrap_if (binary r) (toks r)
  | And l r => wrap_if (needs_parens_within l true) (toks l) ++ TAnd :: wrap_if (needs_parens_within r true) (toks r)
  | Or l r => wrap_if (needs_parens_within l false) (toks l) ++ TOr :: wrap_if (needs_parens_within r false) (toks r)
  end.

Definition token_text (t : Token) : string :=
  match t with
  | TCall name [v] => call1 name v
  | TCall name [k; v] => call2 name k v
  | TCall name _ => name
  | TNot => "!" | TAnd => " && " | TOr => " || " | TOpen => "(" | TClose => ")"
  end.
Fixpoint tokens_text (ts : list Token) : string :=
  match ts with [] => "" | t :: ts => token_text t +:+ tokens_text ts end.

Lemma tokens_text_app a b : tokens_text (a ++ b) = tokens_text a +:+ tokens_text b.
Proof. induction a as [|t a IH]; [done|]. simpl. by rewrite IH, str_app_assoc. Qed.
Lemma tokens_text_wrap b ts : tokens_text (wrap_if b ts) = parens_if b (tokens_text ts).
Proof. destruct b; [|done]. simpl. by rewrite tokens_text_app. Qed.
Lemma str_app_nil (s : string) : s +:+ "" = s.
Proof. apply chars_inj. by rewrite chars_app, app_nil_r. Qed.
Lemma rule_text_tokens r : rule_text r = tokens_text (toks r).
Proof.
  induction r as [| | | | | | | |l IHl r IHr|l IHl r IHr|r IH]; simpl; rewrite ?str_app_nil; try done.
  - rewrite tokens_text_app. simpl. by rewrite !tokens_text_wrap, IHl, IHr.
  - rewrite tokens_text_app. simpl. by rewrite !tokens_text_wrap, IHl, IHr.
  - rewrite tokens_text_wrap, IH. done.
Qed.

(** *** Reading the words *)

Definition no_tick (v : string) : bool := bool_decide (tick ∉ chars v).
(** No value of the rule has a back quote. *)
Fixpoint no_ticks (r : Rule) : bool :=
  match r with
  | Host v | HostRegexp v | Path v | PathPrefix v | Method v | ClientIP v => no_tick v
  | Header k v | Query k v => no_tick k && no_tick v
  | And l r | Or l r => no_ticks l && no_ticks r
  | Not r => no_ticks r
  end.
Definition matcher_names : list string :=
  ["Host"; "HostRegexp"; "Path"; "PathPrefix"; "Method"; "Header"; "Query"; "ClientIP"].
Definition token_ok (t : Token) : bool :=
  match t with
  | TCall name args =>
      bool_decide (name ∈ matcher_names) && forallb no_tick args
      && match args with [_] | [_; _] => true | _ => false end
  | _ => true
  end.
Lemma toks_ok r : no_ticks r = true → forallb token_ok (toks r) = true.
Proof.
  assert (∀ b ts, forallb token_ok ts = true → forallb token_ok (wrap_if b ts) = true) as Hw.
  { intros [] ts H; [|done]. simpl. rewrite forallb_app, H. done. }
  induction r as [| | | | | | | |l IHl r IHr|l IHl r IHr|r IH]; simpl; rewrite ?andb_true_r; try done;
    intros H; bsimp; rewrite ?forallb_app; simpl; rewrite ?Hw by auto; try done.
  all: by repeat (apply andb_true_iff; split).
Qed.

Lemma split_once_tick v s : no_tick v = true → split_once tick (v +:+ String tick s) = Some (v, s).
Proof. intros H%bool_decide_eq_true. by apply split_once_spec. Qed.
Lemma read_arg n v s :
  no_tick v = true →
  read_args (S n) (ticked v +:+ s)
  = match strip_prefix ")" s with
    | Some s => Some ([v], s)
    | None => match strip_prefix ", " s ≫= read_args n with Some (vs, s) => Some (v :: vs, s) | None => None end
    end.
Proof.
  intros H. change (ticked v +:+ s) with (String tick "" +:+ ((v +:+ String tick "") +:+ s)). cbn [read_args].
  rewrite strip_prefix_app. simpl. rewrite str_app_assoc. change (String tick "" +:+ s) with (String tick s).
  by rewrite split_once_tick.
Qed.
Lemma lex_call n name args rest :
  token_ok (TCall name args) = true → 2 ≤ n →
  lex (S n) (token_text (TCall name args) +:+ rest) = cons (TCall name args) <$> lex n rest.
Proof.
  unfold token_ok. intros [[H%bool_decide_eq_true Hv]%andb_true_iff Hlen]%andb_true_iff Hn.
  assert (∀ s, name +:+ String paren s = token_text (TCall name args) +:+ rest → read_args n s = Some (args, rest) →
            lex (S n) (token_text (TCall name args) +:+ rest) = cons (TCall name args) <$> lex n rest) as Hlex.
  { intros s <- Hargs. assert (split_once paren (name +:+ String paren s) = Some (name, s)) as Hs.
    { apply split_once_spec. split; [done|].
      repeat (apply elem_of_cons in H as [->|H]); [..|by apply elem_of_nil in H]; by apply (bool_decide_eq_true _). }
    assert (lex (S n) (name +:+ String paren s) =
            match split_once paren (name +:+ String paren s) with
            | None => None
            | Some (name, s') => match read_args n s' with Some (args, s') => cons (TCall name args) <$> lex n s' | None => None end
            end) as ->.
    { repeat (apply elem_of_cons in H as [->|H]); [..|by apply elem_of_nil in H]; reflexivity. }
    by rewrite Hs, Hargs. }
  destruct n as [|[|n]]; [lia..|]. destruct args as [|v [|w [|]]]; try done; simpl in Hv; rewrite ?andb_true_iff in Hv.
  - destruct Hv as [Hv _]. apply (Hlex (ticked v +:+ ")" +:+ rest)); [cbn [token_text]; unfold call1; by rewrite !str_app_assoc|].
    by rewrite read_arg, strip_prefix_app by done.
  - destruct Hv as (Hv & Hw & _). apply (Hlex (ticked v +:+ ", " +:+ ticked w +:+ ")" +:+ rest)); [cbn [token_text]; unfold call2; by rewrite !str_app_assoc|].
    rewrite read_arg by done. assert (strip_prefix ")" (", " +:+ ticked w +:+ ")" +:+ rest) = None) as -> by reflexivity.
    rewrite strip_prefix_app. cbn [mbind option_bind]. by rewrite read_arg, strip_prefix_app by done.
Qed.
Lemma lex_tokens ts rest n :
  forallb token_ok ts = true → String.length (tokens_text ts +:+ rest) < n →
  ∃ n', String.length rest < n' ∧ lex n (tokens_text ts +:+ rest) = app ts <$> lex n' rest.
Proof.
  revert n. induction ts as [|t ts IH]; intros n Hok Hn.
  { exists n. split; [done|]. change (tokens_text [] +:+ rest) with rest. by destruct (lex n rest). }
  simpl in Hok, Hn. apply andb_true_iff in Hok as [Ht Hok]. rewrite !length_str_app in Hn.
  cbn [tokens_text]. rewrite str_app_assoc.
  assert (∃ n0, String.length (tokens_text ts +:+ rest) < n0
            ∧ lex n (token_text t +:+ tokens_text ts +:+ rest) = cons t <$> lex n0 (tokens_text ts +:+ rest)) as (n0 & Hn0 & ->).
  { rewrite length_str_app. destruct n as [|n]; [lia|]. destruct t as [name args| | | | |].
    1: { exists n. assert (3 ≤ String.length (token_text (TCall name args))) as Hl.
         { unfold token_ok in Ht. bsimp. destruct args as [|v [|w [|]]]; try done; simpl; unfold call1, call2, ticked;
             rewrite !length_str_app; simpl; lia. }
         split; [lia|]. apply lex_call; [done | lia]. }
    1, 4, 5: exists n; split; [simpl in Hn; lia | reflexivity].
    all: simpl in Hn; destruct n as [|[|n]]; [lia..|]; exists n; split; [lia | reflexivity]. }
  destruct (IH n0 Hok Hn0) as (n' & Hn' & ->). exists n'. split; [done|]. by destruct (lex n' rest).
Qed.
Lemma lex_rule r : no_ticks r = true → lex (S (String.length (rule_text r))) (rule_text r) = Some (toks r).
Proof.
  intros Hr. rewrite rule_text_tokens, <-(str_app_nil (tokens_text (toks r))).
  destruct (lex_tokens (toks r) "" (S (String.length (tokens_text (toks r) +:+ "")))) as (n' & Hn' & ->);
    [by apply toks_ok | lia |].
  destruct n' as [|n']; [simpl in Hn'; lia|]. simpl. by rewrite app_nil_r.
Qed.

(** *** Reading the rule *)

(** A single matcher, a negation, or a rule between parentheses *)
Definition utoks (r : Rule) : list Token := wrap_if (binary r) (toks r).
(** The operand of a conjunction *)
Definition ctoks (r : Rule) : list Token := wrap_if (needs_parens_within r true) (toks r).
Definition no_and (ts : list Token) : Prop := match ts with TAnd :: _ => False | _ => True end.
Definition no_or (ts : list Token) : Prop := match ts with TOr :: _ => False | _ => True end.

Definition reads_unary (r : Rule) : Prop :=
  ∀ n rest, 4 * length (utoks r ++ rest) + 1 ≤ n →
    ∃ r', p_unary n (utoks r ++ rest) = Some (r', rest) ∧ same_rule r' r.
Definition reads_and (r : Rule) : Prop :=
  ∀ n rest acc, 4 * length (TAnd :: ctoks r ++ rest) + 1 ≤ n →
    ∃ n' acc', 4 * length rest + 1 ≤ n' ∧ same_rule acc' (And acc r)
      ∧ p_and_rest n acc (TAnd :: ctoks r ++ rest) = p_and_rest n' acc' rest.
(** The first operand of a conjunction *)
Definition reads_first (r : Rule) : Prop :=
  ∀ n rest, 4 * length (ctoks r ++ rest) + 1 ≤ n →
    ∃ n' r', 4 * length rest + 1 ≤ n' ∧ same_rule r' r
      ∧ (match p_unary n (ctoks r ++ rest) with Some (r, ts) => p_and_rest n r ts | None => None end) = p_and_rest n' r' rest.
Definition reads_or (r : Rule) : Prop :=
  ∀ n rest, 4 * length (toks r ++ rest) + 2 ≤ n → no_and rest → no_or rest →
    ∃ r', p_or n (toks r ++ rest) = Some (r', rest) ∧ same_rule r' r.

#[export] Instance And_same : Proper (same_rule ==> same_rule ==> same_rule) And.
Proof. intros a b H c d H' h. simpl. by rewrite H, H'. Qed.
#[export] Instance Or_same : Proper (same_rule ==> same_rule ==> same_rule) Or.
Proof. intros a b H c d H' h. simpl. by rewrite H, H'. Qed.
#[export] Instance Not_same : Proper (same_rule ==> same_rule) Not.
Proof. intros a b H h. simpl. by rewrite H. Qed.

Lemma p_and_rest_stop n acc ts : 1 ≤ n → no_and ts → p_and_rest n acc ts = Some (acc, ts).
Proof. destruct n; [lia|]. destruct ts as [|[] ts]; simpl; done. Qed.
Lemma p_or_rest_stop n acc ts : 1 ≤ n → no_or ts → p_or_rest n acc ts = Some (acc, ts).
Proof. destruct n; [lia|]. destruct ts as [|[] ts]; simpl; done. Qed.

Lemma reads_operand r : ctoks r = utoks r → reads_unary r → reads_and r ∧ reads_first r.
Proof.
  intros Hc HU. split; intros n rest.
  - intros acc Hn. rewrite Hc in *. destruct n as [|n]; [lia|]. simpl in Hn.
    destruct (HU n rest) as (r' & E & Hr); [lia|]. simpl. rewrite E. exists n, (And acc r').
    split_and!; [rewrite length_app in Hn; lia | by rewrite Hr | done].
  - intros Hn. rewrite Hc in *. destruct (HU n rest) as (r' & E & Hr); [lia|]. rewrite E. exists n, r'.
    split_and!; [rewrite length_app in Hn; lia | done..].
Qed.
Lemma reads_conjunction l r :
  reads_and l ∧ reads_first l → reads_and r → reads_and (And l r) ∧ reads_first (And l r).
Proof.
  intros [HAl HFl] HAr. assert (∀ rest, ctoks (And l r) ++ rest = ctoks l ++ TAnd :: ctoks r ++ rest) as Hc.
  { intros rest. unfold ctoks. simpl. by rewrite <-app_assoc. }
  split; intros n rest.
  - intros acc. rewrite Hc. intros Hn. destruct (HAl n (TAnd :: ctoks r ++ rest) acc Hn) as (n1 & acc1 & Hn1 & Hs1 & ->).
    destruct (HAr n1 rest acc1 Hn1) as (n2 & acc2 & Hn2 & Hs2 & ->). exists n2, acc2. split_and!; [done| |done].
    rewrite Hs2, Hs1. intros h. simpl. by rewrite andb_assoc.
  - rewrite Hc. intros Hn. destruct (HFl n (TAnd :: ctoks r ++ rest) Hn) as (n1 & acc1 & Hn1 & Hs1 & ->).
    destruct (HAr n1 rest acc1 Hn1) as (n2 & acc2 & Hn2 & Hs2 & ->). exists n2, acc2. split_and!; [done| |done].
    by rewrite Hs2, Hs1.
Qed.
Lemma reads_or_first r : toks r = ctoks r → reads_first r → reads_or r.
Proof.
  intros Hc HF n rest Hn Ha Ho. rewrite Hc in *. destruct n as [|n]; [lia|].
  destruct (HF n rest) as (n' & r' & Hn' & Hs & E); [lia|]. exists r'. split; [|done]. simpl.
  rewrite (p_and_rest_stop n' r' rest) in E by (done || lia).
  destruct (p_unary n (ctoks r ++ rest)) as [[r0 ts]|]; [|done]. rewrite E. apply p_or_rest_stop; [lia | done].
Qed.
Lemma reads_alternative l r : reads_unary l → reads_unary r → reads_or (Or l r).
Proof.
  intros HUl HUr n rest Hn Ha Ho.
  assert (toks (Or l r) ++ rest = utoks l ++ TOr :: utoks r ++ rest) as Hc.
  { simpl. rewrite <-app_assoc. unfold utoks. by destruct l, r. }
  rewrite Hc in *. destruct n as [|n]; [lia|]. rewrite length_app in Hn. simpl in Hn. rewrite length_app in Hn.
  destruct (HUl n (TOr :: utoks r ++ rest)) as (l' & El & Hl).
  { rewrite length_app. simpl. rewrite length_app. lia. }
  destruct n as [|n]; [lia|]. destruct (HUr n rest) as (r' & Er & Hr); [rewrite length_app; lia|].
  exists (Or l' r'). split; [|by rewrite Hl, Hr]. cbn [p_or]. rewrite El. cbn [p_and_rest p_or_rest].
  rewrite Er, p_and_rest_stop by (done || lia). by rewrite p_or_rest_stop by (done || lia).
Qed.
Lemma reads_parens r : binary r = true → reads_or r → reads_unary r.
Proof.
  intros Hb HO n rest Hn. unfold utoks in *. rewrite Hb in *. simpl in *. rewrite <-app_assoc in *. simpl in *.
  destruct n as [|n]; [lia|]. destruct (HO n (TClose :: rest)) as (r' & E & Hs); [lia | done | done |].
  exists r'. split; [|done]. simpl. by rewrite E.
Qed.
Lemma reads_all r : reads_unary r ∧ reads_and r ∧ reads_first r ∧ reads_or r.
Proof.
  assert (∀ r, ctoks r = utoks r → toks r = ctoks r → reads_unary r → reads_unary r ∧ reads_and r ∧ reads_first r ∧ reads_or r) as Hs.
  { intros r0 Hc Ht HU. destruct (reads_operand r0 Hc HU) as [HA HF]. split_and!; try done. by apply reads_or_first. }
  induction r as [| | | | | | | |l IHl r IHr|l IHl r IHr|r IH].
  1-8: apply Hs; [done | done |]; intros n rest Hn; (destruct n as [|n]; [lia|]); simpl; by eexists.
  - destruct IHl as (HUl & HAl & HFl & _), IHr as (HUr & HAr & _ & _).
    destruct (reads_conjunction l r (conj HAl HFl) HAr) as [HA HF].
    assert (reads_or (And l r)) as HO by (by apply reads_or_first). split_and!; try done. by apply reads_parens.
  - destruct IHl as (HUl & _), IHr as (HUr & _). assert (reads_or (Or l r)) as HO by (by apply reads_alternative).
    assert (reads_unary (Or l r)) as HU by (by apply reads_parens). destruct (reads_operand (Or l r) eq_refl HU). by split_and!.
  - destruct IH as (HU & _). apply Hs; [done | done |]. intros n rest Hn. destruct n as [|n]; [lia|].
    change (utoks (Not r)) with (TNot :: utoks r) in *. simpl in *. destruct (HU n rest) as (r' & E & Hr); [lia|].
    rewrite E. exists (Not r'). split; [done | by rewrite Hr].
Qed.

(** The text of a rule whose values have no back quote is read as a rule that matches the same
    requests. *)
Theorem rule_reads_back r :
  no_ticks r = true → ∃ r', parse_rule (rule_text r) = Some r' ∧ same_rule r' r.
Proof.
  intros Hr. unfold parse_rule. rewrite lex_rule by done. cbn [mbind option_bind]. unfold parse_tokens.
  destruct (reads_all r) as (_ & _ & _ & HO). destruct (HO (4 * length (toks r) + 4) []) as (r' & E & Hs); [|done..|].
  - rewrite app_nil_r. lia.
  - rewrite app_nil_r in E. rewrite E. by exists r'.
Qed.
Lemma rule_reads_back_witness :
  ∃ r', parse_rule (rule_text (And (Host "a.com") (Not (Or (PathPrefix "/a") (Query "k" "v"))))) = Some r'
        ∧ same_rule r' (And (Host "a.com") (Not (Or (PathPrefix "/a") (Query "k" "v")))).
Proof. apply rule_reads_back. vm_compute. reflexivity. Defined.

(** A value with a back quote is read as more than one matcher. *)
Example tick_escapes :
  parse_rule (rule_text (Host ("a.com" +:+ String tick ")||Host(" +:+ String tick "b.com")))
  = Some (Or (Host "a.com") (Host "b.com")).
Proof. vm_compute. reflexivity. Qed.
