(* ===== verification/TraefikLabels.v ===== *)
(** * Labels of a routed service

    [utils/traefik] and [utils/builder/shared/traefik.rs]: the labels from which Traefik takes the
    routers, services and middlewares of the domains of a project.  A builder is the map from
    label names to values that the source keeps in a [BTreeMap]; it is listed in the order of the
    names. *)

From stdpp Require Import gmap strings list sorting.
From Stdlib Require Import ZArith Lia Ascii.
From S2P Require Import Prelude RustStr RustText StringEnum ShellQuote TraefikRules.

(** ** Middlewares *)

Inductive Middleware :=
  | StripPrefix (name : string) (prefixes : list string)
  | AddPrefix (name prefix : string)
  | RedirectScheme (name scheme : string) (permanent : bool)
  | RedirectRegex (name regex replacement : string) (permanent : bool)
  | BasicAuth (name : string) (users : list (string * string))
  | Compress (name : string)
  | RequestHeaders (name : string) (headers : list (string * string))
  | ResponseHeaders (name : string) (headers : list (string * string))
  | RateLimit (name : string) (average burst : Z)
  | IpAllowList (name : string) (source_ranges : list string)
  | CustomMiddleware (name : string).

Definition bool_text (b : bool) : string := if b then "true" else "false".
Definition mw_key (name suffix : string) : string := "traefik.http.middlewares." +:+ name +:+ suffix.

Definition mw_labels (m : Middleware) : list (string * string) :=
  match m with
  | StripPrefix name prefixes => [(mw_key name ".stripprefix.prefixes", join "," prefixes)]
  | AddPrefix name prefix => [(mw_key name ".addprefix.prefix", prefix)]
  | RedirectScheme name scheme permanent =>
      [(mw_key name ".redirectscheme.scheme", scheme);
       (mw_key name ".redirectscheme.permanent", bool_text permanent)]
  | RedirectRegex name regex replacement permanent =>
      [(mw_key name ".redirectregex.regex", regex);
       (mw_key name ".redirectregex.replacement", replacement);
       (mw_key name ".redirectregex.permanent", bool_text permanent)]
  | BasicAuth name users =>
      [(mw_key name ".basicauth.users",
        join "," (map (λ '(username, password), username +:+ ":" +:+ replace_with dollar "$$" password) users))]
  | Compress name => [(mw_key name ".compress", "true")]
  | RequestHeaders name headers =>
      map (λ '(k, v), (mw_key name (".headers.customrequestheaders." +:+ k), v)) headers
  | ResponseHeaders name headers =>
      map (λ '(k, v), (mw_key name (".headers.customresponseheaders." +:+ k), v)) headers
  | RateLimit name average burst =>
      [(mw_key name ".ratelimit.average", i64_to_string average); (mw_key name ".ratelimit.burst", i64_to_string burst)]
  | IpAllowList name source_ranges => [(mw_key name ".ipallowlist.sourcerange", join "," source_ranges)]
  | CustomMiddleware _ => []
  end.
Definition mw_reference (m : Middleware) : string :=
  match m with
  | StripPrefix name _ | AddPrefix name _ | RedirectScheme name _ _ | RedirectRegex name _ _ _ | BasicAuth name _
  | Compress name | RequestHeaders name _ | ResponseHeaders name _ | RateLimit name _ _ | IpAllowList name _
  | CustomMiddleware name => name
  end.

(** ** Entry points and certificates *)

Inductive Entrypoint := Web | WebSecure | CustomEntrypoint (name : string).
Definition entrypoint_name (e : Entrypoint) : string :=
  match e with Web => "web" | WebSecure => "websecure" | CustomEntrypoint name => name end.

Record TlsConfig := mkTlsConfig { cert_resolver : option string }.
Definition tls_enabled : TlsConfig := mkTlsConfig None.
Definition with_resolver (resolver : string) : TlsConfig := mkTlsConfig (Some resolver).
Inductive CertResolver := LetsEncryptResolver | CustomResolver (name : string).
Definition resolver_name (r : CertResolver) : string :=
  match r with LetsEncryptResolver => "letsencrypt" | CustomResolver name => name end.
Definition resolver_tls (r : CertResolver) : TlsConfig := with_resolver (resolver_name r).

Inductive CertificateType := LetsEncrypt | CustomCertificate | NoCertificate.
#[export] Instance CertificateType_eq_dec : EqDecision CertificateType.
Proof. solve_decision. Defined.
#[export] Instance CertificateType_enum : StringEnum CertificateType := {|
  enum_table := [(LetsEncrypt, "LETSENCRYPT"); (CustomCertificate, "CUSTOM"); (NoCertificate, "NONE")];
  enum_default := NoCertificate;
|}.
#[export] Instance CertificateType_laws : StringEnumLaws CertificateType.
Proof.
  split; [intros []; by apply (bool_decide_eq_true _) | by apply (bool_decide_eq_true _) | by apply (bool_decide_eq_true _) |].
  repeat constructor.
Qed.

(** ** Builders *)

Notation TraefikBuilder := (gmap string string).

Definition label_le (p q : string * string) : Prop := str_le p.1 q.1 = true.
#[export] Instance label_le_dec : RelDecision label_le.
Proof. intros p q. unfold label_le. solve_decision. Defined.
(** The entries in the order of their names *)
Definition entries (m : TraefikBuilder) : list (string * string) := merge_sort label_le (map_to_list m).
Definition label_text (p : string * string) : string := p.1 +:+ "=" +:+ p.2.
Definition build (m : TraefikBuilder) : list string := map label_text (entries m).

Definition enable (b : TraefikBuilder) : TraefikBuilder := <["traefik.enable" := "true"]> b.
Definition tb_network (network : string) (b : TraefikBuilder) : TraefikBuilder := <["traefik.docker.network" := network]> b.
Definition tb_middleware (m : Middleware) (b : TraefikBuilder) : TraefikBuilder :=
  foldl (λ b '(k, v), <[k := v]> b) b (mw_labels m).
(** [append] and [extend]: the entries of the other builder win *)
Definition tb_append (b other : TraefikBuilder) : TraefikBuilder := other ∪ b.

Definition router_key (name suffix : string) : string := "traefik.http.routers." +:+ name +:+ "." +:+ suffix.
Definition service_key (name suffix : string) : string := "traefik.http.services." +:+ name +:+ "." +:+ suffix.

Definition router_rule (name : string) (r : Rule) : TraefikBuilder → TraefikBuilder := <[router_key name "rule" := rule_text r]>.
Definition router_entrypoints (name : string) (values : list Entrypoint) : TraefikBuilder → TraefikBuilder :=
  <[router_key name "entrypoints" := join "," (map entrypoint_name values)]>.
Definition router_entrypoint (name : string) (e : Entrypoint) : TraefikBuilder → TraefikBuilder := router_entrypoints name [e].
Definition router_middlewares (name : string) (values : list string) : TraefikBuilder → TraefikBuilder :=
  <[router_key name "middlewares" := join "," values]>.
Definition router_tls_config (name : string) (config : TlsConfig) (b : TraefikBuilder) : TraefikBuilder :=
  let b := <[router_key name "tls" := "true"]> b in
  match cert_resolver config with
  | Some resolver => <[router_key name "tls.certresolver" := resolver]> b
  | None => b
  end.
Definition router_service (name service : string) : TraefikBuilder → TraefikBuilder := <[router_key name "service" := service]>.
Definition service_port (name : string) (port : Z) : TraefikBuilder → TraefikBuilder :=
  <[service_key name "loadbalancer.server.port" := i64_to_string port]>.

(** ** The labels of a domain *)

Record SharedDomain := mkSharedDomain {
  sd_key : string; sd_host : string; sd_https : bool; sd_port : Z; sd_service_name : option string; sd_path : string;
  sd_internal_path : string; sd_strip_path : bool; sd_entrypoint : option string; sd_certificate_type : string;
  sd_custom_cert_resolver : option string; sd_middlewares : list string }.

Definition TRAEFIK_NETWORK : string := "openoxide-network".

(** The Swarm service that serves the domain *)
Definition swarm_service (app_name : string) (d : SharedDomain) : string :=
  match sd_service_name d with
  | Some s =>
      if str_is_empty s then app_name
      else if bool_decide (s = app_name) || starts_with (app_name +:+ "_") s then s
      else app_name +:+ "_" +:+ s
  | None => app_name
  end.
Definition router_name (app_name : string) (d : SharedDomain) : string := app_name +:+ "-" +:+ sd_key d.
Definition domain_entrypoint (d : SharedDomain) : Entrypoint :=
  match sd_entrypoint d with
  | Some name => CustomEntrypoint name
  | None => if sd_https d then WebSecure else Web
  end.
Definition domain_rule (d : SharedDomain) : Rule :=
  if bool_decide (sd_path d = "/") then Host (sd_host d) else And (Host (sd_host d)) (PathPrefix (sd_path d)).
Definition domain_tls (d : SharedDomain) : TlsConfig :=
  match from (sd_certificate_type d) with
  | LetsEncrypt => resolver_tls LetsEncryptResolver
  | CustomCertificate =>
      match sd_custom_cert_resolver d with Some name => resolver_tls (CustomResolver name) | None => tls_enabled end
  | NoCertificate => tls_enabled
  end.

Definition strips_path (d : SharedDomain) : bool := sd_strip_path d && negb (bool_decide (sd_path d = "/")).
Definition adds_path (d : SharedDomain) : bool :=
  negb (bool_decide (sd_internal_path d = "/")) && negb (bool_decide (sd_internal_path d = sd_path d)).
Definition strip_name (app_name : string) (d : SharedDomain) : string := "stripprefix-" +:+ router_name app_name d.
Definition add_name (app_name : string) (d : SharedDomain) : string := "addprefix-" +:+ router_name app_name d.
Definition middleware_names (app_name : string) (d : SharedDomain) : list string :=
  (if strips_path d then [strip_name app_name d] else [])
  ++ (if adds_path d then [add_name app_name d] else []) ++ sd_middlewares d.

(** The body of the loop over the domains *)
Definition domain_builder (app_name network : string) (d : SharedDomain) : TraefikBuilder :=
  let rn := router_name app_name d in
  let b := tb_network network (enable ∅) in
  let b := if strips_path d then tb_middleware (StripPrefix (strip_name app_name d) [sd_path d]) b else b in
  let b := if adds_path d then tb_middleware (AddPrefix (add_name app_name d) (sd_internal_path d)) b else b in
  let b := router_entrypoint rn (domain_entrypoint d) (router_rule rn (domain_rule d) b) in
  let b := match middleware_names app_name d with [] => b | names => router_middlewares rn names b end in
  let b := if sd_https d then router_tls_config rn (domain_tls d) b else b in
  let b := service_port rn (sd_port d) (router_service rn rn b) in
  if sd_https d && bool_decide (sd_entrypoint d = None)
  then let redirect := rn +:+ "-redirect" in
       router_middlewares redirect ["redirect-to-https@file"]
         (router_entrypoint redirect Web (router_rule redirect (domain_rule d) b))
  else b.

Definition equals : ascii := "=".
Definition label_key (label : string) : string := default label (fst <$> split_once equals label).
Definition deduplicate_labels_by_key (labels : list string) : list string :=
  (entries (foldl (λ unique label, <[label_key label := label]> unique) ∅ labels)).*2.

(** The builders by service, then their labels *)
Definition service_builders (app_name network : string) (domains : list SharedDomain) : gmap string TraefikBuilder :=
  foldl (λ builders d,
           let service := swarm_service app_name d in
           <[service := tb_append (default ∅ (builders !! service)) (domain_builder app_name network d)]> builders)
    ∅ domains.
Definition build_traefik_labels_for_network (app_name : string) (domains : list SharedDomain) (network : string)
    : gmap string (list string) :=
  (λ b, deduplicate_labels_by_key (build b)) <$> service_builders app_name network domains.
Definition build_traefik_labels (app_name : string) (domains : list SharedDomain) : gmap string (list string) :=
  build_traefik_labels_for_network app_name domains TRAEFIK_NETWORK.

(** * What the labels of a project contain

    [labels_of_service] says which labels a service gets: those of the domains that it serves, all
    of them, and no others, one per name.  [labels_route] reads them back: the router of a domain
    matches its host and path, the port is the one of the domain. *)

(** ** Entries and labels *)

Lemma elem_of_entries m k v : (k, v) ∈ entries m ↔ m !! k = Some v.
Proof. unfold entries. rewrite merge_sort_Permutation. apply elem_of_map_to_list. Qed.
Lemma NoDup_entries m : NoDup (entries m).*1.
Proof. unfold entries. rewrite merge_sort_Permutation. apply NoDup_fst_map_to_list. Qed.

Lemma label_key_text k v : equals ∉ chars k → label_key (label_text (k, v)) = k.
Proof.
  intros H. unfold label_key, label_text. simpl.
  assert (split_once equals (k +:+ "=" +:+ v) = Some (k, v)) as -> by (by apply split_once_spec). done.
Qed.

(** The map that deduplication fills holds every label under its name. *)
Definition by_key (labels : list string) (m : gmap string string) : gmap string string :=
  foldl (λ unique label, <[label_key label := label]> unique) m labels.
Lemma by_key_ok labels m :
  map_Forall (λ k l, label_key l = k) m → map_Forall (λ k l, label_key l = k) (by_key labels m).
Proof.
  revert m. induction labels as [|l labels IH]; intros m Hm; simpl; [done|]. apply IH. by apply map_Forall_insert_2.
Qed.
Lemma by_key_nodup labels m k :
  NoDup (map label_key labels) →
  by_key labels m !! k = match list_find (λ l, label_key l = k) labels with Some (_, l) => Some l | None => m !! k end.
Proof.
  revert m. induction labels as [|l labels IH]; intros m Hnd; simpl; [done|].
  apply NoDup_cons in Hnd as [Hnin Hnd]. rewrite IH by done. case_decide as Hk.
  - destruct (list_find (λ l0, label_key l0 = k) labels) as [[i l']|] eqn:E.
    + apply list_find_Some in E as (Hi & He & _). exfalso. apply Hnin. rewrite Hk, <-He.
      apply elem_of_mapb. exists l'. split; [done|]. by eapply list_elem_of_lookup_2.
    + subst k. by rewrite lookup_insert_eq.
  - destruct (list_find (λ l0, label_key l0 = k) labels) as [[i l']|] eqn:E; simpl; [done|]. by rewrite lookup_insert_ne.
Qed.

(** One label per name *)
Lemma deduplicated_keys labels : NoDup (map label_key (deduplicate_labels_by_key labels)).
Proof.
  unfold deduplicate_labels_by_key. fold (by_key labels ∅). set (u := by_key labels ∅).
  assert (map label_key (entries u).*2 = (entries u).*1) as ->; [|apply NoDup_entries].
  assert (∀ p, p ∈ entries u → label_key p.2 = p.1) as H.
  { intros [k l] Hin%elem_of_entries. by apply (by_key_ok labels ∅ (map_Forall_empty _) k l). }
  revert H. generalize (entries u). intros l. induction l as [|p l IH]; intros H; [done|]. simpl.
  rewrite H by set_solver. f_equal. apply IH. intros q Hq. apply H. set_solver.
Qed.
Lemma NoDup_map_inj {A B} (f : A → B) l x y : NoDup (map f l) → x ∈ l → y ∈ l → f x = f y → x = y.
Proof.
  induction l as [|z l IH]; simpl; intros Hnd Hx Hy Hf; [by apply elem_of_nil in Hx|].
  apply NoDup_cons in Hnd as [Hnin Hnd].
  apply elem_of_cons in Hx as [->|Hx]; apply elem_of_cons in Hy as [->|Hy]; try done.
  - exfalso. apply Hnin, elem_of_mapb. by exists y.
  - exfalso. apply Hnin, elem_of_mapb. by exists x.
  - by apply IH.
Qed.
Lemma by_key_elem labels k l :
  NoDup (map label_key labels) → by_key labels ∅ !! k = Some l ↔ l ∈ labels ∧ label_key l = k.
Proof.
  intros Hnd. rewrite by_key_nodup by done. destruct (list_find _ labels) as [[i l']|] eqn:E.
  - apply list_find_Some in E as (Hi & He & _). apply list_elem_of_lookup_2 in Hi. split.
    + by intros [= <-].
    + intros [Hin Hk]. f_equal. by eapply (NoDup_map_inj label_key); [..|congruence].
  - rewrite lookup_empty. split; [done|]. intros [Hin Hk]. apply list_find_None in E.
    by eapply Forall_forall in E.
Qed.
(** A builder loses nothing when its labels are deduplicated. *)
Lemma deduplicated_build m label :
  map_Forall (λ k _, equals ∉ chars k) m →
  label ∈ deduplicate_labels_by_key (build m) ↔ ∃ k v, m !! k = Some v ∧ label = label_text (k, v).
Proof.
  intros Hm. assert (map label_key (build m) = (entries m).*1) as Hkeys.
  { unfold build. rewrite map_map. apply map_ext_in. intros [k v] Hin%list_elem_of_In. apply elem_of_entries in Hin.
    apply label_key_text. by eapply Hm. }
  assert (NoDup (map label_key (build m))) as Hnd by (rewrite Hkeys; apply NoDup_entries).
  unfold deduplicate_labels_by_key. fold (by_key (build m) ∅). rewrite list_elem_of_fmap. split.
  - intros ([k l] & -> & Hin%elem_of_entries). apply by_key_elem in Hin as [Hin _]; [|done].
    unfold build in Hin. apply elem_of_mapb in Hin as ([k' v] & -> & Hin%elem_of_entries). by exists k', v.
  - intros (k & v & Hk & ->). exists (k, label_text (k, v)). split; [done|]. apply elem_of_entries, by_key_elem; [done|].
    split; [|apply label_key_text; by eapply Hm]. unfold build. apply elem_of_mapb. exists (k, v).
    split; [done|]. by apply elem_of_entries.
Qed.

(** ** The builders of the services *)

Definition serves (app_name service : string) (d : SharedDomain) : bool := bool_decide (swarm_service app_name d = service).
Definition merged (app_name network : string) (domains : list SharedDomain) (b : gmap string string) : gmap string string :=
  foldl (λ b d, tb_append b (domain_builder app_name network d)) b domains.

Lemma service_builders_lookup app_name network domains service :
  service_builders app_name network domains !! service
  = match List.filter (serves app_name service) domains with
    | [] => None
    | ds => Some (merged app_name network ds ∅)
    end.
Proof.
  unfold service_builders.
  assert (∀ acc, foldl (λ (builders : gmap string (gmap string string)) d,
     let service := swarm_service app_name d in
     <[service := tb_append (default ∅ (builders !! service)) (domain_builder app_name network d)]> builders) acc domains !! service
    = match List.filter (serves app_name service) domains with
      | [] => acc !! service
      | ds => Some (merged app_name network ds (default ∅ (acc !! service)))
      end) as H; [|by rewrite H, lookup_empty].
  induction domains as [|d domains IH]; intros acc; simpl; [done|]. rewrite IH. unfold serves at 2. case_bool_decide as Hd.
  - subst service. rewrite lookup_insert_eq. simpl. by destruct (List.filter _ domains).
  - rewrite lookup_insert_ne by done. by destruct (List.filter _ domains).
Qed.

(** Two builders agree on the names they share. *)
Definition agree (b b' : gmap string string) : Prop := ∀ k v v', b !! k = Some v → b' !! k = Some v' → v = v'.
Lemma merged_lookup app_name network ds b k v :
  (∀ d d', d ∈ ds → d' ∈ ds → agree (domain_builder app_name network d) (domain_builder app_name network d')) →
  (∀ d, d ∈ ds → agree (domain_builder app_name network d) b) →
  merged app_name network ds b !! k = Some v
  ↔ b !! k = Some v ∨ ∃ d, d ∈ ds ∧ domain_builder app_name network d !! k = Some v.
Proof.
  revert b. induction ds as [|d ds IH]; intros b Hag Hb; simpl; [set_solver|].
  rewrite IH.
  - unfold tb_append. rewrite lookup_union_Some_raw. split.
    + intros [[H|[_ H]]|(d' & Hin & H)]; [right; exists d; set_solver | by left | right; exists d'; set_solver].
    + intros [H|(d' & [->|Hin]%elem_of_cons & H)]; [|by left; left | right; by exists d'].
      left. destruct (domain_builder app_name network d !! k) as [w|] eqn:E; [|by right].
      left. f_equal. by eapply (Hb d); [set_solver|..].
  - intros d1 d2 H1 H2. apply Hag; set_solver.
  - intros d1 H1 k1 v1 v2 Hv1. unfold tb_append. rewrite lookup_union_Some_raw. intros [Hv2|[_ Hv2]].
    + by eapply (Hag d1 d); [set_solver..|].
    + by eapply (Hb d1); [set_solver|..].
Qed.

(** ** Whose a label is *)

Definition is_digit (c : ascii) : bool := (48 <=? N_of_ascii c)%N && (N_of_ascii c <=? 57)%N.
(** The key of a domain is its id. *)
Definition digits (s : string) : bool := forallb is_digit (chars s).
Definition label_prefixes : list string :=
  ["traefik.http.routers."; "traefik.http.services."; "traefik.http.middlewares.stripprefix-";
   "traefik.http.middlewares.addprefix-"].
Definition owned (app_name key k : string) : Prop :=
  ∃ pre c s, pre ∈ label_prefixes ∧ (c = "."%char ∨ c = "-"%char) ∧ equals ∉ chars s
    ∧ k = pre +:+ (app_name +:+ "-" +:+ (key +:+ String c s)).
Definition common (network k v : string) : Prop :=
  k = "traefik.enable" ∧ v = "true" ∨ k = "traefik.docker.network" ∧ v = network.

Lemma owned_router app_name d s : equals ∉ chars s → owned app_name (sd_key d) (router_key (router_name app_name d) s).
Proof.
  intros Hs. exists "traefik.http.routers.", "."%char, s. split; [set_solver|]. split; [by left|]. split; [done|].
  unfold router_key, router_name. by rewrite !str_app_assoc.
Qed.
Lemma owned_redirect app_name d s : equals ∉ chars s → owned app_name (sd_key d) (router_key (router_name app_name d +:+ "-redirect") s).
Proof.
  intros Hs. exists "traefik.http.routers.", "-"%char, ("redirect." +:+ s). split; [set_solver|]. split; [by right|]. split; [rewrite chars_app, not_elem_of_app; split; [by apply (bool_decide_eq_true _) | done]|].
  unfold router_key, router_name. by rewrite !str_app_assoc.
Qed.
Lemma owned_service app_name d s : equals ∉ chars s → owned app_name (sd_key d) (service_key (router_name app_name d) s).
Proof.
  intros Hs. exists "traefik.http.services.", "."%char, s. split; [set_solver|]. split; [by left|]. split; [done|].
  unfold service_key, router_name. by rewrite !str_app_assoc.
Qed.
Lemma owned_strip app_name d s : equals ∉ chars s → owned app_name (sd_key d) (mw_key (strip_name app_name d) (String "." s)).
Proof.
  intros Hs. exists "traefik.http.middlewares.stripprefix-", "."%char, s. split; [set_solver|]. split; [by left|]. split; [done|].
  unfold mw_key, strip_name, router_name. by rewrite !str_app_assoc.
Qed.
Lemma owned_add app_name d s : equals ∉ chars s → owned app_name (sd_key d) (mw_key (add_name app_name d) (String "." s)).
Proof.
  intros Hs. exists "traefik.http.middlewares.addprefix-", "."%char, s. split; [set_solver|]. split; [by left|]. split; [done|].
  unfold mw_key, add_name, router_name. by rewrite !str_app_assoc.
Qed.

Ltac no_equals := by apply (bool_decide_eq_true _).

Lemma domain_labels_owned app_name network d :
  map_Forall (λ k v, common network k v ∨ owned app_name (sd_key d) k) (domain_builder app_name network d).
Proof.
  assert (∀ (b : bool) (x y : gmap string string), map_Forall (λ k v, common network k v ∨ owned app_name (sd_key d) k) x →
            map_Forall (λ k v, common network k v ∨ owned app_name (sd_key d) k) y →
            map_Forall (λ k v, common network k v ∨ owned app_name (sd_key d) k) (if b then x else y)) as Hif by (by intros []).
  unfold domain_builder. cbv zeta.
  set (b0 := tb_network network (enable ∅)).
  assert (map_Forall (λ k v, common network k v ∨ owned app_name (sd_key d) k) b0) as H0.
  { unfold b0, tb_network, enable. apply map_Forall_insert_2; [left; by right|]. apply map_Forall_insert_2; [left; by left|].
    apply map_Forall_empty. }
  set (b1 := if strips_path d then _ else b0).
  assert (map_Forall (λ k v, common network k v ∨ owned app_name (sd_key d) k) b1) as H1.
  { apply Hif; [|done]. apply map_Forall_insert_2; [right; apply owned_strip; no_equals | done]. }
  set (b2 := if adds_path d then _ else b1).
  assert (map_Forall (λ k v, common network k v ∨ owned app_name (sd_key d) k) b2) as H2.
  { apply Hif; [|done]. apply map_Forall_insert_2; [right; apply owned_add; no_equals | done]. }
  set (b3 := router_entrypoint _ _ (router_rule _ _ b2)).
  assert (map_Forall (λ k v, common network k v ∨ owned app_name (sd_key d) k) b3) as H3.
  { do 2 (apply map_Forall_insert_2; [right; apply owned_router; no_equals|]). done. }
  set (b4 := match middleware_names app_name d with [] => b3 | _ => _ end).
  assert (map_Forall (λ k v, common network k v ∨ owned app_name (sd_key d) k) b4) as H4.
  { unfold b4. destruct (middleware_names app_name d); [done|]. apply map_Forall_insert_2; [right; apply owned_router; no_equals | done]. }
  set (b5 := if sd_https d then _ else b4).
  assert (map_Forall (λ k v, common network k v ∨ owned app_name (sd_key d) k) b5) as H5.
  { apply Hif; [|done]. unfold router_tls_config. destruct (cert_resolver _);
      repeat (apply map_Forall_insert_2; [right; apply owned_router; no_equals|]); done. }
  apply Hif; [do 3 (apply map_Forall_insert_2; [right; apply owned_redirect; no_equals|])|];
    (apply map_Forall_insert_2; [right; apply owned_service; no_equals|]); (apply map_Forall_insert_2; [right; apply owned_router; no_equals|]); done.
Qed.

Lemma str_app_inv (a b c : string) : a +:+ b = a +:+ c → b = c.
Proof. intros H%(f_equal chars). rewrite !chars_app in H. apply app_inv_head in H. by apply chars_inj. Qed.
Lemma digits_end a b c d s t :
  digits a = true → digits b = true → is_digit c = false → is_digit d = false →
  a +:+ String c s = b +:+ String d t → a = b.
Proof.
  unfold digits. revert b. induction a as [|x a IH]; intros [|y b] Ha Hb Hc Hd H; simpl in *; simplify_eq; try done.
  - apply andb_true_iff in Hb as [Hy _]. congruence.
  - apply andb_true_iff in Ha as [Hx _]. congruence.
  - apply andb_true_iff in Ha as [_ Ha], Hb as [_ Hb]. f_equal. by eapply IH.
Qed.
Lemma owned_disjoint app_name a b k :
  digits a = true → digits b = true → owned app_name a k → owned app_name b k → a = b.
Proof.
  intros Ha Hb (pre & c & s & Hpre & Hc & _ & ->) (pre' & c' & s' & Hpre' & Hc' & _ & Heq).
  assert (pre = pre') as <-.
  { clear -Hpre Hpre' Heq.
    repeat (apply elem_of_cons in Hpre as [->|Hpre]); try (by apply elem_of_nil in Hpre);
      repeat (apply elem_of_cons in Hpre' as [->|Hpre']); try (by apply elem_of_nil in Hpre'); done || discriminate Heq. }
  apply str_app_inv, str_app_inv, str_app_inv in Heq.
  eapply digits_end; [done | done | | | exact Heq]; by destruct Hc, Hc'; subst.
Qed.
Lemma owned_not_common app_name network key k v : owned app_name key k → common network k v → False.
Proof.
  intros (pre & c & s & Hpre & _ & _ & ->) [[H _]|[H _]];
    repeat (apply elem_of_cons in Hpre as [->|Hpre]); try (by apply elem_of_nil in Hpre); discriminate H.
Qed.
(** Domains with different ids share only the labels that they agree on. *)
Lemma domain_builders_agree app_name network d d' :
  digits (sd_key d) = true → digits (sd_key d') = true → (sd_key d = sd_key d' → d = d') →
  agree (domain_builder app_name network d) (domain_builder app_name network d').
Proof.
  intros Hd Hd' Hdd k v v' Hv Hv'. destruct (domain_labels_owned app_name network d k v Hv) as [Hc|Ho],
    (domain_labels_owned app_name network d' k v' Hv') as [Hc'|Ho'].
  - destruct Hc as [[-> ->]|[-> ->]], Hc' as [[? ->]|[? ->]]; done.
  - by destruct (owned_not_common _ _ _ _ _ Ho' Hc).
  - by destruct (owned_not_common _ _ _ _ _ Ho Hc').
  - pose proof (owned_disjoint _ _ _ _ Hd Hd' Ho Ho') as He. apply Hdd in He. subst. congruence.
Qed.

(** ** The labels of a service *)

Section Project.
Context (app_name network : string) (domains : list SharedDomain).
(** The name of the project has no equals sign; the keys of its domains are different ids. *)
Context (Happ : equals ∉ chars app_name).
Context (Hdigits : ∀ d, d ∈ domains → digits (sd_key d) = true).
Context (Hids : NoDup (map sd_key domains)).

Lemma label_names_plain d : d ∈ domains → map_Forall (λ k _, equals ∉ chars k) (domain_builder app_name network d).
Proof.
  intros Hd k v Hk. apply domain_labels_owned in Hk as [[[-> _]|[-> _]]|(pre & c & s & Hpre & Hc & Hs & ->)]; [no_equals..|].
  assert (equals ∉ chars (sd_key d)) as Hkey.
  { intros Hin. pose proof (Hdigits d Hd) as H. unfold digits in H. rewrite forallb_elem in H. by apply H in Hin. }
  assert (equals ∉ chars pre) as Hp.
  { repeat (apply elem_of_cons in Hpre as [->|Hpre]); try (by apply elem_of_nil in Hpre); no_equals. }
  rewrite !chars_app. cbn [chars Stdlib.Strings.String.list_ascii_of_string]. rewrite !not_elem_of_app, !not_elem_of_cons.
  fold (chars s). split_and!; try done; [by intros ?%elem_of_nil|]. destruct Hc as [-> | ->]; done.
Qed.
Lemma domains_agree d d' :
  d ∈ domains → d' ∈ domains → agree (domain_builder app_name network d) (domain_builder app_name network d').
Proof.
  intros Hd Hd'. apply domain_builders_agree; [by apply Hdigits..|]. by apply (NoDup_map_inj sd_key domains).
Qed.

(** A service gets the labels of the domains that it serves: all of them, no others, one per
    name. *)
Theorem labels_of_service service labels :
  build_traefik_labels_for_network app_name domains network !! service = Some labels →
  NoDup (map label_key labels)
  ∧ ∀ label, label ∈ labels
    ↔ ∃ d k v, d ∈ domains ∧ swarm_service app_name d = service
               ∧ domain_builder app_name network d !! k = Some v ∧ label = label_text (k, v).
Proof.
  unfold build_traefik_labels_for_network. rewrite lookup_fmap, service_builders_lookup.
  set (ds := List.filter (serves app_name service) domains). intros Hl.
  assert (labels = deduplicate_labels_by_key (build (merged app_name network ds ∅))) as -> by (by destruct ds; simplify_eq/=).
  assert (∀ d, d ∈ ds ↔ d ∈ domains ∧ swarm_service app_name d = service) as Hds.
  { intros d. unfold ds. rewrite elem_of_filterb. unfold serves. by rewrite bool_decide_eq_true. }
  assert (∀ k v, merged app_name network ds ∅ !! k = Some v
                 ↔ ∃ d, d ∈ ds ∧ domain_builder app_name network d !! k = Some v) as Hm.
  { intros k v. rewrite merged_lookup.
    - rewrite lookup_empty. naive_solver.
    - intros d d' Hd%Hds Hd'%Hds. apply domains_agree; naive_solver.
    - intros d _ k' v1 v2 _. by rewrite lookup_empty. }
  split; [apply deduplicated_keys|]. intros label. rewrite deduplicated_build.
  - setoid_rewrite Hm. setoid_rewrite Hds. naive_solver.
  - intros k v (d & Hd & Hk)%Hm. apply Hds in Hd as [Hd _]. by eapply label_names_plain.
Qed.
(** Every domain is served: the service it names has labels. *)
Lemma domain_has_service d :
  d ∈ domains → is_Some (build_traefik_labels_for_network app_name domains network !! swarm_service app_name d).
Proof.
  intros Hd. unfold build_traefik_labels_for_network. rewrite lookup_fmap, service_builders_lookup.
  assert (d ∈ List.filter (serves app_name (swarm_service app_name d)) domains) as Hin.
  { apply elem_of_filterb. split; [done|]. unfold serves. by rewrite bool_decide_true. }
  destruct (List.filter _ domains); [by apply elem_of_nil in Hin | by eexists].
Qed.
End Project.

(** ** What the labels of a domain say *)

Lemma router_key_suffix n a b : a ≠ b → router_key n a ≠ router_key n b.
Proof. unfold router_key. intros Hab H. do 3 apply str_app_inv in H. done. Qed.
Lemma router_key_redirect n a b : router_key n a ≠ router_key (n +:+ "-redirect") b.
Proof. unfold router_key. intros H. apply str_app_inv in H. rewrite str_app_assoc in H. apply str_app_inv in H. discriminate H. Qed.
Lemma router_not_service n m a b : router_key n a ≠ service_key m b.
Proof. intros H. discriminate H. Qed.

(** Looks a label up through the labels that were added after it. *)
Ltac look_label :=
  repeat first
    [ rewrite lookup_insert_eq; reflexivity
    | rewrite lookup_insert_ne by (first [ apply router_key_suffix; discriminate | apply not_eq_sym, router_key_redirect
                                         | apply router_key_redirect | apply router_not_service | apply not_eq_sym, router_not_service ]) ].

Record routes (app_name : string) (d : SharedDomain) (b : gmap string string) : Prop := {
  route_rule : b !! router_key (router_name app_name d) "rule" = Some (rule_text (domain_rule d));
  route_entrypoints : b !! router_key (router_name app_name d) "entrypoints" = Some (entrypoint_name (domain_entrypoint d));
  route_service : b !! router_key (router_name app_name d) "service" = Some (router_name app_name d);
  route_port : b !! service_key (router_name app_name d) "loadbalancer.server.port" = Some (i64_to_string (sd_port d));
  route_tls : sd_https d = true → b !! router_key (router_name app_name d) "tls" = Some "true";
  route_resolver : sd_https d = true → ∀ resolver, cert_resolver (domain_tls d) = Some resolver →
    b !! router_key (router_name app_name d) "tls.certresolver" = Some resolver;
  route_middlewares : middleware_names app_name d ≠ [] →
    b !! router_key (router_name app_name d) "middlewares" = Some (join "," (middleware_names app_name d));
  route_redirect : sd_https d = true → sd_entrypoint d = None →
    b !! router_key (router_name app_name d +:+ "-redirect") "rule" = Some (rule_text (domain_rule d))
    ∧ b !! router_key (router_name app_name d +:+ "-redirect") "entrypoints" = Some "web"
    ∧ b !! router_key (router_name app_name d +:+ "-redirect") "middlewares" = Some "redirect-to-https@file" }.

Lemma domain_routes app_name network d : routes app_name d (domain_builder app_name network d).
Proof.
  unfold domain_builder. cbv zeta. set (b2 := if adds_path d then _ else _). generalize b2. clear b2. intros b2.
  unfold router_entrypoint, router_entrypoints, router_rule, router_middlewares, router_tls_config, router_service, service_port.
  split.
  all: destruct (sd_https d) eqn:Eh, (sd_entrypoint d) eqn:Ee, (middleware_names app_name d) eqn:Em,
    (cert_resolver (domain_tls d)) eqn:Ec; simpl; intros; simplify_eq; try done; split_and?; look_label.
Qed.

(** C25: Every domain of a project is routed: the service it names gets labels from which
    Traefik reads a router that matches exactly the host of the domain and, unless it is /, its
    path, that leads to the port of the domain and terminates TLS when the domain has HTTPS. The
    keys of the domains are distinct ids and the values have no back quote. *)
Theorem domains_are_routed app_name network domains d :
  equals ∉ chars app_name → forallb (λ d, digits (sd_key d)) domains = true → NoDup (map sd_key domains) →
  d ∈ domains → no_ticks (domain_rule d) = true →
  ∃ labels text r,
    build_traefik_labels_for_network app_name domains network !! swarm_service app_name d = Some labels
    ∧ label_text (router_key (router_name app_name d) "rule", text) ∈ labels
    ∧ parse_rule text = Some r
    ∧ (∀ holds, rule_matches holds r
                = holds (Host (sd_host d)) && (bool_decide (sd_path d = "/") || holds (PathPrefix (sd_path d))))
    ∧ label_text (router_key (router_name app_name d) "service", router_name app_name d) ∈ labels
    ∧ label_text (service_key (router_name app_name d) "loadbalancer.server.port", i64_to_string (sd_port d)) ∈ labels
    ∧ (sd_https d = true → label_text (router_key (router_name app_name d) "tls", "true") ∈ labels).
Proof.
  intros Happ Hdig Hids Hd Hticks. rewrite forallb_elem in Hdig.
  destruct (domain_has_service app_name network domains d Hd) as [labels Hl].
  destruct (labels_of_service app_name network domains Happ Hdig Hids _ _ Hl) as [_ Hin].
  destruct (rule_reads_back _ Hticks) as (r & Hr & Hs). pose proof (domain_routes app_name network d) as R.
  assert (∀ k v, domain_builder app_name network d !! k = Some v → label_text (k, v) ∈ labels) as Hlab.
  { intros k v Hk. apply Hin. by exists d, k, v. }
  exists labels, (rule_text (domain_rule d)), r. split_and!; [done | apply Hlab, R | done | | apply Hlab, R | apply Hlab, R |].
  - intros holds. rewrite (Hs holds). unfold domain_rule. case_bool_decide; simpl; by rewrite ?andb_true_r.
  - intros Hh. apply Hlab. by apply R.
Qed.

Definition sample_domain (key host path : string) : SharedDomain :=
  mkSharedDomain key host true 3000 (Some "web") path "/" false None "LETSENCRYPT" None [].
Lemma domains_are_routed_witness :
  let d := sample_domain "7" "site.example.com" "/api" in
  let domains := [sample_domain "5" "other.example.com" "/"; d] in
  ∃ labels text r,
    build_traefik_labels "site" domains !! "site_web" = Some labels
    ∧ label_text (router_key "site-7" "rule", text) ∈ labels ∧ parse_rule text = Some r
    ∧ ∀ holds, rule_matches holds r = holds (Host "site.example.com") && (bool_decide ("/api" = "/") || holds (PathPrefix "/api")).
Proof.
  intros d domains.
  destruct (domains_are_routed "site" TRAEFIK_NETWORK domains d ltac:(by apply (bool_decide_eq_true _)) eq_refl
              ltac:(by apply (bool_decide_eq_true _)) ltac:(apply elem_of_cons; right; by apply list_elem_of_here) eq_refl)
    as (labels & text & r & Hl & Ht & Hr & Hs & _).
  assert (swarm_service "site" d = "site_web") as Es by (vm_compute; reflexivity).
  assert (router_name "site" d = "site-7") as En by (vm_compute; reflexivity).
  rewrite Es in Hl. rewrite En in Ht. exists labels, text, r. split; [exact Hl|]. split; [exact Ht|]. split; [exact Hr | exact Hs].
Defined.

(** The host of a domain may hold a back quote, and then its router matches another host too. *)
Example host_escapes_its_rule :
  parse_rule (rule_text (domain_rule (sample_domain "7" ("mine.com" +:+ String tick ")||Host(" +:+ String tick "other.com") "/")))
  = Some (Or (Host "mine.com") (Host "other.com")).
Proof. vm_compute. reflexivity. Qed.
