(* ===== verification/Domains.v ===== *)
(** * Domains of applications and compose projects

    [services/domain.rs] and [db/repository/domains.rs]: a domain is a host and a path that lead to
    a project; no two domains may have the same route.  The service checks a route in its normal
    form and stores the texts it was given.  [routes_stay_distinct] says for which texts the check
    is enough. *)

From stdpp Require Import gmap strings list.
From Stdlib Require Import ZArith Lia Ascii.
From S2P Require Import Prelude RustStr RustText Sql.

Record DomainRecord := mkDomainRecord {
  dom_id : Z; dom_host : string; dom_https : Z; dom_port : option Z; dom_path : option string;
  dom_internal_path : option string; dom_custom_entrypoint : option string; dom_service_name : option string;
  dom_custom_cert_resolver : option string; dom_strip_path : Z; dom_middlewares : string; dom_domain_type : string;
  dom_certificate_type : string; dom_application_id : option Z; dom_compose_id : option Z; dom_created_at : Z;
  dom_updated_at : Z }.

#[export] Instance DomainRecord_schema : Schema DomainRecord := {|
  row_id := dom_id;
  row_check d := bool_decide (dom_certificate_type d ∈ ["LETSENCRYPT"; "NONE"; "CUSTOM"])
                 && bool_decide (dom_domain_type d ∈ ["APPLICATION"; "COMPOSE"; "PREVIEW"]);
  row_conflict _ _ := false;
|}.
#[export] Instance DomainRecord_laws : SchemaLaws DomainRecord.
Proof. by split. Qed.

(** ** Statements *)

Definition dot : ascii := ".".
Definition slash : ascii := "/".
(** SQLite's [lower], [trim], [rtrim] and [NULLIF] *)
Definition sql_lower : string → string := to_ascii_lowercase.
Definition sql_trim (c : ascii) (s : string) : string := trim_start_char c (trim_end_char c s).
Definition sql_nullif (s t : string) : option string := if bool_decide (s = t) then None else Some s.

Definition route_host (host : string) : string := sql_lower (sql_trim dot host).
(** [COALESCE(NULLIF(rtrim(path, '/'), ''), '/')]; NULL stays NULL *)
Definition route_path (path : option string) : string :=
  default "/" (path ≫= λ p, sql_nullif (trim_end_char slash p) "").

Definition route_in_use (host path : string) (exclude_id : option Z) (t : Table DomainRecord) : bool :=
  (0 <? sql_count (λ d, bool_decide (route_host (dom_host d) = route_host host)
                        && bool_decide (route_path (dom_path d) = path)
                        && match exclude_id with None => true | Some id => negb (dom_id d =? id)%Z end) t)%Z.

Definition newest_domain_first (a b : DomainRecord) : bool :=
  ((dom_created_at b <? dom_created_at a) || ((dom_created_at a =? dom_created_at b) && (dom_id b <=? dom_id a)))%Z.
Definition list_by_application (application_id : Z) (t : Table DomainRecord) : list DomainRecord :=
  sql_order_by newest_domain_first (sql_select (λ d, bool_decide (dom_application_id d = Some application_id)) t).
Definition list_by_compose (compose_id : Z) (t : Table DomainRecord) : list DomainRecord :=
  sql_order_by newest_domain_first (sql_select (λ d, bool_decide (dom_compose_id d = Some compose_id)) t).
Definition list_all (t : Table DomainRecord) : list DomainRecord := sql_order_by newest_domain_first (rows t).
Definition get_record_by_id (id : Z) (t : Table DomainRecord) : option DomainRecord := sql_first (λ d, dom_id d =? id)%Z t.
Definition delete_row (id : Z) (t : Table DomainRecord) : Table DomainRecord := (sql_delete (λ d, dom_id d =? id)%Z t).1.

(** ** Requests *)

Record CreateDomainDto := mkCreateDomain {
  cd_host : string; cd_https : bool; cd_port : option Z; cd_path : string; cd_internal_path : string;
  cd_custom_entrypoint : option string; cd_service_name : option string; cd_custom_cert_resolver : option string;
  cd_strip_path : bool; cd_middlewares : string; cd_domain_type : string; cd_certificate_type : string;
  cd_application_id : option Z; cd_compose_id : option Z }.
Record PatchDomainDto := mkPatchDomain {
  pd_host : option string; pd_https : option bool; pd_port : option Z; pd_path : option string;
  pd_internal_path : option string; pd_custom_entrypoint : option string; pd_service_name : option string;
  pd_custom_cert_resolver : option string; pd_strip_path : option bool; pd_middlewares : option string;
  pd_certificate_type : option string }.

(** ** The service *)

Definition bool_to_i64 (b : bool) : Z := if b then 1%Z else 0%Z.
(** [Option::or] *)
Definition option_or {A} (a b : option A) : option A := match a with Some _ => a | None => b end.

Definition validate_owner (application_id compose_id : option Z) : result unit SqlError :=
  if Bool.eqb (bool_decide (is_Some application_id)) (bool_decide (is_Some compose_id))
  then Err (Protocol "exactly one of application_id or compose_id is required") else Ok tt.

Definition has_whitespace (s : string) : bool := (1 <? length (split_ws (chars s) []))%nat.
Definition normalize_host (value : string) : result string SqlError :=
  let host := to_ascii_lowercase (trim_end_char dot (trim value)) in
  if str_is_empty host || contains "/" host || contains ":" host || has_whitespace host
  then Err (Protocol "invalid domain host") else Ok host.
Definition normalize_path (value : string) : string :=
  let value := trim value in
  if str_is_empty value || bool_decide (value = "/") then "/" else "/" +:+ trim_matches_char slash value.

Definition validate_route_available (host path : string) (exclude_id : option Z) (t : Table DomainRecord)
    : result unit SqlError :=
  let? host := normalize_host host in
  let path := normalize_path path in
  if route_in_use host path exclude_id t
  then Err (Protocol ("domain route already exists for " +:+ host +:+ path)) else Ok tt.

Definition get_by_id (id : Z) (t : Table DomainRecord) : result DomainRecord SqlError :=
  ok_or (get_record_by_id id t) RowNotFound.

Section Service.
(** The upper-case table of Unicode, the rows the foreign keys refer to, and the clock *)
Context (unicode : string → string) (owner_exists : DomainRecord → bool).

Definition to_uppercase (s : string) : string := if is_ascii_text s then to_ascii_uppercase s else unicode s.

Definition new_row (input : CreateDomainDto) (now id : Z) : DomainRecord :=
  mkDomainRecord id (cd_host input) (bool_to_i64 (cd_https input)) (option_or (cd_port input) (Some 3000%Z))
    (Some (cd_path input)) (Some (cd_internal_path input)) (cd_custom_entrypoint input) (cd_service_name input)
    (cd_custom_cert_resolver input) (bool_to_i64 (cd_strip_path input)) (cd_middlewares input)
    (match cd_application_id input, cd_compose_id input with
     | Some _, None => "APPLICATION" | None, Some _ => "COMPOSE" | _, _ => "APPLICATION" end)
    (to_uppercase (cd_certificate_type input)) (cd_application_id input) (cd_compose_id input) now now.

Definition create (input : CreateDomainDto) (now : Z) (t : Table DomainRecord)
    : result (Table DomainRecord * DomainRecord) SqlError :=
  let? _ := validate_owner (cd_application_id input) (cd_compose_id input) in
  let? _ := validate_route_available (cd_host input) (cd_path input) None t in
  let? (t, id) := sql_insert owner_exists (new_row input now) t in
  Ok (t, new_row input now id).

Definition patched_row (input : PatchDomainDto) (now : Z) (d : DomainRecord) : DomainRecord :=
  mkDomainRecord (dom_id d) (default (dom_host d) (pd_host input))
    (default (dom_https d) (bool_to_i64 <$> pd_https input)) (option_or (pd_port input) (dom_port d))
    (option_or (pd_path input) (dom_path d)) (option_or (pd_internal_path input) (dom_internal_path d))
    (option_or (pd_custom_entrypoint input) (dom_custom_entrypoint d))
    (option_or (pd_service_name input) (dom_service_name d))
    (option_or (pd_custom_cert_resolver input) (dom_custom_cert_resolver d))
    (default (dom_strip_path d) (bool_to_i64 <$> pd_strip_path input)) (default (dom_middlewares d) (pd_middlewares input))
    (dom_domain_type d) (default (dom_certificate_type d) (to_uppercase <$> pd_certificate_type input))
    (dom_application_id d) (dom_compose_id d) (dom_created_at d) now.

(** The columns of [update_and_return]; the trigger sets [updated_at] after the row was returned. *)
Definition set_columns (row : DomainRecord) (updated_at : Z) (d : DomainRecord) : DomainRecord :=
  mkDomainRecord (dom_id d) (dom_host row) (dom_https row) (dom_port row) (dom_path row) (dom_internal_path row)
    (dom_custom_entrypoint row) (dom_service_name row) (dom_custom_cert_resolver row) (dom_strip_path row)
    (dom_middlewares row) (dom_domain_type d) (dom_certificate_type row) (dom_application_id d) (dom_compose_id d)
    (dom_created_at d) updated_at.

Definition patch (id : Z) (input : PatchDomainDto) (now : Z) (t : Table DomainRecord)
    : result (Table DomainRecord * DomainRecord) SqlError :=
  let? current := get_by_id id t in
  let row := patched_row input now current in
  let? _ := validate_route_available (dom_host row) (default "/" (dom_path row)) (Some id) t in
  let? (t, n) := sql_update no_fk (λ d, dom_id d =? id)%Z (set_columns row now) t in
  if (n =? 0)%nat then Err RowNotFound else Ok (t, set_columns row (dom_updated_at current) current).

Definition delete (id : Z) (t : Table DomainRecord) : result (Table DomainRecord * DomainRecord) SqlError :=
  let? domain := get_by_id id t in Ok (delete_row id t, domain).

(** The projects whose labels are written again, in the background, after a change of the domain *)
Inductive Relabel := RelabelApplication (id : Z) | RelabelCompose (id : Z).
Definition relabels (d : DomainRecord) : list Relabel :=
  (match dom_application_id d with Some id => if (0 <? id)%Z then [RelabelApplication id] else [] | None => [] end)
  ++ match dom_compose_id d with Some id => if (0 <? id)%Z then [RelabelCompose id] else [] | None => [] end.

(** Requests one after the other; one that fails changes nothing. *)
Inductive Request := Create (input : CreateDomainDto) (now : Z) | Patch (id : Z) (input : PatchDomainDto) (now : Z) | Delete (id : Z).
Definition handle (r : Request) (t : Table DomainRecord) : result (Table DomainRecord * DomainRecord) SqlError :=
  match r with Create input now => create input now t | Patch id input now => patch id input now t | Delete id => delete id t end.
Definition after (t : Table DomainRecord) (r : Request) : Table DomainRecord :=
  match handle r t with Ok (t', _) => t' | Err _ => t end.
Definition run (rs : list Request) (t : Table DomainRecord) : Table DomainRecord := foldl after t rs.
End Service.

(** * The routes of the domains stay distinct *)

(** ** Texts *)

Lemma drop_char_idemp c l : drop_char c (drop_char c l) = drop_char c l.
Proof. induction l as [|d l IH]; [done|]. simpl. destruct (is_char c d) eqn:E; [done|]. simpl. by rewrite E. Qed.
Lemma trim_end_char_idemp c s : trim_end_char c (trim_end_char c s) = trim_end_char c s.
Proof. unfold trim_end_char. by rewrite chars_of_chars, rev_involutive, drop_char_idemp. Qed.

Lemma ascii_lower_dot x : is_char dot (ascii_lower x) = is_char dot x.
Proof. destruct x as [[] [] [] [] [] [] [] []]; reflexivity. Qed.
Lemma drop_char_lower l : drop_char dot (map ascii_lower l) = map ascii_lower (drop_char dot l).
Proof. induction l as [|x l IH]; [done|]. simpl. rewrite ascii_lower_dot. by destruct (is_char dot x). Qed.
Lemma string_map_of_chars f l : string_map f (of_chars l) = of_chars (map f l).
Proof. apply chars_inj. by rewrite chars_string_map, !chars_of_chars. Qed.
Lemma sql_trim_lower s : sql_trim dot (to_ascii_lowercase s) = to_ascii_lowercase (sql_trim dot s).
Proof.
  unfold sql_trim, trim_start_char, trim_end_char, to_ascii_lowercase.
  rewrite !string_map_of_chars, !chars_of_chars, chars_string_map, <-map_rev, drop_char_lower, <-map_rev, drop_char_lower. done.
Qed.

(** ** Routes *)

Definition route (d : DomainRecord) : string * string := (route_host (dom_host d), route_path (dom_path d)).

(** The host is written without blanks around it, the path the way it is compared. *)
Definition tidy_host (host : string) : bool := bool_decide (trim host = host).
Definition tidy_path (path : string) : bool := bool_decide (normalize_path path = route_path (Some path)).
Definition tidy_row (d : DomainRecord) : bool :=
  tidy_host (dom_host d) && match dom_path d with Some p => tidy_path p | None => true end.

Lemma normalized_route_host host h :
  tidy_host host = true → normalize_host host = Ok h → route_host h = route_host host.
Proof.
  unfold tidy_host, normalize_host. intros Ht%bool_decide_eq_true. rewrite Ht. case_match; [done|]. intros [= <-].
  unfold route_host, sql_lower. rewrite sql_trim_lower.
  assert (∀ s, to_ascii_lowercase (to_ascii_lowercase s) = to_ascii_lowercase s) as Hi by apply to_ascii_lowercase_idemp.
  rewrite Hi. unfold sql_trim. by rewrite trim_end_char_idemp.
Qed.
Lemma route_in_use_spec host path exclude t :
  route_in_use host path exclude t = true
  ↔ ∃ d, d ∈ rows t ∧ route_host (dom_host d) = route_host host ∧ route_path (dom_path d) = path
         ∧ match exclude with None => True | Some id => dom_id d ≠ id end.
Proof.
  unfold route_in_use. rewrite Z.ltb_lt. unfold sql_count, sql_select. rewrite <-Nat2Z.inj_0, <-Nat2Z.inj_lt.
  set (p := λ d : DomainRecord, _). split.
  - destruct (List.filter p (rows t)) as [|d l] eqn:E; [simpl; lia|]. intros _.
    assert (d ∈ List.filter p (rows t)) as [Hin Hp]%elem_of_filterb by (rewrite E; by apply list_elem_of_here).
    exists d. split; [done|]. unfold p in Hp. bsimp. split_and!; [done..|]. destruct exclude; [|done]. by bsimp.
  - intros (d & Hin & Hh & Hp & He). assert (d ∈ List.filter p (rows t)) as Hf.
    { apply elem_of_filterb. split; [done|]. unfold p. rewrite !bool_decide_true by done. simpl. destruct exclude; [|done].
      apply negb_true_iff. by apply Z.eqb_neq. }
    destruct (List.filter p (rows t)); [by apply elem_of_nil in Hf | simpl; lia].
Qed.

(** A route that is found free is the route of no other row. *)
Lemma route_available host path exclude t :
  tidy_host host = true → match path with Some p => tidy_path p | None => true end = true →
  validate_route_available host (default "/" path) exclude t = Ok tt →
  ∀ d, d ∈ rows t → match exclude with None => True | Some id => dom_id d ≠ id end →
    route d ≠ (route_host host, route_path path).
Proof.
  intros Hh Hp Hv d Hd He Heq. unfold validate_route_available in Hv. apply let_ok in Hv as (h & Hn & Hv).
  destruct (route_in_use h _ exclude t) eqn:E; [done|].
  assert (normalize_path (default "/" path) = route_path path) as Hpath.
  { destruct path as [p|]; [by apply bool_decide_eq_true in Hp | reflexivity]. }
  apply not_true_iff_false in E. apply E, route_in_use_spec. exists d. unfold route in Heq. simplify_eq.
  rewrite Hpath, (normalized_route_host host h Hh Hn). done.
Qed.
(** A route that is taken is refused. *)
Lemma taken_route_refused host path exclude t d h :
  tidy_host host = true → match path with Some p => tidy_path p | None => true end = true →
  normalize_host host = Ok h → d ∈ rows t → match exclude with None => True | Some id => dom_id d ≠ id end →
  route d = (route_host host, route_path path) →
  validate_route_available host (default "/" path) exclude t
  = Err (Protocol ("domain route already exists for " +:+ h +:+ normalize_path (default "/" path))).
Proof.
  intros Hh Hp Hn Hd He Heq. unfold validate_route_available. rewrite Hn. simpl.
  assert (normalize_path (default "/" path) = route_path path) as Hpath.
  { destruct path as [p|]; [by apply bool_decide_eq_true in Hp | reflexivity]. }
  assert (route_in_use h (normalize_path (default "/" path)) exclude t = true) as ->; [|done].
  apply route_in_use_spec. exists d. unfold route in Heq. simplify_eq. rewrite Hpath, (normalized_route_host host h Hh Hn). done.
Qed.

(** ** The invariant *)

Definition one_owner (d : DomainRecord) : Prop := is_Some (dom_application_id d) ↔ dom_compose_id d = None.
Record domains_ok (t : Table DomainRecord) : Prop := {
  do_wf : table_wf t;
  do_routes : NoDup (map route (rows t));
  do_tidy : ∀ d, d ∈ rows t → tidy_row d = true;
  do_owner : ∀ d, d ∈ rows t → one_owner d }.

(** The texts of a request are written the way they are compared. *)
Definition tidy_request (r : Request) : bool :=
  match r with
  | Create input _ => tidy_host (cd_host input) && tidy_path (cd_path input)
  | Patch _ input _ =>
      match pd_host input with Some h => tidy_host h | None => true end
      && match pd_path input with Some p => tidy_path p | None => true end
  | Delete _ => true
  end.

Lemma NoDup_map_update {A B} (key : A → Z) (f : A → B) (g : A → A) id l :
  NoDup (map key l) → NoDup (map f l) → (∀ x y, x ∈ l → y ∈ l → key x = id → key y ≠ id → f (g x) ≠ f y) →
  NoDup (map f (map (λ x, if (key x =? id)%Z then g x else x) l)).
Proof.
  induction l as [|x l IH]; simpl; intros Hk Hf Hg; [done|].
  apply NoDup_cons in Hk as [Hkx Hk], Hf as [Hfx Hf]. constructor; [|apply IH; [done..|]; set_solver].
  rewrite map_map. intros (y & Hy & Hin)%elem_of_mapb. destruct (key x =? id)%Z eqn:Ex, (key y =? id)%Z eqn:Ey; bsimp.
  - apply Hkx. rewrite Ex, <-Ey. apply elem_of_mapb. by exists y.
  - by apply (Hg x y); [apply elem_of_cons; by left | apply elem_of_cons; by right | ..].
  - by apply (Hg y x); [apply elem_of_cons; by right | apply elem_of_cons; by left | ..].
  - apply Hfx, elem_of_mapb. by exists y.
Qed.

Section Requests.
Context (unicode : string → string) (owner_exists : DomainRecord → bool).

Lemma create_ok input now t t' d :
  tidy_request (Create input now) = true → domains_ok t → create unicode owner_exists input now t = Ok (t', d) → domains_ok t'.
Proof.
  intros [Hh Hp]%andb_true_iff [Hwf Hr Ht Ho] Hc. unfold create in Hc. apply let_ok in Hc as ([] & Hown & Hc).
  apply let_ok in Hc as ([] & Hroute & Hc). apply let_ok in Hc as ([t1 id] & Hins & [= <- <-]).
  pose proof (sql_insert_inv _ _ _ _ _ Hins) as (_ & _ & Hrows & _). split; rewrite ?Hrows.
  - eapply sql_insert_wf; [exact Hwf | | exact Hins]. done.
  - rewrite map_app. apply NoDup_app. split_and!; [done| |apply NoDup_singleton].
    intros r (d & -> & Hd)%elem_of_mapb. simpl. rewrite list_elem_of_singleton.
    by apply (route_available (cd_host input) (Some (cd_path input)) None t Hh Hp Hroute).
  - intros d [Hd|Hd]%elem_of_app; [by apply Ht|]. apply list_elem_of_singleton in Hd as ->. unfold tidy_row. simpl. by rewrite Hh, Hp.
  - intros d [Hd|Hd]%elem_of_app; [by apply Ho|]. apply list_elem_of_singleton in Hd as ->. unfold one_owner. simpl. unfold validate_owner in Hown.
    destruct (cd_application_id input), (cd_compose_id input); simpl in Hown; try done; split; try done; by intros [].
Qed.
Lemma patch_ok id input now t t' d :
  tidy_request (Patch id input now) = true → domains_ok t → patch unicode id input now t = Ok (t', d) → domains_ok t'.
Proof.
  intros [Hh Hp]%andb_true_iff [Hwf Hr Ht Ho] Hc. unfold patch in Hc. apply let_ok in Hc as (current & Hcur & Hc).
  set (row := patched_row unicode input now current) in *. apply let_ok in Hc as ([] & Hroute & Hc).
  apply let_ok in Hc as ([t1 n] & Hup & Hc). case_match; [done|]. injection Hc as <- <-.
  assert (current ∈ rows t ∧ dom_id current = id) as [Hcin Hcid].
  { unfold get_by_id, get_record_by_id in Hcur. destruct (sql_first _ t) as [c|] eqn:E; [|done]. simplify_eq/=.
    apply sql_first_Some in E as [? ?]. by bsimp. }
  assert (tidy_row row = true) as Htrow.
  { pose proof (Ht current Hcin) as [H1 H2]%andb_true_iff. unfold tidy_row, row. simpl.
    apply andb_true_iff. split; [by destruct (pd_host input) | by destruct (pd_path input)]. }
  pose proof Htrow as [Hth Htp]%andb_true_iff.
  pose proof (sql_update_inv _ _ _ _ _ _ Hup) as (Hrows & _ & _ & _). split.
  - eapply sql_update_wf; [exact Hwf | | exact Hup]. done.
  - rewrite Hrows. unfold updated. apply (NoDup_map_update dom_id); [apply (wf_ids t Hwf) | done |].
    intros x y _ Hy _ Hyid. apply not_eq_sym. by apply (route_available (dom_host row) (dom_path row) (Some id) t Hth Htp Hroute).
  - intros x. rewrite Hrows. intros (y & -> & Hy)%elem_of_mapb. unfold updated. destruct (dom_id y =? id)%Z; [exact Htrow | by apply Ht].
  - intros x. rewrite Hrows. intros (y & -> & Hy)%elem_of_mapb. unfold updated. destruct (dom_id y =? id)%Z; apply (Ho y Hy).
Qed.
Lemma delete_ok id t t' d : domains_ok t → delete id t = Ok (t', d) → domains_ok t'.
Proof.
  intros [Hwf Hr Ht Ho] Hc. unfold delete in Hc. apply let_ok in Hc as (c & _ & [= <- <-]). split.
  - by apply sql_delete_wf.
  - simpl. eapply sublist_NoDup; [exact Hr|]. apply (fmap_sublist route), filterb_sublist.
  - intros x [Hx _]%elem_of_filterb. by apply Ht.
  - intros x [Hx _]%elem_of_filterb. by apply Ho.
Qed.

(** Whatever requests create, change and delete domains, one after the other, failing ones
    included, no two domains get the same route and every domain keeps exactly one owner, as
    long as hosts have no blanks around them and paths are written the way they are compared. *)
Theorem routes_stay_distinct rs t :
  forallb tidy_request rs = true → domains_ok t → domains_ok (run unicode owner_exists rs t).
Proof.
  revert t. induction rs as [|r rs IH]; intros t; simpl; [done|]. intros [Hr Hrs]%andb_true_iff Hok. apply IH; [done|].
  unfold after. destruct (handle unicode owner_exists r t) as [[t' d]|] eqn:E; [|done]. destruct r; simpl in E.
  - by eapply create_ok.
  - by eapply patch_ok.
  - by eapply delete_ok.
Qed.
End Requests.

(** ** Examples *)

Definition sample_create (host path : string) : CreateDomainDto :=
  mkCreateDomain host true None path "/" None None None false "[]" "APPLICATION" "none" (Some 1%Z) None.
Definition no_unicode : string → string := λ s, s.
Definition any_owner : DomainRecord → bool := λ _, true.

Lemma routes_stay_distinct_witness :
  domains_ok (run no_unicode any_owner
    [Create (sample_create "a.com" "/") 1; Create (sample_create "A.com." "") 2; Create (sample_create "a.com" "/api/") 3;
     Patch 1 (mkPatchDomain None None None (Some "/api") None None None None None None None) 4] empty_table)
  ∧ length (rows (run no_unicode any_owner
      [Create (sample_create "a.com" "/") 1; Create (sample_create "A.com." "") 2; Create (sample_create "a.com" "/api/") 3]
      empty_table)) = 2.
Proof.
  split; [|vm_compute; reflexivity]. apply (routes_stay_distinct no_unicode any_owner); [vm_compute; reflexivity|].
  split; [apply empty_table_wf | constructor | by intros d ?%elem_of_nil | by intros d ?%elem_of_nil].
Defined.

(** Outside the condition the check misses what is stored: two domains with the same host and path. *)
Example blank_host_is_taken_twice :
  let t := run no_unicode any_owner [Create (sample_create " a.com" "/") 1; Create (sample_create " a.com" "/") 2] empty_table in
  map dom_host (rows t) = [" a.com"; " a.com"] ∧ map dom_path (rows t) = [Some "/"; Some "/"].
Proof. vm_compute. done. Qed.
Example path_without_slash_is_taken_twice :
  let t := run no_unicode any_owner [Create (sample_create "a.com" "api") 1; Create (sample_create "a.com" "api") 2] empty_table in
  map dom_path (rows t) = [Some "api"; Some "api"].
Proof. vm_compute. done. Qed.
(** Two requests that both check before either stores *)
Example concurrent_creations_share_a_route :
  let t0 : Table DomainRecord := empty_table in
  match create no_unicode any_owner (sample_create "a.com" "/") 1 t0 with
  | Ok (t1, _) =>
      validate_route_available "a.com" "/" None t0 = Ok tt
      ∧ match sql_insert any_owner (new_row no_unicode (sample_create "a.com" "/") 2) t1 with
        | Ok (t2, _) => map route (rows t2) = [("a.com", "/"); ("a.com", "/")]
        | Err _ => False
        end
  | Err _ => False
  end.
Proof. vm_compute. done. Qed.
