(* ===== verification/ComposeLabels.v ===== *)
(** * Labels and networks in a compose file

    [utils/builder/compose/labels.rs]: before a project is deployed, and again when one of its
    domains changes, the labels of its domains are written into the services of its compose file,
    with the networks that the services need.  [stale_labels_go] says that no other Traefik label
    stays, [domains_are_labelled] that every label of every domain is there. *)

From stdpp Require Import gmap strings list.
From Stdlib Require Import ZArith Lia Ascii.
From S2P Require Import Prelude RustStr RustText StringEnum ComposeYaml ComposeTransform TraefikRules TraefikLabels Domains.

Inductive ComposeRuntime := RtCompose | RtStack.
Record ServiceNetwork := mkServiceNetwork { svn_service : string; svn_networks : list string }.
(** The part of [ComposeSpec] that the labels come from; a domain has the fields of [SharedDomain]. *)
Record LabelSpec := mkLabelSpec {
  lsp_app_name : string; lsp_runtime : ComposeRuntime; lsp_domains : list SharedDomain;
  lsp_service_networks : list ServiceNetwork }.

(** [mapping_mut]: a pattern, so a tagged mapping is refused *)
Definition mapping_mut (value : Value) (message : string) : result Mapping ExecError :=
  match value with VMapping m => Ok m | _ => command_error message end.

Definition is_traefik_label (v : Value) : bool :=
  match v with VString s => starts_with "traefik." s | _ => false end.
Definition strip_labels (labels : Value) : Value :=
  match labels with
  | VSequence items => VSequence (List.filter (λ i, negb (is_traefik_label i)) items)
  | VMapping m => VMapping (List.filter (λ p, negb (is_traefik_label p.1)) m)
  | v => v
  end.
Definition strip_service (service : Value) : Value :=
  match service with VMapping m => VMapping (mupdate "labels" strip_labels m) | v => v end.
Definition strip_traefik_labels_from_services (services : Mapping) : Mapping := mmap_values strip_service services.

(** [push_unique] inserts at the front. *)
Definition push_unique (value : Value) (items : list Value) : list Value :=
  if existsb (λ item, value_eqb item value) items then items else value :: items.

Definition insert_label (labels : Value) (label : string) : result Value ExecError :=
  match labels with
  | VSequence items => Ok (VSequence (push_unique (VString label) items))
  | VMapping m =>
      match split_once equals label with
      | Some (k, v) => Ok (VMapping (minsert (VString k) (VString v) m))
      | None => command_error "invalid traefik label"
      end
  | _ => command_error "labels must be a list or object"
  end.
Fixpoint insert_labels (ls : list string) (labels : Value) : result Value ExecError :=
  match ls with
  | [] => Ok labels
  | l :: ls => let? labels := insert_label labels l in insert_labels ls labels
  end.

Definition create_domain_labels (spec : LabelSpec) (d : SharedDomain) : list string :=
  default [] (build_traefik_labels (lsp_app_name spec) [d] !! swarm_service (lsp_app_name spec) d).

(** [entry(name).or_insert(initial)] and an update that may fail *)
Definition update_entry (name : string) (initial : Value) (f : Value → result Value ExecError) (m : Mapping)
    : result Mapping ExecError :=
  let m := mentry name initial m in
  let? v := f (default initial (mget name m)) in
  Ok (mupdate name (λ _, v) m).

Definition inject_labels_for_service (spec : LabelSpec) (d : SharedDomain) (service : Value) : result Value ExecError :=
  let? m := mapping_mut service "compose service must be a yaml object" in
  let labels := update_entry "labels" (VSequence []) (insert_labels (create_domain_labels spec d)) in
  let? m := match lsp_runtime spec with
            | RtCompose => labels m
            | RtStack =>
                update_entry "deploy" (VMapping [])
                  (λ deploy, let? deploy := mapping_mut deploy "compose deploy must be a yaml object" in
                             let? deploy := labels deploy in Ok (VMapping deploy)) m
            end in
  Ok (VMapping m).

Definition add_named_network_to_service (network : string) (service : Value) : result Value ExecError :=
  let? m := mapping_mut service "compose service must be a yaml object" in
  let? m := update_entry "networks" (VSequence [])
              (λ networks, match networks with
                           | VSequence items => Ok (VSequence (push_unique (VString network) items))
                           | VMapping nm => Ok (VMapping (mentry network VNull nm))
                           | _ => command_error "service networks must be a list or object"
                           end) m in
  Ok (VMapping m).

Definition add_network_to_root (network : string) (root : Mapping) : Mapping :=
  let root := mentry "networks" (VMapping []) root in
  mupdate "networks" (λ networks,
    match networks with
    | VMapping m => VMapping (mentry network (VMapping [(VString "external", VBool true); (VString "name", VString network)]) m)
    | v => v
    end) root.

(** The service of that name, or the only one; the messages also list the services there are. *)
Definition update_service (name message : string) (f : Value → result Value ExecError) (services : Mapping)
    : result Mapping ExecError :=
  match mget name services with
  | Some v => let? v := f v in Ok (mupdate name (λ _, v) services)
  | None =>
      match services with
      | [(k, v)] => let? v := f v in Ok [(k, v)]
      | _ => command_error message
      end
  end.

Fixpoint add_networks (networks : list string) (service : Value) : result Value ExecError :=
  match networks with
  | [] => Ok service
  | n :: networks => let? service := add_named_network_to_service n service in add_networks networks service
  end.

Definition inject_domain (spec : LabelSpec) (d : SharedDomain) : Mapping → result Mapping ExecError :=
  let name := default "" (sd_service_name d) in
  update_service name ("domain " +:+ sd_host d +:+ " points to missing compose service '" +:+ name +:+ "'")
    (λ service, let? service := inject_labels_for_service spec d service in
                add_named_network_to_service TRAEFIK_NETWORK service).
Fixpoint inject_domains (spec : LabelSpec) (ds : list SharedDomain) (services : Mapping) : result Mapping ExecError :=
  match ds with
  | [] => Ok services
  | d :: ds => let? services := inject_domain spec d services in inject_domains spec ds services
  end.
Fixpoint inject_networks (sns : list ServiceNetwork) (services : Mapping) : result Mapping ExecError :=
  match sns with
  | [] => Ok services
  | sn :: sns =>
      let? services := update_service (svn_service sn)
                         ("network config points to missing compose service '" +:+ svn_service sn +:+ "'")
                         (add_networks (svn_networks sn)) services in
      inject_networks sns services
  end.

Definition inject_services (spec : LabelSpec) (services : Mapping) : result Mapping ExecError :=
  let services := match lsp_domains spec with [] => services | _ => strip_traefik_labels_from_services services end in
  let? services := inject_domains spec (lsp_domains spec) services in
  inject_networks (lsp_service_networks spec) services.

Definition inject_domain_labels (spec : LabelSpec) (document : Value) : result Value ExecError :=
  let? root := mapping_mut document "compose root must be a yaml object" in
  match mget "services" root with
  | None => command_error "compose file has no services"
  | Some services =>
      let? services := mapping_mut services "compose services must be a yaml object" in
      let? services := inject_services spec services in
      let root := mupdate "services" (λ _, VMapping services) root in
      let root := match lsp_domains spec with [] => root | _ => add_network_to_root TRAEFIK_NETWORK root end in
      Ok (VMapping (foldl (λ root n, add_network_to_root n root) root
                      (concat (map svn_networks (lsp_service_networks spec)))))
  end.

Section Yaml.
Context (from_str : string → option Value) (to_string : Value → option string).
(** What the panel writes back when a domain changes: the file stays as it is when there is an error. *)
Definition inject_compose_yaml_labels (spec : LabelSpec) (yaml : string) : result string ExecError :=
  match from_str yaml with
  | None => Err YamlError
  | Some document => let? document := inject_domain_labels spec document in print to_string document
  end.
(** [write_labeled_compose], which leaves the file alone when there is nothing to add *)
Definition write_labeled_compose (spec : LabelSpec) (file : string) : result string ExecError :=
  match lsp_domains spec, lsp_service_networks spec with
  | [], [] => Ok file
  | _, _ => inject_compose_yaml_labels spec file
  end.
End Yaml.

(** ** Where a name leads *)

Definition service_index (name : string) (services : Mapping) : option nat :=
  match list_find (λ p, is_str name p.1 = true) services with
  | Some (i, _) => Some i
  | None => match services with [_] => Some 0 | _ => None end
  end.
Definition set_value (v : Value) (p : Value * Value) : Value * Value := (p.1, v).

Lemma mupdate_alter name v m i p :
  list_find (λ p, is_str name p.1 = true) m = Some (i, p) → mupdate name (λ _, v) m = alter (set_value v) i m.
Proof.
  revert i. induction m as [|[k w] m IH]; intros i; simpl; [done|]. case_decide as Hk; simpl in Hk.
  - intros [= <- <-]. by rewrite Hk.
  - destruct (list_find _ m) as [[j q]|]; simpl; [|done]. intros [= <- <-]. destruct (is_str name k); [done|].
    simpl. f_equal. by apply IH.
Qed.
Lemma mget_find name m : mget name m = snd ∘ snd <$> list_find (λ p, is_str name p.1 = true) m.
Proof.
  induction m as [|[k v] m IH]; [done|]. rewrite mget_cons. simpl. case_decide as Hk; simpl in Hk.
  - by rewrite Hk.
  - destruct (is_str name k); [done|]. rewrite IH. by destruct (list_find _ m) as [[]|].
Qed.
(** An update of the service changes one entry, and only its value. *)
Lemma update_service_spec name message f services services' :
  update_service name message f services = Ok services' →
  ∃ i k v v', service_index name services = Some i ∧ services !! i = Some (k, v) ∧ f v = Ok v'
              ∧ services' = alter (set_value v') i services.
Proof.
  unfold update_service, service_index. rewrite mget_find.
  destruct (list_find _ services) as [[i [k v]]|] eqn:E; simpl.
  - intros (v' & Hf & [= <-])%let_ok. pose proof E as (Hi & _)%list_find_Some. exists i, k, v, v'.
    split_and!; try done. by eapply mupdate_alter.
  - destruct services as [|[k v] [|]]; try done. intros (v' & Hf & [= <-])%let_ok. by exists 0, k, v, v'.
Qed.
Lemma service_index_keys name m m' : m.*1 = m'.*1 → service_index name m = service_index name m'.
Proof.
  assert (∀ l l' : Mapping, l.*1 = l'.*1 →
            fst <$> list_find (λ p, is_str name p.1 = true) l = fst <$> list_find (λ p, is_str name p.1 = true) l') as Hf.
  { induction l as [|[k v] l IH]; intros [|[k' v'] l'] H; simplify_eq/=; [done|]. case_decide; [done|].
    specialize (IH l' H0). destruct (list_find _ l) as [[]|], (list_find _ l') as [[]|]; naive_solver. }
  intros H. pose proof (Hf m m' H) as Hmm. unfold service_index.
  destruct (list_find _ m) as [[]|], (list_find _ m') as [[]|]; simplify_eq/=; try done.
  destruct m as [|? [|]], m' as [|? [|]]; simplify_eq/=; done.
Qed.
Lemma alter_keys v i (m : Mapping) : (alter (set_value v) i m).*1 = m.*1.
Proof.
  apply list_eq. intros j. rewrite !list_lookup_fmap. destruct (decide (i = j)) as [->|Hne].
  - rewrite list_lookup_alter_eq. by destruct (m !! j).
  - by rewrite list_lookup_alter_ne.
Qed.

(** ** The labels of a service *)

(** The service is a mapping whose labels are a list, if it has any. *)
Definition list_labels (v : Value) : bool :=
  match v with
  | VMapping m => match mget "labels" m with None | Some (VSequence _) => true | _ => false end
  | _ => false
  end.
Definition label_list (v : Value) : list Value :=
  match v with
  | VMapping m => match mget "labels" m with Some (VSequence items) => items | _ => [] end
  | _ => []
  end.
Definition has_label (v : Value) (label : string) : Prop := VString label ∈ label_list v.

Lemma value_eqb_string_r v s : value_eqb v (VString s) = true → v = VString s.
Proof. destruct v; simpl; try done. by intros ->%bool_decide_eq_true. Qed.
Lemma elem_of_push_unique l x items : VString l ∈ push_unique (VString x) items ↔ l = x ∨ VString l ∈ items.
Proof.
  unfold push_unique. destruct (existsb _ items) eqn:E.
  - apply existsb_elem in E as (i & Hi & ->%value_eqb_string_r). naive_solver.
  - rewrite elem_of_cons. naive_solver.
Qed.
Lemma insert_labels_spec ls items v :
  insert_labels ls (VSequence items) = Ok v →
  ∃ items', v = VSequence items' ∧ ∀ l, VString l ∈ items' ↔ l ∈ ls ∨ VString l ∈ items.
Proof.
  revert items. induction ls as [|x ls IH]; intros items; simpl.
  - intros [= <-]. exists items. split; [done|]. set_solver.
  - intros (items' & -> & H)%IH. exists items'. split; [done|]. intros l. rewrite H, elem_of_push_unique. set_solver.
Qed.
Lemma update_entry_labels f m m' :
  update_entry "labels" (VSequence []) f m = Ok m' →
  (match mget "labels" m with None | Some (VSequence _) => true | _ => false end) = true →
  ∃ v, f (VSequence (label_list (VMapping m))) = Ok v ∧ mget "labels" m' = Some v.
Proof.
  unfold update_entry. intros (v & Hf & [= <-])%let_ok Hl. rewrite mget_entry, bool_decide_true in Hf by done. simpl in Hf.
  exists v. split.
  - simpl. destruct (mget "labels" m) as [[]|]; try done.
  - rewrite mget_update, bool_decide_true, mget_entry, bool_decide_true by done. by destruct (mget "labels" m).
Qed.
Lemma inject_labels_spec spec d v v' :
  lsp_runtime spec = RtCompose → list_labels v = true → inject_labels_for_service spec d v = Ok v' →
  list_labels v' = true ∧ ∀ l, has_label v' l ↔ l ∈ create_domain_labels spec d ∨ has_label v l.
Proof.
  intros Hr. destruct v as [| | | | |m|]; try done. intros Hl. unfold inject_labels_for_service. simpl. rewrite Hr.
  intros (m' & (w & Hf & Hg)%update_entry_labels & [= <-])%let_ok; [|done].
  apply insert_labels_spec in Hf as (items' & -> & H). unfold has_label. simpl. rewrite Hg. done.
Qed.
Lemma add_network_labels network v v' :
  add_named_network_to_service network v = Ok v' → list_labels v' = list_labels v ∧ label_list v' = label_list v.
Proof.
  unfold add_named_network_to_service. destruct v as [| | | | |m|]; try done. simpl.
  intros (m' & Hm & [= <-])%let_ok. unfold update_entry in Hm. apply let_ok in Hm as (w & _ & [= <-]). simpl.
  by rewrite mget_update, bool_decide_false, mget_entry, bool_decide_false.
Qed.
Lemma add_networks_labels networks v v' :
  add_networks networks v = Ok v' → list_labels v' = list_labels v ∧ label_list v' = label_list v.
Proof.
  revert v. induction networks as [|n networks IH]; simpl; intros v; [by intros [= <-]|].
  intros (w & [H1 H2]%add_network_labels & [H3 H4]%IH)%let_ok. by rewrite H3, H4.
Qed.
Lemma strip_service_labels v l :
  list_labels v = true →
  list_labels (strip_service v) = true ∧ (has_label (strip_service v) l ↔ has_label v l ∧ starts_with "traefik." l = false).
Proof.
  destruct v as [| | | | |m|]; try done. unfold has_label. simpl. rewrite mget_update, bool_decide_true by done. intros Hl.
  destruct (mget "labels" m) as [[| | | |items| |]|]; try done; simpl.
  - split; [done|]. rewrite elem_of_filterb. simpl. by rewrite negb_true_iff.
  - split; [done|]. set_solver.
Qed.

(** ** The labels of the services *)

(** The entries of [m'] are those of [m] with the labels [new] gives added. *)
Definition labels_added (new : nat → string → Prop) (m m' : Mapping) : Prop :=
  m'.*1 = m.*1 ∧
  ∀ i k v, m !! i = Some (k, v) → list_labels v = true →
    ∃ v', m' !! i = Some (k, v') ∧ list_labels v' = true ∧ ∀ l, has_label v' l ↔ has_label v l ∨ new i l.

Lemma labels_added_alter new i m k v v' :
  m !! i = Some (k, v) →
  (list_labels v = true → list_labels v' = true ∧ ∀ l, has_label v' l ↔ has_label v l ∨ new i l) →
  (∀ j l, j ≠ i → ¬ new j l) → labels_added new m (alter (set_value v') i m).
Proof.
  intros Hi Hv Hn. split; [apply alter_keys|]. intros j k' w Hj Hw. destruct (decide (i = j)) as [->|Hne].
  - simplify_eq. rewrite list_lookup_alter_eq, Hi. simpl. exists v'. split; [done|]. by apply Hv.
  - rewrite list_lookup_alter_ne by done. exists w. split_and!; [done..|]. intros l. specialize (Hn j l). naive_solver.
Qed.
Lemma labels_added_trans n1 n2 m1 m2 m3 :
  labels_added n1 m1 m2 → labels_added n2 m2 m3 → labels_added (λ i l, n1 i l ∨ n2 i l) m1 m3.
Proof.
  intros [K1 H1] [K2 H2]. split; [congruence|]. intros i k v Hi Hv. destruct (H1 i k v Hi Hv) as (v2 & Hi2 & Hl2 & Hh2).
  destruct (H2 i k v2 Hi2 Hl2) as (v3 & Hi3 & Hl3 & Hh3). exists v3. split_and!; [done..|]. intros l.
  rewrite Hh3, Hh2. naive_solver.
Qed.
Lemma labels_added_ext n1 n2 m m' : (∀ i l, n1 i l ↔ n2 i l) → labels_added n1 m m' → labels_added n2 m m'.
Proof.
  intros Hn [K H]. split; [done|]. intros i k v Hi Hv. destruct (H i k v Hi Hv) as (v' & Hi' & Hl' & Hh').
  exists v'. split_and!; [done..|]. intros l. by rewrite Hh', Hn.
Qed.

(** The labels that the domains put into the service at position [i] *)
Definition domain_puts (spec : LabelSpec) (ds : list SharedDomain) (services : Mapping) (i : nat) (l : string) : Prop :=
  ∃ d, d ∈ ds ∧ service_index (default "" (sd_service_name d)) services = Some i ∧ l ∈ create_domain_labels spec d.

Lemma inject_domains_spec spec ds m m' :
  lsp_runtime spec = RtCompose → inject_domains spec ds m = Ok m' → labels_added (domain_puts spec ds m) m m'.
Proof.
  intros Hr. revert m. induction ds as [|d ds IH]; intros m; simpl.
  { intros [= <-]. split; [done|]. intros i k v Hi Hv. exists v. split_and!; [done..|]. unfold domain_puts. set_solver. }
  intros (m1 & Hd & H)%let_ok. apply update_service_spec in Hd as (i & k & v & v' & Hidx & Hi & Hf & ->).
  apply let_ok in Hf as (w & Hw & [Hl2 Hh2]%add_network_labels). apply IH in H.
  eapply labels_added_ext; [|eapply labels_added_trans; [|exact H]].
  2: { apply (labels_added_alter (λ j l, j = i ∧ l ∈ create_domain_labels spec d) i m k v v' Hi); [|naive_solver].
       intros Hv. destruct (inject_labels_spec spec d v w Hr Hv Hw) as [Hl1 Hh1]. split; [congruence|].
       intros l. unfold has_label in *. rewrite Hh2, Hh1. naive_solver. }
  intros j l. unfold domain_puts. setoid_rewrite elem_of_cons.
  setoid_rewrite (service_index_keys _ (alter (set_value v') i m) m (alter_keys _ _ _)). naive_solver.
Qed.
Lemma inject_networks_spec sns m m' : inject_networks sns m = Ok m' → labels_added (λ _ _, False) m m'.
Proof.
  revert m. induction sns as [|sn sns IH]; intros m; simpl.
  { intros [= <-]. split; [done|]. intros i k v Hi Hv. exists v. split_and!; [done..|]. naive_solver. }
  intros (m1 & (i & k & v & v' & Hidx & Hi & [Hl Hh]%add_networks_labels & ->)%update_service_spec & H%IH)%let_ok.
  eapply labels_added_ext; [|eapply labels_added_trans; [|exact H]]; [|apply (labels_added_alter (λ _ _, False) i m k v v' Hi)];
    [naive_solver | | naive_solver].
  intros Hv. split; [congruence|]. intros l. unfold has_label. rewrite Hh. naive_solver.
Qed.

(** When the labels of a compose project with domains are written into its file, the Traefik
    labels of a service whose labels are a list are afterwards exactly those of the domains that
    lead to it: the old ones are gone, all of the new ones are there, and its other labels are
    as they were. *)
Theorem service_labels_replaced spec services services' i k v :
  lsp_runtime spec = RtCompose → lsp_domains spec ≠ [] → inject_services spec services = Ok services' →
  services !! i = Some (k, v) → list_labels v = true →
  ∃ v', services' !! i = Some (k, v')
    ∧ ∀ l, has_label v' l ↔ (has_label v l ∧ starts_with "traefik." l = false)
                            ∨ domain_puts spec (lsp_domains spec) services i l.
Proof.
  intros Hr Hds Hok Hi Hv. unfold inject_services in Hok.
  assert (∀ A (x y : A), (match lsp_domains spec with [] => x | _ => y end) = y) as E by (by destruct (lsp_domains spec)).
  rewrite E in Hok. apply let_ok in Hok as (m1 & H1%(inject_domains_spec spec) & H2%inject_networks_spec); [|done].
  destruct (strip_service_labels v "" Hv) as [Hsl _].
  assert (strip_traefik_labels_from_services services !! i = Some (k, strip_service v)) as Hsi.
  { assert (strip_traefik_labels_from_services services = (λ p, (p.1, strip_service p.2)) <$> services) as -> by done.
    by rewrite list_lookup_fmap, Hi. }
  destruct (labels_added_trans _ _ _ _ _ H1 H2) as [_ H]. destruct (H i k _ Hsi Hsl) as (v' & Hi' & _ & Hh).
  exists v'. split; [done|]. intros l. rewrite Hh, (proj2 (strip_service_labels v l Hv)).
  assert (service_index_eq : ∀ n, service_index n (strip_traefik_labels_from_services services) = service_index n services).
  { intros n. apply service_index_keys. unfold strip_traefik_labels_from_services, mmap_values. clear.
    induction services as [|p m IH]; [done|]. simpl. by f_equal. }
  unfold domain_puts. setoid_rewrite service_index_eq. naive_solver.
Qed.

(** ** Examples *)

Definition text_list (l : list string) : Value := VSequence (map VString l).
Definition object (l : list (string * Value)) : Value := VMapping (map (λ p, (VString p.1, p.2)) l).
Definition web_domain : SharedDomain :=
  mkSharedDomain "7" "site.example.com" false 3000 (Some "web") "/" "/" false None "NONE" None [].
Definition one_domain (runtime : ComposeRuntime) : LabelSpec := mkLabelSpec "site" runtime [web_domain] [].
Definition old_labels : Value := text_list ["traefik.http.routers.site-5.rule=x"; "keep=me"].
Definition old_service : Value := object [("image", VString "nginx"); ("labels", old_labels)].
Definition old_services : Mapping := [(VString "web", old_service); (VString "db", object [])].
Definition ok_services (r : result Mapping ExecError) : Mapping := match r with Ok m => m | Err _ => [] end.

Lemma service_labels_replaced_witness :
  ∃ v', ok_services (inject_services (one_domain RtCompose) old_services) !! 0 = Some (VString "web", v')
        ∧ ¬ has_label v' "traefik.http.routers.site-5.rule=x" ∧ has_label v' "keep=me" ∧ has_label v' "traefik.enable=true".
Proof.
  destruct (service_labels_replaced (one_domain RtCompose) old_services
              (ok_services (inject_services (one_domain RtCompose) old_services)) 0 (VString "web") old_service
              eq_refl ltac:(discriminate) ltac:(vm_compute; reflexivity) eq_refl eq_refl) as (v' & Hi & Hh).
  exists v'. split; [exact Hi|]. clear Hi. split_and!.
  - intros [[_ H]|(d & Hd & _ & Hl)]%Hh; [vm_compute in H; discriminate|]. apply list_elem_of_singleton in Hd as ->.
    revert Hl. apply (bool_decide_eq_false _). vm_compute. reflexivity.
  - apply Hh. left. split; [apply list_elem_of_In; right; left; reflexivity | vm_compute; reflexivity].
  - apply Hh. right. exists web_domain. split; [by apply list_elem_of_here|]. split; [vm_compute; reflexivity|].
    apply (bool_decide_eq_true _). vm_compute. reflexivity.
Defined.

(** When the last domain goes, its labels stay: they are removed only when there are domains. *)
Example last_domain_stays_labelled :
  inject_services (mkLabelSpec "site" RtCompose [] []) old_services = Ok old_services.
Proof. vm_compute. reflexivity. Qed.
(** In a stack the labels are below [deploy], where old ones are not removed. *)
Example stack_keeps_old_labels :
  let service := object [("deploy", object [("labels", old_labels)])] in
  match inject_services (one_domain RtStack) [(VString "web", service)] with
  | Ok [(_, VMapping m)] =>
      match mget "deploy" m with
      | Some v => existsb (λ l, value_eqb l (VString "traefik.http.routers.site-5.rule=x")) (label_list v)
      | None => false
      end
  | _ => false
  end = true.
Proof. vm_compute. reflexivity. Qed.
(** After the services were given a suffix, a domain no longer finds its service. *)
Example renamed_service_is_missing :
  inject_services (one_domain RtCompose)
    (rename_services "abc" [(VString "web", object []); (VString "db", object [])])
  = Err (CommandFailed "domain site.example.com points to missing compose service 'web'").
Proof. vm_compute. reflexivity. Qed.

(** ** Labels of an application

    [application_traefik_labels] of [utils/builder/application/stack.rs]: the labels of the domains
    of an application with the middlewares that its redirects, its password protection and its
    structured middlewares define; and [build_compose_service_labels] of
    [utils/builder/compose/labels.rs], from the rows of the domains of a stack.
    [middlewares_are_defined] says that a router refers to no middleware of the application that is
    not defined. *)

Record RedirectSpec := mkRedirect { rd_key : string; rd_regex : string; rd_replacement : string; rd_permanent : bool }.
Inductive StructuredMiddlewareSpec :=
  | SmCompress (name : string)
  | SmHeaders (name : string) (headers : list (string * string))
  | SmRateLimit (name : string) (average burst : Z)
  | SmIpAllowList (name : string) (source_ranges : list string).
Definition sm_name (m : StructuredMiddlewareSpec) : string :=
  match m with SmCompress name | SmHeaders name _ | SmRateLimit name _ _ | SmIpAllowList name _ => name end.

(** The part of [ApplicationSpec] that the labels come from *)
Record RoutedApplication := mkRoutedApplication {
  ra_app_name : string; ra_domains : list SharedDomain; ra_networks : list string; ra_redirects : list RedirectSpec;
  ra_basic_auth : list (string * string); ra_middlewares : list StructuredMiddlewareSpec }.

Definition redirect_name (app : RoutedApplication) (r : RedirectSpec) : string :=
  ra_app_name app +:+ "-redirect-" +:+ rd_key r.
Definition basic_auth_name (app : RoutedApplication) : option string :=
  match ra_basic_auth app with [] => None | _ => Some (ra_app_name app +:+ "-basic-auth") end.
(** The names that are added to the middlewares of every domain *)
Definition added_names (app : RoutedApplication) : list string :=
  map (redirect_name app) (ra_redirects app) ++ option_list (basic_auth_name app) ++ map sm_name (ra_middlewares app).
Definition shared_domain (app : RoutedApplication) (d : SharedDomain) : SharedDomain :=
  mkSharedDomain (sd_key d) (sd_host d) (sd_https d) (sd_port d) (sd_service_name d) (sd_path d) (sd_internal_path d)
    (sd_strip_path d) (sd_entrypoint d) (sd_certificate_type d) (sd_custom_cert_resolver d)
    (sd_middlewares d ++ added_names app).

Definition OPENOXIDE_NETWORK : string := "openoxide-network".
Definition traefik_network (app : RoutedApplication) : string :=
  if existsb (λ n, bool_decide (n = OPENOXIDE_NETWORK)) (ra_networks app) then OPENOXIDE_NETWORK
  else default OPENOXIDE_NETWORK (head (ra_networks app)).

Definition structured (m : StructuredMiddlewareSpec) : Middleware :=
  match m with
  | SmCompress name => Compress name
  | SmHeaders name headers => RequestHeaders name headers
  | SmRateLimit name average burst => RateLimit name average burst
  | SmIpAllowList name source_ranges => IpAllowList name source_ranges
  end.
Definition typed_middlewares (app : RoutedApplication) : list Middleware :=
  map (λ r, RedirectRegex (redirect_name app r) (rd_regex r) (rd_replacement r) (rd_permanent r)) (ra_redirects app)
  ++ match basic_auth_name app with Some name => [BasicAuth name (ra_basic_auth app)] | None => [] end
  ++ map structured (ra_middlewares app).

Definition reconcile_labels : list string → list string := deduplicate_labels_by_key.

(** The labels of the services are flattened in the order in which the map lists them. *)
Definition application_traefik_labels (app : RoutedApplication) : list string :=
  let shared_domains := map (shared_domain app) (ra_domains app) in
  let traefik_map := build_traefik_labels_for_network (ra_app_name app) shared_domains (traefik_network app) in
  let labels := reconcile_labels (concat (map_to_list traefik_map).*2) in
  reconcile_labels (labels ++ concat (map (λ m, build (tb_middleware m ∅)) (typed_middlewares app))).

(** ** The labels of a stack, from the rows of its domains *)

(** [as u16] *)
Definition as_u16 (z : Z) : Z := (z mod 65536)%Z.
Definition row_domain (d : DomainRecord) : option SharedDomain :=
  match dom_service_name d with
  | Some name =>
      if str_is_empty name then None
      else Some (mkSharedDomain (i64_to_string (dom_id d)) (dom_host d) (negb (dom_https d =? 0)%Z)
                   (as_u16 (default 3000%Z (dom_port d))) (dom_service_name d) (default "/" (dom_path d))
                   (default "/" (dom_internal_path d)) (negb (dom_strip_path d =? 0)%Z) (dom_custom_entrypoint d)
                   (dom_certificate_type d) (dom_custom_cert_resolver d) [])
  | None => None
  end.
Definition build_compose_service_labels (app_name : string) (domains : list DomainRecord) : gmap string (list string) :=
  build_traefik_labels app_name (omap row_domain domains).

(** ** Facts *)

(** Reconciling keeps a label for every name. *)
Lemma by_key_some labels m k :
  is_Some (m !! k) ∨ k ∈ map label_key labels → is_Some (by_key labels m !! k).
Proof.
  revert m. induction labels as [|l labels IH]; intros m; simpl; [intros [?|H]; [done | by apply elem_of_nil in H]|].
  intros H. apply IH. destruct (decide (label_key l = k)) as [->|Hne].
  - left. rewrite lookup_insert_eq. by eexists.
  - rewrite lookup_insert_ne by done. destruct H as [H|H]; [by left|]. right. set_solver.
Qed.
Lemma reconcile_keeps labels label :
  label ∈ labels → ∃ label', label' ∈ reconcile_labels labels ∧ label_key label' = label_key label.
Proof.
  intros Hl. destruct (by_key_some labels ∅ (label_key label)) as [l' Hl'].
  { right. apply elem_of_mapb. by exists label. }
  exists l'. split.
  - unfold reconcile_labels, deduplicate_labels_by_key. apply list_elem_of_fmap. exists (label_key label, l').
    split; [done|]. by apply elem_of_entries.
  - by apply (by_key_ok labels ∅ (map_Forall_empty _)).
Qed.
Lemma tb_middleware_labels m k v :
  (k, v) ∈ mw_labels m → ∃ v', (tb_middleware m ∅ : gmap string string) !! k = Some v'.
Proof.
  unfold tb_middleware. generalize (∅ : gmap string string).
  assert (∀ l (b : gmap string string), is_Some (b !! k) ∨ (∃ v, (k, v) ∈ l) →
            is_Some (foldl (λ (b : gmap string string) '(k, v), <[k := v]> b) b l !! k)) as H.
  { induction l as [|[k' v'] l IH]; intros b; simpl; [intros [?|[? H]]; [done | by apply elem_of_nil in H]|].
    intros H. apply IH. destruct (decide (k' = k)) as [->|Hne]; [left; rewrite lookup_insert_eq; by eexists|].
    rewrite lookup_insert_ne by done. destruct H as [H|[w H]]; [by left | right; exists w; set_solver]. }
  intros b Hin. apply H. right. by exists v.
Qed.

(** Every label of a middleware of the application is there, up to a later one of the same name. *)
Lemma middleware_labels_kept app m k v :
  m ∈ typed_middlewares app → (k, v) ∈ mw_labels m → equals ∉ chars k →
  ∃ label, label ∈ application_traefik_labels app ∧ label_key label = k.
Proof.
  intros Hm Hk Hek. destruct (tb_middleware_labels m k v Hk) as [v' Hv'].
  unfold application_traefik_labels. cbv zeta. set (labels := reconcile_labels (concat _)).
  destruct (reconcile_keeps (labels ++ concat (map (λ m, build (tb_middleware m ∅)) (typed_middlewares app))) (label_text (k, v')))
    as (l & Hl & Hkey).
  - apply elem_of_app. right. apply list_elem_of_In, in_concat. exists (build (tb_middleware m ∅)). split.
    + apply list_elem_of_In, elem_of_mapb. by exists m.
    + apply list_elem_of_In. unfold build. apply elem_of_mapb. exists (k, v'). split; [done|]. by apply elem_of_entries.
  - exists l. split; [done|]. by rewrite Hkey, label_key_text.
Qed.

(** The middleware defines something: header names are needed for one that sets headers. *)
Definition defines (m : Middleware) : bool := match mw_labels m with [] => false | _ => true end.
Definition plain_names (app : RoutedApplication) : Prop :=
  ∀ m k v, m ∈ typed_middlewares app → (k, v) ∈ mw_labels m → equals ∉ chars k.

(** Whatever middleware an application adds to its routers is defined by one of its labels. *)
Theorem middlewares_are_defined app name :
  plain_names app → forallb defines (typed_middlewares app) = true → name ∈ added_names app →
  ∃ label rest, label ∈ application_traefik_labels app ∧ label_key label = mw_key name rest.
Proof.
  intros Hp Hd Hn. rewrite forallb_elem in Hd.
  assert (∃ m, m ∈ typed_middlewares app ∧ ∀ k v, (k, v) ∈ mw_labels m → ∃ rest, k = mw_key name rest) as (m & Hm & Hkeys).
  { unfold added_names in Hn. unfold typed_middlewares. rewrite !elem_of_app in Hn. destruct Hn as [Hn|[Hn|Hn]].
    - apply elem_of_mapb in Hn as (r & -> & Hr). eexists. split; [rewrite !elem_of_app; left; apply elem_of_mapb; by exists r|].
      intros k v. simpl. rewrite !elem_of_cons, elem_of_nil. intros [?|[?|[?|[]]]]; simplify_eq; by eexists.
    - destruct (basic_auth_name app) as [n|]; [|by apply elem_of_nil in Hn]. apply list_elem_of_singleton in Hn as ->.
      eexists. split; [rewrite !elem_of_app; right; left; by apply list_elem_of_here|].
      intros k v. simpl. rewrite elem_of_cons, elem_of_nil. intros [?|[]]; simplify_eq. by eexists.
    - apply elem_of_mapb in Hn as (s & -> & Hs). exists (structured s).
      split; [rewrite !elem_of_app; right; right; apply elem_of_mapb; by exists s|].
      intros k v. destruct s as [n|n headers|n a b|n ranges]; simpl; rewrite ?elem_of_cons, ?elem_of_nil.
      + intros [?|[]]; simplify_eq. by eexists.
      + intros ([hk hv] & ? & _)%elem_of_mapb. simplify_eq. by eexists.
      + intros [?|[?|[]]]; simplify_eq; by eexists.
      + intros [?|[]]; simplify_eq. by eexists. }
  specialize (Hd m Hm). unfold defines in Hd. destruct (mw_labels m) as [|[k v] l] eqn:E; [done|].
  assert ((k, v) ∈ mw_labels m) as Hin by (rewrite E; by apply list_elem_of_here).
  destruct (Hkeys k v) as [rest ->]; [by rewrite <-E|].
  destruct (middleware_labels_kept app m _ v Hm Hin) as (label & Hl & Hk); [by eapply Hp|]. by exists label, rest.
Qed.

(** ** Examples *)

Definition sample_app : RoutedApplication :=
  mkRoutedApplication "api" [mkSharedDomain "1" "example.test" false 3000 None "/" "/" false None "NONE" None []]
    ["openoxide-network"] [mkRedirect "1" "^https://old.example/(.*)" "https://new.example/$1" true]
    [("admin", "$2b$12$example")] [SmCompress "gzip"].

Lemma middlewares_are_defined_witness :
  ∃ label rest, label ∈ application_traefik_labels sample_app ∧ label_key label = mw_key "api-basic-auth" rest.
Proof.
  apply (middlewares_are_defined sample_app "api-basic-auth"); [|vm_compute; reflexivity | by apply (bool_decide_eq_true _)].
  intros m k v Hm Hk. assert (forallb (λ m, forallb (λ p, bool_decide (equals ∉ chars p.1)) (mw_labels m)) (typed_middlewares sample_app) = true)
    as H by (vm_compute; reflexivity).
  pose proof (proj1 (forallb_elem _ _) H m Hm) as H1. pose proof (proj1 (forallb_elem _ _) H1 _ Hk) as H2.
  by apply bool_decide_eq_true in H2.
Defined.
(** The password of the label is written for a file in which [$$] stands for [$]; a redirect is not. *)
Example dollars_of_labels :
  filter (λ l, contains "users=" l || contains "replacement=" l = true) (application_traefik_labels sample_app)
  = ["traefik.http.middlewares.api-basic-auth.basicauth.users=admin:$$2b$$12$$example";
     "traefik.http.middlewares.api-redirect-1.redirectregex.replacement=https://new.example/$1"].
Proof. vm_compute. reflexivity. Qed.
(** A middleware for headers without headers has no label, and the routers refer to it. *)
Example empty_headers_are_undefined :
  let app := mkRoutedApplication "api" (ra_domains sample_app) [] [] [] [SmHeaders "secure" []] in
  existsb (contains "middlewares.secure") (application_traefik_labels app) = false
  ∧ existsb (contains "routers.api-1.middlewares=secure") (application_traefik_labels app) = true.
Proof. vm_compute. done. Qed.
