(* ===== verification/AgentFilter.v ===== *)
(** * Which containers the agent watches

    [agent/src/filter.rs]: the patterns of [INCLUDE_CONTAINERS] and
    [EXCLUDE_CONTAINERS], the glob matcher with its backtracking loop, and the decision
    [should_monitor].  The loop is modelled with its indices; [glob] is the declarative
    meaning of a pattern, and [glob_match_meaning] shows that the loop decides it for
    every name without a star, which is every name a container engine accepts. *)

From stdpp Require Import gmap strings list.
From Stdlib Require Import ZArith Lia Ascii.
From S2P Require Import Prelude RustStr RustText.

Record ContainerFilter := mkContainerFilter {
  cf_include : list string;
  cf_exclude : list string;
}.

Notation star_char := "*"%char (only parsing).

(** ** The matcher

    The local variables of [glob_match]. *)
Record GlobState := mkGlobState {
  pi : nat;
  ti : nat;
  star : option nat;
  star_consumed : nat;
}.

(** The slice test [pi < p.len() && p[pi] == c] *)
Definition byte_is (p : list ascii) (i : nat) (c : ascii) : bool := bool_decide (p !! i = Some c).

(** One turn of the first loop: the next state, or [None] for [return false]. *)
Definition glob_step (p : list ascii) (c : ascii) (st : GlobState) : option GlobState :=
  if byte_is p (pi st) c then Some (mkGlobState (S (pi st)) (S (ti st)) (star st) (star_consumed st))
  else if byte_is p (pi st) star_char then Some (mkGlobState (S (pi st)) (ti st) (Some (pi st)) (ti st))
  else match star st with
       | Some star_pi =>
           Some (mkGlobState (S star_pi) (S (star_consumed st)) (Some star_pi) (S (star_consumed st)))
       | None => None
       end.

(** The second loop skips stars to the end of the pattern. *)
Fixpoint only_stars (p : list ascii) : bool :=
  match p with [] => true | c :: p' => is_char star_char c && only_stars p' end.

(** [None] when the fuel does not suffice, which [glob_loop_answers] excludes. *)
Fixpoint glob_loop (fuel : nat) (p t : list ascii) (st : GlobState) : option bool :=
  match fuel with
  | O => None
  | S fuel' =>
      match t !! ti st with
      | None => Some (only_stars (drop (pi st) p))
      | Some c => match glob_step p c st with
                  | Some st' => glob_loop fuel' p t st'
                  | None => Some false
                  end
      end
  end.

(** Every turn moves the star forward, or its consumed part, or the position in the text. *)
Definition glob_fuel (p t : list ascii) : nat :=
  S ((length p + 2) * ((length t + 2) * (length t + 2))).

Definition glob_match (pattern text : string) : bool :=
  let p := chars pattern in
  let t := chars text in
  default false (glob_loop (glob_fuel p t) p t (mkGlobState 0 0 None 0)).

(** ** The filter *)

Definition should_monitor (f : ContainerFilter) (name : string) : bool :=
  if existsb (λ p, glob_match p name) (cf_exclude f) then false
  else match cf_include f with
       | [] => true
       | include => existsb (λ p, glob_match p name) include
       end.

Definition is_unset (f : ContainerFilter) : bool :=
  match cf_include f, cf_exclude f with [], [] => true | _, _ => false end.

Definition parse_patterns (raw : string) : list string :=
  List.filter (λ s, negb (str_is_empty s)) (map trim (split_on (is_char ",") raw)).

(** ** The meaning of a pattern *)

Inductive glob : list ascii → list ascii → Prop :=
| glob_nil : glob [] []
| glob_byte c p t : c ≠ star_char → glob p t → glob (c :: p) (c :: t)
| glob_star p t u : glob p u → glob (star_char :: p) (t ++ u).

Lemma glob_star_inv p t : glob (star_char :: p) t ↔ ∃ k, k ≤ length t ∧ glob p (drop k t).
Proof.
  split.
  - inversion 1; subst; [done|]. eexists (length _).
    rewrite drop_app_length, length_app. split; [lia|done].
  - intros (k & _ & H). rewrite <- (take_drop k t). by constructor.
Qed.

Lemma glob_byte_inv c p t : c ≠ star_char → glob (c :: p) t ↔ ∃ t', t = c :: t' ∧ glob p t'.
Proof.
  intros Hc. split.
  - inversion 1; subst; [eauto|done].
  - intros (t' & -> & H). by constructor.
Qed.

Lemma glob_nil_inv t : glob [] t ↔ t = [].
Proof. split; [by inversion 1|intros ->; constructor]. Qed.

(** A run of bytes without a star is read literally. *)
Lemma glob_literal l p t : star_char ∉ l → glob (l ++ p) t ↔ ∃ t', t = l ++ t' ∧ glob p t'.
Proof.
  revert t. induction l as [|c l IH]; intros t Hl; simpl.
  { split; [eauto|by intros (? & -> & ?)]. }
  apply not_elem_of_cons in Hl as [Hc Hl]. rewrite glob_byte_inv by congruence.
  setoid_rewrite (IH _ Hl). split.
  - intros (? & -> & t' & -> & H). eauto.
  - intros (t' & -> & H). eauto.
Qed.

Lemma only_stars_glob p : only_stars p = true ↔ glob p [].
Proof.
  induction p as [|c p IH]; simpl; [split; [constructor|done]|].
  rewrite andb_true_iff, is_char_spec, IH. split.
  - intros [<- H]. apply glob_star_inv. by exists 0.
  - intros H. destruct (decide (c = star_char)) as [->|Hc].
    + apply glob_star_inv in H as (k & _ & H). rewrite drop_nil in H. done.
    + apply glob_byte_inv in H as (? & ? & _); done.
Qed.

(** ** The loop decides the meaning *)

Section loop.
Context (p t : list ascii).
Hypothesis no_star : star_char ∉ t.

(** The matches that are still possible from a state: go on from here, or give the last
    star more of the text. *)
Definition possible (st : GlobState) : Prop :=
  glob (drop (pi st) p) (drop (ti st) t) ∨
  ∃ s k, star st = Some s ∧ star_consumed st < k ≤ length t ∧ glob (drop (S s) p) (drop k t).

(** What was read after the last star is literal text. *)
Definition loop_inv (st : GlobState) : Prop :=
  ti st ≤ length t ∧ star_consumed st ≤ ti st ∧
  ∀ s, star st = Some s → s < pi st ∧ s < length p ∧
    ∃ l, drop (S s) p = l ++ drop (pi st) p ∧ drop (star_consumed st) t = l ++ drop (ti st) t.

Definition measure_of (st : GlobState) : nat :=
  let m := length t + 2 in
  match star st with Some s => length p - s | None => length p + 1 end * (m * m)
  + (length t - star_consumed st) * m + (length t - ti st).

Lemma literal_no_star l k u : drop k t = l ++ u → star_char ∉ l.
Proof.
  intros E Hl. apply no_star. rewrite <- (take_drop k t), E, !elem_of_app. auto.
Qed.

Lemma byte_is_true q i c : byte_is q i c = true ↔ q !! i = Some c.
Proof. unfold byte_is. by rewrite bool_decide_eq_true. Qed.

Lemma byte_is_drop q i c : byte_is q i c = true → drop i q = c :: drop (S i) q.
Proof. rewrite byte_is_true. intros H. by rewrite (drop_S _ _ _ H). Qed.

(** Case 1: the byte of the pattern is the byte of the text. *)
Lemma step_byte st c :
  loop_inv st → t !! ti st = Some c → byte_is p (pi st) c = true →
  let st' := mkGlobState (S (pi st)) (S (ti st)) (star st) (star_consumed st) in
  loop_inv st' ∧ measure_of st' < measure_of st ∧ (possible st ↔ possible st').
Proof.
  intros (Ht & Hc & Hs) Hb Hp; simpl. pose proof (lookup_lt_Some _ _ _ Hb) as Hlt.
  apply byte_is_drop in Hp as Ep. pose proof (drop_S _ _ _ Hb) as Et.
  assert (c ≠ star_char) as Hns.
  { intros ->. by apply no_star, (list_elem_of_lookup_2 _ _ _ Hb). }
  unfold loop_inv, measure_of, possible; simpl; split_and!.
  - lia.
  - lia.
  - intros s E. destruct (Hs s E) as (H1 & H2 & l & E1 & E2). split_and!; [lia|done|].
    exists (l ++ [c]). rewrite E1, E2, Ep, Et, <- !app_assoc. done.
  - apply Nat.add_lt_mono_l. lia.
  - rewrite Ep, Et. rewrite glob_byte_inv by done. split; (intros [H|H]; [left|by right]).
    + by destruct H as (? & [= <-] & ?).
    + eauto.
Qed.

(** Case 2: a star.  What an earlier star could still give, this one can: the literal
    between them has to come first. *)
Lemma step_star st c :
  loop_inv st → t !! ti st = Some c → byte_is p (pi st) star_char = true →
  let st' := mkGlobState (S (pi st)) (ti st) (Some (pi st)) (ti st) in
  loop_inv st' ∧ measure_of st' < measure_of st ∧ (possible st ↔ possible st').
Proof.
  intros (Ht & Hc & Hs) Hb Hp; simpl. pose proof (lookup_lt_Some _ _ _ Hb) as Hlt.
  apply byte_is_drop in Hp as Ep. apply byte_is_true, lookup_lt_Some in Hp.
  unfold loop_inv, measure_of, possible; simpl; split_and!.
  - lia.
  - lia.
  - intros s [= <-]. split_and!; [lia|done|]. by exists [].
  - destruct (star st) as [s|]; [specialize (Hs s eq_refl); nia|nia].
  - rewrite Ep, glob_star_inv. split.
    + intros [(k & Hk & H)|(s & k & E & Hk & H)].
      * rewrite length_drop in Hk. rewrite drop_drop in H.
        destruct k as [|k]; [left; by rewrite Nat.add_0_r in H|right].
        exists (pi st), (ti st + S k). split_and!; [done|lia|lia|done].
      * destruct (Hs s E) as (H1 & H2 & l & E1 & E2).
        rewrite E1, Ep, glob_literal in H by eauto using literal_no_star.
        destruct H as (t' & Et & H). apply glob_star_inv in H as (j & Hj & H). right.
        assert (length l = ti st - star_consumed st) as Hl.
        { apply (f_equal length) in E2. rewrite length_app, !length_drop in E2. lia. }
        assert (length t' = length t - k - length l) as Hl'.
        { apply (f_equal length) in Et. rewrite length_app, length_drop in Et. lia. }
        exists (pi st), (k + length l + j).
        assert (k + length l ≤ length t).
        { apply (f_equal length) in Et. rewrite length_app, length_drop in Et. lia. }
        split_and!; [done|lia|lia|].
        rewrite <- !drop_drop, Et, drop_app_length. done.
    + intros [H|(s & k & [= <-] & Hk & H)]; left.
      * exists 0. split; [lia|done].
      * exists (k - ti st). rewrite length_drop, drop_drop. split; [lia|].
        by replace (ti st + (k - ti st)) with k by lia.
Qed.

Lemma mismatch st c :
  t !! ti st = Some c → byte_is p (pi st) c = false → byte_is p (pi st) star_char = false →
  ¬ glob (drop (pi st) p) (drop (ti st) t).
Proof.
  intros Hb H1 H2 H. rewrite (drop_S _ _ _ Hb) in H.
  destruct (p !! pi st) as [d|] eqn:E.
  - rewrite (drop_S _ _ _ E) in H. apply not_true_iff_false in H1, H2.
    rewrite byte_is_true, E in H1, H2.
    apply glob_byte_inv in H as (? & [= <-] & _); congruence.
  - apply lookup_ge_None in E. rewrite drop_ge in H by lia. by apply glob_nil_inv in H.
Qed.

(** Case 3: back to the last star, which takes one byte more. *)
Lemma step_back st c s :
  loop_inv st → t !! ti st = Some c → star st = Some s →
  byte_is p (pi st) c = false → byte_is p (pi st) star_char = false →
  let st' := mkGlobState (S s) (S (star_consumed st)) (Some s) (S (star_consumed st)) in
  loop_inv st' ∧ measure_of st' < measure_of st ∧ (possible st ↔ possible st').
Proof.
  intros (Ht & Hc & Hs) Hb E H1 H2; simpl. pose proof (lookup_lt_Some _ _ _ Hb) as Hlt.
  destruct (Hs s E) as (Hsp & Hlen & _).
  unfold loop_inv, measure_of, possible; simpl; split_and!.
  - lia.
  - lia.
  - intros s' [= <-]. split_and!; [lia|done|]. by exists [].
  - rewrite E. nia.
  - pose proof (mismatch st c Hb H1 H2). rewrite E. split.
    + intros [?|(s' & k & [= <-] & Hk & H')]; [done|].
      destruct (decide (k = S (star_consumed st))) as [->|]; [by left|right].
      exists s, k. split_and!; [done|lia|lia|done].
    + intros [H'|(s' & k & [= <-] & Hk & H')]; right.
      * exists s, (S (star_consumed st)). split_and!; [done|lia|lia|done].
      * exists s, k. split_and!; [done|lia|lia|done].
Qed.

(** At the end of the text only stars may be left: an earlier star that took more would
    leave too little for the literal after it. *)
Lemma at_end st :
  loop_inv st → t !! ti st = None → possible st ↔ only_stars (drop (pi st) p) = true.
Proof.
  intros (Ht & Hc & Hs) Hb. apply lookup_ge_None in Hb. rewrite only_stars_glob.
  unfold possible. rewrite (drop_ge t (ti st)) by lia. split; [|by left].
  intros [H|(s & k & E & Hk & H)]; [done|]. exfalso.
  destruct (Hs s E) as (H1 & H2 & l & E1 & E2).
  rewrite E1, glob_literal in H by eauto using literal_no_star.
  destruct H as (t' & Et & _).
  apply (f_equal length) in Et, E2. rewrite length_app, length_drop in Et, E2.
  rewrite length_drop in E2. lia.
Qed.

Lemma glob_loop_spec fuel st :
  loop_inv st → measure_of st < fuel →
  ∃ b, glob_loop fuel p t st = Some b ∧ (b = true ↔ possible st).
Proof.
  revert st. induction fuel as [|fuel IH]; intros st Hi Hf; [lia|]. simpl.
  destruct (t !! ti st) as [c|] eqn:Hb.
  2:{ eexists. split; [done|]. by rewrite (at_end st Hi Hb). }
  assert (∀ st', loop_inv st' ∧ measure_of st' < measure_of st ∧ (possible st ↔ possible st') →
    ∃ b, glob_loop fuel p t st' = Some b ∧ (b = true ↔ possible st)) as next.
  { intros st' (H1 & H2 & H3). setoid_rewrite H3. apply IH; [done|lia]. }
  unfold glob_step. destruct (byte_is p (pi st) c) eqn:E1.
  { by apply next, (step_byte _ c). }
  destruct (byte_is p (pi st) star_char) eqn:E2.
  { by apply next, (step_star _ c). }
  destruct (star st) as [s|] eqn:E3.
  { by apply next, (step_back _ c). }
  exists false. split; [done|]. split; [done|].
  intros [H|(s & k & E & _)]; [by apply (mismatch st c) in H|congruence].
Qed.
End loop.

Lemma loop_inv_start p t : loop_inv p t (mkGlobState 0 0 None 0).
Proof. unfold loop_inv; simpl. split_and!; [lia|lia|done]. Qed.

(** The loop ends for every pattern and every name without a star. *)
Lemma glob_loop_answers p t :
  star_char ∉ t → ∃ b, glob_loop (glob_fuel p t) p t (mkGlobState 0 0 None 0) = Some b ∧ (b = true ↔ glob p t).
Proof.
  intros H. destruct (glob_loop_spec p t H (glob_fuel p t) (mkGlobState 0 0 None 0)
    (loop_inv_start p t)) as (b & E & Hb).
  { unfold measure_of, glob_fuel; simpl. nia. }
  exists b. split; [done|]. rewrite Hb. unfold possible; simpl. rewrite !drop_0.
  split; [intros [?|(? & ? & ? & _)]; done|by left].
Qed.

(** C19: For every pattern and every container name without a star the backtracking matcher
    ends, and answers whether the pattern matches: a star any text, every other byte itself. *)
Theorem glob_match_meaning pattern text :
  star_char ∉ chars text →
  glob_loop (glob_fuel (chars pattern) (chars text)) (chars pattern) (chars text)
    (mkGlobState 0 0 None 0) = Some (glob_match pattern text) ∧
  (glob_match pattern text = true ↔ glob (chars pattern) (chars text)).
Proof.
  intros H. destruct (glob_loop_answers (chars pattern) (chars text) H) as (b & E & Hb).
  unfold glob_match. rewrite E. done.
Qed.

Lemma glob_match_meaning_witness :
  glob_match "*a*b*" "xxayybzz" = true ∧ glob (chars "*a*b*") (chars "xxayybzz").
Proof.
  split; [vm_compute; reflexivity|].
  apply (glob_match_meaning "*a*b*" "xxayybzz"); [|vm_compute; reflexivity].
  apply (bool_decide_unpack _). vm_compute. exact I.
Defined.

(** A container is watched exactly when no exclude pattern matches its name and, if there are
    include patterns, one of them does. *)
Lemma should_monitor_meaning f name :
  star_char ∉ chars name →
  should_monitor f name = true ↔
    (∀ q, q ∈ cf_exclude f → ¬ glob (chars q) (chars name)) ∧
    (cf_include f = [] ∨ ∃ q, q ∈ cf_include f ∧ glob (chars q) (chars name)).
Proof.
  intros H.
  assert (∀ q, glob_match q name = true ↔ glob (chars q) (chars name)) as M.
  { intros q. destruct (glob_loop_answers (chars q) _ H) as (b & E & Hb).
    unfold glob_match. by rewrite E. }
  unfold should_monitor. destruct (existsb _ (cf_exclude f)) eqn:E.
  - split; [done|]. intros [Hx _]. apply existsb_elem in E as (q & Hq & Hm).
    apply M in Hm. by destruct (Hx q Hq).
  - rewrite existsb_false in E.
    assert (∀ q, q ∈ cf_exclude f → ¬ glob (chars q) (chars name)) as Hx.
    { intros q Hq. rewrite <- M. by rewrite (E q Hq). }
    destruct (cf_include f) as [|i l]; [by split; auto|].
    rewrite existsb_elem. split.
    + intros (q & Hq & Hm). split; [done|]. right. exists q. by rewrite <- M.
    + intros [_ [?|(q & Hq & Hm)]]; [done|]. exists q. by rewrite M.
Qed.

(** No pattern read from the environment is empty. *)
Lemma parse_patterns_nonempty raw q : q ∈ parse_patterns raw → q ≠ "".
Proof.
  unfold parse_patterns. rewrite elem_of_filterb. intros [_ H] ->. done.
Qed.

(** The matcher compares the two bytes before it looks for a star, so a star in the name ends
    the wildcard: the pattern [*a] does not match [*ba]. *)
Example star_in_the_name : glob_match "*a" "*ba" = false ∧ glob (chars "*a") (chars "*ba").
Proof.
  split; [vm_compute; reflexivity|]. change (glob [star_char; "a"%char] (["*"; "b"]%char ++ ["a"%char])).
  apply glob_star, glob_byte; [done|constructor].
Qed.
