(* ===== verification/AgentLogs.v ===== *)
(** * Container logs

    [agent/src/logs.rs] and the log handler of [agent/src/grpc.rs]: the body of the
    container engine is either plain text or a sequence of frames, each with an eight-byte
    header (stream, three zeros, big-endian length).  [demux_frames] is the round trip: the
    lines of every framed payload come out in order, each with its stream, and a body cut
    inside the last frame still gives what arrived of it. *)

From stdpp Require Import gmap strings list.
From Stdlib Require Import ZArith Lia Ascii.
From S2P Require Import Prelude RustStr RustText.

Definition FRAME_HEADER_LEN : nat := 8.
Definition STREAM_STDERR : N := 2.

Definition newline_char : ascii := ascii_of_N 10.

(** [body[i]] *)
Definition byte_at (body : list ascii) (i : nat) : N := default 0%N (N_of_ascii <$> body !! i).

(** [u32::from_be_bytes] *)
Definition u32_from_be (b0 b1 b2 b3 : N) : N := (((b0 * 256 + b1) * 256 + b2) * 256 + b3)%N.

(** [split(|b| *b == b'\n')] without the empty pieces, each piece read as text *)
Definition text_lines (bytes : list ascii) : list string :=
  map (λ line, trim_end (of_chars (from_utf8_lossy (chars line))))
    (List.filter (λ line, negb (str_is_empty line)) (split_on (is_char newline_char) (of_chars bytes))).

Definition looks_multiplexed (body : list ascii) : bool :=
  if length body <? FRAME_HEADER_LEN then false
  else if (STREAM_STDERR <? byte_at body 0)%N then false
  else ((byte_at body 1 =? 0) && (byte_at body 2 =? 0) && (byte_at body 3 =? 0))%N.

(** The loop over the frames.  Every turn that goes on moves [offset] by more than a header,
    so the length of the body is fuel enough ([demux_loop_fuel]). *)
Fixpoint demux_loop (fuel : nat) (body : list ascii) (offset : nat) : list (bool * string) :=
  match fuel with
  | O => []
  | S fuel' =>
      if length body <? offset + FRAME_HEADER_LEN then []
      else
        let stream_type := byte_at body offset in
        let len := u32_from_be (byte_at body (offset + 4)) (byte_at body (offset + 5))
                     (byte_at body (offset + 6)) (byte_at body (offset + 7)) in
        let start := offset + FRAME_HEADER_LEN in
        let stop := N.to_nat (N.min (N.of_nat start + len) (N.of_nat (length body))) in
        if stop <=? start then []
        else map (pair (stream_type =? STREAM_STDERR)%N) (text_lines (take (stop - start) (drop start body)))
             ++ demux_loop fuel' body stop
  end.

Definition demux_log_stream (body : list ascii) : list (bool * string) :=
  if looks_multiplexed body then demux_loop (S (length body)) body 0
  else map (pair false) (text_lines body).

(** [tail_container_logs]: the body is the answer of the container engine, or its error. *)
Definition tail_container_logs {E} (body : result (list ascii) E) : list string :=
  match body with
  | Ok body => map snd (demux_log_stream body)
  | Err _ => []
  end.

Record LogChunk := mkLogChunk {
  lc_container_id : string;
  lc_log_line : string;
  lc_timestamp : Z;
  lc_is_stderr : bool;
}.

Definition DEFAULT_TAIL_LINES : Z := 100.

(** The number of lines [stream_logs] asks the engine for *)
Definition requested_tail (tail_lines : Z) : Z :=
  if (0 <? tail_lines)%Z then tail_lines else DEFAULT_TAIL_LINES.

(** The messages [stream_logs] sends, as long as the client listens *)
Definition stream_logs {E} (container_id : string) (timestamp : Z) (body : result (list ascii) E)
    : list LogChunk :=
  map (λ line, mkLogChunk container_id line timestamp false) (tail_container_logs body).

(** ** Framing *)

(** [u32::to_be_bytes] *)
Definition u32_to_be (n : N) : list ascii :=
  [ascii_of_N (n / 16777216); ascii_of_N (n / 65536 mod 256); ascii_of_N (n / 256 mod 256); ascii_of_N (n mod 256)].

Definition header (stream : N) (len : N) : list ascii :=
  [ascii_of_N stream; "000"%char; "000"%char; "000"%char] ++ u32_to_be len.

(** A frame: the stream and what was written to it *)
Definition frame (f : N * list ascii) : list ascii :=
  header f.1 (N.of_nat (length f.2)) ++ f.2.

Definition frame_lines (f : N * list ascii) : list (bool * string) :=
  map (pair (f.1 =? STREAM_STDERR)%N) (text_lines f.2).

(** The frames an engine writes: stdin, stdout or stderr, not empty, of a length 32 bits hold. *)
Definition frame_ok (f : N * list ascii) : Prop :=
  (f.1 ≤ 2)%N ∧ f.2 ≠ [] ∧ (N.of_nat (length f.2) < 2 ^ 32)%N.

Lemma u32_be_roundtrip n :
  (n < 2 ^ 32)%N →
  u32_from_be (N_of_ascii (ascii_of_N (n / 16777216))) (N_of_ascii (ascii_of_N (n / 65536 mod 256)))
    (N_of_ascii (ascii_of_N (n / 256 mod 256))) (N_of_ascii (ascii_of_N (n mod 256))) = n.
Proof.
  intros H. rewrite !N_ascii_embedding.
  - unfold u32_from_be.
    pose proof (N.div_mod' n 256). pose proof (N.div_mod' (n / 256) 256).
    pose proof (N.div_mod' (n / 256 / 256) 256).
    rewrite !N.Div0.div_div in *. change (256 * 256)%N with 65536%N in *.
    change (65536 * 256)%N with 16777216%N in *. lia.
  - apply N.mod_lt. done.
  - apply N.mod_lt. done.
  - apply N.mod_lt. done.
  - apply N.Div0.div_lt_upper_bound. change (2 ^ 32)%N with (16777216 * 256)%N in H. lia.
Qed.

Lemma length_header s n : length (header s n) = 8.
Proof. done. Qed.

Lemma length_frame f : length (frame f) = 8 + length f.2.
Proof. unfold frame. by rewrite length_app, length_header. Qed.

Lemma byte_at_app pre l i : byte_at (pre ++ l) (length pre + i) = byte_at l i.
Proof. unfold byte_at. rewrite lookup_app_r by lia. by replace (length pre + i - length pre) with i by lia. Qed.

(** One turn reads one frame, of which the engine has sent [present]; only the last frame may
    be incomplete. *)
Lemma demux_turn fuel pre s n present post :
  (s ≤ 2)%N → (n < 2 ^ 32)%N → present ≠ [] → length present ≤ N.to_nat n →
  length present = N.to_nat n ∨ post = [] →
  let body := pre ++ header s n ++ present ++ post in
  demux_loop (S fuel) body (length pre) =
  map (pair (s =? STREAM_STDERR)%N) (text_lines present)
  ++ demux_loop fuel body (length pre + 8 + length present).
Proof.
  intros Hs Hn Hp Hle Hpost body. cbn [demux_loop]. unfold FRAME_HEADER_LEN.
  assert (length body = length pre + 8 + length present + length post) as Hlen.
  { unfold body. rewrite !length_app, length_header. lia. }
  assert (0 < length present) by (destruct present; [done|simpl; lia]).
  rewrite (proj2 (Nat.ltb_ge _ _)) by lia.
  assert (∀ i, byte_at body (length pre + i) = byte_at (header s n ++ present ++ post) i) as Hb
    by (intros i; apply byte_at_app).
  assert (byte_at body (length pre) = s) as ->.
  { rewrite <- (Nat.add_0_r (length pre)), Hb.
    change (N_of_ascii (ascii_of_N s) = s). apply N_ascii_embedding. lia. }
  rewrite !Hb.
  change (u32_from_be _ _ _ _) with (u32_from_be (N_of_ascii (ascii_of_N (n / 16777216)))
    (N_of_ascii (ascii_of_N (n / 65536 mod 256))) (N_of_ascii (ascii_of_N (n / 256 mod 256)))
    (N_of_ascii (ascii_of_N (n mod 256)))).
  rewrite (u32_be_roundtrip n Hn).
  replace (N.to_nat (N.min (N.of_nat (length pre + 8) + n) (N.of_nat (length body))))
    with (length pre + 8 + length present) by (destruct Hpost as [?| ->]; simpl in *; lia).
  rewrite (proj2 (Nat.leb_gt _ _)) by lia. f_equal. do 2 f_equal.
  replace (length pre + 8 + length present - (length pre + 8)) with (length present) by lia.
  unfold body. rewrite <- drop_drop, drop_app_length. apply take_app_length.
Qed.

(** What is left is too short for a header and a byte. *)
Lemma demux_stop fuel pre rest : length rest ≤ 8 → demux_loop fuel (pre ++ rest) (length pre) = [].
Proof.
  intros H. destruct fuel; [done|]. cbn [demux_loop]. unfold FRAME_HEADER_LEN.
  destruct (_ <? _) eqn:E; [done|]. apply Nat.ltb_ge in E. rewrite length_app in *.
  rewrite (proj2 (Nat.leb_le _ _)) by lia. done.
Qed.

Lemma demux_loop_frames fuel pre fs rest :
  Forall frame_ok fs →
  demux_loop (length fs + fuel) (pre ++ concat (map frame fs) ++ rest) (length pre) =
  concat (map frame_lines fs)
  ++ demux_loop fuel (pre ++ concat (map frame fs) ++ rest) (length pre + length (concat (map frame fs))).
Proof.
  intros Hok. revert pre. induction Hok as [|f fs (Hs & Hne & Hl) _ IH]; intros pre.
  { simpl. by rewrite Nat.add_0_r. }
  specialize (IH (pre ++ frame f)). rewrite (length_app pre (frame f)) in IH.
  cbn [map concat length]. set (tl := concat (map frame fs)) in *.
  rewrite <- (app_assoc (frame f) tl rest). rewrite <- (app_assoc pre (frame f)) in IH.
  rewrite length_app, Nat.add_assoc, <- app_assoc. change (S (length fs) + fuel) with (S (length fs + fuel)).
  rewrite <- IH. unfold frame_lines at 1, frame at 1 2. rewrite <- (app_assoc (header _ _)).
  rewrite (demux_turn (length fs + fuel) pre f.1 (N.of_nat (length f.2)) f.2 (tl ++ rest)) by (try done; lia).
  f_equal. f_equal. rewrite length_frame. lia.
Qed.

Lemma frames_long fs : Forall frame_ok fs → 9 * length fs ≤ length (concat (map frame fs)).
Proof.
  induction 1 as [|f fs (_ & Hne & _) _ IH]; [done|].
  cbn [map concat length]. rewrite length_app, length_frame.
  destruct f.2; [done|simpl in *; lia].
Qed.

Lemma multiplexed_header s n l : (s ≤ 2)%N → looks_multiplexed (header s n ++ l) = true.
Proof.
  intros Hs. unfold looks_multiplexed. rewrite length_app, length_header.
  rewrite (proj2 (Nat.ltb_ge _ _)) by (unfold FRAME_HEADER_LEN; lia).
  change (byte_at (header s n ++ l) 0) with (N_of_ascii (ascii_of_N s)).
  rewrite N_ascii_embedding by lia. by rewrite (proj2 (N.ltb_ge _ _)).
Qed.

Lemma multiplexed_frames f fs rest :
  frame_ok f → looks_multiplexed (concat (map frame (f :: fs)) ++ rest) = true.
Proof.
  intros (Hs & _). cbn [map concat]. unfold frame at 1. rewrite <- !app_assoc.
  by apply multiplexed_header.
Qed.

(** More fuel than the rest of the body has bytes changes nothing. *)
Lemma demux_loop_fuel fuel extra body offset :
  length body - offset < fuel → demux_loop (fuel + extra) body offset = demux_loop fuel body offset.
Proof.
  revert offset. induction fuel as [|fuel IH]; intros offset H; [lia|].
  cbn [Nat.add demux_loop]. destruct (_ <? _) eqn:E; [done|].
  destruct (_ <=? _) eqn:E'; [done|]. apply Nat.leb_gt in E'. apply Nat.ltb_ge in E.
  f_equal. apply IH. unfold FRAME_HEADER_LEN in *. lia.
Qed.

Lemma demux_loop_body fs rest :
  Forall frame_ok fs →
  let body := concat (map frame fs) ++ rest in
  ∃ fuel, demux_loop (S (length body)) body 0 =
    concat (map frame_lines fs) ++ demux_loop (S fuel) body (length (concat (map frame fs))).
Proof.
  intros Hok body. pose proof (frames_long fs Hok) as Hl.
  assert (length fs ≤ length body) by (unfold body; rewrite length_app; lia).
  exists (length body - length fs).
  pose proof (demux_loop_frames (S (length body - length fs)) [] fs rest Hok) as E. simpl in E.
  replace (length fs + S (length body - length fs)) with (S (length body)) in E by lia. exact E.
Qed.

(** A body of log frames is read back: the lines of every frame, in order, each with the stream
    it was written to; fewer bytes than a header and one more add nothing, and a frame that is
    cut short gives the lines of the part that is there. *)
Theorem demux_frames f fs :
  Forall frame_ok (f :: fs) →
  (∀ rest, length rest ≤ 8 →
     demux_log_stream (concat (map frame (f :: fs)) ++ rest) = concat (map frame_lines (f :: fs))) ∧
  (∀ s n present, (s ≤ 2)%N → (n < 2 ^ 32)%N → present ≠ [] → length present ≤ N.to_nat n →
     demux_log_stream (concat (map frame (f :: fs)) ++ header s n ++ present) =
     concat (map frame_lines (f :: fs)) ++ map (pair (s =? STREAM_STDERR)%N) (text_lines present)).
Proof.
  intros Hok. assert (frame_ok f) as Hf by (by inversion Hok).
  split; intros.
  - unfold demux_log_stream. rewrite multiplexed_frames by done.
    destruct (demux_loop_body (f :: fs) rest Hok) as (fuel & ->).
    by rewrite demux_stop, app_nil_r.
  - unfold demux_log_stream. rewrite multiplexed_frames by done.
    destruct (demux_loop_body (f :: fs) (header s n ++ present) Hok) as (fuel & ->). f_equal.
    rewrite <- (app_nil_r present) at 1 2.
    rewrite (demux_turn fuel (concat (map frame (f :: fs))) s n present []) by auto.
    rewrite app_nil_r. set (pre := concat _).
    pose proof (demux_stop fuel (pre ++ header s n ++ present) []) as E.
    rewrite !app_nil_r, !length_app, length_header in E. rewrite Nat.add_assoc in E.
    rewrite E by (simpl; lia). apply app_nil_r.
Qed.

Definition sample_frames : list (N * list ascii) :=
  [(1%N, chars "hello" ++ [newline_char]); (2%N, chars "oops" ++ [newline_char])].

Lemma sample_frames_ok : Forall frame_ok sample_frames.
Proof. repeat constructor; simpl; (done || lia). Qed.

Lemma demux_frames_witness :
  demux_log_stream (concat (map frame sample_frames) ++ header 1 100 ++ chars "short") =
  [(false, "hello"); (true, "oops"); (false, "short")].
Proof.
  etransitivity.
  - apply (proj2 (demux_frames _ _ sample_frames_ok)); simpl; (done || lia).
  - vm_compute. reflexivity.
Defined.

(** Without a frame header the body is plain text. *)
Lemma demux_plain body :
  looks_multiplexed body = false → demux_log_stream body = map (pair false) (text_lines body).
Proof. unfold demux_log_stream. by intros ->. Qed.

(** An empty frame ends the decoding: the frames after it are lost. *)
Example empty_frame_ends_the_log :
  demux_log_stream (frame (1%N, chars "one") ++ frame (1%N, []) ++ frame (1%N, chars "two"))
  = [(false, "one")].
Proof. vm_compute. reflexivity. Qed.

(** A line of stderr is sent with the stderr flag off. *)
Example stderr_flag_is_lost :
  demux_log_stream (frame (2%N, chars "oops")) = [(true, "oops")] ∧
  map lc_is_stderr (stream_logs (E := unit) "c" 0 (Ok (frame (2%N, chars "oops")))) = [false].
Proof. split; vm_compute; reflexivity. Qed.

(** The flag of the messages does not depend on the log at all. *)
Lemma stream_logs_never_stderr {E} id ts (body : result (list ascii) E) c :
  c ∈ stream_logs id ts body → lc_is_stderr c = false ∧ lc_container_id c = id ∧ lc_timestamp c = ts.
Proof. unfold stream_logs. rewrite list_elem_of_fmap. by intros (? & -> & _). Qed.
