(* ===== verification/AgentDocker.v ===== *)
(** * What the container engine reports

    [agent/src/docker/types.rs]: identifiers and names of containers, and the counters of
    [GET /containers/{id}/stats] with the percentages and sums the agent derives from them.
    Counters are 64-bit; additions wrap, as the release profile has overflow checks off. *)

From stdpp Require Import gmap strings list.
From Stdlib Require Import ZArith Lia Ascii.
From S2P Require Import Prelude RustStr RustText F64.

(** ** 64-bit counters *)

Definition u64_modulus : Z := 2 ^ 64.
Definition u64_add (a b : Z) : Z := ((a + b) mod u64_modulus)%Z.
Definition u64_saturating_sub (a b : Z) : Z := Z.max 0 (a - b).

(** [n as f64] of a [u64]: above 2^63 the lowest bit is kept as a sticky bit while the value is
    halved, which rounds as the conversion of the whole value does. *)
Definition f64_of_u64 (n : Z) : f64 :=
  if (n <? 2 ^ 63)%Z then f64_of_Z n
  else f64_mul (f64_of_Z (Z.lor (Z.shiftr n 1) (Z.land n 1))) (f64_of_Z 2).

Definition f64_zero : f64 := f64_of_Z 0.
Definition f64_hundred : f64 := f64_of_Z 100.

(** [str::parse::<u64>] and [str::parse::<u32>]: an optional plus, digits, in range *)
Definition parse_unsigned (modulus : Z) (s : string) : option Z :=
  let value := match s with String "+" s' => unsigned_value s' | _ => unsigned_value s end in
  match value with
  | Some z => if (z <? modulus)%Z then Some z else None
  | None => None
  end.
Definition parse_u64 : string → option Z := parse_unsigned u64_modulus.

(** ** Containers *)

(** [ContainerId::short]: [get(..12)] is [None] past the end and inside a character. *)
Definition short (id : string) : string :=
  let bytes := chars id in
  if length bytes <? 12 then id
  else match bytes !! 12 with
       | Some c => if continuation c then id else of_chars (take 12 bytes)
       | None => of_chars (take 12 bytes)
       end.

Record ContainerSummary := mkContainerSummary {
  cs_id : string;
  cs_names : list string;
  cs_labels : gmap string string;
  cs_state : string;
  cs_status : string;
}.

Definition display_name (c : ContainerSummary) : string :=
  match cs_names c with
  | n :: _ => trim_start_char "/" n
  | [] => short (cs_id c)
  end.

(** ** Counters of one container *)

Record CpuStats := mkCpuStats {
  cpu_total : Z;
  cpu_percpu : list Z;
  cpu_system_usage : Z;
  cpu_online : Z;
}.

Record MemoryStats := mkMemoryStats {
  mem_usage : Z;
  mem_limit : Z;
  mem_stats : gmap string Z;
}.

Record NetworkStats := mkNetworkStats { rx_bytes : Z; tx_bytes : Z }.
Record BlkioEntry := mkBlkioEntry { op : string; value : Z }.

Record ContainerStats := mkContainerStats {
  st_cpu : CpuStats;
  st_precpu : CpuStats;
  st_memory : MemoryStats;
  st_networks : gmap string NetworkStats;
  st_io_service_bytes : option (list BlkioEntry);
}.

(** [Option::or_else] *)
Definition or_else {A} (o o' : option A) : option A := match o with Some _ => o | None => o' end.

Definition used_bytes (m : MemoryStats) : Z :=
  let cache := default 0%Z
    (or_else (mem_stats m !! "inactive_file")
      (or_else (mem_stats m !! "total_inactive_file") (mem_stats m !! "cache"))) in
  u64_saturating_sub (mem_usage m) cache.

Definition used_percent (m : MemoryStats) : f64 :=
  if (mem_limit m =? 0)%Z then f64_zero
  else f64_mul (f64_div (f64_of_u64 (used_bytes m)) (f64_of_u64 (mem_limit m))) f64_hundred.

Definition core_count (s : ContainerStats) : f64 :=
  if (0 <? cpu_online (st_cpu s))%Z then f64_of_u64 (cpu_online (st_cpu s))
  else match cpu_percpu (st_cpu s) with
       | [] => f64_of_Z 1
       | percpu => f64_of_Z (Z.of_nat (length percpu))
       end.

Definition cpu_percent (s : ContainerStats) : f64 :=
  let cpu_delta := f64_of_u64 (u64_saturating_sub (cpu_total (st_cpu s)) (cpu_total (st_precpu s))) in
  let system_delta :=
    f64_of_u64 (u64_saturating_sub (cpu_system_usage (st_cpu s)) (cpu_system_usage (st_precpu s))) in
  if f64_leb system_delta f64_zero || f64_leb cpu_delta f64_zero then f64_zero
  else f64_mul (f64_mul (f64_div cpu_delta system_delta) (core_count s)) f64_hundred.

(** The fold over the values of the map, in whatever order it presents them *)
Definition add_network (acc : Z * Z) (n : NetworkStats) : Z * Z :=
  (u64_add acc.1 (rx_bytes n), u64_add acc.2 (tx_bytes n)).
Definition network_bytes (s : ContainerStats) : Z * Z :=
  foldl add_network (0, 0)%Z (map_to_list (st_networks s)).*2.

Definition add_entry (acc : Z * Z) (e : BlkioEntry) : Z * Z :=
  let op := to_ascii_lowercase (op e) in
  if bool_decide (op = "read") then (u64_add acc.1 (value e), acc.2)
  else if bool_decide (op = "write") then (acc.1, u64_add acc.2 (value e))
  else acc.
Definition block_io_bytes (s : ContainerStats) : Z * Z :=
  match st_io_service_bytes s with
  | None => (0, 0)%Z
  | Some entries => foldl add_entry (0, 0)%Z entries
  end.

(** ** What holds of them *)

(** Nothing the engine reports makes the used memory larger than the usage or negative. *)
Lemma used_bytes_bounds m :
  (0 ≤ mem_usage m)%Z → map_Forall (λ _ v, 0 ≤ v)%Z (mem_stats m) → (0 ≤ used_bytes m ≤ mem_usage m)%Z.
Proof.
  intros Hu Hs. unfold used_bytes, u64_saturating_sub.
  assert (∀ k, 0 ≤ default 0 (mem_stats m !! k))%Z as Hk.
  { intros k. destruct (mem_stats m !! k) eqn:E; simpl; [by apply Hs in E|lia]. }
  pose proof (Hk "inactive_file"). pose proof (Hk "total_inactive_file"). pose proof (Hk "cache").
  destruct (mem_stats m !! "inactive_file"); simpl in *; [lia|].
  destruct (mem_stats m !! "total_inactive_file"); simpl in *; [lia|].
  destruct (mem_stats m !! "cache"); simpl in *; lia.
Qed.

(** A counter that went backwards, or did not move, gives no load. *)
Lemma cpu_percent_backwards s :
  (cpu_total (st_cpu s) ≤ cpu_total (st_precpu s))%Z ∨
  (cpu_system_usage (st_cpu s) ≤ cpu_system_usage (st_precpu s))%Z →
  cpu_percent s = f64_zero.
Proof.
  assert (∀ a b, (a ≤ b)%Z → u64_saturating_sub a b = 0%Z) as Z0
    by (unfold u64_saturating_sub; intros; lia).
  assert (f64_leb (f64_of_u64 0) f64_zero = true) as L by reflexivity.
  intros H. unfold cpu_percent.
  destruct H as [H|H]; rewrite (Z0 _ _ H), L; [by rewrite orb_true_r|done].
Qed.

Lemma u64_add_shuffle a b c : u64_add (u64_add a b) c = u64_add (u64_add a c) b.
Proof.
  unfold u64_add, u64_modulus. rewrite !Zplus_mod_idemp_l. f_equal. lia.
Qed.

Lemma foldl_perm {A B} (f : A → B → A) l l' a :
  (∀ a x y, f (f a x) y = f (f a y) x) → l ≡ₚ l' → foldl f a l = foldl f a l'.
Proof.
  intros Hf H. revert a. induction H as [| | |? ? ? _ IH1 _ IH2]; intros a; simpl; auto.
  - by rewrite Hf.
  - by rewrite IH1.
Qed.

(** The sums do not depend on the order of the map. *)
Lemma network_bytes_order s l :
  l ≡ₚ (map_to_list (st_networks s)).*2 → network_bytes s = foldl add_network (0, 0)%Z l.
Proof.
  intros H. unfold network_bytes. apply (foldl_perm add_network); [|by symmetry].
  intros a x y. unfold add_network; simpl. f_equal; apply u64_add_shuffle.
Qed.
