(* ===== verification/AgentStream.v ===== *)
(** * Statistics streams

    [agent/src/docker/json_lines.rs] and [agent/src/docker/stream.rs]: the accumulator that
    cuts a byte stream into JSON documents, and the reconciliation of the running streams
    with the containers the engine lists.  The JSON reader is a parameter.
    [documents_survive_chunking] shows that the documents come out once each and in order
    however the stream is cut into chunks. *)

From stdpp Require Import gmap strings list.
From Stdlib Require Import ZArith Lia Ascii.
From S2P Require Import Prelude RustStr RustText AgentFilter AgentDocker.

Definition brace : ascii := "}".
Definition newline_byte : ascii := ascii_of_N 10.

(** [str::rfind] of a character *)
Fixpoint rfind (c : ascii) (l : list ascii) : option nat :=
  match l with
  | [] => None
  | d :: l' => match rfind c l' with
               | Some i => Some (S i)
               | None => if is_char c d then Some 0 else None
               end
  end.

Section accumulator.
Context {T : Type} (from_str : list ascii → option T).

(** [while let Some(brace) = self.buffer[..search_end].rfind('}')]; [search_end] decreases, so
    the length of the buffer is fuel enough. *)
Fixpoint take_one_loop (fuel : nat) (buffer : list ascii) (search_end : nat)
    : option (T * list ascii) :=
  match fuel with
  | O => None
  | S fuel' =>
      match rfind brace (take search_end buffer) with
      | None => None
      | Some i =>
          match from_str (take (S i) buffer) with
          | Some value => Some (value, drop (S i) buffer)
          | None => take_one_loop fuel' buffer i
          end
      end
  end.

(** The value and the buffer without it, [None] when no document is complete *)
Definition take_one (buffer : list ascii) : option (T * list ascii) :=
  take_one_loop (S (length buffer)) buffer (length buffer).

(** The loop of [push]; each turn that goes on shortens the buffer. *)
Fixpoint drain (fuel : nat) (buffer : list ascii) : list T * list ascii :=
  match fuel with
  | O => ([], buffer)
  | S fuel' =>
      match take_one buffer with
      | None => ([], buffer)
      | Some (value, buffer') => let '(values, rest) := drain fuel' buffer' in (value :: values, rest)
      end
  end.

Definition push (buffer chunk : list ascii) : list T * list ascii :=
  let buffer := buffer ++ from_utf8_lossy chunk in
  drain (S (length buffer)) buffer.

(** The chunks of a stream, one after the other *)
Fixpoint push_all (buffer : list ascii) (chunks : list (list ascii)) : list T * list ascii :=
  match chunks with
  | [] => ([], buffer)
  | chunk :: chunks' =>
      let '(values, buffer') := push buffer chunk in
      let '(values', rest) := push_all buffer' chunks' in
      (values ++ values', rest)
  end.

(** ** Documents *)

(** A text that the reader accepts and that ends with a closing brace *)
Definition document (d : list ascii) (v : T) : Prop :=
  last d = Some brace ∧ from_str d = Some v.

(** No document is complete in the buffer. *)
Definition starved (buffer : list ascii) : Prop :=
  ∀ d v rest, buffer = d ++ rest → ¬ document d v.

Lemma rfind_spec c l i : rfind c l = Some i → l !! i = Some c ∧ ∀ j, i < j → l !! j ≠ Some c.
Proof.
  revert i. induction l as [|d l IH]; intros i; simpl; [done|].
  destruct (rfind c l) as [k|] eqn:E.
  - intros [= <-]. destruct (IH k eq_refl) as [H1 H2]. split; [done|].
    intros [|j] Hj; [lia|]. apply H2. lia.
  - destruct (is_char c d) eqn:Ec; [|done]. intros [= <-].
    apply is_char_spec in Ec as ->. split; [done|]. intros [|j] Hj Hl; [lia|].
    clear IH. revert j Hj Hl. simpl. induction l as [|e l IH]; intros j Hj Hl; [done|].
    simpl in E. destruct (rfind d l) eqn:E'; [done|].
    destruct (is_char d e) eqn:Ee; [done|]. apply is_char_false in Ee.
    destruct j as [|j]; simpl in Hl; [congruence|]. by apply (IH eq_refl j ltac:(lia)).
Qed.

Lemma rfind_None c l : rfind c l = None → c ∉ l.
Proof.
  induction l as [|d l IH]; simpl; [by intros _ ?%elem_of_nil|].
  destruct (rfind c l); [done|]. destruct (is_char c d) eqn:E; [done|].
  apply is_char_false in E. rewrite not_elem_of_cons. auto.
Qed.

Lemma last_brace d i buffer rest :
  buffer = d ++ rest → length d = S i → last d = Some brace → buffer !! i = Some brace.
Proof.
  intros -> Hl H. rewrite last_lookup in H. rewrite Hl in H. simpl in H.
  rewrite lookup_app_l by lia. done.
Qed.

(** The loop finds the longest document in the buffer that ends before [search_end]. *)
Lemma take_one_loop_spec fuel buffer search_end :
  search_end < fuel → search_end ≤ length buffer →
  match take_one_loop fuel buffer search_end with
  | Some (v, rest) => ∃ d, buffer = d ++ rest ∧ document d v
  | None => ∀ d v rest, buffer = d ++ rest → length d ≤ search_end → ¬ document d v
  end.
Proof.
  revert search_end. induction fuel as [|fuel IH]; intros e Hf He; [lia|]. simpl.
  destruct (rfind brace (take e buffer)) as [i|] eqn:E.
  - apply rfind_spec in E as [H1 H2].
    pose proof (lookup_lt_Some _ _ _ H1) as Hi. rewrite length_take in Hi.
    rewrite lookup_take_lt in H1 by lia.
    destruct (from_str (take (S i) buffer)) as [v|] eqn:Ev.
    + exists (take (S i) buffer). split; [by rewrite take_drop|]. split; [|done].
      rewrite (take_S_r _ _ _ H1). apply last_snoc.
    + specialize (IH i ltac:(lia) ltac:(lia)). destruct (take_one_loop _ _ _) as [[v rest]|]; [done|].
      intros d v rest Hd Hl Hdoc.
      destruct (decide (length d ≤ i)) as [|Hgt]; [by apply (IH d v rest)|].
      destruct (decide (length d = S i)) as [Hs|].
      * destruct Hdoc as [_ Hdoc]. rewrite Hd, <- Hs, take_app_length in Ev. congruence.
      * destruct Hdoc as [Hlast _].
        apply (H2 (length d - 1)); [lia|]. rewrite lookup_take_lt by lia.
        apply (last_brace d (length d - 1) buffer rest Hd); [lia|done].
  - apply rfind_None in E. intros d v rest Hd Hl [Hlast _]. apply E.
    rewrite last_lookup in Hlast. apply list_elem_of_lookup. exists (pred (length d)).
    assert (0 < length d) by (destruct d; [done|simpl; lia]).
    rewrite lookup_take_lt by lia. subst buffer. rewrite lookup_app_l by lia. done.
Qed.

Lemma take_one_Some buffer v rest :
  take_one buffer = Some (v, rest) → ∃ d, buffer = d ++ rest ∧ document d v.
Proof.
  intros H. pose proof (take_one_loop_spec (S (length buffer)) buffer (length buffer)) as S.
  unfold take_one in H. rewrite H in S. apply S; lia.
Qed.

Lemma take_one_None buffer : take_one buffer = None → starved buffer.
Proof.
  intros H d v rest Hd. pose proof (take_one_loop_spec (S (length buffer)) buffer (length buffer)) as S.
  unfold take_one in H. rewrite H in S. apply (S ltac:(lia) ltac:(lia) d v rest Hd).
  rewrite Hd, length_app. lia.
Qed.

Lemma document_nonempty d v : document d v → 0 < length d.
Proof. intros [H _]. destruct d; [done|simpl; lia]. Qed.

(** What [push] takes out of its buffer is a sequence of documents, and none is left. *)
Lemma drain_spec fuel buffer values rest :
  length buffer < fuel → drain fuel buffer = (values, rest) →
  ∃ ds, buffer = concat ds ++ rest ∧ Forall2 document ds values ∧ starved rest.
Proof.
  revert buffer values. induction fuel as [|fuel IH]; intros buffer values Hf; [lia|]. simpl.
  destruct (take_one buffer) as [[v buffer']|] eqn:E.
  - apply take_one_Some in E as (d & -> & Hd). pose proof (document_nonempty d v Hd).
    rewrite length_app in Hf. destruct (drain fuel buffer') as [vs r] eqn:Ed. intros [= <- <-].
    destruct (IH buffer' vs ltac:(lia) Ed) as (ds & -> & H1 & H2).
    exists (d :: ds). simpl. rewrite <- app_assoc. auto.
  - intros [= <- <-]. exists []. split_and!; [done|constructor|by apply take_one_None].
Qed.
End accumulator.

(** What the accumulator relies on in a JSON reader: an object is complete at its closing
    brace, so no accepted text is the beginning of a longer accepted one that also ends with a
    brace. *)
Class ObjectReader {T} (from_str : list ascii → option T) : Prop :=
  object_complete d d' v v' :
    document from_str d v → document from_str d' v' → d `prefix_of` d' → d = d'.

Section chunks.
Context {T : Type} (from_str : list ascii → option T) `{!ObjectReader from_str}.

Lemma same_stream d d' v v' x y :
  document from_str d v → document from_str d' v' → d ++ x = d' ++ y → d = d'.
Proof.
  intros Hd Hd' E. destruct (prefix_weak_total d d' (d' ++ y)) as [H|H];
    [rewrite <- E; by exists x|by exists y|..].
  - by apply (object_complete d d' v v').
  - symmetry. by apply (object_complete d' d v' v).
Qed.

(** Documents at the front of a stream of documents are the first documents of it. *)
Lemma front_documents ds values es vs x tail :
  Forall2 (document from_str) ds values → Forall2 (document from_str) es vs → starved from_str tail →
  concat ds ++ x = concat es ++ tail →
  ∃ es' vs', vs = values ++ vs' ∧ Forall2 (document from_str) es' vs' ∧ x = concat es' ++ tail.
Proof.
  intros Hds. revert es vs. induction Hds as [|d v ds values Hd _ IH]; intros es vs Hes Ht E.
  { exists es, vs. done. }
  simpl in E. destruct Hes as [|e w es vs He Hes].
  - simpl in E. destruct (Ht d v (concat ds ++ x)); [by rewrite app_assoc|done].
  - simpl in E. rewrite <- !app_assoc in E.
    pose proof (same_stream d e v w _ _ Hd He E) as <-. apply (inj (app d)) in E.
    assert (v = w) as <- by (destruct Hd as [_ Hd], He as [_ He]; congruence).
    destruct (IH es vs Hes Ht E) as (es' & vs' & -> & H1 & H2). by exists es', vs'.
Qed.

Lemma push_all_spec chunks buffer es vs tail :
  Forall utf8 chunks → starved from_str tail → Forall2 (document from_str) es vs →
  starved from_str buffer →
  buffer ++ concat chunks = concat es ++ tail → push_all from_str buffer chunks = (vs, tail).
Proof.
  intros Hc Ht. revert buffer es vs. induction Hc as [|c chunks Hc _ IH]; intros buffer es vs Hes Hb E; simpl.
  - simpl in E. rewrite app_nil_r in E. destruct Hes as [|e v es vs He Hes]; [by subst|].
    destruct (Hb e v (concat es ++ tail)); [|done]. by rewrite E, app_assoc.
  - unfold push. rewrite (lossy_id c Hc).
    destruct (drain from_str _ _) as [values rest] eqn:Ed.
    destruct (drain_spec from_str _ (buffer ++ c) values rest (Nat.lt_succ_diag_r _) Ed) as (ds & Eb & Hds & Hr).
    simpl in E. rewrite app_assoc, Eb, <- app_assoc in E.
    destruct (front_documents ds values es vs _ tail Hds Hes Ht E) as (es' & vs' & -> & Hes' & E').
    by rewrite (IH rest es' vs' Hes' Hr E').
Qed.

(** A stream of statistics documents gives its documents, once each and in order, however it is
    cut into chunks, as long as no chunk ends inside a character; what follows the last document
    stays in the buffer. *)
Theorem documents_survive_chunking chunks es vs tail :
  Forall2 (document from_str) es vs → starved from_str tail → Forall utf8 chunks →
  concat chunks = concat es ++ tail →
  push_all from_str [] chunks = (vs, tail).
Proof.
  intros Hes Ht Hc E. apply (push_all_spec chunks [] es vs tail); try done.
  intros d v rest Hd H. pose proof (document_nonempty _ d v H). destruct d; [simpl in *; lia|done].
Qed.
End chunks.

(** ** A reader

    Objects without nested objects: white space, an opening brace, and a text whose only
    closing brace is its last byte. *)
Definition flat_object (l : list ascii) : option (list ascii) :=
  match rev l with
  | c :: r =>
      if is_char brace c && negb (bool_decide (brace ∈ r))
         && bool_decide (head (drop_ws ws2 ws3 l) = Some "{"%char)
      then Some (rev r) else None
  | [] => None
  end.

Lemma flat_object_document d v : document flat_object d v → d = v ++ [brace] ∧ brace ∉ v.
Proof.
  intros [_ H]. unfold flat_object in H. destruct (rev d) as [|c r] eqn:E; [done|].
  case_match eqn:Hc; [|done]. injection H as <-.
  rewrite !andb_true_iff, is_char_spec, negb_true_iff, bool_decide_eq_false in Hc.
  destruct Hc as [[<- Hr] _].
  apply (f_equal (@rev ascii)) in E. rewrite rev_involutive in E. simpl in E. split; [done|].
  by rewrite list_elem_of_In, <- in_rev, <- list_elem_of_In.
Qed.

#[export] Instance flat_object_reader : ObjectReader flat_object.
Proof.
  intros d d' v v' Hd Hd' [x E].
  apply flat_object_document in Hd as [-> _], Hd' as [-> H].
  destruct x as [|c x _] using rev_ind; [by rewrite app_nil_r in E|].
  rewrite !app_assoc in E. apply app_inj_tail in E as [-> _].
  destruct H. rewrite !elem_of_app, list_elem_of_singleton. auto.
Qed.

Definition doc_a : list ascii := chars "{a:1}".
Definition doc_b : list ascii := newline_byte :: chars "{b:2}".

Lemma documents_survive_chunking_witness :
  push_all flat_object [] [chars "{a:"; chars "1}" ++ [newline_byte]; chars "{b:2}{c"] =
  ([chars "{a:1"; newline_byte :: chars "{b:2"], chars "{c").
Proof.
  apply (documents_survive_chunking flat_object _ [doc_a; doc_b]).
  - repeat constructor.
  - intros d v rest E [Hl _]. apply (f_equal (λ l, bool_decide (brace ∈ l))) in E.
    rewrite last_lookup in Hl. apply list_elem_of_lookup_2 in Hl.
    rewrite (bool_decide_eq_true_2 (brace ∈ d ++ rest)) in E by (rewrite elem_of_app; auto).
    vm_compute in E. discriminate E.
  - repeat (apply Forall_cons; split); try apply Forall_nil_2; apply lossy_fixed; vm_compute; reflexivity.
  - vm_compute. reflexivity.
Defined.

(** ** Which streams run

    A stream has a cancellation token, here its number.  [st_streams] is the map of
    [ContainerStreamer::run], [spawned] the streams that were started and [cancelled] the
    tokens that were cancelled, both newest first. *)
Record StreamState := mkStreamState {
  st_streams : gmap string nat;
  st_next : nat;
  st_spawned : list (string * string * gmap string string * nat);
  st_cancelled : list nat;
}.

(** The containers of the answer that the filter lets through *)
Definition watched (f : ContainerFilter) (l : list ContainerSummary)
    : list (string * string * gmap string string) :=
  omap (λ c, let name := display_name c in
             if should_monitor f name then Some (cs_id c, name, cs_labels c) else None) l.

Definition start_stream (st : StreamState) (c : string * string * gmap string string) : StreamState :=
  let '(id, name, labels) := c in
  match st_streams st !! id with
  | Some _ => st
  | None => mkStreamState (<[id := st_next st]> (st_streams st)) (S (st_next st))
              ((id, name, labels, st_next st) :: st_spawned st) (st_cancelled st)
  end.

Definition stop_stream (st : StreamState) (id : string) : StreamState :=
  match st_streams st !! id with
  | Some token => mkStreamState (delete id (st_streams st)) (st_next st) (st_spawned st) (token :: st_cancelled st)
  | None => st
  end.

(** The keys that were not seen, in whatever order the map presents them *)
Definition gone (seen : gset string) (streams : gmap string nat) : list string :=
  List.filter (λ id, negb (bool_decide (id ∈ seen))) (map_to_list streams).*1.

Definition reconcile {E} (f : ContainerFilter) (answer : result (list ContainerSummary) E)
    (st : StreamState) : StreamState :=
  match answer with
  | Err _ => st
  | Ok l =>
      let containers := watched f l in
      let seen : gset string := list_to_set (map (λ c, c.1.1) containers) in
      let st' := foldl start_stream st containers in
      foldl stop_stream st' (gone seen (st_streams st'))
  end.

(** Tokens are fresh, a token belongs to one stream, and a running stream is not cancelled. *)
Record streams_ok (st : StreamState) : Prop := {
  so_fresh : map_Forall (λ _ t, t < st_next st) (st_streams st);
  so_inj : ∀ i j t, st_streams st !! i = Some t → st_streams st !! j = Some t → i = j;
  so_live : map_Forall (λ _ t, t ∉ st_cancelled st) (st_streams st);
  so_old : Forall (λ t, t < st_next st) (st_cancelled st);
}.

Lemma start_stream_ok st c : streams_ok st → streams_ok (start_stream st c).
Proof.
  intros [Hf Hi Hl Ho]. destruct c as [[id name] labels]; simpl.
  destruct (st_streams st !! id) as [t|] eqn:E; [done|].
  assert (∀ i t, st_streams st !! i = Some t → t < st_next st) as Hlt by (intros i t; apply Hf).
  split; simpl.
  - apply map_Forall_insert_2; [lia|]. intros i t H. specialize (Hlt i t H). lia.
  - intros i j t. rewrite !lookup_insert_Some.
    intros [[<- <-]|[? H]] [[<- H']|[? H']]; try done; [apply Hlt in H'; lia|subst; apply Hlt in H; lia|eauto].
  - apply map_Forall_insert_2; [|done]. intros H. rewrite Forall_forall in Ho. apply Ho in H. lia.
  - eapply Forall_impl; [done|]. simpl; lia.
Qed.

Lemma stop_stream_ok st id : streams_ok st → streams_ok (stop_stream st id).
Proof.
  intros [Hf Hi Hl Ho]. unfold stop_stream.
  destruct (st_streams st !! id) as [t|] eqn:E; [|done].
  split; simpl.
  - intros i u [? H]%lookup_delete_Some. by apply (Hf i).
  - intros i j u [? H]%lookup_delete_Some [? H']%lookup_delete_Some. eauto.
  - intros i u [Hne H]%lookup_delete_Some. rewrite not_elem_of_cons. split; [|by apply (Hl i)].
    intros ->. destruct Hne. by apply (Hi _ _ t).
  - constructor; [by apply (Hf id)|done].
Qed.

Lemma start_all_lookup cs st id :
  match st_streams st !! id with
  | Some t => st_streams (foldl start_stream st cs) !! id = Some t
  | None => is_Some (st_streams (foldl start_stream st cs) !! id) ↔ id ∈ map (λ c, c.1.1) cs
  end.
Proof.
  revert st. induction cs as [|[[i name] labels] cs IH]; intros st; simpl.
  { destruct (st_streams st !! id) eqn:E; [done|]. rewrite elem_of_nil. by split; [intros [? ?]|]. }
  specialize (IH (start_stream st (i, name, labels))). simpl in IH.
  destruct (st_streams st !! i) as [t|] eqn:Ei.
  - destruct (st_streams st !! id) eqn:E; [done|]. rewrite IH, elem_of_cons.
    split; [auto|]. intros [->|?]; [congruence|done].
  - simpl in IH. destruct (decide (i = id)) as [->|Hne].
    + rewrite lookup_insert_eq in IH. rewrite Ei, IH, elem_of_cons. split; [auto|]. intros _. by eexists.
    + rewrite lookup_insert_ne in IH by done. destruct (st_streams st !! id); [done|].
      rewrite IH, elem_of_cons. split; [auto|]. intros [->|?]; done.
Qed.

Lemma stop_all_lookup ids st id :
  st_streams (foldl stop_stream st ids) !! id =
  if bool_decide (id ∈ ids) then None else st_streams st !! id.
Proof.
  revert st. induction ids as [|i ids IH]; intros st; simpl; [done|]. rewrite IH.
  unfold stop_stream. destruct (bool_decide (id ∈ ids)) eqn:E.
  { apply bool_decide_eq_true in E. rewrite bool_decide_eq_true_2; [done|]. by apply elem_of_cons; right. }
  apply bool_decide_eq_false in E. destruct (decide (id = i)) as [->|Hne].
  - rewrite bool_decide_eq_true_2 by (apply elem_of_cons; auto).
    destruct (st_streams st !! i) eqn:E'; [apply lookup_delete_eq|done].
  - rewrite bool_decide_eq_false_2 by (rewrite elem_of_cons; intros [?|?]; done).
    destruct (st_streams st !! i); simpl; [by rewrite lookup_delete_ne|done].
Qed.

Lemma elem_of_gone seen m id : id ∈ gone seen m ↔ is_Some (m !! id) ∧ id ∉ seen.
Proof.
  unfold gone. rewrite elem_of_filterb, negb_true_iff, bool_decide_eq_false, list_elem_of_fmap.
  split; intros [H ?]; (split; [|done]).
  - destruct H as ([i t] & -> & H). apply elem_of_map_to_list in H. by eexists.
  - destruct H as [t H]. exists (id, t). by rewrite elem_of_map_to_list.
Qed.

Lemma streams_ok_fold {A} (f : StreamState → A → StreamState) l st :
  (∀ st a, streams_ok st → streams_ok (f st a)) → streams_ok st → streams_ok (foldl f st l).
Proof. intros Hf. revert st. induction l; simpl; auto. Qed.

(** After a pass exactly the listed containers that the filter lets through have a stream; a
    stream that was running and is still wanted goes on under its token, and no running stream
    has been cancelled. When the engine does not answer nothing changes. *)
Theorem reconcile_exact {E} f (answer : result (list ContainerSummary) E) st :
  streams_ok st →
  streams_ok (reconcile f answer st) ∧
  match answer with
  | Err _ => reconcile f answer st = st
  | Ok l => ∀ id,
      (is_Some (st_streams (reconcile f answer st) !! id) ↔
         ∃ c, c ∈ l ∧ cs_id c = id ∧ should_monitor f (display_name c) = true) ∧
      (∀ t, st_streams st !! id = Some t → is_Some (st_streams (reconcile f answer st) !! id) →
         st_streams (reconcile f answer st) !! id = Some t)
  end.
Proof.
  intros Hok. destruct answer as [l|e]; [|done]. split.
  { apply streams_ok_fold; [intros; by apply stop_stream_ok|].
    apply streams_ok_fold; [intros; by apply start_stream_ok|done]. }
  intros id. cbn [reconcile]. rewrite stop_all_lookup.
  set (cs := watched f l). set (st' := foldl start_stream st cs).
  assert (id ∈ map (λ c, c.1.1) cs ↔
    ∃ c, c ∈ l ∧ cs_id c = id ∧ should_monitor f (display_name c) = true) as Hw.
  { rewrite elem_of_mapb. unfold cs, watched. setoid_rewrite list_elem_of_omap. split.
    - intros (x & -> & c & Hc & H). exists c. by destruct (should_monitor f _); simplify_eq/=.
    - intros (c & Hc & <- & H). exists (cs_id c, display_name c, cs_labels c).
      split; [done|]. exists c. by rewrite H. }
  pose proof (start_all_lookup cs st id) as Hs. fold st' in Hs.
  assert (id ∈ map (λ c, c.1.1) cs → is_Some (st_streams st' !! id)) as Hin.
  { intros H. destruct (st_streams st !! id); [by eexists|by apply Hs]. }
  split.
  - rewrite <- Hw. case_bool_decide as Hg; rewrite elem_of_gone, elem_of_list_to_set in Hg.
    + split; [by intros [? ?]|]. intros H. by destruct Hg.
    + split; [|done]. intros H. destruct (decide (id ∈ map (λ c, c.1.1) cs)); [done|].
      by destruct Hg.
  - intros t Ht. rewrite Ht in Hs. case_bool_decide; [by intros [? ?]|by rewrite Hs].
Qed.

Definition web_container : ContainerSummary :=
  mkContainerSummary "0123456789abcdef" ["/web"] ∅ "running" "Up".
Definition old_streams : StreamState :=
  mkStreamState {["gone" := 0; "0123456789abcdef" := 1]} 2 [] [].

Lemma old_streams_ok : streams_ok old_streams.
Proof.
  split; simpl.
  - intros i t [[<- <-]|[_ [<- <-]%lookup_singleton_Some]]%lookup_insert_Some; simpl; lia.
  - intros i j t [[<- <-]|[_ [<- <-]%lookup_singleton_Some]]%lookup_insert_Some
      [[<- ?]|[_ [<- ?]%lookup_singleton_Some]]%lookup_insert_Some; done.
  - intros i t _. apply not_elem_of_nil.
  - constructor.
Qed.

Lemma reconcile_exact_witness :
  streams_ok (reconcile (E := unit) (mkContainerFilter [] []) (Ok [web_container]) old_streams) ∧
  st_streams (reconcile (E := unit) (mkContainerFilter [] []) (Ok [web_container]) old_streams)
  = {["0123456789abcdef" := 1]} ∧
  st_cancelled (reconcile (E := unit) (mkContainerFilter [] []) (Ok [web_container]) old_streams) = [0].
Proof.
  split; [|split; vm_compute; reflexivity].
  apply (reconcile_exact (mkContainerFilter [] []) (Ok [web_container]) old_streams old_streams_ok).
Defined.
