(* ===== verification/AgentStore.v ===== *)
(** * The metric store of the agent

    [agent/src/store.rs]: two queues of rows in memory, a counter for their ids, and the
    five-minute session window.  The clock is an argument, in nanoseconds; the reader of
    RFC 3339 timestamps is a parameter.  A [RwLock] guards each queue, so an operation on one
    queue is one step; the counter is atomic. *)

From stdpp Require Import gmap strings list.
From Stdlib Require Import ZArith Lia Sorted.
From S2P Require Import Prelude RustStr F64.

Definition SESSION_WINDOW_MINUTES : Z := 5.

Record ServerMetric := mkServerMetric {
  sm_id : option Z;
  sm_timestamp : string;
  sm_cpu : f64;
  sm_cpu_model : string;
  sm_cpu_cores : Z;
  sm_cpu_physical_cores : Z;
  sm_cpu_speed : f64;
  sm_os : string;
  sm_distro : string;
  sm_kernel : string;
  sm_arch : string;
  sm_mem_used : f64;
  sm_mem_used_gb : f64;
  sm_mem_total : f64;
  sm_uptime : Z;
  sm_disk_used : f64;
  sm_total_disk : f64;
  sm_network_in : f64;
  sm_network_out : f64;
}.

Record ContainerMetricRow := mkContainerMetricRow {
  cm_id : option Z;
  cm_timestamp : string;
  cm_container_id : string;
  cm_name : string;
  cm_cpu_perc : f64;
  cm_mem_perc : f64;
  cm_mem_used_mb : f64;
  cm_mem_total_mb : f64;
  cm_net_in_mb : f64;
  cm_net_out_mb : f64;
  cm_block_read_mb : f64;
  cm_block_write_mb : f64;
  cm_application_id : option Z;
  cm_compose_id : option Z;
}.

Definition set_sm_id (id : option Z) (m : ServerMetric) : ServerMetric :=
  mkServerMetric id (sm_timestamp m) (sm_cpu m) (sm_cpu_model m) (sm_cpu_cores m) (sm_cpu_physical_cores m)
    (sm_cpu_speed m) (sm_os m) (sm_distro m) (sm_kernel m) (sm_arch m) (sm_mem_used m) (sm_mem_used_gb m)
    (sm_mem_total m) (sm_uptime m) (sm_disk_used m) (sm_total_disk m) (sm_network_in m) (sm_network_out m).

Definition set_cm_id (id : option Z) (m : ContainerMetricRow) : ContainerMetricRow :=
  mkContainerMetricRow id (cm_timestamp m) (cm_container_id m) (cm_name m) (cm_cpu_perc m) (cm_mem_perc m)
    (cm_mem_used_mb m) (cm_mem_total_mb m) (cm_net_in_mb m) (cm_net_out_mb m) (cm_block_read_mb m)
    (cm_block_write_mb m) (cm_application_id m) (cm_compose_id m).

Record Store := mkStore {
  server_metrics : list ServerMetric;
  container_metrics : list ContainerMetricRow;
  sequence : Z;
}.

Definition new_store : Store := mkStore [] [] 1.

(** [fetch_add] on an [AtomicI64]: the old value, and the next one with wrap-around *)
Definition i64_wrap (z : Z) : Z := ((z + 2 ^ 63) mod 2 ^ 64 - 2 ^ 63)%Z.
Definition next_id (s : Z) : Z * Z := (s, i64_wrap (s + 1)).

Section store.
(** [DateTime::parse_from_rfc3339], as nanoseconds since the epoch *)
Context (parse_rfc3339 : string → option Z).

Definition is_older (raw : string) (cutoff : Z) : bool :=
  match parse_rfc3339 raw with
  | Some t => (t <? cutoff)%Z
  | None => true
  end.

Definition cutoff (now : Z) : Z := (now - SESSION_WINDOW_MINUTES * 60 * 1000000000)%Z.

(** Rows leave at the front as long as the first one is older than the window. *)
Fixpoint prune {A} (now : Z) (timestamp : A → string) (rows : list A) : list A :=
  match rows with
  | [] => []
  | row :: rows' => if is_older (timestamp row) (cutoff now) then prune now timestamp rows' else rows
  end.

Definition save_server_metric (now : Z) (metric : ServerMetric) (s : Store) : Store :=
  let '(id, seq) := next_id (sequence s) in
  mkStore (prune now sm_timestamp (server_metrics s ++ [set_sm_id (Some id) metric]))
    (container_metrics s) seq.

(** [limit.max(0) as usize] rows, newest first *)
Definition get_last_n_server_metrics (now limit : Z) (s : Store) : list ServerMetric * Store :=
  let rows := prune now sm_timestamp (server_metrics s) in
  (take (Z.to_nat (Z.max limit 0)) (rev rows), mkStore rows (container_metrics s) (sequence s)).

(** The rows of a batch get consecutive ids. *)
Fixpoint number_rows (metrics : list ContainerMetricRow) (seq : Z) : list ContainerMetricRow * Z :=
  match metrics with
  | [] => ([], seq)
  | metric :: metrics' =>
      let '(id, seq) := next_id seq in
      let '(rows, seq) := number_rows metrics' seq in
      (set_cm_id (Some id) metric :: rows, seq)
  end.

Definition save_container_metrics_batch (now : Z) (metrics : list ContainerMetricRow) (s : Store) : Store :=
  let '(rows, seq) := number_rows metrics (sequence s) in
  mkStore (server_metrics s) (prune now cm_timestamp (container_metrics s ++ rows)) seq.

Definition save_container_metric (now : Z) (metric : ContainerMetricRow) : Store → Store :=
  save_container_metrics_batch now [metric].

Definition get_last_n_container_metrics (now : Z) (app_name : string) (limit : Z) (s : Store)
    : list ContainerMetricRow * Store :=
  let rows := prune now cm_timestamp (container_metrics s) in
  (take (Z.to_nat (Z.max limit 0)) (List.filter (λ row, contains app_name (cm_name row)) (rev rows)),
   mkStore (server_metrics s) rows (sequence s)).

(** The argument is not used. *)
Definition cleanup_old_metrics (now : Z) (_retention_days : Z) (s : Store) : Z * Store :=
  let before := length (server_metrics s) + length (container_metrics s) in
  let server := prune now sm_timestamp (server_metrics s) in
  let containers := prune now cm_timestamp (container_metrics s) in
  (Z.of_nat (before - length server - length containers), mkStore server containers (sequence s)).

(** ** The window *)

(** Pruning removes a prefix of old rows and stops at the first one that is in the window. *)
Lemma prune_spec {A} now (timestamp : A → string) rows :
  ∃ old, rows = old ++ prune now timestamp rows ∧
    Forall (λ r, is_older (timestamp r) (cutoff now) = true) old ∧
    match prune now timestamp rows with
    | r :: _ => is_older (timestamp r) (cutoff now) = false
    | [] => True
    end.
Proof.
  induction rows as [|r rows (old & E & Ho & Hh)]; simpl; [by exists []|].
  destruct (is_older (timestamp r) (cutoff now)) eqn:Er.
  - exists (r :: old). simpl. rewrite <- E. auto.
  - exists []. auto.
Qed.

Lemma prune_suffix {A} now (timestamp : A → string) rows : prune now timestamp rows `suffix_of` rows.
Proof. destruct (prune_spec now timestamp rows) as (old & E & _). by exists old. Qed.

(** Timestamps that can be read and do not decrease along the queue *)
Inductive in_order {A} (timestamp : A → string) : list A → Prop :=
| in_order_nil : in_order timestamp []
| in_order_cons r rows t :
    parse_rfc3339 (timestamp r) = Some t →
    Forall (λ r', ∃ t', parse_rfc3339 (timestamp r') = Some t' ∧ (t ≤ t')%Z) rows →
    in_order timestamp rows → in_order timestamp (r :: rows).

(** On a queue in order, pruning keeps exactly the rows of the window. *)
Lemma prune_in_order {A} now (timestamp : A → string) rows :
  in_order timestamp rows →
  prune now timestamp rows = List.filter (λ r, negb (is_older (timestamp r) (cutoff now))) rows.
Proof.
  induction 1 as [|r rows t Ht Hr _ IH]; simpl; [done|].
  assert (is_older (timestamp r) (cutoff now) = (t <? cutoff now)%Z) as ->
    by (unfold is_older; by rewrite Ht).
  destruct (Z.ltb_spec t (cutoff now)) as [Hlt|Hge]; simpl; [done|].
  f_equal. symmetry. apply filterb_all_true. intros x Hx. rewrite Forall_forall in Hr.
  destruct (Hr x Hx) as (t' & Ht' & Hle). unfold is_older. rewrite Ht'.
  by rewrite (proj2 (Z.ltb_ge t' (cutoff now))) by lia.
Qed.

Lemma in_order_suffix {A} (timestamp : A → string) rows rows' :
  rows' `suffix_of` rows → in_order timestamp rows → in_order timestamp rows'.
Proof.
  intros [old ->]. induction old as [|r old IH]; simpl; [done|].
  inversion 1; subst. auto.
Qed.

(** A row in the window holds back everything behind it. *)
Lemma prune_app_fresh {A} now (timestamp : A → string) old rows :
  Forall (λ r, is_older (timestamp r) (cutoff now) = false) rows →
  prune now timestamp (old ++ rows) = prune now timestamp old ++ rows.
Proof.
  intros H. induction old as [|r old IH]; simpl.
  - destruct H as [|r rows Hr _]; simpl; [done|by rewrite Hr].
  - by destruct (is_older (timestamp r) (cutoff now)).
Qed.

Lemma filterb_rev {A} (f : A → bool) l : List.filter f (rev l) = rev (List.filter f l).
Proof.
  induction l as [|x l IH]; simpl; [done|]. rewrite List.filter_app, IH. simpl.
  destruct (f x); simpl; [done|by rewrite app_nil_r].
Qed.

(** A query answers with the newest rows of the window that carry the name, newest first, as
    many as it asks for. *)
Lemma query_is_the_window now app_name limit s :
  in_order cm_timestamp (container_metrics s) →
  (get_last_n_container_metrics now app_name limit s).1 =
  take (Z.to_nat limit) (rev (List.filter
    (λ r, contains app_name (cm_name r) && negb (is_older (cm_timestamp r) (cutoff now))) (container_metrics s))).
Proof.
  intros H. unfold get_last_n_container_metrics; simpl. rewrite filterb_rev, (prune_in_order now _ _ H).
  replace (Z.to_nat (Z.max limit 0)) with (Z.to_nat limit) by lia. do 2 f_equal.
  induction (container_metrics s) as [|r rows IH]; simpl; [done|].
  assert (in_order cm_timestamp rows) as Ho by (by inversion H).
  destruct (is_older (cm_timestamp r) (cutoff now)); simpl.
  - rewrite andb_false_r. auto.
  - rewrite andb_true_r. destruct (contains app_name (cm_name r)); rewrite (IH Ho); done.
Qed.

(** ** Ids *)

Inductive StoreOp :=
| SaveServer (now : Z) (metric : ServerMetric)
| SaveContainers (now : Z) (metrics : list ContainerMetricRow)
| GetServer (now limit : Z)
| GetContainers (now : Z) (app_name : string) (limit : Z)
| Cleanup (now retention_days : Z).

Definition store_step (s : Store) (op : StoreOp) : Store :=
  match op with
  | SaveServer now metric => save_server_metric now metric s
  | SaveContainers now metrics => save_container_metrics_batch now metrics s
  | GetServer now limit => (get_last_n_server_metrics now limit s).2
  | GetContainers now app_name limit => (get_last_n_container_metrics now app_name limit s).2
  | Cleanup now days => (cleanup_old_metrics now days s).2
  end.

Definition rows_of (op : StoreOp) : Z :=
  match op with
  | SaveServer _ _ => 1
  | SaveContainers _ metrics => Z.of_nat (length metrics)
  | _ => 0
  end.

(** The rows of a queue carry increasing ids that the counter has given out. *)
Definition numbered {A} (id : A → option Z) (seq : Z) (rows : list A) : Prop :=
  ∃ ids, map id rows = map Some ids ∧ StronglySorted Z.lt ids ∧ Forall (λ i, 1 ≤ i < seq)%Z ids.

Record store_ok (s : Store) : Prop := {
  sk_seq : (1 ≤ sequence s)%Z;
  sk_server : numbered sm_id (sequence s) (server_metrics s);
  sk_containers : numbered cm_id (sequence s) (container_metrics s);
  sk_apart : ∀ i, Some i ∈ map sm_id (server_metrics s) → Some i ∉ map cm_id (container_metrics s);
}.

Lemma numbered_mono {A} (id : A → option Z) seq seq' rows :
  (seq ≤ seq')%Z → numbered id seq rows → numbered id seq' rows.
Proof.
  intros Hle (ids & E & Hs & Hb). exists ids. split_and!; [done..|].
  eapply Forall_impl; [done|]. simpl; lia.
Qed.

Lemma numbered_suffix {A} (id : A → option Z) seq rows rows' :
  rows' `suffix_of` rows → numbered id seq rows → numbered id seq rows'.
Proof.
  intros [old ->] (ids & E & Hs & Hb). rewrite map_app in E. symmetry in E.
  apply List.map_eq_app in E as (i1 & i2 & -> & _ & E). exists i2.
  apply Forall_app in Hb as [_ Hb]. split_and!; [done| |done].
  clear -Hs. induction i1 as [|i i1 IH]; [done|]. apply IH. by inversion Hs.
Qed.

Lemma suffix_elem {A} (id : A → option Z) rows rows' x :
  rows' `suffix_of` rows → x ∈ map id rows' → x ∈ map id rows.
Proof. intros [old ->]. rewrite map_app, elem_of_app. auto. Qed.

Lemma zrange_bounds k a : Forall (λ i, a ≤ i < a + Z.of_nat k)%Z (zrange a k).
Proof.
  revert a. induction k as [|k IH]; intros a; simpl; [done|]. constructor; [lia|].
  eapply Forall_impl; [apply IH|]. simpl; lia.
Qed.

Lemma zrange_sorted k a : StronglySorted Z.lt (zrange a k).
Proof.
  revert a. induction k as [|k IH]; intros a; simpl; constructor; [done|].
  eapply Forall_impl; [apply zrange_bounds|]. simpl; lia.
Qed.

(** Consecutive numbers appended to a numbered queue *)
Lemma numbered_app {A} (id : A → option Z) seq rows new k :
  (1 ≤ seq)%Z → numbered id seq rows → map id new = map Some (zrange seq k) →
  numbered id (seq + Z.of_nat k) (rows ++ new).
Proof.
  intros H1 (ids & E & Hs & Hb) En. pose proof (zrange_bounds k seq) as Hr.
  exists (ids ++ zrange seq k). split_and!.
  - by rewrite !map_app, E, En.
  - clear E En. induction Hs as [|i ids _ IH Hi]; simpl; [apply zrange_sorted|].
    apply Forall_cons in Hb as [Hi' Hb]. constructor; [auto|]. apply Forall_app. split; [done|].
    eapply Forall_impl; [done|]. simpl; lia.
  - apply Forall_app. split; (eapply Forall_impl; [done|simpl; lia]).
Qed.

Lemma i64_wrap_small z : (0 ≤ z ≤ i64_max)%Z → i64_wrap z = z.
Proof. unfold i64_wrap, i64_max. intros H. rewrite Z.mod_small by lia. lia. Qed.

Lemma number_rows_spec metrics seq :
  (1 ≤ seq)%Z → (seq + Z.of_nat (length metrics) ≤ i64_max)%Z →
  ∃ rows, number_rows metrics seq = (rows, seq + Z.of_nat (length metrics))%Z ∧
    map cm_id rows = map Some (zrange seq (length metrics)) ∧
    map (set_cm_id None) rows = map (set_cm_id None) metrics.
Proof.
  revert seq. induction metrics as [|m metrics IH]; intros seq H1 H2; simpl in *.
  { exists []. by rewrite Z.add_0_r. }
  rewrite i64_wrap_small by (unfold i64_max in *; lia).
  destruct (IH (seq + 1)%Z) as (rows & -> & E1 & E2); [lia|lia|].
  eexists. split_and!; [f_equal; lia|simpl; by rewrite E1|simpl; by rewrite E2].
Qed.

(** Ids that the counter has not given out yet are not in a queue. *)
Lemma numbered_fresh {A} (id : A → option Z) seq rows i :
  numbered id seq rows → Some i ∈ map id rows → (i < seq)%Z.
Proof.
  intros (ids & -> & _ & Hb). rewrite elem_of_mapb. intros (j & [= ->] & Hj).
  rewrite Forall_forall in Hb. apply (Hb j Hj).
Qed.

Lemma zrange_ge k a i : Some i ∈ map Some (zrange a k) → (a ≤ i)%Z.
Proof.
  rewrite elem_of_mapb. intros (j & [= ->] & Hj). pose proof (zrange_bounds k a) as H.
  rewrite Forall_forall in H. apply (H j Hj).
Qed.

Lemma sublist_map_inv {A B} (f : A → B) l k :
  k `sublist_of` map f l → ∃ k', k = map f k' ∧ k' `sublist_of` l.
Proof.
  revert k. induction l as [|x l IH]; intros k; simpl.
  - intros ->%sublist_nil_r. by exists [].
  - intros H. inversion H as [|? k' ? Hk|? ? ? Hk]; subst.
    + destruct (IH k' Hk) as (k0 & -> & ?). exists (x :: k0). by split; [|constructor].
    + destruct (IH k Hk) as (k0 & -> & ?). exists k0. by split; [|constructor].
Qed.

Lemma sorted_NoDup ids : StronglySorted Z.lt ids → NoDup ids.
Proof.
  induction 1 as [|i ids _ IH Hi]; constructor; [|done]. intros H.
  rewrite Forall_forall in Hi. specialize (Hi i H). lia.
Qed.

Lemma numbered_NoDup {A} (id : A → option Z) seq rows : numbered id seq rows → NoDup (map id rows).
Proof. intros (ids & -> & Hs & _). apply (NoDup_fmap_2 Some), sorted_NoDup, Hs. Qed.

Lemma sorted_rev ids : StronglySorted Z.lt ids → StronglySorted Z.gt (rev ids).
Proof.
  induction 1 as [|i ids _ IH Hi]; simpl; [constructor|].
  assert (Forall (λ j, j > i)%Z (rev ids)) as Hr.
  { apply Forall_forall. intros j Hj. rewrite list_elem_of_In, <- in_rev, <- list_elem_of_In in Hj.
    rewrite Forall_forall in Hi. specialize (Hi j Hj). lia. }
  clear Hi. induction IH as [|j l _ IH Hj]; simpl; [by repeat constructor|].
  apply Forall_cons in Hr as [Hji Hr]. constructor; [auto|]. apply Forall_app. by repeat constructor.
Qed.

Lemma sorted_sublist (R : Z → Z → Prop) l k : k `sublist_of` l → StronglySorted R l → StronglySorted R k.
Proof.
  induction 1 as [|x k l Hkl IH|x k l Hkl IH]; inversion 1; subst; [done|constructor|]; auto.
  rewrite Forall_forall in *. intros y Hy. eauto using elem_of_sublist.
Qed.

(** A selection of a numbered queue, newest first *)
Lemma numbered_newest {A} (id : A → option Z) seq rows (f : A → bool) n :
  numbered id seq rows →
  ∃ ids, map id (take n (List.filter f (rev rows))) = map Some ids ∧ StronglySorted Z.gt ids.
Proof.
  intros (ids & E & Hs & _). apply sorted_rev in Hs.
  assert (map id (rev rows) = map Some (rev ids)) as E' by (by rewrite !map_rev, E).
  assert (take n (List.filter f (rev rows)) `sublist_of` rev rows) as Hsub
    by (etransitivity; [apply sublist_take|apply filterb_sublist]).
  apply (fmap_sublist id) in Hsub.
  assert (map id (take n (List.filter f (rev rows))) `sublist_of` map Some (rev ids)) as Hsub'
    by (rewrite <- E'; exact Hsub).
  apply sublist_map_inv in Hsub' as (k & -> & Hk). exists k. split; [done|].
  by eapply sorted_sublist.
Qed.

Lemma suffix_ok s server containers :
  store_ok s → server `suffix_of` server_metrics s → containers `suffix_of` container_metrics s →
  store_ok (mkStore server containers (sequence s)).
Proof.
  intros [H1 H2 H3 H4] Hs Hc. split; simpl; [done|by eapply numbered_suffix..|].
  intros i Hi Hi'. apply (H4 i); by eapply suffix_elem.
Qed.

Lemma store_step_ok s op :
  store_ok s → (sequence s + rows_of op ≤ i64_max)%Z →
  store_ok (store_step s op) ∧ (sequence (store_step s op) = sequence s + rows_of op)%Z.
Proof.
  intros Hok Hb. pose proof Hok as [H1 H2 H3 H4].
  destruct op as [now m|now ms|now limit|now app limit|now days]; simpl in *;
    rewrite ?Z.add_0_r; try (split; [|done]; apply suffix_ok; auto using prune_suffix; done).
  - unfold save_server_metric; simpl. rewrite i64_wrap_small by lia. split; [|done].
    apply (suffix_ok (mkStore (server_metrics s ++ [set_sm_id (Some (sequence s)) m])
      (container_metrics s) (sequence s + 1))); simpl; [|apply prune_suffix|done].
    split; simpl; [lia| | |].
    + by apply (numbered_app sm_id (sequence s) _ _ 1).
    + eapply numbered_mono; [|done]. lia.
    + intros i. rewrite map_app, elem_of_app; simpl. rewrite list_elem_of_singleton.
      intros [?|[= ->]]; [auto|]. intros ?%(numbered_fresh _ _ _ _ H3). lia.
  - unfold save_container_metrics_batch.
    destruct (number_rows_spec ms (sequence s)) as (rows & -> & E & _); [done..|]. split; [|done].
    apply (suffix_ok (mkStore (server_metrics s) (container_metrics s ++ rows)
      (sequence s + Z.of_nat (length ms)))); simpl; [|done|apply prune_suffix].
    split; simpl; [lia| | |].
    + eapply numbered_mono; [|done]. lia.
    + by apply numbered_app.
    + intros i Hi. rewrite map_app, elem_of_app, E. intros [?|?%zrange_ge]; [by apply (H4 i)|].
      apply (numbered_fresh _ _ _ _ H2) in Hi. lia.
Qed.

Lemma new_store_ok : store_ok new_store.
Proof.
  split; simpl; [lia|by exists [];repeat constructor..|]. intros i Hi. by apply elem_of_nil in Hi.
Qed.

Lemma store_steps_ok ops s :
  store_ok s → (sequence s + foldr Z.add 0 (map rows_of ops) ≤ i64_max)%Z →
  store_ok (foldl store_step s ops).
Proof.
  revert s. induction ops as [|op ops IH]; intros s Hok Hb; [done|]. simpl in *.
  assert (0 ≤ foldr Z.add 0 (map rows_of ops))%Z.
  { clear. induction ops as [|op ops IH]; simpl; [lia|]. destruct op; simpl; lia. }
  destruct (store_step_ok s op Hok) as [H1 H2]; [lia|]. apply IH; [done|]. lia.
Qed.

(** After any sequence of operations that saves fewer than 2^63 - 1 rows, every row of the store
    has an id, no two rows share one, and each queue is in the order of the ids, so that a query
    returns the rows saved last first. *)
Theorem store_ids_unique ops :
  (foldr Z.add 0 (map rows_of ops) < i64_max)%Z →
  let s := foldl store_step new_store ops in
  store_ok s ∧ NoDup (map sm_id (server_metrics s) ++ map cm_id (container_metrics s)) ∧
  ∀ now app_name limit,
    ∃ ids, map cm_id (get_last_n_container_metrics now app_name limit s).1 = map Some ids ∧
      StronglySorted Z.gt ids.
Proof.
  intros H s. assert (store_ok s) as Hok by (apply store_steps_ok; [apply new_store_ok|simpl; lia]).
  split; [done|]. destruct Hok as [H1 H2 H3 H4]. split.
  - apply NoDup_app. split_and!; [by eapply numbered_NoDup| |by eapply numbered_NoDup].
    intros x Hx. destruct H2 as (ids & E & _). pose proof Hx as Hx'. rewrite E, elem_of_mapb in Hx'.
    destruct Hx' as (i & -> & _). by apply H4.
  - intros now app_name limit. apply (numbered_newest _ (sequence s)).
    by eapply numbered_suffix; [apply prune_suffix|].
Qed.

(** A batch of rows in the window is kept whole, behind what is left of the earlier rows. *)
Lemma saved_batch_is_kept now metrics s :
  (1 ≤ sequence s)%Z → (sequence s + Z.of_nat (length metrics) ≤ i64_max)%Z →
  Forall (λ r, is_older (cm_timestamp r) (cutoff now) = false) metrics →
  ∃ rows, map (set_cm_id None) rows = map (set_cm_id None) metrics ∧
    container_metrics (save_container_metrics_batch now metrics s) =
    prune now cm_timestamp (container_metrics s) ++ rows.
Proof.
  intros H1 H2 Hm. unfold save_container_metrics_batch.
  destruct (number_rows_spec metrics (sequence s) H1 H2) as (rows & -> & _ & E).
  exists rows. split; [done|]. simpl. apply prune_app_fresh.
  assert (map cm_timestamp rows = map cm_timestamp metrics) as Et.
  { apply (f_equal (map cm_timestamp)) in E. by rewrite !map_map in E. }
  clear -Hm Et. revert rows Et. induction Hm as [|m metrics Hm _ IH]; intros [|r rows]; try done.
  simpl. intros [= E1 E2]. constructor; [by rewrite E1|auto].
Qed.
End store.

(** A row whose timestamp cannot be read, or lies before the window, stays as long as a row in
    the window is in front of it. *)
Definition plain_row (timestamp name : string) : ContainerMetricRow :=
  mkContainerMetricRow None timestamp "c" name f64_epsilon f64_epsilon f64_epsilon f64_epsilon
    f64_epsilon f64_epsilon f64_epsilon f64_epsilon None None.
Definition seconds_clock (s : string) : option Z := (λ z, z * 1000000000)%Z <$> parse_i64 s.

Lemma store_ids_unique_witness :
  NoDup (map cm_id (container_metrics (foldl (store_step seconds_clock) new_store
    [SaveContainers 1000000000 [plain_row "1" "a"; plain_row "1" "b"];
     SaveContainers 400000000000 [plain_row "400" "c"]]))).
Proof.
  edestruct (store_ids_unique seconds_clock
    [SaveContainers 1000000000 [plain_row "1" "a"; plain_row "1" "b"];
     SaveContainers 400000000000 [plain_row "400" "c"]]) as (_ & H & _).
  - vm_compute. reflexivity.
  - apply NoDup_app in H as (_ & _ & H). exact H.
Defined.

Example unreadable_row_is_returned :
  map cm_timestamp (get_last_n_container_metrics seconds_clock 1000000000000 "web" 10
    (save_container_metrics_batch seconds_clock 1000000000000
      [plain_row "1000" "web"; plain_row "bad" "web"; plain_row "1" "web"] new_store)).1
  = ["1"; "bad"; "1000"].
Proof. vm_compute. reflexivity. Qed.
