(* ===== verification/AgentRollup.v ===== *)
(** * Rollups

    [agent/src/rollup.rs]: the samples of a container are folded into an accumulator, and when
    one container has filled the window every accumulator gives an average row and a peak row
    and is dropped.  The specification keeps the samples themselves; [rollup_refines] shows
    that the rows that come out are the summaries of consecutive windows of samples, and that
    every sample is in exactly one window. *)

From stdpp Require Import gmap strings list.
From Stdlib Require Import ZArith Lia Floats.
From S2P Require Import Prelude RustStr F64 AgentStore.

Definition f64_add (a b : f64) : f64 := PrimFloat.add a b.

Definition PEAK_SUFFIX : string := " (peak)".

Record Accumulator := mkAccumulator {
  count : Z;
  cpu_sum : f64;
  cpu_max : f64;
  mem_sum : f64;
  mem_max : f64;
  mem_perc_sum : f64;
  mem_perc_max : f64;
  mem_total_mb : f64;
  net_in_mb : f64;
  net_out_mb : f64;
  block_read_mb : f64;
  block_write_mb : f64;
  acc_name : string;
  acc_container_id : string;
}.

Definition zero : f64 := f64_of_Z 0.
(** [Accumulator::default()] *)
Definition acc_default : Accumulator :=
  mkAccumulator 0 zero zero zero zero zero zero zero zero zero zero zero "" "".

Definition u32_modulus : Z := 2 ^ 32.

Definition acc_add (a : Accumulator) (row : ContainerMetricRow) : Accumulator :=
  mkAccumulator ((count a + 1) mod u32_modulus)
    (f64_add (cpu_sum a) (cm_cpu_perc row)) (f64_max (cpu_max a) (cm_cpu_perc row))
    (f64_add (mem_sum a) (cm_mem_used_mb row)) (f64_max (mem_max a) (cm_mem_used_mb row))
    (f64_add (mem_perc_sum a) (cm_mem_perc row)) (f64_max (mem_perc_max a) (cm_mem_perc row))
    (cm_mem_total_mb row) (cm_net_in_mb row) (cm_net_out_mb row)
    (cm_block_read_mb row) (cm_block_write_mb row) (cm_name row) (cm_container_id row).

Definition finish (timestamp : string) (a : Accumulator) : list ContainerMetricRow :=
  if (count a =? 0)%Z then []
  else
    let n := f64_of_Z (count a) in
    let avg := mkContainerMetricRow None timestamp (acc_container_id a) (acc_name a)
      (f64_div (cpu_sum a) n) (f64_div (mem_perc_sum a) n) (f64_div (mem_sum a) n)
      (mem_total_mb a) (net_in_mb a) (net_out_mb a) (block_read_mb a) (block_write_mb a) None None in
    let peak := mkContainerMetricRow None timestamp (cm_container_id avg)
      (acc_name a +:+ " " +:+ trim PEAK_SUFFIX)
      (cpu_max a) (mem_perc_max a) (mem_max a)
      (cm_mem_total_mb avg) (cm_net_in_mb avg) (cm_net_out_mb avg) (cm_block_read_mb avg)
      (cm_block_write_mb avg) (cm_application_id avg) (cm_compose_id avg) in
    [avg; peak].

Record Rollup := mkRollup {
  windows : gmap string Accumulator;
  window_size : Z;
}.

Definition new_rollup (size : Z) : Rollup := mkRollup ∅ (Z.max size 1).

Definition is_passthrough (r : Rollup) : bool := (window_size r <=? 1)%Z.

Definition add_row (m : gmap string Accumulator) (row : ContainerMetricRow) : gmap string Accumulator :=
  let key := cm_container_id row in
  <[key := acc_add (default acc_default (m !! key)) row]> m.

(** The values of the map, in whatever order it presents them *)
Definition values {A} (m : gmap string A) : list A := (map_to_list m).*2.

Definition flush (timestamp : string) (r : Rollup) : list ContainerMetricRow * Rollup :=
  (flat_map (finish timestamp) (values (windows r)), mkRollup ∅ (window_size r)).

Definition rollup_add (timestamp : string) (rows : list ContainerMetricRow) (r : Rollup)
    : list ContainerMetricRow * Rollup :=
  let r := mkRollup (foldl add_row (windows r) rows) (window_size r) in
  if existsb (λ a, window_size r <=? count a)%Z (values (windows r)) then flush timestamp r
  else ([], r).

(** The batches of a run, each with the time of its flush *)
Fixpoint rollup_run (batches : list (string * list ContainerMetricRow)) (r : Rollup)
    : list (list ContainerMetricRow) * Rollup :=
  match batches with
  | [] => ([], r)
  | (timestamp, rows) :: batches' =>
      let '(out, r) := rollup_add timestamp rows r in
      let '(outs, r) := rollup_run batches' r in
      (out :: outs, r)
  end.

(** ** The specification: windows of samples *)

Notation Windows := (gmap string (list ContainerMetricRow)).
Definition window_of (m : Windows) (k : string) : list ContainerMetricRow := default [] (m !! k).

Definition record (m : Windows) (row : ContainerMetricRow) : Windows :=
  <[cm_container_id row := window_of m (cm_container_id row) ++ [row]]> m.

Definition mean (f : ContainerMetricRow → f64) (rows : list ContainerMetricRow) : f64 :=
  f64_div (foldl f64_add zero (map f rows)) (f64_of_Z (Z.of_nat (length rows))).
Definition peak_of (f : ContainerMetricRow → f64) (rows : list ContainerMetricRow) : f64 :=
  foldl f64_max zero (map f rows).

(** An average row and a peak row: counters, name and id of the last sample *)
Definition summarise (timestamp : string) (rows : list ContainerMetricRow) : list ContainerMetricRow :=
  match last rows with
  | None => []
  | Some r =>
      let row name cpu mem_perc mem :=
        mkContainerMetricRow None timestamp (cm_container_id r) name cpu mem_perc mem
          (cm_mem_total_mb r) (cm_net_in_mb r) (cm_net_out_mb r) (cm_block_read_mb r)
          (cm_block_write_mb r) None None in
      [row (cm_name r) (mean cm_cpu_perc rows) (mean cm_mem_perc rows) (mean cm_mem_used_mb rows);
       row (cm_name r +:+ PEAK_SUFFIX) (peak_of cm_cpu_perc rows) (peak_of cm_mem_perc rows)
         (peak_of cm_mem_used_mb rows)]
  end.

(** A batch closes the windows when some container has [size] samples. *)
Definition spec_add (size : Z) (rows : list ContainerMetricRow) (m : Windows) : Windows * Windows :=
  let m := foldl record m rows in
  if existsb (λ w, size <=? Z.of_nat (length w))%Z (values m) then (m, ∅) else (∅, m).

Fixpoint spec_run (size : Z) (batches : list (list ContainerMetricRow)) (m : Windows)
    : list Windows * Windows :=
  match batches with
  | [] => ([], m)
  | rows :: batches' =>
      let '(closed, m) := spec_add size rows m in
      let '(all, m) := spec_run size batches' m in
      (closed :: all, m)
  end.

(** ** Accumulators hold what the summary needs *)

Definition acc_of (rows : list ContainerMetricRow) : Accumulator := foldl acc_add acc_default rows.

Lemma acc_of_snoc rows r : acc_of (rows ++ [r]) = acc_add (acc_of rows) r.
Proof. unfold acc_of. by rewrite foldl_app. Qed.

Lemma acc_of_fields rows :
  (Z.of_nat (length rows) < u32_modulus)%Z →
  count (acc_of rows) = Z.of_nat (length rows) ∧
  cpu_sum (acc_of rows) = foldl f64_add zero (map cm_cpu_perc rows) ∧
  cpu_max (acc_of rows) = peak_of cm_cpu_perc rows ∧
  mem_sum (acc_of rows) = foldl f64_add zero (map cm_mem_used_mb rows) ∧
  mem_max (acc_of rows) = peak_of cm_mem_used_mb rows ∧
  mem_perc_sum (acc_of rows) = foldl f64_add zero (map cm_mem_perc rows) ∧
  mem_perc_max (acc_of rows) = peak_of cm_mem_perc rows.
Proof.
  unfold peak_of. induction rows as [|r rows IH] using rev_ind; [done|].
  rewrite length_app; simpl. intros H. destruct IH as (H1 & H2 & H3 & H4 & H5 & H6 & H7); [lia|].
  rewrite acc_of_snoc, !map_app, !foldl_app. simpl.
  rewrite H1, H2, H3, H4, H5, H6, H7. split_and!; try done.
  rewrite Z.mod_small; [lia|]. unfold u32_modulus in *. lia.
Qed.

Lemma finish_acc_of timestamp rows :
  (Z.of_nat (length rows) < u32_modulus)%Z → finish timestamp (acc_of rows) = summarise timestamp rows.
Proof.
  intros H. pose proof (acc_of_fields rows H) as F.
  destruct rows as [|r rows _] using rev_ind; [done|].
  destruct F as (H1 & H2 & H3 & H4 & H5 & H6 & H7).
  unfold finish. rewrite H1, H2, H3, H4, H5, H6, H7.
  rewrite (proj2 (Z.eqb_neq _ _)) by (rewrite length_app; simpl; lia).
  unfold summarise, mean. rewrite last_snoc. rewrite !acc_of_snoc. simpl.
  reflexivity.
Qed.

(** ** The windows correspond *)

Lemma add_row_sim (m : Windows) row : add_row (acc_of <$> m) row = acc_of <$> record m row.
Proof.
  unfold add_row, record, window_of. rewrite fmap_insert, acc_of_snoc, lookup_fmap.
  by destruct (m !! cm_container_id row).
Qed.

Lemma add_rows_sim rows (m : Windows) : foldl add_row (acc_of <$> m) rows = acc_of <$> foldl record m rows.
Proof. revert m. induction rows as [|r rows IH]; intros m; simpl; [done|]. by rewrite add_row_sim, IH. Qed.

Lemma values_fmap {A B} (f : A → B) (m : gmap string A) : values (f <$> m) ≡ₚ map f (values m).
Proof.
  unfold values. rewrite map_to_list_fmap. by rewrite <- !list_fmap_compose.
Qed.

Lemma existsb_perm {A} (f : A → bool) l l' : l ≡ₚ l' → existsb f l = existsb f l'.
Proof.
  induction 1 as [|x l l' _ IH|x y l|l l' l'' _ IH1 _ IH2]; simpl; [done|by rewrite IH| |congruence].
  by rewrite !orb_assoc, (orb_comm (f y)).
Qed.

Lemma flat_map_perm {A B} (f : A → list B) l l' : l ≡ₚ l' → flat_map f l ≡ₚ flat_map f l'.
Proof.
  induction 1 as [|x l l' _ IH|x y l|l l' l'' _ IH1 _ IH2]; simpl; [done|by rewrite IH| |by rewrite IH1].
  by rewrite !app_assoc, (Permutation_app_comm (f y)).
Qed.

Lemma elem_of_values {A} (m : gmap string A) w : w ∈ values m ↔ ∃ k, m !! k = Some w.
Proof.
  unfold values. rewrite list_elem_of_fmap. split.
  - intros ([k x] & -> & H). exists k. by apply elem_of_map_to_list.
  - intros [k H]. exists (k, w). by rewrite elem_of_map_to_list.
Qed.

(** No window grows by more than the batch. *)
Lemma record_window m row k :
  window_of (record m row) k =
  window_of m k ++ if bool_decide (cm_container_id row = k) then [row] else [].
Proof.
  unfold window_of at 1, record. case_bool_decide as E.
  - subst k. by rewrite lookup_insert_eq.
  - rewrite lookup_insert_ne by done. by rewrite app_nil_r.
Qed.

Definition samples_of (k : string) (rows : list ContainerMetricRow) : list ContainerMetricRow :=
  List.filter (λ r, bool_decide (cm_container_id r = k)) rows.

Lemma records_window rows m k : window_of (foldl record m rows) k = window_of m k ++ samples_of k rows.
Proof.
  revert m. induction rows as [|r rows IH]; intros m; simpl; [by rewrite app_nil_r|].
  rewrite IH, record_window, <- app_assoc. by destruct (bool_decide _).
Qed.

Lemma window_in_values (m : Windows) w : w ∈ values m → ∃ k, window_of m k = w.
Proof. intros [k E]%elem_of_values. exists k. unfold window_of. by rewrite E. Qed.

(** Every window is shorter than [size]. *)
Definition windows_open (size : Z) (m : Windows) : Prop :=
  ∀ k, (Z.of_nat (length (window_of m k)) < size)%Z.

Lemma records_bound size m rows w :
  windows_open size m → w ∈ values (foldl record m rows) →
  (Z.of_nat (length w) < size + Z.of_nat (length rows))%Z.
Proof.
  intros Hm [k <-]%window_in_values. rewrite records_window, length_app.
  pose proof (filterb_length_le (λ r, bool_decide (cm_container_id r = k)) rows).
  specialize (Hm k). unfold samples_of. lia.
Qed.

Lemma existsb_map {A B} (f : A → B) (g : B → bool) l : existsb g (map f l) = existsb (λ x, g (f x)) l.
Proof. induction l as [|x l IH]; simpl; [done|]. by rewrite IH. Qed.

Lemma existsb_ext_in {A} (f g : A → bool) l : (∀ x, x ∈ l → f x = g x) → existsb f l = existsb g l.
Proof.
  induction l as [|x l IH]; intros H; simpl; [done|].
  rewrite (H x) by (apply elem_of_cons; auto). f_equal. apply IH. intros y Hy. apply H, elem_of_cons; auto.
Qed.

Lemma flat_map_ext_in {A B} (f g : A → list B) l : (∀ x, x ∈ l → f x = g x) → flat_map f l = flat_map g l.
Proof.
  induction l as [|x l IH]; intros H; simpl; [done|].
  rewrite (H x) by (apply elem_of_cons; auto). f_equal. apply IH. intros y Hy. apply H, elem_of_cons; auto.
Qed.

(** One batch: the rows that come out are the summaries of the windows it closes. *)
Lemma rollup_add_sim size timestamp rows m :
  (1 ≤ size)%Z → windows_open size m → (size + Z.of_nat (length rows) ≤ u32_modulus)%Z →
  let '(closed, m') := spec_add size rows m in
  (rollup_add timestamp rows (mkRollup (acc_of <$> m) size)).1
    ≡ₚ flat_map (summarise timestamp) (values closed) ∧
  (rollup_add timestamp rows (mkRollup (acc_of <$> m) size)).2 = mkRollup (acc_of <$> m') size ∧
  windows_open size m' ∧
  ∀ k, window_of closed k ++ window_of m' k = window_of m k ++ samples_of k rows.
Proof.
  intros Hs Hm Hb. pose proof (records_bound size m rows) as Hw.
  unfold spec_add, rollup_add; simpl. rewrite add_rows_sim.
  set (m1 := foldl record m rows) in *.
  assert (existsb (λ a, size <=? count a)%Z (values (acc_of <$> m1)) =
          existsb (λ w, size <=? Z.of_nat (length w))%Z (values m1)) as ->.
  { rewrite (existsb_perm _ _ _ (values_fmap acc_of m1)), existsb_map. apply existsb_ext_in.
    intros w Hin. specialize (Hw w Hm Hin). destruct (acc_of_fields w) as [-> _]; [lia|done]. }
  destruct (existsb _ (values m1)) eqn:E; simpl; split_and!; try done.
  - rewrite (flat_map_perm _ _ _ (values_fmap acc_of m1)), flat_map_concat_map, map_map,
      <- flat_map_concat_map.
    erewrite flat_map_ext_in; [done|]. intros w Hin. specialize (Hw w Hm Hin).
    apply finish_acc_of. lia.
  - intros k. unfold window_of. rewrite lookup_empty. simpl. lia.
  - intros k. rewrite <- (records_window rows m k). apply app_nil_r.
  - intros k. unfold window_of. destruct (m1 !! k) as [w|] eqn:Ek; simpl; [|lia].
    rewrite existsb_false in E. specialize (E w). apply Z.leb_gt, E, elem_of_values. by exists k.
  - intros k. unfold window_of at 1. rewrite lookup_empty. apply (records_window rows m k).
Qed.

Lemma rollup_run_sim size batches m :
  (1 ≤ size)%Z → windows_open size m →
  Forall (λ b, size + Z.of_nat (length b.2) ≤ u32_modulus)%Z batches →
  let '(closed, m') := spec_run size batches.*2 m in
  Forall2 (λ out (b : string * Windows), out ≡ₚ flat_map (summarise b.1) (values b.2))
    (rollup_run batches (mkRollup (acc_of <$> m) size)).1 (zip batches.*1 closed) ∧
  (rollup_run batches (mkRollup (acc_of <$> m) size)).2 = mkRollup (acc_of <$> m') size ∧
  windows_open size m' ∧
  ∀ k, concat (map (λ c, window_of c k) closed) ++ window_of m' k =
       window_of m k ++ samples_of k (concat batches.*2).
Proof.
  intros Hs. revert m. induction batches as [|[ts rows] batches IH]; intros m Hm Hb.
  { simpl. split_and!; [constructor|done..|]. intros k. by rewrite app_nil_r. }
  rewrite !fmap_cons. cbn [spec_run rollup_run fst snd].
  apply Forall_cons in Hb as [Hb1 Hb]. simpl in Hb1.
  pose proof (rollup_add_sim size ts rows m Hs Hm Hb1) as S.
  destruct (spec_add size rows m) as [closed m1]. destruct S as (S1 & S2 & S3 & S4).
  specialize (IH m1 S3 Hb). destruct (spec_run size batches.*2 m1) as [all m2].
  destruct IH as (I1 & I2 & I3 & I4).
  destruct (rollup_add ts rows _) as [out r]. simpl in S1, S2. subst r.
  destruct (rollup_run batches _) as [outs r]. split_and!; [by constructor|done..|].
  intros k. simpl. rewrite <- app_assoc, I4, app_assoc, S4, <- app_assoc. f_equal.
  unfold samples_of. by rewrite List.filter_app.
Qed.

(** C23: For every window size and every sequence of batches the rollup of the monitoring agent
    refines windows of samples: each batch gives, in some order, the average and peak rows of
    the windows it closes and nothing otherwise; the samples of a container, in order, are its
    closed windows one after the other and then the open one, which is shorter than the window
    size. *)
Theorem rollup_refines size batches :
  let n := Z.max size 1 in
  Forall (λ b, n + Z.of_nat (length b.2) ≤ u32_modulus)%Z batches →
  let '(closed, m) := spec_run n batches.*2 ∅ in
  Forall2 (λ out (b : string * Windows), out ≡ₚ flat_map (summarise b.1) (values b.2))
    (rollup_run batches (new_rollup size)).1 (zip batches.*1 closed) ∧
  (∀ k, concat (map (λ c, window_of c k) closed) ++ window_of m k = samples_of k (concat batches.*2)) ∧
  windows_open n m.
Proof.
  intros n Hb. pose proof (rollup_run_sim n batches ∅ ltac:(lia)) as S.
  rewrite fmap_empty in S. unfold new_rollup. fold n.
  destruct (spec_run n batches.*2 ∅) as [closed m].
  assert (∀ k, window_of ∅ k = []) as E by (intros k; unfold window_of; by rewrite lookup_empty).
  destruct S as (S1 & _ & S3 & S4); [intros k; rewrite E; simpl; lia|done|].
  split_and!; [done| |done]. intros k. by rewrite S4, E.
Qed.

(** The rows of a rollup belong to no application and no compose project, whatever the samples
    say. *)
Lemma rollup_loses_attribution timestamp rows r :
  r ∈ summarise timestamp rows → cm_application_id r = None ∧ cm_compose_id r = None.
Proof.
  unfold summarise. destruct (last rows); [|by intros ?%elem_of_nil].
  rewrite !elem_of_cons, elem_of_nil. by intros [->|[->|?]].
Qed.

Definition load_row (id : string) (cpu : Z) : ContainerMetricRow :=
  mkContainerMetricRow None "t" id id (f64_of_Z cpu) zero zero zero zero zero zero zero (Some 7%Z) None.

Definition sample_batches : list (string * list ContainerMetricRow) :=
  [("a", [load_row "web" 10]); ("b", [load_row "web" 30])].

Lemma sample_batches_small :
  Forall (λ b, Z.max 2 1 + Z.of_nat (length b.2) ≤ u32_modulus)%Z sample_batches.
Proof. repeat constructor; vm_compute; discriminate. Qed.

Lemma rollup_refines_witness :
  map (map (λ r, (cm_name r, cm_cpu_perc r))) (rollup_run sample_batches (new_rollup 2)).1
  = [[]; [("web", f64_of_Z 20); ("web (peak)", f64_of_Z 30)]] ∧
  windows_open 2 (spec_run 2 sample_batches.*2 ∅).2.
Proof.
  split; [vm_compute; reflexivity|].
  pose proof (rollup_refines 2 sample_batches sample_batches_small) as H.
  change (Z.max 2 1) with 2%Z in H.
  destruct (spec_run 2 sample_batches.*2 ∅) as [closed m]. apply H.
Defined.
