(* ===== verification/AgentCollector.v ===== *)
(** * Collecting container metrics

    [agent/src/docker/cgroup.rs], [agent/src/collector/cgroup.rs] and the two loops of
    [agent/src/tasks/container.rs]: reading the cgroup files of a container, the collector with
    its previous samples, one turn of the polling loop (sample, rollup, store) and the turns of
    the streaming loop.  The cgroup file system is a map from paths to contents and a listing
    of its root. *)

From stdpp Require Import gmap strings list.
From Stdlib Require Import ZArith Lia Ascii.
From S2P Require Import Prelude RustStr RustText F64 ShellScript AgentFilter AgentDocker AgentStore AgentRollup.

(** ** The cgroup files *)

Record CgroupSample := mkCgroupSample {
  cpu_usage_usec : Z;
  memory_usage : Z;
  memory_cache : Z;
  memory_limit : Z;
  io_read_bytes : Z;
  io_write_bytes : Z;
}.

(** [PathBuf::join] *)
Definition path_join (a b : string) : string :=
  if starts_with "/" b then b
  else if ends_with "/" a then a +:+ b
  else a +:+ "/" +:+ b.

Definition parse_field (content key : string) : option Z :=
  match List.find (λ l, starts_with (key +:+ " ") l) (lines content) with
  | None => None
  | Some l => match split_whitespace l !! 1 with
              | None => None
              | Some v => parse_u64 v
              end
  end.

(** The counters of [io.stat], summed over the devices *)
Definition add_io_field (acc : Z * Z) (field : string) : Z * Z :=
  match strip_prefix "rbytes=" field with
  | Some v => (u64_add acc.1 (default 0%Z (parse_u64 v)), acc.2)
  | None => match strip_prefix "wbytes=" field with
            | Some v => (acc.1, u64_add acc.2 (default 0%Z (parse_u64 v)))
            | None => acc
            end
  end.
Definition parse_io_stat (stat : string) : Z * Z :=
  foldl (λ acc line, foldl add_io_field acc (split_whitespace line)) (0, 0)%Z (lines stat).

Section reader.
Context (root : string) (files : gmap string string) (entries : list string).

(** [discover]: the mount point of the first line of [/proc/self/mounts] whose source is
    [cgroup2]; a line with fewer than two fields is skipped. *)
Fixpoint discover (mounts : list string) : option string :=
  match mounts with
  | [] => None
  | line :: mounts' =>
      match split_whitespace line with
      | source :: mount :: _ => if bool_decide (source = "cgroup2") then Some mount else discover mounts'
      | _ => discover mounts'
      end
  end.

Definition has_cpu_stat (dir : string) : bool := bool_decide (is_Some (files !! path_join dir "cpu.stat")).

Definition cgroup_dir (id : string) : option string :=
  let systemd := path_join (path_join root "system.slice") ("docker-" +:+ id +:+ ".scope") in
  if has_cpu_stat systemd then Some systemd
  else
    let cgroupfs := path_join (path_join root "docker") id in
    if has_cpu_stat cgroupfs then Some cgroupfs
    else List.find has_cpu_stat
           (map (path_join root) (List.filter (λ name, contains id name || starts_with id name) entries)).

Definition read (id : string) : option CgroupSample :=
  dir ← cgroup_dir id;
  cpu ← files !! path_join dir "cpu.stat";
  let cpu_usage_usec :=
    match parse_field cpu "usage_usec" with
    | Some v => v
    | None => u64_add (default 0%Z (parse_field cpu "user_usec")) (default 0%Z (parse_field cpu "system_usec"))
    end in
  current ← files !! path_join dir "memory.current";
  memory_usage ← parse_u64 (trim current);
  memory_stat ← files !! path_join dir "memory.stat";
  let memory_cache := default 0%Z
    (or_else (parse_field memory_stat "inactive_file")
      (or_else (parse_field memory_stat "total_inactive_file") (parse_field memory_stat "cache"))) in
  max ← files !! path_join dir "memory.max";
  let memory_limit := default 0%Z (parse_u64 (trim max)) in
  let io := match files !! path_join dir "io.stat" with Some stat => parse_io_stat stat | None => (0, 0)%Z end in
  Some (mkCgroupSample cpu_usage_usec memory_usage memory_cache memory_limit io.1 io.2).
End reader.

(** ** The collector *)

(** A sample and when it was taken, in nanoseconds of a monotonic clock *)
Record Previous := mkPrevious { prev_sample : CgroupSample; prev_at : Z }.

Record ContainerIdentity := mkContainerIdentity {
  ci_name : string;
  ci_application_id : option Z;
  ci_compose_id : option Z;
}.

Record CgroupCollector := mkCgroupCollector {
  cc_filter : ContainerFilter;
  cc_previous : gmap string Previous;
  cc_containers : gmap string ContainerIdentity;
}.

Definition new_collector (f : ContainerFilter) : CgroupCollector := mkCgroupCollector f ∅ ∅.

Definition APPLICATION_LABEL : string := "com.openoxide.application-id".
Definition COMPOSE_LABEL : string := "com.openoxide.compose-id".

Definition label_id (summary : ContainerSummary) (key : string) : option Z :=
  cs_labels summary !! key ≫= parse_i64.

Definition identify (f : ContainerFilter) (m : gmap string ContainerIdentity) (summary : ContainerSummary)
    : gmap string ContainerIdentity :=
  let name := display_name summary in
  if should_monitor f name then
    <[cs_id summary := mkContainerIdentity name (label_id summary APPLICATION_LABEL)
                         (label_id summary COMPOSE_LABEL)]> m
  else m.

Definition refresh_containers {E} (answer : result (list ContainerSummary) E) (c : CgroupCollector)
    : CgroupCollector :=
  match answer with
  | Err _ => c
  | Ok summaries =>
      let containers := foldl (identify (cc_filter c)) ∅ summaries in
      mkCgroupCollector (cc_filter c)
        (filter (λ p, is_Some (containers !! p.1)) (cc_previous c)) containers
  end.

(** [now.duration_since(prev.at).as_micros()]: an earlier [now] gives zero *)
Definition elapsed_micros (at_ now : Z) : Z := Z.max 0 (now - at_) / 1000.

Definition cpu_share (prev : Previous) (current : CgroupSample) (now : Z) : f64 :=
  let elapsed := elapsed_micros (prev_at prev) now in
  if (elapsed =? 0)%Z then f64_zero
  else
    let delta := u64_saturating_sub (cpu_usage_usec current) (cpu_usage_usec (prev_sample prev)) in
    f64_mul (f64_div (f64_of_u64 delta) (f64_of_Z elapsed)) f64_hundred.

Definition BYTES_PER_MB : f64 := f64_of_Z 1048576.
Definition bytes_to_mb (bytes : f64) : f64 := f64_div bytes BYTES_PER_MB.

Definition metric_row (timestamp : string) (id : string) (identity : ContainerIdentity)
    (cpu_perc : f64) (sample : CgroupSample) : ContainerMetricRow :=
  let mem_used := u64_saturating_sub (memory_usage sample) (memory_cache sample) in
  let mem_perc :=
    if (0 <? memory_limit sample)%Z
    then f64_mul (f64_div (f64_of_u64 mem_used) (f64_of_u64 (memory_limit sample))) f64_hundred
    else f64_zero in
  mkContainerMetricRow None timestamp (short id) (ci_name identity) cpu_perc mem_perc
    (bytes_to_mb (f64_of_u64 mem_used)) (bytes_to_mb (f64_of_u64 (memory_limit sample)))
    f64_zero f64_zero
    (bytes_to_mb (f64_of_u64 (io_read_bytes sample))) (bytes_to_mb (f64_of_u64 (io_write_bytes sample)))
    (ci_application_id identity) (ci_compose_id identity).

(** [read_many] over the keys of the collector *)
Definition read_many (read : string → option CgroupSample) (containers : gmap string ContainerIdentity)
    : gmap string CgroupSample :=
  map_imap (λ id _, read id) containers.

(** The body of the loop over the samples, which also replaces the previous sample *)
Definition sample_one (timestamp : string) (now : Z) (containers : gmap string ContainerIdentity)
    (acc : list ContainerMetricRow * gmap string Previous) (p : string * CgroupSample)
    : list ContainerMetricRow * gmap string Previous :=
  let '(rows, previous) := acc in
  let '(id, s) := p in
  match containers !! id with
  | None => (rows, previous)
  | Some identity =>
      let cpu_perc := match previous !! id with Some prev => cpu_share prev s now | None => f64_zero end in
      (rows ++ [metric_row timestamp id identity cpu_perc s], <[id := mkPrevious s now]> previous)
  end.

Definition sample (read : string → option CgroupSample) (timestamp : string) (now : Z) (c : CgroupCollector)
    : list ContainerMetricRow * CgroupCollector :=
  let samples := read_many read (cc_containers c) in
  let '(rows, previous) :=
    foldl (sample_one timestamp now (cc_containers c)) ([], cc_previous c) (map_to_list samples) in
  (rows, mkCgroupCollector (cc_filter c) previous (cc_containers c)).

(** ** The polling loop *)

Record PollState := mkPollState {
  ps_collector : CgroupCollector;
  ps_rollup : Rollup;
  ps_store : Store;
}.

(** [Rollup::new(rollup_samples)] and [rollup_enabled] *)
Definition start_polling (f : ContainerFilter) (rollup_samples : Z) (store : Store) : PollState :=
  mkPollState (new_collector f) (new_rollup rollup_samples) store.

Section polling.
Context (parse_rfc3339 : string → option Z).

(** The [sample.tick()] branch.  [instant] is the monotonic clock, [now] the wall clock, and
    [timestamp] and [flushed] their renderings when the sample is taken and when the windows are
    closed. *)
Definition sample_tick (rd : string → option CgroupSample) (instant now : Z) (timestamp flushed : string)
    (st : PollState) : PollState :=
  let '(rows, collector) := sample rd timestamp instant (ps_collector st) in
  match rows with
  | [] => mkPollState collector (ps_rollup st) (ps_store st)
  | _ =>
      let '(to_store, rollup) :=
        if is_passthrough (ps_rollup st) then (rows, ps_rollup st) else rollup_add flushed rows (ps_rollup st) in
      match to_store with
      | [] => mkPollState collector rollup (ps_store st)
      | _ => mkPollState collector rollup (save_container_metrics_batch parse_rfc3339 now to_store (ps_store st))
      end
  end.

(** The [refresh.tick()] branch *)
Definition refresh_tick {E} (answer : result (list ContainerSummary) E) (st : PollState) : PollState :=
  mkPollState (refresh_containers answer (ps_collector st)) (ps_rollup st) (ps_store st).

Inductive poll_step : PollState → PollState → Prop :=
| poll_refresh answer st : poll_step st (refresh_tick (E := string) answer st)
| poll_sample rd instant now timestamp flushed st :
    poll_step st (sample_tick rd instant now timestamp flushed st).
End polling.

(** ** The streaming loop *)

Record ContainerSample := mkContainerSample {
  smp_container_id : string;
  smp_name : string;
  smp_stats : ContainerStats;
  smp_labels : gmap string string;
}.

Definition to_metric_row (timestamp : string) (s : ContainerSample) : ContainerMetricRow :=
  let stats := smp_stats s in
  let mb n := f64_div (f64_of_u64 n) BYTES_PER_MB in
  let net := network_bytes stats in
  let block := block_io_bytes stats in
  mkContainerMetricRow None timestamp (short (smp_container_id s)) (smp_name s)
    (cpu_percent stats) (used_percent (st_memory stats))
    (mb (used_bytes (st_memory stats))) (mb (mem_limit (st_memory stats)))
    (mb net.1) (mb net.2) (mb block.1) (mb block.2)
    (smp_labels s !! APPLICATION_LABEL ≫= parse_i64) (smp_labels s !! COMPOSE_LABEL ≫= parse_i64).

Record StreamLoop := mkStreamLoop {
  sl_latest : gmap string ContainerMetricRow;
  sl_store : Store;
}.

(** The [samples.recv()] branch *)
Definition receive (timestamp : string) (s : ContainerSample) (l : StreamLoop) : StreamLoop :=
  mkStreamLoop (<[smp_container_id s := to_metric_row timestamp s]> (sl_latest l)) (sl_store l).

(** The [flush.tick()] branch *)
Definition flush_latest (parse_rfc3339 : string → option Z) (now : Z) (l : StreamLoop) : StreamLoop :=
  if bool_decide (sl_latest l = ∅) then l
  else mkStreamLoop ∅ (save_container_metrics_batch parse_rfc3339 now (values (sl_latest l)) (sl_store l)).

(** ** What the collector keeps *)

Record collector_ok (f : ContainerFilter) (c : CgroupCollector) : Prop := {
  co_filter : cc_filter c = f;
  co_known : ∀ id, is_Some (cc_previous c !! id) → is_Some (cc_containers c !! id);
  co_watched : map_Forall (λ _ i, should_monitor f (ci_name i) = true) (cc_containers c);
}.

Lemma identified_watched f summaries m :
  map_Forall (λ _ i, should_monitor f (ci_name i) = true) m →
  map_Forall (λ _ i, should_monitor f (ci_name i) = true) (foldl (identify f) m summaries).
Proof.
  revert m. induction summaries as [|s l IH]; intros m Hm; simpl; [done|]. apply IH.
  unfold identify. destruct (should_monitor f (display_name s)) eqn:E; [|done].
  by apply map_Forall_insert_2.
Qed.

Lemma refresh_ok {E} f (answer : result (list ContainerSummary) E) c :
  collector_ok f c → collector_ok f (refresh_containers answer c).
Proof.
  intros [Hf Hk Hw]. destruct answer as [l|e]; [|done]. split; simpl; [done| |].
  - intros id [p H]. by apply map_lookup_filter_Some in H as [_ H].
  - rewrite Hf. apply identified_watched, map_Forall_empty.
Qed.

Lemma read_many_lookup rd containers id :
  read_many rd containers !! id = containers !! id ≫= λ _, rd id.
Proof. apply map_lookup_imap. Qed.

Lemma omap_ext_in {A B} (f g : A → option B) (l : list A) :
  (∀ x, x ∈ l → f x = g x) → omap f l = omap g l.
Proof.
  induction l as [|x l IH]; intros H; [done|]. rewrite !omap_cons.
  rewrite (H x) by (apply elem_of_cons; auto).
  rewrite IH; [done|]. intros y Hy. apply H, elem_of_cons. auto.
Qed.

(** The previous samples after the loop, and the rows: an id occurs once among the samples, so
    the replacement of its previous sample disturbs no other row. *)
Lemma sample_loop timestamp now containers l rows previous :
  NoDup l.*1 → Forall (λ p, is_Some (containers !! p.1)) l →
  foldl (sample_one timestamp now containers) (rows, previous) l =
  (rows ++ omap (λ p : string * CgroupSample, (λ i, metric_row timestamp p.1 i
                match previous !! p.1 with Some prev => cpu_share prev p.2 now | None => f64_zero end p.2)
              <$> containers !! p.1) l,
   list_to_map (map (λ p, (p.1, mkPrevious p.2 now)) l) ∪ previous).
Proof.
  revert rows previous. induction l as [|[id s] l IH]; intros rows previous Hnd Hc; simpl.
  { by rewrite app_nil_r, map_empty_union. }
  apply NoDup_cons in Hnd as [Hid Hnd]. apply Forall_cons in Hc as [[i Hi] Hc]. simpl in Hi, Hid.
  rewrite Hi. rewrite (IH _ _ Hnd Hc). simpl. f_equal.
  - rewrite <- app_assoc. simpl. do 2 f_equal. apply omap_ext_in. intros [id' s'] Hin. simpl.
    rewrite lookup_insert_ne; [done|]. intros ->. apply Hid, list_elem_of_fmap. by exists (id', s').
  - rewrite <- insert_union_r, insert_union_l; [done|]. apply not_elem_of_list_to_map_1.
    rewrite list_elem_of_fmap. intros ([id' p] & -> & H). apply elem_of_mapb in H as ([id'' s''] & [= -> ->] & H).
    apply Hid, list_elem_of_fmap. by exists (id'', s'').
Qed.

Definition share_since (previous : gmap string Previous) (id : string) (s : CgroupSample) (now : Z) : f64 :=
  match previous !! id with Some prev => cpu_share prev s now | None => f64_zero end.

Lemma sample_eq rd timestamp now c :
  let samples := map_to_list (read_many rd (cc_containers c)) in
  sample rd timestamp now c =
  (omap (λ p : string * CgroupSample, (λ i, metric_row timestamp p.1 i
           (share_since (cc_previous c) p.1 p.2 now) p.2) <$> cc_containers c !! p.1) samples,
   mkCgroupCollector (cc_filter c)
     (list_to_map (map (λ p, (p.1, mkPrevious p.2 now)) samples) ∪ cc_previous c) (cc_containers c)).
Proof.
  intros samples. unfold sample. fold samples. rewrite sample_loop.
  - done.
  - apply NoDup_fst_map_to_list.
  - apply Forall_forall. intros [id s] H%elem_of_map_to_list. simpl.
    rewrite read_many_lookup in H. apply bind_Some in H as (i & H & _). by exists i.
Qed.

(** The previous samples after a sample are the samples just read, and the old ones of the
    containers that could not be read. *)
Lemma sample_previous rd timestamp now c id :
  cc_previous (sample rd timestamp now c).2 !! id =
  match cc_containers c !! id ≫= λ _, rd id with
  | Some s => Some (mkPrevious s now)
  | None => cc_previous c !! id
  end.
Proof.
  rewrite sample_eq. simpl. rewrite lookup_union.
  assert (list_to_map (map (λ p : string * CgroupSample, (p.1, mkPrevious p.2 now))
            (map_to_list (read_many rd (cc_containers c)))) =
          (λ s, mkPrevious s now) <$> read_many rd (cc_containers c)) as ->.
  { rewrite <- (list_to_map_to_list (read_many rd (cc_containers c))) at 2.
    by rewrite <- list_to_map_fmap. }
  rewrite lookup_fmap, read_many_lookup.
  destruct (cc_containers c !! id); simpl; [|by destruct (cc_previous c !! id)].
  by destruct (rd id), (cc_previous c !! id).
Qed.

(** A sample gives one row for each container of the collector whose cgroup can be read, with
    the identity of the container and the share of a processor it has used since its previous
    sample, and none else. *)
Lemma sample_rows rd timestamp now c r :
  r ∈ (sample rd timestamp now c).1 ↔
  ∃ id identity s, cc_containers c !! id = Some identity ∧ rd id = Some s ∧
    r = metric_row timestamp id identity (share_since (cc_previous c) id s now) s.
Proof.
  rewrite sample_eq; simpl. rewrite list_elem_of_omap. split.
  - intros ([id s] & Hin & H). apply elem_of_map_to_list in Hin. rewrite read_many_lookup in Hin.
    simpl in H. destruct (cc_containers c !! id) as [i|] eqn:E; [|done]. simpl in Hin, H.
    exists id, i, s. by simplify_eq.
  - intros (id & i & s & Hi & Hs & ->). exists (id, s). split.
    + apply elem_of_map_to_list. rewrite read_many_lookup, Hi. done.
    + simpl. by rewrite Hi.
Qed.

Lemma sample_ok f rd timestamp now c : collector_ok f c → collector_ok f (sample rd timestamp now c).2.
Proof.
  intros [Hf Hk Hw]. split; [by rewrite sample_eq| |by rewrite sample_eq].
  intros id. rewrite sample_previous.
  assert (cc_containers (sample rd timestamp now c).2 = cc_containers c) as -> by (by rewrite sample_eq).
  destruct (cc_containers c !! id) eqn:E; [by eexists|]. simpl. intros H. specialize (Hk id H).
  by rewrite E in Hk.
Qed.

(** ** From the filter to the store *)

Definition watched_name (f : ContainerFilter) (name : string) : Prop :=
  should_monitor f name = true ∨ ∃ m, name = m +:+ PEAK_SUFFIX ∧ should_monitor f m = true.

Record poll_ok (f : ContainerFilter) (st : PollState) : Prop := {
  po_collector : collector_ok f (ps_collector st);
  po_windows : map_Forall (λ _ a, should_monitor f (acc_name a) = true) (windows (ps_rollup st));
  po_store : Forall (λ r, watched_name f (cm_name r)) (container_metrics (ps_store st));
}.

Lemma sample_rows_watched f rd timestamp now c :
  collector_ok f c → Forall (λ r, should_monitor f (cm_name r) = true) (sample rd timestamp now c).1.
Proof.
  intros [_ _ Hw]. apply Forall_forall. intros r (id & i & s & Hi & _ & ->)%sample_rows.
  by apply (Hw id i).
Qed.

Lemma add_rows_watched f rows m :
  Forall (λ r, should_monitor f (cm_name r) = true) rows →
  map_Forall (λ _ a, should_monitor f (acc_name a) = true) m →
  map_Forall (λ _ a, should_monitor f (acc_name a) = true) (foldl add_row m rows).
Proof.
  intros Hr. revert m. induction Hr as [|r rows Hr _ IH]; intros m Hm; simpl; [done|].
  apply IH. by apply map_Forall_insert_2.
Qed.

Lemma finish_watched f timestamp a :
  should_monitor f (acc_name a) = true → Forall (λ r, watched_name f (cm_name r)) (finish timestamp a).
Proof.
  intros H. unfold finish. destruct (count a =? 0)%Z; [done|]. apply Forall_cons; split; [by left|].
  apply Forall_cons; split; [|done]. right. by exists (acc_name a).
Qed.

Lemma rollup_add_watched f timestamp rows r :
  Forall (λ r, should_monitor f (cm_name r) = true) rows →
  map_Forall (λ _ a, should_monitor f (acc_name a) = true) (windows r) →
  Forall (λ r, watched_name f (cm_name r)) (rollup_add timestamp rows r).1 ∧
  map_Forall (λ _ a, should_monitor f (acc_name a) = true) (windows (rollup_add timestamp rows r).2).
Proof.
  intros Hr Hm. pose proof (add_rows_watched f rows _ Hr Hm) as H. unfold rollup_add; simpl.
  destruct (existsb _ _); simpl; [|done]. split; [|apply map_Forall_empty].
  apply Forall_forall. intros x Hx. rewrite list_elem_of_In, in_flat_map in Hx.
  destruct Hx as (a & Ha & Hx). apply list_elem_of_In in Ha. apply list_elem_of_In in Hx.
  apply elem_of_values in Ha as [k Ha]. pose proof (finish_watched f timestamp a (H k a Ha)) as Hf.
  rewrite Forall_forall in Hf. by apply Hf.
Qed.

Lemma saved_rows_watched (P : string → Prop) parse now metrics s :
  Forall (λ r, P (cm_name r)) metrics → Forall (λ r, P (cm_name r)) (container_metrics s) →
  Forall (λ r, P (cm_name r)) (container_metrics (save_container_metrics_batch parse now metrics s)).
Proof.
  intros Hm Hs. unfold save_container_metrics_batch.
  destruct (number_rows metrics (sequence s)) as [rows seq] eqn:E; simpl.
  assert (Forall (λ r, P (cm_name r)) rows) as Hr.
  { clear Hs. revert rows seq E. generalize (sequence s) as n. induction Hm as [|m metrics Hm _ IH]; simpl; intros n rows seq.
    - by intros [= <- <-].
    - destruct (number_rows metrics _) as [rows' seq'] eqn:E. intros [= <- <-]. constructor; [done|].
      by eapply IH. }
  destruct (prune_suffix parse now cm_timestamp (container_metrics s ++ rows)) as [old E'].
  assert (Forall (λ r, P (cm_name r)) (container_metrics s ++ rows)) as H by (by apply Forall_app).
  rewrite E' in H. by apply Forall_app in H as [_ H].
Qed.

Lemma sample_tick_ok f parse rd instant now timestamp flushed st :
  poll_ok f st → poll_ok f (sample_tick parse rd instant now timestamp flushed st).
Proof.
  intros [Hc Hw Hs]. unfold sample_tick.
  pose proof (sample_ok f rd timestamp instant (ps_collector st) Hc) as Hc'.
  pose proof (sample_rows_watched f rd timestamp instant (ps_collector st) Hc) as Hr.
  destruct (sample rd timestamp instant (ps_collector st)) as [rows c]. simpl in Hc', Hr.
  destruct rows as [|r rows]; [by split|].
  assert (Forall (λ r, watched_name f (cm_name r)) (r :: rows)) as Hr'.
  { eapply Forall_impl; [exact Hr|]. intros x Hx. by left. }
  pose proof (rollup_add_watched f flushed (r :: rows) (ps_rollup st) Hr Hw) as [H1 H2].
  destruct (is_passthrough (ps_rollup st)).
  - split; simpl; [done..|]. by apply (saved_rows_watched (watched_name f)).
  - destruct (rollup_add flushed (r :: rows) (ps_rollup st)) as [out roll]. simpl in H1, H2.
    destruct out; split; simpl; try done. by apply (saved_rows_watched (watched_name f)).
Qed.

Lemma poll_steps_ok f parse st st' : rtc (poll_step parse) st st' → poll_ok f st → poll_ok f st'.
Proof.
  induction 1 as [|st st1 st2 Hs _ IH]; [done|]. intros H. apply IH.
  destruct Hs as [answer st|]; [|by apply sample_tick_ok].
  destruct H as [Hc Hw Hst]. split; simpl; [by apply refresh_ok|done..].
Qed.

(** Whatever the polling loop does, in any order of refreshes and samples and with any answers
    of the engine: every row it stores carries the name of a container the filter lets through,
    or such a name with the peak suffix; the collector keeps previous samples of known
    containers only, and knows only containers that the filter lets through. *)
Theorem only_watched_containers_are_stored f rollup_samples parse st :
  rtc (poll_step parse) (start_polling f rollup_samples new_store) st →
  collector_ok f (ps_collector st) ∧
  ∀ r, r ∈ container_metrics (ps_store st) → watched_name f (cm_name r).
Proof.
  intros Hs. assert (poll_ok f st) as [Hc _ Hst].
  { eapply poll_steps_ok; [exact Hs|]. split; simpl; [|apply map_Forall_empty|constructor].
    split; simpl; [done| |apply map_Forall_empty]. intros id. rewrite lookup_empty. by intros [? ?]. }
  split; [done|]. intros r Hr. rewrite Forall_forall in Hst. by apply Hst.
Qed.

(** ** A host with one container *)

Definition web_summary : ContainerSummary :=
  mkContainerSummary "0123456789abcdef" ["/web"] {[APPLICATION_LABEL := "7"]} "running" "Up".
Definition db_summary : ContainerSummary := mkContainerSummary "fedcba9876543210" ["/db"] ∅ "running" "Up".
Definition cgroup_files : gmap string string :=
  {["/sys/fs/cgroup/system.slice/docker-0123456789abcdef.scope/cpu.stat" := "usage_usec 1500000";
    "/sys/fs/cgroup/system.slice/docker-0123456789abcdef.scope/memory.current" := "2097152";
    "/sys/fs/cgroup/system.slice/docker-0123456789abcdef.scope/memory.stat" := "inactive_file 1048576";
    "/sys/fs/cgroup/system.slice/docker-0123456789abcdef.scope/memory.max" := "max"]}.
Definition read_web : string → option CgroupSample := read "/sys/fs/cgroup" cgroup_files [].

Definition polled (rollup_samples : Z) : PollState :=
  sample_tick seconds_clock read_web 0 1000000000000 "1000" "1000"
    (refresh_tick (E := string) (Ok [web_summary; db_summary])
      (start_polling (mkContainerFilter ["web"] []) rollup_samples new_store)).

Lemma only_watched_containers_are_stored_witness :
  map (λ r, (cm_name r, cm_application_id r)) (container_metrics (ps_store (polled 1))) = [("web", Some 7%Z)] ∧
  (∀ r, r ∈ container_metrics (ps_store (polled 1)) → watched_name (mkContainerFilter ["web"] []) (cm_name r)).
Proof.
  split; [vm_compute; reflexivity|].
  apply (only_watched_containers_are_stored (mkContainerFilter ["web"] []) 1 seconds_clock (polled 1)).
  eapply rtc_l; [apply (poll_refresh _ (Ok [web_summary; db_summary]))|].
  eapply rtc_l; [apply poll_sample|apply rtc_refl].
Defined.

(** With rollups the same container is stored without its application. *)
Example rollup_drops_the_application :
  let twice := sample_tick seconds_clock read_web 1000000000 1002000000000 "1002" "1002" (polled 2) in
  map (λ r, (cm_name r, cm_application_id r)) (container_metrics (ps_store twice))
  = [("web", None); ("web (peak)", None)].
Proof. vm_compute. reflexivity. Qed.

(** The stored share: half a second of processor time in one second. *)
Example half_a_processor :
  cpu_share (mkPrevious (mkCgroupSample 1000000 0 0 0 0 0) 0) (mkCgroupSample 1500000 0 0 0 0 0) 1000000000
  = f64_of_Z 50.
Proof. vm_compute. reflexivity. Qed.
