(* ===== verification/AgentService.v ===== *)
(** * Configuration and queries of the agent

    [agent/src/config.rs], the interceptor of [agent/src/tasks/grpc.rs] and the handlers of
    [agent/src/grpc.rs]: reading and checking the environment, and the metric, state and log
    queries of the panel with their token, server id and limits. *)

From stdpp Require Import gmap strings list.
From Stdlib Require Import ZArith Lia Ascii.
From S2P Require Import Prelude RustStr RustText F64 AgentFilter AgentLogs AgentDocker AgentStore.

(** ** Configuration *)

Inductive CollectionMode := Auto | Cgroup | Stream.

Definition collection_mode_from_str (s : string) : option CollectionMode :=
  let s := to_ascii_lowercase (trim s) in
  if bool_decide (s = "auto") then Some Auto
  else if bool_decide (s = "cgroup") then Some Cgroup
  else if bool_decide (s = "stream") then Some Stream
  else None.

Record Config := mkConfig {
  server_id : Z;
  database_url : string;
  grpc_port : Z;
  refresh_rate : Z;
  retention_days : Z;
  panel_url : string;
  metrics_token : string;
  docker_socket : string;
  include_containers : list string;
  exclude_containers : list string;
  collection_mode : CollectionMode;
  rollup_samples : Z;
}.

(** The messages of the errors name the variable and what was found. *)
Inductive ConfigError :=
| InvalidValue (key raw : string)
| ServerIdNotPositive (got : Z)
| RefreshRateZero
| RetentionNotPositive (got : Z)
| PanelUrlScheme (got : string)
| TokenMissing.

Definition Env := gmap string string.

(** A variable that is not set or blank gives the default. *)
Definition parse_var {A} (parse : string → option A) (env : Env) (key : string) (dflt : A)
    : result A ConfigError :=
  match env !! key with
  | Some raw => if str_is_empty (trim raw) then Ok dflt
                else ok_or (parse (trim raw)) (InvalidValue key raw)
  | None => Ok dflt
  end.

Definition validate (c : Config) : result unit ConfigError :=
  if (server_id c <=? 0)%Z then Err (ServerIdNotPositive (server_id c))
  else if (refresh_rate c =? 0)%Z then Err RefreshRateZero
  else if (retention_days c <=? 0)%Z then Err (RetentionNotPositive (retention_days c))
  else if negb (starts_with "http://" (panel_url c)) && negb (starts_with "https://" (panel_url c))
  then Err (PanelUrlScheme (panel_url c))
  else if str_is_empty (trim (metrics_token c)) then Err TokenMissing
  else Ok tt.

Definition from_env (env : Env) : result Config ConfigError :=
  let? server_id := parse_var parse_i64 env "SERVER_ID" 1%Z in
  let? grpc_port := parse_var (parse_unsigned (2 ^ 16)) env "GRPC_PORT" 50051%Z in
  let? refresh_rate := parse_var parse_u64 env "REFRESH_RATE" 2%Z in
  let? retention_days := parse_var parse_i64 env "RETENTION_DAYS" 7%Z in
  let? collection_mode := parse_var collection_mode_from_str env "COLLECTION_MODE" Auto in
  let? rollup_samples := parse_var (parse_unsigned (2 ^ 32)) env "ROLLUP_SAMPLES" 1%Z in
  let config := mkConfig server_id
    (default "memory://metrics" (env !! "MONITOR_DATABASE_URL"))
    grpc_port refresh_rate retention_days
    (default "http://127.0.0.1:4000" (or_else (env !! "OPENOXIDE_SERVER_URL") (env !! "RUSTPLOY_SERVER_URL")))
    (default "" (env !! "METRICS_TOKEN"))
    (default "/var/run/docker.sock" (env !! "DOCKER_SOCKET"))
    (parse_patterns (default "" (env !! "INCLUDE_CONTAINERS")))
    (parse_patterns (default "" (env !! "EXCLUDE_CONTAINERS")))
    collection_mode rollup_samples in
  let? _ := validate config in Ok config.

Definition container_filter (c : Config) : ContainerFilter :=
  mkContainerFilter (include_containers c) (exclude_containers c).

(** ** Queries *)

Inductive Status :=
| Unauthenticated
| NotFound (serves requested : Z)
| Unavailable
| InvalidArgument.

(** [authenticate]: [supplied] is the value of [x-metrics-token], [None] when it is missing or
    not visible ASCII. *)
Definition authenticate (token : string) (supplied : option string) : result unit Status :=
  if bool_decide (supplied = Some token) then Ok tt else Err Unauthenticated.

Definition check_server_id (own requested : Z) : result unit Status :=
  if (requested =? own)%Z then Ok tt else Err (NotFound own requested).

Definition DEFAULT_LIMIT : Z := 50.
Definition MAX_LIMIT : Z := 1000.
Definition clamp_limit (raw : Z) : Z := if (raw <=? 0)%Z then DEFAULT_LIMIT else Z.min raw MAX_LIMIT.

(** The points of the answers are the rows, with zero for an absent id. *)
Definition or_zero (id : option Z) : option Z := Some (default 0%Z id).
Definition server_point (r : ServerMetric) : ServerMetric := set_sm_id (or_zero (sm_id r)) r.
Definition container_point (r : ContainerMetricRow) : ContainerMetricRow :=
  mkContainerMetricRow (or_zero (cm_id r)) (cm_timestamp r) (cm_container_id r) (cm_name r) (cm_cpu_perc r)
    (cm_mem_perc r) (cm_mem_used_mb r) (cm_mem_total_mb r) (cm_net_in_mb r) (cm_net_out_mb r)
    (cm_block_read_mb r) (cm_block_write_mb r) (or_zero (cm_application_id r)) (or_zero (cm_compose_id r)).

Record ContainerStatePoint := mkContainerStatePoint {
  sp_container_id : string;
  sp_name : string;
  sp_state : string;
  sp_status : string;
  sp_application_id : Z;
  sp_compose_id : Z;
  sp_compose_project : string;
  sp_compose_service : string;
}.

Definition label_id_or_zero (labels : gmap string string) (key : string) : Z :=
  default 0%Z (labels !! key ≫= parse_i64).

Definition container_state (row : ContainerSummary) : ContainerStatePoint :=
  mkContainerStatePoint (short (cs_id row)) (display_name row) (cs_state row) (cs_status row)
    (label_id_or_zero (cs_labels row) "com.openoxide.application-id")
    (label_id_or_zero (cs_labels row) "com.openoxide.compose-id")
    (default "" (cs_labels row !! "com.docker.compose.project"))
    (default "" (cs_labels row !! "com.docker.compose.service")).

Inductive Query :=
| GetServerMetrics (requested limit : Z)
| GetContainerMetrics (requested : Z) (app_name : string) (limit : Z)
| GetContainerStates (requested : Z)
| StreamLogs (container_id : string) (tail_lines : Z).

Inductive Answer :=
| ServerMetrics (points : list ServerMetric)
| ContainerMetrics (points : list ContainerMetricRow)
| ContainerStates (containers : list ContainerStatePoint)
| Logs (chunks : list LogChunk).

(** What the container engine answers: the list of all containers, and the log of one *)
Record Engine := mkEngine {
  list_all : result (list ContainerSummary) string;
  logs_of : string → Z → result (list ascii) string;
}.

Section handlers.
Context (parse_rfc3339 : string → option Z) (own : Z) (token : string).

Definition get_server_metrics (now requested limit : Z) (s : Store) : result Answer Status * Store :=
  match check_server_id own requested with
  | Err e => (Err e, s)
  | Ok _ => let '(rows, s) := get_last_n_server_metrics parse_rfc3339 now (clamp_limit limit) s in
            (Ok (ServerMetrics (map server_point rows)), s)
  end.

Definition get_container_metrics (now requested : Z) (app_name : string) (limit : Z) (s : Store)
    : result Answer Status * Store :=
  match check_server_id own requested with
  | Err e => (Err e, s)
  | Ok _ => let '(rows, s) := get_last_n_container_metrics parse_rfc3339 now app_name (clamp_limit limit) s in
            (Ok (ContainerMetrics (map container_point rows)), s)
  end.

Definition get_container_states (engine : Engine) (requested : Z) : result Answer Status :=
  match check_server_id own requested with
  | Err e => Err e
  | Ok _ => match list_all engine with
            | Err _ => Err Unavailable
            | Ok rows => Ok (ContainerStates (map container_state rows))
            end
  end.

Definition handle (now : Z) (engine : Engine) (q : Query) (s : Store) : result Answer Status * Store :=
  match q with
  | GetServerMetrics requested limit => get_server_metrics now requested limit s
  | GetContainerMetrics requested app_name limit => get_container_metrics now requested app_name limit s
  | GetContainerStates requested => (get_container_states engine requested, s)
  | StreamLogs container_id tail_lines =>
      (Ok (Logs (stream_logs container_id (now / 1000000000) (logs_of engine container_id (requested_tail tail_lines)))), s)
  end.

(** [MonitoringServiceServer::with_interceptor] *)
Definition serve (now : Z) (engine : Engine) (supplied : option string) (q : Query) (s : Store)
    : result Answer Status * Store :=
  match authenticate token supplied with
  | Err e => (Err e, s)
  | Ok _ => handle now engine q s
  end.
End handlers.

(** ** What a configuration and an answer guarantee *)

Lemma validate_ok c :
  validate c = Ok tt →
  (0 < server_id c)%Z ∧ (refresh_rate c ≠ 0)%Z ∧ (0 < retention_days c)%Z ∧
  (starts_with "http://" (panel_url c) = true ∨ starts_with "https://" (panel_url c) = true) ∧
  trim (metrics_token c) ≠ "".
Proof.
  unfold validate. intros H.
  destruct (Z.leb_spec (server_id c) 0); [done|].
  destruct (Z.eqb_spec (refresh_rate c) 0); [done|].
  destruct (Z.leb_spec (retention_days c) 0); [done|].
  destruct (starts_with "http://" (panel_url c)) eqn:E1, (starts_with "https://" (panel_url c)) eqn:E2;
    simpl in H; try done;
    (unfold str_is_empty in H; case_bool_decide as Ht; [done|]; split_and!; auto; lia).
Qed.

Lemma from_env_ok env c : from_env env = Ok c → validate c = Ok tt.
Proof.
  unfold from_env. intros H.
  do 6 (apply let_ok in H as (? & _ & H)).
  apply let_ok in H as ([] & Hv & H). by injection H as <-.
Qed.

Definition query_server (q : Query) : option Z :=
  match q with
  | GetServerMetrics requested _ | GetContainerMetrics requested _ _ | GetContainerStates requested => Some requested
  | StreamLogs _ _ => None
  end.

(** The number of metric rows of an answer *)
Definition metric_rows (a : Answer) : nat :=
  match a with
  | ServerMetrics points => length points
  | ContainerMetrics points => length points
  | _ => 0
  end.

Lemma clamp_limit_bounds raw : (1 ≤ clamp_limit raw ≤ MAX_LIMIT)%Z.
Proof. unfold clamp_limit, DEFAULT_LIMIT, MAX_LIMIT. destruct (Z.leb_spec raw 0); lia. Qed.

Lemma take_clamped {A} (l : list A) raw : length (take (Z.to_nat (Z.max (clamp_limit raw) 0)) l) ≤ 1000.
Proof.
  pose proof (clamp_limit_bounds raw) as H. unfold MAX_LIMIT in H. rewrite length_take. lia.
Qed.

Lemma check_server_id_ok own requested u : check_server_id own requested = Ok u → requested = own.
Proof. unfold check_server_id. by destruct (Z.eqb_spec requested own). Qed.

Lemma handle_ok parse own now engine q s a s' :
  handle parse own now engine q s = (Ok a, s') →
  (∀ id, query_server q = Some id → id = own) ∧ metric_rows a ≤ 1000.
Proof.
  destruct q as [req lim|req app lim|req|id tail]; simpl;
    unfold get_server_metrics, get_container_metrics, get_container_states; intros H.
  1-3: destruct (check_server_id own req) as [u|e] eqn:E; [|done]; apply check_server_id_ok in E as ->.
  - injection H as <- _. split; [by intros ? [= <-]|]. simpl. rewrite length_map. apply take_clamped.
  - injection H as <- _. split; [by intros ? [= <-]|]. simpl. rewrite length_map. apply take_clamped.
  - destruct (list_all engine); [|done]. injection H as <- _. split; [by intros ? [= <-]|simpl; lia].
  - injection H as <- _. split; [done|simpl; lia].
Qed.

Lemma handle_err parse own now engine q s e s' : handle parse own now engine q s = (Err e, s') → s' = s.
Proof.
  destruct q; simpl; unfold get_server_metrics, get_container_metrics, get_container_states;
    repeat case_match; by intros [= -> ->] || intros [=].
Qed.

(** An agent whose configuration was accepted answers a query only when it carries the
    configured token, which is not blank, and, if the query names a server, names this one; an
    answer has at most a thousand metric rows, and a refusal changes nothing. *)
Theorem agent_answers_only_the_panel env c parse now engine supplied q s r s' :
  from_env env = Ok c →
  serve parse (server_id c) (metrics_token c) now engine supplied q s = (r, s') →
  match r with
  | Ok a => supplied = Some (metrics_token c) ∧ trim (metrics_token c) ≠ "" ∧
            (∀ id, query_server q = Some id → id = server_id c) ∧ metric_rows a ≤ 1000
  | Err _ => s' = s
  end.
Proof.
  intros Hc%from_env_ok%validate_ok H. destruct Hc as (_ & _ & _ & _ & Ht).
  unfold serve, authenticate in H. case_bool_decide as Hs.
  - destruct r as [a|e]; [|by eapply handle_err].
    apply handle_ok in H as [H1 H2]. auto.
  - by injection H as <- <-.
Qed.

Definition sample_env : Env :=
  {["METRICS_TOKEN" := "secret"; "SERVER_ID" := " 5 "; "INCLUDE_CONTAINERS" := "web, db"]}.
Definition sample_config : Config :=
  mkConfig 5 "memory://metrics" 50051 2 7 "http://127.0.0.1:4000" "secret" "/var/run/docker.sock"
    ["web"; "db"] [] Auto 1.
Definition silent_engine : Engine := mkEngine (Ok []) (λ _ _, Ok []).

Lemma sample_env_config : from_env sample_env = Ok sample_config.
Proof. vm_compute. reflexivity. Qed.

Lemma agent_answers_only_the_panel_witness :
  serve seconds_clock 5 "secret" 0 silent_engine (Some "secret") (GetContainerMetrics 5 "" 10) new_store
  = (Ok (ContainerMetrics []), new_store) ∧ trim "secret" ≠ "".
Proof.
  split; [vm_compute; reflexivity|].
  refine (proj1 (proj2 (agent_answers_only_the_panel sample_env sample_config seconds_clock 0 silent_engine
    (Some "secret") (GetContainerMetrics 5 "" 10) new_store (Ok (ContainerMetrics [])) new_store
    sample_env_config _))).
  vm_compute. reflexivity.
Defined.

(** The logs of any container are sent without the id of a server. *)
Example logs_name_no_server :
  query_server (StreamLogs "c" 0) = None ∧
  (serve seconds_clock 5 "secret" 0 silent_engine (Some "secret") (StreamLogs "c" 0) new_store).1 = Ok (Logs []).
Proof. split; vm_compute; reflexivity. Qed.

(** Without any variable but the token the agent samples every two seconds. *)
Example default_refresh_rate :
  refresh_rate <$> result_ok (from_env {["METRICS_TOKEN" := "secret"]}) = Some 2%Z.
Proof. vm_compute. reflexivity. Qed.
