(* ===== verification/Monitoring.v ===== *)
(** * The panel and its monitoring agents

    [services/monitoring/agent_auth.rs], [db/repository/monitoring_agents.rs] and
    [services/monitoring/monitoring_service.rs]: the tokens of the agents, and the queries the
    panel sends them.  An agent is its accepted configuration and its store, and answers as
    AgentService shows.  SHA-256, random bytes and the check of a gRPC metadata value are
    parameters. *)

From stdpp Require Import gmap strings list.
From Stdlib Require Import ZArith Lia.
From S2P Require Import Prelude RustStr F64 AgentLogs AgentDocker AgentStore AgentService.

(** ** Tokens of the agents *)

Record MonitoringAgent := mkMonitoringAgent {
  ma_organization_id : Z;
  ma_token_hash : string;
  ma_query_token : option string;
  ma_last_seen_at : option Z;
}.

(** [monitoring_agents], by server *)
Notation AgentTable := (gmap Z MonitoringAgent).

Section tokens.
Context (sha256_hex : string → string).

Definition agent_rotate_row (server_id organization_id : Z) (token hash : string) (t : AgentTable) : AgentTable :=
  <[server_id := mkMonitoringAgent organization_id hash (Some token)
                   (t !! server_id ≫= ma_last_seen_at)]> t.

Definition register_token (server_id organization_id : Z) (token : string) (t : AgentTable) : AgentTable :=
  agent_rotate_row server_id organization_id token (sha256_hex token) t.

(** [rotate]: [uuid] is the simple rendering of a fresh version 4 UUID *)
Definition rotate (server_id organization_id : Z) (uuid : string) (t : AgentTable) : string * AgentTable :=
  let token := "rma_" +:+ uuid in
  (token, register_token server_id organization_id token t).

Definition touch_seen (now server_id : Z) (t : AgentTable) : AgentTable :=
  alter (λ a, mkMonitoringAgent (ma_organization_id a) (ma_token_hash a) (ma_query_token a) (Some now)) server_id t.

Definition agent_authenticate (now server_id : Z) (token : string) (t : AgentTable) : bool * AgentTable :=
  match t !! server_id with
  | None => (false, t)
  | Some a => if bool_decide (ma_token_hash a = sha256_hex token) then (true, touch_seen now server_id t)
              else (false, t)
  end.

Definition query_token (server_id : Z) (t : AgentTable) : option string := t !! server_id ≫= ma_query_token.

(** After a rotation the new token, and no token with another digest, is accepted for the
    server; the tokens of the other servers are as before. *)
Lemma rotate_replaces server_id organization_id uuid t now token' other :
  let '(token, t') := rotate server_id organization_id uuid t in
  (agent_authenticate now server_id token t').1 = true ∧
  (sha256_hex token' ≠ sha256_hex token → (agent_authenticate now server_id token' t').1 = false) ∧
  query_token server_id t' = Some token ∧
  (other ≠ server_id → (agent_authenticate now other token' t').1 = (agent_authenticate now other token' t).1).
Proof.
  unfold rotate, register_token, agent_rotate_row, agent_authenticate, query_token. cbv beta iota.
  rewrite !lookup_insert_eq. simpl. split_and!.
  - by rewrite bool_decide_eq_true_2.
  - intros H. by rewrite bool_decide_eq_false_2 by congruence.
  - done.
  - intros H. rewrite lookup_insert_ne by done. destruct (t !! other); [|done]. by case_bool_decide.
Qed.
End tokens.

(** ** Queries *)

Record Agent := mkAgent { ag_config : Config; ag_store : Store; ag_engine : Engine }.

(** What the panel reads of its own tables, and the agents it can reach *)
Record Panel := mkPanel {
  pn_servers : list Z;
  pn_agents : AgentTable;
  pn_metrics_token : string;
  pn_reachable : gmap Z Agent;
}.

Inductive QueryError :=
| ServerNotFound (server_id : Z)
| AgentUnreachable (server_id : Z)
| TokenNotMetadata
| AgentRefused (status : Status).

Definition gauge : Type := string * f64.

Record ContainerMetric := mkContainerMetric {
  mc_id : option Z;
  mc_timestamp : Z;
  mc_container_id : string;
  mc_container_name : string;
  mc_metrics : list gauge;
  mc_server_id : Z;
  mc_application_id : option Z;
  mc_compose_id : option Z;
}.

Definition positive (z : Z) : option Z := if (0 <? z)%Z then Some z else None.

Section queries.
Context (parse_rfc3339 : string → option Z) (valid_metadata : string → bool).

(** [value.timestamp()] of a time in nanoseconds *)
Definition epoch_seconds (raw : string) : option Z := (λ t, t / 1000000000)%Z <$> parse_rfc3339 raw.

(** The request that [authenticated] builds: the token of the server, or the one of the panel *)
Definition authenticated (p : Panel) (server_id : Z) : result string QueryError :=
  let raw_token := default (pn_metrics_token p) (query_token server_id (pn_agents p)) in
  if valid_metadata raw_token then Ok raw_token else Err TokenNotMetadata.

(** One call: the server must exist, its agent answer, and the answer be a success; the agent's
    store is the one it has afterwards. *)
Definition call (now : Z) (p : Panel) (server_id : Z) (q : Query) : result Answer QueryError * Panel :=
  if bool_decide (server_id ∈ pn_servers p) then
    match pn_reachable p !! server_id with
    | None => (Err (AgentUnreachable server_id), p)
    | Some a =>
        match authenticated p server_id with
        | Err e => (Err e, p)
        | Ok token =>
            let '(answer, store) :=
              serve parse_rfc3339 (AgentService.server_id (ag_config a)) (metrics_token (ag_config a)) now
                (ag_engine a) (Some token) q (ag_store a) in
            let p' := mkPanel (pn_servers p) (pn_agents p) (pn_metrics_token p)
                        (<[server_id := mkAgent (ag_config a) store (ag_engine a)]> (pn_reachable p)) in
            match answer with
            | Err e => (Err (AgentRefused e), p')
            | Ok answer =>
                (Ok answer, mkPanel (pn_servers p) (touch_seen (now / 1000000000) server_id (pn_agents p))
                              (pn_metrics_token p) (pn_reachable p'))
            end
        end
    end
  else (Err (ServerNotFound server_id), p).

Definition container_metric (server_id : Z) (m : ContainerMetricRow) : ContainerMetric :=
  mkContainerMetric (positive (default 0%Z (cm_id m))) (default 0%Z (epoch_seconds (cm_timestamp m)))
    (cm_container_id m) (cm_name m)
    [("cpu_percent", cm_cpu_perc m); ("memory_percent", cm_mem_perc m); ("memory_used_mb", cm_mem_used_mb m);
     ("memory_limit_mb", cm_mem_total_mb m); ("net_rx_kbps", f64_mul (cm_net_in_mb m) (f64_of_Z 1024));
     ("net_tx_kbps", f64_mul (cm_net_out_mb m) (f64_of_Z 1024)); ("block_read_mb", cm_block_read_mb m);
     ("block_write_mb", cm_block_write_mb m)]
    server_id (positive (default 0%Z (cm_application_id m))) (positive (default 0%Z (cm_compose_id m))).

(** [limit.clamp(1, 1000)] *)
Definition query_limit (limit : Z) : Z := Z.min 1000 (Z.max 1 limit).

Definition container_history (now : Z) (p : Panel) (server_id : Z) (app_name : string) (limit : Z)
    : result (list ContainerMetric) QueryError * Panel :=
  let '(r, p') := call now p server_id (GetContainerMetrics server_id app_name (query_limit limit)) in
  match r with
  | Ok (ContainerMetrics points) => (Ok (map (container_metric server_id) points), p')
  | Ok _ => (Ok [], p')
  | Err e => (Err e, p')
  end.

Definition container_states (now : Z) (p : Panel) (server_id : Z)
    : result (list ContainerStatePoint) QueryError * Panel :=
  let '(r, p') := call now p server_id (GetContainerStates server_id) in
  match r with
  | Ok (ContainerStates containers) => (Ok containers, p')
  | Ok _ => (Ok [], p')
  | Err e => (Err e, p')
  end.

(** [newest.entry(container_id).or_insert(metric)]: the first reading of a container counts. *)
Definition first_of_container (m : gmap string ContainerMetric) (r : ContainerMetric) : gmap string ContainerMetric :=
  match m !! mc_container_id r with Some _ => m | None => <[mc_container_id r := r]> m end.

(** One server of [get_latest_container_metrics] *)
Definition latest_of_server (metrics : list ContainerMetric) : list ContainerMetric :=
  (map_to_list (foldl first_of_container ∅ metrics)).*2.

Fixpoint latest_of_servers (now : Z) (p : Panel) (servers : list Z) : list ContainerMetric :=
  match servers with
  | [] => []
  | server_id :: servers' =>
      let '(r, p') := container_history now p server_id "" 1000 in
      match r with Ok metrics => latest_of_server metrics | Err _ => [] end ++ latest_of_servers now p' servers'
  end.

Definition get_latest_container_metrics (now : Z) (p : Panel) : list ContainerMetric :=
  latest_of_servers now p (pn_servers p).
End queries.

(** ** What the panel learns *)

Lemma clamp_query_limit limit : clamp_limit (query_limit limit) = query_limit limit.
Proof. unfold clamp_limit, query_limit, MAX_LIMIT. destruct (Z.leb_spec (Z.min 1000 (Z.max 1 limit)) 0); lia. Qed.

(** The panel and the agent agree on the identity of the server and on the token. *)
Record agent_bound (valid_metadata : string → bool) (p : Panel) (server : Z) (a : Agent) : Prop := {
  ab_server : server ∈ pn_servers p;
  ab_reachable : pn_reachable p !! server = Some a;
  ab_identity : AgentService.server_id (ag_config a) = server;
  ab_token : metrics_token (ag_config a) = default (pn_metrics_token p) (query_token server (pn_agents p));
  ab_metadata : valid_metadata (metrics_token (ag_config a)) = true;
}.

Section facts.
Context (parse_rfc3339 : string → option Z) (valid_metadata : string → bool).

Lemma call_bound now p server a q :
  agent_bound valid_metadata p server a →
  (call parse_rfc3339 valid_metadata now p server q).1 =
  match (handle parse_rfc3339 server now (ag_engine a) q (ag_store a)).1 with
  | Ok answer => Ok answer
  | Err e => Err (AgentRefused e)
  end.
Proof.
  intros [H1 H2 H3 H4 H5]. unfold call, authenticated. rewrite bool_decide_eq_true_2 by done.
  rewrite H2, <- H4, H5, H3. unfold serve, authenticate. rewrite bool_decide_eq_true_2 by done.
  by destruct (handle _ _ _ _ _ _) as [[?|?] ?].
Qed.

(** When the panel and an agent agree on the server and on the token, a query of the panel for
    containers returns the newest rows of the agent's session whose container name contains the
    text, newest first, between one and a thousand of them, as readings of that server. *)
Theorem panel_reads_the_agent now p server a app_name limit :
  agent_bound valid_metadata p server a →
  in_order parse_rfc3339 cm_timestamp (container_metrics (ag_store a)) →
  (container_history parse_rfc3339 valid_metadata now p server app_name limit).1 =
  Ok (map (λ r, container_metric parse_rfc3339 server (container_point r))
        (take (Z.to_nat (query_limit limit)) (rev (List.filter
           (λ r, contains app_name (cm_name r) && negb (is_older parse_rfc3339 (cm_timestamp r) (cutoff now)))
           (container_metrics (ag_store a)))))).
Proof.
  intros Hb Ho.
  pose proof (call_bound now p server a (GetContainerMetrics server app_name (query_limit limit)) Hb) as H.
  unfold container_history. destruct (call _ _ _ _ _ _) as [r p']. simpl in H. subst r.
  unfold get_container_metrics, check_server_id. rewrite Z.eqb_refl, clamp_query_limit.
  pose proof (query_is_the_window parse_rfc3339 now app_name (query_limit limit) (ag_store a) Ho) as Hq.
  destruct (get_last_n_container_metrics _ _ _ _ _) as [rows s]. simpl in *. by rewrite Hq, map_map.
Qed.

(** An agent with another token refuses, and its store is not touched. *)
Lemma other_token_is_refused now p server a q :
  server ∈ pn_servers p → pn_reachable p !! server = Some a →
  metrics_token (ag_config a) ≠ default (pn_metrics_token p) (query_token server (pn_agents p)) →
  (∃ e, (call parse_rfc3339 valid_metadata now p server q).1 = Err e) ∧
  pn_reachable (call parse_rfc3339 valid_metadata now p server q).2 !! server = Some a.
Proof.
  intros H1 H2 H3. unfold call, authenticated. rewrite bool_decide_eq_true_2 by done. rewrite H2.
  destruct (valid_metadata _); simpl; [|by split; [eexists|]].
  unfold serve, authenticate. rewrite bool_decide_eq_false_2 by congruence. simpl.
  split; [by eexists|]. rewrite lookup_insert_eq. by destruct a.
Qed.

(** The readings used for alerts: of each container the newest one. *)
Lemma first_fold_lookup ms m k :
  foldl first_of_container m ms !! k =
  match m !! k with
  | Some r => Some r
  | None => List.find (λ r, bool_decide (mc_container_id r = k)) ms
  end.
Proof.
  revert m. induction ms as [|r ms IH]; intros m; simpl; [by destruct (m !! k)|].
  rewrite IH. unfold first_of_container. case_bool_decide as E.
  - subst k. destruct (m !! mc_container_id r) eqn:Em; [by rewrite Em|by rewrite lookup_insert_eq].
  - destruct (m !! mc_container_id r) eqn:Em; [done|]. by rewrite lookup_insert_ne.
Qed.

Lemma latest_is_the_newest ms r :
  r ∈ latest_of_server ms ↔ List.find (λ x, bool_decide (mc_container_id x = mc_container_id r)) ms = Some r.
Proof.
  unfold latest_of_server. rewrite list_elem_of_fmap. split.
  - intros ([k x] & -> & H). apply elem_of_map_to_list in H. rewrite first_fold_lookup, lookup_empty in H.
    simpl. pose proof H as H'. apply List.find_some in H' as [_ E].
    apply bool_decide_eq_true in E. by rewrite E.
  - intros H. exists (mc_container_id r, r). split; [done|].
    apply elem_of_map_to_list. by rewrite first_fold_lookup, lookup_empty.
Qed.
End facts.

(** ** An agent that was installed by the panel *)

Definition plain_hash (s : string) : string := s.
Definition installed_panel : Panel :=
  let '(token, agents) := rotate plain_hash 5 1 "0123" ∅ in
  mkPanel [5%Z] agents "panel"
    {[5%Z := mkAgent (mkConfig 5 "" 50051 2 7 "http://panel" token "" [] [] Auto 1)
               (save_container_metrics_batch seconds_clock 1000000000000
                  [plain_row "1000" "web"; plain_row "1000" "web (peak)"] new_store)
               silent_engine]}.

Definition installed_agent : Agent :=
  mkAgent (mkConfig 5 "" 50051 2 7 "http://panel" "rma_0123" "" [] [] Auto 1)
    (save_container_metrics_batch seconds_clock 1000000000000
       [plain_row "1000" "web"; plain_row "1000" "web (peak)"] new_store) silent_engine.

Lemma installed_agent_bound : agent_bound (λ _, true) installed_panel 5 installed_agent.
Proof. split; try (vm_compute; reflexivity). apply list_elem_of_singleton. reflexivity. Qed.

Lemma installed_in_order : in_order seconds_clock cm_timestamp (container_metrics (ag_store installed_agent)).
Proof.
  eapply in_order_cons; [vm_compute; reflexivity| |eapply in_order_cons; [vm_compute; reflexivity|..]; constructor].
  apply Forall_cons. split; [|by apply Forall_nil_2]. eexists. split; [vm_compute; reflexivity|lia].
Qed.

Lemma panel_reads_the_agent_witness :
  option_map (map mc_container_name)
    (result_ok (container_history seconds_clock (λ _, true) 1000000000000 installed_panel 5 "web" 10).1)
  = Some ["web (peak)"; "web"].
Proof.
  rewrite (panel_reads_the_agent seconds_clock (λ _, true) 1000000000000 installed_panel 5 installed_agent "web" 10
    installed_agent_bound installed_in_order).
  vm_compute. reflexivity.
Defined.

(** A rollup stores the peak row behind the average row under the same container, so the newest
    reading of the container is always the peak: averages are never evaluated. *)
Example peaks_are_evaluated :
  map mc_container_name (get_latest_container_metrics seconds_clock (λ _, true) 1000000000000 installed_panel)
  = ["web (peak)"].
Proof. vm_compute. reflexivity. Qed.
