(* ===== verification/Reconciler.v ===== *)
(** * Resource states from container states

    [services/monitoring/reconciler.rs] and the loop of [utils/background/monitoring.rs] around
    it: a snapshot of the containers of a server decides whether its applications, compose
    projects and databases run.  Every statement is one update of one table; the statements of
    a pass are taken to succeed. *)

From stdpp Require Import gmap strings list.
From Stdlib Require Import ZArith Lia.
From S2P Require Import Prelude RustStr AgentService.

Inductive ResourceKind := Application | Compose | Database.

(** The columns the reconciler reads: [replicas] counts for applications only. *)
Record Resource := mkResource {
  rs_id : Z;
  rs_app_name : string;
  rs_status : string;
  rs_replicas : Z;
  rs_server_id : option Z;
}.

Record ServerRow := mkServerRow { sv_ip_address : string; sv_status : string }.

(** The servers, and the resource tables in the order the reconciler visits them: applications,
    compose projects and the six kinds of databases *)
Record Tables := mkTables {
  tb_servers : gmap Z ServerRow;
  tb_resources : list (ResourceKind * list Resource);
}.

Definition set_rs_status (status : string) (r : Resource) : Resource :=
  mkResource (rs_id r) (rs_app_name r) status (rs_replicas r) (rs_server_id r).

Definition is_local_ip (ip : string) : bool :=
  bool_decide (ip ∈ ["127.0.0.1"; "localhost"; "openoxide-monitor"]).
Definition is_local_server (t : Tables) (server : Z) : bool :=
  match tb_servers t !! server with Some s => is_local_ip (sv_ip_address s) | None => false end.

Definition update_server (server : Z) (status : string) (t : Tables) : Tables :=
  mkTables (alter (λ s, mkServerRow (sv_ip_address s) status) server (tb_servers t)) (tb_resources t).

(** ** Matching and aggregation *)

Definition matches_resource (s : ContainerStatePoint) (kind : ResourceKind) (id : Z) (app_name : string) : bool :=
  match kind with
  | Application => (sp_application_id s =? id)%Z || contains app_name (sp_name s)
  | Compose => (sp_compose_id s =? id)%Z || bool_decide (sp_compose_project s = app_name)
               || contains app_name (sp_name s)
  | Database => contains app_name (sp_name s)
  end.

Definition is_running (s : ContainerStatePoint) : bool := bool_decide (sp_state s = "running").
Definition service_of (s : ContainerStatePoint) : string :=
  if str_is_empty (sp_compose_service s) then sp_name s else sp_compose_service s.

(** [services.entry(service).and_modify(|healthy| *healthy |= running).or_insert(running)] *)
Definition add_service (m : gmap string bool) (s : ContainerStatePoint) : gmap string bool :=
  <[service_of s := match m !! service_of s with Some healthy => healthy || is_running s | None => is_running s end]> m.

Definition verdict (ok : bool) : string := if ok then "RUNNING" else "ERROR".

Definition aggregate_status (states : list ContainerStatePoint) (kind : ResourceKind) (desired_replicas : Z)
    : option string :=
  match states with
  | [] => None
  | _ =>
      match kind with
      | Compose => Some (verdict (forallb (λ b, b) (map_to_list (foldl add_service ∅ states)).*2))
      | _ => Some (verdict (Z.max desired_replicas 1 <=? Z.of_nat (length (List.filter is_running states)))%Z)
      end
  end.

(** ** A pass *)

Definition observed (status : string) : bool :=
  bool_decide (status ∈ ["RUNNING"; "DONE"; "ERROR"; "HEALTHY"; "OK"; "SUCCESS"]).

Definition in_scope (local : bool) (server : Z) (r : Resource) : bool :=
  match rs_server_id r with Some s => (s =? server)%Z | None => local end.

Definition desired_of (kind : ResourceKind) (r : Resource) : Z :=
  match kind with Application => Z.max (rs_replicas r) 1 | _ => 1 end.

(** The body of the loop over the rows, with [update_resource_status] *)
Definition reconcile_row (kind : ResourceKind) (local : bool) (server : Z) (states : list ContainerStatePoint)
    (r : Resource) : Resource :=
  if in_scope local server r && observed (rs_status r) then
    let matching := List.filter (λ s, matches_resource s kind (rs_id r) (rs_app_name r)) states in
    let status := default "ERROR" (aggregate_status matching kind (desired_of kind r)) in
    set_rs_status (verdict (bool_decide (status = "RUNNING"))) r
  else r.

Definition reconcile_named_table (local : bool) (server : Z) (states : list ContainerStatePoint)
    (table : ResourceKind * list Resource) : ResourceKind * list Resource :=
  (table.1, map (reconcile_row table.1 local server states) table.2).

Definition apply_snapshot (server : Z) (states : list ContainerStatePoint) (t : Tables) : Tables :=
  let t := update_server server "ACTIVE" t in
  mkTables (tb_servers t) (map (reconcile_named_table (is_local_server t server) server states) (tb_resources t)).

Definition healthy (status : string) : bool :=
  bool_decide (status ∈ ["RUNNING"; "DONE"; "HEALTHY"; "OK"; "SUCCESS"]).

Definition offline_row (server : Z) (r : Resource) : Resource :=
  if bool_decide (rs_server_id r = Some server) && healthy (rs_status r) then set_rs_status "ERROR" r else r.

Definition mark_offline (server : Z) (t : Tables) : Tables :=
  let t := update_server server "INACTIVE" t in
  mkTables (tb_servers t) (map (λ table, (table.1, map (offline_row server) table.2)) (tb_resources t)).

(** What the watching loop of a server does: it applies the snapshots of a stream, and when the
    stream has ended it marks the server offline unless the server can still be reached. *)
Inductive WatchEvent :=
| Snapshot (states : list ContainerStatePoint)
| StreamEnded (ssh_reachable : bool).

Definition watch_event (server : Z) (t : Tables) (e : WatchEvent) : Tables :=
  match e with
  | Snapshot states => apply_snapshot server states t
  | StreamEnded reachable => if reachable then t else mark_offline server t
  end.

(** ** When a compose project runs *)

(** Some container of the service runs. *)
Definition service_runs (states : list ContainerStatePoint) (name : string) : bool :=
  existsb (λ s, bool_decide (service_of s = name) && is_running s) states.

Lemma services_lookup states m name :
  foldl add_service m states !! name =
  match m !! name with
  | Some b => Some (b || service_runs states name)
  | None => if existsb (λ s, bool_decide (service_of s = name)) states
            then Some (service_runs states name) else None
  end.
Proof.
  revert m. induction states as [|s states IH]; intros m; simpl.
  { destruct (m !! name); [by rewrite orb_false_r|done]. }
  rewrite IH. unfold add_service at 1. case_bool_decide as E; simpl.
  - subst name. rewrite lookup_insert_eq. destruct (m !! service_of s); by rewrite ?orb_assoc.
  - rewrite lookup_insert_ne by done. done.
Qed.

(** A compose project runs exactly when every service that has a container has a running one. *)
Lemma compose_runs states :
  states ≠ [] →
  aggregate_status states Compose 1 =
  Some (verdict (forallb (λ s, service_runs states (service_of s)) states)).
Proof.
  intros Hne. destruct states as [|s0 states0] eqn:Es; [done|]. rewrite <- Es in *.
  assert (aggregate_status states Compose 1 =
    Some (verdict (forallb (λ b, b) (map_to_list (foldl add_service ∅ states)).*2))) as -> by (by subst).
  do 2 f_equal. apply eq_true_iff_eq. rewrite !forallb_elem. split.
  - intros H s Hs. apply H. apply list_elem_of_fmap. exists (service_of s, service_runs states (service_of s)).
    split; [done|]. apply elem_of_map_to_list. rewrite services_lookup, lookup_empty.
    assert (existsb (λ s', bool_decide (service_of s' = service_of s)) states = true) as ->; [|done].
    apply existsb_elem. exists s. by rewrite bool_decide_eq_true.
  - intros H b Hb. apply list_elem_of_fmap in Hb as ([name x] & -> & Hin).
    apply elem_of_map_to_list in Hin. rewrite services_lookup, lookup_empty in Hin.
    destruct (existsb _ states) eqn:E; [|done]. injection Hin as <-.
    apply existsb_elem in E as (s & Hs & E). apply bool_decide_eq_true in E as <-. by apply H.
Qed.

(** ** What a snapshot decides *)

(** The verdict on a resource: its containers in the snapshot, none of which is an error *)
Definition runs (kind : ResourceKind) (states : list ContainerStatePoint) (r : Resource) : bool :=
  let matching := List.filter (λ s, matches_resource s kind (rs_id r) (rs_app_name r)) states in
  match matching with
  | [] => false
  | _ =>
      match kind with
      | Compose => forallb (λ s, service_runs matching (service_of s)) matching
      | Application => (Z.max (rs_replicas r) 1 <=? Z.of_nat (length (List.filter is_running matching)))%Z
      | Database => (1 <=? Z.of_nat (length (List.filter is_running matching)))%Z
      end
  end.

Lemma verdict_running b : verdict (bool_decide (verdict b = "RUNNING")) = verdict b.
Proof. by destruct b. Qed.

Lemma reconcile_row_spec kind local server states r :
  reconcile_row kind local server states r =
  if in_scope local server r && observed (rs_status r) then set_rs_status (verdict (runs kind states r)) r else r.
Proof.
  unfold reconcile_row, runs. destruct (in_scope local server r && observed (rs_status r)); [|done]. f_equal.
  set (ms := List.filter _ states). destruct (decide (ms = [])) as [->|Hne]; [done|].
  destruct kind; simpl.
  - unfold desired_of. destruct ms; [done|]. simpl. rewrite verdict_running.
    by replace (Z.max (Z.max (rs_replicas r) 1) 1) with (Z.max (rs_replicas r) 1) by lia.
  - rewrite (compose_runs ms Hne). simpl. rewrite verdict_running. by destruct ms.
  - destruct ms; [done|]. simpl. by rewrite verdict_running.
Qed.

Lemma observed_verdict b : observed (verdict b) = true.
Proof. by destruct b. Qed.

Lemma reconcile_row_twice kind local server states states' r :
  reconcile_row kind local server states' (reconcile_row kind local server states r) =
  reconcile_row kind local server states' r.
Proof.
  rewrite !reconcile_row_spec. destruct (in_scope local server r && observed (rs_status r)) eqn:E; [|by rewrite E].
  apply andb_true_iff in E as [E _].
  assert (in_scope local server (set_rs_status (verdict (runs kind states r)) r) = true) as -> by done.
  simpl. rewrite observed_verdict. simpl. done.
Qed.

Lemma healthy_observed status : healthy status = true → observed status = true.
Proof.
  unfold healthy, observed. rewrite !bool_decide_eq_true, !elem_of_cons. tauto.
Qed.

Lemma reconcile_row_offline kind local server states r :
  reconcile_row kind local server states (offline_row server r) = reconcile_row kind local server states r.
Proof.
  unfold offline_row. case_bool_decide as Hs; simpl; [|done]. destruct (healthy (rs_status r)) eqn:Hh; [|done].
  rewrite !reconcile_row_spec. unfold in_scope. simpl. rewrite Hs, Z.eqb_refl. simpl.
  by rewrite (healthy_observed _ Hh).
Qed.

Lemma local_after_update server status t : is_local_server (update_server server status t) server = is_local_server t server.
Proof.
  unfold is_local_server, update_server; simpl. rewrite lookup_alter_eq. by destruct (tb_servers t !! server).
Qed.

Lemma update_server_twice server a b t : update_server server b (update_server server a t) = update_server server b t.
Proof.
  unfold update_server; simpl. f_equal. apply map_eq. intros i.
  destruct (decide (i = server)) as [->|Hne].
  - rewrite !lookup_alter_eq. by destruct (tb_servers t !! server).
  - by rewrite !lookup_alter_ne.
Qed.

Lemma apply_snapshot_eq server states t :
  apply_snapshot server states t =
  mkTables (tb_servers (update_server server "ACTIVE" t))
    (map (reconcile_named_table (is_local_server t server) server states) (tb_resources t)).
Proof. unfold apply_snapshot. by rewrite local_after_update. Qed.

(** A change of the status of the server and of its resources that a later snapshot undoes *)
Lemma snapshot_undoes server states status (f : bool → ResourceKind → Resource → Resource) t :
  (∀ local kind r, reconcile_row kind local server states (f local kind r) = reconcile_row kind local server states r) →
  apply_snapshot server states
    (mkTables (tb_servers (update_server server status t))
       (map (λ table, (table.1, map (f (is_local_server t server) table.1) table.2)) (tb_resources t))) =
  apply_snapshot server states t.
Proof.
  intros Hf. set (t' := mkTables _ _).
  assert (is_local_server t' server = is_local_server t server) as El by exact (local_after_update server status t).
  assert (tb_servers (update_server server "ACTIVE" t') = tb_servers (update_server server "ACTIVE" t)) as Es
    by exact (f_equal tb_servers (update_server_twice server status "ACTIVE" t)).
  rewrite !apply_snapshot_eq, El, Es. f_equal. unfold t'; simpl. rewrite map_map. apply map_ext.
  intros [k rows]. unfold reconcile_named_table; simpl. f_equal. rewrite map_map. by apply map_ext.
Qed.

(** The state after a snapshot depends on the last snapshot only: what the loop has done to the
    resources of the server since, snapshots and disconnections, is undone by the next one. *)
Lemma snapshot_overrides server states e t :
  apply_snapshot server states (watch_event server t e) = apply_snapshot server states t.
Proof.
  destruct e as [states'|[]]; cbn [watch_event]; [|done|].
  - rewrite (apply_snapshot_eq server states' t).
    apply (snapshot_undoes server states "ACTIVE" (λ local kind r, reconcile_row kind local server states' r)).
    intros. apply reconcile_row_twice.
  - change (mark_offline server t) with (mkTables (tb_servers (update_server server "INACTIVE" t))
      (map (λ table, (table.1, map (offline_row server) table.2)) (tb_resources t))).
    apply (snapshot_undoes server states "INACTIVE" (λ _ _ r, offline_row server r)).
    intros. apply reconcile_row_offline.
Qed.

(** After any history of snapshots and disconnections of a server, a snapshot of its containers
    makes it active and gives every resource that belongs to it, and whose state is one the
    reconciler watches, the state the snapshot shows: RUNNING or ERROR; all other rows are as
    they would be without the history. *)
Theorem snapshot_is_authoritative server history states t :
  apply_snapshot server states (foldl (watch_event server) t history) = apply_snapshot server states t ∧
  tb_resources (apply_snapshot server states t) =
  map (λ table, (table.1, map (λ r,
    if in_scope (is_local_server t server) server r && observed (rs_status r)
    then set_rs_status (verdict (runs table.1 states r)) r else r) table.2)) (tb_resources t) ∧
  ∀ s, tb_servers t !! server = Some s →
    tb_servers (apply_snapshot server states t) !! server = Some (mkServerRow (sv_ip_address s) "ACTIVE").
Proof.
  split_and!.
  - revert t. induction history as [|e history IH]; intros t; simpl; [done|]. by rewrite IH, snapshot_overrides.
  - rewrite apply_snapshot_eq; simpl. apply map_ext. intros [k rows]. unfold reconcile_named_table; simpl.
    f_equal. apply map_ext. intros r. apply reconcile_row_spec.
  - intros s Hs. rewrite apply_snapshot_eq; simpl. rewrite lookup_alter_eq, Hs. done.
Qed.

(** ** Names that contain names *)

Definition container (name state : string) : ContainerStatePoint :=
  mkContainerStatePoint "0123456789ab" name state "" 0 0 "" "".
Definition host (resources : list (ResourceKind * list Resource)) : Tables :=
  mkTables {[1%Z := mkServerRow "127.0.0.1" "ACTIVE"]} resources.
Definition statuses (t : Tables) : list (list string) := map (λ table, map rs_status table.2) (tb_resources t).

(** Containers are matched by a part of their name, so an application without a container is
    reported as running when the name of another application contains its own. *)
Example other_application_counts :
  statuses (apply_snapshot 1 [container "web-admin.1.x" "running"]
    (host [(Application, [mkResource 1 "web" "ERROR" 1 (Some 1%Z)])])) = [["RUNNING"]].
Proof. vm_compute. reflexivity. Qed.

(** A container that was stopped on purpose and matches by name makes a compose project an error. *)
Example one_stopped_service_is_an_error :
  statuses (apply_snapshot 1 [container "shop-web-1" "running"; container "shop-init-1" "exited"]
    (host [(Compose, [mkResource 1 "shop" "RUNNING" 1 (Some 1%Z)])])) = [["ERROR"]].
Proof. vm_compute. reflexivity. Qed.

(** The resources of the panel's own host have no server: a snapshot covers them, but when the
    host is marked offline they keep their state. *)
Example local_resources_stay_running :
  let t := host [(Application, [mkResource 1 "web" "RUNNING" 1 None])] in
  statuses (apply_snapshot 1 [] t) = [["ERROR"]] ∧ statuses (mark_offline 1 t) = [["RUNNING"]].
Proof. split; vm_compute; reflexivity. Qed.

(** After a disconnection the next snapshot restores what it shows. *)
Lemma snapshot_is_authoritative_witness :
  let t := host [(Application, [mkResource 1 "web" "RUNNING" 1 (Some 1%Z); mkResource 2 "idle" "IDLE" 1 (Some 1%Z)])] in
  let states := [container "web.1.x" "running"] in
  statuses (apply_snapshot 1 states (foldl (watch_event 1) t [StreamEnded false; Snapshot []])) = [["RUNNING"; "IDLE"]] ∧
  tb_servers (apply_snapshot 1 states t) !! 1%Z = Some (mkServerRow "127.0.0.1" "ACTIVE").
Proof.
  intros t states.
  destruct (snapshot_is_authoritative 1 [StreamEnded false; Snapshot []] states t) as (E & _ & H).
  split; [rewrite E; vm_compute; reflexivity|]. apply (H (mkServerRow "127.0.0.1" "ACTIVE")).
  vm_compute. reflexivity.
Defined.
