(* ===== verification/WireGuard.v ===== *)
(** * WireGuard configuration files

    [crates/os/src/wireguard/config.rs]: the checks of a configuration and its text.  The
    decoder of base64, the reader of IP networks and of socket addresses are parameters; what
    the file relies on is which characters the texts they accept consist of.  [read_config]
    reads a file by the rules of its format (sections, [key = value], comments), and
    [wireguard_file_reads_back] shows that the text of an accepted configuration is read as
    exactly its fields: no field can add a line. *)

From stdpp Require Import gmap strings list pretty.
From Stdlib Require Import ZArith Lia Ascii.
From S2P Require Import Prelude RustStr RustText ShellQuote.

Inductive WireGuardConfigError :=
| InvalidPrivateKey
| InvalidPublicKey
| MissingAddress
| DuplicateAddress (address : string)
| InvalidListenPort
| InvalidMtu
| InvalidHook
| InvalidAddress (address : string)
| InvalidAllowedIp (allowed : string)
| DefaultRouteNotAllowed
| DuplicateAllowedIp (network : string)
| DuplicatePeerPublicKey
| MissingAllowedIps
| InvalidEndpoint.

Record WireGuardPeer := mkWireGuardPeer {
  public_key : string;
  allowed_ips : list string;
  endpoint : option string;
  persistent_keepalive : option Z;
}.

Inductive WireGuardRoutingTable := TableAuto | TableOff | TableId (id : Z).

Definition table_text (t : WireGuardRoutingTable) : string :=
  match t with TableAuto => "auto" | TableOff => "off" | TableId id => i64_to_string id end.

Record WireGuardHook := mkWireGuardHook { hook_program : string; hook_args : list string }.

Definition hash_char : ascii := "#".
Definition zero_char : ascii := "000".

Definition validate_hook_token (value : string) : result unit WireGuardConfigError :=
  if str_is_empty value || existsb (λ c, is_char c nl || is_char c cr || is_char c zero_char) (chars value)
  then Err InvalidHook else Ok tt.

Definition hook_new (program : string) : result WireGuardHook WireGuardConfigError :=
  let? _ := validate_hook_token program in Ok (mkWireGuardHook program []).
Definition hook_arg (h : WireGuardHook) (value : string) : result WireGuardHook WireGuardConfigError :=
  let? _ := validate_hook_token value in Ok (mkWireGuardHook (hook_program h) (hook_args h ++ [value])).
Definition hook_render (h : WireGuardHook) : string :=
  join " " (map shell_single_quote (hook_program h :: hook_args h)).

(** [value.chars().any(char::is_whitespace)] *)
Definition any_whitespace (s : string) : bool := (1 <? length (split_ws (chars s) []))%nat.

Section config.
Context {IpNet IpAddr : Type}.
Context (base64_decode : string → option (list Z)).
Context (parse_ipnet : string → option IpNet) (prefix_len : IpNet → Z).
Context (ipnet_to_string : IpNet → string) (trunc : IpNet → IpNet).
Context (ip_to_string : IpAddr → string) (is_socket_addr : string → bool).

Record WireGuardConfig := mkWireGuardConfig {
  private_key : string;
  addresses : list string;
  listen_port : option Z;
  dns : list IpAddr;
  mtu : option Z;
  table : option WireGuardRoutingTable;
  pre_up : list WireGuardHook;
  post_up : list WireGuardHook;
  pre_down : list WireGuardHook;
  post_down : list WireGuardHook;
  save_config : bool;
  peers : list WireGuardPeer;
}.

(** ** Checks *)

Definition validate_key (value : string) : bool :=
  negb (any_whitespace value) &&
  match base64_decode value with Some bytes => bool_decide (length bytes = 32) | None => false end.

Definition host_char (c : ascii) : bool := is_ascii_alphanumeric c || is_char c "." || is_char c "-".
Definition port_ok (port : string) : bool :=
  let value := match port with String "+" s => unsigned_value s | _ => unsigned_value port end in
  match value with Some p => (0 <? p)%Z && (p <? 2 ^ 16)%Z | None => false end.

Definition validate_endpoint (value : string) : result unit WireGuardConfigError :=
  if str_is_empty value || any_whitespace value then Err InvalidEndpoint
  else if is_socket_addr value then Ok tt
  else match rsplit_once ":" value with
       | None => Err InvalidEndpoint
       | Some (host, port) =>
           if str_is_empty host || (253 <? String.length host)%nat || starts_with "-" host || ends_with "-" host
              || negb (forallb host_char (chars host)) || negb (port_ok port)
           then Err InvalidEndpoint else Ok tt
       end.

Definition check_endpoint (endpoint : option string) : result unit WireGuardConfigError :=
  match endpoint with Some e => validate_endpoint e | None => Ok tt end.

(** [HashSet::insert]: [None] when the element is there already *)
Definition insert_new (x : string) (set : gset string) : option (gset string) :=
  if bool_decide (x ∈ set) then None else Some ({[x]} ∪ set).

Fixpoint check_addresses (l : list string) (seen : gset string) : result unit WireGuardConfigError :=
  match l with
  | [] => Ok tt
  | address :: l' =>
      match parse_ipnet address with
      | None => Err (InvalidAddress address)
      | Some network =>
          match insert_new (ipnet_to_string network) seen with
          | None => Err (DuplicateAddress (ipnet_to_string network))
          | Some seen => check_addresses l' seen
          end
      end
  end.

Fixpoint check_routes (l : list string) (routes : gset string) : result (gset string) WireGuardConfigError :=
  match l with
  | [] => Ok routes
  | allowed :: l' =>
      match parse_ipnet allowed with
      | None => Err (InvalidAllowedIp allowed)
      | Some network =>
          if (prefix_len network =? 0)%Z then Err DefaultRouteNotAllowed
          else let canonical := ipnet_to_string (trunc network) in
               match insert_new canonical routes with
               | None => Err (DuplicateAllowedIp canonical)
               | Some routes => check_routes l' routes
               end
      end
  end.

Fixpoint check_peers (l : list WireGuardPeer) (keys routes : gset string) : result unit WireGuardConfigError :=
  match l with
  | [] => Ok tt
  | p :: l' =>
      if negb (validate_key (public_key p)) then Err InvalidPublicKey
      else match insert_new (public_key p) keys with
           | None => Err DuplicatePeerPublicKey
           | Some keys =>
               match allowed_ips p with
               | [] => Err MissingAllowedIps
               | allowed =>
                   let? _ := check_endpoint (endpoint p) in
                   let? routes := check_routes allowed routes in
                   check_peers l' keys routes
               end
           end
  end.

Definition validate (c : WireGuardConfig) : result unit WireGuardConfigError :=
  if negb (validate_key (private_key c)) then Err InvalidPrivateKey
  else match addresses c with
       | [] => Err MissingAddress
       | _ =>
           if bool_decide (listen_port c = Some 0%Z) then Err InvalidListenPort
           else if bool_decide (mtu c = Some 0%Z) then Err InvalidMtu
           else let? _ := check_addresses (addresses c) ∅ in
                check_peers (peers c) ∅ ∅
       end.

(** [WireGuardPeerBuilder::build] *)
Fixpoint check_allowed (l : list string) : result unit WireGuardConfigError :=
  match l with
  | [] => Ok tt
  | allowed :: l' =>
      match parse_ipnet allowed with
      | None => Err (InvalidAllowedIp allowed)
      | Some network => if (prefix_len network =? 0)%Z then Err DefaultRouteNotAllowed else check_allowed l'
      end
  end.
Definition build_peer (p : WireGuardPeer) : result WireGuardPeer WireGuardConfigError :=
  if negb (validate_key (public_key p)) then Err InvalidPublicKey
  else match allowed_ips p with
       | [] => Err MissingAllowedIps
       | allowed =>
           let? _ := check_endpoint (endpoint p) in
           let? _ := check_allowed allowed in
           Ok p
       end.

(** ** The text *)

Definition entry (key value : string) : string := key +:+ " = " +:+ value.
Definition hook_lines (name : string) (hooks : list WireGuardHook) : list string :=
  map (λ h, entry name (hook_render h)) hooks.

(** A line for a field that is set *)
Definition opt_line {A} (key : string) (text : A → string) (o : option A) : list string :=
  match o with Some a => [entry key (text a)] | None => [] end.
Definition list_line {A} (key : string) (text : A → string) (l : list A) : list string :=
  match l with [] => [] | _ => [entry key (join ", " (map text l))] end.

Definition peer_lines (p : WireGuardPeer) : list string :=
  [""; "[Peer]"; entry "PublicKey" (public_key p); entry "AllowedIPs" (join ", " (allowed_ips p))]
  ++ opt_line "Endpoint" id (endpoint p)
  ++ opt_line "PersistentKeepalive" i64_to_string (persistent_keepalive p).

Definition config_lines (c : WireGuardConfig) : list string :=
  ["[Interface]"; entry "PrivateKey" (private_key c)]
  ++ list_line "Address" id (addresses c)
  ++ opt_line "ListenPort" i64_to_string (listen_port c)
  ++ list_line "DNS" ip_to_string (dns c)
  ++ opt_line "MTU" i64_to_string (mtu c)
  ++ opt_line "Table" table_text (table c)
  ++ hook_lines "PreUp" (pre_up c) ++ hook_lines "PostUp" (post_up c)
  ++ hook_lines "PreDown" (pre_down c) ++ hook_lines "PostDown" (post_down c)
  ++ (if save_config c then ["SaveConfig = true"] else [])
  ++ concat (map peer_lines (peers c)).

(** Every line ends with a line break. *)
Fixpoint unlines (l : list string) : string :=
  match l with [] => "" | s :: l' => s +:+ newline +:+ unlines l' end.

Definition render (c : WireGuardConfig) : string := unlines (config_lines c).
End config.
Arguments WireGuardConfig : clear implicits.

(** * Reading a WireGuard configuration file back

    The rules of the file format, and the proof that the text of an accepted configuration is
    read as its fields. *)

(** ** The format *)

Fixpoint drop_blank (l : list ascii) : list ascii :=
  match l with [] => [] | c :: l' => if ws1 c then drop_blank l' else l end.
Definition trim_blank (l : list ascii) : list ascii := rev (drop_blank (rev (drop_blank l))).

(** The part of a line before a comment *)
Fixpoint before (c : ascii) (l : list ascii) : list ascii :=
  match l with [] => [] | d :: l' => if is_char c d then [] else d :: before c l' end.
(** The part after the first occurrence *)
Fixpoint after (c : ascii) (l : list ascii) : option (list ascii) :=
  match l with [] => None | d :: l' => if is_char c d then Some l' else after c l' end.

Inductive Line := Blank | Header (name : list ascii) | Setting (key value : list ascii) | Garbage.

Definition equals_char : ascii := "=".

Definition read_line (l : list ascii) : Line :=
  match trim_blank (before hash_char l) with
  | [] => Blank
  | c :: s =>
      if is_char c "[" then
        match rev s with
        | d :: r => if is_char d "]" then Header (rev r) else Garbage
        | [] => Garbage
        end
      else match after equals_char (c :: s) with
           | Some value => Setting (trim_blank (before equals_char (c :: s))) (trim_blank value)
           | None => Garbage
           end
  end.

Definition Settings : Type := list (string * string).

(** The settings before the first header, and the sections; [None] when a line is neither *)
Fixpoint read_lines (ls : list string) : option (Settings * list (string * Settings)) :=
  match ls with
  | [] => Some ([], [])
  | l :: ls' =>
      match read_lines ls' with
      | None => None
      | Some (settings, sections) =>
          match read_line (chars l) with
          | Blank => Some (settings, sections)
          | Header name => Some ([], (of_chars name, settings) :: sections)
          | Setting key value => Some ((of_chars key, of_chars value) :: settings, sections)
          | Garbage => None
          end
      end
  end.

Definition read_config (text : string) : option (list (string * Settings)) :=
  match read_lines (split_on (is_char nl) text) with
  | Some ([], sections) => Some sections
  | _ => None
  end.

(** ** What a configuration says *)

Definition opt_setting {A} (key : string) (text : A → string) (o : option A) : Settings :=
  match o with Some a => [(key, text a)] | None => [] end.
Definition list_setting {A} (key : string) (text : A → string) (l : list A) : Settings :=
  match l with [] => [] | _ => [(key, join ", " (map text l))] end.
Definition hook_settings (name : string) (hooks : list WireGuardHook) : Settings :=
  map (λ h, (name, hook_render h)) hooks.

Definition peer_section (p : WireGuardPeer) : string * Settings :=
  ("Peer", [("PublicKey", public_key p); ("AllowedIPs", join ", " (allowed_ips p))]
           ++ opt_setting "Endpoint" id (endpoint p)
           ++ opt_setting "PersistentKeepalive" i64_to_string (persistent_keepalive p)).

Definition interface_section {IpAddr} (ip_to_string : IpAddr → string) (c : WireGuardConfig IpAddr)
    : string * Settings :=
  ("Interface", [("PrivateKey", private_key c)]
    ++ list_setting "Address" id (addresses c)
    ++ opt_setting "ListenPort" i64_to_string (listen_port c)
    ++ list_setting "DNS" ip_to_string (dns c)
    ++ opt_setting "MTU" i64_to_string (mtu c)
    ++ opt_setting "Table" table_text (table c)
    ++ hook_settings "PreUp" (pre_up c) ++ hook_settings "PostUp" (post_up c)
    ++ hook_settings "PreDown" (pre_down c) ++ hook_settings "PostDown" (post_down c)
    ++ (if save_config c then [("SaveConfig", "true")] else [])).

(** ** Values that survive a line *)

Definition line_char (c : ascii) : Prop := c ≠ nl ∧ c ≠ hash_char.
Definition edge_char (o : option ascii) : Prop := ∃ c, o = Some c ∧ ws1 c = false.

(** No line break, no comment, and no blank at either end *)
Record clean (v : string) : Prop := {
  cl_chars : Forall line_char (chars v);
  cl_first : edge_char (head (chars v));
  cl_last : edge_char (last (chars v));
}.

Lemma drop_blank_edge l : edge_char (head l) → drop_blank l = l.
Proof. destruct l as [|c l]; [by intros (? & ? & _)|]. simpl. by intros (? & [= ->] & ->). Qed.

Lemma head_rev {A} (l : list A) : head (rev l) = last l.
Proof. induction l as [|x l _] using rev_ind; [done|]. by rewrite rev_app_distr, last_snoc. Qed.

Lemma trim_blank_clean l : edge_char (head l) → edge_char (last l) → trim_blank l = l.
Proof.
  intros H1 H2. unfold trim_blank. rewrite (drop_blank_edge l H1).
  rewrite drop_blank_edge by (by rewrite head_rev). apply rev_involutive.
Qed.

Lemma trim_blank_front l : trim_blank (space :: l) = trim_blank l.
Proof. done. Qed.

Lemma trim_blank_back l : edge_char (head l) → edge_char (last l) → trim_blank (l ++ [space]) = l.
Proof.
  intros H1 H2. unfold trim_blank.
  assert (drop_blank (l ++ [space]) = l ++ [space]) as ->.
  { apply drop_blank_edge. destruct l; [by destruct H1 as (? & ? & _)|done]. }
  rewrite rev_app_distr. simpl. rewrite drop_blank_edge by (by rewrite head_rev). apply rev_involutive.
Qed.

Lemma before_none c l : c ∉ l → before c l = l.
Proof.
  induction l as [|d l IH]; [done|]. rewrite not_elem_of_cons. intros [H1 H2]. simpl.
  destruct (is_char c d) eqn:E; [apply is_char_spec in E; congruence|]. by rewrite IH.
Qed.

Lemma before_after c l r : c ∉ l → before c (l ++ c :: r) = l ∧ after c (l ++ c :: r) = Some r.
Proof.
  induction l as [|d l IH]; simpl; [by rewrite is_char_refl|].
  rewrite not_elem_of_cons. intros [H1 H2]. destruct (is_char c d) eqn:E.
  - apply is_char_spec in E. congruence.
  - destruct (IH H2) as [-> ->]. done.
Qed.

(** A key: letters *)
Definition key_char (c : ascii) : bool := is_ascii_alphanumeric c.

Record key_ok (k : string) : Prop := {
  ko_chars : forallb key_char (chars k) = true;
  ko_nonempty : k ≠ "";
}.

Definition key_char_facts (c : ascii) : bool :=
  negb (ws1 c) && negb (is_char c nl) && negb (is_char c hash_char) && negb (is_char c equals_char)
  && negb (is_char c "[").
Lemma key_char_spec c : key_char c = true → key_char_facts c = true.
Proof. destruct c as [[] [] [] [] [] [] [] []]; vm_compute; congruence. Qed.

Lemma key_char_edges c :
  key_char c = true → ws1 c = false ∧ line_char c ∧ c ≠ equals_char ∧ is_char c "[" = false.
Proof.
  intros H%key_char_spec. unfold key_char_facts in H. rewrite !andb_true_iff, !negb_true_iff, !is_char_false in H.
  destruct H as ((((H1 & H2) & H3) & H4) & H5). unfold line_char. rewrite is_char_false. auto.
Qed.

Lemma chars_empty s : chars s = [] → s = "".
Proof. by destruct s. Qed.

Lemma key_parts k :
  key_ok k → ∃ c r, chars k = c :: r ∧ is_char c "[" = false ∧ Forall line_char (chars k) ∧ equals_char ∉ chars k ∧
    edge_char (head (chars k)) ∧ edge_char (last (chars k)).
Proof.
  intros [Hk Hn]. rewrite forallb_elem in Hk.
  destruct (chars k) as [|c r] eqn:E; [by apply chars_empty in E|]. exists c, r.
  assert (∀ d, d ∈ c :: r → ws1 d = false ∧ line_char d ∧ d ≠ equals_char ∧ is_char d "[" = false) as H
    by (intros d Hd; by apply key_char_edges, Hk).
  split_and!; [done|apply H, elem_of_cons; auto|apply Forall_forall; intros d Hd; by apply H| | |].
  - intros Hin. by destruct (H _ Hin) as (_ & _ & ? & _).
  - exists c. split; [done|]. apply H, elem_of_cons. auto.
  - destruct (last (c :: r)) as [d|] eqn:El; [|by apply last_None in El]. exists d. split; [done|].
    apply last_Some in El as [l' El]. apply H. rewrite El. apply elem_of_app. right. by apply list_elem_of_singleton.
Qed.

Lemma read_entry k v : key_ok k → clean v → read_line (chars (entry k v)) = Setting (chars k) (chars v).
Proof.
  intros Hk [Hv1 Hv2 Hv3]. destruct (key_parts k Hk) as (c & r & Ek & Hb & Hc & He & Hh & Hl).
  unfold entry. rewrite !chars_app. change (chars " = ") with [space; equals_char; space].
  set (line := chars k ++ [space; equals_char; space] ++ chars v).
  assert (hash_char ∉ line) as Hno.
  { unfold line. rewrite !elem_of_app. intros [H|[H|H]].
    - rewrite Forall_forall in Hc. by apply Hc in H as [_ ?].
    - by apply (bool_decide_unpack _) in H || (rewrite !elem_of_cons, elem_of_nil in H; naive_solver).
    - rewrite Forall_forall in Hv1. by apply Hv1 in H as [_ ?]. }
  assert (trim_blank line = line) as Ht.
  { apply trim_blank_clean; unfold line; [by rewrite Ek in *|].
    destruct Hv3 as (d & Hd & Hw). exists d. split; [|done]. rewrite !last_app, Hd. done. }
  unfold read_line. rewrite (before_none _ _ Hno), Ht.
  assert (line = (chars k ++ [space]) ++ equals_char :: space :: chars v) as El
    by (unfold line; by rewrite <- app_assoc).
  destruct (before_after equals_char (chars k ++ [space]) (space :: chars v)) as [H1 H2].
  { rewrite elem_of_app, list_elem_of_singleton. intros [?|?]; [done|discriminate]. }
  rewrite <- El in H1, H2. destruct line as [|c' line'] eqn:E; [by destruct (chars k)|].
  assert (c' = c) as -> by (unfold line in E; rewrite Ek in E; by injection E).
  rewrite Hb, H2, H1, trim_blank_back, trim_blank_front, trim_blank_clean by done. done.
Qed.

Lemma entry_no_break k v : key_ok k → clean v → Forall (λ d, is_char nl d = false) (chars (entry k v)).
Proof.
  intros Hk [Hv _ _]. destruct (key_parts k Hk) as (_ & _ & _ & _ & Hc & _).
  unfold entry. rewrite !chars_app, !Forall_app. split_and!.
  - eapply Forall_impl; [exact Hc|]. intros d [H _]. apply is_char_false. congruence.
  - repeat constructor.
  - eapply Forall_impl; [exact Hv|]. intros d [H _]. apply is_char_false. congruence.
Qed.

(** ** Lines *)

(** The lines of a block are read as settings. *)
Definition reads (ls : list string) (settings : Settings) : Prop :=
  Forall (λ l, Forall (λ d, is_char nl d = false) (chars l)) ls ∧
  ∀ rest s ss, read_lines rest = Some (s, ss) → read_lines (ls ++ rest) = Some (settings ++ s, ss).

Lemma reads_nil : reads [] [].
Proof. split; [done|]. done. Qed.

Lemma reads_app ls ls' s s' : reads ls s → reads ls' s' → reads (ls ++ ls') (s ++ s').
Proof.
  intros [H1 H2] [H1' H2']. split; [by apply Forall_app|].
  intros rest x ss Hr. rewrite <- !app_assoc. by apply H2, H2'.
Qed.

Lemma reads_entry k v : key_ok k → clean v → reads [entry k v] [(k, v)].
Proof.
  intros Hk Hv. split.
  - apply Forall_cons. split; [by apply entry_no_break|done].
  - intros rest s ss Hr. cbn [app read_lines]. rewrite Hr, (read_entry k v Hk Hv). by rewrite !of_chars_chars.
Qed.

Lemma reads_opt {A} k (text : A → string) o :
  key_ok k → (∀ a, o = Some a → clean (text a)) → reads (opt_line k text o) (opt_setting k text o).
Proof. intros Hk H. destruct o; simpl; [apply reads_entry; auto|apply reads_nil]. Qed.

Lemma reads_list {A} k (text : A → string) l :
  key_ok k → (l ≠ [] → clean (join ", " (map text l))) → reads (list_line k text l) (list_setting k text l).
Proof. intros Hk H. destruct l; [apply reads_nil|]. by apply reads_entry; [|apply H]. Qed.

Lemma reads_hooks k hooks :
  key_ok k → Forall (λ h, clean (hook_render h)) hooks → reads (hook_lines k hooks) (hook_settings k hooks).
Proof.
  intros Hk H. induction H as [|h hooks Hh _ IH]; [apply reads_nil|].
  apply (reads_app [_] _ [_] _); [by apply reads_entry|done].
Qed.

(** A header closes the block that follows it. *)
Lemma read_header l name ls settings rest ss :
  read_line (chars l) = Header (chars name) → reads ls settings →
  read_lines rest = Some ([], ss) → read_lines (l :: ls ++ rest) = Some ([], (name, settings) :: ss).
Proof.
  intros Hl [_ H] Hr. cbn [read_lines]. rewrite (H rest [] ss Hr), Hl, app_nil_r. by rewrite of_chars_chars.
Qed.

Lemma split_unlines ls :
  Forall (λ l, Forall (λ d, is_char nl d = false) (chars l)) ls →
  split_on (is_char nl) (unlines ls) = ls ++ [""].
Proof.
  induction 1 as [|l ls Hl _ IH]; [done|]. cbn [unlines].
  change (newline +:+ unlines ls) with (String nl (unlines ls)). simpl.
  rewrite split_on_app by (done || apply is_char_refl). by rewrite IH.
Qed.

(** ** Clean values *)

(** A character that is neither a blank nor a line break nor a comment *)
Definition tight (c : ascii) : bool := negb (ws1 c) && negb (is_char c nl) && negb (is_char c hash_char).

Lemma tight_spec c : tight c = true → ws1 c = false ∧ line_char c.
Proof. unfold tight, line_char. rewrite !andb_true_iff, !negb_true_iff, !is_char_false. tauto. Qed.

Lemma clean_tight v : forallb tight (chars v) = true → v ≠ "" → clean v.
Proof.
  intros H Hn. rewrite forallb_elem in H. split.
  - apply Forall_forall. intros c Hc. by apply tight_spec, H.
  - destruct (chars v) as [|c l] eqn:E; [by apply chars_empty in E|]. exists c.
    split; [done|]. apply tight_spec, H, elem_of_cons. auto.
  - destruct (last (chars v)) as [c|] eqn:E; [|apply last_None, chars_empty in E; done].
    exists c. split; [done|]. apply last_Some in E as [l E]. apply tight_spec, H. rewrite E.
    apply elem_of_app. right. by apply list_elem_of_singleton.
Qed.

Lemma forallb_impl (f g : ascii → bool) l :
  (∀ c, f c = true → g c = true) → forallb f l = true → forallb g l = true.
Proof. intros Hi. rewrite !forallb_elem. auto. Qed.

Lemma clean_number z : clean (i64_to_string z).
Proof.
  apply clean_tight.
  - apply forallb_elem. intros c Hc. pose proof (i64_to_string_num z) as H.
    assert (num_char c) as Hn.
    { clear -H Hc. induction (i64_to_string z) as [|d s IH]; [by apply elem_of_nil in Hc|].
      simpl in H. destruct H as [Hd Hs]. change (chars (String d s)) with (d :: chars s) in Hc.
      apply elem_of_cons in Hc as [->|Hc]; auto. }
    destruct Hn as [->|Hn]; [done|]. clear -Hn. revert Hn.
    destruct c as [[] [] [] [] [] [] [] []]; vm_compute; intros [H1 H2]; try reflexivity;
      first [by destruct H1|by destruct H2].
  - destruct z as [|p|p]; [done| |done]. destruct (pretty_pos_digits p) as (c & s & E & _).
    change (i64_to_string (Z.pos p)) with (pretty (N.pos p)). by rewrite E.
Qed.

Lemma clean_join sep l :
  Forall line_char (chars sep) → l ≠ [] → Forall clean l → clean (join sep l).
Proof.
  intros Hs Hne Hl. induction Hl as [|w l Hw Hl IH]; [done|].
  destruct l as [|w' l]; [done|]. specialize (IH ltac:(done)).
  change (join sep (w :: w' :: l)) with (w +:+ sep +:+ join sep (w' :: l)).
  destruct Hw as [Hw1 Hw2 Hw3], IH as [I1 I2 I3]. split; rewrite !chars_app.
  - by rewrite !Forall_app.
  - destruct (chars w); [by destruct Hw2 as (? & ? & _)|done].
  - destruct I3 as (c & Hc & Hb). exists c. split; [|done]. by rewrite !last_app, Hc.
Qed.

Lemma replace_with_chars (P : ascii → Prop) c by_ s :
  Forall P (chars by_) → Forall P (chars s) → Forall P (chars (replace_with c by_ s)).
Proof.
  intros Hb. induction s as [|d s IH]; intros Hs; [done|].
  change (chars (String d s)) with (d :: chars s) in Hs. apply Forall_cons in Hs as [Hd Hs].
  cbn [replace_with]. rewrite chars_app, Forall_app. split; [|auto].
  destruct (is_char d c); [done|]. by repeat constructor.
Qed.

Lemma clean_quote s : Forall line_char (chars s) → clean (shell_single_quote s).
Proof.
  intros Hs. unfold shell_single_quote. split; rewrite !chars_app.
  - rewrite !Forall_app. split_and!; [by repeat constructor| |by repeat constructor].
    apply replace_with_chars; [by repeat constructor|done].
  - by exists squote.
  - exists squote. by rewrite !last_app.
Qed.

(** Hooks whose words have no line break and no comment character *)
Definition hook_ok (h : WireGuardHook) : Prop :=
  Forall (λ w, Forall line_char (chars w)) (hook_program h :: hook_args h).

Lemma clean_hook h : hook_ok h → clean (hook_render h).
Proof.
  intros H. unfold hook_render. apply clean_join; [by repeat constructor|done|].
  apply Forall_map. eapply Forall_impl; [exact H|]. intros w. apply clean_quote.
Qed.

(** What the constructors of hooks accept has no line break. *)
Lemma hook_token_ok w u : validate_hook_token w = Ok u → nl ∉ chars w ∧ w ≠ "".
Proof.
  unfold validate_hook_token. destruct (_ || _) eqn:E; [done|]. intros _.
  apply orb_false_iff in E as [E1 E2]. split.
  - intros Hin. rewrite existsb_false in E2. specialize (E2 _ Hin). by rewrite is_char_refl in E2.
  - intros ->. done.
Qed.

Lemma split_ws_pieces l cur :
  1 ≤ length (split_ws l cur) ∧ (length (split_ws l cur) ≤ 1 → Forall (λ c, ws1 c = false) l).
Proof.
  revert cur. induction l as [l IH] using (induction_ltof1 _ (@length ascii)). unfold ltof in IH. intros cur.
  destruct l as [|a l1]; [by split; [simpl; lia|]|]. cbn [split_ws].
  destruct (ws1 a) eqn:Ea.
  { destruct (IH l1 ltac:(simpl; lia) []) as [H _]. cbn [length]. split; lia. }
  assert (∀ l', length l' < length (a :: l1) → l' = l1 → ∀ cur',
    1 ≤ length (split_ws l' cur') ∧ (length (split_ws l' cur') ≤ 1 → Forall (λ c, ws1 c = false) (a :: l'))) as next.
  { intros l' Hl -> cur'. destruct (IH l1 Hl cur') as [H1 H2]. split; [done|]. intros H. constructor; auto. }
  destruct l1 as [|b l2]; [by split; [simpl; lia|intros _; constructor]|].
  destruct (ws2 a b).
  { destruct (IH l2 ltac:(simpl; lia) []) as [H _]. cbn [length]. split; lia. }
  destruct l2 as [|c l3]; [apply (next [b]); [simpl; lia|done]|].
  destruct (ws3 a b c).
  { destruct (IH l3 ltac:(simpl; lia) []) as [H _]. cbn [length]. split; lia. }
  apply (next (b :: c :: l3)); [simpl; lia|done].
Qed.

Lemma any_whitespace_clean s : any_whitespace s = false → Forall (λ c, ws1 c = false) (chars s).
Proof. unfold any_whitespace. rewrite Nat.ltb_ge. apply split_ws_pieces. Qed.

(** ** The characters of accepted texts *)

Definition base64_char (c : ascii) : bool :=
  is_ascii_alphanumeric c || is_char c "+" || is_char c "/" || is_char c "=".
Definition ip_char (c : ascii) : bool :=
  is_ascii_alphanumeric c || is_char c "." || is_char c ":" || is_char c "/".
Definition socket_char (c : ascii) : bool :=
  ip_char c || is_char c "[" || is_char c "]" || is_char c "%".

(** Base64 is written with its alphabet and no byte takes less than a character; networks,
    addresses and socket addresses are written with digits, letters and separators. *)
Class TextLaws {IpNet IpAddr} (base64_decode : string → option (list Z)) (parse_ipnet : string → option IpNet)
    (ip_to_string : IpAddr → string) (is_socket_addr : string → bool) : Prop := {
  base64_text s b : base64_decode s = Some b → forallb base64_char (chars s) = true ∧ length b ≤ length (chars s);
  ipnet_text s n : parse_ipnet s = Some n → forallb ip_char (chars s) = true ∧ s ≠ "";
  ip_text a : forallb ip_char (chars (ip_to_string a)) = true ∧ ip_to_string a ≠ "";
  socket_text s : is_socket_addr s = true → forallb socket_char (chars s) = true;
}.

Lemma base64_tight c : base64_char c = true → tight c = true.
Proof. destruct c as [[] [] [] [] [] [] [] []]; vm_compute; congruence. Qed.
Lemma socket_tight c : socket_char c = true → tight c = true.
Proof. destruct c as [[] [] [] [] [] [] [] []]; vm_compute; congruence. Qed.
Lemma ip_tight c : ip_char c = true → tight c = true.
Proof. destruct c as [[] [] [] [] [] [] [] []]; vm_compute; congruence. Qed.
Lemma host_tight c : host_char c = true → tight c = true.
Proof. destruct c as [[] [] [] [] [] [] [] []]; vm_compute; congruence. Qed.

Lemma result_bind_ok {A B E} (r : result A E) (k : A → result B E) b :
  result_bind r k = Ok b → ∃ a, r = Ok a ∧ k a = Ok b.
Proof. apply let_ok. Qed.

Section reading.
Context {IpNet IpAddr : Type}.
Context (base64_decode : string → option (list Z)).
Context (parse_ipnet : string → option IpNet) (prefix_len : IpNet → Z).
Context (ipnet_to_string : IpNet → string) (trunc : IpNet → IpNet).
Context (ip_to_string : IpAddr → string) (is_socket_addr : string → bool).
Context `{!TextLaws base64_decode parse_ipnet ip_to_string is_socket_addr}.

Lemma valid_key_clean k : validate_key base64_decode k = true → clean k.
Proof.
  unfold validate_key. rewrite andb_true_iff. intros [_ H].
  destruct (base64_decode k) as [b|] eqn:E; [|done]. apply bool_decide_eq_true in H.
  destruct (base64_text k b E) as [H1 H2]. apply clean_tight.
  - exact (forallb_impl _ _ _ base64_tight H1).
  - intros ->. simpl in H2. lia.
Qed.

Lemma ipnet_clean s n : parse_ipnet s = Some n → clean s.
Proof.
  intros [H1 H2]%ipnet_text. apply clean_tight; [|done].
  exact (forallb_impl _ _ _ ip_tight H1).
Qed.

Lemma ip_clean a : clean (ip_to_string a).
Proof.
  destruct (ip_text a) as [H1 H2]. apply clean_tight; [|done].
  exact (forallb_impl _ _ _ ip_tight H1).
Qed.

Lemma port_tight s : unsigned_value s ≠ None → forallb tight (chars s) = true.
Proof.
  intros H. assert (∀ acc, digits_value s acc ≠ None → forallb tight (chars s) = true) as Hd.
  { clear H. induction s as [|c s IH]; intros acc H; [done|]. simpl in H |- *.
    destruct (digit_value c) as [d|] eqn:E; [|done].
    change (tight c && forallb tight (chars s) = true). rewrite (IH _ H), andb_true_r.
    clear -E. revert E. unfold digit_value.
    destruct c as [[] [] [] [] [] [] [] []]; vm_compute; congruence. }
  destruct s; [done|]. by apply (Hd 0%Z).
Qed.

Lemma endpoint_clean e u : validate_endpoint is_socket_addr e = Ok u → clean e.
Proof.
  unfold validate_endpoint. intros H. destruct (str_is_empty e || any_whitespace e) eqn:E; [done|].
  apply orb_false_iff in E as [En _].
  assert (e ≠ "") as Hn by (intros ->; done).
  destruct (is_socket_addr e) eqn:Es.
  { apply clean_tight; [|done]. exact (forallb_impl _ _ _ socket_tight (socket_text e Es)). }
  destruct (rsplit_once ":" e) as [[host port]|] eqn:Er; [|done].
  destruct (_ || _) eqn:Ec in H; [done|]. rewrite !orb_false_iff, !negb_false_iff in Ec.
  destruct Ec as [[_ Hh] Hp]. apply rsplit_once_spec in Er as [-> _].
  apply clean_tight; [|done]. rewrite chars_app, forallb_app.
  change (chars (String ":" port)) with (":"%char :: chars port).
  rewrite (forallb_impl host_char tight (chars host) host_tight Hh). simpl.
  unfold port_ok in Hp.
  assert (port ≠ "" ∧ forallb tight (chars port) = true) as [_ ->]; [|done].
  destruct port as [|c port]; [done|]. split; [done|].
  destruct (decide (c = "+"%char)) as [->|Hc].
  - change (forallb tight (chars (String "+" port))) with (forallb tight (chars port)).
    apply port_tight. by destruct (unsigned_value port).
  - apply port_tight. destruct (unsigned_value (String c port)) eqn:E; [done|].
    exfalso. destruct c as [[] [] [] [] [] [] [] []]; simpl in *; try done.
Qed.

Lemma addresses_clean l seen u :
  check_addresses parse_ipnet ipnet_to_string l seen = Ok u → Forall clean l.
Proof.
  revert seen. induction l as [|a l IH]; intros seen H; [done|]. simpl in H.
  destruct (parse_ipnet a) as [n|] eqn:E; [|done]. destruct (insert_new _ _); [|done].
  constructor; [by eapply ipnet_clean|by eapply IH].
Qed.

Lemma routes_clean l routes r :
  check_routes parse_ipnet prefix_len ipnet_to_string trunc l routes = Ok r → Forall clean l.
Proof.
  revert routes. induction l as [|a l IH]; intros routes H; [done|]. simpl in H.
  destruct (parse_ipnet a) as [n|] eqn:E; [|done]. destruct (_ =? _)%Z; [done|].
  destruct (insert_new _ _); [|done]. constructor; [by eapply ipnet_clean|by eapply IH].
Qed.

Definition peer_clean (p : WireGuardPeer) : Prop :=
  clean (public_key p) ∧ allowed_ips p ≠ [] ∧ Forall clean (allowed_ips p) ∧
  ∀ e, endpoint p = Some e → clean e.

Lemma peers_clean l keys routes u :
  check_peers base64_decode parse_ipnet prefix_len ipnet_to_string trunc is_socket_addr l keys routes = Ok u →
  Forall peer_clean l.
Proof.
  revert keys routes. induction l as [|p l IH]; intros keys routes H; [done|]. simpl in H.
  destruct (validate_key base64_decode (public_key p)) eqn:Ek; [|done]. simpl in H.
  destruct (insert_new _ _) as [keys'|]; [|done].
  destruct (allowed_ips p) as [|a as_] eqn:Ea; [done|].
  apply result_bind_ok in H as (? & He & H). apply result_bind_ok in H as (routes' & Hr & H).
  constructor; [|by eapply IH]. unfold peer_clean. rewrite Ea.
  split_and!; [by apply valid_key_clean|done|by eapply routes_clean|].
  intros e E. rewrite E in He. by eapply endpoint_clean.
Qed.

Lemma reads_peer p rest ss :
  peer_clean p → read_lines rest = Some ([], ss) →
  Forall (λ l, Forall (λ d, is_char nl d = false) (chars l)) (peer_lines p) ∧
  read_lines (peer_lines p ++ rest) = Some ([], peer_section p :: ss).
Proof.
  intros (Hk & Hne & Ha & He) Hr.
  assert (reads (drop 2 (peer_lines p)) (peer_section p).2) as Hreads.
  { change (drop 2 (peer_lines p)) with
      ([entry "PublicKey" (public_key p)] ++ [entry "AllowedIPs" (join ", " (allowed_ips p))]
       ++ opt_line "Endpoint" id (endpoint p)
       ++ opt_line "PersistentKeepalive" i64_to_string (persistent_keepalive p)).
    apply (reads_app _ _ [_]); [by apply reads_entry|].
    apply (reads_app _ _ [_]); [apply reads_entry; [done|]; apply clean_join; [by repeat constructor|done..]|].
    apply reads_app; apply reads_opt; try done. intros a _. apply clean_number. }
  split.
  - change (peer_lines p) with ("" :: "[Peer]" :: drop 2 (peer_lines p)).
    destruct Hreads as [H _].
    apply Forall_cons; split; [constructor|]. apply Forall_cons; split; [by repeat constructor|done].
  - change (peer_lines p ++ rest) with ("" :: ("[Peer]" :: drop 2 (peer_lines p) ++ rest)).
    cbn [read_lines]. change (match read_lines ("[Peer]" :: drop 2 (peer_lines p) ++ rest) with
      | Some (settings, sections) => Some (settings, sections) | None => None end = Some ([], peer_section p :: ss)).
    by rewrite (read_header "[Peer]" "Peer" _ _ _ ss eq_refl Hreads Hr).
Qed.

Lemma reads_peers l :
  Forall peer_clean l →
  Forall (λ l, Forall (λ d, is_char nl d = false) (chars l)) (concat (map peer_lines l)) ∧
  read_lines (concat (map peer_lines l) ++ [""]) = Some ([], map peer_section l).
Proof.
  induction 1 as [|p l Hp _ [IH1 IH2]]; [done|]. cbn [map concat]. rewrite <- app_assoc.
  destruct (reads_peer p _ _ Hp IH2) as [H1 H2]. split; [by apply Forall_app|done].
Qed.

(** Hooks of every kind *)
Definition hooks_ok (c : WireGuardConfig IpAddr) : Prop :=
  Forall hook_ok (pre_up c ++ post_up c ++ pre_down c ++ post_down c).

Lemma interface_reads (c : WireGuardConfig IpAddr) :
  clean (private_key c) → Forall clean (addresses c) → hooks_ok c →
  reads ([entry "PrivateKey" (private_key c)] ++ list_line "Address" id (addresses c)
    ++ opt_line "ListenPort" i64_to_string (listen_port c) ++ list_line "DNS" ip_to_string (dns c)
    ++ opt_line "MTU" i64_to_string (mtu c) ++ opt_line "Table" table_text (table c)
    ++ hook_lines "PreUp" (pre_up c) ++ hook_lines "PostUp" (post_up c)
    ++ hook_lines "PreDown" (pre_down c) ++ hook_lines "PostDown" (post_down c)
    ++ (if save_config c then ["SaveConfig = true"] else []))
   (interface_section ip_to_string c).2.
Proof.
  intros Hk Ha Hh. unfold hooks_ok in Hh. rewrite !Forall_app in Hh. destruct Hh as (H1 & H2 & H3 & H4).
  assert (∀ l, Forall hook_ok l → Forall (λ h, clean (hook_render h)) l) as Hc
    by (intros l Hl; eapply Forall_impl; [exact Hl|apply clean_hook]).
  assert (Forall line_char (chars ", ")) as Hsep by (by repeat constructor).
  apply (reads_app _ _ [_]); [by apply reads_entry|].
  apply reads_app; [apply reads_list; [done|]; intros Hne; rewrite map_id; by apply clean_join|].
  apply reads_app; [apply reads_opt; [done|]; intros; apply clean_number|].
  apply reads_app.
  { apply reads_list; [done|]. intros Hne. apply clean_join; [done|by destruct (dns c)|].
    apply Forall_map, Forall_forall. intros a _. apply ip_clean. }
  apply reads_app; [apply reads_opt; [done|]; intros; apply clean_number|].
  apply reads_app.
  { apply reads_opt; [done|]. intros [| |id] _; [by apply clean_tight..|apply clean_number]. }
  repeat (apply reads_app; [by apply reads_hooks; [done|apply Hc]|]).
  destruct (save_config c); [|apply reads_nil].
  apply (reads_entry "SaveConfig" "true"); [done|by apply clean_tight].
Qed.

(** C22: The text of a WireGuard configuration that passes the checks, and whose hooks have no
    line break and no comment character in their words, is read as the fields of the
    configuration: one interface and its peers, with the settings in order and the values as
    they are. *)
Theorem wireguard_file_reads_back (c : WireGuardConfig IpAddr) :
  validate base64_decode parse_ipnet prefix_len ipnet_to_string trunc is_socket_addr c = Ok tt →
  hooks_ok c →
  read_config (render ip_to_string c) = Some (interface_section ip_to_string c :: map peer_section (peers c)).
Proof.
  unfold validate. intros Hv Hh.
  destruct (validate_key base64_decode (private_key c)) eqn:Ek; [|done]. simpl in Hv.
  destruct (addresses c) as [|a as_] eqn:Ea; [done|].
  destruct (bool_decide _); [done|]. destruct (bool_decide _); [done|].
  apply result_bind_ok in Hv as (u & Haddr & Hp).
  apply addresses_clean in Haddr. rewrite <- Ea in Haddr. apply peers_clean in Hp.
  apply valid_key_clean in Ek. destruct (reads_peers _ Hp) as [Hp1 Hp2].
  pose proof (interface_reads c Ek Haddr Hh) as Hi. unfold read_config, render.
  set (body := [entry "PrivateKey" (private_key c)] ++ _) in Hi.
  assert (config_lines ip_to_string c = "[Interface]" :: body ++ concat (map peer_lines (peers c))) as ->.
  { unfold config_lines, body. by rewrite <- !app_assoc. }
  rewrite split_unlines.
  - change (("[Interface]" :: body ++ concat (map peer_lines (peers c))) ++ [""]) with
      ("[Interface]" :: (body ++ concat (map peer_lines (peers c))) ++ [""]).
    rewrite <- app_assoc. by rewrite (read_header "[Interface]" "Interface" body _ _ _ eq_refl Hi Hp2).
  - apply Forall_cons. split; [by repeat constructor|]. apply Forall_app. split; [apply Hi|done].
Qed.
End reading.

(** ** A tunnel *)

(** Readers that only look at the characters *)
Definition plain_base64 (s : string) : option (list Z) :=
  if forallb base64_char (chars s) && (32 <=? length (chars s)) then Some (replicate 32 0%Z) else None.
Definition plain_ipnet (s : string) : option string :=
  if forallb ip_char (chars s) && negb (str_is_empty s) then Some s else None.
Definition resolver (primary : bool) : string := if primary then "1.1.1.1" else "8.8.8.8".

#[export] Instance plain_laws : TextLaws plain_base64 plain_ipnet resolver (λ _, false).
Proof.
  split.
  - unfold plain_base64. intros s b H. destruct (forallb _ _) eqn:E1; [|done].
    cbn [andb] in H. destruct (32 <=? length (chars s)) eqn:E2; [|done]. apply Nat.leb_le in E2. injection H as <-. split; [done|].
    exact E2.
  - unfold plain_ipnet. intros s n H. destruct (forallb _ _) eqn:E1; [|done]. simpl in H.
    destruct (str_is_empty s) eqn:E2; [done|]. split; [done|]. intros ->. done.
  - by intros [].
  - done.
Qed.

Definition tunnel_peer : WireGuardPeer :=
  mkWireGuardPeer "nwQHKWewX3F+JSitCr3JSYVfwJg1Gc9kU12xjz5HpmM=" ["10.77.1.2/32"]
    (Some "panel.example.com:51820") (Some 25%Z).
Definition tunnel : WireGuardConfig bool :=
  mkWireGuardConfig "DM5qhLAE20PG9BbfBCger+Ac9D2NDOwCtY1rbYDLf34=" ["10.77.1.1/24"] (Some 51820%Z) [true]
    (Some 1380%Z) (Some TableOff) [mkWireGuardHook "ip" ["link"]] [] [] [] false [tunnel_peer].

Lemma tunnel_hooks : hooks_ok tunnel.
Proof. repeat constructor; done. Qed.

Lemma wireguard_file_reads_back_witness :
  read_config (render resolver tunnel) =
  Some [("Interface", [("PrivateKey", "DM5qhLAE20PG9BbfBCger+Ac9D2NDOwCtY1rbYDLf34="); ("Address", "10.77.1.1/24");
                       ("ListenPort", "51820"); ("DNS", "1.1.1.1"); ("MTU", "1380"); ("Table", "off");
                       ("PreUp", "'ip' 'link'")]);
        ("Peer", [("PublicKey", "nwQHKWewX3F+JSitCr3JSYVfwJg1Gc9kU12xjz5HpmM="); ("AllowedIPs", "10.77.1.2/32");
                  ("Endpoint", "panel.example.com:51820"); ("PersistentKeepalive", "25")])].
Proof.
  rewrite (wireguard_file_reads_back plain_base64 plain_ipnet (λ _, 24%Z) (λ s, s) (λ s, s) resolver (λ _, false)
    tunnel ltac:(vm_compute; reflexivity) tunnel_hooks).
  vm_compute. reflexivity.
Defined.

(** A number sign begins a comment, quotes or not: the check of hook words lets it through, and
    the rest of the command is lost. *)
Example hook_is_cut_at_a_number_sign :
  validate_hook_token "a#b" = Ok tt ∧
  (λ s, map snd s) <$> (read_config (render resolver
     (mkWireGuardConfig "k" [] None [] None None [mkWireGuardHook "echo" ["a#b"; "c"]] [] [] [] false [])) ≫= λ s, snd <$> head s)
  = Some ["k"; "'echo' 'a"].
Proof. split; vm_compute; reflexivity. Qed.
