(* ===== verification/Projects.v ===== *)
(** * Projects, environments and tags

    [services/project.rs], [services/environment.rs], [services/tag.rs], their repositories and
    their handlers.  A transaction that returns an error is rolled back when it is dropped; SQLite
    runs the transactions one after the other.  The trigger [environments_updated_at] runs after
    its statement, so the row a statement returns has the old time and the stored row the new
    one.  The organizations and the text of a database error are parameters; the ids of stored
    rows are integers, as the primary keys are never NULL.  [one_default_environment] is the
    property of the environments: a project that has any has exactly one default, whatever is
    created, changed and deleted. *)

From stdpp Require Import gmap strings list sorting.
From Stdlib Require Import ZArith Lia.
From S2P Require Import Prelude Sql.

(** ** The tables *)

Record Environment := mkEnvironment {
  en_id : Z; en_name : string; en_description : option string; en_env_var : string; en_is_default : Z;
  en_project_id : Z; en_created_at : Z; en_updated_at : Z }.
Record Project := mkProject {
  pj_id : Z; pj_name : string; pj_description : option string; pj_env_var : string; pj_organization_id : Z;
  pj_created_at : Z; pj_updated_at : Z }.
Record Tag := mkTag { tg_id : Z; tg_name : string; tg_color : string; tg_organization_id : Z; tg_created_at : Z }.
Record ProjectTag := mkProjectTag { pt_id : Z; pt_project_id : Z; pt_tag_id : Z }.

#[export] Instance Environment_schema : Schema Environment := {|
  row_id := en_id; row_check := λ _, true; row_conflict := λ _ _, false |}.
#[export] Instance Environment_laws : SchemaLaws Environment.
Proof. by constructor. Qed.
#[export] Instance Project_schema : Schema Project := {|
  row_id := pj_id; row_check := λ _, true; row_conflict := λ a b, bool_decide (pj_name a = pj_name b) |}.
#[export] Instance Project_laws : SchemaLaws Project.
Proof. constructor. intros. simpl. by apply bool_decide_ext. Qed.
#[export] Instance Tag_schema : Schema Tag := {|
  row_id := tg_id; row_check := λ _, true;
  row_conflict := λ a b, bool_decide (tg_name a = tg_name b) && (tg_organization_id a =? tg_organization_id b)%Z |}.
#[export] Instance Tag_laws : SchemaLaws Tag.
Proof. constructor. intros. simpl. rewrite Z.eqb_sym. f_equal. by apply bool_decide_ext. Qed.
#[export] Instance ProjectTag_schema : Schema ProjectTag := {|
  row_id := pt_id; row_check := λ _, true;
  row_conflict := λ a b, (pt_project_id a =? pt_project_id b)%Z && (pt_tag_id a =? pt_tag_id b)%Z |}.
#[export] Instance ProjectTag_laws : SchemaLaws ProjectTag.
Proof. constructor. intros. simpl. by rewrite Z.eqb_sym, (Z.eqb_sym (pt_tag_id _)). Qed.

Record ProjectDb := mkProjectDb {
  pd_projects : Table Project; pd_environments : Table Environment; pd_tags : Table Tag; pd_project_tags : Table ProjectTag }.
Definition with_projects (t : Table Project) (s : ProjectDb) : ProjectDb :=
  mkProjectDb t (pd_environments s) (pd_tags s) (pd_project_tags s).
Definition with_environments (t : Table Environment) (s : ProjectDb) : ProjectDb :=
  mkProjectDb (pd_projects s) t (pd_tags s) (pd_project_tags s).
Definition with_tags (t : Table Tag) (s : ProjectDb) : ProjectDb :=
  mkProjectDb (pd_projects s) (pd_environments s) t (pd_project_tags s).
Definition with_project_tags (t : Table ProjectTag) (s : ProjectDb) : ProjectDb :=
  mkProjectDb (pd_projects s) (pd_environments s) (pd_tags s) t.

Definition ProjM := SE ProjectDb SqlError.
(** A statement on one of the tables *)
Definition on_table {R A} (get : ProjectDb → Table R) (put : Table R → ProjectDb → ProjectDb)
    (f : Table R → result (Table R * A) SqlError) : ProjM A := λ s,
  match f (get s) with Ok (t, a) => (put t s, Ok a) | Err e => (s, Err e) end.
Definition on_projects {A} := @on_table Project A pd_projects with_projects.
Definition on_environments {A} := @on_table Environment A pd_environments with_environments.
Definition on_tags {A} := @on_table Tag A pd_tags with_tags.
Definition on_project_tags {A} := @on_table ProjectTag A pd_project_tags with_project_tags.
(** [begin] ... [commit]; an error drops the transaction *)
Definition transaction {A} (m : ProjM A) : ProjM A := λ s,
  match m s with (s', Ok a) => (s', Ok a) | (_, Err e) => (s, Err e) end.
(** [ok_or(RowNotFound)] and [fetch_one] *)
Definition found {A} (o : option A) : ProjM A := of_result match o with Some a => Ok a | None => Err RowNotFound end.
Definition project_exists (s : ProjectDb) (id : Z) : bool := sql_exists (λ p, pj_id p =? id)%Z (pd_projects s).
Definition tag_exists (s : ProjectDb) (id : Z) : bool := sql_exists (λ t, tg_id t =? id)%Z (pd_tags s).

(** ** [EnvironmentRepository] *)

Definition env_repo_get_all (s : ProjectDb) : list Environment := rows (pd_environments s).
Definition env_repo_get_by_id (id : Z) (s : ProjectDb) : option Environment := sql_first (λ e, en_id e =? id)%Z (pd_environments s).
Definition env_repo_delete (id : Z) (s : ProjectDb) : ProjectDb :=
  with_environments (sql_delete (λ e, en_id e =? id)%Z (pd_environments s)).1 s.
Definition get_in_transaction (id : Z) : ProjM Environment := λ s, found (env_repo_get_by_id id s) s.

(** [ORDER BY is_default DESC, created_at ASC, id ASC] *)
Definition oldest_first (a b : Environment) : bool :=
  ((en_created_at a <? en_created_at b) || ((en_created_at a =? en_created_at b) && (en_id a <=? en_id b)))%Z.
Definition default_first (a b : Environment) : bool :=
  ((en_is_default b <? en_is_default a) || ((en_is_default a =? en_is_default b) && oldest_first a b))%Z.
Definition list_by_project (project_id : Z) (s : ProjectDb) : list Environment :=
  sql_order_by default_first (sql_select (λ e, en_project_id e =? project_id)%Z (pd_environments s)).
Definition count_by_project (project_id : Z) : ProjM Z := λ s,
  (s, Ok (sql_count (λ e, en_project_id e =? project_id)%Z (pd_environments s))).

(** The columns a statement sets, and the trigger that sets the time afterwards *)
Definition set_default_column (d : Z) (e : Environment) : Environment :=
  mkEnvironment (en_id e) (en_name e) (en_description e) (en_env_var e) d (en_project_id e) (en_created_at e) (en_updated_at e).
Definition touch (now : Z) (e : Environment) : Environment :=
  mkEnvironment (en_id e) (en_name e) (en_description e) (en_env_var e) (en_is_default e) (en_project_id e) (en_created_at e) now.

Definition clear_default (now project_id : Z) : ProjM unit :=
  (do! _ := on_environments
     (sql_update no_fk (λ e, (en_project_id e =? project_id) && (en_is_default e =? 1))%Z (λ e, touch now (set_default_column 0 e))) in
   ret tt)%rust.

Definition env_repo_create_in_transaction (now : Z) (name : string) (description : option string) (env_var : string)
    (is_default project_id : Z) : ProjM Environment := λ s,
  let row id := mkEnvironment id name description env_var is_default project_id now now in
  (do! id := on_environments (sql_insert (λ e, project_exists s (en_project_id e)) row) in ret (row id))%rust s.

Definition env_repo_set_columns (name : string) (description : option string) (env_var : string) (is_default : Z) (e : Environment) : Environment :=
  mkEnvironment (en_id e) name description env_var is_default (en_project_id e) (en_created_at e) (en_updated_at e).
Definition update_in_transaction (now id : Z) (name : string) (description : option string) (env_var : string) (is_default : Z)
    : ProjM Environment := λ s,
  let set := env_repo_set_columns name description env_var is_default in
  (do! _ := on_environments (sql_update no_fk (λ e, en_id e =? id)%Z (λ e, touch now (set e))) in
   found (set <$> env_repo_get_by_id id s))%rust s.

Definition delete_in_transaction (id : Z) : ProjM unit := λ s, (env_repo_delete id s, Ok tt).

Definition oldest (project_id : Z) (s : ProjectDb) : option Environment :=
  head (sql_order_by oldest_first (sql_select (λ e, en_project_id e =? project_id)%Z (pd_environments s))).
Definition promote_oldest_to_default (now project_id : Z) : ProjM unit := λ s,
  match oldest project_id s with
  | None => (s, Ok tt)                       (* id = NULL matches no row *)
  | Some o =>
      (do! _ := on_environments (sql_update no_fk (λ e, en_id e =? en_id o)%Z (λ e, touch now (set_default_column 1 e))) in
       ret tt)%rust s
  end.


(** ** [ProjectRepository] *)

Section repo.
Context (org_exists : Z → bool).
Definition project_repo_get_all (s : ProjectDb) : list Project := rows (pd_projects s).
Definition project_repo_get_by_id (id : Z) (s : ProjectDb) : option Project := sql_first (λ p, pj_id p =? id)%Z (pd_projects s).
(** [DELETE FROM projects WHERE id = ?]; environments and tags go with it *)
Definition project_repo_delete (id : Z) : ProjM unit := λ s,
  (mkProjectDb (sql_delete (λ p, pj_id p =? id)%Z (pd_projects s)).1
     (sql_delete (λ e, en_project_id e =? id)%Z (pd_environments s)).1 (pd_tags s)
     (sql_delete (λ t, pt_project_id t =? id)%Z (pd_project_tags s)).1, Ok tt).
(** [ORDER BY created_at DESC, id DESC] *)
Definition newest_first (a b : Project) : bool :=
  ((pj_created_at b <? pj_created_at a) || ((pj_created_at a =? pj_created_at b) && (pj_id b <=? pj_id a)))%Z.
Definition list_by_organization (organization_id : Z) (s : ProjectDb) : list Project :=
  sql_order_by newest_first (sql_select (λ p, pj_organization_id p =? organization_id)%Z (pd_projects s)).
Definition project_repo_create_in_transaction (now : Z) (name : string) (description : option string) (env_var : string) (organization_id : Z)
    : ProjM Project :=
  let row id := mkProject id name description env_var organization_id now now in
  (do! id := on_projects (sql_insert (λ p, org_exists (pj_organization_id p)) row) in ret (row id))%rust.
Definition project_repo_set_columns (name : string) (description : option string) (env_var : string) (p : Project) : Project :=
  mkProject (pj_id p) name description env_var (pj_organization_id p) (pj_created_at p) (pj_updated_at p).
Definition update_and_return (id : Z) (name : string) (description : option string) (env_var : string) : ProjM Project :=
  (do! _ := on_projects (sql_update no_fk (λ p, pj_id p =? id)%Z (project_repo_set_columns name description env_var)) in
   λ s, found (project_repo_get_by_id id s) s)%rust.
End repo.


(** ** [TagRepository] and [ProjectTagRepository] *)

Section repo.
Context (org_exists : Z → bool).
Definition tag_repo_get_all (s : ProjectDb) : list Tag := rows (pd_tags s).
Definition tag_repo_get_by_id (id : Z) (s : ProjectDb) : option Tag := sql_first (λ t, tg_id t =? id)%Z (pd_tags s).
Definition with_tag_id (id : Z) (item : Tag) : Tag :=
  mkTag id (tg_name item) (tg_color item) (tg_organization_id item) (tg_created_at item).
Definition tag_repo_create (item : Tag) : ProjM Z :=
  on_tags (sql_insert (λ t, org_exists (tg_organization_id t)) (λ id, with_tag_id id item)).
Definition tag_repo_update (id : Z) (item : Tag) : ProjM unit :=
  (do! _ := on_tags (sql_update (λ t, org_exists (tg_organization_id t)) (λ t, tg_id t =? id)%Z (λ t, with_tag_id (tg_id t) item)) in
   ret tt)%rust.
(** The links of the tag go with it *)
Definition tag_repo_delete (id : Z) : ProjM unit := λ s,
  (mkProjectDb (pd_projects s) (pd_environments s) (sql_delete (λ t, tg_id t =? id)%Z (pd_tags s)).1
     (sql_delete (λ l, pt_tag_id l =? id)%Z (pd_project_tags s)).1, Ok tt).
End repo.


Definition project_tag_repo_get_all (s : ProjectDb) : list ProjectTag := rows (pd_project_tags s).
Definition project_tag_repo_get_by_id (id : Z) (s : ProjectDb) : option ProjectTag := sql_first (λ t, pt_id t =? id)%Z (pd_project_tags s).
Definition project_tag_repo_create (project_id tag_id : Z) : ProjM Z := λ s,
  on_project_tags
    (sql_insert (λ l, project_exists s (pt_project_id l) && tag_exists s (pt_tag_id l)) (λ id, mkProjectTag id project_id tag_id)) s.
Definition project_tag_repo_delete (id : Z) : ProjM unit := λ s,
  (with_project_tags (sql_delete (λ t, pt_id t =? id)%Z (pd_project_tags s)).1 s, Ok tt).


(** ** The bodies of the requests *)

Record CreateEnvironmentDto := mkCreateEnvironment {
  ce_name : string; ce_description : option string; ce_env_var : string; ce_is_default : bool; ce_project_id : Z }.
Record PatchEnvironmentDto := mkPatchEnvironment {
  pe_name : option string; pe_description : option string; pe_env_var : option string; pe_is_default : option bool }.
Record CreateProjectDto := mkCreateProject {
  cp_name : string; cp_description : option string; cp_env_var : string; cp_organization_id : Z }.
Record PatchProjectDto := mkPatchProject { pp_name : option string; pp_description : option string; pp_env_var : option string }.
Record CreateTagDto := mkCreateTag { ct_name : string; ct_color : string; ct_organization_id : option Z }.
Record UpdateTagDto := mkUpdateTag { ut_name : option string; ut_color : option string }.

Definition or_else {A} (a b : option A) : option A := match a with Some x => Some x | None => b end.

(** ** [EnvironmentService] *)

Definition environment_service_get (id : Z) : ProjM Environment := λ s, found (env_repo_get_by_id id s) s.

Definition environment_create (now : Z) (input : CreateEnvironmentDto) : ProjM Environment :=
  transaction
    (do! count := count_by_project (ce_project_id input) in
     let make_default := ce_is_default input || (count =? 0)%Z in
     do! _ := (if make_default then clear_default now (ce_project_id input) else ret tt) in
     env_repo_create_in_transaction now (ce_name input) (ce_description input) (ce_env_var input)
       (if make_default then 1 else 0)%Z (ce_project_id input))%rust.

Definition unset_message : string :=
  "the default environment cannot be unset; set another environment as default instead".
Definition new_default (wanted : option bool) (current : Z) : result Z SqlError :=
  match wanted with
  | Some false => if (current =? 0)%Z then Ok 0%Z else Err (Protocol unset_message)
  | Some true => Ok 1%Z
  | None => Ok current
  end.

Definition environment_update (now id : Z) (input : PatchEnvironmentDto) : ProjM Environment :=
  transaction
    (do! current := get_in_transaction id in
     do! _ := (if bool_decide (pe_is_default input = Some true) then clear_default now (en_project_id current) else ret tt) in
     let name := default (en_name current) (pe_name input) in
     let description := or_else (pe_description input) (en_description current) in
     let env_var := default (en_env_var current) (pe_env_var input) in
     do! is_default := of_result (new_default (pe_is_default input) (en_is_default current)) in
     update_in_transaction now id name description env_var is_default)%rust.

Definition environment_set_default (now id : Z) : ProjM Environment :=
  transaction
    (do! current := get_in_transaction id in
     do! _ := clear_default now (en_project_id current) in
     update_in_transaction now id (en_name current) (en_description current) (en_env_var current) 1)%rust.

Definition environment_delete (now id : Z) : ProjM unit :=
  transaction
    (do! current := get_in_transaction id in
     do! _ := delete_in_transaction id in
     if negb (en_is_default current =? 0)%Z then promote_oldest_to_default now (en_project_id current) else ret tt)%rust.


(** ** [ProjectService] *)

Section service.
Context (org_exists : Z → bool).
Definition project_service_get (id : Z) : ProjM Project := λ s, found (project_repo_get_by_id id s) s.

Definition project_create (now : Z) (input : CreateProjectDto) : ProjM Project :=
  transaction
    (do! project := project_repo_create_in_transaction org_exists now (cp_name input) (cp_description input) (cp_env_var input)
                      (cp_organization_id input) in
     do! _ := env_repo_create_in_transaction now "production" (Some "Production environment") "" 1 (pj_id project) in
     ret project)%rust.

Definition project_update (id : Z) (input : PatchProjectDto) : ProjM Project :=
  (do! current := project_service_get id in
   update_and_return id (default (pj_name current) (pp_name input))
     (or_else (pp_description input) (pj_description current)) (default (pj_env_var current) (pp_env_var input)))%rust.

Definition project_delete (id : Z) : ProjM unit :=
  (do! _ := project_service_get id in project_repo_delete id)%rust.
End service.


(** ** [TagService] *)

Section service.
Context (org_exists : Z → bool).
Definition tag_service_create (now : Z) (dto : CreateTagDto) : ProjM Tag :=
  (do! id := tag_repo_create org_exists (mkTag 0 (ct_name dto) (ct_color dto) (default 1%Z (ct_organization_id dto)) now) in
   λ s, found (tag_repo_get_by_id id s) s)%rust.

Definition tag_service_update (id : Z) (dto : UpdateTagDto) : ProjM Tag :=
  (do! existing := (λ s, found (tag_repo_get_by_id id s) s) in
   let updated := mkTag id (default (tg_name existing) (ut_name dto)) (default (tg_color existing) (ut_color dto))
                    (tg_organization_id existing) (tg_created_at existing) in
   do! _ := tag_repo_update org_exists id updated in
   ret updated)%rust.

Definition tag_service_delete (id : Z) : ProjM unit := tag_repo_delete id.

Definition list_project_tags (project_id : Z) (s : ProjectDb) : list Tag :=
  let matching := map pt_tag_id (List.filter (λ l, pt_project_id l =? project_id)%Z (project_tag_repo_get_all s)) in
  List.filter (λ t, existsb (λ i, tg_id t =? i)%Z matching) (tag_repo_get_all s).

Definition attach_project_tag (project_id tag_id : Z) : ProjM unit :=
  (do! _ := project_tag_repo_create project_id tag_id in ret tt)%rust.

Definition detach_project_tag (project_id tag_id : Z) : ProjM unit := λ s,
  match List.find (λ l, (pt_project_id l =? project_id) && (pt_tag_id l =? tag_id))%Z (project_tag_repo_get_all s) with
  | Some target => project_tag_repo_delete (pt_id target) s
  | None => (s, Ok tt)
  end.
End service.


(** ** The errors a client sees *)

Section errors.
Context (db_message : SqlError → string).
Definition environment_error (e : SqlError) : Z * string :=
  match e with
  | RowNotFound => (404%Z, "environment not found")
  | ForeignKeyFailed => (404%Z, "project not found")
  | UniqueFailed => (409%Z, db_message e)
  | Protocol m => (400%Z, m)
  | _ => (500%Z, "database operation failed")
  end.
Definition project_error (e : SqlError) : Z * string :=
  match e with
  | RowNotFound => (404%Z, "project not found")
  | UniqueFailed => (409%Z, db_message e)
  | _ => (500%Z, "database operation failed")
  end.
Definition tag_error (e : SqlError) : Z * string := (500%Z, db_message e).

(** ** The handlers, after the permission check and the validation of the body.  [AppStateCache]
    keeps nothing: its reads give [None] and its writes do nothing. *)

Record EnvironmentResponseDto := mkEnvironmentResponse {
  er_id : Z; er_name : string; er_description : option string; er_env_var : string; er_is_default : bool;
  er_project_id : Z; er_created_at : Z; er_updated_at : Z }.
Definition environment_response (e : Environment) : EnvironmentResponseDto :=
  mkEnvironmentResponse (en_id e) (en_name e) (en_description e) (en_env_var e) (negb (en_is_default e =? 0)%Z)
    (en_project_id e) (en_created_at e) (en_updated_at e).
Record ProjectResponseDto := mkProjectResponse {
  pr_id : Z; pr_name : string; pr_description : option string; pr_env_var : string; pr_organization_id : Z;
  pr_created_at : Z; pr_updated_at : Z }.
Definition project_response (p : Project) : ProjectResponseDto :=
  mkProjectResponse (pj_id p) (pj_name p) (pj_description p) (pj_env_var p) (pj_organization_id p) (pj_created_at p) (pj_updated_at p).
Record TagDto := mkTagDto { td_id : Z; td_name : string; td_color : string; td_organization_id : Z; td_created_at : Z }.
Definition tag_dto (t : Tag) : TagDto := mkTagDto (tg_id t) (tg_name t) (tg_color t) (tg_organization_id t) (tg_created_at t).

Definition Handler (B : Type) := SE ProjectDb (Z * string) (Z * B).
Definition respond {A B} (err : SqlError → Z * string) (status : Z) (body : A → B) (m : ProjM A) : Handler B := λ s,
  match m s with (s', Ok a) => (s', Ok (status, body a)) | (s', Err e) => (s', Err (err e)) end.

Definition env_handler_get (id : Z) := respond environment_error 200 environment_response (environment_service_get id).
Definition env_handler_list (project_id : Z) :=
  respond environment_error 200 (map environment_response) (λ s, (s, Ok (list_by_project project_id s))).
Definition env_handler_create (now : Z) (body : CreateEnvironmentDto) :=
  respond environment_error 201 environment_response (environment_create now body).
Definition env_handler_patch (now id : Z) (body : PatchEnvironmentDto) :=
  respond environment_error 200 environment_response (environment_update now id body).
Definition env_handler_set_default (now id : Z) :=
  respond environment_error 200 environment_response (environment_set_default now id).
Definition env_handler_delete (now id : Z) := respond environment_error 204 (λ u, u) (environment_delete now id).

Definition cache_get (key : Z) : option (list Project) := None.
Definition project_handler_get (id : Z) := respond project_error 200 project_response (project_service_get id).
Definition project_handler_list (organization_id : Z) : Handler (list ProjectResponseDto) :=
  match cache_get organization_id with
  | Some cached => ret (200%Z, map project_response cached)
  | None => respond project_error 200 (map project_response) (λ s, (s, Ok (list_by_organization organization_id s)))
  end.
Definition project_handler_create (org_exists : Z → bool) (now : Z) (body : CreateProjectDto) :=
  respond project_error 201 project_response (project_create org_exists now body).
Definition project_handler_patch (id : Z) (body : PatchProjectDto) :=
  respond project_error 200 project_response (project_update id body).

Definition tag_handler_list_all : Handler (list TagDto) := respond tag_error 200 (map tag_dto) (λ s, (s, Ok (tag_repo_get_all s))).
Definition tag_handler_get (id : Z) : Handler TagDto := λ s,
  match tag_repo_get_by_id id s with
  | Some t => (s, Ok (200%Z, tag_dto t))
  | None => (s, Err (404%Z, "Tag not found"))
  end.
Definition tag_handler_create (org_exists : Z → bool) (now : Z) (body : CreateTagDto) :=
  respond tag_error 200 tag_dto (tag_service_create org_exists now body).
Definition tag_handler_update (org_exists : Z → bool) (id : Z) (body : UpdateTagDto) :=
  respond tag_error 200 tag_dto (tag_service_update org_exists id body).
Definition tag_handler_delete (id : Z) : Handler unit := respond tag_error 204 (λ u, u) (tag_service_delete id).
Definition tag_handler_list_project (project_id : Z) : Handler (list TagDto) :=
  respond tag_error 200 (map tag_dto) (λ s, (s, Ok (list_project_tags project_id s))).
Definition tag_handler_attach (project_id tag_id : Z) : Handler unit :=
  respond tag_error 201 (λ u, u) (attach_project_tag project_id tag_id).
Definition tag_handler_detach (project_id tag_id : Z) : Handler unit :=
  respond tag_error 204 (λ u, u) (detach_project_tag project_id tag_id).
End errors.

(** ** One default environment *)

(** A project that has environments has exactly one default. *)
Definition one_default (l : list Environment) : Prop :=
  ∀ e, e ∈ l → ∃ d, d ∈ l ∧ en_project_id d = en_project_id e ∧ en_is_default d = 1%Z
    ∧ ∀ x, x ∈ l → en_project_id x = en_project_id e → en_is_default x ≠ 0%Z → x = d.

(** Keys, uniqueness and references *)
Record tables_ok (s : ProjectDb) : Prop := {
  inv_projects : table_wf (pd_projects s);
  inv_environments : table_wf (pd_environments s);
  inv_tags : table_wf (pd_tags s);
  inv_links : table_wf (pd_project_tags s);
  inv_owner : ∀ e, e ∈ rows (pd_environments s) → project_exists s (en_project_id e) = true;
  inv_linked : ∀ l, l ∈ rows (pd_project_tags s) → project_exists s (pt_project_id l) = true ∧ tag_exists s (pt_tag_id l) = true;
}.
Record projects_inv (s : ProjectDb) : Prop := {
  inv_tables :> tables_ok s;
  inv_default : one_default (rows (pd_environments s));
}.

Lemma ids_distinct (l : list Environment) x y :
  NoDup (map en_id l) → x ∈ l → y ∈ l → en_id x = en_id y → x = y.
Proof.
  intros Hnd. rewrite !list_elem_of_lookup. intros (i & Hi) (j & Hj) E.
  assert (i = j) as ->; [|congruence].
  eapply (NoDup_lookup (map en_id l)); eauto; rewrite list_lookup_fmap; [by rewrite Hi | by rewrite Hj, E].
Qed.

(** Rewriting the rows without touching owners and defaults *)
Lemma one_default_same f l :
  (∀ e, e ∈ l → en_project_id (f e) = en_project_id e ∧ en_is_default (f e) = en_is_default e) →
  one_default l → one_default (map f l).
Proof.
  intros Hf Hl ? (e & -> & He)%elem_of_mapb. destruct (Hl e He) as (d & Hd & Hp & H1 & Hu).
  destruct (Hf e He) as [Ep _]. destruct (Hf d Hd) as [Ed Edd]. exists (f d). rewrite Ed, Edd, Ep.
  split_and!; [apply elem_of_mapb; eauto|done|done|].
  intros ? (x & -> & Hx)%elem_of_mapb. destruct (Hf x Hx) as [-> ->]. intros. f_equal. by apply Hu.
Qed.

(** Making one environment the only default of its project *)
Lemma one_default_switch f l d :
  NoDup (map en_id l) → d ∈ l →
  (∀ e, e ∈ l → en_project_id (f e) = en_project_id e) →
  (∀ e, e ∈ l → en_project_id e ≠ en_project_id d → en_is_default (f e) = en_is_default e) →
  (∀ e, e ∈ l → en_project_id e = en_project_id d → en_is_default (f e) = if (en_id e =? en_id d)%Z then 1%Z else 0%Z) →
  (∀ e, e ∈ l → en_project_id e ≠ en_project_id d →
     ∃ x, x ∈ l ∧ en_project_id x = en_project_id e ∧ en_is_default x = 1%Z
       ∧ ∀ y, y ∈ l → en_project_id y = en_project_id e → en_is_default y ≠ 0%Z → y = x) →
  one_default (map f l).
Proof.
  intros Hnd Hd Hp Ho Hi Hl ? (e & -> & He)%elem_of_mapb. rewrite (Hp e He).
  destruct (decide (en_project_id e = en_project_id d)) as [E|E].
  - exists (f d). rewrite (Hp d Hd), (Hi d Hd eq_refl), Z.eqb_refl. split_and!; [apply elem_of_mapb; eauto|done|done|].
    intros ? (x & -> & Hx)%elem_of_mapb. rewrite (Hp x Hx). intros Hpx. rewrite (Hi x Hx) by congruence.
    destruct (en_id x =? en_id d)%Z eqn:Ei; [|done]. intros _. f_equal. eapply ids_distinct; eauto. by bsimp.
  - destruct (Hl e He E) as (x & Hx & Hpx & Hdx & Hu). exists (f x). rewrite (Hp x Hx), (Ho x Hx) by congruence.
    split_and!; [apply elem_of_mapb; eauto|done|done|].
    intros ? (y & -> & Hy)%elem_of_mapb. rewrite (Hp y Hy). intros Hpy. rewrite (Ho y Hy) by congruence.
    intros. f_equal. by apply Hu.
Qed.

(** A row added to a project that has a default, or whose default it becomes *)
Lemma one_default_add_plain l e :
  one_default l → (∃ x, x ∈ l ∧ en_project_id x = en_project_id e) → en_is_default e = 0%Z → one_default (l ++ [e]).
Proof.
  intros Hl (x & Hx & Ex) He y Hy.
  assert (∃ z, z ∈ l ∧ en_project_id z = en_project_id y) as (z & Hz & Ez).
  { apply elem_of_app in Hy as [Hy|Hy%list_elem_of_singleton]; [by exists y|]. subst y. by exists x. }
  destruct (Hl z Hz) as (d & Hd & Hp & H1 & Hu). exists d. split_and!; [set_solver|congruence|done|].
  intros w [Hw|Hw%list_elem_of_singleton]%elem_of_app; [intros; apply Hu; congruence|]. by subst w.
Qed.

Lemma one_default_add l e :
  (∀ x, x ∈ l → en_project_id x = en_project_id e → en_is_default x = 0%Z) → en_is_default e = 1%Z →
  (∀ x, x ∈ l → en_project_id x ≠ en_project_id e →
     ∃ d, d ∈ l ∧ en_project_id d = en_project_id x ∧ en_is_default d = 1%Z
       ∧ ∀ y, y ∈ l → en_project_id y = en_project_id x → en_is_default y ≠ 0%Z → y = d) →
  one_default (l ++ [e]).
Proof.
  intros H0 H1 Hl x Hx. destruct (decide (en_project_id x = en_project_id e)) as [E|E].
  - exists e. split_and!; [set_solver|done|done|]. intros y [Hy|Hy%list_elem_of_singleton]%elem_of_app Hpy Hdy; [|done].
    destruct Hdy. apply H0; congruence.
  - apply elem_of_app in Hx as [Hx|Hx%list_elem_of_singleton]; [|by subst x].
    destruct (Hl x Hx E) as (d & Hd & Hp & Hdd & Hu). exists d. split_and!; [set_solver|done|done|].
    intros y [Hy|Hy%list_elem_of_singleton]%elem_of_app; [by apply Hu|]. subst y. congruence.
Qed.

(** Dropping rows, where a default goes only with its project's other environments *)
Lemma one_default_filter (keep : Environment → bool) l :
  (∀ d e, d ∈ l → e ∈ l → en_project_id d = en_project_id e → en_is_default d = 1%Z → keep e = true → keep d = true) →
  one_default l → one_default (List.filter keep l).
Proof.
  intros Hk Hl e [He Hke]%elem_of_filterb. destruct (Hl e He) as (d & Hd & Hp & H1 & Hu). exists d.
  rewrite elem_of_filterb. split_and!; eauto. intros x [Hx _]%elem_of_filterb. by apply Hu.
Qed.

(** *** The statements *)

Lemma env_update p f t :
  table_wf t → (∀ e : Environment, en_id (f e) = en_id e) →
  sql_update no_fk p f t = Ok (mkTable (map (updated p f) (rows t)) (seq t), length (sql_select p t)).
Proof. intros Hwf Hf. by apply sql_update_success. Qed.

Definition keeps_owner (f : Environment → Environment) : Prop :=
  ∀ e, en_id (f e) = en_id e ∧ en_project_id (f e) = en_project_id e.
Lemma keeps_owner_updated p f : keeps_owner f → keeps_owner (updated p f).
Proof. intros Hf e. unfold updated. by destruct (p e). Qed.
Lemma keeps_owner_comp f g : keeps_owner f → keeps_owner g → keeps_owner (λ e, f (g e)).
Proof. intros Hf Hg e. destruct (Hf (g e)) as [-> ->]. apply Hg. Qed.
#[local] Hint Resolve keeps_owner_updated keeps_owner_comp : oxide.

Definition env_map (f : Environment → Environment) (t : Table Environment) : Table Environment :=
  mkTable (map f (rows t)) (seq t).

Lemma env_map_wf f t : table_wf t → keeps_owner f → table_wf (env_map f t).
Proof.
  intros [Hn Hs _ _] Hf. split; simpl; [|intros ? (e & -> & He)%elem_of_mapb|done|done].
  - rewrite map_map. erewrite map_ext; [exact Hn|]. intros e. apply Hf.
  - destruct (Hf e) as [-> _]. by apply (Hs e).
Qed.

(** What a statement on the environments keeps of the database *)
Lemma tables_env_map s f :
  tables_ok s → keeps_owner f → tables_ok (with_environments (env_map f (pd_environments s)) s).
Proof.
  intros [] Hf. split; try done; simpl.
  - by apply env_map_wf.
  - intros ? (e & -> & He)%elem_of_mapb. destruct (Hf e) as [_ ->]. by apply inv_owner0.
Qed.
Lemma inv_env_map s f :
  projects_inv s → keeps_owner f → one_default (map f (rows (pd_environments s))) →
  projects_inv (with_environments (env_map f (pd_environments s)) s).
Proof. intros [] Hf Hd. split; [by apply tables_env_map|done]. Qed.

Lemma transaction_inv {A} (m : ProjM A) s :
  projects_inv s → (∀ s' a, m s = (s', Ok a) → projects_inv s') → projects_inv (transaction m s).1.
Proof. intros Hs Hm. unfold transaction. destruct (m s) as [s' [a|e]]; [by eapply Hm|done]. Qed.

Section service_steps.

Definition cleared (now p : Z) : Environment → Environment :=
  updated (λ e, (en_project_id e =? p) && (en_is_default e =? 1))%Z (λ e, touch now (set_default_column 0 e)).
Lemma cleared_owner now p : keeps_owner (cleared now p).
Proof. by apply keeps_owner_updated. Qed.
Lemma clear_default_run now p s :
  table_wf (pd_environments s) →
  clear_default now p s = (with_environments (env_map (cleared now p) (pd_environments s)) s, Ok tt).
Proof. intros Hwf. unfold clear_default, bind, on_environments, on_table. by rewrite env_update. Qed.

Definition written (now id : Z) name description env_var d : Environment → Environment :=
  updated (λ e, en_id e =? id)%Z (λ e, touch now (env_repo_set_columns name description env_var d e)).
Lemma written_owner now id n ds v d : keeps_owner (written now id n ds v d).
Proof. by apply keeps_owner_updated. Qed.
Lemma update_in_transaction_run now id n ds v d s s' e :
  table_wf (pd_environments s) → update_in_transaction now id n ds v d s = (s', Ok e) →
  s' = with_environments (env_map (written now id n ds v d) (pd_environments s)) s.
Proof.
  intros Hwf. unfold update_in_transaction, bind, on_environments, on_table. rewrite env_update by done.
  unfold found, of_result. by intros [= <- _].
Qed.

(** The default of an environment, after its project was cleared *)
Lemma cleared_default now p e :
  en_is_default e = 0%Z ∨ en_is_default e = 1%Z →
  en_is_default (cleared now p e) = if (en_project_id e =? p)%Z then 0%Z else en_is_default e.
Proof.
  intros [E|E]; unfold cleared, updated; rewrite E;
    destruct (en_project_id e =? p)%Z; simpl; done.
Qed.

Lemma default_bit l e : one_default l → e ∈ l → en_is_default e = 0%Z ∨ en_is_default e = 1%Z.
Proof.
  intros Hl He. destruct (decide (en_is_default e = 0%Z)) as [|Hn]; [by left|right].
  destruct (Hl e He) as (d & _ & _ & H1 & Hu). by rewrite (Hu e He eq_refl Hn).
Qed.
Lemma get_in_transaction_run id s s' e :
  get_in_transaction id s = (s', Ok e) → s' = s ∧ e ∈ rows (pd_environments s) ∧ en_id e = id.
Proof.
  unfold get_in_transaction, found, of_result. destruct (env_repo_get_by_id id s) as [x|] eqn:E; [|done]. intros [= <- <-].
  apply sql_first_Some in E as [??]. by bsimp.
Qed.

(** Clearing the default of the project of [c] and writing [c] as the default *)
Lemma switch_inv now s c n ds v :
  projects_inv s → c ∈ rows (pd_environments s) →
  projects_inv (with_environments
    (env_map (written now (en_id c) n ds v 1) (env_map (cleared now (en_project_id c)) (pd_environments s))) s).
Proof.
  intros Hs Hc. pose proof (inv_default s Hs) as Hd.
  unfold env_map at 1. simpl. rewrite map_map.
  set (f := λ e, written now (en_id c) n ds v 1 (cleared now (en_project_id c) e)).
  assert (Hf : keeps_owner f) by (apply (keeps_owner_comp (written _ _ _ _ _ _)); [apply written_owner|apply cleared_owner]).
  assert (Hdef : ∀ e, e ∈ rows (pd_environments s) →
    en_is_default (f e) = if (en_id e =? en_id c)%Z then 1%Z else if (en_project_id e =? en_project_id c)%Z then 0%Z else en_is_default e).
  { intros e He. unfold f, written, updated at 1. rewrite (proj1 (cleared_owner now (en_project_id c) e)).
    destruct (en_id e =? en_id c)%Z; [done|]. apply cleared_default. by eapply default_bit. }
  assert (Hid : ∀ e, e ∈ rows (pd_environments s) → en_id e = en_id c → e = c).
  { intros e He E. apply ids_distinct with (rows (pd_environments s)); [apply Hs|done..]. }
  apply (inv_env_map s f); [done|done|]. apply one_default_switch with c; [apply Hs|done|..].
  - intros e _. apply Hf.
  - intros e He Hne. rewrite Hdef by done. destruct (en_id e =? en_id c)%Z eqn:E; bsimp; [by rewrite (Hid e He E) in Hne|].
    by rewrite (proj2 (Z.eqb_neq _ _) Hne).
  - intros e He Heq. rewrite Hdef, Heq, Z.eqb_refl by done. done.
  - intros e He _. by apply Hd.
Qed.

(** Writing an environment without changing whether it is the default *)
Lemma plain_write_inv now s c n ds v :
  projects_inv s → c ∈ rows (pd_environments s) →
  projects_inv (with_environments (env_map (written now (en_id c) n ds v (en_is_default c)) (pd_environments s)) s).
Proof.
  intros Hs Hc. apply inv_env_map; [done|apply written_owner|]. apply one_default_same; [|by apply inv_default].
  intros e He. split; [apply written_owner|]. unfold written, updated. destruct (en_id e =? en_id c)%Z eqn:E; [|done].
  bsimp. simpl. f_equal. symmetry. apply ids_distinct with (rows (pd_environments s)); [apply Hs|done..].
Qed.

(** Adding an environment *)
Lemma insert_inv now n ds v d p s s' e :
  tables_ok s → env_repo_create_in_transaction now n ds v d p s = (s', Ok e) →
  (∀ i, one_default (rows (pd_environments s) ++ [mkEnvironment i n ds v d p now now])) → projects_inv s'.
Proof.
  intros Hs. unfold env_repo_create_in_transaction, bind, on_environments, on_table.
  destruct (sql_insert _ _ _) as [[t id]|] eqn:E; [|done]. intros [= <- _] Hd.
  pose proof E as (_ & _ & Hr & _ & _ & Hfk)%sql_insert_inv. destruct Hs.
  split; [split; try done; simpl|simpl].
  - by eapply sql_insert_wf; [exact inv_environments0| |exact E].
  - rewrite Hr. intros x [Hx|Hx%list_elem_of_singleton]%elem_of_app; [by apply inv_owner0|]. by subst x.
  - rewrite Hr. apply Hd.
Qed.
Lemma create_inv now input s : projects_inv s → projects_inv (environment_create now input s).1.
Proof.
  intros Hs. apply transaction_inv; [done|]. intros s' e. unfold count_by_project.
  set (p := ce_project_id input). unfold bind at 1. simpl.
  destruct (ce_is_default input || _) eqn:Em; unfold bind at 1; simpl.
  - rewrite clear_default_run by apply Hs. intros Hc. eapply insert_inv; [|exact Hc|].
    + apply tables_env_map; [apply Hs|apply cleared_owner].
    + intros i. simpl. apply one_default_add; simpl; [|done|].
      * intros ? (x & -> & Hx)%elem_of_mapb. rewrite (proj2 (cleared_owner now p x)). intros Hp.
        rewrite cleared_default by (eapply default_bit; [apply Hs|done]). by rewrite Hp, Z.eqb_refl.
      * intros ? (x & -> & Hx)%elem_of_mapb. rewrite (proj2 (cleared_owner now p x)). intros Hp.
        assert (Hsame : one_default (List.filter (λ e, negb (en_project_id e =? p)%Z) (rows (pd_environments s)))).
        { apply one_default_filter; [|apply Hs]. intros a b _ _ -> _ Hb. done. }
        destruct (Hsame x) as (d & [Hd Hdp]%elem_of_filterb & Hdx & Hd1 & Hu).
        { rewrite elem_of_filterb. bsimp. by rewrite (proj2 (Z.eqb_neq _ _) Hp). }
        assert (Hc1 : ∀ y, en_project_id y ≠ p → cleared now p y = y)
          by (intros y Hy; unfold cleared, updated; by rewrite (proj2 (Z.eqb_neq _ _) Hy)).
        exists d. rewrite <- (Hc1 d) at 1 by congruence. split_and!; [apply elem_of_mapb; eauto|done|done|].
        intros ? (y & -> & Hy)%elem_of_mapb. rewrite (proj2 (cleared_owner now p y)). intros Hyp.
        rewrite Hc1 by congruence. intros Hy0. apply Hu; [|done|done]. rewrite elem_of_filterb. split; [done|].
        by rewrite Hyp, (proj2 (Z.eqb_neq _ _) Hp).
  - apply orb_false_iff in Em as [_ Em]. intros Hc. eapply insert_inv; [apply Hs|exact Hc|].
    intros i. apply one_default_add_plain; [apply Hs| |done]. simpl. unfold sql_count in Em.
    destruct (sql_select _ _) as [|x l] eqn:El; [done|].
    assert (Hx : x ∈ sql_select (λ e, (en_project_id e =? p)%Z) (pd_environments s)) by (rewrite El; left).
    apply elem_of_filterb in Hx as [Hx Hp]. exists x. by bsimp.
Qed.

Lemma update_inv now id input s : projects_inv s → projects_inv (environment_update now id input s).1.
Proof.
  intros Hs. apply transaction_inv; [done|]. intros s' e. unfold bind at 1.
  destruct (get_in_transaction id s) as [s1 [c|]] eqn:Eg; [|done]. apply get_in_transaction_run in Eg as (-> & Hc & <-).
  destruct (pe_is_default input) as [[]|]; simpl; unfold bind at 1; simpl.
  - rewrite clear_default_run by apply Hs. unfold bind. simpl. intros Hu.
    apply update_in_transaction_run in Hu as ->; [|by apply env_map_wf; [apply Hs|apply cleared_owner]]. exact (switch_inv now s c _ _ _ Hs Hc).
  - destruct (en_is_default c =? 0)%Z eqn:E0; unfold bind; simpl; [|done]. intros Hu.
    apply update_in_transaction_run in Hu as ->; [|apply Hs]. bsimp. rewrite <- E0. by apply plain_write_inv.
  - unfold bind. simpl. intros Hu. apply update_in_transaction_run in Hu as ->; [|apply Hs]. by apply plain_write_inv.
Qed.

Lemma set_default_inv now id s : projects_inv s → projects_inv (environment_set_default now id s).1.
Proof.
  intros Hs. apply transaction_inv; [done|]. intros s' e. unfold bind at 1.
  destruct (get_in_transaction id s) as [s1 [c|]] eqn:Eg; [|done]. apply get_in_transaction_run in Eg as (-> & Hc & <-).
  unfold bind. rewrite clear_default_run by apply Hs. intros Hu.
  apply update_in_transaction_run in Hu as ->; [|by apply env_map_wf; [apply Hs|apply cleared_owner]]. exact (switch_inv now s c _ _ _ Hs Hc).
Qed.
Lemma tables_env_delete s p :
  tables_ok s → tables_ok (with_environments (sql_delete p (pd_environments s)).1 s).
Proof.
  intros []. split; try done; simpl.
  - by apply sql_delete_wf.
  - intros e [He _]%elem_of_filterb. by apply inv_owner0.
Qed.

(** Once the default is gone, the others of its project are not default, and the other projects
    keep theirs. *)
Lemma without_default s c :
  projects_inv s → c ∈ rows (pd_environments s) → en_is_default c ≠ 0%Z →
  let l := List.filter (λ e, negb (en_id e =? en_id c)%Z) (rows (pd_environments s)) in
  (∀ e, e ∈ l → en_project_id e = en_project_id c → en_is_default e = 0%Z)
  ∧ (∀ e, e ∈ l → en_project_id e ≠ en_project_id c →
       ∃ d, d ∈ l ∧ en_project_id d = en_project_id e ∧ en_is_default d = 1%Z
         ∧ ∀ y, y ∈ l → en_project_id y = en_project_id e → en_is_default y ≠ 0%Z → y = d).
Proof.
  intros Hs Hc H0 l. destruct (inv_default s Hs c Hc) as (d0 & _ & _ & _ & Hu0). split.
  - intros e [He Hne]%elem_of_filterb Hp. destruct (decide (en_is_default e = 0%Z)) as [|Hn]; [done|].
    assert (e = c) as -> by (rewrite (Hu0 e He Hp Hn); symmetry; by apply Hu0). bsimp. done.
  - intros e [He _]%elem_of_filterb Hp. destruct (inv_default s Hs e He) as (d & Hd & Hdp & H1 & Hu). exists d.
    unfold l. rewrite elem_of_filterb. split_and!; try done.
    + apply negb_true_iff, Z.eqb_neq. intros E. destruct Hp. rewrite <- Hdp. f_equal.
      apply ids_distinct with (rows (pd_environments s)); [apply Hs|done..].
    + intros y [Hy _]%elem_of_filterb. by apply Hu.
Qed.

Lemma oldest_elem p s o : oldest p s = Some o → o ∈ rows (pd_environments s) ∧ en_project_id o = p.
Proof.
  intros Ho%head_Some_elem_of. rewrite sql_order_by_elem in Ho. apply elem_of_filterb in Ho as [??]. by bsimp.
Qed.
Lemma oldest_none p s : oldest p s = None → ∀ e, e ∈ rows (pd_environments s) → en_project_id e ≠ p.
Proof.
  intros Hn%head_None e He Hp. assert (Hx : e ∈ sql_select (λ e, en_project_id e =? p)%Z (pd_environments s)).
  { apply elem_of_filterb. split; [done|]. by apply Z.eqb_eq. }
  rewrite <- (sql_order_by_elem oldest_first), Hn in Hx. by apply not_elem_of_nil in Hx.
Qed.

Lemma delete_inv now id s : projects_inv s → projects_inv (environment_delete now id s).1.
Proof.
  intros Hs. apply transaction_inv; [done|]. intros s' []. unfold bind at 1.
  destruct (get_in_transaction id s) as [s1 [c|]] eqn:Eg; [|done]. apply get_in_transaction_run in Eg as (-> & Hc & <-).
  unfold bind at 1, delete_in_transaction. pose proof (tables_env_delete s (λ e, en_id e =? en_id c)%Z Hs) as Hok.
  fold (env_repo_delete (en_id c) s) in Hok. destruct (en_is_default c =? 0)%Z eqn:E0; simpl.
  - intros [= <-]. split; [done|]. simpl. apply one_default_filter; [|apply Hs]. intros d e Hd _ _ H1 _. bsimp.
    apply negb_true_iff, Z.eqb_neq. intros E.
    assert (d = c) as -> by (apply ids_distinct with (rows (pd_environments s)); [apply Hs|done..]). congruence.
  - bsimp. destruct (without_default s c Hs Hc E0) as [Hz Hl]. unfold promote_oldest_to_default.
    destruct (oldest _ _) as [o|] eqn:Eo.
    + apply oldest_elem in Eo as [Ho Hop]. unfold bind, on_environments, on_table. rewrite env_update by (done || apply Hok).
      intros [= <-]. split; [apply (tables_env_map (env_repo_delete (en_id c) s)); [done|by apply keeps_owner_updated]|].
      simpl. apply one_default_switch with o; [apply Hok|done|..]; intros e He.
      * by apply keeps_owner_updated.
      * intros Hne. unfold updated. destruct (en_id e =? en_id o)%Z eqn:E; [|done]. bsimp. destruct Hne. f_equal.
        apply ids_distinct with (rows (pd_environments (env_repo_delete (en_id c) s))); [apply Hok|done..].
      * intros Hp. unfold updated. destruct (en_id e =? en_id o)%Z; [done|]. apply Hz; [done|congruence].
      * intros Hne. apply Hl; [done|congruence].
    + intros [= <-]. split; [done|]. intros e He. apply Hl; [done|]. by eapply oldest_none.
Qed.
End service_steps.

(** *** Projects and tags *)

Section project_steps.
Context (org_exists : Z → bool).

Lemma exists_elem s id : project_exists s id = true ↔ ∃ p, p ∈ rows (pd_projects s) ∧ pj_id p = id.
Proof. unfold project_exists, sql_exists. rewrite existsb_elem. by setoid_rewrite Z.eqb_eq. Qed.
Lemma tag_exists_elem s id : tag_exists s id = true ↔ ∃ t, t ∈ rows (pd_tags s) ∧ tg_id t = id.
Proof. unfold tag_exists, sql_exists. rewrite existsb_elem. by setoid_rewrite Z.eqb_eq. Qed.

(** A statement after which every project and every tag is still there keeps the references. *)
Lemma inv_more s s' :
  projects_inv s → pd_environments s' = pd_environments s → pd_project_tags s' = pd_project_tags s →
  table_wf (pd_projects s') → table_wf (pd_tags s') →
  (∀ id, project_exists s id = true → project_exists s' id = true) → (∀ id, tag_exists s id = true → tag_exists s' id = true) →
  projects_inv s'.
Proof.
  intros [[] ?] He Hl Hp Ht Hpe Hte. split; [split|]; rewrite ?He, ?Hl; try done.
  - intros e ?. by apply Hpe, inv_owner0.
  - intros l Hin. destruct (inv_linked0 l Hin). split; [by apply Hpe|by apply Hte].
Qed.

Lemma project_create_inv now input s :
  projects_inv s → projects_inv (project_create org_exists now input s).1.
Proof.
  intros Hs. apply transaction_inv; [done|]. intros s' p. unfold bind at 1, project_repo_create_in_transaction.
  unfold bind at 1, on_projects, on_table. destruct (sql_insert _ _ _) as [[t id]|] eqn:E; [|done]. simpl.
  pose proof E as (Hid & _ & Hr & _)%sql_insert_inv.
  assert (Hs1 : projects_inv (with_projects t s)).
  { apply (inv_more s); try done; [by eapply sql_insert_wf; [apply Hs| |exact E]|apply Hs|].
    intros i. rewrite !exists_elem. simpl. rewrite Hr. intros (x & Hx & <-). exists x. set_solver. }
  unfold bind at 1. destruct (env_repo_create_in_transaction _ _ _ _ _ _ _) as [s2 [e|]] eqn:Ec; [|done].
  intros [= <- _]. eapply insert_inv; [apply Hs1|exact Ec|]. intros i. simpl. apply one_default_add; simpl; [|done|].
  - intros x Hx Hp. exfalso. pose proof (inv_owner s Hs x Hx) as (q & Hq & Eq)%exists_elem.
    pose proof (wf_seq _ (inv_projects s Hs) q Hq) as Hle. simpl in Hle. lia.
  - intros x Hx _. by apply Hs.
Qed.

Lemma project_update_inv id input s : projects_inv s → projects_inv (project_update id input s).1.
Proof.
  intros Hs. unfold project_update, project_service_get, found, of_result, bind at 1.
  destruct (project_repo_get_by_id id s) as [p|]; [|done]. unfold update_and_return, bind, on_projects, on_table.
  destruct (sql_update _ _ _ _) as [[t n]|] eqn:E; [|done]. unfold found, of_result. simpl.
  pose proof E as (Hr & _)%sql_update_inv. apply (inv_more s); try done; [|apply Hs|].
  - eapply sql_update_wf; [apply Hs| |exact E]. done.
  - intros i. rewrite !exists_elem. simpl. rewrite Hr. intros (x & Hx & <-). eexists. split; [apply elem_of_mapb; eauto|].
    unfold updated. by destruct (_ =? _)%Z.
Qed.

Lemma project_delete_inv id s : projects_inv s → projects_inv (project_delete id s).1.
Proof.
  intros Hs. unfold project_delete, project_service_get, found, of_result, bind.
  destruct (project_repo_get_by_id id s) as [p|]; [|done]. unfold project_repo_delete. simpl.
  destruct Hs as [[] Hd]. split; [split|]; simpl; try by apply sql_delete_wf.
  - done.
  - intros e [He Hne]%elem_of_filterb. bsimp. pose proof (inv_owner0 e He) as (q & Hq & Eq)%exists_elem.
    apply exists_elem. exists q. simpl. rewrite elem_of_filterb. split_and!; try done. bsimp. apply negb_true_iff, Z.eqb_neq. lia.
  - intros l [Hl Hne]%elem_of_filterb. bsimp. destruct (inv_linked0 l Hl) as [(q & Hq & Eq)%exists_elem Ht]. split; [|done].
    apply exists_elem. exists q. simpl. rewrite elem_of_filterb. split_and!; try done. bsimp. apply negb_true_iff, Z.eqb_neq. lia.
  - apply one_default_filter; [|done]. by intros d e _ _ -> _ ?.
Qed.

Lemma tag_create_inv now dto s : projects_inv s → projects_inv (tag_service_create org_exists now dto s).1.
Proof.
  intros Hs. unfold tag_service_create, bind, tag_repo_create, on_tags, on_table.
  destruct (sql_insert _ _ _) as [[t id]|] eqn:E; [|done]. unfold found, of_result. simpl.
  pose proof E as (_ & _ & Hr & _)%sql_insert_inv. apply (inv_more s); try done; [apply Hs| |].
  - by eapply sql_insert_wf; [apply Hs| |exact E].
  - intros i. rewrite !tag_exists_elem. simpl. rewrite Hr. intros (x & Hx & <-). exists x. set_solver.
Qed.

Lemma tag_update_inv id dto s : projects_inv s → projects_inv (tag_service_update org_exists id dto s).1.
Proof.
  intros Hs. unfold tag_service_update, found, of_result, bind at 1. destruct (tag_repo_get_by_id id s) as [x|]; [|done].
  unfold bind, tag_repo_update, bind, on_tags, on_table. destruct (sql_update _ _ _ _) as [[t n]|] eqn:E; [|done]. simpl.
  pose proof E as (Hr & _)%sql_update_inv. apply (inv_more s); try done; [apply Hs| |].
  - eapply sql_update_wf; [apply Hs| |exact E]. done.
  - intros i. rewrite !tag_exists_elem. simpl. rewrite Hr. intros (y & Hy & <-). eexists. split; [apply elem_of_mapb; eauto|].
    unfold updated. by destruct (_ =? _)%Z.
Qed.

Lemma tag_delete_inv id s : projects_inv s → projects_inv (tag_service_delete id s).1.
Proof.
  intros [[] Hd]. split; [split|]; simpl; try done; try by apply sql_delete_wf.
  intros l [Hl Hne]%elem_of_filterb. bsimp. destruct (inv_linked0 l Hl) as [Hp (q & Hq & Eq)%tag_exists_elem].
  split; [done|]. apply tag_exists_elem. exists q. simpl. rewrite elem_of_filterb. split_and!; try done.
  bsimp. apply negb_true_iff, Z.eqb_neq. lia.
Qed.

Lemma link_delete_inv id s : projects_inv s → projects_inv (project_tag_repo_delete id s).1.
Proof.
  intros [[] Hd]. split; [split|]; simpl; try done; [by apply sql_delete_wf|].
  intros l [Hl _]%elem_of_filterb. by apply inv_linked0.
Qed.

Lemma attach_inv p t s : projects_inv s → projects_inv (attach_project_tag p t s).1.
Proof.
  intros Hs. unfold attach_project_tag, bind, project_tag_repo_create, on_project_tags, on_table.
  destruct (sql_insert _ _ _) as [[tb id]|] eqn:E; [|done]. simpl. pose proof E as (_ & _ & Hr & _ & _ & Hfk)%sql_insert_inv.
  destruct Hs as [[] Hd]. split; [split|]; simpl; try done.
  - by eapply sql_insert_wf; [exact inv_links0| |exact E].
  - rewrite Hr. intros l [Hl|Hl%list_elem_of_singleton]%elem_of_app; [by apply inv_linked0|]. subst l. by bsimp.
Qed.

Lemma detach_inv p t s : projects_inv s → projects_inv (detach_project_tag p t s).1.
Proof. intros Hs. unfold detach_project_tag. destruct (List.find _ _); [by apply link_delete_inv|done]. Qed.
End project_steps.

(** *** Histories *)

Inductive ProjectRequest :=
| CreateProject (input : CreateProjectDto) | PatchProject (id : Z) (input : PatchProjectDto) | DeleteProject (id : Z)
| CreateEnvironment (input : CreateEnvironmentDto) | PatchEnvironment (id : Z) (input : PatchEnvironmentDto)
| SetDefaultEnvironment (id : Z) | DeleteEnvironment (id : Z)
| CreateTag (dto : CreateTagDto) | UpdateTag (id : Z) (dto : UpdateTagDto) | DeleteTag (id : Z)
| AttachTag (project_id tag_id : Z) | DetachTag (project_id tag_id : Z).

Definition done_with {A} (m : ProjM A) : ProjM unit := (do! _ := m in ret tt)%rust.
Definition answer (org_exists : Z → bool) (now : Z) (rq : ProjectRequest) : ProjM unit :=
  match rq with
  | CreateProject i => done_with (project_create org_exists now i)
  | PatchProject id i => done_with (project_update id i)
  | DeleteProject id => project_delete id
  | CreateEnvironment i => done_with (environment_create now i)
  | PatchEnvironment id i => done_with (environment_update now id i)
  | SetDefaultEnvironment id => done_with (environment_set_default now id)
  | DeleteEnvironment id => environment_delete now id
  | CreateTag d => done_with (tag_service_create org_exists now d)
  | UpdateTag id d => done_with (tag_service_update org_exists id d)
  | DeleteTag id => tag_service_delete id
  | AttachTag p t => attach_project_tag p t
  | DetachTag p t => detach_project_tag p t
  end.
Definition serve (org_exists : Z → bool) (now : Z) (rq : ProjectRequest) (s : ProjectDb) : ProjectDb :=
  (answer org_exists now rq s).1.

Lemma done_with_state {A} (m : ProjM A) s : (done_with m s).1 = (m s).1.
Proof. unfold done_with, bind. by destruct (m s) as [s' [a|e]]. Qed.
Lemma done_with_error {A} (m : ProjM A) s s' e : done_with m s = (s', Err e) → m s = (s', Err e).
Proof. unfold done_with, bind. destruct (m s) as [s1 [a|e1]]; [done|]. by intros [= -> ->]. Qed.

Definition no_projects : ProjectDb := mkProjectDb empty_table empty_table empty_table empty_table.
(** The requests with their times and the organizations there are at the time *)
Definition serve_all (rqs : list ((Z → bool) * Z * ProjectRequest)) : ProjectDb :=
  foldl (λ s '(orgs, now, rq), serve orgs now rq s) no_projects rqs.

Lemma serve_inv orgs now rq s : projects_inv s → projects_inv (serve orgs now rq s).
Proof.
  intros Hs. destruct rq; unfold serve, answer; rewrite ?done_with_state; eauto using project_create_inv, project_update_inv, project_delete_inv, create_inv, update_inv,
    set_default_inv, delete_inv, tag_create_inv, tag_update_inv, tag_delete_inv, attach_inv, detach_inv.
Qed.

Lemma no_projects_inv : projects_inv no_projects.
Proof. split; [split|]; try apply empty_table_wf; intros ? Hx; by apply not_elem_of_nil in Hx. Qed.

Lemma serve_all_inv rqs : projects_inv (serve_all rqs).
Proof.
  unfold serve_all. assert (Hgen : ∀ s, projects_inv s → projects_inv (foldl (λ s '(orgs, now, rq), serve orgs now rq s) s rqs)).
  { induction rqs as [|[[o n] rq] rqs IH]; intros s Hs; [done|]. by apply IH, serve_inv. }
  apply Hgen, no_projects_inv.
Qed.

Lemma default_first_total a b : default_first a b = true ∨ default_first b a = true.
Proof. unfold default_first, oldest_first. rewrite !orb_true_iff, !andb_true_iff, !orb_true_iff, !andb_true_iff. rewrite !Z.ltb_lt, !Z.eqb_eq, !Z.leb_le. lia. Qed.
Lemma default_first_trans : Transitive (λ a b, default_first a b = true).
Proof. intros a b c. unfold default_first, oldest_first. rewrite !orb_true_iff, !andb_true_iff, !orb_true_iff, !andb_true_iff. rewrite !Z.ltb_lt, !Z.eqb_eq, !Z.leb_le. lia. Qed.

(** C31: After any sequence of requests on projects, environments and tags, failing ones
    included, a project that has environments has exactly one default, it is the first in the
    list of its environments, and every environment has its project. *)
Theorem one_default_environment rqs p :
  let s := serve_all rqs in
  list_by_project p s = []
  ∨ ∃ d others, list_by_project p s = d :: others
      ∧ en_is_default d = 1%Z ∧ Forall (λ e, en_is_default e = 0%Z) others ∧ project_exists s p = true.
Proof.
  intros s. pose proof (serve_all_inv rqs : projects_inv s) as Hs.
  destruct (list_by_project p s) as [|d others] eqn:E; [by left|right]. exists d, others.
  assert (Hin : ∀ e, e ∈ d :: others ↔ e ∈ rows (pd_environments s) ∧ en_project_id e = p).
  { intros e. rewrite <- E. unfold list_by_project. rewrite sql_order_by_elem. unfold sql_select.
    rewrite elem_of_filterb. by rewrite Z.eqb_eq. }
  destruct (proj1 (Hin d)) as [Hd Hdp]; [left|].
  destruct (inv_default s Hs d Hd) as (m & Hm & Hmp & Hm1 & Hu).
  pose proof (sql_order_by_sorted default_first
    (sql_select (λ e, en_project_id e =? p)%Z (pd_environments s)) default_first_total) as Hso.
  fold (list_by_project p s) in Hso. rewrite E in Hso.
  apply Sorted_StronglySorted in Hso; [|apply default_first_trans]. apply StronglySorted_inv in Hso as [_ Hall].
  assert (m = d) as ->.
  { assert (Hmin : m ∈ d :: others) by (apply Hin; split; [done|congruence]).
    apply elem_of_cons in Hmin as [->|Hmo]; [done|]. rewrite Forall_forall in Hall. specialize (Hall m Hmo).
    symmetry. apply Hu; [done|done|]. intros Hd0. unfold default_first in Hall. rewrite Hm1, Hd0 in Hall. done. }
  assert (Hnd : NoDup (d :: others)).
  { rewrite <- E. unfold list_by_project. rewrite sql_order_by_perm. eapply sublist_NoDup; [|apply filterb_sublist].
    eapply (NoDup_fmap_1 en_id), Hs. }
  apply NoDup_cons in Hnd as [Hnin _]. split_and!; [done|done| |].
  - apply Forall_forall. intros e He. destruct (proj1 (Hin e)) as [Hel Hep]; [by right|].
    destruct (decide (en_is_default e = 0%Z)) as [|Hn]; [done|]. destruct Hnin. rewrite <- (Hu e Hel) by congruence. done.
  - rewrite <- Hdp. by apply Hs.
Qed.

(** *** Errors *)

Lemma transaction_error {A} (m : ProjM A) s s' e : transaction m s = (s', Err e) → s' = s.
Proof. unfold transaction. destruct (m s) as [s1 [a|e1]]; [done|]. by intros [= -> ->]. Qed.

Lemma project_columns_id id n ds v (p : Project) :
  (pj_id (updated (λ p, pj_id p =? id) (project_repo_set_columns n ds v) p) =? id)%Z = (pj_id p =? id)%Z.
Proof. unfold updated. cbv beta. destruct (pj_id p =? id)%Z eqn:E; exact E. Qed.

Lemma project_update_error id i s s' e :
  projects_inv s → project_update id i s = (s', Err e) → s' = s.
Proof.
  intros Hs. unfold project_update, project_service_get, found, of_result, bind at 1.
  destruct (project_repo_get_by_id id s) as [p|] eqn:Eg; [|by intros [= -> _]].
  unfold update_and_return, bind, on_projects, on_table.
  destruct (sql_update _ _ _ _) as [[t n]|] eqn:E; [|by intros [= -> _]].
  pose proof E as (Hr & _)%sql_update_inv. unfold found, of_result, project_repo_get_by_id. simpl.
  rewrite (sql_first_map _ _ _ _ (project_columns_id id _ _ _) Hr).
  unfold project_repo_get_by_id in Eg. by rewrite Eg.
Qed.

Lemma tag_create_error orgs now d s s' e : projects_inv s → tag_service_create orgs now d s = (s', Err e) → s' = s.
Proof.
  intros Hs. unfold tag_service_create, bind, tag_repo_create, on_tags, on_table.
  destruct (sql_insert _ _ _) as [[t id]|] eqn:E; [|by intros [= -> _]]. pose proof E as (-> & _ & Hr & _)%sql_insert_inv.
  assert (Hwf : table_wf t) by (by eapply sql_insert_wf; [apply Hs| |exact E]).
  unfold found, of_result, tag_repo_get_by_id. simpl.
  set (row := with_tag_id _ _) in Hr.
  assert (Hrow : row ∈ rows t) by (rewrite Hr; set_solver). pose proof (sql_first_id t row Hwf Hrow) as Hf. simpl in Hf. by rewrite Hf.
Qed.

Lemma tag_update_error orgs id d s s' e : tag_service_update orgs id d s = (s', Err e) → s' = s.
Proof.
  unfold tag_service_update, found, of_result, bind at 1. destruct (tag_repo_get_by_id id s) as [x|]; [|by intros [= -> _]].
  unfold bind, tag_repo_update, bind, on_tags, on_table. destruct (sql_update _ _ _ _) as [[t n]|] eqn:E; [done|by intros [= -> _]].
Qed.

(** C32: A request on projects, environments or tags that is answered with an error leaves every
    table as it was, after any earlier requests. *)
Theorem failed_requests_change_nothing rqs orgs now rq s' e :
  answer orgs now rq (serve_all rqs) = (s', Err e) → s' = serve_all rqs.
Proof.
  pose proof (serve_all_inv rqs) as Hs. revert Hs. generalize (serve_all rqs) as s. intros s Hs.
  destruct rq; unfold answer; try intros Ha%done_with_error; eauto using transaction_error, project_update_error, tag_create_error, tag_update_error.
  - unfold project_delete, project_service_get, found, of_result, bind.
    destruct (project_repo_get_by_id id s); [done|by intros [= -> _]].
  - done.
  - revert Ha. unfold project_tag_repo_create, on_project_tags, on_table.
    destruct (sql_insert _ _ _) as [[tb i]|]; [done|by intros [= -> _]].
  - unfold detach_project_tag. destruct (List.find _ _); [done|]. done.
Qed.

Definition sample_history : list ((Z → bool) * Z * ProjectRequest) :=
  [((λ o, o =? 1)%Z, 10%Z, CreateProject (mkCreateProject "website" None "" 1));
   ((λ o, o =? 1)%Z, 20%Z, CreateEnvironment (mkCreateEnvironment "preview" None "" true 1));
   ((λ o, o =? 1)%Z, 30%Z, CreateEnvironment (mkCreateEnvironment "test" None "" false 1));
   ((λ o, o =? 1)%Z, 40%Z, DeleteEnvironment 2)].
Definition unset : ProjectRequest := PatchEnvironment 1 (mkPatchEnvironment None None None (Some false)).

(** Deleting the default makes the oldest the default again; it cannot be unset. *)
Lemma failed_requests_witness :
  map (λ e, (en_name e, en_is_default e)) (list_by_project 1 (serve_all sample_history))
    = [("production", 1%Z); ("test", 0%Z)]
  ∧ (answer (λ _, true) 50 unset (serve_all sample_history)).1 = serve_all sample_history
  ∧ environment_error (λ _, "") (Protocol unset_message) = (400%Z, unset_message).
Proof.
  split_and!; [by vm_compute| |done].
  apply (failed_requests_change_nothing sample_history (λ _, true) 50 unset _ (Protocol unset_message)).
  by vm_compute.
Defined.

(** *** Tags of a project *)

Lemma attach_run p t s s' :
  projects_inv s → attach_project_tag p t s = (s', Ok tt) →
  let l := mkProjectTag (seq (pd_project_tags s) + 1) p t in
  s' = with_project_tags (mkTable (rows (pd_project_tags s) ++ [l]) (seq (pd_project_tags s) + 1)) s
  ∧ tag_exists s t = true
  ∧ ∀ x, x ∈ rows (pd_project_tags s) → pt_id x ≠ pt_id l ∧ ((pt_project_id x =? p) && (pt_tag_id x =? t))%Z = false.
Proof.
  intros Hs. unfold attach_project_tag, bind, project_tag_repo_create, on_project_tags, on_table.
  destruct (sql_insert _ _ _) as [[tb i]|] eqn:E; [|done]. intros [= <-].
  pose proof E as (-> & Hq & Hr & _ & Hc & Hfk)%sql_insert_inv. destruct tb as [r q]. simpl in *. subst r q. bsimp.
  split_and!; try done. intros x Hx. split.
  - pose proof (wf_seq _ (inv_links s Hs) x Hx). simpl in *. lia.
  - rewrite existsb_false in Hc. specialize (Hc x Hx). simpl in Hc. by rewrite Z.eqb_sym, (Z.eqb_sym (pt_tag_id x)).
Qed.

Lemma find_last {A} (f : A → bool) l x : (∀ y, y ∈ l → f y = false) → f x = true → List.find f (l ++ [x]) = Some x.
Proof.
  intros Hl Hx. induction l as [|y l IH]; simpl; [by rewrite Hx|]. rewrite Hl by left. apply IH. intros z Hz. apply Hl. by right.
Qed.

(** A tag that was attached is listed; attaching it again is refused; detaching it restores the
    list. *)
Theorem attach_detach p t s s' :
  projects_inv s → attach_project_tag p t s = (s', Ok tt) →
  (∃ x, x ∈ list_project_tags p s' ∧ tg_id x = t)
  ∧ attach_project_tag p t s' = (s', Err UniqueFailed)
  ∧ list_project_tags p (detach_project_tag p t s').1 = list_project_tags p s.
Proof.
  intros Hs Ha. apply attach_run in Ha as (-> & (x & Hx & Ex)%tag_exists_elem & Hne); [|done].
  set (l := mkProjectTag _ p t) in *. split_and!.
  - exists x. split; [|done]. unfold list_project_tags. rewrite elem_of_filterb. split; [done|].
    apply existsb_elem. exists t. split; [|by apply Z.eqb_eq]. apply elem_of_mapb. exists l. split; [done|].
    apply elem_of_filterb. split; [unfold project_tag_repo_get_all; simpl; set_solver|]. apply Z.eqb_refl.
  - unfold attach_project_tag, bind, project_tag_repo_create, on_project_tags, on_table, sql_insert. simpl.
    rewrite (proj2 (existsb_elem _ _)); [done|]. exists l. split; [set_solver|]. simpl. by rewrite !Z.eqb_refl.
  - unfold detach_project_tag, project_tag_repo_get_all. simpl.
    rewrite (find_last _ _ l); [|intros y Hy; by apply Hne|simpl; by rewrite !Z.eqb_refl].
    unfold project_tag_repo_delete, list_project_tags, project_tag_repo_get_all. simpl.
    rewrite List.filter_app. simpl. rewrite Z.eqb_refl. simpl. rewrite app_nil_r.
    rewrite (filterb_all_true (λ r, negb _) (rows (pd_project_tags s))); [done|].
    intros y Hy. apply negb_true_iff, Z.eqb_neq. by apply Hne.
Qed.
