(* ===== verification/Rclone.v ===== *)
(** * rclone commands and backup destinations

    [crates/os/src/rclone] builds the text of an rclone command: the settings of its targets go
    into environment variables, the rest into arguments; [utils/backup/database/destination.rs]
    turns a destination into a target, and [services/destination.rs] with its repository and
    handlers keeps the destinations.  A [HashMap] has no order, so the order in which the
    variables are written is a parameter, any permutation of the map; the program that obscures
    a password, the executor and the organizations are parameters as well.  Prefixes are [src]
    and [dest], for which Rust's [to_uppercase] is the one of ASCII.  [settings_survive] says
    that the shell hands rclone exactly the settings of the targets, whatever characters they
    have, and the arguments as long as these are plain. *)

From stdpp Require Import gmap strings list fin_maps.
From Stdlib Require Import ZArith Lia Ascii.
From S2P Require Import Prelude RustStr RustText StringEnum Sql ShellQuote ShellRules.

(** ** [command.rs] *)

Inductive RcloneCommand := Rcat | Cat | Lsf | Copyto | Sync | RcDelete | Purge | RcCheck.
#[export] Instance RcloneCommand_eq_dec : EqDecision RcloneCommand.
Proof. solve_decision. Defined.
#[export] Instance RcloneCommand_enum : StringEnum RcloneCommand := {|
  enum_table := [(Rcat, "rcat"); (Cat, "cat"); (Lsf, "lsf"); (Copyto, "copyto"); (Sync, "sync"); (RcDelete, "delete");
                 (Purge, "purge"); (RcCheck, "check")];
  enum_default := Rcat |}.

(** ** [target.rs] *)

Inductive RcloneTarget :=
| Local (path : string)
| S3 (provider access_key_id secret_access_key bucket region endpoint path : string) (force_path_style no_check_bucket : bool)
| Sftp (host : string) (port : option Z) (user : string) (pass key_file : option string) (key_use_agent : bool) (path : string)
| Ftp (host : string) (port : option Z) (user pass path : string) (tls : bool)
| B2 (account_id application_key bucket path : string)
| Gcs (service_account_credentials : option string) (bucket path : string) (project_number : option string)
| AzureBlob (account key container path : string)
| Webdav (url user pass : string) (vendor : option string) (path : string)
| Dropbox (token path : string)
| GoogleDrive (client_id client_secret : option string) (token path : string).

(** [HashMap<String, String>] *)
Notation Envs := (gmap string string).

Section rclone.
Context (obscure_password : string → string) (order : gmap string string → list (string * string)).

(** [RCLONE_CONFIG_{NAME}_{key}] *)
Definition config_key (name key : string) : string := "RCLONE_CONFIG_" +:+ to_ascii_uppercase name +:+ "_" +:+ key.
Definition set_env (name key value : string) (m : Envs) : Envs := <[config_key name key := value]> m.
Definition set_opt (name key : string) (value : option string) (m : Envs) : Envs :=
  match value with Some v => set_env name key v m | None => m end.
Definition set_flag (name key : string) (b : bool) (m : Envs) : Envs := if b then set_env name key "true" m else m.

Definition in_bucket (name bucket path : string) : string := name +:+ ":" +:+ bucket +:+ "/" +:+ trim_start_char "/" path.
Definition at_path (name path : string) : string := name +:+ ":" +:+ path.

Definition compile (t : RcloneTarget) (prefix : string) : string * Envs :=
  match t with
  | Local path => (path, ∅)
  | S3 provider access_key_id secret_access_key bucket region endpoint path force_path_style no_check_bucket =>
      let name := prefix +:+ "_s3" in
      let envs := set_env name "TYPE" "s3" ∅ in
      let envs := set_env name "PROVIDER" provider envs in
      let envs := set_env name "ACCESS_KEY_ID" access_key_id envs in
      let envs := set_env name "SECRET_ACCESS_KEY" secret_access_key envs in
      let envs := set_env name "REGION" region envs in
      let envs := set_env name "ENDPOINT" endpoint envs in
      let envs := set_flag name "FORCE_PATH_STYLE" force_path_style envs in
      let envs := set_flag name "NO_CHECK_BUCKET" no_check_bucket envs in
      (in_bucket name bucket path, envs)
  | Sftp host port user pass key_file key_use_agent path =>
      let name := prefix +:+ "_sftp" in
      let envs := set_env name "TYPE" "sftp" ∅ in
      let envs := set_env name "HOST" host envs in
      let envs := set_env name "USER" user envs in
      let envs := set_opt name "PORT" (i64_to_string <$> port) envs in
      let envs := set_opt name "PASS" (obscure_password <$> pass) envs in
      let envs := set_opt name "KEY_FILE" key_file envs in
      let envs := set_flag name "KEY_USE_AGENT" key_use_agent envs in
      (at_path name path, envs)
  | Ftp host port user pass path tls =>
      let name := prefix +:+ "_ftp" in
      let envs := set_env name "TYPE" "ftp" ∅ in
      let envs := set_env name "HOST" host envs in
      let envs := set_env name "USER" user envs in
      let envs := set_env name "PASS" (obscure_password pass) envs in
      let envs := set_opt name "PORT" (i64_to_string <$> port) envs in
      let envs := set_flag name "TLS" tls envs in
      (at_path name path, envs)
  | B2 account_id application_key bucket path =>
      let name := prefix +:+ "_b2" in
      let envs := set_env name "TYPE" "b2" ∅ in
      let envs := set_env name "ACCOUNT" account_id envs in
      let envs := set_env name "KEY" application_key envs in
      (in_bucket name bucket path, envs)
  | Gcs service_account_credentials bucket path project_number =>
      let name := prefix +:+ "_gcs" in
      let envs := set_env name "TYPE" "google cloud storage" ∅ in
      let envs := set_opt name "SERVICE_ACCOUNT_CREDENTIALS" service_account_credentials envs in
      let envs := set_opt name "PROJECT_NUMBER" project_number envs in
      (in_bucket name bucket path, envs)
  | AzureBlob account key container path =>
      let name := prefix +:+ "_azureblob" in
      let envs := set_env name "TYPE" "azureblob" ∅ in
      let envs := set_env name "ACCOUNT" account envs in
      let envs := set_env name "KEY" key envs in
      (in_bucket name container path, envs)
  | Webdav url user pass vendor path =>
      let name := prefix +:+ "_webdav" in
      let envs := set_env name "TYPE" "webdav" ∅ in
      let envs := set_env name "URL" url envs in
      let envs := set_env name "USER" user envs in
      let envs := set_env name "PASS" (obscure_password pass) envs in
      let envs := set_opt name "VENDOR" vendor envs in
      (at_path name path, envs)
  | Dropbox token path =>
      let name := prefix +:+ "_dropbox" in
      let envs := set_env name "TYPE" "dropbox" ∅ in
      let envs := set_env name "TOKEN" token envs in
      (at_path name path, envs)
  | GoogleDrive client_id client_secret token path =>
      let name := prefix +:+ "_drive" in
      let envs := set_env name "TYPE" "drive" ∅ in
      let envs := set_env name "TOKEN" token envs in
      let envs := set_opt name "CLIENT_ID" client_id envs in
      let envs := set_opt name "CLIENT_SECRET" client_secret envs in
      (at_path name path, envs)
  end.

(** ** [builder.rs] *)

Inductive RcloneListFormat := PathSizeModified.
Definition list_format_value (f : RcloneListFormat) : string := match f with PathSizeModified => "pst" end.
Inductive RcloneSeparator := Tab | Comma.
Definition separator_value (s : RcloneSeparator) : string := match s with Tab => chr tab | Comma => "," end.

Record RcloneBuilder := mkRclone {
  rb_command : RcloneCommand; rb_source : option RcloneTarget; rb_destination : option RcloneTarget;
  rb_transfers : option Z; rb_checkers : option Z; rb_buffer_size : option string; rb_bwlimit : option string;
  rb_fast_list : bool; rb_use_mmap : bool;
  rb_retries : option Z; rb_low_level_retries : option Z; rb_timeout : option string; rb_connect_timeout : option string;
  rb_retry_delay : option string;
  rb_dry_run : bool; rb_check_first : bool; rb_ignore_errors : bool; rb_ignore_existing : bool; rb_update : bool; rb_inplace : bool;
  rb_log_file : option string; rb_log_level : option string; rb_stats : option string;
  rb_recursive : bool; rb_files_only : bool; rb_list_format : option RcloneListFormat; rb_separator : option RcloneSeparator }.

Definition rclone_new (c : RcloneCommand) : RcloneBuilder :=
  mkRclone c None None None None None None false false None None None None None false false false false false false
    None None None false false None None.

Definition flag (b : bool) (text : string) : list string := if b then [text] else [].
Definition opt_arg {A} (name : string) (show : A → string) (o : option A) : list string :=
  match o with Some a => [name +:+ show a] | None => [] end.
Definition itself (s : string) : string := s.

(** The arguments before the targets *)
Definition flag_args (b : RcloneBuilder) : list string :=
  opt_arg "--transfers=" i64_to_string (rb_transfers b) ++ opt_arg "--checkers=" i64_to_string (rb_checkers b)
  ++ opt_arg "--buffer-size=" itself (rb_buffer_size b) ++ opt_arg "--bwlimit=" itself (rb_bwlimit b)
  ++ flag (rb_fast_list b) "--fast-list" ++ flag (rb_use_mmap b) "--use-mmap"
  ++ opt_arg "--retries=" i64_to_string (rb_retries b) ++ opt_arg "--low-level-retries=" i64_to_string (rb_low_level_retries b)
  ++ opt_arg "--timeout=" itself (rb_timeout b) ++ opt_arg "--contimeout=" itself (rb_connect_timeout b)
  ++ opt_arg "--retry-delay=" itself (rb_retry_delay b)
  ++ flag (rb_dry_run b) "--dry-run" ++ flag (rb_check_first b) "--check-first" ++ flag (rb_ignore_errors b) "--ignore-errors"
  ++ flag (rb_ignore_existing b) "--ignore-existing" ++ flag (rb_update b) "--update" ++ flag (rb_inplace b) "--inplace"
  ++ opt_arg "--log-file=" itself (rb_log_file b) ++ opt_arg "--log-level=" itself (rb_log_level b)
  ++ opt_arg "--stats=" itself (rb_stats b)
  ++ flag (rb_recursive b) "--recursive" ++ flag (rb_files_only b) "--files-only"
  ++ opt_arg "--format=" list_format_value (rb_list_format b) ++ opt_arg "--separator=" separator_value (rb_separator b).

Definition target_of (o : option RcloneTarget) (prefix : string) : list string * Envs :=
  match o with Some t => let '(path, envs) := compile t prefix in ([path], envs) | None => ([], ∅) end.

(** [envs.extend(..)]: later entries replace earlier ones *)
Definition build (b : RcloneBuilder) : list string * Envs :=
  let '(src, src_envs) := target_of (rb_source b) "src" in
  let '(dst, dst_envs) := target_of (rb_destination b) "dest" in
  (as_str (rb_command b) :: flag_args b ++ src ++ dst, dst_envs ∪ src_envs).

Definition assignment_text (kv : string * string) : string := kv.1 +:+ "=" +:+ shell_single_quote kv.2.
Definition to_command_string (b : RcloneBuilder) : string :=
  let '(args, envs) := build b in
  let env_string := join " " (map assignment_text (order envs)) in
  if str_is_empty env_string then "rclone " +:+ join " " args
  else env_string +:+ " rclone " +:+ join " " args.
End rclone.

Definition with_source (t : RcloneTarget) (b : RcloneBuilder) : RcloneBuilder :=
  mkRclone (rb_command b) (Some t) (rb_destination b) (rb_transfers b) (rb_checkers b) (rb_buffer_size b) (rb_bwlimit b)
    (rb_fast_list b) (rb_use_mmap b) (rb_retries b) (rb_low_level_retries b) (rb_timeout b) (rb_connect_timeout b)
    (rb_retry_delay b) (rb_dry_run b) (rb_check_first b) (rb_ignore_errors b) (rb_ignore_existing b) (rb_update b) (rb_inplace b)
    (rb_log_file b) (rb_log_level b) (rb_stats b) (rb_recursive b) (rb_files_only b) (rb_list_format b) (rb_separator b).
Definition with_destination (t : RcloneTarget) (b : RcloneBuilder) : RcloneBuilder :=
  mkRclone (rb_command b) (rb_source b) (Some t) (rb_transfers b) (rb_checkers b) (rb_buffer_size b) (rb_bwlimit b)
    (rb_fast_list b) (rb_use_mmap b) (rb_retries b) (rb_low_level_retries b) (rb_timeout b) (rb_connect_timeout b)
    (rb_retry_delay b) (rb_dry_run b) (rb_check_first b) (rb_ignore_errors b) (rb_ignore_existing b) (rb_update b) (rb_inplace b)
    (rb_log_file b) (rb_log_level b) (rb_stats b) (rb_recursive b) (rb_files_only b) (rb_list_format b) (rb_separator b).
(** [recursive().files_only().list_format(PathSizeModified).separator(Tab)] *)
Definition as_listing (b : RcloneBuilder) : RcloneBuilder :=
  mkRclone (rb_command b) (rb_source b) (rb_destination b) (rb_transfers b) (rb_checkers b) (rb_buffer_size b) (rb_bwlimit b)
    (rb_fast_list b) (rb_use_mmap b) (rb_retries b) (rb_low_level_retries b) (rb_timeout b) (rb_connect_timeout b)
    (rb_retry_delay b) (rb_dry_run b) (rb_check_first b) (rb_ignore_errors b) (rb_ignore_existing b) (rb_update b) (rb_inplace b)
    (rb_log_file b) (rb_log_level b) (rb_stats b) true true (Some PathSizeModified) (Some Tab).
(** [timeout("10s").connect_timeout("5s").retries(1)] *)
Definition with_limits (b : RcloneBuilder) : RcloneBuilder :=
  mkRclone (rb_command b) (rb_source b) (rb_destination b) (rb_transfers b) (rb_checkers b) (rb_buffer_size b) (rb_bwlimit b)
    (rb_fast_list b) (rb_use_mmap b) (Some 1%Z) (rb_low_level_retries b) (Some "10s") (Some "5s")
    (rb_retry_delay b) (rb_dry_run b) (rb_check_first b) (rb_ignore_errors b) (rb_ignore_existing b) (rb_update b) (rb_inplace b)
    (rb_log_file b) (rb_log_level b) (rb_stats b) (rb_recursive b) (rb_files_only b) (rb_list_format b) (rb_separator b).

(** ** [utils/backup/database/destination.rs] *)

Inductive DestinationProvider :=
| DpS3 | DpAws | DpR2 | DpCloudflareR2 | DpBackblaze | DpB2 | DpGcs | DpGcp | DpGoogle | DpDoSpaces | DpDigitalOcean | DpSpaces.
#[export] Instance DestinationProvider_eq_dec : EqDecision DestinationProvider.
Proof. solve_decision. Defined.
#[export] Instance DestinationProvider_enum : StringEnum DestinationProvider := {|
  enum_table := [(DpS3, "S3"); (DpAws, "AWS"); (DpR2, "R2"); (DpCloudflareR2, "CLOUDFLARE_R2"); (DpBackblaze, "BACKBLAZE");
                 (DpB2, "B2"); (DpGcs, "GCS"); (DpGcp, "GCP"); (DpGoogle, "GOOGLE"); (DpDoSpaces, "DO_SPACES");
                 (DpDigitalOcean, "DIGITALOCEAN"); (DpSpaces, "SPACES")];
  enum_default := DpS3 |}.
#[export] Instance DestinationProvider_laws : StringEnumLaws DestinationProvider.
Proof. enum_laws. Qed.

Record S3Destination := mkS3Destination {
  sd_access_key : string; sd_secret_key : string; sd_bucket : string; sd_region : string; sd_endpoint : string;
  sd_provider : option string }.

Definition rclone_provider (p : DestinationProvider) (endpoint : string) : string :=
  match p with
  | DpS3 | DpAws => if str_is_empty (trim endpoint) then "AWS" else "Other"
  | DpR2 | DpCloudflareR2 => "Cloudflare"
  | DpDoSpaces | DpDigitalOcean | DpSpaces => "DigitalOcean"
  | DpBackblaze | DpB2 | DpGcs | DpGcp | DpGoogle => "Other"
  end.
Definition to_rclone_target (d : S3Destination) (path : string) : RcloneTarget :=
  S3 (rclone_provider (from (default "" (sd_provider d))) (sd_endpoint d)) (sd_access_key d) (sd_secret_key d) (sd_bucket d)
    (sd_region d) (sd_endpoint d) path true true.

(** ** [DestinationRepository]; the id of a row is read as text *)

Record Destination := mkDestination {
  ds_id : Z; ds_name : string; ds_provider : string; ds_access_key : string; ds_secret_access_key : string; ds_bucket : string;
  ds_region : string; ds_endpoint : string; ds_organization_id : Z; ds_created_at : Z; ds_updated_at : Z }.
#[export] Instance Destination_schema : Schema Destination := {|
  row_id := ds_id;
  row_check := λ d, bool_decide (ds_provider d ∈ ["S3"; "R2"; "BACKBLAZE"; "GCS"; "DO_SPACES"]);
  row_conflict := λ _ _, false |}.
#[export] Instance Destination_laws : SchemaLaws Destination.
Proof. by constructor. Qed.

Definition destination_get_all (t : Table Destination) : list Destination := rows t.
Definition destination_get_by_id (id : Z) (t : Table Destination) : option Destination := sql_first (λ d, ds_id d =? id)%Z t.
Definition destination_row (id : Z) (item : Destination) : Destination :=
  mkDestination id (ds_name item) (ds_provider item) (ds_access_key item) (ds_secret_access_key item) (ds_bucket item)
    (ds_region item) (ds_endpoint item) (ds_organization_id item) (ds_created_at item) (ds_updated_at item).
(** The trigger [destinations_updated_at] runs after an update. *)
Definition destination_touch (now : Z) (d : Destination) : Destination :=
  mkDestination (ds_id d) (ds_name d) (ds_provider d) (ds_access_key d) (ds_secret_access_key d) (ds_bucket d)
    (ds_region d) (ds_endpoint d) (ds_organization_id d) (ds_created_at d) now.

Section destinations.
Context (org_exists : Z → bool).
Definition destination_repo_create (item : Destination) (t : Table Destination) :=
  sql_insert (λ d, org_exists (ds_organization_id d)) (λ id, destination_row id item) t.
Definition destination_repo_update (now id : Z) (item : Destination) (t : Table Destination) :=
  sql_update (λ d, org_exists (ds_organization_id d)) (λ d, ds_id d =? id)%Z
    (λ d, destination_touch now (destination_row (ds_id d) item)) t.
Definition destination_repo_delete (id : Z) (t : Table Destination) : Table Destination :=
  (sql_delete (λ d, ds_id d =? id)%Z t).1.

(** ** [DestinationService] *)

Inductive DestinationsProviderEnum := PvS3 | PvR2 | PvBackblaze | PvGcs | PvDoSpaces.
Inductive DestinationProviderPreset :=
| PsS3 | PsR2 | PsCloudflareR2 | PsBackblaze | PsB2 | PsGcs | PsGcp | PsGoogle | PsDoSpaces | PsDigitalOcean | PsSpaces.
#[export] Instance DestinationProviderPreset_eq_dec : EqDecision DestinationProviderPreset.
Proof. solve_decision. Defined.
#[export] Instance DestinationProviderPreset_enum : StringEnum DestinationProviderPreset := {|
  enum_table := [(PsS3, "S3"); (PsR2, "R2"); (PsCloudflareR2, "CLOUDFLARE_R2"); (PsBackblaze, "BACKBLAZE"); (PsB2, "B2");
                 (PsGcs, "GCS"); (PsGcp, "GCP"); (PsGoogle, "GOOGLE"); (PsDoSpaces, "DO_SPACES"); (PsDigitalOcean, "DIGITALOCEAN");
                 (PsSpaces, "SPACES")];
  enum_default := PsS3 |}.
Definition from_preset (s : string) : DestinationsProviderEnum :=
  match from s with
  | PsR2 | PsCloudflareR2 => PvR2
  | PsBackblaze | PsB2 => PvBackblaze
  | PsGcs | PsGcp | PsGoogle => PvGcs
  | PsDoSpaces | PsDigitalOcean | PsSpaces => PvDoSpaces
  | PsS3 => PvS3
  end.
Definition as_db_str (p : DestinationsProviderEnum) : string :=
  match p with PvS3 => "S3" | PvR2 => "R2" | PvBackblaze => "BACKBLAZE" | PvGcs => "GCS" | PvDoSpaces => "DO_SPACES" end.

Record CreateDestinationDto := mkCreateDestination {
  cd_name : string; cd_provider : string; cd_access_key : string; cd_secret_access_key : string; cd_bucket : string;
  cd_region : string; cd_endpoint : string; cd_organization_id : Z }.
Record PatchDestinationDto := mkPatchDestination {
  px_name : option string; px_provider : option string; px_access_key : option string; px_secret_access_key : option string;
  px_bucket : option string; px_region : option string; px_endpoint : option string }.

Definition DestM := SE (Table Destination) SqlError.
Definition dest_sql {A} (f : Table Destination → result (Table Destination * A) SqlError) : DestM A := λ t,
  match f t with Ok (t', a) => (t', Ok a) | Err e => (t, Err e) end.
Definition dest_found {A} (o : option A) : DestM A := of_result match o with Some a => Ok a | None => Err RowNotFound end.
(** [id.parse::<i64>()] *)
Definition parse_id (id : string) : DestM Z := dest_found (parse_i64 id).

Definition destination_get (id : string) : DestM Destination :=
  (do! i := parse_id id in λ t, dest_found (destination_get_by_id i t) t)%rust.
Definition destination_list : DestM (list Destination) := λ t, (t, Ok (destination_get_all t)).
Definition destination_create (input : CreateDestinationDto) : DestM Destination :=
  (let item := mkDestination 0 (cd_name input) (as_db_str (from_preset (cd_provider input))) (cd_access_key input)
     (cd_secret_access_key input) (cd_bucket input) (cd_region input) (cd_endpoint input) (cd_organization_id input) 0 0 in
   do! new_id := dest_sql (destination_repo_create item) in
   λ t, dest_found (destination_get_by_id new_id t) t)%rust.
Definition destination_edit (input : PatchDestinationDto) (d : Destination) : Destination :=
  mkDestination (ds_id d) (default (ds_name d) (px_name input))
    (match px_provider input with Some v => as_db_str (from_preset v) | None => ds_provider d end)
    (default (ds_access_key d) (px_access_key input)) (default (ds_secret_access_key d) (px_secret_access_key input))
    (default (ds_bucket d) (px_bucket input)) (default (ds_region d) (px_region input)) (default (ds_endpoint d) (px_endpoint input))
    (ds_organization_id d) (ds_created_at d) (ds_updated_at d).
Definition destination_patch (now : Z) (id : string) (input : PatchDestinationDto) : DestM Destination :=
  (do! current := destination_get id in
   do! i := parse_id id in
   do! _ := dest_sql (destination_repo_update now i (destination_edit input current)) in
   λ t, dest_found (destination_get_by_id i t) t)%rust.
Definition destination_delete (id : string) : DestM unit :=
  (do! i := parse_id id in
   do! _ := (λ t, dest_found (destination_get_by_id i t) t) in
   λ t, (destination_repo_delete i t, Ok tt))%rust.
End destinations.

(** [None] for a process that was killed by a signal *)
Record ExecOutput := mkExec { ex_code : option Z; ex_stdout : string; ex_stderr : string }.
Definition ex_success (o : ExecOutput) : bool := bool_decide (ex_code o = Some 0%Z).

Section connection.
Context (obscure : string → string) (order : gmap string string → list (string * string))
  (run_sh : string → result ExecOutput string).
(** [execute]: [sh -c] of the command text on the panel's host *)
Definition execute (b : RcloneBuilder) : result ExecOutput string := run_sh (to_command_string obscure order b).
Definition test_connection_raw (provider access_key secret_access_key bucket region endpoint : string) : result unit string :=
  let target := to_rclone_target (mkS3Destination access_key secret_access_key bucket region endpoint (Some provider)) "" in
  (let? out := execute (with_limits (with_source target (rclone_new Lsf))) in
   if negb (ex_success out) then Err ("Connection test failed: " +:+ ex_stderr out) else Ok tt)%rust.
Definition destination_test (error_text : SqlError → string) (id : string) (t : Table Destination) : result unit string :=
  match (destination_get id t).2 with
  | Ok d => test_connection_raw (ds_provider d) (ds_access_key d) (ds_secret_access_key d) (ds_bucket d) (ds_region d) (ds_endpoint d)
  | Err e => Err (error_text e)
  end.
End connection.

Definition destination_error (db_message : SqlError → string) (e : SqlError) : Z * string :=
  match e with
  | RowNotFound => (404%Z, "destination not found")
  | UniqueFailed => (409%Z, db_message e)
  | _ => (500%Z, "database operation failed")
  end.

(** ** The handlers, after the permission check and the validation of the body *)

Record DestinationResponseDto := mkDestinationResponse {
  dr_id : string; dr_name : string; dr_provider : string; dr_access_key : string; dr_secret_access_key : string; dr_bucket : string;
  dr_region : string; dr_endpoint : string; dr_organization_id : Z; dr_created_at : Z; dr_updated_at : Z }.
(** [CAST(id AS TEXT)] *)
Definition destination_response (d : Destination) : DestinationResponseDto :=
  mkDestinationResponse (i64_to_string (ds_id d)) (ds_name d) (ds_provider d) (ds_access_key d) (ds_secret_access_key d) (ds_bucket d)
    (ds_region d) (ds_endpoint d) (ds_organization_id d) (ds_created_at d) (ds_updated_at d).

Section handlers.
Context (db_message : SqlError → string).
Definition DestHandler (B : Type) := SE (Table Destination) (Z * string) (Z * B).
Definition dest_respond {A B} (status : Z) (body : A → B) (m : DestM A) : DestHandler B := λ t,
  match m t with (t', Ok a) => (t', Ok (status, body a)) | (t', Err e) => (t', Err (destination_error db_message e)) end.
(** [AppStateCache] keeps nothing, so the list is read every time. *)
Definition destination_handler_list : DestHandler (list DestinationResponseDto) := dest_respond 200 (map destination_response) destination_list.
Definition destination_handler_get (id : string) : DestHandler DestinationResponseDto :=
  dest_respond 200 destination_response (destination_get id).
Definition destination_handler_create (org_exists : Z → bool) (body : CreateDestinationDto) : DestHandler DestinationResponseDto :=
  dest_respond 201 destination_response (destination_create org_exists body).
Definition destination_handler_patch (org_exists : Z → bool) (now : Z) (id : string) (body : PatchDestinationDto) : DestHandler DestinationResponseDto :=
  dest_respond 200 destination_response (destination_patch org_exists now id body).
Definition destination_handler_delete (id : string) : DestHandler unit := dest_respond 204 (λ u, u) (destination_delete id).
End handlers.

(** ** A command with variables in front of it *)

(** A word after the name of a command, where an equals sign stands for itself *)
Inductive reads_arg (env : string → string) : string → string → Prop :=
| rg_word t v : reads_as env t v → reads_arg env t v
| rg_equals : reads_arg env "=" "="
| rg_app t v t' v' : reads_arg env t v → reads_arg env t' v' → reads_arg env (t +:+ t') (v +:+ v').

(** What the shell runs: the variables it sets for the command, and the words of the command *)
Class CommandShell := command_words : (string → string) → string → option (list (string * string) * list string).
Class CommandShellLaws `{CommandShell} : Prop := {
  cs_assign env k t v rest : is_name k = true → reads_as env t v →
    command_words env (k +:+ "=" +:+ t +:+ " " +:+ rest) = (λ '(a, w), ((k, v) :: a, w)) <$> command_words env rest;
  cs_command env name ts vs : plain_word name = true → Forall2 (reads_arg env) ts vs →
    command_words env (join " " (name :: ts)) = Some ([], name :: vs);
}.

Lemma assignments_read `{CommandShellLaws} env kvs rest :
  Forall (λ kv, is_name kv.1 = true) kvs →
  command_words env (join " " (map assignment_text kvs ++ [rest]))
  = (λ '(a, w), (kvs ++ a, w)) <$> command_words env rest.
Proof.
  induction 1 as [|[k v] kvs Hk _ IH]; [simpl; by destruct (command_words env rest) as [[]|]|].
  replace (join " " (map assignment_text ((k, v) :: kvs) ++ [rest]))
    with (k +:+ "=" +:+ shell_single_quote v +:+ " " +:+ join " " (map assignment_text kvs ++ [rest])).
  - rewrite (cs_assign _ k _ v _ Hk (single_quote_reads env v)), IH. by destruct (command_words env rest) as [[]|].
  - destruct kvs as [|kv kvs]; simpl; unfold assignment_text; simpl; by rewrite !str_app_assoc.
Qed.

Lemma join_snoc sep l x : l ≠ [] → join sep (l ++ [x]) = join sep l +:+ sep +:+ x.
Proof.
  induction l as [|a l IH]; [done|]. intros _. destruct l as [|b l]; [done|].
  change (join sep ((a :: b :: l) ++ [x])) with (a +:+ sep +:+ join sep ((b :: l) ++ [x])).
  rewrite IH by done. change (join sep (a :: b :: l)) with (a +:+ sep +:+ join sep (b :: l)). by rewrite !str_app_assoc.
Qed.

(** *** The names of the variables *)

Definition key_prefix (p : string) : string := "RCLONE_CONFIG_" +:+ to_ascii_uppercase p +:+ "_".
Definition good_keys (p : string) (m : Envs) : Prop :=
  map_Forall (λ k _, is_name k = true ∧ starts_with (key_prefix p) k = true) m.

Lemma good_set p name key v m :
  good_keys p m → is_name (config_key name key) = true → starts_with (key_prefix p) (config_key name key) = true →
  good_keys p (set_env name key v m).
Proof. intros Hm Hn Hp. by apply map_Forall_insert_2. Qed.
Lemma good_set_opt p name key v m :
  good_keys p m → is_name (config_key name key) = true → starts_with (key_prefix p) (config_key name key) = true →
  good_keys p (set_opt name key v m).
Proof. intros Hm Hn Hp. destruct v; [by apply good_set|done]. Qed.
Lemma good_set_flag p name key b m :
  good_keys p m → is_name (config_key name key) = true → starts_with (key_prefix p) (config_key name key) = true →
  good_keys p (set_flag name key b m).
Proof. intros Hm Hn Hp. destruct b; [by apply good_set|done]. Qed.

Ltac keys_good :=
  repeat lazymatch goal with
  | |- good_keys _ (set_env _ _ _ _) => apply good_set
  | |- good_keys _ (set_opt _ _ _ _) => apply good_set_opt
  | |- good_keys _ (set_flag _ _ _ _) => apply good_set_flag
  | |- good_keys _ ∅ => apply map_Forall_empty
  end; vm_compute; reflexivity.

Lemma compile_keys obscure t p : p ∈ ["src"; "dest"] → good_keys p (compile obscure t p).2.
Proof.
  intros Hp. repeat (apply elem_of_cons in Hp as [->|Hp]); [| |by apply not_elem_of_nil in Hp];
    destruct t; cbn [compile snd]; keys_good.
Qed.

Lemma target_keys obscure o p : p ∈ ["src"; "dest"] → good_keys p (target_of obscure o p).2.
Proof.
  intros Hp. destruct o as [t|]; simpl; [|apply map_Forall_empty].
  pose proof (compile_keys obscure t p Hp) as Hk. by destruct (compile obscure t p).
Qed.

(** Source and destination set different variables. *)
Lemma targets_disjoint obscure a b : (target_of obscure b "dest").2 ##ₘ (target_of obscure a "src").2.
Proof.
  apply map_disjoint_spec. intros k x y Hx Hy.
  destruct (target_keys obscure b "dest" ltac:(set_solver) k x Hx) as [_ H1].
  destruct (target_keys obscure a "src" ltac:(set_solver) k y Hy) as [_ H2].
  apply starts_with_spec in H1 as [r1 ->], H2 as [r2 E2]. cbv in E2. done.
Qed.

(** An argument of letters, digits, equals signs and the like *)
Definition arg_char (c : ascii) : bool := is_plain c || is_char c "=".
Definition arg_word (s : string) : bool := negb (str_is_empty s) && forallb arg_char (chars s).

Lemma arg_char_reads env c : arg_char c = true → reads_arg env (chr c) (chr c).
Proof.
  unfold arg_char. intros [Hc|Hc]%orb_true_iff; [by apply rg_word, ra_plain|]. apply is_char_spec in Hc as ->. apply rg_equals.
Qed.
Lemma arg_word_reads env s : arg_word s = true → reads_arg env s s.
Proof.
  unfold arg_word. intros [Hne Hs]%andb_true_iff. induction s as [|c s IH]; [done|]. simpl in Hs. apply andb_true_iff in Hs as [Hc Hs].
  destruct s as [|d s]; [by apply arg_char_reads|].
  change (String c (String d s)) with (chr c +:+ String d s). apply rg_app; [by apply arg_char_reads|by apply IH].
Qed.

(** C36: The shell sets for rclone exactly the settings of the source and of the destination,
    with the values they have, and gives it exactly the arguments that were built, whatever the
    order of the settings, as long as the arguments are plain words. *)
Theorem settings_survive `{CommandShellLaws} env obscure order b :
  (∀ m : gmap string string, order m ≡ₚ map_to_list m) →
  Forall (λ a, arg_word a = true) (build obscure b).1 →
  ∃ vars, command_words env (to_command_string obscure order b) = Some (vars, "rclone" :: (build obscure b).1)
    ∧ NoDup vars.*1
    ∧ ∀ k v, (k, v) ∈ vars ↔
        (target_of obscure (rb_source b) "src").2 !! k = Some v ∨ (target_of obscure (rb_destination b) "dest").2 !! k = Some v.
Proof.
  intros Ho Hargs. pose proof (target_keys obscure (rb_source b) "src" ltac:(set_solver)) as Hs.
  pose proof (target_keys obscure (rb_destination b) "dest" ltac:(set_solver)) as Hd.
  pose proof (targets_disjoint obscure (rb_source b) (rb_destination b)) as Hdis.
  unfold to_command_string, build in *.
  destruct (target_of obscure (rb_source b) "src") as [src se], (target_of obscure (rb_destination b) "dest") as [dst de].
  simpl in Hs, Hd, Hdis. set (args := as_str (rb_command b) :: flag_args b ++ src ++ dst) in *. simpl in Hargs.
  assert (Hkeys : Forall (λ kv, is_name kv.1 = true) (order (de ∪ se))).
  { apply Forall_forall. intros [k v] Hin. rewrite Ho in Hin. apply elem_of_map_to_list in Hin.
    apply lookup_union_Some in Hin as [Hin|Hin]; [by apply (Hd k v)|by apply (Hs k v)|done]. }
  assert (Hcmd : command_words env (join " " ("rclone" :: args)) = Some ([], "rclone" :: args)).
  { apply cs_command; [done|]. clear -Hargs. induction Hargs; constructor; [by apply arg_word_reads|done]. }
  exists (order (de ∪ se)). split_and!.
  - assert (Htext : (if str_is_empty (join " " (map assignment_text (order (de ∪ se)))) then "rclone " +:+ join " " args
              else join " " (map assignment_text (order (de ∪ se))) +:+ " rclone " +:+ join " " args)
            = join " " (map assignment_text (order (de ∪ se)) ++ [join " " ("rclone" :: args)])).
    { change (join " " ("rclone" :: args)) with ("rclone" +:+ " " +:+ join " " args).
      destruct (order (de ∪ se)) as [|[k v] l]; [done|]. rewrite join_snoc by done.
      destruct (str_is_empty _) eqn:Ee; [|reflexivity]. exfalso. apply bool_decide_eq_true in Ee.
      simpl in Ee. unfold assignment_text in Ee. by destruct l, k. }
    rewrite Htext, assignments_read, Hcmd by done. simpl. by rewrite app_nil_r.
  - rewrite (fmap_Permutation _ _ _ (Ho _)). apply NoDup_fst_map_to_list.
  - intros k v. rewrite Ho, elem_of_map_to_list, lookup_union_Some by done. tauto.
Qed.

(** *** A reader of commands *)

Definition is_equals (c : ascii) : bool := is_char c "=".
Fixpoint split_assignments (ws : list string) : list (string * string) * list string :=
  match ws with
  | [] => ([], [])
  | w :: ws' =>
      match split_once "=" w with
      | Some (k, v) => if is_name k then let '(a, r) := split_assignments ws' in ((k, v) :: a, r) else ([], ws)
      | None => ([], ws)
      end
  end.
#[export] Instance reference_command_shell : CommandShell := λ env s, split_assignments <$> read_from env is_equals Between s.

Section command_reader.
Context (env : string → string).
Notation read := (read_from env is_equals).

Lemma read_command_arg t v : reads_arg env t v → ∀ acc rest, read (Bare acc) (t +:+ rest) = read (Bare (acc +:+ v)) rest.
Proof.
  induction 1 as [t v Hw| |t v t' v' _ IH _ IH']; intros acc rest.
  - by apply read_word.
  - change ("=" +:+ rest) with (String "=" rest). simpl. by rewrite fmap_app_nil.
  - rewrite str_app_assoc, IH, IH'. by rewrite str_app_assoc.
Qed.
Lemma arg_first t v : reads_arg env t v → ∃ c t', t = String c t' ∧ is_blank_char c = false.
Proof.
  induction 1 as [t v Hw| |t v t' v' _ (c & u & -> & Hc) _ _]; [by eapply reads_first|by eexists _, _|by eexists c, _].
Qed.
Lemma read_arg_first t v rest : reads_arg env t v → read Between (t +:+ rest) = read (Bare v) rest.
Proof.
  intros Ht. destruct (arg_first t v Ht) as (c & t' & -> & Hc).
  pose proof (read_command_arg _ _ Ht "" rest) as Hw. change ("" +:+ v) with v in Hw. rewrite <-Hw.
  change (String c t' +:+ rest) with (String c (t' +:+ rest)). cbn [read_from mode_step]. by rewrite Hc.
Qed.
Lemma read_args ts vs : Forall2 (reads_arg env) ts vs → read Between (join " " ts) = Some vs.
Proof.
  induction 1 as [|t v ts vs Ht Hts IH]; [done|]. destruct ts as [|t' ts'].
  - apply Forall2_nil_inv_l in Hts as ->. change (join " " [t]) with t. rewrite <-(str_app_nil_r t). by rewrite (read_arg_first t v).
  - change (join " " (t :: t' :: ts')) with (t +:+ " " +:+ join " " (t' :: ts')). rewrite (read_arg_first t v) by done.
    change (" " +:+ join " " (t' :: ts')) with (String space (join " " (t' :: ts'))). cbn [read_from mode_step].
    change (is_blank_char space) with true. cbv iota. by rewrite IH.
Qed.
End command_reader.

Lemma name_plain k : is_name k = true → plain_word k = true.
Proof.
  intros Hk. unfold plain_word. pose proof (is_name_chars k Hk) as Hc. apply andb_true_iff. split; [by destruct k|].
  rewrite forallb_elem in *. intros c Hin. specialize (Hc c Hin). revert Hc. clear. by destruct c as [[] [] [] [] [] [] [] []].
Qed.
Lemma plain_no_equals k : plain_word k = true → ("=" : ascii)%char ∉ chars k.
Proof.
  unfold plain_word. intros [_ Hk]%andb_true_iff Hin. rewrite forallb_elem in Hk. specialize (Hk _ Hin). by vm_compute in Hk.
Qed.

#[export] Instance reference_command_shell_laws : CommandShellLaws.
Proof.
  split; unfold command_words, reference_command_shell.
  - intros env k t v rest Hk Ht. pose proof (name_plain k Hk) as Hp.
    assert (Hw : reads_arg env (k +:+ "=" +:+ t) (k +:+ "=" +:+ v)).
    { apply rg_app; [by apply rg_word, plain_reads|]. apply rg_app; [apply rg_equals|by apply rg_word]. }
    replace (k +:+ "=" +:+ t +:+ " " +:+ rest) with ((k +:+ "=" +:+ t) +:+ String space rest) by (by rewrite !str_app_assoc).
    rewrite (read_arg_first env _ _ _ Hw). cbn [read_from mode_step]. change (is_blank_char space) with true. cbv iota.
    destruct (read_from env is_equals Between rest) as [ws|]; [|done]. simpl.
    change (k +:+ "=" +:+ v) with (k +:+ String "=" v). rewrite (proj2 (split_once_spec _ _ k v)); [|split; [done|by apply plain_no_equals]].
    rewrite Hk. by destruct (split_assignments ws).
  - intros env name ts vs Hn Hts. rewrite (read_args env (name :: ts) (name :: vs)); [|constructor; [by apply rg_word, plain_reads|done]].
    simpl. destruct (split_once "=" name) as [[k v]|] eqn:E; [|done].
    apply split_once_spec in E as [-> _]. exfalso. apply (plain_no_equals _ Hn). rewrite chars_app. set_solver.
Qed.

(** ** Providers *)

(** The providers that are written alike *)
Definition provider_group (p : DestinationProvider) : nat :=
  match p with
  | DpS3 | DpAws => 0 | DpR2 | DpCloudflareR2 => 1 | DpDoSpaces | DpDigitalOcean | DpSpaces => 2
  | DpBackblaze | DpB2 | DpGcs | DpGcp | DpGoogle => 3
  end.
Lemma provider_of_group p q endpoint : provider_group p = provider_group q → rclone_provider p endpoint = rclone_provider q endpoint.
Proof. by destruct p, q. Qed.

(** Storing one of five providers instead of the name in the request does not change the
    provider rclone is told. *)
Theorem preset_keeps_provider s endpoint :
  rclone_provider (from (as_db_str (from_preset s))) endpoint = rclone_provider (from s) endpoint.
Proof.
  apply provider_of_group. unfold from_preset, from, from_str at 2 3. set (key := to_ascii_uppercase (trim s)). clearbody key.
  cbn [enum_table enum_default DestinationProviderPreset_enum DestinationProvider_enum list_find].
  repeat (destruct (decide (_ = key)) as [<-|?]; [vm_compute; reflexivity|]; cbn [fmap option_fmap option_map prod_map]).
  vm_compute. reflexivity.
Qed.

(** A destination is never refused because of its provider. *)
Theorem provider_is_never_refused orgs input t :
  (destination_create orgs input t).2 ≠ Err CheckFailed.
Proof.
  unfold destination_create, bind, dest_sql, destination_repo_create, sql_insert.
  assert (Hc : ∀ i, row_check (destination_row i (mkDestination 0 (cd_name input) (as_db_str (from_preset (cd_provider input)))
     (cd_access_key input) (cd_secret_access_key input) (cd_bucket input) (cd_region input) (cd_endpoint input)
     (cd_organization_id input) 0 0)) = true) by (intros i; simpl; by destruct (from_preset (cd_provider input))).
  rewrite Hc. simpl. destruct (existsb _ _); [done|]. destruct (orgs _); [|done]. simpl.
  unfold dest_found, of_result. by destruct (destination_get_by_id _ _).
Qed.

(** ** Samples *)

Definition sample_destination : S3Destination :=
  mkS3Destination "AKIA" ("it" +:+ chr squote +:+ "s a; " +:+ chr dollar +:+ "(secret)") "my-bucket" "eu-west-1" "" (Some "s3").
Definition upload : RcloneBuilder := with_destination (to_rclone_target sample_destination "db/2024.gz") (rclone_new Rcat).

Lemma settings_survive_witness :
  ∃ vars, command_words no_env (to_command_string itself map_to_list upload) = Some (vars, ["rclone"; "rcat"; "dest_s3:my-bucket/db/2024.gz"])
    ∧ ("RCLONE_CONFIG_DEST_S3_SECRET_ACCESS_KEY", sd_secret_key sample_destination) ∈ vars
    ∧ ("RCLONE_CONFIG_DEST_S3_PROVIDER", "AWS") ∈ vars.
Proof.
  destruct (settings_survive (H := reference_command_shell) no_env itself map_to_list upload) as (vars & Hw & _ & Hv).
  - done.
  - apply (bool_decide_unpack _). by vm_compute.
  - exists vars. rewrite !Hv. split_and!; [exact Hw|right; by vm_compute|right; by vm_compute].
Defined.

(** The separator of a listing is a tab between unquoted blanks: rclone is given an empty one. *)
Definition listing (prefix : string) : RcloneBuilder := as_listing (with_source (to_rclone_target sample_destination prefix) (rclone_new Lsf)).
Lemma tab_separator_is_lost :
  snd <$> command_words no_env (to_command_string itself map_to_list (listing "db"))
  = Some ["rclone"; "lsf"; "--recursive"; "--files-only"; "--format=pst"; "--separator="; "src_s3:my-bucket/db"]
  ∧ "--separator=" +:+ chr tab ∈ (build itself (listing "db")).1.
Proof. split; [by vm_compute|]. unfold build. simpl. set_solver. Qed.

(** A blank in a path gives rclone one argument more. *)
Lemma blank_in_a_path :
  snd <$> command_words no_env (to_command_string itself map_to_list (with_source (to_rclone_target sample_destination "a b") (rclone_new Cat)))
  = Some ["rclone"; "cat"; "src_s3:my-bucket/a"; "b"].
Proof. by vm_compute. Qed.

(** The literals are in lower case while the text is compared in upper case: no text is a
    command. *)
Lemma no_text_is_a_command : from_str "rcat" = @None RcloneCommand ∧ from_str "copyto" = @None RcloneCommand.
Proof. by vm_compute. Qed.
