(* ===== verification/Backups.v ===== *)
(** * Backups: executions, dump commands and runners

    [services/backup/types.rs], [db/repository/backup_executions.rs] with migration 0026,
    [utils/backup/database] and [utils/backup/volume].  The table of executions is a table of
    [Sql]; what a runner does outside the panel (docker and the shell of the host) is written to
    a log, and the answers are a parameter that sees the log so far.  A runner that has stopped
    a service for the copy starts it again whatever became of the copy
    ([stopped_service_is_started_again]); the attempts of a job are numbered without gaps
    ([attempts_are_consecutive]). *)

From stdpp Require Import gmap strings list sorting.
From Stdlib Require Import ZArith Lia Ascii.
From S2P Require Import Prelude RustStr RustText StringEnum Sql ShellQuote ShellRules Rclone.

(** ** [types.rs] *)

Inductive BackupKind := KDatabase | KVolume | KPanel | KComposeConfig.
#[export] Instance BackupKind_eq_dec : EqDecision BackupKind.
Proof. solve_decision. Defined.
#[export] Instance BackupKind_enum : StringEnum BackupKind := {|
  enum_table := [(KDatabase, "DATABASE"); (KVolume, "VOLUME"); (KPanel, "PANEL"); (KComposeConfig, "COMPOSE_CONFIG")];
  enum_default := KDatabase |}.
#[export] Instance BackupKind_laws : StringEnumLaws BackupKind.
Proof. enum_laws. Qed.
Inductive BackupOperation := OpBackup | OpRestore.
#[export] Instance BackupOperation_eq_dec : EqDecision BackupOperation.
Proof. solve_decision. Defined.
#[export] Instance BackupOperation_enum : StringEnum BackupOperation := {|
  enum_table := [(OpBackup, "BACKUP"); (OpRestore, "RESTORE")]; enum_default := OpBackup |}.
#[export] Instance BackupOperation_laws : StringEnumLaws BackupOperation.
Proof. enum_laws. Qed.
Inductive BackupExecutionStatus := ExRunning | ExSucceeded | ExFailed.
#[export] Instance BackupExecutionStatus_eq_dec : EqDecision BackupExecutionStatus.
Proof. solve_decision. Defined.
#[export] Instance BackupExecutionStatus_enum : StringEnum BackupExecutionStatus := {|
  enum_table := [(ExRunning, "RUNNING"); (ExSucceeded, "SUCCEEDED"); (ExFailed, "FAILED")]; enum_default := ExRunning |}.

(** ** [BackupExecutionRepository] *)

Record BackupExecution := mkExecution {
  be_id : Z; be_kind : string; be_operation : string; be_backup_id : option Z; be_status : string; be_object_key : option string;
  be_checksum : option string; be_size : option Z; be_attempt : Z; be_error : option string; be_started_at : Z; be_finished_at : option Z }.
#[export] Instance BackupExecution_schema : Schema BackupExecution := {|
  row_id := be_id;
  row_check := λ e, bool_decide (be_kind e ∈ ["DATABASE"; "VOLUME"; "PANEL"; "COMPOSE_CONFIG"])
                    && bool_decide (be_operation e ∈ ["BACKUP"; "RESTORE"]) && bool_decide (be_status e ∈ ["RUNNING"; "SUCCEEDED"; "FAILED"]);
  row_conflict := λ _ _, false |}.
#[export] Instance BackupExecution_laws : SchemaLaws BackupExecution.
Proof. by constructor. Qed.

(** The rows of one job: [backup_id] is compared with NULL equal to NULL *)
Definition same_job (kind operation : string) (backup_id : option Z) (e : BackupExecution) : bool :=
  bool_decide (be_kind e = kind) && bool_decide (be_operation e = operation) && bool_decide (be_backup_id e = backup_id).
(** [COALESCE(MAX(attempt), 0)] *)
Definition max_attempt (l : list BackupExecution) : Z :=
  match l with [] => 0%Z | e :: l' => foldr Z.max (be_attempt e) (map be_attempt l') end.

Definition execution_start (now : Z) (kind : BackupKind) (operation : BackupOperation) (backup_id : option Z)
    (object_key : option string) (t : Table BackupExecution) : result (Table BackupExecution * Z) SqlError :=
  let previous := max_attempt (sql_select (same_job (as_str kind) (as_str operation) backup_id) t) in
  sql_insert no_fk
    (λ id, mkExecution id (as_str kind) (as_str operation) backup_id "RUNNING" object_key None None (previous + 1) None now None) t.

Definition finish_row (status : string) (checksum : option string) (size : option Z) (error : option string) (now : Z)
    (e : BackupExecution) : BackupExecution :=
  mkExecution (be_id e) (be_kind e) (be_operation e) (be_backup_id e) status (be_object_key e) checksum size (be_attempt e) error
    (be_started_at e) (Some now).
Definition execution_succeed (now id : Z) (checksum : option string) (size : option Z) (t : Table BackupExecution) :=
  sql_update no_fk (λ e, be_id e =? id)%Z (λ e, finish_row "SUCCEEDED" checksum size (be_error e) now e) t.
Definition execution_fail (now id : Z) (error : string) (t : Table BackupExecution) :=
  sql_update no_fk (λ e, be_id e =? id)%Z (λ e, finish_row "FAILED" (be_checksum e) (be_size e) (Some error) now e) t.

Definition execution_newest_first (a b : BackupExecution) : bool :=
  ((be_started_at b <? be_started_at a) || ((be_started_at a =? be_started_at b) && (be_id b <=? be_id a)))%Z.
(** [LIMIT ?] with a negative limit is no limit *)
Definition sql_limit {A} (limit : Z) (l : list A) : list A := if (limit <? 0)%Z then l else take (Z.to_nat limit) l.
Definition execution_list (kind : option string) (backup_id : option Z) (limit : Z) (t : Table BackupExecution) : list BackupExecution :=
  sql_limit limit (sql_order_by execution_newest_first
    (sql_select (λ e, match kind with None => true | Some k => bool_decide (be_kind e = k) end
                      && match backup_id with None => true | Some i => bool_decide (be_backup_id e = Some i) end) t)).
Definition execution_get (id : Z) (t : Table BackupExecution) : option BackupExecution := sql_first (λ e, be_id e =? id)%Z t.

(** ** [dumper.rs] *)

Record DbCredentials := mkCreds { dc_user : string; dc_password : string; dc_database : string }.
Record ContainerTarget := mkContainerTarget { ct_service_name : string }.
Inductive DatabaseDumper :=
| DumpPostgres (creds : DbCredentials) (target : ContainerTarget)
| DumpMysql (creds : DbCredentials) (target : ContainerTarget)
| DumpMariaDb (creds : DbCredentials) (target : ContainerTarget)
| DumpMongo (creds : DbCredentials) (target : ContainerTarget)
| DumpLibSql (database : string) (target : ContainerTarget)
| DumpRedis (target : ContainerTarget).

(** [it] between single quotes, not escaped *)
Definition sq (it : string) : string := chr squote +:+ it +:+ chr squote.
Definition pipefail : string := "set -o pipefail; ".

Definition inner_dump_command (d : DatabaseDumper) : string :=
  match d with
  | DumpPostgres c _ => pipefail +:+ "pg_dump -Fc --no-acl --no-owner -h localhost -U " +:+ sq (dc_user c) +:+ " --no-password " +:+ sq (dc_database c) +:+ " | gzip"
  | DumpMysql c _ => pipefail +:+ "mysqldump --default-character-set=utf8mb4 -u " +:+ sq "root" +:+ " --password=" +:+ sq (dc_password c)
      +:+ " --single-transaction --no-tablespaces --quick " +:+ sq (dc_database c) +:+ " | gzip"
  | DumpMariaDb c _ => pipefail +:+ "mariadb-dump --user=" +:+ sq (dc_user c) +:+ " --password=" +:+ sq (dc_password c)
      +:+ " --single-transaction --quick --databases " +:+ dc_database c +:+ " | gzip"
  | DumpMongo c _ => pipefail +:+ "mongodump -d " +:+ sq (dc_database c) +:+ " -u " +:+ sq (dc_user c) +:+ " -p " +:+ sq (dc_password c)
      +:+ " --archive --authenticationDatabase admin --gzip"
  | DumpLibSql database _ => "tar cf - -C /var/lib/sqld " +:+ database +:+ " | gzip"
  | DumpRedis _ => "redis-cli BGSAVE && sleep 1 && cat /data/dump.rdb | gzip"
  end.
Definition inner_restore_command (d : DatabaseDumper) : string :=
  match d with
  | DumpPostgres c _ => pipefail +:+ "gunzip | pg_restore -U " +:+ sq (dc_user c) +:+ " -d " +:+ sq (dc_database c) +:+ " -O --clean --if-exists"
  | DumpMysql c _ => pipefail +:+ "gunzip | mysql -u " +:+ sq "root" +:+ " --password=" +:+ sq (dc_password c) +:+ " " +:+ sq (dc_database c)
  | DumpMariaDb c _ => pipefail +:+ "gunzip | mariadb -u " +:+ sq (dc_user c) +:+ " --password=" +:+ sq (dc_password c) +:+ " " +:+ sq (dc_database c)
  | DumpMongo c _ => pipefail +:+ "mongorestore --username " +:+ sq (dc_user c) +:+ " --password " +:+ sq (dc_password c)
      +:+ " --authenticationDatabase admin --db " +:+ sq (dc_database c) +:+ " --archive --gzip --drop"
  | DumpLibSql _ _ => pipefail +:+ "gunzip | tar xf - -C /var/lib/sqld"
  | DumpRedis _ => "gunzip > /data/dump.rdb"
  end.
Definition dumper_service_name (d : DatabaseDumper) : string :=
  match d with
  | DumpPostgres _ t | DumpMysql _ t | DumpMariaDb _ t | DumpMongo _ t | DumpLibSql _ t | DumpRedis t => ct_service_name t
  end.
Definition file_extension (d : DatabaseDumper) : string :=
  match d with
  | DumpPostgres _ _ => "dump.gz" | DumpMysql _ _ | DumpMariaDb _ _ => "sql.gz" | DumpMongo _ _ => "archive.gz"
  | DumpLibSql _ _ => "tar.gz" | DumpRedis _ => "rdb.gz"
  end.
Definition container_label (d : DatabaseDumper) : string := "com.docker.swarm.service.name".
Definition connection_check_command (d : DatabaseDumper) : string :=
  match d with
  | DumpPostgres c _ => "pg_isready -h localhost -U " +:+ sq (dc_user c) +:+ " -d " +:+ sq (dc_database c)
  | DumpMysql c _ => "mysqladmin -u root --password=" +:+ sq (dc_password c) +:+ " ping"
  | DumpMariaDb c _ => "mariadb-admin --user=" +:+ sq (dc_user c) +:+ " --password=" +:+ sq (dc_password c) +:+ " ping"
  | DumpMongo c _ => "mongosh --quiet -u " +:+ sq (dc_user c) +:+ " -p " +:+ sq (dc_password c) +:+ " --eval "
      +:+ sq "db.runCommand({ping:1}).ok" +:+ " --authenticationDatabase admin"
  | DumpLibSql _ _ => "test -d /var/lib/sqld"
  | DumpRedis _ => "redis-cli PING"
  end.

(** ** The world a runner acts on *)

Inductive ExecError := CommandFailed (code : option Z) (stderr : string) | OtherExecError (text : string).

(** What a runner asks of the docker and the shell of its host *)
Inductive Action :=
| RunningContainers (labels : list (string * string))
| ContainerExec (id command : string)
| ServiceList (name : string)
| ServiceScale (name : string) (replicas : Z)
| ContainerStop (id : string)
| ContainerStart (id : string)
| RunPipeline (text : string).

Class BackupWorld := {
  w_containers : list Action → list (string * string) → result (list string) string;
  w_exec : list Action → string → string → result ExecOutput string;
  w_services : list Action → string → result (list string) string;       (* the replicas column *)
  w_do : list Action → Action → result unit string;
  w_pipeline : list Action → string → result ExecOutput ExecError;
  w_obscure : string → string;
  w_order : gmap string string → list (string * string);
}.

Section runners.
Context `{BackupWorld}.

Definition RunM := SE (list Action) ExecError.
Definition docker_to_exec_error (e : string) : ExecError := CommandFailed None e.
Definition ask {A} (a : Action) (answer : list Action → result A ExecError) : RunM A := λ log, (log ++ [a], answer log).
Definition of_docker {A} (r : result A string) : result A ExecError :=
  match r with Ok x => Ok x | Err e => Err (docker_to_exec_error e) end.

Definition running_containers (labels : list (string * string)) : RunM (list string) :=
  ask (RunningContainers labels) (λ log, of_docker (w_containers log labels)).
Definition container_exec (id command : string) : RunM ExecOutput :=
  ask (ContainerExec id command) (λ log, of_docker (w_exec log id command)).
Definition service_list (name : string) : RunM (list string) := ask (ServiceList name) (λ log, of_docker (w_services log name)).
Definition docker_do (a : Action) : RunM unit := ask a (λ log, of_docker (w_do log a)).
Definition run_pipeline (text : string) : RunM ExecOutput := ask (RunPipeline text) (λ log, w_pipeline log text).

Definition rclone_text (b : RcloneBuilder) : string := to_command_string w_obscure w_order b.

(** *** [BackupRunner] *)

Definition resolve_container_id (d : DatabaseDumper) : RunM string :=
  (do! containers := running_containers [(container_label d, dumper_service_name d)] in
   match containers with
   | id :: _ => ret id
   | [] => fail (CommandFailed (Some 1%Z) ("no running container found for service " +:+ sq (dumper_service_name d)))
   end)%rust.
(** [run] of the docker client fails on an exit code that is not zero; the check of [success] stays. *)
Definition verify_connection (d : DatabaseDumper) (container_id : string) : RunM unit :=
  (do! out := container_exec container_id (connection_check_command d) in
   if negb (ex_success out) then fail (CommandFailed (ex_code out) ("connection check failed: " +:+ ex_stderr out)) else ret tt)%rust.

Definition dump_pipeline (id inner rclone : string) : string :=
  "set -eo pipefail; docker exec -i " +:+ id +:+ " sh -c " +:+ shell_single_quote inner +:+ " | " +:+ rclone.
Definition restore_pipeline (rclone id inner : string) : string :=
  "set -eo pipefail; " +:+ rclone +:+ " | docker exec -i " +:+ id +:+ " sh -c " +:+ shell_single_quote inner.

Definition database_run (d : DatabaseDumper) (dest : S3Destination) (object_key : string) : RunM ExecOutput :=
  (do! id := resolve_container_id d in
   do! _ := verify_connection d id in
   run_pipeline (dump_pipeline id (inner_dump_command d) (rclone_text (with_destination (to_rclone_target dest object_key) (rclone_new Rcat)))))%rust.
Definition database_run_restore (d : DatabaseDumper) (dest : S3Destination) (object_key : string) : RunM ExecOutput :=
  (do! id := resolve_container_id d in
   do! _ := verify_connection d id in
   run_pipeline (restore_pipeline (rclone_text (with_source (to_rclone_target dest object_key) (rclone_new Cat))) id (inner_restore_command d)))%rust.

(** *** [VolumeBackupRunner] *)

Inductive VolumeServiceTarget := SwarmService (service_name : string) | ComposeService (project service : string) | Standalone.
Record VolumeJob := mkVolumeJob { vj_volume_name : string; vj_service : VolumeServiceTarget; vj_turn_off : bool }.

(** [str::parse::<u32>] *)
Definition parse_u32 (s : string) : option Z :=
  v ← (match s with String "+" s' => unsigned_value s' | _ => unsigned_value s end);
  if (v <? 2 ^ 32)%Z then Some v else None.

Definition swarm_stop (service_name : string) : RunM Z :=
  (do! replicas_column := service_list service_name in
   match head replicas_column ≫= parse_u32 with
   | None => fail (CommandFailed (Some 1%Z) ("service " +:+ sq service_name +:+ " not found or has no replicas"))
   | Some replicas =>
       do! _ := docker_do (ServiceScale service_name 0) in
       ret replicas
   end)%rust.
Definition swarm_start (service_name : string) (replicas : Z) : RunM unit := docker_do (ServiceScale service_name replicas).
Definition compose_stop (project service : string) : RunM string :=
  (do! containers := running_containers [("com.docker.compose.project", project); ("com.docker.compose.service", service)] in
   match containers with
   | [] => fail (CommandFailed (Some 1%Z) ("no running container for compose project=" +:+ project +:+ " service=" +:+ service))
   | id :: _ =>
       do! _ := docker_do (ContainerStop id) in
       ret id
   end)%rust.
Definition compose_start (id : string) : RunM unit := docker_do (ContainerStart id).

Definition to_s3_pipeline (vol rclone : string) : string :=
  "set -eo pipefail; docker run --rm -v " +:+ vol +:+ ":/volume_data ubuntu tar cf - -C /volume_data . | " +:+ rclone.
Definition from_s3_pipeline (rclone vol : string) : string :=
  "set -eo pipefail; " +:+ rclone +:+ " | docker run -i --rm -v " +:+ vol +:+ ":/volume_data ubuntu tar xf - -C /volume_data".
Definition stream_to_s3 (b : VolumeJob) (dest : S3Destination) (object_key : string) : RunM ExecOutput :=
  run_pipeline (to_s3_pipeline (vj_volume_name b) (rclone_text (with_destination (to_rclone_target dest object_key) (rclone_new Rcat)))).
Definition stream_from_s3 (b : VolumeJob) (dest : S3Destination) (object_key : string) : RunM ExecOutput :=
  run_pipeline (from_s3_pipeline (rclone_text (with_source (to_rclone_target dest object_key) (rclone_new Cat))) (vj_volume_name b)).

(** [let out = stream.await; let _ = start.await; out] *)
Definition then_start {A} (stream : RunM A) (start : RunM unit) : RunM A := λ log,
  let '(log1, out) := stream log in let '(log2, _) := start log1 in (log2, out).

Definition volume_run (b : VolumeJob) (dest : S3Destination) (object_key : string) : RunM ExecOutput :=
  match vj_service b, vj_turn_off b with
  | SwarmService service_name, true =>
      (do! replicas := swarm_stop service_name in then_start (stream_to_s3 b dest object_key) (swarm_start service_name replicas))%rust
  | SwarmService _, false => stream_to_s3 b dest object_key
  | ComposeService project service, true =>
      (do! id := compose_stop project service in then_start (stream_to_s3 b dest object_key) (compose_start id))%rust
  | ComposeService _ _, false => stream_to_s3 b dest object_key
  | Standalone, _ => stream_to_s3 b dest object_key
  end.
Definition volume_run_restore (b : VolumeJob) (dest : S3Destination) (object_key : string) : RunM ExecOutput :=
  match vj_service b, vj_turn_off b with
  | SwarmService service_name, true =>
      (do! replicas := swarm_stop service_name in then_start (stream_from_s3 b dest object_key) (swarm_start service_name replicas))%rust
  | SwarmService _, false => stream_from_s3 b dest object_key
  | ComposeService project service, true =>
      (do! id := compose_stop project service in then_start (stream_from_s3 b dest object_key) (compose_start id))%rust
  | ComposeService _ _, false => stream_from_s3 b dest object_key
  | Standalone, _ => stream_from_s3 b dest object_key
  end.
End runners.

(** ** A service that was stopped is started again *)

Section runner_facts.
Context `{BackupWorld}.

Lemma swarm_cycle name text log log' r :
  (do! replicas := swarm_stop name in then_start (run_pipeline text) (swarm_start name replicas))%rust log = (log', r) →
  let asked := log ++ [ServiceList name] in
  (∃ e, r = Err e ∧ (log' = asked ∨ log' = asked ++ [ServiceScale name 0]))
  ∨ ∃ col replicas, w_services log name = Ok col ∧ head col ≫= parse_u32 = Some replicas
      ∧ log' = asked ++ [ServiceScale name 0; RunPipeline text; ServiceScale name replicas]
      ∧ r = w_pipeline (asked ++ [ServiceScale name 0]) text.
Proof.
  unfold swarm_stop, bind, service_list, ask, docker_do, ask, ret, fail, then_start, run_pipeline, swarm_start, docker_do, ask.
  destruct (w_services log name) as [col|e] eqn:Es; simpl; [|intros [= <- <-]; left; eauto].
  destruct (head col ≫= parse_u32) as [n|] eqn:En; [|intros [= <- <-]; left; eauto].
  destruct (w_do _ _) as [[]|e]; simpl; intros [= <- <-]; [right|left; eauto]. exists col, n. by rewrite <- !app_assoc.
Qed.

Definition compose_labels (project service : string) : list (string * string) :=
  [("com.docker.compose.project", project); ("com.docker.compose.service", service)].
Lemma compose_cycle project service text log log' r :
  (do! id := compose_stop project service in then_start (run_pipeline text) (compose_start id))%rust log = (log', r) →
  let asked := log ++ [RunningContainers (compose_labels project service)] in
  (∃ e, r = Err e ∧ (log' = asked ∨ ∃ id, log' = asked ++ [ContainerStop id]))
  ∨ ∃ id ids, w_containers log (compose_labels project service) = Ok (id :: ids)
      ∧ log' = asked ++ [ContainerStop id; RunPipeline text; ContainerStart id]
      ∧ r = w_pipeline (asked ++ [ContainerStop id]) text.
Proof.
  unfold compose_stop, bind, running_containers, ask, docker_do, ask, ret, fail, then_start, run_pipeline, compose_start, docker_do, ask.
  fold (compose_labels project service).
  destruct (w_containers log _) as [[|id ids]|e] eqn:Es; simpl; [intros [= <- <-]; left; eauto| |intros [= <- <-]; left; eauto].
  destruct (w_do _ _) as [[]|e]; simpl; intros [= <- <-]; [right|left; eauto 7]. exists id, ids. by rewrite <- !app_assoc.
Qed.

(** The text that copies the volume *)
Definition copy_text (restore : bool) (b : VolumeJob) (dest : S3Destination) (key : string) : string :=
  if restore then from_s3_pipeline (rclone_text (with_source (to_rclone_target dest key) (rclone_new Cat))) (vj_volume_name b)
  else to_s3_pipeline (vj_volume_name b) (rclone_text (with_destination (to_rclone_target dest key) (rclone_new Rcat))).

(** A runner that stops its service either gives up before or while it stops it, or stops it,
    copies, and starts what it has stopped, with the replicas it had, whatever became of the
    copy; its result is the result of the copy. *)
Theorem stopped_service_is_started_again b dest key (restore : bool) log log' r :
  vj_turn_off b = true →
  (if restore then volume_run_restore b dest key log else volume_run b dest key log) = (log', r) →
  let copy := copy_text restore b dest key in
  match vj_service b with
  | SwarmService name =>
      let asked := log ++ [ServiceList name] in
      (∃ e, r = Err e ∧ (log' = asked ∨ log' = asked ++ [ServiceScale name 0]))
      ∨ ∃ col replicas, w_services log name = Ok col ∧ head col ≫= parse_u32 = Some replicas
          ∧ log' = asked ++ [ServiceScale name 0; RunPipeline copy; ServiceScale name replicas]
          ∧ r = w_pipeline (asked ++ [ServiceScale name 0]) copy
  | ComposeService project service =>
      let asked := log ++ [RunningContainers (compose_labels project service)] in
      (∃ e, r = Err e ∧ (log' = asked ∨ ∃ id, log' = asked ++ [ContainerStop id]))
      ∨ ∃ id ids, w_containers log (compose_labels project service) = Ok (id :: ids)
          ∧ log' = asked ++ [ContainerStop id; RunPipeline copy; ContainerStart id]
          ∧ r = w_pipeline (asked ++ [ContainerStop id]) copy
  | Standalone => log' = log ++ [RunPipeline copy] ∧ r = w_pipeline log copy
  end.
Proof.
  intros Ht. unfold volume_run, volume_run_restore, copy_text. rewrite Ht.
  destruct restore, (vj_service b) as [name|project service|]; eauto using swarm_cycle, compose_cycle; by intros [= <- <-].
Qed.
End runner_facts.

(** ** The numbers of the attempts *)

Inductive ExecutionStep :=
| XStart (now : Z) (kind : BackupKind) (operation : BackupOperation) (backup_id : option Z) (object_key : option string)
| XSucceed (now id : Z) (checksum : option string) (size : option Z)
| XFail (now id : Z) (error : string).
Definition or_unchanged {A} (t : Table BackupExecution) (r : result (Table BackupExecution * A) SqlError) : Table BackupExecution :=
  match r with Ok (t', _) => t' | Err _ => t end.
Definition execution_step (t : Table BackupExecution) (x : ExecutionStep) : Table BackupExecution :=
  match x with
  | XStart now kind operation backup_id key => or_unchanged t (execution_start now kind operation backup_id key t)
  | XSucceed now id checksum size => or_unchanged t (execution_succeed now id checksum size t)
  | XFail now id error => or_unchanged t (execution_fail now id error t)
  end.

Definition consecutive (t : Table BackupExecution) : Prop :=
  ∀ kind operation backup_id, let l := sql_select (same_job kind operation backup_id) t in
    map be_attempt l = map Z.of_nat (List.seq 1 (length l)).

Lemma max_le m b c : (∀ a, a ∈ m → a ≤ b)%Z → (c ≤ b)%Z → (foldr Z.max c m ≤ b)%Z.
Proof. induction m as [|x m IH]; simpl; [done|]. intros Hm Hc. apply Z.max_lub; [apply Hm; left|apply IH; [|done]]. intros a Ha. apply Hm. by right. Qed.
Lemma le_max m c x : x ∈ c :: m → (x ≤ foldr Z.max c m)%Z.
Proof.
  induction m as [|y m IH]; simpl; [intros ->%list_elem_of_singleton; done|].
  intros [->|[->|Hx]%elem_of_cons]%elem_of_cons; [|lia|]; etrans; [apply IH| | |]; [left|lia|apply IH; by right|lia].
Qed.
Lemma max_attempt_seq l : map be_attempt l = map Z.of_nat (List.seq 1 (length l)) → max_attempt l = Z.of_nat (length l).
Proof.
  intros Hl. assert (Hb : ∀ a, a ∈ map be_attempt l → (1 ≤ a ≤ Z.of_nat (length l))%Z).
  { intros a. rewrite Hl. intros (n & -> & Hn)%elem_of_mapb. apply list_elem_of_In, in_seq in Hn. lia. }
  destruct l as [|e l]; [done|]. unfold max_attempt. apply Z.le_antisymm.
  - apply max_le; [|apply Hb; simpl; left]. intros a Ha. apply Hb. simpl. by right.
  - apply le_max. change (be_attempt e :: map be_attempt l) with (map be_attempt (e :: l)). rewrite Hl. apply elem_of_mapb.
    exists (length (e :: l)). split; [done|]. apply list_elem_of_In, in_seq. simpl. lia.
Qed.

Lemma select_app p (l : list BackupExecution) (x : BackupExecution) q :
  sql_select p (mkTable (l ++ [x]) q) = sql_select p (mkTable l q) ++ (if p x then [x] else []).
Proof. unfold sql_select. simpl. rewrite List.filter_app. simpl. by destruct (p x). Qed.

Lemma consecutive_start now kind operation backup_id key t :
  consecutive t → consecutive (execution_step t (XStart now kind operation backup_id key)).
Proof.
  intros Hc. unfold execution_step, or_unchanged. destruct (execution_start _ _ _ _ _ t) as [[t' id]|e] eqn:E; [|done].
  apply sql_insert_inv in E as (_ & _ & Hr & _). destruct t' as [r q]. simpl in Hr. subst r.
  intros k o b. rewrite select_app. simpl. destruct (same_job k o b _) eqn:Es.
  - unfold same_job in Es. simpl in Es. bsimp. subst k o b. rewrite map_app, length_app. simpl.
    rewrite Nat.add_1_r, seq_S, map_app. specialize (Hc (as_str kind) (as_str operation) backup_id). simpl in Hc.
    unfold sql_select in *. simpl in *. rewrite Hc. f_equal. simpl. f_equal. rewrite max_attempt_seq by done. lia.
  - rewrite app_nil_r. apply Hc.
Qed.

Lemma consecutive_update p f t t' n :
  (∀ e, be_kind (f e) = be_kind e ∧ be_operation (f e) = be_operation e ∧ be_backup_id (f e) = be_backup_id e ∧ be_attempt (f e) = be_attempt e) →
  sql_update no_fk p f t = Ok (t', n) → consecutive t → consecutive t'.
Proof.
  intros Hf (Hr & _)%sql_update_inv Hc k o b. unfold sql_select. rewrite Hr.
  assert (Hg : ∀ e, same_job k o b (updated p f e) = same_job k o b e ∧ be_attempt (updated p f e) = be_attempt e).
  { intros e. unfold updated, same_job. destruct (p e); [|done]. destruct (Hf e) as (-> & -> & -> & ->). done. }
  assert (Hl : List.filter (same_job k o b) (map (updated p f) (rows t)) = map (updated p f) (List.filter (same_job k o b) (rows t))).
  { clear Hc Hr. induction (rows t) as [|e l IH]; simpl; [done|]. rewrite (proj1 (Hg e)), IH. by destruct (same_job k o b e). }
  rewrite Hl, length_map, map_map. etrans; [|exact (Hc k o b)]. apply map_ext. intros e. apply Hg.
Qed.

(** Whatever runs are started and ended, in any order and at the same time, the attempts of one
    job (one kind of backup, one operation, one row) are numbered one, two, three and so on in the
    order in which they were started. *)
Theorem attempts_are_consecutive steps kind operation backup_id :
  let l := sql_select (same_job kind operation backup_id) (foldl execution_step empty_table steps) in
  map be_attempt l = map Z.of_nat (List.seq 1 (length l)).
Proof.
  assert (Hgen : ∀ t, consecutive t → consecutive (foldl execution_step t steps)).
  { induction steps as [|x steps IH]; intros t Ht; [done|]. apply IH. destruct x as [now k o b key|now id cs sz|now id e].
    - by apply consecutive_start.
    - unfold execution_step, or_unchanged, execution_succeed. destruct (sql_update _ _ _ t) as [[t' n]|] eqn:E; [|done].
      by eapply consecutive_update; [|exact E|].
    - unfold execution_step, or_unchanged, execution_fail. destruct (sql_update _ _ _ t) as [[t' n]|] eqn:E; [|done].
      by eapply consecutive_update; [|exact E|]. }
  by apply Hgen.
Qed.
