(* ===== verification/BackupService.v ===== *)
(** * Running and restoring backups

    The backup half of [services/schedule/schedule.rs], [services/backup/remote_files.rs],
    [panel.rs] and [compose_config.rs], and the repositories of backup jobs.  The rows of the
    databases, applications and compose projects a job names, the connections to servers and the
    files of the panel are parameters; the two reads of a job in one run are two arguments, as
    the job may be changed in between.  [run_is_accounted_for] says what a run leaves behind: a
    job that is gone or disabled runs nothing, and a run that was started is recorded and ended
    with its outcome. *)

From stdpp Require Import gmap strings list sorting.
From Stdlib Require Import ZArith Lia Ascii.
From S2P Require Import Prelude RustStr RustText JsonValue StringEnum Sql ScheduleRunner ShellQuote ShellScript Rclone Backups.

(** ** The jobs *)

Record Backup := mkBackup {
  ba_id : Z; ba_app_name : string; ba_schedule : string; ba_enabled : Z; ba_database_name : string; ba_prefix : string;
  ba_service_name : option string; ba_keep_latest_count : option Z; ba_backup_type : string; ba_database_type : string;
  ba_metadata : option string; ba_compose_id : option Z; ba_postgres_id : option Z; ba_mysql_id : option Z; ba_mariadb_id : option Z;
  ba_mongo_id : option Z; ba_redis_id : option Z; ba_libsql_id : option Z; ba_destination_id : Z; ba_organization_id : Z;
  ba_created_at : Z; ba_updated_at : Z }.
#[export] Instance Backup_schema : Schema Backup := {|
  row_id := ba_id;
  row_check := λ b, bool_decide (ba_backup_type b ∈ ["DATABASE"; "COMPOSE"])
                    && bool_decide (ba_database_type b ∈ ["POSTGRES"; "MARIADB"; "MYSQL"; "MONGO"; "REDIS"; "LIBSQL"]);
  row_conflict := λ a b, bool_decide (ba_app_name a = ba_app_name b) |}.
#[export] Instance Backup_laws : SchemaLaws Backup.
Proof. constructor. intros. simpl. by apply bool_decide_ext. Qed.

Record VolumeBackup := mkVolumeBackup {
  vo_id : Z; vo_name : string; vo_volume_name : string; vo_prefix : string; vo_service_type : string; vo_app_name : string;
  vo_service_name : option string; vo_turn_off : Z; vo_cron_expression : string; vo_keep_latest_count : option Z; vo_enabled : Z;
  vo_destination_id : Z; vo_organization_id : Z; vo_application_id : option Z; vo_postgres_id : option Z; vo_mysql_id : option Z;
  vo_mariadb_id : option Z; vo_mongo_id : option Z; vo_redis_id : option Z; vo_libsql_id : option Z; vo_compose_id : option Z;
  vo_created_at : Z; vo_updated_at : Z }.
#[export] Instance VolumeBackup_schema : Schema VolumeBackup := {|
  row_id := vo_id;
  row_check := λ b, bool_decide (vo_service_type b ∈ ["APPLICATION"; "COMPOSE"; "POSTGRES"; "MYSQL"; "MARIADB"; "MONGO"; "REDIS"; "LIBSQL"]);
  row_conflict := λ _ _, false |}.
#[export] Instance VolumeBackup_laws : SchemaLaws VolumeBackup.
Proof. by constructor. Qed.
(** The columns the checks of the runner read *)
Definition volume_row (b : VolumeBackup) : VolumeBackupRow :=
  mkVolumeBackupRow (vo_id b) (vo_cron_expression b) (vo_enabled b) (vo_service_type b) (vo_application_id b) (vo_compose_id b)
    (vo_postgres_id b) (vo_mysql_id b) (vo_mariadb_id b) (vo_mongo_id b) (vo_redis_id b) (vo_libsql_id b).

Definition backup_get_all (t : Table Backup) : list Backup := rows t.
Definition backup_get_by_id (id : Z) (t : Table Backup) : option Backup := sql_first (λ b, ba_id b =? id)%Z t.
Definition backup_delete (id : Z) (t : Table Backup) : Table Backup := (sql_delete (λ b, ba_id b =? id)%Z t).1.
Definition volume_get_all (t : Table VolumeBackup) : list VolumeBackup := rows t.
Definition volume_get_by_id (id : Z) (t : Table VolumeBackup) : option VolumeBackup := sql_first (λ b, vo_id b =? id)%Z t.
Definition volume_delete (id : Z) (t : Table VolumeBackup) : Table VolumeBackup := (sql_delete (λ b, vo_id b =? id)%Z t).1.

(** ** The kinds of databases *)

Inductive DbKind := Postgres | Mysql | Mariadb | Mongo | Redis | Libsql.
#[export] Instance DbKind_eq_dec : EqDecision DbKind.
Proof. solve_decision. Defined.
Inductive DatabaseBackupTypeInput := InPostgres | InPostgresql | InMysql | InMariadb | InMongo | InMongodb | InRedis | InLibsql.
#[export] Instance DatabaseBackupTypeInput_eq_dec : EqDecision DatabaseBackupTypeInput.
Proof. solve_decision. Defined.
#[export] Instance DatabaseBackupTypeInput_enum : StringEnum DatabaseBackupTypeInput := {|
  enum_table := [(InPostgres, "POSTGRES"); (InPostgresql, "POSTGRESQL"); (InMysql, "MYSQL"); (InMariadb, "MARIADB");
                 (InMongo, "MONGO"); (InMongodb, "MONGODB"); (InRedis, "REDIS"); (InLibsql, "LIBSQL")];
  enum_default := InPostgres |}.
Definition parse_database_type (value : string) : option DbKind :=
  match from_str value with
  | Some InPostgres | Some InPostgresql => Some Postgres
  | Some InMysql => Some Mysql
  | Some InMariadb => Some Mariadb
  | Some InMongo | Some InMongodb => Some Mongo
  | Some InRedis => Some Redis
  | Some InLibsql => Some Libsql
  | None => None
  end.
Inductive VolumeService := OfApplication | OfCompose | OfDatabase (k : DbKind).
Definition parse_volume_service_type (value : string) : option VolumeService :=
  match from_str value with
  | Some VolApplication => Some OfApplication
  | Some VolCompose => Some OfCompose
  | Some VolPostgres => Some (OfDatabase Postgres)
  | Some VolMysql => Some (OfDatabase Mysql)
  | Some VolMariadb => Some (OfDatabase Mariadb)
  | Some VolMongo | Some VolMongodb => Some (OfDatabase Mongo)
  | Some VolRedis => Some (OfDatabase Redis)
  | Some VolLibsql => Some (OfDatabase Libsql)
  | None => None
  end.

Record DbDetails := mkDetails { dd_app_name : string; dd_user : string; dd_password : string; dd_database : string }.

(** The databases a job may name, in the order in which they are looked at *)
Definition named (l : list (DbKind * option Z)) : option (DbKind * Z) :=
  head (omap (λ '(k, o), pair k <$> o) l).
Definition backup_databases (b : Backup) : list (DbKind * option Z) :=
  [(Postgres, ba_postgres_id b); (Mysql, ba_mysql_id b); (Mariadb, ba_mariadb_id b); (Mongo, ba_mongo_id b); (Redis, ba_redis_id b);
   (Libsql, ba_libsql_id b)].
Definition volume_databases (b : VolumeBackup) : list (DbKind * option Z) :=
  [(Postgres, vo_postgres_id b); (Mysql, vo_mysql_id b); (Mariadb, vo_mariadb_id b); (Mongo, vo_mongo_id b); (Redis, vo_redis_id b);
   (Libsql, vo_libsql_id b)].
Definition kind_text (k : DbKind) : string :=
  match k with Postgres => "postgres" | Mysql => "mysql" | Mariadb => "mariadb" | Mongo => "mongo" | Redis => "redis" | Libsql => "libsql" end.

(** ** The parameters *)

Class BackupRows := {
  r_details : DbKind → Z → result DbDetails SqlError;        (* [get_details] *)
  r_server : DbKind → Z → result (option Z) SqlError;        (* [get_server_id_and_name] *)
  r_application : Z → option (option Z);                     (* the server of an application *)
  r_compose : Z → option (option Z);                         (* the server of a compose project *)
  r_destinations : Table Destination;
  r_connect : Z → result unit string;                        (* [remote_executor] *)
  r_world :: option Z → BackupWorld;                         (* docker and shell of a host *)
  r_error_text : ExecError → string;
}.

Record BackupState := mkBackupState {
  st_executions : Table BackupExecution;
  st_runs : list (option Z * list Action) }.                 (* what runners did, and where *)

Section service.
Context `{JsonText, BackupRows}.
Definition ServiceM := SE BackupState SqlError.

(** ** Resolution *)

Definition first_found (o : option Z) (look : Z → option (option Z)) (otherwise : result (option Z) SqlError) : result (option Z) SqlError :=
  match o with
  | Some i => match look i with Some s => Ok s | None => otherwise end
  | None => otherwise
  end.
Definition named_server (l : list (DbKind * option Z)) (otherwise : result (option Z) SqlError) : result (option Z) SqlError :=
  match named l with Some (k, id) => r_server k id | None => otherwise end.

Definition resolve_volume_backup_server_id (b : VolumeBackup) : result (option Z) SqlError :=
  first_found (vo_application_id b) r_application
    (first_found (vo_compose_id b) r_compose (named_server (volume_databases b) (Ok None))).
Definition resolve_database_backup_server_id (b : Backup) : result (option Z) SqlError :=
  named_server (backup_databases b) (first_found (ba_compose_id b) r_compose (Ok None)).

Definition swarm_of (k : DbKind) (id : Z) : result VolumeServiceTarget SqlError :=
  (let? details := r_details k id in Ok (SwarmService (dd_app_name details)))%rust.
Definition id_of (k : DbKind) (l : list (DbKind * option Z)) : option Z :=
  head (omap (λ '(k', o), if decide (k' = k) then o else None) l).
Definition resolve_volume_service_target (b : VolumeBackup) : result VolumeServiceTarget SqlError :=
  match default OfApplication (parse_volume_service_type (vo_service_type b)) with
  | OfDatabase k =>
      match id_of k (volume_databases b) with
      | Some id => swarm_of k id
      | None => Err (Protocol ("missing " +:+ kind_text k +:+ "_id"))
      end
  | OfApplication =>
      match named (volume_databases b) with
      | Some (k, id) => swarm_of k id
      | None => Ok (SwarmService (default (vo_app_name b +:+ "_" +:+ vo_app_name b) (vo_service_name b)))
      end
  | OfCompose => Ok (ComposeService (vo_app_name b) (default "" (vo_service_name b)))
  end.

Definition dumper_of (k : DbKind) (creds : DbCredentials) (database : string) (target : ContainerTarget) : DatabaseDumper :=
  match k with
  | Postgres => DumpPostgres creds target
  | Mysql => DumpMysql creds target
  | Mariadb => DumpMariaDb creds target
  | Mongo => DumpMongo creds target
  | Redis => DumpRedis target
  | Libsql => DumpLibSql database target
  end.
(** The name of the database comes from the database for PostgreSQL, MySQL and MariaDB, and from
    the job for MongoDB and libSQL. *)
Definition database_of (k : DbKind) (details : DbDetails) (b : Backup) : string :=
  match k with Postgres | Mysql | Mariadb => dd_database details | Mongo | Redis | Libsql => ba_database_name b end.
Definition metadata_credentials (metadata : option string) : string * string :=
  match metadata with
  | Some text =>
      match json_parse text with
      | Some json => (str_at "databaseUser" "" json, str_at "databasePassword" "" json)
      | None => ("", "")
      end
  | None => ("", "")
  end.
Definition resolve_database_dumper (b : Backup) : result DatabaseDumper SqlError :=
  match named (backup_databases b) with
  | Some (k, id) =>
      (let? details := r_details k id in
       let database := database_of k details b in
       Ok (dumper_of k (mkCreds (dd_user details) (dd_password details) database) database (mkContainerTarget (dd_app_name details))))%rust
  | None =>
      let '(user, password) := metadata_credentials (ba_metadata b) in
      let service_name := default (ba_app_name b) (ba_service_name b) in
      match parse_database_type (ba_database_type b) with
      | None => Err (Protocol ("unsupported database type: " +:+ ba_database_type b))
      | Some k => Ok (dumper_of k (mkCreds user password (ba_database_name b)) (ba_database_name b) (mkContainerTarget service_name))
      end
  end.

(** ** Runs *)

Definition executor_for (server_id : option Z) : ServiceM (option Z) :=
  match server_id with
  | Some sid => match r_connect sid with Ok _ => ret (Some sid) | Err e => fail (Protocol e) end
  | None => ret None
  end.
Definition destination_for (id : Z) : ServiceM S3Destination :=
  match destination_get_by_id id r_destinations with
  | Some d => ret (mkS3Destination (ds_access_key d) (ds_secret_access_key d) (ds_bucket d) (ds_region d) (ds_endpoint d) (Some (ds_provider d)))
  | None => fail (Protocol "destination not found")
  end.
Definition on_executions {A} (f : Table BackupExecution → result (Table BackupExecution * A) SqlError) : ServiceM A := λ s,
  match f (st_executions s) with
  | Ok (t, a) => (mkBackupState t (st_runs s), Ok a)
  | Err e => (s, Err e)
  end.
Definition run_on (host : option Z) (m : RunM ExecOutput) : BackupState → BackupState * result ExecOutput ExecError := λ s,
  let '(log, r) := m [] in (mkBackupState (st_executions s) (st_runs s ++ [(host, log)]), r).

(** [start], the runner, [succeed] or [fail] *)
Definition recorded (now : Z) (kind : BackupKind) (operation : BackupOperation) (id : Z) (object_key : string) (host : option Z)
    (m : RunM ExecOutput) : ServiceM unit :=
  (do! execution_id := on_executions (execution_start now kind operation (Some id) (Some object_key)) in
   λ s, match run_on host m s with
        | (s1, Ok _) => (do! _ := on_executions (execution_succeed now execution_id None None) in ret tt) s1
        | (s1, Err error) =>
            let message := r_error_text error in
            (do! _ := on_executions (execution_fail now execution_id message) in fail (Protocol message)) s1
        end)%rust.

Definition database_object_key (b : Backup) (d : DatabaseDumper) (timestamp : string) : string :=
  trim_matches_char "/" (ba_prefix b) +:+ "/" +:+ ba_database_name b +:+ "_" +:+ timestamp +:+ "." +:+ file_extension d.
Definition volume_object_key (b : VolumeBackup) (timestamp : string) : string :=
  trim_matches_char "/" (vo_prefix b) +:+ "/" +:+ vo_name b +:+ "_" +:+ timestamp +:+ ".tar.gz".
Definition volume_job (b : VolumeBackup) (target : VolumeServiceTarget) : VolumeJob :=
  mkVolumeJob (vo_volume_name b) target (vo_turn_off b =? 1)%Z.
Definition row_of {A} (o : option A) : ServiceM A := match o with Some a => ret a | None => fail RowNotFound end.

(** [first] and [current] are what the two reads of the job give. *)
Definition run_database_backup (now : Z) (timestamp : string) (id : Z) (first current : option Backup) : ServiceM unit :=
  (do! backup := row_of first in
   do! _ := guard (ba_enabled backup =? 0)%Z (Protocol "backup is disabled") in
   do! server_id := of_result (resolve_database_backup_server_id backup) in
   do! host := executor_for server_id in
   do! dumper := of_result (resolve_database_dumper backup) in
   do! destination := destination_for (ba_destination_id backup) in
   do! _ := guard (match current with None => true | Some item => ba_enabled item =? 0 end)%Z (Protocol "backup was deleted or disabled") in
   let object_key := database_object_key backup dumper timestamp in
   recorded now KDatabase OpBackup id object_key host (@database_run (r_world host) dumper destination object_key))%rust.

Definition run_volume_backup (now : Z) (timestamp : string) (id : Z) (first current : option VolumeBackup) : ServiceM unit :=
  (do! backup := row_of first in
   do! _ := guard (vo_enabled backup =? 0)%Z (Protocol "volume backup is disabled") in
   do! server_id := of_result (resolve_volume_backup_server_id backup) in
   do! host := executor_for server_id in
   do! target := of_result (resolve_volume_service_target backup) in
   do! destination := destination_for (vo_destination_id backup) in
   do! _ := guard (match current with
                   | None => true
                   | Some item => (vo_enabled item =? 0)%Z || negb (volume_backup_has_valid_resource (volume_row item))
                   end) (Protocol "volume backup was deleted, disabled, or has no valid resource") in
   let object_key := volume_object_key backup timestamp in
   recorded now KVolume OpBackup id object_key host (@volume_run (r_world host) (volume_job backup target) destination object_key))%rust.

Definition restore_database_backup (now id : Z) (row : option Backup) (backup_file : string) : ServiceM unit :=
  (do! backup := row_of row in
   do! server_id := of_result (resolve_database_backup_server_id backup) in
   do! host := executor_for server_id in
   do! dumper := of_result (resolve_database_dumper backup) in
   do! destination := destination_for (ba_destination_id backup) in
   recorded now KDatabase OpRestore id backup_file host (@database_run_restore (r_world host) dumper destination backup_file))%rust.
Definition restore_volume_backup (now id : Z) (row : option VolumeBackup) (backup_file : string) : ServiceM unit :=
  (do! backup := row_of row in
   do! server_id := of_result (resolve_volume_backup_server_id backup) in
   do! host := executor_for server_id in
   do! target := of_result (resolve_volume_service_target backup) in
   do! destination := destination_for (vo_destination_id backup) in
   recorded now KVolume OpRestore id backup_file host
     (@volume_run_restore (r_world host) (volume_job backup target) destination backup_file))%rust.

(** [docker_for_server]: the panel's own docker when the server cannot be reached *)
Definition docker_for_server (server_id : option Z) : option Z :=
  match server_id with Some sid => match r_connect sid with Ok _ => Some sid | Err _ => None end | None => None end.
End service.

(** ** What a run leaves behind *)

Section accounting.
Context `{JsonText, BackupRows}.

Definition started_row (now : Z) (kind : BackupKind) (operation : BackupOperation) (id : Z) (key : string) (t : Table BackupExecution)
    : BackupExecution :=
  mkExecution (seq t + 1) (as_str kind) (as_str operation) (Some id) "RUNNING" (Some key) None None
    (max_attempt (sql_select (same_job (as_str kind) (as_str operation) (Some id)) t) + 1) None now None.
Definition ended_row (now : Z) (outcome : result ExecOutput ExecError) (e : BackupExecution) : BackupExecution :=
  match outcome with
  | Ok _ => finish_row "SUCCEEDED" None None (be_error e) now e
  | Err x => finish_row "FAILED" (be_checksum e) (be_size e) (Some (r_error_text x)) now e
  end.

(** The runner has run once on its host, and the one new row says how it went. *)
Definition accounted (now : Z) (kind : BackupKind) (operation : BackupOperation) (id : Z) (key : string) (host : option Z)
    (m : RunM ExecOutput) (s s' : BackupState) (r : result unit SqlError) : Prop :=
  let '(log, outcome) := m [] in
  st_runs s' = st_runs s ++ [(host, log)]
  ∧ rows (st_executions s') = rows (st_executions s) ++ [ended_row now outcome (started_row now kind operation id key (st_executions s))]
  ∧ r = match outcome with Ok _ => Ok tt | Err x => Err (Protocol (r_error_text x)) end.

Lemma update_last (f : BackupExecution → BackupExecution) l row q :
  (∀ e, be_id (f e) = be_id e) → row_check (f row) = true → (∀ e, e ∈ l → be_id e ≠ be_id row) →
  sql_update no_fk (λ e, be_id e =? be_id row)%Z f (mkTable (l ++ [row]) q) = Ok (mkTable (l ++ [f row]) q, 1).
Proof.
  intros Hf Hc Hne. unfold sql_update. cbn [rows seq].
  assert (Hgen : ∀ acc, update_rows no_fk (λ e, be_id e =? be_id row)%Z f acc (l ++ [row]) = Ok (acc ++ l ++ [f row], 1)).
  { induction l as [|e l IH]; intros acc; cbn [update_rows app].
    - rewrite Z.eqb_refl, Hc. cbn [negb]. rewrite (proj2 (existsb_false _ _)) by done. done.
    - rewrite (proj2 (Z.eqb_neq _ _)) by (apply Hne; left). rewrite IH; [by rewrite <- app_assoc|]. intros x Hx. apply Hne. by right. }
  by rewrite Hgen.
Qed.

Lemma recorded_accounted now kind operation id key host m s s' r :
  table_wf (st_executions s) → recorded now kind operation id key host m s = (s', r) →
  accounted now kind operation id key host m s s' r.
Proof.
  intros Hwf. unfold recorded, accounted, bind at 1, on_executions at 1, execution_start, sql_insert.
  set (row := started_row now kind operation id key (st_executions s)).
  change (mkExecution (seq (st_executions s) + 1) (as_str kind) (as_str operation) (Some id) "RUNNING" (Some key) None None
    (max_attempt (sql_select (same_job (as_str kind) (as_str operation) (Some id)) (st_executions s)) + 1) None now None) with row.
  assert (Hc : ∀ o, row_check row = true ∧ row_check (ended_row now o row) = true)
    by (intros o; split; [|destruct o]; by destruct kind, operation).
  rewrite (proj1 (Hc (Err (OtherExecError "")))). rewrite (proj2 (existsb_false _ _)) by done. simpl. unfold run_on.
  assert (Hne : ∀ e, e ∈ rows (st_executions s) → be_id e ≠ be_id row).
  { intros e He. pose proof (wf_seq _ Hwf e He). simpl in *. lia. }
  destruct (m []) as [log [out|x]]; unfold bind, on_executions, execution_succeed, execution_fail; simpl;
    rewrite (update_last _ _ row) by (done || apply (Hc (Ok (mkExec None "" ""))) || apply (Hc (Err x))); intros [= <- <-]; done.
Qed.

Lemma row_reads {A} (o : option A) : reads (row_of o).
Proof. by destruct o. Qed.
Lemma executor_reads server : reads (executor_for server).
Proof. destruct server as [sid|]; [|done]. unfold executor_for. by destruct (r_connect sid). Qed.
Lemma destination_reads id : reads (destination_for id).
Proof. unfold destination_for. by destruct (destination_get_by_id _ _). Qed.
Lemma reads_ok {S E A} (m : SE S E A) s a : reads m → (m s).2 = Ok a → m s = (s, Ok a).
Proof. intros Hm Ha. specialize (Hm s). destruct (m s); simpl in *; by subst. Qed.

(** A step that only reads: it gives its value, or the run ends here. *)
Ltac read_step x E :=
  rewrite bind_reads_run by (apply row_reads || apply guard_reads || apply of_result_reads || apply executor_reads || apply destination_reads);
  lazymatch goal with |- match (?m ?s).2 with _ => _ end = _ → _ =>
    destruct (m s).2 as [x|] eqn:E; [|let H := fresh in intros H; injection H as <- <-; left; by eauto] end.

(** Where a job runs and what it copies, when all of it is there *)
Definition resolved_host (server : result (option Z) SqlError) (host : option Z) : Prop :=
  server = Ok host ∧ ∀ sid, host = Some sid → ∃ u, r_connect sid = Ok u.

Lemma executor_host server host s :
  (executor_for server s).2 = Ok host → resolved_host (Ok server) host.
Proof.
  unfold executor_for. destruct server as [sid|]; simpl.
  - destruct (r_connect sid) as [u|] eqn:E; [|done]. intros [= <-]. split; [done|]. intros ? [= <-]. eauto.
  - intros [= <-]. split; [done|]. done.
Qed.

(** C34: A run of a database backup either ends with an error and has run and recorded nothing,
    or it found the job enabled at both of its reads; then the runner has run once, on the host
    of the database and with its dumper and destination, and the one new execution is the next
    attempt of the job, with the outcome that the run returned. *)
Theorem run_is_accounted_for now timestamp id first current s s' r :
  table_wf (st_executions s) → run_database_backup now timestamp id first current s = (s', r) →
  (s' = s ∧ ∃ e, r = Err e)
  ∨ ∃ b cur dumper dest host,
      first = Some b ∧ ba_enabled b ≠ 0%Z ∧ current = Some cur ∧ ba_enabled cur ≠ 0%Z
      ∧ resolved_host (resolve_database_backup_server_id b) host ∧ resolve_database_dumper b = Ok dumper
      ∧ destination_for (ba_destination_id b) s = (s, Ok dest)
      ∧ accounted now KDatabase OpBackup id (database_object_key b dumper timestamp) host
          (@database_run (r_world host) dumper dest (database_object_key b dumper timestamp)) s s' r.
Proof.
  intros Hwf. unfold run_database_backup.
  read_step b Ef. read_step u Eg. read_step server Es. read_step host Eh. read_step dumper Ed. read_step dest Edest. read_step u' Ec.
  intros Hr%recorded_accounted; [|done]. right. apply reads_ok in Edest; [|apply destination_reads].
  destruct first as [b'|]; [|done]. simpl in Ef. injection Ef as ->.
  destruct current as [cur|]; [|done]. unfold guard in Eg, Ec.
  destruct (ba_enabled b =? 0)%Z eqn:E1; [done|]. destruct (ba_enabled cur =? 0)%Z eqn:E2; [done|]. bsimp.
  exists b, cur, dumper, dest, host. split_and!; try done. simpl in Es. rewrite Es. by apply executor_host with s.
Qed.

(** The same for volumes, whose job must have its resource at the second read. *)
Theorem volume_run_is_accounted_for now timestamp id first current s s' r :
  table_wf (st_executions s) → run_volume_backup now timestamp id first current s = (s', r) →
  (s' = s ∧ ∃ e, r = Err e)
  ∨ ∃ b cur target dest host,
      first = Some b ∧ vo_enabled b ≠ 0%Z ∧ current = Some cur ∧ vo_enabled cur ≠ 0%Z
      ∧ volume_backup_has_valid_resource (volume_row cur) = true
      ∧ resolved_host (resolve_volume_backup_server_id b) host ∧ resolve_volume_service_target b = Ok target
      ∧ destination_for (vo_destination_id b) s = (s, Ok dest)
      ∧ accounted now KVolume OpBackup id (volume_object_key b timestamp) host
          (@volume_run (r_world host) (volume_job b target) dest (volume_object_key b timestamp)) s s' r.
Proof.
  intros Hwf. unfold run_volume_backup.
  read_step b Ef. read_step u Eg. read_step server Es. read_step host Eh. read_step target Ed. read_step dest Edest. read_step u' Ec.
  intros Hr%recorded_accounted; [|done]. right. apply reads_ok in Edest; [|apply destination_reads].
  destruct first as [b'|]; [|done]. simpl in Ef. injection Ef as ->.
  destruct current as [cur|]; [|done]. unfold guard in Eg, Ec.
  destruct (vo_enabled b =? 0)%Z eqn:E1; [done|]. destruct (vo_enabled cur =? 0)%Z eqn:E2; [done|].
  destruct (volume_backup_has_valid_resource _) eqn:E3; [|done]. bsimp.
  exists b, cur, target, dest, host. split_and!; try done. simpl in Es. rewrite Es. by apply executor_host with s.
Qed.

(** Restoring asks for the job and not for its being enabled. *)
Theorem restore_is_accounted_for now id row file s s' r :
  table_wf (st_executions s) → restore_database_backup now id row file s = (s', r) →
  (s' = s ∧ ∃ e, r = Err e)
  ∨ ∃ b dumper dest host,
      row = Some b ∧ resolved_host (resolve_database_backup_server_id b) host ∧ resolve_database_dumper b = Ok dumper
      ∧ destination_for (ba_destination_id b) s = (s, Ok dest)
      ∧ accounted now KDatabase OpRestore id file host (@database_run_restore (r_world host) dumper dest file) s s' r.
Proof.
  intros Hwf. unfold restore_database_backup.
  read_step b Ef. read_step server Es. read_step host Eh. read_step dumper Ed. read_step dest Edest.
  intros Hr%recorded_accounted; [|done]. right. apply reads_ok in Edest; [|apply destination_reads].
  destruct row as [b'|]; [|done]. simpl in Ef. injection Ef as ->.
  exists b, dumper, dest, host. split_and!; try done. simpl in Es. rewrite Es. by apply executor_host with s.
Qed.

(** Nor does restoring a volume. *)
Theorem volume_restore_is_accounted_for now id row file s s' r :
  table_wf (st_executions s) → restore_volume_backup now id row file s = (s', r) →
  (s' = s ∧ ∃ e, r = Err e)
  ∨ ∃ b target dest host,
      row = Some b ∧ resolved_host (resolve_volume_backup_server_id b) host ∧ resolve_volume_service_target b = Ok target
      ∧ destination_for (vo_destination_id b) s = (s, Ok dest)
      ∧ accounted now KVolume OpRestore id file host (@volume_run_restore (r_world host) (volume_job b target) dest file) s s' r.
Proof.
  intros Hwf. unfold restore_volume_backup.
  read_step b Ef. read_step server Es. read_step host Eh. read_step target Ed. read_step dest Edest.
  intros Hr%recorded_accounted; [|done]. right. apply reads_ok in Edest; [|apply destination_reads].
  destruct row as [b'|]; [|done]. simpl in Ef. injection Ef as ->.
  exists b, target, dest, host. split_and!; try done. simpl in Es. rewrite Es. by apply executor_host with s.
Qed.
End accounting.

(** *** A sample *)

Definition sample_backup : Backup :=
  mkBackup 7 "shop-db" "0 2 * * *" 1 "shop" "/nightly/" None None "DATABASE" "POSTGRES" None None (Some 3%Z) None None None None None 1 1 0 0.
Definition sample_world : BackupWorld := {|
  w_containers := λ _ _, Ok ["c0ffee"]; w_exec := λ _ _ _, Ok (mkExec (Some 0%Z) "" ""); w_services := λ _ _, Ok ["2"];
  w_do := λ _ _, Ok tt; w_pipeline := λ _ _, Err (CommandFailed (Some 1%Z) "no space"); w_obscure := itself; w_order := map_to_list |}.
Definition sample_rows : BackupRows := {|
  r_details := λ _ _, Ok (mkDetails "shop-db" "shop" "secret" "shop"); r_server := λ _ _, Ok None; r_application := λ _, None;
  r_compose := λ _, None;
  r_destinations := mkTable [mkDestination 1 "s3" "S3" "AKIA" "key" "bucket" "eu" "" 1 0 0] 1;
  r_connect := λ _, Ok tt; r_world := λ _, sample_world;
  r_error_text := λ e, match e with CommandFailed _ t => t | OtherExecError t => t end |}.
Definition sample_no_json : JsonText := {| json_parse := λ _, None; json_print := λ _, "" |}.
Definition no_runs : BackupState := mkBackupState empty_table [].

(** A dump that fails: the record says so, and the run says so. *)
Lemma run_is_accounted_for_witness :
  ∃ s' r, @run_database_backup sample_no_json sample_rows 100 "20240101_020000" 7 (Some sample_backup) (Some sample_backup) no_runs = (s', r)
    ∧ ((s' = no_runs ∧ ∃ e, r = Err e)
       ∨ map (λ e, (be_status e, be_attempt e, be_object_key e)) (rows (st_executions s'))
         = [("FAILED", 1%Z, Some "nightly/shop_20240101_020000.dump.gz")]).
Proof.
  destruct (@run_database_backup sample_no_json sample_rows 100 "20240101_020000" 7 (Some sample_backup) (Some sample_backup) no_runs)
    as [s' r] eqn:E.
  exists s', r. split; [done|].
  destruct (@run_is_accounted_for sample_no_json sample_rows 100 "20240101_020000" 7 (Some sample_backup) (Some sample_backup) no_runs s' r)
    as [Hnone|(b & cur & dumper & dest & host & Hb & _ & _ & _ & [Hh _] & Hd & Hdest & Hacc)]; [apply empty_table_wf|exact E|by left|right].
  injection Hb as <-. injection Hh as <-. injection Hd as <-. vm_compute in Hdest. injection Hdest as <-.
  destruct Hacc as (_ & Hrows & _). rewrite Hrows. by vm_compute.
Defined.

(** ** [remote_files.rs] *)

Record BackupFileDto := mkBackupFile { bf_name : string; bf_path : string; bf_size_bytes : Z; bf_modified_at : string }.
Record RetentionPreviewDto := mkRetention { rp_keep : list BackupFileDto; rp_delete : list BackupFileDto }.
Record BackupIntegrityDto := mkIntegrity { bi_valid : bool; bi_expected : string; bi_actual : string; bi_size : Z }.

Definition validate_object_path (value : string) : result unit SqlError :=
  if starts_with "/" value || existsb (λ part, bool_decide (part = "..")) (split_on (λ c, is_char c "/") value)
  then Err (Protocol "unsafe backup object path") else Ok tt.

(** [path.rsplit('/').next()] *)
Definition after_last_slash (path : string) : string := match rsplit_once "/" path with Some (_, b) => b | None => path end.
Definition parse_lsf_line (line : string) : option BackupFileDto :=
  match split_on (λ c, is_char c tab) line with
  | p :: size :: rest =>
      let path := trim p in
      size_bytes ← parse_i64 (trim size);
      Some (mkBackupFile (after_last_slash path) path size_bytes (trim (default "" (head rest))))
  | _ => None
  end.

(** [files.sort_by(|a, b| b.modified_at.cmp(&a.modified_at))], and the cut *)
Definition newest_file_first (a b : BackupFileDto) : bool := str_le (bf_modified_at b) (bf_modified_at a).
Definition retention_of (keep_latest : Z) (files : list BackupFileDto) : RetentionPreviewDto :=
  let sorted := sql_order_by newest_file_first files in
  let n := Nat.min (Z.to_nat keep_latest) (length sorted) in
  mkRetention (take n sorted) (drop n sorted).

Section files.
Context (obscure : string → string) (order : gmap string string → list (string * string))
  (run_sh : string → result ExecOutput string) (read_temp : string → result (list Z) SqlError) (temp_path : string)
  (sha256_hex : list Z → string) (destinations : Table Destination).

Definition file_destination (id : Z) : result S3Destination SqlError :=
  match destination_get_by_id id destinations with
  | Some d => Ok (mkS3Destination (ds_access_key d) (ds_secret_access_key d) (ds_bucket d) (ds_region d) (ds_endpoint d) (Some (ds_provider d)))
  | None => Err RowNotFound
  end.
Definition run_rclone (b : RcloneBuilder) : result ExecOutput SqlError :=
  match execute obscure order run_sh b with Ok o => Ok o | Err e => Err (Protocol e) end.

Definition files_list (destination_id : Z) (prefix : string) : result (list BackupFileDto) SqlError :=
  (let? _ := validate_object_path prefix in
   let? destination := file_destination destination_id in
   let? output := run_rclone (as_listing (with_source (to_rclone_target destination prefix) (rclone_new Lsf))) in
   Ok (omap parse_lsf_line (lines (ex_stdout output))))%rust.
Definition files_download (destination_id : Z) (object_key : string) : result (list Z) SqlError :=
  (let? _ := validate_object_path object_key in
   let? destination := file_destination destination_id in
   let? _ := run_rclone (with_destination (Local temp_path) (with_source (to_rclone_target destination object_key) (rclone_new Copyto))) in
   read_temp temp_path)%rust.
Definition retention_preview (destination_id : Z) (prefix : string) (keep_latest : Z) : result RetentionPreviewDto SqlError :=
  if (keep_latest <? 1)%Z then Err (Protocol "keep_latest must be at least 1")
  else (let? files := files_list destination_id prefix in Ok (retention_of keep_latest files))%rust.
Definition files_verify (destination_id : Z) (object_key expected : string) : result BackupIntegrityDto SqlError :=
  (let? bytes := files_download destination_id object_key in
   let actual := sha256_hex bytes in
   Ok (mkIntegrity (eq_ignore_ascii_case actual (trim expected)) (to_ascii_lowercase (trim expected)) actual (Z.of_nat (length bytes))))%rust.
End files.

Lemma newest_file_first_total a b : newest_file_first a b = true ∨ newest_file_first b a = true.
Proof. unfold newest_file_first. destruct (str_le_total (bf_modified_at a) (bf_modified_at b)); auto. Qed.

(** The preview keeps the asked number of files and deletes the others; no deleted file is newer
    than a kept one, and no file is lost or counted twice. *)
Theorem retention_keeps_the_newest keep_latest files :
  (1 ≤ keep_latest)%Z →
  let p := retention_of keep_latest files in
  rp_keep p ++ rp_delete p ≡ₚ files
  ∧ length (rp_keep p) = Nat.min (Z.to_nat keep_latest) (length files)
  ∧ ∀ k d, k ∈ rp_keep p → d ∈ rp_delete p → str_le (bf_modified_at d) (bf_modified_at k) = true.
Proof.
  intros Hk p. unfold p, retention_of. simpl. set (l := sql_order_by newest_file_first files).
  assert (Hl : length l = length files) by (apply Permutation_length, sql_order_by_perm).
  split_and!.
  - rewrite take_drop. apply sql_order_by_perm.
  - rewrite length_take, Hl. lia.
  - pose proof (sql_order_by_sorted newest_file_first files newest_file_first_total) as Hs.
    apply Sorted_StronglySorted in Hs; [|intros a b c; unfold newest_file_first; intros H1 H2; eapply str_le_trans; eauto].
    fold l in Hs. generalize (Nat.min (Z.to_nat keep_latest) (length l)) as n. clear -Hs.
    induction Hs as [|x l Hs IH Hx]; intros n k d Hk Hd.
    { rewrite take_nil in Hk. by apply not_elem_of_nil in Hk. }
    destruct n as [|n]; simpl in *; [by apply not_elem_of_nil in Hk|]. apply elem_of_cons in Hk as [->|Hk]; [|by eapply IH].
    rewrite Forall_forall in Hx. apply (Hx d). rewrite <- (take_drop n l). apply elem_of_app. by right.
Qed.

(** ** [panel.rs] *)

Inductive FsAction :=
| MakeDir (path : string) | VacuumInto (path : string) | WriteFile (path content : string)
| TarCreate (archive : string) (entries : list (string * string)) | TarExtract (archive dir : string).

Class PanelWorld := {
  p_base : string;                                              (* [openoxide_paths().base] *)
  p_database_url : string;
  p_do : list FsAction → FsAction → result unit SqlError;
  p_list : list FsAction → string → result string string;       (* the names in an archive *)
  p_read : list FsAction → string → result string SqlError;
  p_exists : string → bool;
  p_tempdir : result string SqlError;
  p_sha256 : string → string;
  p_pretty : JValue → string;
  p_uuid : string; p_timestamp : string; p_now : Z;
  p_error_text : SqlError → string;
}.
Record PanelState := mkPanelState { ps_log : list FsAction; ps_executions : Table BackupExecution }.
Record PanelBackupResponseDto := mkPanelBackup { pb_path : string; pb_checksum : string; pb_size : Z; pb_created_at : Z }.
Record StagePanelRestoreDto := mkStage { sg_restore_id : string; sg_checksum : string; sg_restart_required : bool; sg_pending_marker : string }.
Record PanelRestoreStatusDto := mkRestoreStatus { rs_restore_id : string; rs_restore_status : string; rs_message : string; rs_updated_at : Z }.

Section panel.
Context `{JsonText, PanelWorld}.
Definition PanelM := SE PanelState SqlError.
Definition fs (a : FsAction) : PanelM unit := λ s,
  (mkPanelState (ps_log s ++ [a]) (ps_executions s), p_do (ps_log s) a).
Definition read_file (path : string) : PanelM string := λ s, (s, p_read (ps_log s) path).
Definition list_archive (prefix archive : string) : PanelM string := λ s,
  (s, match p_list (ps_log s) archive with Ok t => Ok t | Err e => Err (Protocol (prefix +:+ e)) end).
Definition panel_sql {A} (f : Table BackupExecution → result (Table BackupExecution * A) SqlError) : PanelM A := λ s,
  match f (ps_executions s) with Ok (t, a) => (mkPanelState (ps_log s) t, Ok a) | Err e => (s, Err e) end.

Definition redact_database_url (value : string) : string := default value (fst <$> split_once "?" value).
Definition manifest : JValue :=
  json_object [("format", VString "openoxide.panel.v1"); ("created_at", json_int p_now);
               ("database_url", VString (redact_database_url p_database_url))].
Definition has_entry (name listing : string) : bool := existsb (λ e, bool_decide (e = name)) (lines listing).

(** The archive is written, listed, checked and read back. *)
Definition write_archive (archive staging : string) : PanelM (string * Z) :=
  (do! _ := fs (VacuumInto (staging +:+ "/db.sqlite3")) in
   do! _ := fs (WriteFile (staging +:+ "/manifest.json") (p_pretty manifest)) in
   do! _ := fs (TarCreate archive ([(staging, "db.sqlite3"); (staging, "manifest.json")]
                 ++ if p_exists (p_base +:+ "/traefik") then [(p_base, "traefik")] else [])) in
   do! listing := list_archive "panel backup verification failed: " archive in
   do! _ := guard (negb (has_entry "db.sqlite3" listing) || negb (has_entry "manifest.json" listing))
              (Protocol "panel backup verification failed: required files are missing") in
   do! bytes := read_file archive in
   ret (p_sha256 bytes, Z.of_nat (String.length bytes)))%rust.

Definition panel_create : PanelM PanelBackupResponseDto :=
  (let output_dir := p_base +:+ "/backups/panel" in
   do! _ := fs (MakeDir output_dir) in
   let archive := output_dir +:+ "/openoxide-panel-" +:+ p_timestamp +:+ ".tar.gz" in
   do! staging := of_result p_tempdir in
   do! execution_id := panel_sql (execution_start p_now KPanel OpBackup None (Some archive)) in
   λ s, match write_archive archive staging s with
        | (s1, Ok (checksum, size_bytes)) =>
            (do! _ := panel_sql (execution_succeed p_now execution_id (Some checksum) (Some size_bytes)) in
             ret (mkPanelBackup archive checksum size_bytes p_now)) s1
        | (s1, Err error) =>
            (do! _ := panel_sql (execution_fail p_now execution_id (p_error_text error)) in fail error) s1
        end)%rust.

Definition validate_local_archive_path (value : string) : result unit SqlError :=
  if negb (is_absolute value) || negb (path_starts_with value (p_base +:+ "/backups")) || negb (ends_with ".tar.gz" value)
  then Err (Protocol "archive must be a .tar.gz file inside the OpenOxide backup directory") else Ok tt.

(** An entry that leaves the directory it is extracted to *)
Definition unsafe_entry (entry : string) : bool := is_absolute entry || bool_decide (ParentDir ∈ components entry).
Definition marker_path : string := p_base +:+ "/backups/panel-restore.pending.json".
Definition staging_path : string := p_base +:+ "/backups/restore-staging/" +:+ p_uuid.
Definition marker_body (checksum : string) (kind : list (string * JValue)) : JValue :=
  json_object ([("restore_id", VString p_uuid); ("staging", VString staging_path); ("checksum_sha256", VString checksum);
                ("created_at", json_int p_now)] ++ kind).

Definition stage_restore (archive : string) (expected : option string) : PanelM StagePanelRestoreDto :=
  (do! _ := of_result (validate_local_archive_path archive) in
   do! bytes := read_file archive in
   let checksum := p_sha256 bytes in
   do! _ := guard (match expected with Some e => negb (eq_ignore_ascii_case checksum (trim e)) | None => false end)
              (Protocol "backup checksum mismatch") in
   do! listing := list_archive "invalid panel archive: " archive in
   do! _ := guard (existsb unsafe_entry (lines listing)) (Protocol "panel archive contains an unsafe path") in
   do! _ := guard (negb (has_entry "db.sqlite3" listing)) (Protocol "panel archive does not contain db.sqlite3") in
   do! _ := fs (MakeDir staging_path) in
   do! _ := fs (TarExtract archive staging_path) in
   do! _ := fs (WriteFile marker_path (p_pretty (marker_body checksum []))) in
   ret (mkStage p_uuid checksum true marker_path))%rust.

(** [str.contains] of a file name *)
Definition stage_rollback (recovery_database : string) : PanelM StagePanelRestoreDto :=
  (do! _ := guard (negb (is_absolute recovery_database) || negb (path_starts_with recovery_database p_base)
                   || negb (match file_name recovery_database with Some n => contains ".pre-restore-" n | None => false end))
              (Protocol "recovery database must be a OpenOxide pre-restore snapshot") in
   do! bytes := read_file recovery_database in
   do! _ := fs (MakeDir staging_path) in
   do! _ := fs (WriteFile (staging_path +:+ "/db.sqlite3") bytes) in
   let checksum := p_sha256 bytes in
   do! _ := fs (WriteFile marker_path (p_pretty (marker_body checksum [("kind", VString "ROLLBACK")]))) in
   ret (mkStage p_uuid checksum true marker_path))%rust.

Definition is_hex_char (c : ascii) : bool := bool_decide (is_Some (to_digit16 c)).
Definition decode_status (v : JValue) : option PanelRestoreStatusDto :=
  r ← as_str_value (at_key "restore_id" v); st ← as_str_value (at_key "status" v); m ← as_str_value (at_key "message" v);
  u ← as_i64_value (at_key "updated_at" v); Some (mkRestoreStatus r st m u).
Definition pending_status (restore_id text : string) : option PanelRestoreStatusDto :=
  v ← json_parse text;
  if bool_decide (as_str_value (at_key "restore_id" v) = Some restore_id)
  then Some (mkRestoreStatus restore_id "PENDING_RESTART" "restore is staged and will be applied during panel restart"
               (default 0%Z (as_i64_value (at_key "created_at" v))))
  else None.
Definition restore_status (invalid : string) (restore_id : string) : PanelM PanelRestoreStatusDto := λ s,
  if str_is_empty restore_id || negb (forallb is_hex_char (chars restore_id)) then (s, Err (Protocol "invalid restore id"))
  else match (match p_read (ps_log s) marker_path with Ok text => pending_status restore_id text | Err _ => None end) with
       | Some d => (s, Ok d)
       | None =>
           (do! bytes := read_file (p_base +:+ "/backups/restore-history/" +:+ restore_id +:+ ".json") in
            match json_parse bytes ≫= decode_status with Some d => ret d | None => fail (Protocol invalid) end)%rust s
       end.

(** ** [compose_config.rs]; [export] is the bundle of [ComposeTransferService] *)

Definition compose_config_create (export : result JValue SqlError) (compose_id : Z) : PanelM PanelBackupResponseDto :=
  (do! bundle := of_result export in
   let bytes := p_pretty bundle in
   let output_dir := p_base +:+ "/backups/compose" in
   do! _ := fs (MakeDir output_dir) in
   let path := output_dir +:+ "/compose-" +:+ i64_to_string compose_id +:+ "-" +:+ p_timestamp +:+ ".json" in
   do! execution_id := panel_sql (execution_start p_now KComposeConfig OpBackup (Some compose_id) (Some path)) in
   λ s, match fs (WriteFile path bytes) s with
        | (s1, Err error) => (do! _ := panel_sql (execution_fail p_now execution_id (p_error_text error)) in fail error) s1
        | (s1, Ok _) =>
            let checksum := p_sha256 bytes in
            let size_bytes := Z.of_nat (String.length bytes) in
            (do! _ := panel_sql (execution_succeed p_now execution_id (Some checksum) (Some size_bytes)) in
             ret (mkPanelBackup path checksum size_bytes p_now)) s1
        end)%rust.
End panel.

Section panel_facts.
Context `{JsonText, PanelWorld}.

Lemma fs_ok a s s' u : fs a s = (s', Ok u) → s' = mkPanelState (ps_log s ++ [a]) (ps_executions s).
Proof. unfold fs. by intros [= <- _]. Qed.
Lemma guard_ok {S E} c (e : E) (s s' : S) u : guard c e s = (s', Ok u) → s' = s ∧ c = false.
Proof. destruct c; [done|]. by intros [= <- _]. Qed.
Lemma read_file_ok path s s' bytes : read_file path s = (s', Ok bytes) → s' = s ∧ p_read (ps_log s) path = Ok bytes.
Proof. by intros [= <- ?]. Qed.
Lemma list_archive_ok prefix path s s' text :
  list_archive prefix path s = (s', Ok text) → s' = s ∧ p_list (ps_log s) path = Ok text.
Proof. unfold list_archive. destruct (p_list _ _); by intros [= <- <-]. Qed.
Lemma has_entry_spec name listing : has_entry name listing = true ↔ name ∈ lines listing.
Proof.
  unfold has_entry. rewrite existsb_elem. split; [|intros Hx; exists name; by rewrite bool_decide_eq_true].
  intros (e & He & ->%bool_decide_eq_true). done.
Qed.

(** C35: A restore of the panel that is staged was read from a path that passes the check, with
    the asked checksum; no name in the archive is absolute or goes up, and the database is among
    them; only then was the archive extracted, to the staging directory, and the marker written
    last. *)
Theorem restore_is_staged_only_when_safe archive expected s s' dto :
  stage_restore archive expected s = (s', Ok dto) →
  validate_local_archive_path archive = Ok tt
  ∧ (∃ bytes, p_read (ps_log s) archive = Ok bytes ∧ sg_checksum dto = p_sha256 bytes)
  ∧ (∀ e, expected = Some e → eq_ignore_ascii_case (sg_checksum dto) (trim e) = true)
  ∧ (∃ listing, p_list (ps_log s) archive = Ok listing ∧ "db.sqlite3" ∈ lines listing
       ∧ ∀ entry, entry ∈ lines listing → is_absolute entry = false ∧ ParentDir ∉ components entry)
  ∧ ps_log s' = ps_log s ++ [MakeDir staging_path; TarExtract archive staging_path;
                             WriteFile marker_path (p_pretty (marker_body (sg_checksum dto) []))].
Proof.
  unfold stage_restore. intros (s1 & u1 & H1 & Hk)%bind_ok. injection H1 as -> Hv.
  apply bind_ok in Hk as (s2 & bytes & (-> & Hr)%read_file_ok & Hk).
  apply bind_ok in Hk as (s3 & u3 & (-> & Hg)%guard_ok & Hk).
  apply bind_ok in Hk as (s4 & listing & (-> & Hl)%list_archive_ok & Hk).
  apply bind_ok in Hk as (s5 & u5 & (-> & Hu)%guard_ok & Hk).
  apply bind_ok in Hk as (s6 & u6 & (-> & Hdb)%guard_ok & Hk).
  apply bind_ok in Hk as (s7 & u7 & ->%fs_ok & Hk). apply bind_ok in Hk as (s8 & u8 & ->%fs_ok & Hk).
  apply bind_ok in Hk as (s9 & u9 & ->%fs_ok & [= <- <-]). simpl. split_and!.
  - by destruct u1.
  - eauto.
  - intros e ->. simpl in Hg. by apply negb_false_iff in Hg.
  - exists listing. split_and!; [done|by apply has_entry_spec, negb_false_iff|]. intros entry He.
    rewrite existsb_false in Hu. specialize (Hu entry He). unfold unsafe_entry in Hu. apply orb_false_iff in Hu as [Ha Hp].
    split; [done|]. by apply bool_decide_eq_false in Hp.
  - by rewrite <- !app_assoc.
Qed.
End panel_facts.

Definition sample_panel : PanelWorld := {|
  p_base := "/srv/panel"; p_database_url := "sqlite://db?mode=rwc"; p_do := λ _ _, Ok tt;
  p_list := λ _ _, Ok ("db.sqlite3" +:+ newline +:+ "manifest.json" +:+ newline); p_read := λ _ _, Ok "bytes"; p_exists := λ _, true;
  p_tempdir := Ok "/tmp/x"; p_sha256 := itself; p_pretty := λ _, "{}"; p_uuid := "aa"; p_timestamp := "t"; p_now := 5%Z;
  p_error_text := λ _, "" |}.
Lemma restore_is_staged_witness :
  ∃ s' dto, @stage_restore sample_panel "/srv/panel/backups/panel/a.tar.gz" (Some " BYTES ") (mkPanelState [] empty_table) = (s', Ok dto)
    ∧ length (ps_log s') = 3.
Proof.
  destruct (@stage_restore sample_panel "/srv/panel/backups/panel/a.tar.gz" (Some " BYTES ") (mkPanelState [] empty_table))
    as [s' [dto|e]] eqn:E; [|by vm_compute in E].
  exists s', dto. split; [done|].
  destruct (@restore_is_staged_only_when_safe sample_panel _ _ _ _ _ E) as (_ & _ & _ & _ & Hlog). by rewrite Hlog.
Defined.

(** The directory is compared part by part without resolving what goes up: an archive elsewhere
    on the host is accepted. *)
Lemma archive_may_be_elsewhere :
  @validate_local_archive_path sample_panel "/srv/panel/backups/../../../tmp/evil.tar.gz" = Ok tt.
Proof. by vm_compute. Qed.

(** A line of a listing without a tab is no file, so a listing with an empty separator is empty. *)
Lemma line_without_tab line : tab ∉ chars line → parse_lsf_line line = None.
Proof.
  intros Ht. unfold parse_lsf_line. rewrite split_on_none; [done|]. apply Forall_forall. intros c Hc. apply is_char_false. by intros ->.
Qed.

(** The replicas column of [docker service ls] has the running and the wanted number, which is
    not a number: a Swarm service is never stopped for its backup. *)
Lemma replicas_column_is_no_number : parse_u32 "1/1" = None ∧ parse_u32 "2" = Some 2%Z.
Proof. by vm_compute. Qed.

(** Credentials go between quotes as they are: one with a quote ends the word. *)
Lemma password_may_end_its_quotes :
  inner_restore_command (DumpMysql (mkCreds "root" ("x" +:+ chr squote +:+ "; reboot; " +:+ chr squote) "shop") (mkContainerTarget "db"))
  = "set -o pipefail; gunzip | mysql -u " +:+ sq "root" +:+ " --password=" +:+ sq "x" +:+ "; reboot; " +:+ sq "" +:+ " " +:+ sq "shop".
Proof. by vm_compute. Qed.
