(* ===== verification/BackupApi.v ===== *)
(** * The requests on backups

    [api/handlers/backup.rs] with the statements of [db/repository/backups.rs] and
    [volume_backups.rs] that it uses: creating, changing and deleting jobs, running them, and
    repeating an execution.  A request has passed its permission check and the validation of its
    body.  The organizations, the rows a job may refer to and the reader of cron expressions are
    parameters, with those of [BackupService]; a refresh of the scheduler is counted, its effect
    is [ScheduleRunner].  A volume job that was created names the resource it was created for
    ([created_volume_job_is_runnable]), and a repeated execution is the next attempt of the same
    job ([retry_is_the_next_attempt]). *)

From stdpp Require Import gmap strings list sorting.
From Stdlib Require Import ZArith Lia Ascii.
From S2P Require Import Prelude RustStr RustText JsonValue StringEnum Sql ScheduleService ScheduleRunner ShellQuote Rclone Backups BackupService.

(** ** Bodies *)

Record CreateBackupDto := mkCreateBackup {
  cb_app_name : string; cb_schedule : string; cb_database_name : string; cb_prefix : string; cb_service_name : option string;
  cb_keep_latest_count : option Z; cb_backup_type : string; cb_database_type : string; cb_metadata : option string;
  cb_compose_id : option Z; cb_postgres_id : option Z; cb_mysql_id : option Z; cb_mariadb_id : option Z; cb_mongo_id : option Z;
  cb_redis_id : option Z; cb_libsql_id : option Z; cb_destination_id : Z; cb_organization_id : Z }.
Record PatchBackupDto := mkPatchBackup {
  pk_app_name : option string; pk_schedule : option string; pk_database_name : option string; pk_prefix : option string;
  pk_service_name : option string; pk_keep_latest_count : option Z; pk_backup_type : option string; pk_database_type : option string;
  pk_metadata : option string; pk_destination_id : option Z; pk_enabled : option Z }.
Record CreateVolumeBackupDto := mkCreateVolume {
  cw_name : string; cw_volume_name : string; cw_prefix : string; cw_service_type : string; cw_app_name : string;
  cw_service_name : option string; cw_turn_off : Z; cw_cron_expression : string; cw_keep_latest_count : option Z;
  cw_destination_id : option Z; cw_organization_id : option Z; cw_application_id : option Z; cw_postgres_id : option Z;
  cw_mysql_id : option Z; cw_mariadb_id : option Z; cw_mongo_id : option Z; cw_redis_id : option Z; cw_libsql_id : option Z;
  cw_compose_id : option Z }.
Record PatchVolumeBackupDto := mkPatchVolume {
  pw_name : option string; pw_volume_name : option string; pw_prefix : option string; pw_service_type : option string;
  pw_app_name : option string; pw_service_name : option string; pw_turn_off : option Z; pw_cron_expression : option string;
  pw_keep_latest_count : option Z; pw_destination_id : option Z; pw_enabled : option Z }.

Definition ApiError : Type := Z * string.
Definition backup_error (e : SqlError) : ApiError :=
  match e with
  | RowNotFound => (404%Z, "backup not found")
  | Protocol message => (400%Z, message)
  | _ => (500%Z, "backup operation failed")
  end.

Record BackupApi := mkApi {
  ap_backups : Table Backup; ap_volumes : Table VolumeBackup; ap_state : BackupState; ap_refreshes : nat }.

(** The tables a job refers to *)
Inductive Referred := RApplications | RDatabase (k : DbKind) | RComposeProjects.

Class ApiRows := {
  a_organizations : list Z;                  (* the ids in the order of [get_all] *)
  a_exists : Referred → Z → bool;
  a_cron_error : string → option string;
}.

Section api.
Context `{JsonText, BackupRows, ApiRows}.
Definition ApiM := SE BackupApi ApiError.

Definition refresh_schedule_runner : ApiM unit := λ s, (mkApi (ap_backups s) (ap_volumes s) (ap_state s) (S (ap_refreshes s)), Ok tt).
Definition in_service {A} (m : ServiceM A) : ApiM A := λ s,
  let '(st, r) := m (ap_state s) in
  (mkApi (ap_backups s) (ap_volumes s) st (ap_refreshes s), match r with Ok a => Ok a | Err e => Err (backup_error e) end).
Definition on_backups {A} (f : Table Backup → result (Table Backup * A) SqlError) : ApiM A := λ s,
  match f (ap_backups s) with
  | Ok (t, a) => (mkApi t (ap_volumes s) (ap_state s) (ap_refreshes s), Ok a)
  | Err e => (s, Err (backup_error e))
  end.
Definition on_volumes {A} (f : Table VolumeBackup → result (Table VolumeBackup * A) SqlError) : ApiM A := λ s,
  match f (ap_volumes s) with
  | Ok (t, a) => (mkApi (ap_backups s) t (ap_state s) (ap_refreshes s), Ok a)
  | Err e => (s, Err (backup_error e))
  end.
Definition api_found {A} (o : option A) : ApiM A := of_result match o with Some a => Ok a | None => Err (backup_error RowNotFound) end.
Definition get_backup (id : Z) : ApiM Backup := λ s, api_found (backup_get_by_id id (ap_backups s)) s.
Definition get_volume (id : Z) : ApiM VolumeBackup := λ s, api_found (volume_get_by_id id (ap_volumes s)) s.

(** ** What a new job refers to *)

Definition resolve_organization_id (requested : option Z) : Z :=
  match requested with
  | Some id => if (0 <? id)%Z && bool_decide (id ∈ a_organizations) then id else default 1%Z (head a_organizations)
  | None => default 1%Z (head a_organizations)
  end.
Definition require_destination_id (requested : option Z) : result Z ApiError :=
  match requested with
  | Some id =>
      if (0 <? id)%Z then
        match destination_get_by_id id r_destinations with
        | Some _ => Ok id
        | None => Err (400%Z, "selected S3 destination does not exist")
        end
      else Err (400%Z, "S3 destination is required")
  | None => Err (400%Z, "S3 destination is required")
  end.
Definition verify_fk_exists (table : Referred) (id : option Z) : option Z :=
  match id with Some v => if (0 <? v)%Z && a_exists table v then Some v else None | None => None end.

Definition reference_ok (table : Referred) (id : option Z) : bool := match id with Some v => a_exists table v | None => true end.
Definition destination_ok (id : Z) : bool := bool_decide (is_Some (destination_get_by_id id r_destinations)).
Definition backup_fk (b : Backup) : bool :=
  reference_ok RComposeProjects (ba_compose_id b) && forallb (λ '(k, o), reference_ok (RDatabase k) o) (backup_databases b)
  && destination_ok (ba_destination_id b) && bool_decide (ba_organization_id b ∈ a_organizations).
Definition volume_fk (b : VolumeBackup) : bool :=
  reference_ok RApplications (vo_application_id b) && reference_ok RComposeProjects (vo_compose_id b)
  && forallb (λ '(k, o), reference_ok (RDatabase k) o) (volume_databases b)
  && destination_ok (vo_destination_id b) && bool_decide (vo_organization_id b ∈ a_organizations).

(** ** Database jobs *)

Definition backup_with_id (id : Z) (b : Backup) : Backup :=
  mkBackup id (ba_app_name b) (ba_schedule b) (ba_enabled b) (ba_database_name b) (ba_prefix b) (ba_service_name b) (ba_keep_latest_count b)
    (ba_backup_type b) (ba_database_type b) (ba_metadata b) (ba_compose_id b) (ba_postgres_id b) (ba_mysql_id b) (ba_mariadb_id b)
    (ba_mongo_id b) (ba_redis_id b) (ba_libsql_id b) (ba_destination_id b) (ba_organization_id b) (ba_created_at b) (ba_updated_at b).
(** The trigger [backups_updated_at] *)
Definition backup_touch (now : Z) (b : Backup) : Backup :=
  mkBackup (ba_id b) (ba_app_name b) (ba_schedule b) (ba_enabled b) (ba_database_name b) (ba_prefix b) (ba_service_name b) (ba_keep_latest_count b)
    (ba_backup_type b) (ba_database_type b) (ba_metadata b) (ba_compose_id b) (ba_postgres_id b) (ba_mysql_id b) (ba_mariadb_id b)
    (ba_mongo_id b) (ba_redis_id b) (ba_libsql_id b) (ba_destination_id b) (ba_organization_id b) (ba_created_at b) now.
Definition backup_create (item : Backup) (t : Table Backup) := sql_insert backup_fk (λ id, backup_with_id id item) t.
Definition backup_update (now id : Z) (item : Backup) (t : Table Backup) :=
  sql_update backup_fk (λ b, ba_id b =? id)%Z (λ b, backup_touch now (backup_with_id (ba_id b) item)) t.

Definition create_database_backup (dto : CreateBackupDto) : ApiM (Z * Backup) :=
  (let org_id := resolve_organization_id (Some (cb_organization_id dto)) in
   do! dest_id := of_result (require_destination_id (Some (cb_destination_id dto))) in
   let db k o := verify_fk_exists (RDatabase k) o in
   let item := mkBackup 0 (cb_app_name dto) (cb_schedule dto) 1 (cb_database_name dto) (cb_prefix dto) (cb_service_name dto)
     (cb_keep_latest_count dto) (cb_backup_type dto) (cb_database_type dto) (cb_metadata dto)
     (verify_fk_exists RComposeProjects (cb_compose_id dto)) (db Postgres (cb_postgres_id dto)) (db Mysql (cb_mysql_id dto))
     (db Mariadb (cb_mariadb_id dto)) (db Mongo (cb_mongo_id dto)) (db Redis (cb_redis_id dto)) (db Libsql (cb_libsql_id dto))
     dest_id org_id 0 0 in
   do! id := on_backups (backup_create item) in
   do! _ := refresh_schedule_runner in
   do! b := get_backup id in
   ret (201%Z, b))%rust.

Definition backup_edit (dto : PatchBackupDto) (b : Backup) : Backup :=
  mkBackup (ba_id b) (default (ba_app_name b) (pk_app_name dto)) (default (ba_schedule b) (pk_schedule dto))
    (default (ba_enabled b) (pk_enabled dto)) (default (ba_database_name b) (pk_database_name dto)) (default (ba_prefix b) (pk_prefix dto))
    (match pk_service_name dto with Some v => Some v | None => ba_service_name b end)
    (match pk_keep_latest_count dto with Some v => Some v | None => ba_keep_latest_count b end)
    (default (ba_backup_type b) (pk_backup_type dto)) (default (ba_database_type b) (pk_database_type dto))
    (match pk_metadata dto with Some v => Some v | None => ba_metadata b end) (ba_compose_id b) (ba_postgres_id b) (ba_mysql_id b)
    (ba_mariadb_id b) (ba_mongo_id b) (ba_redis_id b) (ba_libsql_id b) (default (ba_destination_id b) (pk_destination_id dto))
    (ba_organization_id b) (ba_created_at b) (ba_updated_at b).
Definition patch_database_backup (now id : Z) (dto : PatchBackupDto) : ApiM (Z * Backup) :=
  (do! item := get_backup id in
   do! _ := on_backups (backup_update now id (backup_edit dto item)) in
   do! _ := refresh_schedule_runner in
   do! b := get_backup id in
   ret (200%Z, b))%rust.
Definition delete_database_backup (id : Z) : ApiM Z :=
  (do! _ := on_backups (λ t, Ok (backup_delete id t, tt)) in
   do! _ := refresh_schedule_runner in
   ret 204%Z)%rust.

(** ** Volume jobs *)

Definition volume_with (id : Z) (service_type : string) (b : VolumeBackup) : VolumeBackup :=
  mkVolumeBackup id (vo_name b) (vo_volume_name b) (vo_prefix b) service_type (vo_app_name b) (vo_service_name b) (vo_turn_off b)
    (vo_cron_expression b) (vo_keep_latest_count b) (vo_enabled b) (vo_destination_id b) (vo_organization_id b) (vo_application_id b)
    (vo_postgres_id b) (vo_mysql_id b) (vo_mariadb_id b) (vo_mongo_id b) (vo_redis_id b) (vo_libsql_id b) (vo_compose_id b)
    (vo_created_at b) (vo_updated_at b).
Definition volume_touch (now : Z) (b : VolumeBackup) : VolumeBackup :=
  mkVolumeBackup (vo_id b) (vo_name b) (vo_volume_name b) (vo_prefix b) (vo_service_type b) (vo_app_name b) (vo_service_name b) (vo_turn_off b)
    (vo_cron_expression b) (vo_keep_latest_count b) (vo_enabled b) (vo_destination_id b) (vo_organization_id b) (vo_application_id b)
    (vo_postgres_id b) (vo_mysql_id b) (vo_mariadb_id b) (vo_mongo_id b) (vo_redis_id b) (vo_libsql_id b) (vo_compose_id b)
    (vo_created_at b) now.
Definition volume_create (item : VolumeBackup) (t : Table VolumeBackup) :=
  sql_insert volume_fk (λ id, volume_with id (vo_service_type item) item) t.
Definition volume_update (now id : Z) (item : VolumeBackup) (t : Table VolumeBackup) :=
  sql_update volume_fk (λ b, vo_id b =? id)%Z (λ b, volume_touch now (volume_with (vo_id b) (vo_service_type item) item)) t.

Definition is_given (o : option Z) : bool := bool_decide (is_Some o).
(** The service type a job gets from the resource it names; [None] when it names none *)
Definition service_type_of (b : VolumeBackup) : option string :=
  if is_given (vo_compose_id b) then Some "COMPOSE"
  else if is_given (vo_application_id b) then Some "APPLICATION"
  else if is_given (vo_postgres_id b) then Some "POSTGRES"
  else if is_given (vo_mysql_id b) then Some "MYSQL"
  else if is_given (vo_mariadb_id b) then Some "MARIADB"
  else if is_given (vo_mongo_id b) then Some "MONGO"
  else if is_given (vo_redis_id b) then Some "REDIS"
  else if is_given (vo_libsql_id b) then Some "LIBSQL"
  else None.

Definition create_volume_backup (dto : CreateVolumeBackupDto) : ApiM (Z * VolumeBackup) :=
  (let org_id := resolve_organization_id (cw_organization_id dto) in
   do! dest_id := of_result (require_destination_id (cw_destination_id dto)) in
   do! _ := of_result (match validate_cron_expression a_cron_error (cw_cron_expression dto) with Ok u => Ok u | Err e => Err (backup_error e) end) in
   let db k o := verify_fk_exists (RDatabase k) o in
   let item := mkVolumeBackup 0 (cw_name dto) (cw_volume_name dto) (cw_prefix dto) (cw_service_type dto) (cw_app_name dto) (cw_service_name dto)
     (cw_turn_off dto) (cw_cron_expression dto) (cw_keep_latest_count dto) 1 dest_id org_id
     (verify_fk_exists RApplications (cw_application_id dto)) (db Postgres (cw_postgres_id dto)) (db Mysql (cw_mysql_id dto))
     (db Mariadb (cw_mariadb_id dto)) (db Mongo (cw_mongo_id dto)) (db Redis (cw_redis_id dto)) (db Libsql (cw_libsql_id dto))
     (verify_fk_exists RComposeProjects (cw_compose_id dto)) 0 0 in
   match service_type_of item with
   | None => fail (400%Z, "valid backup resource is required")
   | Some service_type =>
       do! id := on_volumes (volume_create (volume_with 0 service_type item)) in
       do! created := get_volume id in
       do! _ := refresh_schedule_runner in
       ret (201%Z, created)
   end)%rust.

Definition volume_edit (dto : PatchVolumeBackupDto) (b : VolumeBackup) : VolumeBackup :=
  mkVolumeBackup (vo_id b) (default (vo_name b) (pw_name dto)) (default (vo_volume_name b) (pw_volume_name dto))
    (default (vo_prefix b) (pw_prefix dto)) (default (vo_service_type b) (pw_service_type dto)) (default (vo_app_name b) (pw_app_name dto))
    (match pw_service_name dto with Some v => Some v | None => vo_service_name b end) (default (vo_turn_off b) (pw_turn_off dto))
    (default (vo_cron_expression b) (pw_cron_expression dto))
    (match pw_keep_latest_count dto with Some v => Some v | None => vo_keep_latest_count b end)
    (default (vo_enabled b) (pw_enabled dto)) (default (vo_destination_id b) (pw_destination_id dto)) (vo_organization_id b)
    (vo_application_id b) (vo_postgres_id b) (vo_mysql_id b) (vo_mariadb_id b) (vo_mongo_id b) (vo_redis_id b) (vo_libsql_id b)
    (vo_compose_id b) (vo_created_at b) (vo_updated_at b).
Definition patch_volume_backup (now id : Z) (dto : PatchVolumeBackupDto) : ApiM (Z * VolumeBackup) :=
  (do! item := get_volume id in
   do! _ := on_volumes (volume_update now id (volume_edit dto item)) in
   do! _ := refresh_schedule_runner in
   do! b := get_volume id in
   ret (200%Z, b))%rust.
Definition delete_volume_backup (id : Z) : ApiM Z :=
  (do! _ := on_volumes (λ t, Ok (volume_delete id t, tt)) in
   do! _ := refresh_schedule_runner in
   ret 204%Z)%rust.

(** ** Runs; nobody changes the job between the two reads of one request *)

Definition api_run_database (now : Z) (timestamp : string) (id : Z) : ApiM Z := λ s,
  let row := backup_get_by_id id (ap_backups s) in
  (do! _ := in_service (run_database_backup now timestamp id row row) in ret 202%Z)%rust s.
Definition api_run_volume (now : Z) (timestamp : string) (id : Z) : ApiM Z := λ s,
  let row := volume_get_by_id id (ap_volumes s) in
  (do! _ := in_service (run_volume_backup now timestamp id row row) in ret 202%Z)%rust s.
Definition api_restore_database (now id : Z) (backup_file : string) : ApiM Z := λ s,
  (do! _ := in_service (restore_database_backup now id (backup_get_by_id id (ap_backups s)) backup_file) in ret 202%Z)%rust s.
Definition api_restore_volume (now id : Z) (backup_file : string) : ApiM Z := λ s,
  (do! _ := in_service (restore_volume_backup now id (volume_get_by_id id (ap_volumes s)) backup_file) in ret 202%Z)%rust s.

(** [limit.unwrap_or(100).clamp(1, 500)] *)
Definition list_executions (kind : option BackupKind) (backup_id limit : option Z) (s : BackupApi) : list BackupExecution :=
  execution_list (as_str <$> kind) backup_id (Z.min 500 (Z.max 1 (default 100 limit)))%Z (st_executions (ap_state s)).

Definition or_error {A} (o : option A) (e : ApiError) : ApiM A := match o with Some a => ret a | None => fail e end.
Definition retry_execution (now : Z) (timestamp : string) (id : Z) : ApiM Z :=
  (do! execution := (λ s, api_found (execution_get id (st_executions (ap_state s))) s) in
   do! status := or_error (from_str (be_status execution)) (500%Z, "invalid backup execution status: " +:+ be_status execution) in
   do! _ := guard (bool_decide (status = ExRunning)) (409%Z, "backup execution is still running") in
   do! backup_id := or_error (be_backup_id execution) (400%Z, "execution is not linked to a retryable backup job") in
   do! kind := or_error (from_str (be_kind execution)) (500%Z, "invalid backup kind: " +:+ be_kind execution) in
   do! operation := or_error (from_str (be_operation execution)) (500%Z, "invalid backup operation: " +:+ be_operation execution) in
   match kind, operation with
   | KDatabase, OpBackup => api_run_database now timestamp backup_id
   | KVolume, OpBackup => api_run_volume now timestamp backup_id
   | KDatabase, OpRestore =>
       do! object_key := or_error (be_object_key execution) (400%Z, "restore execution has no object key") in
       api_restore_database now backup_id object_key
   | KVolume, OpRestore =>
       do! object_key := or_error (be_object_key execution) (400%Z, "restore execution has no object key") in
       api_restore_volume now backup_id object_key
   | _, _ => fail (400%Z, "execution kind cannot be retried from this endpoint")
   end)%rust.

(** [restore_status_stream]: one poll per tick, until the first status that is final; a poll that
    fails is a final status too *)
Definition is_final (status : string) : bool := bool_decide (status ∈ ["PENDING_RESTART"; "SUCCEEDED"; "FAILED"; "ROLLED_BACK"]).
Definition polled (error_text : SqlError → string) (now : Z) (restore_id : string) (poll : result PanelRestoreStatusDto SqlError)
    : PanelRestoreStatusDto :=
  match poll with Ok status => status | Err error => mkRestoreStatus restore_id "FAILED" (error_text error) now end.
Fixpoint restore_status_stream (error_text : SqlError → string) (restore_id : string) (finished : bool)
    (ticks : list (Z * result PanelRestoreStatusDto SqlError)) : list PanelRestoreStatusDto :=
  match ticks with
  | [] => []
  | (now, poll) :: rest =>
      if finished then []
      else let status := polled error_text now restore_id poll in
           status :: restore_status_stream error_text restore_id (is_final (rs_restore_status status)) rest
  end.

(** The name a downloaded file gets *)
Definition download_name (object_key : string) : string :=
  string_map (λ c, if is_char c cr || is_char c nl || is_char c dquote then "_"%char else c) (after_last_slash object_key).
End api.

(** ** Repeating an execution *)

Section retries.
Context `{JsonText, BackupRows, ApiRows}.

(** One more row for the job, which succeeded, with the number after the highest of its attempts *)
Definition next_attempt (kind operation : string) (id : Z) (t t' : Table BackupExecution) (e : BackupExecution) : Prop :=
  rows t' = rows t ++ [e] ∧ be_kind e = kind ∧ be_operation e = operation ∧ be_backup_id e = Some id ∧ be_status e = "SUCCEEDED"
  ∧ be_attempt e = (max_attempt (sql_select (same_job kind operation (Some id)) t) + 1)%Z.

(** A service call that, when it succeeds, leaves the next attempt of the job, of an object with [key] *)
Definition attempts (kind : BackupKind) (operation : BackupOperation) (id : Z) (key : string → Prop) (m : ServiceM unit) : Prop :=
  ∀ s s' u, table_wf (st_executions s) → m s = (s', Ok u) →
  ∃ e k, next_attempt (as_str kind) (as_str operation) id (st_executions s) (st_executions s') e ∧ be_object_key e = Some k ∧ key k.

Lemma recorded_attempts now kind operation id (key : string → Prop) k host m :
  key k → attempts kind operation id key (recorded now kind operation id k host m).
Proof.
  intros Hk s s' u Hwf Hm%recorded_accounted; [|done]. unfold accounted in Hm.
  destruct (m []) as [log [out|x]]; [|naive_solver]. destruct Hm as (_ & Hr & _). eexists _, k. split; [split; [exact Hr|]|]; done.
Qed.
Lemma bind_attempts {A} kind operation id key (m : ServiceM A) (f : A → ServiceM unit) :
  reads m → (∀ a, attempts kind operation id key (f a)) → attempts kind operation id key (bind m f).
Proof.
  intros Hm Hf s s' u Hwf (s1 & a & Hs1 & Hk)%bind_ok. pose proof (reads_run _ _ _ _ Hm Hs1) as ->. by apply (Hf a s s' u).
Qed.
Ltac attempts_solve :=
  repeat (apply bind_attempts;
          [apply row_reads || apply guard_reads || apply of_result_reads || apply executor_reads || apply destination_reads|intros ?]);
  by apply recorded_attempts.

Lemma database_run_attempts now timestamp id r r' : attempts KDatabase OpBackup id (λ _, True) (run_database_backup now timestamp id r r').
Proof. unfold run_database_backup. attempts_solve. Qed.
Lemma volume_run_attempts now timestamp id r r' : attempts KVolume OpBackup id (λ _, True) (run_volume_backup now timestamp id r r').
Proof. unfold run_volume_backup. attempts_solve. Qed.
Lemma database_restore_attempts now id r file : attempts KDatabase OpRestore id (eq file) (restore_database_backup now id r file).
Proof. unfold restore_database_backup. attempts_solve. Qed.
Lemma volume_restore_attempts now id r file : attempts KVolume OpRestore id (eq file) (restore_volume_backup now id r file).
Proof. unfold restore_volume_backup. attempts_solve. Qed.

Lemma in_service_ok {A} (m : ServiceM A) (code : Z) s s' c :
  (do! _ := in_service m in ret code)%rust s = (s', Ok c) →
  ∃ st a, m (ap_state s) = (st, Ok a) ∧ s' = mkApi (ap_backups s) (ap_volumes s) st (ap_refreshes s) ∧ c = code.
Proof.
  unfold in_service, bind. destruct (m (ap_state s)) as [st [a|e]]; [|done]. intros [= <- <-]. by exists st, a.
Qed.

Lemma checked_kind e (kind : BackupKind) : row_check e = true → from_str (be_kind e) = Some kind → be_kind e = as_str kind.
Proof.
  intros Hc. assert (Hk : be_kind e ∈ ["DATABASE"; "VOLUME"; "PANEL"; "COMPOSE_CONFIG"]) by (simpl in Hc; bsimp; tauto).
  rewrite !elem_of_cons, elem_of_nil in Hk. destruct Hk as [->|[->|[->|[->|[]]]]]; intros [= <-]; done.
Qed.
Lemma checked_operation e (operation : BackupOperation) : row_check e = true → from_str (be_operation e) = Some operation → be_operation e = as_str operation.
Proof.
  intros Hc. assert (Hk : be_operation e ∈ ["BACKUP"; "RESTORE"]) by (simpl in Hc; bsimp; tauto).
  rewrite !elem_of_cons, elem_of_nil in Hk. destruct Hk as [->|[->|[]]]; intros [= <-]; done.
Qed.

Lemma or_error_ok {A B} (o : option A) e (k : A → ApiM B) s s' b :
  bind (or_error o e) k s = (s', Ok b) → ∃ a, o = Some a ∧ k a s = (s', Ok b).
Proof. destruct o as [a|]; [|done]. intros Hk. by exists a. Qed.

(** A retry that is accepted repeats an execution that is over: it leaves exactly one more
    execution, of the same kind, operation and job, which succeeded and is numbered after every
    earlier attempt; a restore takes the same object again.  The jobs are as they were. *)
Theorem retry_is_the_next_attempt now timestamp id s s' code :
  table_wf (st_executions (ap_state s)) → retry_execution now timestamp id s = (s', Ok code) →
  code = 202%Z ∧ ap_backups s' = ap_backups s ∧ ap_volumes s' = ap_volumes s
  ∧ ∃ e job e', execution_get id (st_executions (ap_state s)) = Some e ∧ be_status e ≠ "RUNNING" ∧ be_backup_id e = Some job
      ∧ next_attempt (be_kind e) (be_operation e) job (st_executions (ap_state s)) (st_executions (ap_state s')) e'
      ∧ (be_operation e = "RESTORE" → be_object_key e' = be_object_key e).
Proof.
  intros Hwf. unfold retry_execution, bind at 1.
  destruct (execution_get id _) as [e|] eqn:Ee; [|done]. cbn [api_found of_result].
  assert (Hc : row_check e = true) by (apply (wf_check _ Hwf); by apply sql_first_Some in Ee as [? _]).
  intros (status & Hs & Hg)%or_error_ok. unfold bind at 1, guard in Hg. case_bool_decide as Hrun; [done|].
  apply or_error_ok in Hg as (job & Hj & Hg). apply or_error_ok in Hg as (kind & Hk & Hg). apply or_error_ok in Hg as (operation & Ho & Hg).
  assert (Hst : be_status e ≠ "RUNNING") by (intros E; rewrite E in Hs; by injection Hs).
  apply checked_kind in Hk; [|done]. apply checked_operation in Ho; [|done].
  destruct kind, operation; try done;
    try (apply or_error_ok in Hg as (key & Hkey & Hg));
    apply in_service_ok in Hg as (st & a & Hm & -> & ->).
  all: split_and!; [done..|].
  all: (apply database_run_attempts in Hm || apply volume_run_attempts in Hm || apply database_restore_attempts in Hm
        || apply volume_restore_attempts in Hm); [|done].
  all: destruct Hm as (e' & k & He' & Hk' & Heq); exists e, job, e'; rewrite Hk, Ho; split_and!; try done; congruence.
Qed.
End retries.


(** ** New volume jobs *)

Section volume_jobs.
Context `{JsonText, BackupRows, ApiRows}.

Lemma service_type_valid b t : service_type_of b = Some t → volume_backup_has_valid_resource (volume_row (volume_with 0 t b)) = true.
Proof.
  unfold service_type_of, is_given.
  repeat (case_bool_decide as Hgiven; [intros [= <-]; by apply bool_decide_eq_true|clear Hgiven]). done.
Qed.

(** A volume job that is accepted is the one new row of its table and is what the answer shows:
    it is enabled, its cron expression is one the scheduler reads, its destination and its
    organization exist, and its service type is that of a resource it names and which exists;
    so the scheduler takes it up, and it is told to look again. *)
Theorem created_volume_job_is_runnable dto s s' code b :
  table_wf (ap_volumes s) → create_volume_backup dto s = (s', Ok (code, b)) →
  code = 201%Z ∧ rows (ap_volumes s') = rows (ap_volumes s) ++ [b] ∧ vo_id b = (seq (ap_volumes s) + 1)%Z
  ∧ vo_enabled b = 1%Z ∧ validate_cron_expression a_cron_error (vo_cron_expression b) = Ok tt
  ∧ volume_fk b = true ∧ volume_backup_has_valid_resource (volume_row b) = true
  ∧ ap_state s' = ap_state s ∧ ap_refreshes s' = S (ap_refreshes s).
Proof.
  intros Hwf. unfold create_volume_backup. rewrite bind_reads_run by apply of_result_reads.
  destruct (require_destination_id _) as [dest|]; [|done]. cbn [of_result snd].
  rewrite bind_reads_run by apply of_result_reads.
  destruct (validate_cron_expression _ _) as [[]|] eqn:Ecron; [|done]. cbn [of_result snd].
  set (item := mkVolumeBackup 0 _ _ _ _ _ _ _ _ _ _ _ _ _ _ _ _ _ _ _ _ _ _). destruct (service_type_of item) as [t|] eqn:Et; [|done].
  apply service_type_valid in Et. unfold bind at 1, on_volumes at 1.
  destruct (volume_create _ _) as [[tab id]|] eqn:Ei; [|done].
  pose proof Ei as Hwf'. apply sql_insert_wf in Hwf'; [|done|done].
  apply sql_insert_inv in Ei as (Hid & Hseq & Hrows & _ & _ & Hfk).
  set (row := volume_with id _ _) in *. assert (Hin : row ∈ rows tab) by (rewrite Hrows; set_solver).
  unfold bind at 1, get_volume at 1. cbn [ap_volumes]. unfold volume_get_by_id.
  rewrite (sql_first_id tab row Hwf' Hin : sql_first (λ b, vo_id b =? id)%Z tab = Some row).
  intros [= <- <- <-]. by split_and!.
Qed.
End volume_jobs.

(** ** Samples *)

Definition good_world : BackupWorld := {|
  w_containers := λ _ _, Ok ["c0ffee"]; w_exec := λ _ _ _, Ok (mkExec (Some 0%Z) "" ""); w_services := λ _ _, Ok ["2"];
  w_do := λ _ _, Ok tt; w_pipeline := λ _ _, Ok (mkExec (Some 0%Z) "" ""); w_obscure := itself; w_order := map_to_list |}.
Definition good_rows : BackupRows := {|
  r_details := λ _ _, Ok (mkDetails "shop-db" "shop" "secret" "shop"); r_server := λ _ _, Ok None; r_application := λ _, None;
  r_compose := λ _, None; r_destinations := mkTable [mkDestination 1 "s3" "S3" "AKIA" "key" "bucket" "eu" "" 1 0 0] 1;
  r_connect := λ _, Ok tt; r_world := λ _, good_world; r_error_text := λ _, "" |}.
Definition sample_refs : ApiRows := {|
  a_organizations := [1%Z]; a_exists := λ t id, match t with RDatabase Postgres => (id =? 3)%Z | _ => false end; a_cron_error := λ _, None |}.
Definition failed_execution : BackupExecution :=
  mkExecution 1 "DATABASE" "BACKUP" (Some 7%Z) "FAILED" (Some "nightly/shop_1.dump.gz") None None 1 (Some "no space") 50 (Some 60%Z).
Definition sample_api : BackupApi :=
  mkApi (mkTable [sample_backup] 7) empty_table (mkBackupState (mkTable [failed_execution] 1) []) 0.

(** The second attempt of a dump whose first attempt failed *)
Lemma retry_is_the_next_attempt_witness :
  ∃ s' e job e', @retry_execution sample_no_json good_rows 100 "20240101_020000" 1 sample_api = (s', Ok 202%Z)
    ∧ execution_get 1 (st_executions (ap_state sample_api)) = Some e
    ∧ next_attempt (be_kind e) (be_operation e) job (st_executions (ap_state sample_api)) (st_executions (ap_state s')) e'
    ∧ be_attempt e' = 2%Z.
Proof.
  destruct (@retry_execution sample_no_json good_rows 100 "20240101_020000" 1 sample_api) as [s' r] eqn:E.
  assert (r = Ok 202%Z) as -> by (vm_compute in E; by injection E as _ <-).
  destruct (@retry_is_the_next_attempt sample_no_json good_rows 100 "20240101_020000" 1 sample_api s' 202)
    as (_ & _ & _ & e & job & e' & He & _ & Hj & Hnext & _); [by apply table_check_wf|exact E|].
  exists s', e, job, e'. split_and!; [done..|]. vm_compute in He. injection He as <-. vm_compute in Hj. injection Hj as <-.
  destruct Hnext as (_ & _ & _ & _ & _ & ->). by vm_compute.
Defined.

Definition sample_volume : CreateVolumeBackupDto :=
  mkCreateVolume "data" "shop_data" "nightly" "APPLICATION" "shop" None 0 "0 2 * * *" None (Some 1%Z) None (Some 9%Z) (Some 3%Z)
    None None None None None None.

(** The service type of the body does not count: the application it names is not there, the
    database is. *)
Lemma created_volume_job_witness :
  ∃ s' b, @create_volume_backup good_rows sample_refs sample_volume sample_api = (s', Ok (201%Z, b))
    ∧ volume_backup_has_valid_resource (volume_row b) = true ∧ vo_service_type b = "POSTGRES".
Proof.
  destruct (@create_volume_backup good_rows sample_refs sample_volume sample_api) as [s' r] eqn:E.
  destruct r as [[code b]|]; [|by vm_compute in E].
  destruct (@created_volume_job_is_runnable good_rows sample_refs sample_volume sample_api s' code b)
    as (-> & _ & _ & _ & _ & _ & Hv & _); [by apply table_check_wf|exact E|].
  exists s', b. split_and!; [done..|]. vm_compute in E. by injection E as _ <-.
Defined.

Definition retyped : PatchVolumeBackupDto := mkPatchVolume None None None (Some "COMPOSE") None None None (Some "never") None None None.

(** A change of a job is not checked: afterwards the job names no resource of its type, and its
    cron expression is none. *)
Example patch_is_not_checked :
  let s1 := (@create_volume_backup good_rows sample_refs sample_volume sample_api).1 in
  match (@patch_volume_backup good_rows sample_refs 5 1 retyped s1).2 with
  | Ok (code, b) =>
      code = 200%Z ∧ volume_backup_has_valid_resource (volume_row b) = false
      ∧ validate_cron_expression (@a_cron_error sample_refs) (vo_cron_expression b) ≠ Ok tt
  | Err _ => False
  end.
Proof. by vm_compute. Qed.

(** The schedule of a database job is not checked either. *)
Example schedule_is_not_checked :
  match (@create_database_backup good_rows sample_refs
           (mkCreateBackup "shop-two" "never" "shop" "p" None None "DATABASE" "POSTGRES" None None (Some 3%Z) None None None None None 1 1)
           sample_api).2 with
  | Ok (code, b) => code = 201%Z ∧ validate_cron_expression (@a_cron_error sample_refs) (ba_schedule b) ≠ Ok tt
  | Err _ => False
  end.
Proof. by vm_compute. Qed.

(** ** The stream of a restore *)

(** The stream reports every poll up to the first final status and nothing after it. *)
Theorem restore_stream_ends_at_the_first_final_status error_text restore_id ticks :
  let statuses := map (λ t, polled error_text t.1 restore_id t.2) ticks in
  ∃ rest, statuses = restore_status_stream error_text restore_id false ticks ++ rest
  ∧ (∀ d, d ∈ removelast (restore_status_stream error_text restore_id false ticks) → is_final (rs_restore_status d) = false)
  ∧ (rest ≠ [] → ∃ d, last (restore_status_stream error_text restore_id false ticks) = Some d ∧ is_final (rs_restore_status d) = true).
Proof.
  induction ticks as [|[now poll] ticks (rest & Heq & Hnot & Hlast)]; [exists []; split_and!; [done|by intros ? ?%elem_of_nil|done]|].
  cbn [restore_status_stream map fst snd]. set (d := polled error_text now restore_id poll).
  destruct (is_final (rs_restore_status d)) eqn:Ef.
  - assert (Hnil : restore_status_stream error_text restore_id true ticks = []) by (by destruct ticks as [|[]]).
    rewrite Hnil. eexists. split; [done|]. split; [set_solver|]. by exists d.
  - exists rest. split; [simpl; by f_equal|]. split.
    + intros d'. destruct (restore_status_stream error_text restore_id false ticks); [set_solver|].
      change (removelast (?x :: ?y :: ?l)) with (x :: removelast (y :: l)). rewrite elem_of_cons. intros [->|]; [done|by apply Hnot].
    + intros (d' & Hd & ?)%Hlast. exists d'. split; [|done]. by rewrite last_cons, Hd.
Qed.
