(* ===== verification/Vault.v ===== *)
(** * Vault providers

    [services/vault], [db/repository/vault_providers.rs] and migration 0045: the providers of an
    organization, the requests that read their secrets, and the replacement of references
    [${{vault.provider.path}}] in an environment text.  HTTP, the AWS client, percent-encoding,
    base64 and JSON text are parameters; what a provider answers does not change during a call.
    The replacement is a loop that looks for a reference in the text it has produced so far:
    [references_are_substituted] says when it is one substitution, [resolution_ends] when it
    ends, and [self_reference_never_ends] that it need not. *)

From stdpp Require Import gmap strings list.
From Stdlib Require Import ZArith Lia Ascii.
From S2P Require Import Prelude RustStr RustText JsonValue StringEnum Sql.

(** ** Data *)

Inductive VaultProviderType := Hashicorp | Infisical | Doppler | Aws | Scaleway | Azure.
#[export] Instance VaultProviderType_eq_dec : EqDecision VaultProviderType.
Proof. solve_decision. Defined.
#[export] Instance VaultProviderType_enum : StringEnum VaultProviderType := {|
  enum_table := [(Hashicorp, "HASHICORP"); (Infisical, "INFISICAL"); (Doppler, "DOPPLER");
                 (Aws, "AWS"); (Scaleway, "SCALEWAY"); (Azure, "AZURE")];
  enum_default := Hashicorp;
|}.
#[export] Instance VaultProviderType_laws : StringEnumLaws VaultProviderType.
Proof. enum_laws. Qed.

Record VaultProvider := mkVaultProvider {
  vp_id : Z; vp_name : string; vp_provider_type : string; vp_api_url : string; vp_auth_token : string;
  vp_namespace : option string; vp_config_json : option string; vp_organization_id : Z;
  vp_created_at : Z; vp_updated_at : Z }.

#[export] Instance VaultProvider_schema : Schema VaultProvider := {|
  row_id := vp_id; row_check _ := true; row_conflict _ _ := false |}.
#[export] Instance VaultProvider_laws : SchemaLaws VaultProvider.
Proof. by split. Qed.

Inductive VaultServiceError :=
| VaultNotFound
| VaultDatabase (e : SqlError)
| VaultHttp (e : string)
| ProviderError (msg : string).

Record VaultProviderAssignmentDto := mkAssignment { as_project_id : Z; as_environment_ids : list Z }.
Record VaultProviderDto := mkVaultDto {
  vd_id : Z; vd_name : string; vd_provider_type : VaultProviderType; vd_api_url : string; vd_auth_token : string;
  vd_namespace : option string; vd_config_json : option string; vd_organization_id : Z;
  vd_created_at : Z; vd_updated_at : Z; vd_assignments : list VaultProviderAssignmentDto }.
Record CreateVaultProviderDto := mkCreateVault {
  cv_name : string; cv_provider_type : VaultProviderType; cv_api_url : string; cv_auth_token : string;
  cv_namespace : option string; cv_config_json : option string; cv_assignments : list VaultProviderAssignmentDto }.
Record UpdateVaultProviderDto := mkUpdateVault {
  uv_name : option string; uv_api_url : option string; uv_auth_token : option string; uv_namespace : option string;
  uv_config_json : option string; uv_assignments : option (list VaultProviderAssignmentDto) }.
Record VaultTestResultDto := mkVaultTest { vt_success : bool; vt_message : string }.

(** ** The world outside *)

Record AwsClient := mkAws {
  aws_region : string; aws_access_key : string; aws_secret_key : string; aws_endpoint : option string }.

Class VaultWorld := {
  http : Request → result Response string;
  status_text : Z → string;                                         (* [{status}] *)
  url_encode : string → string;                                     (* [urlencoding::encode] *)
  base64_text : string → result string string;                      (* decoded, as UTF-8 *)
  not_a_map : string;                                               (* a body that is no object *)
  aws_list_secrets : AwsClient → nat → option string → result (list (option string) * option string) string;
  aws_get_secret : AwsClient → string → result (option string) string;
}.

Definition quote_char : ascii := ascii_of_N 34.
Definition apostrophe : ascii := "'"%char.
Definition colon : ascii := ":"%char.
Definition slash_char : ascii := "/"%char.
Definition dot_char : ascii := "."%char.

(** [trim], then [trim_matches] of the two quotes *)
Definition clean_token (token : string) : string :=
  trim_matches_char apostrophe (trim_matches_char quote_char (trim token)).
Definition clean_url (url : string) : string := trim_end_char slash_char url.

Section world.
Context `{JsonText, VaultWorld}.

(** ** [config.rs] *)

Definition config_value (raw : option string) : option JValue := raw ≫= json_parse.
(** [field] *)
Definition config_field (raw : option string) (key : string) : option string :=
  v ← config_value raw; s ← as_str_value (at_key key v);
  if str_is_empty (trim s) then None else Some (trim s).
Definition encode_path (path : string) : string :=
  join "/" (map url_encode (split_on (is_char slash_char) path)).

(** ** HTTP *)

Definition send (rq : Request) : result Response VaultServiceError :=
  match http rq with Ok rs => Ok rs | Err e => Err (VaultHttp e) end.
Definition body_json (rs : Response) : result JValue VaultServiceError :=
  match rs_json rs with Ok v => Ok v | Err e => Err (VaultHttp e) end.
Definition provider_check (ok : bool) (msg : string) : result unit VaultServiceError :=
  if ok then Ok tt else Err (ProviderError msg).

(** ** HashiCorp Vault *)

Definition hashicorp_headers (token : string) (namespace : option string) : list (string * string) :=
  ("X-Vault-Token", token)
  :: match namespace with
     | Some ns => if negb (str_is_empty (trim ns)) then [("X-Vault-Namespace", trim ns)] else []
     | None => []
     end.

Definition fetch_hashicorp_secret (api_url auth_token : string) (namespace config_json : option string)
    (path_and_key : string) : result string VaultServiceError :=
  match rsplit_once colon path_and_key with
  | Some (path, field) =>
      if str_is_empty path || str_is_empty field then
        Err (ProviderError ("Invalid HashiCorp Vault reference '" +:+ path_and_key +:+ "': expected <path>:<field>"))
      else
        let mount := default "secret" (config_field config_json "mount") in
        let url := clean_url api_url +:+ "/v1/" +:+ url_encode mount +:+ "/data/" +:+ encode_path path in
        let? res := send (mkRequest GET url [] (hashicorp_headers (clean_token auth_token) namespace) NoBody) in
        let? _ := provider_check (is_success (rs_status res))
          ("HashiCorp Vault: failed to read secret at '" +:+ path +:+ "' (status " +:+ status_text (rs_status res) +:+ ")") in
        let? json := body_json res in
        let value := at_key field (at_key "data" (at_key "data" json)) in
        if is_null value then
          Err (ProviderError ("HashiCorp Vault: field '" +:+ field +:+ "' not found in secret '" +:+ path +:+ "'"))
        else Ok (text_of value)
  | None => Err (ProviderError ("Invalid HashiCorp Vault reference '" +:+ path_and_key +:+ "': expected <path>:<field>"))
  end.

Definition test_hashicorp_credentials (api_url auth_token : string) (namespace : option string)
    : result VaultTestResultDto VaultServiceError :=
  let token := clean_token auth_token in
  if str_is_empty token then Ok (mkVaultTest false "HashiCorp Vault token is required")
  else
    let? res := send (mkRequest GET (clean_url api_url +:+ "/v1/auth/token/lookup-self") []
                        (hashicorp_headers token namespace) NoBody) in
    if is_success (rs_status res) then Ok (mkVaultTest true "HashiCorp Vault: token validated successfully!")
    else Ok (mkVaultTest false ("HashiCorp Vault: token validation failed (status " +:+ status_text (rs_status res) +:+ ")")).

Definition list_hashicorp_secrets (api_url auth_token : string) (namespace config_json : option string)
    : result (list string) VaultServiceError :=
  let mount := default "secret" (config_field config_json "mount") in
  let url := clean_url api_url +:+ "/v1/" +:+ url_encode mount +:+ "/metadata?list=true" in
  let? res := send (mkRequest GET url [] (hashicorp_headers (clean_token auth_token) namespace) NoBody) in
  let? _ := provider_check (is_success (rs_status res))
    ("HashiCorp Vault: cannot list secrets (status " +:+ status_text (rs_status res) +:+ ")") in
  let? json := body_json res in
  match as_array (at_key "keys" (at_key "data" json)) with
  | Some keys => Ok (omap as_str_value keys)
  | None => Err (ProviderError "HashiCorp Vault returned an invalid secret list")
  end.

(** ** Doppler *)

Definition download_doppler_secrets (auth_token : string) (config_json : option string)
    : result Members VaultServiceError :=
  let token := clean_token auth_token in
  let? _ := provider_check (negb (str_is_empty token)) "Doppler Service Token is required" in
  let query := ("format", "json")
    :: match config_field config_json "project" with Some p => [("project", p)] | None => [] end
    ++ match config_field config_json "config" with Some c => [("config", c)] | None => [] end in
  let? res := send (mkRequest GET "https://api.doppler.com/v3/configs/config/secrets/download" query [bearer token] NoBody) in
  let? _ := provider_check (is_success (rs_status res))
    ("Doppler: failed to fetch secrets (status " +:+ status_text (rs_status res) +:+ ")") in
  let? json := body_json res in
  match json with VObject o => Ok o | _ => Err (VaultHttp not_a_map) end.

Definition fetch_doppler_secret (auth_token : string) (config_json : option string) (secret_name : string)
    : result string VaultServiceError :=
  let? secrets := download_doppler_secrets auth_token config_json in
  match member secret_name secrets ≫= as_str_value with
  | Some v => Ok v
  | None => Err (ProviderError ("Doppler: secret '" +:+ secret_name +:+ "' not found in this config"))
  end.

Definition test_doppler_credentials (auth_token : string) (config_json : option string)
    : result VaultTestResultDto VaultServiceError :=
  let token := clean_token auth_token in
  if str_is_empty token then Ok (mkVaultTest false "Doppler Service Token is required")
  else
    let? _ := download_doppler_secrets token config_json in
    Ok (mkVaultTest true "Doppler: secrets configuration verified successfully!").

Definition list_doppler_secrets (auth_token : string) (config_json : option string)
    : result (list string) VaultServiceError :=
  let? secrets := download_doppler_secrets auth_token config_json in Ok (secrets.*1).

(** ** Infisical *)

Definition required_config (raw : option string) (msg : string) : result JValue VaultServiceError :=
  match config_value raw with Some v => Ok v | None => Err (ProviderError msg) end.

Definition infisical_keys : list string := ["siteUrl"; "clientId"; "clientSecret"; "projectId"; "environmentSlug"].
Definition infisical_config (config_json : option string) : result JValue VaultServiceError :=
  let? value := required_config config_json "Infisical config is required" in
  match List.find (λ key, str_is_empty (str_at key "" value) && negb (bool_decide (key = "siteUrl"))) infisical_keys with
  | Some key => Err (ProviderError ("Infisical config field '" +:+ key +:+ "' is required"))
  | None => Ok value
  end.

Definition add_infisical_secret (out : Members) (item : JValue) : Members :=
  match as_str_value (at_key "secretKey" item), as_str_value (at_key "secretValue" item) with
  | Some k, Some v => put k (VString v) out
  | _, _ => out
  end.

Definition infisical_secrets (config_json : option string) : result Members VaultServiceError :=
  let? c := infisical_config config_json in
  let base := clean_url (str_at "siteUrl" "https://app.infisical.com" c) in
  let login_body := VObject [("clientId", at_key "clientId" c); ("clientSecret", at_key "clientSecret" c)] in
  let? login := send (mkRequest POST (base +:+ "/api/v1/auth/universal-auth/login") [] [] (JsonBody login_body)) in
  let? body := body_json login in
  let? _ := provider_check (is_success (rs_status login))
    ("Infisical authentication failed (status " +:+ status_text (rs_status login) +:+ ")") in
  match as_str_value (at_key "accessToken" body) with
  | None => Err (ProviderError "Infisical: no access token returned")
  | Some token =>
      let query := [("workspaceId", str_at "projectId" "" c); ("environment", str_at "environmentSlug" "" c);
                    ("secretPath", str_at "secretPath" "/" c)] in
      let? response := send (mkRequest GET (base +:+ "/api/v3/secrets/raw") query [bearer token] NoBody) in
      let? payload := body_json response in
      let? _ := provider_check (is_success (rs_status response))
        ("Infisical: failed to fetch secrets (status " +:+ status_text (rs_status response) +:+ ")") in
      Ok (foldl add_infisical_secret [] (elements (at_key "secrets" payload)))
  end.

Definition fetch_infisical_secret (config : option string) (name : string) : result string VaultServiceError :=
  let? secrets := infisical_secrets config in
  match member name secrets ≫= as_str_value with
  | Some v => Ok v
  | None => Err (ProviderError ("Infisical: secret '" +:+ name +:+ "' not found"))
  end.
Definition test_infisical (config : option string) : result VaultTestResultDto VaultServiceError :=
  let? _ := infisical_secrets config in Ok (mkVaultTest true "Infisical: credentials verified successfully").
Definition list_infisical (config : option string) : result (list string) VaultServiceError :=
  let? secrets := infisical_secrets config in Ok (secrets.*1).

(** ** Azure Key Vault *)

Definition azure_token (config : option string) : result (JValue * string) VaultServiceError :=
  let? c := required_config config "Azure config is required" in
  let body := "grant_type=client_credentials&client_id=" +:+ url_encode (str_at "clientId" "" c)
    +:+ "&client_secret=" +:+ url_encode (str_at "clientSecret" "" c)
    +:+ "&scope=https%3A%2F%2Fvault.azure.net%2F.default" in
  let url := "https://login.microsoftonline.com/" +:+ url_encode (str_at "tenantId" "" c) +:+ "/oauth2/v2.0/token" in
  let? response := send (mkRequest POST url [] [("content-type", "application/x-www-form-urlencoded")] (TextBody body)) in
  let? data := body_json response in
  let? _ := provider_check (is_success (rs_status response))
    ("Azure authentication failed (status " +:+ status_text (rs_status response) +:+ ")") in
  Ok (c, str_at "access_token" "" data).

(** [rsplit('/').next()] *)
Definition last_segment (s : string) : string :=
  match rsplit_once slash_char s with Some (_, b) => b | None => s end.

Definition azure_secrets (config : option string) : result (list string) VaultServiceError :=
  let? (c, t) := azure_token config in
  let url := clean_url (str_at "vaultUri" "" c) +:+ "/secrets?api-version=7.4&maxresults=100" in
  let? r := send (mkRequest GET url [] [bearer t] NoBody) in
  let? d := body_json r in
  let? _ := provider_check (is_success (rs_status r))
    ("Azure Key Vault list failed (status " +:+ status_text (rs_status r) +:+ ")") in
  Ok (omap (λ x, last_segment <$> as_str_value (at_key "id" x)) (elements (at_key "value" d))).

Definition fetch_azure_secret (config : option string) (name : string) : result string VaultServiceError :=
  let? (c, t) := azure_token config in
  let u := clean_url (str_at "vaultUri" "" c) +:+ "/secrets/" +:+ url_encode name +:+ "?api-version=7.4" in
  let? r := send (mkRequest GET u [] [bearer t] NoBody) in
  let? d := body_json r in
  let? _ := provider_check (is_success (rs_status r))
    ("Azure secret '" +:+ name +:+ "' unavailable (status " +:+ status_text (rs_status r) +:+ ")") in
  Ok (str_at "value" "" d).
Definition test_azure (config : option string) : result VaultTestResultDto VaultServiceError :=
  let? _ := azure_secrets config in Ok (mkVaultTest true "Azure Key Vault verified successfully").
Definition list_azure (config : option string) : result (list string) VaultServiceError := azure_secrets config.

(** ** Scaleway Secret Manager *)

Definition scaleway_base (c : JValue) : string :=
  clean_url (str_at "apiUrl" "https://api.scaleway.com" c) +:+ "/secret-manager/v1beta1/regions/"
  +:+ str_at "region" "fr-par" c.
Definition scaleway_auth (c : JValue) : list (string * string) := [("X-Auth-Token", str_at "secretKey" "" c)].

Definition scaleway_secrets (config : option string) : result (list string) VaultServiceError :=
  let? c := required_config config "Scaleway config is required" in
  let? r := send (mkRequest GET (scaleway_base c +:+ "/secrets")
                    [("project_id", str_at "projectId" "" c); ("page_size", "100")] (scaleway_auth c) NoBody) in
  let? d := body_json r in
  let? _ := provider_check (is_success (rs_status r))
    ("Scaleway Secret Manager failed (status " +:+ status_text (rs_status r) +:+ ")") in
  Ok (omap (λ x, as_str_value (at_key "name" x)) (elements (at_key "secrets" d))).

Definition fetch_scaleway_secret (config : option string) (name : string) : result string VaultServiceError :=
  let? c := required_config config "Scaleway config is required" in
  let? r := send (mkRequest GET (scaleway_base c +:+ "/secrets-by-path/versions/latest_enabled/access")
                    [("project_id", str_at "projectId" "" c); ("secret_name", name); ("secret_path", "/")]
                    (scaleway_auth c) NoBody) in
  let? d := body_json r in
  let? _ := provider_check (is_success (rs_status r))
    ("Scaleway secret '" +:+ name +:+ "' unavailable (status " +:+ status_text (rs_status r) +:+ ")") in
  match as_str_value (at_key "data" d) with
  | None => Err (ProviderError "Scaleway secret has no value")
  | Some raw => match base64_text raw with Ok v => Ok v | Err e => Err (ProviderError e) end
  end.
Definition test_scaleway (config : option string) : result VaultTestResultDto VaultServiceError :=
  let? _ := scaleway_secrets config in Ok (mkVaultTest true "Scaleway Secret Manager verified successfully").
Definition list_scaleway (config : option string) : result (list string) VaultServiceError := scaleway_secrets config.

(** ** AWS Secrets Manager *)

Definition aws_client (config : option string) : result AwsClient string :=
  match config_value config with
  | None => Err "AWS Secrets Manager config is required"
  | Some value =>
      let region := trim (str_at "region" "" value) in
      let access_key := trim (str_at "accessKeyId" "" value) in
      let secret_key := trim (str_at "secretAccessKey" "" value) in
      if str_is_empty region || str_is_empty access_key || str_is_empty secret_key
      then Err "AWS region, accessKeyId and secretAccessKey are required"
      else
        let endpoint := e ← as_str_value (at_key "endpoint" value);
                        if str_is_empty (trim e) then None else Some (trim e) in
        Ok (mkAws region access_key secret_key endpoint)
  end.

Definition parse_reference (reference : string) : result (string * option string) string :=
  if starts_with "arn:" reference
  then Err "AWS Secrets Manager references must use the secret name, not an ARN"
  else Ok match rsplit_once colon reference with
          | Some (name, field) => (name, Some field)
          | None => (reference, None)
          end.

Definition aws_test (config : option string) : result VaultTestResultDto string :=
  let? client := aws_client config in
  match aws_list_secrets client 1 None with
  | Ok _ => Ok (mkVaultTest true "AWS Secrets Manager verified successfully")
  | Err e => Err ("AWS Secrets Manager authentication failed: " +:+ e)
  end.

(** The pages; [None]: the fuel ran out *)
Fixpoint aws_pages (fuel : nat) (client : AwsClient) (token : option string) (secrets : list string)
    : option (result (list string) string) :=
  match fuel with
  | O => None
  | S fuel' =>
      match aws_list_secrets client 100 token with
      | Err e => Some (Err ("AWS Secrets Manager list failed: " +:+ e))
      | Ok (page, next) =>
          let secrets := secrets ++ omap id page in
          if bool_decide (next = None) || (500 <=? length secrets)%nat then Some (Ok (take 500 secrets))
          else aws_pages fuel' client next secrets
      end
  end.
Definition aws_list (fuel : nat) (config : option string) : option (result (list string) string) :=
  match aws_client config with
  | Err e => Some (Err e)
  | Ok client => aws_pages fuel client None []
  end.

Definition aws_fetch (config : option string) (reference : string) : result string string :=
  let? (secret_id, field) := parse_reference reference in
  let? client := aws_client config in
  match aws_get_secret client secret_id with
  | Err e => Err ("AWS Secrets Manager failed to read '" +:+ secret_id +:+ "': " +:+ e)
  | Ok None => Err ("AWS secret '" +:+ secret_id +:+ "' is binary; binary secrets are not supported")
  | Ok (Some value) =>
      match field with
      | None => Ok value
      | Some field =>
          match json_parse value with
          | None => Err ("AWS secret '" +:+ secret_id +:+ "' is not JSON, cannot extract '" +:+ field +:+ "'")
          | Some json =>
              let selected := at_key field json in
              if is_null selected then Err ("AWS field '" +:+ field +:+ "' not found in secret '" +:+ secret_id +:+ "'")
              else Ok (text_of selected)
          end
      end
  end.

(** ** [dispatch.rs] *)

Definition provider_type_of (p : VaultProvider) : VaultProviderType := from (vp_provider_type p).
Definition as_provider_error {A} (r : result A string) : result A VaultServiceError :=
  match r with Ok a => Ok a | Err e => Err (ProviderError e) end.

Definition test_provider (t : VaultProviderType) (api_url token : string) (namespace config : option string)
    : result VaultTestResultDto VaultServiceError :=
  match t with
  | Hashicorp => test_hashicorp_credentials api_url token namespace
  | Doppler => test_doppler_credentials token config
  | Infisical => test_infisical config
  | Azure => test_azure config
  | Scaleway => test_scaleway config
  | Aws => as_provider_error (aws_test config)
  end.
Definition test_credentials (t : VaultProviderType) (api_url auth_token : string) (namespace config : option string)
    : result VaultTestResultDto VaultServiceError :=
  test_provider t (clean_url api_url) (clean_token auth_token) namespace config.

(** The names of a provider's secrets; [None]: the fuel of the AWS pages ran out *)
Definition list_provider_secrets (fuel : nat) (p : VaultProvider) : option (result (list string) VaultServiceError) :=
  match provider_type_of p with
  | Hashicorp => Some (list_hashicorp_secrets (vp_api_url p) (vp_auth_token p) (vp_namespace p) (vp_config_json p))
  | Doppler => Some (list_doppler_secrets (vp_auth_token p) (vp_config_json p))
  | Infisical => Some (list_infisical (vp_config_json p))
  | Azure => Some (list_azure (vp_config_json p))
  | Scaleway => Some (list_scaleway (vp_config_json p))
  | Aws => as_provider_error <$> aws_list fuel (vp_config_json p)
  end.

(** The value of a reference, by the type of its provider *)
Definition fetch_secret (p : VaultProvider) (ref_path : string) : result string VaultServiceError :=
  match provider_type_of p with
  | Doppler => fetch_doppler_secret (vp_auth_token p) (vp_config_json p) ref_path
  | Hashicorp => fetch_hashicorp_secret (vp_api_url p) (vp_auth_token p) (vp_namespace p) (vp_config_json p) ref_path
  | Infisical => fetch_infisical_secret (vp_config_json p) ref_path
  | Azure => fetch_azure_secret (vp_config_json p) ref_path
  | Scaleway => fetch_scaleway_secret (vp_config_json p) ref_path
  | Aws => as_provider_error (aws_fetch (vp_config_json p) ref_path)
  end.

(** ** Assignments inside the configuration *)

Definition i64s_of_json (v : JValue) : option (list Z) := l ← as_array v; mapM as_i64_value l.
(** The derived [Deserialize]: an object with both members, or an array of the two *)
Definition assignment_of_json (v : JValue) : option VaultProviderAssignmentDto :=
  match v with
  | VObject o => p ← member "project_id" o ≫= as_i64_value; es ← member "environment_ids" o ≫= i64s_of_json;
                 Some (mkAssignment p es)
  | VArray [p; es] => p ← as_i64_value p; es ← i64s_of_json es; Some (mkAssignment p es)
  | _ => None
  end.
Definition assignments_of_json (v : JValue) : option (list VaultProviderAssignmentDto) :=
  l ← as_array v; mapM assignment_of_json l.

Definition assignment_to_json (a : VaultProviderAssignmentDto) : JValue :=
  VObject [("environment_ids", VArray (map json_int (as_environment_ids a))); ("project_id", json_int (as_project_id a))].
Definition assignments_to_json (l : list VaultProviderAssignmentDto) : JValue := VArray (map assignment_to_json l).

Definition read_assignments (raw : option string) : list VaultProviderAssignmentDto :=
  default [] (v ← config_value raw; assignments_of_json (at_key "_assignments" v)).
Definition merge_assignments (raw : option string) (assignments : list VaultProviderAssignmentDto) : option string :=
  match default (VObject []) (config_value raw) with
  | VObject o => Some (json_print (VObject (put "_assignments" (assignments_to_json assignments) o)))
  | value => Some (json_print (VObject [("_assignments", assignments_to_json assignments); ("_provider_config", value)]))
  end.

(** ** The repository *)

Definition newest_provider_first (a b : VaultProvider) : bool := (vp_created_at b <=? vp_created_at a)%Z.
Definition vault_get_all (t : Table VaultProvider) : list VaultProvider := sql_order_by newest_provider_first (rows t).
Definition vault_list_by_organization (org : Z) (t : Table VaultProvider) : list VaultProvider :=
  sql_order_by newest_provider_first (sql_select (λ p, vp_organization_id p =? org)%Z t).
Definition vault_get_by_id (id : Z) (t : Table VaultProvider) : option VaultProvider := sql_first (λ p, vp_id p =? id)%Z t.

Definition with_vault_id (id : Z) (p : VaultProvider) : VaultProvider :=
  mkVaultProvider id (vp_name p) (vp_provider_type p) (vp_api_url p) (vp_auth_token p) (vp_namespace p)
    (vp_config_json p) (vp_organization_id p) (vp_created_at p) (vp_updated_at p).
Definition vault_create (org_exists : Z → bool) (item : VaultProvider) (t : Table VaultProvider) :=
  sql_insert (λ p, org_exists (vp_organization_id p)) (λ id, with_vault_id id item) t.
Definition vault_set (item p : VaultProvider) : VaultProvider :=
  mkVaultProvider (vp_id p) (vp_name item) (vp_provider_type item) (vp_api_url item) (vp_auth_token item)
    (vp_namespace item) (vp_config_json item) (vp_organization_id p) (vp_created_at p) (vp_updated_at item).
Definition vault_update (id : Z) (item : VaultProvider) (t : Table VaultProvider) :=
  sql_update no_fk (λ p, (vp_id p =? id) && (vp_organization_id p =? vp_organization_id item))%Z (vault_set item) t.
Definition vault_delete (id org : Z) (t : Table VaultProvider) : Table VaultProvider * bool :=
  let '(t', n) := sql_delete (λ p, (vp_id p =? id) && (vp_organization_id p =? org))%Z t in (t', (0 <? n)%nat).

(** ** The service *)

Definition VaultM := SE (Table VaultProvider) VaultServiceError.
Definition vault_sql {A} (r : Table VaultProvider → result (Table VaultProvider * A) SqlError) : VaultM A := λ t,
  match r t with Ok (t', a) => (t', Ok a) | Err e => (t, Err (VaultDatabase e)) end.
Definition vault_get (id org : Z) : VaultM VaultProvider := λ t,
  match vault_get_by_id id t with
  | Some p => if (vp_organization_id p =? org)%Z then (t, Ok p) else (t, Err VaultNotFound)
  | None => (t, Err VaultNotFound)
  end.

Definition VAULT_MASK_TOKEN : string := "••••••••".

Definition vault_into_dto (p : VaultProvider) : VaultProviderDto :=
  mkVaultDto (vp_id p) (vp_name p) (provider_type_of p) (vp_api_url p)
    (if str_is_empty (vp_auth_token p) then "" else VAULT_MASK_TOKEN) (vp_namespace p) (vp_config_json p)
    (vp_organization_id p) (vp_created_at p) (vp_updated_at p) (read_assignments (vp_config_json p)).

Definition list_providers (org : Z) : VaultM (list VaultProviderDto) := λ t,
  (t, Ok (map vault_into_dto (vault_list_by_organization org t))).
Definition get_provider (id org : Z) : VaultM VaultProviderDto :=
  (do! p := vault_get id org in ret (vault_into_dto p))%rust.

Definition create_provider (org_exists : Z → bool) (now org : Z) (body : CreateVaultProviderDto) : VaultM VaultProviderDto :=
  (let provider := mkVaultProvider 0 (cv_name body) (as_str (cv_provider_type body)) (clean_url (cv_api_url body))
      (cv_auth_token body) (cv_namespace body) (merge_assignments (cv_config_json body) (cv_assignments body)) org now now in
   do! id := vault_sql (vault_create org_exists provider) in
   λ t, match vault_get_by_id id t with
        | Some created => (t, Ok (vault_into_dto created))
        | None => (t, Err VaultNotFound)
        end)%rust.

Definition vault_edit (now : Z) (body : UpdateVaultProviderDto) (p : VaultProvider) : VaultProvider :=
  let config :=
    match uv_config_json body with
    | Some c => merge_assignments (Some c) (read_assignments (vp_config_json p))
    | None => vp_config_json p
    end in
  let config := match uv_assignments body with Some a => merge_assignments config a | None => config end in
  mkVaultProvider (vp_id p) (default (vp_name p) (uv_name body)) (vp_provider_type p)
    (match uv_api_url body with Some u => clean_url u | None => vp_api_url p end)
    (match uv_auth_token body with
     | Some t => if negb (bool_decide (t = VAULT_MASK_TOKEN)) && negb (str_is_empty (trim t)) then t else vp_auth_token p
     | None => vp_auth_token p
     end)
    (match uv_namespace body with Some n => Some n | None => vp_namespace p end)
    config (vp_organization_id p) (vp_created_at p) now.

Definition update_provider (now id org : Z) (body : UpdateVaultProviderDto) : VaultM VaultProviderDto :=
  (do! existing := vault_get id org in
   let existing := vault_edit now body existing in
   do! _ := vault_sql (vault_update id existing) in
   ret (vault_into_dto existing))%rust.

Definition delete_provider (id org : Z) : VaultM bool := λ t, let '(t', b) := vault_delete id org t in (t', Ok b).

Definition get_assignments (id org : Z) : VaultM (list VaultProviderAssignmentDto) :=
  (do! p := vault_get id org in ret (read_assignments (vp_config_json p)))%rust.
Definition set_assignments (now id org : Z) (assignments : list VaultProviderAssignmentDto)
    : VaultM (list VaultProviderAssignmentDto) :=
  (do! p := vault_get id org in
   let p := mkVaultProvider (vp_id p) (vp_name p) (vp_provider_type p) (vp_api_url p) (vp_auth_token p) (vp_namespace p)
              (merge_assignments (vp_config_json p) assignments) (vp_organization_id p) (vp_created_at p) now in
   do! _ := vault_sql (vault_update id p) in
   ret assignments)%rust.

Definition test_connection (id org : Z) : VaultM VaultTestResultDto :=
  (do! p := vault_get id org in
   of_result (test_provider (provider_type_of p) (vp_api_url p) (vp_auth_token p) (vp_namespace p) (vp_config_json p)))%rust.
Definition list_secret_names (fuel : nat) (id org : Z) (t : Table VaultProvider)
    : option (result (list string) VaultServiceError) :=
  match (vault_get id org t).2 with
  | Ok p => list_provider_secrets fuel p
  | Err e => Some (Err e)
  end.

(** ** [resolution.rs] *)

Definition vault_prefix : string := "${{vault.".
Definition vault_suffix : string := "}}".

(** [find]: what is before and after the first occurrence *)
Fixpoint find_str (pat s : string) : option (string * string) :=
  match strip_prefix pat s with
  | Some r => Some ("", r)
  | None =>
      match s with
      | EmptyString => None
      | String c s' => '(a, r) ← find_str pat s'; Some (String c a, r)
      end
  end.

(** The map from names to providers: of two providers with one name, the later one *)
Definition provider_map (ps : list VaultProvider) (name : string) : option VaultProvider :=
  last (List.filter (λ p, bool_decide (vp_name p = name)) ps).

Inductive Turn :=
| Done (text : string)
| Again (text : string)
| Failed (e : VaultServiceError).

(** One turn of the [while let] loop *)
Definition resolve_turn (secret : string → string → result string VaultServiceError) (resolved : string) : Turn :=
  match find_str vault_prefix resolved with
  | None => Done resolved
  | Some (_, rest) =>
      match find_str vault_suffix rest with
      | None => Done resolved
      | Some (inner, _) =>
          let full_ref := vault_prefix +:+ inner +:+ vault_suffix in
          match split_once dot_char inner with
          | None => Failed (ProviderError ("Invalid vault reference: " +:+ full_ref))
          | Some (provider_name, ref_path) =>
              match secret provider_name ref_path with
              | Ok val => Again (replace full_ref val resolved)
              | Err e => Failed e
              end
          end
      end
  end.

Fixpoint resolve_loop (secret : string → string → result string VaultServiceError) (fuel : nat) (resolved : string)
    : option (result string VaultServiceError) :=
  match fuel with
  | O => None
  | S fuel' =>
      match resolve_turn secret resolved with
      | Done text => Some (Ok text)
      | Failed e => Some (Err e)
      | Again text => resolve_loop secret fuel' text
      end
  end.

Definition secret_of (ps : list VaultProvider) (provider_name ref_path : string) : result string VaultServiceError :=
  match provider_map ps provider_name with
  | Some p => fetch_secret p ref_path
  | None => Err (ProviderError ("Vault provider '" +:+ provider_name +:+ "' not found"))
  end.

Definition resolve_vault_references (fuel : nat) (raw_env : string) (org : Z) (t : Table VaultProvider)
    : option (result string VaultServiceError) :=
  if negb (contains vault_prefix raw_env) then Some (Ok raw_env)
  else resolve_loop (secret_of (vault_list_by_organization org t)) fuel raw_env.
End world.

(** ** Texts with references

    A text as pieces: literal text in which no reference starts, and references. *)

Inductive Piece := Lit (s : string) | Ref (provider path : string).
#[export] Instance Piece_eq_dec : EqDecision Piece.
Proof. solve_decision. Defined.

Definition dollar : ascii := "$"%char.
Definition open_brace : ascii := "{"%char.
Definition close_brace : ascii := "}"%char.
Definition lacks (c : ascii) (s : string) : bool := forallb (λ d, negb (is_char c d)) (chars s).

Definition render_piece (p : Piece) : string :=
  match p with
  | Lit s => s
  | Ref provider path => vault_prefix +:+ (provider +:+ String dot_char path) +:+ vault_suffix
  end.
Fixpoint render (ps : list Piece) : string :=
  match ps with [] => "" | p :: ps => render_piece p +:+ render ps end.

(** The text after a [$] does not begin with two opening braces, nor could it with what follows. *)
Definition no_braces (s : string) : bool :=
  match s with
  | EmptyString => false
  | String d s' =>
      negb (is_char open_brace d) || match s' with String e _ => negb (is_char open_brace e) | EmptyString => false end
  end.
(** No [${{] is in the text, and none of its beginnings is at the end. *)
Fixpoint quiet (s : string) : bool :=
  match s with
  | EmptyString => true
  | String c s' => (negb (is_char dollar c) || no_braces s') && quiet s'
  end.

Definition piece_ok (p : Piece) : bool :=
  match p with
  | Lit s => quiet s
  | Ref provider path =>
      lacks dot_char provider && lacks close_brace provider && lacks dollar provider
      && lacks close_brace path && lacks dollar path
  end.

Section substitution.
Variable secret : string → string → result string VaultServiceError.

(** The specification: every reference is replaced by its value, once; the first that has none
    is the error *)
Fixpoint expand (ps : list Piece) : result string VaultServiceError :=
  match ps with
  | [] => Ok ""
  | Lit s :: ps' => (let? t := expand ps' in Ok (s +:+ t))%rust
  | Ref provider path :: ps' => (let? v := secret provider path in let? t := expand ps' in Ok (v +:+ t))%rust
  end.

Definition is_ref (p : Piece) : bool := match p with Ref _ _ => true | Lit _ => false end.
Definition refs (ps : list Piece) : nat := length (List.filter is_ref ps).
Definition settle (r : Piece) (v : string) (ps : list Piece) : list Piece :=
  map (λ p, if decide (p = r) then Lit v else p) ps.
End substitution.

(** *** Lemmas on texts *)

Lemma lacks_spec c s : lacks c s = true ↔ c ∉ chars s.
Proof.
  unfold lacks. rewrite forallb_forall. split.
  - intros Hs Hc. apply list_elem_of_In in Hc. specialize (Hs c Hc). by rewrite is_char_refl in Hs.
  - intros Hs d Hd. apply negb_true_iff, is_char_false. intros ->. by apply Hs, list_elem_of_In.
Qed.

Lemma lacks_cons c d s : lacks c (String d s) = negb (is_char c d) && lacks c s.
Proof. done. Qed.
Lemma lacks_app c a b : lacks c (a +:+ b) = lacks c a && lacks c b.
Proof. unfold lacks. by rewrite chars_app, forallb_app. Qed.

Lemma lacks_quiet s : lacks dollar s = true → quiet s = true.
Proof.
  induction s as [|c s IH]; [done|]. rewrite lacks_cons. intros [Hc Hs]%andb_true_iff.
  simpl. by rewrite Hc, IH.
Qed.

Lemma starts_with_cons a b pat s :
  starts_with (String a pat) (String b s) = is_char a b && starts_with pat s.
Proof.
  unfold starts_with, is_char. simpl. destruct (ascii_dec a b) as [->|Hne].
  - by rewrite bool_decide_true.
  - by rewrite bool_decide_false.
Qed.

(** A pattern that begins with [${{] does not begin inside quiet text. *)
Definition opening (pat : string) : string := String dollar (String open_brace (String open_brace pat)).
Lemma quiet_no_match c s t pat : quiet (String c s) = true → starts_with (opening pat) (String c s +:+ t) = false.
Proof.
  unfold opening. change (String c s +:+ t) with (String c (s +:+ t)). rewrite starts_with_cons.
  simpl. intros [Hc _]%andb_true_iff. destruct (is_char dollar c); [|done]. simpl in Hc.
  destruct s as [|d s]; [done|]. change (String d s +:+ t) with (String d (s +:+ t)). rewrite starts_with_cons.
  simpl in Hc. destruct (is_char open_brace d); [|done]. simpl in Hc.
  destruct s as [|e s]; [done|]. change (String e s +:+ t) with (String e (s +:+ t)). rewrite starts_with_cons.
  by destruct (is_char open_brace e).
Qed.

Lemma strip_prefix_starts pat s : starts_with pat s = false → strip_prefix pat s = None.
Proof.
  intros Hs. destruct (strip_prefix pat s) as [r|] eqn:E; [|done].
  apply strip_prefix_spec in E as ->. by rewrite starts_with_app in Hs.
Qed.

Lemma find_str_quiet s t pat :
  quiet s = true →
  find_str (opening pat) (s +:+ t) = ('(a, r) ← find_str (opening pat) t; Some (s +:+ a, r)).
Proof.
  induction s as [|c s IH]; intros Hq.
  - change ("" +:+ t) with t. by destruct (find_str _ t) as [[a r]|].
  - assert (Hq' : quiet s = true) by (simpl in Hq; by apply andb_true_iff in Hq as [_ ?]).
    change (String c s +:+ t) with (String c (s +:+ t)). unfold find_str at 1; fold find_str.
    rewrite strip_prefix_starts by (apply (quiet_no_match c s t pat Hq)).
    rewrite (IH Hq'). by destruct (find_str _ t) as [[a r]|].
Qed.

Lemma find_str_here pat t : find_str pat (pat +:+ t) = Some ("", t).
Proof. destruct (pat +:+ t) eqn:E; unfold find_str; fold find_str; rewrite <- E; by rewrite strip_prefix_app. Qed.

Lemma find_suffix inner t :
  lacks close_brace inner = true → find_str vault_suffix (inner +:+ vault_suffix +:+ t) = Some (inner, t).
Proof.
  induction inner as [|c s IH]; intros Hl; [exact (find_str_here vault_suffix t)|].
  rewrite lacks_cons in Hl. apply andb_true_iff in Hl as [Hc Hs].
  change (String c s +:+ vault_suffix +:+ t) with (String c (s +:+ vault_suffix +:+ t)).
  unfold find_str; fold find_str. rewrite strip_prefix_starts.
  - by rewrite (IH Hs).
  - unfold vault_suffix at 1. rewrite starts_with_cons. by destruct (is_char close_brace c) eqn:E; unfold close_brace in E; rewrite E.
Qed.

(** What a search finds. *)
Lemma find_str_spec pat s a r : find_str pat s = Some (a, r) → s = a +:+ pat +:+ r.
Proof.
  revert a r. induction s as [|c s IH]; intros a r; unfold find_str; fold find_str.
  - destruct (strip_prefix pat "") as [r'|] eqn:E; [|done]. intros [= <- <-]. by apply strip_prefix_spec in E.
  - destruct (strip_prefix pat (String c s)) as [r'|] eqn:E.
    + intros [= <- <-]. by apply strip_prefix_spec in E.
    + destruct (find_str pat s) as [[a' r']|]; [|done]. intros [= <- <-].
      rewrite (IH a' r' eq_refl). done.
Qed.

(** *** Replacement *)

Lemma replace_from_skip a pat v t : replace_from (String.length a) pat v (a +:+ t) = replace pat v t.
Proof.
  induction a as [|c a IH]; [done|]. change (String c a +:+ t) with (String c (a +:+ t)).
  simpl. apply IH.
Qed.

Lemma replace_here pat v t : pat ≠ "" → replace pat v (pat +:+ t) = v +:+ replace pat v t.
Proof.
  destruct pat as [|c pat]; [done|]. intros _. unfold replace at 1.
  change (String c pat +:+ t) with (String c (pat +:+ t)). unfold replace_from; fold replace_from.
  change (String c (pat +:+ t)) with (String c pat +:+ t). rewrite starts_with_app.
  replace (String.length (String c pat) - 1) with (String.length pat) by (simpl; lia).
  by rewrite replace_from_skip.
Qed.

Lemma replace_next pat v c s :
  starts_with pat (String c s) = false → replace pat v (String c s) = String c (replace pat v s).
Proof. intros Hs. unfold replace, replace_from; fold replace_from. by rewrite Hs. Qed.

Lemma replace_quiet s t pat v :
  quiet s = true →
  replace (opening pat) v (s +:+ t) = s +:+ replace (opening pat) v t.
Proof.
  induction s as [|c s IH]; intros Hq; [done|].
  rewrite (replace_next _ v c (s +:+ t)) by exact (quiet_no_match c s t pat Hq).
  simpl in Hq. apply andb_true_iff in Hq as [_ Hq]. by rewrite (IH Hq).
Qed.

(** ** One substitution *)

Definition inner_of (provider path : string) : string := provider +:+ String dot_char path.

Lemma inner_ok provider path :
  piece_ok (Ref provider path) = true →
  split_once dot_char (inner_of provider path) = Some (provider, path)
  ∧ lacks close_brace (inner_of provider path) = true ∧ lacks dollar (inner_of provider path) = true.
Proof.
  unfold inner_of. simpl. rewrite !andb_true_iff. intros ((((Hd & Hb) & Hs) & Hb') & Hs'). split_and!.
  - apply split_once_spec. split; [done|]. by apply lacks_spec.
  - rewrite lacks_app, lacks_cons, Hb, Hb'. done.
  - rewrite lacks_app, lacks_cons, Hs, Hs'. done.
Qed.

(** Two references with the same beginning are the same. *)
Lemma refs_differ i i' t :
  lacks close_brace i = true → lacks close_brace i' = true → i ≠ i' →
  starts_with (vault_prefix +:+ i +:+ vault_suffix) (vault_prefix +:+ i' +:+ vault_suffix +:+ t) = false.
Proof.
  intros Hi Hi' Hne. apply not_true_iff_false. intros [r E]%starts_with_spec.
  rewrite !str_app_assoc in E. apply (f_equal (find_str vault_prefix)) in E. rewrite !find_str_here in E.
  injection E as E. apply (f_equal (find_str vault_suffix)) in E. rewrite !find_suffix in E by done.
  by injection E as -> ->.
Qed.

Definition ref_tail (provider path : string) : string := "vault." +:+ inner_of provider path +:+ vault_suffix.
Lemma render_ref provider path :
  render_piece (Ref provider path) = opening (ref_tail provider path).
Proof. done. Qed.

Lemma replace_other_ref p q p' q' v t :
  piece_ok (Ref p q) = true → piece_ok (Ref p' q') = true → Ref p q ≠ Ref p' q' →
  replace (render_piece (Ref p q)) v (render_piece (Ref p' q') +:+ t)
  = render_piece (Ref p' q') +:+ replace (render_piece (Ref p q)) v t.
Proof.
  intros Hr Hr' Hne. destruct (inner_ok p q Hr) as (Hd & Hb & _), (inner_ok p' q' Hr') as (Hd' & Hb' & Hs').
  assert (Hi : inner_of p q ≠ inner_of p' q') by congruence.
  pose proof (refs_differ _ _ t Hb Hb' Hi) as Hf.
  set (tail := String open_brace (String open_brace (ref_tail p' q'))).
  assert (Hq : quiet tail = true).
  { apply lacks_quiet. unfold tail, ref_tail. by rewrite !lacks_cons, !lacks_app, Hs'. }
  change (replace (render_piece (Ref p q)) v (String dollar (tail +:+ t))
          = String dollar (tail +:+ replace (render_piece (Ref p q)) v t)).
  rewrite replace_next.
  - by rewrite render_ref, replace_quiet.
  - etrans; [|exact Hf]. f_equal.
    change (opening (ref_tail p' q' +:+ t) = vault_prefix +:+ inner_of p' q' +:+ vault_suffix +:+ t).
    unfold ref_tail. rewrite !str_app_assoc. done.
Qed.

Lemma replace_render p q v ps :
  piece_ok (Ref p q) = true → Forall (λ x, piece_ok x = true) ps →
  replace (render_piece (Ref p q)) v (render ps) = render (settle (Ref p q) v ps).
Proof.
  intros Hr. induction ps as [|[s|p' q'] ps IH]; intros Hps; [done| |].
  all: apply Forall_cons in Hps as [Hp Hps]; specialize (IH Hps); unfold settle in *; cbn [map render].
  - rewrite decide_False by done. rewrite <- IH. by apply replace_quiet.
  - destruct (decide (Ref p' q' = Ref p q)) as [E|Hne].
    + rewrite E, replace_here by done. by rewrite IH.
    + rewrite <- IH. by apply replace_other_ref.
Qed.

(** *** One turn *)

Lemma find_first_ref ps :
  Forall (λ x, piece_ok x = true) ps →
  match List.filter is_ref ps with
  | Ref p q :: _ => ∃ a t, find_str vault_prefix (render ps) = Some (a, inner_of p q +:+ vault_suffix +:+ t)
  | _ => find_str vault_prefix (render ps) = None
  end.
Proof.
  induction ps as [|[s|p q] ps IH]; intros Hps; [done| |]; apply Forall_cons in Hps as [Hp Hps]; cbn [List.filter is_ref render].
  - specialize (IH Hps). change (render_piece (Lit s)) with s.
    pose proof (find_str_quiet s (render ps) "vault." Hp : find_str vault_prefix (s +:+ render ps) = _) as E0.
    change (opening "vault.") with vault_prefix in E0. rewrite E0.
    destruct (List.filter is_ref ps) as [|[s'|p q] l]; [by rewrite IH | by rewrite IH |].
    destruct IH as (a & t & E). rewrite E. by eexists _, _.
  - exists "", (render ps). cbn [render_piece]. fold (inner_of p q).
    rewrite (str_app_assoc vault_prefix), (str_app_assoc (inner_of p q)). apply find_str_here.
Qed.

Lemma Forall_settle p q v ps :
  lacks dollar v = true → Forall (λ x, piece_ok x = true) ps → Forall (λ x, piece_ok x = true) (settle (Ref p q) v ps).
Proof.
  intros Hv. unfold settle. induction 1 as [|x ps Hx _ IH]; cbn [map]; constructor; [|done].
  case_decide; [by apply lacks_quiet | done].
Qed.

Lemma refs_settle p q v ps :
  refs (settle (Ref p q) v ps) ≤ refs ps ∧ (Ref p q ∈ ps → refs (settle (Ref p q) v ps) < refs ps).
Proof.
  unfold refs, settle. induction ps as [|x ps [IH1 IH2]]; [split; [done | by intros ?%elem_of_nil]|].
  cbn [map]. case_decide as Hx; [subst x|]; cbn [List.filter is_ref].
  - simpl. split; [|intros _]; lia.
  - destruct (is_ref x); cbn [length]; (split; [lia|]); (intros [E|E]%elem_of_cons; [by rewrite E in Hx|]);
      specialize (IH2 E); lia.
Qed.

Section correctness.
Variable secret : string → string → result string VaultServiceError.

Lemma expand_settle p q v ps :
  secret p q = Ok v → expand secret (settle (Ref p q) v ps) = expand secret ps.
Proof.
  intros Hv. unfold settle. induction ps as [|x ps IH]; [done|]. cbn [map expand]. case_decide as Hx.
  - subst x. rewrite IH, Hv. done.
  - destruct x; by rewrite IH.
Qed.

(** The first failing reference decides the error, wherever its first occurrence is. *)
Lemma expand_fails p q e ps l :
  List.filter is_ref ps = Ref p q :: l → secret p q = Err e → expand secret ps = Err e.
Proof.
  induction ps as [|[s|p' q'] ps IH]; [done| |]; cbn [List.filter is_ref expand].
  - intros Hf He. by rewrite (IH Hf He).
  - intros [= -> -> _] He. by rewrite He.
Qed.

Lemma expand_no_refs ps : List.filter is_ref ps = [] → expand secret ps = Ok (render ps).
Proof.
  induction ps as [|[s|p q] ps IH]; [done| |done]; cbn [List.filter is_ref expand]. intros Hf. by rewrite (IH Hf).
Qed.

Lemma loop_expands fuel ps :
  refs ps < fuel → Forall (λ x, piece_ok x = true) ps →
  (∀ p q v, Ref p q ∈ ps → secret p q = Ok v → lacks dollar v = true) →
  resolve_loop secret fuel (render ps) = Some (expand secret ps).
Proof.
  revert ps. induction fuel as [|fuel IH]; intros ps Hn Hps Hv; [lia|].
  cbn [resolve_loop]. unfold resolve_turn. pose proof (find_first_ref ps Hps) as Hf.
  destruct (List.filter is_ref ps) as [|[s|p q] l] eqn:El.
  - rewrite Hf. by rewrite expand_no_refs.
  - rewrite Hf. assert (Hin : Lit s ∈ List.filter is_ref ps) by (rewrite El; left).
    apply list_elem_of_In, filter_In in Hin as [_ ?]. done.
  - destruct Hf as (a & t & Hfind). rewrite Hfind.
    assert (Hin : Ref p q ∈ ps).
    { assert (Hin : Ref p q ∈ List.filter is_ref ps) by (rewrite El; left).
      by apply list_elem_of_In, filter_In in Hin as [?%list_elem_of_In _]. }
    assert (Hok : piece_ok (Ref p q) = true) by (rewrite Forall_forall in Hps; by apply Hps).
    destruct (inner_ok p q Hok) as (Hsplit & Hb & _). rewrite (find_suffix _ _ Hb), Hsplit.
    destruct (secret p q) as [v|e] eqn:Es.
    + change (vault_prefix +:+ inner_of p q +:+ vault_suffix) with (render_piece (Ref p q)).
      rewrite (replace_render p q v ps Hok Hps). destruct (refs_settle p q v ps) as [_ Hlt].
      rewrite IH, (expand_settle p q v ps Es); [done| | |].
      * specialize (Hlt Hin). lia.
      * apply Forall_settle; [by eapply Hv | done].
      * intros p' q' v' Hin' Hs'. eapply Hv; [|exact Hs'].
        unfold settle in Hin'. apply list_elem_of_In, in_map_iff in Hin' as (x & Hx & Hin'%list_elem_of_In).
        case_decide; [done|]. by subst x.
    + by rewrite (expand_fails p q e ps l El Es).
Qed.
End correctness.

(** ** The end of the loop *)

Definition dollars (s : string) : nat := length (List.filter (is_char dollar) (chars s)).

Lemma dollars_app a b : dollars (a +:+ b) = dollars a + dollars b.
Proof. unfold dollars. by rewrite chars_app, List.filter_app, length_app. Qed.
Lemma dollars_cons c s : dollars (String c s) = (if is_char dollar c then 1 else 0) + dollars s.
Proof. unfold dollars. simpl. by destruct (is_char dollar c). Qed.
Lemma dollars_lacks s : lacks dollar s = true → dollars s = 0.
Proof.
  induction s as [|c s IH]; [done|]. rewrite lacks_cons, dollars_cons. intros [Hc Hs]%andb_true_iff.
  rewrite (IH Hs). by destruct (is_char dollar c).
Qed.

(** Every replacement by a text without [$] drops the [$]s of what it replaces. *)
Lemma dollars_replace_from pat v a s :
  lacks dollar v = true → dollars (replace_from (String.length a) pat v (a +:+ s)) ≤ dollars s.
Proof.
  intros Hv. rewrite replace_from_skip. clear a.
  remember (String.length s) as n eqn:En. assert (Hn : String.length s ≤ n) by lia. clear En.
  revert s Hn. induction n as [|n IH]; intros [|c s] Hn; simpl in Hn; try (done || lia).
  destruct (starts_with pat (String c s)) eqn:Es.
  - pose proof Es as [r E]%starts_with_spec. destruct pat as [|d pat].
    + unfold replace, replace_from; fold replace_from. rewrite Es. simpl (_ - 1).
      change (replace_from 0 "" v s) with (replace "" v s).
      rewrite dollars_app, (dollars_lacks v Hv), dollars_cons. specialize (IH s ltac:(lia)). lia.
    + rewrite E, replace_here, dollars_app, (dollars_lacks v Hv), dollars_app by done.
      assert (Hr : String.length r ≤ n).
      { apply (f_equal String.length) in E. rewrite length_str_app in E. simpl in E. lia. }
      specialize (IH r Hr). lia.
  - rewrite replace_next by done. rewrite !dollars_cons. specialize (IH s ltac:(lia)). lia.
Qed.

Lemma dollars_replace pat v s a r :
  lacks dollar v = true → find_str pat s = Some (a, r) → 0 < dollars pat → dollars (replace pat v s) < dollars s.
Proof.
  intros Hv Hf Hp. pose proof Hv as Hle. revert a r Hf. induction s as [|c s IH]; intros a r.
  - unfold find_str. destruct (strip_prefix pat "") eqn:E; [|done].
    apply strip_prefix_spec in E. destruct pat; [by unfold dollars in Hp | done].
  - unfold find_str; fold find_str. destruct (strip_prefix pat (String c s)) as [r'|] eqn:E.
    + intros _. apply strip_prefix_spec in E. rewrite E.
      rewrite replace_here by (intros ->; unfold dollars in Hp; simpl in Hp; lia).
      rewrite !dollars_app, (dollars_lacks v Hv).
      pose proof (dollars_replace_from pat v "" r' Hv) as Hr. change (dollars (replace pat v r') ≤ dollars r') in Hr. lia.
    + destruct (find_str pat s) as [[a' r']|]; [|done]. intros _. specialize (IH a' r' eq_refl).
      rewrite replace_next.
      * rewrite !dollars_cons. lia.
      * apply not_true_iff_false. intros [r'' E']%starts_with_spec. by rewrite E', strip_prefix_app in E.
Qed.

Lemma find_str_app pat a r : ∃ a' r', find_str pat (a +:+ pat +:+ r) = Some (a', r').
Proof.
  induction a as [|c a IH]; [exists "", r; exact (find_str_here pat r)|].
  change (String c a +:+ pat +:+ r) with (String c (a +:+ pat +:+ r)). unfold find_str; fold find_str.
  destruct (strip_prefix _ _); [by eexists _, _|]. destruct IH as (a' & r' & ->). by eexists _, _.
Qed.

Lemma turn_drops_dollars secret text next :
  (∀ p q v, secret p q = Ok v → lacks dollar v = true) →
  resolve_turn secret text = Again next → dollars next < dollars text.
Proof.
  intros Hv. unfold resolve_turn. destruct (find_str vault_prefix text) as [[a rest]|] eqn:E1; [|done].
  destruct (find_str vault_suffix rest) as [[inner t]|] eqn:E2; [|done].
  destruct (split_once dot_char inner) as [[p q]|]; [|done]. destruct (secret p q) as [v|] eqn:Es; [|done].
  intros [= <-]. apply find_str_spec in E1, E2. subst rest.
  assert (E : text = a +:+ (vault_prefix +:+ inner +:+ vault_suffix) +:+ t) by (rewrite E1, !str_app_assoc; done).
  destruct (find_str_app (vault_prefix +:+ inner +:+ vault_suffix) a t) as (a' & r' & Hf). rewrite <- E in Hf.
  eapply dollars_replace; [by eapply Hv | exact Hf |]. rewrite dollars_app. unfold vault_prefix. rewrite dollars_cons.
  simpl. lia.
Qed.

Lemma loop_ends secret fuel text :
  (∀ p q v, secret p q = Ok v → lacks dollar v = true) →
  dollars text < fuel → ∃ r, resolve_loop secret fuel text = Some r.
Proof.
  intros Hv. revert text. induction fuel as [|fuel IH]; intros text Hn; [lia|]. cbn [resolve_loop].
  destruct (resolve_turn secret text) as [|next|] eqn:E; [by eexists| |by eexists].
  apply IH. pose proof (turn_drops_dollars secret text next Hv E). lia.
Qed.

Lemma find_contains pat s : contains pat s = false → find_str pat s = None.
Proof.
  induction s as [|c s IH]; unfold find_str; fold find_str; cbn [contains].
  - intros Hc. rewrite strip_prefix_starts; [done|]. by destruct (starts_with pat "").
  - intros [Hs Hc]%orb_false_iff. rewrite strip_prefix_starts by done. by rewrite (IH Hc).
Qed.

Section theorems.
Context `{JsonText, VaultWorld}.

(** C37: Take a text made of references, whose provider has no dot, dollar sign or closing brace
    and whose path has no dollar sign or closing brace, and of other text that contains no ${{
    and does not end in $ or ${ (it may contain $ and ${HOME}), where the values of the
    references contain no dollar sign. It is replaced as by one substitution: every reference by
    the value its provider returns, all other text unchanged; the first reference that has no
    value gives its error, and one turn of the loop per reference is enough. *)
Theorem references_are_substituted fuel ps org t :
  refs ps < fuel → Forall (λ x, piece_ok x = true) ps →
  (∀ p q v, Ref p q ∈ ps → secret_of (vault_list_by_organization org t) p q = Ok v → lacks dollar v = true) →
  resolve_vault_references fuel (render ps) org t
  = Some (expand (secret_of (vault_list_by_organization org t)) ps).
Proof.
  intros Hn Hps Hv. unfold resolve_vault_references.
  destruct (contains vault_prefix (render ps)) eqn:Hc; [by apply loop_expands|]. simpl.
  apply find_contains in Hc. pose proof (find_first_ref ps Hps) as Hf.
  destruct (List.filter is_ref ps) as [|[s|p q] l] eqn:El.
  - by rewrite expand_no_refs.
  - assert (Hin : Lit s ∈ List.filter is_ref ps) by (rewrite El; left).
    by apply list_elem_of_In, filter_In in Hin as [_ ?].
  - destruct Hf as (a & r & Hf). by rewrite Hf in Hc.
Qed.

(** Values without a dollar sign: the loop ends, whatever the text, after at most as many turns
    as the text has dollar signs. *)
Theorem resolution_ends raw_env org t :
  (∀ p q v, secret_of (vault_list_by_organization org t) p q = Ok v → lacks dollar v = true) →
  ∃ r, resolve_vault_references (S (dollars raw_env)) raw_env org t = Some r.
Proof.
  intros Hv. unfold resolve_vault_references. destruct (contains _ _); [|by eexists].
  apply loop_ends; [done | lia].
Qed.

(** A secret whose value is a reference to itself: no number of turns is enough. *)
Theorem self_reference_never_ends p q org t fuel :
  piece_ok (Ref p q) = true →
  secret_of (vault_list_by_organization org t) p q = Ok (render_piece (Ref p q)) →
  resolve_vault_references fuel (render_piece (Ref p q)) org t = None.
Proof.
  intros Hok Hs. unfold resolve_vault_references.
  pose proof (find_first_ref [Ref p q] (Forall_cons_2 _ _ _ Hok (Forall_nil_2 _))) as (a & r & Hf).
  assert (E : render [Ref p q] = render_piece (Ref p q)).
  { cbn [render]. apply chars_inj. by rewrite chars_app, app_nil_r. }
  rewrite E in Hf. destruct (contains _ _) eqn:Hc; [|by rewrite find_contains in Hf]. cbn [negb].
  assert (Ht : resolve_turn (secret_of (vault_list_by_organization org t)) (render_piece (Ref p q))
               = Again (render_piece (Ref p q))).
  { unfold resolve_turn. rewrite Hf. destruct (inner_ok p q Hok) as (Hsplit & Hb & _).
    rewrite (find_suffix _ _ Hb), Hsplit, Hs. f_equal.
    change (vault_prefix +:+ inner_of p q +:+ vault_suffix) with (render_piece (Ref p q)).
    transitivity (replace (render_piece (Ref p q)) (render_piece (Ref p q)) (render [Ref p q])); [by rewrite E|].
    rewrite replace_render by (done || by constructor). unfold settle. cbn [map].
    rewrite decide_True by done. exact E. }
  induction fuel as [|fuel IH]; [done|]. cbn [resolve_loop]. by rewrite Ht.
Qed.

(** ** The service *)

(** What the panel shows of a token, sent back in an edit, keeps the token. *)
Theorem shown_token_is_kept now body p :
  uv_auth_token body = Some (vd_auth_token (vault_into_dto p)) →
  vp_auth_token (vault_edit now body p) = vp_auth_token p.
Proof.
  intros Hb. unfold vault_edit. simpl. rewrite Hb. simpl.
  destruct (str_is_empty (vp_auth_token p)) eqn:Ht; [done|]. by rewrite bool_decide_true.
Qed.

(** No token leaves the service with a provider's description. *)
Theorem token_stays_hidden p : vd_auth_token (vault_into_dto p) ∈ [""; VAULT_MASK_TOKEN].
Proof. simpl. destruct (str_is_empty _); set_solver. Qed.

Lemma vault_get_foreign id org t :
  (∀ p, p ∈ rows t → vp_id p = id → vp_organization_id p ≠ org) → vault_get id org t = (t, Err VaultNotFound).
Proof.
  intros Ht. unfold vault_get, vault_get_by_id, sql_first, sql_select.
  destruct (List.filter _ (rows t)) as [|p l] eqn:E; [done|]. simpl.
  assert (Hin : p ∈ List.filter (λ p, (vp_id p =? id)%Z) (rows t)) by (rewrite E; left).
  apply list_elem_of_In, filter_In in Hin as [Hp Hi%Z.eqb_eq].
  apply list_elem_of_In in Hp. specialize (Ht p Hp Hi). by destruct (Z.eqb_spec (vp_organization_id p) org).
Qed.

Lemma vault_delete_foreign id org t :
  (∀ p, p ∈ rows t → vp_id p = id → vp_organization_id p ≠ org) → vault_delete id org t = (t, false).
Proof.
  intros Ht. destruct t as [l sq]. simpl in Ht. unfold vault_delete, sql_delete. simpl.
  assert (E : ∀ p, p ∈ l → ((vp_id p =? id) && (vp_organization_id p =? org))%Z = false).
  { intros p Hp. specialize (Ht p Hp). destruct (Z.eqb_spec (vp_id p) id), (Z.eqb_spec (vp_organization_id p) org); naive_solver. }
  clear Ht. induction l as [|p l IH]; simpl; [done|]. rewrite (E p) by left. simpl.
  assert (IH' := IH (λ p Hp, E p (list_elem_of_further _ _ _ Hp))).
  injection IH' as IH1 IH2. by rewrite IH1, IH2.
Qed.

(** A provider of another organization cannot be read, tested, edited or deleted. *)
Theorem foreign_providers_are_out_of_reach id org now body assignments t :
  (∀ p, p ∈ rows t → vp_id p = id → vp_organization_id p ≠ org) →
  get_provider id org t = (t, Err VaultNotFound)
  ∧ update_provider now id org body t = (t, Err VaultNotFound)
  ∧ delete_provider id org t = (t, Ok false)
  ∧ get_assignments id org t = (t, Err VaultNotFound)
  ∧ set_assignments now id org assignments t = (t, Err VaultNotFound)
  ∧ test_connection id org t = (t, Err VaultNotFound)
  ∧ ∀ fuel, list_secret_names fuel id org t = Some (Err VaultNotFound).
Proof.
  intros Ht. pose proof (vault_get_foreign id org t Ht) as Hg. split_and!.
  all: try (intros fuel; unfold list_secret_names); unfold get_provider, update_provider, get_assignments,
    set_assignments, test_connection, bind; try (by rewrite Hg).
  unfold delete_provider. by rewrite vault_delete_foreign.
Qed.
End theorems.

(** ** Examples *)

#[local] Instance sample_json : JsonText := {| json_parse _ := None; json_print _ := "" |}.

(** A HashiCorp server with one secret of three fields *)
Definition sample_secret : JValue :=
  VObject [("data", VObject [("data", VObject
    [("nested", VString "${{vault.prod.app/db:password}}"); ("password", VString "s3cr{t}");
     ("self", VString "${{vault.prod.app/db:self}}")])])].
#[local] Instance sample_vault : VaultWorld := {|
  http rq := if bool_decide (rq_url rq = "https://vault.test/v1/secret/data/app/db")
             then Ok (mkResponse 200 (Ok sample_secret)) else Ok (mkResponse 404 (Err "no body"));
  status_text n := i64_to_string n;
  url_encode s := s;
  base64_text s := Ok s;
  not_a_map := "not a map";
  aws_list_secrets _ _ _ := Err "refused";
  aws_get_secret _ _ := Err "refused";
|}.
Definition sample_providers : Table VaultProvider :=
  mkTable [mkVaultProvider 1 "prod" "HASHICORP" "https://vault.test/" "token" None None 7 100 100;
           mkVaultProvider 2 "prod" "DOPPLER" "" "token" None None 8 100 100] 2.
Definition sample_pieces : list Piece :=
  [Lit "URL=pg://app:"; Ref "prod" "app/db:password"; Lit "@${HOST}/$db PW="; Ref "prod" "app/db:password"].

Lemma sample_value p q v :
  secret_of (vault_list_by_organization 7 sample_providers) p q = Ok v → Ref p q ∈ sample_pieces → lacks dollar v = true.
Proof.
  intros Hv Hin. unfold sample_pieces in Hin. repeat (apply elem_of_cons in Hin as [Hin|Hin]); try done.
  all: try (by apply elem_of_nil in Hin). all: injection Hin as -> ->; vm_compute in Hv; injection Hv as <-; done.
Qed.

Lemma references_are_substituted_witness :
  expand (secret_of (vault_list_by_organization 7 sample_providers)) sample_pieces
    = Ok "URL=pg://app:s3cr{t}@${HOST}/$db PW=s3cr{t}"
  ∧ resolve_vault_references 3 "URL=pg://app:${{vault.prod.app/db:password}}@${HOST}/$db PW=${{vault.prod.app/db:password}}"
      7 sample_providers = Some (Ok "URL=pg://app:s3cr{t}@${HOST}/$db PW=s3cr{t}").
Proof.
  split; [reflexivity|].
  refine (eq_trans (references_are_substituted 3 sample_pieces 7 sample_providers _ _ _) _).
  - vm_compute. lia.
  - repeat constructor.
  - intros p q v Hin Hv. by apply (sample_value p q v Hv).
  - reflexivity.
Defined.

(** The value of one secret names another: it is replaced too. *)
Example secret_values_are_expanded :
  resolve_vault_references 9 "X=${{vault.prod.app/db:nested}}" 7 sample_providers = Some (Ok "X=s3cr{t}").
Proof. reflexivity. Qed.

Example self_reference_runs_on fuel :
  resolve_vault_references fuel "${{vault.prod.app/db:self}}" 7 sample_providers = None.
Proof. by apply (self_reference_never_ends "prod" "app/db:self" 7 sample_providers fuel). Qed.

(** Without its end, a reference takes the text up to the end of the next one. *)
Example unclosed_reference_swallows :
  resolve_vault_references 9 "A=${{vault.prod B=${{vault.prod.app/db:password}}" 7 sample_providers
  = Some (Err (ProviderError "Vault provider 'prod B=${{vault' not found")).
Proof. reflexivity. Qed.

(** The configuration of a provider, with the secrets in it, is shown as it is. *)
Example config_secrets_are_shown :
  vd_config_json (vault_into_dto (mkVaultProvider 3 "az" "AZURE" "" "" None
    (Some "{clientSecret: hunter2}") 7 1 1)) = Some "{clientSecret: hunter2}".
Proof. reflexivity. Qed.
