(* ===== verification/Notifications.v ===== *)
(** * Notifications

    [services/notification]: messages, triggers and scopes, the guard of webhook addresses, the
    loader of configurations, the senders of the twelve providers, and the dispatch of one
    notification.  The sending of requests and mails, the resolution of names, the URL parser, the
    address parser of the mail library and the text of dates are parameters; the parser of IP
    addresses is the one of the standard library.  [guard_meaning] says which addresses a webhook
    may have, [literal_address_is_checked] that an address written as text is one of them. *)

From stdpp Require Import gmap strings list.
From Stdlib Require Import ZArith Lia Ascii.
From S2P Require Import Prelude RustStr RustText JsonValue StringEnum Sql NetworkRules.

(** ** [provider.rs], [message.rs], [scope.rs], [trigger.rs] *)

Inductive NotificationProvider :=
| PSlack | PTelegram | PDiscord | PEmail | PResend | PGotify | PNtfy | PMattermost | PPushover | PCustom | PLark | PTeams.
#[export] Instance NotificationProvider_eq_dec : EqDecision NotificationProvider.
Proof. solve_decision. Defined.
#[export] Instance NotificationProvider_enum : StringEnum NotificationProvider := {|
  enum_table := [(PSlack, "SLACK"); (PTelegram, "TELEGRAM"); (PDiscord, "DISCORD"); (PEmail, "EMAIL");
                 (PResend, "RESEND"); (PGotify, "GOTIFY"); (PNtfy, "NTFY"); (PMattermost, "MATTERMOST");
                 (PPushover, "PUSHOVER"); (PCustom, "CUSTOM"); (PLark, "LARK"); (PTeams, "TEAMS")];
  enum_default := PSlack;
|}.
#[export] Instance NotificationProvider_laws : StringEnumLaws NotificationProvider.
Proof. enum_laws. Qed.

Inductive NotificationLevel := LInfo | LWarning | LCritical.
Definition level_as_str (l : NotificationLevel) : string :=
  match l with LInfo => "INFO" | LWarning => "WARNING" | LCritical => "CRITICAL" end.
Definition emoji (l : NotificationLevel) : string :=
  match l with LInfo => "ℹ️" | LWarning => "⚠️" | LCritical => "🚨" end.
Definition discord_color (l : NotificationLevel) : Z :=
  match l with LInfo => 3447003 | LWarning => 16098851 | LCritical => 15158332 end.
Definition teams_color (l : NotificationLevel) : string :=
  match l with LInfo => "0076D7" | LWarning => "F5A623" | LCritical => "E74C3C" end.
Definition gotify_priority (l : NotificationLevel) : Z :=
  match l with LInfo => 3 | LWarning => 6 | LCritical => 9 end.
Definition ntfy_priority (l : NotificationLevel) : Z :=
  match l with LInfo => 3 | LWarning => 4 | LCritical => 5 end.

Record NotificationMessage := mkMessage {
  msg_title : string; msg_body : string; msg_level : NotificationLevel; msg_timestamp : Z;
  msg_url : option string; msg_fields : list (string * string) }.

Definition message_new (now : Z) (title body : string) : NotificationMessage := mkMessage title body LInfo now None [].
Definition message_level (l : NotificationLevel) (m : NotificationMessage) : NotificationMessage :=
  mkMessage (msg_title m) (msg_body m) l (msg_timestamp m) (msg_url m) (msg_fields m).
Definition message_url (u : string) (m : NotificationMessage) : NotificationMessage :=
  mkMessage (msg_title m) (msg_body m) (msg_level m) (msg_timestamp m) (Some u) (msg_fields m).
Definition message_field (k v : string) (m : NotificationMessage) : NotificationMessage :=
  mkMessage (msg_title m) (msg_body m) (msg_level m) (msg_timestamp m) (msg_url m) (msg_fields m ++ [(k, v)]).

Definition subject (m : NotificationMessage) : string := emoji (msg_level m) +:+ " " +:+ msg_title m.
Definition add_field_line (out : string) (f : string * string) : string :=
  out +:+ newline +:+ f.1 +:+ ": " +:+ f.2.
Definition to_plain_text (m : NotificationMessage) : string :=
  let out := foldl add_field_line (subject m +:+ newline +:+ newline +:+ msg_body m) (msg_fields m) in
  match msg_url m with Some url => out +:+ newline +:+ newline +:+ url | None => out end.

Inductive NotificationScope := Organization (id : Z) | AllOrganizations.
Definition scope_organization_id (s : NotificationScope) : option Z :=
  match s with Organization id => Some id | AllOrganizations => None end.
Definition is_tenant_scoped (s : NotificationScope) : bool := match s with Organization _ => true | _ => false end.

Inductive NotificationTrigger :=
| AppDeploy | AppBuildError | DatabaseBackup | VolumeBackup | PanelRestart | DockerCleanup | ServerThreshold
| PanelBackup | ScheduleSuccess | ScheduleFailure.
Definition trigger_as_str (t : NotificationTrigger) : string :=
  match t with
  | AppDeploy => "APP_DEPLOY" | AppBuildError => "APP_BUILD_ERROR" | DatabaseBackup => "DATABASE_BACKUP"
  | VolumeBackup => "VOLUME_BACKUP" | PanelRestart => "PANEL_RESTART" | DockerCleanup => "DOCKER_CLEANUP"
  | ServerThreshold => "SERVER_THRESHOLD" | PanelBackup => "PANEL_BACKUP" | ScheduleSuccess => "SCHEDULE_SUCCESS"
  | ScheduleFailure => "SCHEDULE_FAILURE"
  end.

Record Notification := mkNotification {
  nt_id : Z; nt_name : string; nt_type : string;
  on_app_deploy : Z; on_app_build_error : Z; on_database_backup : Z; on_volume_backup : Z; on_panel_restart : Z;
  on_docker_cleanup : Z; on_server_threshold : Z; on_panel_backup : Z; on_schedule_success : Z; on_schedule_failure : Z;
  slack_id : option Z; telegram_id : option Z; discord_id : option Z; email_id : option Z; resend_id : option Z;
  gotify_id : option Z; ntfy_id : option Z; mattermost_id : option Z; custom_id : option Z; lark_id : option Z;
  pushover_id : option Z; teams_id : option Z; nt_organization_id : Z; nt_created_at : Z; nt_updated_at : Z }.

Definition is_enabled_for (t : NotificationTrigger) (n : Notification) : bool :=
  negb ((match t with
         | AppDeploy => on_app_deploy n | AppBuildError => on_app_build_error n | DatabaseBackup => on_database_backup n
         | VolumeBackup => on_volume_backup n | PanelRestart => on_panel_restart n | DockerCleanup => on_docker_cleanup n
         | ServerThreshold => on_server_threshold n | PanelBackup => on_panel_backup n
         | ScheduleSuccess => on_schedule_success n | ScheduleFailure => on_schedule_failure n
         end) =? 0)%Z.

(** ** [repository/notifications.rs] *)

#[export] Instance Notification_schema : Schema Notification := {|
  row_id := nt_id;
  row_check n := bool_decide (nt_type n ∈ (enum_table (E := NotificationProvider)).*2)
                 && bool_decide (on_schedule_success n ∈ [0; 1]%Z) && bool_decide (on_schedule_failure n ∈ [0; 1]%Z);
  row_conflict _ _ := false;
|}.
#[export] Instance Notification_laws : SchemaLaws Notification.
Proof. by split. Qed.

Definition with_nt_id (id : Z) (n : Notification) : Notification :=
  match n with
  | mkNotification _ a b c d e f g h i j k l m o p q r s t u v w x y z aa bb =>
      mkNotification id a b c d e f g h i j k l m o p q r s t u v w x y z aa bb
  end.

Definition nt_get_all (t : Table Notification) : list Notification := rows t.
Definition nt_get_by_organization (org : Z) (t : Table Notification) : list Notification :=
  sql_select (λ n, nt_organization_id n =? org)%Z t.
Definition nt_get_by_id (id : Z) (t : Table Notification) : option Notification := sql_first (λ n, nt_id n =? id)%Z t.
Definition nt_get_by_id_for_organization (id org : Z) (t : Table Notification) : option Notification :=
  sql_first (λ n, (nt_id n =? id) && (nt_organization_id n =? org))%Z t.
(** [fk]: the organization and the configuration exist *)
Definition nt_create (fk : Notification → bool) (item : Notification) (t : Table Notification) :=
  sql_insert fk (λ id, with_nt_id id item) t.
Definition nt_update (fk : Notification → bool) (id : Z) (item : Notification) (t : Table Notification) :=
  sql_update fk (λ n, nt_id n =? id)%Z (λ n, with_nt_id (nt_id n) item) t.
Definition nt_delete (id : Z) (t : Table Notification) : Table Notification := (sql_delete (λ n, nt_id n =? id)%Z t).1.
Definition nt_delete_for_organization (id org : Z) (t : Table Notification) : Table Notification * bool :=
  let '(t', k) := sql_delete (λ n, (nt_id n =? id) && (nt_organization_id n =? org))%Z t in (t', (0 <? k)%nat).

(** ** [repository/notification_delivery.rs] *)

Record DeliveryAttempt := mkDelivery {
  da_id : Z; da_notification_id : Z; da_organization_id : Z; da_trigger_name : string; da_correlation_id : string;
  da_status : string; da_attempt : Z; da_title : string; da_body : string; da_error : option string;
  da_created_at : Z; da_finished_at : option Z }.
#[export] Instance DeliveryAttempt_schema : Schema DeliveryAttempt := {|
  row_id := da_id; row_check d := bool_decide (da_status d ∈ ["PENDING"; "DELIVERED"; "FAILED"]);
  row_conflict _ _ := false |}.
#[export] Instance DeliveryAttempt_laws : SchemaLaws DeliveryAttempt.
Proof. by split. Qed.

(** [fk]: the notification and the organization exist *)
Definition delivery_begin (fk : DeliveryAttempt → bool) (now notification_id org : Z) (trigger_name correlation_id : string)
    (attempt : Z) (title body : string) (t : Table DeliveryAttempt) :=
  sql_insert fk (λ id, mkDelivery id notification_id org trigger_name correlation_id "PENDING" attempt title body None now None) t.

Inductive DeliveryStatus := Delivered | DeliveryFailed.
Definition delivery_status_as_str (s : DeliveryStatus) : string :=
  match s with Delivered => "DELIVERED" | DeliveryFailed => "FAILED" end.
Definition delivery_finished (now : Z) (error : option string) (d : DeliveryAttempt) : DeliveryAttempt :=
  let status := match error with Some _ => DeliveryFailed | None => Delivered end in
  mkDelivery (da_id d) (da_notification_id d) (da_organization_id d) (da_trigger_name d) (da_correlation_id d)
    (delivery_status_as_str status) (da_attempt d) (da_title d) (da_body d) error (da_created_at d) (Some now).
Definition delivery_finish (now id : Z) (error : option string) (t : Table DeliveryAttempt) :=
  sql_update no_fk (λ d, da_id d =? id)%Z (delivery_finished now error) t.

Definition newest_delivery_first (a b : DeliveryAttempt) : bool := (da_created_at b <=? da_created_at a)%Z.
Definition delivery_list (org limit : Z) (t : Table DeliveryAttempt) : list DeliveryAttempt :=
  take (Z.to_nat (Z.max 1 (Z.min limit 500)))
    (sql_order_by newest_delivery_first (sql_select (λ d, da_organization_id d =? org)%Z t)).

Record ResourceBinding := mkBinding {
  rb_id : Z; rb_notification_id : Z; rb_organization_id : Z; rb_resource_type : string; rb_resource_id : Z; rb_created_at : Z }.
#[export] Instance ResourceBinding_schema : Schema ResourceBinding := {|
  row_id := rb_id;
  row_check b := bool_decide (rb_resource_type b ∈ ["SERVER"; "APPLICATION"; "COMPOSE"; "DATABASE"]);
  row_conflict a b := (rb_notification_id a =? rb_notification_id b)%Z && (rb_resource_id a =? rb_resource_id b)%Z
                      && bool_decide (rb_resource_type a = rb_resource_type b) |}.
#[export] Instance ResourceBinding_laws : SchemaLaws ResourceBinding.
Proof.
  split. intros a b. simpl. rewrite (Z.eqb_sym (rb_notification_id a)), (Z.eqb_sym (rb_resource_id a)).
  by rewrite (bool_decide_ext (rb_resource_type a = rb_resource_type b) (rb_resource_type b = rb_resource_type a)).
Qed.
Definition create_binding (fk : ResourceBinding → bool) (now notification_id org : Z) (resource_type : string)
    (resource_id : Z) (t : Table ResourceBinding) :=
  sql_insert fk (λ id, mkBinding id notification_id org resource_type resource_id now) t.
Definition newest_binding_first (a b : ResourceBinding) : bool := (rb_created_at b <=? rb_created_at a)%Z.
Definition bindings (org : Z) (t : Table ResourceBinding) : list ResourceBinding :=
  sql_order_by newest_binding_first (sql_select (λ b, rb_organization_id b =? org)%Z t).
Definition delete_binding (id org : Z) (t : Table ResourceBinding) : Table ResourceBinding * bool :=
  let '(t', n) := sql_delete (λ b, (rb_id b =? id) && (rb_organization_id b =? org))%Z t in (t', negb (n =? 0)%nat).

(** ** [std::net]: addresses *)

Inductive IpAddr :=
| V4 (a b c d : Z)
| V6 (s0 s1 s2 s3 s4 s5 s6 s7 : Z).
#[export] Instance IpAddr_eq_dec : EqDecision IpAddr.
Proof. solve_decision. Defined.

(** The octets, and what follows them *)
Fixpoint octets_from (n i : nat) (l : list ascii) : option (list Z * list ascii) :=
  match n with
  | 0 => Some ([], l)
  | S n' =>
      '(x, rest) ← read_separator "." i (read_number 10 (Some 3) false 255) l;
      '(xs, rest') ← octets_from n' (S i) rest;
      Some (x :: xs, rest')
  end.
Definition octets (l : list ascii) : option (list Z * list ascii) := octets_from 4 0 l.

(** At most [n] groups from position [i], whether an IPv4 address ended them, and the rest *)
Fixpoint groups_from (n i : nat) (l : list ascii) : list Z * bool * list ascii :=
  match n with
  | 0 => ([], false, l)
  | S n' =>
      match (if bool_decide (0 < n') then read_separator ":" i octets l else None) with
      | Some (os, rest) =>
          match os with
          | [a; b; c; d] => ([a * 256 + b; c * 256 + d]%Z, true, rest)
          | _ => ([], false, l)
          end
      | None =>
          match read_separator ":" i (read_number 16 (Some 4) true 65535) l with
          | Some (g, rest) => let '(gs, v4, rest') := groups_from n' (S i) rest in (g :: gs, v4, rest')
          | None => ([], false, l)
          end
      end
  end.

Definition v6_of (gs : list Z) : option IpAddr :=
  match gs with [a; b; c; d; e; f; g; h] => Some (V6 a b c d e f g h) | _ => None end.
Definition ipv6_from (l : list ascii) : option (IpAddr * list ascii) :=
  let '(front, v4, rest) := groups_from 8 0 l in
  if bool_decide (length front = 8) then a ← v6_of front; Some (a, rest)
  else if v4 then None
  else
    r1 ← read_char ":" rest; r2 ← read_char ":" r1;
    let '(back, _, r3) := groups_from (8 - (length front + 1)) 0 r2 in
    a ← v6_of (front ++ replicate (8 - length front - length back) 0%Z ++ back);
    Some (a, r3).

(** [host.parse::<IpAddr>()] *)
Definition parse_ip (s : string) : option IpAddr :=
  match octets (chars s) with
  | Some ([a; b; c; d], rest) => if bool_decide (rest = []) then Some (V4 a b c d) else None
  | _ => match ipv6_from (chars s) with
         | Some (ip, []) => Some ip
         | _ => None
         end
  end.

(** ** [guard.rs] *)

(** The predicates of [Ipv4Addr] *)
Definition v4_is_loopback (a b c d : Z) : bool := (a =? 127)%Z.
Definition v4_is_link_local (a b c d : Z) : bool := (a =? 169)%Z && (b =? 254)%Z.
Definition v4_is_multicast (a b c d : Z) : bool := (224 <=? a)%Z && (a <=? 239)%Z.
Definition v4_is_unspecified (a b c d : Z) : bool := (a =? 0)%Z && (b =? 0)%Z && (c =? 0)%Z && (d =? 0)%Z.
Definition v4_is_broadcast (a b c d : Z) : bool := (a =? 255)%Z && (b =? 255)%Z && (c =? 255)%Z && (d =? 255)%Z.
Definition is_blocked_v4 (a b c d : Z) : bool :=
  v4_is_loopback a b c d || v4_is_link_local a b c d || v4_is_multicast a b c d || v4_is_unspecified a b c d
  || v4_is_broadcast a b c d || (a =? 0)%Z.

Definition to_ipv4_mapped (ip : IpAddr) : option (Z * Z * Z * Z) :=
  match ip with
  | V6 s0 s1 s2 s3 s4 s5 s6 s7 =>
      if (s0 =? 0)%Z && (s1 =? 0)%Z && (s2 =? 0)%Z && (s3 =? 0)%Z && (s4 =? 0)%Z && (s5 =? 0xffff)%Z
      then Some (s6 / 256, s6 mod 256, s7 / 256, s7 mod 256)%Z else None
  | V4 _ _ _ _ => None
  end.
Definition is_blocked_ip (ip : IpAddr) : bool :=
  match ip with
  | V4 a b c d => is_blocked_v4 a b c d
  | V6 s0 s1 s2 s3 s4 s5 s6 s7 =>
      bool_decide (ip = V6 0 0 0 0 0 0 0 1)
      || (Z.land s0 0xff00 =? 0xff00)%Z
      || bool_decide (ip = V6 0 0 0 0 0 0 0 0)
      || (Z.land s0 0xffc0 =? 0xfe80)%Z
      || match to_ipv4_mapped ip with Some (a, b, c, d) => is_blocked_v4 a b c d | None => false end
  end.

(** ** Outside *)

Record Url := mkUrl { url_scheme : string; url_host : option string; url_port : option Z }.
Record Mail := mkMail {
  mail_from : string; mail_to : list string; mail_subject : string; mail_text : string; mail_server : string;
  mail_port : Z; mail_wrapped : bool; mail_credentials : option (string * string) }.

(** [n] is the number of the attempt: two attempts need not have the same outcome *)
Class NotifyWorld := {
  web : nat → Request → result Response string;
  smtp : nat → Mail → result unit string;
  mail_address : string → result unit string;
  mail_build : Mail → result unit string;
  tls_parameters : string → result unit string;
  parse_url : string → result Url string;
  resolve_host : nat → string → Z → result (list IpAddr) string;
  web_status : Z → string;
  rfc3339 : Z → option string;
  rfc3339_now : nat → string;
}.

Section world.
Context `{JsonText, NotifyWorld}.

Definition double_quote : string := String (ascii_of_N 34) "".
Definition blocked_message : string := "webhook target resolves to a blocked address range".

Definition validate_webhook_url (n : nat) (raw_url : string) : result unit string :=
  match parse_url raw_url with
  | Err e => Err ("invalid webhook URL: " +:+ e)
  | Ok url =>
      let scheme := to_ascii_lowercase (url_scheme url) in
      if negb (bool_decide (scheme = "http")) && negb (bool_decide (scheme = "https")) then
        Err ("invalid webhook URL scheme " +:+ double_quote +:+ scheme +:+ double_quote
             +:+ ": only http and https are allowed")
      else
        match url_host url with
        | None => Err "webhook URL has no host"
        | Some host =>
            match parse_ip host with
            | Some ip => if is_blocked_ip ip then Err blocked_message else Ok tt
            | None =>
                match resolve_host n host (default 443%Z (url_port url)) with
                | Err e => Err ("could not resolve webhook host " +:+ host +:+ ": " +:+ e)
                | Ok addrs =>
                    if existsb is_blocked_ip addrs then Err blocked_message
                    else if bool_decide (addrs = []) then Err ("webhook host " +:+ host +:+ " resolved to no addresses")
                    else Ok tt
                end
            end
        end
  end.

(** ** [senders] *)

Definition not_empty (o : option string) : option string := s ← o; if str_is_empty s then None else Some s.
Definition opt_string (o : option string) : JValue := match o with Some s => VString s | None => VNull end.
Definition with_key (key : string) (o : option JValue) (payload : JValue) : JValue :=
  match o with Some v => set_key key v payload | None => payload end.

(** Sending and the check of the status *)
Definition post (n : nat) (provider : string) (rq : Request) : result unit string :=
  match web n rq with
  | Err e => Err (provider +:+ " request failed: " +:+ e)
  | Ok rs => if is_success (rs_status rs) then Ok tt
             else Err (provider +:+ " returned status " +:+ web_status (rs_status rs))
  end.
Definition post_webhook (n : nat) (url : string) (payload : JValue) (provider : string) : result unit string :=
  (let? _ := validate_webhook_url n url in
   post n provider (mkRequest POST url [] [] (JsonBody payload)))%rust.

Record NotifSlack := mkSlack { sl_webhook_url : string; sl_channel : option string }.
Definition slack_text (kind text : string) : JValue := json_object [("type", VString kind); ("text", VString text)].
Definition slack_blocks (m : NotificationMessage) : list JValue :=
  [json_object [("type", VString "header");
                ("text", json_object [("type", VString "plain_text"); ("text", VString (subject m)); ("emoji", VBool true)])];
   json_object [("type", VString "section"); ("text", slack_text "mrkdwn" (msg_body m))]]
  ++ (if bool_decide (msg_fields m = []) then [] else
        [json_object [("type", VString "section");
                      ("fields", VArray (map (λ '(k, v), slack_text "mrkdwn" ("*" +:+ k +:+ "*" +:+ newline +:+ v)) (msg_fields m)))]])
  ++ match msg_url m with
     | Some url => [json_object [("type", VString "section"); ("text", slack_text "mrkdwn" ("<" +:+ url +:+ "|Open in OpenOxide>"))]]
     | None => []
     end.
Definition send_slack (n : nat) (cfg : NotifSlack) (m : NotificationMessage) : result unit string :=
  let payload := json_object [("text", VString (subject m)); ("blocks", VArray (slack_blocks m))] in
  post_webhook n (sl_webhook_url cfg) (with_key "channel" (VString <$> not_empty (sl_channel cfg)) payload) "slack".

Record NotifTelegram := mkTelegram { tg_bot_token : string; tg_chat_id : string; tg_message_thread_id : option string }.
Definition send_telegram (n : nat) (cfg : NotifTelegram) (m : NotificationMessage) : result unit string :=
  let url := "https://api.telegram.org/bot" +:+ tg_bot_token cfg +:+ "/sendMessage" in
  let payload := json_object [("chat_id", VString (tg_chat_id cfg)); ("text", VString (to_plain_text m));
                              ("disable_web_page_preview", VBool true)] in
  let thread := t ← not_empty (tg_message_thread_id cfg); parse_i64 t in
  post n "telegram" (mkRequest POST url [] [] (JsonBody (with_key "message_thread_id" (json_int <$> thread) payload))).

Record NotifDiscord := mkDiscord { dc_webhook_url : string; dc_decoration : Z }.
Definition send_discord (n : nat) (cfg : NotifDiscord) (m : NotificationMessage) : result unit string :=
  let payload :=
    if (dc_decoration cfg =? 0)%Z then json_object [("content", VString (to_plain_text m))]
    else
      let embed := json_object [("title", VString (subject m)); ("description", VString (msg_body m));
                                ("color", json_int (discord_color (msg_level m)));
                                ("timestamp", VString (default (rfc3339_now n) (rfc3339 (msg_timestamp m))))] in
      let fields := VArray (map (λ '(k, v), json_object [("name", VString k); ("value", VString v); ("inline", VBool true)])
                                (msg_fields m)) in
      let embed := if bool_decide (msg_fields m = []) then embed else set_key "fields" fields embed in
      json_object [("embeds", VArray [with_key "url" (VString <$> msg_url m) embed])] in
  post_webhook n (dc_webhook_url cfg) payload "discord".

Record NotifGotify := mkGotify { go_server_url : string; go_app_token : string; go_priority : Z; go_decoration : Z }.
Definition send_gotify (n : nat) (cfg : NotifGotify) (m : NotificationMessage) : result unit string :=
  let url := trim_end_char "/" (go_server_url cfg) +:+ "/message" in
  (let? _ := validate_webhook_url n url in
   let priority := if (0 <? go_priority cfg)%Z then go_priority cfg else gotify_priority (msg_level m) in
   post n "gotify" (mkRequest POST url [] [("X-Gotify-Key", go_app_token cfg)]
     (JsonBody (json_object [("title", VString (subject m)); ("message", VString (to_plain_text m)); ("priority", json_int priority)]))))%rust.

Record NotifNtfy := mkNtfy { nf_server_url : string; nf_topic : string; nf_access_token : option string; nf_priority : Z }.
Definition send_ntfy (n : nat) (cfg : NotifNtfy) (m : NotificationMessage) : result unit string :=
  let url := trim_end_char "/" (nf_server_url cfg) +:+ "/" +:+ nf_topic cfg in
  (let? _ := validate_webhook_url n url in
   let priority := if (0 <? nf_priority cfg)%Z then nf_priority cfg else ntfy_priority (msg_level m) in
   let headers := [("Title", subject m); ("Priority", i64_to_string priority)]
     ++ match not_empty (nf_access_token cfg) with Some t => [bearer t] | None => [] end
     ++ match msg_url m with Some link => [("Click", link)] | None => [] end in
   post n "ntfy" (mkRequest POST url [] headers (TextBody (to_plain_text m))))%rust.

Record NotifMattermost := mkMattermost { mm_webhook_url : string; mm_channel : option string; mm_username : option string }.
Definition send_mattermost (n : nat) (cfg : NotifMattermost) (m : NotificationMessage) : result unit string :=
  let payload := json_object [("text", VString (to_plain_text m))] in
  let payload := with_key "channel" (VString <$> not_empty (mm_channel cfg)) payload in
  let payload := with_key "username" (VString <$> not_empty (mm_username cfg)) payload in
  post_webhook n (mm_webhook_url cfg) payload "mattermost".

Record NotifTeams := mkTeams { te_webhook_url : string }.
Definition send_teams (n : nat) (cfg : NotifTeams) (m : NotificationMessage) : result unit string :=
  let facts := VArray (map (λ '(k, v), json_object [("name", VString k); ("value", VString v)]) (msg_fields m)) in
  post_webhook n (te_webhook_url cfg)
    (json_object [("@type", VString "MessageCard"); ("@context", VString "https://schema.org/extensions");
                  ("summary", VString (msg_title m)); ("themeColor", VString (teams_color (msg_level m)));
                  ("title", VString (subject m)); ("text", VString (msg_body m));
                  ("sections", VArray [json_object [("facts", facts)]])]) "teams".

Record NotifLark := mkLark { lk_webhook_url : string }.
Definition send_lark (n : nat) (cfg : NotifLark) (m : NotificationMessage) : result unit string :=
  post_webhook n (lk_webhook_url cfg)
    (json_object [("msg_type", VString "text"); ("content", json_object [("text", VString (to_plain_text m))])]) "lark".

Record NotifPushover := mkPushover {
  po_user_key : string; po_api_token : string; po_priority : Z; po_retry : option Z; po_expire : option Z }.
Definition send_pushover (n : nat) (cfg : NotifPushover) (m : NotificationMessage) : result unit string :=
  let payload := json_object [("token", VString (po_api_token cfg)); ("user", VString (po_user_key cfg));
                              ("title", VString (subject m)); ("message", VString (to_plain_text m));
                              ("priority", json_int (po_priority cfg))] in
  let payload :=
    if (2 <=? po_priority cfg)%Z then
      set_key "expire" (json_int (Z.min (default 3600%Z (po_expire cfg)) 10800)%Z)
        (set_key "retry" (json_int (Z.max (default 60%Z (po_retry cfg)) 30)%Z) payload)
    else payload in
  post n "pushover" (mkRequest POST "https://api.pushover.net/1/messages.json" [] []
    (JsonBody (with_key "url" (VString <$> msg_url m) payload))).

Record NotifCustom := mkCustom { cu_endpoint : string; cu_headers : option string }.
Definition custom_headers (raw : option string) : list (string * string) :=
  match (r ← raw; if str_is_empty (trim r) then None else json_parse r) with
  | Some (VObject o) => omap (λ '(k, v), pair k <$> as_str_value v) o
  | _ => []
  end.
Definition send_custom (n : nat) (cfg : NotifCustom) (m : NotificationMessage) : result unit string :=
  (let? _ := validate_webhook_url n (cu_endpoint cfg) in
   let payload := json_object [("title", VString (msg_title m)); ("body", VString (msg_body m));
     ("level", VString (level_as_str (msg_level m))); ("timestamp", json_int (msg_timestamp m)); ("url", opt_string (msg_url m));
     ("fields", VArray (map (λ '(k, v), json_object [("key", VString k); ("value", VString v)]) (msg_fields m)))] in
   post n "custom webhook" (mkRequest POST (cu_endpoint cfg) [] (custom_headers (cu_headers cfg)) (JsonBody payload)))%rust.

Definition parse_addresses (raw : string) : list string :=
  match json_parse raw with
  | Some (VArray items) => List.filter (λ s, negb (str_is_empty (trim s))) (omap as_str_value items)
  | _ => List.filter (λ s, negb (str_is_empty s)) (map trim (split_on (is_char ",") raw))
  end.

Record NotifResend := mkResend { rd_api_key : string; rd_from_address : string; rd_to_addresses : string }.
Definition send_resend (n : nat) (cfg : NotifResend) (m : NotificationMessage) : result unit string :=
  let to := parse_addresses (rd_to_addresses cfg) in
  if bool_decide (to = []) then Err "resend notification has no recipients"
  else
    post n "resend" (mkRequest POST "https://api.resend.com/emails" [] [bearer (rd_api_key cfg)]
      (JsonBody (json_object [("from", VString (rd_from_address cfg)); ("to", VArray (map VString to));
                              ("subject", VString (subject m)); ("text", VString (to_plain_text m))]))).
(** [serde_json::to_string(&[recipient])] *)
Definition one_recipient (recipient : string) : string := json_print (VArray [VString recipient]).
Definition send_resend_to (n : nat) (cfg : NotifResend) (recipient : string) (m : NotificationMessage) : result unit string :=
  send_resend n (mkResend (rd_api_key cfg) (rd_from_address cfg) (one_recipient recipient)) m.

(** ** [email.rs] *)

Record NotifEmail := mkEmail {
  em_smtp_server : string; em_smtp_port : Z; em_username : string; em_password : string; em_from_address : string;
  em_to_addresses : string }.
Fixpoint check_recipients (l : list string) : result unit string :=
  match l with
  | [] => Ok tt
  | a :: l' => match mail_address a with
               | Ok _ => check_recipients l'
               | Err e => Err ("invalid recipient address " +:+ a +:+ ": " +:+ e)
               end
  end.
Definition send_email (n : nat) (cfg : NotifEmail) (m : NotificationMessage) : result unit string :=
  let recipients := parse_addresses (em_to_addresses cfg) in
  if bool_decide (recipients = []) then Err "email notification has no recipients"
  else
    match mail_address (em_from_address cfg) with
    | Err e => Err ("invalid from address " +:+ em_from_address cfg +:+ ": " +:+ e)
    | Ok _ =>
        (let? _ := check_recipients recipients in
         let port := em_smtp_port cfg in
         let mail := mkMail (em_from_address cfg) recipients (subject m) (to_plain_text m) (em_smtp_server cfg) port
           (port =? 465)%Z (if str_is_empty (em_username cfg) then None else Some (em_username cfg, em_password cfg)) in
         match mail_build mail with
         | Err e => Err ("could not build email: " +:+ e)
         | Ok _ =>
             if (port <? 0)%Z || (65535 <? port)%Z then Err ("invalid smtp port " +:+ i64_to_string port)
             else
               match tls_parameters (em_smtp_server cfg) with
               | Err e => Err ("could not build TLS parameters for " +:+ em_smtp_server cfg +:+ ": " +:+ e)
               | Ok _ => match smtp n mail with Ok _ => Ok tt | Err e => Err ("smtp send failed: " +:+ e) end
               end
         end)%rust
    end.
Definition send_email_to (n : nat) (cfg : NotifEmail) (recipient : string) (m : NotificationMessage) : result unit string :=
  send_email n (mkEmail (em_smtp_server cfg) (em_smtp_port cfg) (em_username cfg) (em_password cfg) (em_from_address cfg)
                  (one_recipient recipient)) m.

(** ** [loader.rs] *)

Record Configs := mkConfigs {
  cfg_slack : Z → option NotifSlack; cfg_telegram : Z → option NotifTelegram; cfg_discord : Z → option NotifDiscord;
  cfg_email : Z → option NotifEmail; cfg_resend : Z → option NotifResend; cfg_gotify : Z → option NotifGotify;
  cfg_ntfy : Z → option NotifNtfy; cfg_mattermost : Z → option NotifMattermost; cfg_custom : Z → option NotifCustom;
  cfg_lark : Z → option NotifLark; cfg_pushover : Z → option NotifPushover; cfg_teams : Z → option NotifTeams }.

(** One of the [load_*] functions: the id of the row, then the configuration *)
Definition load {A} (name : string) (get_by_id : Z → option A) (id : option Z) : result A string :=
  match id with
  | None => Err (name +:+ " notification has no " +:+ name +:+ "_id")
  | Some id => match get_by_id id with
               | Some cfg => Ok cfg
               | None => Err (name +:+ " config " +:+ i64_to_string id +:+ " not found")
               end
  end.
Definition load_slack (c : Configs) (x : Notification) := load "slack" (cfg_slack c) (slack_id x).
Definition load_telegram (c : Configs) (x : Notification) := load "telegram" (cfg_telegram c) (telegram_id x).
Definition load_discord (c : Configs) (x : Notification) := load "discord" (cfg_discord c) (discord_id x).
Definition load_email (c : Configs) (x : Notification) := load "email" (cfg_email c) (email_id x).
Definition load_resend (c : Configs) (x : Notification) := load "resend" (cfg_resend c) (resend_id x).
Definition load_gotify (c : Configs) (x : Notification) := load "gotify" (cfg_gotify c) (gotify_id x).
Definition load_ntfy (c : Configs) (x : Notification) := load "ntfy" (cfg_ntfy c) (ntfy_id x).
Definition load_mattermost (c : Configs) (x : Notification) := load "mattermost" (cfg_mattermost c) (mattermost_id x).
Definition load_teams (c : Configs) (x : Notification) := load "teams" (cfg_teams c) (teams_id x).
Definition load_lark (c : Configs) (x : Notification) := load "lark" (cfg_lark c) (lark_id x).
Definition load_pushover (c : Configs) (x : Notification) := load "pushover" (cfg_pushover c) (pushover_id x).
Definition load_custom (c : Configs) (x : Notification) := load "custom" (cfg_custom c) (custom_id x).

(** ** [service.rs]: one notification *)

Definition dispatch_one_static (n : nat) (c : Configs) (x : Notification) (m : NotificationMessage) : result unit string :=
  (let? provider := parse (E := NotificationProvider) "NotificationProvider" (nt_type x) in
   match provider with
   | PSlack => let? cfg := load_slack c x in send_slack n cfg m
   | PTelegram => let? cfg := load_telegram c x in send_telegram n cfg m
   | PDiscord => let? cfg := load_discord c x in send_discord n cfg m
   | PEmail => let? cfg := load_email c x in send_email n cfg m
   | PResend => let? cfg := load_resend c x in send_resend n cfg m
   | PGotify => let? cfg := load_gotify c x in send_gotify n cfg m
   | PNtfy => let? cfg := load_ntfy c x in send_ntfy n cfg m
   | PMattermost => let? cfg := load_mattermost c x in send_mattermost n cfg m
   | PTeams => let? cfg := load_teams c x in send_teams n cfg m
   | PLark => let? cfg := load_lark c x in send_lark n cfg m
   | PPushover => let? cfg := load_pushover c x in send_pushover n cfg m
   | PCustom => let? cfg := load_custom c x in send_custom n cfg m
   end)%rust.

Definition send_test (n : nat) (c : Configs) (id : Z) (m : NotificationMessage) (t : Table Notification) : result unit string :=
  match nt_get_by_id id t with
  | Some x => dispatch_one_static n c x m
  | None => Err ("notification " +:+ i64_to_string id +:+ " not found")
  end.

(** The channels that a dispatch reaches *)
Definition targets (scope : NotificationScope) (trigger : NotificationTrigger) (t : Table Notification) : list Notification :=
  List.filter (is_enabled_for trigger)
    (match scope with Organization id => nt_get_by_organization id t | AllOrganizations => nt_get_all t end).
End world.

(** ** Addresses as text *)

Definition dotted (a b c d : Z) : string := join "." (map i64_to_string [a; b; c; d]).
Definition is_octet (x : Z) : Prop := (0 ≤ x < 256)%Z.

(** What follows an octet: nothing, or something that is no digit *)
Definition ends_number (l : list ascii) : Prop := match l with [] => True | c :: _ => digit_value c = None end.

Lemma digit_span_app ds l rest :
  map digit_value l = map Some ds → ends_number rest → digit_span digit_value (l ++ rest) = (ds, rest).
Proof.
  revert ds. induction l as [|c l IH]; intros [|d ds] Hl Hr; try done; simpl in *.
  - destruct rest as [|c rest]; [done|]. simpl in *. by rewrite Hr.
  - injection Hl as Hc Hl. by rewrite Hc, (IH ds Hl Hr).
Qed.

(** The digits of every octet, by evaluation *)
Definition octet_digits (x : Z) : list Z := omap digit_value (chars (i64_to_string x)).
Definition octet_check (x : Z) : bool :=
  let ds := octet_digits x in
  bool_decide (map digit_value (chars (i64_to_string x)) = map Some ds)
  && bool_decide (0 < length ds ≤ 3)
  && negb (bool_decide (head ds = Some 0%Z) && bool_decide (1 < length ds))
  && (number_of 10 ds =? x)%Z.
Lemma octets_checked : forallb octet_check (seqZ 0 256) = true.
Proof. vm_compute. reflexivity. Qed.

Lemma read_octet x rest :
  is_octet x → ends_number rest →
  read_number 10 (Some 3) false 255 (chars (i64_to_string x) ++ rest) = Some (x, rest).
Proof.
  intros Hx Hr. pose proof octets_checked as Hall. rewrite forallb_forall in Hall.
  specialize (Hall x). rewrite <- list_elem_of_In, elem_of_seqZ in Hall. specialize (Hall ltac:(unfold is_octet in Hx; lia)).
  unfold octet_check in Hall. rewrite !andb_true_iff, !bool_decide_eq_true, negb_true_iff, Z.eqb_eq in Hall.
  destruct Hall as (((Hds & Hlen) & Hzero) & Hval). unfold read_number. change (digit_in 10) with digit_value.
  rewrite (digit_span_app _ _ rest Hds Hr). cbn [negb]. rewrite andb_true_l, Hzero, Hval. unfold is_octet in Hx.
  rewrite (bool_decide_false (length _ = 0)), (bool_decide_false (3 < _)) by lia. simpl.
  by destruct (Z.ltb_spec 255 x); [lia|].
Qed.

Lemma parse_dotted a b c d :
  is_octet a → is_octet b → is_octet c → is_octet d → parse_ip (dotted a b c d) = Some (V4 a b c d).
Proof.
  intros Ha Hb Hc Hd. unfold parse_ip, octets.
  assert (E : chars (dotted a b c d) = chars (i64_to_string a) ++ "."%char :: chars (i64_to_string b)
              ++ "."%char :: chars (i64_to_string c) ++ "."%char :: chars (i64_to_string d) ++ []).
  { unfold dotted. cbn [map join]. rewrite !chars_app, app_nil_r. done. }
  rewrite E. cbn [octets_from read_separator]. rewrite read_octet by done. simpl. rewrite read_octet by done. simpl.
  rewrite read_octet by done. simpl. rewrite read_octet by done. done.
Qed.

(** ** The guard *)

(** The blocked IPv4 addresses are these ranges. *)
Definition v4_number (a b c d : Z) : Z := a * 2 ^ 24 + b * 2 ^ 16 + c * 2 ^ 8 + d.
Definition v4_blocked_range (x : Z) : Prop :=
  (x < 2 ^ 24 ∨ 127 * 2 ^ 24 ≤ x < 128 * 2 ^ 24 ∨ v4_number 169 254 0 0 ≤ x < v4_number 169 255 0 0
   ∨ 224 * 2 ^ 24 ≤ x < 240 * 2 ^ 24 ∨ x = 2 ^ 32 - 1)%Z.
Lemma blocked_v4_ranges a b c d :
  is_octet a → is_octet b → is_octet c → is_octet d →
  is_blocked_v4 a b c d = true ↔ v4_blocked_range (v4_number a b c d).
Proof.
  unfold is_octet, v4_blocked_range, v4_number, is_blocked_v4, v4_is_loopback, v4_is_link_local, v4_is_multicast,
    v4_is_unspecified, v4_is_broadcast. intros. rewrite !orb_true_iff, !andb_true_iff, !Z.eqb_eq, !Z.leb_le. lia.
Qed.

Lemma mapped_is_checked a b c d :
  is_octet b → is_octet d →
  is_blocked_ip (V6 0 0 0 0 0 0xffff (a * 256 + b) (c * 256 + d)) = is_blocked_v4 a b c d.
Proof.
  unfold is_octet. intros Hb Hd. simpl.
  rewrite !Z.div_add_l, !Z.div_small, !Z.add_0_r, !(Z.add_comm (_ * 256)), !Z.mod_add, !Z.mod_small by lia. done.
Qed.

Section theorems.
Context `{JsonText, NotifyWorld}.

Definition allowed (ip : IpAddr) : Prop := is_blocked_ip ip = false.

Lemma existsb_blocked l : existsb is_blocked_ip l = false ↔ Forall allowed l.
Proof.
  unfold allowed. induction l as [|x l IH]; simpl; [by split|]. rewrite orb_false_iff, IH, Forall_cons. done.
Qed.

(** A URL passes the guard exactly when it is an HTTP address whose host is an allowed address,
    or a name that resolves to at least one address and to allowed ones only. *)
Lemma guard_meaning n raw :
  validate_webhook_url n raw = Ok tt ↔
  ∃ url host, parse_url raw = Ok url ∧ to_ascii_lowercase (url_scheme url) ∈ ["http"; "https"] ∧ url_host url = Some host
    ∧ match parse_ip host with
      | Some ip => allowed ip
      | None => ∃ addrs, resolve_host n host (default 443%Z (url_port url)) = Ok addrs ∧ addrs ≠ [] ∧ Forall allowed addrs
      end.
Proof.
  unfold validate_webhook_url, allowed. destruct (parse_url raw) as [url|e]; [|naive_solver].
  set (scheme := to_ascii_lowercase (url_scheme url)). split.
  - destruct (negb (bool_decide (scheme = "http")) && negb (bool_decide (scheme = "https"))) eqn:Es; [done|].
    destruct (url_host url) as [host|] eqn:Eh; [|done]. intros Hv. exists url, host. split_and!; try done.
    + rewrite andb_false_iff, !negb_false_iff, !bool_decide_eq_true in Es. set_solver.
    + destruct (parse_ip host) as [ip|]; [by destruct (is_blocked_ip ip)|].
      destruct (resolve_host _ _ _) as [addrs|]; [|done].
      destruct (existsb is_blocked_ip addrs) eqn:Ea; [done|]. case_bool_decide; [done|].
      exists addrs. split_and!; try done. by apply existsb_blocked.
  - intros (url' & host & [= <-] & Hs & Eh & Hh). rewrite Eh.
    assert (Es : negb (bool_decide (scheme = "http")) && negb (bool_decide (scheme = "https")) = false).
    { rewrite andb_false_iff, !negb_false_iff, !bool_decide_eq_true. set_solver. }
    rewrite Es. destruct (parse_ip host) as [ip|]; [by rewrite Hh|].
    destruct Hh as (addrs & -> & Hne & Ha). apply existsb_blocked in Ha. by rewrite Ha, bool_decide_false.
Qed.

(** The address that a channel posts to, where the operator chooses it *)
Definition webhook_address (c : Configs) (x : Notification) : option string :=
  match from_str (E := NotificationProvider) (nt_type x) with
  | Some PSlack => sl_webhook_url <$> (slack_id x ≫= cfg_slack c)
  | Some PDiscord => dc_webhook_url <$> (discord_id x ≫= cfg_discord c)
  | Some PGotify => (λ g, trim_end_char "/" (go_server_url g) +:+ "/message") <$> (gotify_id x ≫= cfg_gotify c)
  | Some PNtfy => (λ g, trim_end_char "/" (nf_server_url g) +:+ "/" +:+ nf_topic g) <$> (ntfy_id x ≫= cfg_ntfy c)
  | Some PMattermost => mm_webhook_url <$> (mattermost_id x ≫= cfg_mattermost c)
  | Some PTeams => te_webhook_url <$> (teams_id x ≫= cfg_teams c)
  | Some PLark => lk_webhook_url <$> (lark_id x ≫= cfg_lark c)
  | Some PCustom => cu_endpoint <$> (custom_id x ≫= cfg_custom c)
  | _ => None
  end.

Lemma load_found {A} name (get : Z → option A) id cfg : (id ≫= get) = Some cfg → load name get id = Ok cfg.
Proof. destruct id as [id|]; [|done]. simpl. intros Hg. unfold load. by rewrite Hg. Qed.

Lemma guard_stops_dispatch n c x m url e :
  webhook_address c x = Some url → validate_webhook_url n url = Err e → dispatch_one_static n c x m = Err e.
Proof.
  unfold webhook_address, dispatch_one_static, parse. destruct (from_str (nt_type x)) as [[]|]; try done.
  all: intros (cfg & Hc & ->)%fmap_Some He; unfold load_slack, load_discord, load_gotify, load_ntfy, load_mattermost, load_teams,
    load_lark, load_custom; simpl; rewrite (load_found _ _ _ cfg Hc); simpl.
  all: unfold send_slack, send_discord, send_gotify, send_ntfy, send_mattermost, send_teams, send_lark, send_custom, post_webhook;
    by rewrite He.
Qed.

(** A webhook whose address is an IPv4 address of a blocked range, written as text, is refused
    by every channel that posts to an address, whoever answers there: the dispatch ends with the
    message of the guard. *)
Theorem blocked_webhooks_are_refused n c x m raw url a b c' d :
  webhook_address c x = Some raw → parse_url raw = Ok url →
  to_ascii_lowercase (url_scheme url) ∈ ["http"; "https"] → url_host url = Some (dotted a b c' d) →
  is_octet a → is_octet b → is_octet c' → is_octet d → v4_blocked_range (v4_number a b c' d) →
  dispatch_one_static n c x m = Err blocked_message.
Proof.
  intros Hw Hu Hs Hh Ha Hb Hc Hd Hr. eapply guard_stops_dispatch; [done|]. unfold validate_webhook_url.
  rewrite Hu, Hh, parse_dotted by done. simpl. apply (blocked_v4_ranges a b c' d) in Hr; try done. rewrite Hr.
  assert (Es : negb (bool_decide (to_ascii_lowercase (url_scheme url) = "http"))
               && negb (bool_decide (to_ascii_lowercase (url_scheme url) = "https")) = false).
  { rewrite andb_false_iff, !negb_false_iff, !bool_decide_eq_true. set_solver. }
  by rewrite Es.
Qed.
End theorems.

(** ** Examples *)

Example addresses_read :
  parse_ip "127.0.0.1" = Some (V4 127 0 0 1) ∧ parse_ip "::1" = Some (V6 0 0 0 0 0 0 0 1)
  ∧ parse_ip "::ffff:127.0.0.1" = Some (V6 0 0 0 0 0 0xffff 0x7f00 1) ∧ parse_ip "fe80::1" = Some (V6 0xfe80 0 0 0 0 0 0 1)
  ∧ parse_ip "1.2.3" = None ∧ parse_ip "01.2.3.4" = None ∧ parse_ip "256.1.1.1" = None.
Proof. vm_compute. split_and!; reflexivity. Qed.

(** The host of a URL with an IPv6 address has its brackets, and is taken for a name. *)
Example bracketed_host_is_a_name : parse_ip "[2606:4700::1111]" = None ∧ parse_ip "2606:4700::1111" ≠ None.
Proof. split; vm_compute; [reflexivity | done]. Qed.

(** An IPv4 address inside other IPv6 forms is not looked at. *)
Example translated_loopback_passes : is_blocked_ip (V6 0x64 0xff9b 0 0 0 0 0x7f00 1) = false.
Proof. reflexivity. Qed.

#[local] Instance sample_json : JsonText := {| json_parse _ := None; json_print _ := "" |}.
#[local] Instance sample_web : NotifyWorld := {|
  web n _ := if (n <? 2)%nat then Err "refused" else Ok (mkResponse 204 (Err "no body"));
  smtp _ _ := Err "refused";
  mail_address _ := Ok tt; mail_build _ := Ok tt; tls_parameters _ := Ok tt;
  parse_url s := match strip_prefix "http://" s with
                 | Some h => Ok (mkUrl "http" (Some h) (Some 80%Z)) | None => Err "relative URL without a base" end;
  resolve_host _ _ _ := Ok [V4 93 184 216 34];
  web_status n := i64_to_string n; rfc3339 _ := None; rfc3339_now _ := "now" |}.
Definition sample_notification (id org : Z) (custom : option Z) : Notification :=
  mkNotification id "hook" "CUSTOM" 1 0 0 0 0 0 0 0 0 0 None None None None None None None None custom None None None org 0 0.
Definition sample_configs (endpoint : string) : Configs :=
  mkConfigs (λ _, None) (λ _, None) (λ _, None) (λ _, None) (λ _, None) (λ _, None) (λ _, None) (λ _, None)
    (λ id, if (id =? 5)%Z then Some (mkCustom endpoint None) else None) (λ _, None) (λ _, None) (λ _, None).
Definition sample_message : NotificationMessage := message_field "App" "shop" (message_new 100 "Deployed" "Version 2 is live").

Example sends_after_a_while :
  dispatch_one_static 0 (sample_configs "http://example.org") (sample_notification 1 7 (Some 5%Z)) sample_message
    = Err "custom webhook request failed: refused"
  ∧ dispatch_one_static 2 (sample_configs "http://example.org") (sample_notification 1 7 (Some 5%Z)) sample_message = Ok tt.
Proof. vm_compute. split; reflexivity. Qed.

Lemma blocked_webhooks_are_refused_witness :
  dispatch_one_static 2 (sample_configs "http://169.254.169.254") (sample_notification 1 7 (Some 5%Z)) sample_message
  = Err blocked_message.
Proof.
  eapply (blocked_webhooks_are_refused 2 _ _ _ "http://169.254.169.254"
            (mkUrl "http" (Some "169.254.169.254") (Some 80%Z)) 169 254 169 254).
  all: try reflexivity. all: try (unfold is_octet; lia).
  - simpl. left.
  - unfold v4_blocked_range, v4_number. lia.
Defined.
