(* ===== verification/NotificationLog.v ===== *)
(** * The dispatcher of notifications

    [notify] of [services/notification/service.rs]: a task for every channel, which waits for one of
    five permits and makes up to three attempts, each with a row in the delivery table that is
    begun before the attempt and finished after it.  The tasks of all calls run in any
    interleaving; a step is a statement, a send or the end of a wait, and what a send returns is
    up to the world.  [delivery_log_is_faithful] relates the table to what the tasks did,
    [permits_are_respected] bounds the tasks at work, and [every_task_ends] says that they end.
    The deletion of a channel, which deletes its rows, is not a step. *)

From stdpp Require Import gmap strings list relations.
From Stdlib Require Import ZArith Lia Ascii.
From S2P Require Import Prelude RustStr RustText JsonValue StringEnum Sql Notifications.

(** ** Tasks *)

Inductive Phase :=
| Waiting                                (* [acquire_owned] *)
| Starting (attempt : nat)
| Sending (attempt : nat) (row : Z)
| Recording (attempt : nat) (row : Z)
| Sleeping (attempt : nat)
| Ended.

(** A spawned task; [tk_outcomes] lists what its sends returned *)
Record Task := mkTask {
  tk_scope : NotificationScope; tk_trigger : NotificationTrigger; tk_message : NotificationMessage;
  tk_target : Notification; tk_correlation : string; tk_phase : Phase; tk_outcomes : list (result unit string) }.

Definition send_limit : nat := 5.
Definition max_attempts : nat := 3.

Definition at_phase (p : Phase) (tk : Task) : Task :=
  mkTask (tk_scope tk) (tk_trigger tk) (tk_message tk) (tk_target tk) (tk_correlation tk) p (tk_outcomes tk).
Definition with_outcome (r : result unit string) (tk : Task) : Task :=
  mkTask (tk_scope tk) (tk_trigger tk) (tk_message tk) (tk_target tk) (tk_correlation tk) (tk_phase tk) (tk_outcomes tk ++ [r]).
Definition holds_permit (tk : Task) : bool := match tk_phase tk with Waiting | Ended => false | _ => true end.
Definition permits_held (tasks : list Task) : nat := length (List.filter holds_permit tasks).

Definition error_of (r : result unit string) : option string := match r with Ok _ => None | Err e => Some e end.

Section dispatcher.
Context `{JsonText, NotifyWorld}.

(** The next step of a task; [held] permits are taken.  An error of [finish] is ignored. *)
Definition task_step (fk : DeliveryAttempt → bool) (c : Configs) (n : nat) (now : Z) (held : nat)
    (t : Table DeliveryAttempt) (tk : Task) : option (Table DeliveryAttempt * Task) :=
  match tk_phase tk with
  | Waiting => if (held <? send_limit)%nat then Some (t, at_phase (Starting 1) tk) else None
  | Starting k =>
      match delivery_begin fk now (nt_id (tk_target tk)) (nt_organization_id (tk_target tk)) (trigger_as_str (tk_trigger tk))
              (tk_correlation tk) (Z.of_nat k) (msg_title (tk_message tk)) (msg_body (tk_message tk)) t with
      | Ok (t', id) => Some (t', at_phase (Sending k id) tk)
      | Err _ => Some (t, at_phase Ended tk)
      end
  | Sending k id =>
      let r := dispatch_one_static n c (tk_target tk) (tk_message tk) in
      Some (t, at_phase (Recording k id) (with_outcome r tk))
  | Recording k id =>
      match last (tk_outcomes tk) with
      | None => None
      | Some r =>
          let t' := match delivery_finish now id (error_of r) t with Ok (t', _) => t' | Err _ => t end in
          let next := match r with Ok _ => Ended | Err _ => if (k <? max_attempts)%nat then Sleeping k else Ended end in
          Some (t', at_phase next tk)
      end
  | Sleeping k => Some (t, at_phase (Starting (S k)) tk)
  | Ended => None
  end.

(** The tasks of one call of [notify], with their correlation ids *)
Definition notify (scope : NotificationScope) (trigger : NotificationTrigger) (m : NotificationMessage)
    (ids : list string) (channels : Table Notification) : list Task :=
  zip_with (λ x id, mkTask scope trigger m x id Waiting []) (targets scope trigger channels) ids.

(** ** The system *)

Record System := mkSystem { sy_deliveries : Table DeliveryAttempt; sy_tasks : list Task }.
Definition start : System := mkSystem empty_table [].

Inductive system_step : System → System → Prop :=
| step_notify scope trigger m ids channels s :
    length ids = length (targets scope trigger channels) → NoDup ids →
    (∀ id, id ∈ ids → id ∉ map tk_correlation (sy_tasks s)) →
    system_step s (mkSystem (sy_deliveries s) (sy_tasks s ++ notify scope trigger m ids channels))
| step_task i fk c n now tk tk' t' s :
    sy_tasks s !! i = Some tk →
    task_step fk c n now (permits_held (sy_tasks s)) (sy_deliveries s) tk = Some (t', tk') →
    system_step s (mkSystem t' (<[i := tk']> (sy_tasks s))).

Definition reachable : System → Prop := rtc system_step start.

(** ** What the table says of a task *)

Record Entry := mkEntry {
  en_notification : Z; en_organization : Z; en_trigger : string; en_attempt : Z; en_status : string;
  en_error : option string; en_title : string; en_body : string }.
Definition view (d : DeliveryAttempt) : Entry :=
  mkEntry (da_notification_id d) (da_organization_id d) (da_trigger_name d) (da_attempt d) (da_status d) (da_error d)
    (da_title d) (da_body d).
Definition rows_of (id : string) (t : Table DeliveryAttempt) : list DeliveryAttempt :=
  List.filter (λ d, bool_decide (da_correlation_id d = id)) (rows t).
Definition log_of (id : string) (t : Table DeliveryAttempt) : list Entry := map view (rows_of id t).

Definition entry (tk : Task) (k : nat) (status : string) (error : option string) : Entry :=
  mkEntry (nt_id (tk_target tk)) (nt_organization_id (tk_target tk)) (trigger_as_str (tk_trigger tk)) (Z.of_nat k) status error
    (msg_title (tk_message tk)) (msg_body (tk_message tk)).
Definition outcome_entry (tk : Task) (i : nat) (r : result unit string) : Entry :=
  entry tk (S i) (match r with Ok _ => "DELIVERED" | Err _ => "FAILED" end) (error_of r).

(** The attempts that are finished, and the one in progress *)
Definition recorded (tk : Task) : list (result unit string) :=
  match tk_phase tk with Recording k _ => take (k - 1) (tk_outcomes tk) | _ => tk_outcomes tk end.
Definition pending (tk : Task) : list Entry :=
  match tk_phase tk with Sending k _ | Recording k _ => [entry tk k "PENDING" None] | _ => [] end.
Definition expected_log (tk : Task) : list Entry := imap (outcome_entry tk) (recorded tk) ++ pending tk.

Definition failed (r : result unit string) : Prop := ∃ e, r = Err e.

(** How many attempts a phase has seen; every attempt but the last failed *)
Definition phase_ok (tk : Task) : Prop :=
  let os := tk_outcomes tk in
  match tk_phase tk with
  | Waiting => os = []
  | Starting k | Sending k _ => 1 ≤ k ≤ max_attempts ∧ length os = k - 1 ∧ Forall failed os
  | Recording k _ => 1 ≤ k ≤ max_attempts ∧ length os = k ∧ Forall failed (take (k - 1) os)
  | Sleeping k => 1 ≤ k < max_attempts ∧ length os = k ∧ Forall failed os
  | Ended => length os ≤ max_attempts ∧ Forall failed (take (length os - 1) os)
  end.

Definition open_row (tk : Task) : option Z :=
  match tk_phase tk with Sending _ id | Recording _ id => Some id | _ => None end.

(** The channel is one that the call may reach *)
Definition in_scope (tk : Task) : Prop :=
  is_enabled_for (tk_trigger tk) (tk_target tk) = true
  ∧ match tk_scope tk with Organization id => nt_organization_id (tk_target tk) = id | AllOrganizations => True end.

Record task_inv (t : Table DeliveryAttempt) (tk : Task) : Prop := {
  inv_log : log_of (tk_correlation tk) t = expected_log tk;
  inv_phase : phase_ok tk;
  inv_open : ∀ id, open_row tk = Some id → da_id <$> last (rows_of (tk_correlation tk) t) = Some id;
  inv_scope : in_scope tk;
}.

Record system_inv (s : System) : Prop := {
  inv_table : table_wf (sy_deliveries s);
  inv_ids : NoDup (map tk_correlation (sy_tasks s));
  inv_known : ∀ d, d ∈ rows (sy_deliveries s) → da_correlation_id d ∈ map tk_correlation (sy_tasks s);
  inv_tasks : ∀ tk, tk ∈ sy_tasks s → task_inv (sy_deliveries s) tk;
  inv_permits : permits_held (sy_tasks s) ≤ send_limit;
}.
End dispatcher.

(** ** Rows *)

Lemma rows_of_insert id t t' d :
  rows t' = rows t ++ [d] → rows_of id t' = rows_of id t ++ (if bool_decide (da_correlation_id d = id) then [d] else []).
Proof. intros Hr. unfold rows_of. rewrite Hr, List.filter_app. simpl. by case_bool_decide. Qed.

Definition finishing (now id : Z) (e : option string) (d : DeliveryAttempt) : DeliveryAttempt :=
  updated (λ d, da_id d =? id)%Z (delivery_finished now e) d.

Lemma delivery_finish_spec now id e t :
  table_wf t → ∃ t' k, delivery_finish now id e t = Ok (t', k) ∧ table_wf t' ∧ rows t' = map (finishing now id e) (rows t).
Proof.
  intros Hwf. unfold delivery_finish.
  assert (Hid : ∀ r, row_id (delivery_finished now e r) = row_id r) by done.
  edestruct (sql_update no_fk (λ d, da_id d =? id)%Z (delivery_finished now e) t) as [[t' k]|err] eqn:E.
  - exists t', k. split_and!; [done| |]; [by eapply sql_update_wf | by apply sql_update_inv in E as (Hr & _)].
  - rewrite sql_update_success in E; [done|done|done| |done].
    intros r _ _. split; [|done]. destruct e; done.
Qed.

Lemma rows_of_finish id' now id e t t' :
  rows t' = map (finishing now id e) (rows t) → rows_of id' t' = map (finishing now id e) (rows_of id' t).
Proof.
  intros Hr. unfold rows_of. rewrite Hr. clear Hr. induction (rows t) as [|d l IH]; [done|]. simpl.
  assert (Hc : da_correlation_id (finishing now id e d) = da_correlation_id d) by (unfold finishing, updated; by destruct (_ =? _)%Z).
  rewrite Hc. case_bool_decide; simpl; by rewrite IH.
Qed.

Lemma finishing_other now id e l : (∀ d, d ∈ l → da_id d ≠ id) → map (finishing now id e) l = l.
Proof.
  induction l as [|d l IH]; intros Hl; [done|]. simpl. rewrite IH by set_solver. f_equal.
  unfold finishing, updated. destruct (Z.eqb_spec (da_id d) id) as [E|]; [|done]. by destruct (Hl d (list_elem_of_here _ _)).
Qed.

Lemma rows_of_elem id t d : d ∈ rows_of id t ↔ d ∈ rows t ∧ da_correlation_id d = id.
Proof. unfold rows_of. rewrite elem_of_filterb, bool_decide_eq_true. done. Qed.

(** Finishing the open row of a task touches that row, the last of its task, and no other task. *)
Lemma finish_open now id e t t' corr :
  table_wf t → rows t' = map (finishing now id e) (rows t) → da_id <$> last (rows_of corr t) = Some id →
  (∃ l d, rows_of corr t = l ++ [d] ∧ rows_of corr t' = l ++ [delivery_finished now e d])
  ∧ ∀ other, other ≠ corr → rows_of other t' = rows_of other t.
Proof.
  intros Hwf Hr Hl. apply fmap_Some in Hl as (d & Hd & ->). apply last_Some in Hd as [l Hd].
  assert (Hin : d ∈ rows t ∧ da_correlation_id d = corr) by (apply rows_of_elem; rewrite Hd; set_solver).
  destruct Hin as [Hin Hc]. split.
  - exists l, d. split; [done|]. rewrite (rows_of_finish _ _ _ _ _ _ Hr), Hd, map_app. simpl. f_equal.
    + apply finishing_other. intros x Hx E.
      assert (Hx' : x ∈ rows_of corr t) by (rewrite Hd; set_solver). apply rows_of_elem in Hx' as [Hx' _].
      assert (x = d) by (by eapply wf_lookup_unique). subst x.
      assert (Hnd : NoDup (rows_of corr t)).
      { eapply NoDup_fmap_1. eapply sublist_NoDup; [exact (wf_ids t Hwf)|]. apply fmap_sublist, filterb_sublist. }
      rewrite Hd in Hnd. apply NoDup_app in Hnd as (_ & Hnd & _). apply (Hnd d Hx). set_solver.
    + unfold finishing, updated. by rewrite Z.eqb_refl.
  - intros other Hne. rewrite (rows_of_finish _ _ _ _ _ _ Hr). apply finishing_other. intros x Hx E.
    apply rows_of_elem in Hx as [Hx Hxc]. assert (x = d) by (by eapply wf_lookup_unique). congruence.
Qed.

(** ** One step of a task *)

Section steps.
Context `{JsonText, NotifyWorld}.

(** What a step of one task leaves alone: the rows of every other *)
Record step_ok (t t' : Table DeliveryAttempt) (tk tk' : Task) : Prop := {
  so_table : table_wf t';
  so_task : task_inv t' tk';
  so_same : tk_correlation tk' = tk_correlation tk;
  so_others : ∀ id, id ≠ tk_correlation tk → rows_of id t' = rows_of id t;
  so_known : ∀ d, d ∈ rows t' → da_correlation_id d = tk_correlation tk ∨ da_correlation_id d ∈ map da_correlation_id (rows t);
}.

Lemma imap_snoc {A B} (f : nat → A → B) l x : imap f (l ++ [x]) = imap f l ++ [f (length l) x].
Proof. rewrite imap_app. simpl. by rewrite Nat.add_0_r. Qed.

Lemma same_rows_ok t tk tk' :
  table_wf t → task_inv t tk' → tk_correlation tk' = tk_correlation tk → step_ok t t tk tk'.
Proof.
  intros Hwf Hi Hc. split; try done. intros d Hd. right. apply list_elem_of_In, in_map, list_elem_of_In, Hd.
Qed.

Lemma begin_ok fk now t tk k t' id :
  table_wf t → task_inv t tk → tk_phase tk = Starting k →
  delivery_begin fk now (nt_id (tk_target tk)) (nt_organization_id (tk_target tk)) (trigger_as_str (tk_trigger tk))
    (tk_correlation tk) (Z.of_nat k) (msg_title (tk_message tk)) (msg_body (tk_message tk)) t = Ok (t', id) →
  step_ok t t' tk (at_phase (Sending k id) tk).
Proof.
  intros Hwf [Hlog Hph Hopen Hsc] Ep Hb. unfold delivery_begin in Hb. pose proof Hb as (_ & _ & Hr & _)%sql_insert_inv.
  set (d := mkDelivery id _ _ _ _ _ _ _ _ _ _ _) in Hr.
  assert (Hown : rows_of (tk_correlation tk) t' = rows_of (tk_correlation tk) t ++ [d]).
  { by rewrite (rows_of_insert _ _ _ _ Hr), bool_decide_true. }
  split; [eapply sql_insert_wf; [exact Hwf | | exact Hb]; done| |done| |].
  - split; [| |intros id'; simpl; intros [= <-]; by rewrite Hown, last_snoc | done].
    + simpl. unfold log_of. rewrite Hown, map_app. fold (log_of (tk_correlation tk) t). rewrite Hlog.
      unfold expected_log, recorded, pending. rewrite Ep. simpl. by rewrite app_nil_r.
    + unfold phase_ok in *. by rewrite Ep in Hph.
  - intros id' Hne. by rewrite (rows_of_insert _ _ _ _ Hr), bool_decide_false, app_nil_r.
  - intros x Hx. rewrite Hr in Hx. apply elem_of_app in Hx as [Hx|Hx%list_elem_of_singleton]; [right|left; by subst x].
    by apply list_elem_of_In, in_map, list_elem_of_In.
Qed.

Lemma take_all_but_last {A} (l : list A) (x : A) : take (length (l ++ [x]) - 1) (l ++ [x]) = l.
Proof. rewrite length_app. simpl. replace (length l + 1 - 1) with (length l) by lia. by rewrite take_app_length. Qed.

Lemma send_ok r t tk k id :
  table_wf t → task_inv t tk → tk_phase tk = Sending k id →
  step_ok t t tk (at_phase (Recording k id) (with_outcome r tk)).
Proof.
  intros Hwf [Hlog Hph Hopen Hsc] Ep. apply same_rows_ok; [done| |done].
  unfold phase_ok in Hph. rewrite Ep in Hph. destruct Hph as (Hk & Hlen & Hf).
  assert (Ht : take (k - 1) (tk_outcomes tk ++ [r]) = tk_outcomes tk) by (rewrite <- Hlen; apply take_app_length).
  split; simpl; [| | |done].
  - rewrite Hlog. unfold expected_log, recorded, pending. rewrite Ep. simpl. by rewrite Ht.
  - unfold phase_ok. simpl. rewrite Ht, length_app, Hlen. simpl. split_and!; [lia..|done].
  - intros id' [= <-]. apply Hopen. unfold open_row. by rewrite Ep.
Qed.

Lemma record_ok now t t' tk k id r :
  table_wf t → task_inv t tk → tk_phase tk = Recording k id → last (tk_outcomes tk) = Some r →
  table_wf t' → rows t' = map (finishing now id (error_of r)) (rows t) →
  step_ok t t' tk (at_phase (match r with Ok _ => Ended | Err _ => if (k <? max_attempts)%nat then Sleeping k else Ended end) tk).
Proof.
  intros Hwf [Hlog Hph Hopen Hsc] Ep Hlast Hwf' Hr.
  unfold phase_ok in Hph. rewrite Ep in Hph. destruct Hph as (Hk & Hlen & Hf).
  apply last_Some in Hlast as [os Hos]. rewrite Hos, length_app in Hlen. simpl in Hlen.
  assert (Ht : take (k - 1) (tk_outcomes tk) = os).
  { rewrite Hos. replace (k - 1) with (length os) by lia. apply take_app_length. }
  rewrite Ht in Hf.
  destruct (finish_open now id (error_of r) t t' (tk_correlation tk) Hwf Hr) as [(l & d & Hl & Hl') Hoth].
  { apply Hopen. unfold open_row. by rewrite Ep. }
  assert (Hview : map view l = imap (outcome_entry tk) os ∧ view d = entry tk k "PENDING" None).
  { unfold log_of in Hlog. rewrite Hl, map_app in Hlog. unfold expected_log, recorded, pending in Hlog. rewrite Ep, Ht in Hlog.
    simpl in Hlog. apply app_inj_tail in Hlog as [??]. done. }
  destruct Hview as [Hv1 Hv2]. set (next := match r with Ok _ => Ended | Err _ => _ end).
  assert (Hnext : (next = Ended ∨ next = Sleeping k ∧ k < max_attempts ∧ failed r)).
  { unfold next, failed. destruct r; [by left|]. destruct (Nat.ltb_spec k max_attempts); [right; eauto | by left]. }
  split; [done| |done|done|].
  - split; [| | |done].
    + cbn [tk_correlation at_phase]. unfold log_of. rewrite Hl', map_app, Hv1. simpl (map view [_]).
      assert (Hd : view (delivery_finished now (error_of r) d) = outcome_entry tk (length os) r).
      { unfold entry, view in Hv2. injection Hv2 as E1 E2 E3 E4 E5 E6 E7 E8. unfold outcome_entry, entry, view. simpl.
        rewrite E1, E2, E3, E4, E7, E8. replace (S (length os)) with k by lia. by destruct r. }
      rewrite Hd. rewrite <- imap_snoc, <- Hos. unfold expected_log, recorded, pending.
      destruct Hnext as [-> | (-> & _)]; simpl; by rewrite app_nil_r.
    + unfold phase_ok. simpl. rewrite Hos, take_all_but_last, length_app. simpl.
      destruct Hnext as [-> | (-> & Hlt & Hr')]; [split; [lia|done] |].
      split_and!; [lia..|]. apply Forall_app. split; [done|]. by constructor.
    + intros id'. unfold open_row. simpl. by destruct Hnext as [-> | (-> & _)].
  - intros x Hx. right. rewrite Hr in Hx. apply list_elem_of_In, in_map_iff in Hx as (y & <- & Hy).
    replace (da_correlation_id (finishing now id (error_of r) y)) with (da_correlation_id y).
    + by apply list_elem_of_In, in_map.
    + unfold finishing, updated. by destruct (_ =? _)%Z.
Qed.

Lemma task_step_ok fk c n now held t tk t' tk' :
  table_wf t → task_inv t tk → task_step fk c n now held t tk = Some (t', tk') → step_ok t t' tk tk'.
Proof.
  intros Hwf Hi Hs. unfold task_step in Hs. destruct (tk_phase tk) as [|k|k id|k id|k|] eqn:Ep; [| | | | |done].
  - destruct (held <? send_limit)%nat; [|done]. injection Hs as <- <-. apply same_rows_ok; [done| |done].
    destruct Hi as [Hlog Hph Hopen Hsc]. split; [| |done|done].
    + simpl. rewrite Hlog. unfold expected_log, recorded, pending. by rewrite Ep.
    + unfold phase_ok in *. rewrite Ep in Hph. simpl. rewrite Hph. unfold max_attempts. simpl. split_and!; [lia..|done|done].
  - destruct (delivery_begin _ _ _ _ _ _ _ _ _ _) as [[t1 id]|e] eqn:Hb; injection Hs as <- <-; [by eapply begin_ok|].
    apply same_rows_ok; [done| |done]. destruct Hi as [Hlog Hph Hopen Hsc]. split; [| |done|done].
    + simpl. rewrite Hlog. unfold expected_log, recorded, pending. by rewrite Ep.
    + unfold phase_ok in *. rewrite Ep in Hph. destruct Hph as (Hk & Hlen & Hf). simpl.
      split; [unfold max_attempts in *; lia | by apply Forall_take].
  - injection Hs as <- <-. by apply send_ok.
  - destruct (last (tk_outcomes tk)) as [r|] eqn:El; [|done].
    destruct (delivery_finish_spec now id (error_of r) t Hwf) as (t1 & k1 & E & Hwf1 & Hr1). rewrite E in Hs.
    injection Hs as <- <-. by eapply record_ok.
  - injection Hs as <- <-. apply same_rows_ok; [done| |done]. destruct Hi as [Hlog Hph Hopen Hsc]. split; [| |done|done].
    + simpl. rewrite Hlog. unfold expected_log, recorded, pending. by rewrite Ep.
    + unfold phase_ok in *. rewrite Ep in Hph. destruct Hph as (Hk & Hlen & Hf). simpl.
      unfold max_attempts in *. split_and!; [lia..|done].
Qed.
End steps.

(** ** The invariant of the system *)

Section system.
Context `{JsonText, NotifyWorld}.

Lemma task_inv_frame t t' tk :
  rows_of (tk_correlation tk) t' = rows_of (tk_correlation tk) t → task_inv t tk → task_inv t' tk.
Proof. intros Hr [Hlog Hph Hopen Hsc]. split; try done; [unfold log_of | intros id Hid]; rewrite Hr; auto. Qed.

Lemma notify_task scope trigger m ids channels tk :
  tk ∈ notify scope trigger m ids channels →
  tk_phase tk = Waiting ∧ tk_outcomes tk = [] ∧ tk_correlation tk ∈ ids ∧ in_scope tk.
Proof.
  unfold notify. intros [i Hi]%list_elem_of_lookup. apply lookup_zip_with_Some in Hi as (x & id & -> & Hx & Hid).
  apply list_elem_of_lookup_2 in Hx, Hid. split_and!; try done.
  split; [apply elem_of_filterb in Hx as [_ ?]; done|]. simpl. apply elem_of_filterb in Hx as [Hx _].
  destruct scope as [org|]; [|done]. by apply elem_of_filterb in Hx as [_ ?%Z.eqb_eq].
Qed.

Lemma notify_correlations scope trigger m ids channels :
  length ids = length (targets scope trigger channels) → map tk_correlation (notify scope trigger m ids channels) = ids.
Proof.
  unfold notify. generalize (targets scope trigger channels). induction ids as [|id ids IH]; intros [|x l] Hl; try done.
  simpl in *. f_equal. apply IH. lia.
Qed.

Lemma permits_notify scope trigger m ids channels tasks :
  permits_held (tasks ++ notify scope trigger m ids channels) = permits_held tasks.
Proof.
  unfold permits_held. rewrite List.filter_app, length_app.
  assert (E : List.filter holds_permit (notify scope trigger m ids channels) = []); [|rewrite E; simpl; lia].
  unfold notify. generalize (targets scope trigger channels). induction ids as [|id ids IH]; intros [|x l]; try done. simpl. apply IH.
Qed.

Lemma notify_step_inv s scope trigger m ids channels :
  system_inv s → length ids = length (targets scope trigger channels) → NoDup ids →
  (∀ id, id ∈ ids → id ∉ map tk_correlation (sy_tasks s)) →
  system_inv (mkSystem (sy_deliveries s) (sy_tasks s ++ notify scope trigger m ids channels)).
Proof.
  intros [Hwf Hnd Hkn Ht Hp] Hlen Hids Hfresh. split; simpl.
  - done.
  - rewrite map_app, notify_correlations by done. apply NoDup_app. split_and!; [done| |done]. intros id Hid Hin. by apply (Hfresh id).
  - intros d Hd. rewrite map_app. apply elem_of_app. left. auto.
  - intros tk [Htk|Htk]%elem_of_app; [auto|]. apply notify_task in Htk as (Ep & Eo & Hid & Hsc).
    assert (Hr : rows_of (tk_correlation tk) (sy_deliveries s) = []).
    { destruct (rows_of (tk_correlation tk) (sy_deliveries s)) as [|d l] eqn:E; [done|].
      assert (Hd : d ∈ rows_of (tk_correlation tk) (sy_deliveries s)) by (rewrite E; left).
      apply rows_of_elem in Hd as [Hd Hc]. destruct (Hfresh (tk_correlation tk) Hid). rewrite <- Hc. by apply Hkn. }
    split; [|by unfold phase_ok; rewrite Ep | by unfold open_row; rewrite Ep | done].
    unfold log_of, expected_log, recorded, pending. by rewrite Hr, Ep, Eo.
  - by rewrite permits_notify.
Qed.

(** The permits after a task moved on *)
Lemma permits_insert tasks i tk tk' :
  tasks !! i = Some tk →
  permits_held (<[i := tk']> tasks) + (if holds_permit tk then 1 else 0)
  = permits_held tasks + (if holds_permit tk' then 1 else 0).
Proof.
  intros Hi. unfold permits_held. pose proof (take_drop_middle _ _ _ Hi) as E.
  rewrite (insert_take_drop tasks i tk') by (by eapply lookup_lt_Some).
  rewrite <- E at 3. rewrite !List.filter_app, !length_app. simpl.
  destruct (holds_permit tk), (holds_permit tk'); simpl; lia.
Qed.

Lemma step_permit fk c n now held t tk t' tk' :
  task_step fk c n now held t tk = Some (t', tk') →
  (holds_permit tk = true) ∨ (holds_permit tk' = false) ∨ (held < send_limit ∧ holds_permit tk = false).
Proof.
  unfold task_step, holds_permit. destruct (tk_phase tk); try (by left).
  destruct (Nat.ltb_spec held send_limit); [|done]. intros [= <- <-]. by right; right.
Qed.

Lemma task_step_inv s i fk c n now tk tk' t' :
  system_inv s → sy_tasks s !! i = Some tk →
  task_step fk c n now (permits_held (sy_tasks s)) (sy_deliveries s) tk = Some (t', tk') →
  system_inv (mkSystem t' (<[i := tk']> (sy_tasks s))).
Proof.
  intros [Hwf Hnd Hkn Ht Hp] Hi Hs. assert (Hin : tk ∈ sy_tasks s) by (by eapply list_elem_of_lookup_2).
  destruct (task_step_ok fk c n now _ _ _ _ _ Hwf (Ht tk Hin) Hs) as [Hwf' Htk' Hsame Hoth Hkn'].
  assert (Hmap : map tk_correlation (<[i := tk']> (sy_tasks s)) = map tk_correlation (sy_tasks s)).
  { change (map tk_correlation) with (fmap (M := list) tk_correlation). rewrite list_fmap_insert. apply list_insert_id.
    rewrite list_lookup_fmap, Hi. simpl. by rewrite Hsame. }
  split; simpl.
  - done.
  - by rewrite Hmap.
  - intros d Hd. rewrite Hmap. destruct (Hkn' d Hd) as [->|(x & -> & Hx)%elem_of_mapb]; [|auto].
    by apply list_elem_of_In, in_map, list_elem_of_In.
  - intros x Hx. apply list_elem_of_lookup in Hx as [j Hj]. destruct (decide (i = j)) as [<-|Hne].
    + rewrite list_lookup_insert_eq in Hj by (by eapply lookup_lt_Some). by injection Hj as <-.
    + rewrite list_lookup_insert_ne in Hj by done.
      assert (Hx : x ∈ sy_tasks s) by (by eapply list_elem_of_lookup_2).
      apply (task_inv_frame (sy_deliveries s)); [|auto]. apply Hoth. intros E. apply Hne.
      apply (NoDup_lookup _ _ _ (tk_correlation tk) Hnd); change (map tk_correlation) with (fmap (M := list) tk_correlation);
        rewrite list_lookup_fmap; [by rewrite Hi | by rewrite Hj; simpl; rewrite E].
  - pose proof (permits_insert _ _ _ tk' Hi) as Hc. pose proof (step_permit _ _ _ _ _ _ _ _ _ Hs) as Hb.
    destruct (holds_permit tk), (holds_permit tk'); destruct Hb as [?|[?|[??]]]; simpl in *; try done; lia.
Qed.

Lemma reachable_inv s : reachable s → system_inv s.
Proof.
  intros Hr. unfold reachable in Hr. remember start as s0 eqn:E0.
  assert (Hstart : system_inv s0).
  { subst s0. split; simpl; [apply empty_table_wf | constructor | set_solver | set_solver | unfold permits_held; simpl; lia]. }
  clear E0. induction Hr as [|s1 s2 s3 Hs _ IH]; [done|]. apply IH. destruct Hs; [by apply notify_step_inv | by eapply task_step_inv].
Qed.

(** C33: In every reachable state of the dispatcher the rows a task has in the delivery table
    are its finished attempts, in order, the i-th with number i and the outcome it had, and the
    attempt in progress as pending; every attempt but the last failed, there are at most three,
    and the channel is one the notification may reach. *)
Theorem delivery_log_is_faithful s tk :
  reachable s → tk ∈ sy_tasks s →
  log_of (tk_correlation tk) (sy_deliveries s) = expected_log tk
  ∧ length (tk_outcomes tk) ≤ max_attempts
  ∧ Forall failed (take (length (tk_outcomes tk) - 1) (tk_outcomes tk))
  ∧ in_scope tk.
Proof.
  intros Hr Htk. destruct (inv_tasks s (reachable_inv s Hr) tk Htk) as [Hlog Hph _ Hsc].
  split; [done|]. cut (length (tk_outcomes tk) ≤ max_attempts ∧ Forall failed (take (length (tk_outcomes tk) - 1) (tk_outcomes tk)));
    [by intros [??]|]. unfold phase_ok in Hph.
  destruct (tk_phase tk) as [|k|k id|k id|k|].
  - rewrite Hph. simpl. split; [lia|constructor].
  - destruct Hph as (? & ? & ?). split; [lia|by apply Forall_take].
  - destruct Hph as (? & ? & ?). split; [lia|by apply Forall_take].
  - destruct Hph as (? & -> & ?). split; [lia|done].
  - destruct Hph as (? & ? & ?). split; [lia|by apply Forall_take].
  - done.
Qed.

(** At most five tasks are past their wait for a permit. *)
Theorem permits_are_respected s : reachable s → permits_held (sy_tasks s) ≤ send_limit.
Proof. intros Hr. apply (inv_permits s (reachable_inv s Hr)). Qed.

(** ** The tasks end *)

(** The steps a task still makes *)
Definition steps_left (tk : Task) : nat :=
  match tk_phase tk with
  | Waiting => 13
  | Starting k => 4 * (max_attempts - k) + 4
  | Sending k _ => 4 * (max_attempts - k) + 3
  | Recording k _ => 4 * (max_attempts - k) + 2
  | Sleeping k => 4 * (max_attempts - k) + 1
  | Ended => 0
  end.

Lemma task_step_decreases fk c n now held t tk t' tk' :
  phase_ok tk → task_step fk c n now held t tk = Some (t', tk') → steps_left tk' < steps_left tk.
Proof.
  unfold task_step, steps_left, phase_ok, max_attempts. intros Hph. destruct (tk_phase tk) as [|k|k id|k id|k|] eqn:Ep; [| | | | |done].
  - destruct (held <? send_limit)%nat; [|done]. intros [= <- <-]. simpl. lia.
  - destruct (delivery_begin _ _ _ _ _ _ _ _ _ _) as [[t1 id]|e]; intros [= <- <-]; simpl; lia.
  - intros [= <- <-]. simpl. lia.
  - destruct (last (tk_outcomes tk)) as [[|e]|]; [| |done]; intros [= <- <-]; simpl; [lia|].
    destruct (Nat.ltb_spec k 3); simpl; lia.
  - intros [= <- <-]. simpl. lia.
Qed.

(** A task that holds a permit can always move, and so can a waiting one while a permit is free. *)
Lemma task_can_move fk c n now held t tk :
  phase_ok tk → tk_phase tk ≠ Ended → holds_permit tk = true ∨ held < send_limit →
  ∃ t' tk', task_step fk c n now held t tk = Some (t', tk').
Proof.
  unfold task_step, holds_permit, phase_ok. intros Hph Hne Hh. destruct (tk_phase tk) as [|k|k id|k id|k|] eqn:Ep; [| | | | |done].
  - destruct Hh as [?|Hh]; [done|]. destruct (Nat.ltb_spec held send_limit); [by eexists _, _ | lia].
  - destruct (delivery_begin _ _ _ _ _ _ _ _ _ _) as [[t1 id]|e]; by eexists _, _.
  - by eexists _, _.
  - destruct Hph as (Hk & Hlen & _). destruct (last (tk_outcomes tk)) as [r|] eqn:El; [by eexists _, _|].
    apply last_None in El. rewrite El in Hlen. simpl in Hlen. lia.
  - by eexists _, _.
Qed.

Definition total_steps (tasks : list Task) : nat := list_sum (map steps_left tasks).

Lemma total_steps_insert tasks i tk tk' :
  tasks !! i = Some tk → steps_left tk' < steps_left tk → total_steps (<[i := tk']> tasks) < total_steps tasks.
Proof.
  intros Hi Hlt. unfold total_steps. pose proof (take_drop_middle _ _ _ Hi) as E.
  rewrite (insert_take_drop tasks i tk') by (by eapply lookup_lt_Some). rewrite <- E at 3.
  rewrite !map_app, !list_sum_app. simpl. lia.
Qed.

(** Once no more calls come, the dispatcher makes at most thirteen steps for every task and stops
    only when every task has ended: it can move as long as one has not. *)
Theorem every_task_ends s :
  reachable s →
  (∀ i fk c n now tk t' tk', sy_tasks s !! i = Some tk →
     task_step fk c n now (permits_held (sy_tasks s)) (sy_deliveries s) tk = Some (t', tk') →
     total_steps (<[i := tk']> (sy_tasks s)) < total_steps (sy_tasks s))
  ∧ ((∃ tk, tk ∈ sy_tasks s ∧ tk_phase tk ≠ Ended) →
     ∀ fk c n now, ∃ i tk t' tk', sy_tasks s !! i = Some tk
       ∧ task_step fk c n now (permits_held (sy_tasks s)) (sy_deliveries s) tk = Some (t', tk')).
Proof.
  intros Hr. pose proof (reachable_inv s Hr) as Hinv. split.
  - intros i fk c n now tk t' tk' Hi Hs. eapply total_steps_insert; [done|].
    eapply task_step_decreases; [|done]. by apply (inv_tasks s Hinv), list_elem_of_lookup_2 with i.
  - intros (tk & Htk & Hne) fk c n now.
    assert (Hex : ∃ tk, tk ∈ sy_tasks s ∧ tk_phase tk ≠ Ended ∧ (holds_permit tk = true ∨ permits_held (sy_tasks s) < send_limit)).
    { destruct (List.filter holds_permit (sy_tasks s)) as [|x l] eqn:E.
      - exists tk. split_and!; try done. right. unfold permits_held. rewrite E. simpl. unfold send_limit. lia.
      - assert (Hx : x ∈ List.filter holds_permit (sy_tasks s)) by (rewrite E; left).
        apply elem_of_filterb in Hx as [Hx Hh]. exists x. split_and!; [done| |by left]. unfold holds_permit in Hh. by destruct (tk_phase x). }
    destruct Hex as (x & Hx & Hxe & Hh). pose proof Hx as [i Hi]%list_elem_of_lookup.
    destruct (task_can_move fk c n now (permits_held (sy_tasks s)) (sy_deliveries s) x) as (t' & tk' & Hs); try done.
    + by apply (inv_tasks s Hinv).
    + by exists i, x, t', tk'.
Qed.
End system.

(** ** A run *)

#[local] Existing Instance Notifications.sample_json.
#[local] Existing Instance Notifications.sample_web.

Definition move (c : Configs) (s : System) (m : nat * nat * Z) : option System :=
  let '(i, n, now) := m in
  tk ← sy_tasks s !! i;
  '(t', tk') ← task_step (λ _, true) c n now (permits_held (sy_tasks s)) (sy_deliveries s) tk;
  Some (mkSystem t' (<[i := tk']> (sy_tasks s))).
Fixpoint moves (c : Configs) (plan : list (nat * nat * Z)) (s : System) : option System :=
  match plan with [] => Some s | m :: plan' => s' ← move c s m; moves c plan' s' end.

Lemma moves_reach c plan s s' : moves c plan s = Some s' → rtc system_step s s'.
Proof.
  revert s. induction plan as [|[[i n] now] plan IH]; intros s; cbn [moves]; [by intros [= <-]; constructor|].
  unfold move. destruct (sy_tasks s !! i) as [tk|] eqn:Hi; [|done]. simpl.
  destruct (task_step _ _ _ _ _ _ _) as [[t' tk']|] eqn:Hs; [|done]. simpl. intros Hm.
  eapply rtc_l; [by eapply step_task | by apply IH].
Qed.

Definition sample_channels : Table Notification :=
  mkTable [sample_notification 1 7 (Some 5%Z); sample_notification 2 8 (Some 5%Z); sample_notification 3 7 None] 3.
Definition called : System :=
  mkSystem empty_table (notify (Organization 7) AppDeploy sample_message ["c1"; "c2"] sample_channels).
(** The first task is refused twice and then answered; the second, which has no configuration,
    begins in between. *)
Definition sample_plan : list (nat * nat * Z) :=
  [(0, 0, 10%Z); (0, 0, 10%Z); (1, 0, 11%Z); (0, 0, 12%Z); (0, 0, 12%Z); (1, 0, 12%Z); (0, 0, 13%Z); (0, 1, 13%Z);
   (0, 1, 14%Z); (0, 1, 14%Z); (0, 2, 16%Z); (0, 2, 16%Z); (0, 2, 17%Z); (0, 2, 17%Z)].
Definition called_later : System :=
  Eval vm_compute in default called (moves (sample_configs "http://example.org") sample_plan called).
Definition first_task : Task := Eval vm_compute in default (mkTask AllOrganizations AppDeploy sample_message
  (sample_notification 0 0 None) "" Waiting []) (sy_tasks called_later !! 0).

Lemma called_later_reachable : reachable called_later.
Proof.
  apply rtc_l with called.
  - change called with (mkSystem (sy_deliveries start) (sy_tasks start ++ notify (Organization 7) AppDeploy sample_message ["c1"; "c2"] sample_channels)).
    apply step_notify; [reflexivity | repeat constructor; set_solver | set_solver].
  - apply (moves_reach (sample_configs "http://example.org") sample_plan). vm_compute. reflexivity.
Qed.

Lemma delivery_log_is_faithful_witness :
  map en_status (log_of "c1" (sy_deliveries called_later)) = ["FAILED"; "FAILED"; "DELIVERED"]
  ∧ log_of "c1" (sy_deliveries called_later) = expected_log first_task
  ∧ map en_status (log_of "c2" (sy_deliveries called_later)) = ["PENDING"].
Proof.
  split; [reflexivity|]. split; [|reflexivity].
  apply (delivery_log_is_faithful called_later first_task called_later_reachable). left.
Defined.

(** The panel stops: a row that was pending stays so, and a later start has no task for it. *)
Example pending_row_outlives_its_task :
  map en_status (log_of "c2" (sy_deliveries (mkSystem (sy_deliveries called_later) []))) = ["PENDING"].
Proof. reflexivity. Qed.
