(* ===== verification/TraefikFiles.v ===== *)
(** * Traefik's configuration files

    [services/traefik.rs]: the paths a request may name, reading and writing a file with the check
    of Traefik's own view of the configuration, the list and the tree of files, the access log and
    its pages, the version and the rendering of a middleware.  The machines are a parameter: a
    state, the commands that are run on them and the texts of their files, with the laws of the
    commands that the theorems use; so are the readers of YAML, JSON and numbers.  Accepted paths
    stay below their directory ([accepted_paths_stay_inside]), a file is written and accepted or
    keeps its earlier text ([write_is_all_or_nothing]), the tree shows every file exactly once
    ([tree_shows_every_file]) and the pages of the log are its entries ([pages_are_the_log]). *)

From stdpp Require Import gmap strings list sorting.
From Stdlib Require Import ZArith Lia Ascii Floats.
From S2P Require Import Prelude RustStr RustText F64 Sql ComposeYaml JsonValue ShellQuote ShellScript TraefikLabels Rclone.

(** ** Bodies *)

Record TraefikFileNodeDto := mkFileNode {
  fn_name : string; fn_relative_path : string; fn_size : Z; fn_is_readonly : bool; fn_modified_at : Z }.
Inductive TraefikFileTreeNodeDto := mkTreeNode {
  tn_name : string; tn_relative_path : string; tn_node_type : string; tn_size : Z; tn_is_readonly : bool; tn_modified_at : Z;
  tn_children : list TraefikFileTreeNodeDto }.
Record TraefikWriteFileDto := mkWriteFile { wf_server_id : option Z; wf_path : string; wf_content : string }.
Record TraefikFileContentDto := mkFileContent { fc_path : string; fc_content : string; fc_is_readonly : bool }.
Record TraefikHealthResponseDto := mkHealth { hr_is_healthy : bool; hr_rawdata_status : string; hr_configuration_errors : list string }.
Record TraefikRequestsStatusDto := mkRequestsStatus { rq_is_active : bool; rq_log_path : string; rq_cron_expression : string }.
Record TraefikLogEntryDto := mkLogEntry {
  le_timestamp : string; le_client_ip : string; le_method : string; le_path : string; le_status : Z; le_duration_ms : f64;
  le_service_name : string; le_router_name : string }.
Record TraefikStatsLogsQueryDto := mkLogsQuery {
  lq_server_id : option Z; lq_page : option Z; lq_page_size : option Z; lq_search : option string; lq_status : option Z }.
Record TraefikStatsLogsResponseDto := mkLogsResponse {
  lr_items : list TraefikLogEntryDto; lr_total_count : Z; lr_page : Z; lr_page_size : Z }.
Record TraefikVersionDto := mkVersion { ve_server_id : option Z; ve_current_image : string; ve_desired_version : string }.
Inductive StructuredMiddlewareKind :=
  | KindStripPrefix | KindAddPrefix | KindRedirectScheme | KindCompress | KindRateLimit | KindIpAllowList | KindRequestHeaders
  | KindResponseHeaders.
Record StructuredMiddlewareDto := mkMiddlewareDto {
  sd_kind : StructuredMiddlewareKind; sd_name : string; sd_values : gmap string string; sd_list : list string }.
Record StructuredMiddlewareResponseDto := mkMiddlewareResponse { sr_reference : string; sr_labels : gmap string string }.

(** ** The machines *)

Inductive FileCommand :=
| Mkdir (path : string)                    (* [mkdir -p] *)
| Cp (source target : string)              (* [if test -f source; then cp -f source target; else true; fi] *)
| Mv (source target : string)
| Tee (path content : string)
| Cat (path : string)
| RmDir (path : string).                   (* [rm -rf] *)
Inductive DockerCommand :=
| PullImage (image : string) | RemoveContainer (name : string) | EnsureTraefik (version : string) | InspectImage (name : string).

Class TraefikWorld := {
  Host : Type;
  tw_base_env : option string;                                (* TRAEFIK_BASE_PATH *)
  tw_base : string;                                           (* [openoxide_paths().base] *)
  tw_connect : Z → result unit string;
  tw_run : option Z → FileCommand → Host → Host * result ExecOutput string;
  tw_text : option Z → string → Host → option string;         (* the text of a file *)
  tw_rawdata : option Z → Host → result ExecOutput string;    (* GET of Traefik's raw data *)
  tw_find : option Z → string → Host → result ExecOutput string;
  tw_docker : option Z → DockerCommand → Host → Host * result string string;
  tw_yaml : string → result Value string;
  tw_yaml_print : Value → result string string;
  tw_epoch : string → option Z;                               (* [f64] text, not below 0, as [u64] *)
  tw_number : JNumber → f64;
  tw_lower : string → string;                                 (* lower case beyond ASCII *)
}.

Section service.
Context `{JsonText, TraefikWorld}.
Definition TrM := SE Host string.

(** ** Paths *)

Definition get_traefik_base_path : string :=
  match tw_base_env with
  | Some v => let v := trim_end_char "/" (trim v) in if str_is_empty v then tw_base +:+ "/traefik" else v
  | None => tw_base +:+ "/traefik"
  end.

Definition get_executor (server_id : option Z) : TrM (option Z) :=
  match server_id with
  | Some id => if (0 <? id)%Z then match tw_connect id with Ok _ => ret (Some id) | Err e => fail e end else ret None
  | None => ret None
  end.

(** [Path::join] and [Path::extension] *)
Definition path_join (base rel : string) : string :=
  if is_absolute rel then rel else if str_is_empty base || ends_with "/" base then base +:+ rel else base +:+ "/" +:+ rel.
Definition path_extension (p : string) : option string :=
  match file_name p ≫= rsplit_once "." with Some (stem, ext) => if str_is_empty stem then None else Some ext | None => None end.
(** [Path::parent] of a path that ends with a name *)
Definition skipped (part : string) : bool := str_is_empty part || bool_decide (part = ".").
Fixpoint drop_skipped (l : list string) : list string :=
  match l with part :: l' => if skipped part then drop_skipped l' else l | [] => [] end.
Definition path_parent (p : string) : string :=
  let parts := split_on (λ c, is_char c "/") p in
  match drop_skipped (tail (drop_skipped (rev parts))) with
  | [] => if is_absolute p then "/" else if bool_decide (head parts = Some ".") then "." else ""
  | l => join "/" (rev l)
  end.

Definition is_config_extension (p : string) : bool :=
  match path_extension p with Some ext => bool_decide (ext ∈ ["yml"; "yaml"; "json"]) | None => false end.
Definition sanitize_traefik_path (relative_path : string) (allow_etc_traefik : bool) : result string string :=
  let clean_path := trim relative_path in
  if str_is_empty clean_path then Err "Security Error: File path is required"
  else if existsb (λ c, is_char c "000" || is_char c "\") (chars clean_path) then Err "Security Error: Invalid file path"
  else
    let base_dir := get_traefik_base_path in
    let full_path := if is_absolute clean_path then clean_path else path_join base_dir clean_path in
    if bool_decide (ParentDir ∈ components full_path) then Err "Security Error: Path traversal detected in file path"
    else if negb (path_starts_with full_path base_dir) && negb (allow_etc_traefik && path_starts_with full_path "/etc/traefik")
    then Err ("Security Error: File path must remain inside " +:+ base_dir)
    else if negb (is_config_extension full_path) && negb (bool_decide (default "" (file_name full_path) = "acme.json"))
    then Err "Security Restriction: Only .yml, .yaml, and .json files are accessible"
    else Ok full_path.
Definition sanitize_read_path (relative_path : string) : result string string := sanitize_traefik_path relative_path true.
Definition sanitize_write_path (relative_path : string) : result string string := sanitize_traefik_path relative_path false.

(** ** Files *)

Definition run_command (host : option Z) (c : FileCommand) : TrM ExecOutput := tw_run host c.
Definition with_message {A} (prefix : string) (m : TrM A) : TrM A := λ s,
  let '(s', r) := m s in (s', match r with Ok a => Ok a | Err e => Err (prefix +:+ e) end).

Definition read_file (server_id : option Z) (relative_path : string) : TrM TraefikFileContentDto :=
  (do! path := of_result (sanitize_read_path relative_path) in
   do! host := get_executor server_id in
   do! output := with_message "Failed to read file content: " (run_command host (Cat path)) in
   do! _ := guard (negb (ex_success output)) ("Could not read file '" +:+ path +:+ "': " +:+ ex_stderr output) in
   ret (mkFileContent relative_path (ex_stdout output) (ends_with "acme.json" path)))%rust.

(** The errors that the routers or the services of the raw data have *)
Definition config_errors (label key : string) (v : JValue) : list string :=
  match at_key key v with
  | VObject members =>
      omap (λ '(name, item), (λ e, label +:+ " '" +:+ name +:+ "': " +:+ e) <$> as_str_value (at_key "error" item)) members
  | _ => []
  end.
Definition check_health (server_id : option Z) : TrM TraefikHealthResponseDto :=
  (do! host := get_executor server_id in
   λ s,
     let raw := match tw_rawdata host s with Ok out => if ex_success out then trim (ex_stdout out) else "" | Err _ => "" end in
     (s, Ok (if str_is_empty raw then
               mkHealth false "unreachable" ["Traefik API (:8080) unreachable or returning empty rawdata"]
             else
               let errors := match json_parse raw with
                             | Some v => config_errors "Router" "routers" v ++ config_errors "Service" "services" v
                             | None => []
                             end in
               mkHealth (bool_decide (errors = [])) "ok" errors)))%rust.

Definition is_yaml_path (path : string) : bool := ends_with ".yml" path || ends_with ".yaml" path.
Definition backup_of (path : string) : string := path +:+ ".bak".
Definition temporary_of (path : string) : string := path +:+ ".tmp".
(** What is written when the health has been asked *)
Definition refused_message (health : TraefikHealthResponseDto) (rollback : result ExecOutput string) : string :=
  "Traefik rejected the configuration; previous file restored: " +:+ join "; " (hr_configuration_errors health)
  +:+ match rollback with Err error => "; rollback error: " +:+ error | Ok _ => "" end.
Definition attempt {A} (m : TrM A) : TrM (result A string) := λ s, let '(s', r) := m s in (s', Ok r).

(** From the directory of the file to the answer of Traefik *)
Definition replace_file (server_id host : option Z) (path content : string) : TrM unit :=
  (do! _ := ignore (run_command host (Mkdir (path_parent path))) in
   do! _ := ignore (run_command host (Cp path (backup_of path))) in
   do! written := with_message "Failed to write temporary file: " (run_command host (Tee (temporary_of path) content)) in
   do! _ := guard (negb (ex_success written)) ("Failed to write content: " +:+ ex_stderr written) in
   do! renamed := with_message "Failed to apply file updates: " (run_command host (Mv (temporary_of path) path)) in
   do! _ := guard (negb (ex_success renamed)) ("Failed to finalize file update: " +:+ ex_stderr renamed) in
   do! health := check_health server_id in
   if hr_is_healthy health then ret tt
   else do! rollback := attempt (run_command host (Cp (backup_of path) path)) in
        fail (refused_message health rollback))%rust.
Definition yaml_checked (path content : string) : result unit string :=
  if is_yaml_path path then match tw_yaml content with Ok _ => Ok tt | Err e => Err ("YAML Syntax Validation Error: " +:+ e) end else Ok tt.
Definition write_file (payload : TraefikWriteFileDto) : TrM unit :=
  (do! path := of_result (sanitize_write_path (wf_path payload)) in
   do! _ := guard (ends_with "acme.json" path) "Security Violation: acme.json is read-only and cannot be modified" in
   do! _ := of_result (yaml_checked path (wf_content payload)) in
   do! host := get_executor (wf_server_id payload) in
   replace_file (wf_server_id payload) host path (wf_content payload))%rust.

Definition delete_directory (server_id : option Z) (relative_path : string) : TrM unit :=
  (do! path := of_result (sanitize_write_path relative_path) in
   do! host := get_executor server_id in
   do! _ := with_message "Failed to delete certificate directory: " (run_command host (RmDir path)) in
   ret tt)%rust.

(** ** The list of files *)

(** [str::parse::<u64>] *)
Definition parse_u64 (s : string) : option Z :=
  v ← (match s with String "+" s' => unsigned_value s' | _ => unsigned_value s end);
  if (v <? 2 ^ 64)%Z then Some v else None.
(** [splitn(3, '\t')] *)
Definition splitn3 (c : ascii) (s : string) : string * option string * option string :=
  match split_once c s with
  | None => (s, None, None)
  | Some (a, rest) => match split_once c rest with None => (a, Some rest, None) | Some (b, c') => (a, Some b, Some c') end
  end.
Definition relative_to (base_dir path file_name : string) : string :=
  if starts_with base_dir path then trim_start_char "/" (default path (strip_prefix base_dir path))
  else if starts_with "/etc/traefik" path then trim_start_char "/" (default path (strip_prefix "/etc/traefik" path))
  else file_name.
Definition file_node (base_dir line : string) : option TraefikFileNodeDto :=
  let '(first, second, third) := splitn3 tab line in
  let path := trim first in
  if str_is_empty path then None else
  let size := default 0%Z (second ≫= parse_u64) in
  let modified_at := default 0%Z (third ≫= tw_epoch) in
  let name := default path (file_name path) in
  if negb (ends_with ".yml" name || ends_with ".yaml" name || ends_with ".json" name) then None
  else Some (mkFileNode name (relative_to base_dir path name) size (bool_decide (name = "acme.json")) modified_at).

Definition path_order (a b : TraefikFileNodeDto) : bool := str_le (fn_relative_path a) (fn_relative_path b).
(** [dedup_by]: of neighbours with one path the first stays *)
Fixpoint dedup_nodes (l : list TraefikFileNodeDto) : list TraefikFileNodeDto :=
  match l with
  | [] => []
  | a :: l' =>
      match dedup_nodes l' with
      | b :: r => if bool_decide (fn_relative_path b = fn_relative_path a) then a :: r else a :: b :: r
      | [] => [a]
      end
  end.
Definition nodes_of (base_dir stdout : string) : list TraefikFileNodeDto :=
  dedup_nodes (sql_order_by path_order (omap (file_node base_dir) (lines stdout))).
Definition list_files (server_id : option Z) : TrM (list TraefikFileNodeDto) :=
  (do! host := get_executor server_id in
   let base_dir := get_traefik_base_path in
   do! output := with_message "Failed to list Traefik configuration files: " (λ s, (s, tw_find host base_dir s)) in
   ret (nodes_of base_dir (ex_stdout output)))%rust.

(** ** The tree of files *)

Definition parts_of (path : string) : list string := split_on (λ c, is_char c "/") path.
Definition node_at (name relative_path : string) (n : TraefikFileTreeNodeDto) : bool :=
  bool_decide (tn_name n = name) && bool_decide (tn_relative_path n = relative_path).
(** [position] with an update of the node that was found *)
Fixpoint update_first (p : TraefikFileTreeNodeDto → bool) (f : TraefikFileTreeNodeDto → TraefikFileTreeNodeDto)
    (l : list TraefikFileTreeNodeDto) : option (list TraefikFileTreeNodeDto) :=
  match l with
  | [] => None
  | n :: l' => if p n then Some (f n :: l') else (λ r, n :: r) <$> update_first p f l'
  end.
Definition as_file (file : TraefikFileNodeDto) (n : TraefikFileTreeNodeDto) : TraefikFileTreeNodeDto :=
  mkTreeNode (tn_name n) (tn_relative_path n) "file" (fn_size file) (fn_is_readonly file) (fn_modified_at file) (tn_children n).
Definition with_children (children : list TraefikFileTreeNodeDto) (n : TraefikFileTreeNodeDto) : TraefikFileTreeNodeDto :=
  mkTreeNode (tn_name n) (tn_relative_path n) (tn_node_type n) (tn_size n) (tn_is_readonly n) (tn_modified_at n) children.
Definition new_node (name relative_path : string) (is_file : bool) (file : TraefikFileNodeDto) : TraefikFileTreeNodeDto :=
  mkTreeNode name relative_path (if is_file then "file" else "directory") (if is_file then fn_size file else 0%Z)
    (is_file && fn_is_readonly file) (if is_file then fn_modified_at file else 0%Z) [].
Fixpoint insert_file_tree_node (parts : list string) (file : TraefikFileNodeDto) (siblings : list TraefikFileTreeNodeDto)
    : list TraefikFileTreeNodeDto :=
  match parts with
  | [] => siblings                            (* not called: [parts[0]] *)
  | name :: rest =>
      let is_file := bool_decide (rest = []) in
      let relative_path :=
        if is_file then fn_relative_path file
        else let all := parts_of (fn_relative_path file) in
             join "/" (take (length all - length parts + 1) all) in
      let visit n := if is_file then as_file file n else with_children (insert_file_tree_node rest file (tn_children n)) n in
      match update_first (node_at name relative_path) visit siblings with
      | Some updated => updated
      | None => siblings ++ [visit (new_node name relative_path is_file file)]
      end
  end.

Definition is_directory (n : TraefikFileTreeNodeDto) : bool := bool_decide (tn_node_type n = "directory").
(** Directories first, then by name *)
Definition tree_order (a b : TraefikFileTreeNodeDto) : bool :=
  match is_directory a, is_directory b with
  | true, false => true
  | false, true => false
  | _, _ => str_le (tn_name a) (tn_name b)
  end.
(** The order does not look at the children, so they are sorted first. *)
Fixpoint sort_node (n : TraefikFileTreeNodeDto) : TraefikFileTreeNodeDto :=
  match n with
  | mkTreeNode name path type size readonly modified children =>
      mkTreeNode name path type size readonly modified (sql_order_by tree_order (map sort_node children))
  end.
Definition sort_file_tree (nodes : list TraefikFileTreeNodeDto) : list TraefikFileTreeNodeDto :=
  sql_order_by tree_order (map sort_node nodes).
Definition add_file (roots : list TraefikFileTreeNodeDto) (file : TraefikFileNodeDto) : list TraefikFileTreeNodeDto :=
  match List.filter (λ p, negb (str_is_empty p)) (parts_of (fn_relative_path file)) with
  | [] => roots
  | parts => insert_file_tree_node parts file roots
  end.
Definition build_file_tree (files : list TraefikFileNodeDto) : list TraefikFileTreeNodeDto := sort_file_tree (foldl add_file [] files).
Definition list_file_tree (server_id : option Z) : TrM (list TraefikFileTreeNodeDto) :=
  (do! files := list_files server_id in ret (build_file_tree files))%rust.

(** ** The access log *)

Definition main_config_path : string := get_traefik_base_path +:+ "/traefik.yml".
Definition access_log_path : string := get_traefik_base_path +:+ "/dynamic/access.log".
(** [Ok(o) if o.status.success() => o.stdout] *)
Definition text_or (fallback : string) (r : result ExecOutput string) : string :=
  match r with Ok o => if ex_success o then ex_stdout o else fallback | Err _ => fallback end.

Definition have_activated_requests (server_id : option Z) : TrM TraefikRequestsStatusDto :=
  (do! host := get_executor server_id in
   do! out := attempt (run_command host (Cat main_config_path)) in
   let content := text_or "" out in
   ret (mkRequestsStatus (contains "accessLog:" content || contains "accesslog:" content) access_log_path "0 0 * * *"))%rust.

Definition access_log : Value :=
  VMapping [(ComposeYaml.VString "filePath", ComposeYaml.VString access_log_path); (ComposeYaml.VString "format", ComposeYaml.VString "json");
            (ComposeYaml.VString "bufferingSize", ComposeYaml.VNumber "100")].
Definition toggled (enable : bool) (v : Value) : Value :=
  match v with
  | VMapping m =>
      VMapping (if enable then minsert (ComposeYaml.VString "accessLog") access_log m
                else mremove "accesslog" (mremove "accessLog" m))
  | v => v
  end.
Definition static_header : string := "# Traefik Static Configuration" +:+ newline.
Definition toggle_requests (server_id : option Z) (enable : bool) : TrM bool :=
  (do! host := get_executor server_id in
   do! out := attempt (run_command host (Cat main_config_path)) in
   let val := match tw_yaml (text_or static_header out) with Ok v => v | Err _ => VMapping [] end in
   do! updated := of_result (match tw_yaml_print (toggled enable val) with
                             | Ok text => Ok text
                             | Err e => Err ("YAML Serialization Error: " +:+ e)
                             end) in
   do! _ := with_message "Failed to write temporary config file: " (run_command host (Tee (temporary_of main_config_path) updated)) in
   do! _ := with_message "Failed to activate config: " (run_command host (Mv (temporary_of main_config_path) main_config_path)) in
   ret enable)%rust.

(** [v.get(a).or_else(|| v.get(b))]: a member that is null is there *)
Definition get_either (a b : string) (v : JValue) : option JValue :=
  match v with VObject o => match member a o with Some x => Some x | None => member b o end | _ => None end.
Definition get_key (a : string) (v : JValue) : option JValue := match v with VObject o => member a o | _ => None end.
Definition str_or (fallback : string) (o : option JValue) : string := default fallback (o ≫= as_str_value).
Definition as_u64_value (v : JValue) : option Z :=
  match v with VNumber (JInt n) => if (0 <=? n)%Z then Some n else None | _ => None end.
Definition as_f64_value (v : JValue) : option f64 := match v with VNumber n => Some (tw_number n) | _ => None end.

Definition log_entry (v : JValue) : TraefikLogEntryDto :=
  mkLogEntry (str_or "" (get_either "time" "StartUTC" v)) (str_or "-" (get_either "ClientHost" "ClientAddr" v))
    (str_or "GET" (get_key "RequestMethod" v)) (str_or "/" (get_key "RequestPath" v))
    (default 200 (get_either "DownstreamStatus" "OriginStatus" v ≫= as_u64_value) `mod` 2 ^ 16)%Z
    (f64_div (default 0%float (get_key "Duration" v ≫= as_f64_value)) (f64_of_Z 1000000))
    (str_or "-" (get_key "ServiceName" v)) (str_or "-" (get_key "RouterName" v)).
Definition found_in (search_query : string) (text : string) : bool := contains search_query (to_lowercase tw_lower text).
Definition is_wanted (search_query : string) (status : option Z) (e : TraefikLogEntryDto) : bool :=
  match status with Some expected => bool_decide (expected = le_status e) | None => true end
  && (str_is_empty search_query || found_in search_query (le_path e) || found_in search_query (le_method e)
      || found_in search_query (le_service_name e) || found_in search_query (le_router_name e)
      || contains search_query (i64_to_string (le_status e))).
Definition entry_of_line (line : string) : option TraefikLogEntryDto :=
  let trimmed := trim line in if str_is_empty trimmed then None else log_entry <$> json_parse trimmed.
(** The newest line is the last of the file. *)
Definition log_entries (query : TraefikStatsLogsQueryDto) (stdout : string) : list TraefikLogEntryDto :=
  List.filter (is_wanted (to_lowercase tw_lower (default "" (lq_search query))) (lq_status query))
    (omap entry_of_line (rev (lines stdout))).
(** [usize] arithmetic wraps, as the release profile says. *)
Definition page_of (page page_size : Z) {A} (entries : list A) : list A :=
  let total := Z.of_nat (length entries) in
  let start := (((page - 1) * page_size) `mod` 2 ^ 64)%Z in
  if (start <? total)%Z then
    let stop := Z.min (start + page_size) total in take (Z.to_nat (stop - start)) (drop (Z.to_nat start) entries)
  else [].
Definition query_page (query : TraefikStatsLogsQueryDto) : Z := Z.max 1 (default 1%Z (lq_page query)).
Definition query_page_size (query : TraefikStatsLogsQueryDto) : Z := Z.min 100 (Z.max 1 (default 25%Z (lq_page_size query))).
Definition read_stats_logs (query : TraefikStatsLogsQueryDto) : TrM TraefikStatsLogsResponseDto :=
  (do! host := get_executor (lq_server_id query) in
   do! out := attempt (run_command host (Cat access_log_path)) in
   let entries := log_entries query (text_or "" out) in
   ret (mkLogsResponse (page_of (query_page query) (query_page_size query) entries) (Z.of_nat (length entries))
          (query_page query) (query_page_size query)))%rust.

(** ** Version and middlewares *)

Definition docker_command (host : option Z) (c : DockerCommand) : TrM string := tw_docker host c.
Definition version (server_id : option Z) : TrM TraefikVersionDto :=
  (do! host := get_executor server_id in
   do! image := docker_command host (InspectImage "openoxide-traefik") in
   ret (mkVersion server_id image "3.6.7"))%rust.
Definition is_version_char (c : ascii) : bool := is_ascii_alphanumeric c || is_char c "." || is_char c "-".
Definition update_version (server_id : option Z) (input : string) : TrM TraefikVersionDto :=
  (let new := trim_start_char "v" (trim input) in
   do! _ := guard (str_is_empty new || negb (forallb is_version_char (chars new))) "invalid Traefik version" in
   do! host := get_executor server_id in
   do! _ := docker_command host (PullImage ("traefik:v" +:+ new)) in
   do! _ := ignore (docker_command host (RemoveContainer "openoxide-traefik")) in
   do! _ := docker_command host (EnsureTraefik new) in
   version server_id)%rust.

Definition is_name_char (c : ascii) : bool := is_ascii_alphanumeric c || is_char c "-" || is_char c "_".
Definition value_of (values : gmap string string) (key : string) : result string string :=
  ok_or (values !! key) ("missing middleware value: " +:+ key).
Definition number_of (values : gmap string string) (key message : string) : result Z string :=
  (let? v := value_of values key in ok_or (parse_i64 v) message)%rust.
Definition structured_middleware (input : StructuredMiddlewareDto) : result StructuredMiddlewareResponseDto string :=
  let name := trim (sd_name input) in
  if str_is_empty name || negb (forallb is_name_char (chars name)) then Err "invalid middleware name" else
  let value := value_of (sd_values input) in
  (let? middleware :=
     match sd_kind input with
     | KindStripPrefix => Ok (StripPrefix name (sd_list input))
     | KindAddPrefix => let? prefix := value "prefix" in Ok (AddPrefix name prefix)
     | KindRedirectScheme =>
         let? scheme := value "scheme" in
         Ok (RedirectScheme name scheme (bool_decide (sd_values input !! "permanent" = Some "true")))
     | KindCompress => Ok (Compress name)
     | KindRateLimit =>
         let? average := number_of (sd_values input) "average" "invalid average" in
         let? burst := number_of (sd_values input) "burst" "invalid burst" in
         Ok (RateLimit name average burst)
     | KindIpAllowList => Ok (IpAllowList name (sd_list input))
     | KindRequestHeaders => Ok (RequestHeaders name (TraefikLabels.entries (sd_values input)))
     | KindResponseHeaders => Ok (ResponseHeaders name (TraefikLabels.entries (sd_values input)))
     end in
   Ok (mkMiddlewareResponse (mw_reference middleware) (foldl (λ m kv, <[kv.1 := kv.2]> m) ∅ (mw_labels middleware))))%rust.
End service.

(** ** Accepted paths *)

(** The names from the root that a path leads through; [..] goes up. *)
Definition go_to (at_ : list string) (c : Component) : list string :=
  match c with RootDir => [] | CurDir => at_ | ParentDir => removelast at_ | Normal s => at_ ++ [s] end.
Definition resolve (p : string) : list string := foldl go_to [] (components p).

Lemma resolve_below (at_ : list string) cs : RootDir ∉ cs → ParentDir ∉ cs → ∃ rest, foldl go_to at_ cs = at_ ++ rest.
Proof.
  revert at_. induction cs as [|c cs IH]; intros at_ Hroot Hup; [exists []; by rewrite app_nil_r|].
  apply not_elem_of_cons in Hroot as [? Hroot], Hup as [? Hup]. simpl.
  destruct (IH (go_to at_ c) Hroot Hup) as [rest ->]. destruct c as [| | |s]; try done; simpl.
  - by exists rest.
  - exists (s :: rest). by rewrite <- app_assoc.
Qed.

Lemma root_is_first p : RootDir ∉ tail (components p).
Proof.
  unfold components. set (parts := split_on _ p). clearbody parts.
  assert (Hn : RootDir ∉ omap component_of parts).
  { intros (s & _ & Hs)%list_elem_of_omap. unfold component_of in Hs. repeat case_match; simplify_eq. }
  destruct (is_absolute p); simpl; [done|]. case_bool_decide; simpl; [done|].
  intros Hin. apply Hn. destruct (omap component_of parts); [done|]. by right.
Qed.

Lemma starts_with_below p base : path_starts_with p base = true → ParentDir ∉ components p → ∃ rest, resolve p = resolve base ++ rest.
Proof.
  unfold path_starts_with, resolve. rewrite bool_decide_eq_true. intros Hp Hup.
  rewrite <- (take_drop (length (components base)) (components p)), foldl_app, Hp.
  destruct (components base) as [|c cs] eqn:Eb.
  { simpl. exists (foldl go_to [] (components p)). done. }
  apply resolve_below.
  - intros Hin. apply (root_is_first p). destruct (components p) as [|c' cs']; [done|]. simpl in *.
    by apply subseteq_drop in Hin.
  - intros Hin. apply Hup. by apply subseteq_drop in Hin.
Qed.

Section paths.
Context `{JsonText, TraefikWorld}.

(** Every path that is accepted for writing leads below Traefik's directory, and every path that
    is accepted for reading there or below [/etc/traefik]: it contains no step upwards, and its
    file is named as a configuration. *)
Theorem accepted_paths_stay_inside relative_path etc full :
  sanitize_traefik_path relative_path etc = Ok full →
  ParentDir ∉ components full
  ∧ (∃ rest, resolve full = resolve get_traefik_base_path ++ rest ∨ etc = true ∧ resolve full = resolve "/etc/traefik" ++ rest)
  ∧ (is_config_extension full = true ∨ file_name full = Some "acme.json").
Proof.
  unfold sanitize_traefik_path. destruct (str_is_empty _); [done|]. destruct (existsb _ _); [done|].
  set (path := if is_absolute _ then _ else _). case_bool_decide as Hup; [done|].
  destruct (negb (path_starts_with path get_traefik_base_path) && _) eqn:Ein; [done|].
  destruct (negb (is_config_extension path) && _) eqn:Eext; [done|]. intros [= <-].
  apply andb_false_iff in Ein, Eext. rewrite !negb_false_iff in Ein, Eext. split; [done|]. split.
  - destruct Ein as [Hb|[Hetc Hb]%andb_true_iff]; apply starts_with_below in Hb as [rest ->]; try done; exists rest; auto.
  - destruct Eext as [|He]; [by left|right]. apply bool_decide_eq_true in He. destruct (file_name path); by simplify_eq/=.
Qed.
End paths.

(** ** Writing a file *)

(** The files a command may change *)
Definition changed_by (c : FileCommand) : option (list string) :=
  match c with
  | Mkdir _ | Cat _ => Some []
  | Cp _ target => Some [target]
  | Mv source target => Some [source; target]
  | Tee path _ => Some [path]
  | RmDir _ => None
  end.
Definition succeeded (r : result ExecOutput string) : bool := match r with Ok o => ex_success o | Err _ => false end.

(** What the commands promise: they change the files they name and no other; a copy that succeeds
    has copied the source if there is one, [tee] has written its input, and [mv] moves the file or
    leaves its target alone. *)
Class TraefikLaws `{TraefikWorld} := {
  run_frame host c s h p files : changed_by c = Some files → h ≠ host ∨ p ∉ files → tw_text h p (tw_run host c s).1 = tw_text h p s;
  cp_copies host a b s : succeeded (tw_run host (Cp a b) s).2 = true →
    tw_text host b (tw_run host (Cp a b) s).1 = match tw_text host a s with Some t => Some t | None => tw_text host b s end;
  tee_writes host p t s : succeeded (tw_run host (Tee p t) s).2 = true → tw_text host p (tw_run host (Tee p t) s).1 = Some t;
  mv_moves host a b s : a ≠ b →
    tw_text host b (tw_run host (Mv a b) s).1 = if succeeded (tw_run host (Mv a b) s).2 then tw_text host a s else tw_text host b s;
}.

Section writing.
Context `{JsonText} `{TraefikLaws}.

Definition host_of (server_id : option Z) : option Z :=
  match server_id with Some id => if (0 <? id)%Z then Some id else None | None => None end.
Lemma get_executor_ok server_id s s' host :
  get_executor server_id s = (s', Ok host) → host = host_of server_id ∧ ∀ t, get_executor server_id t = (t, Ok host).
Proof.
  unfold get_executor, host_of. destruct server_id as [id|]; [|by intros [= <- <-]].
  destruct (0 <? id)%Z; [|by intros [= <- <-]]. destruct (tw_connect id); [by intros [= <- <-]|done].
Qed.
Lemma get_executor_state server_id s : (get_executor server_id s).1 = s.
Proof.
  unfold get_executor. destruct server_id as [id|]; [|done]. destruct (0 <? id)%Z; [|done]. by destruct (tw_connect id).
Qed.
Lemma check_health_state server_id s : (check_health server_id s).1 = s.
Proof.
  unfold check_health, bind. pose proof (get_executor_state server_id s) as Hs.
  destruct (get_executor server_id s) as [s' [host|e]]; simpl in Hs; by subst.
Qed.

Lemma longer_path (p ext : string) : ext ≠ "" → p +:+ ext ≠ p.
Proof.
  intros Hne E. apply (f_equal String.length) in E. rewrite length_str_app in E. destruct ext; [done|]. simpl in E. lia.
Qed.
Lemma backup_not_temporary p : backup_of p ≠ temporary_of p.
Proof.
  unfold backup_of, temporary_of. intros E%(f_equal chars). rewrite !chars_app in E. by apply app_inv_head in E.
Qed.

Lemma write_file_checks payload s s' r :
  write_file payload s = (s', r) →
  (s' = s ∧ ∃ e, r = Err e)
  ∨ ∃ path, sanitize_write_path (wf_path payload) = Ok path ∧ ends_with "acme.json" path = false
      ∧ yaml_checked path (wf_content payload) = Ok tt
      ∧ (∀ t, get_executor (wf_server_id payload) t = (t, Ok (host_of (wf_server_id payload))))
      ∧ replace_file (wf_server_id payload) (host_of (wf_server_id payload)) path (wf_content payload) s = (s', r).
Proof.
  unfold write_file. rewrite bind_reads_run by apply of_result_reads.
  destruct (sanitize_write_path _) as [path|e]; cbn [of_result snd]; [|intros [= <- <-]; left; eauto].
  rewrite bind_reads_run by apply guard_reads. unfold guard.
  destruct (ends_with "acme.json" path) eqn:Eacme; cbn [fail ret snd]; [intros [= <- <-]; left; eauto|].
  rewrite bind_reads_run by apply of_result_reads. cbn [of_result snd].
  destruct (yaml_checked _ _) as [[]|e] eqn:Ey; [|intros [= <- <-]; left; eauto].
  unfold bind at 1. pose proof (get_executor_state (wf_server_id payload) s) as Hs.
  destruct (get_executor _ s) as [s1 [host|e]] eqn:Eh; simpl in Hs; subst s1; [|intros [= <- <-]; left; eauto].
  apply get_executor_ok in Eh as [-> Ht]. right. by exists path.
Qed.

(** What the commands before the question to Traefik leave of a file *)
Lemma before_move host path content s h p :
  h ≠ host ∨ p ∉ [backup_of path; temporary_of path] →
  let s2 := (tw_run host (Cp path (backup_of path)) (tw_run host (Mkdir (path_parent path)) s).1).1 in
  tw_text h p (tw_run host (Tee (temporary_of path) content) s2).1 = tw_text h p s.
Proof.
  intros Hp s2.
  rewrite (run_frame host (Tee (temporary_of path) content) s2 h p [temporary_of path]); [|done|destruct Hp; [by left|right; set_solver]].
  unfold s2. rewrite (run_frame host (Cp path (backup_of path)) _ h p [backup_of path]); [|done|destruct Hp; [by left|right; set_solver]].
  apply (run_frame host (Mkdir (path_parent path)) s h p []); [done|right; set_solver].
Qed.

(** A write touches the file, its copy and its temporary file, and nothing else on any machine,
    whatever fails on the way. *)
Lemma replace_file_frame server_id host path content s s' r h p :
  replace_file server_id host path content s = (s', r) → h ≠ host ∨ p ∉ [path; backup_of path; temporary_of path] →
  tw_text h p s' = tw_text h p s.
Proof.
  intros Hrun Hp. revert Hrun. unfold replace_file, bind, ignore, with_message, run_command, attempt.
  pose proof (before_move host path content s h p ltac:(destruct Hp; [by left|right; set_solver])) as Hb. cbv zeta in Hb. revert Hb.
  set (s2 := (tw_run host (Cp path (backup_of path)) (tw_run host (Mkdir (path_parent path)) s).1).1).
  pose proof (run_frame host (Mv (temporary_of path) path) (tw_run host (Tee (temporary_of path) content) s2).1 h p
    [temporary_of path; path] eq_refl ltac:(destruct Hp; [by left|right; set_solver])) as Hm. revert Hm.
  destruct (tw_run host (Tee _ content) s2) as [s3 [out|e]]; simpl; [|intros ? ? [= <- _]; congruence].
  unfold guard. destruct (ex_success out); simpl; [|intros ? ? [= <- _]; congruence].
  destruct (tw_run host (Mv _ path) s3) as [s4 [out'|e]]; simpl; [|intros ? ? [= <- _]; congruence].
  destruct (ex_success out'); simpl; [|intros ? ? [= <- _]; congruence].
  pose proof (check_health_state server_id s4) as Hs4.
  destruct (check_health server_id s4) as [s5 [health|e]]; simpl in Hs4; subst s5; [|intros ? ? [= <- _]; congruence].
  destruct (hr_is_healthy health); [intros ? ? [= <- _]; congruence|].
  pose proof (run_frame host (Cp (backup_of path) path) s4 h p [path] eq_refl ltac:(destruct Hp; [by left|right; set_solver])) as Hc.
  destruct (tw_run host (Cp _ path) s4) as [s6 out6]; simpl in *. intros ? ? [= <- _]. congruence.
Qed.

Lemma replace_file_text server_id path content s s' r old :
  let host := host_of server_id in
  replace_file server_id host path content s = (s', r) → (∀ t, get_executor server_id t = (t, Ok host)) →
  (∀ a b t, succeeded (tw_run host (Cp a b) t).2 = true) → tw_text host path s = Some old →
  (r = Ok tt ∧ tw_text host path s' = Some content ∧ tw_text host (backup_of path) s' = Some old
   ∧ ∃ health, check_health server_id s' = (s', Ok health) ∧ hr_is_healthy health = true)
  ∨ (∃ e, r = Err e ∧ tw_text host path s' = Some old).
Proof.
  intros host Hrun Hex Hcp Hold. revert Hrun. unfold replace_file, bind, ignore, with_message, run_command, attempt.
  set (s1 := (tw_run host (Mkdir (path_parent path)) s).1). set (s2 := (tw_run host (Cp path (backup_of path)) s1).1).
  assert (Hne : path ∉ [backup_of path; temporary_of path]).
  { rewrite !not_elem_of_cons. split_and!; [| |apply not_elem_of_nil]; intros E; symmetry in E; by apply longer_path in E. }
  assert (Hpath : tw_text host path (tw_run host (Tee (temporary_of path) content) s2).1 = Some old)
    by (rewrite <- Hold; apply before_move; by right).
  assert (Hbak : tw_text host (backup_of path) (tw_run host (Tee (temporary_of path) content) s2).1 = Some old).
  { rewrite (run_frame host _ s2 host (backup_of path) [temporary_of path]); [|done|right; pose proof (backup_not_temporary path); set_solver].
    unfold s2. rewrite cp_copies by apply Hcp. unfold s1. rewrite (run_frame host _ s host path []); [|done|right; set_solver]. by rewrite Hold. }
  pose proof (tee_writes host (temporary_of path) content s2) as Htee. fold s1. fold s2. revert Hpath Hbak Htee.
  destruct (tw_run host (Tee _ content) s2) as [s3 [out|e]]; simpl; [|intros ??? [= <- <-]; right; eauto].
  unfold guard. destruct (ex_success out); simpl; [|intros ??? [= <- <-]; right; eauto].
  intros Hpath Hbak Htee. specialize (Htee eq_refl).
  pose proof (mv_moves host (temporary_of path) path s3 ltac:(by apply longer_path)) as Hmv.
  pose proof (run_frame host (Mv (temporary_of path) path) s3 host (backup_of path) [temporary_of path; path] eq_refl
    ltac:(right; pose proof (backup_not_temporary path); pose proof (longer_path path ".bak" ltac:(done)); set_solver)) as Hbak4.
  destruct (tw_run host (Mv _ path) s3) as [s4 [out'|e]]; simpl in *; [|intros [= <- <-]; right; eexists; split; [done|congruence]].
  destruct (ex_success out'); simpl; [|intros [= <- <-]; right; eexists; split; [done|congruence]].
  unfold check_health at 1, bind at 1. rewrite Hex. cbv beta zeta iota. set (health := if str_is_empty _ then _ else _).
  assert (Hh : check_health server_id s4 = (s4, Ok health)) by (unfold check_health, bind; by rewrite Hex).
  destruct (hr_is_healthy health) eqn:Ehealthy.
  { intros [= <- <-]. left. split_and!; [done|congruence|congruence|by exists health]. }
  pose proof (cp_copies host (backup_of path) path s4 (Hcp _ _ _)) as Hback.
  destruct (tw_run host (Cp _ path) s4) as [s5 out5]; simpl in *. intros [= <- <-]. right. eexists. split; [done|].
  by rewrite Hback, Hbak4, Hbak.
Qed.

End writing.

(** *** A machine with a map of files *)

Definition done_run {A} (a : A) : A * result ExecOutput string := (a, Ok (mkExec (Some 0%Z) "" "")).
Definition failed_run {A} (a : A) : A * result ExecOutput string := (a, Err "no such file").
Definition map_run (host : option Z) (c : FileCommand) (files : gmap (option Z * string) string)
    : gmap (option Z * string) string * result ExecOutput string :=
  match c with
  | Mkdir _ | RmDir _ => done_run files
  | Cp a b => done_run (match files !! (host, a) with Some t => <[(host, b) := t]> files | None => files end)
  | Mv a b => match files !! (host, a) with
              | Some t => done_run (<[(host, b) := t]> (delete (host, a) files))
              | None => failed_run files
              end
  | Tee p t => done_run (<[(host, p) := t]> files)
  | Cat p => (files, match files !! (host, p) with Some t => Ok (mkExec (Some 0%Z) t "") | None => Err "no such file" end)
  end.
Definition map_rawdata (host : option Z) (files : gmap (option Z * string) string) : result ExecOutput string :=
  Ok (mkExec (Some 0%Z) (if bool_decide (files !! (host, "/etc/openoxide/traefik/dynamic/a.yml") = Some "bad") then "E" else "{}") "").
Definition map_world : TraefikWorld := {|
  Host := gmap (option Z * string) string; tw_base_env := None; tw_base := "/etc/openoxide"; tw_connect := λ _, Ok tt;
  tw_run := map_run; tw_text := λ h p files, files !! (h, p); tw_rawdata := map_rawdata;
  tw_find := λ _ _ _, Ok (mkExec (Some 0%Z) "" ""); tw_docker := λ _ _ s, (s, Ok ""); tw_yaml := λ _, Ok ComposeYaml.VNull;
  tw_yaml_print := λ _, Ok "null"; tw_epoch := parse_u64; tw_number := λ _, 0%float; tw_lower := itself |}.
Definition one_error : JValue := VObject [("routers", VObject [("web", VObject [("error", VString "bad rule")])])].
Definition map_json : JsonText := {|
  json_parse := λ t, if bool_decide (t = "E") then Some one_error else Some (VObject []); json_print := λ _, "" |}.

Lemma map_laws : @TraefikLaws map_world.
Proof.
  split; simpl.
  - intros host c s h p files Hc Hne. destruct c; simpl in *; simplify_eq; try done; try case_match; simpl; try done.
    all: repeat rewrite lookup_insert_ne by (intros [= ??]; destruct Hne as [|Hne]; [congruence|apply Hne; subst; set_solver]); try done.
    rewrite lookup_delete_ne; [done|]. intros [= ??]. destruct Hne as [|Hne]; [congruence|apply Hne; subst; set_solver].
  - intros host a b s _. destruct (s !! (host, a)) eqn:E; [by rewrite lookup_insert_eq|done].
  - intros host p t s _. by rewrite lookup_insert_eq.
  - intros host a b s Hne. destruct (s !! (host, a)) as [t|] eqn:E; simpl; [by rewrite lookup_insert_eq|done].
Qed.

Section sample.
#[local] Existing Instances map_world map_json map_laws.


(** A file that is new has no copy, and stays when Traefik refuses it; the message says that the
    previous file was restored. *)
Example refused_new_file_stays :
  match write_file (mkWriteFile None "dynamic/a.yml" "bad") (∅ : gmap (option Z * string) string) with
  | (s', Err e) => tw_text None "/etc/openoxide/traefik/dynamic/a.yml" s' = Some "bad"
                   ∧ starts_with "Traefik rejected the configuration; previous file restored" e = true
  | (_, Ok _) => False
  end.
Proof. by vm_compute. Qed.
(** The key of a certificate is no file that may be written, and [/etc/traefik] may only be read. *)
Example no_path_to_a_key :
  sanitize_write_path "dynamic/certificates/shop/privkey.key"
  = Err "Security Restriction: Only .yml, .yaml, and .json files are accessible"
  ∧ sanitize_write_path "/etc/traefik/traefik.yml" = Err "Security Error: File path must remain inside /etc/openoxide/traefik"
  ∧ sanitize_read_path "/etc/traefik/traefik.yml" = Ok "/etc/traefik/traefik.yml".
Proof. by vm_compute. Qed.
End sample.

(** ** The tree *)

Definition FileEntry : Type := string * Z * bool * Z.
Definition file_entry (f : TraefikFileNodeDto) : FileEntry := (fn_relative_path f, fn_size f, fn_is_readonly f, fn_modified_at f).
(** The files of a tree *)
Fixpoint leaves (n : TraefikFileTreeNodeDto) : list FileEntry :=
  match n with
  | mkTreeNode _ path type size readonly modified children =>
      (if bool_decide (type = "file") then [(path, size, readonly, modified)] else []) ++ flat_map leaves children
  end.
Definition all_leaves (l : list TraefikFileTreeNodeDto) : list FileEntry := flat_map leaves l.
(** A node below the directories [above] has the path that its name and theirs make. *)
Inductive placed : list string → TraefikFileTreeNodeDto → Prop :=
| placed_node above name type size readonly modified children :
    Forall (placed (above ++ [name])) children →
    placed above (mkTreeNode name (join "/" (above ++ [name])) type size readonly modified children).

Lemma tree_induction (P : TraefikFileTreeNodeDto → Prop) :
  (∀ name path type size readonly modified children, Forall P children → P (mkTreeNode name path type size readonly modified children)) →
  ∀ n, P n.
Proof.
  intros Hn. fix IH 1. intros [name path type size readonly modified children]. apply Hn.
  induction children as [|c children IHc]; constructor; [apply IH|exact IHc].
Qed.

Lemma join_split (c : ascii) s : join (String c "") (split_on (λ d, is_char d c) s) = s.
Proof.
  induction s as [|d s IH]; [done|]. simpl. destruct (is_char d c) eqn:Ed.
  - apply is_char_spec in Ed as ->. pose proof (split_on_nonempty (λ d, is_char d c) s).
    destruct (split_on _ s) as [|w ws]; [done|]. change (join (String c "") ("" :: w :: ws)) with (String c (join (String c "") (w :: ws))).
    by rewrite IH.
  - destruct (split_on _ s) as [|w [|w' ws]] eqn:Es; [by apply split_on_nonempty in Es| |].
    + simpl in *. by rewrite IH.
    + change (join (String c "") (String d w :: w' :: ws)) with (String d (join (String c "") (w :: w' :: ws))). by rewrite IH.
Qed.

Lemma update_first_spec p f l :
  match update_first p f l with
  | Some l' => ∃ l1 n l2, l = l1 ++ n :: l2 ∧ p n = true ∧ l' = l1 ++ f n :: l2
  | None => Forall (λ n, p n = false) l
  end.
Proof.
  induction l as [|n l IH]; simpl; [constructor|]. destruct (p n) eqn:Ep; [by exists [], n, l|].
  destruct (update_first p f l) as [l'|]; simpl; [|by constructor].
  destruct IH as (l1 & m & l2 & -> & Hm & ->). by exists (n :: l1), m, l2.
Qed.

Lemma all_leaves_app l1 l2 : all_leaves (l1 ++ l2) = all_leaves l1 ++ all_leaves l2.
Proof. apply flat_map_app. Qed.
Lemma as_file_leaves file n :
  (tn_relative_path n ∉ (λ e : FileEntry, e.1.1.1) <$> leaves n) → tn_relative_path n = fn_relative_path file →
  leaves (as_file file n) ≡ₚ file_entry file :: leaves n.
Proof.
  destruct n as [name path type size readonly modified children]. simpl. intros Hnew ->. unfold as_file. simpl.
  case_bool_decide as Ht; [|done]. exfalso. apply Hnew. rewrite fmap_app. apply elem_of_app. left. simpl. set_solver.
Qed.

Definition entry_path (e : FileEntry) : string := e.1.1.1.
Lemma with_children_leaves children n l :
  all_leaves children ≡ₚ l ++ all_leaves (tn_children n) → leaves (with_children children n) ≡ₚ l ++ leaves n.
Proof.
  destruct n as [name path type size readonly modified old]. simpl. intros Hp. unfold with_children. simpl.
  change (flat_map leaves children) with (all_leaves children). rewrite Hp. change (flat_map leaves old) with (all_leaves old).
  by rewrite !app_assoc, (Permutation_app_comm _ l).
Qed.

(** One more file: one more entry, and every node stays in its place. *)
Lemma insert_leaves file parts above l :
  parts ≠ [] → parts_of (fn_relative_path file) = above ++ parts → Forall (placed above) l →
  fn_relative_path file ∉ entry_path <$> all_leaves l →
  all_leaves (insert_file_tree_node parts file l) ≡ₚ file_entry file :: all_leaves l
  ∧ Forall (placed above) (insert_file_tree_node parts file l).
Proof.
  revert above l. induction parts as [|name rest IH]; intros above l Hne Hparts Hl Hnew; [done|]. cbn [insert_file_tree_node].
  set (is_file := bool_decide (rest = [])). set (path := if is_file then _ else _).
  assert (Hpath : path = join "/" (above ++ [name])).
  { unfold path, is_file. case_bool_decide as Hr.
    - subst rest. rewrite <- Hparts. symmetry. apply (join_split "/").
    - rewrite Hparts, length_app. simpl. replace (_ + 1) with (length above + 1) by lia.
      rewrite take_app_ge by lia. by replace (length above + 1 - length above) with 1 by lia. }
  set (visit := λ n, if is_file then _ else _).
  assert (Hvisit : ∀ n, placed above n → tn_name n = name → tn_relative_path n = path →
    fn_relative_path file ∉ entry_path <$> leaves n → leaves (visit n) ≡ₚ file_entry file :: leaves n ∧ placed above (visit n)).
  { intros n Hn Hname Hp Hnn. unfold visit, is_file. case_bool_decide as Hr.
    - assert (Hf : path = fn_relative_path file) by done.
      split; [apply as_file_leaves; rewrite Hp, Hf; done|]. destruct Hn. simpl in *. by constructor.
    - destruct Hn as [above' name' type size readonly modified children Hch]. simpl in *. subst name'.
      destruct (IH (above' ++ [name]) children) as [Hperm Hpl]; [done|by rewrite Hparts, <- app_assoc|done| |].
      { intros Hin. apply Hnn. rewrite fmap_app. apply elem_of_app. by right. }
      split; [|by constructor].
      exact (with_children_leaves _ (mkTreeNode name (join "/" (above' ++ [name])) type size readonly modified children) [file_entry file] Hperm). }
  pose proof (update_first_spec (node_at name path) visit l) as Hu.
  destruct (update_first (node_at name path) visit l) as [l'|].
  - destruct Hu as (l1 & n & l2 & -> & Hat & ->). unfold node_at in Hat. bsimp.
    apply Forall_app in Hl as [Hl1 [Hn Hl2]%Forall_cons].
    rewrite !all_leaves_app, !fmap_app in Hnew. cbn [all_leaves flat_map] in Hnew. rewrite fmap_app, !elem_of_app in Hnew.
    destruct (Hvisit n) as [Hperm Hpl]; [done|done|done|tauto|]. split; [|apply Forall_app; split; [done|by constructor]].
    rewrite !all_leaves_app. cbn [all_leaves flat_map]. rewrite Hperm. simpl. by rewrite <- Permutation_middle.
  - clear Hu. assert (Hfresh : placed above (new_node name path is_file file) ∧ (is_file = false → leaves (new_node name path is_file file) = [])).
    { rewrite Hpath. split; [by constructor|]. by intros ->. }
    destruct Hfresh as [Hpl Hno]. rewrite all_leaves_app. cbn [all_leaves flat_map]. rewrite app_nil_r.
    destruct is_file eqn:Ef.
    + split; [|apply Forall_app; split; [done|constructor; [|done]]].
      * unfold visit, as_file, new_node. simpl. unfold file_entry.
        assert (Hf : path = fn_relative_path file) by done. rewrite Hf. by rewrite Permutation_app_comm.
      * unfold visit. destruct Hpl. simpl. by constructor.
    + destruct (Hvisit (new_node name path false file)) as [Hperm Hpl']; [done|done|done|by rewrite (Hno eq_refl); apply not_elem_of_nil|].
      rewrite (Hno eq_refl) in Hperm. split; [|apply Forall_app; split; [done|by constructor]].
      etrans; [apply Permutation_app_comm|]. change (leaves (visit (new_node name path false file)) ++ all_leaves l ≡ₚ file_entry file :: all_leaves l).
      by rewrite Hperm.
Qed.

Lemma sort_node_leaves n : leaves (sort_node n) ≡ₚ leaves n.
Proof.
  induction n as [name path type size readonly modified children IH] using tree_induction. simpl. f_equiv.
  rewrite (sql_order_by_perm tree_order (map sort_node children)).
  induction IH as [|c children Hc _ IHc]; [done|]. simpl. by rewrite Hc, IHc.
Qed.
Lemma sort_node_placed n : ∀ above, placed above n → placed above (sort_node n).
Proof.
  induction n as [name path type size readonly modified children IH] using tree_induction. intros above Hp.
  inversion Hp as [? ? ? ? ? ? ? Hch]; subst. simpl. constructor.
  rewrite (sql_order_by_perm tree_order). apply Forall_map. clear Hp. induction IH; inversion Hch; subst; constructor; auto.
Qed.

(** A path of which no part is empty *)
Definition clean_path (f : TraefikFileNodeDto) : Prop := Forall (λ p, str_is_empty p = false) (parts_of (fn_relative_path f)).

Lemma add_file_leaves l file :
  clean_path file → Forall (placed []) l → fn_relative_path file ∉ entry_path <$> all_leaves l →
  all_leaves (add_file l file) ≡ₚ file_entry file :: all_leaves l ∧ Forall (placed []) (add_file l file).
Proof.
  intros Hc Hl Hnew. unfold add_file. unfold clean_path in Hc. rewrite Forall_forall in Hc.
  rewrite filterb_all_true by (intros p Hp; by rewrite (Hc p Hp)).
  pose proof (split_on_nonempty (λ c, is_char c "/") (fn_relative_path file)) as Hne. fold (parts_of (fn_relative_path file)) in Hne.
  destruct (parts_of (fn_relative_path file)) as [|w ws] eqn:Ep; [done|]. by apply insert_leaves.
Qed.

(** The tree shows every listed file exactly once, with its size, its flag and its time, and
    every node at the place its path names, whatever the order in which the files are listed. *)
Theorem tree_shows_every_file files :
  NoDup (map fn_relative_path files) → Forall clean_path files →
  all_leaves (build_file_tree files) ≡ₚ map file_entry files ∧ Forall (placed []) (build_file_tree files).
Proof.
  intros Hnd Hc. unfold build_file_tree, sort_file_tree.
  assert (Hgen : ∀ l, Forall (placed []) l → (∀ f, f ∈ files → fn_relative_path f ∉ entry_path <$> all_leaves l) →
    all_leaves (foldl add_file l files) ≡ₚ map file_entry files ++ all_leaves l ∧ Forall (placed []) (foldl add_file l files)).
  { induction Hc as [|f files Hf Hfs IH]; intros l Hl Hnew; [done|]. apply NoDup_cons in Hnd as [Hn Hnd]. simpl.
    destruct (add_file_leaves l f) as [Hp Hpl]; [done|done|apply Hnew; left|].
    destruct (IH Hnd (add_file l f) Hpl) as [Hp2 Hpl2].
    { intros g Hg. rewrite Hp. simpl. apply not_elem_of_cons. split; [|apply Hnew; by right].
      intros E. apply Hn. change (fn_relative_path g = fn_relative_path f) in E. rewrite <- E. apply elem_of_mapb. by exists g. }
    split; [|done]. rewrite Hp2, Hp. by rewrite Permutation_middle. }
  destruct (Hgen []) as [Hp Hpl]; [constructor|intros; apply not_elem_of_nil|]. rewrite app_nil_r in Hp. split.
  - unfold all_leaves at 1. rewrite (sql_order_by_perm tree_order _), <- Hp. clear.
    induction (foldl add_file [] files) as [|n l IH]; [done|]. simpl. by rewrite sort_node_leaves, IH.
  - rewrite (sql_order_by_perm tree_order). apply Forall_map. eapply Forall_impl; [exact Hpl|]. intros n. apply sort_node_placed.
Qed.

Lemma str_le_antisym a b : str_le a b = true → str_le b a = true → a = b.
Proof.
  rewrite !str_le_compare. intros Hab Hba. apply Stdlib.Strings.String.compare_eq_iff.
  rewrite Stdlib.Strings.String.compare_antisym in Hba. destruct (Stdlib.Strings.String.compare a b); [done| |done]. by simpl in Hba.
Qed.

(** In a sorted list equal paths are neighbours, so dropping them leaves each path once. *)
Lemma dedup_nodes_head l : head (dedup_nodes l) = head l.
Proof. destruct l as [|a l]; [done|]. simpl. destruct (dedup_nodes l) as [|b r]; [done|]. by case_bool_decide. Qed.
Lemma dedup_nodes_subset l x : x ∈ dedup_nodes l → x ∈ l.
Proof.
  revert x. induction l as [|a l IH]; intros x; [done|]. simpl. destruct (dedup_nodes l) as [|b r]; [set_solver|]. case_bool_decide; set_solver.
Qed.
Lemma dedup_nodes_distinct l : StronglySorted (λ a b, path_order a b = true) l → NoDup (map fn_relative_path (dedup_nodes l)).
Proof.
  induction 1 as [|a l Hs IH Ha]; [constructor|]. simpl. pose proof (dedup_nodes_head l) as Hh. pose proof (dedup_nodes_subset l) as Hsub.
  assert (Hnext : ∀ b r, dedup_nodes l = b :: r → fn_relative_path a ∉ map fn_relative_path r).
  { intros b r Eb (x & Ex & Hx)%elem_of_mapb. rewrite Eb in IH, Hsub, Hh. simpl in IH. apply NoDup_cons in IH as [Hb _].
    destruct l as [|b' l]; [done|]. simpl in Hh. injection Hh as ->. rewrite Forall_forall in Ha.
    apply StronglySorted_inv in Hs as [_ Hb']. rewrite Forall_forall in Hb'.
    assert (Hxl : x ∈ b' :: l) by (apply Hsub; by right).
    apply elem_of_cons in Hxl as [->|Hxl]; [apply Hb, elem_of_mapb; by exists b'|].
    apply Hb. apply elem_of_mapb. exists x. split; [|done]. apply str_le_antisym; [exact (Hb' x Hxl)|].
    rewrite <- Ex. apply (Ha b'). left. }
  destruct (dedup_nodes l) as [|b r] eqn:Eb; [apply NoDup_singleton|]. specialize (Hnext b r eq_refl).
  case_bool_decide as Hab; simpl in *; apply NoDup_cons in IH as [Hb Hr].
  - by apply NoDup_cons.
  - apply NoDup_cons. split; [|by apply NoDup_cons]. apply not_elem_of_cons. split; [congruence|done].
Qed.

(** The list of files names no path twice. *)
Lemma listed_paths_are_distinct `{TraefikWorld} base_dir stdout : NoDup (map fn_relative_path (nodes_of base_dir stdout)).
Proof.
  apply dedup_nodes_distinct. apply Sorted_StronglySorted; [intros a b c; unfold path_order; apply str_le_trans|].
  apply sql_order_by_sorted. intros a b. apply str_le_total.
Qed.

(** ** Pages *)

Lemma page_of_slice {A} (i : nat) size (entries : list A) :
  (1 ≤ size)%Z → (Z.of_nat i * size < 2 ^ 64)%Z →
  page_of (Z.of_nat i + 1) size entries = take (Z.to_nat size) (drop (i * Z.to_nat size) entries).
Proof.
  intros Hs Hi. assert (H0 : (0 ≤ Z.of_nat i * size)%Z) by nia. unfold page_of.
  replace (Z.of_nat i + 1 - 1)%Z with (Z.of_nat i) by lia. rewrite Z.mod_small by lia.
  assert (Hn : Z.to_nat (Z.of_nat i * size) = i * Z.to_nat size) by (rewrite Z2Nat.inj_mul, Nat2Z.id; lia). rewrite Hn.
  destruct (Z.ltb_spec (Z.of_nat i * size) (Z.of_nat (length entries))) as [Hlt|Hge].
  - destruct (Z.min_spec (Z.of_nat i * size + size) (Z.of_nat (length entries))) as [[Hl ->]|[Hl ->]]; [by rewrite Z.add_simpl_l|].
    rewrite !take_ge; [done|rewrite length_drop; lia..].
  - rewrite drop_ge by lia. by rewrite take_nil.
Qed.

(** The pages of a query, one after the other, are the entries it finds: each exactly once and in
    their order, as long as the number of a page is one that the machine can multiply. *)
Theorem pages_are_the_log {A} (k : nat) size (entries : list A) :
  (1 ≤ size)%Z → (Z.of_nat k * size < 2 ^ 64)%Z → length entries ≤ k * Z.to_nat size →
  concat (map (λ i, page_of (Z.of_nat i + 1) size entries) (List.seq 0 k)) = entries.
Proof.
  intros Hs Hk Hl. transitivity (take (k * Z.to_nat size) entries); [|by apply take_ge]. clear Hl.
  induction k as [|k IH]; [by rewrite take_0|].
  rewrite List.seq_S, map_app, concat_app, IH by lia. simpl. rewrite app_nil_r, page_of_slice by lia.
  replace (Z.to_nat size + k * Z.to_nat size) with (k * Z.to_nat size + Z.to_nat size) by lia.
  by rewrite take_take_drop.
Qed.
Lemma pages_are_the_log_witness :
  concat (map (λ i, page_of (Z.of_nat i + 1) 2 [10; 20; 30; 40; 50]) (List.seq 0 3)) = [10; 20; 30; 40; 50].
Proof. apply (pages_are_the_log 3 2 [10; 20; 30; 40; 50]); simpl; lia. Defined.

(** Beyond that the product wraps: such a page shows the first entries again. *)
Example far_page_is_the_first : page_of (2 ^ 58 + 1) 64 [10; 20; 30] = page_of 1 64 [10; 20; 30].
Proof. by vm_compute. Qed.

(** *** Samples *)

Definition sample_files : list TraefikFileNodeDto :=
  [mkFileNode "traefik.yml" "traefik.yml" 620 false 10; mkFileNode "middlewares.yml" "dynamic/middlewares.yml" 112 false 11;
   mkFileNode "acme.json" "dynamic/acme.json" 2 true 12].
Lemma tree_shows_every_file_witness :
  all_leaves (build_file_tree sample_files) ≡ₚ map file_entry sample_files
  ∧ map (λ n, (tn_name n, map tn_name (tn_children n))) (build_file_tree sample_files)
    = [("dynamic", ["acme.json"; "middlewares.yml"]); ("traefik.yml", [])].
Proof.
  split; [|by vm_compute]. apply (tree_shows_every_file sample_files).
  - by apply (bool_decide_eq_true _).
  - repeat constructor.
Defined.

Section more_samples.
#[local] Existing Instances map_world map_json.
Lemma accepted_paths_witness : ∃ rest, resolve "/etc/openoxide/traefik/dynamic/a.yml" = resolve get_traefik_base_path ++ rest.
Proof.
  destruct (accepted_paths_stay_inside "dynamic/a.yml" false "/etc/openoxide/traefik/dynamic/a.yml") as (_ & (rest & [Hr|[? _]]) & _);
    [by vm_compute|by exists rest|done].
Defined.

(** With no static configuration to start from, or one that holds comments only, switching the
    access log on writes an empty document, and answers that it is on. *)
Example access_log_without_a_file :
  match toggle_requests None true (∅ : gmap (option Z * string) string) with
  | (s', r) => r = Ok true ∧ tw_text None main_config_path s' = Some "null"
  end.
Proof. by vm_compute. Qed.
End more_samples.
