(* ===== verification/Certificates.v ===== *)
(** * Certificates

    [services/certificate.rs] and [certificate/files.rs] with the tables of migrations 0001 and
    0033, their repositories and the handlers: creating, changing, renewing and deleting a
    certificate, and its files, which are written through [TraefikFiles].  The check of a
    certificate with its key is a parameter.  The composition of the two services shows that no
    certificate can be stored: the names of the files it is written to are not names that the
    service of files accepts ([certificates_are_never_written], [no_certificate_is_stored]). *)

From stdpp Require Import gmap strings list sorting.
From Stdlib Require Import ZArith Lia Ascii.
From S2P Require Import Prelude RustStr RustText JsonValue Sql TraefikFiles.

(** ** Tables *)

Record Certificate := mkCertificate {
  ce_id : Z; ce_name : string; ce_certificate_data : string; ce_private_key : string; ce_certificate_path : string; ce_auto_renew : Z;
  ce_server_id : option Z; ce_organization_id : Z; ce_created_at : Z; ce_updated_at : Z }.
#[export] Instance Certificate_schema : Schema Certificate := {|
  row_id := ce_id; row_check := λ c, bool_decide (ce_auto_renew c ∈ [0; 1]%Z);
  row_conflict := λ a b, bool_decide (ce_certificate_path a = ce_certificate_path b) |}.
#[export] Instance Certificate_laws : SchemaLaws Certificate.
Proof. constructor. intros. simpl. by apply bool_decide_ext. Qed.

Inductive RenewalStatus := RenewalSucceeded | RenewalFailed.
Definition renewal_as_str (s : RenewalStatus) : string := match s with RenewalSucceeded => "SUCCEEDED" | RenewalFailed => "FAILED" end.
Record CertificateRenewal := mkRenewal {
  rn_id : Z; rn_certificate_id : Z; rn_organization_id : Z; rn_status : string; rn_previous_expires_at : option Z;
  rn_new_expires_at : option Z; rn_error : option string; rn_started_at : Z; rn_finished_at : option Z }.
#[export] Instance CertificateRenewal_schema : Schema CertificateRenewal := {|
  row_id := rn_id; row_check := λ r, bool_decide (rn_status r ∈ ["RUNNING"; "SUCCEEDED"; "FAILED"]); row_conflict := λ _ _, false |}.
#[export] Instance CertificateRenewal_laws : SchemaLaws CertificateRenewal.
Proof. by constructor. Qed.

Record CreateCertificateDto := mkCreateCertificate {
  cc_name : string; cc_certificate_data : string; cc_private_key : string; cc_certificate_path : string; cc_auto_renew : Z;
  cc_server_id : option string }.
Record PatchCertificateDto := mkPatchCertificate {
  cp_name : option string; cp_certificate_data : option string; cp_private_key : option string; cp_certificate_path : option string;
  cp_auto_renew : option Z; cp_server_id : option (option string) }.
Record RenewCertificateDto := mkRenew { rw_certificate_data : string; rw_private_key : string }.
Record CertificateDependencyCounts := mkCertificateCounts { cd_renewals : Z; cd_running_renewals : Z }.

Class CertificateWorld := {
  cw_expiry : string → result Z string;
  cw_validate : string → string → result Z string;      (* a certificate and its key; when it expires *)
  cw_server_exists : Z → bool;
  cw_organization_exists : Z → bool;
  cw_error_text : SqlError → string;
}.

Section service.
Context `{JsonText, TraefikWorld, CertificateWorld}.

Record CertState := mkCertState { ct_certificates : Table Certificate; ct_renewals : Table CertificateRenewal; ct_host : Host }.
Definition CertM := SE CertState SqlError.

Definition on_certificates {A} (f : Table Certificate → result (Table Certificate * A) SqlError) : CertM A := λ s,
  match f (ct_certificates s) with
  | Ok (t, a) => (mkCertState t (ct_renewals s) (ct_host s), Ok a)
  | Err e => (s, Err e)
  end.
Definition on_renewals {A} (f : Table CertificateRenewal → result (Table CertificateRenewal * A) SqlError) : CertM A := λ s,
  match f (ct_renewals s) with
  | Ok (t, a) => (mkCertState (ct_certificates s) t (ct_host s), Ok a)
  | Err e => (s, Err e)
  end.
(** A call of the service of files; its error is [Protocol] *)
Definition on_files {A} (m : TrM A) : CertM A := λ s,
  let '(h, r) := m (ct_host s) in
  (mkCertState (ct_certificates s) (ct_renewals s) h, match r with Ok a => Ok a | Err e => Err (Protocol e) end).
Definition checked {A} (r : result A string) : CertM A := of_result match r with Ok a => Ok a | Err e => Err (Protocol e) end.

(** ** Repositories *)

Definition certificate_fk (c : Certificate) : bool :=
  match ce_server_id c with Some sid => cw_server_exists sid | None => true end && cw_organization_exists (ce_organization_id c).
Definition with_ce_id (id : Z) (c : Certificate) : Certificate :=
  mkCertificate id (ce_name c) (ce_certificate_data c) (ce_private_key c) (ce_certificate_path c) (ce_auto_renew c) (ce_server_id c)
    (ce_organization_id c) (ce_created_at c) (ce_updated_at c).
(** The trigger [certificates_updated_at] *)
Definition certificate_touch (now : Z) (c : Certificate) : Certificate :=
  mkCertificate (ce_id c) (ce_name c) (ce_certificate_data c) (ce_private_key c) (ce_certificate_path c) (ce_auto_renew c) (ce_server_id c)
    (ce_organization_id c) (ce_created_at c) now.
Definition newest_certificate_first (a b : Certificate) : bool :=
  ((ce_created_at b <? ce_created_at a) || ((ce_created_at a =? ce_created_at b) && (ce_id b <=? ce_id a)))%Z.
Definition certificate_get_all (organization_id : Z) (t : Table Certificate) : list Certificate :=
  sql_order_by newest_certificate_first (sql_select (λ c, ce_organization_id c =? organization_id)%Z t).
Definition certificate_get_by_id_for_organization (id organization_id : Z) (t : Table Certificate) : option Certificate :=
  sql_first (λ c, (ce_id c =? id) && (ce_organization_id c =? organization_id))%Z t.
Definition certificate_get_by_id (id : Z) (t : Table Certificate) : option Certificate := sql_first (λ c, ce_id c =? id)%Z t.
Definition certificate_repo_create (item : Certificate) (t : Table Certificate) := sql_insert certificate_fk (λ id, with_ce_id id item) t.
Definition certificate_repo_update (now id : Z) (item : Certificate) (t : Table Certificate) :=
  sql_update certificate_fk (λ c, ce_id c =? id)%Z (λ c, certificate_touch now (with_ce_id (ce_id c) item)) t.
(** The renewals go with their certificate *)
Definition certificate_remove (p : Certificate → bool) : CertM nat := λ s,
  let '(t, n) := sql_delete p (ct_certificates s) in
  let gone r := sql_exists (λ c, p c && (ce_id c =? rn_certificate_id r)%Z) (ct_certificates s) in
  (mkCertState t (sql_delete gone (ct_renewals s)).1 (ct_host s), Ok n).
Definition certificate_repo_delete (id : Z) : CertM nat := certificate_remove (λ c, ce_id c =? id)%Z.
Definition certificate_delete_for_organization (id organization_id : Z) : CertM bool :=
  (do! n := certificate_remove (λ c, (ce_id c =? id) && (ce_organization_id c =? organization_id))%Z in ret (bool_decide (0 < n)%nat))%rust.

Definition renewal_fk (s : CertState) (r : CertificateRenewal) : bool :=
  sql_exists (λ c, ce_id c =? rn_certificate_id r)%Z (ct_certificates s) && cw_organization_exists (rn_organization_id r).
Definition renewal_begin (now certificate_id organization_id : Z) (previous_expires_at : option Z) : CertM Z := λ s,
  on_renewals (sql_insert (renewal_fk s)
    (λ id, mkRenewal id certificate_id organization_id "RUNNING" previous_expires_at None None now None)) s.
Definition renewal_finish (now id : Z) (new_expires_at : option Z) (error : option string) : CertM nat :=
  let status := renewal_as_str match error with Some _ => RenewalFailed | None => RenewalSucceeded end in
  on_renewals (sql_update no_fk (λ r, rn_id r =? id)%Z
    (λ r, mkRenewal (rn_id r) (rn_certificate_id r) (rn_organization_id r) status (rn_previous_expires_at r) new_expires_at error
            (rn_started_at r) (Some now))).
Definition newest_renewal_first (a b : CertificateRenewal) : bool := (rn_started_at b <=? rn_started_at a)%Z.
Definition renewal_list (certificate_id : Z) (t : Table CertificateRenewal) : list CertificateRenewal :=
  take 200 (sql_order_by newest_renewal_first (sql_select (λ r, rn_certificate_id r =? certificate_id)%Z t)).
Definition certificate_counts (id : Z) (t : Table CertificateRenewal) : CertificateDependencyCounts :=
  mkCertificateCounts (sql_count (λ r, rn_certificate_id r =? id)%Z t)
    (sql_count (λ r, (rn_certificate_id r =? id)%Z && bool_decide (rn_status r = "RUNNING")) t).

(** ** [certificate/files.rs] *)

Definition validate_path (path : string) : result unit string :=
  if str_is_empty (trim path) || contains ".." path || contains "/" path || contains "\" path
  then Err "certificate path must be a simple directory name" else Ok tt.
Definition certificate_directory (path : string) : string := "dynamic/certificates/" +:+ path.
Definition tls_config (cert_path key_path : string) : string :=
  "tls:" +:+ newline +:+ "  certificates:" +:+ newline +:+ "    - certFile: /etc/openoxide/traefik/" +:+ cert_path +:+ newline
  +:+ "      keyFile: /etc/openoxide/traefik/" +:+ key_path +:+ newline.
Definition write_certificate (c : Certificate) : TrM unit :=
  (do! _ := of_result (validate_path (ce_certificate_path c)) in
   let directory := certificate_directory (ce_certificate_path c) in
   let cert_path := directory +:+ "/chain.crt" in
   let key_path := directory +:+ "/privkey.key" in
   do! _ := write_file (mkWriteFile (ce_server_id c) cert_path (ce_certificate_data c)) in
   do! _ := write_file (mkWriteFile (ce_server_id c) key_path (ce_private_key c)) in
   write_file (mkWriteFile (ce_server_id c) (directory +:+ "/certificate.yml") (tls_config cert_path key_path)))%rust.
Definition delete_certificate_files (c : Certificate) : TrM unit :=
  (do! _ := of_result (validate_path (ce_certificate_path c)) in
   delete_directory (ce_server_id c) (certificate_directory (ce_certificate_path c)))%rust.

(** ** [CertificateService] *)

Definition cert_found {A} (o : option A) : CertM A := of_result match o with Some a => Ok a | None => Err RowNotFound end.
Definition certificate_get (id organization_id : Z) : CertM Certificate := λ s,
  cert_found (certificate_get_by_id_for_organization id organization_id (ct_certificates s)) s.
Definition certificate_list (organization_id : Z) (s : CertState) : list Certificate := certificate_get_all organization_id (ct_certificates s).

Definition certificate_create (now : Z) (input : CreateCertificateDto) (organization_id : Z) : CertM Certificate :=
  (do! _ := checked (cw_validate (cc_certificate_data input) (cc_private_key input)) in
   let item := mkCertificate 0 (cc_name input) (cc_certificate_data input) (cc_private_key input) (cc_certificate_path input)
     (cc_auto_renew input) (cc_server_id input ≫= parse_i64) organization_id now now in
   do! new_id := on_certificates (certificate_repo_create item) in
   do! certificate := (λ s, cert_found (certificate_get_by_id new_id (ct_certificates s)) s) in
   λ s, match on_files (write_certificate certificate) s with
        | (s1, Ok _) => (s1, Ok certificate)
        | (s1, Err error) => (do! _ := ignore (certificate_repo_delete new_id) in fail error)%rust s1
        end)%rust.

(** A text of blanks keeps the old one *)
Definition given_text (old : string) (new : option string) : string :=
  match new with Some v => if str_is_empty (trim v) then old else v | None => old end.
Definition certificate_edit (now : Z) (input : PatchCertificateDto) (c : Certificate) : Certificate :=
  mkCertificate (ce_id c) (default (ce_name c) (cp_name input)) (given_text (ce_certificate_data c) (cp_certificate_data input))
    (given_text (ce_private_key c) (cp_private_key input)) (default (ce_certificate_path c) (cp_certificate_path input))
    (default (ce_auto_renew c) (cp_auto_renew input))
    (match cp_server_id input with Some v => v ≫= parse_i64 | None => ce_server_id c end) (ce_organization_id c) (ce_created_at c) now.
Definition certificate_patch (now id : Z) (input : PatchCertificateDto) (organization_id : Z) : CertM Certificate :=
  (do! old := certificate_get id organization_id in
   let current := certificate_edit now input old in
   do! _ := checked (cw_validate (ce_certificate_data current) (ce_private_key current)) in
   do! _ := on_files (write_certificate current) in
   do! _ := on_certificates (certificate_repo_update now id current) in
   ret current)%rust.

Definition certificate_delete (id organization_id : Z) : CertM unit :=
  (do! current := certificate_get id organization_id in
   do! _ := (λ s, guard (0 <? cd_running_renewals (certificate_counts id (ct_renewals s)))%Z (Protocol "certificate has a running renewal") s) in
   do! _ := on_files (delete_certificate_files current) in
   do! found := certificate_delete_for_organization id organization_id in
   if found then ret tt else fail RowNotFound)%rust.
Definition certificate_dependencies (id organization_id : Z) : CertM CertificateDependencyCounts :=
  (do! _ := certificate_get id organization_id in λ s, (s, Ok (certificate_counts id (ct_renewals s))))%rust.

(** A renewal that ends with [error]: it is recorded, and the error returned *)
Definition renewal_fails {A} (now execution : Z) (message : string) (error : SqlError) : CertM A :=
  (do! _ := renewal_finish now execution None (Some message) in fail error)%rust.
Definition renewed (now : Z) (input : RenewCertificateDto) (c : Certificate) : Certificate :=
  mkCertificate (ce_id c) (ce_name c) (rw_certificate_data input) (rw_private_key input) (ce_certificate_path c) (ce_auto_renew c)
    (ce_server_id c) (ce_organization_id c) (ce_created_at c) now.
Definition certificate_renew (now id : Z) (input : RenewCertificateDto) (organization_id : Z) : CertM Certificate :=
  (do! old := certificate_get id organization_id in
   let previous := result_ok (cw_expiry (ce_certificate_data old)) in
   do! execution := renewal_begin now id (ce_organization_id old) previous in
   match cw_validate (rw_certificate_data input) (rw_private_key input) with
   | Err error => renewal_fails now execution error (Protocol error)
   | Ok new_expiry =>
       let current := renewed now input old in
       λ s, match on_files (write_certificate current) s with
            | (s1, Err (Protocol error)) => renewal_fails now execution error (Protocol error) s1
            | (s1, Err error) => (s1, Err error)
            | (s1, Ok _) =>
                match on_certificates (certificate_repo_update now id current) s1 with
                | (s2, Err error) => renewal_fails now execution (cw_error_text error) error s2
                | (s2, Ok _) =>
                    (do! _ := renewal_finish now execution (Some new_expiry) None in certificate_get id organization_id)%rust s2
                end
            end
   end)%rust.
Definition renewal_history (id organization_id : Z) : CertM (list CertificateRenewal) :=
  (do! _ := certificate_get id organization_id in λ s, (s, Ok (renewal_list id (ct_renewals s))))%rust.

(** ** The handlers *)

Definition certificate_error (db_message : SqlError → string) (e : SqlError) : Z * string :=
  match e with
  | RowNotFound => (404%Z, "certificate not found")
  | UniqueFailed => (409%Z, db_message e)
  | Protocol message => (400%Z, message)
  | _ => (500%Z, "database operation failed")
  end.
Record CertificateResponseDto := mkCertificateResponse {
  xr_id : string; xr_name : string; xr_certificate_data : string; xr_has_private_key : bool; xr_certificate_path : string;
  xr_auto_renew : Z; xr_server_id : option string; xr_organization_id : Z; xr_created_at : Z; xr_updated_at : Z }.
(** The key does not leave the panel. *)
Definition certificate_response (c : Certificate) : CertificateResponseDto :=
  mkCertificateResponse (i64_to_string (ce_id c)) (ce_name c) (ce_certificate_data c) (negb (str_is_empty (ce_private_key c)))
    (ce_certificate_path c) (ce_auto_renew c) (i64_to_string <$> ce_server_id c) (ce_organization_id c) (ce_created_at c) (ce_updated_at c).
Inductive CertificateRequest :=
| CreateCertificate (body : CreateCertificateDto)
| PatchCertificate (id : Z) (body : PatchCertificateDto)
| DeleteCertificate (id : Z)
| RenewCertificate (id : Z) (body : RenewCertificateDto).
Definition certificate_answer (db_message : SqlError → string) (now organization_id : Z) (rq : CertificateRequest) (s : CertState)
    : CertState * result (Z * option CertificateResponseDto) (Z * string) :=
  let answer (code : Z) (x : CertState * result Certificate SqlError) :=
    (x.1, match x.2 with Ok c => Ok (code, Some (certificate_response c)) | Err e => Err (certificate_error db_message e) end) in
  match rq with
  | CreateCertificate body => answer 201%Z (certificate_create now body organization_id s)
  | PatchCertificate id body => answer 200%Z (certificate_patch now id body organization_id s)
  | RenewCertificate id body => answer 200%Z (certificate_renew now id body organization_id s)
  | DeleteCertificate id =>
      let '(s', r) := certificate_delete id organization_id s in
      (s', match r with Ok _ => Ok (204%Z, None) | Err e => Err (certificate_error db_message e) end)
  end.
End service.

(** ** The files of a certificate *)

Lemma split_on_cut p a c b : p c = true → split_on p (a +:+ String c b) = split_on p a ++ split_on p b.
Proof.
  intros Hc. induction a as [|d a IH]; [change ("" +:+ String c b) with (String c b); simpl; by rewrite Hc|]. change (String d a +:+ String c b) with (String d (a +:+ String c b)).
  simpl. destruct (p d); [by rewrite IH|]. rewrite IH. pose proof (split_on_nonempty p a). by destruct (split_on p a).
Qed.

(** The last part of a path is its name. *)
Lemma file_name_last a name :
  Forall (λ c, is_char c "/" = false) (chars name) → component_of name = Some (Normal name) → file_name (a +:+ String "/" name) = Some name.
Proof.
  intros Hs Hn. unfold file_name, components. rewrite split_on_cut by done. rewrite (split_on_none _ name) by done.
  rewrite omap_app. cbn [omap list_omap]. rewrite Hn, app_assoc, last_snoc. done.
Qed.

Section files.
Context `{JsonText, TraefikWorld, CertificateWorld}.

Lemma join_last base rel name : ∃ a, path_join base (rel +:+ String "/" name) = a +:+ String "/" name.
Proof.
  unfold path_join. destruct (is_absolute _); [by exists rel|]. destruct (_ || _).
  - exists (base +:+ rel). by rewrite str_app_assoc.
  - exists (base +:+ "/" +:+ rel). by rewrite !str_app_assoc.
Qed.

(** A file whose name is neither that of a configuration nor [acme.json] cannot be written. *)
Lemma other_names_are_refused rel name :
  Forall (λ c, is_char c "/" = false) (chars name) → component_of name = Some (Normal name) →
  trim (rel +:+ String "/" name) = rel +:+ String "/" name →
  match rsplit_once "." name with Some (stem, ext) => str_is_empty stem || bool_decide (ext ∉ ["yml"; "yaml"; "json"]) | None => true end = true →
  name ≠ "acme.json" → ∃ e, sanitize_write_path (rel +:+ String "/" name) = Err e.
Proof.
  intros Hs Hn Htrim Hext Hacme. unfold sanitize_write_path, sanitize_traefik_path. rewrite Htrim.
  destruct (str_is_empty _); [eauto|]. destruct (existsb _ _); [eauto|].
  assert (Hf : ∃ a, (if is_absolute (rel +:+ String "/" name) then rel +:+ String "/" name
                     else path_join get_traefik_base_path (rel +:+ String "/" name)) = a +:+ String "/" name)
    by (destruct (is_absolute _); [by exists rel|apply join_last]).
  destruct Hf as [a ->]. case_bool_decide; [eauto|]. destruct (negb _ && negb _); [eauto|].
  unfold is_config_extension, path_extension. rewrite (file_name_last a name) by done. simpl.
  rewrite (bool_decide_eq_false_2 (name = "acme.json")) by done.
  destruct (rsplit_once "." name) as [[stem ext]|]; simpl; [|eauto].
  destruct (str_is_empty stem); simpl in *; [eauto|]. bsimp. rewrite bool_decide_eq_false_2 by done. simpl. eauto.
Qed.

Lemma chain_is_refused path : ∃ e, sanitize_write_path (certificate_directory path +:+ "/chain.crt") = Err e.
Proof.
  apply (other_names_are_refused (certificate_directory path) "chain.crt"); [by repeat constructor|by vm_compute| |by vm_compute|done].
  eapply (trim_edges _ "d" _ "t" (chars (certificate_directory path +:+ "/chain.cr"))); [|rewrite !chars_app; by rewrite <- app_assoc|done|done].
  unfold certificate_directory. rewrite !chars_app. done.
Qed.

(** The chain of a certificate is the first of its files, and its name ends with [.crt]: nothing
    is ever written for a certificate, and every attempt is an error. *)
Lemma write_certificate_fails c h : ∃ e, write_certificate c h = (h, Err e).
Proof.
  unfold write_certificate. rewrite bind_reads_run by apply of_result_reads. cbn [of_result snd].
  destruct (validate_path _) as [[]|e]; [|eauto]. unfold bind at 1, write_file at 1. cbn [wf_path].
  destruct (chain_is_refused (ce_certificate_path c)) as [e ->]. rewrite bind_reads_run by apply of_result_reads. simpl. eauto.
Qed.
End files.

(** ** What the service can do *)

Section theorems.
Context `{JsonText, TraefikWorld, CertificateWorld}.

Lemma on_files_write c s : ∃ e, on_files (write_certificate c) s = (s, Err (Protocol e)).
Proof. unfold on_files. destruct (write_certificate_fails c (ct_host s)) as [e ->]. destruct s. by exists e. Qed.

Lemma create_fails now input org s :
  table_wf (ct_certificates s) →
  let '(s', r) := certificate_create now input org s in
  (∃ e, r = Err e) ∧ rows (ct_certificates s') = rows (ct_certificates s) ∧ table_wf (ct_certificates s') ∧ ct_host s' = ct_host s.
Proof.
  intros Hwf. unfold certificate_create, checked. rewrite bind_reads_run by apply of_result_reads. cbn [of_result snd].
  destruct (cw_validate _ _) as [expiry|e]; [|eauto 10]. set (item := mkCertificate 0 _ _ _ _ _ _ _ _ _).
  unfold bind at 1, on_certificates. destruct (certificate_repo_create item _) as [[t id]|e] eqn:Ei; [|eauto 10].
  pose proof Ei as Hwf'. apply sql_insert_wf in Hwf'; [|done|done]. apply sql_insert_inv in Ei as (Hid & _ & Hrows & _).
  set (row := with_ce_id id item) in *. set (s1 := mkCertState t _ _). unfold bind at 1.
  change (ct_certificates s1) with t. unfold certificate_get_by_id.
  rewrite (sql_first_id t row Hwf' ltac:(rewrite Hrows; set_solver) : sql_first (λ c, ce_id c =? id)%Z t = Some row).
  cbn [cert_found of_result]. destruct (on_files_write row s1) as [e ->]. unfold bind, ignore, fail. simpl.
  split; [eauto|]. split_and!; [|by apply (sql_delete_wf (λ c, ce_id c =? id)%Z)|done].
  rewrite Hrows, List.filter_app. simpl. rewrite Z.eqb_refl. simpl. rewrite app_nil_r. apply filterb_all_true.
  intros c Hc. pose proof (wf_seq _ Hwf c Hc) as Hle. simpl in Hle. apply negb_true_iff, Z.eqb_neq. lia.
Qed.

Lemma patch_fails now id input org s : ∃ e, certificate_patch now id input org s = (s, Err e).
Proof.
  unfold certificate_patch, bind at 1, certificate_get. destruct (certificate_get_by_id_for_organization _ _ _) as [c|]; [|eauto].
  cbn [cert_found of_result]. unfold checked. rewrite bind_reads_run by apply of_result_reads. cbn [of_result snd].
  destruct (cw_validate _ _); [|eauto]. unfold bind at 1. destruct (on_files_write (certificate_edit now input c) s) as [e ->]. eauto.
Qed.

(** What a renewal may change: the record of renewals *)
Definition only_renewals (s s' : CertState) : Prop := ct_certificates s' = ct_certificates s ∧ ct_host s' = ct_host s.
Lemma on_renewals_only {A} (f : Table CertificateRenewal → result (Table CertificateRenewal * A) SqlError) s :
  only_renewals s (on_renewals f s).1.
Proof. unfold on_renewals. destruct (f _) as [[t a]|e]; done. Qed.
Lemma renewal_fails_only {A} now execution message error s s0 :
  only_renewals s0 s →
  ∃ s' e, @renewal_fails _ A now execution message error s = (s', Err e) ∧ only_renewals s0 s'.
Proof.
  intros [Hs1 Hs2]. unfold renewal_fails, renewal_finish, bind. set (f := sql_update _ _ _).
  pose proof (on_renewals_only f s) as [Hs3 Hs4]. destruct (on_renewals f s) as [s' [n|e]]; simpl in *; eexists _, _;
    (split; [done|split; congruence]).
Qed.
Lemma renew_fails now id input org s : ∃ s' e, certificate_renew now id input org s = (s', Err e) ∧ only_renewals s s'.
Proof.
  unfold certificate_renew, bind at 1, certificate_get at 1. destruct (certificate_get_by_id_for_organization _ _ _) as [c|]; [|by eexists _, _].
  cbn [cert_found of_result]. unfold bind at 1, renewal_begin. set (f := sql_insert _ _). pose proof (on_renewals_only f s) as Hb.
  destruct (on_renewals f s) as [s1 [execution|e]]; simpl in Hb; [|by eexists _, _].
  destruct (cw_validate _ _) as [expiry|e]; [|by apply renewal_fails_only].
  destruct (on_files_write (renewed now input c) s1) as [e ->]. by apply renewal_fails_only.
Qed.

(** C40: Creating, changing and renewing a certificate always end with an error, since the
    service of files refuses the name of the first file of a certificate: the certificates and
    the files of all machines are as before. Only the records of renewals, of which this says
    nothing, may change. *)
Theorem certificates_are_never_written db_message now org rq s s' r :
  table_wf (ct_certificates s) → certificate_answer db_message now org rq s = (s', r) → (∀ id, rq ≠ DeleteCertificate id) →
  (∃ e, r = Err e) ∧ rows (ct_certificates s') = rows (ct_certificates s) ∧ ct_host s' = ct_host s.
Proof.
  intros Hwf Ha Hnd. destruct rq as [body|id body|id|id body]; [| |by destruct (Hnd id)|]; revert Ha; cbv beta iota zeta delta [certificate_answer].
  - pose proof (create_fails now body org s Hwf) as Hc. destruct (certificate_create now body org s) as [s1 r1].
    destruct Hc as ([e ->] & Hr & _ & Hh). intros [= <- <-]. eauto.
  - destruct (patch_fails now id body org s) as [e ->]. intros [= <- <-]. eauto.
  - destruct (renew_fails now id body org s) as (s1 & e & -> & Hc & Hh). intros [= <- <-]. rewrite Hc. eauto.
Qed.

Definition serve_certificates (db_message : SqlError → string) (s : CertState) (x : Z * Z * CertificateRequest) : CertState :=
  (certificate_answer db_message x.1.1 x.1.2 x.2 s).1.
Lemma nothing_to_delete id org s : rows (ct_certificates s) = [] → certificate_delete id org s = (s, Err RowNotFound).
Proof.
  intros Hr. unfold certificate_delete, bind at 1, certificate_get, certificate_get_by_id_for_organization, sql_first, sql_select. by rewrite Hr.
Qed.

(** After any requests the table of certificates is empty. *)
Theorem no_certificate_is_stored db_message requests h :
  rows (ct_certificates (foldl (serve_certificates db_message) (mkCertState empty_table empty_table h) requests)) = []
  ∧ ct_host (foldl (serve_certificates db_message) (mkCertState empty_table empty_table h) requests) = h.
Proof.
  assert (Hgen : ∀ s, table_wf (ct_certificates s) → rows (ct_certificates s) = [] →
    rows (ct_certificates (foldl (serve_certificates db_message) s requests)) = []
    ∧ ct_host (foldl (serve_certificates db_message) s requests) = ct_host s).
  { induction requests as [|[[now org] rq] requests IH]; intros s Hwf Hr; [done|]. simpl.
    assert (Hstep : let s' := serve_certificates db_message s (now, org, rq) in
      table_wf (ct_certificates s') ∧ rows (ct_certificates s') = [] ∧ ct_host s' = ct_host s).
    { unfold serve_certificates. cbn [fst snd]. destruct rq as [body|id body|id|id body]; cbv beta iota zeta delta [certificate_answer].
      - pose proof (create_fails now body org s Hwf) as Hc. destruct (certificate_create now body org s) as [s1 r1].
        destruct Hc as (_ & Hr' & Hwf' & Hh). simpl. split_and!; [done|congruence|done].
      - destruct (patch_fails now id body org s) as [e ->]. done.
      - by rewrite nothing_to_delete.
      - destruct (renew_fails now id body org s) as (s1 & e & -> & Hc & Hh). simpl. by rewrite Hc. }
    destruct Hstep as (Hwf' & Hr' & Hh). destruct (IH _ Hwf' Hr') as [-> ->]. by rewrite Hh. }
  apply (Hgen (mkCertState empty_table empty_table h)); [apply empty_table_wf|done].
Qed.
End theorems.

(** *** A sample *)

Definition sample_checks : CertificateWorld := {|
  cw_expiry := λ _, Ok 100%Z; cw_validate := λ _ _, Ok 200%Z; cw_server_exists := λ _, true; cw_organization_exists := λ _, true;
  cw_error_text := λ _, "" |}.

Section sample.
#[local] Existing Instances map_world map_json sample_checks.

(** A valid certificate for the panel itself *)
Definition shop_certificate : CertificateRequest := CreateCertificate (mkCreateCertificate "shop" "CERT" "KEY" "shop" 0 None).
Definition no_certificates : CertState := mkCertState empty_table empty_table (∅ : gmap (option Z * string) string).
Lemma certificates_are_never_written_witness :
  ∃ s' e, certificate_answer (λ _, "") 10 1 shop_certificate no_certificates = (s', Err e) ∧ rows (ct_certificates s') = []
    ∧ e = (400%Z, "Security Restriction: Only .yml, .yaml, and .json files are accessible").
Proof.
  destruct (certificate_answer (λ _, "") 10 1 shop_certificate no_certificates) as [s' r] eqn:E.
  assert (Hr : r = Err (400%Z, "Security Restriction: Only .yml, .yaml, and .json files are accessible"))
    by (replace r with (certificate_answer (λ _, "") 10 1 shop_certificate no_certificates).2 by (by rewrite E); by vm_compute).
  destruct (certificates_are_never_written (λ _, "") 10 1 shop_certificate no_certificates s' r) as ([e He] & Hrows & _);
    [apply empty_table_wf|exact E|done|]. exists s', e. split_and!; [by rewrite He|exact Hrows|congruence].
Defined.

(** The files of a certificate cannot be deleted either, unless its directory is named like a file. *)
Example directory_cannot_be_deleted :
  sanitize_write_path (certificate_directory "shop") = Err "Security Restriction: Only .yml, .yaml, and .json files are accessible"
  ∧ sanitize_write_path (certificate_directory "shop.yml") = Ok "/etc/openoxide/traefik/dynamic/certificates/shop.yml".
Proof. by vm_compute. Qed.
End sample.
