(* ===== verification/Dns.v ===== *)
(** * DNS providers

    [services/dns] with the table of migration 0046 and its repository: the providers of an
    organization, the check and the masking of their credentials, and the calls to Cloudflare and
    Route 53.  The two services are a parameter, a state with the answers to requests; so are JSON
    and its error texts.  The masked credentials do not depend on the secrets
    ([masked_credentials_hide_secrets]), the pages of Cloudflare give all zones
    ([all_zones_are_listed]), a record is written with one request that replaces the record found
    or creates one ([upsert_is_one_write]), and an organization reaches its own providers only
    ([providers_are_private]). *)

From stdpp Require Import gmap strings list sorting.
From Stdlib Require Import ZArith Lia Ascii.
From S2P Require Import Prelude RustStr RustText JsonValue StringEnum Sql ShellQuote TraefikFiles.

(** ** Data *)

Inductive DnsProviderType := Cloudflare | Route53 | Hetzner | DigitalOcean | Godaddy.
#[export] Instance DnsProviderType_eq_dec : EqDecision DnsProviderType.
Proof. solve_decision. Defined.
#[export] Instance DnsProviderType_enum : StringEnum DnsProviderType := {|
  enum_table := [(Cloudflare, "CLOUDFLARE"); (Route53, "ROUTE53"); (Hetzner, "HETZNER"); (DigitalOcean, "DIGITALOCEAN"); (Godaddy, "GODADDY")];
  enum_default := Cloudflare |}.
#[export] Instance DnsProviderType_laws : StringEnumLaws DnsProviderType.
Proof. enum_laws. Qed.

Record DnsProvider := mkDnsProvider {
  dp_id : Z; dp_name : string; dp_provider_type : string; dp_credentials_json : string; dp_organization_id : Z; dp_created_at : Z; dp_updated_at : Z }.
#[export] Instance DnsProvider_schema : Schema DnsProvider := {| row_id := dp_id; row_check _ := true; row_conflict _ _ := false |}.
#[export] Instance DnsProvider_laws : SchemaLaws DnsProvider.
Proof. by constructor. Qed.

Record DnsProviderDto := mkDnsDto {
  dd_id : Z; dd_name : string; dd_provider_type : DnsProviderType; dd_credentials_json : string; dd_organization_id : Z; dd_created_at : Z;
  dd_updated_at : Z }.
Record CreateDnsProviderDto := mkCreateDns { cn_name : string; cn_provider_type : DnsProviderType; cn_credentials_json : string }.
Record UpdateDnsProviderDto := mkUpdateDns {
  un_name : option string; un_provider_type : option DnsProviderType; un_credentials_json : option string }.
Record DnsTestResultDto := mkDnsTest { dt_success : bool; dt_message : string }.
Record DnsZoneDto := mkZone { zo_id : string; zo_name : string; zo_status : option string }.
Record DnsRecordDto := mkRecord {
  rc_id : string; rc_zone_id : string; rc_record_type : string; rc_name : string; rc_content : string; rc_ttl : option Z; rc_proxied : option bool }.
Record UpsertDnsRecordDto := mkUpsert {
  us_zone_id : string; us_record_type : string; us_name : string; us_content : string; us_ttl : option Z; us_proxied : option bool }.
Inductive DnsServiceError := DnsNotFound | DnsDatabase (e : SqlError) | DnsHttp (e : string) | DnsProviderError (msg : string).

Definition DNS_SECRET_MASK : string := "********".

(** ** The services outside *)

Record RecordSet := mkRecordSet { rr_name : string; rr_type : string; rr_ttl : option Z; rr_values : list string }.
Inductive ChangeAction := UpsertAction | DeleteAction.
Record Route53Client := mkRoute53 { r5_access_key : string; r5_secret_key : string }.

Class DnsWorld := {
  Net : Type;
  dw_http : Request → Net → Net * result Response string;
  dw_zones : Route53Client → Z → option string → Net → Net * result (list (string * string) * bool * option string) string;
  dw_records : Route53Client → string → option string → option string → Net → Net * result (list RecordSet * option string * option string) string;
  dw_change : Route53Client → string → ChangeAction → RecordSet → Net → Net * result unit string;
  dw_json_error : string → string;                        (* of [serde_json::from_str] *)
  dw_decode_error : string;                               (* of [serde_json::from_value] *)
  dw_status_text : Z → string;
  dw_organization_exists : Z → bool;
}.

Section service.
Context `{JsonText, DnsWorld}.

Record DnsState := mkDnsState { dn_providers : Table DnsProvider; dn_net : Net }.
Definition DnsM := SE DnsState DnsServiceError.

(** ** [DnsProviderRepository] *)

Definition newest_dns_first (a b : DnsProvider) : bool := (dp_created_at b <=? dp_created_at a)%Z.
Definition dns_list_by_organization (organization_id : Z) (t : Table DnsProvider) : list DnsProvider :=
  sql_order_by newest_dns_first (sql_select (λ p, dp_organization_id p =? organization_id)%Z t).
Definition dns_get_by_id (id : Z) (t : Table DnsProvider) : option DnsProvider := sql_first (λ p, dp_id p =? id)%Z t.
Definition with_dp_id (id : Z) (p : DnsProvider) : DnsProvider :=
  mkDnsProvider id (dp_name p) (dp_provider_type p) (dp_credentials_json p) (dp_organization_id p) (dp_created_at p) (dp_updated_at p).
Definition dns_repo_create (item : DnsProvider) (t : Table DnsProvider) :=
  sql_insert (λ p, dw_organization_exists (dp_organization_id p)) (λ id, with_dp_id id item) t.
Definition dns_repo_update (id : Z) (item : DnsProvider) (t : Table DnsProvider) :=
  sql_update no_fk (λ p, (dp_id p =? id)%Z && (dp_organization_id p =? dp_organization_id item)%Z)
    (λ p, mkDnsProvider (dp_id p) (dp_name item) (dp_provider_type item) (dp_credentials_json item) (dp_organization_id p) (dp_created_at p)
            (dp_updated_at item)) t.
Definition dns_repo_delete (id organization_id : Z) (t : Table DnsProvider) : Table DnsProvider * bool :=
  let '(t', n) := sql_delete (λ p, (dp_id p =? id) && (dp_organization_id p =? organization_id))%Z t in (t', bool_decide (0 < n)%nat).

Definition on_providers {A} (f : Table DnsProvider → result (Table DnsProvider * A) SqlError) : DnsM A := λ s,
  match f (dn_providers s) with
  | Ok (t, a) => (mkDnsState t (dn_net s), Ok a)
  | Err e => (s, Err (DnsDatabase e))
  end.

(** ** Credentials *)

Definition extract_credential_field (json_str field_name : string) : string :=
  match json_parse json_str ≫= (λ v, as_str_value (at_key field_name v)) with
  | Some s => trim s
  | None => trim_matches_char squote (trim_matches_char dquote (trim json_str))
  end.
Definition secret_keys : list string := ["apiToken"; "secretAccessKey"; "apiKey"; "authKey"].
Definition mask_key (o : Members) (key : string) : Members :=
  match member key o with Some _ => put key (VString DNS_SECRET_MASK) o | None => o end.
Definition mask_credentials (json_str : string) : string :=
  match json_parse json_str with
  | Some (VObject o) => json_print (VObject (foldl mask_key o secret_keys))
  | _ => DNS_SECRET_MASK
  end.

Definition parse_provider_type (value : string) : result DnsProviderType DnsServiceError :=
  ok_or (from_str value) (DnsProviderError ("Unknown DNS provider type '" +:+ value +:+ "'")).
Definition unsupported_provider (provider_type : DnsProviderType) : DnsServiceError :=
  DnsProviderError ("DNS provider '" +:+ as_str provider_type +:+ "' is not implemented").
Definition ensure_supported_provider (provider_type : DnsProviderType) : result unit DnsServiceError :=
  match provider_type with Cloudflare | Route53 => Ok tt | _ => Err (unsupported_provider provider_type) end.
Definition required_fields (provider_type : DnsProviderType) : list string :=
  match provider_type with Cloudflare => ["apiToken"] | Route53 => ["accessKeyId"; "secretAccessKey"] | _ => [] end.
Definition missing_field (config : JValue) (fields : list string) : option string :=
  List.find (λ field, str_is_empty (match as_str_value (at_key field config) with Some s => trim s | None => "" end)) fields.
Definition validate_provider_config (provider_type : DnsProviderType) (credentials_json : string) : result unit DnsServiceError :=
  (let? _ := ensure_supported_provider provider_type in
   let? config := ok_or (json_parse credentials_json) (DnsProviderError ("Invalid DNS credentials JSON: " +:+ dw_json_error credentials_json)) in
   match missing_field config (required_fields provider_type) with
   | Some field => Err (DnsProviderError ("DNS credentials field '" +:+ field +:+ "' is required"))
   | None => Ok tt
   end)%rust.

(** ** Providers *)

Definition dns_into_dto (p : DnsProvider) : DnsProviderDto :=
  mkDnsDto (dp_id p) (dp_name p) (default Cloudflare (from_str (dp_provider_type p))) (mask_credentials (dp_credentials_json p))
    (dp_organization_id p) (dp_created_at p) (dp_updated_at p).
(** [get_by_id(id)?.filter(organization).ok_or(NotFound)] *)
Definition own_provider (id organization_id : Z) : DnsM DnsProvider := λ s,
  (s, match dns_get_by_id id (dn_providers s) with
      | Some p => if (dp_organization_id p =? organization_id)%Z then Ok p else Err DnsNotFound
      | None => Err DnsNotFound
      end).
Definition list_providers (organization_id : Z) (s : DnsState) : list DnsProviderDto :=
  map dns_into_dto (dns_list_by_organization organization_id (dn_providers s)).
Definition get_provider (id organization_id : Z) : DnsM DnsProviderDto :=
  (do! p := own_provider id organization_id in ret (dns_into_dto p))%rust.
Definition create_provider (now organization_id : Z) (body : CreateDnsProviderDto) : DnsM DnsProviderDto :=
  (do! _ := of_result (validate_provider_config (cn_provider_type body) (cn_credentials_json body)) in
   let item := mkDnsProvider 0 (cn_name body) (as_str (cn_provider_type body)) (cn_credentials_json body) organization_id now now in
   do! id := on_providers (dns_repo_create item) in
   λ s, (s, match dns_get_by_id id (dn_providers s) with Some p => Ok (dns_into_dto p) | None => Err DnsNotFound end))%rust.

Definition new_type (existing : DnsProvider) (t : option DnsProviderType) : result string DnsServiceError :=
  match t with
  | Some t => (let? _ := ensure_supported_provider t in Ok (as_str t))%rust
  | None => Ok (dp_provider_type existing)
  end.
(** Credentials that hold the mask anywhere are not taken. *)
Definition new_credentials (existing : DnsProvider) (provider_type : string) (creds : option string) : result string DnsServiceError :=
  match creds with
  | Some creds =>
      if contains DNS_SECRET_MASK creds then Ok (dp_credentials_json existing)
      else (let? t := parse_provider_type provider_type in
            let? _ := validate_provider_config t creds in Ok creds)%rust
  | None => Ok (dp_credentials_json existing)
  end.
Definition update_provider (now id organization_id : Z) (body : UpdateDnsProviderDto) : DnsM DnsProviderDto :=
  (do! existing := own_provider id organization_id in
   do! provider_type := of_result (new_type existing (un_provider_type body)) in
   do! credentials := of_result (new_credentials existing provider_type (un_credentials_json body)) in
   let p := mkDnsProvider (dp_id existing) (default (dp_name existing) (un_name body)) provider_type credentials (dp_organization_id existing)
     (dp_created_at existing) now in
   do! _ := on_providers (dns_repo_update id p) in
   ret (dns_into_dto p))%rust.
Definition delete_provider (id organization_id : Z) : DnsM bool := λ s,
  let '(t, found) := dns_repo_delete id organization_id (dn_providers s) in (mkDnsState t (dn_net s), Ok found).

(** ** Cloudflare *)

Definition net {A} (m : Net → Net * result A string) (error : string → DnsServiceError) : DnsM A := λ s,
  let '(n, r) := m (dn_net s) in (mkDnsState (dn_providers s) n, match r with Ok a => Ok a | Err e => Err (error e) end).
Definition cloudflare_api : string := "https://api.cloudflare.com/client/v4/zones".
Definition cloudflare_send (method : Method) (url : string) (query : list (string * string)) (token : string) (body : Body) : DnsM Response :=
  net (dw_http (mkRequest method url query [bearer token] body)) DnsHttp.

Definition error_messages (body : JValue) : string :=
  match at_key "errors" body with VArray errors => join ", " (omap (λ e, as_str_value (at_key "message" e)) errors) | _ => "" end.
Definition cloudflare_result {T} (decode : JValue → option T) (response : Response) (operation : string) : DnsM T :=
  of_result
    match rs_json response with
    | Err e => Err (DnsHttp e)
    | Ok body =>
        if negb (is_success (rs_status response)) || negb (match at_key "success" body with VBool true => true | _ => false end) then
          let detail := error_messages body in
          Err (DnsProviderError ("Cloudflare: " +:+ operation +:+ " failed"
            +:+ if str_is_empty detail then " (status " +:+ dw_status_text (rs_status response) +:+ ")" else ": " +:+ detail))
        else ok_or (decode (at_key "result" body)) (DnsProviderError ("Cloudflare returned an invalid response: " +:+ dw_decode_error))
    end.
(** [Vec<Value>] and [Value] *)
Definition any_value (v : JValue) : option JValue := Some v.

Definition test_cloudflare_token (credentials_json : string) : DnsM DnsTestResultDto :=
  let token := extract_credential_field credentials_json "apiToken" in
  if str_is_empty token then ret (mkDnsTest false "Cloudflare API Token is required")
  else (do! res := cloudflare_send GET cloudflare_api [("per_page", "1")] token NoBody in
        do! _ := cloudflare_result as_array res "/zones?per_page=1" in
        ret (mkDnsTest true "Cloudflare API Token verified successfully!"))%rust.

(** The loop over pages of fifty; [None] when [fuel] pages were full *)
Fixpoint cloudflare_pages {T} (fuel : nat) (url token operation : string) (item : JValue → T) (page : Z) (found : list T) (s : DnsState)
    : DnsState * option (result (list T) DnsServiceError) :=
  match fuel with
  | O => (s, None)
  | S fuel' =>
      match (do! res := cloudflare_send GET url [("per_page", "50"); ("page", i64_to_string page)] token NoBody in
             cloudflare_result as_array res operation)%rust s with
      | (s', Err e) => (s', Some (Err e))
      | (s', Ok result) =>
          let found := found ++ map item result in
          if (length result <? 50)%nat then (s', Some (Ok found))
          else cloudflare_pages fuel' url token operation item (page + 1) found s'
      end
  end.
Definition zone_of (z : JValue) : DnsZoneDto :=
  mkZone (str_at "id" "" z) (str_at "name" "" z) (as_str_value (at_key "status" z)).
Definition as_bool_value (v : JValue) : option bool := match v with VBool b => Some b | _ => None end.
(** [as u32] *)
Definition as_u32 (n : Z) : Z := (n `mod` 2 ^ 32)%Z.
Definition record_of (zone_id : string) (r : JValue) : DnsRecordDto :=
  mkRecord (str_at "id" "" r) zone_id (str_at "type" "" r) (str_at "name" "" r) (str_at "content" "" r)
    (as_u32 <$> as_u64_value (at_key "ttl" r)) (as_bool_value (at_key "proxied" r)).
Definition records_url (zone_id : string) : string := cloudflare_api +:+ "/" +:+ zone_id +:+ "/dns_records".
Definition list_cloudflare_zones (fuel : nat) (credentials_json : string) :=
  cloudflare_pages fuel cloudflare_api (extract_credential_field credentials_json "apiToken") "/zones" zone_of 1 [].
Definition list_cloudflare_records (fuel : nat) (credentials_json zone_id : string) :=
  cloudflare_pages fuel (records_url zone_id) (extract_credential_field credentials_json "apiToken") "list DNS records" (record_of zone_id) 1 [].

Definition is_supported_record (record_type : string) : bool := bool_decide (record_type ∈ ["A"; "CNAME"]).
Definition record_payload (body : UpsertDnsRecordDto) : JValue :=
  json_object [("type", VString (us_record_type body)); ("name", VString (us_name body)); ("content", VString (us_content body));
               ("ttl", json_int (default 1%Z (us_ttl body)))].
(** The request that writes the record, and what it is called *)
Definition write_request (url : string) (existing : list JValue) : Method * string * string :=
  match head existing ≫= (λ r, as_str_value (at_key "id" r)) with
  | Some record_id => (PUT, url +:+ "/" +:+ record_id, "update DNS record")
  | None => (POST, url, "create DNS record")
  end.
Definition upsert_cloudflare_record (credentials_json : string) (body : UpsertDnsRecordDto) : DnsM DnsRecordDto :=
  (let token := extract_credential_field credentials_json "apiToken" in
   let url := records_url (us_zone_id body) in
   do! _ := guard (negb (is_supported_record (us_record_type body))) (DnsProviderError "Only A and CNAME records are supported") in
   do! lookup := cloudflare_send GET url [("type", us_record_type body); ("name", us_name body)] token NoBody in
   do! existing := cloudflare_result as_array lookup "find DNS record" in
   let '(method, target, operation) := write_request url existing in
   do! res := cloudflare_send method target [] token (JsonBody (record_payload body)) in
   do! created := cloudflare_result any_value res operation in
   ret (mkRecord (str_at "id" "" created) (us_zone_id body) (us_record_type body) (us_name body) (us_content body) (us_ttl body)
          (us_proxied body)))%rust.
Definition delete_cloudflare_record (credentials_json zone_id record_id : string) : DnsM bool :=
  (let token := extract_credential_field credentials_json "apiToken" in
   do! res := cloudflare_send DELETE (records_url zone_id +:+ "/" +:+ record_id) [] token NoBody in
   do! _ := cloudflare_result any_value res "delete DNS record" in
   ret true)%rust.

(** ** Route 53 *)

Definition route53_client (credentials_json : string) : result Route53Client DnsServiceError :=
  let access_key := extract_credential_field credentials_json "accessKeyId" in
  let secret_key := extract_credential_field credentials_json "secretAccessKey" in
  if str_is_empty access_key || str_is_empty secret_key then Err (DnsProviderError "Route53 accessKeyId and secretAccessKey are required")
  else Ok (mkRoute53 access_key secret_key).
Definition route53_error (prefix error : string) : DnsServiceError := DnsProviderError (prefix +:+ error).
Definition test_route53 (credentials_json : string) : DnsM DnsTestResultDto :=
  (do! client := of_result (route53_client credentials_json) in
   do! _ := net (dw_zones client 1 None) (route53_error "Route53 authentication failed: ") in
   ret (mkDnsTest true "Route53 credentials verified successfully"))%rust.

Definition route53_zone (z : string * string) : DnsZoneDto := mkZone (trim_start_matches "/hostedzone/" z.1) (trim_end_char "." z.2) None.
Fixpoint route53_zone_pages (fuel : nat) (client : Route53Client) (marker : option string) (zones : list DnsZoneDto) (s : DnsState)
    : DnsState * option (result (list DnsZoneDto) DnsServiceError) :=
  match fuel with
  | O => (s, None)
  | S fuel' =>
      match net (dw_zones client 100 marker) (route53_error "Route53 list zones failed: ") s with
      | (s', Err e) => (s', Some (Err e))
      | (s', Ok (hosted, is_truncated, next)) =>
          let zones := zones ++ map route53_zone hosted in
          match (if (is_truncated : bool) then next else None) with
          | Some m => route53_zone_pages fuel' client (Some m) zones s'
          | None => (s', Some (Ok zones))
          end
      end
  end.
Definition list_route53_zones (fuel : nat) (credentials_json : string) (s : DnsState) :=
  match route53_client credentials_json with
  | Ok client => route53_zone_pages fuel client None [] s
  | Err e => (s, Some (Err e))
  end.

(** A set without values, which is an alias, is left out. *)
Definition route53_dto (zone_id : string) (r : RecordSet) : option DnsRecordDto :=
  let name := trim_end_char "." (rr_name r) in
  if bool_decide (rr_values r = []) then None
  else Some (mkRecord (rr_type r +:+ ":" +:+ name) zone_id (rr_type r) name (join ", " (rr_values r)) (as_u32 <$> rr_ttl r) None).
Fixpoint route53_record_pages (fuel : nat) (client : Route53Client) (zone_id : string) (next_name next_type : option string)
    (out : list DnsRecordDto) (s : DnsState) : DnsState * option (result (list DnsRecordDto) DnsServiceError) :=
  match fuel with
  | O => (s, None)
  | S fuel' =>
      match net (dw_records client zone_id next_name next_type) (route53_error "Route53 list records failed: ") s with
      | (s', Err e) => (s', Some (Err e))
      | (s', Ok (sets, name, type)) =>
          let out := out ++ omap (route53_dto zone_id) sets in
          match name with
          | Some _ => route53_record_pages fuel' client zone_id name type out s'
          | None => (s', Some (Ok out))
          end
      end
  end.
Definition list_route53_records (fuel : nat) (credentials_json zone_id : string) (s : DnsState) :=
  match route53_client credentials_json with
  | Ok client => route53_record_pages fuel client zone_id None None [] s
  | Err e => (s, Some (Err e))
  end.

Definition route53_record (body : UpsertDnsRecordDto) : result RecordSet DnsServiceError :=
  if is_supported_record (us_record_type body) then
    Ok (mkRecordSet (if ends_with "." (us_name body) then us_name body else us_name body +:+ ".") (us_record_type body)
          (Some (default 300%Z (us_ttl body))) [us_content body])
  else Err (DnsProviderError "Only A and CNAME records are supported").
Definition upsert_route53_record (credentials_json : string) (body : UpsertDnsRecordDto) : DnsM DnsRecordDto :=
  (do! set := of_result (route53_record body) in
   do! client := of_result (route53_client credentials_json) in
   do! _ := net (dw_change client (us_zone_id body) UpsertAction set) (route53_error "Route53 upsert failed: ") in
   ret (mkRecord (us_record_type body +:+ ":" +:+ us_name body) (us_zone_id body) (us_record_type body) (us_name body) (us_content body)
          (match us_ttl body with Some t => Some t | None => Some 300%Z end) None))%rust.
(** [None] when the records do not end within the fuel *)
Definition delete_route53_record (fuel : nat) (credentials_json zone_id record_id : string) (s : DnsState)
    : DnsState * option (result bool DnsServiceError) :=
  match split_once ":" record_id with
  | None => (s, Some (Err (DnsProviderError "Invalid Route53 record id")))
  | Some (kind, name) =>
      match list_route53_records fuel credentials_json zone_id s with
      | (s1, Some (Ok records)) =>
          let '(s2, r) :=
            (do! existing := of_result (ok_or (List.find (λ r, bool_decide (rc_record_type r = kind) && bool_decide (rc_name r = name)) records)
                                          DnsNotFound) in
             do! set := of_result (route53_record (mkUpsert zone_id (rc_record_type existing) (rc_name existing) (rc_content existing)
                                                     (rc_ttl existing) None)) in
             do! client := of_result (route53_client credentials_json) in
             do! _ := net (dw_change client zone_id DeleteAction set) (route53_error "Route53 delete failed: ") in
             ret true)%rust s1 in
          (s2, Some r)
      | (s1, Some (Err e)) => (s1, Some (Err e))
      | (s1, None) => (s1, None)
      end
  end.

(** ** [dispatch.rs] *)

Definition supported {A} (provider_type : DnsProviderType) (cloudflare route53 : DnsM A) : DnsM A :=
  match provider_type with Cloudflare => cloudflare | Route53 => route53 | t => fail (unsupported_provider t) end.
Definition test_credentials (provider_type : DnsProviderType) (credentials_json : string) : DnsM DnsTestResultDto :=
  supported provider_type (test_cloudflare_token credentials_json) (test_route53 credentials_json).
(** The provider of the organization, and its type *)
Definition own_typed (id organization_id : Z) : DnsM (DnsProviderType * string) :=
  (do! p := own_provider id organization_id in
   do! t := of_result (parse_provider_type (dp_provider_type p)) in
   ret (t, dp_credentials_json p))%rust.
Definition test_connection (id organization_id : Z) : DnsM DnsTestResultDto :=
  (do! tc := own_typed id organization_id in test_credentials tc.1 tc.2)%rust.
Definition upsert_record (id organization_id : Z) (body : UpsertDnsRecordDto) : DnsM DnsRecordDto :=
  (do! tc := own_typed id organization_id in
   supported tc.1 (upsert_cloudflare_record tc.2 body) (upsert_route53_record tc.2 body))%rust.
(** The calls that go through pages *)
Definition paged {A} (id organization_id : Z) (cloudflare route53 : string → DnsState → DnsState * option (result A DnsServiceError)) (s : DnsState)
    : DnsState * option (result A DnsServiceError) :=
  match own_typed id organization_id s with
  | (s1, Ok (Cloudflare, creds)) => cloudflare creds s1
  | (s1, Ok (Route53, creds)) => route53 creds s1
  | (s1, Ok (t, _)) => (s1, Some (Err (unsupported_provider t)))
  | (s1, Err e) => (s1, Some (Err e))
  end.
Definition list_zones (fuel : nat) (id organization_id : Z) := paged id organization_id (list_cloudflare_zones fuel) (list_route53_zones fuel).
Definition list_records (fuel : nat) (id organization_id : Z) (zone_id : string) :=
  paged id organization_id (λ c, list_cloudflare_records fuel c zone_id) (λ c, list_route53_records fuel c zone_id).
Definition delete_record (fuel : nat) (id organization_id : Z) (zone_id record_id : string) :=
  paged id organization_id (λ c s, let '(s', r) := delete_cloudflare_record c zone_id record_id s in (s', Some r))
    (λ c, delete_route53_record fuel c zone_id record_id).
End service.

(** ** Masking *)

(** The keys of an object in their order, as a [BTreeMap] has them *)
Definition in_order (o : Members) : Prop := StronglySorted (λ a b, str_le a.1 b.1 = true ∧ a.1 ≠ b.1) o.
(** What the masking means: the value of every secret key replaced, and nothing else *)
Definition masked (keys : list string) (o : Members) : Members :=
  map (λ '(k, v), (k, if bool_decide (k ∈ keys) then VString DNS_SECRET_MASK else v)) o.

Lemma masked_nil o : masked [] o = o.
Proof. induction o as [|[k v] o IH]; [done|]. simpl. by rewrite IH. Qed.
Lemma masked_cons key keys o : masked (key :: keys) o = masked keys (masked [key] o).
Proof.
  induction o as [|[k v] o IH]; [done|]. simpl. rewrite IH. repeat f_equal.
  repeat case_bool_decide; set_solver.
Qed.
Lemma masked_in_order keys o : in_order o → in_order (masked keys o).
Proof.
  induction 1 as [|[k v] o Ho IH Hk]; simpl; constructor; [done|]. apply Forall_map. eapply Forall_impl; [exact Hk|]. by intros [k' v'].
Qed.
Lemma masked_absent key o : Forall (λ p, p.1 ≠ key) o → masked [key] o = o.
Proof.
  induction 1 as [|[k v] o Hk _ IH]; [done|]. simpl in *. rewrite IH. by rewrite bool_decide_eq_false_2 by set_solver.
Qed.

Lemma mask_key_masked o key : in_order o → mask_key o key = masked [key] o.
Proof.
  unfold mask_key. induction 1 as [|[k v] o Ho IH Hk]; [done|]. simpl. destruct (decide (k = key)) as [->|Hne].
  - rewrite !bool_decide_eq_true_2 by (done || set_solver). f_equal. symmetry. apply masked_absent.
    eapply Forall_impl; [exact Hk|]. simpl. intros [k' v'] [_ ?]. simpl in *. congruence.
  - rewrite (bool_decide_eq_false_2 (k = key)) by done. rewrite (bool_decide_eq_false_2 (k ∈ [key])) by set_solver.
    destruct (member key o) as [w|] eqn:Em; [|by rewrite <- IH].
    assert (Hlt : str_le key k = false).
    { destruct (str_le key k) eqn:E; [|done]. exfalso. assert (Hin : ∃ w', (key, w') ∈ o).
      { clear -Em. induction o as [|[k' w'] o IH]; [done|]. simpl in Em. case_bool_decide; [subst; exists w'; left|].
        destruct (IH Em) as [w'' ?]. exists w''. by right. }
      destruct Hin as [w' Hin]. rewrite Forall_forall in Hk. destruct (Hk _ Hin) as [Hle _]. simpl in Hle. apply Hne. by apply str_le_antisym. }
    rewrite Hlt. by rewrite <- IH.
Qed.

(** Masking one key after the other is replacing the values of the secret keys. *)
Lemma mask_keys_masked keys o : in_order o → foldl mask_key o keys = masked keys o.
Proof.
  revert o. induction keys as [|key keys IH]; intros o Ho; simpl; [by rewrite masked_nil|].
  rewrite mask_key_masked by done. rewrite IH by (by apply masked_in_order). by rewrite <- masked_cons.
Qed.

(** C38: What is shown of the credentials of a DNS provider does not depend on its secrets:
    credentials that are objects with the same keys and agree on every key other than apiToken,
    secretAccessKey, apiKey and authKey are shown as the same text. *)
Theorem masked_credentials_hide_secrets `{JsonText} text1 text2 o1 o2 :
  json_parse text1 = Some (VObject o1) → json_parse text2 = Some (VObject o2) → in_order o1 → in_order o2 →
  Forall2 (λ a b, a.1 = b.1 ∧ (a.1 ∉ ["apiToken"; "secretAccessKey"; "apiKey"; "authKey"] → a.2 = b.2)) o1 o2 →
  mask_credentials text1 = mask_credentials text2.
Proof.
  unfold mask_credentials. intros -> -> Ho1 Ho2 Hagree. rewrite !mask_keys_masked by done. do 2 f_equal.
  clear Ho1 Ho2. induction Hagree as [|[k v] [k' v'] o1 o2 [Hk Hv] _ IH]; [done|]. simpl in *. subst k'. rewrite IH. do 2 f_equal.
  case_bool_decide; [done|auto].
Qed.

Lemma text_without_object `{JsonText} text : (∀ o, json_parse text ≠ Some (VObject o)) → mask_credentials text = DNS_SECRET_MASK.
Proof. unfold mask_credentials. intros Hno. destruct (json_parse text) as [[]|]; try done. by destruct (Hno members). Qed.

(** ** Pages *)

Section pages.
Context `{JsonText, DnsWorld}.

(** The service answers page [p] with the items from [50 (p - 1)] on, at most fifty. *)
Definition serves_pages (url token : string) (items : list JValue) : Prop :=
  ∀ (p : nat) n, ∃ body,
    dw_http (mkRequest GET url [("per_page", "50"); ("page", i64_to_string (Z.of_nat p + 1))] [bearer token] NoBody) n
    = (n, Ok (mkResponse 200 (Ok body)))
    ∧ at_key "success" body = VBool true ∧ at_key "result" body = VArray (take 50 (drop (50 * p) items)).

Lemma pages_from {T} url token operation (item : JValue → T) items fuel p found s :
  serves_pages url token items → length items < 50 * (p + fuel) → 50 * p ≤ length items →
  cloudflare_pages fuel url token operation item (Z.of_nat p + 1) found s = (s, Some (Ok (found ++ map item (drop (50 * p) items)))).
Proof.
  intros Hs. revert p found. induction fuel as [|fuel IH]; intros p found Hlen Hp; [lia|]. cbn [cloudflare_pages].
  destruct (Hs p (dn_net s)) as (body & Hb & Hok & Hres). unfold bind, cloudflare_send, net. rewrite Hb. destruct s as [t n].
  remember (50 * p) as k eqn:Ek. simpl. unfold cloudflare_result, of_result. simpl. rewrite Hok, Hres. cbn [negb orb as_array ok_or].
  rewrite length_take, length_drop. destruct (Nat.ltb_spec (Nat.min 50 (length items - k)) 50) as [Hlt|Hge].
  - rewrite take_ge by (rewrite length_drop; lia). done.
  - replace (Z.of_nat p + 1 + 1)%Z with (Z.of_nat (p + 1) + 1)%Z by lia. rewrite IH by lia. do 3 f_equal.
    rewrite <- app_assoc. f_equal. rewrite <- map_app. f_equal. replace (50 * (p + 1)) with (k + 50) by lia.
    rewrite <- drop_drop. apply take_drop.
Qed.

(** The loop over the pages ends with all zones, in order, when the service has finitely many: one
    page more than the full ones is enough, and no zone is asked for twice. *)
Theorem all_zones_are_listed fuel credentials_json items s :
  serves_pages cloudflare_api (extract_credential_field credentials_json "apiToken") items → length items < 50 * fuel →
  list_cloudflare_zones fuel credentials_json s = (s, Some (Ok (map zone_of items))).
Proof.
  intros Hs Hlen. unfold list_cloudflare_zones.
  exact (pages_from cloudflare_api _ "/zones" zone_of items fuel 0 [] s Hs ltac:(lia) ltac:(lia)).
Qed.

(** ** Records *)

(** A record that is written to Cloudflare takes two requests: the search for the record of this
    type and name, and one write of the wanted record, which replaces the first one found or
    creates one. *)
Theorem upsert_is_one_write credentials_json body s s' r :
  upsert_cloudflare_record credentials_json body s = (s', Ok r) →
  let token := extract_credential_field credentials_json "apiToken" in
  let url := records_url (us_zone_id body) in
  ∃ n1 found existing method target answer created,
    dw_http (mkRequest GET url [("type", us_record_type body); ("name", us_name body)] [bearer token] NoBody) (dn_net s) = (n1, Ok found)
    ∧ (∃ v, rs_json found = Ok v ∧ as_array (at_key "result" v) = Some existing)
    ∧ (method, target) = match head existing ≫= (λ e, as_str_value (at_key "id" e)) with
                         | Some id => (PUT, url +:+ "/" +:+ id)
                         | None => (POST, url)
                         end
    ∧ dw_http (mkRequest method target [] [bearer token] (JsonBody (record_payload body))) n1 = (dn_net s', Ok answer)
    ∧ is_success (rs_status answer) = true ∧ (∃ v, rs_json answer = Ok v ∧ at_key "result" v = created)
    ∧ r = mkRecord (str_at "id" "" created) (us_zone_id body) (us_record_type body) (us_name body) (us_content body) (us_ttl body) (us_proxied body)
    ∧ dn_providers s' = dn_providers s ∧ us_record_type body ∈ ["A"; "CNAME"].
Proof.
  unfold upsert_cloudflare_record. rewrite bind_reads_run by apply guard_reads. unfold guard, is_supported_record.
  case_bool_decide as Ht; simpl; [|done].
  intros (s1 & found & H1 & Hk)%bind_ok. unfold cloudflare_send, net in H1.
  destruct (dw_http _ (dn_net s)) as [n1 [found'|e]] eqn:E1; [|done]. injection H1 as <- <-.
  apply bind_ok in Hk as (s2 & existing & H2 & Hk). unfold cloudflare_result, of_result in H2. injection H2 as <- H2.
  destruct (rs_json found') as [v|e] eqn:Ev; [|done]. destruct (_ || _); [done|].
  destruct (as_array (at_key "result" v)) as [existing'|] eqn:Ea; simpl in H2; [|done]. injection H2 as <-.
  destruct (write_request _ existing') as [[method target] operation] eqn:Ew.
  apply bind_ok in Hk as (s3 & answer & H3 & Hk). unfold cloudflare_send, net in H3. simpl in H3.
  destruct (dw_http _ n1) as [n2 [answer'|e]] eqn:E2; [|done]. injection H3 as <- <-.
  apply bind_ok in Hk as (s4 & created & H4 & Hk). unfold cloudflare_result, of_result in H4. injection H4 as <- H4.
  destruct (rs_json answer') as [w|e] eqn:Ew2; [|done]. destruct (negb (is_success _) || _) eqn:Eok; [done|]. injection H4 as <-.
  injection Hk as <- <-. apply orb_false_iff in Eok as [Eok _]. apply negb_false_iff in Eok.
  exists n1, found', existing', method, target, answer', (at_key "result" w). split_and!; try done; eauto.
  unfold write_request in Ew. destruct (head existing' ≫= _); by simplify_eq.
Qed.

(** ** Organizations *)

Lemma own_provider_cases id org s :
  own_provider id org s = (s, Err DnsNotFound)
  ∨ ∃ p, own_provider id org s = (s, Ok p) ∧ dns_get_by_id id (dn_providers s) = Some p ∧ dp_organization_id p = org.
Proof.
  unfold own_provider. destruct (dns_get_by_id id _) as [p|]; [|by left]. destruct (dp_organization_id p =? org)%Z eqn:E; [|by left].
  right. exists p. bsimp. done.
Qed.

(** A request in an organization that names a provider of another one is answered as if it were
    not there: nothing is sent, nothing is changed. *)
Theorem providers_are_private now fuel id org p s :
  dns_get_by_id id (dn_providers s) = Some p → dp_organization_id p ≠ org →
  get_provider id org s = (s, Err DnsNotFound)
  ∧ (∀ body, update_provider now id org body s = (s, Err DnsNotFound))
  ∧ test_connection id org s = (s, Err DnsNotFound)
  ∧ (∀ body, upsert_record id org body s = (s, Err DnsNotFound))
  ∧ list_zones fuel id org s = (s, Some (Err DnsNotFound))
  ∧ (∀ zone, list_records fuel id org zone s = (s, Some (Err DnsNotFound)))
  ∧ (∀ zone record, delete_record fuel id org zone record s = (s, Some (Err DnsNotFound))).
Proof.
  intros Hp Hne. assert (Hown : own_provider id org s = (s, Err DnsNotFound)).
  { destruct (own_provider_cases id org s) as [?|(q & _ & Hq & Ho)]; [done|]. congruence. }
  assert (Htyped : own_typed id org s = (s, Err DnsNotFound)) by (unfold own_typed, bind; by rewrite Hown).
  split_and!; intros; unfold get_provider, update_provider, test_connection, upsert_record, list_zones, list_records, delete_record, paged, bind;
    by rewrite ?Hown, ?Htyped.
Qed.
End pages.

(** ** Samples *)

(** A Cloudflare with two zones and one record, and a Route 53 with a record of two values; the
    requests and changes are kept. *)
Definition two_zones : list JValue := [VObject [("id", VString "z1"); ("name", VString "shop.test")]; VObject [("id", VString "z2")]].
Definition success (result : JValue) : JValue := VObject [("result", result); ("success", VBool true)].
Definition sample_answer (rq : Request) : JValue :=
  success match rq_method rq, rq_query rq with
          | GET, [_; (_, page)] =>
              if bool_decide (rq_url rq = cloudflare_api) then VArray (if bool_decide (page = "1") then two_zones else [])
              else VArray [VObject [("id", VString "r1")]]
          | _, _ => VObject [("id", VString "r1")]
          end.
Definition SampleNet : Type := list Request * list (ChangeAction * RecordSet).
Definition sample_net : DnsWorld := {|
  Net := SampleNet;
  dw_http := λ rq n, (n, Ok (mkResponse 200 (Ok (sample_answer rq))));
  dw_zones := λ _ _ _ n, (n, Ok ([], false, None));
  dw_records := λ _ _ _ _ n, (n, Ok ([mkRecordSet "shop.test." "A" (Some 60%Z) ["10.0.0.1"; "10.0.0.2"]], None, None));
  dw_change := λ _ _ a r n, ((n.1, n.2 ++ [(a, r)]), Ok tt);
  dw_json_error := λ _, ""; dw_decode_error := ""; dw_status_text := λ _, ""; dw_organization_exists := λ _, true |}.
Definition sample_dns_json : JsonText := {|
  json_parse := λ t, match t with
                     | "cloudflare" => Some (VObject [("account", VString "a"); ("apiToken", VString "t1")])
                     | "other" => Some (VObject [("account", VString "a"); ("apiToken", VString "t2")])
                     | "aws" => Some (VObject [("accessKeyId", VString "AKIA"); ("secretAccessKey", VString "s")])
                     | _ => None
                     end;
  json_print := λ v, match v with VObject o => join "," (map (λ kv, kv.1 +:+ ":" +:+ default "" (as_str_value kv.2)) o) | _ => "" end |}.

Section sample.
#[local] Existing Instances sample_net sample_dns_json.

Lemma masked_credentials_witness : mask_credentials "cloudflare" = mask_credentials "other" ∧ mask_credentials "other" = "account:a,apiToken:********".
Proof.
  split; [|by vm_compute].
  apply (masked_credentials_hide_secrets "cloudflare" "other" [("account", VString "a"); ("apiToken", VString "t1")]
           [("account", VString "a"); ("apiToken", VString "t2")]); [done|done| | |].
  - repeat constructor; by vm_compute.
  - repeat constructor; by vm_compute.
  - repeat constructor. simpl. intros Hnot. exfalso. apply Hnot. left.
Defined.

Lemma sample_pages token : serves_pages cloudflare_api token two_zones.
Proof.
  intros p n. exists (success (VArray (take 50 (drop (50 * p) two_zones)))). split_and!; [|done|done].
  simpl dw_http. unfold sample_answer. cbn [rq_method rq_query rq_url]. rewrite bool_decide_eq_true_2 by done.
  destruct p as [|p]; [done|]. rewrite bool_decide_eq_false_2.
  - rewrite drop_ge; [done|]. simpl length. lia.
  - intros E. apply (i64_to_string_inj (Z.of_nat (S p) + 1) 1) in E. lia.
Qed.
Definition dns_start : DnsState := mkDnsState (mkTable [mkDnsProvider 1 "cf" "CLOUDFLARE" "cloudflare" 1 0 0] 1) (([], []) : SampleNet).
Lemma all_zones_are_listed_witness :
  list_cloudflare_zones 1 "cloudflare" dns_start = (dns_start, Some (Ok [mkZone "z1" "shop.test" None; mkZone "z2" "" None])).
Proof. apply (all_zones_are_listed 1 "cloudflare" two_zones dns_start); [apply sample_pages|simpl; lia]. Defined.

Lemma upsert_is_one_write_witness :
  let body := mkUpsert "z1" "A" "shop.test" "10.0.0.1" None (Some true) in
  ∃ r, upsert_cloudflare_record "cloudflare" body dns_start = (dns_start, Ok r) ∧ us_record_type body ∈ ["A"; "CNAME"] ∧ rc_id r = "r1".
Proof.
  intros body. destruct (upsert_cloudflare_record "cloudflare" body dns_start) as [s' r] eqn:E.
  assert (Hs : s' = dns_start ∧ r = Ok (mkRecord "r1" "z1" "A" "shop.test" "10.0.0.1" None (Some true))) by (vm_compute in E; by simplify_eq).
  destruct Hs as [-> ->]. destruct (upsert_is_one_write "cloudflare" body dns_start dns_start _ E) as (? & ? & ? & ? & ? & ? & ? & Hall).
  eexists. split_and!; [done|by destruct_and! Hall|done].
Defined.

Lemma providers_are_private_witness : get_provider 1 2 dns_start = (dns_start, Err DnsNotFound).
Proof. by destruct (providers_are_private 0 1 1 2 (mkDnsProvider 1 "cf" "CLOUDFLARE" "cloudflare" 1 0 0) dns_start). Defined.

(** A new type without new credentials keeps those of the old type; a field they do not have is
    then the whole text, which goes to the other service as the key. *)
Example type_changes_alone :
  match update_provider 5 1 1 (mkUpdateDns None (Some Route53) None) dns_start with
  | (s', Ok dto) => dd_provider_type dto = Route53 ∧ map dp_credentials_json (rows (dn_providers s')) = ["cloudflare"]
                    ∧ route53_client "cloudflare" = Ok (mkRoute53 "cloudflare" "cloudflare")
  | _ => False
  end.
Proof. by vm_compute. Qed.

(** A record with two values is shown as one text, and deleting it asks for a record with that text. *)
Example two_values_become_one :
  match delete_route53_record 1 "aws" "z1" "A:shop.test" dns_start with
  | (s', Some (Ok true)) => (dn_net s').2 = [(DeleteAction, mkRecordSet "shop.test." "A" (Some 60%Z) ["10.0.0.1, 10.0.0.2"])]
  | _ => False
  end.
Proof. by vm_compute. Qed.
End sample.

(** Whether a record is proxied is not sent. *)
Lemma proxied_is_not_sent zone type name content ttl p q :
  record_payload (mkUpsert zone type name content ttl p) = record_payload (mkUpsert zone type name content ttl q).
Proof. done. Qed.
