(* ===== verification/Administration.v ===== *)
(** * Organizations, settings, SSH keys and registries

    [services/organization.rs], [services/settings.rs], [services/ssh_key.rs] and
    [services/registry.rs] with their repositories and handlers.  Organizations live in the
    database of [AuthDb]; the cascades of their deletion into the tables of other components are
    left out.  The time of a request is a parameter, as are key pairs, [docker login], HTTP and the
    texts of errors.  A trigger runs after its statement, so the row an update returns has the old
    time.  [slug_is_canonical] is the property of slugs, [settings_stay_valid] of the settings,
    [keys_in_use_are_kept] and [registries_in_use_are_kept] of deletions, [rotation_is_checked] of
    new credentials; [refused_organization_exists] and [seeded_organizations_stay] are what the
    default group does to the creation and the deletion of organizations. *)

From stdpp Require Import gmap strings list sorting.
From Stdlib Require Import ZArith Lia Ascii.
From S2P Require Import Prelude RustStr RustText ShellQuote JsonValue Notifications Rclone Sql PermissionDb PermissionLimits AuthDb.

(** ** Requests *)

(** A handler answers with a status and a body, or a status and a text. *)
Definition respond {S A B} (error : SqlError → Z * string) (status : Z) (body : A → B) (m : SE S SqlError A) : SE S (Z * string) (Z * B) :=
  λ s, match m s with (s', Ok a) => (s', Ok (status, body a)) | (s', Err e) => (s', Err (error e)) end.
(** A statement that may fail, and one that is read only *)
Definition sql_step {S A} (f : S → result (S * A) SqlError) : SE S SqlError A := λ s,
  match f s with Ok (s', a) => (s', Ok a) | Err e => (s, Err e) end.
Definition found {S A} (f : S → option A) : SE S SqlError A := λ s,
  (s, match f s with Some a => Ok a | None => Err RowNotFound end).

(** ** Organizations *)

Record CreateOrganizationDto := mkCreateOrganization { co_name : string; co_logo : option string; co_slug : option string }.
Record PatchOrganizationDto := mkPatchOrganization { po_name : option string; po_logo : option string; po_slug : option string }.

(** One step of the fold over the characters; the flag says that the last one was a separator. *)
Definition slug_step (st : list ascii * bool) (ch : ascii) : list ascii * bool :=
  let '(output, separator) := st in
  if is_ascii_alphanumeric ch then (output ++ [ch], false)
  else if bool_decide (output ≠ []) && negb separator then (output ++ ["-"%char], true)
  else (output, separator).
Definition normalize_slug (value : string) : string :=
  trim_end_char "-" (of_chars (foldl slug_step ([], false) (chars (to_ascii_lowercase (trim value)))).1).

Definition OrgM := SE AuthDb SqlError.
Definition organization_get_by_id (id : Z) (db : AuthDb) : option Organization := sql_first (λ o, or_id o =? id)%Z (organization db).
Definition newest_organization_first (a b : Organization) : bool :=
  (or_created_at b <? or_created_at a)%Z || ((or_created_at a =? or_created_at b) && (or_id b <=? or_id a))%Z.
Definition organization_list_by_owner (owner_id : Z) (db : AuthDb) : list Organization :=
  sql_order_by newest_organization_first (sql_select (λ o, or_owner_id o =? owner_id)%Z (organization db)).
Definition edit_organization (name : string) (logo : option string) (slug : string) (updated_at : Z) (o : Organization) : Organization :=
  mkOrganization (or_id o) name logo slug (or_owner_id o) (or_created_at o) updated_at.
Definition organization_update_and_return (now id : Z) (name : string) (logo : option string) (slug : string) (db : AuthDb)
    : result (AuthDb * Organization) SqlError :=
  (let? (t, _) := sql_update no_fk (λ o, or_id o =? id)%Z (edit_organization name logo slug now) (organization db) in
   match organization_get_by_id id db with
   | Some o => Ok (with_organization t db, edit_organization name logo slug (or_updated_at o) o)
   | None => Err RowNotFound
   end)%rust.

(** [ON DELETE CASCADE] of memberships, invites, overrides, grants and groups, [ON DELETE SET NULL]
    of audit entries; the policies of a group refuse its deletion. *)
Definition forget_organization (id : Z) (a : AuditLog) : AuditLog :=
  if bool_decide (al_organization_id a = Some id) then
    mkAudit (al_id a) (al_user_email a) (al_user_role a) (al_action a) (al_resource_type a) (al_resource_id a) (al_resource_name a)
      (al_metadata a) None (al_user_id a) (al_created_at a)
  else a.
Definition without_organization (id : Z) (p : PermDb) : PermDb :=
  mkPermDb (users p) (groups p) (policy p) (group_policy p) (sql_delete (λ m, om_organization_id m =? id)%Z (organization_members p)).1
    (sql_delete (λ u, up_org_id u =? id)%Z (user_policy p)).1
    (sql_delete (λ r, bool_decide (ra_org_id r = Some id)) (resource_access p)).1
    (sql_delete (λ i, oi_organization_id i =? id)%Z (organization_invites p)).1
    (mkTable (map (forget_organization id) (rows (audit_logs p))) (seq (audit_logs p)))
    (List.filter (λ o, negb (o =? id)%Z) (organizations p)).
Definition organization_repo_delete (now id : Z) (db : AuthDb) : result (AuthDb * unit) SqlError :=
  (let? (p, _) := delete_groups (λ g, bool_decide (g_organization_id g = Some id)) now (without_organization id (perm db)) in
   Ok (with_perm p (with_organization (sql_delete (λ o, or_id o =? id)%Z (organization db)).1 db), tt))%rust.

(** ** [OrganizationService] *)

Definition organization_get (id : Z) : OrgM Organization := found (organization_get_by_id id).
Definition empty_slug : SqlError := Protocol "organization slug cannot be empty".
(** The transaction: on an error nothing of it remains. *)
Definition create_with_admin (now owner_id : Z) (name : string) (logo : option string) (slug : string) (db : AuthDb)
    : result (AuthDb * Organization) SqlError :=
  (let? (db1, id) := organization_create name logo slug owner_id now db in
   let? (p, _) := add_member_in_transaction "ADMIN" owner_id id now (perm db1) in
   Ok (with_perm p db1, mkOrganization id name logo slug owner_id now now))%rust.
Definition organization_service_create (now owner_id : Z) (input : CreateOrganizationDto) : OrgM Organization :=
  (let slug := normalize_slug (default (co_name input) (co_slug input)) in
   do! _ := guard (str_is_empty slug) empty_slug in
   do! organization := sql_step (create_with_admin now owner_id (co_name input) (co_logo input) slug) in
   do! _ := sql_step (λ db, let? (p, _) := seed_organization_defaults (or_id organization) now (perm db) in Ok (with_perm p db, tt)) in
   ret organization)%rust.
Definition or_else {A} (o p : option A) : option A := match o with Some a => Some a | None => p end.
Definition organization_service_update (now id : Z) (input : PatchOrganizationDto) : OrgM Organization :=
  (do! current := organization_get id in
   let name := default (or_name current) (po_name input) in
   let logo := or_else (po_logo input) (or_logo current) in
   let slug := match po_slug input with Some value => normalize_slug value | None => or_slug current end in
   do! _ := guard (str_is_empty slug) empty_slug in
   sql_step (organization_update_and_return now id name logo slug))%rust.
Definition organization_service_delete (now id : Z) : OrgM unit :=
  (do! _ := organization_get id in sql_step (organization_repo_delete now id))%rust.

Section organization_handlers.
Context (db_message : SqlError → string).
Definition organization_error (e : SqlError) : Z * string :=
  match e with
  | RowNotFound => (404%Z, "organization not found")
  | ForeignKeyFailed => (404%Z, "owner not found")
  | UniqueFailed => (409%Z, db_message e)
  | Protocol message => (400%Z, message)
  | _ => (500%Z, "database operation failed")
  end.
(** The fields of the response are those of the row. *)
Definition organization_handler_get (id : Z) := respond organization_error 200 (λ o : Organization, o) (organization_get id).
Definition organization_handler_list (user_id : Z) :=
  respond organization_error 200 (λ l : list Organization, l) (λ db, (db, Ok (organization_list_by_owner user_id db))).
Definition organization_handler_create (now user_id : Z) (body : CreateOrganizationDto) :=
  respond organization_error 201 (λ o : Organization, o) (organization_service_create now user_id body).
Definition organization_handler_patch (now id : Z) (body : PatchOrganizationDto) :=
  respond organization_error 200 (λ o : Organization, o) (organization_service_update now id body).
Definition organization_handler_delete (now id : Z) := respond organization_error 204 (λ u : unit, u) (organization_service_delete now id).
End organization_handlers.

(** ** Settings *)

Record Setting := mkSetting {
  st_id : Z; st_server_ip : option string; st_certificate_type : string; st_custom_cert_resolver : option string; st_https : Z;
  st_host : option string; st_lets_encrypt_email : option string; st_enable_docker_cleanup : Z; st_log_cleanup_cron : option string;
  st_metrics_config : string; st_created_at : Z; st_updated_at : Z }.
#[export] Instance Setting_schema : Schema Setting := {|
  row_id := st_id;
  row_check s := bool_decide (st_certificate_type s ∈ ["NONE"; "LETSENCRYPT"; "CUSTOM"]);
  row_conflict _ _ := false |}.
#[export] Instance Setting_laws : SchemaLaws Setting.
Proof. by constructor. Qed.

Record BackgroundPolicy := mkBackgroundPolicy {
  bp_panel_backup_cron : string; bp_log_cleanup_cron : string; bp_log_retention_days : Z; bp_panel_backup_enabled : bool;
  bp_log_cleanup_enabled : bool }.
(** The table of policies has the one row that its migration inserts. *)
Record SettingsState := mkSettingsState { ss_settings : Table Setting; ss_policy : BackgroundPolicy }.

Inductive SettingsCertificateTypeDto := NoCertificate | Letsencrypt | CustomCertificate.
Definition certificate_type_str (c : SettingsCertificateTypeDto) : string :=
  match c with NoCertificate => "NONE" | Letsencrypt => "LETSENCRYPT" | CustomCertificate => "CUSTOM" end.
Record UpdateSettingsDto := mkUpdateSettings {
  us_server_ip : option string; us_certificate_type : option SettingsCertificateTypeDto; us_custom_cert_resolver : option string;
  us_https : option bool; us_host : option string; us_lets_encrypt_email : option string; us_enable_docker_cleanup : option bool;
  us_log_cleanup_cron : option string; us_metrics_config : option string; us_panel_backup_cron : option string;
  us_log_retention_days : option Z; us_panel_backup_enabled : option bool; us_log_cleanup_enabled : option bool }.
Record SettingsResponseDto := mkSettingsResponse {
  sr_id : Z; sr_server_ip : option string; sr_certificate_type : string; sr_custom_cert_resolver : option string; sr_https : bool;
  sr_host : option string; sr_lets_encrypt_email : option string; sr_enable_docker_cleanup : bool; sr_log_cleanup_cron : option string;
  sr_metrics_config : string; sr_panel_backup_cron : string; sr_log_retention_days : Z; sr_panel_backup_enabled : bool;
  sr_log_cleanup_enabled : bool; sr_updated_at : Z }.

(** [SettingRepository] and [BackgroundPolicyRepository]; the trigger sets the time of an update. *)
Definition setting_row (id updated_at : Z) (s : Setting) : Setting :=
  mkSetting id (st_server_ip s) (st_certificate_type s) (st_custom_cert_resolver s) (st_https s) (st_host s) (st_lets_encrypt_email s)
    (st_enable_docker_cleanup s) (st_log_cleanup_cron s) (st_metrics_config s) (st_created_at s) updated_at.
Definition setting_create (item : Setting) (s : SettingsState) : result (SettingsState * Z) SqlError :=
  (let? (t, id) := sql_insert no_fk (λ id, setting_row id (st_updated_at item) item) (ss_settings s) in
   Ok (mkSettingsState t (ss_policy s), id))%rust.
Definition setting_update (now id : Z) (item : Setting) (s : SettingsState) : result (SettingsState * unit) SqlError :=
  (let? (t, _) := sql_update no_fk (λ r, st_id r =? id)%Z (λ r, setting_row (st_id r) now item) (ss_settings s) in
   Ok (mkSettingsState t (ss_policy s), tt))%rust.
Definition retention_in_range (days : Z) : bool := (1 <=? days)%Z && (days <=? 3650)%Z.
Definition policy_update (policy : BackgroundPolicy) (s : SettingsState) : result (SettingsState * unit) SqlError :=
  if negb (retention_in_range (bp_log_retention_days policy)) then Err CheckFailed else Ok (mkSettingsState (ss_settings s) policy, tt).

Definition cron_fields (cron : string) : nat := length (split_whitespace cron).
Definition bool_i64 (b : bool) : Z := if b then 1 else 0.
(** [chars().any(char::is_whitespace)] *)
Definition has_whitespace (s : string) : bool := bool_decide (1 < length (split_ws (chars s) [])).

Section settings_service.
Context `{JsonText} (json_error : string → string).

Definition require (ok : bool) (msg : string) : result unit SqlError := if ok then Ok tt else Err (Protocol msg).
Definition validate (setting : Setting) : result unit SqlError :=
  (let? _ := require (match st_server_ip setting with Some ip => bool_decide (is_Some (parse_ip ip)) | None => true end)
               "server_ip must be a valid IP address" in
   let? _ := require (match st_host setting with Some host => negb (str_is_empty (trim host) || has_whitespace host) | None => true end)
               "host must not contain whitespace" in
   let? _ := require (negb (bool_decide (st_certificate_type setting = "LETSENCRYPT"))
                      || match st_lets_encrypt_email setting with Some value => contains "@" value | None => false end)
               "lets_encrypt_email is required for LETSENCRYPT" in
   let? _ := require (negb (bool_decide (st_certificate_type setting = "CUSTOM"))
                      || match st_custom_cert_resolver setting with Some value => negb (str_is_empty (trim value)) | None => false end)
               "custom_cert_resolver is required for CUSTOM" in
   let? _ := require (match st_log_cleanup_cron setting with Some cron => bool_decide (cron_fields cron = 5) | None => true end)
               "log_cleanup_cron must contain five cron fields" in
   require (str_is_empty (trim (st_metrics_config setting)) || bool_decide (is_Some (json_parse (st_metrics_config setting))))
     ("invalid metrics_config JSON: " +:+ json_error (st_metrics_config setting)))%rust.
Definition validate_policy (policy : BackgroundPolicy) : result unit SqlError :=
  (let? _ := require (bool_decide (cron_fields (bp_panel_backup_cron policy) = 5 ∧ cron_fields (bp_log_cleanup_cron policy) = 5))
               "background cron expressions must contain five fields" in
   require (retention_in_range (bp_log_retention_days policy)) "log_retention_days must be between 1 and 3650")%rust.

Definition response (s : Setting) (policy : BackgroundPolicy) : SettingsResponseDto :=
  mkSettingsResponse (st_id s) (st_server_ip s) (st_certificate_type s) (st_custom_cert_resolver s) (negb (st_https s =? 0)%Z) (st_host s)
    (st_lets_encrypt_email s) (negb (st_enable_docker_cleanup s =? 0)%Z) (Some (bp_log_cleanup_cron policy)) (st_metrics_config s)
    (bp_panel_backup_cron policy) (bp_log_retention_days policy) (bp_panel_backup_enabled policy) (bp_log_cleanup_enabled policy)
    (st_updated_at s).

Definition SettingsM := SE SettingsState SqlError.
Definition default_setting (now : Z) : Setting :=
  mkSetting 0 None "NONE" None 0 None None 1 (Some "0 0 * * *") "{}" now now.
Definition current_setting (now : Z) : SettingsM Setting := λ s,
  match rows (ss_settings s) with
  | setting :: _ => (s, Ok setting)
  | [] => (do! id := sql_step (setting_create (default_setting now)) in ret (setting_row id now (default_setting now)))%rust s
  end.
Definition read_policy : SettingsM BackgroundPolicy := λ s, (s, Ok (ss_policy s)).
Definition settings_get (now : Z) : SettingsM SettingsResponseDto :=
  (do! setting := current_setting now in do! policy := read_policy in ret (response setting policy))%rust.

Definition edited_setting (now : Z) (input : UpdateSettingsDto) (current : Setting) : Setting :=
  mkSetting (st_id current) (or_else (us_server_ip input) (st_server_ip current))
    (match us_certificate_type input with Some value => certificate_type_str value | None => st_certificate_type current end)
    (or_else (us_custom_cert_resolver input) (st_custom_cert_resolver current))
    (match us_https input with Some b => bool_i64 b | None => st_https current end) (or_else (us_host input) (st_host current))
    (or_else (us_lets_encrypt_email input) (st_lets_encrypt_email current))
    (match us_enable_docker_cleanup input with Some b => bool_i64 b | None => st_enable_docker_cleanup current end)
    (or_else (us_log_cleanup_cron input) (st_log_cleanup_cron current)) (default (st_metrics_config current) (us_metrics_config input))
    (st_created_at current) now.
(** The cron of the log cleanup is not among the assignments. *)
Definition edited_policy (input : UpdateSettingsDto) (p : BackgroundPolicy) : BackgroundPolicy :=
  mkBackgroundPolicy (default (bp_panel_backup_cron p) (us_panel_backup_cron input)) (bp_log_cleanup_cron p)
    (default (bp_log_retention_days p) (us_log_retention_days input))
    (default (bp_panel_backup_enabled p) (us_panel_backup_enabled input))
    (default (bp_log_cleanup_enabled p) (us_log_cleanup_enabled input)).
Definition settings_update (now : Z) (input : UpdateSettingsDto) : SettingsM SettingsResponseDto :=
  (do! current := current_setting now in
   let setting := edited_setting now input current in
   do! _ := of_result (validate setting) in
   do! _ := sql_step (setting_update now (st_id current) setting) in
   do! stored := read_policy in
   let policy := edited_policy input stored in
   do! _ := of_result (validate_policy policy) in
   do! _ := sql_step (policy_update policy) in
   ret (response setting policy))%rust.

Definition settings_error (e : SqlError) : Z * string :=
  match e with Protocol message => (400%Z, message) | _ => (500%Z, "settings operation failed") end.
Inductive SettingsRequest := GetSettings | PutSettings (body : UpdateSettingsDto).
Definition settings_handler (now : Z) (r : SettingsRequest) :=
  respond settings_error 200 (λ d : SettingsResponseDto, d) match r with GetSettings => settings_get now | PutSettings body => settings_update now body end.
End settings_service.

(** ** SSH keys *)

Record SshKey := mkSshKey {
  sk_id : Z; sk_name : string; sk_description : option string; sk_private_key : string; sk_public_key : string; sk_last_used_at : option Z;
  sk_created_at : Z; sk_updated_at : Z }.
#[export] Instance SshKey_schema : Schema SshKey := {| row_id := sk_id; row_check _ := true; row_conflict _ _ := false |}.
#[export] Instance SshKey_laws : SchemaLaws SshKey.
Proof. by constructor. Qed.
(** The references to keys, one entry for each server, application and compose project *)
Record KeyState := mkKeyState {
  ks_keys : Table SshKey; ks_servers : list (option Z); ks_applications : list (option Z); ks_composes : list (option Z) }.
Definition with_keys (t : Table SshKey) (s : KeyState) : KeyState := mkKeyState t (ks_servers s) (ks_applications s) (ks_composes s).
Definition KeyM := SE KeyState SqlError.

Definition key_get_by_id (id : Z) (s : KeyState) : option SshKey := sql_first (λ k, sk_id k =? id)%Z (ks_keys s).
Definition newest_key_first (a b : SshKey) : bool :=
  (sk_created_at b <? sk_created_at a)%Z || ((sk_created_at a =? sk_created_at b) && (sk_id b <=? sk_id a))%Z.
Definition list_ordered (s : KeyState) : list SshKey := sql_order_by newest_key_first (rows (ks_keys s)).
Definition key_create_and_return (now : Z) (name : string) (description : option string) (private_key public_key : string) (s : KeyState)
    : result (KeyState * SshKey) SqlError :=
  (let row id := mkSshKey id name description private_key public_key None now now in
   let? (t, id) := sql_insert no_fk row (ks_keys s) in Ok (with_keys t s, row id))%rust.
(** [UPDATE ... WHERE id = ? RETURNING ...] *)
Definition key_touched (now : Z) (k : SshKey) : SshKey :=
  mkSshKey (sk_id k) (sk_name k) (sk_description k) (sk_private_key k) (sk_public_key k) (sk_last_used_at k) (sk_created_at k) now.
Definition key_returning (now id : Z) (f : SshKey → SshKey) (s : KeyState) : result (KeyState * SshKey) SqlError :=
  (let? (t, _) := sql_update no_fk (λ k, sk_id k =? id)%Z (λ k, key_touched now (f k)) (ks_keys s) in
   match key_get_by_id id s with Some k => Ok (with_keys t s, f k) | None => Err RowNotFound end)%rust.
Definition key_update_and_return (now id : Z) (name : string) (description : option string) (private_key public_key : string) :=
  key_returning now id (λ k, mkSshKey (sk_id k) name description private_key public_key (sk_last_used_at k) (sk_created_at k) (sk_updated_at k)).
Definition touch_and_return (now id : Z) :=
  key_returning now id (λ k, mkSshKey (sk_id k) (sk_name k) (sk_description k) (sk_private_key k) (sk_public_key k) (Some now) (sk_created_at k)
                               (sk_updated_at k)).
Definition refers (id : Z) (o : option Z) : bool := bool_decide (o = Some id).
Definition count_refs (id : Z) (l : list (option Z)) : nat := length (List.filter (refers id) l).
Definition is_in_use (id : Z) (s : KeyState) : bool :=
  bool_decide (0 < count_refs id (ks_servers s) + count_refs id (ks_applications s) + count_refs id (ks_composes s)).
(** [ON DELETE SET NULL] *)
Definition clear_ref (id : Z) (o : option Z) : option Z := if refers id o then None else o.
Definition key_repo_delete (id : Z) (s : KeyState) : KeyState :=
  mkKeyState (sql_delete (λ k, sk_id k =? id)%Z (ks_keys s)).1 (map (clear_ref id) (ks_servers s)) (map (clear_ref id) (ks_applications s))
    (map (clear_ref id) (ks_composes s)).

Record PatchSshKeyDto := mkPatchKey {
  pk_name : option string; pk_description : option string; pk_public_key : option string; pk_private_key : option string }.
Definition key_get (id : Z) : KeyM SshKey := found (key_get_by_id id).
Definition key_list : KeyM (list SshKey) := λ s, (s, Ok (list_ordered s)).
Definition key_patch (now id : Z) (input : PatchSshKeyDto) : KeyM SshKey :=
  (do! current := key_get id in
   sql_step (key_update_and_return now id (default (sk_name current) (pk_name input)) (or_else (pk_description input) (sk_description current))
     (default (sk_private_key current) (pk_private_key input)) (default (sk_public_key current) (pk_public_key input))))%rust.
Definition mark_used (now id : Z) : KeyM SshKey := sql_step (touch_and_return now id).
Definition key_in_use : SqlError :=
  Protocol "Cannot delete SSH Key: It is currently in use by an active server, application, or compose stack.".
Definition key_delete (id : Z) : KeyM unit :=
  (do! _ := key_get id in
   do! used := (λ s, (s, Ok (is_in_use id s))) in
   do! _ := guard used key_in_use in
   λ s, (key_repo_delete id s, Ok tt))%rust.

Record SshKeyResponseDto := mkKeyResponse {
  kx_id : Z; kx_name : string; kx_description : option string; kx_public_key : string; kx_private_key : option string;
  kx_has_private_key : bool; kx_last_used_at : option Z; kx_created_at : Z; kx_updated_at : Z }.
Definition key_response (k : SshKey) : SshKeyResponseDto :=
  let has := negb (str_is_empty (sk_private_key k)) in
  mkKeyResponse (sk_id k) (sk_name k) (sk_description k) (sk_public_key k) (if has then Some (sk_private_key k) else None) has
    (sk_last_used_at k) (sk_created_at k) (sk_updated_at k).

Section keys.
(** [ssh_key::PrivateKey::random] and its encodings, the mapping of non-ASCII letters and [{:?}] *)
Context (unicode debug : string → string) (random_pair : string → result (string * string) string) (db_message : SqlError → string).

Inductive KeyError := KeySql (e : SqlError) | KeyConfiguration (msg : string).
Definition generate_keypair (key_type : string) : result (string * string) string :=
  let kt := to_ascii_lowercase key_type in
  if bool_decide (kt ∈ ["ed25519"; "rsa"]) then random_pair kt
  else Err ("unsupported key type " +:+ debug kt +:+ ": expected " +:+ chr dquote +:+ "ed25519" +:+ chr dquote +:+ " or "
            +:+ chr dquote +:+ "rsa" +:+ chr dquote).
Definition key_create (now : Z) (name : string) (description : option string) (private_key public_key : string) : KeyM SshKey :=
  sql_step (key_create_and_return now name description private_key public_key).
Definition key_generate (now : Z) (name : string) (description : option string) (key_type : string) : SE KeyState KeyError SshKey := λ s,
  let kt := to_lowercase unicode key_type in
  if negb (bool_decide (kt = "ed25519") || bool_decide (kt = "rsa")) then
    (s, Err (KeyConfiguration "Invalid key type. Supported types are 'ed25519' and 'rsa'"))
  else match generate_keypair kt with
       | Err e => (s, Err (KeyConfiguration e))
       | Ok (private_key, public_key) =>
           match key_create now name description private_key public_key s with
           | (s', Ok k) => (s', Ok k)
           | (s', Err e) => (s', Err (KeySql e))
           end
       end.

Definition key_error (e : SqlError) : Z * string :=
  match e with
  | RowNotFound => (404%Z, "ssh key not found")
  | Protocol msg => (400%Z, msg)
  | UniqueFailed => (409%Z, db_message e)
  | ForeignKeyFailed => (400%Z, "Cannot delete SSH Key: It is currently assigned to active servers or git repositories.")
  | _ => (500%Z, "database operation failed")
  end.
Definition key_handler_list := respond key_error 200 (map key_response) key_list.
Definition key_handler_get (id : Z) := respond key_error 200 key_response (key_get id).
Definition key_handler_create (now : Z) (name : string) (description : option string) (private_key public_key : string) :=
  respond key_error 201 key_response (key_create now name description private_key public_key).
Definition key_handler_generate (now : Z) (name : string) (description : option string) (key_type : string)
    : SE KeyState (Z * string) (Z * SshKeyResponseDto) := λ s,
  match key_generate now name description key_type s with
  | (s', Ok k) => (s', Ok (201%Z, key_response k))
  | (s', Err (KeySql e)) => (s', Err (key_error e))
  | (s', Err (KeyConfiguration _)) => (s', Err (500%Z, "database operation failed"))
  end.
Definition key_handler_generate_pair (key_type : string) : result (string * string) (Z * string) :=
  match generate_keypair key_type with Ok kp => Ok kp | Err e => Err (500%Z, e) end.
Definition key_handler_patch (now id : Z) (body : PatchSshKeyDto) := respond key_error 200 key_response (key_patch now id body).
Definition key_handler_mark_used (now id : Z) := respond key_error 200 key_response (mark_used now id).
Definition key_handler_delete (id : Z) := respond key_error 204 (λ u : unit, u) (key_delete id).
End keys.

(** ** Registries *)

Record Registry := mkRegistry {
  rg_id : Z; rg_registry_name : string; rg_image_prefix : option string; rg_username : string; rg_password : string; rg_registry_url : string;
  rg_registry_type : string; rg_created_at : Z; rg_updated_at : Z }.
#[export] Instance Registry_schema : Schema Registry := {|
  row_id := rg_id; row_check r := bool_decide (rg_registry_type r ∈ ["CLOUD"; "SELF_HOSTED"]); row_conflict _ _ := false |}.
#[export] Instance Registry_laws : SchemaLaws Registry.
Proof. by constructor. Qed.
(** The three references of an application *)
Record RegistryRefs := mkRefs {
  rf_id : Z; rf_name : string; rf_registry_id : option Z; rf_rollback_registry_id : option Z; rf_build_registry_id : option Z }.
Record RegistryState := mkRegistryState { rs_registries : Table Registry; rs_applications : list RegistryRefs }.
Definition with_registries (t : Table Registry) (s : RegistryState) : RegistryState := mkRegistryState t (rs_applications s).
Definition RegM := SE RegistryState SqlError.

Record RegistryUsage := mkUsage { ru_resource_id : string; ru_resource_name : string; ru_resource_type : string; ru_usage_kind : string }.
Definition usage_by (column : RegistryRefs → option Z) (kind : string) (id : Z) (l : list RegistryRefs) : list RegistryUsage :=
  map (λ a, mkUsage (i64_to_string (rf_id a)) (rf_name a) "APPLICATION" kind) (List.filter (λ a, refers id (column a)) l).
Definition usage_references (id : Z) (s : RegistryState) : list RegistryUsage :=
  usage_by rf_registry_id "DEPLOY" id (rs_applications s) ++ usage_by rf_rollback_registry_id "ROLLBACK" id (rs_applications s)
  ++ usage_by rf_build_registry_id "BUILD" id (rs_applications s).
Definition registry_get_by_id (id : Z) (s : RegistryState) : option Registry := sql_first (λ r, rg_id r =? id)%Z (rs_registries s).
Definition registry_row (id updated_at : Z) (r : Registry) : Registry :=
  mkRegistry id (rg_registry_name r) (rg_image_prefix r) (rg_username r) (rg_password r) (rg_registry_url r) (rg_registry_type r)
    (rg_created_at r) updated_at.
Definition registry_repo_create (item : Registry) (s : RegistryState) : result (RegistryState * Z) SqlError :=
  (let? (t, id) := sql_insert no_fk (λ id, registry_row id (rg_updated_at item) item) (rs_registries s) in Ok (with_registries t s, id))%rust.
Definition registry_repo_update (now id : Z) (item : Registry) (s : RegistryState) : result (RegistryState * unit) SqlError :=
  (let? (t, _) := sql_update no_fk (λ r, rg_id r =? id)%Z (λ r, registry_row (rg_id r) now item) (rs_registries s) in
   Ok (with_registries t s, tt))%rust.
(** [ON DELETE SET NULL] *)
Definition clear_refs (id : Z) (a : RegistryRefs) : RegistryRefs :=
  mkRefs (rf_id a) (rf_name a) (clear_ref id (rf_registry_id a)) (clear_ref id (rf_rollback_registry_id a)) (clear_ref id (rf_build_registry_id a)).
Definition registry_repo_delete (id : Z) (s : RegistryState) : RegistryState :=
  mkRegistryState (sql_delete (λ r, rg_id r =? id)%Z (rs_registries s)).1 (map (clear_refs id) (rs_applications s)).

Record CreateRegistryDto := mkCreateRegistry {
  cg_registry_name : string; cg_image_prefix : option string; cg_username : string; cg_password : string; cg_registry_url : string;
  cg_registry_type : string }.
Record PatchRegistryDto := mkPatchRegistry {
  pg_registry_name : option string; pg_image_prefix : option (option string); pg_username : option string; pg_password : option string;
  pg_registry_url : option string; pg_registry_type : option string }.

Definition registry_get (id : Z) : RegM Registry := found (registry_get_by_id id).
Definition registry_list : RegM (list Registry) := λ s, (s, Ok (rows (rs_registries s))).
Definition registry_create (now : Z) (input : CreateRegistryDto) : RegM Registry :=
  (let item := mkRegistry 0 (cg_registry_name input) (cg_image_prefix input) (cg_username input) (cg_password input) (cg_registry_url input)
     (cg_registry_type input) now now in
   do! new_id := sql_step (registry_repo_create item) in registry_get new_id)%rust.
Definition edited_registry (now : Z) (input : PatchRegistryDto) (r : Registry) : Registry :=
  mkRegistry (rg_id r) (default (rg_registry_name r) (pg_registry_name input)) (default (rg_image_prefix r) (pg_image_prefix input))
    (default (rg_username r) (pg_username input)) (default (rg_password r) (pg_password input)) (default (rg_registry_url r) (pg_registry_url input))
    (default (rg_registry_type r) (pg_registry_type input)) (rg_created_at r) now.
Definition registry_patch (now id : Z) (input : PatchRegistryDto) : RegM Registry :=
  (do! current := registry_get id in
   do! _ := sql_step (registry_repo_update now id (edited_registry now input current)) in registry_get id)%rust.
Definition used_by (n : nat) : SqlError :=
  Protocol ("registry is used by " +:+ i64_to_string (Z.of_nat n) +:+ " application configuration(s)").
Definition registry_delete (id : Z) : RegM unit :=
  (do! _ := registry_get id in
   do! usage := (λ s, (s, Ok (usage_references id s))) in
   do! _ := guard (bool_decide (usage ≠ [])) (used_by (length usage)) in
   λ s, (registry_repo_delete id s, Ok tt))%rust.
Definition registry_usage (id : Z) : RegM (list RegistryUsage) := (do! _ := registry_get id in λ s, (s, Ok (usage_references id s)))%rust.

Definition api_url (base path : string) : string :=
  let base := trim_end_char "/" (trim base) in
  (if starts_with "http://" base || starts_with "https://" base then base else "https://" +:+ base) +:+ path.

Section registries.
(** [docker login] of a registry with a name and a password, and [docker logout], whose result is
    dropped; HTTP with the header of basic authentication; the texts of errors *)
Context (docker_login : option string → string → string → result ExecOutput string)
  (http : Request → result Response string) (basic_auth : string → string → string * string) (status_error : string → Z → string)
  (decode_error : JValue → string) (error_text : SqlError → string) (db_message : SqlError → string).

Definition login_server (registry_url : string) : option string :=
  if str_is_empty (trim registry_url) || contains "docker.io" registry_url then None else Some registry_url.
Definition registry_test_raw (registry_url username password : string) : result unit string :=
  match docker_login (login_server registry_url) username password with
  | Ok output => if ex_success output then Ok tt else Err ("Login failed: " +:+ ex_stderr output)
  | Err e => Err ("Docker execution error: " +:+ e)
  end.

Definition TextM := SE RegistryState string.
Definition to_text {A} (m : RegM A) : TextM A := λ s, match m s with (s', Ok a) => (s', Ok a) | (s', Err e) => (s', Err (error_text e)) end.
Definition registry_test (id : Z) : TextM unit :=
  (do! reg := to_text (registry_get id) in of_result (registry_test_raw (rg_registry_url reg) (rg_username reg) (rg_password reg)))%rust.
Definition rotate_credentials (now id : Z) (username password : string) : TextM Registry :=
  (do! current := to_text (registry_get id) in
   do! _ := of_result (registry_test_raw (rg_registry_url current) username password) in
   to_text (registry_patch now id (mkPatchRegistry None None (Some username) (Some password) None None)))%rust.

(** [Vec<String>], and a struct with one field that has a default, from an object or an array *)
Definition string_items (v : JValue) : option (list string) :=
  match v with VArray l => mapM as_str_value l | _ => None end.
Definition decode_list (field : string) (v : JValue) : result (list string) string :=
  ok_or match v with
        | VObject o => match member field o with None => Some [] | Some items => string_items items end
        | VArray [] => Some []
        | VArray [items] => string_items items
        | _ => None
        end (decode_error v).
Definition registry_request (reg : Registry) (url field : string) : result (list string) string :=
  (let? answer := http (mkRequest GET url [] [basic_auth (rg_username reg) (rg_password reg)] NoBody) in
   if (400 <=? rs_status answer)%Z && (rs_status answer <? 600)%Z then Err (status_error url (rs_status answer))
   else let? v := rs_json answer in decode_list field v)%rust.
Definition registry_repositories (id : Z) : TextM (list string) :=
  (do! reg := to_text (registry_get id) in
   of_result (registry_request reg (api_url (rg_registry_url reg) "/v2/_catalog?n=1000") "repositories"))%rust.
Definition registry_tags (id : Z) (repository : string) : TextM (list string) :=
  (do! reg := to_text (registry_get id) in
   do! _ := guard (str_is_empty repository || contains ".." repository) "invalid repository name" in
   of_result (registry_request reg (api_url (rg_registry_url reg) ("/v2/" +:+ repository +:+ "/tags/list")) "tags"))%rust.

Definition registry_error (e : SqlError) : Z * string :=
  match e with
  | RowNotFound => (404%Z, "registry not found")
  | UniqueFailed => (409%Z, db_message e)
  | Protocol message => (409%Z, message)
  | _ => (500%Z, "database operation failed")
  end.
Record RegistryResponseDto := mkRegistryResponse {
  gx_id : string; gx_registry_name : string; gx_image_prefix : option string; gx_username : string; gx_password : string;
  gx_registry_url : string; gx_registry_type : string; gx_created_at : Z; gx_updated_at : Z }.
Definition registry_response (r : Registry) : RegistryResponseDto :=
  mkRegistryResponse (i64_to_string (rg_id r)) (rg_registry_name r) (rg_image_prefix r) (rg_username r) (rg_password r) (rg_registry_url r)
    (rg_registry_type r) (rg_created_at r) (rg_updated_at r).
Definition respond_text {A B} (error status : Z) (body : A → B) (m : TextM A) : SE RegistryState (Z * string) (Z * B) := λ s,
  match m s with (s', Ok a) => (s', Ok (status, body a)) | (s', Err e) => (s', Err (error, e)) end.
(** [AppStateCache] keeps nothing, so the list is read every time. *)
Definition registry_handler_list := respond registry_error 200 (map registry_response) registry_list.
Definition registry_handler_get (id : Z) := respond registry_error 200 registry_response (registry_get id).
Definition registry_handler_create (now : Z) (body : CreateRegistryDto) := respond registry_error 201 registry_response (registry_create now body).
Definition registry_handler_patch (now id : Z) (body : PatchRegistryDto) := respond registry_error 200 registry_response (registry_patch now id body).
Definition registry_handler_delete (id : Z) := respond registry_error 204 (λ u : unit, u) (registry_delete id).
Definition registry_handler_test (registry_url username password : string) : result Z (Z * string) :=
  match registry_test_raw registry_url username password with Ok _ => Ok 200%Z | Err e => Err (400%Z, e) end.
Definition registry_handler_test_saved (id : Z) := respond_text 400 200 (λ u : unit, u) (registry_test id).
Definition registry_handler_repositories (id : Z) := respond_text 502 200 (λ l : list string, l) (registry_repositories id).
Definition registry_handler_tags (id : Z) (repository : string) := respond_text 502 200 (λ tags : list string, (repository, tags)) (registry_tags id repository).
Definition registry_handler_rotate (now id : Z) (username password : string) :=
  respond_text 400 200 registry_response (rotate_credentials now id username password).
Definition registry_handler_usage (id : Z) := respond registry_error 200 (λ l : list RegistryUsage, l) (registry_usage id).
End registries.

(** ** Slugs *)

Definition hyphen : ascii := "-".
(** A letter or digit that [to_ascii_lowercase] leaves as it is *)
Definition slug_char (c : ascii) : bool := is_ascii_alphanumeric c && negb (is_ascii_upper c).
(** Groups of such characters with one hyphen between them; [sep] says that a hyphen may not be next. *)
Fixpoint slug_ok (sep : bool) (l : list ascii) : bool :=
  match l with
  | [] => true
  | c :: l' => if is_char hyphen c then negb sep && slug_ok true l' else slug_char c && slug_ok false l'
  end.
Definition is_slug (s : string) : bool := slug_ok true (chars s) && negb (bool_decide (last (chars s) = Some hyphen)).

Lemma slug_char_hyphen c : slug_char c = true → is_char hyphen c = false.
Proof. unfold is_char. case_bool_decide as E; [by subst c|done]. Qed.
Lemma slug_char_edge c : slug_char c = true → edge c = true ∧ ascii_lower c = c.
Proof.
  unfold slug_char, edge, ascii_lower, is_ascii_alphanumeric, ws1. intros [H1 H2]%andb_true_iff. apply negb_true_iff in H2. rewrite H2.
  split; [|done]. rewrite !orb_true_iff, !andb_true_iff, !N.leb_le in H1. apply andb_true_iff. split; [|apply N.ltb_lt; lia].
  apply negb_true_iff, orb_false_iff. split; [apply andb_false_iff; right; apply N.leb_gt; lia|apply N.eqb_neq; lia].
Qed.
Lemma slug_ok_chars l : ∀ sep, slug_ok sep l = true → Forall (λ c, c = hyphen ∨ slug_char c = true) l.
Proof.
  induction l as [|c l IH]; intros sep; simpl; [constructor|]. unfold is_char. case_bool_decide as E;
    intros [H1 H2]%andb_true_iff; constructor; eauto.
Qed.
Lemma slug_ok_snoc l c : ∀ sep,
  slug_ok sep (l ++ [c]) = slug_ok sep l &&
    (if is_char hyphen c then negb match last l with Some d => is_char hyphen d | None => sep end else slug_char c).
Proof.
  induction l as [|d l IH]; intros sep; simpl; [by destruct (is_char hyphen c); rewrite andb_true_r|]. rewrite !IH.
  assert (Hl : match last (d :: l) with Some e => is_char hyphen e | None => sep end
               = match last l with Some e => is_char hyphen e | None => is_char hyphen d end).
  { destruct l as [|e l]; [done|]. rewrite last_cons_cons. destruct (last (e :: l)) eqn:E; [done|by apply last_None in E]. }
  rewrite Hl. destruct (is_char hyphen d) eqn:Ed; by rewrite andb_assoc.
Qed.

(** The fold keeps what it has written a slug but for a last hyphen, which the flag shows. *)
Definition slug_state (st : list ascii * bool) : Prop :=
  slug_ok true st.1 = true ∧ st.2 = bool_decide (last st.1 = Some hyphen).
Lemma slug_step_ok st ch : is_ascii_upper ch = false → slug_state st → slug_state (slug_step st ch).
Proof.
  destruct st as [out sep]. intros Hu [Hok Hsep]. simpl in *. unfold slug_state, slug_step.
  destruct (is_ascii_alphanumeric ch) eqn:Ha.
  - assert (Hs : slug_char ch = true) by (unfold slug_char; by rewrite Ha, Hu). simpl.
    rewrite slug_ok_snoc, slug_char_hyphen, Hok, Hs by done. rewrite last_snoc. split; [done|].
    rewrite bool_decide_eq_false_2; [done|]. intros [= ->]. by vm_compute in Hs.
  - destruct (bool_decide (out ≠ []) && negb sep) eqn:Ec; simpl; [|by split]. apply andb_true_iff in Ec as [Hne%bool_decide_eq_true Hs].
    destruct sep; [done|]. rewrite slug_ok_snoc, Hok, last_snoc. split; [|done].
    simpl. destruct (last out) as [d|] eqn:El; [|by apply last_None in El].
    unfold is_char. symmetry in Hsep. apply bool_decide_eq_false in Hsep. rewrite bool_decide_eq_false_2 by congruence. done.
Qed.
Lemma lower_not_upper c : is_ascii_upper (ascii_lower c) = false.
Proof. destruct c as [[] [] [] [] [] [] [] []]; reflexivity. Qed.
Lemma chars_lower s : chars (to_ascii_lowercase s) = map ascii_lower (chars s).
Proof. unfold to_ascii_lowercase. induction s as [|c s IH]; [done|]. simpl. by rewrite IH. Qed.
Lemma slug_fold_ok l st : slug_state st → slug_state (foldl slug_step st (map ascii_lower l)).
Proof. revert st. induction l as [|c l IH]; intros st H; simpl; [done|]. apply IH, slug_step_ok; [apply lower_not_upper|done]. Qed.

Lemma slug_ok_prefix l k : ∀ sep, slug_ok sep (l ++ k) = true → slug_ok sep l = true.
Proof.
  induction l as [|c l IH]; intros sep; simpl; [done|]. destruct (is_char hyphen c); rewrite !andb_true_iff; naive_solver.
Qed.
Lemma trimmed_slug l : slug_ok true l = true → is_slug (trim_end_char hyphen (of_chars l)) = true.
Proof.
  intros Hok. unfold is_slug, trim_end_char. rewrite !chars_of_chars. destruct (drop_char_suffix hyphen (rev l)) as (k & Hk & Hh).
  apply (f_equal (@rev ascii)) in Hk. rewrite rev_involutive, rev_app_distr in Hk. apply andb_true_iff. split.
  - rewrite Hk in Hok. by eapply slug_ok_prefix.
  - apply negb_true_iff, bool_decide_eq_false. intros Hl. apply Hh.
    rewrite <- (rev_involutive (drop_char hyphen (rev l))). destruct (rev (drop_char hyphen (rev l))) as [|a m] eqn:E; [done|].
    apply last_Some in Hl as [m' ->]. by rewrite rev_unit.
Qed.

(** A slug is read as it is. *)
Lemma slug_fold_id l : ∀ out, slug_ok true (out ++ l) = true →
  (foldl slug_step (out, bool_decide (last out = Some hyphen)) l).1 = out ++ l.
Proof.
  induction l as [|c l IH]; intros out Hok; cbn [foldl]; [by rewrite app_nil_r|].
  assert (Hpre : slug_ok true (out ++ [c]) = true) by (apply (slug_ok_prefix _ l); by rewrite <- app_assoc).
  pose proof Hpre as Hc. rewrite slug_ok_snoc in Hc. apply andb_true_iff in Hc as [Ho Hc].
  assert (Hstep : slug_step (out, bool_decide (last out = Some hyphen)) c = (out ++ [c], bool_decide (last (out ++ [c]) = Some hyphen))).
  { unfold slug_step. rewrite last_snoc. destruct (is_char hyphen c) eqn:Ec.
    - unfold is_char in Ec. apply bool_decide_eq_true in Ec as <-. simpl. destruct (last out) as [d|] eqn:El; [|done].
      rewrite bool_decide_eq_true_2 by (intros ->; done). simpl. unfold is_char in Hc. case_bool_decide as Ed; [done|].
      rewrite bool_decide_eq_false_2 by congruence. done.
    - apply andb_true_iff in Hc as [-> _]. f_equal. symmetry. apply bool_decide_eq_false. intros [= ->]. by vm_compute in Ec. }
  by rewrite Hstep, IH; rewrite <- app_assoc.
Qed.
Lemma normalize_slug_id s : is_slug s = true → normalize_slug s = s.
Proof.
  unfold is_slug. intros [Hok Hlast]%andb_true_iff. apply negb_true_iff, bool_decide_eq_false in Hlast.
  pose proof (slug_ok_chars _ _ Hok) as Hall. unfold normalize_slug.
  assert (Hall2 : Forall (λ c, edge c = true ∧ ascii_lower c = c) (chars s)).
  { eapply Forall_impl; [exact Hall|]. intros c [->|H]; [done|by apply slug_char_edge]. }
  assert (Ht : trim s = s).
  { destruct (chars s) as [|a l] eqn:E; [by destruct s|]. destruct (exists_last (l := a :: l)) as (m & b & Hm); [done|].
    rewrite Forall_forall in Hall2. apply (trim_edges s a l b m); [done|by rewrite E| |]; apply Hall2; [apply list_elem_of_here|].
    rewrite Hm. apply elem_of_app. right. by apply list_elem_of_singleton. }
  rewrite Ht, chars_lower. assert (Hm : map ascii_lower (chars s) = chars s).
  { clear -Hall2. induction Hall2 as [|c l [_ Hc] _ IH]; simpl; [done|]. by rewrite Hc, IH. }
  rewrite Hm. pose proof (slug_fold_id (chars s) []) as Hf. simpl in Hf. rewrite Hf by done.
  unfold trim_end_char. rewrite chars_of_chars. destruct (drop_char_suffix hyphen (rev (chars s))) as ([|k] & Hk & _).
  - simpl in Hk. change "-"%char with hyphen. rewrite <- Hk, rev_involutive. apply of_chars_chars.
  - exfalso. apply Hlast. apply (f_equal (@rev ascii)) in Hk. rewrite rev_involutive in Hk. rewrite Hk. simpl. by rewrite last_snoc.
Qed.

(** The slug of an organization consists of lower-case letters and digits in groups with single
    hyphens between them, and is read as itself when it is given again. *)
Theorem slug_is_canonical value : is_slug (normalize_slug value) = true ∧ normalize_slug (normalize_slug value) = normalize_slug value.
Proof.
  assert (Hs : is_slug (normalize_slug value) = true).
  { unfold normalize_slug. rewrite chars_lower. apply trimmed_slug, slug_fold_ok. done. }
  split; [done|]. by apply normalize_slug_id.
Qed.

(** ** The settings stay valid *)

Section settings_facts.
Context `{JsonText} (json_error : string → string).

Definition setting_valid (s : Setting) : Prop := validate json_error s = Ok tt ∧ row_check s = true.
Record settings_ok (s : SettingsState) : Prop := {
  so_one : length (rows (ss_settings s)) ≤ 1;
  so_valid : Forall setting_valid (rows (ss_settings s));
  so_policy : validate_policy (ss_policy s) = Ok tt }.

Lemma validate_row id t s : validate json_error (setting_row id t s) = validate json_error s.
Proof. done. Qed.
Lemma valid_row id t s : setting_valid s → setting_valid (setting_row id t s).
Proof. done. Qed.
Lemma default_valid now : json_parse "{}" ≠ None → setting_valid (default_setting now).
Proof.
  intros Hj. split; [|done]. assert (Hc : cron_fields "0 0 * * *" = 5) by reflexivity. unfold validate, default_setting.
  cbn -[cron_fields trim str_is_empty]. rewrite Hc. cbn -[trim str_is_empty].
  rewrite (bool_decide_eq_true_2 (is_Some (json_parse "{}"))) by (by apply not_eq_None_Some). by rewrite orb_true_r.
Qed.

(** What a request finds: the one row, or the row that it stores. *)
Lemma current_setting_ok now s s' r :
  json_parse "{}" ≠ None → settings_ok s → current_setting now s = (s', r) →
  settings_ok s' ∧ ss_policy s' = ss_policy s ∧ ∃ c, r = Ok c ∧ rows (ss_settings s') = [c].
Proof.
  intros Hj [Hone Hv Hp]. unfold current_setting. destruct (rows (ss_settings s)) as [|c [|c' l]] eqn:E; [| |simpl in Hone; lia].
  - unfold bind, sql_step, setting_create, sql_insert. rewrite E. simpl. intros [= <- <-]. split_and!; [|done|eauto].
    split; simpl; [lia| |done]. constructor; [|constructor]. apply valid_row, default_valid. done.
  - intros [= <- <-]. split_and!; [split; by rewrite ?E|done|eauto].
Qed.

Lemma certificate_type_checked c : bool_decide (certificate_type_str c ∈ ["NONE"; "LETSENCRYPT"; "CUSTOM"]) = true.
Proof. by destruct c. Qed.
Lemma edited_check now input c : row_check c = true → row_check (edited_setting now input c) = true.
Proof. simpl. intros Hc. destruct (us_certificate_type input); [apply certificate_type_checked|done]. Qed.

(** The whole of an update, when the settings are as they should be *)
Lemma settings_update_run now input s s1 c :
  current_setting now s = (s1, Ok c) → rows (ss_settings s1) = [c] → row_check c = true →
  settings_update json_error now input s =
    match validate json_error (edited_setting now input c) with
    | Err e => (s1, Err e)
    | Ok _ =>
        let s2 := mkSettingsState (mkTable [setting_row (st_id c) now (edited_setting now input c)] (seq (ss_settings s1))) (ss_policy s1) in
        let policy := edited_policy input (ss_policy s1) in
        match validate_policy policy with
        | Err e => (s2, Err e)
        | Ok _ => (mkSettingsState (ss_settings s2) policy, Ok (response (edited_setting now input c) policy))
        end
    end.
Proof.
  intros Hc Hrows Hcheck. unfold settings_update, bind at 1. rewrite Hc. unfold bind at 1, of_result at 1.
  destruct (validate json_error _) as [[]|e]; [|done]. unfold bind at 1, sql_step at 1, setting_update, sql_update. rewrite Hrows.
  cbn [update_rows]. rewrite Z.eqb_refl. pose proof (edited_check now input c Hcheck) as Hec.
  change (row_check (setting_row (st_id c) now (edited_setting now input c))) with (row_check (edited_setting now input c)).
  rewrite Hec. cbn -[validate_policy edited_policy]. unfold bind, read_policy, of_result. cbn -[validate_policy edited_policy].
  destruct (validate_policy _) as [[]|e] eqn:Ep; [|done]. unfold sql_step, policy_update. cbn -[edited_policy].
  unfold validate_policy, require in Ep. destruct (bool_decide _); [|done]. cbn -[edited_policy] in Ep.
  by destruct (retention_in_range _).
Qed.

Definition settings_run (rs : list (Z * SettingsRequest)) (s : SettingsState) : SettingsState :=
  foldl (λ s '(now, r), (settings_handler json_error now r s).1) s rs.

Lemma settings_request_ok now r s :
  json_parse "{}" ≠ None → settings_ok s →
  let '(s', a) := settings_handler json_error now r s in
  settings_ok s' ∧ length (rows (ss_settings s')) = 1 ∧ bp_log_cleanup_cron (ss_policy s') = bp_log_cleanup_cron (ss_policy s)
  ∧ ∀ d, a = Ok (200%Z, d) → sr_log_cleanup_cron d = Some (bp_log_cleanup_cron (ss_policy s)).
Proof.
  intros Hj Hok. destruct (current_setting now s) as [s1 r1] eqn:Ec.
  destruct (current_setting_ok _ _ _ _ Hj Hok Ec) as (Hok1 & Hpol & c & -> & Hrows). unfold settings_handler, respond.
  destruct r as [|body].
  - unfold settings_get, bind, read_policy. rewrite Ec. simpl. split_and!; [done|by rewrite Hrows|by rewrite Hpol|].
    intros d [= <-]. simpl. by rewrite Hpol.
  - pose proof Hok1 as [_ Hv Hp]. rewrite Hrows in Hv. apply Forall_singleton in Hv as [Hval Hcheck].
    rewrite (settings_update_run now body s s1 c Ec Hrows Hcheck). destruct (validate json_error (edited_setting now body c)) as [[]|e] eqn:Ev;
      [|split_and!; [done|by rewrite Hrows|by rewrite Hpol|done]].
    assert (Hnew : setting_valid (setting_row (st_id c) now (edited_setting now body c)))
      by (apply valid_row; split; [done|by apply edited_check]).
    cbn -[validate_policy edited_policy validate]. destruct (validate_policy (edited_policy body (ss_policy s1))) as [[]|e] eqn:Ep;
      cbn -[validate_policy edited_policy validate]; split_and!; try done; try (by rewrite Hpol).
    + split; simpl; [lia|by constructor|done].
    + intros d [= <-]. simpl. by rewrite Hpol.
    + split; simpl; [lia|by constructor|done].
Qed.

(** Whatever is requested, failing updates included, there is at most one row of settings, one
    once anything was asked, and what is stored passes the checks of an update. *)
Theorem settings_stay_valid rs s :
  json_parse "{}" ≠ None → settings_ok s → settings_ok (settings_run rs s) ∧ (rs ≠ [] → length (rows (ss_settings (settings_run rs s))) = 1).
Proof.
  intros Hj. revert s. induction rs as [|[now r] rs IH]; intros s Hok; [done|]. cbn [settings_run foldl].
  pose proof (settings_request_ok now r s Hj Hok) as Hr. change (foldl _ ?t rs) with (settings_run rs t).
  destruct (settings_handler json_error now r s) as [s' a]. destruct Hr as (Hok' & Hlen & _). cbn [fst].
  destruct (IH s' Hok') as [H1 H2]. split; [done|]. intros _. destruct rs; [done|by apply H2].
Qed.

(** No request changes the cron of the log cleanup that the settings show: the field of an update
    is stored with the settings, and the answer takes it from the policy, which keeps its own. *)
Theorem shown_cron_never_changes rs now r s a :
  json_parse "{}" ≠ None → settings_ok s →
  (settings_handler json_error now r (settings_run rs s)).2 = Ok (200%Z, a) → sr_log_cleanup_cron a = Some (bp_log_cleanup_cron (ss_policy s)).
Proof.
  intros Hj. revert s. induction rs as [|[now' r'] rs IH]; intros s Hok.
  - intros Ha. pose proof (settings_request_ok now r s Hj Hok) as Hr. cbn [settings_run foldl] in Ha.
    destruct (settings_handler json_error now r s) as [s' a']. destruct Hr as (_ & _ & _ & Hr). by apply Hr.
  - cbn [settings_run foldl]. pose proof (settings_request_ok now' r' s Hj Hok) as Hr. change (foldl _ ?t rs) with (settings_run rs t).
    destruct (settings_handler json_error now' r' s) as [s' a']. destruct Hr as (Hok' & _ & Hcron & _). cbn [fst].
    intros Ha. rewrite <- Hcron. by apply IH.
Qed.
End settings_facts.

(** ** Deletions *)

Lemma count_refs_zero id l : count_refs id l = 0 ↔ Some id ∉ l.
Proof.
  unfold count_refs, refers. induction l as [|o l IH]; simpl; [split; [intros _; apply not_elem_of_nil|done]|].
  rewrite not_elem_of_cons, <- IH. case_bool_decide; simpl; split; [done|intros [? _]; congruence|split; congruence|by intros [_ ?]].
Qed.
Lemma clear_refs_unused id l : Some id ∉ l → map (clear_ref id) l = l.
Proof.
  unfold clear_ref, refers. induction l as [|o l IH]; intros Hn; simpl; [done|]. apply not_elem_of_cons in Hn as [Ho Hn].
  rewrite bool_decide_eq_false_2 by congruence. by rewrite IH.
Qed.

(** Deleting a key removes its row only when no server, application or compose project refers to
    it, so that no reference is ever cleared; in every other case nothing changes. *)
Theorem keys_in_use_are_kept id s :
  key_delete id s =
    match key_get_by_id id s with
    | None => (s, Err RowNotFound)
    | Some _ => if is_in_use id s then (s, Err key_in_use) else (with_keys (sql_delete (λ k, sk_id k =? id)%Z (ks_keys s)).1 s, Ok tt)
    end
  ∧ (is_in_use id s = false ↔ Some id ∉ ks_servers s ++ ks_applications s ++ ks_composes s).
Proof.
  assert (Huse : is_in_use id s = false ↔ Some id ∉ ks_servers s ++ ks_applications s ++ ks_composes s).
  { unfold is_in_use. rewrite bool_decide_eq_false, !not_elem_of_app, <- !count_refs_zero. lia. }
  split; [|done]. unfold key_delete, bind at 1, key_get, found. destruct (key_get_by_id id s) as [k|]; [|done].
  unfold bind, guard. destruct (is_in_use id s); [done|]. pose proof (proj1 Huse eq_refl) as E. rewrite !not_elem_of_app in E. destruct E as (H1 & H2 & H3).
  simpl. unfold key_repo_delete, with_keys. by rewrite !clear_refs_unused.
Qed.

(** The same for a registry and the three references of every application. *)
Theorem registries_in_use_are_kept id s :
  let used := Exists (λ a, Some id ∈ [rf_registry_id a; rf_rollback_registry_id a; rf_build_registry_id a]) (rs_applications s) in
  registry_delete id s =
    match registry_get_by_id id s with
    | None => (s, Err RowNotFound)
    | Some _ => match usage_references id s with
                | [] => (with_registries (sql_delete (λ r, rg_id r =? id)%Z (rs_registries s)).1 s, Ok tt)
                | usage => (s, Err (used_by (length usage)))
                end
    end
  ∧ (usage_references id s = [] ↔ ¬ used).
Proof.
  intros used. assert (Hby : ∀ column kind, usage_by column kind id (rs_applications s) = [] ↔ Forall (λ a, Some id ≠ column a) (rs_applications s)).
  { intros column kind. unfold usage_by, refers. induction (rs_applications s) as [|a l IH]; simpl; [by split|].
    rewrite Forall_cons, <- IH. case_bool_decide; simpl; split; naive_solver. }
  assert (Huse : usage_references id s = [] ↔ ¬ used).
  { unfold usage_references, used. rewrite !app_nil, !Hby, <- !Forall_and, <- Forall_Exists_neg.
    apply Forall_proper; [|done]. intros a. rewrite !not_elem_of_cons. pose proof (not_elem_of_nil (Some id)). tauto. }
  split; [|done]. unfold registry_delete, bind at 1, registry_get, found. destruct (registry_get_by_id id s) as [r|]; [|done].
  unfold bind, guard. destruct (usage_references id s) as [|u l]; [|done]. simpl. unfold registry_repo_delete, with_registries.
  do 2 f_equal. pose proof (proj1 Huse eq_refl) as E. unfold used in E. rewrite <- Forall_Exists_neg in E. clear -E.
  induction E as [|a l Ha _ IH]; simpl; [done|]. rewrite IH. f_equal. rewrite !not_elem_of_cons in Ha. destruct a. unfold clear_refs. simpl in *.
  destruct Ha as (H1 & H2 & H3 & _). unfold clear_ref, refers. rewrite !bool_decide_eq_false_2 by congruence. done.
Qed.

(** ** New credentials *)

(** Rotating the credentials of a registry stores the new ones exactly when [docker login] to its
    address accepts them, and stores nothing else; otherwise the registries are as before. *)
Theorem rotation_is_checked docker_login error_text now id username password s :
  table_wf (rs_registries s) →
  rotate_credentials docker_login error_text now id username password s =
    match registry_get_by_id id s with
    | None => (s, Err (error_text RowNotFound))
    | Some cur =>
        match registry_test_raw docker_login (rg_registry_url cur) username password with
        | Err e => (s, Err e)
        | Ok _ =>
            let next := mkRegistry (rg_id cur) (rg_registry_name cur) (rg_image_prefix cur) username password (rg_registry_url cur)
                          (rg_registry_type cur) (rg_created_at cur) now in
            (with_registries (mkTable (map (λ r, if (rg_id r =? id)%Z then next else r) (rows (rs_registries s))) (seq (rs_registries s))) s, Ok next)
        end
    end.
Proof.
  intros Hwf. unfold rotate_credentials, bind at 1, to_text at 1, registry_get at 1, found.
  destruct (registry_get_by_id id s) as [cur|] eqn:Ec; [|done]. unfold bind at 1, of_result.
  destruct (registry_test_raw _ _ _ _) as [[]|e]; [|done]. pose proof Ec as Hc. unfold registry_get_by_id in Hc.
  apply sql_first_Some in Hc as [Hin Hid]. apply Z.eqb_eq in Hid. subst id.
  unfold to_text, registry_patch, bind at 1, registry_get at 1, found. rewrite Ec. unfold bind, sql_step, registry_repo_update.
  rewrite sql_update_success; [| done | done | |done].
  2:{ intros r _ _. split; [|done]. exact (wf_check _ Hwf cur Hin). }
  cbn [result_bind]. set (t := with_registries _ s). assert (Hget : registry_get_by_id (rg_id cur) t = Some
    (registry_row (rg_id cur) now (edited_registry now (mkPatchRegistry None None (Some username) (Some password) None None) cur))).
  { unfold registry_get_by_id. erewrite sql_first_map; [|..|reflexivity].
    - unfold registry_get_by_id in Ec. rewrite Ec. simpl. unfold updated. by rewrite Z.eqb_refl.
    - intros r. unfold updated. by destruct (rg_id r =? rg_id cur)%Z eqn:E. }
  unfold registry_get, found. rewrite Hget. f_equal. unfold t. f_equal. f_equal. apply map_ext_in. intros r _. unfold updated.
  destruct (rg_id r =? rg_id cur)%Z eqn:E; [|done]. apply Z.eqb_eq in E. by rewrite E.
Qed.

(** ** Organizations *)

Lemma create_with_admin_inv now owner name logo slug db db1 o :
  create_with_admin now owner name logo slug db = Ok (db1, o) →
  o = mkOrganization (seq (organization db) + 1) name logo slug owner now now
  ∧ rows (organization db1) = rows (organization db) ++ [o] ∧ groups (perm db1) = groups (perm db)
  ∧ policy (perm db1) = policy (perm db) ∧ group_policy (perm db1) = group_policy (perm db)
  ∧ member_role owner (or_id o) (perm db1) = Ok (Some "ADMIN").
Proof.
  unfold create_with_admin, organization_create, add_member_in_transaction, insert_member.
  destruct (sql_insert _ _ (organization db)) as [[t id]|] eqn:Eo; simpl; [|done].
  destruct (sql_insert _ _ (organization_members (perm db))) as [[m mid]|] eqn:Em; simpl; [|done]. intros [= <- <-].
  apply sql_insert_inv in Eo as (-> & _ & Hr & _). apply sql_insert_inv in Em as (_ & _ & Hm & _ & Hu & _).
  split_and!; try done. unfold member_role, sql_first, sql_select. simpl. rewrite Hm, List.filter_app, filterb_all_false.
  - simpl. unfold is_member. simpl. by rewrite !Z.eqb_refl.
  - rewrite existsb_false in Hu. intros x Hx. specialize (Hu x Hx). simpl in Hu. unfold is_member.
    by rewrite (Z.eqb_sym (om_user_id x)), (Z.eqb_sym (om_organization_id x)).
Qed.

(** Once some organization has its default group, a request for another one is answered with an
    error, but the organization exists and its owner administers it. *)
Theorem refused_organization_exists now owner input db db1 o grp :
  create_with_admin now owner (co_name input) (co_logo input) (normalize_slug (default (co_name input) (co_slug input))) db = Ok (db1, o) →
  normalize_slug (default (co_name input) (co_slug input)) ≠ "" → table_wf (organization db) → table_wf (groups (perm db)) →
  grp ∈ rows (groups (perm db)) → g_name grp = "Organization Admin" → g_organization_id grp ≠ Some (or_id o) →
  organization_service_create now owner input db = (db1, Err UniqueFailed)
  ∧ organization_get_by_id (or_id o) db1 = Some o ∧ member_role owner (or_id o) (perm db1) = Ok (Some "ADMIN").
Proof.
  intros Hc Hslug Hwf Hgwf Hg Hname Horg. pose proof (create_with_admin_inv _ _ _ _ _ _ _ _ Hc) as (Ho & Hr & Hgs & _ & _ & Hrole).
  split_and!; [| |done].
  - unfold organization_service_create, bind at 1, guard. unfold str_is_empty. rewrite bool_decide_eq_false_2 by done. simpl.
    unfold bind, sql_step. rewrite Hc, (seeding_conflicts (or_id o) now (perm db1) grp); by rewrite ?Hgs.
  - unfold organization_get_by_id, sql_first, sql_select. rewrite Hr, List.filter_app, filterb_all_false; simpl; [by rewrite Z.eqb_refl|].
    intros x Hx. apply Z.eqb_neq. pose proof (wf_seq _ Hwf x Hx) as Hle. rewrite Ho. simpl in *. lia.
Qed.

(** An organization with a group that holds a policy is never deleted: the request is answered as
    if its owner were not there, and nothing changes. *)
Lemma seeded_delete now id db o grp gp :
  organization_get_by_id id db = Some o → grp ∈ rows (groups (perm db)) → g_organization_id grp = Some id →
  gp ∈ rows (group_policy (perm db)) → gp_group_id gp = g_id grp → organization_service_delete now id db = (db, Err ForeignKeyFailed).
Proof.
  intros Ho Hg Horg Hgp Hid. unfold organization_service_delete, bind at 1, organization_get, found. rewrite Ho.
  unfold sql_step, organization_repo_delete, delete_groups. simpl.
  assert (sql_exists (λ gp, sql_exists (λ g, bool_decide (g_organization_id g = Some id) && (g_id g =? gp_group_id gp)%Z) (groups (perm db)))
            (group_policy (perm db)) = true) as ->; [|done].
  apply existsb_elem. exists gp. split; [done|]. apply existsb_elem. exists grp. split; [done|].
  rewrite bool_decide_eq_true_2 by done. simpl. by apply Z.eqb_eq.
Qed.

Definition in_group (g : Z) (db : PermDb) : Prop := ∃ gp, gp ∈ rows (group_policy db) ∧ gp_group_id gp = g.
Lemma insert_group_policy_inv g p now db r :
  insert_group_policy g p now db = r → match r with Ok db' => in_group g db' ∧ groups db' = groups db | Err UniqueFailed => in_group g db | _ => True end.
Proof.
  unfold insert_group_policy. destruct (sql_insert _ _ (group_policy db)) as [[t id]|e] eqn:E; simpl; intros <-.
  - apply sql_insert_inv in E as (_ & _ & Hr & _). split; [|done]. eexists. split; [simpl; rewrite Hr; apply elem_of_app; right; by apply list_elem_of_singleton|done].
  - unfold sql_insert in E. simpl in E. destruct (existsb _ _) eqn:Hc; [|destruct (negb _); [by injection E as <-|done]]. injection E as <-.
    apply existsb_elem in Hc as (gp & Hgp & Hc). bsimp. by exists gp.
Qed.
Lemma insert_or_ignore_in_group g ids now : ∀ db db',
  insert_or_ignore_group_policies g ids now db = Ok db' → groups db' = groups db ∧ (in_group g db ∨ ids ≠ [] → in_group g db').
Proof.
  induction ids as [|p ids IH]; intros db db'; simpl; [intros [= <-]; naive_solver|].
  destruct (insert_group_policy g p now db) as [db1|e] eqn:E; apply insert_group_policy_inv in E.
  - destruct E as [Hin Hg]. intros (Hgs & Himp)%IH. split; [congruence|]. intros _. apply Himp. by left.
  - destruct e; try done. intros (Hgs & Himp)%IH. split; [done|]. intros _. apply Himp. by left.
Qed.

(** Seeding an organization that has no group yet gives its default group the policies. *)
Lemma seeded_group org now db db' g p :
  seed_organization_defaults org now db = Ok (db', g) → (∀ x, x ∈ rows (groups db) → g_organization_id x ≠ Some org) →
  p ∈ rows (policy db) → seeded_action (p_action p) = true →
  in_group g db' ∧ ∃ grp, grp ∈ rows (groups db') ∧ g_id grp = g ∧ g_organization_id grp = Some org.
Proof.
  intros Hseed Hno Hp Hact. unfold seed_organization_defaults in Hseed. destruct (sql_first _ (groups db)) as [x|] eqn:E.
  { apply sql_first_Some in E as [Hx Hk]. bsimp. by destruct (Hno x Hx). }
  unfold insert_group in Hseed. destruct (sql_insert _ _ (groups db)) as [[t id]|] eqn:Ei; cbn [result_bind] in Hseed; [|done].
  apply sql_insert_inv in Ei as (_ & _ & Hr & _). simpl in Hseed.
  destruct (insert_or_ignore_group_policies _ _ _ _) as [db2|] eqn:Eg; cbn [result_bind] in Hseed; [|done]. injection Hseed as <- <-.
  apply insert_or_ignore_in_group in Eg as [Hgs Himp]. split.
  - apply Himp. right. intros Hnil. assert (p_id p ∈ map p_id (sql_select (λ p, seeded_action (p_action p)) (policy db))) as Hin.
    { apply elem_of_mapb. exists p. split; [done|]. by apply elem_of_filterb. }
    rewrite Hnil in Hin. by apply elem_of_nil in Hin.
  - exists (mkGroup id "Organization Admin" 1 (Some org) now now). rewrite Hgs. simpl. rewrite Hr. split_and!; [|done|done].
    apply elem_of_app. right. by apply list_elem_of_singleton.
Qed.

(** An organization that was created with its default group cannot be deleted again: the deletion
    of the group that goes with it is refused by the policies of the group.  The caller reads that
    the owner was not found, and nothing changes. *)
Theorem seeded_organizations_stay db_message now later owner input db db' o p :
  organization_service_create now owner input db = (db', Ok o) → table_wf (organization db) →
  (∀ g, g ∈ rows (groups (perm db)) → g_organization_id g ≠ Some (seq (organization db) + 1)%Z) →
  p ∈ rows (policy (perm db)) → seeded_action (p_action p) = true →
  organization_get_by_id (or_id o) db' = Some o
  ∧ organization_handler_delete db_message later (or_id o) db' = (db', Err (404%Z, "owner not found")).
Proof.
  intros Hc Hwf Hno Hp Hact. unfold organization_service_create in Hc. apply bind_ok in Hc as (s1 & [] & Hg & Hc).
  unfold guard in Hg. destruct (str_is_empty _); [done|]. injection Hg as <-. apply bind_ok in Hc as (db1 & o' & Hcr & Hc).
  apply bind_ok in Hc as (db2 & [] & Hseed & Hret). injection Hret as <- <-. unfold sql_step in Hcr, Hseed.
  destruct (create_with_admin _ _ _ _ _ _) as [[d x]|] eqn:Ec; [|done]. injection Hcr as <- <-.
  apply create_with_admin_inv in Ec as (Ho & Hr & Hgs & Hps & _). 
  destruct (seed_organization_defaults _ _ _) as [[pd g]|] eqn:Es; cbn [result_bind] in Hseed; [|done]. injection Hseed as <-.
  assert (Hget : organization_get_by_id (or_id x) (with_perm pd d) = Some x).
  { unfold organization_get_by_id, sql_first, sql_select. simpl. rewrite Hr, List.filter_app, filterb_all_false; simpl; [by rewrite Z.eqb_refl|].
    intros y Hy. apply Z.eqb_neq. pose proof (wf_seq _ Hwf y Hy) as Hle. rewrite Ho. simpl in *. lia. }
  split; [done|]. eapply seeded_group in Es as ((gp & Hgp & Hgid) & grp & Hgrp & Hid & Horg);
    [|rewrite Hgs, Ho; exact Hno|rewrite Hps; exact Hp|exact Hact].
  unfold organization_handler_delete, respond. by rewrite (seeded_delete later _ _ x grp gp) by (done || congruence).
Qed.

(** ** Samples *)

Section sample.
#[local] Instance sample_json : JsonText := {| json_parse s := if bool_decide (s = "{}") then Some (VObject []) else None; json_print _ := "" |}.
Definition sample_policy : BackgroundPolicy := mkBackgroundPolicy "0 3 * * *" "0 0 * * *" 30 true true.
Definition no_settings : SettingsState := mkSettingsState empty_table sample_policy.
Definition new_cron : UpdateSettingsDto :=
  mkUpdateSettings None None None None (Some "panel.test") None None (Some "0 5 * * *") None None None None None.
Definition short_retention : UpdateSettingsDto :=
  mkUpdateSettings None None None None (Some "panel.test") None None None None None (Some 0%Z) None None.
Definition error_of (s : string) : string := "error in " +:+ s.

Lemma no_settings_ok : settings_ok error_of no_settings.
Proof. split; [simpl; lia|constructor|vm_compute; reflexivity]. Qed.
Lemma settings_stay_valid_witness :
  settings_ok error_of (settings_run error_of [(5%Z, PutSettings new_cron); (6%Z, PutSettings short_retention)] no_settings)
  ∧ length (rows (ss_settings (settings_run error_of [(5%Z, PutSettings new_cron); (6%Z, PutSettings short_retention)] no_settings))) = 1.
Proof.
  destruct (settings_stay_valid error_of [(5%Z, PutSettings new_cron); (6%Z, PutSettings short_retention)] no_settings) as [H1 H2];
    [done|apply no_settings_ok|]. split; [exact H1|]. by apply H2.
Defined.
Lemma shown_cron_witness :
  match (settings_handler error_of 6 (PutSettings new_cron) (settings_run error_of [] no_settings)).2 with
  | Ok (_, a) => sr_log_cleanup_cron a = Some "0 0 * * *"
  | Err _ => False
  end.
Proof.
  destruct ((settings_handler error_of 6 (PutSettings new_cron) (settings_run error_of [] no_settings)).2) as [[code a]|e] eqn:E; [|by vm_compute in E].
  apply (shown_cron_never_changes error_of [] 6 (PutSettings new_cron) no_settings a); [done|apply no_settings_ok|].
  rewrite E. vm_compute in E. by injection E as <- <-.
Defined.

(** An update that is refused for its retention has stored its host. *)
Example refused_update_is_stored :
  match settings_handler error_of 6 (PutSettings short_retention) no_settings with
  | (s', Err (400%Z, _)) => map st_host (rows (ss_settings s')) = [Some "panel.test"]
  | _ => False
  end.
Proof. by vm_compute. Qed.

Definition hub : Registry := mkRegistry 1 "hub" None "old" "old" "registry.test" "SELF_HOSTED" 0 0.
Definition sample_login (server : option string) (username password : string) : result ExecOutput string :=
  if bool_decide (server = Some "registry.test" ∧ username = "new") then Ok (mkExec (Some 0%Z) "" "") else Ok (mkExec (Some 1%Z) "" "denied").
Definition text_of_error (e : SqlError) : string := match e with RowNotFound => "not found" | _ => "failed" end.
Lemma rotation_is_checked_witness :
  let s := mkRegistryState (mkTable [hub] 1) [mkRefs 1 "api" (Some 1%Z) None None] in
  (rotate_credentials sample_login text_of_error 9 1 "new" "secret" s).2
    = Ok (mkRegistry 1 "hub" None "new" "secret" "registry.test" "SELF_HOSTED" 0 9)
  ∧ rotate_credentials sample_login text_of_error 9 1 "guess" "secret" s = (s, Err "Login failed: denied").
Proof.
  intros s. assert (Hwf : table_wf (rs_registries s)) by (apply table_check_wf; vm_compute; reflexivity).
  split; rewrite (rotation_is_checked sample_login text_of_error 9 1 _ _ s Hwf); by vm_compute.
Defined.

Definition two_organizations : AuthDb :=
  mkAuthDb sample_perm empty_table empty_table empty_table empty_table empty_table
    (mkTable [mkOrganization 1 "One" None "one" 1 0 0; mkOrganization 2 "Two" None "two" 1 0 0] 2).
Definition third : CreateOrganizationDto := mkCreateOrganization "Third  Team!" None None.
Definition third_row : Organization := mkOrganization 3 "Third  Team!" None "third-team" 1 9 9.
Lemma refused_organization_witness :
  ∃ db1, organization_service_create 9 1 third two_organizations = (db1, Err UniqueFailed) ∧ organization_get_by_id 3 db1 = Some third_row
         ∧ member_role 1 3 (perm db1) = Ok (Some "ADMIN").
Proof.
  destruct (create_with_admin 9 1 "Third  Team!" None (normalize_slug "Third  Team!") two_organizations) as [[db1 o]|] eqn:E; [|by vm_compute in E].
  assert (Ho : o = third_row) by (vm_compute in E; injection E as <- <-; reflexivity). exists db1. subst o.
  apply (refused_organization_exists 9 1 third two_organizations db1 third_row (mkGroup 2 "Organization Admin" 1 (Some 1%Z) 0 0)); try done.
  - apply table_check_wf. vm_compute. reflexivity.
  - apply table_check_wf. vm_compute. reflexivity.
  - simpl. apply list_elem_of_further, list_elem_of_here.
Defined.

Definition one_user : AuthDb :=
  mkAuthDb (mkPermDb (mkTable [sample_user 1 "root@x.io" "OWNER"] 1) (mkTable [mkGroup 1 "owner" 0 None 0 0] 1)
              (mkTable [mkPolicy 1 "deployment:read" 0] 1) empty_table empty_table empty_table empty_table empty_table empty_table [])
    empty_table empty_table empty_table empty_table empty_table empty_table.
Lemma seeded_organizations_witness :
  ∃ db', organization_service_create 9 1 third one_user = (db', Ok (mkOrganization 1 "Third  Team!" None "third-team" 1 9 9))
         ∧ organization_handler_delete text_of_error 20 1 db' = (db', Err (404%Z, "owner not found")).
Proof.
  destruct (organization_service_create 9 1 third one_user) as [db' r] eqn:E.
  assert (Hr : r = Ok (mkOrganization 1 "Third  Team!" None "third-team" 1 9 9)) by (vm_compute in E; by injection E as <- <-). subst r.
  exists db'. split; [done|].
  apply (seeded_organizations_stay text_of_error 9 20 1 third one_user db' _ (mkPolicy 1 "deployment:read" 0) E);
    [apply table_check_wf; vm_compute; reflexivity| |apply list_elem_of_here|vm_compute; reflexivity].
  intros g Hg. simpl in Hg. apply list_elem_of_singleton in Hg as ->. done.
Defined.

(** Deletions, with the answers of the service *)
Definition sample_keys : KeyState := mkKeyState (mkTable [mkSshKey 1 "deploy" None "" "ssh-ed25519 A" None 0 0] 1) [Some 1%Z] [None] [].
Example used_key_is_kept : key_delete 1 sample_keys = (sample_keys, Err key_in_use).
Proof. reflexivity. Qed.
Example unused_key_is_deleted : rows (ks_keys (key_delete 1 (mkKeyState (ks_keys sample_keys) [None] [] [])).1) = [].
Proof. reflexivity. Qed.
Example registry_urls :
  api_url " registry.test/ " "/v2/" = "https://registry.test/v2/" ∧ api_url "http://registry.test" "/v2/" = "http://registry.test/v2/".
Proof. by vm_compute. Qed.
End sample.
